(* ===== verification/_CoqProject ===== *)
-Q . S2P
Prelude.v
Packer.v
UdHeader.v
Smi.v
Verbs.v
MadReg.v
Mlx5Qp.v
Mlx5Size.v
Bfreg.v
SegAlloc.v
Buddy.v
IcmPool.v
RmppRecv.v
RmppSend.v
RmppSystem.v
MadSend.v
MadAgent.v
MadRuns.v
SaCc.v
SaCcRuns.v
MadQueue.v
Outcome.v
Iwcm.v
IwcmSystem.v
IwcmInv.v
IwcmBooks.v
IwcmRuns.v
Mcast.v
McastTable.v
McastInv.v
McastRuns.v
Umem.v
UmemPgsz.v
UmemPin.v
Mlx5Mem.v
GidCache.v
GidInv.v
GidSteps.v
GidRuns.v
PortCache.v
SaRec.v
SaQuery.v
SaInv.v
SaSteps.v
SaRetry.v
SaRuns.v
