(* ===== verification/Prelude.v ===== *)
(** * A verification library for the RDMA kernel drivers

    The repository is a build of the kernel's RDMA stack: the core modules (management
    datagrams, verbs, packet headers) under drivers/infiniband/core, and the mlx5 driver
    under drivers/infiniband/hw/mlx5, extended by a queue pair type of its own (SRM). A
    management datagram (MAD) is received by core/mad.c, which lets the subnet management
    interface (core/smi.c) route directed packets through switches and hands the rest to
    the agent registered for its class; core/ud_header.c and core/packer.c build and read
    the headers of such packets. User programs create queue pairs through the verbs
    (core/verbs.c holds the state machine all drivers share); mlx5 computes their sizes,
    gives them doorbell registers and drives them through their states with firmware
    commands. Long management messages travel as segments of the reliable multi-packet
    protocol (core/mad_rmpp.c). Connections over iWARP devices are set up and torn down by
    core/iwcm.c between a client (the RDMA connection manager) and a provider (the driver),
    which reports events that a work queue hands to the client. Clients share the multicast
    groups core/multicast.c has joined for a port at the subnet administrator, which is asked
    for paths and memberships by core/sa_query.c, through a local service or with MADs. What the core
    knows of a port, its GIDs, P_Keys and attributes, is in core/cache.c, which updates it on
    events and lends GIDs to users by reference. Memory of user programs is pinned and cut
    into blocks by core/umem.c; mlx5 writes the blocks of queue buffers into page lists. Below,
    the steering code of the mlx5 core driver keeps the device memory of its rules in pools
    (steering/dr_icm_pool.c) over a buddy allocator (steering/dr_buddy.c).

    ** Files

    - [Prelude]: integers at their width, byte buffers, shared lemmas and tactics.
    - [Packer] (core/packer.c): [ib_pack] and [ib_unpack] on byte buffers, for any table of
      fields. Packing and unpacking are inverse; only the bits of the fields change; the
      64-bit branch of unpacking addresses another place than packing.
    - [UdHeader] (core/ud_header.c): the tables of the eight headers, [ib_ud_header_init],
      [ib_ud_header_pack], [ib_ud_header_unpack], the IPv4 checksum. Memory safety, round
      trip, the lengths and the errors.
    - [Smi] (core/smi.c, smi.h, opa_smi.h, the callers in mad.c): directed-route packets,
      for InfiniBand and OPA packets through the class [DrSmp]. A packet that travels a
      route comes back over it; no access leaves the 64-byte paths; where packets are
      forwarded to.
    - [Verbs] (core/verbs.c): the table of queue pair transitions and its check, rates,
      widths and speeds. The exact behaviour of the check, the diagram it draws, and an
      invariant of all runs: what a queue pair in a state has been given.
    - [MadReg] (core/mad.c): the registration tables (version, class or vendor class, OUI,
      method), registering and unregistering agents with all error paths, finding the
      agent of a received MAD. What each operation does to the meaning of the tables (which
      agent a version, class, OUI and method leads to), and that unregistering undoes
      registering.
    - [Mlx5Qp] (hw/mlx5/qp.c): the checks of [mlx5_ib_modify_qp], the command and
      optional-parameter tables, the DCI check, static rates. Proved against the interface
      [Verbs] provides (its edges and diagram).
    - [Mlx5Size] (hw/mlx5/qp.c): sizes of work queues at the widths of the C types.
    - [Bfreg] (hw/mlx5/qp.c and main.c): doorbell registers and UAR pages of user contexts,
      and the resources of user queue pairs.
    - [SegAlloc]: the interface of a segment allocator, the class [SegAllocator] with the
      laws the pool relies on.
    - [Buddy] (steering/dr_buddy.c): the bitmaps and counters of the buddy allocator. What
      an allocation takes, that releasing it restores the state, and that every run refines
      an abstract allocator that knows only the blocks handed out; the instance of
      [SegAllocator].
    - [IcmPool] (steering/dr_icm_pool.c), over any [SegAllocator]: memory regions, chunks,
      the array of chunks waiting for a synchronisation of the device, teardown. The
      invariant of the pool under all operations, disjointness of chunks, success of
      allocations, no leaks; and the overflow after failed synchronisations.
    - [RmppRecv] (core/mad_rmpp.c): the receiving side of RMPP. Reassembly of segments in
      any order gives exactly the message, once, and the window never blocks it.
    - [RmppSend] (core/mad_rmpp.c, the segment lists of mad.c): segmentation, the send
      window, retries, the handlers of ACK, STOP and ABORT and the entry point of received
      RMPP packets. Only segments inside the granted window are sent; the length computed
      by the receiver is the length posted.
    - [RmppSystem]: both sides and a network that loses, repeats and reorders packets. What
      is delivered is what was posted, and it is acknowledged only once delivered.
    - [MadSend] (core/mad.c): the send, wait and done lists of an agent; posting, device
      completions, responses and how they are matched with sends, the RMPP answers
      ([RmppSend], [RmppRecv]) on the lists, timeouts and retries, modification,
      cancellation; what each RMPP step does to a send. [MadAgent]: the invariant of the
      lists (what a reference count counts, who completes a send) and that every
      operation keeps it. [MadRuns]: all sequences of these operations: every send is
      reported once, references are exact, timeouts end, a cancelled agent drains.
    - [SaCc] (core/mad.c): the congestion control of requests to the subnet administrator,
      a window and a FIFO whose entries expire, with its invariant. [SaCcRuns]: requests
      are conserved, the window is kept and used, what expires is reported.
    - [MadQueue] (core/mad.c): the send queue of a queue pair with its overflow list and the
      window of SMPs before it. No send is lost or doubled, both limits are kept and used;
      what failing posts do to the window.
    - [Outcome]: results of the sections of concurrent code.
    - [Iwcm] (core/iwcm.c): the iWARP connection manager. Every call of the client, the event
      upcall of the provider and the work handler is a program of sections, a section being
      what runs under the lock or between two points where other threads can interfere.
      [IwcmSystem]: one identifier with its client, its provider and the work queue, the
      steps they interleave and the rules clients and providers keep. [IwcmInv],
      [IwcmBooks]: the invariants. [IwcmRuns]: no run hits a bug or a freed identifier,
      references are exact, the client sees the events of a connection in order and none
      after destroying it, destroying ends; and runs outside the rules that go wrong.
    - [Mcast] (core/multicast.c): a multicast group with its members, as sections that
      interleave: requests of clients, freeing, the handler that serves the group, the
      answers of the SA, events of the port. [McastInv]: its invariant. [McastRuns]: no freed
      group or member is used, references are exact, one handler at a time and no lost
      wake-up, what the counters count and what the port has joined, what callbacks see, the
      handler ends; the comparison of records; runs that go wrong. [McastTable]: the search
      tree of the groups of a port over an interface [RbTree], which behaves as a map.
    - [Umem] (core/umem.c, include/rdma/ib_umem.h, the block iterator of core/verbs.c): page
      sizes and DMA blocks of user memory; the blocks lead to the memory. [UmemPgsz]: the page
      size chosen is the best of the supported ones. [UmemPin]: pinning, accounting, the
      scatter list, DMA mapping and release, all or nothing; a device reaches the bytes of the
      user through the blocks. [Mlx5Mem] (hw/mlx5/mem.c, mlx5_ib.h, devx.c): the page lists and
      offsets of queue buffers, the page size of DEVX memory.
    - [GidCache] (core/cache.c): the GID tables. Writers hold the mutex of a table and are
      programs of sections; users, work items and RCU callbacks interleave with them.
      [GidInv]: the phases in the life of an entry and the invariant. [GidSteps]: every step
      keeps it. [GidRuns]: no freed entry is used, references are exact, teardown leaves
      nothing, no duplicates and a hardware table in step with the cache, operations end,
      what adding and looking up return; a deleted entry that is called valid.
    - [PortCache] (core/cache.c): P_Keys and attributes of a port, their update on events, the
      event work items, the lookups.
    - [SaRec] (core/sa_query.c, include/rdma/ib_sa.h, opa_addr.h): the tables of the records of
      subnet administration over [Packer], path records of InfiniBand and OPA as bytes of one
      structure, the conversions. Records come back from a MAD as they were sent; an OPA path
      survives a query in the InfiniBand format.
    - [SaQuery] (core/sa_query.c): queries as objects that threads, the local service with its
      list and timer, and the MAD layer hand on, one critical section at a time; cancellation,
      clients, the address handle of the subnet manager, the class port information, the device.
      [SaInv]: the stages of a query and the invariant. [SaSteps]: every step keeps it.
      [SaRetry]: what each step does to the count of retries of the class port query.
      [SaRuns]: nothing is used that is freed or not there but by a late cancellation and for
      an attribute that is too short, a query is reported once, references are exact and all
      given back, requests have a timer, the class port query is retried three times at most,
      no query is stuck; runs that go wrong.

    ** Conventions

    A C integer is an element of [Z] and every conversion is written out ([u8], [u32],
    [s32], ...). An access outside an array or a memory block, or another operation without
    defined behaviour, gives [None]: a theorem that says that an operation returns [Some]
    says that it stays in its bounds. Errors are values ([err EINVAL] is -EINVAL). Results
    of code outside the model (firmware, allocation, copies from user space) are arguments,
    so that a theorem holds for whatever they answer. Where the code relies on documented
    behaviour of the kernel it is a hypothesis: [env_ok] in [UmemPin] (pinning returns the
    frames behind the addresses, DMA mapping keeps the memory and its length), [umem_ok] in
    [Umem] (a list of DMA segments of whole pages), [port_ok] in [PortCache] (errors are not 0),
    [client_ok] in [GidCache] (GID tables are not longer than announced), [client_ok] in
    [SaQuery] (clients are registered, a device is removed when its queries are with the MAD
    layer: [quiet_removal]), [answers_ok] in [SaRuns] (errors are negative numbers, a new
    identifier is free), [allowed] in [Mcast] (a member is freed once, a join that the SA grants
    has the join state asked for), [cc_cmds_ok] in [SaCc] (requests have a timeout, time stays
    below the wrap of [jiffies]).

    Where the code itself does not ensure what it needs, the statement says so: as an exception
    in its conclusion ([mcast_never_bugs] for the retry counted after a leave was sent again,
    [mcast_table_correct] for an MGID the SA gives twice, [collides], [sa_queries_never_bug] for
    late cancellations and short attributes, [sa_cc_requests_conserved] for the list head read
    as an entry, [reads_head], [opa_path_through_ib_query] for small LIDs, [lids_back],
    [calc_sq_size_correct] for sizes that overflow, [size_overflow]) or as an explicit premise
    about the run ([rearms] in [MadRuns]: no send that awaits nothing is given a timeout;
    [whole_attrs] in [SaRuns] for the theorem that queries end). A run or an example beside each
    theorem shows the fault.

    Loops run over lists or over a number of iterations the source fixes (the number of
    registers, of pages, of rate codes); [lower_rate] gets 256 iterations because the rate
    is an 8-bit code that decreases, and [lower_rate_spec] shows that this is enough. The
    loops of the buddy allocator get [max_order + 2] iterations, one more than the number
    of orders; the search of the pool gets the two rounds it can need; the allocation of
    segments gets one iteration per byte of the message; the walks over a segment list get
    its length; the loop of [timeout_sends] gets the length of the wait list, that of
    [sa_cc_mad_done] the length of the FIFO and one; the loop that gathers pages gets their
    number, the one that pins them the number of pages left, the loops that halve a page size
    65 rounds, one more than a size has bits; the block iterator gets the number of blocks and
    one. Each bound is shown to be enough by a theorem that says the operation returns. The
    loops of the concurrent code are runs of sections without a bound; their ends are shown with
    a measure that each section decreases.

    ** What is not modelled

    Local completions and error recovery of the MAD layer, the contents of the contexts and
    commands given to the firmware, raw packet and DCT queue pairs, the connection
    managers but for iWARP, address resolution, the user-space interfaces, memory of peer
    devices, DMA buffers and on-demand paging, the Ethernet driver below mlx5 (except the
    memory of its steering code) and the protocols above the verbs; locking and memory
    reclamation (operations are atomic steps, as under the locks the code holds; where a lock
    is released before a send is completed, the completion is a step of its own; in the iWARP
    connection manager, in multicast groups, in the GID cache and in SA queries the sections
    between the locks interleave); of the SA client, the attributes of address handles made from
    paths and module initialisation. Left for later: the context built by [__mlx5_ib_modify_qp] and read back by
    [query_qp_attr], rate limits of raw packet queues, local completions of MADs. *)

From Stdlib Require Import ZArith Lia.
From stdpp Require Import base tactics numbers list option.

Local Open Scope Z_scope.

(** ** Fixed-width integers

    A C integer of width [w] is an element of [Z]; every place where the code
    stores into a narrower or equal-width object applies the conversion
    explicitly. *)

Definition u8 (z : Z) : Z := z mod 2 ^ 8.
Definition u16 (z : Z) : Z := z mod 2 ^ 16.
Definition u32 (z : Z) : Z := z mod 2 ^ 32.
Definition u64 (z : Z) : Z := z mod 2 ^ 64.

(** Conversion to a signed type of width [w] (two's complement, as gcc does). *)
Definition swrap (w z : Z) : Z := (z + 2 ^ (w - 1)) mod 2 ^ w - 2 ^ (w - 1).
Definition s32 (z : Z) : Z := swrap 32 z.
Definition s64 (z : Z) : Z := swrap 64 z.

(** A C truth value. *)
Definition truthy (z : Z) : bool := negb (z =? 0).

(** [x & m] used as a condition. *)
Definition has_flag (x m : Z) : bool := truthy (Z.land x m).

(** Error numbers returned by the kernel functions ([-ENOMEM] is
    [err ENOMEM]). *)
Definition EIO : Z := 5.
Definition ENXIO : Z := 6.
Definition ENOMEM : Z := 12.
Definition EBUSY : Z := 16.
Definition ENODEV : Z := 19.
Definition EINVAL : Z := 22.
Definition ECOMM : Z := 70.
Definition EPROTONOSUPPORT : Z := 93.
Definition ETIMEDOUT : Z := 110.
Definition err (e : Z) : Z := - e.

Lemma u8_range z : 0 <= u8 z < 256.
Proof. apply Z.mod_pos_bound; lia. Qed.

Lemma u16_range z : 0 <= u16 z < 65536.
Proof. apply Z.mod_pos_bound; lia. Qed.

Lemma u32_range z : 0 <= u32 z < 2 ^ 32.
Proof. apply Z.mod_pos_bound; lia. Qed.

Lemma u64_range z : 0 <= u64 z < 2 ^ 64.
Proof. apply Z.mod_pos_bound; lia. Qed.

Create HintDb widths.
#[export] Hint Resolve u8_range u16_range u32_range u64_range : widths.

Lemma u8_id z : 0 <= z < 256 -> u8 z = z.
Proof. intros; apply Z.mod_small; lia. Qed.

Lemma u16_id z : 0 <= z < 65536 -> u16 z = z.
Proof. intros; apply Z.mod_small; lia. Qed.

Lemma u32_id z : 0 <= z < 2 ^ 32 -> u32 z = z.
Proof. intros; apply Z.mod_small; lia. Qed.

Lemma u64_id z : 0 <= z < 2 ^ 64 -> u64 z = z.
Proof. intros; apply Z.mod_small; lia. Qed.

Lemma swrap_id w z :
  0 < w -> - 2 ^ (w - 1) <= z < 2 ^ (w - 1) -> swrap w z = z.
Proof.
  intros Hw Hz. unfold swrap.
  assert (2 ^ w = 2 * 2 ^ (w - 1)) as E.
  { replace w with (1 + (w - 1)) at 1 by lia. rewrite Z.pow_add_r by lia. lia. }
  rewrite Z.mod_small by lia. lia.
Qed.

Lemma swrap_range w z :
  0 < w -> - 2 ^ (w - 1) <= swrap w z < 2 ^ (w - 1).
Proof.
  intros Hw. unfold swrap.
  assert (2 ^ w = 2 * 2 ^ (w - 1)) as E.
  { replace w with (1 + (w - 1)) at 1 by lia. rewrite Z.pow_add_r by lia. lia. }
  assert (0 < 2 ^ w) by (apply Z.pow_pos_nonneg; lia).
  pose proof (Z.mod_pos_bound (z + 2 ^ (w - 1)) (2 ^ w)). lia.
Qed.

Lemma s32_id z : - 2 ^ 31 <= z < 2 ^ 31 -> s32 z = z.
Proof. intros. apply swrap_id; simpl Z.sub; lia. Qed.

(** ** Bits *)


Lemma testbit_mask size shift i :
  0 <= size -> 0 <= shift -> 0 <= i ->
  Z.testbit (Z.shiftl (Z.ones size) shift) i
  = bool_decide (shift <= i < shift + size).
Proof.
  intros Hs Hsh Hi. rewrite Z.shiftl_spec by lia.
  destruct (decide (i < shift)).
  - rewrite Z.testbit_neg_r by lia.
    symmetry; apply bool_decide_eq_false; lia.
  - rewrite Z.testbit_ones_nonneg by lia.
    destruct (Z.ltb_spec (i - shift) size); symmetry;
      [apply bool_decide_eq_true | apply bool_decide_eq_false]; lia.
Qed.

Lemma testbit_high n v i : 0 <= v < 2 ^ n -> n <= i -> Z.testbit v i = false.
Proof.
  intros Hv Hi. destruct (decide (v = 0)) as [->|Hn]; [apply Z.bits_0|].
  apply Z.bits_above_log2; [lia|].
  apply Z.log2_lt_pow2; [lia|].
  eapply Z.lt_le_trans; [apply Hv|].
  apply Z.pow_le_mono_r; [lia|].
  destruct (decide (n < 0)); [rewrite Z.pow_neg_r in Hv by lia; lia | lia].
Qed.

Lemma ones_pow2 n : 0 <= n -> Z.shiftl 1 n - 1 = Z.ones n.
Proof. intros. rewrite Z.ones_equiv, Z.shiftl_1_l. lia. Qed.

Lemma land_mod_pow2 v n : 0 <= n -> Z.land v (Z.ones n) = v mod 2 ^ n.
Proof. apply Z.land_ones. Qed.

Lemma lor_shiftl_add b n v :
  0 <= n -> 0 <= v < 2 ^ n -> Z.lor (Z.shiftl b n) v = b * 2 ^ n + v.
Proof.
  intros Hn Hv. rewrite Z.shiftl_mul_pow2 by lia.
  assert (Z.land (b * 2 ^ n) v = 0) as E.
  { apply Z.bits_inj'; intros i Hi. rewrite Z.land_spec, Z.bits_0.
    destruct (decide (i < n)).
    - by rewrite Z.mul_pow2_bits_low by lia.
    - rewrite (testbit_high n v) by lia. apply andb_false_r. }
  rewrite <- Z.lxor_lor by done. symmetry. by apply Z.add_nocarry_lxor.
Qed.

(** ** Byte buffers

    A block of memory is the list of its bytes. An access outside the block is
    undefined in C: the partial operations below return [None] there. *)

Definition is_byte (b : Z) : Prop := 0 <= b < 256.
Abbreviation bytes_ok := (Forall is_byte).

Definition mem_read (off n : nat) (m : list Z) : option (list Z) :=
  if bool_decide (off + n <= length m)%nat then Some (take n (drop off m)) else None.

Definition mem_write (off : nat) (bs m : list Z) : option (list Z) :=
  if bool_decide (off + length bs <= length m)%nat
  then Some (take off m ++ bs ++ drop (off + length bs) m) else None.

(** Big-endian value of a byte string. *)
Fixpoint be_combine (bs : list Z) : Z :=
  match bs with
  | [] => 0
  | b :: r => Z.lor (Z.shiftl b (8 * Z.of_nat (length r))) (be_combine r)
  end.

(** The [n] bytes of [v], most significant first. *)
Fixpoint be_split (n : nat) (v : Z) : list Z :=
  match n with
  | O => []
  | S n' => Z.land (Z.shiftr v (8 * Z.of_nat n')) 255 :: be_split n' v
  end.

(** Bit [k] of a buffer in wire order (bit 0 is the top bit of byte 0). *)
Definition bit_at (m : list Z) (k : nat) : bool :=
  Z.testbit (default 0 (m !! (k / 8)%nat)) (7 - Z.of_nat (k mod 8)).

Lemma length_be_split n v : length (be_split n v) = n.
Proof. induction n; simpl; congruence. Qed.

Lemma be_split_bytes n v : bytes_ok (be_split n v).
Proof.
  induction n as [|n IH]; simpl; constructor; [|done].
  change 255 with (Z.ones 8). rewrite Z.land_ones by lia.
  apply Z.mod_pos_bound; lia.
Qed.

Lemma be_combine_range bs :
  bytes_ok bs -> 0 <= be_combine bs < 2 ^ (8 * Z.of_nat (length bs)).
Proof.
  induction 1 as [|b r Hb _ IH]; simpl be_combine; [simpl; lia|].
  set (n := 8 * Z.of_nat (length r)) in *.
  assert (8 * Z.of_nat (length (b :: r)) = 8 + n) as ->
    by (cbn [length]; lia).
  assert (0 <= n) by lia.
  rewrite lor_shiftl_add by lia.
  rewrite Z.pow_add_r by lia. unfold is_byte in Hb. nia.
Qed.

Lemma nat_div8 k : (k = 8 * (k / 8) + k mod 8 /\ k mod 8 < 8)%nat.
Proof. split; [apply Nat.div_mod_eq | apply Nat.mod_upper_bound; lia]. Qed.

Lemma bit_at_cons b r k :
  bit_at (b :: r) k =
  if bool_decide (k < 8)%nat then Z.testbit b (7 - Z.of_nat k) else bit_at r (k - 8).
Proof.
  unfold bit_at. case_bool_decide as Hk.
  - rewrite Nat.div_small, Nat.mod_small by lia. done.
  - pose proof (nat_div8 k). pose proof (nat_div8 (k - 8)).
    assert (k / 8 = S ((k - 8) / 8))%nat as -> by lia.
    assert (k mod 8 = (k - 8) mod 8)%nat as -> by lia.
    done.
Qed.

Lemma testbit_be_combine bs i :
  bytes_ok bs -> 0 <= i < 8 * Z.of_nat (length bs) ->
  Z.testbit (be_combine bs) i = bit_at bs (8 * length bs - 1 - Z.to_nat i).
Proof.
  intros Hbs. revert i. induction Hbs as [|b r Hb Hr IH]; intros i Hi;
    [simpl in Hi; lia|].
  simpl be_combine. rewrite Z.lor_spec, Z.shiftl_spec by lia.
  cbn [length] in *. rewrite bit_at_cons.
  pose proof (be_combine_range r Hr) as Hc.
  destruct (decide (i < 8 * Z.of_nat (length r))).
  - rewrite Z.testbit_neg_r by lia. rewrite bool_decide_eq_false_2 by lia.
    rewrite IH by lia. simpl. f_equal; lia.
  - rewrite bool_decide_eq_true_2 by lia.
    rewrite (testbit_high _ (be_combine r) i Hc) by lia.
    rewrite orb_false_r. f_equal; lia.
Qed.

Lemma bit_at_be_split n v k :
  (k < 8 * n)%nat ->
  bit_at (be_split n v) k = Z.testbit v (8 * Z.of_nat n - 1 - Z.of_nat k).
Proof.
  revert k. induction n as [|n IH]; intros k Hk; [lia|].
  cbn [be_split]. rewrite bit_at_cons. case_bool_decide.
  - rewrite Z.land_spec, Z.shiftr_spec by lia.
    change 255 with (Z.ones 8). rewrite Z.testbit_ones_nonneg by lia.
    rewrite (proj2 (Z.ltb_lt _ _)) by lia. rewrite andb_true_r. f_equal; lia.
  - rewrite IH by lia. f_equal; lia.
Qed.

Lemma be_combine_split n v :
  0 <= v < 2 ^ (8 * Z.of_nat n) -> be_combine (be_split n v) = v.
Proof.
  intros Hv. apply Z.bits_inj'. intros i Hi.
  destruct (decide (i < 8 * Z.of_nat n)).
  - rewrite testbit_be_combine by
      (try apply be_split_bytes; rewrite ?length_be_split; lia).
    rewrite length_be_split, bit_at_be_split by lia. f_equal; lia.
  - pose proof (be_combine_range (be_split n v) (be_split_bytes n v)) as Hr.
    rewrite length_be_split in Hr.
    rewrite (testbit_high _ _ _ Hr), (testbit_high _ _ _ Hv) by lia. done.
Qed.

(** *** Reading and writing blocks *)

Lemma mem_read_Some off n m bs :
  mem_read off n m = Some bs <-> (off + n <= length m)%nat /\ bs = take n (drop off m).
Proof. unfold mem_read. case_bool_decide; split; intros; by destruct_and?; simplify_eq. Qed.

Lemma mem_write_Some off bs m m' :
  mem_write off bs m = Some m' <->
  (off + length bs <= length m)%nat /\
  m' = take off m ++ bs ++ drop (off + length bs) m.
Proof. unfold mem_write. case_bool_decide; split; intros; by destruct_and?; simplify_eq. Qed.

Lemma mem_read_ok off n m :
  (off + n <= length m)%nat -> exists bs, mem_read off n m = Some bs.
Proof. intros. eexists. apply mem_read_Some. eauto. Qed.

Lemma mem_write_ok off bs m :
  (off + length bs <= length m)%nat -> exists m', mem_write off bs m = Some m'.
Proof. intros. eexists. apply mem_write_Some. eauto. Qed.

Lemma length_mem_read off n m bs : mem_read off n m = Some bs -> length bs = n.
Proof. intros [? ->]%mem_read_Some. rewrite length_take, length_drop. lia. Qed.

Lemma length_mem_write off bs m m' :
  mem_write off bs m = Some m' -> length m' = length m.
Proof.
  intros [? ->]%mem_write_Some.
  rewrite !length_app, length_take, length_drop. lia.
Qed.

Lemma mem_read_bytes off n m bs :
  bytes_ok m -> mem_read off n m = Some bs -> bytes_ok bs.
Proof. intros Hm [_ ->]%mem_read_Some. by apply Forall_take, Forall_drop. Qed.

Lemma mem_write_bytes off bs m m' :
  bytes_ok m -> bytes_ok bs -> mem_write off bs m = Some m' -> bytes_ok m'.
Proof.
  intros Hm Hbs [_ ->]%mem_write_Some.
  apply Forall_app; split; [by apply Forall_take|].
  apply Forall_app; split; [done|by apply Forall_drop].
Qed.

Lemma lookup_mem_read off n m bs i :
  mem_read off n m = Some bs -> (i < n)%nat -> bs !! i = m !! (off + i)%nat.
Proof.
  intros [? ->]%mem_read_Some Hi.
  rewrite lookup_take, lookup_drop by lia. case_decide; [done|lia].
Qed.

Lemma lookup_mem_write off bs m m' i :
  mem_write off bs m = Some m' ->
  m' !! i = if bool_decide (off <= i < off + length bs)%nat
            then bs !! (i - off)%nat else m !! i.
Proof.
  intros [Hl ->]%mem_write_Some.
  assert (length (take off m) = off) as Ht by (rewrite length_take; lia).
  case_bool_decide as Hi.
  - rewrite lookup_app_r by lia. rewrite Ht, lookup_app_l by lia. done.
  - destruct (decide (i < off)%nat).
    + rewrite lookup_app_l by lia. rewrite lookup_take by lia. case_decide; [done|lia].
    + rewrite lookup_app_r by lia. rewrite lookup_app_r by lia.
      rewrite lookup_drop. f_equal. lia.
Qed.

(** Reading back what was written, and reading elsewhere. *)
Lemma mem_read_write_eq off bs m m' :
  mem_write off bs m = Some m' -> mem_read off (length bs) m' = Some bs.
Proof.
  intros Hw. apply mem_read_Some. pose proof (length_mem_write _ _ _ _ Hw).
  apply mem_write_Some in Hw as [? ->].
  split; [lia|].
  rewrite drop_app_length', take_app_length' by (rewrite ?length_take; lia). done.
Qed.

Lemma mem_read_write_ne off bs m m' off' n :
  mem_write off bs m = Some m' ->
  (off' + n <= off \/ off + length bs <= off')%nat ->
  mem_read off' n m' = mem_read off' n m.
Proof.
  intros Hw Hd. unfold mem_read. rewrite (length_mem_write _ _ _ _ Hw).
  case_bool_decide as Hb; [|done]. f_equal. apply list_eq. intros i.
  destruct (decide (i < n)%nat).
  - rewrite !lookup_take, !lookup_drop, !decide_True by lia.
    rewrite (lookup_mem_write _ _ _ _ _ Hw). rewrite bool_decide_eq_false_2 by lia. done.
  - rewrite !lookup_take, !decide_False by lia. done.
Qed.

(** *** The bit view of a buffer *)

Lemma bit_at_read off n m bs k :
  mem_read off n m = Some bs -> (k < 8 * n)%nat ->
  bit_at bs k = bit_at m (8 * off + k).
Proof.
  intros Hr Hk. unfold bit_at.
  assert ((8 * off + k) / 8 = off + k / 8)%nat as ->
    by (pose proof (nat_div8 k); pose proof (nat_div8 (8 * off + k)); lia).
  assert ((8 * off + k) mod 8 = k mod 8)%nat as ->
    by (pose proof (nat_div8 k); pose proof (nat_div8 (8 * off + k)); lia).
  rewrite (lookup_mem_read _ _ _ _ _ Hr); [done|].
  pose proof (nat_div8 k); lia.
Qed.

Lemma bit_at_write off bs m m' k :
  mem_write off bs m = Some m' ->
  bit_at m' k = if bool_decide (8 * off <= k < 8 * (off + length bs))%nat
                then bit_at bs (k - 8 * off) else bit_at m k.
Proof.
  intros Hw. unfold bit_at. rewrite (lookup_mem_write _ _ _ _ _ Hw).
  pose proof (nat_div8 k). case_bool_decide as H1; case_bool_decide as H2; try lia; [|done].
  assert ((k - 8 * off) / 8 = k / 8 - off)%nat as ->
    by (pose proof (nat_div8 (k - 8 * off)); lia).
  assert ((k - 8 * off) mod 8 = k mod 8)%nat as ->
    by (pose proof (nat_div8 (k - 8 * off)); lia).
  done.
Qed.

Lemma bit_at_drop n m k : bit_at (drop n m) k = bit_at m (8 * n + k).
Proof.
  unfold bit_at. rewrite lookup_drop.
  assert ((8 * n + k) / 8 = n + k / 8)%nat as ->
    by (pose proof (nat_div8 k); pose proof (nat_div8 (8 * n + k)); lia).
  assert ((8 * n + k) mod 8 = k mod 8)%nat as ->
    by (pose proof (nat_div8 k); pose proof (nat_div8 (8 * n + k)); lia).
  done.
Qed.

Lemma bit_at_take_app n m b k :
  (n <= length m)%nat ->
  bit_at (take n m ++ b) k =
  if bool_decide (k < 8 * n)%nat then bit_at m k else bit_at b (k - 8 * n).
Proof.
  intros Hn. assert (length (take n m) = n) as Ht by (rewrite length_take; lia).
  unfold bit_at. pose proof (nat_div8 k). case_bool_decide.
  - rewrite lookup_app_l by lia. rewrite lookup_take, decide_True by lia. done.
  - rewrite lookup_app_r by lia. rewrite Ht. pose proof (nat_div8 (k - 8 * n)).
    assert ((k - 8 * n) / 8 = k / 8 - n)%nat as -> by lia.
    assert ((k - 8 * n) mod 8 = k mod 8)%nat as -> by lia.
    done.
Qed.

Lemma testbit_byte_ext b b' :
  is_byte b -> is_byte b' ->
  (forall i : nat, (i < 8)%nat -> Z.testbit b (7 - Z.of_nat i) = Z.testbit b' (7 - Z.of_nat i)) ->
  b = b'.
Proof.
  intros Hb Hb' He. apply Z.bits_inj'. intros i Hi.
  destruct (decide (i < 8)).
  - specialize (He (Z.to_nat (7 - i))). rewrite Z2Nat.id in He by lia.
    replace (7 - (7 - i)) with i in He by lia. apply He. lia.
  - unfold is_byte in *.
    rewrite (testbit_high 8 b), (testbit_high 8 b') by (simpl Z.pow; lia). done.
Qed.

Lemma bytes_bit_ext m m' :
  bytes_ok m -> bytes_ok m' -> length m = length m' ->
  (forall k, (k < 8 * length m)%nat -> bit_at m k = bit_at m' k) -> m = m'.
Proof.
  intros Hm Hm' Hl He. apply list_eq_same_length with (length m); [done|done|].
  intros i x y Hi Hx Hy.
  apply testbit_byte_ext; [exact (Forall_lookup_1 _ _ _ _ Hm Hx)|exact (Forall_lookup_1 _ _ _ _ Hm' Hy)|].
  intros j Hj. specialize (He (8 * i + j)%nat). unfold bit_at in He.
  assert ((8 * i + j) / 8 = i)%nat as E1 by (pose proof (nat_div8 (8 * i + j)); lia).
  assert ((8 * i + j) mod 8 = j)%nat as E2 by (pose proof (nat_div8 (8 * i + j)); lia).
  rewrite E1, E2, Hx, Hy in He. apply He.
  apply lookup_lt_Some in Hx. lia.
Qed.

Lemma be_split_combine bs :
  bytes_ok bs -> be_split (length bs) (be_combine bs) = bs.
Proof.
  intros Hb. apply bytes_bit_ext; rewrite ?length_be_split; try done;
    [apply be_split_bytes|].
  intros k Hk. rewrite bit_at_be_split by lia.
  rewrite testbit_be_combine by (try done; lia). f_equal. lia.
Qed.

(** ** Ltac shared by the components *)

(** Case analysis on the innermost condition of the goal, keeping equations. *)
Ltac case_cond :=
  match goal with
  | |- context [if ?b then _ else _] => let E := fresh "E" in destruct b eqn:E
  end.

(** Turn boolean tests on integers in the context into propositions. *)
Ltac bool_to_prop :=
  repeat match goal with
  | H : (_ =? _) = true |- _ => apply Z.eqb_eq in H
  | H : (_ =? _) = false |- _ => apply Z.eqb_neq in H
  | H : (_ <? _) = true |- _ => apply Z.ltb_lt in H
  | H : (_ <? _) = false |- _ => apply Z.ltb_ge in H
  | H : (_ <=? _) = true |- _ => apply Z.leb_le in H
  | H : (_ <=? _) = false |- _ => apply Z.leb_gt in H
  | H : _ && _ = true |- _ => apply andb_true_iff in H; destruct H
  | H : _ || _ = false |- _ => apply orb_false_iff in H; destruct H
  | H : negb _ = true |- _ => apply negb_true_iff in H
  | H : negb _ = false |- _ => apply negb_false_iff in H
  end.
