(* ===== verification/Packer.v ===== *)
(** * Packing of wire headers: drivers/infiniband/core/packer.c

    [ib_pack] and [ib_unpack] move fields between a C structure and a wire
    buffer, driven by a table of [ib_field] descriptors. Both memory blocks are
    byte lists; an access outside a block, and a negative shift count, are
    undefined in C and give [None]. The result does not depend on the
    endianness of the host: a [__be32] word is modelled by its big-endian
    value, and the byte-wise operations [&], [|], [~] of the code commute with
    the swap of [cpu_to_be32]. *)

From Stdlib Require Import ZArith Lia String.
From stdpp Require Import base tactics numbers list option sets.
From S2P Require Import Prelude.

Local Open Scope Z_scope.

(** ** The descriptors (include/rdma/ib_pack.h) *)

Record ib_field := mk_field {
  struct_offset_bytes : nat;
  struct_size_bytes : nat;
  offset_words : nat;
  offset_bits : nat;
  size_bits : nat;
  field_name : string
}.

(** ** Operations *)

Definition value_read (offset size : nat) (structure : list Z) : option Z :=
  match size with
  | 1%nat | 2%nat | 4%nat | 8%nat => be_combine <$> mem_read offset size structure
  | _ => Some 0
  end.

(** The value [val] of [ib_pack] before the shift: 0 for a reserved field. *)
Definition field_raw (f : ib_field) (structure : list Z) : option Z :=
  if bool_decide (struct_size_bytes f = 0%nat) then Some 0
  else value_read (struct_offset_bytes f) (struct_size_bytes f) structure.

(** [*addr = ( *addr & ~mask) | (cpu_to_be(val) & mask)] on a word of [n]
    bytes. *)
Definition rmw (n off : nat) (mask val : Z) (buf : list Z) : option (list Z) :=
  w ← mem_read off n buf;
  mem_write off
    (be_split n (Z.lor (Z.land (be_combine w) (Z.lnot mask)) (Z.land val mask))) buf.

Definition mask32 (f : ib_field) (shift : Z) : Z :=
  u32 (u64 (Z.shiftl (Z.shiftl 1 (Z.of_nat (size_bits f)) - 1) shift)).

Definition mask64 (f : ib_field) (shift : Z) : Z :=
  u64 (Z.shiftl (Z.shiftr (2 ^ 64 - 1) (64 - Z.of_nat (size_bits f))) shift).

(** One iteration of the loop of [ib_pack]. *)
Definition pack_field (f : ib_field) (structure buf : list Z) : option (list Z) :=
  if bool_decide (size_bits f <= 32)%nat then
    let shift := 32 - Z.of_nat (offset_bits f) - Z.of_nat (size_bits f) in
    if shift <? 0 then None else
    raw ← field_raw f structure;
    let val := u32 (u64 (Z.shiftl raw shift)) in
    rmw 4 (4 * offset_words f) (mask32 f shift) val buf
  else if bool_decide (size_bits f <= 64)%nat then
    let shift := 64 - Z.of_nat (offset_bits f) - Z.of_nat (size_bits f) in
    if shift <? 0 then None else
    raw ← field_raw f structure;
    let val := u64 (Z.shiftl raw shift) in
    rmw 8 (4 * offset_words f) (mask64 f shift) val buf
  else
    src ← (if bool_decide (struct_size_bytes f = 0%nat)
           then Some (replicate (size_bits f / 8) 0)
           else mem_read (struct_offset_bytes f) (size_bits f / 8) structure);
    mem_write (offset_words f * 4 + offset_bits f / 8) src buf.

Fixpoint ib_pack (desc : list ib_field) (structure buf : list Z) : option (list Z) :=
  match desc with
  | [] => Some buf
  | f :: desc' => buf' ← pack_field f structure buf; ib_pack desc' structure buf'
  end.

Definition value_write (offset size : nat) (val : Z) (structure : list Z) : option (list Z) :=
  match size with
  | 1%nat | 2%nat | 4%nat | 8%nat => mem_write offset (be_split size val) structure
  | _ => Some structure
  end.

(** One iteration of the loop of [ib_unpack]. The 64-bit case addresses
    [(__be64 * ) buf + offset_words], that is byte [8 * offset_words]. *)
Definition unpack_field (f : ib_field) (buf structure : list Z) : option (list Z) :=
  if bool_decide (struct_size_bytes f = 0%nat) then Some structure
  else if bool_decide (size_bits f <= 32)%nat then
    let shift := 32 - Z.of_nat (offset_bits f) - Z.of_nat (size_bits f) in
    if shift <? 0 then None else
    w ← mem_read (4 * offset_words f) 4 buf;
    let val := Z.shiftr (Z.land (be_combine w) (mask32 f shift)) shift in
    value_write (struct_offset_bytes f) (struct_size_bytes f) val structure
  else if bool_decide (size_bits f <= 64)%nat then
    let shift := 64 - Z.of_nat (offset_bits f) - Z.of_nat (size_bits f) in
    if shift <? 0 then None else
    w ← mem_read (8 * offset_words f) 8 buf;
    let val := Z.shiftr (Z.land (be_combine w) (mask64 f shift)) shift in
    value_write (struct_offset_bytes f) (struct_size_bytes f) val structure
  else
    src ← mem_read (offset_words f * 4 + offset_bits f / 8) (size_bits f / 8) buf;
    mem_write (struct_offset_bytes f) src structure.

Fixpoint ib_unpack (desc : list ib_field) (buf structure : list Z) : option (list Z) :=
  match desc with
  | [] => Some structure
  | f :: desc' => s' ← unpack_field f buf structure; ib_unpack desc' buf s'
  end.

(** ** Well-formed tables *)

(** First wire bit of a field. *)
Definition fstart (f : ib_field) : nat := 32 * offset_words f + offset_bits f.

Definition struct_ok (slen : nat) (f : ib_field) : Prop :=
  struct_size_bytes f = 0%nat \/
  (struct_size_bytes f ∈ [1; 2; 4; 8]%nat /\
   struct_offset_bytes f + struct_size_bytes f <= slen /\
   size_bits f <= 8 * struct_size_bytes f)%nat.

(** A descriptor that stays inside a buffer of [blen] and a structure of
    [slen] bytes, and does not straddle the word it is written to. *)
Definition wf_field (blen slen : nat) (f : ib_field) : Prop :=
  (0 < size_bits f)%nat /\
  if bool_decide (size_bits f <= 32)%nat then
    (offset_bits f + size_bits f <= 32 /\ 4 * offset_words f + 4 <= blen)%nat /\ struct_ok slen f
  else if bool_decide (size_bits f <= 64)%nat then
    (offset_bits f + size_bits f <= 64 /\ 4 * offset_words f + 8 <= blen)%nat /\
    struct_ok slen f /\ (struct_size_bytes f = 0 \/ offset_words f = 0)%nat
  else
    (offset_bits f mod 8 = 0 /\ size_bits f mod 8 = 0 /\
     4 * offset_words f + offset_bits f / 8 + size_bits f / 8 <= blen)%nat /\
    (struct_size_bytes f = 0 \/
     (8 * struct_size_bytes f = size_bits f /\
      struct_offset_bytes f + struct_size_bytes f <= slen))%nat.

#[export] Instance struct_ok_dec slen f : Decision (struct_ok slen f).
Proof. unfold struct_ok. solve_decision. Defined.

#[export] Instance wf_field_dec blen slen f : Decision (wf_field blen slen f).
Proof.
  unfold wf_field.
  destruct (bool_decide (size_bits f <= 32)%nat);
    [|destruct (bool_decide (size_bits f <= 64)%nat)]; solve_decision.
Defined.

Definition wire_disjoint (f g : ib_field) : Prop :=
  (fstart f + size_bits f <= fstart g \/ fstart g + size_bits g <= fstart f)%nat.

Definition struct_disjoint (f g : ib_field) : Prop :=
  (struct_size_bytes f = 0 \/ struct_size_bytes g = 0 \/
   struct_offset_bytes f + struct_size_bytes f <= struct_offset_bytes g \/
   struct_offset_bytes g + struct_size_bytes g <= struct_offset_bytes f)%nat.

#[export] Instance wire_disjoint_dec f g : Decision (wire_disjoint f g).
Proof. unfold wire_disjoint. solve_decision. Defined.

#[export] Instance struct_disjoint_dec f g : Decision (struct_disjoint f g).
Proof. unfold struct_disjoint. solve_decision. Defined.

Fixpoint wf_table (blen slen : nat) (desc : list ib_field) : Prop :=
  match desc with
  | [] => True
  | f :: desc' =>
      wf_field blen slen f /\
      Forall (fun g => wire_disjoint f g /\ struct_disjoint f g) desc' /\
      wf_table blen slen desc'
  end.

#[export] Instance wf_table_dec blen slen desc : Decision (wf_table blen slen desc).
Proof.
  induction desc as [|f desc IH]; simpl; [left; done|].
  apply and_dec; [apply _|]. apply and_dec; [|exact IH].
  apply Forall_dec. intros g. apply and_dec; apply _.
Defined.

(** The value stored in the structure fits in the bits of the field. *)
Definition fits (structure : list Z) (f : ib_field) : Prop :=
  match field_raw f structure with
  | Some v => v < 2 ^ Z.of_nat (size_bits f)
  | None => False
  end.

#[export] Instance fits_dec s f : Decision (fits s f).
Proof. unfold fits. destruct (field_raw f s); apply _. Defined.

(** Bit [j] (most significant first) of a field of the structure. *)
Definition field_bit (f : ib_field) (structure : list Z) (j : nat) : bool :=
  if bool_decide (struct_size_bytes f = 0%nat) then false
  else if bool_decide (size_bits f <= 64)%nat then
    Z.testbit (default 0 (field_raw f structure))
              (Z.of_nat (size_bits f) - 1 - Z.of_nat j)
  else bit_at structure (8 * struct_offset_bytes f + j).

(** ** Lemmas *)

Lemma rmw_ok n off mask val buf :
  (off + n <= length buf)%nat -> exists buf', rmw n off mask val buf = Some buf'.
Proof.
  intros H. unfold rmw. destruct (mem_read_ok off n buf H) as [w ->]. simpl.
  apply mem_write_ok. by rewrite length_be_split.
Qed.

Lemma rmw_length n off mask val buf buf' :
  rmw n off mask val buf = Some buf' -> length buf' = length buf.
Proof.
  unfold rmw. destruct (mem_read off n buf); simpl; [|done].
  apply length_mem_write.
Qed.

Lemma rmw_bytes n off mask val buf buf' :
  bytes_ok buf -> rmw n off mask val buf = Some buf' -> bytes_ok buf'.
Proof.
  unfold rmw. destruct (mem_read off n buf); simpl; [|done]. intros Hb.
  apply mem_write_bytes; [done|apply be_split_bytes].
Qed.

(** The bits of the word selected by the mask come from [val], the others are
    kept. *)
Lemma rmw_bits n off mask val buf buf' k :
  bytes_ok buf -> rmw n off mask val buf = Some buf' ->
  bit_at buf' k =
  let i := 8 * Z.of_nat n - 1 - (Z.of_nat k - 8 * Z.of_nat off) in
  if bool_decide (8 * off <= k < 8 * (off + n))%nat && Z.testbit mask i
  then Z.testbit val i else bit_at buf k.
Proof.
  intros Hb. unfold rmw.
  destruct (mem_read off n buf) as [w|] eqn:Hr; cbn [mbind option_bind]; [|done].
  intros Hw. cbv zeta. rewrite (bit_at_write _ _ _ _ _ Hw), length_be_split.
  case_bool_decide as Hk; cbn [andb]; [|done].
  rewrite bit_at_be_split by lia.
  set (i := 8 * Z.of_nat n - 1 - (Z.of_nat k - 8 * Z.of_nat off)).
  replace (8 * Z.of_nat n - 1 - Z.of_nat (k - 8 * off)) with i by lia.
  rewrite Z.lor_spec, !Z.land_spec, Z.lnot_spec by lia.
  destruct (Z.testbit mask i); simpl; [rewrite andb_false_r, andb_true_r; done|].
  rewrite andb_true_r, andb_false_r, orb_false_r.
  rewrite testbit_be_combine; rewrite ?(length_mem_read _ _ _ _ Hr); try lia.
  - rewrite (bit_at_read _ _ _ _ _ Hr) by lia. f_equal. lia.
  - by eapply mem_read_bytes.
Qed.

Lemma testbit_u64 v i : 0 <= i < 64 -> Z.testbit (u64 v) i = Z.testbit v i.
Proof. intros. unfold u64. by rewrite Z.mod_pow2_bits_low by lia. Qed.

Lemma testbit_u32 v i : 0 <= i < 32 -> Z.testbit (u32 v) i = Z.testbit v i.
Proof. intros. unfold u32. by rewrite Z.mod_pow2_bits_low by lia. Qed.

Lemma testbit_mask32 f shift i :
  (size_bits f <= 32)%nat -> 0 <= shift -> 0 <= i < 32 ->
  Z.testbit (mask32 f shift) i
  = bool_decide (shift <= i < shift + Z.of_nat (size_bits f)).
Proof.
  intros. unfold mask32. rewrite testbit_u32, testbit_u64, ones_pow2 by lia.
  by rewrite testbit_mask by lia.
Qed.

Lemma testbit_mask64 f shift i :
  (size_bits f <= 64)%nat -> 0 <= shift -> 0 <= i < 64 ->
  Z.testbit (mask64 f shift) i
  = bool_decide (shift <= i < shift + Z.of_nat (size_bits f)).
Proof.
  intros. unfold mask64. rewrite testbit_u64 by lia.
  change (2 ^ 64 - 1) with (Z.ones 64).
  assert (Z.shiftr (Z.ones 64) (64 - Z.of_nat (size_bits f))
          = Z.ones (Z.of_nat (size_bits f))) as ->.
  { rewrite Z.shiftr_div_pow2 by lia. rewrite Z.ones_div_pow2 by lia.
    f_equal. lia. }
  by rewrite testbit_mask by lia.
Qed.

Lemma value_read_in off size s :
  size ∈ [1; 2; 4; 8]%nat -> value_read off size s = be_combine <$> mem_read off size s.
Proof.
  rewrite !elem_of_cons. intros H. destruct_or?; subst; try done.
  by apply not_elem_of_nil in H.
Qed.

Lemma value_read_notin off size s :
  size ∉ [1; 2; 4; 8]%nat -> value_read off size s = Some 0.
Proof.
  intros H. do 9 (destruct size as [|size]; [first [done | exfalso; set_solver]|]).
  done.
Qed.

Lemma value_write_in off size v s :
  size ∈ [1; 2; 4; 8]%nat -> value_write off size v s = mem_write off (be_split size v) s.
Proof.
  rewrite !elem_of_cons. intros H. destruct_or?; subst; try done.
  by apply not_elem_of_nil in H.
Qed.

Lemma field_raw_nonneg f s v : bytes_ok s -> field_raw f s = Some v -> 0 <= v.
Proof.
  intros Hs. unfold field_raw. case_bool_decide; [intros; by simplify_eq|].
  destruct (decide (struct_size_bytes f ∈ [1; 2; 4; 8]%nat)) as [Hin|Hn].
  - rewrite value_read_in by done.
    destruct (mem_read _ _ s) as [bs|] eqn:E; simpl; intros; simplify_eq.
    apply be_combine_range. by eapply mem_read_bytes.
  - rewrite value_read_notin by done. intros; by simplify_eq.
Qed.

Lemma field_raw_ok slen f s :
  struct_ok slen f -> length s = slen -> exists v, field_raw f s = Some v.
Proof.
  intros Hok Hl. unfold field_raw. case_bool_decide; [eauto|].
  destruct Hok as [?|(Hin & Hle & _)]; [done|].
  rewrite value_read_in by done.
  destruct (mem_read_ok (struct_offset_bytes f) (struct_size_bytes f) s) as [bs ->];
    [lia|]. simpl. eauto.
Qed.

(** A well-formed descriptor never leaves the buffers, and packing changes
    exactly the bits of its field. *)
Lemma pack_field_ok blen slen f s buf :
  wf_field blen slen f -> length s = slen -> length buf = blen ->
  exists buf', pack_field f s buf = Some buf'.
Proof.
  intros [Hpos Hwf] Hs Hb. unfold pack_field.
  case_bool_decide; [|case_bool_decide].
  - destruct Hwf as [[Ho Hl] Hst]. rewrite (proj2 (Z.ltb_ge _ _)) by lia.
    destruct (field_raw_ok slen f s Hst Hs) as [v ->]. apply rmw_ok. lia.
  - destruct Hwf as [[Ho Hl] [Hst _]]. rewrite (proj2 (Z.ltb_ge _ _)) by lia.
    destruct (field_raw_ok slen f s Hst Hs) as [v ->]. apply rmw_ok. lia.
  - destruct Hwf as [(Ho & Hm & Hl) Hst].
    assert (exists src, (if bool_decide (struct_size_bytes f = 0%nat)
             then Some (replicate (size_bits f / 8) 0)
             else mem_read (struct_offset_bytes f) (size_bits f / 8) s) = Some src /\
             length src = (size_bits f / 8)%nat) as (src & -> & Hsrc).
    { case_bool_decide; [eexists; split; [done|apply length_replicate]|].
      destruct Hst as [?|[H8 Hle]]; [done|].
      destruct (mem_read_ok (struct_offset_bytes f) (size_bits f / 8) s) as [bs E].
      { rewrite <- H8, (Nat.mul_comm 8), Nat.div_mul by lia. lia. }
      exists bs. split; [done|]. by eapply length_mem_read. }
    apply mem_write_ok. lia.
Qed.

Lemma pack_field_length f s buf buf' :
  pack_field f s buf = Some buf' -> length buf' = length buf.
Proof.
  unfold pack_field. case_bool_decide; [|case_bool_decide].
  - case_cond; [done|]. destruct (field_raw f s); simpl; [apply rmw_length|done].
  - case_cond; [done|]. destruct (field_raw f s); simpl; [apply rmw_length|done].
  - match goal with |- context [mbind _ ?o] => destruct o end; simpl; [|done].
    apply length_mem_write.
Qed.

Lemma pack_field_bytes f s buf buf' :
  bytes_ok s -> bytes_ok buf -> pack_field f s buf = Some buf' -> bytes_ok buf'.
Proof.
  intros Hs Hb. unfold pack_field. case_bool_decide; [|case_bool_decide].
  - case_cond; [done|]. destruct (field_raw f s); simpl; [by apply rmw_bytes|done].
  - case_cond; [done|]. destruct (field_raw f s); simpl; [by apply rmw_bytes|done].
  - case_bool_decide; simpl.
    + apply mem_write_bytes; [done|]. apply Forall_replicate. unfold is_byte; lia.
    + destruct (mem_read _ _ s) as [bs|] eqn:E; simpl; [|done].
      apply mem_write_bytes; [done|]. exact (mem_read_bytes _ _ _ _ Hs E).
Qed.

Lemma field_bit_raw f s v j :
  (size_bits f <= 64)%nat -> field_raw f s = Some v ->
  field_bit f s j = Z.testbit v (Z.of_nat (size_bits f) - 1 - Z.of_nat j).
Proof.
  intros H64 Hv. unfold field_bit. rewrite (bool_decide_eq_true_2 (size_bits f <= 64)%nat H64), Hv.
  unfold field_raw in Hv. case_bool_decide; simplify_eq/=; [by rewrite Z.bits_0|done].
Qed.

(** The word case, common to the 32-bit and the 64-bit branch. *)
Lemma rmw_field_bits n f v mask val shift buf buf' k :
  bytes_ok buf -> rmw n (4 * offset_words f) mask val buf = Some buf' ->
  shift = 8 * Z.of_nat n - Z.of_nat (offset_bits f) - Z.of_nat (size_bits f) -> 0 <= shift ->
  (forall i, 0 <= i < 8 * Z.of_nat n ->
     Z.testbit mask i = bool_decide (shift <= i < shift + Z.of_nat (size_bits f))) ->
  (forall i, shift <= i < 8 * Z.of_nat n -> Z.testbit val i = Z.testbit v (i - shift)) ->
  bit_at buf' k =
  if bool_decide (fstart f <= k < fstart f + size_bits f)%nat
  then Z.testbit v (Z.of_nat (size_bits f) - 1 - Z.of_nat (k - fstart f)) else bit_at buf k.
Proof.
  intros Hb Hw Hsh Hpos Hmask Hval. unfold fstart.
  rewrite (rmw_bits _ _ _ _ _ _ _ Hb Hw). cbv zeta.
  destruct (decide (8 * (4 * offset_words f) <= k < 8 * (4 * offset_words f + n))%nat) as [Hk|Hk].
  - rewrite (bool_decide_eq_true_2 _ Hk). cbn [andb]. rewrite Hmask by lia.
    case_bool_decide; case_bool_decide; try lia; [|done].
    rewrite Hval by lia. f_equal. lia.
  - rewrite (bool_decide_eq_false_2 _ Hk). cbn [andb].
    rewrite bool_decide_eq_false_2 by lia. done.
Qed.

(** The byte-string case. *)
Lemma pack_bytes_bits blen slen f s buf buf' k :
  wf_field blen slen f -> ~ (size_bits f <= 64)%nat ->
  pack_field f s buf = Some buf' ->
  bit_at buf' k =
  if bool_decide (fstart f <= k < fstart f + size_bits f)%nat
  then field_bit f s (k - fstart f) else bit_at buf k.
Proof.
  intros [_ Hwf] H64. unfold pack_field, field_bit, fstart in *.
  rewrite !(bool_decide_eq_false_2 (size_bits f <= 32)%nat) in * by lia.
  rewrite !(bool_decide_eq_false_2 (size_bits f <= 64)%nat) in * by lia.
  destruct Hwf as [(Ho & Hm & Hl) Hst].
  pose proof (Nat.div_mod_eq (offset_bits f) 8).
  pose proof (Nat.div_mod_eq (size_bits f) 8).
  case_bool_decide as Hz; cbn [mbind option_bind].
  - intros Hw. rewrite (bit_at_write _ _ _ _ _ Hw), length_replicate.
    case_bool_decide; case_bool_decide; try lia; [|done].
    unfold bit_at. rewrite lookup_replicate_2; [by rewrite Z.bits_0|].
    pose proof (nat_div8 (k - 8 * (offset_words f * 4 + offset_bits f / 8))). lia.
  - destruct (mem_read _ _ s) as [src|] eqn:Hr; cbn [mbind option_bind]; [|done].
    intros Hw. rewrite (bit_at_write _ _ _ _ _ Hw), (length_mem_read _ _ _ _ Hr).
    case_bool_decide; case_bool_decide; try lia; [|done].
    rewrite (bit_at_read _ _ _ _ _ Hr) by lia. f_equal. lia.
Qed.

Lemma pack_field_bits blen slen f s buf buf' k :
  wf_field blen slen f -> bytes_ok buf -> pack_field f s buf = Some buf' ->
  bit_at buf' k =
  if bool_decide (fstart f <= k < fstart f + size_bits f)%nat
  then field_bit f s (k - fstart f) else bit_at buf k.
Proof.
  intros Hwf Hb. destruct (decide (size_bits f <= 64)%nat) as [H64|H64];
    [|by apply (pack_bytes_bits blen slen)].
  unfold pack_field. destruct Hwf as [Hpos Hwf].
  case_bool_decide as H32; [|rewrite (bool_decide_eq_true_2 _ H64) in *];
    [set (shift := 32 - _ - _)|set (shift := 64 - _ - _)];
    (destruct (field_raw f s) as [v|] eqn:Hv; case_cond; cbn [mbind option_bind]; try done);
    intros Hw; bool_to_prop; rewrite (field_bit_raw _ _ _ _ H64 Hv);
    (apply (rmw_field_bits _ _ _ _ _ shift _ _ _ Hb Hw); [lia|lia| |]); intros i Hi.
  - apply testbit_mask32; lia.
  - rewrite testbit_u32, testbit_u64, Z.shiftl_spec by lia. done.
  - apply testbit_mask64; lia.
  - rewrite testbit_u64, Z.shiftl_spec by lia. done.
Qed.

Lemma wf_table_forall blen slen desc :
  wf_table blen slen desc -> Forall (wf_field blen slen) desc.
Proof. induction desc; simpl; [constructor|]. intros (?&?&?). constructor; auto. Qed.

(** Packing a well-formed table succeeds, keeps every bit outside the fields and
    stores every field. *)
Lemma ib_pack_spec blen slen desc s buf :
  wf_table blen slen desc -> length s = slen -> length buf = blen ->
  bytes_ok s -> bytes_ok buf ->
  exists buf', ib_pack desc s buf = Some buf' /\ length buf' = blen /\ bytes_ok buf' /\
    (forall f j, f ∈ desc -> (j < size_bits f)%nat ->
       bit_at buf' (fstart f + j) = field_bit f s j) /\
    (forall k, Forall (fun f => ~ (fstart f <= k < fstart f + size_bits f)%nat) desc ->
       bit_at buf' k = bit_at buf k).
Proof.
  intros Hwf Hs Hb Hsb Hbb. revert buf Hb Hbb.
  induction desc as [|f desc IH]; intros buf Hb Hbb; simpl.
  { exists buf. split_and!; try done. intros f j Hf. by apply not_elem_of_nil in Hf. }
  destruct Hwf as (Hf & Hdis & Hwf).
  destruct (pack_field_ok _ _ f s buf Hf Hs Hb) as [buf1 E1].
  pose proof (pack_field_length _ _ _ _ E1) as L1.
  pose proof (pack_field_bytes _ _ _ _ Hsb Hbb E1) as B1.
  pose proof (fun k => pack_field_bits _ _ _ _ _ _ k Hf Hbb E1) as P1.
  destruct (IH Hwf buf1) as (buf2 & E2 & L2 & B2 & P2 & Q2); [lia|done|].
  rewrite E1. cbn [mbind option_bind]. exists buf2. split_and!; try done.
  - intros g j [->|Hg]%elem_of_cons Hj; [|by apply P2].
    rewrite Q2.
    + rewrite P1, bool_decide_eq_true_2 by lia. f_equal. lia.
    + eapply Forall_impl; [exact Hdis|]. intros g [[?|?] _]; lia.
  - intros k [Hk Hks]%Forall_cons. rewrite Q2 by done.
    rewrite P1, bool_decide_eq_false_2 by done. done.
Qed.

(** The value extracted from a word whose field bits are those of [v]. *)
Lemma extract_bits n f v mask shift w buf :
  mem_read (4 * offset_words f) n buf = Some w -> bytes_ok buf ->
  shift = 8 * Z.of_nat n - Z.of_nat (offset_bits f) - Z.of_nat (size_bits f) -> 0 <= shift ->
  (forall i, 0 <= i < 8 * Z.of_nat n ->
     Z.testbit mask i = bool_decide (shift <= i < shift + Z.of_nat (size_bits f))) ->
  0 <= mask < 2 ^ (8 * Z.of_nat n) ->
  0 <= v < 2 ^ Z.of_nat (size_bits f) ->
  (forall j, (j < size_bits f)%nat ->
     bit_at buf (fstart f + j) = Z.testbit v (Z.of_nat (size_bits f) - 1 - Z.of_nat j)) ->
  Z.shiftr (Z.land (be_combine w) mask) shift = v.
Proof.
  intros Hr Hb Hsh Hpos Hmask Hmr Hv Hbits. apply Z.bits_inj'. intros i Hi.
  rewrite Z.shiftr_spec, Z.land_spec by lia.
  destruct (decide (i < Z.of_nat (size_bits f))) as [Hlt|Hge].
  - rewrite Hmask, bool_decide_eq_true_2, andb_true_r by lia.
    pose proof (length_mem_read _ _ _ _ Hr) as Hlw.
    rewrite testbit_be_combine; [|exact (mem_read_bytes _ _ _ _ Hb Hr)|lia].
    rewrite (bit_at_read _ _ _ _ _ Hr) by lia.
    specialize (Hbits (size_bits f - 1 - Z.to_nat i)%nat).
    unfold fstart in Hbits.
    replace (8 * (4 * offset_words f) + (8 * length w - 1 - Z.to_nat (i + shift)))%nat
      with (32 * offset_words f + offset_bits f + (size_bits f - 1 - Z.to_nat i))%nat by lia.
    rewrite Hbits by lia. f_equal. lia.
  - rewrite (testbit_high _ v i Hv) by lia.
    destruct (decide (i + shift < 8 * Z.of_nat n)).
    + rewrite Hmask, bool_decide_eq_false_2 by lia. apply andb_false_r.
    + rewrite (testbit_high _ mask _ Hmr) by lia. apply andb_false_r.
Qed.

Lemma unpack_word_spec blen slen f s buf s0 :
  wf_field blen slen f -> struct_size_bytes f <> 0%nat ->
  length s = slen -> length buf = blen -> bytes_ok s -> bytes_ok buf ->
  (size_bits f <= 64)%nat -> fits s f ->
  (forall j, (j < size_bits f)%nat -> bit_at buf (fstart f + j) = field_bit f s j) ->
  exists bs, mem_read (struct_offset_bytes f) (struct_size_bytes f) s = Some bs /\
             unpack_field f buf s0 = mem_write (struct_offset_bytes f) bs s0.
Proof.
  intros [Hpos Hwf] Hnz Hs Hb Hsb Hbb H64 Hfit Hbits.
  assert (struct_ok slen f) as Hst by (repeat case_bool_decide; tauto).
  destruct Hst as [?|(Hin & Hle & Hsz)]; [done|].
  destruct (mem_read_ok (struct_offset_bytes f) (struct_size_bytes f) s) as [bs Hbs]; [lia|].
  exists bs. split; [done|].
  assert (field_raw f s = Some (be_combine bs)) as Hraw.
  { unfold field_raw. rewrite bool_decide_eq_false_2, value_read_in, Hbs by done. done. }
  unfold fits in Hfit. rewrite Hraw in Hfit.
  pose proof (mem_read_bytes _ _ _ _ Hsb Hbs) as Hbsb.
  pose proof (be_combine_range bs Hbsb).
  assert (be_split (struct_size_bytes f) (be_combine bs) = bs) as Hsplit.
  { rewrite <- (length_mem_read _ _ _ _ Hbs). by apply be_split_combine. }
  assert (forall j, (j < size_bits f)%nat -> bit_at buf (fstart f + j) =
    Z.testbit (be_combine bs) (Z.of_nat (size_bits f) - 1 - Z.of_nat j)) as Hbits'.
  { intros j Hj. rewrite Hbits by done. by apply field_bit_raw. }
  unfold unpack_field. rewrite bool_decide_eq_false_2 by done.
  case_bool_decide as H32; [|rewrite (bool_decide_eq_true_2 _ H64) in *];
    [set (shift := 32 - _ - _)|set (shift := 64 - _ - _)].
  - rewrite (proj2 (Z.ltb_ge _ _)) by lia.
    destruct (mem_read_ok (4 * offset_words f) 4 buf) as [w Hw]; [lia|].
    rewrite Hw. cbn [mbind option_bind].
    rewrite (extract_bits 4 f (be_combine bs) _ shift w buf Hw Hbb), value_write_in, Hsplit;
      try done; try lia.
    + intros i Hi. apply testbit_mask32; lia.
    + apply u32_range.
  - destruct Hwf as ([Ho Hl] & _ & [?|Hw0]); [done|]. rewrite (proj2 (Z.ltb_ge _ _)) by lia.
    destruct (mem_read_ok (4 * offset_words f) 8 buf) as [w Hw]; [lia|].
    replace (8 * offset_words f)%nat with (4 * offset_words f)%nat by lia.
    rewrite Hw. cbn [mbind option_bind].
    rewrite (extract_bits 8 f (be_combine bs) _ shift w buf Hw Hbb), value_write_in, Hsplit;
      try done; try lia.
    + intros i Hi. apply testbit_mask64; lia.
    + apply u64_range.
Qed.

Lemma unpack_bytes_spec blen slen f s buf s0 :
  wf_field blen slen f -> struct_size_bytes f <> 0%nat ->
  length s = slen -> length buf = blen -> bytes_ok s -> bytes_ok buf ->
  ~ (size_bits f <= 64)%nat ->
  (forall j, (j < size_bits f)%nat -> bit_at buf (fstart f + j) = field_bit f s j) ->
  exists bs, mem_read (struct_offset_bytes f) (struct_size_bytes f) s = Some bs /\
             unpack_field f buf s0 = mem_write (struct_offset_bytes f) bs s0.
Proof.
  intros [Hpos Hwf] Hnz Hs Hb Hsb Hbb H64 Hbits.
  rewrite (bool_decide_eq_false_2 (size_bits f <= 32)%nat),
    (bool_decide_eq_false_2 (size_bits f <= 64)%nat) in Hwf by lia.
  destruct Hwf as [(Ho & Hm & Hl) [?|[H8 Hle]]]; [done|].
  pose proof (Nat.div_mod_eq (offset_bits f) 8).
  pose proof (Nat.div_mod_eq (size_bits f) 8).
  destruct (mem_read_ok (struct_offset_bytes f) (struct_size_bytes f) s) as [bs Hbs]; [lia|].
  exists bs. split; [done|]. unfold unpack_field.
  rewrite !bool_decide_eq_false_2 by lia.
  destruct (mem_read_ok (offset_words f * 4 + offset_bits f / 8) (size_bits f / 8) buf)
    as [src Hsrc]; [lia|].
  rewrite Hsrc. cbn [mbind option_bind]. f_equal.
  pose proof (length_mem_read _ _ _ _ Hsrc). pose proof (length_mem_read _ _ _ _ Hbs).
  apply bytes_bit_ext; [exact (mem_read_bytes _ _ _ _ Hbb Hsrc)|
    exact (mem_read_bytes _ _ _ _ Hsb Hbs)|lia|].
  intros k Hk. rewrite (bit_at_read _ _ _ _ _ Hsrc), (bit_at_read _ _ _ _ _ Hbs) by lia.
  specialize (Hbits k ltac:(lia)). unfold fstart, field_bit in Hbits.
  rewrite !bool_decide_eq_false_2 in Hbits by lia.
  rewrite <- Hbits. f_equal. lia.
Qed.

(** Unpacking a field whose bits are those of the structure [s] copies the bytes
    of the field. *)
Lemma unpack_field_spec blen slen f s buf s0 :
  wf_field blen slen f -> struct_size_bytes f <> 0%nat ->
  length s = slen -> length s0 = slen -> length buf = blen ->
  bytes_ok s -> bytes_ok buf -> fits s f ->
  (forall j, (j < size_bits f)%nat -> bit_at buf (fstart f + j) = field_bit f s j) ->
  exists bs, mem_read (struct_offset_bytes f) (struct_size_bytes f) s = Some bs /\
             unpack_field f buf s0 = mem_write (struct_offset_bytes f) bs s0.
Proof.
  intros Hwf Hnz Hs Hs0 Hb Hsb Hbb Hfit Hbits.
  destruct (decide (size_bits f <= 64)%nat) as [H64|H64];
    [exact (unpack_word_spec blen slen f s buf s0 Hwf Hnz Hs Hb Hsb Hbb H64 Hfit Hbits)|].
  exact (unpack_bytes_spec blen slen f s buf s0 Hwf Hnz Hs Hb Hsb Hbb H64 Hbits).
Qed.

(** ** Properties *)

(** [ib_unpack] leaves the structure bytes outside its fields alone. *)
Lemma ib_unpack_spec blen slen desc s buf s0 :
  wf_table blen slen desc -> length s = slen -> length s0 = slen -> length buf = blen ->
  bytes_ok s -> bytes_ok buf -> Forall (fits s) desc ->
  (forall f j, f ∈ desc -> (j < size_bits f)%nat ->
     bit_at buf (fstart f + j) = field_bit f s j) ->
  exists s1, ib_unpack desc buf s0 = Some s1 /\ length s1 = slen /\
    (forall f, f ∈ desc -> struct_size_bytes f <> 0%nat ->
       mem_read (struct_offset_bytes f) (struct_size_bytes f) s1 =
       mem_read (struct_offset_bytes f) (struct_size_bytes f) s) /\
    (forall off n,
       Forall (fun f => struct_size_bytes f = 0 \/ off + n <= struct_offset_bytes f \/
                        struct_offset_bytes f + struct_size_bytes f <= off)%nat desc ->
       mem_read off n s1 = mem_read off n s0).
Proof.
  intros Hwf Hs Hs0 Hb Hsb Hbb Hfit Hbits. revert s0 Hs0 Hfit Hbits.
  induction desc as [|f desc IH]; intros s0 Hs0 Hfit Hbits; simpl.
  { exists s0. split_and!; try done. intros f Hf. by apply not_elem_of_nil in Hf. }
  destruct Hwf as (Hf & Hdis & Hwf). apply Forall_cons in Hfit as [Hff Hfit].
  assert (exists s1, unpack_field f buf s0 = Some s1 /\ length s1 = slen /\
    (struct_size_bytes f <> 0%nat ->
       mem_read (struct_offset_bytes f) (struct_size_bytes f) s1 =
       mem_read (struct_offset_bytes f) (struct_size_bytes f) s) /\
    (forall off n, (struct_size_bytes f = 0 \/ off + n <= struct_offset_bytes f \/
        struct_offset_bytes f + struct_size_bytes f <= off)%nat ->
       mem_read off n s1 = mem_read off n s0)) as (s1 & E1 & L1 & R1 & K1).
  { destruct (decide (struct_size_bytes f = 0%nat)) as [Hz|Hnz].
    - exists s0. unfold unpack_field. by rewrite bool_decide_eq_true_2.
    - destruct (unpack_field_spec blen slen f s buf s0) as (bs & Hbs & ->); try done.
      { intros j Hj. apply Hbits; [left|done]. }
      pose proof (length_mem_read _ _ _ _ Hbs) as Hlb.
      pose proof (proj1 (proj1 (mem_read_Some _ _ _ _) Hbs)).
      destruct (mem_write_ok (struct_offset_bytes f) bs s0) as [s1 Hw]; [lia|].
      exists s1. rewrite Hbs. split_and!; [done|rewrite (length_mem_write _ _ _ _ Hw); done| |].
      + intros _. rewrite <- Hlb. by eapply mem_read_write_eq.
      + intros off n Hor. eapply mem_read_write_ne; [done|]. lia. }
  destruct (IH Hwf s1 L1 Hfit) as (s2 & E2 & L2 & R2 & K2).
  { intros g j Hg. apply Hbits. by right. }
  rewrite E1. cbn [mbind option_bind]. exists s2. split_and!; try done.
  - intros g [->|Hg]%elem_of_cons Hnz; [|by apply R2]. rewrite K2; [by apply R1|].
    eapply Forall_impl; [exact Hdis|]. intros g [_ [?|[?|[?|?]]]]; lia.
  - intros off n [Hk Hks]%Forall_cons. rewrite K2 by done. by apply K1.
Qed.

(** C39. Round trip: for every well-formed table, packing a structure whose
    values fit their fields into any buffer and unpacking that buffer into any
    structure succeeds (no access outside the blocks) and restores the bytes of
    every field. *)
Theorem ib_pack_unpack_roundtrip blen slen desc s s0 buf :
  wf_table blen slen desc -> length s = slen -> length s0 = slen -> length buf = blen ->
  bytes_ok s -> bytes_ok buf -> Forall (fits s) desc ->
  exists buf' s1, ib_pack desc s buf = Some buf' /\ ib_unpack desc buf' s0 = Some s1 /\
    length buf' = blen /\ length s1 = slen /\
    (forall f, f ∈ desc -> struct_size_bytes f <> 0%nat ->
       mem_read (struct_offset_bytes f) (struct_size_bytes f) s1 =
       mem_read (struct_offset_bytes f) (struct_size_bytes f) s).
Proof.
  intros Hwf Hs Hs0 Hb Hsb Hbb Hfit.
  destruct (ib_pack_spec blen slen desc s buf) as (buf' & Ep & Hl & Hbb' & Hbits & _); try done.
  destruct (ib_unpack_spec blen slen desc s buf' s0) as (s1 & Eu & Hl1 & Hr & _); try done.
  exists buf', s1. by split_and!.
Qed.

(** A table with a 4-bit, a reserved, a 24-bit and a 128-bit field. *)
Definition demo_table : list ib_field :=
  [mk_field 0 1 0 0 4 "a"; mk_field 0 0 0 4 4 "reserved";
   mk_field 4 4 0 8 24 "b"; mk_field 8 16 1 0 128 "c"].

Definition demo_struct : list Z :=
  be_split 4 0x05000000 ++ be_split 4 0x00abcdef ++ be_split 16 0x0123456789abcdef0011223344556677.

(** Witness of C1. *)
Lemma ib_pack_unpack_roundtrip_witness :
  wf_table 20 24 demo_table /\
  exists buf' s1, ib_pack demo_table demo_struct (replicate 20 255) = Some buf' /\
    ib_unpack demo_table buf' (replicate 24 0) = Some s1 /\
    length buf' = 20%nat /\ length s1 = 24%nat /\
    (forall f, f ∈ demo_table -> struct_size_bytes f <> 0%nat ->
       mem_read (struct_offset_bytes f) (struct_size_bytes f) s1 =
       mem_read (struct_offset_bytes f) (struct_size_bytes f) demo_struct).
Proof.
  assert (wf_table 20 24 demo_table) as Hwf
    by (apply (bool_decide_unpack _); vm_compute; exact I).
  split; [exact Hwf|].
  apply (ib_pack_unpack_roundtrip 20 24).
  - exact Hwf.
  - reflexivity.
  - reflexivity.
  - reflexivity.
  - repeat apply Forall_app_2; apply be_split_bytes.
  - apply Forall_replicate. split; [vm_compute; congruence|reflexivity].
  - apply (bool_decide_unpack _). vm_compute. exact I.
Defined.

(** Frame: packing a well-formed table is defined, keeps the length of the
    buffer, writes the bits of every field (zeros for reserved ones) and leaves
    every other bit of the buffer as it was. *)
Theorem ib_pack_frame blen slen desc s buf :
  wf_table blen slen desc -> length s = slen -> length buf = blen ->
  bytes_ok s -> bytes_ok buf ->
  exists buf', ib_pack desc s buf = Some buf' /\ length buf' = blen /\ bytes_ok buf' /\
    (forall f j, f ∈ desc -> (j < size_bits f)%nat ->
       bit_at buf' (fstart f + j) = field_bit f s j) /\
    (forall k, Forall (fun f => ~ (fstart f <= k < fstart f + size_bits f)%nat) desc ->
       bit_at buf' k = bit_at buf k).
Proof. apply ib_pack_spec. Qed.

(** Witness of C2. *)
Lemma ib_pack_frame_witness :
  exists buf', ib_pack demo_table demo_struct (replicate 20 255) = Some buf' /\
    length buf' = 20%nat /\ bytes_ok buf' /\
    (forall f j, f ∈ demo_table -> (j < size_bits f)%nat ->
       bit_at buf' (fstart f + j) = field_bit f demo_struct j) /\
    (forall k, Forall (fun f => ~ (fstart f <= k < fstart f + size_bits f)%nat) demo_table ->
       bit_at buf' k = bit_at (replicate 20 255) k).
Proof.
  apply (ib_pack_frame 20 24).
  - apply (bool_decide_unpack _); vm_compute; exact I.
  - reflexivity.
  - reflexivity.
  - repeat apply Forall_app_2; apply be_split_bytes.
  - apply Forall_replicate. split; [vm_compute; congruence|reflexivity].
Defined.

(** A single 64-bit field in the second word of the buffer. *)
Definition wide_table : list ib_field := [mk_field 0 8 1 0 64 "wide"].

(** The 64-bit branch of [ib_unpack] scales [offset_words] by 8 where
    [ib_pack] scales it by 4: a 64-bit field that does not start in word 0 is
    read back from the wrong place, although both calls succeed. *)
Theorem ib_unpack_wide_field_mismatch :
  ib_pack wide_table (be_split 8 0x0102030405060708) (replicate 16 0)
    = Some (be_split 4 0 ++ be_split 8 0x0102030405060708 ++ be_split 4 0) /\
  ib_unpack wide_table
    (be_split 4 0 ++ be_split 8 0x0102030405060708 ++ be_split 4 0) (replicate 8 0)
    = Some (be_split 8 0x0506070800000000).
Proof. vm_compute. auto. Qed.
