(* ===== verification/UdHeader.v ===== *)
(** * The UD header: drivers/infiniband/core/ud_header.c

    The unpacked headers of include/rdma/ib_pack.h are kept as the bytes of the C
    structures, with the member offsets computed by the C layout rules; the
    field tables, [ib_ud_header_init], [ib_ud_header_pack],
    [ib_ud_header_unpack] and [ib_ud_ip4_csum] follow the source. *)

From Stdlib Require Import ZArith Lia String.
From stdpp Require Import base tactics numbers list option sets strings.
From S2P Require Import Prelude Packer.

Local Open Scope Z_scope.

(** ** C structure layout *)

(** A member: name, size and alignment in bytes. *)
Definition member : Type := string * (nat * nat).

Definition align_up (o a : nat) : nat := (o + a - 1) / a * a.

Fixpoint layout (o : nat) (ms : list member) : list (string * (nat * nat)) :=
  match ms with
  | [] => []
  | (n, (sz, al)) :: r =>
      let o' := align_up o al in (n, (o', sz)) :: layout (o' + sz) r
  end.

Definition struct_align (ms : list member) : nat :=
  foldr (fun m a => Nat.max (snd (snd m)) a) 1%nat ms.

Definition sizeof (ms : list member) : nat :=
  let fix end_ (o : nat) (ms : list member) :=
    match ms with
    | [] => o
    | (_, (sz, al)) :: r => end_ (align_up o al + sz)%nat r
    end in
  align_up (end_ 0%nat ms) (struct_align ms).

(** [offsetof] and [sizeof_field] of a member. *)
Fixpoint member_at (n : string) (l : list (string * (nat * nat))) : nat * nat :=
  match l with
  | [] => (0, 0)%nat
  | (n', p) :: r => if String.eqb n n' then p else member_at n r
  end.

Definition offsetof (ms : list member) (n : string) : nat := fst (member_at n (layout 0 ms)).
Definition sizeof_field (ms : list member) (n : string) : nat := snd (member_at n (layout 0 ms)).

Local Open Scope string_scope.

Definition m8 (n : string) : member := (n, (1, 1)%nat).
Definition m16 (n : string) : member := (n, (2, 2)%nat).
Definition m32 (n : string) : member := (n, (4, 4)%nat).
Definition mbytes (n : string) (k : nat) : member := (n, (k, 1%nat)).
Definition mgid (n : string) : member := (n, (16, 8)%nat).

(** ** The unpacked headers (include/rdma/ib_pack.h) *)

Definition ib_unpacked_lrh : list member :=
  [m8 "virtual_lane"; m8 "link_version"; m8 "service_level"; m8 "link_next_header";
   m16 "destination_lid"; m16 "packet_length"; m16 "source_lid"].

Definition ib_unpacked_grh : list member :=
  [m8 "ip_version"; m8 "traffic_class"; m32 "flow_label"; m16 "payload_length";
   m8 "next_header"; m8 "hop_limit"; mgid "source_gid"; mgid "destination_gid"].

Definition ib_unpacked_bth : list member :=
  [m8 "opcode"; m8 "solicited_event"; m8 "mig_req"; m8 "pad_count";
   m8 "transport_header_version"; m16 "pkey"; m32 "destination_qpn"; m8 "ack_req"; m32 "psn"].

Definition ib_unpacked_deth : list member := [m32 "qkey"; m32 "source_qpn"].

Definition ib_unpacked_eth : list member :=
  [mbytes "dmac_h" 4; mbytes "dmac_l" 2; mbytes "smac_h" 2; mbytes "smac_l" 4; m16 "type"].

Definition ib_unpacked_ip4 : list member :=
  [m8 "ver"; m8 "hdr_len"; m8 "tos"; m16 "tot_len"; m16 "id"; m16 "frag_off"; m8 "ttl";
   m8 "protocol"; m16 "check"; m32 "saddr"; m32 "daddr"].

Definition ib_unpacked_udp : list member := [m16 "sport"; m16 "dport"; m16 "length"; m16 "csum"].

Definition ib_unpacked_vlan : list member := [m16 "tag"; m16 "type"].

Definition IB_LRH_BYTES : nat := 8.
Definition IB_ETH_BYTES : nat := 14.
Definition IB_VLAN_BYTES : nat := 4.
Definition IB_GRH_BYTES : nat := 40.
Definition IB_IP4_BYTES : nat := 20.
Definition IB_UDP_BYTES : nat := 8.
Definition IB_BTH_BYTES : nat := 12.
Definition IB_DETH_BYTES : nat := 8.

Definition IB_LNH_IBA_LOCAL : Z := 2.
Definition IB_LNH_IBA_GLOBAL : Z := 3.
Definition IB_OPCODE_UD_SEND_ONLY : Z := 0x60 + 0x04.
Definition IB_OPCODE_UD_SEND_ONLY_WITH_IMMEDIATE : Z := 0x60 + 0x05.
Definition ETH_P_8021Q : Z := 0x8100.
Definition IPPROTO_UDP : Z := 17.

(** ** The field tables *)

(** The last member is a label for messages only. *)
Definition STRUCT_FIELD (ms : list member) (field : string) (words bits size : nat) : ib_field :=
  mk_field (offsetof ms field) (sizeof_field ms field) words bits size field.

Definition RESERVED (words bits size : nat) : ib_field :=
  mk_field 0 0 words bits size "reserved".

Definition lrh_table : list ib_field :=
  [STRUCT_FIELD ib_unpacked_lrh "virtual_lane" 0 0 4;
   STRUCT_FIELD ib_unpacked_lrh "link_version" 0 4 4;
   STRUCT_FIELD ib_unpacked_lrh "service_level" 0 8 4;
   RESERVED 0 12 2;
   STRUCT_FIELD ib_unpacked_lrh "link_next_header" 0 14 2;
   STRUCT_FIELD ib_unpacked_lrh "destination_lid" 0 16 16;
   RESERVED 1 0 5;
   STRUCT_FIELD ib_unpacked_lrh "packet_length" 1 5 11;
   STRUCT_FIELD ib_unpacked_lrh "source_lid" 1 16 16].

Definition eth_table : list ib_field :=
  [STRUCT_FIELD ib_unpacked_eth "dmac_h" 0 0 32;
   STRUCT_FIELD ib_unpacked_eth "dmac_l" 1 0 16;
   STRUCT_FIELD ib_unpacked_eth "smac_h" 1 16 16;
   STRUCT_FIELD ib_unpacked_eth "smac_l" 2 0 32;
   STRUCT_FIELD ib_unpacked_eth "type" 3 0 16].

Definition vlan_table : list ib_field :=
  [STRUCT_FIELD ib_unpacked_vlan "tag" 0 0 16;
   STRUCT_FIELD ib_unpacked_vlan "type" 0 16 16].

Definition ip4_table : list ib_field :=
  [STRUCT_FIELD ib_unpacked_ip4 "ver" 0 0 4;
   STRUCT_FIELD ib_unpacked_ip4 "hdr_len" 0 4 4;
   STRUCT_FIELD ib_unpacked_ip4 "tos" 0 8 8;
   STRUCT_FIELD ib_unpacked_ip4 "tot_len" 0 16 16;
   STRUCT_FIELD ib_unpacked_ip4 "id" 1 0 16;
   STRUCT_FIELD ib_unpacked_ip4 "frag_off" 1 16 16;
   STRUCT_FIELD ib_unpacked_ip4 "ttl" 2 0 8;
   STRUCT_FIELD ib_unpacked_ip4 "protocol" 2 8 8;
   STRUCT_FIELD ib_unpacked_ip4 "check" 2 16 16;
   STRUCT_FIELD ib_unpacked_ip4 "saddr" 3 0 32;
   STRUCT_FIELD ib_unpacked_ip4 "daddr" 4 0 32].

Definition udp_table : list ib_field :=
  [STRUCT_FIELD ib_unpacked_udp "sport" 0 0 16;
   STRUCT_FIELD ib_unpacked_udp "dport" 0 16 16;
   STRUCT_FIELD ib_unpacked_udp "length" 1 0 16;
   STRUCT_FIELD ib_unpacked_udp "csum" 1 16 16].

Definition grh_table : list ib_field :=
  [STRUCT_FIELD ib_unpacked_grh "ip_version" 0 0 4;
   STRUCT_FIELD ib_unpacked_grh "traffic_class" 0 4 8;
   STRUCT_FIELD ib_unpacked_grh "flow_label" 0 12 20;
   STRUCT_FIELD ib_unpacked_grh "payload_length" 1 0 16;
   STRUCT_FIELD ib_unpacked_grh "next_header" 1 16 8;
   STRUCT_FIELD ib_unpacked_grh "hop_limit" 1 24 8;
   STRUCT_FIELD ib_unpacked_grh "source_gid" 2 0 128;
   STRUCT_FIELD ib_unpacked_grh "destination_gid" 6 0 128].

Definition bth_table : list ib_field :=
  [STRUCT_FIELD ib_unpacked_bth "opcode" 0 0 8;
   STRUCT_FIELD ib_unpacked_bth "solicited_event" 0 8 1;
   STRUCT_FIELD ib_unpacked_bth "mig_req" 0 9 1;
   STRUCT_FIELD ib_unpacked_bth "pad_count" 0 10 2;
   STRUCT_FIELD ib_unpacked_bth "transport_header_version" 0 12 4;
   STRUCT_FIELD ib_unpacked_bth "pkey" 0 16 16;
   RESERVED 1 0 8;
   STRUCT_FIELD ib_unpacked_bth "destination_qpn" 1 8 24;
   STRUCT_FIELD ib_unpacked_bth "ack_req" 2 0 1;
   RESERVED 2 1 7;
   STRUCT_FIELD ib_unpacked_bth "psn" 2 8 24].

Definition deth_table : list ib_field :=
  [STRUCT_FIELD ib_unpacked_deth "qkey" 0 0 32;
   RESERVED 1 0 8;
   STRUCT_FIELD ib_unpacked_deth "source_qpn" 1 8 24].

(** ** The header *)

Record ib_ud_header := mk_ud_header {
  lrh_present : Z;       lrh : list Z;
  eth_present : Z;       eth : list Z;
  vlan_present : Z;      vlan : list Z;
  grh_present : Z;       grh : list Z;
  ipv4_present : Z;      ip4 : list Z;
  udp_present : Z;       udp : list Z;
  bth : list Z;
  deth : list Z;
  immediate_present : Z; immediate_data : list Z
}.

(** [s->member] as an integer in big-endian order, and the assignment
    [s->member = cpu_to_be(v)]. *)
Definition sget (ms : list member) (n : string) (s : list Z) : Z :=
  default 0 (be_combine <$> mem_read (offsetof ms n) (sizeof_field ms n) s).

Definition sset (ms : list member) (n : string) (v : Z) (s : list Z) : list Z :=
  default s (mem_write (offsetof ms n) (be_split (sizeof_field ms n) v) s).

Definition zeroed (ms : list member) : list Z := replicate (sizeof ms) 0.

(** [memset(header, 0, sizeof *header)]. *)
Definition ud_header_zero : ib_ud_header :=
  mk_ud_header 0 (zeroed ib_unpacked_lrh) 0 (zeroed ib_unpacked_eth)
    0 (zeroed ib_unpacked_vlan) 0 (zeroed ib_unpacked_grh) 0 (zeroed ib_unpacked_ip4)
    0 (zeroed ib_unpacked_udp) (zeroed ib_unpacked_bth) (zeroed ib_unpacked_deth)
    0 (replicate 4 0).

(** ** Operations *)

Local Close Scope string_scope.

Section csum.
(** [ip_fast_csum] is architecture code outside this repository: it is given the
    bytes of the IP header. *)
Variable ip_fast_csum : list Z -> Z.

(** The [struct iphdr] assembled by [ib_ud_ip4_csum]; the bit-fields
    [version] and [ihl] are the two halves of the first byte. *)
Definition iph_bytes (header : ib_ud_header) : list Z :=
  let ihl := 5 in
  let version := 4 in
  [Z.lor (Z.shiftl version 4) ihl; sget ib_unpacked_ip4 "tos" (ip4 header)]
    ++ be_split 2 (sget ib_unpacked_ip4 "tot_len" (ip4 header))
    ++ be_split 2 (sget ib_unpacked_ip4 "id" (ip4 header))
    ++ be_split 2 (sget ib_unpacked_ip4 "frag_off" (ip4 header))
    ++ [sget ib_unpacked_ip4 "ttl" (ip4 header);
        sget ib_unpacked_ip4 "protocol" (ip4 header)]
    ++ be_split 2 0
    ++ be_split 4 (sget ib_unpacked_ip4 "saddr" (ip4 header))
    ++ be_split 4 (sget ib_unpacked_ip4 "daddr" (ip4 header)).

Definition ib_ud_ip4_csum (header : ib_ud_header) : Z := ip_fast_csum (iph_bytes header).
End csum.

Definition b2z (b : bool) : Z := if b then 1 else 0.
Abbreviation zn := Z.of_nat (only parsing).

Lemma truthy_b2z b : truthy (b2z b) = b.
Proof. by destruct b. Qed.

(** Returns the C return value and the header. [int] division truncates towards
    zero; the sums that contain the [size_t] variable [udp_bytes] wrap at 64
    bits before they are cut to 16. *)
Definition ib_ud_header_init
    (payload_bytes lrh_present_ eth_present_ vlan_present_ grh_present_ ip_version
     udp_present_ immediate_present_ : Z) : Z * ib_ud_header :=
  let udp_bytes := if truthy udp_present_ then zn IB_UDP_BYTES else 0 in
  let grh_p := truthy grh_present_ && negb (truthy ip_version) in
  let h := ud_header_zero in
  if truthy udp_present_ && negb (ip_version =? 4) && negb (ip_version =? 6) then (err EINVAL, h)
  else
    let lrh1 :=
      if truthy lrh_present_ then
        let packet_length :=
          u16 (Z.quot (zn IB_LRH_BYTES + zn IB_BTH_BYTES + zn IB_DETH_BYTES
                       + (if grh_p then zn IB_GRH_BYTES else 0) + payload_bytes + 4 + 3) 4) in
        sset ib_unpacked_lrh "packet_length" packet_length
          (sset ib_unpacked_lrh "link_next_header"
             (if grh_p then IB_LNH_IBA_GLOBAL else IB_LNH_IBA_LOCAL)
             (sset ib_unpacked_lrh "link_version" 0 (lrh h)))
      else lrh h in
    let eth1 :=
      if truthy vlan_present_ then sset ib_unpacked_eth "type" ETH_P_8021Q (eth h) else eth h in
    let grh1 :=
      if (ip_version =? 6) || grh_p then
        sset ib_unpacked_grh "next_header" (if truthy udp_present_ then IPPROTO_UDP else 0x1b)
          (sset ib_unpacked_grh "payload_length"
             (u16 (Z.land (u64 (udp_bytes + zn IB_BTH_BYTES + zn IB_DETH_BYTES
                                + payload_bytes + 4 + 3)) (u64 (Z.lnot 3))))
             (sset ib_unpacked_grh "ip_version" 6 (grh h)))
      else grh h in
    let ip41 :=
      if ip_version =? 4 then
        sset ib_unpacked_ip4 "protocol" IPPROTO_UDP
          (sset ib_unpacked_ip4 "tot_len"
             (u16 (u64 (zn IB_IP4_BYTES + udp_bytes + zn IB_BTH_BYTES + zn IB_DETH_BYTES
                        + payload_bytes + 4)))
             (sset ib_unpacked_ip4 "hdr_len" 5 (sset ib_unpacked_ip4 "ver" 4 (ip4 h))))
      else ip4 h in
    let udp1 :=
      if truthy udp_present_ && truthy ip_version then
        sset ib_unpacked_udp "length"
          (u16 (zn IB_UDP_BYTES + zn IB_BTH_BYTES + zn IB_DETH_BYTES + payload_bytes + 4)) (udp h)
      else udp h in
    let bth1 :=
      sset ib_unpacked_bth "transport_header_version" 0
        (sset ib_unpacked_bth "pad_count" (u8 (Z.land (4 - payload_bytes) 3))
           (sset ib_unpacked_bth "opcode"
              (if truthy immediate_present_ then IB_OPCODE_UD_SEND_ONLY_WITH_IMMEDIATE
               else IB_OPCODE_UD_SEND_ONLY) (bth h))) in
    (0, mk_ud_header lrh_present_ lrh1 eth_present_ eth1 vlan_present_ (vlan h)
          (b2z (grh_p || (ip_version =? 6))) grh1 (b2z (ip_version =? 4)) ip41
          udp_present_ udp1 bth1 (deth h) immediate_present_ (immediate_data h)).

(** [ib_pack(table, ARRAY_SIZE(table), s, buf + len)]. *)
Definition pack_at (table : list ib_field) (s : list Z) (len : nat) (buf : list Z)
  : option (list Z) :=
  if bool_decide (len <= length buf)%nat
  then b ← ib_pack table s (drop len buf); Some (take len buf ++ b) else None.

(** [if (present) { ib_pack(table, ..., buf + len); len += bytes; }] *)
Definition pack_step (present : bool) (table : list ib_field) (s : list Z) (nbytes : nat)
    (st : nat * list Z) : option (nat * list Z) :=
  let '(len, buf) := st in
  if present then buf' ← pack_at table s len buf; Some ((len + nbytes)%nat, buf')
  else Some (len, buf).

Definition ib_ud_header_pack (header : ib_ud_header) (buf : list Z) : option (nat * list Z) :=
  st ← pack_step (truthy (lrh_present header)) lrh_table (lrh header) IB_LRH_BYTES (0%nat, buf);
  st ← pack_step (truthy (eth_present header)) eth_table (eth header) IB_ETH_BYTES st;
  st ← pack_step (truthy (vlan_present header)) vlan_table (vlan header) IB_VLAN_BYTES st;
  st ← pack_step (truthy (grh_present header)) grh_table (grh header) IB_GRH_BYTES st;
  st ← pack_step (truthy (ipv4_present header)) ip4_table (ip4 header) IB_IP4_BYTES st;
  st ← pack_step (truthy (udp_present header)) udp_table (udp header) IB_UDP_BYTES st;
  st ← pack_step true bth_table (bth header) IB_BTH_BYTES st;
  st ← pack_step true deth_table (deth header) IB_DETH_BYTES st;
  let '(len, buf) := st in
  if truthy (immediate_present header) then
    buf ← mem_write len (immediate_data header) buf;
    Some ((len + 4)%nat, buf)
  else Some (len, buf).

(** [ib_unpack(table, ARRAY_SIZE(table), buf, s)] with [buf] advanced by [off]. *)
Definition unpack_at (table : list ib_field) (off : nat) (buf s : list Z) : option (list Z) :=
  if bool_decide (off <= length buf)%nat then ib_unpack table (drop off buf) s else None.

Definition set_lrh (s : list Z) (h : ib_ud_header) : ib_ud_header :=
  mk_ud_header (lrh_present h) s (eth_present h) (eth h) (vlan_present h) (vlan h)
    (grh_present h) (grh h) (ipv4_present h) (ip4 h) (udp_present h) (udp h) (bth h) (deth h)
    (immediate_present h) (immediate_data h).
Definition set_grh (p : Z) (s : list Z) (h : ib_ud_header) : ib_ud_header :=
  mk_ud_header (lrh_present h) (lrh h) (eth_present h) (eth h) (vlan_present h) (vlan h)
    p s (ipv4_present h) (ip4 h) (udp_present h) (udp h) (bth h) (deth h)
    (immediate_present h) (immediate_data h).
Definition set_bth (s : list Z) (h : ib_ud_header) : ib_ud_header :=
  mk_ud_header (lrh_present h) (lrh h) (eth_present h) (eth h) (vlan_present h) (vlan h)
    (grh_present h) (grh h) (ipv4_present h) (ip4 h) (udp_present h) (udp h) s (deth h)
    (immediate_present h) (immediate_data h).
Definition set_deth (s : list Z) (h : ib_ud_header) : ib_ud_header :=
  mk_ud_header (lrh_present h) (lrh h) (eth_present h) (eth h) (vlan_present h) (vlan h)
    (grh_present h) (grh h) (ipv4_present h) (ip4 h) (udp_present h) (udp h) (bth h) s
    (immediate_present h) (immediate_data h).
Definition set_imm (p : Z) (d : list Z) (h : ib_ud_header) : ib_ud_header :=
  mk_ud_header (lrh_present h) (lrh h) (eth_present h) (eth h) (vlan_present h) (vlan h)
    (grh_present h) (grh h) (ipv4_present h) (ip4 h) (udp_present h) (udp h) (bth h) (deth h)
    p d.

(** The part of [ib_ud_header_unpack] after the network header: [off] is how far
    [buf] has been advanced. *)
Definition unpack_transport (buf : list Z) (off : nat) (header : ib_ud_header)
  : option (Z * ib_ud_header) :=
  b ← unpack_at bth_table off buf (bth header);
  let header := set_bth b header in
  let off := (off + IB_BTH_BYTES)%nat in
  let opcode := sget ib_unpacked_bth "opcode" b in
  if (opcode =? IB_OPCODE_UD_SEND_ONLY)
     || (opcode =? IB_OPCODE_UD_SEND_ONLY_WITH_IMMEDIATE) then
    let header :=
      set_imm (b2z (opcode =? IB_OPCODE_UD_SEND_ONLY_WITH_IMMEDIATE)) (immediate_data header)
        header in
    if negb (sget ib_unpacked_bth "transport_header_version" b =? 0) then
      Some (err EINVAL, header)
    else
      d ← unpack_at deth_table off buf (deth header);
      let header := set_deth d header in
      let off := (off + IB_DETH_BYTES)%nat in
      if truthy (immediate_present header) then
        imm ← mem_read off 4 buf;
        Some (0, set_imm (immediate_present header) imm header)
      else Some (0, header)
  else Some (err EINVAL, header).

Definition ib_ud_header_unpack (buf : list Z) (header : ib_ud_header)
  : option (Z * ib_ud_header) :=
  l ← unpack_at lrh_table 0 buf (lrh header);
  let header := set_lrh l header in
  let off := IB_LRH_BYTES in
  if negb (sget ib_unpacked_lrh "link_version" l =? 0) then Some (err EINVAL, header)
  else
    let lnh := sget ib_unpacked_lrh "link_next_header" l in
    if lnh =? IB_LNH_IBA_LOCAL then
      unpack_transport buf off (set_grh 0 (grh header) header)
    else if lnh =? IB_LNH_IBA_GLOBAL then
      g ← unpack_at grh_table off buf (grh header);
      let header := set_grh 1 g header in
      if negb (sget ib_unpacked_grh "ip_version" g =? 6) then Some (err EINVAL, header)
      else if negb (sget ib_unpacked_grh "next_header" g =? 0x1b) then Some (err EINVAL, header)
      else unpack_transport buf (off + IB_GRH_BYTES) header
    else Some (err EINVAL, header).

(** ** Lemmas *)

(** The bits of [buf] from byte [off] on hold the fields of [s]. *)
Definition stored (table : list ib_field) (s : list Z) (off : nat) (buf : list Z) : Prop :=
  forall f j, f ∈ table -> (j < size_bits f)%nat ->
    bit_at buf (8 * off + fstart f + j) = field_bit f s j.

(** Two structures agree on every member the table names. *)
Definition same_fields (table : list ib_field) (s1 s : list Z) : Prop :=
  forall f, f ∈ table -> struct_size_bytes f <> 0%nat ->
    mem_read (struct_offset_bytes f) (struct_size_bytes f) s1 =
    mem_read (struct_offset_bytes f) (struct_size_bytes f) s.

(** A table whose fields lie in the first [nb] bytes of the wire header. *)
Definition within (nb : nat) (table : list ib_field) : Prop :=
  Forall (fun f => (fstart f + size_bits f <= 8 * nb)%nat) table.

Lemma wf_field_mono b b' slen f : (b <= b')%nat -> wf_field b slen f -> wf_field b' slen f.
Proof.
  intros Hb [Hp Hw]. split; [done|].
  repeat case_bool_decide; destruct_and!; split_and!; try done; lia.
Qed.

Lemma wf_table_mono b b' slen t : (b <= b')%nat -> wf_table b slen t -> wf_table b' slen t.
Proof.
  intros Hb. induction t as [|f t IH]; simpl; [done|]. intros (Hf & Hd & Ht).
  split_and!; [by eapply wf_field_mono|done|by apply IH].
Qed.

Lemma pack_at_spec w slen nb table s len buf :
  wf_table w slen table -> within nb table -> length s = slen -> bytes_ok s -> bytes_ok buf ->
  (len + w <= length buf)%nat ->
  exists buf', pack_at table s len buf = Some buf' /\ length buf' = length buf /\
    bytes_ok buf' /\ stored table s len buf' /\
    (forall k, ~ (8 * len <= k < 8 * (len + nb))%nat -> bit_at buf' k = bit_at buf k).
Proof.
  intros Hwf Hin Hs Hsb Hb Hlen. unfold pack_at. rewrite bool_decide_eq_true_2 by lia.
  destruct (ib_pack_spec (length buf - len) slen table s (drop len buf))
    as (b & -> & Hlb & Hbb & Hst & Hfr).
  - eapply wf_table_mono; [|done]. lia.
  - done.
  - rewrite length_drop. done.
  - done.
  - by apply Forall_drop.
  - cbn [mbind option_bind]. eexists. split; [done|].
    split; [rewrite length_app, length_take; lia|].
    split; [apply Forall_app; split; [by apply Forall_take|done]|].
    split.
    + intros f j Hf Hj. rewrite bit_at_take_app, bool_decide_eq_false_2 by lia.
      rewrite <- (Hst f j Hf Hj). f_equal. lia.
    + intros k Hk. rewrite bit_at_take_app by lia. case_bool_decide; [done|].
      rewrite Hfr.
      * rewrite bit_at_drop. f_equal. lia.
      * eapply Forall_impl; [exact Hin|]. cbv beta. intros f Hf. lia.
Qed.

Lemma unpack_at_spec w slen table s off buf s0 :
  wf_table w slen table -> stored table s off buf -> Forall (fits s) table ->
  length s = slen -> length s0 = slen -> bytes_ok s -> bytes_ok buf ->
  (off + w <= length buf)%nat ->
  exists s1, unpack_at table off buf s0 = Some s1 /\ length s1 = slen /\ same_fields table s1 s.
Proof.
  intros Hwf Hst Hfit Hs Hs0 Hsb Hb Hlen. unfold unpack_at.
  rewrite bool_decide_eq_true_2 by lia.
  destruct (ib_unpack_spec (length buf - off) slen table s (drop off buf) s0)
    as (s1 & E & Hl & Hr & _); try done.
  - eapply wf_table_mono; [|done]. lia.
  - by rewrite length_drop.
  - by apply Forall_drop.
  - intros f j Hf Hj. rewrite bit_at_drop, <- (Hst f j Hf Hj). f_equal. lia.
  - by exists s1.
Qed.

(** *** The sequence of packing steps *)

Record step := mk_step {
  st_present : bool; st_table : list ib_field; st_struct : list Z;
  st_bytes : nat;  (** how far [len] advances *)
  st_words : nat   (** bytes the word accesses of the table touch *)
}.

Definition st_len (x : step) : nat := if st_present x then st_bytes x else 0%nat.
Fixpoint total (xs : list step) : nat :=
  match xs with [] => 0%nat | x :: r => (st_len x + total r)%nat end.

Fixpoint run_steps (xs : list step) (st : nat * list Z) : option (nat * list Z) :=
  match xs with
  | [] => Some st
  | x :: r =>
      st' ← pack_step (st_present x) (st_table x) (st_struct x) (st_bytes x) st;
      run_steps r st'
  end.

Definition step_ok (x : step) : Prop :=
  wf_table (st_words x) (length (st_struct x)) (st_table x) /\
  within (st_bytes x) (st_table x) /\ bytes_ok (st_struct x).

(** The word accesses of a step stay inside the bytes of it and of the steps that
    follow. *)
Fixpoint steps_fit (xs : list step) : Prop :=
  match xs with
  | [] => True
  | x :: r => (st_present x = true -> st_words x <= st_bytes x + total r)%nat /\ steps_fit r
  end.

Lemma total_take xs i x :
  xs !! i = Some x -> st_present x = true -> (total (take i xs) + st_bytes x <= total xs)%nat.
Proof.
  revert i. induction xs as [|y xs IH]; intros [|i] Hx Hp; simplify_eq/=.
  - unfold st_len. rewrite Hp. lia.
  - specialize (IH i Hx Hp). lia.
Qed.

Lemma run_steps_spec xs len buf :
  Forall step_ok xs -> steps_fit xs -> bytes_ok buf -> (len + total xs <= length buf)%nat ->
  exists buf', run_steps xs (len, buf) = Some ((len + total xs)%nat, buf') /\
    length buf' = length buf /\ bytes_ok buf' /\
    (forall k, ~ (8 * len <= k < 8 * (len + total xs))%nat -> bit_at buf' k = bit_at buf k) /\
    (forall i x, xs !! i = Some x -> st_present x = true ->
       stored (st_table x) (st_struct x) (len + total (take i xs)) buf').
Proof.
  revert len buf. induction xs as [|x xs IH]; intros len buf Hok Hfit Hb Hlen.
  { exists buf. cbn. rewrite Nat.add_0_r. by split_and!. }
  apply Forall_cons in Hok as [(Hwf & Hin & Hsb) Hok]. destruct Hfit as [Hf Hfit].
  assert (total (x :: xs) = st_len x + total xs)%nat as Ht by done. rewrite Ht in *.
  unfold st_len in *. cbn [run_steps]. unfold pack_step. destruct (st_present x) eqn:Hp.
  - destruct (pack_at_spec (st_words x) (length (st_struct x)) (st_bytes x) (st_table x) (st_struct x) len buf)
      as (b1 & -> & L1 & B1 & S1 & F1); try done; [specialize (Hf eq_refl); lia|].
    cbn [mbind option_bind].
    destruct (IH (len + st_bytes x)%nat b1) as (b2 & -> & L2 & B2 & F2 & S2);
      try done; [lia|].
    exists b2. split; [f_equal; f_equal; lia|]. split; [lia|]. split; [done|]. split.
    + intros k Hk. rewrite F2, F1 by lia. done.
    + intros [|i] y Hy Hpy.
      * injection Hy as <-. intros f j Hfj Hj.
        pose proof (proj1 (Forall_forall _ _) Hin f Hfj) as Hend. cbv beta in Hend.
        replace (len + total (take 0 (x :: xs)))%nat with len
          by (change (total (take 0 (x :: xs))) with 0%nat; lia).
        rewrite F2 by lia. by apply S1.
      * replace (len + total (take (S i) (x :: xs)))%nat
          with (len + st_bytes x + total (take i xs))%nat
          by (cbn [take total]; unfold st_len; rewrite Hp; lia).
        by apply (S2 i y).
  - cbn [mbind option_bind].
    destruct (IH len buf) as (b2 & -> & L2 & B2 & F2 & S2); try done.
    exists b2. split; [f_equal; f_equal; lia|]. split; [done|]. split; [done|].
    split; [intros k Hk; apply F2; lia|].
    intros [|i] y Hy Hpy; [injection Hy as <-; congruence|].
    replace (len + total (take (S i) (x :: xs)))%nat with (len + total (take i xs))%nat
      by (cbn [take total]; unfold st_len; rewrite Hp; lia).
    by apply (S2 i y).
Qed.

(** *** The tables are well formed *)

Ltac table_wf := apply (bool_decide_unpack _); vm_compute; exact I.

Lemma lrh_wf : wf_table 8 10 lrh_table.
Proof. table_wf. Qed.
Lemma eth_wf : wf_table 16 14 eth_table.
Proof. table_wf. Qed.
Lemma vlan_wf : wf_table 4 4 vlan_table.
Proof. table_wf. Qed.
Lemma grh_wf : wf_table 40 48 grh_table.
Proof. table_wf. Qed.
Lemma ip4_wf : wf_table 20 24 ip4_table.
Proof. table_wf. Qed.
Lemma udp_wf : wf_table 8 8 udp_table.
Proof. table_wf. Qed.
Lemma bth_wf : wf_table 12 20 bth_table.
Proof. table_wf. Qed.
Lemma deth_wf : wf_table 8 8 deth_table.
Proof. table_wf. Qed.

#[export] Instance within_dec nb t : Decision (within nb t).
Proof. unfold within. apply _. Defined.

Lemma tables_within :
  within IB_LRH_BYTES lrh_table /\ within IB_ETH_BYTES eth_table /\
  within IB_VLAN_BYTES vlan_table /\ within IB_GRH_BYTES grh_table /\
  within IB_IP4_BYTES ip4_table /\ within IB_UDP_BYTES udp_table /\
  within IB_BTH_BYTES bth_table /\ within IB_DETH_BYTES deth_table.
Proof. split_and!; table_wf. Qed.

(** A header whose members are C structures of the right size. *)
Definition struct_bytes (ms : list member) (s : list Z) : Prop :=
  length s = sizeof ms /\ bytes_ok s.

Definition ud_ok (h : ib_ud_header) : Prop :=
  struct_bytes ib_unpacked_lrh (lrh h) /\ struct_bytes ib_unpacked_eth (eth h) /\
  struct_bytes ib_unpacked_vlan (vlan h) /\ struct_bytes ib_unpacked_grh (grh h) /\
  struct_bytes ib_unpacked_ip4 (ip4 h) /\ struct_bytes ib_unpacked_udp (udp h) /\
  struct_bytes ib_unpacked_bth (bth h) /\ struct_bytes ib_unpacked_deth (deth h) /\
  length (immediate_data h) = 4%nat /\ bytes_ok (immediate_data h).

Definition ud_steps (h : ib_ud_header) : list step :=
  [mk_step (truthy (lrh_present h)) lrh_table (lrh h) IB_LRH_BYTES 8;
   mk_step (truthy (eth_present h)) eth_table (eth h) IB_ETH_BYTES 16;
   mk_step (truthy (vlan_present h)) vlan_table (vlan h) IB_VLAN_BYTES 4;
   mk_step (truthy (grh_present h)) grh_table (grh h) IB_GRH_BYTES 40;
   mk_step (truthy (ipv4_present h)) ip4_table (ip4 h) IB_IP4_BYTES 20;
   mk_step (truthy (udp_present h)) udp_table (udp h) IB_UDP_BYTES 8;
   mk_step true bth_table (bth h) IB_BTH_BYTES 12;
   mk_step true deth_table (deth h) IB_DETH_BYTES 8].

(** Bytes before the immediate, and bytes of the whole packed header. *)
Definition fixed_len (h : ib_ud_header) : nat :=
  (if truthy (lrh_present h) then IB_LRH_BYTES else 0) +
  (if truthy (eth_present h) then IB_ETH_BYTES else 0) +
  (if truthy (vlan_present h) then IB_VLAN_BYTES else 0) +
  (if truthy (grh_present h) then IB_GRH_BYTES else 0) +
  (if truthy (ipv4_present h) then IB_IP4_BYTES else 0) +
  (if truthy (udp_present h) then IB_UDP_BYTES else 0) + IB_BTH_BYTES + IB_DETH_BYTES.

Definition header_len (h : ib_ud_header) : nat :=
  fixed_len h + (if truthy (immediate_present h) then 4 else 0).

Lemma total_ud_steps h : total (ud_steps h) = fixed_len h.
Proof.
  unfold fixed_len, ud_steps. cbn [total]. unfold st_len. cbn [st_present st_bytes]. lia.
Qed.

Lemma ud_steps_ok h : ud_ok h -> Forall step_ok (ud_steps h).
Proof.
  intros (H1 & H2 & H3 & H4 & H5 & H6 & H7 & H8 & _).
  destruct tables_within as (W1 & W2 & W3 & W4 & W5 & W6 & W7 & W8).
  repeat first
    [ apply Forall_nil; exact I
    | apply Forall_cons; split;
      [ unfold step_ok; cbn [st_words st_table st_struct st_bytes]; split_and!;
        [match goal with H : struct_bytes _ ?s |- wf_table _ (length ?s) _ =>
           rewrite (proj1 H) end
        | done
        | match goal with H : struct_bytes _ ?s |- bytes_ok ?s => exact (proj2 H) end]
      | ] ].
  - exact lrh_wf.
  - exact eth_wf.
  - exact vlan_wf.
  - exact grh_wf.
  - exact ip4_wf.
  - exact udp_wf.
  - exact bth_wf.
  - exact deth_wf.
Qed.

Lemma ud_steps_fit h : steps_fit (ud_steps h).
Proof.
  unfold ud_steps, IB_LRH_BYTES, IB_ETH_BYTES, IB_VLAN_BYTES, IB_GRH_BYTES, IB_IP4_BYTES,
    IB_UDP_BYTES, IB_BTH_BYTES, IB_DETH_BYTES.
  cbn [steps_fit total]. unfold st_len. cbn [st_words st_bytes st_present].
  split_and!; intros; try done; lia.
Qed.

(** [ib_ud_header_pack] runs the steps and appends the immediate. *)
Lemma ib_ud_header_pack_steps h buf :
  ib_ud_header_pack h buf =
  st ← run_steps (ud_steps h) (0%nat, buf);
  let '(len, buf) := st in
  if truthy (immediate_present h) then
    buf ← mem_write len (immediate_data h) buf; Some ((len + 4)%nat, buf)
  else Some (len, buf).
Proof.
  unfold ib_ud_header_pack, ud_steps. cbn [run_steps st_present st_table st_struct st_bytes].
  repeat (match goal with
    | |- context [pack_step ?p ?t ?s ?n ?st] =>
        destruct (pack_step p t s n st) eqn:?; cbn [mbind option_bind]; try done
    end).
Qed.

Lemma ib_ud_header_pack_spec h buf :
  ud_ok h -> bytes_ok buf -> (header_len h <= length buf)%nat ->
  exists buf', ib_ud_header_pack h buf = Some (header_len h, buf') /\
    length buf' = length buf /\ bytes_ok buf' /\
    (forall k, (8 * header_len h <= k)%nat -> bit_at buf' k = bit_at buf k) /\
    (forall i x, ud_steps h !! i = Some x -> st_present x = true ->
       stored (st_table x) (st_struct x) (total (take i (ud_steps h))) buf') /\
    (truthy (immediate_present h) = true ->
       mem_read (fixed_len h) 4 buf' = Some (immediate_data h)).
Proof.
  intros Hok Hb Hlen.
  rewrite ib_ud_header_pack_steps. pose proof (total_ud_steps h) as Ht.
  assert (fixed_len h <= header_len h)%nat by (unfold header_len; lia).
  destruct (run_steps_spec (ud_steps h) 0 buf) as (b & -> & L & B & F & S);
    [by apply ud_steps_ok|apply ud_steps_fit|done|lia|].
  rewrite Ht in *. cbn [mbind option_bind]. rewrite !Nat.add_0_l in *.
  assert (length (immediate_data h) = 4%nat /\ bytes_ok (immediate_data h)) as [Li Bi]
    by (by destruct Hok as (_ & _ & _ & _ & _ & _ & _ & _ & ? & ?)).
  unfold header_len in *. destruct (truthy (immediate_present h)).
  - destruct (mem_write_ok (fixed_len h) (immediate_data h) b) as [b' Hw]; [lia|].
    rewrite Hw. cbn [mbind option_bind]. exists b'. split; [done|].
    split; [rewrite (length_mem_write _ _ _ _ Hw); done|].
    split; [exact (mem_write_bytes _ _ _ _ B Bi Hw)|]. split; [|split].
    + intros k Hk. rewrite (bit_at_write _ _ _ _ k Hw), bool_decide_eq_false_2 by lia.
      apply F. lia.
    + intros i x Hx Hp f j Hf Hj. rewrite (bit_at_write _ _ _ _ _ Hw).
      rewrite bool_decide_eq_false_2; [by apply (S i x)|].
      assert (total (take i (ud_steps h)) + st_bytes x <= fixed_len h)%nat as Hle.
      { rewrite <- Ht. by apply total_take. }
      pose proof (ud_steps_ok h Hok) as Hall. rewrite Forall_lookup in Hall.
      destruct (Hall i x Hx) as (_ & Hin & _). unfold within in Hin.
      rewrite Forall_forall in Hin. specialize (Hin f Hf). cbv beta in Hin. lia.
    + intros _. rewrite <- Li. exact (mem_read_write_eq _ _ _ _ Hw).
  - rewrite Nat.add_0_r. exists b. split_and!; try done. intros k Hk. apply F. lia.
Qed.

(** *** Members of a structure *)

Lemma sget_same ms n w b k t s1 s :
  same_fields t s1 s -> STRUCT_FIELD ms n w b k ∈ t -> sizeof_field ms n <> 0%nat ->
  sget ms n s1 = sget ms n s.
Proof.
  intros Hs Hf Hn. unfold sget. f_equal. f_equal. exact (Hs _ Hf Hn).
Qed.

Ltac field_in := repeat first [apply list_elem_of_here | apply list_elem_of_further].
Ltac same_member := eapply sget_same; [eassumption | field_in | vm_compute; congruence].

(** The native InfiniBand form of the header: the form [ib_ud_header_unpack]
    accepts. *)
Record native_ib (h : ib_ud_header) : Prop := {
  ni_lrh : truthy (lrh_present h) = true;
  ni_eth : truthy (eth_present h) = false;
  ni_vlan : truthy (vlan_present h) = false;
  ni_ip4 : truthy (ipv4_present h) = false;
  ni_udp : truthy (udp_present h) = false;
  ni_lver : sget ib_unpacked_lrh "link_version" (lrh h) = 0;
  ni_lnh : sget ib_unpacked_lrh "link_next_header" (lrh h) =
           if truthy (grh_present h) then IB_LNH_IBA_GLOBAL else IB_LNH_IBA_LOCAL;
  ni_ipver : truthy (grh_present h) = true -> sget ib_unpacked_grh "ip_version" (grh h) = 6;
  ni_next : truthy (grh_present h) = true -> sget ib_unpacked_grh "next_header" (grh h) = 0x1b;
  ni_opcode : sget ib_unpacked_bth "opcode" (bth h) =
              if truthy (immediate_present h) then IB_OPCODE_UD_SEND_ONLY_WITH_IMMEDIATE
              else IB_OPCODE_UD_SEND_ONLY;
  ni_thv : sget ib_unpacked_bth "transport_header_version" (bth h) = 0
}.

(** Every value fits the width of its field. *)
Definition ud_fits (h : ib_ud_header) : Prop :=
  Forall (fits (lrh h)) lrh_table /\
  (truthy (grh_present h) = true -> Forall (fits (grh h)) grh_table) /\
  Forall (fits (bth h)) bth_table /\ Forall (fits (deth h)) deth_table.

Lemma unpack_transport_spec h h0 off buf :
  ud_ok h -> length (bth h0) = 20%nat -> length (deth h0) = 8%nat -> bytes_ok buf ->
  Forall (fits (bth h)) bth_table ->
  Forall (fits (deth h)) deth_table ->
  stored bth_table (bth h) off buf -> stored deth_table (deth h) (off + IB_BTH_BYTES) buf ->
  sget ib_unpacked_bth "transport_header_version" (bth h) = 0 ->
  sget ib_unpacked_bth "opcode" (bth h) =
    (if truthy (immediate_present h) then IB_OPCODE_UD_SEND_ONLY_WITH_IMMEDIATE
     else IB_OPCODE_UD_SEND_ONLY) ->
  (truthy (immediate_present h) = true ->
     mem_read (off + IB_BTH_BYTES + IB_DETH_BYTES) 4 buf = Some (immediate_data h)) ->
  (off + IB_BTH_BYTES + IB_DETH_BYTES <= length buf)%nat ->
  exists h1, unpack_transport buf off h0 = Some (0, h1) /\
    same_fields bth_table (bth h1) (bth h) /\ same_fields deth_table (deth h1) (deth h) /\
    lrh h1 = lrh h0 /\ grh_present h1 = grh_present h0 /\ grh h1 = grh h0 /\
    immediate_present h1 = b2z (truthy (immediate_present h)) /\
    (truthy (immediate_present h) = true -> immediate_data h1 = immediate_data h).
Proof.
  intros (_ & _ & _ & _ & _ & _ & [Lb Bb] & [Ld Bd] & _) Lb0 Ld0
    Hbuf Fb Fd Sb Sd Hthv Hop Himm Hlen.
  unfold IB_BTH_BYTES, IB_DETH_BYTES in *.
  destruct (unpack_at_spec 12 20 bth_table (bth h) off buf (bth h0))
    as (b & E & Lbb & Hsb); try done; [exact bth_wf|lia|].
  destruct (unpack_at_spec 8 8 deth_table (deth h) (off + 12) buf (deth h0))
    as (d & E' & Ldd & Hsd); try done; [exact deth_wf|].
  assert (sget ib_unpacked_bth "opcode" b = sget ib_unpacked_bth "opcode" (bth h)) as Eo
    by same_member.
  assert (sget ib_unpacked_bth "transport_header_version" b =
          sget ib_unpacked_bth "transport_header_version" (bth h)) as Et by same_member.
  unfold unpack_transport. rewrite E. cbn [mbind option_bind]. rewrite Eo, Et, Hop, Hthv.
  destruct (truthy (immediate_present h)) eqn:Ei;
    cbn [Z.eqb orb negb set_imm set_bth deth immediate_present immediate_data];
    unfold IB_BTH_BYTES, IB_DETH_BYTES; change (0 =? 0) with true; cbn [negb];
    rewrite E'; cbn [mbind option_bind set_deth set_imm immediate_present truthy Z.eqb b2z negb].
  - rewrite (Himm eq_refl). cbn. eexists. split; [done|]. by split_and!.
  - cbn. eexists. split; [done|]. by split_and!.
Qed.

(** Where the headers of a native packet start. *)
Lemma native_offsets h (off := (8 + if truthy (grh_present h) then 40 else 0)%nat) :
  native_ib h ->
  total (take 6 (ud_steps h)) = off /\
  total (take 7 (ud_steps h)) = (off + 12)%nat /\ fixed_len h = (off + 20)%nat.
Proof.
  intros N. unfold off, fixed_len, ud_steps. cbn [take total]. unfold st_len.
  cbn [st_present st_bytes].
  rewrite (ni_lrh h N), (ni_eth h N), (ni_vlan h N), (ni_ip4 h N), (ni_udp h N).
  unfold IB_LRH_BYTES, IB_GRH_BYTES, IB_BTH_BYTES, IB_DETH_BYTES. lia.
Qed.

(** *** Assigning members *)

Lemma sset_bytes ms n v s L :
  (length s = L /\ bytes_ok s) -> length (sset ms n v s) = L /\ bytes_ok (sset ms n v s).
Proof.
  intros [Hl Hb]. unfold sset.
  destruct (mem_write _ _ s) as [s'|] eqn:E; [|done]. simpl.
  rewrite (length_mem_write _ _ _ _ E). split; [done|].
  exact (mem_write_bytes _ _ _ _ Hb (be_split_bytes _ _) E).
Qed.

Lemma sget_sset_eq ms n v s :
  (offsetof ms n + sizeof_field ms n <= length s)%nat ->
  0 <= v < 2 ^ (8 * Z.of_nat (sizeof_field ms n)) -> sget ms n (sset ms n v s) = v.
Proof.
  intros Hl Hv. unfold sset.
  destruct (mem_write_ok (offsetof ms n) (be_split (sizeof_field ms n) v) s) as [s' E];
    [by rewrite length_be_split|].
  rewrite E. simpl. unfold sget.
  pose proof (mem_read_write_eq _ _ _ _ E) as R. rewrite length_be_split in R. rewrite R. simpl.
  by apply be_combine_split.
Qed.

Lemma sget_sset_ne ms n n' v s :
  (offsetof ms n' + sizeof_field ms n' <= offsetof ms n \/
   offsetof ms n + sizeof_field ms n <= offsetof ms n')%nat ->
  sget ms n' (sset ms n v s) = sget ms n' s.
Proof.
  intros Hd. unfold sset, sget. destruct (mem_write _ _ s) as [s'|] eqn:E; [|done]. simpl.
  rewrite (mem_read_write_ne _ _ _ _ _ _ E); [done|]. by rewrite length_be_split.
Qed.

(** Rewriting of reads of members of a structure built by assignments. *)
Ltac disjoint_members := vm_compute; lia.

Lemma length_sset ms n v s : length (sset ms n v s) = length s.
Proof.
  unfold sset. destruct (mem_write _ _ s) as [s'|] eqn:E; [|done]. simpl.
  exact (length_mem_write _ _ _ _ E).
Qed.

Ltac member_side :=
  lazymatch goal with
  | |- (_ <= length _)%nat =>
      rewrite ?length_sset; apply Nat.leb_le; vm_compute; reflexivity
  | |- 0 <= ?v < ?b =>
      let k := eval vm_compute in b in change (0 <= v < k);
      first [ lia | exact (u8_range _) | exact (u16_range _)
            | repeat case_cond; vm_compute; split; congruence ]
  end.

Ltac member_simpl :=
  repeat first
    [ rewrite sget_sset_eq by member_side | rewrite sget_sset_ne by disjoint_members ].

Lemma zeroed_ok ms : struct_bytes ms (zeroed ms).
Proof.
  split; [apply length_replicate|]. apply Forall_replicate. unfold is_byte. lia.
Qed.

Lemma sset_ok ms n v s : struct_bytes ms s -> struct_bytes ms (sset ms n v s).
Proof. apply sset_bytes. Qed.

Lemma land_not3 x : 0 <= x < 2 ^ 64 -> Z.land x (u64 (Z.lnot 3)) = 4 * (x / 4).
Proof.
  intros Hx. unfold u64. rewrite <- Z.land_ones, Z.land_assoc by lia.
  rewrite <- Z.ldiff_land. change 3 with (Z.ones 2). rewrite Z.ldiff_ones_r by lia.
  rewrite Z.shiftr_div_pow2, Z.shiftl_mul_pow2, Z.land_ones by lia.
  change (2 ^ 2) with 4. rewrite Z.mod_small; [lia|].
  pose proof (Z.div_mod x 4). pose proof (Z.mod_pos_bound x 4). lia.
Qed.

Lemma pad_spec p : let pad := u8 (Z.land (4 - p) 3) in 0 <= pad < 4 /\ (p + pad) mod 4 = 0.
Proof.
  change 3 with (Z.ones 2). rewrite Z.land_ones by lia. change (2 ^ 2) with 4.
  pose proof (Z.mod_pos_bound (4 - p) 4). rewrite u8_id by lia. cbv zeta. split; [lia|].
  rewrite Zplus_mod_idemp_r. replace (p + (4 - p)) with 4 by lia. done.
Qed.

Create HintDb udok.
#[export] Hint Resolve zeroed_ok sset_ok : udok.

Lemma ib_ud_header_init_ok p l e v g ipv u i :
  ud_ok (snd (ib_ud_header_init p l e v g ipv u i)).
Proof.
  unfold ib_ud_header_init. case_cond; cbn [snd];
    unfold ud_ok; cbn [lrh eth vlan grh ip4 udp bth deth immediate_data ud_header_zero];
    split_and!; try done; repeat case_cond; auto with udok.
  all: repeat constructor; unfold is_byte; lia.
Qed.

(** The two ways the code rounds up to words. *)
Lemma round_up4 c p :
  0 <= p <= 65000 -> 0 <= c <= 200 -> c mod 4 = 0 ->
  let n := c + p + u8 (Z.land (4 - p) 3) in
  u16 (Z.quot (c + p + 3) 4) = n / 4 /\ 4 * (n / 4) = n /\ 4 * ((c + p + 3) / 4) = n.
Proof.
  intros Hp Hc Hm. destruct (pad_spec p) as [Hpad Hmod]. cbv zeta in *.
  rewrite Z.quot_div_nonneg by lia. set (pad := u8 _) in *. clearbody pad.
  rewrite u16_id by (Z.div_mod_to_equations; lia).
  Z.div_mod_to_equations. lia.
Qed.

(** ** Properties *)

(** Memory safety of [ib_ud_header_pack]: with a buffer of at least the
    length of the headers that are present, packing is defined, returns exactly
    that length, and does not change a byte behind it (although the word
    accesses for the 14-byte Ethernet header reach two bytes past it). *)
Theorem ib_ud_header_pack_safe h buf :
  ud_ok h -> bytes_ok buf -> (header_len h <= length buf)%nat ->
  exists buf', ib_ud_header_pack h buf = Some (header_len h, buf') /\
    length buf' = length buf /\ drop (header_len h) buf' = drop (header_len h) buf.
Proof.
  intros Hok Hb Hl.
  destruct (ib_ud_header_pack_spec h buf Hok Hb Hl) as (b & Hp & L & B & F & _).
  exists b. split_and!; try done. apply bytes_bit_ext; rewrite ?length_drop; try lia;
    [by apply Forall_drop..|].
  intros k Hk. rewrite !bit_at_drop. apply F. lia.
Qed.

(** Headers used by the witnesses. *)
Definition native_header : ib_ud_header :=
  snd (ib_ud_header_init 256 1 0 0 1 0 0 1).
Definition roce_header : ib_ud_header :=
  snd (ib_ud_header_init 257 0 1 1 0 4 1 0).

Lemma ib_ud_header_pack_safe_witness :
  header_len roce_header = 66%nat /\
  exists buf', ib_ud_header_pack roce_header (replicate 70 9) = Some (66%nat, buf') /\
    length buf' = 70%nat /\ drop 66 buf' = replicate 4 9.
Proof.
  split; [reflexivity|].
  apply (ib_ud_header_pack_safe roce_header (replicate 70 9)).
  - apply ib_ud_header_init_ok.
  - apply Forall_replicate. split; [vm_compute; congruence|reflexivity].
  - apply Nat.leb_le. reflexivity.
Defined.

(** Round trip of the native InfiniBand UD header: packing a header in the
    form [ib_ud_header_unpack] accepts and unpacking the result succeeds and
    restores every field of LRH, GRH, BTH and DETH, the presence flags and the
    immediate. *)
Theorem ib_ud_header_roundtrip h h0 buf :
  ud_ok h -> ud_ok h0 -> native_ib h -> ud_fits h -> bytes_ok buf ->
  (header_len h <= length buf)%nat ->
  exists buf' h1,
    ib_ud_header_pack h buf = Some (header_len h, buf') /\
    ib_ud_header_unpack buf' h0 = Some (0, h1) /\
    same_fields lrh_table (lrh h1) (lrh h) /\
    grh_present h1 = b2z (truthy (grh_present h)) /\
    (truthy (grh_present h) = true -> same_fields grh_table (grh h1) (grh h)) /\
    same_fields bth_table (bth h1) (bth h) /\ same_fields deth_table (deth h1) (deth h) /\
    immediate_present h1 = b2z (truthy (immediate_present h)) /\
    (truthy (immediate_present h) = true -> immediate_data h1 = immediate_data h).
Proof.
  intros Hok Hok0 N (Fl & Fg & Fb & Fd) Hb Hlen.
  destruct (ib_ud_header_pack_spec h buf Hok Hb Hlen) as (b & Hp & L & B & _ & S & I).
  exists b. destruct (native_offsets h N) as (O6 & O7 & Of).
  pose proof (S 6%nat _ eq_refl eq_refl) as S6. pose proof (S 7%nat _ eq_refl eq_refl) as S7.
  pose proof (S 0%nat _ eq_refl (ni_lrh h N)) as S0.
  rewrite O6 in S6. rewrite O7 in S7. rewrite Of in I.
  assert (length b >= fixed_len h)%nat by (unfold header_len in Hlen; lia).
  unfold ib_ud_header_unpack.
  destruct (unpack_at_spec 8 10 lrh_table (lrh h) 0 b (lrh h0)) as (l & -> & Ll & Hsl);
    [exact lrh_wf|exact S0|done|apply Hok|apply Hok0|apply Hok|done|lia|].
  cbn [mbind option_bind].
  assert (sget ib_unpacked_lrh "link_version" l = 0) as ->
    by (rewrite <- (ni_lver h N); same_member).
  assert (sget ib_unpacked_lrh "link_next_header" l =
          sget ib_unpacked_lrh "link_next_header" (lrh h)) as -> by same_member.
  rewrite (ni_lnh h N).
  destruct (truthy (grh_present h)) eqn:Eg; cbn [Z.eqb negb].
  - change (IB_LNH_IBA_GLOBAL =? IB_LNH_IBA_LOCAL) with false.
    change (IB_LNH_IBA_GLOBAL =? IB_LNH_IBA_GLOBAL) with true. cbv iota.
    assert (total (take 3 (ud_steps h)) = IB_LRH_BYTES) as O3.
    { unfold ud_steps. cbn [take total]. unfold st_len. cbn [st_present st_bytes].
      rewrite (ni_lrh h N), (ni_eth h N), (ni_vlan h N). reflexivity. }
    pose proof (S 3%nat _ eq_refl Eg) as S3. rewrite O3 in S3.
    destruct (unpack_at_spec 40 48 grh_table (grh h) IB_LRH_BYTES b (grh (set_lrh l h0)))
      as (g & -> & Lg & Hsg);
      [exact grh_wf|exact S3|auto|apply Hok|apply Hok0|apply Hok|done|unfold IB_LRH_BYTES; lia|].
    cbn [mbind option_bind].
    assert (sget ib_unpacked_grh "ip_version" g = 6) as ->
      by (rewrite <- (ni_ipver h N Eg); same_member).
    assert (sget ib_unpacked_grh "next_header" g = 0x1b) as ->
      by (rewrite <- (ni_next h N Eg); same_member).
    cbn [Z.eqb Pos.eqb negb].
    destruct (unpack_transport_spec h (set_grh 1 g (set_lrh l h0)) (IB_LRH_BYTES + IB_GRH_BYTES) b)
      as (h1 & E1 & ? & ? & El & Ep & Eg1 & ?);
      [done|apply Hok0|apply Hok0|done..|apply N|apply N|exact I|
       unfold IB_LRH_BYTES, IB_GRH_BYTES, IB_BTH_BYTES, IB_DETH_BYTES; lia|].
    exists h1. rewrite El, Ep, Eg1. destruct_and!. split_and!; auto.
  - change (IB_LNH_IBA_LOCAL =? IB_LNH_IBA_LOCAL) with true. cbv iota.
    destruct (unpack_transport_spec h (set_grh 0 (grh (set_lrh l h0)) (set_lrh l h0)) IB_LRH_BYTES b)
      as (h1 & E1 & ? & ? & El & Ep & Eg1 & ?);
      [done|apply Hok0|apply Hok0|done..|apply N|apply N|exact I|
       unfold IB_LRH_BYTES, IB_BTH_BYTES, IB_DETH_BYTES; lia|].
    exists h1. rewrite El, Ep. destruct_and!. split_and!; auto; done.
Qed.

Lemma ib_ud_header_roundtrip_witness :
  exists buf' h1,
    ib_ud_header_pack native_header (replicate 72 0) = Some (72%nat, buf') /\
    ib_ud_header_unpack buf' ud_header_zero = Some (0, h1) /\
    same_fields lrh_table (lrh h1) (lrh native_header) /\ grh_present h1 = 1 /\
    immediate_present h1 = 1.
Proof.
  destruct (ib_ud_header_roundtrip native_header ud_header_zero (replicate 72 0))
    as (b & h1 & Hp & Hu & Hl & Hg & _ & _ & _ & Hi & _).
  - apply ib_ud_header_init_ok.
  - unfold ud_ok, struct_bytes. split_and!; try reflexivity;
      apply Forall_replicate; split; vm_compute; congruence.
  - split; intros; vm_compute; reflexivity.
  - split_and!; intros; apply (bool_decide_unpack _); vm_compute; exact I.
  - apply Forall_replicate. split; [vm_compute; congruence|reflexivity].
  - apply Nat.leb_le. reflexivity.
  - exists b, h1. split_and!; [exact Hp|exact Hu|exact Hl|exact Hg|exact Hi].
Defined.

(** The lengths [ib_ud_header_init] computes: for every accepted combination
    of flags the pad count completes the payload to words; the LRH packet length
    counts, in words, LRH, GRH, BTH, DETH, payload, pad and ICRC; the GRH payload
    length, the IPv4 total length and the UDP length count the headers behind
    them, the payload and the ICRC. *)
Theorem ib_ud_header_init_lengths p l e v g ipv u i :
  0 <= p <= 65000 ->
  fst (ib_ud_header_init p l e v g ipv u i) = 0 ->
  let h := snd (ib_ud_header_init p l e v g ipv u i) in
  let pad := sget ib_unpacked_bth "pad_count" (bth h) in
  let udp_bytes := if truthy u then 8 else 0 in
  0 <= pad < 4 /\ (p + pad) mod 4 = 0 /\
  (truthy l = true ->
     4 * sget ib_unpacked_lrh "packet_length" (lrh h) =
     28 + (if truthy g && negb (truthy ipv) then 40 else 0) + p + pad + 4) /\
  (truthy (grh_present h) = true ->
     sget ib_unpacked_grh "payload_length" (grh h) = udp_bytes + 20 + p + pad + 4) /\
  (truthy (ipv4_present h) = true ->
     sget ib_unpacked_ip4 "tot_len" (ip4 h) = 40 + udp_bytes + p + 4) /\
  (truthy u = true -> sget ib_unpacked_udp "length" (udp h) = 28 + p + 4).
Proof.
  intros Hp H0. unfold ib_ud_header_init in *.
  destruct (truthy u && negb (ipv =? 4) && negb (ipv =? 6)) eqn:Ee; [done|].
  cbn [snd bth lrh grh ip4 udp grh_present ipv4_present].
  destruct (pad_spec p) as [Hpad Hmod].
  unfold IB_LRH_BYTES, IB_BTH_BYTES, IB_DETH_BYTES, IB_GRH_BYTES, IB_UDP_BYTES, IB_IP4_BYTES.
  clear H0. member_simpl. split_and!; try done; try lia.
  - intros ->. destruct (round_up4 72 p) as (E1 & E2 & _); [lia..|done|].
    destruct (round_up4 32 p) as (E3 & E4 & _); [lia..|done|].
    cbv zeta in *. destruct (truthy g && negb (truthy ipv)); member_simpl.
    + replace (zn 8 + zn 12 + zn 8 + zn 40 + p + 4 + 3) with (72 + p + 3) by lia. lia.
    + replace (zn 8 + zn 12 + zn 8 + 0 + p + 4 + 3) with (32 + p + 3) by lia. lia.
  - intros Hg. assert ((ipv =? 6) || truthy g && negb (truthy ipv) = true) as ->.
    { destruct (truthy g && negb (truthy ipv)), (ipv =? 6); done. }
    member_simpl. destruct (round_up4 32 p) as (_ & _ & E1); [lia..|done|].
    destruct (round_up4 24 p) as (_ & _ & E2); [lia..|done|]. cbv zeta in *.
    destruct (truthy u).
    + replace (zn 8 + zn 12 + zn 8 + p + 4 + 3) with (32 + p + 3) by lia.
      rewrite u64_id, land_not3, E1, u16_id by lia. lia.
    + replace (0 + zn 12 + zn 8 + p + 4 + 3) with (24 + p + 3) by lia.
      rewrite u64_id, land_not3, E2, u16_id by lia. lia.
  - intros H4. destruct (ipv =? 4); [|done]. member_simpl.
    destruct (truthy u); rewrite u64_id, u16_id by lia; lia.
  - intros Hu. rewrite Hu in *. bool_to_prop.
    assert (truthy ipv = true) as ->.
    { unfold truthy. destruct (Z.eqb_spec ipv 0) as [->|]; [done|done]. }
    cbn [andb]. member_simpl. rewrite u16_id by lia. lia.
Qed.

Lemma ib_ud_header_init_lengths_witness :
  let h := snd (ib_ud_header_init 257 1 0 0 1 0 0 0) in
  4 * sget ib_unpacked_lrh "packet_length" (lrh h) = 28 + 40 + 257 + 3 + 4.
Proof.
  destruct (ib_ud_header_init_lengths 257 1 0 0 1 0 0 0) as (_ & _ & H & _);
    [split; vm_compute; congruence|reflexivity|].
  exact (H eq_refl).
Defined.

(** [ib_ud_header_init] refuses exactly the combination of a UDP header
    without an IPv4 or IPv6 header, leaving a zeroed header; every other
    combination succeeds. *)
Theorem ib_ud_header_init_result p l e v g ipv u i :
  if truthy u && negb (ipv =? 4) && negb (ipv =? 6)
  then ib_ud_header_init p l e v g ipv u i = (err EINVAL, ud_header_zero)
  else exists h, ib_ud_header_init p l e v g ipv u i = (0, h) /\ ud_ok h /\
    lrh_present h = l /\ udp_present h = u /\ immediate_present h = i /\
    (truthy (grh_present h) = true <-> ipv = 6 \/ (truthy g = true /\ ipv = 0)) /\
    (truthy (ipv4_present h) = true <-> ipv = 4).
Proof.
  pose proof (ib_ud_header_init_ok p l e v g ipv u i) as Hok.
  unfold ib_ud_header_init in *.
  destruct (truthy u && negb (ipv =? 4) && negb (ipv =? 6)); [done|].
  eexists. split; [done|]. split; [exact Hok|].
  cbn [lrh_present udp_present immediate_present grh_present ipv4_present].
  clear Hok. rewrite !truthy_b2z. change (truthy ipv) with (negb (ipv =? 0)).
  split_and!; try done.
  - destruct (Z.eqb_spec ipv 6), (truthy g), (Z.eqb_spec ipv 0); simpl;
      (split; [intros ?|intros [?|[? ?]]]); subst; try done; try lia; auto.
  - destruct (Z.eqb_spec ipv 4); naive_solver.
Qed.
