(* ===== verification/Smi.v ===== *)
(** * Directed-route SMPs: drivers/infiniband/core/smi.c, smi.h, opa_smi.h and
      the SMI part of mad.c

    [struct ib_smp] and [struct opa_smp] are accessed by the same code through
    the seven members of the directed-route segment. [DrSmp] is the interface
    of a packet that contains such a segment; it has one instance for each
    of the two structures, and every function below is the pair of an [smi_]
    and an [opa_smi_] function of the source. The two paths are arrays of 64
    bytes: an index outside them is undefined in C and gives [None]. *)

From Stdlib Require Import ZArith Lia.
From stdpp Require Import base tactics numbers list option.
From S2P Require Import Prelude.

Local Open Scope Z_scope.

(** ** Data *)

Inductive smi_action := IB_SMI_DISCARD | IB_SMI_HANDLE.
Inductive smi_forward_action := IB_SMI_LOCAL | IB_SMI_SEND | IB_SMI_FORWARD.

#[export] Instance smi_action_eq_dec : EqDecision smi_action.
Proof. solve_decision. Defined.
#[export] Instance smi_forward_action_eq_dec : EqDecision smi_forward_action.
Proof. solve_decision. Defined.

Definition IB_SMP_MAX_PATH_HOPS : Z := 64.
Definition IB_SMP_DIRECTION : Z := 0x8000.
Definition IB_LID_PERMISSIVE : Z := 0xFFFF.
Definition OPA_LID_PERMISSIVE : Z := 0xFFFFFFFF.

(** The members the directed-route code uses; [status] and the LIDs in the byte
    order of the wire. *)
Record dr := mk_dr {
  status : Z; hop_ptr : Z; hop_cnt : Z; dr_slid : Z; dr_dlid : Z;
  initial_path : list Z; return_path : list Z
}.

Definition set_hop_ptr (v : Z) (d : dr) : dr :=
  mk_dr (status d) v (hop_cnt d) (dr_slid d) (dr_dlid d) (initial_path d) (return_path d).
Definition set_return_path (p : list Z) (d : dr) : dr :=
  mk_dr (status d) (hop_ptr d) (hop_cnt d) (dr_slid d) (dr_dlid d) (initial_path d) p.

Record ib_smp := mk_ib_smp {
  ib_base_version : Z; ib_mgmt_class : Z; ib_class_version : Z; ib_method : Z;
  ib_tid : Z; ib_attr_id : Z; ib_attr_mod : Z; ib_mkey : Z;
  ib_dr : dr; ib_data : list Z
}.

Record opa_smp := mk_opa_smp {
  opa_base_version : Z; opa_mgmt_class : Z; opa_class_version : Z; opa_method : Z;
  opa_tid : Z; opa_attr_id : Z; opa_attr_mod : Z; opa_mkey : Z;
  opa_dr : dr; opa_data : list Z
}.

(** ** The interface of a directed-route packet *)

Class DrSmp (S : Type) := {
  dr_view : S -> dr;
  dr_put : dr -> S -> S;
  lid_permissive : Z;
  view_put d s : dr_view (dr_put d s) = d;
  put_put d d' s : dr_put d (dr_put d' s) = dr_put d s;
  put_view s : dr_put (dr_view s) s = s
}.

#[export] Program Instance ib_smp_dr : DrSmp ib_smp := {|
  dr_view := ib_dr;
  dr_put d s := mk_ib_smp (ib_base_version s) (ib_mgmt_class s) (ib_class_version s)
    (ib_method s) (ib_tid s) (ib_attr_id s) (ib_attr_mod s) (ib_mkey s) d (ib_data s);
  lid_permissive := IB_LID_PERMISSIVE
|}.
Solve Obligations with by intros; repeat match goal with x : ib_smp |- _ => destruct x end.

#[export] Program Instance opa_smp_dr : DrSmp opa_smp := {|
  dr_view := opa_dr;
  dr_put d s := mk_opa_smp (opa_base_version s) (opa_mgmt_class s) (opa_class_version s)
    (opa_method s) (opa_tid s) (opa_attr_id s) (opa_attr_mod s) (opa_mkey s) d (opa_data s);
  lid_permissive := OPA_LID_PERMISSIVE
|}.
Solve Obligations with by intros; repeat match goal with x : opa_smp |- _ => destruct x end.

(** ** Operations *)

(** [path[i]]. *)
Definition path_at (p : list Z) (i : Z) : option Z :=
  if i <? 0 then None else p !! Z.to_nat i.

(** [path[i] = v] with [v] cut to a byte. *)
Definition path_set (p : list Z) (i v : Z) : option (list Z) :=
  if (i <? 0) || (Z.of_nat (length p) <=? i) then None
  else Some (<[Z.to_nat i := u8 v]> p).

Definition ib_get_smp_direction (d : dr) : bool :=
  Z.land (status d) IB_SMP_DIRECTION =? IB_SMP_DIRECTION.

Definition act (b : bool) : smi_action := if b then IB_SMI_HANDLE else IB_SMI_DISCARD.

(** Result: the action and the new [*hop_ptr]. *)
Definition __smi_handle_dr_smp_send (is_switch : bool) (port_num hop_ptr hop_cnt : Z)
    (initial_path return_path : list Z) (direction : bool)
    (dr_dlid_is_permissive dr_slid_is_permissive : bool) : option (smi_action * Z) :=
  if IB_SMP_MAX_PATH_HOPS <=? hop_cnt then Some (IB_SMI_DISCARD, hop_ptr)
  else if negb direction then
    if truthy hop_cnt && (hop_ptr =? 0) then
      let hop_ptr := u8 (hop_ptr + 1) in
      p ← path_at initial_path hop_ptr; Some (act (p =? port_num), hop_ptr)
    else if truthy hop_ptr && (hop_ptr <? hop_cnt) then
      if negb is_switch then Some (IB_SMI_DISCARD, hop_ptr)
      else
        let hop_ptr := u8 (hop_ptr + 1) in
        p ← path_at initial_path hop_ptr; Some (act (p =? port_num), hop_ptr)
    else if hop_ptr =? hop_cnt then
      Some (act (is_switch || dr_dlid_is_permissive), u8 (hop_ptr + 1))
    else Some (act (hop_ptr =? hop_cnt + 1), hop_ptr)
  else
    if truthy hop_cnt && (hop_ptr =? hop_cnt + 1) then
      let hop_ptr := u8 (hop_ptr - 1) in
      p ← path_at return_path hop_ptr; Some (act (p =? port_num), hop_ptr)
    else if (2 <=? hop_ptr) && (hop_ptr <=? hop_cnt) then
      if negb is_switch then Some (IB_SMI_DISCARD, hop_ptr)
      else
        let hop_ptr := u8 (hop_ptr - 1) in
        p ← path_at return_path hop_ptr; Some (act (p =? port_num), hop_ptr)
    else if hop_ptr =? 1 then
      Some (act (is_switch || dr_slid_is_permissive), u8 (hop_ptr - 1))
    else if hop_ptr =? 0 then Some (IB_SMI_HANDLE, hop_ptr)
    else Some (IB_SMI_DISCARD, hop_ptr).

(** Result: the action, the new [*hop_ptr] and the new [return_path]. *)
Definition __smi_handle_dr_smp_recv (is_switch : bool) (port_num phys_port_cnt hop_ptr hop_cnt : Z)
    (initial_path return_path : list Z) (direction : bool)
    (dr_dlid_is_permissive dr_slid_is_permissive : bool)
  : option (smi_action * Z * list Z) :=
  if IB_SMP_MAX_PATH_HOPS <=? hop_cnt then Some (IB_SMI_DISCARD, hop_ptr, return_path)
  else if negb direction then
    if truthy hop_cnt && (hop_ptr =? 0) then Some (IB_SMI_DISCARD, hop_ptr, return_path)
    else if truthy hop_ptr && (hop_ptr <? hop_cnt) then
      if negb is_switch then Some (IB_SMI_DISCARD, hop_ptr, return_path)
      else
        return_path ← path_set return_path hop_ptr port_num;
        p ← path_at initial_path (hop_ptr + 1);
        Some (act (p <=? phys_port_cnt), hop_ptr, return_path)
    else if hop_ptr =? hop_cnt then
      return_path ← (if truthy hop_cnt then path_set return_path hop_ptr port_num
                     else Some return_path);
      Some (act (is_switch || dr_dlid_is_permissive), hop_ptr, return_path)
    else Some (act (hop_ptr =? hop_cnt + 1), hop_ptr, return_path)
  else
    if truthy hop_cnt && (hop_ptr =? hop_cnt + 1) then
      let hop_ptr := u8 (hop_ptr - 1) in
      p ← path_at return_path hop_ptr; Some (act (p =? port_num), hop_ptr, return_path)
    else if (2 <=? hop_ptr) && (hop_ptr <=? hop_cnt) then
      if negb is_switch then Some (IB_SMI_DISCARD, hop_ptr, return_path)
      else
        p ← path_at return_path (hop_ptr - 1);
        Some (act (p <=? phys_port_cnt), hop_ptr, return_path)
    else if hop_ptr =? 1 then
      if dr_slid_is_permissive then Some (IB_SMI_HANDLE, u8 (hop_ptr - 1), return_path)
      else Some (act is_switch, hop_ptr, return_path)
    else Some (act (hop_ptr =? 0), hop_ptr, return_path).

Definition __smi_check_forward_dr_smp (hop_ptr hop_cnt : Z) (direction : bool)
    (dr_dlid_is_permissive dr_slid_is_permissive : bool) : smi_forward_action :=
  if negb direction then
    if truthy hop_ptr && (hop_ptr <? hop_cnt) then IB_SMI_FORWARD
    else if hop_ptr =? hop_cnt then
      if dr_dlid_is_permissive then IB_SMI_SEND else IB_SMI_LOCAL
    else if hop_ptr =? hop_cnt + 1 then IB_SMI_SEND
    else IB_SMI_LOCAL
  else
    if (2 <=? hop_ptr) && (hop_ptr <=? hop_cnt) then IB_SMI_FORWARD
    else if hop_ptr =? 1 then
      if negb dr_slid_is_permissive then IB_SMI_SEND else IB_SMI_LOCAL
    else IB_SMI_LOCAL.

Section packets.
Context {S : Type} `{!DrSmp S}.

Definition dlid_permissive (d : dr) : bool := dr_dlid d =? lid_permissive.
Definition slid_permissive (d : dr) : bool := dr_slid d =? lid_permissive.

Definition smi_handle_dr_smp_send (smp : S) (is_switch : bool) (port_num : Z)
  : option (smi_action * S) :=
  let d := dr_view smp in
  '(a, h) ← __smi_handle_dr_smp_send is_switch port_num (hop_ptr d) (hop_cnt d)
    (initial_path d) (return_path d) (ib_get_smp_direction d)
    (dlid_permissive d) (slid_permissive d);
  Some (a, dr_put (set_hop_ptr h d) smp).

Definition smi_handle_dr_smp_recv (smp : S) (is_switch : bool) (port_num phys_port_cnt : Z)
  : option (smi_action * S) :=
  let d := dr_view smp in
  '(a, h, r) ← __smi_handle_dr_smp_recv is_switch port_num phys_port_cnt (hop_ptr d)
    (hop_cnt d) (initial_path d) (return_path d) (ib_get_smp_direction d)
    (dlid_permissive d) (slid_permissive d);
  Some (a, dr_put (set_return_path r (set_hop_ptr h d)) smp).

Definition smi_check_forward_dr_smp (smp : S) : smi_forward_action :=
  let d := dr_view smp in
  __smi_check_forward_dr_smp (hop_ptr d) (hop_cnt d) (ib_get_smp_direction d)
    (dlid_permissive d) (slid_permissive d).

Definition smi_get_fwd_port (smp : S) : option Z :=
  let d := dr_view smp in
  if negb (ib_get_smp_direction d) then path_at (initial_path d) (hop_ptr d + 1)
  else path_at (return_path d) (hop_ptr d - 1).

(** [process_mad] is whether the device has that operation. *)
Definition smi_check_local_smp (smp : S) (process_mad : bool) : smi_action :=
  let d := dr_view smp in
  act (process_mad && negb (ib_get_smp_direction d) && (hop_ptr d =? hop_cnt d + 1)).

Definition smi_check_local_returning_smp (smp : S) (process_mad : bool) : smi_action :=
  let d := dr_view smp in
  act (process_mad && ib_get_smp_direction d && (hop_ptr d =? 0)).

(** What the SMI of a device depends on. *)
Record smi_dev := mk_smi_dev { is_switch : bool; process_mad : bool; phys_port_cnt : Z }.

(** [handle_ib_smi] / [handle_opa_smi]: the action, the packet (modified in
    place), and the copy handed to [agent_send_response] with its port, if the
    packet is forwarded. *)
Definition handle_smi (dev : smi_dev) (port_num : Z) (smp : S)
  : option (smi_action * S * option (S * Z)) :=
  '(a, smp) ← smi_handle_dr_smp_recv smp (is_switch dev) port_num (phys_port_cnt dev);
  match a with
  | IB_SMI_DISCARD => Some (IB_SMI_DISCARD, smp, None)
  | IB_SMI_HANDLE =>
      match smi_check_forward_dr_smp smp with
      | IB_SMI_LOCAL => Some (IB_SMI_HANDLE, smp, None)
      | IB_SMI_SEND =>
          '(a, smp) ← smi_handle_dr_smp_send smp (is_switch dev) port_num;
          match a with
          | IB_SMI_DISCARD => Some (IB_SMI_DISCARD, smp, None)
          | IB_SMI_HANDLE => Some (smi_check_local_smp smp (process_mad dev), smp, None)
          end
      | IB_SMI_FORWARD =>
          if is_switch dev then
            p ← smi_get_fwd_port smp; Some (IB_SMI_DISCARD, smp, Some (smp, p))
          else Some (IB_SMI_HANDLE, smp, None)
      end
  end.

(** How [handle_outgoing_dr_smp] decides what happens to a packet: refused,
    posted on the QP, or processed by this device. *)
Inductive outgoing := Out_error (e : Z) | Out_post | Out_local (drslid : Z).

(** [check_slid] is the extra test of the OPA branch on [dr_slid]. *)
Definition outgoing_dr_smp (check_slid : bool) (dev : smi_dev) (port_num : Z) (smp : S)
  : option (outgoing * S) :=
  let d := dr_view smp in
  '(a, smp) ← (if (if ib_get_smp_direction d then dr_dlid d else dr_slid d) =? lid_permissive
               then smi_handle_dr_smp_send smp (is_switch dev) port_num
               else Some (IB_SMI_HANDLE, smp));
  match a with
  | IB_SMI_DISCARD => Some (Out_error (err EINVAL), smp)
  | IB_SMI_HANDLE =>
      let d := dr_view smp in
      if check_slid && negb (dr_slid d =? lid_permissive)
         && has_flag (dr_slid d) 0xffff0000 then Some (Out_error (err EINVAL), smp)
      else
        let drslid := Z.land (dr_slid d) 0xffff in
        match smi_check_local_smp smp (process_mad dev),
              smi_check_local_returning_smp smp (process_mad dev) with
        | IB_SMI_DISCARD, IB_SMI_DISCARD => Some (Out_post, smp)
        | _, _ => Some (Out_local drslid, smp)
        end
  end.
End packets.

Definition OPA_MGMT_BASE_VERSION : Z := 0x80.
Definition OPA_SM_CLASS_VERSION : Z := 0x80.

(** ** Well-formed packets and the journey of a packet *)

Definition wf_dr (d : dr) : Prop :=
  length (initial_path d) = 64%nat /\ length (return_path d) = 64%nat /\
  0 <= hop_ptr d < 256 /\ 0 <= hop_cnt d < 256.

(** A hop through an intermediate node: the packet arrives on [port_num], is
    forwarded by [handle_smi] and leaves through [outgoing_dr_smp] on the port
    chosen there. *)
Definition hop {A} `{!DrSmp A} (check_slid : bool) (dev : smi_dev) (port_num : Z) (smp : A)
  : option A :=
  match handle_smi dev port_num smp with
  | Some (IB_SMI_DISCARD, _, Some (fwd, p)) =>
      match outgoing_dr_smp check_slid dev p fwd with
      | Some (Out_post, smp') => Some smp'
      | _ => None
      end
  | _ => None
  end.

(** The hops through a list of nodes, each with the port of arrival. *)
Fixpoint journey {A} `{!DrSmp A} (check_slid : bool) (nodes : list (smi_dev * Z)) (smp : A)
  : option A :=
  match nodes with
  | [] => Some smp
  | (dev, port_num) :: r => s ← hop check_slid dev port_num smp; journey check_slid r s
  end.

(** ** Lemmas *)

Create HintDb smi.

Lemma path_at_Some p i v : path_at p i = Some v <-> 0 <= i /\ p !! Z.to_nat i = Some v.
Proof. unfold path_at. destruct (Z.ltb_spec i 0); split; intros; destruct_and?; try done; lia. Qed.

Lemma path_at_ok p i : 0 <= i < Z.of_nat (length p) -> exists v, path_at p i = Some v.
Proof.
  intros Hi. destruct (lookup_lt_is_Some_2 p (Z.to_nat i)) as [v Hv]; [lia|].
  exists v. apply path_at_Some. split; [lia|done].
Qed.

Lemma path_set_ok p i v :
  0 <= i < Z.of_nat (length p) -> path_set p i v = Some (<[Z.to_nat i := u8 v]> p).
Proof.
  intros Hi. unfold path_set. rewrite (proj2 (Z.ltb_ge _ _)), (proj2 (Z.leb_gt _ _)) by lia. done.
Qed.

(** Case analysis on a chain of conditions, with the array accesses resolved by
    the bounds in the context. *)
Ltac smi_cases :=
  repeat (first
    [ progress bool_to_prop
    | match goal with
      | |- context [path_at ?p ?i] =>
          let v := fresh "v" in let E := fresh "E" in
          destruct (path_at_ok p i) as [v E]; [lia|]; rewrite E; cbn [mbind option_bind]
      | |- context [path_set ?p ?i ?v] => rewrite (path_set_ok p i v) by lia; cbn [mbind option_bind]
      | |- context [if ?b then _ else _] => let E := fresh "E" in destruct b eqn:E
      end ]).

Lemma truthy_false z : truthy z = false <-> z = 0.
Proof. unfold truthy. destruct (Z.eqb_spec z 0); naive_solver. Qed.
Lemma truthy_true z : truthy z = true <-> z <> 0.
Proof. unfold truthy. destruct (Z.eqb_spec z 0); naive_solver. Qed.

Lemma u8_inc z : 0 <= z < 255 -> u8 (z + 1) = z + 1.
Proof. intros. apply u8_id. lia. Qed.
Lemma u8_dec z : 1 <= z < 256 -> u8 (z - 1) = z - 1.
Proof. intros. apply u8_id. lia. Qed.

Lemma send_ok sw port h c ip rp dir pd ps :
  length ip = 64%nat -> length rp = 64%nat -> 0 <= h < 256 -> 0 <= c < 256 ->
  exists a h', __smi_handle_dr_smp_send sw port h c ip rp dir pd ps = Some (a, h') /\
    0 <= h' < 256.
Proof.
  intros Hi Hr Hh Hc. unfold __smi_handle_dr_smp_send, IB_SMP_MAX_PATH_HOPS.
  pose proof (u8_range (h + 1)). pose proof (u8_range (h - 1)).
  destruct (Z.leb_spec 64 c); [eauto|].
  destruct dir; cbn [negb].
  - destruct (truthy c && (h =? c + 1)) eqn:E1.
    { bool_to_prop. rewrite u8_dec by lia. smi_cases; eauto with lia. }
    destruct ((2 <=? h) && (h <=? c)) eqn:E2.
    { bool_to_prop. rewrite u8_dec by lia. smi_cases; eauto with lia. }
    smi_cases; eauto with lia.
  - destruct (truthy c && (h =? 0)) eqn:E1.
    { bool_to_prop. rewrite u8_inc by lia. smi_cases; eauto with lia. }
    destruct (truthy h && (h <? c)) eqn:E2.
    { bool_to_prop. rewrite u8_inc by lia. smi_cases; eauto with lia. }
    smi_cases; eauto with lia.
Qed.

Lemma recv_ok sw port cnt h c ip rp dir pd ps :
  length ip = 64%nat -> length rp = 64%nat -> 0 <= h < 256 -> 0 <= c < 256 ->
  exists a h' rp', __smi_handle_dr_smp_recv sw port cnt h c ip rp dir pd ps = Some (a, h', rp') /\
    0 <= h' < 256 /\ length rp' = 64%nat.
Proof.
  intros Hi Hr Hh Hc. unfold __smi_handle_dr_smp_recv, IB_SMP_MAX_PATH_HOPS.
  pose proof (u8_range (h - 1)).
  assert (forall i v, length (<[i := v]> rp) = 64%nat) by (intros; by rewrite length_insert).
  destruct (Z.leb_spec 64 c); [eauto 8|].
  destruct dir; cbn [negb].
  - destruct (truthy c && (h =? c + 1)) eqn:E1.
    { bool_to_prop. rewrite u8_dec by lia. smi_cases; eauto 8 with lia. }
    smi_cases; eauto 8 with lia.
  - destruct (truthy c && (h =? 0)) eqn:E1; [smi_cases; eauto 8 with lia|].
    destruct (truthy h && (h <? c)) eqn:E2; [smi_cases; eauto 8 with lia|].
    smi_cases; eauto 8 with lia.
Qed.

(** What a forwarding decision after a successful receive says about the packet. *)
Lemma recv_forward port cnt h c ip rp dir pd ps h' rp' pd' :
  0 <= h < 256 -> 0 <= c < 256 ->
  __smi_handle_dr_smp_recv true port cnt h c ip rp dir pd ps = Some (IB_SMI_HANDLE, h', rp') ->
  __smi_check_forward_dr_smp h' c dir pd' ps = IB_SMI_FORWARD ->
  (dir = false /\ 1 <= h < c /\ h' = h /\
     exists p, path_at ip (h' + 1) = Some p /\ p <= cnt) \/
  (dir = true /\ (h = c + 1 \/
     2 <= h <= c /\ h' = h /\ exists p, path_at rp' (h' - 1) = Some p /\ p <= cnt)).
Proof.
  intros Hh Hc. unfold __smi_handle_dr_smp_recv, __smi_check_forward_dr_smp.
  destruct (IB_SMP_MAX_PATH_HOPS <=? c); [done|]. destruct dir; cbn [negb].
  - intros Hr Hf. right. split; [done|].
    destruct (truthy c && (h =? c + 1)) eqn:E1; [bool_to_prop; by left|]. right.
    destruct ((2 <=? h) && (h <=? c)) eqn:E2.
    + apply bind_Some in Hr as (q & Hq & [= Ha <- <-]). bool_to_prop.
      split_and!; [lia..|done|]. exists q. split; [done|].
      unfold act in Ha. destruct (Z.leb_spec q cnt); [lia|done].
    + exfalso. destruct (Z.eqb_spec h 1) as [->|].
      * destruct ps; [|by injection Hr as <- <-; rewrite E2 in Hf].
        injection Hr as <- <-. by destruct (c =? 0), c.
      * injection Hr as Ha <- <-. rewrite E2 in Hf.
        destruct (Z.eqb_spec h 1); [done|]. done.
  - intros Hr Hf. left. split; [done|].
    destruct (truthy c && (h =? 0)); [done|].
    destruct (truthy h && (h <? c)) eqn:E2.
    + apply bind_Some in Hr as (r & Hs & (q & Hq & [= Ha <- <-])%bind_Some). bool_to_prop.
      apply truthy_true in H. split_and!; [lia..|done|]. exists q. split; [done|].
      unfold act in Ha. destruct (Z.leb_spec q cnt); [lia|done].
    + exfalso. assert (h' = h) as ->.
      { destruct (h =? c); [|congruence]. apply bind_Some in Hr as (r & _ & Hr). congruence. }
      rewrite E2 in Hf. by repeat case_match.
Qed.

Section proofs.
Context {A : Type} `{!DrSmp A}.
Implicit Types (smp : A) (d : dr).

Lemma smp_send_ok smp sw port :
  wf_dr (dr_view smp) ->
  exists a smp', smi_handle_dr_smp_send smp sw port = Some (a, smp') /\ wf_dr (dr_view smp').
Proof.
  intros (Hi & Hr & Hh & Hc). unfold smi_handle_dr_smp_send.
  edestruct send_ok as (a & h' & -> & Hh'); [exact Hi|exact Hr|exact Hh|exact Hc|].
  cbn [mbind option_bind]. eexists _, _. split; [done|]. by rewrite view_put.
Qed.

Lemma smp_recv_ok smp sw port cnt :
  wf_dr (dr_view smp) ->
  exists a smp', smi_handle_dr_smp_recv smp sw port cnt = Some (a, smp') /\ wf_dr (dr_view smp').
Proof.
  intros (Hi & Hr & Hh & Hc). unfold smi_handle_dr_smp_recv.
  edestruct recv_ok as (a & h' & rp' & -> & Hh' & Hl); [exact Hi|exact Hr|exact Hh|exact Hc|].
  cbn [mbind option_bind]. eexists _, _. split; [done|]. by rewrite view_put.
Qed.

Lemma smp_recv_hop_cnt smp sw port cnt smp' :
  smi_handle_dr_smp_recv smp sw port cnt = Some (IB_SMI_HANDLE, smp') ->
  hop_cnt (dr_view smp') < 64.
Proof.
  unfold smi_handle_dr_smp_recv, __smi_handle_dr_smp_recv, IB_SMP_MAX_PATH_HOPS.
  destruct (Z.leb_spec 64 (hop_cnt (dr_view smp))); [done|].
  intros (((a & h) & r) & _ & [= _ <-])%bind_Some. rewrite view_put. done.
Qed.

(** The port read by [smi_get_fwd_port] exists when the packet is forwarded. *)
Lemma fwd_port_ok smp :
  wf_dr (dr_view smp) -> hop_cnt (dr_view smp) < 64 ->
  smi_check_forward_dr_smp smp = IB_SMI_FORWARD ->
  exists p, smi_get_fwd_port smp = Some p.
Proof.
  intros (Hi & Hr & Hh & Hc) Hc' Hf.
  unfold smi_check_forward_dr_smp, __smi_check_forward_dr_smp, smi_get_fwd_port in *.
  destruct (ib_get_smp_direction (dr_view smp)); cbn [negb] in *.
  - destruct ((2 <=? hop_ptr (dr_view smp)) && (hop_ptr (dr_view smp) <=? hop_cnt (dr_view smp)))
      eqn:E; [|by repeat case_cond; simplify_eq; repeat case_match].
    bool_to_prop. apply path_at_ok. lia.
  - destruct (truthy (hop_ptr (dr_view smp)) && (hop_ptr (dr_view smp) <? hop_cnt (dr_view smp)))
      eqn:E; [|by repeat case_match].
    bool_to_prop. apply path_at_ok. lia.
Qed.

Lemma handle_smi_ok dev port smp :
  wf_dr (dr_view smp) ->
  exists a smp' f, handle_smi dev port smp = Some (a, smp', f) /\ wf_dr (dr_view smp') /\
    (forall s p, f = Some (s, p) -> s = smp').
Proof.
  intros Hwf. unfold handle_smi.
  destruct (smp_recv_ok smp (is_switch dev) port (phys_port_cnt dev) Hwf) as (a & s1 & E1 & W1).
  rewrite E1. cbn [mbind option_bind].
  destruct a; [eexists _, _, _; split_and!; [done|done|done]|].
  apply smp_recv_hop_cnt in E1.
  destruct (smi_check_forward_dr_smp s1) eqn:Ef.
  - eexists _, _, _; split_and!; done.
  - destruct (smp_send_ok s1 (is_switch dev) port W1) as (a & s2 & -> & W2).
    cbn [mbind option_bind]. destruct a; eexists _, _, _; split_and!; done.
  - destruct (is_switch dev); [|eexists _, _, _; split_and!; done].
    destruct (fwd_port_ok s1 W1 E1 Ef) as [p ->]. cbn [mbind option_bind].
    eexists _, _, _; split_and!; [done|done|]. by intros ? ? [= <- <-].
Qed.

Lemma outgoing_ok cs dev port smp :
  wf_dr (dr_view smp) ->
  exists o smp', outgoing_dr_smp cs dev port smp = Some (o, smp') /\ wf_dr (dr_view smp').
Proof.
  intros Hwf. unfold outgoing_dr_smp.
  destruct (smp_send_ok smp (is_switch dev) port Hwf) as (a & s1 & E1 & W1).
  case_cond; [rewrite E1|]; cbn [mbind option_bind]; repeat case_match; eauto.
Qed.

(** A forwarded packet: the device is a switch, and the port is one it has. *)
Lemma forwarded_inv dev port smp a smp' s p :
  handle_smi dev port smp = Some (a, smp', Some (s, p)) ->
  a = IB_SMI_DISCARD /\ is_switch dev = true /\ s = smp' /\
  smi_handle_dr_smp_recv smp true port (phys_port_cnt dev) = Some (IB_SMI_HANDLE, s) /\
  smi_check_forward_dr_smp s = IB_SMI_FORWARD /\ smi_get_fwd_port s = Some p.
Proof.
  unfold handle_smi. intros ([a1 s1] & E1 & H)%bind_Some.
  destruct a1; [done|]. destruct (smi_check_forward_dr_smp s1) eqn:Ef; [done| |].
  - apply bind_Some in H as ([a2 s2] & _ & H). by destruct a2.
  - destruct (is_switch dev); [|done]. apply bind_Some in H as (q & Eq & [= <- <- <- <-]).
    by split_and!.
Qed.

Lemma forwarded_port dev port smp a smp' s p :
  wf_dr (dr_view smp) -> handle_smi dev port smp = Some (a, smp', Some (s, p)) ->
  ~ (ib_get_smp_direction (dr_view smp) = true /\
     hop_ptr (dr_view smp) = hop_cnt (dr_view smp) + 1) ->
  p <= phys_port_cnt dev.
Proof.
  intros (_ & _ & Hh & Hc) (_ & _ & -> & Hr & Hf & Hp)%forwarded_inv Hn.
  unfold smi_handle_dr_smp_recv in Hr. apply bind_Some in Hr as ([[a1 h] r] & E & [= -> <-]).
  unfold smi_check_forward_dr_smp, smi_get_fwd_port in *. rewrite view_put in *.
  cbn [set_return_path set_hop_ptr hop_ptr hop_cnt initial_path return_path] in *.
  change (ib_get_smp_direction (set_return_path r (set_hop_ptr h (dr_view smp))))
    with (ib_get_smp_direction (dr_view smp)) in *.
  destruct (recv_forward _ _ _ _ _ _ _ _ _ _ _ _ Hh Hc E Hf)
    as [(Hd & _ & _ & q & Hq & Hle)|(Hd & [? | (_ & _ & q & Hq & Hle)])];
    rewrite Hd in *; cbn [negb] in *; [|by destruct Hn|]; congruence.
Qed.

(** *** Journeys *)

(** Both LID-routed parts are empty, and the packet travels in direction [dir]. *)
Definition pure_dr (dir : bool) (d : dr) : Prop :=
  ib_get_smp_direction d = dir /\ dr_slid d = lid_permissive (S := A) /\
  dr_dlid d = lid_permissive (S := A) /\ hop_cnt d < 64.

(** The effect of an intermediate hop on a request and on a response. *)
Definition fwd_step (d : dr) (port : Z) : dr :=
  set_hop_ptr (hop_ptr d + 1)
    (set_return_path (<[Z.to_nat (hop_ptr d) := u8 port]> (return_path d)) d).
Definition back_step (d : dr) : dr := set_hop_ptr (hop_ptr d - 1) d.

Lemma dir_set_hop_ptr v d : ib_get_smp_direction (set_hop_ptr v d) = ib_get_smp_direction d.
Proof. done. Qed.
Lemma dir_set_return_path p d :
  ib_get_smp_direction (set_return_path p d) = ib_get_smp_direction d.
Proof. done. Qed.

Ltac dr_simpl :=
  rewrite ?view_put in *;
  cbn [set_return_path set_hop_ptr hop_ptr hop_cnt initial_path return_path dr_slid dr_dlid
       status] in *;
  rewrite ?dir_set_hop_ptr, ?dir_set_return_path, ?dir_set_hop_ptr in *.

(** A packet with two empty LID-routed parts leaves the device. *)
Lemma outgoing_pure cs dev dir port smp h a :
  let d := dr_view smp in
  pure_dr dir d ->
  __smi_handle_dr_smp_send (is_switch dev) port (hop_ptr d) (hop_cnt d) (initial_path d)
    (return_path d) dir true true = Some (a, h) ->
  h <> 0 -> h <> hop_cnt d + 1 ->
  outgoing_dr_smp cs dev port smp =
    Some (match a with IB_SMI_HANDLE => Out_post | _ => Out_error (err EINVAL) end,
          dr_put (set_hop_ptr h d) smp).
Proof.
  cbv zeta. intros (Hd & Hs & Hl & Hc) E H0 H1. unfold outgoing_dr_smp.
  rewrite Hd, Hl, Hs. replace (if dir then _ else _) with (lid_permissive (S := A)) by by destruct dir.
  rewrite Z.eqb_refl. unfold smi_handle_dr_smp_send, dlid_permissive, slid_permissive.
  rewrite Hd, Hl, Hs, Z.eqb_refl, E. cbn [mbind option_bind].
  destruct a; [done|]. dr_simpl. rewrite Hs, Z.eqb_refl. cbn [negb].
  rewrite andb_false_r. cbn [andb].
  unfold smi_check_local_smp, smi_check_local_returning_smp. dr_simpl.
  rewrite (proj2 (Z.eqb_neq h 0)), (proj2 (Z.eqb_neq h _)) by done.
  by rewrite !andb_false_r.
Qed.

(** Composition of receive, forwarding decision and send at an intermediate node. *)
Lemma hop_of_steps cs dev dir port smp rp q h :
  let d := dr_view smp in
  is_switch dev = true -> pure_dr dir d ->
  __smi_handle_dr_smp_recv true port (phys_port_cnt dev) (hop_ptr d) (hop_cnt d)
    (initial_path d) (return_path d) dir true true = Some (IB_SMI_HANDLE, hop_ptr d, rp) ->
  __smi_check_forward_dr_smp (hop_ptr d) (hop_cnt d) dir true true = IB_SMI_FORWARD ->
  (if dir then path_at rp (hop_ptr d - 1) else path_at (initial_path d) (hop_ptr d + 1)) = Some q ->
  __smi_handle_dr_smp_send true q (hop_ptr d) (hop_cnt d) (initial_path d) rp dir true true
    = Some (IB_SMI_HANDLE, h) ->
  h <> 0 -> h <> hop_cnt d + 1 ->
  hop cs dev port smp = Some (dr_put (set_hop_ptr h (set_return_path rp d)) smp).
Proof.
  cbv zeta. intros Hsw (Hd & Hs & Hl & Hc) Er Ef Eq Es H0 H1.
  unfold hop, handle_smi, smi_handle_dr_smp_recv, dlid_permissive, slid_permissive.
  rewrite Hsw, Hd, Hl, Hs, Z.eqb_refl, Er. cbn [mbind option_bind].
  unfold smi_check_forward_dr_smp, smi_get_fwd_port, dlid_permissive, slid_permissive. dr_simpl.
  rewrite Hd, Hl, Hs, Z.eqb_refl, Ef.
  replace (if negb dir then _ else _) with (Some q) by by destruct dir. cbn [mbind option_bind].
  rewrite (outgoing_pure cs dev dir q _ h IB_SMI_HANDLE); dr_simpl; rewrite ?Hsw; try done.
  by rewrite put_put.
Qed.

Lemma request_hop cs dev port smp q :
  wf_dr (dr_view smp) -> pure_dr false (dr_view smp) ->
  1 <= hop_ptr (dr_view smp) < hop_cnt (dr_view smp) -> is_switch dev = true ->
  path_at (initial_path (dr_view smp)) (hop_ptr (dr_view smp) + 1) = Some q ->
  q <= phys_port_cnt dev ->
  hop cs dev port smp = Some (dr_put (fwd_step (dr_view smp) port) smp).
Proof.
  set (d := dr_view smp). intros (Hi & Hr & Hh & Hc) (Hd & Hs & Hl & Hc') Hp Hsw Hq Hle.
  apply (hop_of_steps cs dev false port smp _ q); fold d; try done; try lia;
    unfold __smi_handle_dr_smp_recv, __smi_check_forward_dr_smp, __smi_handle_dr_smp_send,
      IB_SMP_MAX_PATH_HOPS; cbn [negb];
    rewrite ?(proj2 (Z.leb_gt 64 _)), ?(proj2 (Z.eqb_neq (hop_ptr d) 0)), ?andb_false_r,
      ?(proj2 (truthy_true (hop_ptr d))), ?(proj2 (Z.ltb_lt _ _)) by lia; cbn [andb].
  - rewrite path_set_ok by lia. cbn [mbind option_bind]. rewrite Hq. cbn [mbind option_bind].
    by rewrite (proj2 (Z.leb_le _ _)) by lia.
  - done.
  - rewrite u8_inc, Hq by lia. cbn [mbind option_bind]. by rewrite Z.eqb_refl.
Qed.

Lemma response_hop cs dev port smp q :
  wf_dr (dr_view smp) -> pure_dr true (dr_view smp) ->
  2 <= hop_ptr (dr_view smp) <= hop_cnt (dr_view smp) -> is_switch dev = true ->
  path_at (return_path (dr_view smp)) (hop_ptr (dr_view smp) - 1) = Some q ->
  q <= phys_port_cnt dev ->
  hop cs dev port smp = Some (dr_put (back_step (dr_view smp)) smp).
Proof.
  set (d := dr_view smp). intros (Hi & Hr & Hh & Hc) (Hd & Hs & Hl & Hc') Hp Hsw Hq Hle.
  replace (back_step d) with (set_hop_ptr (hop_ptr d - 1) (set_return_path (return_path d) d))
    by by destruct d.
  apply (hop_of_steps cs dev true port smp _ q); fold d; try done; try lia;
    unfold __smi_handle_dr_smp_recv, __smi_check_forward_dr_smp, __smi_handle_dr_smp_send,
      IB_SMP_MAX_PATH_HOPS; cbn [negb];
    rewrite ?(proj2 (Z.leb_gt 64 _)), ?(proj2 (Z.eqb_neq (hop_ptr d) (hop_cnt d + 1))),
      ?andb_false_r, ?(proj2 (Z.leb_le 2 _)), ?(proj2 (Z.leb_le _ (hop_cnt d))) by lia; cbn [andb].
  - rewrite Hq. cbn [mbind option_bind]. by rewrite (proj2 (Z.leb_le _ _)) by lia.
  - done.
  - rewrite u8_dec, Hq by lia. cbn [mbind option_bind]. by rewrite Z.eqb_refl.
Qed.

Lemma wf_fwd_step d port : wf_dr d -> hop_ptr d < 255 -> wf_dr (fwd_step d port).
Proof.
  intros (Hi & Hr & Hh & Hc) Hp. unfold wf_dr, fwd_step. cbn. rewrite length_insert.
  split_and!; done || lia.
Qed.

Lemma wf_back_step d : wf_dr d -> 1 <= hop_ptr d -> wf_dr (back_step d).
Proof. intros (Hi & Hr & Hh & Hc) Hp. unfold wf_dr, back_step. cbn. split_and!; done || lia. Qed.

Lemma foldl_fwd_fields d ports :
  let e := foldl fwd_step d ports in
  hop_ptr e = hop_ptr d + Z.of_nat (length ports) /\ hop_cnt e = hop_cnt d /\
  initial_path e = initial_path d /\ status e = status d /\ dr_slid e = dr_slid d /\
  dr_dlid e = dr_dlid d /\ length (return_path e) = length (return_path d).
Proof.
  revert d. induction ports as [|p ports IH]; intros d; cbn [foldl length].
  { split_and!; done || lia. }
  destruct (IH (fwd_step d p)) as (-> & -> & -> & -> & -> & -> & ->).
  unfold fwd_step. cbn. rewrite length_insert. split_and!; done || lia.
Qed.

(** The arrival ports are recorded in the return path. *)
Lemma foldl_fwd_return d ports i :
  0 <= hop_ptr d -> (i < length (return_path d))%nat ->
  return_path (foldl fwd_step d ports) !! i =
  if bool_decide (Z.to_nat (hop_ptr d) <= i < Z.to_nat (hop_ptr d) + length ports)%nat
  then u8 <$> ports !! (i - Z.to_nat (hop_ptr d))%nat else return_path d !! i.
Proof.
  revert d. induction ports as [|p ports IH]; intros d Hh Hi; cbn [foldl length].
  { rewrite bool_decide_eq_false_2 by lia. done. }
  rewrite IH by (unfold fwd_step; cbn; rewrite ?length_insert; lia).
  unfold fwd_step. cbn [hop_ptr return_path set_hop_ptr set_return_path].
  replace (Z.to_nat (hop_ptr d + 1)) with (S (Z.to_nat (hop_ptr d))) by lia.
  destruct (decide (i = Z.to_nat (hop_ptr d))) as [->|Hne].
  - rewrite bool_decide_eq_false_2, bool_decide_eq_true_2 by lia.
    rewrite list_lookup_insert_eq by lia. by rewrite Nat.sub_diag.
  - rewrite list_lookup_insert_ne by done. case_bool_decide; case_bool_decide; try lia; [|done].
    replace (i - Z.to_nat (hop_ptr d))%nat with (S (i - S (Z.to_nat (hop_ptr d)))) by lia. done.
Qed.

Lemma journey_request cs sws smp :
  wf_dr (dr_view smp) -> pure_dr false (dr_view smp) -> 1 <= hop_ptr (dr_view smp) ->
  hop_ptr (dr_view smp) + Z.of_nat (length sws) <= hop_cnt (dr_view smp) ->
  (forall k dev port, sws !! k = Some (dev, port) -> is_switch dev = true /\
     exists q, path_at (initial_path (dr_view smp)) (hop_ptr (dr_view smp) + Z.of_nat k + 1) = Some q
       /\ q <= phys_port_cnt dev) ->
  journey cs sws smp = Some (dr_put (foldl fwd_step (dr_view smp) (snd <$> sws)) smp).
Proof.
  revert smp. induction sws as [|[dev port] sws IH]; intros smp Hwf Hp Hh Hc Hsw.
  { cbn. by rewrite put_view. }
  cbn [journey length] in *. destruct (Hsw 0%nat _ _ eq_refl) as (Hs & q & Hq & Hle).
  replace (hop_ptr (dr_view smp) + Z.of_nat 0 + 1) with (hop_ptr (dr_view smp) + 1) in Hq by lia.
  rewrite (request_hop cs dev port smp q) by (try done; lia). cbn [mbind option_bind].
  pose proof Hp as (_ & _ & _ & ?).
  rewrite IH; rewrite ?view_put.
  - cbn [fmap list_fmap foldl snd]. by rewrite put_put.
  - apply wf_fwd_step; [done|lia].
  - exact Hp.
  - unfold fwd_step. cbn. lia.
  - unfold fwd_step. cbn. lia.
  - intros k dev' port' Hk. destruct (Hsw (S k) _ _ Hk) as (Hs' & q' & Hq' & Hle').
    split; [done|]. exists q'. unfold fwd_step. cbn.
    replace (hop_ptr (dr_view smp) + 1 + Z.of_nat k + 1)
      with (hop_ptr (dr_view smp) + Z.of_nat (S k) + 1) by lia. done.
Qed.

Lemma journey_response cs sws smp :
  wf_dr (dr_view smp) -> pure_dr true (dr_view smp) ->
  hop_ptr (dr_view smp) <= hop_cnt (dr_view smp) ->
  1 + Z.of_nat (length sws) <= hop_ptr (dr_view smp) ->
  (forall k dev port, sws !! k = Some (dev, port) -> is_switch dev = true /\
     exists q, path_at (return_path (dr_view smp)) (hop_ptr (dr_view smp) - Z.of_nat k - 1) = Some q
       /\ q <= phys_port_cnt dev) ->
  journey cs sws smp =
    Some (dr_put (set_hop_ptr (hop_ptr (dr_view smp) - Z.of_nat (length sws)) (dr_view smp)) smp).
Proof.
  revert smp. induction sws as [|[dev port] sws IH]; intros smp Hwf Hp Hh Hc Hsw.
  { cbn. rewrite Z.sub_0_r. by rewrite <- (put_view smp) at 1; destruct (dr_view smp). }
  cbn [journey length] in *. destruct (Hsw 0%nat _ _ eq_refl) as (Hs & q & Hq & Hle).
  replace (hop_ptr (dr_view smp) - Z.of_nat 0 - 1) with (hop_ptr (dr_view smp) - 1) in Hq by lia.
  rewrite (response_hop cs dev port smp q) by (try done; lia). cbn [mbind option_bind].
  rewrite IH; rewrite ?view_put.
  - rewrite put_put. unfold back_step. cbn [set_hop_ptr hop_ptr hop_cnt initial_path return_path
      dr_slid dr_dlid status]. do 2 f_equal. unfold set_hop_ptr. cbn. f_equal. lia.
  - apply wf_back_step; [done|lia].
  - exact Hp.
  - unfold back_step. cbn. lia.
  - unfold back_step. cbn. lia.
  - intros k dev' port' Hk. destruct (Hsw (S k) _ _ Hk) as (Hs' & q' & Hq' & Hle').
    split; [done|]. exists q'. unfold back_step. cbn.
    replace (hop_ptr (dr_view smp) - 1 - Z.of_nat k - 1)
      with (hop_ptr (dr_view smp) - Z.of_nat (S k) - 1) by lia. done.
Qed.

(** The last node hands a request to its SMA, the requester hands the response to
    the SM. *)
Lemma request_arrives dev port smp :
  wf_dr (dr_view smp) -> pure_dr false (dr_view smp) -> process_mad dev = true ->
  1 <= hop_ptr (dr_view smp) -> hop_ptr (dr_view smp) = hop_cnt (dr_view smp) ->
  handle_smi dev port smp =
    Some (IB_SMI_HANDLE, dr_put (fwd_step (dr_view smp) port) smp, None).
Proof.
  set (d := dr_view smp). intros (Hi & Hr & Hh & Hc) (Hd & Hs & Hl & Hc') Hpm H1 He.
  unfold handle_smi, smi_handle_dr_smp_recv, __smi_handle_dr_smp_recv, dlid_permissive,
    slid_permissive, IB_SMP_MAX_PATH_HOPS. fold d.
  rewrite Hd, Hl, Hs, Z.eqb_refl, <- He. cbn [negb].
  rewrite (proj2 (Z.leb_gt 64 _)), (proj2 (Z.eqb_neq _ 0)), (proj2 (Z.ltb_ge _ _)), !andb_false_r,
    Z.eqb_refl, (proj2 (truthy_true _)), path_set_ok, orb_true_r by lia.
  cbn [mbind option_bind act].
  unfold smi_check_forward_dr_smp, __smi_check_forward_dr_smp, dlid_permissive. dr_simpl.
  rewrite Hd, Hl, <- He. cbn [negb].
  rewrite (proj2 (Z.ltb_ge _ _)), andb_false_r, !Z.eqb_refl by lia.
  unfold smi_handle_dr_smp_send, __smi_handle_dr_smp_send, dlid_permissive,
    IB_SMP_MAX_PATH_HOPS. dr_simpl.
  rewrite Hd, Hl, <- He. cbn [negb].
  rewrite (proj2 (Z.leb_gt 64 _)), (proj2 (Z.eqb_neq _ 0)), (proj2 (Z.ltb_ge _ _)), !andb_false_r,
    !Z.eqb_refl, orb_true_r, u8_inc by lia.
  cbn [mbind option_bind act]. unfold smi_check_local_smp. dr_simpl.
  rewrite Hd, <- He, Z.eqb_refl, Hpm, put_put. done.
Qed.

Lemma response_arrives dev port smp :
  wf_dr (dr_view smp) -> pure_dr true (dr_view smp) -> hop_ptr (dr_view smp) = 1 ->
  1 <= hop_cnt (dr_view smp) ->
  handle_smi dev port smp =
    Some (IB_SMI_HANDLE, dr_put (set_hop_ptr 0 (dr_view smp)) smp, None).
Proof.
  set (d := dr_view smp). intros (Hi & Hr & Hh & Hc) (Hd & Hs & Hl & Hc') H1 Hc1.
  unfold handle_smi, smi_handle_dr_smp_recv, __smi_handle_dr_smp_recv, dlid_permissive,
    slid_permissive, IB_SMP_MAX_PATH_HOPS. fold d.
  rewrite Hd, Hl, Hs, Z.eqb_refl, H1. cbn [negb].
  rewrite (proj2 (Z.leb_gt 64 _)), (proj2 (Z.eqb_neq 1 (hop_cnt d + 1))), andb_false_r by lia.
  cbn [Z.leb Z.compare Pos.compare Pos.compare_cont andb Z.eqb Pos.eqb mbind option_bind].
  unfold smi_check_forward_dr_smp, __smi_check_forward_dr_smp. dr_simpl.
  rewrite Hd. cbn. by destruct d.
Qed.
End proofs.

Lemma direction_set st : Z.land (Z.lor st IB_SMP_DIRECTION) IB_SMP_DIRECTION = IB_SMP_DIRECTION.
Proof.
  apply Z.bits_inj'. intros i Hi. rewrite Z.land_spec, Z.lor_spec.
  by destruct (Z.testbit st i), (Z.testbit IB_SMP_DIRECTION i).
Qed.

Definition set_status (v : Z) (d : dr) : dr :=
  mk_dr v (hop_ptr d) (hop_cnt d) (dr_slid d) (dr_dlid d) (initial_path d) (return_path d).

Section route.
Context {A : Type} `{!DrSmp A}.

(** A route: the source with the port it sends from, the intermediate
    switches and the destination with the ports of arrival. *)
Record route_ok (sws : list (smi_dev * Z)) (dst : smi_dev) (in_n : Z) (smp : A) : Prop := {
  ro_wf : wf_dr (dr_view smp);
  ro_pure : pure_dr (A := A) false (dr_view smp);
  ro_ptr : hop_ptr (dr_view smp) = 0;
  ro_cnt : hop_cnt (dr_view smp) = Z.of_nat (length sws) + 1;
  ro_dst : process_mad dst = true;
  ro_in : 0 <= in_n < 256;
  ro_sws : forall k dev port, sws !! k = Some (dev, port) ->
    is_switch dev = true /\ 0 <= port < 256 /\ port <= phys_port_cnt dev /\
    exists q, path_at (initial_path (dr_view smp)) (Z.of_nat k + 2) = Some q /\
      q <= phys_port_cnt dev
}.

Lemma request_delivered cs src q1 sws dst in_n smp :
  route_ok sws dst in_n smp -> path_at (initial_path (dr_view smp)) 1 = Some q1 ->
  let d' := foldl fwd_step (set_hop_ptr 1 (dr_view smp)) ((snd <$> sws) ++ [in_n]) in
  exists s1 s2, outgoing_dr_smp cs src q1 smp = Some (Out_post, s1) /\
    journey cs sws s1 = Some s2 /\
    handle_smi dst in_n s2 = Some (IB_SMI_HANDLE, dr_put d' smp, None).
Proof.
  intros R Hq1 d'. destruct (ro_wf _ _ _ _ R) as (Hi & Hr & Hh & Hc).
  pose proof (ro_pure _ _ _ _ R) as Hp. pose proof (ro_cnt _ _ _ _ R) as Hn.
  pose proof (ro_ptr _ _ _ _ R) as H0. pose proof Hp as (Hd & Hs & Hl & Hc').
  set (d1 := set_hop_ptr 1 (dr_view smp)) in *.
  assert (wf_dr d1) as W1 by (unfold wf_dr, d1; cbn; split_and!; done || lia).
  eexists _, _. split_and!.
  - rewrite (outgoing_pure cs src false q1 smp 1 IB_SMI_HANDLE); [done|done| |lia|lia].
    unfold __smi_handle_dr_smp_send, IB_SMP_MAX_PATH_HOPS.
    rewrite H0, (proj2 (Z.leb_gt 64 _)), (proj2 (truthy_true _)) by lia. cbn [negb Z.eqb andb].
    change (u8 (0 + 1)) with 1. rewrite Hq1. cbn [mbind option_bind]. by rewrite Z.eqb_refl.
  - rewrite journey_request; rewrite ?view_put; [done|done|exact Hp|cbn; lia|cbn; lia|].
    intros k dev port Hk. destruct (ro_sws _ _ _ _ R _ _ _ Hk) as (Hsw & _ & _ & q & Hq & Hle).
    split; [done|]. exists q. cbn.
    replace (1 + Z.of_nat k + 1) with (Z.of_nat k + 2) by lia. done.
  - rewrite ?view_put, put_put. destruct (foldl_fwd_fields d1 (snd <$> sws))
      as (F1 & F2 & F3 & F4 & F5 & F6 & F7). rewrite length_fmap in F1.
    rewrite request_arrives; rewrite ?view_put; fold d1.
    + unfold d'. rewrite foldl_app. cbn [foldl]. by rewrite put_put.
    + unfold wf_dr. rewrite F1, F2, F3, F7. unfold d1 in *. cbn in *. split_and!; done || lia.
    + unfold pure_dr, ib_get_smp_direction. rewrite F2, F4, F5, F6. exact Hp.
    + exact (ro_dst _ _ _ _ R).
    + rewrite F1. cbn. lia.
    + rewrite F1, F2. cbn. lia.
Qed.

(** After delivery the return path holds the ports of arrival. *)
Lemma route_recorded sws dst in_n smp :
  route_ok sws dst in_n smp ->
  let d' := foldl fwd_step (set_hop_ptr 1 (dr_view smp)) ((snd <$> sws) ++ [in_n]) in
  forall k p, ((snd <$> sws) ++ [in_n]) !! k = Some p ->
    path_at (return_path d') (Z.of_nat k + 1) = Some p.
Proof.
  intros R d' k p Hk. destruct (ro_wf _ _ _ _ R) as (Hi & Hr & Hh & Hc).
  pose proof (ro_pure _ _ _ _ R) as (_ & _ & _ & Hc'). pose proof (ro_cnt _ _ _ _ R) as Hn.
  assert (0 <= p < 256) as Hp.
  { apply lookup_app_Some in Hk as [Hk|[_ Hk]].
    - rewrite list_lookup_fmap in Hk. destruct (sws !! k) as [[dev q]|] eqn:Es; [|done].
      injection Hk as <-. apply (ro_sws _ _ _ _ R _ _ _ Es).
    - apply list_lookup_singleton_Some in Hk as [_ <-]. apply (ro_in _ _ _ _ R). }
  apply path_at_Some. split; [lia|].
  pose proof (lookup_lt_Some _ _ _ Hk) as Hlt. rewrite length_app, length_fmap in Hlt. cbn in Hlt.
  unfold d'. rewrite foldl_fwd_return by (cbn; lia). cbn [hop_ptr set_hop_ptr].
  rewrite length_app, length_fmap. cbn [length]. rewrite bool_decide_eq_true_2 by lia.
  replace (Z.to_nat (Z.of_nat k + 1) - Z.to_nat 1)%nat with k by lia. rewrite Hk. cbn.
  by rewrite u8_id.
Qed.

Lemma response_returns cs src q1 sws back dst in_n smp resp :
  route_ok sws dst in_n smp -> fst <$> back = reverse (fst <$> sws) ->
  let d' := foldl fwd_step (set_hop_ptr 1 (dr_view smp)) ((snd <$> sws) ++ [in_n]) in
  dr_view resp = set_status (Z.lor (status d') IB_SMP_DIRECTION) d' ->
  exists r1 r2, outgoing_dr_smp cs dst in_n resp = Some (Out_post, r1) /\
    journey cs back r1 = Some r2 /\
    handle_smi src q1 r2 = Some (IB_SMI_HANDLE, dr_put (set_hop_ptr 0 (dr_view resp)) resp, None).
Proof.
  intros R Hb d' Hv. destruct (ro_wf _ _ _ _ R) as (Hi & Hr & Hh & Hc).
  pose proof (ro_pure _ _ _ _ R) as (Hd & Hs & Hl & Hc'). pose proof (ro_cnt _ _ _ _ R) as Hn.
  destruct (foldl_fwd_fields (set_hop_ptr 1 (dr_view smp)) ((snd <$> sws) ++ [in_n]))
    as (F1 & F2 & F3 & F4 & F5 & F6 & F7). fold d' in F1, F2, F3, F4, F5, F6, F7.
  rewrite length_app, length_fmap in F1. cbn in F1, F2, F3, F4, F5, F6, F7.
  assert (length back = length sws) as Lb.
  { apply (f_equal length) in Hb. by rewrite length_reverse, !length_fmap in Hb. }
  pose proof (route_recorded sws dst in_n smp R) as Hret. cbv zeta in Hret. fold d' in Hret.
  assert (pure_dr (A := A) true (dr_view resp)) as Hpr.
  { rewrite Hv. unfold pure_dr, ib_get_smp_direction. cbn. rewrite direction_set, F2, F5, F6.
    split_and!; done. }
  assert (path_at (return_path d') (hop_cnt d') = Some in_n) as Hlast.
  { rewrite F2, Hn. apply Hret. rewrite lookup_app_r by (rewrite length_fmap; lia). by rewrite length_fmap, Nat.sub_diag. }
  eexists _, _. split_and!.
  - rewrite (outgoing_pure cs dst true in_n resp (hop_cnt d') IB_SMI_HANDLE);
      rewrite ?Hv; cbn [hop_ptr hop_cnt initial_path return_path set_status]; try done; try lia;
      [by rewrite <- Hv|].
    unfold __smi_handle_dr_smp_send, IB_SMP_MAX_PATH_HOPS. cbn [negb].
    rewrite (proj2 (Z.leb_gt 64 _)), (proj2 (truthy_true _)) by lia.
    rewrite (proj2 (Z.eqb_eq (hop_ptr d') _)) by lia. cbn [andb].
    rewrite u8_dec by lia. replace (hop_ptr d' - 1) with (hop_cnt d') by lia.
    rewrite Hlast. cbn [mbind option_bind]. by rewrite Z.eqb_refl.
  - rewrite journey_response; rewrite ?view_put, ?Hv;
      cbn [hop_ptr hop_cnt initial_path return_path set_status set_hop_ptr]; try lia; [done| | |].
    + unfold wf_dr. cbn. rewrite F2, F3, F7. split_and!; done || lia.
    + rewrite Hv in Hpr. exact Hpr.
    + intros k dev port Hk.
      assert ((fst <$> back) !! k = Some dev) as Hk' by by rewrite list_lookup_fmap, Hk.
      pose proof (lookup_lt_Some _ _ _ Hk) as Hlt.
      rewrite Hb, reverse_lookup, length_fmap, list_lookup_fmap in Hk' by (rewrite length_fmap; lia).
      destruct (sws !! (length sws - S k)%nat) as [[dev' p]|] eqn:Es; [|done].
      injection Hk' as ->. destruct (ro_sws _ _ _ _ R _ _ _ Es) as (Hsw & Hp1 & Hp2 & _).
      split; [done|]. exists p. split; [|done]. rewrite F2, Hn.
      replace (Z.of_nat (length sws) + 1 - Z.of_nat k - 1)
        with (Z.of_nat (length sws - S k) + 1) by lia.
      apply Hret. rewrite lookup_app_l by (rewrite length_fmap; lia).
      by rewrite list_lookup_fmap, Es.
  - rewrite response_arrives; rewrite ?view_put, ?Hv.
    + rewrite !put_put. done.
    + unfold wf_dr. cbn. rewrite F2, F3, F7. split_and!; done || lia.
    + rewrite Hv in Hpr. exact Hpr.
    + cbn. lia.
    + cbn. lia.
Qed.
End route.

(** ** Properties *)

(** C20. A directed-route request travels the whole path and its response comes
    back: for any route of up to 63 hops through switches that have the ports
    the initial path names, the packet leaves the source, every switch forwards
    it, the destination hands it to its SMA with hop pointer [hop_cnt + 1] and
    with the ports of arrival in the return path; the response, sent with the
    direction bit set, is forwarded by the same switches in reverse order and
    reaches the requester's SM with hop pointer 0. *)
Theorem directed_route_roundtrip {A} `{!DrSmp A} cs src q1 sws back dst in_n (smp : A) :
  route_ok sws dst in_n smp -> path_at (initial_path (dr_view smp)) 1 = Some q1 ->
  fst <$> back = reverse (fst <$> sws) ->
  exists s1 s2 s3, outgoing_dr_smp cs src q1 smp = Some (Out_post, s1) /\
    journey cs sws s1 = Some s2 /\
    handle_smi dst in_n s2 = Some (IB_SMI_HANDLE, s3, None) /\
    hop_ptr (dr_view s3) = hop_cnt (dr_view s3) + 1 /\
    (forall k p, ((snd <$> sws) ++ [in_n]) !! k = Some p ->
       path_at (return_path (dr_view s3)) (Z.of_nat k + 1) = Some p) /\
    forall resp,
      dr_view resp = set_status (Z.lor (status (dr_view s3)) IB_SMP_DIRECTION) (dr_view s3) ->
      exists r1 r2 r3, outgoing_dr_smp cs dst in_n resp = Some (Out_post, r1) /\
        journey cs back r1 = Some r2 /\
        handle_smi src q1 r2 = Some (IB_SMI_HANDLE, r3, None) /\
        hop_ptr (dr_view r3) = 0 /\ return_path (dr_view r3) = return_path (dr_view s3).
Proof.
  intros R Hq Hb. destruct (request_delivered cs src q1 sws dst in_n smp R Hq) as (s1 & s2 & H1 & H2 & H3).
  eexists s1, s2, _. split; [done|]. split; [done|]. split; [exact H3|]. rewrite view_put.
  destruct (foldl_fwd_fields (set_hop_ptr 1 (dr_view smp)) ((snd <$> sws) ++ [in_n]))
    as (F1 & F2 & _).
  split; [|split].
  - rewrite F1, F2, length_app, length_fmap. cbn. rewrite (ro_cnt _ _ _ _ R). lia.
  - exact (route_recorded sws dst in_n smp R).
  - intros resp Hv. destruct (response_returns cs src q1 sws back dst in_n smp resp R Hb Hv)
      as (r1 & r2 & G1 & G2 & G3).
    eexists r1, r2, _. split_and!; [done|done|exact G3|by rewrite view_put|].
    rewrite view_put, Hv. done.
Qed.

(** A route of three hops through two switches. *)
Definition demo_dr : dr :=
  mk_dr 0 0 3 IB_LID_PERMISSIVE IB_LID_PERMISSIVE
    ([0; 1; 5; 7] ++ replicate 60 0) (replicate 64 0).
Definition demo_smp : ib_smp := mk_ib_smp 1 0x81 1 1 77 0x11 0 0 demo_dr (replicate 64 0).
Definition demo_sw : smi_dev := mk_smi_dev true true 8.
Definition demo_hca : smi_dev := mk_smi_dev false true 2.

Lemma directed_route_roundtrip_witness :
  exists s1 s2 s3, outgoing_dr_smp false demo_hca 1 demo_smp = Some (Out_post, s1) /\
    journey false [(demo_sw, 2); (demo_sw, 3)] s1 = Some s2 /\
    handle_smi demo_hca 1 s2 = Some (IB_SMI_HANDLE, s3, None) /\ hop_ptr (dr_view s3) = 4.
Proof.
  destruct (directed_route_roundtrip (A := ib_smp) false demo_hca 1 [(demo_sw, 2); (demo_sw, 3)]
    [(demo_sw, 7); (demo_sw, 5)] demo_hca 1 demo_smp) as (s1 & s2 & s3 & H1 & H2 & H3 & H4 & _).
  - split.
    + unfold wf_dr. split_and!; try reflexivity; vm_compute; congruence.
    + unfold pure_dr. split_and!; reflexivity.
    + reflexivity.
    + reflexivity.
    + reflexivity.
    + lia.
    + intros [|[|k]] dev port Hk; simplify_eq/=; split_and!; try reflexivity; try lia;
        eexists; (split; [reflexivity|lia]).
  - reflexivity.
  - reflexivity.
  - exists s1, s2, s3. split_and!; try assumption. rewrite H4.
    vm_compute in H1. injection H1 as <-. vm_compute in H2. injection H2 as <-.
    vm_compute in H3. injection H3 as <-. reflexivity.
Defined.

(** Memory safety of the SMI: for every packet whatsoever (any hop pointer, hop
    count, direction and LIDs), on any device and port, no array access leaves the
    64-byte paths, and the packet stays well formed. *)
Theorem smi_memory_safe {A} `{!DrSmp A} cs dev port (smp : A) :
  wf_dr (dr_view smp) ->
  (exists a smp' f, handle_smi dev port smp = Some (a, smp', f) /\ wf_dr (dr_view smp')) /\
  (exists o smp', outgoing_dr_smp cs dev port smp = Some (o, smp') /\ wf_dr (dr_view smp')).
Proof.
  intros Hwf. split.
  - destruct (handle_smi_ok dev port smp Hwf) as (a & s & f & E & W & _). eauto 6.
  - exact (outgoing_ok cs dev port smp Hwf).
Qed.

Lemma smi_memory_safe_witness :
  let smp := dr_put (set_hop_ptr 255 (mk_dr 0x8000 0 255 0 0 (replicate 64 9) (replicate 64 9)))
               demo_smp in
  (exists a smp' f, handle_smi demo_sw 3 smp = Some (a, smp', f) /\ wf_dr (dr_view smp')) /\
  (exists o smp', outgoing_dr_smp false demo_sw 3 smp = Some (o, smp') /\ wf_dr (dr_view smp')).
Proof.
  apply smi_memory_safe. unfold wf_dr. split_and!; try reflexivity; vm_compute; congruence.
Defined.

(** Only switches forward, and a forwarded packet leaves through a port the
    switch has, unless it is a returning packet that arrives with hop pointer
    [hop_cnt + 1]. *)
Theorem smi_forward_port_in_range {A} `{!DrSmp A} dev port (smp smp' s : A) a p :
  wf_dr (dr_view smp) -> handle_smi dev port smp = Some (a, smp', Some (s, p)) ->
  ~ (ib_get_smp_direction (dr_view smp) = true /\
     hop_ptr (dr_view smp) = hop_cnt (dr_view smp) + 1) ->
  is_switch dev = true /\ a = IB_SMI_DISCARD /\ p <= phys_port_cnt dev.
Proof.
  intros Hwf H Hn. pose proof (forwarded_port _ _ _ _ _ _ _ Hwf H Hn).
  apply forwarded_inv in H as (-> & Hs & _). done.
Qed.

Lemma smi_forward_port_in_range_witness :
  exists smp' s p, handle_smi demo_sw 2 (dr_put (set_hop_ptr 1 demo_dr) demo_smp)
    = Some (IB_SMI_DISCARD, smp', Some (s, p)) /\ p <= 8.
Proof.
  eexists _, _, _. split; [reflexivity|].
  eapply (smi_forward_port_in_range demo_sw 2 (dr_put (set_hop_ptr 1 demo_dr) demo_smp)).
  - unfold wf_dr. split_and!; try reflexivity; vm_compute; congruence.
  - reflexivity.
  - intros [H _]. discriminate H.
Defined.

(** A returning packet with hop pointer [hop_cnt + 1] and an unreachable port in the
    return path. *)
Definition stray_smp : ib_smp :=
  dr_put (mk_dr 0x8000 3 2 IB_LID_PERMISSIVE IB_LID_PERMISSIVE (replicate 64 0)
            ([0; 200; 3] ++ replicate 61 0)) demo_smp.

(** The branch for a returning packet with hop pointer [hop_cnt + 1] does not
    compare the forwarding port with the number of ports: an 8-port switch that
    receives such a packet forwards it to port 200. *)
Theorem smi_forward_port_unchecked :
  exists smp', handle_smi demo_sw 3 stray_smp = Some (IB_SMI_DISCARD, smp', Some (smp', 200)) /\
    wf_dr (dr_view stray_smp).
Proof.
  eexists. split; [reflexivity|].
  unfold wf_dr. split_and!; try reflexivity; vm_compute; congruence.
Qed.
