(* ===== verification/Verbs.v ===== *)
(** * Verbs: drivers/infiniband/core/verbs.c

    The queue pair state machine ([qp_state_table], [ib_modify_qp_is_ok]), the
    rate conversions and the Ethernet width/speed mapping. The source's
    designated array initialisers are association lists: an index that is not
    listed holds 0. *)

From Stdlib Require Import ZArith Lia.
From stdpp Require Import base tactics numbers list option.
From S2P Require Import Prelude.

Local Open Scope Z_scope.

(** ** Queue pair states, types and attributes (include/rdma/ib_verbs.h) *)

Inductive qp_state :=
  IB_QPS_RESET | IB_QPS_INIT | IB_QPS_RTR | IB_QPS_RTS | IB_QPS_SQD | IB_QPS_SQE | IB_QPS_ERR.

#[export] Instance qp_state_eq_dec : EqDecision qp_state.
Proof. solve_decision. Defined.

Definition all_states : list qp_state :=
  [IB_QPS_RESET; IB_QPS_INIT; IB_QPS_RTR; IB_QPS_RTS; IB_QPS_SQD; IB_QPS_SQE; IB_QPS_ERR].

Definition IB_QPT_SMI : Z := 0.
Definition IB_QPT_GSI : Z := 1.
Definition IB_QPT_RC : Z := 2.
Definition IB_QPT_UC : Z := 3.
Definition IB_QPT_UD : Z := 4.
Definition IB_QPT_RAW_IPV6 : Z := 5.
Definition IB_QPT_RAW_ETHERTYPE : Z := 6.
Definition IB_QPT_SRM : Z := 7.
Definition IB_QPT_RAW_PACKET : Z := 8.
Definition IB_QPT_XRC_INI : Z := 9.
Definition IB_QPT_XRC_TGT : Z := 10.
Definition IB_QPT_MAX : Z := 11.
Definition IB_QPT_DRIVER : Z := 255.

Definition IB_QP_STATE : Z := 1.
Definition IB_QP_CUR_STATE : Z := Z.shiftl 1 1.
Definition IB_QP_EN_SQD_ASYNC_NOTIFY : Z := Z.shiftl 1 2.
Definition IB_QP_ACCESS_FLAGS : Z := Z.shiftl 1 3.
Definition IB_QP_PKEY_INDEX : Z := Z.shiftl 1 4.
Definition IB_QP_PORT : Z := Z.shiftl 1 5.
Definition IB_QP_QKEY : Z := Z.shiftl 1 6.
Definition IB_QP_AV : Z := Z.shiftl 1 7.
Definition IB_QP_PATH_MTU : Z := Z.shiftl 1 8.
Definition IB_QP_TIMEOUT : Z := Z.shiftl 1 9.
Definition IB_QP_RETRY_CNT : Z := Z.shiftl 1 10.
Definition IB_QP_RNR_RETRY : Z := Z.shiftl 1 11.
Definition IB_QP_RQ_PSN : Z := Z.shiftl 1 12.
Definition IB_QP_MAX_QP_RD_ATOMIC : Z := Z.shiftl 1 13.
Definition IB_QP_ALT_PATH : Z := Z.shiftl 1 14.
Definition IB_QP_MIN_RNR_TIMER : Z := Z.shiftl 1 15.
Definition IB_QP_SQ_PSN : Z := Z.shiftl 1 16.
Definition IB_QP_MAX_DEST_RD_ATOMIC : Z := Z.shiftl 1 17.
Definition IB_QP_PATH_MIG_STATE : Z := Z.shiftl 1 18.
Definition IB_QP_CAP : Z := Z.shiftl 1 19.
Definition IB_QP_DEST_QPN : Z := Z.shiftl 1 20.
Definition IB_QP_OFFLOAD_TYPE : Z := Z.shiftl 1 24.
Definition IB_QP_RATE_LIMIT : Z := Z.shiftl 1 25.
Definition IB_QP_RMPN_XRQN : Z := Z.shiftl 1 26.
Definition IB_QP_ATTR_STANDARD_BITS : Z := Z.ones 21.

(** ** Designated initialisers *)

(** [a | b | ...] *)
Definition flags (l : list Z) : Z := foldr Z.lor 0 l.

(** [arr[i]] of an array given by its initialisers. *)
Definition arr (l : list (Z * Z)) (i : Z) : Z :=
  match list_find (fun p => fst p = i) l with Some (_, (_, v)) => v | None => 0 end.

(** ** The state table *)

(** An entry with [.valid = 1]. *)
Record transition := mk_transition { req_param : list (Z * Z); opt_param : list (Z * Z) }.

Definition from_reset : list (qp_state * transition) :=
  [(IB_QPS_RESET, mk_transition [] []);
   (IB_QPS_INIT, mk_transition
       [(IB_QPT_UD, flags [IB_QP_PKEY_INDEX; IB_QP_PORT; IB_QP_QKEY]);
        (IB_QPT_RAW_PACKET, IB_QP_PORT);
        (IB_QPT_UC, flags [IB_QP_PKEY_INDEX; IB_QP_PORT; IB_QP_ACCESS_FLAGS]);
        (IB_QPT_RC, flags [IB_QP_PKEY_INDEX; IB_QP_PORT; IB_QP_ACCESS_FLAGS]);
        (IB_QPT_XRC_INI, flags [IB_QP_PKEY_INDEX; IB_QP_PORT; IB_QP_ACCESS_FLAGS]);
        (IB_QPT_XRC_TGT, flags [IB_QP_PKEY_INDEX; IB_QP_PORT; IB_QP_ACCESS_FLAGS]);
        (IB_QPT_SMI, flags [IB_QP_PKEY_INDEX; IB_QP_QKEY]);
        (IB_QPT_GSI, flags [IB_QP_PKEY_INDEX; IB_QP_QKEY])]
       [])].

Definition from_init : list (qp_state * transition) :=
  [(IB_QPS_RESET, mk_transition [] []);
   (IB_QPS_ERR, mk_transition [] []);
   (IB_QPS_INIT, mk_transition
       []
       [(IB_QPT_UD, flags [IB_QP_PKEY_INDEX; IB_QP_PORT; IB_QP_QKEY]);
        (IB_QPT_UC, flags [IB_QP_PKEY_INDEX; IB_QP_PORT; IB_QP_ACCESS_FLAGS]);
        (IB_QPT_RC, flags [IB_QP_PKEY_INDEX; IB_QP_PORT; IB_QP_ACCESS_FLAGS]);
        (IB_QPT_XRC_INI, flags [IB_QP_PKEY_INDEX; IB_QP_PORT; IB_QP_ACCESS_FLAGS]);
        (IB_QPT_XRC_TGT, flags [IB_QP_PKEY_INDEX; IB_QP_PORT; IB_QP_ACCESS_FLAGS]);
        (IB_QPT_SMI, flags [IB_QP_PKEY_INDEX; IB_QP_QKEY]);
        (IB_QPT_GSI, flags [IB_QP_PKEY_INDEX; IB_QP_QKEY])]);
   (IB_QPS_RTR, mk_transition
       [(IB_QPT_UC, flags [IB_QP_AV; IB_QP_PATH_MTU; IB_QP_DEST_QPN; IB_QP_RQ_PSN]);
        (IB_QPT_RC, flags [IB_QP_AV; IB_QP_PATH_MTU; IB_QP_DEST_QPN; IB_QP_RQ_PSN;
                    IB_QP_MAX_DEST_RD_ATOMIC; IB_QP_MIN_RNR_TIMER]);
        (IB_QPT_XRC_INI, flags [IB_QP_AV; IB_QP_PATH_MTU; IB_QP_DEST_QPN; IB_QP_RQ_PSN]);
        (IB_QPT_XRC_TGT, flags [IB_QP_AV; IB_QP_PATH_MTU; IB_QP_DEST_QPN; IB_QP_RQ_PSN;
                    IB_QP_MAX_DEST_RD_ATOMIC; IB_QP_MIN_RNR_TIMER])]
       [(IB_QPT_UD, flags [IB_QP_PKEY_INDEX; IB_QP_QKEY]);
        (IB_QPT_UC, flags [IB_QP_ALT_PATH; IB_QP_ACCESS_FLAGS; IB_QP_PKEY_INDEX]);
        (IB_QPT_RC, flags [IB_QP_ALT_PATH; IB_QP_ACCESS_FLAGS; IB_QP_PKEY_INDEX]);
        (IB_QPT_XRC_INI, flags [IB_QP_ALT_PATH; IB_QP_ACCESS_FLAGS; IB_QP_PKEY_INDEX]);
        (IB_QPT_XRC_TGT, flags [IB_QP_ALT_PATH; IB_QP_ACCESS_FLAGS; IB_QP_PKEY_INDEX]);
        (IB_QPT_SMI, flags [IB_QP_PKEY_INDEX; IB_QP_QKEY]);
        (IB_QPT_GSI, flags [IB_QP_PKEY_INDEX; IB_QP_QKEY])])].

Definition from_rtr : list (qp_state * transition) :=
  [(IB_QPS_RESET, mk_transition [] []);
   (IB_QPS_ERR, mk_transition [] []);
   (IB_QPS_RTS, mk_transition
       [(IB_QPT_UD, IB_QP_SQ_PSN);
        (IB_QPT_UC, IB_QP_SQ_PSN);
        (IB_QPT_RC, flags [IB_QP_TIMEOUT; IB_QP_RETRY_CNT; IB_QP_RNR_RETRY; IB_QP_SQ_PSN;
                    IB_QP_MAX_QP_RD_ATOMIC]);
        (IB_QPT_XRC_INI, flags [IB_QP_TIMEOUT; IB_QP_RETRY_CNT; IB_QP_RNR_RETRY; IB_QP_SQ_PSN;
                    IB_QP_MAX_QP_RD_ATOMIC]);
        (IB_QPT_XRC_TGT, flags [IB_QP_TIMEOUT; IB_QP_SQ_PSN]);
        (IB_QPT_SMI, IB_QP_SQ_PSN);
        (IB_QPT_GSI, IB_QP_SQ_PSN)]
       [(IB_QPT_UD, flags [IB_QP_CUR_STATE; IB_QP_QKEY]);
        (IB_QPT_UC, flags [IB_QP_CUR_STATE; IB_QP_ALT_PATH; IB_QP_ACCESS_FLAGS;
                    IB_QP_PATH_MIG_STATE]);
        (IB_QPT_RC, flags [IB_QP_CUR_STATE; IB_QP_ALT_PATH; IB_QP_ACCESS_FLAGS;
                    IB_QP_MIN_RNR_TIMER; IB_QP_PATH_MIG_STATE; IB_QP_OFFLOAD_TYPE]);
        (IB_QPT_XRC_INI, flags [IB_QP_CUR_STATE; IB_QP_ALT_PATH; IB_QP_ACCESS_FLAGS;
                    IB_QP_PATH_MIG_STATE]);
        (IB_QPT_XRC_TGT, flags [IB_QP_CUR_STATE; IB_QP_ALT_PATH; IB_QP_ACCESS_FLAGS;
                    IB_QP_MIN_RNR_TIMER; IB_QP_PATH_MIG_STATE]);
        (IB_QPT_SMI, flags [IB_QP_CUR_STATE; IB_QP_QKEY]);
        (IB_QPT_GSI, flags [IB_QP_CUR_STATE; IB_QP_QKEY]);
        (IB_QPT_RAW_PACKET, IB_QP_RATE_LIMIT)])].

Definition from_rts : list (qp_state * transition) :=
  [(IB_QPS_RESET, mk_transition [] []);
   (IB_QPS_ERR, mk_transition [] []);
   (IB_QPS_RTS, mk_transition
       []
       [(IB_QPT_UD, flags [IB_QP_CUR_STATE; IB_QP_QKEY]);
        (IB_QPT_UC, flags [IB_QP_CUR_STATE; IB_QP_ACCESS_FLAGS; IB_QP_ALT_PATH;
                    IB_QP_PATH_MIG_STATE]);
        (IB_QPT_RC, flags [IB_QP_CUR_STATE; IB_QP_ACCESS_FLAGS; IB_QP_ALT_PATH;
                    IB_QP_PATH_MIG_STATE; IB_QP_MIN_RNR_TIMER; IB_QP_OFFLOAD_TYPE; IB_QP_RMPN_XRQN]);
        (IB_QPT_XRC_INI, flags [IB_QP_CUR_STATE; IB_QP_ACCESS_FLAGS; IB_QP_ALT_PATH;
                    IB_QP_PATH_MIG_STATE]);
        (IB_QPT_XRC_TGT, flags [IB_QP_CUR_STATE; IB_QP_ACCESS_FLAGS; IB_QP_ALT_PATH;
                    IB_QP_PATH_MIG_STATE; IB_QP_MIN_RNR_TIMER]);
        (IB_QPT_SMI, flags [IB_QP_CUR_STATE; IB_QP_QKEY]);
        (IB_QPT_GSI, flags [IB_QP_CUR_STATE; IB_QP_QKEY]);
        (IB_QPT_RAW_PACKET, IB_QP_RATE_LIMIT)]);
   (IB_QPS_SQD, mk_transition
       []
       [(IB_QPT_UD, IB_QP_EN_SQD_ASYNC_NOTIFY);
        (IB_QPT_UC, IB_QP_EN_SQD_ASYNC_NOTIFY);
        (IB_QPT_RC, IB_QP_EN_SQD_ASYNC_NOTIFY);
        (IB_QPT_XRC_INI, IB_QP_EN_SQD_ASYNC_NOTIFY);
        (IB_QPT_XRC_TGT, IB_QP_EN_SQD_ASYNC_NOTIFY);
        (IB_QPT_SMI, IB_QP_EN_SQD_ASYNC_NOTIFY);
        (IB_QPT_GSI, IB_QP_EN_SQD_ASYNC_NOTIFY)])].

Definition from_sqd : list (qp_state * transition) :=
  [(IB_QPS_RESET, mk_transition [] []);
   (IB_QPS_ERR, mk_transition [] []);
   (IB_QPS_RTS, mk_transition
       []
       [(IB_QPT_UD, flags [IB_QP_CUR_STATE; IB_QP_QKEY]);
        (IB_QPT_UC, flags [IB_QP_CUR_STATE; IB_QP_ALT_PATH; IB_QP_ACCESS_FLAGS;
                    IB_QP_PATH_MIG_STATE]);
        (IB_QPT_RC, flags [IB_QP_CUR_STATE; IB_QP_ALT_PATH; IB_QP_ACCESS_FLAGS;
                    IB_QP_MIN_RNR_TIMER; IB_QP_PATH_MIG_STATE]);
        (IB_QPT_XRC_INI, flags [IB_QP_CUR_STATE; IB_QP_ALT_PATH; IB_QP_ACCESS_FLAGS;
                    IB_QP_PATH_MIG_STATE]);
        (IB_QPT_XRC_TGT, flags [IB_QP_CUR_STATE; IB_QP_ALT_PATH; IB_QP_ACCESS_FLAGS;
                    IB_QP_MIN_RNR_TIMER; IB_QP_PATH_MIG_STATE]);
        (IB_QPT_SMI, flags [IB_QP_CUR_STATE; IB_QP_QKEY]);
        (IB_QPT_GSI, flags [IB_QP_CUR_STATE; IB_QP_QKEY])]);
   (IB_QPS_SQD, mk_transition
       []
       [(IB_QPT_UD, flags [IB_QP_PKEY_INDEX; IB_QP_QKEY]);
        (IB_QPT_UC, flags [IB_QP_AV; IB_QP_ALT_PATH; IB_QP_ACCESS_FLAGS; IB_QP_PKEY_INDEX;
                    IB_QP_PATH_MIG_STATE]);
        (IB_QPT_RC, flags [IB_QP_PORT; IB_QP_AV; IB_QP_TIMEOUT; IB_QP_RETRY_CNT;
                    IB_QP_RNR_RETRY; IB_QP_MAX_QP_RD_ATOMIC; IB_QP_MAX_DEST_RD_ATOMIC; IB_QP_ALT_PATH;
                    IB_QP_ACCESS_FLAGS; IB_QP_PKEY_INDEX; IB_QP_MIN_RNR_TIMER; IB_QP_PATH_MIG_STATE]);
        (IB_QPT_XRC_INI, flags [IB_QP_PORT; IB_QP_AV; IB_QP_TIMEOUT; IB_QP_RETRY_CNT;
                    IB_QP_RNR_RETRY; IB_QP_MAX_QP_RD_ATOMIC; IB_QP_ALT_PATH; IB_QP_ACCESS_FLAGS;
                    IB_QP_PKEY_INDEX; IB_QP_PATH_MIG_STATE]);
        (IB_QPT_XRC_TGT, flags [IB_QP_PORT; IB_QP_AV; IB_QP_TIMEOUT; IB_QP_MAX_DEST_RD_ATOMIC;
                    IB_QP_ALT_PATH; IB_QP_ACCESS_FLAGS; IB_QP_PKEY_INDEX; IB_QP_MIN_RNR_TIMER;
                    IB_QP_PATH_MIG_STATE]);
        (IB_QPT_SMI, flags [IB_QP_PKEY_INDEX; IB_QP_QKEY]);
        (IB_QPT_GSI, flags [IB_QP_PKEY_INDEX; IB_QP_QKEY])])].

Definition from_sqe : list (qp_state * transition) :=
  [(IB_QPS_RESET, mk_transition [] []);
   (IB_QPS_ERR, mk_transition [] []);
   (IB_QPS_RTS, mk_transition
       []
       [(IB_QPT_UD, flags [IB_QP_CUR_STATE; IB_QP_QKEY]);
        (IB_QPT_UC, flags [IB_QP_CUR_STATE; IB_QP_ACCESS_FLAGS]);
        (IB_QPT_SMI, flags [IB_QP_CUR_STATE; IB_QP_QKEY]);
        (IB_QPT_GSI, flags [IB_QP_CUR_STATE; IB_QP_QKEY])])].

Definition from_err : list (qp_state * transition) :=
  [(IB_QPS_RESET, mk_transition [] []);
   (IB_QPS_ERR, mk_transition [] [])].

Definition qp_state_row (cur : qp_state) : list (qp_state * transition) :=
  match cur with
  | IB_QPS_RESET => from_reset
  | IB_QPS_INIT => from_init
  | IB_QPS_RTR => from_rtr
  | IB_QPS_RTS => from_rts
  | IB_QPS_SQD => from_sqd
  | IB_QPS_SQE => from_sqe
  | IB_QPS_ERR => from_err
  end.

(** [qp_state_table[cur][next]], [None] where [.valid] is 0. *)
Definition qp_state_table (cur next : qp_state) : option transition :=
  '(_, (_, t)) ← list_find (fun p => fst p = next) (qp_state_row cur); Some t.

(** The index [type] is read from arrays of [IB_QPT_MAX] entries; outside them the
    access is undefined. *)
Definition ib_modify_qp_is_ok (cur_state next_state : qp_state) (type mask : Z) : option bool :=
  if has_flag mask IB_QP_CUR_STATE &&
     bool_decide (cur_state <> IB_QPS_RTR) && bool_decide (cur_state <> IB_QPS_RTS) &&
     bool_decide (cur_state <> IB_QPS_SQD) && bool_decide (cur_state <> IB_QPS_SQE)
  then Some false
  else
    match qp_state_table cur_state next_state with
    | None => Some false
    | Some t =>
        if (type <? 0) || (IB_QPT_MAX <=? type) then None
        else
          let req := arr (req_param t) type in
          let opt := arr (opt_param t) type in
          if negb (Z.land mask req =? req) then Some false
          else if truthy (Z.land mask (Z.lnot (Z.lor (Z.lor req opt) IB_QP_STATE)))
          then Some false
          else Some true
    end.

(** ** Rates *)

Definition IB_RATE_PORT_CURRENT : Z := 0.
Definition IB_RATE_2_5_GBPS : Z := 2.
Definition IB_RATE_5_GBPS : Z := 5.
Definition IB_RATE_10_GBPS : Z := 3.
Definition IB_RATE_20_GBPS : Z := 6.
Definition IB_RATE_30_GBPS : Z := 4.
Definition IB_RATE_40_GBPS : Z := 7.
Definition IB_RATE_60_GBPS : Z := 8.
Definition IB_RATE_80_GBPS : Z := 9.
Definition IB_RATE_120_GBPS : Z := 10.
Definition IB_RATE_14_GBPS : Z := 11.
Definition IB_RATE_56_GBPS : Z := 12.
Definition IB_RATE_112_GBPS : Z := 13.
Definition IB_RATE_168_GBPS : Z := 14.
Definition IB_RATE_25_GBPS : Z := 15.
Definition IB_RATE_100_GBPS : Z := 16.
Definition IB_RATE_200_GBPS : Z := 17.
Definition IB_RATE_300_GBPS : Z := 18.
Definition IB_RATE_28_GBPS : Z := 19.
Definition IB_RATE_50_GBPS : Z := 20.
Definition IB_RATE_400_GBPS : Z := 21.
Definition IB_RATE_600_GBPS : Z := 22.
Definition IB_RATE_800_GBPS : Z := 23.

(** A [switch] with constant results: [default] where no case matches. *)
Definition switch (cases : list (Z * Z)) (dflt v : Z) : Z :=
  match list_find (fun p => fst p = v) cases with Some (_, (_, r)) => r | None => dflt end.

Definition ib_rate_to_mult_cases : list (Z * Z) :=
  [(IB_RATE_2_5_GBPS, 1); (IB_RATE_5_GBPS, 2); (IB_RATE_10_GBPS, 4); (IB_RATE_20_GBPS, 8);
   (IB_RATE_30_GBPS, 12); (IB_RATE_40_GBPS, 16); (IB_RATE_60_GBPS, 24); (IB_RATE_80_GBPS,
   32); (IB_RATE_120_GBPS, 48); (IB_RATE_14_GBPS, 6); (IB_RATE_56_GBPS, 22);
   (IB_RATE_112_GBPS, 45); (IB_RATE_168_GBPS, 67); (IB_RATE_25_GBPS, 10); (IB_RATE_100_GBPS,
   40); (IB_RATE_200_GBPS, 80); (IB_RATE_300_GBPS, 120); (IB_RATE_28_GBPS, 11);
   (IB_RATE_50_GBPS, 20); (IB_RATE_400_GBPS, 160); (IB_RATE_600_GBPS, 240);
   (IB_RATE_800_GBPS, 320)].
Definition ib_rate_to_mult : Z -> Z := switch ib_rate_to_mult_cases (-1).

Definition mult_to_ib_rate_cases : list (Z * Z) :=
  [(1, IB_RATE_2_5_GBPS); (2, IB_RATE_5_GBPS); (4, IB_RATE_10_GBPS); (8, IB_RATE_20_GBPS);
   (12, IB_RATE_30_GBPS); (16, IB_RATE_40_GBPS); (24, IB_RATE_60_GBPS); (32,
   IB_RATE_80_GBPS); (48, IB_RATE_120_GBPS); (6, IB_RATE_14_GBPS); (22, IB_RATE_56_GBPS);
   (45, IB_RATE_112_GBPS); (67, IB_RATE_168_GBPS); (10, IB_RATE_25_GBPS); (40,
   IB_RATE_100_GBPS); (80, IB_RATE_200_GBPS); (120, IB_RATE_300_GBPS); (11,
   IB_RATE_28_GBPS); (20, IB_RATE_50_GBPS); (160, IB_RATE_400_GBPS); (240,
   IB_RATE_600_GBPS); (320, IB_RATE_800_GBPS)].
Definition mult_to_ib_rate : Z -> Z := switch mult_to_ib_rate_cases IB_RATE_PORT_CURRENT.

Definition ib_rate_to_mbps_cases : list (Z * Z) :=
  [(IB_RATE_2_5_GBPS, 2500); (IB_RATE_5_GBPS, 5000); (IB_RATE_10_GBPS, 10000);
   (IB_RATE_20_GBPS, 20000); (IB_RATE_30_GBPS, 30000); (IB_RATE_40_GBPS, 40000);
   (IB_RATE_60_GBPS, 60000); (IB_RATE_80_GBPS, 80000); (IB_RATE_120_GBPS, 120000);
   (IB_RATE_14_GBPS, 14062); (IB_RATE_56_GBPS, 56250); (IB_RATE_112_GBPS, 112500);
   (IB_RATE_168_GBPS, 168750); (IB_RATE_25_GBPS, 25781); (IB_RATE_100_GBPS, 103125);
   (IB_RATE_200_GBPS, 206250); (IB_RATE_300_GBPS, 309375); (IB_RATE_28_GBPS, 28125);
   (IB_RATE_50_GBPS, 53125); (IB_RATE_400_GBPS, 425000); (IB_RATE_600_GBPS, 637500);
   (IB_RATE_800_GBPS, 850000)].
Definition ib_rate_to_mbps : Z -> Z := switch ib_rate_to_mbps_cases (-1).

(** ** Transports *)

Inductive rdma_transport_type :=
  RDMA_TRANSPORT_IB | RDMA_TRANSPORT_IWARP | RDMA_TRANSPORT_USNIC | RDMA_TRANSPORT_USNIC_UDP
  | RDMA_TRANSPORT_UNSPECIFIED.

Definition RDMA_NODE_IB_CA : Z := 1.
Definition RDMA_NODE_IB_SWITCH : Z := 2.
Definition RDMA_NODE_IB_ROUTER : Z := 3.
Definition RDMA_NODE_RNIC : Z := 4.
Definition RDMA_NODE_USNIC : Z := 5.
Definition RDMA_NODE_USNIC_UDP : Z := 6.
Definition RDMA_NODE_UNSPECIFIED : Z := 7.

Definition rdma_node_get_transport (node_type : Z) : rdma_transport_type :=
  if node_type =? RDMA_NODE_USNIC then RDMA_TRANSPORT_USNIC
  else if node_type =? RDMA_NODE_USNIC_UDP then RDMA_TRANSPORT_USNIC_UDP
  else if node_type =? RDMA_NODE_RNIC then RDMA_TRANSPORT_IWARP
  else if node_type =? RDMA_NODE_UNSPECIFIED then RDMA_TRANSPORT_UNSPECIFIED
  else RDMA_TRANSPORT_IB.

(** ** Width and speed of an Ethernet port *)

Definition IB_WIDTH_1X : Z := 1.
Definition IB_WIDTH_2X : Z := 16.
Definition IB_WIDTH_4X : Z := 2.
Definition IB_WIDTH_8X : Z := 4.
Definition IB_WIDTH_12X : Z := 8.
Definition IB_SPEED_SDR : Z := 1.
Definition IB_SPEED_DDR : Z := 2.
Definition IB_SPEED_QDR : Z := 4.
Definition IB_SPEED_FDR10 : Z := 8.
Definition IB_SPEED_FDR : Z := 16.
Definition IB_SPEED_EDR : Z := 32.
Definition IB_SPEED_HDR : Z := 64.
Definition IB_SPEED_NDR : Z := 128.

(** Result: speed and width. *)
Definition ib_get_width_and_speed (netdev_speed lanes : Z) : Z * Z :=
  if lanes =? 0 then
    if netdev_speed <=? 1000 then (IB_SPEED_SDR, IB_WIDTH_1X)
    else if netdev_speed <=? 10000 then (IB_SPEED_FDR10, IB_WIDTH_1X)
    else if netdev_speed <=? 20000 then (IB_SPEED_DDR, IB_WIDTH_4X)
    else if netdev_speed <=? 25000 then (IB_SPEED_EDR, IB_WIDTH_1X)
    else if netdev_speed <=? 40000 then (IB_SPEED_FDR10, IB_WIDTH_4X)
    else if netdev_speed <=? 50000 then (IB_SPEED_EDR, IB_WIDTH_2X)
    else if netdev_speed <=? 100000 then (IB_SPEED_EDR, IB_WIDTH_4X)
    else if netdev_speed <=? 200000 then (IB_SPEED_HDR, IB_WIDTH_4X)
    else (IB_SPEED_NDR, IB_WIDTH_4X)
  else
    let width :=
      switch [(1, IB_WIDTH_1X); (2, IB_WIDTH_2X); (4, IB_WIDTH_4X); (8, IB_WIDTH_8X);
              (12, IB_WIDTH_12X)] IB_WIDTH_1X lanes in
    let speed :=
      switch [(2500, IB_SPEED_SDR); (5000, IB_SPEED_DDR); (10000, IB_SPEED_FDR10);
              (14000, IB_SPEED_FDR); (25000, IB_SPEED_EDR); (50000, IB_SPEED_HDR);
              (100000, IB_SPEED_NDR)] IB_SPEED_SDR (netdev_speed / lanes) in
    (speed, width).

Definition ib_width_enum_to_int (width : Z) : Z :=
  switch [(IB_WIDTH_1X, 1); (IB_WIDTH_2X, 2); (IB_WIDTH_4X, 4); (IB_WIDTH_8X, 8);
          (IB_WIDTH_12X, 12)] (-1) width.

(** ** Abstract state machine *)

(** [a] is a subset of [b], as bit sets. *)
Definition submask (a b : Z) : Prop := forall i, 0 <= i -> Z.testbit a i = true -> Z.testbit b i = true.

(** The specification: an edge of the diagram with its required and optional
    attributes for a type. *)
Definition edge (type : Z) (cur next : qp_state) : option (Z * Z) :=
  (fun t => (arr (req_param t) type, arr (opt_param t) type)) <$> qp_state_table cur next.

(** States whose users may name the current state. *)
Definition may_name_state (s : qp_state) : bool :=
  match s with IB_QPS_RTR | IB_QPS_RTS | IB_QPS_SQD | IB_QPS_SQE => true | _ => false end.

(** A run of a queue pair of one type: each step is an accepted modification; the
    second component collects the attributes given since the last reset. *)
Inductive qp_run (type : Z) : qp_state -> Z -> Prop :=
| run_start : qp_run type IB_QPS_RESET 0
| run_modify cur acc next mask :
    qp_run type cur acc -> ib_modify_qp_is_ok cur next type mask = Some true ->
    qp_run type next (if bool_decide (next = IB_QPS_RESET) then 0 else Z.lor acc mask).

(** Attributes a queue pair must have been given to be in a state. *)
Definition edge_req (type : Z) (cur next : qp_state) : Z :=
  match edge type cur next with Some (r, _) => r | None => 0 end.

Definition needed (type : Z) (s : qp_state) : Z :=
  let ri := edge_req type IB_QPS_RESET IB_QPS_INIT in
  let ir := edge_req type IB_QPS_INIT IB_QPS_RTR in
  let rr := edge_req type IB_QPS_RTR IB_QPS_RTS in
  match s with
  | IB_QPS_RESET | IB_QPS_ERR | IB_QPS_SQE => 0
  | IB_QPS_INIT => ri
  | IB_QPS_RTR => Z.lor ri ir
  | IB_QPS_RTS | IB_QPS_SQD => Z.lor (Z.lor ri ir) rr
  end.

(** ** Lemmas *)

Lemma submask_land a b : Z.land b a = a <-> submask a b.
Proof.
  split.
  - intros E i Hi Ha. rewrite <- E, Z.land_spec in Ha. apply andb_true_iff in Ha. tauto.
  - intros H. apply Z.bits_inj'. intros i Hi. rewrite Z.land_spec.
    destruct (Z.testbit a i) eqn:E; [by rewrite (H i Hi E)|apply andb_false_r].
Qed.

Lemma submask_lnot a b : Z.land a (Z.lnot b) = 0 <-> submask a b.
Proof.
  rewrite <- Z.ldiff_land. split.
  - intros E i Hi Ha. apply (f_equal (fun z => Z.testbit z i)) in E.
    rewrite Z.ldiff_spec, Ha, Z.bits_0 in E. by destruct (Z.testbit b i).
  - intros H. apply Z.bits_inj'. intros i Hi. rewrite Z.ldiff_spec, Z.bits_0.
    destruct (Z.testbit a i) eqn:E; [by rewrite (H i Hi E)|done].
Qed.

Lemma submask_refl a : submask a a.
Proof. by intros i Hi Ha. Qed.
Lemma submask_trans a b c : submask a b -> submask b c -> submask a c.
Proof. unfold submask. eauto. Qed.
Lemma submask_lor_l a b c : submask a b -> submask a (Z.lor b c).
Proof. intros H i Hi Ha. rewrite Z.lor_spec, (H i Hi Ha). done. Qed.
Lemma submask_lor_r a b c : submask a c -> submask a (Z.lor b c).
Proof. intros H i Hi Ha. rewrite Z.lor_spec, (H i Hi Ha). apply orb_true_r. Qed.
Lemma submask_lor a b c : submask a c -> submask b c -> submask (Z.lor a b) c.
Proof.
  intros H1 H2 i Hi. rewrite Z.lor_spec. intros [?|?]%orb_true_iff; auto.
Qed.
Lemma submask_0 a : submask 0 a.
Proof. intros i Hi. by rewrite Z.bits_0. Qed.

Create HintDb submask.
#[export] Hint Resolve submask_refl submask_lor_l submask_lor_r submask_lor submask_0 : submask.

Lemma modify_ok_iff cur next type mask :
  0 <= type < IB_QPT_MAX ->
  ib_modify_qp_is_ok cur next type mask = Some true <->
  exists req opt, edge type cur next = Some (req, opt) /\
    (has_flag mask IB_QP_CUR_STATE = true -> may_name_state cur = true) /\
    submask req mask /\ submask mask (Z.lor (Z.lor req opt) IB_QP_STATE).
Proof.
  intros Ht. unfold ib_modify_qp_is_ok, edge.
  assert ((type <? 0) || (IB_QPT_MAX <=? type) = false) as -> by
    (apply orb_false_iff; split; [apply Z.ltb_ge|apply Z.leb_gt]; lia).
  set (g := has_flag mask IB_QP_CUR_STATE && _ && _ && _ && _).
  assert (g = false <-> (has_flag mask IB_QP_CUR_STATE = true -> may_name_state cur = true)) as Hg.
  { unfold g, may_name_state. destruct (has_flag mask IB_QP_CUR_STATE); [|by split].
    destruct cur; split; intros H; try done; by specialize (H eq_refl). }
  destruct g.
  { split; [done|]. intros (r & o & _ & Hs & _). apply Hg in Hs. done. }
  destruct (qp_state_table cur next) as [t|]; cbn [fmap option_fmap option_map];
    [|split; [done|by intros (? & ? & ? & _)]].
  destruct (Z.eqb_spec (Z.land mask (arr (req_param t) type)) (arr (req_param t) type)) as [E|E];
    cbn [negb].
  - destruct (truthy _) eqn:E2.
    + split; [done|]. intros (r & o & [= <- <-] & _ & _ & H). apply submask_lnot in H.
      by rewrite H in E2.
    + split; [|done]. intros _. eexists _, _. split_and!; [done|by apply Hg|by apply submask_land|].
      apply submask_lnot. unfold truthy in E2. by apply negb_false_iff, Z.eqb_eq in E2.
  - split; [done|]. intros (r & o & [= <- <-] & _ & H & _). by apply submask_land in H.
Qed.

(** *** Runs *)

Definition types : list Z := seqZ 0 IB_QPT_MAX.

Lemma type_in type : 0 <= type < IB_QPT_MAX -> type ∈ types.
Proof. intros. apply elem_of_seqZ. unfold IB_QPT_MAX in *. lia. Qed.

(** Decidable form of [submask] for the masks of the table. *)
Definition submaskb (a b : Z) : bool := Z.land b a =? a.

Lemma submaskb_ok a b : submaskb a b = true -> submask a b.
Proof. unfold submaskb. intros ?%Z.eqb_eq. by apply submask_land. Qed.

(** Every edge preserves "what the state needs has been given". *)
Definition edge_preserves (type : Z) (cur next : qp_state) : bool :=
  match edge type cur next with
  | Some (req, _) =>
      submaskb (needed type next) (Z.lor (needed type cur) req) || bool_decide (cur = IB_QPS_SQE)
      || bool_decide (next = IB_QPS_RESET)
  | None => true
  end.

Lemma edges_preserve type cur next :
  0 <= type < IB_QPT_MAX -> edge_preserves type cur next = true.
Proof.
  intros Ht%type_in.
  assert (forallb (fun t => forallb (fun c => forallb (edge_preserves t c) all_states) all_states)
            types = true) as H by (vm_compute; reflexivity).
  rewrite forallb_forall in H. specialize (H type). rewrite <- list_elem_of_In in H.
  specialize (H Ht). rewrite forallb_forall in H. specialize (H cur).
  rewrite forallb_forall in H. apply H; destruct cur, next; simpl; tauto.
Qed.

(** No edge enters SQE: only the hardware does. *)
Lemma no_edge_to_sqe type cur : edge type cur IB_QPS_SQE = None.
Proof. by destruct cur. Qed.

Lemma run_not_sqe type s acc : 0 <= type < IB_QPT_MAX -> qp_run type s acc -> s <> IB_QPS_SQE.
Proof.
  intros Ht. induction 1 as [|cur acc next mask _ _ Hok]; [done|].
  apply modify_ok_iff in Hok as (r & o & He & _); [|done]. intros ->.
  by rewrite no_edge_to_sqe in He.
Qed.

Lemma run_needed type s acc : 0 <= type < IB_QPT_MAX -> qp_run type s acc -> submask (needed type s) acc.
Proof.
  intros Ht Hr. induction Hr as [|cur acc next mask Hr IH Hok]; [apply submask_0|].
  apply modify_ok_iff in Hok as (r & o & He & _ & Hreq & _); [|done].
  case_bool_decide as Hn; [subst; apply submask_0|].
  pose proof (edges_preserve type cur next Ht) as Hp. unfold edge_preserves in Hp.
  rewrite He in Hp. apply orb_true_iff in Hp as [[Hp|Hp]%orb_true_iff|Hp].
  - apply submaskb_ok in Hp. eapply submask_trans; [exact Hp|]. auto with submask.
  - apply bool_decide_eq_true in Hp. by apply (run_not_sqe type cur acc Ht) in Hr.
  - apply bool_decide_eq_true in Hp. done.
Qed.

(** The state diagram of the InfiniBand specification (without the transition into
    SQE, which only the hardware makes). *)
Definition diagram : list (qp_state * qp_state) :=
  [(IB_QPS_RESET, IB_QPS_RESET); (IB_QPS_RESET, IB_QPS_INIT);
   (IB_QPS_INIT, IB_QPS_RESET); (IB_QPS_INIT, IB_QPS_ERR); (IB_QPS_INIT, IB_QPS_INIT);
   (IB_QPS_INIT, IB_QPS_RTR);
   (IB_QPS_RTR, IB_QPS_RESET); (IB_QPS_RTR, IB_QPS_ERR); (IB_QPS_RTR, IB_QPS_RTS);
   (IB_QPS_RTS, IB_QPS_RESET); (IB_QPS_RTS, IB_QPS_ERR); (IB_QPS_RTS, IB_QPS_RTS);
   (IB_QPS_RTS, IB_QPS_SQD);
   (IB_QPS_SQD, IB_QPS_RESET); (IB_QPS_SQD, IB_QPS_ERR); (IB_QPS_SQD, IB_QPS_RTS);
   (IB_QPS_SQD, IB_QPS_SQD);
   (IB_QPS_SQE, IB_QPS_RESET); (IB_QPS_SQE, IB_QPS_ERR); (IB_QPS_SQE, IB_QPS_RTS);
   (IB_QPS_ERR, IB_QPS_RESET); (IB_QPS_ERR, IB_QPS_ERR)].

Lemma edge_diagram type cur next : is_Some (edge type cur next) <-> (cur, next) ∈ diagram.
Proof.
  unfold edge. rewrite fmap_is_Some.
  assert (bool_decide (is_Some (qp_state_table cur next)) = bool_decide ((cur, next) ∈ diagram)) as H
    by (destruct cur, next; vm_compute; reflexivity).
  by rewrite <- (bool_decide_eq_true (is_Some _)), H, bool_decide_eq_true.
Qed.

(** The required attributes never name the current state. *)
Lemma req_no_cur_state type cur next req opt :
  0 <= type < IB_QPT_MAX -> edge type cur next = Some (req, opt) ->
  has_flag (Z.lor req IB_QP_STATE) IB_QP_CUR_STATE = false.
Proof.
  intros Ht%type_in He.
  assert (forallb (fun t => forallb (fun c => forallb (fun n =>
            match edge t c n with
            | Some (r, _) => negb (has_flag (Z.lor r IB_QP_STATE) IB_QP_CUR_STATE)
            | None => true end) all_states) all_states) types = true) as H
    by (vm_compute; reflexivity).
  rewrite forallb_forall in H. specialize (H type). rewrite <- list_elem_of_In in H.
  specialize (H Ht). rewrite forallb_forall in H. specialize (H cur).
  rewrite forallb_forall in H. specialize (H ltac:(destruct cur; simpl; tauto) next).
  rewrite He in H. apply negb_true_iff, H. destruct next; simpl; tauto.
Qed.

(** ** Properties *)

(** [ib_modify_qp_is_ok] decides exactly this: the transition is an edge of the
    state table; every attribute the edge requires for this type is in the mask;
    every attribute in the mask is required, optional or the state itself; and the
    current state is named only in RTR, RTS, SQD or SQE. *)
Theorem ib_modify_qp_is_ok_exact cur next type mask :
  0 <= type < IB_QPT_MAX ->
  ib_modify_qp_is_ok cur next type mask = Some true <->
  exists req opt, edge type cur next = Some (req, opt) /\
    (has_flag mask IB_QP_CUR_STATE = true -> may_name_state cur = true) /\
    submask req mask /\ submask mask (Z.lor (Z.lor req opt) IB_QP_STATE).
Proof. apply modify_ok_iff. Qed.

Lemma ib_modify_qp_is_ok_exact_witness :
  submask (edge_req IB_QPT_UD IB_QPS_RESET IB_QPS_INIT) 0x71.
Proof.
  destruct (proj1 (ib_modify_qp_is_ok_exact IB_QPS_RESET IB_QPS_INIT IB_QPT_UD 0x71
    ltac:(unfold IB_QPT_MAX, IB_QPT_UD; lia)) ltac:(vm_compute; reflexivity))
    as (r & o & He & _ & H & _).
  unfold edge_req. rewrite He. exact H.
Defined.

(** The state machine is the InfiniBand state diagram, the same for every queue
    pair type: a transition is possible with some attribute mask if and only if it
    is an edge of the diagram; in particular RESET can be entered from every state
    and RTS only from RTR, RTS, SQD and SQE. *)
Theorem qp_transition_diagram type cur next :
  0 <= type < IB_QPT_MAX ->
  (exists mask, ib_modify_qp_is_ok cur next type mask = Some true) <-> (cur, next) ∈ diagram.
Proof.
  intros Ht. rewrite <- (edge_diagram type). split.
  - intros [mask (r & o & -> & _)%modify_ok_iff]; [by eexists|done].
  - intros [[r o] He]. exists (Z.lor r IB_QP_STATE). apply modify_ok_iff; [done|].
    exists r, o. split_and!; [done| |auto with submask..].
    intros Hf. by rewrite (req_no_cur_state _ _ _ _ _ Ht He) in Hf.
Qed.

Lemma qp_transition_diagram_witness :
  exists mask, ib_modify_qp_is_ok IB_QPS_SQD IB_QPS_RTS IB_QPT_RC mask = Some true.
Proof.
  apply (qp_transition_diagram IB_QPT_RC IB_QPS_SQD IB_QPS_RTS).
  - unfold IB_QPT_MAX, IB_QPT_RC. lia.
  - apply (bool_decide_unpack _). vm_compute. exact I.
Defined.

(** C37. No queue pair reaches an operational state unconfigured: however it was
    driven, when a queue pair of any type is in INIT, RTR, RTS or SQD, the accepted
    modifications since its last reset have given every attribute that the edges
    RESET-INIT, INIT-RTR and RTR-RTS require up to that state. *)
Theorem qp_configured_when_operational type s acc :
  0 <= type < IB_QPT_MAX -> qp_run type s acc -> submask (needed type s) acc /\ s <> IB_QPS_SQE.
Proof. intros Ht Hr. split; [by apply run_needed|exact (run_not_sqe type s acc Ht Hr)]. Qed.

Lemma qp_configured_when_operational_witness :
  submask (needed IB_QPT_RC IB_QPS_RTR)
    (Z.lor (Z.lor 0 0x39) (Z.lor (needed IB_QPT_RC IB_QPS_RTR - 0x38) 1)).
Proof.
  apply (qp_configured_when_operational IB_QPT_RC IB_QPS_RTR).
  - unfold IB_QPT_MAX, IB_QPT_RC. lia.
  - refine (run_modify IB_QPT_RC IB_QPS_INIT (Z.lor 0 0x39) IB_QPS_RTR
      (Z.lor (needed IB_QPT_RC IB_QPS_RTR - 0x38) 1) _ ltac:(vm_compute; reflexivity)).
    exact (run_modify IB_QPT_RC IB_QPS_RESET 0 IB_QPS_INIT 0x39 (run_start _)
      ltac:(vm_compute; reflexivity)).
Defined.

(** A [switch] selects one of its cases, or the default where none matches. *)
Lemma switch_spec cases d v :
  (exists r, (v, r) ∈ cases /\ switch cases d v = r) \/ ((v ∉ cases.*1) /\ switch cases d v = d).
Proof.
  unfold switch. destruct (list_find _ cases) as [[i [k r]]|] eqn:E.
  - apply list_find_Some in E as (Hi & Hk & _). simpl in Hk. subst k. left. exists r.
    split; [by eapply list_elem_of_lookup_2|done].
  - right. split; [|done]. apply list_find_None in E. intros ([k r] & -> & Hin)%list_elem_of_fmap.
    rewrite Forall_forall in E. apply (E (k, r)); [by apply list_elem_of_In|done].
Qed.

Lemma forall_cases (f : Z * Z -> bool) cases p : p ∈ cases -> forallb f cases = true -> f p = true.
Proof. intros Hin Hf. rewrite forallb_forall in Hf. by apply Hf, list_elem_of_In. Qed.

(** The rate conversions are inverse to each other: every rate with a multiplier
    is recovered from it and every multiplier that names a rate is recovered from the
    rate; rates and multipliers outside the tables give -1 and [IB_RATE_PORT_CURRENT];
    and the rate in Mb/s is within a fifteenth of the multiplier times 2500. *)
Theorem ib_rate_roundtrip :
  (forall r, ib_rate_to_mult r <> -1 -> mult_to_ib_rate (ib_rate_to_mult r) = r) /\
  (forall m, mult_to_ib_rate m <> IB_RATE_PORT_CURRENT -> ib_rate_to_mult (mult_to_ib_rate m) = m) /\
  (forall r, ib_rate_to_mult r = -1 <-> ib_rate_to_mbps r = -1) /\
  (forall r, ib_rate_to_mult r <> -1 ->
     15 * Z.abs (ib_rate_to_mbps r - 2500 * ib_rate_to_mult r) <= 2500 * ib_rate_to_mult r).
Proof.
  split_and!.
  - intros r Hr. destruct (switch_spec ib_rate_to_mult_cases (-1) r) as [(m & Hin & _)|[_ E]]; [|done].
    apply Z.eqb_eq. by apply (forall_cases (fun p => mult_to_ib_rate (ib_rate_to_mult p.1) =? p.1) _ _ Hin).
  - intros m Hm. destruct (switch_spec mult_to_ib_rate_cases IB_RATE_PORT_CURRENT m)
      as [(r & Hin & _)|[_ E]]; [|done].
    apply Z.eqb_eq. by apply (forall_cases (fun p => ib_rate_to_mult (mult_to_ib_rate p.1) =? p.1) _ _ Hin).
  - intros r. destruct (switch_spec ib_rate_to_mult_cases (-1) r) as [(m & Hin & _)|[Hn E]].
    + pose proof (forall_cases (fun p => negb (ib_rate_to_mult p.1 =? -1)
                                         && negb (ib_rate_to_mbps p.1 =? -1)) _ _ Hin eq_refl) as H.
      cbn [fst] in H. apply andb_true_iff in H as [H1%negb_true_iff%Z.eqb_neq H2%negb_true_iff%Z.eqb_neq].
      split; intros E; [destruct (H1 E)|destruct (H2 E)].
    + destruct (switch_spec ib_rate_to_mbps_cases (-1) r) as [(b & Hin & _)|[_ E']];
        [|split; intros; [exact E'|exact E]].
      destruct Hn. exact (list_elem_of_fmap_2 fst _ _ Hin).
  - intros r Hr. destruct (switch_spec ib_rate_to_mult_cases (-1) r) as [(m & Hin & _)|[_ E]]; [|done].
    apply Z.leb_le. by apply (forall_cases (fun p => 15 * Z.abs (ib_rate_to_mbps p.1 - 2500 * ib_rate_to_mult p.1)
                                    <=? 2500 * ib_rate_to_mult p.1) _ _ Hin).
Qed.

Definition lane_rate (speed : Z) : Z :=
  switch [(IB_SPEED_SDR, 2500); (IB_SPEED_DDR, 5000); (IB_SPEED_QDR, 10000);
          (IB_SPEED_FDR10, 10000); (IB_SPEED_FDR, 14000); (IB_SPEED_EDR, 25000);
          (IB_SPEED_HDR, 50000); (IB_SPEED_NDR, 100000)] 0 speed.

(** The width and speed reported for an Ethernet port: without lane information
    the reported width and speed provide at least the speed of the port, up to
    400 Gb/s; with a number of lanes that InfiniBand knows, the reported width is
    that number of lanes, and their product is the speed of the port whenever the
    speed per lane is one the code knows. *)
Theorem ib_get_width_and_speed_covers speed lanes :
  0 <= speed <= 400000 -> 0 <= lanes ->
  let '(s, w) := ib_get_width_and_speed speed lanes in
  (lanes = 0 -> speed <= ib_width_enum_to_int w * lane_rate s) /\
  (lanes ∈ [1; 2; 4; 8; 12] -> ib_width_enum_to_int w = lanes /\
     (speed / lanes ∈ [2500; 5000; 10000; 14000; 25000; 50000; 100000] ->
      lane_rate s = speed / lanes)).
Proof.
  intros Hs Hl. unfold ib_get_width_and_speed. destruct (Z.eqb_spec lanes 0) as [->|Hn].
  - repeat case_cond; bool_to_prop; split;
      try (intros _; match goal with |- _ <= ?r => let v := eval vm_compute in r in change r with v end;
           lia);
      intros H; exfalso; repeat (apply elem_of_cons in H as [H|H]; [lia|]); by apply elem_of_nil in H.
  - cbn [fst]. split; [done|]. intros H.
    repeat (apply elem_of_cons in H as [->|H]; [split; [reflexivity|]|]); [..|by apply elem_of_nil in H];
      intros H; repeat (apply elem_of_cons in H as [->|H]; [reflexivity|]); by apply elem_of_nil in H.
Qed.

Lemma ib_get_width_and_speed_covers_witness :
  40000 <= ib_width_enum_to_int (snd (ib_get_width_and_speed 40000 0)) *
           lane_rate (fst (ib_get_width_and_speed 40000 0)).
Proof.
  exact (proj1 (ib_get_width_and_speed_covers 40000 0 ltac:(lia) ltac:(lia)) eq_refl).
Defined.
