(* ===== verification/MadReg.v ===== *)
(** * MAD agent registration and routing: drivers/infiniband/core/mad.c

    The registration tables of a port: by class version a class table (method
    tables for the plain classes) and a vendor table (method tables by OUI for
    vendor range 2). A table pointer is an [option]; an agent is named by the
    address of its structure. Each memory allocation site has a boolean that says
    whether it succeeds. An array access outside its bounds gives [None]. *)

From Stdlib Require Import ZArith Lia.
From stdpp Require Import base tactics numbers list option gmap.
From S2P Require Import Prelude.

Local Open Scope Z_scope.

(** ** Constants (mad_priv.h, include/rdma/ib_mad.h) *)

Definition MAX_MGMT_CLASS : Z := 80.
Definition MAX_MGMT_VERSION : Z := 0x83.
Definition MAX_MGMT_OUI : nat := 8.
Definition MAX_MGMT_VENDOR_RANGE2 : nat := 32.
Definition IB_MGMT_MAX_METHODS : nat := 128.
Definition IB_MGMT_CLASS_SUBN_LID_ROUTED : Z := 0x01.
Definition IB_MGMT_CLASS_SUBN_DIRECTED_ROUTE : Z := 0x81.
Definition IB_MGMT_CLASS_SUBN_ADM : Z := 0x03.
Definition IB_MGMT_CLASS_BM : Z := 0x05.
Definition IB_MGMT_CLASS_DEVICE_MGMT : Z := 0x06.
Definition IB_MGMT_CLASS_CM : Z := 0x07.
Definition IB_MGMT_CLASS_DEVICE_ADM : Z := 0x10.
Definition IB_MGMT_CLASS_BIS : Z := 0x12.
Definition IB_MGMT_CLASS_VENDOR_RANGE2_START : Z := 0x30.
Definition IB_MGMT_CLASS_VENDOR_RANGE2_END : Z := 0x4F.
Definition IB_MGMT_METHOD_RESP : Z := 0x80.
Definition IB_MGMT_METHOD_SEND : Z := 0x03.
Definition IB_MGMT_METHOD_TRAP_REPRESS : Z := 0x07.
Definition IB_BM_ATTR_MOD_RESP : Z := 1.
Definition IB_MGMT_CLASSPORTINFO_ATTR_ID : Z := 1.
Definition IB_MGMT_RMPP_VERSION : Z := 1.
Definition IB_MGMT_BASE_VERSION : Z := 1.
Definition OPA_MGMT_BASE_VERSION : Z := 0x80.
Definition IB_MAD_USER_RMPP : Z := 1.

(** ** Data *)

Abbreviation method_table := (list (option Z)).
Abbreviation class_table := (list (option method_table)).

Record vendor_class := mk_vendor_class {
  oui : list (list Z);
  vc_method_table : list (option method_table)
}.

Abbreviation vendor_table := (list (option vendor_class)).

Record version_table := mk_version { class_ : option class_table; vendor_ : option vendor_table }.

Record reg_req := mk_reg_req {
  mgmt_class : Z; mgmt_class_version : Z; req_oui : list Z; method_mask : Z
}.

Record mad_hdr := mk_mad_hdr {
  hdr_base_version : Z; hdr_mgmt_class : Z; hdr_class_version : Z; hdr_method : Z;
  hdr_tid : Z; hdr_attr_id : Z; hdr_attr_mod : Z; hdr_oui : list Z
}.

(** Freshly zeroed tables. *)
Definition new_method_table : method_table := replicate IB_MGMT_MAX_METHODS None.
Definition new_class_table : class_table := replicate (Z.to_nat MAX_MGMT_CLASS) None.
Definition new_vendor_class : vendor_class :=
  mk_vendor_class (replicate MAX_MGMT_OUI [0; 0; 0]) (replicate MAX_MGMT_OUI None).
Definition new_vendor_table : vendor_table := replicate MAX_MGMT_VENDOR_RANGE2 None.

(** The port after [kzalloc]. *)
Definition new_port : list version_table :=
  replicate (Z.to_nat MAX_MGMT_VERSION) (mk_version None None).

(** [a[i]] and [a[i] = x]. *)
Definition aget {A} (l : list A) (i : Z) : option A :=
  if i <? 0 then None else l !! Z.to_nat i.
Definition aput {A} (l : list A) (i : Z) (x : A) : option (list A) :=
  if (i <? 0) || (Z.of_nat (length l) <=? i) then None else Some (<[Z.to_nat i := x]> l).

(** ** Classes and methods *)

Definition convert_mgmt_class (c : Z) : Z :=
  if c =? IB_MGMT_CLASS_SUBN_DIRECTED_ROUTE then 0 else c.

Definition IB_QPT_SMI : Z := 0.
Definition IB_QPT_GSI : Z := 1.

Definition get_spl_qp_index (qp_type : Z) : Z :=
  if qp_type =? IB_QPT_SMI then 0 else if qp_type =? IB_QPT_GSI then 1 else -1.

Definition vendor_class_index (c : Z) : Z := c - IB_MGMT_CLASS_VENDOR_RANGE2_START.

Definition is_vendor_class (c : Z) : bool :=
  if (c <? IB_MGMT_CLASS_VENDOR_RANGE2_START) || (IB_MGMT_CLASS_VENDOR_RANGE2_END <? c)
  then false else true.

Definition is_vendor_oui (o : list Z) : bool := existsb truthy (take 3 o).

Definition ib_response_mad (hdr : mad_hdr) : bool :=
  has_flag (hdr_method hdr) IB_MGMT_METHOD_RESP
  || (hdr_method hdr =? IB_MGMT_METHOD_TRAP_REPRESS)
  || ((hdr_mgmt_class hdr =? IB_MGMT_CLASS_BM) && has_flag (hdr_attr_mod hdr) IB_BM_ATTR_MOD_RESP).

Definition ib_is_mad_class_rmpp (c : Z) : bool :=
  (c =? IB_MGMT_CLASS_SUBN_ADM) || (c =? IB_MGMT_CLASS_DEVICE_MGMT)
  || (c =? IB_MGMT_CLASS_DEVICE_ADM) || (c =? IB_MGMT_CLASS_BIS)
  || ((IB_MGMT_CLASS_VENDOR_RANGE2_START <=? c) && (c <=? IB_MGMT_CLASS_VENDOR_RANGE2_END)).

(** [for_each_set_bit(i, mask, IB_MGMT_MAX_METHODS)] *)
Definition set_bits (mask : Z) : list nat :=
  filter (fun i => Z.testbit mask (Z.of_nat i) = true) (seq 0 IB_MGMT_MAX_METHODS).

Definition agent_at (t : method_table) (i : nat) : option Z := mjoin (t !! i).

Definition method_in_use (t : method_table) (mask : Z) : bool :=
  existsb (fun i => bool_decide (is_Some (agent_at t i))) (set_bits mask).

Definition set_methods (t : method_table) (mask agent : Z) : method_table :=
  foldl (fun t i => <[i := Some agent]> t) t (set_bits mask).

Definition check_method_table (t : method_table) : bool :=
  existsb (fun x => bool_decide (is_Some x)) t.

Definition check_class_table (t : class_table) : bool :=
  existsb (fun x => bool_decide (is_Some x)) t.

Definition check_vendor_class (t : vendor_class) : bool :=
  existsb (fun x => bool_decide (is_Some x)) (vc_method_table t).

Definition check_vendor_table (t : vendor_table) : bool :=
  existsb (fun x => bool_decide (is_Some x)) t.

(** The index, [None] for -1. *)
Definition find_vendor_oui (t : vendor_class) (o : list Z) : option nat :=
  fst <$> list_find (fun x => x = o) (oui t).

Definition remove_methods_mad_agent (t : method_table) (agent : Z) : method_table :=
  (fun x => if bool_decide (x = Some agent) then None else x) <$> t.

(** The loop goes on to the next slot when the slot with this OUI has no table. *)
Definition is_vendor_method_in_use (t : vendor_class) (r : reg_req) : bool :=
  let fix go (ouis : list (list Z)) (ms : list (option method_table)) : bool :=
    match ouis, ms with
    | o :: ouis', m :: ms' =>
        if bool_decide (o = req_oui r) then
          match m with
          | Some mt => method_in_use mt (method_mask r)
          | None => go ouis' ms'
          end
        else go ouis' ms'
    | _, _ => false
    end in
  go (oui t) (vc_method_table t).

(** ** Adding a registration *)

(** Which allocations succeed. *)
Record allocs := mk_allocs {
  al_class : bool; al_method : bool; al_vendor : bool; al_vendor_class : bool
}.

(** Method table of the request: refuse methods in use (releasing a table without
    methods), else add the methods. *)
Definition add_methods (t : method_table) (mask agent : Z) : Z * option method_table :=
  if method_in_use t mask then
    let t' := remove_methods_mad_agent t agent in
    (err EINVAL, if check_method_table t' then Some t' else None)
  else (0, Some (set_methods t mask agent)).

Definition add_nonoui_reg_req (al : allocs) (r : reg_req) (agent c : Z) (v : version_table)
  : option (Z * version_table) :=
  match class_ v with
  | None =>
      if negb (al_class al) then Some (err ENOMEM, v)
      else if negb (al_method al) then Some (err ENOMEM, mk_version None (vendor_ v))
      else
        let '(ret, m) := add_methods new_method_table (method_mask r) agent in
        ct ← aput new_class_table c m;
        Some (ret, mk_version (Some ct) (vendor_ v))
  | Some ct =>
      m ← aget ct c;
      match m with
      | None =>
          if negb (al_method al) then Some (err ENOMEM, v)
          else
            let '(ret, m) := add_methods new_method_table (method_mask r) agent in
            ct ← aput ct c m;
            Some (ret, mk_version (Some ct) (vendor_ v))
      | Some t =>
          let '(ret, m) := add_methods t (method_mask r) agent in
          ct ← aput ct c m;
          Some (ret, mk_version (Some ct) (vendor_ v))
      end
  end.

(** The part of [add_oui_reg_req] on one vendor class: the return value and the
    vendor class after it. *)
Definition add_oui_slot (al : allocs) (r : reg_req) (agent : Z) (vc : vendor_class)
  : option (Z * vendor_class) :=
  match find_vendor_oui vc (req_oui r) with
  | Some i =>
      m ← vc_method_table vc !! i;
      match m with
      | None => Some (err ENOMEM, vc)
      | Some t =>
          let '(ret, m) := add_methods t (method_mask r) agent in
          Some (ret, mk_vendor_class (oui vc) (<[i := m]> (vc_method_table vc)))
      end
  | None =>
      match list_find (fun o => is_vendor_oui o = false) (oui vc) with
      | Some (i, _) =>
          m ← vc_method_table vc !! i;
          match (match m with
                 | None => if al_method al then Some new_method_table else None
                 | Some t => Some t
                 end) with
          | None => Some (err ENOMEM, vc)
          | Some t =>
              let '(ret, m) := add_methods t (method_mask r) agent in
              Some (ret, mk_vendor_class (<[i := req_oui r]> (oui vc))
                           (<[i := m]> (vc_method_table vc)))
          end
      | None => Some (err ENOMEM, vc)
      end
  end.

(** The part of [add_oui_reg_req] with the vendor table at hand; [fresh_table] says
    that the table was just allocated, so that an error releases it. *)
Definition add_oui_in_table (al : allocs) (r : reg_req) (agent : Z) (fresh_table : bool)
    (v : version_table) (vt : vendor_table) : option (Z * version_table) :=
  let k := vendor_class_index (mgmt_class r) in
  old ← aget vt k;
  match (match old with
         | None => if al_vendor_class al then Some new_vendor_class else None
         | Some vc => Some vc
         end) with
  | None => Some (err ENOMEM, mk_version (class_ v) (if fresh_table then None else Some vt))
  | Some vc =>
      '(ret, vc') ← add_oui_slot al r agent vc;
      if ret =? 0 then
        vt' ← aput vt k (Some vc'); Some (0, mk_version (class_ v) (Some vt'))
      else
        vt' ← aput vt k (match old with None => None | Some _ => Some vc' end);
        Some (ret, mk_version (class_ v) (if fresh_table then None else Some vt'))
  end.

Definition add_oui_reg_req (al : allocs) (r : reg_req) (agent : Z) (v : version_table)
  : option (Z * version_table) :=
  match vendor_ v with
  | None =>
      if al_vendor al then add_oui_in_table al r agent true v new_vendor_table
      else Some (err ENOMEM, v)
  | Some vt => add_oui_in_table al r agent false v vt
  end.

(** ** Removing a registration *)

(** Up to the label [vendor_check]. *)
Definition remove_from_class (agent c : Z) (v : version_table) : option version_table :=
  match class_ v with
  | None => Some v
  | Some ct =>
      m ← aget ct c;
      match m with
      | None => Some v
      | Some t =>
          let t' := remove_methods_mad_agent t agent in
          if check_method_table t' then
            ct' ← aput ct c (Some t'); Some (mk_version (Some ct') (vendor_ v))
          else
            ct' ← aput ct c None;
            Some (mk_version (if check_class_table ct' then Some ct' else None) (vendor_ v))
      end
  end.

(** The slot of one vendor class: whether it was released, and the vendor class
    after it. *)
Definition remove_from_slot (o : list Z) (agent : Z) (vc : vendor_class)
  : option (bool * vendor_class) :=
  match find_vendor_oui vc o with
  | None => Some (false, vc)
  | Some i =>
      m ← vc_method_table vc !! i;
      match m with
      | None => Some (false, vc)
      | Some t =>
          let t' := remove_methods_mad_agent t agent in
          if check_method_table t' then
            Some (false, mk_vendor_class (oui vc) (<[i := Some t']> (vc_method_table vc)))
          else
            Some (true, mk_vendor_class (<[i := [0; 0; 0]]> (oui vc))
                          (<[i := None]> (vc_method_table vc)))
      end
  end.

(** From the label [vendor_check] on. *)
Definition remove_from_vendor (r : reg_req) (agent : Z) (v : version_table)
  : option version_table :=
  if negb (is_vendor_class (convert_mgmt_class (mgmt_class r))) then Some v
  else
    let k := vendor_class_index (mgmt_class r) in
    match vendor_ v with
    | None => Some v
    | Some vt =>
        vco ← aget vt k;
        match vco with
        | None => Some v
        | Some vc =>
            '(released, vc') ← remove_from_slot (req_oui r) agent vc;
            if (released : bool) && negb (check_vendor_class vc') then
              vt' ← aput vt k None;
              Some (mk_version (class_ v) (if check_vendor_table vt' then Some vt' else None))
            else
              vt' ← aput vt k (Some vc'); Some (mk_version (class_ v) (Some vt'))
        end
    end.

Definition remove_mad_reg_req (r : option reg_req) (agent : Z) (port : list version_table)
  : option (list version_table) :=
  match r with
  | None => Some port
  | Some r =>
      v ← aget port (mgmt_class_version r);
      v ← remove_from_class agent (convert_mgmt_class (mgmt_class r)) v;
      v ← remove_from_vendor r agent v;
      aput port (mgmt_class_version r) v
  end.

(** ** Routing *)

(** The non-response half of [find_mad_agent]. *)
Definition find_by_class (port : list version_table) (hdr : mad_hdr) : option (option Z) :=
  let meth := Z.land (hdr_method hdr) (Z.lnot IB_MGMT_METHOD_RESP) in
  if MAX_MGMT_VERSION <=? hdr_class_version hdr then Some None
  else
    v ← aget port (hdr_class_version hdr);
    if negb (is_vendor_class (hdr_mgmt_class hdr)) then
      match class_ v with
      | None => Some None
      | Some ct =>
          let c := convert_mgmt_class (hdr_mgmt_class hdr) in
          if Z.of_nat (length ct) <=? c then Some None
          else
            m ← aget ct c;
            match m with None => Some None | Some t => aget t meth end
      end
    else
      match vendor_ v with
      | None => Some None
      | Some vt =>
          vco ← aget vt (vendor_class_index (hdr_mgmt_class hdr));
          match vco with
          | None => Some None
          | Some vc =>
              match find_vendor_oui vc (hdr_oui hdr) with
              | None => Some None
              | Some i =>
                  m ← vc_method_table vc !! i;
                  match m with None => Some None | Some t => aget t meth end
              end
          end
      end.

(** Agents as seen by [find_mad_agent]. *)
Record agents := mk_agents {
  clients : gmap Z Z;         (** [ib_mad_clients]: agents by high transaction id *)
  refcount : gmap Z Z;        (** reference count by agent *)
  has_recv_handler : Z -> bool
}.

Definition add_ref (agent d : Z) (ag : agents) : agents :=
  mk_agents (clients ag) (<[agent := default 0 (refcount ag !! agent) + d]> (refcount ag))
    (has_recv_handler ag).

Definition find_mad_agent (port : list version_table) (hdr : mad_hdr) (ag : agents)
  : option (option Z * agents) :=
  '(found, ag) ←
    (if ib_response_mad hdr then
       match clients ag !! u32 (Z.shiftr (hdr_tid hdr) 32) with
       | Some a =>
           if default 0 (refcount ag !! a) =? 0 then Some (None, ag)
           else Some (Some a, add_ref a 1 ag)
       | None => Some (None, ag)
       end
     else
       a ← find_by_class port hdr;
       Some (a, match a with Some a => add_ref a 1 ag | None => ag end));
  match found with
  | Some a =>
      if negb (has_recv_handler ag a) then Some (None, add_ref a (-1) ag)
      else Some (Some a, ag)
  | None => Some (None, ag)
  end.

(** [validate_mad]; [qp_num] is the number of the queue pair of arrival. *)
Definition validate_mad (hdr : mad_hdr) (qp_num : Z) (opa : bool) : bool :=
  if negb (hdr_base_version hdr =? IB_MGMT_BASE_VERSION)
     && (negb opa || negb (hdr_base_version hdr =? OPA_MGMT_BASE_VERSION)) then false
  else if (hdr_mgmt_class hdr =? IB_MGMT_CLASS_SUBN_LID_ROUTED)
          || (hdr_mgmt_class hdr =? IB_MGMT_CLASS_SUBN_DIRECTED_ROUTE) then qp_num =? 0
  else if (hdr_mgmt_class hdr =? IB_MGMT_CLASS_CM)
          && negb (hdr_attr_id hdr =? IB_MGMT_CLASSPORTINFO_ATTR_ID)
          && negb (hdr_method hdr =? IB_MGMT_METHOD_SEND) then false
  else negb (qp_num =? 0).

(** ** Registering and unregistering an agent *)

(** What the registration meets in its surroundings: capabilities of the port,
    whether the port and its queue pairs exist, allocations, the security module
    and [xa_alloc_cyclic]. *)
Record reg_env := mk_reg_env {
  cap_ib_smi : bool; cap_ib_cm : bool; port_found : bool; qp_present : Z -> bool;
  al_agent : bool; al_reg_req : bool; security_ret : Z; xa_ret : Z; hi_tid : Z;
  al_tables : allocs
}.

(** The checks before anything is allocated: 0, or the error. *)
Definition register_validate (e : reg_env) (qp_type : Z) (req : option reg_req) (rmpp_version : Z)
    (send_handler recv_handler : bool) (registration_flags : Z) : Z :=
  if ((qp_type =? IB_QPT_SMI) && negb (cap_ib_smi e))
     || ((qp_type =? IB_QPT_GSI) && negb (cap_ib_cm e)) then err EPROTONOSUPPORT
  else if get_spl_qp_index qp_type =? -1 then err EINVAL
  else if truthy rmpp_version && negb (rmpp_version =? IB_MGMT_RMPP_VERSION) then err EINVAL
  else
    let req_ok :=
      match req with
      | Some r =>
          let c := mgmt_class r in
          if MAX_MGMT_VERSION <=? mgmt_class_version r then false
          else if negb recv_handler then false
          else if (if MAX_MGMT_CLASS <=? c then negb (c =? IB_MGMT_CLASS_SUBN_DIRECTED_ROUTE)
                   else if c =? 0 then true
                   else if is_vendor_class c then negb (is_vendor_oui (req_oui r))
                   else false) then false
          else if negb (ib_is_mad_class_rmpp c) && truthy rmpp_version then false
          else if qp_type =? IB_QPT_SMI then
            (c =? IB_MGMT_CLASS_SUBN_LID_ROUTED) || (c =? IB_MGMT_CLASS_SUBN_DIRECTED_ROUTE)
          else
            negb ((c =? IB_MGMT_CLASS_SUBN_LID_ROUTED) || (c =? IB_MGMT_CLASS_SUBN_DIRECTED_ROUTE))
      | None => send_handler && negb (has_flag registration_flags IB_MAD_USER_RMPP)
      end in
    if negb req_ok then err EINVAL
    else if negb (port_found e) then err ENODEV
    else if negb (qp_present e (get_spl_qp_index qp_type)) then err EPROTONOSUPPORT
    else 0.

(** The insertion of the request into the tables of the port, under [reg_lock]. *)
Definition add_reg_req (al : allocs) (r : reg_req) (agent : Z) (port : list version_table)
  : option (Z * list version_table) :=
  let c := convert_mgmt_class (mgmt_class r) in
  v ← aget port (mgmt_class_version r);
  if negb (is_vendor_class c) then
    in_use ← (match class_ v with
              | None => Some false
              | Some ct =>
                  m ← aget ct c;
                  Some (match m with Some t => method_in_use t (method_mask r) | None => false end)
              end);
    if (in_use : bool) then Some (err EINVAL, port)
    else
      '(ret, v') ← add_nonoui_reg_req al r agent c v;
      port' ← aput port (mgmt_class_version r) v'; Some (ret, port')
  else
    in_use ← (match vendor_ v with
              | None => Some false
              | Some vt =>
                  vco ← aget vt (vendor_class_index c);
                  Some (match vco with Some vc => is_vendor_method_in_use vc r | None => false end)
              end);
    if (in_use : bool) then Some (err EINVAL, port)
    else
      '(ret, v') ← add_oui_reg_req al r agent v;
      port' ← aput port (mgmt_class_version r) v'; Some (ret, port').

Definition ib_register_mad_agent (e : reg_env) (qp_type : Z) (req : option reg_req)
    (rmpp_version : Z) (send_handler recv_handler : bool) (registration_flags agent : Z)
    (port : list version_table) (ag : agents) : option (Z * list version_table * agents) :=
  let ret := register_validate e qp_type req rmpp_version send_handler recv_handler
               registration_flags in
  if negb (ret =? 0) then Some (ret, port, ag)
  else if negb (al_agent e) then Some (err ENOMEM, port, ag)
  else if bool_decide (is_Some req) && negb (al_reg_req e) then Some (err ENOMEM, port, ag)
  else if negb (security_ret e =? 0) then Some (security_ret e, port, ag)
  else if xa_ret e <? 0 then Some (xa_ret e, port, ag)
  else
    let ag1 := mk_agents (<[hi_tid e := agent]> (clients ag)) (<[agent := 1]> (refcount ag))
                 (fun a => if a =? agent then recv_handler else has_recv_handler ag a) in
    match req with
    | None => Some (0, port, ag1)
    | Some r =>
        '(ret, port') ← add_reg_req (al_tables e) r agent port;
        if ret =? 0 then Some (0, port', ag1)
        else Some (ret, port', mk_agents (delete (hi_tid e) (clients ag1)) (refcount ag)
                                 (has_recv_handler ag))
    end.

(** The part of [unregister_mad_agent] that changes tables and counts. *)
Definition unregister_mad_agent (req : option reg_req) (hi agent : Z)
    (port : list version_table) (ag : agents) : option (list version_table * agents) :=
  port' ← remove_mad_reg_req req agent port;
  Some (port', add_ref agent (-1)
                 (mk_agents (delete hi (clients ag)) (refcount ag) (has_recv_handler ag))).

(** ** Well-formed tables *)

Definition wf_mt (t : method_table) : Prop := length t = IB_MGMT_MAX_METHODS.

Definition wf_slot (m : option method_table) : Prop := forall t, m = Some t -> wf_mt t.

Definition wf_ct (ct : class_table) : Prop :=
  length ct = Z.to_nat MAX_MGMT_CLASS /\ Forall wf_slot ct.

(** In a vendor class the slots with an OUI are those with a method table, and no
    OUI has two slots. *)
Record wf_vc (vc : vendor_class) : Prop := {
  wv_oui : length (oui vc) = MAX_MGMT_OUI;
  wv_len : length (vc_method_table vc) = MAX_MGMT_OUI;
  wv_slots : Forall wf_slot (vc_method_table vc);
  wv_used i o m : oui vc !! i = Some o -> vc_method_table vc !! i = Some m ->
    is_vendor_oui o = bool_decide (is_Some m);
  wv_uniq i j o : oui vc !! i = Some o -> oui vc !! j = Some o -> is_vendor_oui o = true -> i = j
}.

Definition wf_vt (vt : vendor_table) : Prop :=
  length vt = MAX_MGMT_VENDOR_RANGE2 /\ Forall (fun x => forall vc, x = Some vc -> wf_vc vc) vt.

Definition wf_version (v : version_table) : Prop :=
  (forall ct, class_ v = Some ct -> wf_ct ct) /\ (forall vt, vendor_ v = Some vt -> wf_vt vt).

Definition wf_port (port : list version_table) : Prop :=
  length port = Z.to_nat MAX_MGMT_VERSION /\ Forall wf_version port.

(** A request that passed validation. *)
Definition req_ok (r : reg_req) : Prop :=
  0 <= mgmt_class_version r < MAX_MGMT_VERSION /\
  (0 < mgmt_class r < MAX_MGMT_CLASS \/ mgmt_class r = IB_MGMT_CLASS_SUBN_DIRECTED_ROUTE) /\
  (is_vendor_class (mgmt_class r) = true -> is_vendor_oui (req_oui r) = true).

(** The fields of a received header are bytes. *)
Definition hdr_ok (h : mad_hdr) : Prop :=
  0 <= hdr_mgmt_class h < 256 /\ 0 <= hdr_class_version h < 256 /\ 0 <= hdr_method h < 256.

(** ** The tables as a map *)

Definition vc_table (vc : vendor_class) (o : list Z) : option method_table :=
  i ← find_vendor_oui vc o; mjoin (vc_method_table vc !! i).

Definition v_table (v : version_table) (c : Z) (o : list Z) : option method_table :=
  if is_vendor_class c then
    vt ← vendor_ v; vc ← mjoin (aget vt (vendor_class_index c)); vc_table vc o
  else ct ← class_ v; mjoin (aget ct (convert_mgmt_class c)).

Definition port_table (port : list version_table) (ver c : Z) (o : list Z) : option method_table :=
  v ← aget port ver; v_table v c o.

(** The method a header asks for. *)
Definition hdr_meth (h : mad_hdr) : nat :=
  Z.to_nat (Z.land (hdr_method h) (Z.lnot IB_MGMT_METHOD_RESP)).

(** The key of a header is the key of a request. *)
Definition same_class (r : reg_req) (c : Z) (o : list Z) : Prop :=
  convert_mgmt_class c = convert_mgmt_class (mgmt_class r) /\
  (is_vendor_class c = true -> o = req_oui r).

Definition same_key (r : reg_req) (ver c : Z) (o : list Z) : Prop :=
  ver = mgmt_class_version r /\ same_class r c o.

#[export] Instance same_class_dec r c o : Decision (same_class r c o).
Proof.
  unfold same_class. destruct (is_vendor_class c); [solve_decision|].
  destruct (decide (convert_mgmt_class c = convert_mgmt_class (mgmt_class r)));
    [left; done|right; intros [? _]; done].
Defined.
#[export] Instance same_key_dec r ver c o : Decision (same_key r ver c o).
Proof. unfold same_key. solve_decision. Defined.

(** ** Lemmas *)

Lemma aget_Some {A} (l : list A) i x : aget l i = Some x <-> 0 <= i /\ l !! Z.to_nat i = Some x.
Proof. unfold aget. destruct (Z.ltb_spec i 0); split; intros; destruct_and?; try done; lia. Qed.

Lemma aget_ok {A} (l : list A) i : 0 <= i < Z.of_nat (length l) -> exists x, aget l i = Some x.
Proof.
  intros Hi. destruct (lookup_lt_is_Some_2 l (Z.to_nat i)) as [v Hv]; [lia|].
  exists v. apply aget_Some. split; [lia|done].
Qed.

Lemma aget_range {A} (l : list A) i x : aget l i = Some x -> 0 <= i < Z.of_nat (length l).
Proof. intros [? ?%lookup_lt_Some]%aget_Some. lia. Qed.

Lemma aput_ok {A} (l : list A) i x :
  0 <= i < Z.of_nat (length l) -> aput l i x = Some (<[Z.to_nat i := x]> l).
Proof.
  intros Hi. unfold aput. rewrite (proj2 (Z.ltb_ge _ _)), (proj2 (Z.leb_gt _ _)) by lia. done.
Qed.

Lemma aget_insert {A} (l : list A) i j x :
  0 <= i < Z.of_nat (length l) ->
  aget (<[Z.to_nat i := x]> l) j = if bool_decide (j = i) then Some x else aget l j.
Proof.
  intros Hi. unfold aget. destruct (Z.ltb_spec j 0); case_bool_decide; try done; try lia.
  - subst. rewrite list_lookup_insert_eq by lia. done.
  - rewrite list_lookup_insert_ne by lia. done.
Qed.

Lemma aget_replicate_None {A} n i : mjoin (aget (replicate n (@None A)) i) = None.
Proof.
  unfold aget. destruct (i <? 0); [done|].
  destruct (replicate n None !! Z.to_nat i) eqn:E; [|done].
  apply lookup_replicate in E as [-> _]. done.
Qed.

(** *** Method tables *)

Lemma set_bits_elem mask i :
  i ∈ set_bits mask <-> (i < IB_MGMT_MAX_METHODS)%nat /\ Z.testbit mask (Z.of_nat i) = true.
Proof.
  unfold set_bits. rewrite list_elem_of_filter, elem_of_seq. split; intros [? ?]; split; done || lia.
Qed.

Lemma agent_at_set_methods t mask a i :
  wf_mt t ->
  agent_at (set_methods t mask a) i =
  if bool_decide (i ∈ set_bits mask) then Some a else agent_at t i.
Proof.
  intros Ht. unfold set_methods.
  assert (forall j, j ∈ set_bits mask -> (j < length t)%nat) as Hb
    by (intros j [? _]%set_bits_elem; unfold wf_mt in Ht; lia).
  revert t Ht Hb. induction (set_bits mask) as [|j l IH]; intros t Ht Hb; cbn [foldl].
  { rewrite bool_decide_eq_false_2; [done|apply not_elem_of_nil]. }
  rewrite IH.
  - unfold agent_at. destruct (decide (i = j)) as [->|Hne].
    + rewrite list_lookup_insert_eq by (apply Hb; left).
      rewrite (bool_decide_eq_true_2 (j ∈ j :: l)) by left. by case_bool_decide.
    + rewrite list_lookup_insert_ne by done.
      case_bool_decide; case_bool_decide as H2; try done;
        [by exfalso; apply H2; right|by apply elem_of_cons in H2 as [?|?]].
  - unfold wf_mt. by rewrite length_insert.
  - intros k Hk. rewrite length_insert. apply Hb. by right.
Qed.

Lemma length_set_methods t mask a : length (set_methods t mask a) = length t.
Proof.
  unfold set_methods. revert t. induction (set_bits mask) as [|j l IH]; intros t; cbn [foldl]; [done|].
  by rewrite IH, length_insert.
Qed.

Lemma agent_at_remove t a i :
  agent_at (remove_methods_mad_agent t a) i =
  if bool_decide (agent_at t i = Some a) then None else agent_at t i.
Proof.
  unfold agent_at, remove_methods_mad_agent. rewrite list_lookup_fmap.
  destruct (t !! i) as [[b|]|]; cbn; repeat case_bool_decide; congruence.
Qed.

Lemma agent_at_unused t i : check_method_table t = false -> agent_at t i = None.
Proof.
  intros H. unfold agent_at. destruct (t !! i) as [[b|]|] eqn:E; [|done..].
  unfold check_method_table in H. rewrite <- not_true_iff_false in H. exfalso. apply H.
  apply existsb_exists. exists (Some b). split; [|by apply bool_decide_eq_true].
  apply list_elem_of_In. by eapply list_elem_of_lookup_2.
Qed.

Lemma wf_new_mt : wf_mt new_method_table.
Proof. apply length_replicate. Qed.

Lemma agent_at_new i : agent_at new_method_table i = None.
Proof.
  apply agent_at_unused. vm_compute. reflexivity.
Qed.

Lemma method_not_in_use_new mask : method_in_use new_method_table mask = false.
Proof.
  unfold method_in_use. rewrite <- not_true_iff_false, existsb_exists. intros (i & _ & H).
  rewrite agent_at_new in H. by apply bool_decide_eq_true, is_Some_None in H.
Qed.

Lemma wf_set_methods t mask a : wf_mt t -> wf_mt (set_methods t mask a).
Proof. unfold wf_mt. by rewrite length_set_methods. Qed.

Lemma wf_slot_set t mask a : wf_mt t -> wf_slot (Some (set_methods t mask a)).
Proof. intros Ht t' [= <-]. unfold wf_mt. by rewrite length_set_methods. Qed.

Lemma wf_slot_remove t a : wf_mt t -> wf_slot (Some (remove_methods_mad_agent t a)).
Proof. intros Ht t' [= <-]. unfold wf_mt, remove_methods_mad_agent. by rewrite length_fmap. Qed.

Lemma wf_slot_None : wf_slot None.
Proof. done. Qed.

Create HintDb madreg.
#[export] Hint Resolve wf_set_methods wf_slot_set wf_slot_remove wf_slot_None wf_new_mt : madreg.

(** *** Routing by the tables *)

Lemma hdr_meth_range h : hdr_ok h ->
  0 <= Z.land (hdr_method h) (Z.lnot IB_MGMT_METHOD_RESP) < 128.
Proof.
  intros (_ & _ & Hm). change (Z.lnot IB_MGMT_METHOD_RESP) with (Z.lnot (Z.shiftl 1 7)).
  rewrite <- Z.ldiff_land. rewrite Z.shiftl_1_l.
  assert (0 <= Z.ldiff (hdr_method h) (2 ^ 7)) by (apply Z.ldiff_nonneg; lia).
  split; [done|]. destruct (decide (Z.ldiff (hdr_method h) (2 ^ 7) = 0)) as [->|Hn]; [lia|].
  change 128 with (2 ^ 7). apply Z.log2_lt_pow2; [lia|].
  destruct (Z.lt_ge_cases (Z.log2 (Z.ldiff (hdr_method h) (2 ^ 7))) 7) as [|Hge]; [done|].
  exfalso. pose proof (Z.bit_log2 (Z.ldiff (hdr_method h) (2 ^ 7)) ltac:(lia)) as Hb.
  set (k := Z.log2 _) in *. rewrite Z.ldiff_spec in Hb. apply andb_true_iff in Hb as [Hb Hp].
  destruct (decide (k = 7)) as [->|].
  - by rewrite Z.pow2_bits_true in Hp by lia.
  - rewrite (testbit_high 8) in Hb; [done|simpl; lia|lia].
Qed.

Lemma vendor_range c : is_vendor_class c = true <-> 0x30 <= c <= 0x4F.
Proof.
  unfold is_vendor_class, IB_MGMT_CLASS_VENDOR_RANGE2_START, IB_MGMT_CLASS_VENDOR_RANGE2_END.
  destruct (Z.ltb_spec c 0x30), (Z.ltb_spec 0x4F c); simpl; split; intros; try done; lia.
Qed.

Lemma convert_vendor c : is_vendor_class (convert_mgmt_class c) = is_vendor_class c.
Proof. unfold convert_mgmt_class. destruct (Z.eqb_spec c IB_MGMT_CLASS_SUBN_DIRECTED_ROUTE); by subst. Qed.

Lemma convert_vendor_id c : is_vendor_class c = true -> convert_mgmt_class c = c.
Proof.
  intros Hv%vendor_range. unfold convert_mgmt_class, IB_MGMT_CLASS_SUBN_DIRECTED_ROUTE.
  destruct (Z.eqb_spec c 0x81); [lia|done].
Qed.

Lemma aget_meth t h : wf_mt t -> hdr_ok h ->
  aget t (Z.land (hdr_method h) (Z.lnot IB_MGMT_METHOD_RESP)) = Some (agent_at t (hdr_meth h)).
Proof.
  intros Ht Hh. pose proof (hdr_meth_range h Hh) as Hr.
  destruct (aget_ok t (Z.land (hdr_method h) (Z.lnot IB_MGMT_METHOD_RESP))) as [x Hx].
  { unfold wf_mt, IB_MGMT_MAX_METHODS in Ht. lia. }
  rewrite Hx. apply aget_Some in Hx as [_ Hx]. unfold agent_at, hdr_meth. by rewrite Hx.
Qed.

Lemma wf_ct_get ct c : wf_ct ct -> 0 <= c < MAX_MGMT_CLASS ->
  exists m, aget ct c = Some m /\ wf_slot m.
Proof.
  intros [Hl Hf] Hc. destruct (aget_ok ct c) as [m Hm]; [unfold MAX_MGMT_CLASS in *; lia|].
  exists m. split; [done|]. apply aget_Some in Hm as [_ Hm]. exact (Forall_lookup_1 _ _ _ _ Hf Hm).
Qed.

Lemma wf_vt_get vt k : wf_vt vt -> 0 <= k < 32 ->
  exists m, aget vt k = Some m /\ (forall vc, m = Some vc -> wf_vc vc).
Proof.
  intros [Hl Hf] Hc. destruct (aget_ok vt k) as [m Hm]; [unfold MAX_MGMT_VENDOR_RANGE2 in *; lia|].
  exists m. split; [done|]. apply aget_Some in Hm as [_ Hm]. exact (Forall_lookup_1 _ _ _ _ Hf Hm).
Qed.

Lemma wf_port_get p v : wf_port p -> 0 <= v < MAX_MGMT_VERSION ->
  exists x, aget p v = Some x /\ wf_version x.
Proof.
  intros [Hl Hf] Hc. destruct (aget_ok p v) as [x Hx]; [unfold MAX_MGMT_VERSION in *; lia|].
  exists x. split; [done|]. apply aget_Some in Hx as [_ Hx]. exact (Forall_lookup_1 _ _ _ _ Hf Hx).
Qed.

Lemma find_vendor_oui_Some vc o i :
  find_vendor_oui vc o = Some i -> oui vc !! i = Some o.
Proof.
  unfold find_vendor_oui. intros ([j x] & Hj & [= ->])%fmap_Some.
  by apply list_find_Some in Hj as (? & -> & _).
Qed.

Lemma find_vendor_oui_slot vc o i : wf_vc vc -> find_vendor_oui vc o = Some i ->
  exists m, vc_method_table vc !! i = Some m /\ wf_slot m.
Proof.
  intros W Hi%find_vendor_oui_Some%lookup_lt_Some.
  destruct (lookup_lt_is_Some_2 (vc_method_table vc) i) as [m Hm].
  { rewrite (wv_len _ W), <- (wv_oui _ W). done. }
  exists m. split; [done|]. exact (Forall_lookup_1 _ _ _ _ (wv_slots _ W) Hm).
Qed.

(** A vendor class is a partial map from OUIs to tables. *)
Lemma vc_table_Some vc o t : wf_vc vc ->
  vc_table vc o = Some t <-> exists i, oui vc !! i = Some o /\ vc_method_table vc !! i = Some (Some t).
Proof.
  intros W. unfold vc_table. split.
  - intros (i & Hi & Hm)%bind_Some. exists i. split; [by apply find_vendor_oui_Some|].
    destruct (vc_method_table vc !! i) as [m|]; [by simplify_eq/=|done].
  - intros (i & Hi & Hm). pose proof (wv_used _ W _ _ _ Hi Hm) as Hu.
    rewrite bool_decide_eq_true_2 in Hu by eauto.
    destruct (find_vendor_oui vc o) as [j|] eqn:Ej; cbn.
    + apply find_vendor_oui_Some in Ej. rewrite (wv_uniq _ W _ _ _ Ej Hi Hu), Hm. done.
    + unfold find_vendor_oui in Ej. apply fmap_None in Ej.
      apply list_find_None in Ej. by destruct (Forall_lookup_1 _ _ _ _ Ej Hi).
Qed.

Lemma find_by_class_table p h :
  wf_port p -> hdr_ok h ->
  find_by_class p h =
  Some (t ← (if MAX_MGMT_VERSION <=? hdr_class_version h then None
             else port_table p (hdr_class_version h) (hdr_mgmt_class h) (hdr_oui h));
        agent_at t (hdr_meth h)).
Proof.
  intros Wp Hh. unfold find_by_class.
  destruct (Z.leb_spec MAX_MGMT_VERSION (hdr_class_version h)); [done|].
  destruct (wf_port_get p (hdr_class_version h) Wp) as (v & Hv & [Wc Wv]); [destruct Hh as (_ & ? & _); lia|].
  unfold port_table, v_table. rewrite Hv. cbn [mbind option_bind].
  destruct (is_vendor_class (hdr_mgmt_class h)) eqn:Ev; cbn [negb].
  - destruct (vendor_ v) as [vt|]; [|done]. cbn [mbind option_bind].
    apply vendor_range in Ev.
    destruct (wf_vt_get vt (vendor_class_index (hdr_mgmt_class h))) as (m & -> & Wm);
      [by apply Wv|unfold vendor_class_index, IB_MGMT_CLASS_VENDOR_RANGE2_START; lia|].
    cbn [mbind option_bind mjoin option_join]. destruct m as [vc|]; [|done]. cbn [mbind option_bind].
    unfold vc_table. destruct (find_vendor_oui vc (hdr_oui h)) as [i|] eqn:Ei; [|done].
    destruct (find_vendor_oui_slot vc (hdr_oui h) i (Wm vc eq_refl) Ei) as (m & Em & Ws).
    cbn [mbind option_bind]. rewrite !Em. cbn [mbind option_bind mjoin option_join]. destruct m as [t|]; [|done]. cbn [mbind option_bind].
    by apply aget_meth; [apply Ws|].
  - destruct (class_ v) as [ct|]; [|done]. cbn [mbind option_bind].
    destruct (Wc ct eq_refl) as [Hl Hf]. rewrite Hl, Z2Nat.id by done.
    destruct (Z.leb_spec MAX_MGMT_CLASS (convert_mgmt_class (hdr_mgmt_class h))) as [Hc|Hc].
    + unfold aget. destruct (_ <? 0); [done|].
      rewrite lookup_ge_None_2; [done|]. unfold MAX_MGMT_CLASS in *. lia.
    + destruct (wf_ct_get ct (convert_mgmt_class (hdr_mgmt_class h))) as (m & -> & Ws); [done| |].
      { split; [|done]. unfold convert_mgmt_class. case_cond; [lia|]. apply Hh. }
      cbn [mbind option_bind mjoin option_join]. destruct m as [t|]; [|done]. cbn [mbind option_bind].
      by apply aget_meth; [apply Ws|].
Qed.

(** *** Adding *)

Lemma add_methods_free t mask a :
  method_in_use t mask = false -> add_methods t mask a = (0, Some (set_methods t mask a)).
Proof. intros H. unfold add_methods. by rewrite H. Qed.

Lemma wf_new_ct : wf_ct new_class_table.
Proof. split; [done|]. apply Forall_replicate. done. Qed.

Lemma wf_ct_put ct c m : wf_ct ct -> wf_slot m -> 0 <= c < MAX_MGMT_CLASS ->
  aput ct c m = Some (<[Z.to_nat c := m]> ct) /\ wf_ct (<[Z.to_nat c := m]> ct).
Proof.
  intros [Hl Hf] Hm Hc. split.
  - apply aput_ok. unfold MAX_MGMT_CLASS in *. lia.
  - split; [by rewrite length_insert|]. by apply Forall_insert.
Qed.

Lemma set_class_table v c m ct cls o :
  wf_ct ct -> 0 <= c < MAX_MGMT_CLASS ->
  v_table (mk_version (Some (<[Z.to_nat c := m]> ct)) (vendor_ v)) cls o =
  if bool_decide (is_vendor_class cls = false /\ convert_mgmt_class cls = c) then m
  else v_table (mk_version (Some ct) (vendor_ v)) cls o.
Proof.
  intros [Hl _] Hc. unfold v_table. cbn [class_ vendor_].
  destruct (is_vendor_class cls).
  { rewrite bool_decide_eq_false_2 by (by intros [? _]). done. }
  cbn [mbind option_bind]. rewrite aget_insert by (unfold MAX_MGMT_CLASS in *; lia).
  case_bool_decide as E1; case_bool_decide as E2; try done; exfalso; intuition congruence.
Qed.

Definition free_in (m : option method_table) (mask : Z) : Prop :=
  forall t, m = Some t -> method_in_use t mask = false.

Lemma free_add m mask a :
  free_in m mask ->
  add_methods (default new_method_table m) mask a =
  (0, Some (set_methods (default new_method_table m) mask a)).
Proof.
  intros Hf. apply add_methods_free. destruct m as [t|]; [by apply Hf|apply method_not_in_use_new].
Qed.

Lemma wf_default m : wf_slot m -> wf_mt (default new_method_table m).
Proof. intros Hm. destruct m; [by apply Hm|apply wf_new_mt]. Qed.

Lemma v_table_no_class v cls o :
  class_ v = None ->
  v_table (mk_version (Some new_class_table) (vendor_ v)) cls o = v_table v cls o.
Proof.
  intros E. unfold v_table. cbn [class_ vendor_]. rewrite E.
  destruct (is_vendor_class cls); [done|]. cbn [mbind option_bind]. apply aget_replicate_None.
Qed.

Lemma add_nonoui_spec al r a c v :
  wf_version v -> 0 <= c < MAX_MGMT_CLASS -> is_vendor_class c = false -> convert_mgmt_class c = c ->
  free_in (v_table v c []) (method_mask r) ->
  exists ret v', add_nonoui_reg_req al r a c v = Some (ret, v') /\ wf_version v' /\
    (ret = 0 -> forall cls o, v_table v' cls o =
       if bool_decide (is_vendor_class cls = false /\ convert_mgmt_class cls = c)
       then Some (set_methods (default new_method_table (v_table v cls o)) (method_mask r) a)
       else v_table v cls o) /\
    (ret <> 0 -> v' = v).
Proof.
  intros [Wc Wv] Hc Hnv Hcc Hfree. unfold add_nonoui_reg_req.
  assert (forall ct m, wf_ct ct -> (forall cls o, v_table (mk_version (Some ct) (vendor_ v)) cls o = v_table v cls o) ->
    v_table v c [] = m -> wf_slot m ->
    exists ret v', (let '(ret, m) := add_methods (default new_method_table m) (method_mask r) a in
       ct ← aput ct c m; Some (ret, mk_version (Some ct) (vendor_ v))) = Some (ret, v') /\
     wf_version v' /\
     (ret = 0 -> forall cls o, v_table v' cls o =
       if bool_decide (is_vendor_class cls = false /\ convert_mgmt_class cls = c)
       then Some (set_methods (default new_method_table (v_table v cls o)) (method_mask r) a)
       else v_table v cls o) /\ (ret <> 0 -> v' = v)) as Key.
  { intros ct m Wct Hsame Hm Hs. rewrite free_add by (by rewrite <- Hm).
    destruct (wf_ct_put ct c (Some (set_methods (default new_method_table m) (method_mask r) a)))
      as [-> Wct']; [done|by apply wf_slot_set, wf_default|done|].
    cbn [mbind option_bind]. eexists _, _. split; [done|]. split; [split; [by intros ? [= <-]|exact Wv]|].
    split; [|done]. intros _ cls o. rewrite set_class_table, Hsame by done.
    case_bool_decide as E; [|done]. do 3 f_equal. destruct E as [E1 E2].
    rewrite <- Hm. unfold v_table. by rewrite Hnv, E1, E2, Hcc. }
  destruct (class_ v) as [ct|] eqn:Ec.
  - destruct (wf_ct_get ct c (Wc ct eq_refl) Hc) as (m & Em & Ws). rewrite Em. cbn [mbind option_bind].
    assert (v_table v c [] = m) as Hm.
    { unfold v_table. rewrite Hnv, Ec, Hcc. cbn [mbind option_bind]. by rewrite Em. }
    assert (forall cls o, v_table (mk_version (Some ct) (vendor_ v)) cls o = v_table v cls o) as Hs
      by (intros; unfold v_table; by rewrite Ec).
    specialize (Key ct m (Wc ct eq_refl) Hs Hm Ws).
    destruct m as [t|]; [exact Key|].
    destruct (al_method al); cbn [negb]; [exact Key|].
    eexists _, _. split; [done|]. split; [by split; rewrite ?Ec|]. split; [done|done].
  - destruct (al_class al); cbn [negb];
      [|eexists _, _; split; [done|]; split; [by split; rewrite ?Ec|split; done]].
    destruct (al_method al); cbn [negb].
    + apply (Key new_class_table None wf_new_ct); [|by unfold v_table; rewrite Hnv, Ec|done].
      intros. by apply v_table_no_class.
    + eexists _, _. split; [done|]. assert (mk_version None (vendor_ v) = v) as ->
        by (by destruct v; simplify_eq/=). split; [by split; rewrite ?Ec|split; done].
Qed.

Lemma wf_new_vc : wf_vc new_vendor_class.
Proof.
  split; try done.
  - apply Forall_replicate. done.
  - intros i o m [-> _]%lookup_replicate [-> _]%lookup_replicate. done.
  - intros i j o [-> _]%lookup_replicate _ H. done.
Qed.

Lemma vc_table_new o : vc_table new_vendor_class o = None.
Proof.
  destruct (vc_table new_vendor_class o) as [t|] eqn:E; [|done].
  apply (vc_table_Some _ _ _ wf_new_vc) in E as (i & _ & [? _]%lookup_replicate). done.
Qed.

(** Changing the table of an OUI that has a slot. *)
Lemma wf_vc_update vc i o t :
  wf_vc vc -> oui vc !! i = Some o -> is_vendor_oui o = true -> wf_mt t ->
  let vc' := mk_vendor_class (oui vc) (<[i := Some t]> (vc_method_table vc)) in
  wf_vc vc' /\ forall o', vc_table vc' o' = if bool_decide (o' = o) then Some t else vc_table vc o'.
Proof.
  intros W Hi Ho Ht vc'. pose proof (lookup_lt_Some _ _ _ Hi) as Hlt.
  rewrite (wv_oui _ W), <- (wv_len _ W) in Hlt.
  assert (wf_vc vc') as W'.
  { split; cbn; try apply W.
    - rewrite length_insert. apply W.
    - apply Forall_insert; [apply W|]. by intros ? [= <-].
    - intros j o1 m Hj Hm. destruct (decide (i = j)) as [<-|Hne].
      + rewrite list_lookup_insert_eq in Hm by done. simplify_eq.
        by rewrite bool_decide_eq_true_2 by eauto.
      + rewrite list_lookup_insert_ne in Hm by done. by apply (wv_used _ W j). }
  split; [done|]. intros o'. apply option_eq. intros t'. rewrite (vc_table_Some vc') by done. cbn.
  case_bool_decide as E.
  - subst o'. split.
    + intros (j & Hj & Hm). rewrite <- (wv_uniq _ W _ _ _ Hi Hj Ho) in Hm.
      rewrite list_lookup_insert_eq in Hm by done. congruence.
    + intros [= <-]. exists i. by rewrite list_lookup_insert_eq by done.
  - rewrite (vc_table_Some vc) by done. split; intros (j & Hj & Hm); exists j; (split; [done|]).
    + rewrite list_lookup_insert_ne in Hm by congruence. done.
    + rewrite list_lookup_insert_ne by congruence. done.
Qed.

(** Filling a free slot. *)
Lemma wf_vc_fill vc i z o t :
  wf_vc vc -> oui vc !! i = Some z -> is_vendor_oui z = false -> is_vendor_oui o = true ->
  (forall j, oui vc !! j <> Some o) -> wf_mt t ->
  let vc' := mk_vendor_class (<[i := o]> (oui vc)) (<[i := Some t]> (vc_method_table vc)) in
  wf_vc vc' /\ forall o', vc_table vc' o' = if bool_decide (o' = o) then Some t else vc_table vc o'.
Proof.
  intros W Hi Hz Ho Hnew Ht vc'. pose proof (lookup_lt_Some _ _ _ Hi) as Hlt.
  assert (i < length (vc_method_table vc))%nat as Hlt' by (rewrite (wv_len _ W), <- (wv_oui _ W); done).
  assert (wf_vc vc') as W'.
  { split; cbn.
    - rewrite length_insert. apply W.
    - rewrite length_insert. apply W.
    - apply Forall_insert; [apply W|]. by intros ? [= <-].
    - intros j o1 m Hj Hm. destruct (decide (i = j)) as [<-|Hne].
      + rewrite list_lookup_insert_eq in Hj by done; rewrite list_lookup_insert_eq in Hm by done. simplify_eq.
        by rewrite bool_decide_eq_true_2 by eauto.
      + rewrite list_lookup_insert_ne in Hj by done; rewrite list_lookup_insert_ne in Hm by done. by apply (wv_used _ W j).
    - intros j k o1 Hj Hk Ho1.
      destruct (decide (i = j)) as [<-|H1], (decide (i = k)) as [<-|H2]; try done;
        rewrite ?list_lookup_insert_eq in Hj by done; rewrite ?list_lookup_insert_eq in Hk by done;
        rewrite ?list_lookup_insert_ne in Hj by done; rewrite ?list_lookup_insert_ne in Hk by done; simplify_eq;
        [by destruct (Hnew k)|by destruct (Hnew j)|by apply (wv_uniq _ W j k o1)]. }
  split; [done|]. intros o'. apply option_eq. intros t'. rewrite (vc_table_Some vc') by done. cbn.
  case_bool_decide as E.
  - subst o'. split.
    + intros (j & Hj & Hm). destruct (decide (i = j)) as [<-|Hne].
      * rewrite list_lookup_insert_eq in Hm by done. congruence.
      * rewrite list_lookup_insert_ne in Hj by done. by destruct (Hnew j).
    + intros [= <-]. exists i. by rewrite !list_lookup_insert_eq by done.
  - rewrite (vc_table_Some vc) by done. split; intros (j & Hj & Hm); exists j.
    + destruct (decide (i = j)) as [<-|Hne].
      * rewrite list_lookup_insert_eq in Hj by done. congruence.
      * rewrite list_lookup_insert_ne in Hj by done; rewrite list_lookup_insert_ne in Hm by done. done.
    + destruct (decide (i = j)) as [<-|Hne]; [|by rewrite !list_lookup_insert_ne by done].
      pose proof (wv_used _ W _ _ _ Hj Hm) as Hu. rewrite Hi in Hj. injection Hj as ->.
      rewrite Hz, bool_decide_eq_true_2 in Hu by eauto. done.
Qed.

(** Emptying a slot. *)
Lemma wf_vc_clear vc i o :
  wf_vc vc -> oui vc !! i = Some o -> is_vendor_oui o = true ->
  let vc' := mk_vendor_class (<[i := [0; 0; 0]]> (oui vc)) (<[i := None]> (vc_method_table vc)) in
  wf_vc vc' /\ forall o', vc_table vc' o' = if bool_decide (o' = o) then None else vc_table vc o'.
Proof.
  intros W Hi Ho vc'. pose proof (lookup_lt_Some _ _ _ Hi) as Hlt.
  assert (i < length (vc_method_table vc))%nat as Hlt' by (rewrite (wv_len _ W), <- (wv_oui _ W); done).
  assert (wf_vc vc') as W'.
  { split; cbn.
    - rewrite length_insert. apply W.
    - rewrite length_insert. apply W.
    - apply Forall_insert; [apply W|done].
    - intros j o1 m Hj Hm. destruct (decide (i = j)) as [<-|Hne].
      + rewrite list_lookup_insert_eq in Hj by done; rewrite list_lookup_insert_eq in Hm by done. by simplify_eq.
      + rewrite list_lookup_insert_ne in Hj by done; rewrite list_lookup_insert_ne in Hm by done. by apply (wv_used _ W j).
    - intros j k o1 Hj Hk Ho1.
      destruct (decide (i = j)) as [<-|H1]; [rewrite list_lookup_insert_eq in Hj by done; by simplify_eq|].
      destruct (decide (i = k)) as [<-|H2]; [rewrite list_lookup_insert_eq in Hk by done; by simplify_eq|].
      rewrite list_lookup_insert_ne in Hj by done; rewrite list_lookup_insert_ne in Hk by done. by apply (wv_uniq _ W j k o1). }
  split; [done|]. intros o'. apply option_eq. intros t'. rewrite (vc_table_Some vc') by done. cbn.
  case_bool_decide as E.
  - subst o'. split; [|done]. intros (j & Hj & Hm). destruct (decide (i = j)) as [<-|Hne].
    + rewrite list_lookup_insert_eq in Hm by done. done.
    + rewrite list_lookup_insert_ne in Hj by done. by destruct Hne; apply (wv_uniq _ W i j o).
  - rewrite (vc_table_Some vc) by done. split; intros (j & Hj & Hm); exists j.
    + destruct (decide (i = j)) as [<-|Hne].
      * rewrite list_lookup_insert_eq in Hm by done. done.
      * rewrite list_lookup_insert_ne in Hj by done; rewrite list_lookup_insert_ne in Hm by done. done.
    + rewrite !list_lookup_insert_ne by congruence. done.
Qed.

Lemma vendor_in_use_false vc r t :
  wf_vc vc -> is_vendor_oui (req_oui r) = true -> is_vendor_method_in_use vc r = false ->
  vc_table vc (req_oui r) = Some t -> method_in_use t (method_mask r) = false.
Proof.
  intros W Ho Hu (i & Hi & Hm)%vc_table_Some; [|done].
  assert (forall j, (j < i)%nat -> oui vc !! j <> Some (req_oui r)) as Hfirst.
  { intros j Hj Hoj. pose proof (wv_uniq _ W _ _ _ Hi Hoj Ho). lia. }
  unfold is_vendor_method_in_use in Hu. clear W.
  revert i Hi Hm Hfirst Hu. generalize (oui vc), (vc_method_table vc).
  induction l as [|o l IH]; intros ms i Hi Hm Hfirst Hu; [done|].
  destruct ms as [|m ms]; [done|]. destruct i as [|i]; simplify_eq/=.
  - by rewrite bool_decide_eq_true_2 in Hu by done.
  - rewrite bool_decide_eq_false_2 in Hu by (intros ->; by apply (Hfirst 0%nat); [lia|]).
    apply (IH ms i); try done. intros j Hj. apply (Hfirst (S j)). lia.
Qed.

Lemma add_oui_slot_spec al r a vc :
  wf_vc vc -> is_vendor_oui (req_oui r) = true ->
  free_in (vc_table vc (req_oui r)) (method_mask r) ->
  exists ret vc', add_oui_slot al r a vc = Some (ret, vc') /\ wf_vc vc' /\
    (ret = 0 -> forall o, vc_table vc' o =
       if bool_decide (o = req_oui r)
       then Some (set_methods (default new_method_table (vc_table vc o)) (method_mask r) a)
       else vc_table vc o) /\
    (ret <> 0 -> vc' = vc).
Proof.
  intros W Ho Hfree. unfold add_oui_slot.
  destruct (find_vendor_oui vc (req_oui r)) as [i|] eqn:Ei.
  - destruct (find_vendor_oui_slot _ _ _ W Ei) as (m & Em & Ws). rewrite Em. cbn [mbind option_bind].
    destruct m as [t|]; [|eexists _, _; by split_and!].
    apply find_vendor_oui_Some in Ei.
    assert (vc_table vc (req_oui r) = Some t) as Et by (apply vc_table_Some; eauto).
    rewrite add_methods_free by by apply Hfree.
    destruct (wf_vc_update vc i (req_oui r) (set_methods t (method_mask r) a) W Ei Ho) as [W' T'].
    { apply wf_set_methods, Ws. done. }
    eexists _, _. split; [done|]. split; [done|]. split; [|done]. intros _ o. rewrite T'.
    case_bool_decide; [|done]. subst o. by rewrite Et.
  - assert (forall j, oui vc !! j <> Some (req_oui r)) as Hnew.
    { intros j Hj. unfold find_vendor_oui in Ei. apply fmap_None, list_find_None in Ei.
      by destruct (Forall_lookup_1 _ _ _ _ Ei Hj). }
    destruct (list_find (fun o => is_vendor_oui o = false) (oui vc)) as [[i z]|] eqn:Ez;
      [|eexists _, _; by split_and!].
    apply list_find_Some in Ez as (Hi & Hz & _).
    destruct (lookup_lt_is_Some_2 (vc_method_table vc) i) as [m Em].
    { apply lookup_lt_Some in Hi. by rewrite (wv_len _ W), <- (wv_oui _ W). }
    rewrite Em. cbn [mbind option_bind].
    pose proof (wv_used _ W _ _ _ Hi Em) as Hu. rewrite Hz in Hu. symmetry in Hu.
    apply bool_decide_eq_false, eq_None_not_Some in Hu. subst m.
    destruct (al_method al); [|eexists _, _; by split_and!].
    rewrite add_methods_free by apply method_not_in_use_new.
    destruct (wf_vc_fill vc i z (req_oui r) (set_methods new_method_table (method_mask r) a))
      as [W' T']; try done.
    { auto with madreg. }
    eexists _, _. split; [done|]. split; [done|]. split; [|done]. intros _ o. rewrite T'.
    case_bool_decide; [|done]. subst o. unfold vc_table. by rewrite Ei.
Qed.

Lemma wf_new_vt : wf_vt new_vendor_table.
Proof. split; [done|]. apply Forall_replicate. done. Qed.

Lemma wf_vt_put vt k x : wf_vt vt -> (forall vc, x = Some vc -> wf_vc vc) -> 0 <= k < 32 ->
  aput vt k x = Some (<[Z.to_nat k := x]> vt) /\ wf_vt (<[Z.to_nat k := x]> vt).
Proof.
  intros [Hl Hf] Hm Hc. unfold MAX_MGMT_VENDOR_RANGE2 in *. split.
  - apply aput_ok. lia.
  - split; [by rewrite length_insert|]. by apply Forall_insert.
Qed.

Definition vt_table (vt : vendor_table) (k : Z) (o : list Z) : option method_table :=
  vc ← mjoin (aget vt k); vc_table vc o.

Lemma v_table_vendor v c o :
  is_vendor_class c = true ->
  v_table v c o = vt ← vendor_ v; vt_table vt (vendor_class_index c) o.
Proof. intros Hc. unfold v_table. by rewrite Hc. Qed.

Lemma vt_table_put vt k x j o :
  wf_vt vt -> 0 <= k < 32 ->
  vt_table (<[Z.to_nat k := x]> vt) j o =
  if bool_decide (j = k) then vc ← x; vc_table vc o else vt_table vt j o.
Proof.
  intros [Hl _] Hk. unfold vt_table.
  rewrite aget_insert by (unfold MAX_MGMT_VENDOR_RANGE2 in *; lia). by case_bool_decide.
Qed.

Lemma vt_table_get vt k vc o : aget vt k = Some (Some vc) -> vt_table vt k o = vc_table vc o.
Proof. intros E. unfold vt_table. by rewrite E. Qed.

Lemma add_oui_in_table_spec al r a fresh v vt (k := vendor_class_index (mgmt_class r)) :
  wf_vt vt -> 0 <= k < 32 -> is_vendor_oui (req_oui r) = true ->
  free_in (vt_table vt k (req_oui r)) (method_mask r) ->
  exists ret x, add_oui_in_table al r a fresh v vt = Some (ret, mk_version (class_ v) x) /\
    (forall vt', x = Some vt' -> wf_vt vt') /\
    (ret = 0 -> exists vt', x = Some vt' /\ forall j o, vt_table vt' j o =
       if bool_decide (j = k /\ o = req_oui r)
       then Some (set_methods (default new_method_table (vt_table vt j o)) (method_mask r) a)
       else vt_table vt j o) /\
    (ret <> 0 -> x = if fresh then None else Some vt).
Proof.
  intros Wt Hk Ho Hfree. unfold add_oui_in_table. fold k.
  destruct (wf_vt_get vt k Wt Hk) as (old & Eo & Wo). rewrite Eo. cbn [mbind option_bind].
  assert (<[Z.to_nat k := old]> vt = vt) as Hid
    by (apply list_insert_id; by apply aget_Some in Eo as [_ ?]).
  set (vco := match old with None => if al_vendor_class al then Some new_vendor_class else None
              | Some vc => Some vc end).
  destruct vco as [vc|] eqn:Evc; subst vco.
  2:{ eexists _, _. split; [done|]. split; [by destruct fresh; [|intros ? [= <-]]|by split]. }
  assert (wf_vc vc /\ forall o, vt_table vt k o = vc_table vc o) as [Wvc Tvc].
  { destruct old as [vc'|]; simplify_eq/=.
    - split; [by apply Wo|]. intros o. by apply vt_table_get.
    - destruct (al_vendor_class al); simplify_eq. split; [apply wf_new_vc|].
      intros o. unfold vt_table. by rewrite Eo, vc_table_new. }
  destruct (add_oui_slot_spec al r a vc Wvc Ho) as (ret & vc' & -> & W' & T' & F');
    [by rewrite <- Tvc|]. cbn [mbind option_bind].
  destruct (Z.eqb_spec ret 0) as [->|Hne].
  - destruct (wf_vt_put vt k (Some vc') Wt) as [-> Wt']; [by intros ? [= <-]|done|].
    cbn [mbind option_bind]. eexists _, _. split; [done|]. split; [by intros ? [= <-]|].
    split; [|done]. intros _. eexists. split; [done|]. intros j o. rewrite vt_table_put by done.
    case_bool_decide as Ej; cbn [mbind option_bind].
    + subst j. rewrite (T' eq_refl), Tvc. repeat case_bool_decide; try done; intuition congruence.
    + rewrite bool_decide_eq_false_2; [done|]. by intros [? _].
  - rewrite (F' Hne) in *. destruct (wf_vt_put vt k old Wt Wo Hk) as [Hput _].
    assert (match old with None => None | Some _ => Some vc end = old) as ->.
    { destruct old; simplify_eq/=; done. }
    rewrite Hput, Hid. cbn [mbind option_bind]. eexists _, _. split; [done|].
    split; [by destruct fresh; [|intros ? [= <-]]|by split].
Qed.

Lemma vendor_index_inj c c' : vendor_class_index c = vendor_class_index c' -> c = c'.
Proof. unfold vendor_class_index. lia. Qed.

Lemma add_oui_spec al r a v :
  wf_version v -> is_vendor_class (mgmt_class r) = true -> is_vendor_oui (req_oui r) = true ->
  free_in (v_table v (mgmt_class r) (req_oui r)) (method_mask r) ->
  exists ret v', add_oui_reg_req al r a v = Some (ret, v') /\ wf_version v' /\
    (ret = 0 -> forall cls o, v_table v' cls o =
       if bool_decide (cls = mgmt_class r /\ o = req_oui r)
       then Some (set_methods (default new_method_table (v_table v cls o)) (method_mask r) a)
       else v_table v cls o) /\
    (ret <> 0 -> v' = v).
Proof.
  intros [Wc Wv] Hc Ho Hfree. unfold add_oui_reg_req. rewrite v_table_vendor in Hfree by done.
  pose proof (proj1 (vendor_range _) Hc) as Hr.
  assert (0 <= vendor_class_index (mgmt_class r) < 32) as Hk
    by (unfold vendor_class_index, IB_MGMT_CLASS_VENDOR_RANGE2_START; lia).
  assert (forall (fresh : bool) vt, wf_vt vt -> vendor_ v = (if fresh then None else Some vt) ->
    (forall k o, vt_table vt k o = vt ← vendor_ v; vt_table vt k o) ->
    exists ret v', add_oui_in_table al r a fresh v vt = Some (ret, v') /\ wf_version v' /\
    (ret = 0 -> forall cls o, v_table v' cls o =
       if bool_decide (cls = mgmt_class r /\ o = req_oui r)
       then Some (set_methods (default new_method_table (v_table v cls o)) (method_mask r) a)
       else v_table v cls o) /\ (ret <> 0 -> v' = v)) as Key.
  { intros fresh vt Wt Ev Hvt. rewrite <- Hvt in Hfree.
    destruct (add_oui_in_table_spec al r a fresh v vt Wt Hk Ho Hfree) as (ret & x & -> & Wx & T & F).
    eexists _, _. split; [done|]. split; [split; [exact Wc|exact Wx]|]. split.
    - intros E0 cls o. destruct (T E0) as (vt' & -> & T').
      destruct (is_vendor_class cls) eqn:Ecls.
      + rewrite !v_table_vendor by done. cbn [vendor_ mbind option_bind]. rewrite T', Hvt.
        case_bool_decide as H1; case_bool_decide as H2; try done; exfalso.
        * destruct H1 as [H1 ?]. apply H2. split; [by apply vendor_index_inj|done].
        * destruct H2 as [-> ->]. by apply H1.
      + rewrite bool_decide_eq_false_2 by (intros [-> _]; congruence).
        unfold v_table. by rewrite Ecls.
    - intros Hne. rewrite (F Hne), <- Ev. by destruct v. }
  destruct (vendor_ v) as [vt|] eqn:Ev.
  - apply Key; [by apply Wv|done|done].
  - destruct (al_vendor al); [|eexists _, _; split_and!; try done; by split; rewrite ?Ev].
    apply Key; [apply wf_new_vt|done|]. intros k o. unfold vt_table, new_vendor_table.
    by rewrite aget_replicate_None.
Qed.

Lemma wf_port_put p ver v : wf_port p -> wf_version v -> 0 <= ver < MAX_MGMT_VERSION ->
  aput p ver v = Some (<[Z.to_nat ver := v]> p) /\ wf_port (<[Z.to_nat ver := v]> p) /\
  forall u c o, port_table (<[Z.to_nat ver := v]> p) u c o =
    if bool_decide (u = ver) then v_table v c o else port_table p u c o.
Proof.
  intros [Hl Hf] Hv Hr. unfold MAX_MGMT_VERSION in *. split_and!.
  - apply aput_ok. lia.
  - split; [by rewrite length_insert|]. by apply Forall_insert.
  - intros u c o. unfold port_table. rewrite aget_insert by lia. by case_bool_decide.
Qed.

(** The specification of a successful insertion. *)
Definition added (r : reg_req) (a : Z) (p p' : list version_table) : Prop :=
  forall ver c o, port_table p' ver c o =
    if decide (same_key r ver c o)
    then Some (set_methods (default new_method_table (port_table p ver c o)) (method_mask r) a)
    else port_table p ver c o.

Lemma req_class_range r : req_ok r -> 0 <= convert_mgmt_class (mgmt_class r) < MAX_MGMT_CLASS.
Proof.
  intros (_ & [Hc|Hc] & _); unfold convert_mgmt_class, IB_MGMT_CLASS_SUBN_DIRECTED_ROUTE in *;
    destruct (Z.eqb_spec (mgmt_class r) 0x81); unfold MAX_MGMT_CLASS in *; lia.
Qed.

Lemma convert_twice r : req_ok r ->
  convert_mgmt_class (convert_mgmt_class (mgmt_class r)) = convert_mgmt_class (mgmt_class r).
Proof.
  intros Hr. pose proof (req_class_range r Hr) as H. unfold MAX_MGMT_CLASS in H.
  unfold convert_mgmt_class at 1, IB_MGMT_CLASS_SUBN_DIRECTED_ROUTE.
  destruct (Z.eqb_spec (convert_mgmt_class (mgmt_class r)) 0x81); [lia|done].
Qed.

(** The check of a request against the tables that are there. *)
Lemma vendor_in_use_spec v r :
  wf_version v -> is_vendor_class (mgmt_class r) = true -> is_vendor_oui (req_oui r) = true ->
  exists b : bool, (match vendor_ v with None => Some false | Some vt =>
      vco ← aget vt (vendor_class_index (mgmt_class r));
      Some (match vco with Some vc => is_vendor_method_in_use vc r | None => false end) end) = Some b /\
    (b = false -> free_in (v_table v (mgmt_class r) (req_oui r)) (method_mask r)).
Proof.
  intros Wv Evc Ho. pose proof (proj1 (vendor_range _) Evc) as Hrange.
  rewrite v_table_vendor by done. destruct (vendor_ v) as [vt|] eqn:Evt; [|by eexists].
  destruct (wf_vt_get vt (vendor_class_index (mgmt_class r))) as (m & Em & Wm);
    [by apply Wv|unfold vendor_class_index, IB_MGMT_CLASS_VENDOR_RANGE2_START; lia|].
  cbn [mbind option_bind]. unfold vt_table. rewrite !Em. cbn [mbind option_bind mjoin option_join].
  eexists. split; [done|]. destruct m as [vc|]; [|done].
  intros Hf t Ht. by apply (vendor_in_use_false vc r); auto.
Qed.

Lemma class_in_use_spec v r (c0 := convert_mgmt_class (mgmt_class r)) :
  wf_version v -> req_ok r -> is_vendor_class c0 = false ->
  exists b : bool, (match class_ v with None => Some false | Some ct =>
      m ← aget ct c0;
      Some (match m with Some t => method_in_use t (method_mask r) | None => false end) end) = Some b /\
    (b = false -> free_in (v_table v c0 []) (method_mask r)).
Proof.
  intros Wv Hr Ec0. unfold v_table. rewrite Ec0. unfold c0 at 2. rewrite (convert_twice r Hr). fold c0.
  destruct (class_ v) as [ct|] eqn:Ect; [|by eexists].
  destruct (wf_ct_get ct c0) as (m & Em & Wm); [by apply Wv|exact (req_class_range r Hr)|].
  cbn [mbind option_bind]. rewrite !Em. cbn [mbind option_bind mjoin option_join].
  eexists. split; [done|]. destruct m as [t|]; [|done]. by intros Hf ? [= <-].
Qed.

Lemma same_class_vendor r c o :
  is_vendor_class (mgmt_class r) = true -> (c = mgmt_class r /\ o = req_oui r <-> same_class r c o).
Proof.
  intros Ev. unfold same_class. rewrite (convert_vendor_id _ Ev). split.
  - intros [-> ->]. split; [by apply convert_vendor_id|done].
  - intros [H2 H3]. assert (is_vendor_class c = true) as Ec by (by rewrite <- convert_vendor, H2).
    rewrite (convert_vendor_id _ Ec) in H2. auto.
Qed.

Lemma same_class_plain r c o :
  is_vendor_class (mgmt_class r) = false ->
  (is_vendor_class c = false /\ convert_mgmt_class c = convert_mgmt_class (mgmt_class r)
   <-> same_class r c o).
Proof.
  intros Ev. unfold same_class. split; [intros [H1 H2]; split; congruence|].
  intros [H2 _]. split; [|done]. by rewrite <- convert_vendor, H2, convert_vendor.
Qed.

(** From one version's tables to the port's. *)
Lemma added_version p p' r a v' (Q : Z -> list Z -> Prop) `{!forall c o, Decision (Q c o)} :
  (forall ver c o, port_table p' ver c o =
     if bool_decide (ver = mgmt_class_version r) then v_table v' c o else port_table p ver c o) ->
  (forall c o, v_table v' c o =
     if bool_decide (Q c o)
     then Some (set_methods (default new_method_table (port_table p (mgmt_class_version r) c o))
                  (method_mask r) a)
     else port_table p (mgmt_class_version r) c o) ->
  (forall c o, Q c o <-> same_class r c o) -> added r a p p'.
Proof.
  intros Hp Hv HQ ver c o. rewrite Hp. case_bool_decide as E.
  - subst ver. rewrite Hv. case_bool_decide as H1; case_decide as H2; try done; exfalso.
    + apply H2. split; [done|]. by apply HQ.
    + apply H1, HQ. by destruct H2.
  - rewrite decide_False; [done|]. by intros [? _].
Qed.

Lemma add_reg_req_spec al r a p :
  wf_port p -> req_ok r ->
  exists ret p', add_reg_req al r a p = Some (ret, p') /\ wf_port p' /\
    (ret = 0 -> added r a p p' /\
       free_in (port_table p (mgmt_class_version r) (mgmt_class r) (req_oui r)) (method_mask r)) /\
    (ret <> 0 -> p' = p).
Proof.
  intros Wp Hr. pose proof Hr as (Hver & Hcls & Hoid). unfold add_reg_req.
  destruct (wf_port_get p _ Wp Hver) as (v & Ev & Wv). rewrite Ev. cbn [mbind option_bind].
  assert (forall c o, port_table p (mgmt_class_version r) c o = v_table v c o) as Hpv
    by (intros; unfold port_table; by rewrite Ev).
  assert (<[Z.to_nat (mgmt_class_version r) := v]> p = p) as Hid
    by (apply list_insert_id; by apply aget_Some in Ev as [_ ?]).
  rewrite convert_vendor. destruct (is_vendor_class (mgmt_class r)) eqn:Evc; cbn [negb].
  - rewrite (convert_vendor_id _ Evc).
    destruct (vendor_in_use_spec v r Wv Evc (Hoid eq_refl)) as (b & -> & Hb).
    cbn [mbind option_bind]. destruct b; [eexists _, _; by split_and!|].
    destruct (add_oui_spec al r a v Wv Evc (Hoid eq_refl) (Hb eq_refl)) as (ret & v' & -> & W' & T & F).
    cbn [mbind option_bind].
    destruct (wf_port_put p (mgmt_class_version r) v' Wp W' Hver) as (-> & Wp' & Tp).
    cbn [mbind option_bind]. eexists _, _. split; [done|]. split; [done|].
    split; [|intros Hne; by rewrite (F Hne)].
    intros E0. rewrite Hpv. split; [|by apply Hb].
    eapply added_version; [exact Tp|intros c o; rewrite (T E0), Hpv; reflexivity|].
    intros c o. by apply same_class_vendor.
  - pose proof (req_class_range r Hr) as Hcr.
    set (c0 := convert_mgmt_class (mgmt_class r)) in *.
    assert (is_vendor_class c0 = false) as Ec0 by (unfold c0; by rewrite convert_vendor).
    destruct (class_in_use_spec v r Wv Hr Ec0) as (b & E & Hb). fold c0 in E, Hb. rewrite E.
    cbn [mbind option_bind]. destruct b; [eexists _, _; by split_and!|].
    destruct (add_nonoui_spec al r a c0 v Wv Hcr Ec0 (convert_twice r Hr) (Hb eq_refl))
      as (ret & v' & -> & W' & T & F). cbn [mbind option_bind].
    destruct (wf_port_put p (mgmt_class_version r) v' Wp W' Hver) as (-> & Wp' & Tp).
    cbn [mbind option_bind]. eexists _, _. split; [done|]. split; [done|].
    split; [|intros Hne; by rewrite (F Hne)]. intros E0. split.
    + eapply added_version; [exact Tp|intros c o; rewrite (T E0), Hpv; reflexivity|].
      intros c o. by apply same_class_plain.
    + rewrite Hpv. specialize (Hb eq_refl). unfold v_table in *. rewrite Ec0 in Hb. rewrite Evc.
      unfold c0 in Hb. by rewrite (convert_twice r Hr) in Hb.
Qed.

(** *** Removing *)

(** A method table without the methods of an agent, released when empty. *)
Definition without (a : Z) (t : method_table) : option method_table :=
  let t' := remove_methods_mad_agent t a in if check_method_table t' then Some t' else None.

Lemma wf_without a t : wf_mt t -> wf_slot (without a t).
Proof. intros Ht. unfold without. case_cond; auto with madreg. Qed.

Lemma existsb_none {A} (l : list (option A)) :
  existsb (fun x => bool_decide (is_Some x)) l = false -> forall i, mjoin (l !! i) = None.
Proof.
  intros H i. destruct (l !! i) as [[x|]|] eqn:E; [|done..].
  rewrite <- not_true_iff_false, existsb_exists in H. destruct H. exists (Some x).
  split; [by eapply list_elem_of_In, list_elem_of_lookup_2|by apply bool_decide_eq_true].
Qed.

Lemma aget_none {A} (l : list (option A)) k :
  existsb (fun x => bool_decide (is_Some x)) l = false -> mjoin (aget l k) = None.
Proof. intros H. unfold aget. destruct (k <? 0); [done|]. by apply existsb_none. Qed.

Lemma remove_from_class_spec a c v :
  wf_version v -> 0 <= c < MAX_MGMT_CLASS ->
  exists v', remove_from_class a c v = Some v' /\ wf_version v' /\ vendor_ v' = vendor_ v /\
    forall cls o, v_table v' cls o =
      if bool_decide (is_vendor_class cls = false /\ convert_mgmt_class cls = c)
      then v_table v cls o ≫= without a else v_table v cls o.
Proof.
  intros [Wc Wv] Hc. unfold remove_from_class.
  assert (forall cls o, v_table v cls o = None ->
    v_table v cls o = if bool_decide (is_vendor_class cls = false /\ convert_mgmt_class cls = c)
                      then v_table v cls o ≫= without a else v_table v cls o) as Hnone
    by (intros cls o ->; by case_bool_decide).
  destruct (class_ v) as [ct|] eqn:Ec.
  2:{ eexists. split; [done|]. split; [by split; rewrite ?Ec|]. split; [done|]. intros cls o.
      case_bool_decide as E; [|done]. destruct E as [E1 E2]. unfold v_table. by rewrite E1, Ec. }
  pose proof (Wc ct eq_refl) as Wct.
  destruct (wf_ct_get ct c Wct Hc) as (m & Em & Ws). rewrite Em. cbn [mbind option_bind].
  assert (forall cls o, v_table v cls o = v_table (mk_version (Some ct) (vendor_ v)) cls o) as Hsame
    by (intros; unfold v_table; by rewrite Ec).
  assert (forall cls o, is_vendor_class cls = false /\ convert_mgmt_class cls = c ->
            v_table v cls o = m) as Hm.
  { intros cls o [E1 E2]. unfold v_table. rewrite E1, E2, Ec. cbn [mbind option_bind]. by rewrite Em. }
  destruct m as [t|].
  2:{ eexists. split; [done|]. split; [by split; rewrite ?Ec; auto; intros ? [= <-]|]. split; [done|].
      intros cls o. case_bool_decide as E; [|done]. by rewrite (Hm cls o E). }
  destruct (wf_ct_put ct c (without a t) Wct) as [Hput Wput]; [by apply wf_without, Ws|done|].
  assert (forall cls o, v_table (mk_version (Some (<[Z.to_nat c := without a t]> ct)) (vendor_ v)) cls o =
    if bool_decide (is_vendor_class cls = false /\ convert_mgmt_class cls = c)
    then v_table v cls o ≫= without a else v_table v cls o) as Ht.
  { intros cls o. rewrite set_class_table by done. case_bool_decide as E; [by rewrite (Hm cls o E)|done]. }
  unfold without in Hput, Wput, Ht. destruct (check_method_table (remove_methods_mad_agent t a)).
  - rewrite Hput. cbn [mbind option_bind]. eexists. split; [done|].
    split; [split; [by intros ? [= <-]|exact Wv]|]. split; [done|exact Ht].
  - rewrite Hput. cbn [mbind option_bind]. eexists. split; [done|].
    destruct (check_class_table _) eqn:Ek.
    + split; [split; [by intros ? [= <-]|exact Wv]|]. split; [done|exact Ht].
    + split; [split; [done|exact Wv]|]. split; [done|]. intros cls o. rewrite <- Ht.
      unfold v_table. cbn [class_ vendor_]. destruct (is_vendor_class cls); [done|].
      cbn [mbind option_bind]. symmetry. by apply aget_none.
Qed.

Lemma remove_from_slot_spec o a vc :
  wf_vc vc -> is_vendor_oui o = true ->
  exists b vc', remove_from_slot o a vc = Some (b, vc') /\ wf_vc vc' /\
    forall o', vc_table vc' o' =
      if bool_decide (o' = o) then vc_table vc o' ≫= without a else vc_table vc o'.
Proof.
  intros W Ho. unfold remove_from_slot.
  destruct (find_vendor_oui vc o) as [i|] eqn:Ei.
  - destruct (find_vendor_oui_slot _ _ _ W Ei) as (m & Em & Ws). rewrite Em. cbn [mbind option_bind].
    assert (vc_table vc o = m) as Ht by (unfold vc_table; rewrite Ei; cbn; by rewrite Em).
    apply find_vendor_oui_Some in Ei. destruct m as [t|].
    + assert (without a t = without a t) as Hw by done. unfold without in Hw at 1.
      destruct (check_method_table (remove_methods_mad_agent t a)) eqn:Ek.
      * destruct (wf_vc_update vc i o (remove_methods_mad_agent t a) W Ei Ho) as [W' T'].
        { by apply (wf_slot_remove t a); [apply Ws|]. }
        eexists _, _. split; [done|]. split; [done|]. intros o'. rewrite T'.
        case_bool_decide; [|done]. subst. by rewrite Ht.
      * destruct (wf_vc_clear vc i o W Ei Ho) as [W' T'].
        eexists _, _. split; [done|]. split; [done|]. intros o'. rewrite T'.
        case_bool_decide; [|done]. subst. by rewrite Ht.
    + eexists _, _. split; [done|]. split; [done|]. intros o'. case_bool_decide; [|done].
      subst. by rewrite Ht.
  - eexists _, _. split; [done|]. split; [done|]. intros o'. case_bool_decide; [|done].
    subst. unfold vc_table. by rewrite Ei.
Qed.

Lemma vc_table_unused vc o : wf_vc vc -> check_vendor_class vc = false -> vc_table vc o = None.
Proof.
  intros W H. unfold vc_table. destruct (find_vendor_oui vc o) as [i|]; [|done].
  cbn. by apply existsb_none.
Qed.

(** The removal in one vendor class, seen from the version's tables. *)
Lemma vendor_slot_removed r a v vt vc vc' x (k := vendor_class_index (mgmt_class r)) :
  wf_vt vt -> 0 <= k < 32 -> vendor_ v = Some vt ->
  (forall o, v_table v (mgmt_class r) o = vc_table vc o) ->
  (forall o, vc_table vc' o =
     if bool_decide (o = req_oui r) then vc_table vc o ≫= without a else vc_table vc o) ->
  (forall o, (y ← x; vc_table y o) = vc_table vc' o) -> forall cls o, is_vendor_class cls = true ->
  vt_table (<[Z.to_nat k := x]> vt) (vendor_class_index cls) o =
  if bool_decide (true = true /\ cls = mgmt_class r /\ o = req_oui r)
  then v_table v cls o ≫= without a else v_table v cls o.
Proof.
  intros Wt Hk Ev Hm T' Hx cls o Ecls. rewrite vt_table_put by done. case_bool_decide as E1.
  - apply vendor_index_inj in E1. subst cls. rewrite Hx, T', Hm. cbn [mbind option_bind].
    repeat case_bool_decide; try done; intuition congruence.
  - rewrite bool_decide_eq_false_2; [|intros (_ & -> & _); done].
    rewrite v_table_vendor, Ev by done. done.
Qed.

Lemma plain_class_kept r a v x cls o :
  is_vendor_class (mgmt_class r) = true -> is_vendor_class cls = false ->
  v_table (mk_version (class_ v) x) cls o =
  if bool_decide (true = true /\ cls = mgmt_class r /\ o = req_oui r)
  then v_table v cls o ≫= without a else v_table v cls o.
Proof.
  intros Ec Ecls. rewrite bool_decide_eq_false_2 by (intros (? & -> & _); congruence).
  unfold v_table. by rewrite Ecls.
Qed.

Lemma remove_from_vendor_spec r a v :
  wf_version v -> req_ok r ->
  exists v', remove_from_vendor r a v = Some v' /\ wf_version v' /\
    forall cls o, v_table v' cls o =
      if bool_decide (is_vendor_class (mgmt_class r) = true /\ cls = mgmt_class r /\ o = req_oui r)
      then v_table v cls o ≫= without a else v_table v cls o.
Proof.
  intros [Wc Wv] (_ & _ & Ho). unfold remove_from_vendor. rewrite convert_vendor.
  destruct (is_vendor_class (mgmt_class r)) eqn:Ec; cbn [negb].
  2:{ eexists. split; [done|]. split; [by split|]. intros cls o.
      rewrite bool_decide_eq_false_2; [done|]. by intros (? & _). }
  set (k := vendor_class_index (mgmt_class r)).
  assert (0 <= k < 32) as Hk.
  { apply vendor_range in Ec. unfold k, vendor_class_index, IB_MGMT_CLASS_VENDOR_RANGE2_START. lia. }
  destruct (vendor_ v) as [vt|] eqn:Ev.
  2:{ eexists. split; [done|]. split; [by split; rewrite ?Ev|]. intros cls o.
      case_bool_decide as E; [|done]. destruct E as (_ & -> & _). by rewrite v_table_vendor, Ev by done. }
  pose proof (Wv vt eq_refl) as Wt.
  destruct (wf_vt_get vt k Wt Hk) as (m & Em & Wm). rewrite Em. cbn [mbind option_bind].
  assert (forall o, v_table v (mgmt_class r) o = vc ← m; vc_table vc o) as Hm.
  { intros o. rewrite v_table_vendor, Ev by done. cbn [mbind option_bind]. unfold vt_table.
    fold k. rewrite Em. done. }
  destruct m as [vc|].
  2:{ eexists. split; [done|]. split; [split; [done|by rewrite Ev]|]. intros cls o.
      case_bool_decide as E; [|done]. destruct E as (_ & -> & _). by rewrite Hm. }
  destruct (remove_from_slot_spec (req_oui r) a vc (Wm vc eq_refl) (Ho eq_refl))
    as (b & vc' & -> & W' & T'). cbn [mbind option_bind].
  pose proof (fun x => vendor_slot_removed r a v vt vc vc' x Wt Hk Ev Hm T') as Key.
  destruct (b && negb (check_vendor_class vc')) eqn:Eb.
  - apply andb_true_iff in Eb as [_ Eb%negb_true_iff].
    destruct (wf_vt_put vt k None Wt) as [-> Wt']; [done|done|]. cbn [mbind option_bind].
    eexists. split; [done|]. split.
    { split; [done|]. cbn. destruct (check_vendor_table _); [by intros ? [= <-]|done]. }
    intros cls o. destruct (is_vendor_class cls) eqn:Ecls; [|by apply plain_class_kept].
    rewrite <- (Key None) by (done || intros; cbn; by rewrite vc_table_unused).
    rewrite v_table_vendor by done. cbn [vendor_]. destruct (check_vendor_table _) eqn:Ek; [done|].
    cbn [mbind option_bind]. unfold vt_table. symmetry. by rewrite aget_none.
  - destruct (wf_vt_put vt k (Some vc') Wt) as [-> Wt']; [by intros ? [= <-]|done|].
    cbn [mbind option_bind]. eexists. split; [done|]. split; [split; [done|by intros ? [= <-]]|].
    intros cls o. destruct (is_vendor_class cls) eqn:Ecls; [|by apply plain_class_kept].
    rewrite <- (Key (Some vc')) by done. by rewrite v_table_vendor.
Qed.

Lemma remove_mad_reg_req_spec r a p :
  wf_port p -> req_ok r ->
  exists p', remove_mad_reg_req (Some r) a p = Some p' /\ wf_port p' /\
    forall ver c o, port_table p' ver c o =
      if decide (same_key r ver c o) then port_table p ver c o ≫= without a
      else port_table p ver c o.
Proof.
  intros Wp Hr. pose proof Hr as (Hver & _ & _). unfold remove_mad_reg_req.
  destruct (wf_port_get p _ Wp Hver) as (v & Ev & Wv). rewrite Ev. cbn [mbind option_bind].
  destruct (remove_from_class_spec a (convert_mgmt_class (mgmt_class r)) v Wv (req_class_range r Hr))
    as (v1 & -> & W1 & _ & T1). cbn [mbind option_bind].
  destruct (remove_from_vendor_spec r a v1 W1 Hr) as (v2 & -> & W2 & T2). cbn [mbind option_bind].
  destruct (wf_port_put p (mgmt_class_version r) v2 Wp W2 Hver) as (-> & Wp' & Tp).
  eexists. split; [done|]. split; [done|]. intros ver c o. rewrite Tp.
  case_bool_decide as E; [|rewrite decide_False; [done|by intros [? _]]]. subst ver.
  assert (port_table p (mgmt_class_version r) c o = v_table v c o) as -> by (unfold port_table; by rewrite Ev).
  rewrite T2, T1. destruct (decide (same_key r (mgmt_class_version r) c o)) as [H2|H2].
  - destruct H2 as (_ & H2 & H3). destruct (is_vendor_class c) eqn:Evc.
    + assert (is_vendor_class (mgmt_class r) = true) as Er by (by rewrite <- convert_vendor, <- H2, convert_vendor).
      rewrite (convert_vendor_id c Evc), (convert_vendor_id _ Er) in H2.
      rewrite bool_decide_eq_true_2, bool_decide_eq_false_2 by (by auto || by intros [? _]). done.
    + rewrite bool_decide_eq_false_2 by (intros (? & -> & _); congruence).
      by rewrite bool_decide_eq_true_2.
  - rewrite bool_decide_eq_false_2.
    + rewrite bool_decide_eq_false_2; [done|]. intros [H3 H4]. apply H2.
      split; [done|]. split; [done|]. intros ?. congruence.
    + intros (_ & -> & ->). by apply H2.
Qed.

(** *** Routes *)

(** The header asks for something the request registers. *)
Definition matches (r : reg_req) (h : mad_hdr) : Prop :=
  same_key r (hdr_class_version h) (hdr_mgmt_class h) (hdr_oui h) /\
  hdr_meth h ∈ set_bits (method_mask r).

#[export] Instance matches_dec r h : Decision (matches r h).
Proof. unfold matches. apply _. Defined.

Lemma same_key_version r h : req_ok r ->
  same_key r (hdr_class_version h) (hdr_mgmt_class h) (hdr_oui h) ->
  (MAX_MGMT_VERSION <=? hdr_class_version h) = false.
Proof. intros (Hv & _) [-> _]. apply Z.leb_gt. lia. Qed.

Lemma wf_port_table p ver c o t : wf_port p -> port_table p ver c o = Some t -> wf_mt t.
Proof.
  intros [_ Hf] (v & [_ Hv]%aget_Some & Ht)%bind_Some.
  destruct (Forall_lookup_1 _ _ _ _ Hf Hv) as [Wc Wv]. unfold v_table in Ht.
  destruct (is_vendor_class c).
  - apply bind_Some in Ht as (vt & Evt & (vc & Evc & Hvc)%bind_Some).
    destruct (aget vt (vendor_class_index c)) as [m|] eqn:Em; [|done]. simplify_eq/=.
    apply aget_Some in Em as [_ Em].
    pose proof (Forall_lookup_1 _ _ _ _ (proj2 (Wv vt Evt)) Em vc eq_refl) as W.
    apply (vc_table_Some _ _ _ W) in Hvc as (i & _ & Hi).
    exact (Forall_lookup_1 _ _ _ _ (wv_slots _ W) Hi t eq_refl).
  - apply bind_Some in Ht as (ct & Ect & Ht).
    destruct (aget ct (convert_mgmt_class c)) as [m|] eqn:Em; [|done]. simplify_eq/=.
    apply aget_Some in Em as [_ Em].
    exact (Forall_lookup_1 _ _ _ _ (proj2 (Wc ct Ect)) Em t eq_refl).
Qed.

Lemma agent_at_default m i : agent_at (default new_method_table m) i = m ≫= (fun t => agent_at t i).
Proof. destruct m; [done|]. apply agent_at_new. Qed.

Lemma added_routes r a p p' h :
  wf_port p -> wf_port p' -> req_ok r -> added r a p p' -> hdr_ok h ->
  find_by_class p' h = if decide (matches r h) then Some (Some a) else find_by_class p h.
Proof.
  intros Wp Wp' Hr Ha Hh. rewrite !find_by_class_table by done.
  destruct (decide (matches r h)) as [[Hk Hm]|Hn].
  - rewrite (same_key_version r h Hr Hk), Ha, decide_True by done. cbn [mbind option_bind].
    rewrite agent_at_set_methods, bool_decide_eq_true_2; [done|done|].
    apply wf_default. intros t Ht. exact (wf_port_table _ _ _ _ _ Wp Ht).
  - f_equal. destruct (MAX_MGMT_VERSION <=? hdr_class_version h); [done|]. rewrite Ha.
    case_decide as Hk; [|done]. cbn [mbind option_bind]. rewrite agent_at_set_methods.
    + rewrite bool_decide_eq_false_2 by (intros Hm; by apply Hn). apply agent_at_default.
    + apply wf_default. intros t Ht. exact (wf_port_table _ _ _ _ _ Wp Ht).
Qed.

Lemma free_unrouted r p h :
  wf_port p -> req_ok r -> hdr_ok h -> matches r h ->
  free_in (port_table p (mgmt_class_version r) (mgmt_class r) (req_oui r)) (method_mask r) ->
  find_by_class p h = Some None.
Proof.
  intros Wp Hr Hh [Hk Hm] Hf. rewrite find_by_class_table by done.
  rewrite (same_key_version r h Hr Hk). destruct Hk as (Ev & Ec & Eo). f_equal.
  assert (port_table p (hdr_class_version h) (hdr_mgmt_class h) (hdr_oui h) =
          port_table p (mgmt_class_version r) (mgmt_class r) (req_oui r)) as ->.
  { rewrite Ev. unfold port_table. destruct (aget p _) as [v|]; [|done]. cbn. unfold v_table.
    assert (is_vendor_class (hdr_mgmt_class h) = is_vendor_class (mgmt_class r)) as Hv
      by (by rewrite <- (convert_vendor (hdr_mgmt_class h)), Ec, convert_vendor).
    rewrite <- Hv, <- Ec. destruct (is_vendor_class (hdr_mgmt_class h)) eqn:E; [|done].
    rewrite (Eo eq_refl). rewrite (convert_vendor_id _ E) in Ec.
    rewrite (convert_vendor_id _ (eq_sym Hv)) in Ec. by rewrite Ec. }
  destruct (port_table p _ _ _) as [t|] eqn:Et; [|done]. cbn. specialize (Hf t eq_refl).
  unfold method_in_use in Hf. rewrite <- not_true_iff_false, existsb_exists in Hf.
  destruct (agent_at t (hdr_meth h)) as [b|] eqn:Eb; [|done]. destruct Hf. exists (hdr_meth h).
  split; [by apply list_elem_of_In|]. apply bool_decide_eq_true. by rewrite Eb.
Qed.

Lemma agent_at_without a t i :
  (without a t ≫= fun t' => agent_at t' i) =
  if bool_decide (agent_at t i = Some a) then None else agent_at t i.
Proof.
  rewrite <- agent_at_remove. unfold without.
  destruct (check_method_table _) eqn:E; cbn; [done|]. symmetry. by apply agent_at_unused.
Qed.

Lemma removed_routes r a p p' h :
  wf_port p -> wf_port p' -> req_ok r ->
  (forall ver c o, port_table p' ver c o =
     if decide (same_key r ver c o) then port_table p ver c o ≫= without a else port_table p ver c o) ->
  hdr_ok h ->
  find_by_class p' h =
    if decide (same_key r (hdr_class_version h) (hdr_mgmt_class h) (hdr_oui h) /\
               find_by_class p h = Some (Some a)) then Some None else find_by_class p h.
Proof.
  intros Wp Wp' Hr Ht Hh. rewrite !find_by_class_table by done.
  destruct (MAX_MGMT_VERSION <=? hdr_class_version h) eqn:Ev.
  { rewrite decide_False; [done|]. by intros [_ ?]. }
  rewrite Ht. destruct (decide (same_key r _ _ _)) as [Hk|Hk].
  - destruct (port_table p _ _ _) as [t|]; cbn [mbind option_bind];
      [|rewrite decide_False; [done|by intros [_ ?]]].
    rewrite agent_at_without. case_bool_decide as E.
    + by rewrite decide_True by (split; congruence).
    + rewrite decide_False; [done|]. intros [_ ?]. congruence.
  - rewrite decide_False; [done|]. by intros [? _].
Qed.

Lemma validate_req_ok e qp r rv sh rh fl :
  0 <= mgmt_class r < 256 -> 0 <= mgmt_class_version r ->
  register_validate e qp (Some r) rv sh rh fl = 0 -> req_ok r.
Proof.
  intros Hc Hv H. unfold register_validate in H.
  destruct (_ || _); [done|]. destruct (_ =? -1); [done|]. destruct (_ && _); [done|].
  destruct (MAX_MGMT_VERSION <=? mgmt_class_version r) eqn:E1; [done|].
  destruct rh; [|done]. cbn [negb] in H.
  destruct (if MAX_MGMT_CLASS <=? mgmt_class r then _ else _) eqn:E2; [done|]. clear H.
  bool_to_prop. split; [lia|].
  destruct (MAX_MGMT_CLASS <=? mgmt_class r) eqn:E3; bool_to_prop.
  - split; [by right|]. rewrite E2. done.
  - destruct (mgmt_class r =? 0) eqn:E4; [done|]. bool_to_prop. split; [left; lia|].
    intros Hvc. rewrite Hvc in E2. by apply negb_false_iff in E2.
Qed.

(** ** Properties *)

(** C36. Registration: for every request, every outcome of the allocations, of the
    security module and of the id allocation, registration is defined (no table index
    is out of bounds) and leaves well-formed tables. When it succeeds, exactly the
    unsolicited MADs of the requested version, class (and OUI) and methods are routed
    to the new agent, none of them had a receiver before, and all others keep theirs;
    the agent is found under its transaction id with one reference. When it fails,
    the tables, the clients and the reference counts are as before. *)
Theorem ib_register_mad_agent_correct e qp r rv sh rh fl a p ag :
  wf_port p -> 0 <= mgmt_class r < 256 -> 0 <= mgmt_class_version r ->
  clients ag !! hi_tid e = None ->
  exists ret p' ag', ib_register_mad_agent e qp (Some r) rv sh rh fl a p ag = Some (ret, p', ag') /\
    wf_port p' /\
    (ret <> 0 -> p' = p /\ clients ag' = clients ag /\ refcount ag' = refcount ag) /\
    (ret = 0 -> req_ok r /\ clients ag' !! hi_tid e = Some a /\ refcount ag' !! a = Some 1 /\
       forall h, hdr_ok h ->
         find_by_class p' h = (if decide (matches r h) then Some (Some a) else find_by_class p h) /\
         (matches r h -> find_by_class p h = Some None)).
Proof.
  intros Wp Hc Hv Hid. unfold ib_register_mad_agent.
  destruct (Z.eqb_spec (register_validate e qp (Some r) rv sh rh fl) 0) as [E0|Hne]; cbn [negb];
    [|eexists _, _, _; by split_and!].
  pose proof (validate_req_ok _ _ _ _ _ _ _ Hc Hv E0) as Hr.
  destruct (al_agent e); cbn [negb]; [|eexists _, _, _; by split_and!].
  rewrite bool_decide_eq_true_2 by eauto.
  destruct (al_reg_req e); cbn [negb andb]; [|eexists _, _, _; by split_and!].
  destruct (Z.eqb_spec (security_ret e) 0); cbn [negb]; [|eexists _, _, _; by split_and!].
  destruct (Z.ltb_spec (xa_ret e) 0); [eexists _, _, _; split_and!; try done; lia|].
  destruct (add_reg_req_spec (al_tables e) r a p Wp Hr) as (ret & p' & -> & Wp' & Hok & Hfail).
  cbn [mbind option_bind]. destruct (Z.eqb_spec ret 0) as [->|Hne].
  - eexists _, _, _. split; [done|]. split; [done|]. split; [done|]. intros _.
    destruct (Hok eq_refl) as [Ha Hf]. split; [done|]. cbn.
    rewrite !lookup_insert_eq. split; [done|]. split; [done|]. intros h Hh. split.
    + by apply added_routes.
    + intros Hm. by apply (free_unrouted r).
  - eexists _, _, _. split; [done|]. split; [done|]. split; [|done]. intros _.
    split; [by apply Hfail|]. cbn. by rewrite delete_insert_id.
Qed.

(** An environment in which everything succeeds, and two requests. *)
Definition demo_env : reg_env :=
  mk_reg_env true true true (fun _ => true) true true 0 0 7 (mk_allocs true true true true).
Definition demo_agents : agents := mk_agents ∅ ∅ (fun _ => true).
Definition vendor_req : reg_req := mk_reg_req 0x32 1 [0; 0x14; 5] 6.
Definition dr_req : reg_req := mk_reg_req 0x81 1 [0; 0; 0] 2.

Lemma wf_new_port : wf_port new_port.
Proof. split; [reflexivity|]. apply Forall_replicate. by split. Qed.

Lemma ib_register_mad_agent_correct_witness :
  exists ret p' ag', ib_register_mad_agent demo_env 1 (Some vendor_req) 1 true true 0 42 new_port
    demo_agents = Some (ret, p', ag') /\ wf_port p'.
Proof.
  destruct (ib_register_mad_agent_correct demo_env 1 vendor_req 1 true true 0 42 new_port demo_agents)
    as (ret & p' & ag' & H1 & H2 & _).
  - exact wf_new_port.
  - vm_compute. split; congruence.
  - vm_compute. congruence.
  - reflexivity.
  - eauto.
Defined.

(** Unregistration: removing an agent whose routes all belong to its request
    removes all of its routes and no others, and keeps the tables well formed. *)
Theorem remove_mad_reg_req_correct r a p :
  wf_port p -> req_ok r ->
  (forall h, hdr_ok h -> find_by_class p h = Some (Some a) ->
     same_key r (hdr_class_version h) (hdr_mgmt_class h) (hdr_oui h)) ->
  exists p', remove_mad_reg_req (Some r) a p = Some p' /\ wf_port p' /\
    forall h, hdr_ok h -> find_by_class p' h =
      if decide (find_by_class p h = Some (Some a)) then Some None else find_by_class p h.
Proof.
  intros Wp Hr Hown. destruct (remove_mad_reg_req_spec r a p Wp Hr) as (p' & E & Wp' & T).
  exists p'. split; [done|]. split; [done|]. intros h Hh.
  rewrite (removed_routes r a p p' h Wp Wp' Hr T Hh).
  case_decide as H1; case_decide as H2; try done; exfalso.
  - by destruct H1.
  - apply H1. split; [|done]. by apply Hown.
Qed.

Lemma find_new_port h : hdr_ok h -> find_by_class new_port h = Some None.
Proof.
  intros Hh. rewrite find_by_class_table by (done || apply wf_new_port). f_equal.
  destruct (MAX_MGMT_VERSION <=? hdr_class_version h) eqn:E; [done|]. unfold port_table, new_port, aget.
  destruct (hdr_class_version h <? 0); [done|].
  destruct (replicate _ _ !! _) as [v|] eqn:Ev; [|done].
  apply lookup_replicate in Ev as [-> _]. cbn. unfold v_table. cbn. by destruct (is_vendor_class _).
Qed.

Lemma remove_mad_reg_req_correct_witness :
  exists p', remove_mad_reg_req (Some dr_req) 9 new_port = Some p' /\ wf_port p'.
Proof.
  destruct (remove_mad_reg_req_correct dr_req 9 new_port) as (p' & H1 & H2 & _).
  - exact wf_new_port.
  - split; [vm_compute; split; congruence|]. split; [right; reflexivity|]. intros H. discriminate H.
  - intros h Hh H. rewrite find_new_port in H by done. discriminate H.
  - eauto.
Defined.

(** Registering an agent and unregistering it again restores the routing of every
    MAD, whatever else is registered. *)
Theorem register_unregister_roundtrip al r a p p1 :
  wf_port p -> req_ok r -> (forall h, hdr_ok h -> find_by_class p h <> Some (Some a)) ->
  add_reg_req al r a p = Some (0, p1) ->
  exists p2, remove_mad_reg_req (Some r) a p1 = Some p2 /\ wf_port p2 /\
    forall h, hdr_ok h -> find_by_class p2 h = find_by_class p h.
Proof.
  intros Wp Hr Hfresh Ha.
  destruct (add_reg_req_spec al r a p Wp Hr) as (ret & p1' & E & Wp1 & Hok & _).
  rewrite Ha in E. injection E as <- <-. destruct (Hok eq_refl) as [Hadd Hfree].
  destruct (remove_mad_reg_req_spec r a p1 Wp1 Hr) as (p2 & E2 & Wp2 & T2).
  exists p2. split; [done|]. split; [done|]. intros h Hh.
  rewrite (removed_routes r a p1 p2 h Wp1 Wp2 Hr T2 Hh).
  rewrite (added_routes r a p p1 h Wp Wp1 Hr Hadd Hh).
  destruct (decide (matches r h)) as [Hm|Hm].
  - rewrite decide_True; [|split; [apply Hm|done]]. symmetry. by apply (free_unrouted r).
  - rewrite decide_False; [done|]. intros [_ H]. by apply (Hfresh h Hh).
Qed.

Lemma register_unregister_roundtrip_witness :
  exists p1 p2, add_reg_req (mk_allocs true true true true) vendor_req 42 new_port = Some (0, p1) /\
    remove_mad_reg_req (Some vendor_req) 42 p1 = Some p2 /\ wf_port p2.
Proof.
  destruct (add_reg_req (mk_allocs true true true true) vendor_req 42 new_port) as [[ret p1]|] eqn:E;
    [|vm_compute in E; discriminate E].
  assert (ret = 0) as ->.
  { apply (f_equal (fmap fst)) in E. vm_compute in E. congruence. }
  destruct (register_unregister_roundtrip (mk_allocs true true true true) vendor_req 42 new_port p1)
    as (p2 & H1 & H2 & _).
  - exact wf_new_port.
  - split; [vm_compute; split; congruence|].
    split; [left; vm_compute; split; congruence|]. intros _. reflexivity.
  - intros h Hh H. rewrite find_new_port in H by done. discriminate H.
  - exact E.
  - eauto.
Defined.

(** Delivery: [find_mad_agent] is defined for every received header. It returns
    an agent only if that agent has a receive handler, takes exactly one reference on
    the agent it returns, and otherwise leaves every reference count as it was; a
    response goes to the live client its transaction id names, any other MAD to the
    agent registered for it. *)
Theorem find_mad_agent_correct p h ag :
  wf_port p -> hdr_ok h ->
  exists res ag', find_mad_agent p h ag = Some (res, ag') /\
    match res with
    | Some a =>
        has_recv_handler ag a = true /\
        refcount ag' = <[a := default 0 (refcount ag !! a) + 1]> (refcount ag) /\
        (if ib_response_mad h then clients ag !! u32 (Z.shiftr (hdr_tid h) 32) = Some a
         else find_by_class p h = Some (Some a))
    | None => forall a, default 0 (refcount ag' !! a) = default 0 (refcount ag !! a)
    end.
Proof.
  intros Wp Hh. unfold find_mad_agent.
  assert (exists x, find_by_class p h = Some x) as [x Hx] by (rewrite find_by_class_table; eauto).
  assert (forall a, exists res ag',
    (if negb (has_recv_handler (add_ref a 1 ag) a) then Some (None, add_ref a (-1) (add_ref a 1 ag))
     else Some (Some a, add_ref a 1 ag)) = Some (res, ag') /\
    match res with
    | Some b => b = a /\ has_recv_handler ag b = true /\
        refcount ag' = <[b := default 0 (refcount ag !! b) + 1]> (refcount ag)
    | None => forall b, default 0 (refcount ag' !! b) = default 0 (refcount ag !! b)
    end) as Key.
  { intros a. cbn. destruct (has_recv_handler ag a) eqn:Er; cbn [negb]; eexists _, _; (split; [done|]).
    - done.
    - intros b. cbn. rewrite lookup_insert_eq. cbn. destruct (decide (b = a)) as [->|Hn].
      + rewrite lookup_insert_eq. cbn. lia.
      + by rewrite !lookup_insert_ne. }
  destruct (ib_response_mad h).
  - destruct (clients ag !! _) as [a|]; cbn [mbind option_bind]; [|by eexists _, _].
    case_cond; cbn [mbind option_bind]; [by eexists _, _|].
    destruct (Key a) as (res & ag' & -> & H). eexists _, _. split; [done|].
    destruct res; [|done]. destruct H as (-> & ? & ?). done.
  - rewrite Hx. cbn [mbind option_bind]. destruct x as [a|]; [|by eexists _, _].
    destruct (Key a) as (res & ag' & -> & H). eexists _, _. split; [done|].
    destruct res; [|done]. destruct H as (-> & ? & ?). done.
Qed.

Definition demo_hdr : mad_hdr := mk_mad_hdr 1 0x32 1 2 0 0 0 [0; 0x14; 5].

Lemma find_mad_agent_correct_witness :
  exists res ag', find_mad_agent new_port demo_hdr demo_agents = Some (res, ag').
Proof.
  destruct (find_mad_agent_correct new_port demo_hdr demo_agents) as (res & ag' & H & _).
  - exact wf_new_port.
  - unfold hdr_ok. vm_compute. split_and!; congruence.
  - eauto.
Defined.

(** A MAD of the reserved class 0. *)
Definition class0_hdr : mad_hdr := mk_mad_hdr 1 0 1 1 0 0 0 [0; 0; 0].

(** Class 0 is reserved and only used inside the tables as the alias of the
    directed-route class, but routing converts the class of a received MAD without
    excluding 0: a MAD of class 0 that arrives on queue pair 1 passes [validate_mad]
    and is routed to the agent registered for directed-route SMPs on queue pair 0. *)
Theorem reserved_class_reaches_dr_agent :
  validate_mad class0_hdr 1 false = true /\
  exists p, add_reg_req (mk_allocs true true true true) dr_req 42 new_port = Some (0, p) /\
    find_by_class p class0_hdr = Some (Some 42).
Proof. split; [reflexivity|]. eexists. split; vm_compute; reflexivity. Qed.
