(* ===== verification/Mlx5Qp.v ===== *)
(** * Queue pair modification in mlx5: drivers/infiniband/hw/mlx5/qp.c

    The mapping to firmware states and service types, the command table and the
    optional-parameter masks of [__mlx5_ib_modify_qp], the checks of
    [mlx5_ib_modify_qp] (including the SRM queue pair type), the DCI check, the
    static rate conversion and the state of raw packet queue pairs. The firmware
    command itself is a parameter (its return value). *)

From Stdlib Require Import ZArith Lia.
From stdpp Require Import base tactics numbers list option.
From S2P Require Import Prelude Verbs.

Local Open Scope Z_scope.

(** ** Constants (include/linux/mlx5/qp.h, mlx5_ib.h) *)

Definition MLX5_QP_STATE_RST : Z := 0.
Definition MLX5_QP_STATE_INIT : Z := 1.
Definition MLX5_QP_STATE_RTR : Z := 2.
Definition MLX5_QP_STATE_RTS : Z := 3.
Definition MLX5_QP_STATE_SQER : Z := 4.
Definition MLX5_QP_STATE_SQD : Z := 5.
Definition MLX5_QP_STATE_ERR : Z := 6.
Definition MLX5_QP_STATE_SQ_DRAINING : Z := 7.
Definition MLX5_QP_STATE_SUSPENDED : Z := 9.
Definition MLX5_QP_NUM_STATE : Z := 10.
Definition MLX5_QP_STATE : Z := 11.
Definition MLX5_QP_STATE_BAD : Z := 12.

Definition MLX5_QP_ST_RC : Z := 0.
Definition MLX5_QP_ST_UC : Z := 1.
Definition MLX5_QP_ST_UD : Z := 2.
Definition MLX5_QP_ST_XRC : Z := 3.
Definition MLX5_QP_ST_MLX : Z := 4.
Definition MLX5_QP_ST_DCI : Z := 5.
Definition MLX5_QP_ST_DCT : Z := 6.
Definition MLX5_QP_ST_QP0 : Z := 7.
Definition MLX5_QP_ST_QP1 : Z := 8.
Definition MLX5_QP_ST_RAW_ETHERTYPE : Z := 9.
Definition MLX5_QP_ST_RAW_IPV6 : Z := 10.
Definition MLX5_QP_ST_SRM : Z := 11.
Definition MLX5_QP_ST_REG_UMR : Z := 12.
Definition MLX5_QP_ST_SW_CNAK : Z := 16.
Definition MLX5_QP_ST_MAX : Z := 0x11.

Definition MLX5_QP_OPTPAR_ALT_ADDR_PATH : Z := Z.shiftl 1 0.
Definition MLX5_QP_OPTPAR_RRE : Z := Z.shiftl 1 1.
Definition MLX5_QP_OPTPAR_RAE : Z := Z.shiftl 1 2.
Definition MLX5_QP_OPTPAR_RWE : Z := Z.shiftl 1 3.
Definition MLX5_QP_OPTPAR_PKEY_INDEX : Z := Z.shiftl 1 4.
Definition MLX5_QP_OPTPAR_Q_KEY : Z := Z.shiftl 1 5.
Definition MLX5_QP_OPTPAR_RNR_TIMEOUT : Z := Z.shiftl 1 6.
Definition MLX5_QP_OPTPAR_PRIMARY_ADDR_PATH : Z := Z.shiftl 1 7.
Definition MLX5_QP_OPTPAR_SRA_MAX : Z := Z.shiftl 1 8.
Definition MLX5_QP_OPTPAR_RRA_MAX : Z := Z.shiftl 1 9.
Definition MLX5_QP_OPTPAR_PM_STATE : Z := Z.shiftl 1 10.
Definition MLX5_QP_OPTPAR_RETRY_COUNT : Z := Z.shiftl 1 12.
Definition MLX5_QP_OPTPAR_RNR_RETRY : Z := Z.shiftl 1 13.
Definition MLX5_QP_OPTPAR_ACK_TIMEOUT : Z := Z.shiftl 1 14.
Definition MLX5_QP_OPTPAR_LAG_TX_AFF : Z := Z.shiftl 1 15.
Definition MLX5_QP_OPTPAR_PRI_PORT : Z := Z.shiftl 1 16.
Definition MLX5_QP_OPTPAR_RMPN_XRQN : Z := Z.shiftl 1 18.
Definition MLX5_QP_OPTPAR_CQN_RCV : Z := Z.shiftl 1 19.
Definition MLX5_QP_OPTPAR_OFFLOAD_TYPE : Z := Z.shiftl 1 24.

Definition MLX5_IB_QPT_REG_UMR : Z := 0x1000.
Definition MLX5_IB_QPT_HW_GSI : Z := 0x1001.
Definition MLX5_IB_QPT_DCI : Z := 0x1002.
Definition MLX5_IB_QPT_DCT : Z := 0x1003.
Definition MLX5_IB_QPT_SW_CNAK : Z := 0x1004.

Definition MLX5_CMD_OP_RST2INIT_QP : Z := 0x502.
Definition MLX5_CMD_OP_INIT2RTR_QP : Z := 0x503.
Definition MLX5_CMD_OP_RTR2RTS_QP : Z := 0x504.
Definition MLX5_CMD_OP_RTS2RTS_QP : Z := 0x505.
Definition MLX5_CMD_OP_SQERR2RTS_QP : Z := 0x506.
Definition MLX5_CMD_OP_2ERR_QP : Z := 0x507.
Definition MLX5_CMD_OP_2RST_QP : Z := 0x50a.
Definition MLX5_CMD_OP_SQD_RTS_QP : Z := 0x50c.
Definition MLX5_CMD_OP_INIT2INIT_QP : Z := 0x50e.

Definition EOPNOTSUPP : Z := 95.
Definition ENOSYS : Z := 38.
Definition EFAULT : Z := 14.
Definition IB_QP_CREATE_SOURCE_QPN : Z := Z.shiftl 1 10.
Definition MLX5_IB_MODIFY_QP_OOO_DP : Z := 1.

(** ** States and service types *)

Definition to_mlx5_state (state : qp_state) : Z :=
  match state with
  | IB_QPS_RESET => MLX5_QP_STATE_RST
  | IB_QPS_INIT => MLX5_QP_STATE_INIT
  | IB_QPS_RTR => MLX5_QP_STATE_RTR
  | IB_QPS_RTS => MLX5_QP_STATE_RTS
  | IB_QPS_SQD => MLX5_QP_STATE_SQD
  | IB_QPS_SQE => MLX5_QP_STATE_SQER
  | IB_QPS_ERR => MLX5_QP_STATE_ERR
  end.

(** [None] for the -1 of the default case. *)
Definition to_ib_qp_state (s : Z) : option qp_state :=
  if s =? MLX5_QP_STATE_RST then Some IB_QPS_RESET
  else if s =? MLX5_QP_STATE_INIT then Some IB_QPS_INIT
  else if s =? MLX5_QP_STATE_RTR then Some IB_QPS_RTR
  else if s =? MLX5_QP_STATE_RTS then Some IB_QPS_RTS
  else if (s =? MLX5_QP_STATE_SQ_DRAINING) || (s =? MLX5_QP_STATE_SQD) then Some IB_QPS_SQD
  else if s =? MLX5_QP_STATE_SQER then Some IB_QPS_SQE
  else if s =? MLX5_QP_STATE_ERR then Some IB_QPS_ERR
  else None.

Definition to_mlx5_st_cases : list (Z * Z) :=
  [(IB_QPT_RC, MLX5_QP_ST_RC); (IB_QPT_UC, MLX5_QP_ST_UC); (IB_QPT_UD, MLX5_QP_ST_UD);
   (MLX5_IB_QPT_REG_UMR, MLX5_QP_ST_REG_UMR); (MLX5_IB_QPT_SW_CNAK, MLX5_QP_ST_SW_CNAK);
   (IB_QPT_XRC_INI, MLX5_QP_ST_XRC); (IB_QPT_XRC_TGT, MLX5_QP_ST_XRC);
   (IB_QPT_SMI, MLX5_QP_ST_QP0); (MLX5_IB_QPT_HW_GSI, MLX5_QP_ST_QP1);
   (MLX5_IB_QPT_DCI, MLX5_QP_ST_DCI); (IB_QPT_RAW_PACKET, MLX5_QP_ST_RAW_ETHERTYPE);
   (IB_QPT_SRM, MLX5_QP_ST_SRM)].

Definition to_mlx5_st (type : Z) : Z := switch to_mlx5_st_cases (err EINVAL) type.

(** ** The command table *)

Definition optab_cells : list (Z * Z * Z) :=
  [(MLX5_QP_STATE_RST, MLX5_QP_STATE_RST, MLX5_CMD_OP_2RST_QP);
   (MLX5_QP_STATE_RST, MLX5_QP_STATE_ERR, MLX5_CMD_OP_2ERR_QP);
   (MLX5_QP_STATE_RST, MLX5_QP_STATE_INIT, MLX5_CMD_OP_RST2INIT_QP);
   (MLX5_QP_STATE_INIT, MLX5_QP_STATE_RST, MLX5_CMD_OP_2RST_QP);
   (MLX5_QP_STATE_INIT, MLX5_QP_STATE_ERR, MLX5_CMD_OP_2ERR_QP);
   (MLX5_QP_STATE_INIT, MLX5_QP_STATE_INIT, MLX5_CMD_OP_INIT2INIT_QP);
   (MLX5_QP_STATE_INIT, MLX5_QP_STATE_RTR, MLX5_CMD_OP_INIT2RTR_QP);
   (MLX5_QP_STATE_RTR, MLX5_QP_STATE_RST, MLX5_CMD_OP_2RST_QP);
   (MLX5_QP_STATE_RTR, MLX5_QP_STATE_ERR, MLX5_CMD_OP_2ERR_QP);
   (MLX5_QP_STATE_RTR, MLX5_QP_STATE_RTS, MLX5_CMD_OP_RTR2RTS_QP);
   (MLX5_QP_STATE_RTS, MLX5_QP_STATE_RST, MLX5_CMD_OP_2RST_QP);
   (MLX5_QP_STATE_RTS, MLX5_QP_STATE_ERR, MLX5_CMD_OP_2ERR_QP);
   (MLX5_QP_STATE_RTS, MLX5_QP_STATE_RTS, MLX5_CMD_OP_RTS2RTS_QP);
   (MLX5_QP_STATE_SQD, MLX5_QP_STATE_RST, MLX5_CMD_OP_2RST_QP);
   (MLX5_QP_STATE_SQD, MLX5_QP_STATE_ERR, MLX5_CMD_OP_2ERR_QP);
   (MLX5_QP_STATE_SQD, MLX5_QP_STATE_RTS, MLX5_CMD_OP_SQD_RTS_QP);
   (MLX5_QP_STATE_SQER, MLX5_QP_STATE_RST, MLX5_CMD_OP_2RST_QP);
   (MLX5_QP_STATE_SQER, MLX5_QP_STATE_ERR, MLX5_CMD_OP_2ERR_QP);
   (MLX5_QP_STATE_SQER, MLX5_QP_STATE_RTS, MLX5_CMD_OP_SQERR2RTS_QP);
   (MLX5_QP_STATE_ERR, MLX5_QP_STATE_RST, MLX5_CMD_OP_2RST_QP);
   (MLX5_QP_STATE_ERR, MLX5_QP_STATE_ERR, MLX5_CMD_OP_2ERR_QP)].

(** [a[i][j]] of a two-dimensional array given by its initialisers. *)
Definition arr2 {A} (dflt : A) (l : list (Z * Z * A)) (i j : Z) : A :=
  match list_find (fun p => fst p = (i, j)) l with Some (_, (_, v)) => v | None => dflt end.

Definition optab (cur new : Z) : Z := arr2 0 optab_cells cur new.

(** ** Optional parameters *)

Definition opt_init_init : list (Z * Z) :=
  [(MLX5_QP_ST_RC, flags [MLX5_QP_OPTPAR_RRE; MLX5_QP_OPTPAR_RAE; MLX5_QP_OPTPAR_RWE;
     MLX5_QP_OPTPAR_PKEY_INDEX; MLX5_QP_OPTPAR_PRI_PORT; MLX5_QP_OPTPAR_LAG_TX_AFF]);
   (MLX5_QP_ST_UC, flags [MLX5_QP_OPTPAR_RWE; MLX5_QP_OPTPAR_PKEY_INDEX;
     MLX5_QP_OPTPAR_PRI_PORT; MLX5_QP_OPTPAR_LAG_TX_AFF]);
   (MLX5_QP_ST_UD, flags [MLX5_QP_OPTPAR_PKEY_INDEX; MLX5_QP_OPTPAR_Q_KEY;
     MLX5_QP_OPTPAR_PRI_PORT]);
   (MLX5_QP_ST_XRC, flags [MLX5_QP_OPTPAR_RRE; MLX5_QP_OPTPAR_RAE; MLX5_QP_OPTPAR_RWE;
     MLX5_QP_OPTPAR_PKEY_INDEX; MLX5_QP_OPTPAR_PRI_PORT; MLX5_QP_OPTPAR_LAG_TX_AFF])].

Definition opt_init_rtr : list (Z * Z) :=
  [(MLX5_QP_ST_RC, flags [MLX5_QP_OPTPAR_ALT_ADDR_PATH; MLX5_QP_OPTPAR_RRE; MLX5_QP_OPTPAR_RAE;
     MLX5_QP_OPTPAR_RWE; MLX5_QP_OPTPAR_PKEY_INDEX; MLX5_QP_OPTPAR_LAG_TX_AFF]);
   (MLX5_QP_ST_UC, flags [MLX5_QP_OPTPAR_ALT_ADDR_PATH; MLX5_QP_OPTPAR_RWE;
     MLX5_QP_OPTPAR_PKEY_INDEX; MLX5_QP_OPTPAR_LAG_TX_AFF]);
   (MLX5_QP_ST_UD, flags [MLX5_QP_OPTPAR_PKEY_INDEX; MLX5_QP_OPTPAR_Q_KEY]);
   (MLX5_QP_ST_MLX, flags [MLX5_QP_OPTPAR_PKEY_INDEX; MLX5_QP_OPTPAR_Q_KEY]);
   (MLX5_QP_ST_XRC, flags [MLX5_QP_OPTPAR_ALT_ADDR_PATH; MLX5_QP_OPTPAR_RRE;
     MLX5_QP_OPTPAR_RAE; MLX5_QP_OPTPAR_RWE; MLX5_QP_OPTPAR_PKEY_INDEX;
     MLX5_QP_OPTPAR_LAG_TX_AFF])].

Definition opt_rtr_rts : list (Z * Z) :=
  [(MLX5_QP_ST_RC, flags [MLX5_QP_OPTPAR_ALT_ADDR_PATH; MLX5_QP_OPTPAR_RRE; MLX5_QP_OPTPAR_RAE;
     MLX5_QP_OPTPAR_RWE; MLX5_QP_OPTPAR_PM_STATE; MLX5_QP_OPTPAR_RNR_TIMEOUT;
     MLX5_QP_OPTPAR_OFFLOAD_TYPE]);
   (MLX5_QP_ST_UC, flags [MLX5_QP_OPTPAR_ALT_ADDR_PATH; MLX5_QP_OPTPAR_RWE;
     MLX5_QP_OPTPAR_PM_STATE]);
   (MLX5_QP_ST_UD, MLX5_QP_OPTPAR_Q_KEY);
   (MLX5_QP_ST_XRC, flags [MLX5_QP_OPTPAR_ALT_ADDR_PATH; MLX5_QP_OPTPAR_RRE;
     MLX5_QP_OPTPAR_RAE; MLX5_QP_OPTPAR_RWE; MLX5_QP_OPTPAR_PM_STATE;
     MLX5_QP_OPTPAR_RNR_TIMEOUT])].

Definition opt_rts_rts : list (Z * Z) :=
  [(MLX5_QP_ST_RC, flags [MLX5_QP_OPTPAR_RRE; MLX5_QP_OPTPAR_RAE; MLX5_QP_OPTPAR_RWE;
     MLX5_QP_OPTPAR_RNR_TIMEOUT; MLX5_QP_OPTPAR_PM_STATE; MLX5_QP_OPTPAR_ALT_ADDR_PATH;
     MLX5_QP_OPTPAR_OFFLOAD_TYPE; MLX5_QP_OPTPAR_RMPN_XRQN]);
   (MLX5_QP_ST_UC, flags [MLX5_QP_OPTPAR_RWE; MLX5_QP_OPTPAR_PM_STATE;
     MLX5_QP_OPTPAR_ALT_ADDR_PATH]);
   (MLX5_QP_ST_UD, flags [MLX5_QP_OPTPAR_Q_KEY; MLX5_QP_OPTPAR_CQN_RCV]);
   (MLX5_QP_ST_XRC, flags [MLX5_QP_OPTPAR_RRE; MLX5_QP_OPTPAR_RAE; MLX5_QP_OPTPAR_RWE;
     MLX5_QP_OPTPAR_RNR_TIMEOUT; MLX5_QP_OPTPAR_PM_STATE; MLX5_QP_OPTPAR_ALT_ADDR_PATH])].

Definition opt_sqer_rts : list (Z * Z) :=
  [(MLX5_QP_ST_UD, MLX5_QP_OPTPAR_Q_KEY);
   (MLX5_QP_ST_MLX, MLX5_QP_OPTPAR_Q_KEY);
   (MLX5_QP_ST_UC, MLX5_QP_OPTPAR_RWE);
   (MLX5_QP_ST_RC, flags [MLX5_QP_OPTPAR_RNR_TIMEOUT; MLX5_QP_OPTPAR_RWE; MLX5_QP_OPTPAR_RAE;
     MLX5_QP_OPTPAR_RRE]);
   (MLX5_QP_ST_XRC, flags [MLX5_QP_OPTPAR_RNR_TIMEOUT; MLX5_QP_OPTPAR_RWE; MLX5_QP_OPTPAR_RAE;
     MLX5_QP_OPTPAR_RRE])].

Definition opt_sqd_rts : list (Z * Z) :=
  [(MLX5_QP_ST_UD, MLX5_QP_OPTPAR_Q_KEY);
   (MLX5_QP_ST_MLX, MLX5_QP_OPTPAR_Q_KEY);
   (MLX5_QP_ST_UC, MLX5_QP_OPTPAR_RWE);
   (MLX5_QP_ST_RC, flags [MLX5_QP_OPTPAR_RNR_TIMEOUT; MLX5_QP_OPTPAR_RWE; MLX5_QP_OPTPAR_RAE;
     MLX5_QP_OPTPAR_RRE])].

Definition opt_mask_cells : list (Z * Z * list (Z * Z)) :=
  [(MLX5_QP_STATE_INIT, MLX5_QP_STATE_INIT, opt_init_init);
   (MLX5_QP_STATE_INIT, MLX5_QP_STATE_RTR, opt_init_rtr);
   (MLX5_QP_STATE_RTR, MLX5_QP_STATE_RTS, opt_rtr_rts);
   (MLX5_QP_STATE_RTS, MLX5_QP_STATE_RTS, opt_rts_rts);
   (MLX5_QP_STATE_SQER, MLX5_QP_STATE_RTS, opt_sqer_rts);
   (MLX5_QP_STATE_SQD, MLX5_QP_STATE_RTS, opt_sqd_rts)].


Definition opt_mask (cur new st : Z) : Z := arr (arr2 [] opt_mask_cells cur new) st.

Definition ib_nr_to_mlx5_nr_cases : list (Z * Z) :=
  [(IB_QP_STATE, 0); (IB_QP_CUR_STATE, 0); (IB_QP_EN_SQD_ASYNC_NOTIFY, 0);
   (IB_QP_ACCESS_FLAGS, flags [MLX5_QP_OPTPAR_RWE; MLX5_QP_OPTPAR_RRE; MLX5_QP_OPTPAR_RAE]);
   (IB_QP_PKEY_INDEX, MLX5_QP_OPTPAR_PKEY_INDEX); (IB_QP_PORT, MLX5_QP_OPTPAR_PRI_PORT);
   (IB_QP_QKEY, MLX5_QP_OPTPAR_Q_KEY);
   (IB_QP_AV, flags [MLX5_QP_OPTPAR_PRIMARY_ADDR_PATH; MLX5_QP_OPTPAR_PRI_PORT]);
   (IB_QP_PATH_MTU, 0); (IB_QP_TIMEOUT, MLX5_QP_OPTPAR_ACK_TIMEOUT);
   (IB_QP_RETRY_CNT, MLX5_QP_OPTPAR_RETRY_COUNT); (IB_QP_RNR_RETRY, MLX5_QP_OPTPAR_RNR_RETRY);
   (IB_QP_RQ_PSN, 0); (IB_QP_MAX_QP_RD_ATOMIC, MLX5_QP_OPTPAR_SRA_MAX);
   (IB_QP_ALT_PATH, MLX5_QP_OPTPAR_ALT_ADDR_PATH);
   (IB_QP_MIN_RNR_TIMER, MLX5_QP_OPTPAR_RNR_TIMEOUT); (IB_QP_SQ_PSN, 0);
   (IB_QP_MAX_DEST_RD_ATOMIC,
    flags [MLX5_QP_OPTPAR_RRA_MAX; MLX5_QP_OPTPAR_RWE; MLX5_QP_OPTPAR_RRE; MLX5_QP_OPTPAR_RAE]);
   (IB_QP_PATH_MIG_STATE, MLX5_QP_OPTPAR_PM_STATE);
   (IB_QP_OFFLOAD_TYPE, MLX5_QP_OPTPAR_OFFLOAD_TYPE);
   (IB_QP_RMPN_XRQN, MLX5_QP_OPTPAR_RMPN_XRQN); (IB_QP_CAP, 0); (IB_QP_DEST_QPN, 0)].

Definition ib_nr_to_mlx5_nr (ib_mask : Z) : Z := switch ib_nr_to_mlx5_nr_cases 0 ib_mask.

Definition ib_mask_to_mlx5_opt (ib_mask : Z) : Z :=
  foldl (fun result i =>
           if truthy (Z.land (Z.shiftl 1 i) ib_mask)
           then Z.lor result (ib_nr_to_mlx5_nr (Z.shiftl 1 i)) else result)
    0 (seqZ 0 32).

(** ** The checks of [mlx5_ib_modify_qp] *)

Definition is_valid_mask (mask req opt : Z) : bool :=
  if negb (Z.land mask req =? req) then false
  else if truthy (Z.land mask (Z.lnot (Z.lor req opt))) then false
  else true.

Definition modify_dci_qp_is_ok (cur new : qp_state) (attr_mask : Z) : bool :=
  let req := IB_QP_STATE in
  match cur, new with
  | _, IB_QPS_RESET => is_valid_mask attr_mask req 0
  | IB_QPS_RESET, IB_QPS_INIT =>
      is_valid_mask attr_mask (flags [req; IB_QP_PKEY_INDEX; IB_QP_PORT]) 0
  | IB_QPS_INIT, IB_QPS_INIT => is_valid_mask attr_mask req (flags [IB_QP_PKEY_INDEX; IB_QP_PORT])
  | IB_QPS_INIT, IB_QPS_RTR =>
      is_valid_mask attr_mask (flags [req; IB_QP_PATH_MTU]) (flags [IB_QP_PKEY_INDEX; IB_QP_AV])
  | IB_QPS_RTR, IB_QPS_RTS =>
      is_valid_mask attr_mask
        (flags [req; IB_QP_TIMEOUT; IB_QP_RETRY_CNT; IB_QP_RNR_RETRY; IB_QP_MAX_QP_RD_ATOMIC;
                IB_QP_SQ_PSN]) IB_QP_MIN_RNR_TIMER
  | IB_QPS_RTS, IB_QPS_RTS => is_valid_mask attr_mask req IB_QP_MIN_RNR_TIMER
  | IB_QPS_RESET, IB_QPS_ERR => false
  | _, IB_QPS_ERR => is_valid_mask attr_mask req 0
  | _, _ => false
  end.

Definition ignored_ts_check (qp_type : Z) : bool :=
  (qp_type =? MLX5_IB_QPT_REG_UMR) || (qp_type =? MLX5_IB_QPT_SW_CNAK)
  || (qp_type =? MLX5_IB_QPT_DCI) || (qp_type =? IB_QPT_SRM).

(** Device capabilities and the queue pair, as far as the checks use them. *)
Record mlx5_dev := mk_dev {
  raw_eth_profile : bool; num_ports : Z; pkey_table_len : Z;
  log_max_ra_res_dc : Z; log_max_ra_req_dc : Z; log_max_ra_res_qp : Z; log_max_ra_req_qp : Z
}.

Record mlx5_qp := mk_qp {
  type : Z; state : qp_state; create_flags : Z; port : Z; alt_port : Z;
  atomic_rd_en : Z; resp_depth : Z;
  rq_head : Z; rq_tail : Z; sq_head : Z; sq_tail : Z; cur_post : Z; last_poll : Z;
  rcv_dbr : Z; snd_dbr : Z; rwq_ind_tbl : bool; is_user : bool;
  is_ooo_rq : bool; tclass : Z; global_tclass : bool
}.

(** The attributes the checks and the bookkeeping use; [a_grh_tclass] is the traffic
    class of the address handle when it has a GRH. *)
Record qp_attr := mk_attr {
  a_qp_state : qp_state; a_cur_qp_state : qp_state; a_port_num : Z; a_pkey_index : Z;
  a_max_rd_atomic : Z; a_max_dest_rd_atomic : Z; a_access_flags : Z; a_alt_port_num : Z;
  a_grh_tclass : option Z
}.

(** The user command, with the results of the copy and of the check that the bytes
    behind it are zero. *)
Record modify_ucmd := mk_ucmd {
  inlen : Z; size_to_ece : Z; sizeof_ucmd : Z; rest_cleared : bool; copy_ok : bool;
  comp_mask : Z; burst_reserved_zero : bool; dp_ooo_cap : bool
}.

Definition set_ooo (qp : mlx5_qp) : mlx5_qp :=
  mk_qp (type qp) (state qp) (create_flags qp) (port qp) (alt_port qp) (atomic_rd_en qp)
    (resp_depth qp) (rq_head qp) (rq_tail qp) (sq_head qp) (sq_tail qp) (cur_post qp)
    (last_poll qp) (rcv_dbr qp) (snd_dbr qp) (rwq_ind_tbl qp) (is_user qp)
    true (tclass qp) (global_tclass qp).

Definition set_tclass (qp : mlx5_qp) (tc : Z * bool) : mlx5_qp :=
  mk_qp (type qp) (state qp) (create_flags qp) (port qp) (alt_port qp) (atomic_rd_en qp)
    (resp_depth qp) (rq_head qp) (rq_tail qp) (sq_head qp) (sq_tail qp) (cur_post qp)
    (last_poll qp) (rcv_dbr qp) (snd_dbr qp) (rwq_ind_tbl qp) (is_user qp)
    (is_ooo_rq qp) (fst tc) (snd tc).

Definition mlx5_ib_modify_qp_allowed (dev : mlx5_dev) (qp : mlx5_qp) : bool :=
  if negb (raw_eth_profile dev) then true
  else (type qp =? IB_QPT_RAW_PACKET) || (type qp =? MLX5_IB_QPT_REG_UMR).

Definition validate_rd_atomic (dev : mlx5_dev) (attr : qp_attr) (attr_mask qp_type : Z) : bool :=
  let '(res, req) :=
    if qp_type =? MLX5_IB_QPT_DCI
    then (Z.shiftl 1 (log_max_ra_res_dc dev), Z.shiftl 1 (log_max_ra_req_dc dev))
    else (Z.shiftl 1 (log_max_ra_res_qp dev), Z.shiftl 1 (log_max_ra_req_qp dev)) in
  if has_flag attr_mask IB_QP_MAX_QP_RD_ATOMIC && (res <? a_max_rd_atomic attr) then false
  else if has_flag attr_mask IB_QP_MAX_DEST_RD_ATOMIC && (req <? a_max_dest_rd_atomic attr)
  then false else true.

(** [tclass_get port tclass] stands for [tclass_get_tclass_locked]: the traffic class
    the port's rules give, and whether it is the global one. *)
Definition mlx5_ib_qp_set_tclass (dev : mlx5_dev) (tclass_get : Z -> Z -> Z * bool)
    (qp : mlx5_qp) (attr : qp_attr) (attr_mask : Z) : mlx5_qp :=
  let prt := if has_flag attr_mask IB_QP_PORT then a_port_num attr else port qp in
  if negb (has_flag attr_mask IB_QP_AV) then qp
  else if (prt =? 0) || (num_ports dev <? prt) then qp
  else match a_grh_tclass attr with
       | None => qp
       | Some tc => set_tclass qp (tclass_get prt tc)
       end.

(** The block on the user command: the error, or the queue pair. *)
Definition check_modify_ucmd (u : modify_ucmd) (qp : mlx5_qp) : Z + mlx5_qp :=
  if inlen u =? 0 then inr qp
  else if inlen u <? size_to_ece u then inl (err EINVAL)
  else if (sizeof_ucmd u <? inlen u) && negb (rest_cleared u) then inl (err EOPNOTSUPP)
  else if negb (copy_ok u) then inl (err EFAULT)
  else if has_flag (comp_mask u) (Z.lnot MLX5_IB_MODIFY_QP_OOO_DP) || negb (burst_reserved_zero u)
  then inl (err EOPNOTSUPP)
  else if has_flag (comp_mask u) MLX5_IB_MODIFY_QP_OOO_DP then
    if negb (dp_ooo_cap u) then inl (err EOPNOTSUPP) else inr (set_ooo qp)
  else inr qp.

(** The check of the transition: whether it passes. [None] when [ib_modify_qp_is_ok]
    would read outside its table. *)
Definition check_transition (qp : mlx5_qp) (qp_type attr_mask : Z) (cur new : qp_state)
  : option bool :=
  if has_flag (create_flags qp) IB_QP_CREATE_SOURCE_QPN then
    Some (negb (has_flag attr_mask (Z.lnot (Z.lor IB_QP_STATE IB_QP_CUR_STATE))))
  else
    ts ← (if ignored_ts_check qp_type then Some true
          else ib_modify_qp_is_ok cur new qp_type attr_mask);
    Some (if negb ts then false
          else if (qp_type =? MLX5_IB_QPT_DCI) && negb (modify_dci_qp_is_ok cur new attr_mask)
          then false else true).

(** What [mlx5_ib_modify_qp] decides: a return value, one of the two special paths,
    or a call of [__mlx5_ib_modify_qp] with these states. *)
Inductive modify_decision :=
| Mod_return (ret : Z) | Mod_gsi | Mod_dct | Mod_command (cur new : qp_state).

Definition cur_state (qp : mlx5_qp) (attr : qp_attr) (attr_mask : Z) : qp_state :=
  if has_flag attr_mask IB_QP_CUR_STATE then a_cur_qp_state attr else state qp.

Definition new_state (qp : mlx5_qp) (attr : qp_attr) (attr_mask : Z) : qp_state :=
  if has_flag attr_mask IB_QP_STATE then a_qp_state attr else cur_state qp attr attr_mask.

(** The part of [mlx5_ib_modify_qp] under the queue pair's mutex, up to the call of
    [__mlx5_ib_modify_qp]. *)
Definition modify_locked (dev : mlx5_dev) (qp : mlx5_qp) (qp_type : Z) (attr : qp_attr)
    (attr_mask : Z) : option modify_decision :=
  let cur := cur_state qp attr attr_mask in
  let new := new_state qp attr attr_mask in
  ok ← check_transition qp qp_type attr_mask cur new;
  Some (if negb ok then Mod_return (err EINVAL)
        else if has_flag attr_mask IB_QP_PKEY_INDEX && (pkey_table_len dev <=? a_pkey_index attr)
        then Mod_return (err EINVAL)
        else if negb (validate_rd_atomic dev attr attr_mask qp_type) then Mod_return (err EINVAL)
        else if bool_decide (cur = new) && bool_decide (cur = IB_QPS_RESET) then Mod_return 0
        else Mod_command cur new).

(** [mlx5_ib_modify_qp] up to the call of [__mlx5_ib_modify_qp]: the queue pair then,
    and the decision. *)
Definition modify_decide (dev : mlx5_dev) (tclass_get : Z -> Z -> Z * bool) (qp : mlx5_qp)
    (attr : qp_attr) (attr_mask : Z) (udata : option modify_ucmd)
  : option (mlx5_qp * modify_decision) :=
  if negb (mlx5_ib_modify_qp_allowed dev qp) then Some (qp, Mod_return (err EOPNOTSUPP))
  else if has_flag attr_mask
            (Z.lnot (flags [IB_QP_ATTR_STANDARD_BITS; IB_QP_RATE_LIMIT; IB_QP_OFFLOAD_TYPE;
                            IB_QP_RMPN_XRQN])) then Some (qp, Mod_return (err EOPNOTSUPP))
  else if rwq_ind_tbl qp then Some (qp, Mod_return (err ENOSYS))
  else
    match match udata with Some u => check_modify_ucmd u qp | None => inr qp end with
    | inl e => Some (qp, Mod_return e)
    | inr qp1 =>
        if type qp1 =? IB_QPT_GSI then Some (qp1, Mod_gsi)
        else
          let qp_type := if type qp1 =? MLX5_IB_QPT_HW_GSI then IB_QPT_GSI else type qp1 in
          if qp_type =? MLX5_IB_QPT_DCT then Some (qp1, Mod_dct)
          else if has_flag attr_mask IB_QP_PORT &&
                  ((a_port_num attr =? 0) || (num_ports dev <? a_port_num attr))
          then Some (qp1, Mod_return (err EINVAL))
          else
            let qp2 := mlx5_ib_qp_set_tclass dev tclass_get qp1 attr attr_mask in
            d ← modify_locked dev qp2 qp_type attr attr_mask;
            Some (qp2, d)
    end.

(** ** The command *)

(** The operation and the optional parameters of the firmware command;
    [lag_affinity] says that the code before has set the LAG affinity. An index
    outside [opt_mask] gives [None]. *)
Definition modify_command (qp_type attr_mask : Z) (cur new : qp_state) (lag_affinity : bool)
  : option (Z + Z * Z) :=
  let st := to_mlx5_st qp_type in
  if st <? 0 then Some (inl (err EINVAL))
  else
    let c := to_mlx5_state cur in
    let n := to_mlx5_state new in
    if (MLX5_QP_NUM_STATE <=? c) || (MLX5_QP_NUM_STATE <=? n) || (optab c n =? 0)
    then Some (inl (err EINVAL))
    else if MLX5_QP_ST_MAX <=? st then None
    else
      let optpar := Z.lor (if lag_affinity then MLX5_QP_OPTPAR_LAG_TX_AFF else 0)
                      (ib_mask_to_mlx5_opt attr_mask) in
      Some (inr (optab c n, Z.land optpar (opt_mask c n st))).

(** The queue pair after a successful command; [cur_edge] and the completion queues
    cleaned on a move to RESET are not part of the model. *)
Definition after_modify (qp : mlx5_qp) (attr : qp_attr) (attr_mask : Z) (new : qp_state)
  : mlx5_qp :=
  let reset := bool_decide (new = IB_QPS_RESET) && negb (is_user qp)
               && negb (type qp =? IB_QPT_XRC_TGT) in
  let z (x : Z) := if reset then 0 else x in
  mk_qp (type qp) new (create_flags qp)
    (if has_flag attr_mask IB_QP_PORT then a_port_num attr else port qp)
    (if has_flag attr_mask IB_QP_ALT_PATH then a_alt_port_num attr else alt_port qp)
    (if has_flag attr_mask IB_QP_ACCESS_FLAGS then a_access_flags attr else atomic_rd_en qp)
    (if has_flag attr_mask IB_QP_MAX_DEST_RD_ATOMIC then a_max_dest_rd_atomic attr
     else resp_depth qp)
    (z (rq_head qp)) (z (rq_tail qp)) (z (sq_head qp)) (z (sq_tail qp)) (z (cur_post qp))
    (z (last_poll qp)) (z (rcv_dbr qp)) (z (snd_dbr qp)) (rwq_ind_tbl qp) (is_user qp)
    (is_ooo_rq qp) (tclass qp) (global_tclass qp).

(** ** Static rates *)

Definition MLX5_STAT_RATE_OFFSET : Z := 5.

Definition mlx5_rates : list Z :=
  [IB_RATE_PORT_CURRENT; IB_RATE_56_GBPS; IB_RATE_25_GBPS; IB_RATE_100_GBPS; IB_RATE_200_GBPS;
   IB_RATE_50_GBPS; IB_RATE_400_GBPS].

Definition mlx5_to_ib_rate_map (rate : Z) : Z :=
  match mlx5_rates !! Z.to_nat rate with
  | Some r => r
  | None => rate - MLX5_STAT_RATE_OFFSET
  end.

Definition ib_to_mlx5_rate_map (rate : Z) : Z :=
  switch [(IB_RATE_PORT_CURRENT, 0); (IB_RATE_56_GBPS, 1); (IB_RATE_25_GBPS, 2);
          (IB_RATE_100_GBPS, 3); (IB_RATE_200_GBPS, 4); (IB_RATE_50_GBPS, 5);
          (IB_RATE_400_GBPS, 6)] (rate + MLX5_STAT_RATE_OFFSET) rate.

(** The loop of [ib_rate_to_mlx5]; [n] bounds the iterations. *)
Fixpoint lower_rate (n : nat) (stat_rate_support rate : Z) : Z :=
  match n with
  | O => rate
  | S n' =>
      if negb (rate =? IB_RATE_PORT_CURRENT) &&
         negb (truthy (Z.land (Z.shiftl 1 (ib_to_mlx5_rate_map rate)) stat_rate_support))
      then lower_rate n' stat_rate_support (u8 (rate - 1)) else rate
  end.

Definition ib_rate_to_mlx5 (stat_rate_support rate : Z) : Z :=
  if rate =? IB_RATE_PORT_CURRENT then 0
  else if (rate <? IB_RATE_2_5_GBPS) || (IB_RATE_800_GBPS <? rate) then err EINVAL
  else ib_to_mlx5_rate_map (lower_rate 256 stat_rate_support rate).

(** ** Raw packet queue pairs *)

Definition sq_rst : Z := 0.
Definition sq_rdy : Z := 1.
Definition sq_err : Z := 3.
Definition sq_na : Z := 4.

(** Entries of [sqrq_trans]: a state, the queue pair's own state, or bad. *)
Inductive sqrq := SR_state (s : qp_state) | SR_same | SR_bad.

(** Index: RQ state, SQ state; an entry not listed is 0, which is RESET. *)
Definition sqrq_trans_cells : list (Z * Z * sqrq) :=
  [(0, sq_rst, SR_state IB_QPS_RESET); (0, sq_rdy, SR_bad); (0, sq_err, SR_bad);
   (0, sq_na, SR_state IB_QPS_RESET);
   (1, sq_rst, SR_same); (1, sq_rdy, SR_same); (1, sq_err, SR_state IB_QPS_SQE); (1, sq_na, SR_same);
   (3, sq_rst, SR_bad); (3, sq_rdy, SR_bad); (3, sq_err, SR_state IB_QPS_ERR);
   (3, sq_na, SR_state IB_QPS_ERR);
   (4, sq_rst, SR_same); (4, sq_rdy, SR_same); (4, sq_err, SR_same); (4, sq_na, SR_bad)].

(** [inl] is the error; the array has 5 by 5 entries. *)
Definition sqrq_state_to_qp_state (sq_state rq_state : Z) (cur : qp_state) : option (Z + qp_state) :=
  if (sq_state <? 0) || (4 <? sq_state) || (rq_state <? 0) || (4 <? rq_state) then None
  else
    Some (match arr2 (SR_state IB_QPS_RESET) sqrq_trans_cells rq_state sq_state with
          | SR_state s => inr s
          | SR_same => inr cur
          | SR_bad => inl (err EINVAL)
          end).

(** ** Lemmas *)

Lemma truthy_shiftl_land i m : 0 <= i -> truthy (Z.land (Z.shiftl 1 i) m) = Z.testbit m i.
Proof.
  intros Hi. unfold truthy. destruct (Z.eqb_spec (Z.land (Z.shiftl 1 i) m) 0) as [E|E]; simpl.
  - assert (Z.testbit (Z.land (Z.shiftl 1 i) m) i = false) as H by (by rewrite E, Z.bits_0).
    rewrite Z.land_spec, Z.shiftl_spec, Z.sub_diag in H by lia. by rewrite andb_true_l in H.
  - destruct (Z.testbit m i) eqn:Et; [done|]. exfalso. apply E. apply Z.bits_inj'. intros j Hj.
    rewrite Z.land_spec, Z.bits_0, Z.shiftl_1_l, Z.pow2_bits_eqb by lia.
    destruct (Z.eqb_spec i j) as [<-|]; [by rewrite Et|done].
Qed.

Lemma has_flag_bit m i : 0 <= i -> has_flag m (Z.shiftl 1 i) = Z.testbit m i.
Proof. intros. unfold has_flag. rewrite Z.land_comm. by apply truthy_shiftl_land. Qed.

(** The optional parameters of an attribute mask, bit by bit. *)
Lemma testbit_mask_to_opt m k :
  0 <= k ->
  Z.testbit (ib_mask_to_mlx5_opt m) k = true <->
  exists i, 0 <= i < 32 /\ Z.testbit m i = true /\
    Z.testbit (ib_nr_to_mlx5_nr (Z.shiftl 1 i)) k = true.
Proof.
  intros Hk. unfold ib_mask_to_mlx5_opt.
  assert (forall l acc, Forall (Z.le 0) l ->
    Z.testbit (foldl (fun result i => if truthy (Z.land (Z.shiftl 1 i) m)
       then Z.lor result (ib_nr_to_mlx5_nr (Z.shiftl 1 i)) else result) acc l) k = true <->
    Z.testbit acc k = true \/ exists i, i ∈ l /\ Z.testbit m i = true /\
      Z.testbit (ib_nr_to_mlx5_nr (Z.shiftl 1 i)) k = true) as H.
  { intros l. induction l as [|i l IH]; intros acc Hl; cbn [foldl].
    - split; [by left|]. intros [?|(i & []%not_elem_of_nil & _)]; done.
    - inversion Hl as [|? ? Hi Hl']; subst. rewrite IH by done.
      rewrite truthy_shiftl_land by done.
      setoid_rewrite elem_of_cons.
      destruct (Z.testbit m i) eqn:Em.
      + rewrite Z.lor_spec, orb_true_iff. split.
        * intros [[?|?]|(j & ? & ? & ?)]; [by left|right; exists i; auto|right; exists j; auto].
        * intros [?|(j & [->|?] & ? & ?)]; [by left; left|by left; right|right; by exists j].
      + split; [intros [?|(j & ? & ? & ?)]; [by left|right; exists j; auto]|].
        intros [?|(j & [->|?] & ? & ?)]; [by left|congruence|right; by exists j]. }
  rewrite H by (apply Forall_forall; intros i ?%list_elem_of_In%elem_of_seqZ; lia).
  rewrite Z.bits_0. setoid_rewrite elem_of_seqZ. split.
  - intros [?|(i & ? & ? & ?)]; [done|]. exists i. split_and!; [lia|lia|done|done].
  - intros (i & ? & ? & ?). right. exists i. split_and!; [lia|lia|done|done].
Qed.

Lemma mask_to_opt_mono a b : submask a b -> submask (ib_mask_to_mlx5_opt a) (ib_mask_to_mlx5_opt b).
Proof.
  intros Hs k Hk. rewrite !testbit_mask_to_opt by done.
  intros (i & ? & ? & ?). exists i. split_and!; [lia|lia| |done]. by apply Hs; [lia|].
Qed.

Lemma submask_land_intro a b c : submask a b -> submask a c -> submask a (Z.land b c).
Proof. intros H1 H2 i Hi Ha. rewrite Z.land_spec, H1, H2 by done. done. Qed.

Lemma submask_land_l a b : submask (Z.land a b) a.
Proof. intros i Hi. rewrite Z.land_spec. by intros [? _]%andb_true_iff. Qed.

Lemma submask_land_r a b : submask (Z.land a b) b.
Proof. intros i Hi. rewrite Z.land_spec. by intros [_ ?]%andb_true_iff. Qed.

#[export] Hint Resolve submask_land_intro submask_land_l submask_land_r mask_to_opt_mono : submask.

(** [modify_command] unfolded on its only successful path. *)
Lemma modify_command_inr qp_type mask cur new lag op opt :
  modify_command qp_type mask cur new lag = Some (inr (op, opt)) <->
  0 <= to_mlx5_st qp_type < MLX5_QP_ST_MAX /\
  optab (to_mlx5_state cur) (to_mlx5_state new) <> 0 /\
  op = optab (to_mlx5_state cur) (to_mlx5_state new) /\
  opt = Z.land (Z.lor (if lag then MLX5_QP_OPTPAR_LAG_TX_AFF else 0) (ib_mask_to_mlx5_opt mask))
          (opt_mask (to_mlx5_state cur) (to_mlx5_state new) (to_mlx5_st qp_type)).
Proof.
  unfold modify_command.
  assert (forall s, to_mlx5_state s < MLX5_QP_NUM_STATE) as Hs by (by intros []).
  rewrite !(proj2 (Z.leb_gt MLX5_QP_NUM_STATE _)) by apply Hs. rewrite !orb_false_l.
  destruct (Z.ltb_spec (to_mlx5_st qp_type) 0); [split; [done|lia]|].
  destruct (Z.eqb_spec (optab (to_mlx5_state cur) (to_mlx5_state new)) 0);
    [split; [done|]; intros (_ & ? & _); done|].
  destruct (Z.leb_spec MLX5_QP_ST_MAX (to_mlx5_st qp_type)); [split; [done|lia]|].
  split; [intros [= <- <-]; done|]. intros (_ & _ & -> & ->). done.
Qed.

(** What each firmware command does to a queue pair: the states it starts from and the
    state it leads to. *)
Definition command_from (op : Z) (s : qp_state) : bool :=
  if op =? MLX5_CMD_OP_RST2INIT_QP then bool_decide (s = IB_QPS_RESET)
  else if (op =? MLX5_CMD_OP_INIT2INIT_QP) || (op =? MLX5_CMD_OP_INIT2RTR_QP)
  then bool_decide (s = IB_QPS_INIT)
  else if op =? MLX5_CMD_OP_RTR2RTS_QP then bool_decide (s = IB_QPS_RTR)
  else if op =? MLX5_CMD_OP_RTS2RTS_QP then bool_decide (s = IB_QPS_RTS)
  else if op =? MLX5_CMD_OP_SQERR2RTS_QP then bool_decide (s = IB_QPS_SQE)
  else if op =? MLX5_CMD_OP_SQD_RTS_QP then bool_decide (s = IB_QPS_SQD)
  else (op =? MLX5_CMD_OP_2RST_QP) || (op =? MLX5_CMD_OP_2ERR_QP).

Definition command_to (op : Z) : option qp_state :=
  if op =? MLX5_CMD_OP_2RST_QP then Some IB_QPS_RESET
  else if op =? MLX5_CMD_OP_2ERR_QP then Some IB_QPS_ERR
  else if (op =? MLX5_CMD_OP_RST2INIT_QP) || (op =? MLX5_CMD_OP_INIT2INIT_QP) then Some IB_QPS_INIT
  else if op =? MLX5_CMD_OP_INIT2RTR_QP then Some IB_QPS_RTR
  else if (op =? MLX5_CMD_OP_RTR2RTS_QP) || (op =? MLX5_CMD_OP_RTS2RTS_QP)
          || (op =? MLX5_CMD_OP_SQERR2RTS_QP) || (op =? MLX5_CMD_OP_SQD_RTS_QP) then Some IB_QPS_RTS
  else None.

(** The transitions the driver has a command for. *)
Definition has_command (cur new : qp_state) : bool :=
  bool_decide ((cur, new) ∈ diagram) && negb (bool_decide (new = IB_QPS_SQD))
  || bool_decide (cur = IB_QPS_RESET /\ new = IB_QPS_ERR).

Lemma optab_commands cur new :
  negb (optab (to_mlx5_state cur) (to_mlx5_state new) =? 0) = has_command cur new.
Proof. destruct cur, new; vm_compute; reflexivity. Qed.

Lemma optab_moves cur new :
  let op := optab (to_mlx5_state cur) (to_mlx5_state new) in
  op <> 0 -> command_from op cur = true /\ command_to op = Some new.
Proof. destruct cur, new; vm_compute; split; done. Qed.

(** The driver's queue pair types. *)
Definition known_type (t : Z) : bool :=
  (0 <=? t) && (t <? IB_QPT_MAX) || (t =? MLX5_IB_QPT_REG_UMR) || (t =? MLX5_IB_QPT_HW_GSI)
  || (t =? MLX5_IB_QPT_DCI) || (t =? MLX5_IB_QPT_DCT) || (t =? MLX5_IB_QPT_SW_CNAK).

Lemma to_mlx5_st_range t : err EINVAL <= to_mlx5_st t < MLX5_QP_ST_MAX.
Proof.
  unfold to_mlx5_st, switch. destruct (list_find _ _) as [[i [k v]]|] eqn:E; [|by compute].
  apply list_find_Some in E as (Hi & _ & _). apply list_elem_of_lookup_2 in Hi.
  assert (Forall (fun p => err EINVAL <= p.2 < MLX5_QP_ST_MAX) to_mlx5_st_cases) as Hf
    by (repeat constructor; by compute).
  rewrite Forall_forall in Hf. apply list_elem_of_In in Hi. exact (Hf _ Hi).
Qed.

Lemma modify_command_total t mask cur new lag : is_Some (modify_command t mask cur new lag).
Proof.
  unfold modify_command. pose proof (to_mlx5_st_range t).
  destruct (_ <? 0); [done|]. destruct (_ || _ || _); [done|].
  destruct (Z.leb_spec MLX5_QP_ST_MAX (to_mlx5_st t)); [lia|done].
Qed.

(** The type the checks use. *)
Definition checked_type (qp : mlx5_qp) : Z :=
  if type qp =? MLX5_IB_QPT_HW_GSI then IB_QPT_GSI else type qp.

Lemma check_ucmd_type u qp qp1 :
  check_modify_ucmd u qp = inr qp1 ->
  type qp1 = type qp /\ state qp1 = state qp /\ create_flags qp1 = create_flags qp.
Proof. unfold check_modify_ucmd. repeat case_cond; intros [= <-]; done. Qed.

Lemma set_tclass_frame dev f qp attr mask qp1 :
  mlx5_ib_qp_set_tclass dev f qp attr mask = qp1 ->
  type qp1 = type qp /\ state qp1 = state qp /\ create_flags qp1 = create_flags qp.
Proof.
  unfold mlx5_ib_qp_set_tclass. intros <-. destruct (negb _); [done|].
  destruct (_ || _); [done|]. by destruct (a_grh_tclass attr).
Qed.

Definition same_identity (qp qp' : mlx5_qp) : Prop :=
  type qp' = type qp /\ state qp' = state qp /\ create_flags qp' = create_flags qp.

Definition port_given_ok (dev : mlx5_dev) (attr : qp_attr) (mask : Z) : Prop :=
  has_flag mask IB_QP_PORT = true -> a_port_num attr <> 0 /\ a_port_num attr <= num_ports dev.

(** The checks before the queue pair is locked: the device allows the type, the mask has
    known bits only, the queue pair has no indirection table and is not handled
    elsewhere. *)
Record entry_checked (dev : mlx5_dev) (qp : mlx5_qp) (mask : Z) : Prop := {
  ec_allowed : mlx5_ib_modify_qp_allowed dev qp = true;
  ec_mask : has_flag mask (Z.lnot (flags [IB_QP_ATTR_STANDARD_BITS; IB_QP_RATE_LIMIT; IB_QP_OFFLOAD_TYPE;
                                          IB_QP_RMPN_XRQN])) = false;
  ec_rwq : rwq_ind_tbl qp = false;
  ec_gsi : type qp <> IB_QPT_GSI;
  ec_dct : checked_type qp <> MLX5_IB_QPT_DCT
}.

(** A user command that is given is long enough, was copied, has zeros behind it, no
    unknown flag and nothing reserved, and asks for out-of-order placement only of a
    device that has it. *)
Definition ucmd_checked (u : modify_ucmd) : Prop :=
  inlen u <> 0 ->
  size_to_ece u <= inlen u /\ (inlen u <= sizeof_ucmd u \/ rest_cleared u = true) /\ copy_ok u = true /\
  has_flag (comp_mask u) (Z.lnot MLX5_IB_MODIFY_QP_OOO_DP) = false /\ burst_reserved_zero u = true /\
  (has_flag (comp_mask u) MLX5_IB_MODIFY_QP_OOO_DP = true -> dp_ooo_cap u = true).

Lemma check_ucmd_checked u qp qp1 : check_modify_ucmd u qp = inr qp1 -> ucmd_checked u.
Proof.
  unfold check_modify_ucmd, ucmd_checked. intros H Hi. rewrite (proj2 (Z.eqb_neq _ _) Hi) in H.
  destruct (Z.ltb_spec (inlen u) (size_to_ece u)); [done|].
  destruct (Z.ltb_spec (sizeof_ucmd u) (inlen u)), (rest_cleared u), (copy_ok u),
    (has_flag (comp_mask u) (Z.lnot MLX5_IB_MODIFY_QP_OOO_DP)), (burst_reserved_zero u),
    (has_flag (comp_mask u) MLX5_IB_MODIFY_QP_OOO_DP), (dp_ooo_cap u); cbn in H; try done;
    split_and!; auto; lia.
Qed.

(** A queue pair that passes the unlocked checks keeps its identity, and the rest is
    [modify_locked]. *)
Lemma modify_decide_command dev f qp attr mask udata qp' cur new :
  modify_decide dev f qp attr mask udata = Some (qp', Mod_command cur new) ->
  entry_checked dev qp mask /\ (forall u, udata = Some u -> ucmd_checked u) /\
  same_identity qp qp' /\ port_given_ok dev attr mask /\
  modify_locked dev qp' (checked_type qp) attr mask = Some (Mod_command cur new).
Proof.
  unfold modify_decide. destruct (mlx5_ib_modify_qp_allowed dev qp) eqn:A1; [|done]. cbn [negb].
  destruct (has_flag mask _) eqn:A2; [done|]. destruct (rwq_ind_tbl qp) eqn:A3; [done|].
  destruct (match udata with Some u => check_modify_ucmd u qp | None => inr qp end)
    as [e|qp1] eqn:Hu; [done|].
  assert (same_identity qp qp1) as (Ht & Hs & Hf).
  { destruct udata; [by eapply check_ucmd_type|]. by simplify_eq/=. }
  assert (forall u, udata = Some u -> ucmd_checked u) as Hud
    by (intros u ->; by eapply check_ucmd_checked).
  rewrite Ht. fold (checked_type qp). destruct (Z.eqb_spec (type qp) IB_QPT_GSI) as [|A4]; [done|].
  destruct (Z.eqb_spec (checked_type qp) MLX5_IB_QPT_DCT) as [|A5]; [done|].
  destruct (has_flag mask IB_QP_PORT && _) eqn:Hp; [done|].
  set (qp2 := mlx5_ib_qp_set_tclass dev f qp1 attr mask).
  destruct (modify_locked dev qp2 (checked_type qp) attr mask) as [d|] eqn:Hl; [|done].
  cbn. intros [= <- ->].
  destruct (set_tclass_frame dev f qp1 attr mask qp2 eq_refl) as (Ht2 & Hs2 & Hf2).
  split_and!; [done|done|by unfold same_identity; split_and!; congruence| |done].
  intros Hm. rewrite Hm in Hp. simpl in Hp. bool_to_prop. done.
Qed.

Lemma modify_is_ok_total cur new t mask :
  0 <= t < IB_QPT_MAX -> is_Some (ib_modify_qp_is_ok cur new t mask).
Proof.
  intros Ht. unfold ib_modify_qp_is_ok. case_cond; [done|].
  destruct (qp_state_table _ _); [|done].
  rewrite (proj2 (orb_false_iff _ _)) by (split; [apply Z.ltb_ge|apply Z.leb_gt]; lia).
  cbv zeta. by repeat case_cond.
Qed.

Lemma modify_decide_total dev f qp attr mask udata :
  known_type (type qp) = true -> is_Some (modify_decide dev f qp attr mask udata).
Proof.
  intros Hk. unfold modify_decide. do 3 (case_cond; [done|]).
  destruct (match udata with Some u => check_modify_ucmd u qp | None => inr qp end)
    as [e|qp1] eqn:Hu; [done|].
  assert (type qp1 = type qp) as Ht
    by (destruct udata; [by eapply check_ucmd_type|]; by simplify_eq/=).
  case_cond; [done|]. rewrite Ht. fold (checked_type qp).
  destruct (checked_type qp =? MLX5_IB_QPT_DCT) eqn:E4; [done|].
  case_cond; [done|]. set (qp2 := mlx5_ib_qp_set_tclass dev f qp1 attr mask).
  assert (is_Some (check_transition qp2 (checked_type qp) mask (cur_state qp2 attr mask)
                     (new_state qp2 attr mask))) as [ok Hok].
  { unfold check_transition. case_cond; [done|].
    destruct (ignored_ts_check (checked_type qp)) eqn:Hi; [done|].
    assert (0 <= checked_type qp < IB_QPT_MAX) as Hr.
    { unfold known_type in Hk. unfold ignored_ts_check in Hi.
      rewrite !orb_true_iff, andb_true_iff, !Z.eqb_eq, Z.leb_le, Z.ltb_lt in Hk.
      rewrite !orb_false_iff, !Z.eqb_neq in Hi. apply Z.eqb_neq in E4. revert Hk Hi E4.
      unfold checked_type, IB_QPT_MAX. destruct (Z.eqb_spec (type qp) MLX5_IB_QPT_HW_GSI); [by compute|].
      intuition. }
    destruct (modify_is_ok_total (cur_state qp2 attr mask) (new_state qp2 attr mask) _ mask Hr)
      as [ts ->]. done. }
  unfold modify_locked. rewrite Hok. done.
Qed.

(** *** Rates *)

(** The device supports a rate: the bit of its code is set. *)
Definition supported (stat_rate_support rate : Z) : bool :=
  Z.testbit stat_rate_support (ib_to_mlx5_rate_map rate).

Lemma rate_map_nonneg rate : 0 <= rate -> 0 <= ib_to_mlx5_rate_map rate.
Proof.
  intros Hr. unfold ib_to_mlx5_rate_map, switch. cbn [list_find].
  repeat (case_decide; [by compute|]). unfold MLX5_STAT_RATE_OFFSET. simpl. lia.
Qed.

Lemma lower_rate_spec n sup rate :
  0 <= rate <= Z.of_nat n -> rate < 256 ->
  let r := lower_rate n sup rate in
  0 <= r <= rate /\ (r = 0 \/ supported sup r = true) /\
  forall k, r < k <= rate -> supported sup k = false.
Proof.
  revert rate. induction n as [|n IH]; intros rate Hn Hr; cbn [lower_rate].
  { assert (rate = 0) as -> by lia. split_and!; [lia|lia|by left|intros; lia]. }
  unfold IB_RATE_PORT_CURRENT.
  rewrite truthy_shiftl_land by (apply rate_map_nonneg; lia).
  fold (supported sup rate).
  destruct (Z.eqb_spec rate 0) as [->|Hz]; simpl.
  { split_and!; [lia|lia|by left|intros; lia]. }
  destruct (supported sup rate) eqn:Es; simpl.
  { split_and!; [lia|lia|by right|intros; lia]. }
  rewrite u8_id by lia. destruct (IH (rate - 1)) as (H1 & H2 & H3); [lia|lia|].
  split_and!; [lia|lia|done|]. intros k Hk. destruct (decide (k = rate)) as [->|]; [done|].
  apply H3. lia.
Qed.

Lemma rate_map_inverse rate :
  2 <= rate <= 23 -> mlx5_to_ib_rate_map (ib_to_mlx5_rate_map rate) = rate.
Proof.
  intros Hr.
  assert (rate ∈ seqZ 2 22) as Hin by (apply elem_of_seqZ; lia).
  assert (Forall (fun r => mlx5_to_ib_rate_map (ib_to_mlx5_rate_map r) = r) (seqZ 2 22)) as Hf
    by (vm_compute; repeat constructor).
  rewrite Forall_forall in Hf. by apply Hf, list_elem_of_In.
Qed.

(** ** Properties *)

(** C38. The checks of [mlx5_ib_modify_qp]: when it goes on to the firmware command, the
    device allows it for this type, the mask has known bits only, the queue pair has no
    indirection table and is neither a GSI nor a DCT queue pair, a user command passed
    its checks, the queue pair has kept its type, state and flags, the states of the command are the
    requested ones (the queue pair's own state unless the caller names it), a given
    port and P_Key index are within the device's tables, a given number of outstanding
    reads is within the device's limit; a queue pair on an underlay changes nothing but
    its state, a DCI queue pair makes one of its own transitions with their attributes,
    and for a queue pair of a standard type (other than SRM, and not on an underlay) the
    transition is an edge of the InfiniBand state diagram with all attributes it requires
    and none it does not allow. *)
Theorem modify_decide_checked dev f qp attr mask udata qp' cur new :
  modify_decide dev f qp attr mask udata = Some (qp', Mod_command cur new) ->
  entry_checked dev qp mask /\ (forall u, udata = Some u -> ucmd_checked u) /\
  same_identity qp qp' /\
  cur = cur_state qp attr mask /\ new = new_state qp attr mask /\
  ~ (cur = IB_QPS_RESET /\ new = IB_QPS_RESET) /\
  port_given_ok dev attr mask /\
  (has_flag mask IB_QP_PKEY_INDEX = true -> a_pkey_index attr < pkey_table_len dev) /\
  validate_rd_atomic dev attr mask (checked_type qp) = true /\
  (has_flag (create_flags qp) IB_QP_CREATE_SOURCE_QPN = true ->
   has_flag mask (Z.lnot (Z.lor IB_QP_STATE IB_QP_CUR_STATE)) = false) /\
  (has_flag (create_flags qp) IB_QP_CREATE_SOURCE_QPN = false ->
   checked_type qp = MLX5_IB_QPT_DCI -> modify_dci_qp_is_ok cur new mask = true) /\
  (has_flag (create_flags qp) IB_QP_CREATE_SOURCE_QPN = false ->
   ignored_ts_check (checked_type qp) = false -> 0 <= checked_type qp < IB_QPT_MAX ->
   exists req opt, edge (checked_type qp) cur new = Some (req, opt) /\
     submask req mask /\ submask mask (Z.lor (Z.lor req opt) IB_QP_STATE)).
Proof.
  intros H. apply modify_decide_command in H as (Hec & Hud & Hi & Hp & Hl).
  pose proof Hi as (Ht & Hs & Hf). revert Hl. unfold modify_locked, cur_state, new_state, cur_state.
  rewrite Hs. fold (cur_state qp attr mask). fold (new_state qp attr mask).
  destruct (check_transition qp' (checked_type qp) mask (cur_state qp attr mask)
              (new_state qp attr mask)) as [[]|] eqn:Hc; [|done|done].
  cbn [mbind option_bind negb]. case_cond; [done|]. case_cond; [done|]. case_cond; [done|].
  intros [= <- <-]. bool_to_prop. split_and!; try done.
  - intros [H1 H2]. rewrite bool_decide_eq_true_2 in E1 by congruence.
    by rewrite bool_decide_eq_true_2 in E1.
  - intros Hm. rewrite Hm in E. simpl in E. bool_to_prop. done.
  - intros Hsrc. unfold check_transition in Hc. rewrite Hf, Hsrc in Hc. by destruct (has_flag mask _).
  - intros Hsrc Hdci. unfold check_transition in Hc. rewrite Hf, Hsrc, Hdci in Hc.
    destruct (modify_dci_qp_is_ok _ _ _); done.
  - intros Hsrc Hig Hty. unfold check_transition in Hc. rewrite Hf, Hsrc, Hig in Hc.
    destruct (ib_modify_qp_is_ok _ _ _ _) as [[]|] eqn:Hok; [|done|done].
    apply modify_ok_iff in Hok as (req & opt & He & _ & H1 & H2); [|done]. by exists req, opt.
Qed.

(** A device and queue pairs for the examples. *)
Definition dev0 : mlx5_dev := mk_dev false 1 128 4 4 4 4.
Definition qp0 (t : Z) (s : qp_state) : mlx5_qp :=
  mk_qp t s 0 1 0 0 0 0 0 0 0 0 0 0 0 false false false 0 false.
Definition attr0 (new : qp_state) : qp_attr := mk_attr new IB_QPS_RESET 1 0 1 1 0 0 None.
Definition no_tclass (_ tc : Z) : Z * bool := (tc, false).

Definition rc_init_mask : Z := flags [IB_QP_STATE; IB_QP_PKEY_INDEX; IB_QP_PORT; IB_QP_ACCESS_FLAGS].

Lemma modify_decide_checked_witness :
  exists req opt, edge IB_QPT_RC IB_QPS_RESET IB_QPS_INIT = Some (req, opt) /\
    submask req rc_init_mask /\ submask rc_init_mask (Z.lor (Z.lor req opt) IB_QP_STATE).
Proof.
  destruct (modify_decide_checked dev0 no_tclass (qp0 IB_QPT_RC IB_QPS_RESET) (attr0 IB_QPS_INIT)
    rc_init_mask None (qp0 IB_QPT_RC IB_QPS_RESET) IB_QPS_RESET IB_QPS_INIT)
    as (_ & _ & _ & _ & _ & _ & _ & _ & _ & _ & _ & H); [vm_compute; reflexivity|].
  apply H; [reflexivity|reflexivity|]. split; [discriminate|reflexivity].
Defined.

(** For a queue pair of any of the driver's types, [mlx5_ib_modify_qp] never reads
    outside its tables: neither the attribute table of [ib_modify_qp_is_ok], whatever
    the request, nor [optab] and [opt_mask], whatever the states. *)
Theorem modify_in_bounds dev f qp attr mask udata :
  known_type (type qp) = true ->
  is_Some (modify_decide dev f qp attr mask udata) /\
  forall cur new lag, is_Some (modify_command (type qp) mask cur new lag).
Proof. intros Hk. split; [by apply modify_decide_total|]. intros; apply modify_command_total. Qed.

Lemma modify_in_bounds_witness :
  is_Some (modify_decide dev0 no_tclass (qp0 IB_QPT_SRM IB_QPS_RESET) (attr0 IB_QPS_INIT)
             (Z.ones 21) None).
Proof.
  apply (modify_in_bounds dev0 no_tclass (qp0 IB_QPT_SRM IB_QPS_RESET) (attr0 IB_QPS_INIT)
           (Z.ones 21) None eq_refl).
Defined.

(** The firmware command of a modification: for a type with a service type, a command
    is issued exactly for the transitions of the InfiniBand diagram that do not lead to
    SQD, and for RESET to ERR; every other transition (also RTS to SQD, which the
    attribute check accepts) is refused with -EINVAL. The command issued starts in the
    current state and leads to the requested one, and its optional parameters are all
    allowed by [opt_mask] for this transition and service type. *)
Theorem modify_command_transitions t mask cur new lag :
  0 <= to_mlx5_st t ->
  (has_command cur new = false -> modify_command t mask cur new lag = Some (inl (err EINVAL))) /\
  (has_command cur new = true -> exists op opt,
     modify_command t mask cur new lag = Some (inr (op, opt)) /\
     command_from op cur = true /\ command_to op = Some new /\
     submask opt (opt_mask (to_mlx5_state cur) (to_mlx5_state new) (to_mlx5_st t))).
Proof.
  intros Hst. rewrite <- optab_commands. split.
  - intros H%negb_false_iff. unfold modify_command. rewrite H, !orb_true_r.
    by destruct (_ <? 0).
  - intros H%negb_true_iff%Z.eqb_neq. destruct (optab_moves cur new H) as [H1 H2].
    eexists _, _. split_and!; [|exact H1|exact H2|apply submask_land_r].
    apply modify_command_inr. pose proof (to_mlx5_st_range t). split_and!; try done; lia.
Qed.

Lemma modify_command_transitions_witness :
  modify_command IB_QPT_RC IB_QP_STATE IB_QPS_RTS IB_QPS_SQD false = Some (inl (err EINVAL)) /\
  exists op opt, modify_command IB_QPT_RC rc_init_mask IB_QPS_RESET IB_QPS_INIT false
                 = Some (inr (op, opt)).
Proof.
  split.
  - apply (modify_command_transitions IB_QPT_RC IB_QP_STATE IB_QPS_RTS IB_QPS_SQD false);
      [vm_compute; discriminate|vm_compute; reflexivity].
  - destruct (proj2 (modify_command_transitions IB_QPT_RC rc_init_mask IB_QPS_RESET IB_QPS_INIT false
      ltac:(vm_compute; discriminate)) ltac:(vm_compute; reflexivity)) as (op & opt & H & _).
    exists op, opt. exact H.
Defined.

(** The service types whose optional attributes all have a firmware parameter. *)
Definition full_types : list Z := [IB_QPT_RC; IB_QPT_UD; IB_QPT_XRC_INI; IB_QPT_XRC_TGT].

Definition edge_covered (t : Z) (cur new : qp_state) : bool :=
  match edge t cur new with
  | Some (_, opt) =>
      bool_decide (cur = IB_QPS_SQD) || (optab (to_mlx5_state cur) (to_mlx5_state new) =? 0)
      || submaskb (ib_mask_to_mlx5_opt opt)
           (opt_mask (to_mlx5_state cur) (to_mlx5_state new) (to_mlx5_st t))
  | None => true
  end.

Lemma edges_covered t cur new : t ∈ full_types -> edge_covered t cur new = true.
Proof.
  unfold full_types. rewrite !elem_of_cons, elem_of_nil.
  intros [->|[->|[->|[->|[]]]]]; destruct cur, new; vm_compute; reflexivity.
Qed.

(** No optional attribute is lost: when a modification of an RC, UD or XRC queue pair
    that is not in SQD leads to a command, the optional parameters of the command
    contain those of every attribute given that is optional for the transition. *)
Theorem modify_optional_attributes_reach t cur new mask lag op optpar req opt :
  t ∈ full_types -> cur <> IB_QPS_SQD ->
  edge t cur new = Some (req, opt) ->
  modify_command t mask cur new lag = Some (inr (op, optpar)) ->
  submask (ib_mask_to_mlx5_opt (Z.land mask opt)) optpar.
Proof.
  intros Ht Hc He (_ & Hz & _ & ->)%modify_command_inr.
  pose proof (edges_covered t cur new Ht) as Hcov. unfold edge_covered in Hcov. rewrite He in Hcov.
  rewrite bool_decide_eq_false_2, (proj2 (Z.eqb_neq _ _) Hz) in Hcov by done. simpl in Hcov.
  apply submaskb_ok in Hcov.
  apply submask_land_intro; [eauto with submask|].
  eapply submask_trans; [|exact Hcov]. eauto with submask.
Qed.

Definition rc_rtr_mask : Z :=
  flags [IB_QP_STATE; IB_QP_AV; IB_QP_PATH_MTU; IB_QP_DEST_QPN; IB_QP_RQ_PSN;
         IB_QP_MAX_DEST_RD_ATOMIC; IB_QP_MIN_RNR_TIMER; IB_QP_ALT_PATH].

Lemma modify_optional_attributes_reach_witness :
  exists op optpar,
    modify_command IB_QPT_RC rc_rtr_mask IB_QPS_INIT IB_QPS_RTR false = Some (inr (op, optpar)) /\
    submask (ib_mask_to_mlx5_opt
               (Z.land rc_rtr_mask (flags [IB_QP_ALT_PATH; IB_QP_ACCESS_FLAGS; IB_QP_PKEY_INDEX])))
      optpar.
Proof.
  eexists _, _. split; [vm_compute; reflexivity|].
  eapply (modify_optional_attributes_reach IB_QPT_RC IB_QPS_INIT IB_QPS_RTR rc_rtr_mask false);
    [left|discriminate|vm_compute; reflexivity|vm_compute; reflexivity].
Defined.

(** Queue pairs of the SRM type are exempt from the attribute check: outside an
    underlay, a request that names only the new state is accepted for every pair of
    states (other than RESET to RESET), so a command is issued for every transition that
    has one, with none of the attributes that the other connected types must give, and
    without optional parameters, whatever attributes are given. *)
Theorem srm_transitions_unchecked dev f qp attr mask lag :
  type qp = IB_QPT_SRM -> raw_eth_profile dev = false -> rwq_ind_tbl qp = false ->
  has_flag (create_flags qp) IB_QP_CREATE_SOURCE_QPN = false ->
  ~ (state qp = IB_QPS_RESET /\ a_qp_state attr = IB_QPS_RESET) ->
  modify_decide dev f qp attr IB_QP_STATE None
    = Some (qp, Mod_command (state qp) (a_qp_state attr)) /\
  (has_command (state qp) (a_qp_state attr) = true ->
   modify_command IB_QPT_SRM mask (state qp) (a_qp_state attr) lag
     = Some (inr (optab (to_mlx5_state (state qp)) (to_mlx5_state (a_qp_state attr)), 0))).
Proof.
  intros Ht Hd Hw Hs Hn. split.
  - unfold modify_decide, mlx5_ib_modify_qp_allowed, modify_locked, new_state, cur_state,
      check_transition, mlx5_ib_qp_set_tclass, validate_rd_atomic.
    rewrite Hd, Hw, Ht. simpl. rewrite Hs. simpl.
    case_bool_decide; simpl; [|done]. rewrite bool_decide_eq_false_2; [done|intuition congruence].
  - intros H. rewrite <- optab_commands in H. apply negb_true_iff, Z.eqb_neq in H.
    apply modify_command_inr. split_and!; [by compute|by compute|done|done|].
    replace (opt_mask _ _ (to_mlx5_st IB_QPT_SRM)) with 0; [by rewrite Z.land_0_r|].
    destruct (state qp), (a_qp_state attr); vm_compute; reflexivity.
Qed.

Lemma srm_transitions_unchecked_witness :
  modify_decide dev0 no_tclass (qp0 IB_QPT_SRM IB_QPS_INIT) (attr0 IB_QPS_RTR) IB_QP_STATE None
    = Some (qp0 IB_QPT_SRM IB_QPS_INIT, Mod_command IB_QPS_INIT IB_QPS_RTR) /\
  ib_modify_qp_is_ok IB_QPS_INIT IB_QPS_RTR IB_QPT_RC IB_QP_STATE = Some false.
Proof.
  split; [|vm_compute; reflexivity].
  apply (srm_transitions_unchecked dev0 no_tclass (qp0 IB_QPT_SRM IB_QPS_INIT) (attr0 IB_QPS_RTR)
           IB_QP_STATE false); try reflexivity. intros [? _]; discriminate.
Defined.

(** The static rate of a path: 0 for the port's current rate, -EINVAL for a value that
    is no rate; otherwise the search downwards stops, at the highest rate code not above
    the requested one that the device supports, or at 0. A rate the device supports is
    used as it is and read back unchanged. *)
Theorem ib_rate_to_mlx5_correct sup rate :
  0 <= rate < 256 ->
  (rate = IB_RATE_PORT_CURRENT -> ib_rate_to_mlx5 sup rate = 0) /\
  (rate = 1 \/ IB_RATE_800_GBPS < rate -> ib_rate_to_mlx5 sup rate = err EINVAL) /\
  (IB_RATE_2_5_GBPS <= rate <= IB_RATE_800_GBPS -> exists r, 0 <= r <= rate /\
     ib_rate_to_mlx5 sup rate = ib_to_mlx5_rate_map r /\
     (r = 0 \/ supported sup r = true) /\ (forall k, r < k <= rate -> supported sup k = false) /\
     (supported sup rate = true -> r = rate /\ mlx5_to_ib_rate_map (ib_rate_to_mlx5 sup rate) = rate)).
Proof.
  unfold ib_rate_to_mlx5, IB_RATE_PORT_CURRENT, IB_RATE_2_5_GBPS, IB_RATE_800_GBPS. intros Hr.
  split_and!.
  - intros ->. done.
  - intros H. rewrite (proj2 (Z.eqb_neq rate 0)) by lia.
    destruct H as [->|H]; [done|]. rewrite (proj2 (Z.ltb_lt 23 rate)) by lia. by rewrite orb_true_r.
  - intros H. rewrite (proj2 (Z.eqb_neq rate 0)), (proj2 (Z.ltb_ge rate 2)),
      (proj2 (Z.ltb_ge 23 rate)) by lia.
    destruct (lower_rate_spec 256 sup rate) as (H1 & H2 & H3); [lia|lia|].
    cbn [orb]. exists (lower_rate 256 sup rate). split_and!; try done; [lia|lia|].
    intros Hs. assert (lower_rate 256 sup rate = rate) as ->.
    { destruct (decide (lower_rate 256 sup rate < rate)); [|lia].
      by rewrite (H3 rate) in Hs by lia. }
    split; [done|]. by apply rate_map_inverse.
Qed.

Lemma ib_rate_to_mlx5_correct_witness :
  mlx5_to_ib_rate_map (ib_rate_to_mlx5 (Z.shiftl 1 3) IB_RATE_100_GBPS) = IB_RATE_100_GBPS.
Proof.
  destruct (proj2 (proj2 (ib_rate_to_mlx5_correct (Z.shiftl 1 3) IB_RATE_100_GBPS
    ltac:(unfold IB_RATE_100_GBPS; lia)))) as (r & _ & _ & _ & _ & H);
    [unfold IB_RATE_2_5_GBPS, IB_RATE_100_GBPS, IB_RATE_800_GBPS; lia|].
  apply H. vm_compute. reflexivity.
Defined.

(** The search for a supported rate goes down the rate codes, which are not ordered
    by speed, and passes through the unassigned code 1, whose firmware code is that of
    400 Gb/s: a device without the requested rate can so be given a faster one. Asked
    for 5 Gb/s, a device that supports 30 Gb/s gets 30 Gb/s; asked for 2.5 Gb/s, a
    device that supports only 400 Gb/s gets 400 Gb/s. *)
Theorem ib_rate_to_mlx5_can_raise :
  mlx5_to_ib_rate_map (ib_rate_to_mlx5 (Z.shiftl 1 9) IB_RATE_5_GBPS) = IB_RATE_30_GBPS /\
  ib_rate_to_mbps IB_RATE_5_GBPS < ib_rate_to_mbps IB_RATE_30_GBPS /\
  mlx5_to_ib_rate_map (ib_rate_to_mlx5 (Z.shiftl 1 6) IB_RATE_2_5_GBPS) = IB_RATE_400_GBPS /\
  ib_rate_to_mbps IB_RATE_2_5_GBPS < ib_rate_to_mbps IB_RATE_400_GBPS.
Proof. vm_compute. split_and!; done. Qed.
