(* ===== verification/Mlx5Size.v ===== *)
(** * Work queue sizes in mlx5: drivers/infiniband/hw/mlx5/qp.c

    The sizes of send and receive queues: [set_rq_size], [sq_overhead],
    [calc_send_wqe], [get_send_sge], [calc_sq_size], [set_user_buf_size], [qp_has_rq]
    and the part of [_create_user_qp] that lays out a user's send queue. Integer types
    and conversions are written out; an operation that is undefined in C (a shift by 32
    or more, the power of two above 0, a division by 0) gives [None]. *)

From Stdlib Require Import ZArith Lia.
From stdpp Require Import base tactics numbers list option.
From S2P Require Import Prelude Verbs Mlx5Qp.

Local Open Scope Z_scope.

(** ** C integer operations *)

(** [x << s] for an [int]. *)
Definition c_shl (x s : Z) : option Z :=
  if (s <? 0) || (32 <=? s) then None else Some (s32 (Z.shiftl x s)).

(** [roundup_pow_of_two], on an [unsigned long]. *)
Definition roundup_pow_of_two (n : Z) : option Z :=
  if (n <=? 0) || (2 ^ 63 <? n) then None else Some (2 ^ Z.log2_up n).

Definition ilog2 (n : Z) : Z := Z.log2 n.

(** [x / y] for an [int]. *)
Definition c_div (x y : Z) : option Z := if y =? 0 then None else Some (Z.quot x y).

Definition is_power_of_2 (n : Z) : bool := negb (n =? 0) && (Z.land n (n - 1) =? 0).

(** [ALIGN(x, 64)] on an [int]. *)
Definition ALIGN64 (x : Z) : Z := Z.land (s32 (x + 63)) (Z.lnot 63).

(** ** Sizes of the segments of a WQE (include/linux/mlx5/qp.h) *)

Definition sz_ctrl_seg : Z := 16.
Definition sz_xrc_seg : Z := 16.
Definition sz_atomic_seg : Z := 16.
Definition sz_raddr_seg : Z := 16.
Definition sz_umr_ctrl_seg : Z := 48.
Definition sz_mkey_seg : Z := 64.
Definition sz_datagram_seg : Z := 48.
Definition sz_eth_pad : Z := 16.
Definition sz_eth_seg : Z := 16.
Definition sz_data_seg : Z := 16.
Definition sz_inline_seg : Z := 4.
Definition sz_signature_seg : Z := 16.
Definition sz_mlx_seg : Z := 16.

Definition MLX5_SEND_WQE_BB : Z := 64.
Definition MLX5_SIG_WQE_SIZE : Z := MLX5_SEND_WQE_BB * 8.
Definition MLX5_IB_SQ_UMR_INLINE_THRESHOLD : Z := 64.
Definition MLX5_IB_UMR_OCTOWORD : Z := 16.
Definition IB_QP_CREATE_IPOIB_UD_LSO : Z := Z.shiftl 1 0.
Definition IB_QP_CREATE_INTEGRITY_EN : Z := Z.shiftl 1 6.

(** ** State *)

Record size_caps := mk_caps { log_max_qp_sz : Z; max_wqe_sz_sq : Z; max_wqe_sz_rq : Z }.

Record ib_qp_cap := mk_cap {
  max_send_wr : Z; max_recv_wr : Z; max_send_sge : Z; max_recv_sge : Z; max_inline_data : Z
}.

Record ib_qp_init_attr := mk_init {
  qp_type : Z; attr_create_flags : Z; cap : ib_qp_cap; has_srq : bool
}.

Record mlx5_ib_wq := mk_wq { wqe_cnt : Z; max_post : Z; max_gs : Z; offset : Z; wqe_shift : Z }.

(** The queue pair, as far as the sizes go; [wq_sig] is the signature flag of
    [flags_en], [source_qpn] the underlay flag of [flags]. *)
Record sized_qp := mk_sqp {
  rq : mlx5_ib_wq; sq : mlx5_ib_wq; qp_max_inline : Z; wq_sig : bool; source_qpn : bool;
  buf_size : Z; raw_sq_buf_size : Z
}.

Record create_ucmd := mk_create { rq_wqe_count : Z; rq_wqe_shift : Z; sq_wqe_count : Z }.

Definition set_rq (qp : sized_qp) (w : mlx5_ib_wq) : sized_qp :=
  mk_sqp w (sq qp) (qp_max_inline qp) (wq_sig qp) (source_qpn qp) (buf_size qp) (raw_sq_buf_size qp).
Definition set_sq (qp : sized_qp) (w : mlx5_ib_wq) : sized_qp :=
  mk_sqp (rq qp) w (qp_max_inline qp) (wq_sig qp) (source_qpn qp) (buf_size qp) (raw_sq_buf_size qp).
Definition set_inline (qp : sized_qp) (n : Z) : sized_qp :=
  mk_sqp (rq qp) (sq qp) n (wq_sig qp) (source_qpn qp) (buf_size qp) (raw_sq_buf_size qp).
Definition set_bufs (qp : sized_qp) (n raw : Z) : sized_qp :=
  mk_sqp (rq qp) (sq qp) (qp_max_inline qp) (wq_sig qp) (source_qpn qp) n raw.

(** ** The receive queue *)

(** The branch of a queue pair with a user command. *)
Definition set_rq_size_user (qp : sized_qp) (u : create_ucmd) : option (Z * sized_qp) :=
  let sig := if wq_sig qp then 1 else 0 in
  let cnt := s32 (rq_wqe_count u) in
  let w1 := mk_wq cnt (max_post (rq qp)) (max_gs (rq qp)) (offset (rq qp)) (wqe_shift (rq qp)) in
  if 8 * 4 <? rq_wqe_shift u then Some (err EINVAL, set_rq qp w1)
  else
    let sh := s32 (rq_wqe_shift u) in
    let w2 := mk_wq cnt (max_post (rq qp)) (max_gs (rq qp)) (offset (rq qp)) sh in
    x ← c_shl 1 sh;
    let n := u64 x / sz_data_seg in
    if n <? sig then Some (err EINVAL, set_rq qp w2)
    else Some (0, set_rq qp (mk_wq cnt cnt (s32 (u64 (n - sig))) (offset (rq qp)) sh)).

(** The branch of a kernel queue pair. *)
Definition set_rq_size_kernel (dev : size_caps) (c : ib_qp_cap) (qp : sized_qp)
  : option (Z * sized_qp) :=
  let sig := if wq_sig qp then 1 else 0 in
  let size0 := s32 (u64 ((if wq_sig qp then sz_signature_seg else 0) + max_recv_sge c * sz_data_seg)) in
  p ← roundup_pow_of_two (u64 size0);
  let wqe_size := s32 p in
  n ← roundup_pow_of_two (max_recv_wr c);
  let wq_size := Z.max (s32 (u64 (n * u64 wqe_size))) MLX5_SEND_WQE_BB in
  cnt ← c_div wq_size wqe_size;
  let w1 := mk_wq cnt (max_post (rq qp)) (max_gs (rq qp)) (offset (rq qp)) (wqe_shift (rq qp)) in
  if max_wqe_sz_rq dev <? u32 wqe_size then Some (err EINVAL, set_rq qp w1)
  else
    let sh := ilog2 wqe_size in
    x ← c_shl 1 sh;
    Some (0, set_rq qp (mk_wq cnt cnt (s32 (u64 (u64 x / sz_data_seg - sig))) (offset (rq qp)) sh)).

(** Return value, the capabilities (updated in place) and the queue pair. *)
Definition set_rq_size (dev : size_caps) (c : ib_qp_cap) (has_rq : bool) (qp : sized_qp)
    (ucmd : option create_ucmd) : option (Z * ib_qp_cap * sized_qp) :=
  lim ← c_shl 1 (log_max_qp_sz dev);
  if u32 lim <? max_recv_wr c then Some (err EINVAL, c, qp)
  else if negb has_rq then
    Some (0, mk_cap (max_send_wr c) 0 (max_send_sge c) 0 (max_inline_data c),
          set_rq qp (mk_wq 0 (max_post (rq qp)) 0 (offset (rq qp)) 0))
  else
    r ← match ucmd with Some u => set_rq_size_user qp u | None => set_rq_size_kernel dev c qp end;
    Some (fst r, c, snd r).

Definition qp_has_rq (attr : ib_qp_init_attr) : bool :=
  if (qp_type attr =? IB_QPT_XRC_INI) || (qp_type attr =? IB_QPT_XRC_TGT) || has_srq attr
     || (qp_type attr =? MLX5_IB_QPT_REG_UMR) || (max_recv_wr (cap attr) =? 0)
  then false else true.

(** ** The send queue *)

Definition sq_overhead (attr : ib_qp_init_attr) : Z :=
  let t := qp_type attr in
  let rc := sz_ctrl_seg + Z.max (sz_atomic_seg + sz_raddr_seg)
              (sz_umr_ctrl_seg + sz_mkey_seg
               + MLX5_IB_SQ_UMR_INLINE_THRESHOLD / MLX5_IB_UMR_OCTOWORD) in
  let dgram := sz_ctrl_seg + sz_datagram_seg in
  if t =? IB_QPT_XRC_INI then sz_xrc_seg + rc
  else if t =? IB_QPT_RC then rc
  else if t =? IB_QPT_XRC_TGT then 0
  else if t =? IB_QPT_UC then sz_ctrl_seg + Z.max sz_raddr_seg (sz_umr_ctrl_seg + sz_mkey_seg)
  else if t =? IB_QPT_UD then
    (if has_flag (attr_create_flags attr) IB_QP_CREATE_IPOIB_UD_LSO then sz_eth_pad + sz_eth_seg
     else 0) + dgram
  else if (t =? IB_QPT_SMI) || (t =? MLX5_IB_QPT_HW_GSI) then dgram
  else if t =? MLX5_IB_QPT_REG_UMR then sz_ctrl_seg + sz_umr_ctrl_seg + sz_mkey_seg
  else if t =? MLX5_IB_QPT_SW_CNAK then sz_ctrl_seg + sz_mlx_seg
  else err EINVAL.

Definition calc_send_wqe (attr : ib_qp_init_attr) : Z :=
  let size := sq_overhead attr in
  if size <? 0 then size
  else
    let inl_size := if truthy (max_inline_data (cap attr))
                    then s32 (u64 (size + sz_inline_seg + max_inline_data (cap attr))) else 0 in
    let size1 := s32 (u64 (size + max_send_sge (cap attr) * sz_data_seg)) in
    let a := ALIGN64 (Z.max inl_size size1) in
    if has_flag (attr_create_flags attr) IB_QP_CREATE_INTEGRITY_EN && (a <? MLX5_SIG_WQE_SIZE)
    then MLX5_SIG_WQE_SIZE else a.

Definition get_send_sge (attr : ib_qp_init_attr) (wqe_size : Z) : Z :=
  let max_sge :=
    if qp_type attr =? IB_QPT_RC
    then s32 (u64 (Z.min wqe_size 512 - sz_ctrl_seg - sz_raddr_seg) / sz_data_seg)
    else if qp_type attr =? IB_QPT_XRC_INI
    then s32 (u64 (Z.min wqe_size 512 - sz_ctrl_seg - sz_xrc_seg - sz_raddr_seg) / sz_data_seg)
    else s32 (u64 (s32 (wqe_size - sq_overhead attr)) / sz_data_seg) in
  Z.min max_sge (s32 (u64 (wqe_size - u64 (sq_overhead attr) / sz_data_seg))).

Definition with_cap (attr : ib_qp_init_attr) (c : ib_qp_cap) : ib_qp_init_attr :=
  mk_init (qp_type attr) (attr_create_flags attr) c (has_srq attr).

(** Return value (the size of the queue, or the error), the attributes (updated in
    place) and the queue pair. *)
Definition calc_sq_size (dev : size_caps) (attr : ib_qp_init_attr) (qp : sized_qp)
  : option (Z * ib_qp_init_attr * sized_qp) :=
  let c := cap attr in
  if max_send_wr c =? 0 then Some (0, attr, qp)
  else
    let wqe_size := calc_send_wqe attr in
    if wqe_size <? 0 then Some (wqe_size, attr, qp)
    else if max_wqe_sz_sq dev <? wqe_size then Some (err EINVAL, attr, qp)
    else
      let inl := s32 (u64 (wqe_size - sq_overhead attr - sz_inline_seg)) in
      let c1 := mk_cap (max_send_wr c) (max_recv_wr c) (max_send_sge c) (max_recv_sge c) (u32 inl) in
      let attr1 := with_cap attr c1 in
      p ← roundup_pow_of_two (u32 (max_send_wr c * wqe_size));
      let wq_size := s32 p in
      let cnt := Z.quot wq_size MLX5_SEND_WQE_BB in
      let w := sq qp in
      let qp1 := set_sq (set_inline qp inl) (mk_wq cnt (max_post w) (max_gs w) (offset w) (wqe_shift w)) in
      lim ← c_shl 1 (log_max_qp_sz dev);
      if lim <? cnt then Some (err ENOMEM, attr1, qp1)
      else
        let sh := ilog2 MLX5_SEND_WQE_BB in
        let gs := get_send_sge attr1 wqe_size in
        let qp2 := set_sq qp1 (mk_wq cnt (max_post w) gs (offset w) sh) in
        if u32 gs <? max_send_sge c then Some (err ENOMEM, attr1, qp2)
        else
          post ← c_div wq_size wqe_size;
          Some (wq_size,
                with_cap attr1 (mk_cap (u32 post) (max_recv_wr c) (u32 gs) (max_recv_sge c) (u32 inl)),
                set_sq qp2 (mk_wq cnt post gs (offset w) sh)).

(** ** Buffers of a user queue pair *)

Definition set_user_buf_size (dev : size_caps) (qp : sized_qp) (u : create_ucmd) (t : Z)
  : option (Z * sized_qp) :=
  desc_sz ← c_shl 1 (wqe_shift (sq qp));
  if max_wqe_sz_sq dev <? u32 desc_sz then Some (err EINVAL, qp)
  else if truthy (sq_wqe_count u) && negb (is_power_of_2 (sq_wqe_count u)) then Some (err EINVAL, qp)
  else
    let w := sq qp in
    let cnt := s32 (sq_wqe_count u) in
    let qp1 := set_sq qp (mk_wq cnt (max_post w) (max_gs w) (offset w) (wqe_shift w)) in
    lim ← c_shl 1 (log_max_qp_sz dev);
    if lim <? cnt then Some (err EINVAL, qp1)
    else
      r ← c_shl (wqe_cnt (rq qp)) (wqe_shift (rq qp));
      s ← c_shl cnt 6;
      if (t =? IB_QPT_RAW_PACKET) || source_qpn qp then Some (0, set_bufs qp1 r s)
      else Some (0, set_bufs qp1 (s32 (r + s)) (raw_sq_buf_size qp)).

(** The layout of a user's work queues in [_create_user_qp]. *)
Definition user_layout (dev : size_caps) (qp : sized_qp) (u : create_ucmd) (t : Z)
  : option (Z * sized_qp) :=
  let sh := if t =? IB_QPT_SRM then ilog2 128 else ilog2 MLX5_SEND_WQE_BB in
  off ← c_shl (wqe_cnt (rq qp)) (wqe_shift (rq qp));
  let r := rq qp in
  let w := sq qp in
  let qp1 := set_rq qp (mk_wq (wqe_cnt r) (max_post r) (max_gs r) 0 (wqe_shift r)) in
  let qp2 := set_sq qp1 (mk_wq (wqe_cnt w) (max_post w) (max_gs w) off sh) in
  set_user_buf_size dev qp2 u t.

(** ** Lemmas *)

Lemma s32_u64_id z : 0 <= z < 2 ^ 31 -> s32 (u64 z) = z.
Proof. intros H. rewrite u64_id by lia. apply s32_id. lia. Qed.

Lemma c_shl_1 s : 0 <= s <= 30 -> c_shl 1 s = Some (2 ^ s).
Proof.
  intros Hs. unfold c_shl.
  rewrite (proj2 (Z.ltb_ge s 0)), (proj2 (Z.leb_gt 32 s)) by lia. simpl. f_equal.
  rewrite Z.shiftl_1_l. apply s32_id.
  pose proof (Z.pow_le_mono_r 2 s 30). pose proof (Z.pow_pos_nonneg 2 s). lia.
Qed.

(** The power of two above a size. *)
Lemma roundup_spec n :
  0 < n <= 2 ^ 30 -> exists k, 0 <= k <= 30 /\ roundup_pow_of_two n = Some (2 ^ k) /\
    n <= 2 ^ k < 2 * n.
Proof.
  intros Hn. unfold roundup_pow_of_two.
  rewrite (proj2 (Z.leb_gt n 0)), (proj2 (Z.ltb_ge (2 ^ 63) n)) by lia. simpl.
  exists (Z.log2_up n). split_and!; [apply Z.log2_up_nonneg| |done| |].
  - change 30 with (Z.log2_up (2 ^ 30)). apply Z.log2_up_le_mono. lia.
  - destruct (decide (n = 1)) as [->|]; [done|]. apply Z.log2_up_spec. lia.
  - destruct (decide (n = 1)) as [->|]; [done|].
    assert (0 < Z.log2_up n) by (apply Z.log2_up_pos; lia).
    pose proof (proj1 (Z.log2_up_spec n ltac:(lia))) as Hl.
    replace (Z.log2_up n) with (1 + Z.pred (Z.log2_up n)) by lia.
    rewrite Z.pow_add_r by lia. lia.
Qed.

Lemma ALIGN64_spec x :
  0 <= x <= 2 ^ 31 - 64 -> x <= ALIGN64 x < x + 64 /\ (64 | ALIGN64 x).
Proof.
  intros Hx. unfold ALIGN64. rewrite s32_id by lia.
  assert (Z.land (x + 63) (Z.lnot 63) = 64 * ((x + 63) / 64)) as ->.
  { change 63 with (Z.ones 6) at 2. rewrite <- Z.ldiff_land, Z.ldiff_ones_r by lia.
    rewrite Z.shiftl_mul_pow2, Z.shiftr_div_pow2 by lia. change (2 ^ 6) with 64. lia. }
  pose proof (Z.div_mod (x + 63) 64). pose proof (Z.mod_pos_bound (x + 63) 64).
  split; [lia|]. by exists ((x + 63) / 64); lia.
Qed.

Lemma sq_overhead_range attr : sq_overhead attr = err EINVAL \/ 0 <= sq_overhead attr <= 148.
Proof.
  unfold sq_overhead. cbv zeta. repeat case_cond; try (by left); right; by compute.
Qed.

(** The fields of a request are unsigned 32-bit numbers. *)
Record caps_u32 (c : ib_qp_cap) : Prop := {
  cap_wr : 0 <= max_send_wr c < 2 ^ 32;
  cap_sge : 0 <= max_send_sge c < 2 ^ 32;
  cap_inline : 0 <= max_inline_data c < 2 ^ 32
}.

(** The bytes of a WQE before they are rounded to blocks, as exact numbers. *)
Definition wqe_bytes (attr : ib_qp_init_attr) : Z :=
  Z.max (if truthy (max_inline_data (cap attr))
         then sq_overhead attr + sz_inline_seg + max_inline_data (cap attr) else 0)
        (sq_overhead attr + max_send_sge (cap attr) * sz_data_seg).

(** The WQE is a multiple of the basic block and holds the headers with the gather
    list, or with the inline data; only without both may the headers fill it so that an
    inline segment has no room. *)
Lemma calc_send_wqe_spec attr :
  0 <= sq_overhead attr -> caps_u32 (cap attr) -> wqe_bytes attr <= 2 ^ 31 - 64 ->
  let w := calc_send_wqe attr in
  (64 | w) /\ 0 <= w <= 2 ^ 31 /\ wqe_bytes attr <= w /\
  (sq_overhead attr + sz_inline_seg <= w \/
   max_send_sge (cap attr) = 0 /\ max_inline_data (cap attr) = 0).
Proof.
  intros Ho [_ Hs Hi] Hb. unfold calc_send_wqe, wqe_bytes, truthy, sz_inline_seg, sz_data_seg in *.
  rewrite (proj2 (Z.ltb_ge (sq_overhead attr) 0)) by lia. cbv zeta.
  set (o := sq_overhead attr) in *. set (c := cap attr) in *.
  rewrite (s32_u64_id (o + max_send_sge c * 16)) by lia.
  replace (if negb (max_inline_data c =? 0) then s32 (u64 (o + 4 + max_inline_data c)) else 0)
    with (if negb (max_inline_data c =? 0) then o + 4 + max_inline_data c else 0)
    by (destruct (Z.eqb_spec (max_inline_data c) 0); cbn [negb] in *; [done|];
        rewrite s32_u64_id by lia; done).
  set (m := Z.max _ _) in *.
  assert (0 <= m /\ o <= m /\ (o + 4 <= m \/ max_send_sge c = 0 /\ max_inline_data c = 0)) as (Hm0 & Hm1 & Hm2).
  { unfold m. destruct (Z.eqb_spec (max_inline_data c) 0); cbn [negb]; lia. }
  destruct (ALIGN64_spec m) as [Ha [q Hq]]; [lia|].
  destruct (has_flag _ _ && (ALIGN64 m <? MLX5_SIG_WQE_SIZE)) eqn:E.
  - apply andb_true_iff in E as [_ E%Z.ltb_lt]. unfold MLX5_SIG_WQE_SIZE, MLX5_SEND_WQE_BB in *.
    split_and!; try lia. by exists 8.
  - split_and!; try lia. by exists q.
Qed.

(** Headers of the largest operation a WQE with all its gather entries is used for. *)
Definition data_headers (attr : ib_qp_init_attr) : Z :=
  if qp_type attr =? IB_QPT_RC then sz_ctrl_seg + sz_raddr_seg
  else if qp_type attr =? IB_QPT_XRC_INI then sz_ctrl_seg + sz_xrc_seg + sz_raddr_seg
  else sq_overhead attr.

Lemma get_send_sge_spec attr w :
  0 <= sq_overhead attr -> 64 <= w <= 2 ^ 30 -> sq_overhead attr <= w ->
  0 <= get_send_sge attr w < 2 ^ 31 /\ data_headers attr + get_send_sge attr w * sz_data_seg <= w.
Proof.
  intros Ho Hw Hle. destruct (sq_overhead_range attr) as [E|Hr]; [rewrite E in Ho; by compute in Ho|].
  unfold get_send_sge, data_headers, sz_ctrl_seg, sz_raddr_seg, sz_xrc_seg, sz_data_seg.
  assert (forall h, 0 <= h <= w -> u64 (w - h) = w - h) as Hu by (intros; apply u64_id; lia).
  rewrite (u64_id (sq_overhead attr)) by lia.
  pose proof (Z.div_mod (sq_overhead attr) 16). pose proof (Z.mod_pos_bound (sq_overhead attr) 16).
  rewrite (s32_u64_id (w - sq_overhead attr / 16)) by lia.
  set (h := if qp_type attr =? IB_QPT_RC then 16 + 16 else _).
  set (g := if qp_type attr =? IB_QPT_RC then _ else _).
  assert (0 <= g /\ h + g * 16 <= w) as Hg; [|lia]. unfold g, h.
  assert (forall x, 0 <= x <= 2 ^ 30 -> s32 (u64 x / 16) = x / 16 /\ 0 <= x / 16 /\ x / 16 * 16 <= x) as Hd.
  { intros x Hx. rewrite u64_id by lia. pose proof (Z.div_mod x 16). pose proof (Z.mod_pos_bound x 16).
    rewrite s32_id by lia. lia. }
  case_cond; [destruct (Hd (Z.min w 512 - 16 - 16)) as (-> & ? & ?); lia|].
  case_cond; [destruct (Hd (Z.min w 512 - 16 - 16 - 16)) as (-> & ? & ?); lia|].
  rewrite (s32_id (w - sq_overhead attr)) by lia. destruct (Hd (w - sq_overhead attr)) as (-> & ? & ?); lia.
Qed.

(** The gather entries are refused only for RC and XRC, whose WQEs the device reads up
    to 512 bytes of. *)
Lemma get_send_sge_refused attr w :
  0 <= sq_overhead attr -> 64 <= w <= 2 ^ 30 ->
  sq_overhead attr + max_send_sge (cap attr) * sz_data_seg <= w -> 0 <= max_send_sge (cap attr) ->
  get_send_sge attr w < max_send_sge (cap attr) ->
  (qp_type attr = IB_QPT_RC \/ qp_type attr = IB_QPT_XRC_INI) /\
  512 < data_headers attr + max_send_sge (cap attr) * sz_data_seg.
Proof.
  intros Ho Hw Hle Hs. destruct (sq_overhead_range attr) as [E|Hr]; [rewrite E in Ho; by compute in Ho|].
  unfold get_send_sge, data_headers, sz_ctrl_seg, sz_raddr_seg, sz_xrc_seg, sz_data_seg in *.
  rewrite (u64_id (sq_overhead attr)) by lia.
  pose proof (Z.div_mod (sq_overhead attr) 16). pose proof (Z.mod_pos_bound (sq_overhead attr) 16).
  rewrite (s32_u64_id (w - sq_overhead attr / 16)) by lia.
  set (n := max_send_sge (cap attr)) in *.
  assert (forall x, 0 <= x <= 2 ^ 30 -> s32 (u64 x / 16) < n -> x < n * 16) as Hd.
  { intros x Hx. rewrite u64_id by lia. pose proof (Z.div_mod x 16). pose proof (Z.mod_pos_bound x 16).
    rewrite s32_id by lia. lia. }
  destruct (Z.eqb_spec (qp_type attr) IB_QPT_RC) as [Et|].
  { assert (sq_overhead attr = 132) by (unfold sq_overhead; by rewrite Et).
    specialize (Hd (Z.min w 512 - 16 - 16) ltac:(lia)). split; [by left|lia]. }
  destruct (Z.eqb_spec (qp_type attr) IB_QPT_XRC_INI) as [Et|].
  { assert (sq_overhead attr = 148) by (unfold sq_overhead; by rewrite Et).
    specialize (Hd (Z.min w 512 - 16 - 16 - 16) ltac:(lia)). split; [by right|lia]. }
  rewrite (s32_id (w - sq_overhead attr)) by lia. specialize (Hd (w - sq_overhead attr) ltac:(lia)). lia.
Qed.

(** What a send queue of [sz] bytes promises for a request. *)
Record sq_spec (dev : size_caps) (attr attr' : ib_qp_init_attr) (s : mlx5_ib_wq) (sz : Z) : Prop := {
  sqs_int : 0 < sz < 2 ^ 31;
  sqs_wqe : 0 <= sq_overhead attr /\ MLX5_SEND_WQE_BB <= calc_send_wqe attr <= max_wqe_sz_sq dev;
  sqs_pow2 : exists k, 0 <= k /\ sz = 2 ^ k;
  sqs_blocks : sz = wqe_cnt s * MLX5_SEND_WQE_BB;
  sqs_shift : 2 ^ wqe_shift s = MLX5_SEND_WQE_BB;
  sqs_limit : wqe_cnt s <= 2 ^ log_max_qp_sz dev;
  sqs_post : max_post s * calc_send_wqe attr <= sz;
  sqs_wr : max_send_wr (cap attr) <= max_send_wr (cap attr') /\ max_send_wr (cap attr') = max_post s;
  sqs_sge : max_send_sge (cap attr) <= max_send_sge (cap attr') /\ max_send_sge (cap attr') = max_gs s;
  sqs_sge_fit : data_headers attr + max_gs s * sz_data_seg <= calc_send_wqe attr;
  sqs_inline :
    max_inline_data (cap attr) <= max_inline_data (cap attr') /\
      sq_overhead attr + sz_inline_seg + max_inline_data (cap attr') = calc_send_wqe attr \/
    (* the headers fill the WQE: what is reported is below 0, as an unsigned number *)
    max_send_sge (cap attr) = 0 /\ max_inline_data (cap attr) = 0 /\
      calc_send_wqe attr < sq_overhead attr + sz_inline_seg /\
      max_inline_data (cap attr') = calc_send_wqe attr - sq_overhead attr - sz_inline_seg + 2 ^ 32
}.

(** Why a request is refused, and with which error. *)
Inductive sq_refused (dev : size_caps) (attr : ib_qp_init_attr) : Z -> Prop :=
| SR_type : sq_overhead attr < 0 -> sq_refused dev attr (err EINVAL)
| SR_wqe : max_wqe_sz_sq dev < calc_send_wqe attr -> sq_refused dev attr (err EINVAL)
| SR_size :
    (forall k, 0 <= k -> max_send_wr (cap attr) * calc_send_wqe attr <= 2 ^ k ->
       2 ^ log_max_qp_sz dev * MLX5_SEND_WQE_BB < 2 ^ k) -> sq_refused dev attr (err ENOMEM)
| SR_sge : qp_type attr = IB_QPT_RC \/ qp_type attr = IB_QPT_XRC_INI ->
    512 < data_headers attr + max_send_sge (cap attr) * sz_data_seg ->
    sq_refused dev attr (err ENOMEM).

(** The sizes the checks do not protect: a WQE whose bytes are more than an [int] holds,
    or a queue of WQEs the device takes of more than 2^30 bytes or of no bytes at all. *)
Definition size_overflow (dev : size_caps) (attr : ib_qp_init_attr) : bool :=
  truthy (max_send_wr (cap attr)) && (0 <=? sq_overhead attr) &&
  ((2 ^ 31 - 64 <? wqe_bytes attr)
   || (calc_send_wqe attr <=? max_wqe_sz_sq dev)
      && ((calc_send_wqe attr =? 0) || (2 ^ 30 <? max_send_wr (cap attr) * calc_send_wqe attr))).

(** A queue that keeps the promises has none of those sizes. *)
Lemma sq_spec_no_overflow dev attr attr' s sz :
  caps_u32 (cap attr) -> max_wqe_sz_sq dev < 2 ^ 16 -> sq_spec dev attr attr' s sz ->
  size_overflow dev attr = false.
Proof.
  intros [Hc1 Hc2 Hc3] Hm [Hi [Ho Hw] (k & Hk & Ek) _ _ _ Hp [Hwr1 Hwr2] [Hs1 Hs2] Hsf Hin].
  destruct (sq_overhead_range attr) as [E|Hr]; [rewrite E in Ho; by compute in Ho|].
  assert (0 <= data_headers attr) by
    (unfold data_headers, sz_ctrl_seg, sz_raddr_seg, sz_xrc_seg; repeat case_cond; lia).
  assert (2 ^ k <= 2 ^ 30) by (apply Z.pow_le_mono_r; [lia|];
    assert (k < 31); [apply (Z.pow_lt_mono_r_iff 2); lia|lia]).
  unfold size_overflow, wqe_bytes, truthy, sz_inline_seg, sz_data_seg, MLX5_SEND_WQE_BB in *.
  rewrite (proj2 (Z.eqb_neq (calc_send_wqe attr) 0)) by lia.
  rewrite (proj2 (Z.ltb_ge (2 ^ 30) _)) by nia. cbn [orb]. rewrite andb_false_r, orb_false_r.
  rewrite (proj2 (Z.ltb_ge (2 ^ 31 - 64) _)); [by rewrite andb_false_r|].
  destruct (Z.eqb_spec (max_inline_data (cap attr)) 0); cbn [negb]; lia.
Qed.

Lemma quot_pow2 k w : 0 <= k -> 0 < w -> Z.quot (2 ^ k) w = 2 ^ k / w.
Proof. intros. apply Z.quot_div_nonneg; [apply Z.pow_nonneg|]; lia. Qed.

Lemma pow2_blocks k : 6 <= k -> 2 ^ k / MLX5_SEND_WQE_BB = 2 ^ (k - 6) /\
  2 ^ k = 2 ^ (k - 6) * MLX5_SEND_WQE_BB.
Proof.
  intros. unfold MLX5_SEND_WQE_BB. change 64 with (2 ^ 6).
  replace k with ((k - 6) + 6) at 1 3 by lia. rewrite !Z.pow_add_r by lia.
  split; [|done]. apply Z.div_mul. lia.
Qed.

(** The queue for [wr] WQEs of [w] bytes. *)
Lemma sq_queue_spec wr w :
  0 < wr -> 64 <= w -> wr * w <= 2 ^ 30 ->
  exists k, 0 <= k <= 30 /\ roundup_pow_of_two (u32 (wr * w)) = Some (2 ^ k) /\
    s32 (2 ^ k) = 2 ^ k /\ Z.quot (2 ^ k) MLX5_SEND_WQE_BB * MLX5_SEND_WQE_BB = 2 ^ k /\
    c_div (2 ^ k) w = Some (2 ^ k / w) /\ u32 (2 ^ k / w) = 2 ^ k / w /\
    wr <= 2 ^ k / w /\ 2 ^ k / w * w <= 2 ^ k /\ 2 ^ k < 2 * (wr * w).
Proof.
  intros Hwr Hw Hp. rewrite (u32_id (wr * w)) by nia.
  destruct (roundup_spec (wr * w)) as (k & Hk & Hr & Hkn); [nia|].
  pose proof (Z.pow_le_mono_r 2 k 30 ltac:(lia) ltac:(lia)).
  assert (6 <= k) as Hk6 by (apply (Z.pow_le_mono_r_iff 2); [lia|lia|]; change (2 ^ 6) with 64; nia).
  destruct (pow2_blocks k Hk6) as [Hb1 Hb2].
  pose proof (Z.mul_div_le (2 ^ k) w ltac:(lia)).
  assert (wr <= 2 ^ k / w) by (apply Z.div_le_lower_bound; lia).
  exists k. split_and!; try lia; [done|by apply s32_id; lia| | |].
  - rewrite quot_pow2 by (unfold MLX5_SEND_WQE_BB; lia). lia.
  - unfold c_div. rewrite (proj2 (Z.eqb_neq w 0)), quot_pow2 by lia. done.
  - apply u32_id. nia.
Qed.

(** No power of two of bytes that holds the requests is within the limit. *)
Lemma limit_exceeded k n lim :
  0 <= k -> 2 ^ k < 2 * n -> lim < 2 ^ k -> forall j, 0 <= j -> n <= 2 ^ j -> lim < 2 ^ j.
Proof.
  intros Hk Hn Hl j Hj Hnj. enough (2 ^ k <= 2 ^ j) by lia. apply Z.pow_le_mono_r; [lia|].
  assert (k < j + 1); [|lia]. apply (Z.pow_lt_mono_r_iff 2); [lia|lia|].
  rewrite Z.pow_add_r by lia. lia.
Qed.

(** The sizes that do not overflow. *)
Lemma no_overflow dev attr :
  size_overflow dev attr = false -> 0 < max_send_wr (cap attr) -> 0 <= sq_overhead attr ->
  wqe_bytes attr <= 2 ^ 31 - 64 /\
  (calc_send_wqe attr <= max_wqe_sz_sq dev -> calc_send_wqe attr <> 0 /\
   max_send_wr (cap attr) * calc_send_wqe attr <= 2 ^ 30).
Proof.
  unfold size_overflow, truthy. intros H Hwr Ho.
  rewrite (proj2 (Z.eqb_neq _ 0)), (proj2 (Z.leb_le 0 _) Ho) in H by lia. simpl in H.
  apply orb_false_iff in H as [H1%Z.ltb_ge H2]. split; [done|]. intros Hw%Z.leb_le.
  rewrite Hw in H2. by apply orb_false_iff in H2 as [H2%Z.eqb_neq H3%Z.ltb_ge].
Qed.

(** Conversions of a number through [unsigned long] and [int] to [u32]. *)
Lemma u32_s32_u64 z : u32 (s32 (u64 z)) = u32 z.
Proof.
  unfold u32, s32, u64, swrap. rewrite Zminus_mod_idemp_l, Z.add_simpl_r.
  symmetry. apply Znumtheory.Zmod_div_mod; [lia|lia|]. by exists (2 ^ 32).
Qed.

(** The inline size reported back. *)
Lemma reported_inline o w i n :
  0 <= o <= 148 -> 0 <= w < 2 ^ 16 -> i = 0 \/ o + sz_inline_seg + i <= w ->
  o + sz_inline_seg <= w \/ n = 0 /\ i = 0 ->
  let r := u32 (s32 (u64 (w - o - sz_inline_seg))) in
  i <= r /\ o + sz_inline_seg + r = w \/
  n = 0 /\ i = 0 /\ w < o + sz_inline_seg /\ r = w - o - sz_inline_seg + 2 ^ 32.
Proof.
  unfold sz_inline_seg. intros Ho Hw Hi Hn. cbv zeta. destruct (decide (o + 4 <= w)).
  - left. rewrite s32_u64_id, u32_id by lia. lia.
  - right. split_and!; try lia. rewrite u32_s32_u64.
    unfold u32. rewrite <- (Z.mod_add _ 1) by lia. rewrite Z.mod_small by lia. lia.
Qed.

Lemma calc_sq_size_fits dev attr qp :
  caps_u32 (cap attr) -> 0 <= log_max_qp_sz dev <= 30 -> 0 <= max_wqe_sz_sq dev < 2 ^ 16 ->
  size_overflow dev attr = false ->
  exists sz attr' qp', calc_sq_size dev attr qp = Some (sz, attr', qp') /\
    if max_send_wr (cap attr) =? 0 then sz = 0 /\ attr' = attr /\ qp' = qp
    else sq_refused dev attr sz \/ sq_spec dev attr attr' (sq qp') sz.
Proof.
  intros Hc Hl Hm Hov. pose proof Hc as [Hwr Hsg Hil]. unfold calc_sq_size. cbv zeta.
  destruct (Z.eqb_spec (max_send_wr (cap attr)) 0) as [|Hwr0]; [by eexists _, _, _|].
  destruct (sq_overhead_range attr) as [E|Hor].
  { assert (calc_send_wqe attr = err EINVAL) as -> by
      (unfold calc_send_wqe; cbv zeta; rewrite E; done).
    eexists _, _, _. split; [done|]. left. apply SR_type. by rewrite E. }
  destruct (no_overflow _ _ Hov ltac:(lia) (proj1 Hor)) as [Hb Hq].
  destruct (calc_send_wqe_spec attr (proj1 Hor) Hc Hb) as ([q Hd] & Hw & Hbw & Hroom).
  rewrite (proj2 (Z.ltb_ge _ 0)) by lia.
  destruct (Z.ltb_spec (max_wqe_sz_sq dev) (calc_send_wqe attr)) as [|Hmax];
    [eexists _, _, _; split; [done|left; by apply SR_wqe]|].
  destruct (Hq Hmax) as [Hw0 Hp]. clear Hq. assert (64 <= calc_send_wqe attr) as Hw64 by lia.
  assert (sq_overhead attr + max_send_sge (cap attr) * sz_data_seg <= calc_send_wqe attr /\
    (max_inline_data (cap attr) = 0 \/
     sq_overhead attr + sz_inline_seg + max_inline_data (cap attr) <= calc_send_wqe attr)) as [Hsge Hin].
  { revert Hbw. unfold wqe_bytes, truthy. destruct (Z.eqb_spec (max_inline_data (cap attr)) 0); simpl; lia. }
  destruct (get_send_sge_spec attr (calc_send_wqe attr) (proj1 Hor) ltac:(lia)) as [Hg1 Hg2];
    [unfold sz_data_seg in *; lia|].
  pose proof (get_send_sge_refused attr (calc_send_wqe attr) (proj1 Hor) ltac:(lia) Hsge (proj1 Hsg)) as Href.
  destruct (sq_queue_spec (max_send_wr (cap attr)) _ ltac:(lia) Hw64 Hp)
    as (k & Hk & -> & E1 & E2 & E3 & E4 & Hpost & Hfit & Hk2).
  cbn [mbind option_bind]. rewrite E1, c_shl_1 by lia. cbn [mbind option_bind].
  set (cnt := Z.quot (2 ^ k) MLX5_SEND_WQE_BB) in *.
  destruct (Z.ltb_spec (2 ^ log_max_qp_sz dev) cnt).
  { eexists _, _, _. split; [done|]. left. apply SR_size. apply (limit_exceeded k); [lia|done|].
    unfold MLX5_SEND_WQE_BB in *. lia. }
  match goal with |- context [get_send_sge ?a ?w] =>
    change (get_send_sge a w) with (get_send_sge attr w) end.
  set (gs := get_send_sge attr _) in *. rewrite (u32_id gs) by lia.
  destruct (Z.ltb_spec gs (max_send_sge (cap attr)));
    [eexists _, _, _; split; [done|left; by apply SR_sge; apply Href]|].
  rewrite E3. cbn [mbind option_bind]. rewrite E4.
  eexists _, _, _. split; [done|]. right.
  constructor; simpl; try lia; [unfold MLX5_SEND_WQE_BB; lia|exists k; split; [lia|done]|done|].
  apply reported_inline; [lia|lia|done|done].
Qed.

(** ** Properties *)

(** C40. The size of a kernel send queue, for every request and every device whose
    [log_max_qp_sz] is at most 30 and whose [max_wqe_sz_sq] is a 16-bit field. A request
    without work requests gives 0 and changes nothing. Otherwise, unless the sizes
    overflow, [calc_sq_size] meets no undefined arithmetic and either refuses with a
    reason (the type has no send queue, the WQE or every queue that is large enough is
    above the device's limit, the gather list of an RC or XRC queue pair needs more than
    512 bytes) or gives a queue that keeps every promise: a power of two of bytes made of
    64-byte blocks within the device's limit, room for [max_post] WQEs, at least as many
    work requests, gather entries and inline bytes as asked for (the values reported
    back), and gather entries and inline data that fit the WQE behind its headers; only
    the inline size reported for a request with neither gather entries nor inline data
    may be below 0, taken as an unsigned number. When the sizes overflow
    ([size_overflow]: a WQE beyond [int], or an accepted WQE size with a queue of more
    than 2^30 bytes or none), no result keeps the promises. *)
Theorem calc_sq_size_correct dev attr qp :
  caps_u32 (cap attr) -> 0 <= log_max_qp_sz dev <= 30 -> 0 <= max_wqe_sz_sq dev < 2 ^ 16 ->
  if size_overflow dev attr
  then forall sz attr' qp', calc_sq_size dev attr qp = Some (sz, attr', qp') ->
         ~ sq_spec dev attr attr' (sq qp') sz
  else exists sz attr' qp', calc_sq_size dev attr qp = Some (sz, attr', qp') /\
    if max_send_wr (cap attr) =? 0 then sz = 0 /\ attr' = attr /\ qp' = qp
    else sq_refused dev attr sz \/ sq_spec dev attr attr' (sq qp') sz.
Proof.
  intros Hc Hl Hm. destruct (size_overflow dev attr) eqn:Hov.
  { intros sz attr' qp' _ Hs. rewrite (sq_spec_no_overflow _ _ _ _ _ Hc (proj2 Hm) Hs) in Hov. done. }
  by apply calc_sq_size_fits.
Qed.

Definition caps0 : size_caps := mk_caps 15 1024 512.
Definition wq0 : mlx5_ib_wq := mk_wq 0 0 0 0 0.
Definition sqp0 : sized_qp := mk_sqp wq0 wq0 0 false false 0 0.
Definition rc_attr (wr sge inl : Z) : ib_qp_init_attr :=
  mk_init IB_QPT_RC 0 (mk_cap wr 1 sge 1 inl) false.

Lemma calc_sq_size_correct_witness :
  exists sz attr' qp', calc_sq_size caps0 (rc_attr 100 4 60) sqp0 = Some (sz, attr', qp') /\
    sz = 32768 /\ sq_spec caps0 (rc_attr 100 4 60) attr' (sq qp') sz.
Proof.
  assert (caps_u32 (cap (rc_attr 100 4 60))) as Hc by (constructor; simpl; lia).
  destruct (calc_sq_size_correct caps0 (rc_attr 100 4 60) sqp0 Hc)
    as (sz & attr' & qp' & H & [Hn|Hs]);
    [simpl; lia|simpl; lia| |];
    exists sz, attr', qp'; (split; [exact H|]); vm_compute in H; injection H as <- <- <-.
  - exfalso. inversion Hn.
  - split; [reflexivity|exact Hs].
Defined.

(** What the checks of [calc_sq_size] do not protect. The product of the number of
    requests and the WQE size is taken in 32 bits: a request for 2^26+1
    work requests of 64 bytes succeeds with a queue for one, and a request for 2^26 asks
    for the power of two above 0. Without gather entries and inline data, a UC queue
    pair's WQE has no room for the inline segment, and the inline size reported to the
    caller is 2^32-4. *)
Theorem calc_sq_size_unprotected :
  (exists attr' qp',
     calc_sq_size caps0 (mk_init MLX5_IB_QPT_SW_CNAK 0 (mk_cap (2 ^ 26 + 1) 0 1 0 0) false) sqp0
       = Some (64, attr', qp') /\ max_send_wr (cap attr') = 1) /\
  calc_sq_size caps0 (mk_init MLX5_IB_QPT_SW_CNAK 0 (mk_cap (2 ^ 26) 0 1 0 0) false) sqp0 = None /\
  (exists sz attr' qp',
     calc_sq_size caps0 (mk_init IB_QPT_UC 0 (mk_cap 1 0 0 0 0) false) sqp0
       = Some (sz, attr', qp') /\ 0 < sz /\ max_inline_data (cap attr') = 2 ^ 32 - 4).
Proof.
  split_and!; [eexists _, _; split; [vm_compute; reflexivity|done]|vm_compute; done|].
  eexists _, _, _. split; [vm_compute; reflexivity|]. split; [lia|done].
Qed.

(** What a receive queue promises for a request. *)
Record rq_spec (dev : size_caps) (c : ib_qp_cap) (sig : bool) (w : mlx5_ib_wq) : Prop := {
  rqs_wqe_max : 2 ^ wqe_shift w <= max_wqe_sz_rq dev;
  rqs_pow2 : exists k, 0 <= k /\ wqe_cnt w = 2 ^ k;
  rqs_bytes : MLX5_SEND_WQE_BB <= wqe_cnt w * 2 ^ wqe_shift w;
  rqs_wr : max_recv_wr c <= wqe_cnt w /\ max_post w = wqe_cnt w;
  rqs_sge : max_recv_sge c <= max_gs w;
  rqs_gs : (max_gs w + (if sig then 1 else 0)) * sz_data_seg = 2 ^ wqe_shift w
}.

(** The number of WQEs of a receive queue with [2 ^ a] requests of [2 ^ b] bytes. *)
Lemma rq_count a b :
  0 <= a -> 0 <= b <= 30 -> exists k, 0 <= k /\ a <= k /\
    c_div (Z.max (2 ^ a * 2 ^ b) MLX5_SEND_WQE_BB) (2 ^ b) = Some (2 ^ k) /\
    MLX5_SEND_WQE_BB <= 2 ^ k * 2 ^ b.
Proof.
  intros Ha Hb. pose proof (Z.pow_pos_nonneg 2 a). pose proof (Z.pow_pos_nonneg 2 b).
  unfold MLX5_SEND_WQE_BB, c_div. rewrite (proj2 (Z.eqb_neq (2 ^ b) 0)) by lia.
  destruct (decide (64 <= 2 ^ a * 2 ^ b)).
  - exists a. rewrite Z.max_l by lia. split_and!; [lia|lia| |lia].
    rewrite Z.quot_div_nonneg, Z.div_mul by nia. done.
  - exists (6 - b). rewrite Z.max_r by lia.
    assert (a + b < 6) by (apply (Z.pow_lt_mono_r_iff 2); [lia|lia|]; rewrite Z.pow_add_r by lia;
      change (2 ^ 6) with 64; lia).
    assert (64 = 2 ^ (6 - b) * 2 ^ b) as E by (rewrite <- Z.pow_add_r by lia;
      replace (6 - b + b) with 6 by lia; done).
    split_and!; [lia|lia| |lia]. rewrite Z.quot_div_nonneg by lia. rewrite E, Z.div_mul by lia. done.
Qed.

Lemma set_rq_size_kernel_spec dev c qp :
  let size0 := (if wq_sig qp then sz_signature_seg else 0) + max_recv_sge c * sz_data_seg in
  0 < max_recv_wr c -> 0 <= max_recv_sge c -> 0 < size0 -> max_recv_wr c * size0 <= 2 ^ 28 ->
  exists ret qp', set_rq_size_kernel dev c qp = Some (ret, qp') /\
    (ret = err EINVAL \/ ret = 0 /\ rq_spec dev c (wq_sig qp) (rq qp')).
Proof.
  cbv zeta. set (size0 := _ + _). intros Hwr Hge Hs Hp.
  assert (sz_data_seg <= size0) as Hs16 by
    (revert Hs; unfold size0, sz_signature_seg, sz_data_seg; destruct (wq_sig qp); lia).
  unfold sz_data_seg in Hs16. unfold set_rq_size_kernel. cbv zeta. fold size0.
  rewrite (s32_u64_id size0), (u64_id size0) by nia.
  destruct (roundup_spec size0) as (b & Hb & -> & Hbn); [nia|].
  destruct (roundup_spec (max_recv_wr c)) as (a & Ha & Har & Han); [nia|].
  assert (0 < 2 ^ b <= 2 ^ 30) by nia. assert (0 < 2 ^ a * 2 ^ b <= 2 ^ 30) by nia.
  cbn [mbind option_bind]. rewrite (s32_id (2 ^ b)), Har by lia. cbn [mbind option_bind].
  rewrite (u64_id (2 ^ b)), (s32_u64_id (2 ^ a * 2 ^ b)) by lia.
  destruct (rq_count a b ltac:(lia) Hb) as (k & Hk & Hak & -> & Hbytes). cbn [mbind option_bind].
  rewrite (u32_id (2 ^ b)) by lia.
  destruct (Z.ltb_spec (max_wqe_sz_rq dev) (2 ^ b)); [eexists _, _; split; [done|by left]|].
  unfold ilog2. rewrite Z.log2_pow2, c_shl_1 by lia. cbn [mbind option_bind].
  rewrite (u64_id (2 ^ b)) by lia.
  assert (4 <= b) as Hb4 by (apply (Z.pow_le_mono_r_iff 2); [lia|lia|]; change (2 ^ 4) with 16; lia).
  assert (2 ^ b = 2 ^ (b - 4) * 16) as E by
    (change 16 with (2 ^ 4); rewrite <- Z.pow_add_r by lia; f_equal; lia).
  assert (2 ^ b / sz_data_seg = 2 ^ (b - 4)) as -> by (rewrite E; by apply Z.div_mul).
  pose proof (Z.pow_pos_nonneg 2 (b - 4)). pose proof (Z.pow_le_mono_r 2 a k).
  unfold size0, sz_signature_seg, sz_data_seg in *.
  rewrite s32_u64_id by (destruct (wq_sig qp); lia).
  eexists _, _. split; [done|]. right. split; [done|].
  constructor; simpl; unfold sz_data_seg; try lia; [by exists k|destruct (wq_sig qp); lia].
Qed.

(** The receive queue of a kernel queue pair: for a request within the range of [int]
    that does not exceed the device's limit, [set_rq_size] meets no undefined arithmetic
    and returns -EINVAL (a WQE above the device's maximum) or a queue with a power of two
    of WQEs, at least as many as asked for and at least 64 bytes in all, whose WQEs are
    exactly filled by the signature segment and [max_gs] scatter entries, at least as
    many as asked for. *)
Theorem set_rq_size_correct dev c qp :
  let size0 := (if wq_sig qp then sz_signature_seg else 0) + max_recv_sge c * sz_data_seg in
  0 <= log_max_qp_sz dev <= 30 -> 0 < max_recv_wr c <= 2 ^ log_max_qp_sz dev ->
  0 <= max_recv_sge c -> 0 < size0 -> max_recv_wr c * size0 <= 2 ^ 28 ->
  exists ret qp', set_rq_size dev c true qp None = Some (ret, c, qp') /\
    (ret = err EINVAL \/ ret = 0 /\ rq_spec dev c (wq_sig qp) (rq qp')).
Proof.
  cbv zeta. intros Hl Hwr Hge Hs Hp.
  destruct (set_rq_size_kernel_spec dev c qp ltac:(lia) Hge Hs Hp) as (ret & qp' & H & Hr).
  exists ret, qp'. split; [|done]. unfold set_rq_size. rewrite c_shl_1 by lia. cbn [mbind option_bind].
  pose proof (Z.pow_le_mono_r 2 (log_max_qp_sz dev) 30). rewrite u32_id by lia.
  rewrite (proj2 (Z.ltb_ge _ _)) by lia. cbn [negb]. rewrite H. done.
Qed.

Lemma set_rq_size_correct_witness :
  exists ret qp', set_rq_size caps0 (mk_cap 1 100 1 3 0) true sqp0 None
                  = Some (ret, mk_cap 1 100 1 3 0, qp') /\
    ret = 0 /\ rq_spec caps0 (mk_cap 1 100 1 3 0) false (rq qp').
Proof.
  destruct (set_rq_size_correct caps0 (mk_cap 1 100 1 3 0) sqp0) as (ret & qp' & H & Hr);
    try (vm_compute; split); try (vm_compute; discriminate); try (vm_compute; reflexivity).
  exists ret, qp'. split; [exact H|]. destruct Hr as [->|Hr]; [|exact Hr].
  exfalso. vm_compute in H. discriminate.
Defined.

(** The stride a user gives for its receive queue: above 32 it is refused; exactly 32
    passes the check ([rq_wqe_shift] is compared with the number of its bits) and the
    code shifts an [int] by its own width, which is undefined; from 4 to 30 the WQEs are
    exactly filled by the signature segment and [max_gs] scatter entries. *)
Theorem set_rq_size_user_shift qp u :
  0 <= rq_wqe_shift u < 2 ^ 32 ->
  (32 < rq_wqe_shift u -> exists qp', set_rq_size_user qp u = Some (err EINVAL, qp')) /\
  (rq_wqe_shift u = 32 -> set_rq_size_user qp u = None) /\
  (4 <= rq_wqe_shift u <= 30 -> exists qp', set_rq_size_user qp u = Some (0, qp') /\
     wqe_shift (rq qp') = rq_wqe_shift u /\ max_post (rq qp') = wqe_cnt (rq qp') /\
     (max_gs (rq qp') + (if wq_sig qp then 1 else 0)) * sz_data_seg = 2 ^ rq_wqe_shift u).
Proof.
  intros Hu. unfold set_rq_size_user. cbv zeta. change (8 * 4) with 32. split_and!.
  - intros H. rewrite (proj2 (Z.ltb_lt 32 _)) by lia. eauto.
  - intros ->. simpl. done.
  - intros H. set (s := rq_wqe_shift u) in *.
    rewrite (proj2 (Z.ltb_ge 32 s)), (s32_id s), c_shl_1 by lia. cbn [mbind option_bind].
    assert (2 ^ s = 2 ^ (s - 4) * 16) as E by
      (change 16 with (2 ^ 4); rewrite <- Z.pow_add_r by lia; f_equal; lia).
    pose proof (Z.pow_pos_nonneg 2 (s - 4)). pose proof (Z.pow_le_mono_r 2 (s - 4) 26).
    unfold sz_data_seg. rewrite u64_id, E, Z.div_mul by lia.
    rewrite (proj2 (Z.ltb_ge _ _)) by (destruct (wq_sig qp); lia).
    eexists. split; [done|]. simpl. split_and!; [done|done|].
    rewrite s32_u64_id by (destruct (wq_sig qp); lia). lia.
Qed.

Lemma set_rq_size_user_shift_witness : set_rq_size_user sqp0 (mk_create 16 32 0) = None.
Proof. apply (set_rq_size_user_shift sqp0 (mk_create 16 32 0)); simpl; lia. Defined.

Lemma c_shl_small x s n : 0 <= s < 32 -> Z.shiftl x s = n -> 0 <= n < 2 ^ 31 -> c_shl x s = Some n.
Proof.
  intros Hs <- Hn. unfold c_shl. rewrite (proj2 (Z.ltb_ge s 0)), (proj2 (Z.leb_gt 32 s)) by lia.
  simpl. f_equal. apply s32_id. lia.
Qed.

(** The buffer of a user queue pair (not raw packet, not an underlay): when
    [_create_user_qp] accepts the sizes, the receive queue lies at the start of the
    buffer and the send queue behind it, and together they are exactly the buffer, for
    every type but SRM. For an SRM queue pair the stride of the send queue is 128 bytes
    while the buffer has 64 bytes for each WQE: a send queue that is not empty ends
    beyond the buffer. *)
Theorem user_layout_buffer dev qp u t qp' :
  let rq_bytes := Z.shiftl (wqe_cnt (rq qp)) (wqe_shift (rq qp)) in
  0 <= wqe_shift (rq qp) <= 30 -> 0 <= rq_bytes <= 2 ^ 29 -> 0 <= log_max_qp_sz dev <= 22 ->
  0 <= sq_wqe_count u < 2 ^ 31 -> t <> IB_QPT_RAW_PACKET -> source_qpn qp = false ->
  user_layout dev qp u t = Some (0, qp') ->
  let sq_end := offset (sq qp') + Z.shiftl (wqe_cnt (sq qp')) (wqe_shift (sq qp')) in
  offset (rq qp') = 0 /\ offset (sq qp') = rq_bytes /\ wqe_cnt (sq qp') = sq_wqe_count u /\
  (t <> IB_QPT_SRM -> sq_end = buf_size qp') /\
  (t = IB_QPT_SRM -> 0 < sq_wqe_count u -> buf_size qp' < sq_end).
Proof.
  cbv zeta. intros Hs Hr Hl Hc Ht Hq. unfold user_layout, set_user_buf_size. cbv zeta.
  erewrite (c_shl_small (wqe_cnt (rq qp))) by (done || lia). cbn [mbind option_bind].
  cbn [sq rq wqe_shift wqe_cnt set_sq set_rq offset max_post max_gs source_qpn raw_sq_buf_size].
  set (sh := if t =? IB_QPT_SRM then _ else _).
  assert (0 <= sh < 32) as Hsh by (unfold sh; destruct (_ =? _); by compute).
  erewrite (c_shl_small 1 sh) by
    (lia || done || (unfold sh; destruct (_ =? _); by compute)). cbn [mbind option_bind].
  case_cond; [done|]. case_cond; [done|]. rewrite c_shl_1 by lia. cbn [mbind option_bind].
  rewrite s32_id by lia. destruct (Z.ltb_spec (2 ^ log_max_qp_sz dev) (sq_wqe_count u)); [done|].
  pose proof (Z.pow_le_mono_r 2 (log_max_qp_sz dev) 22).
  erewrite (c_shl_small (wqe_cnt (rq qp))) by (done || lia). cbn [mbind option_bind].
  assert (forall k, 0 <= k -> Z.shiftl (sq_wqe_count u) k = sq_wqe_count u * 2 ^ k) as Hsl
    by (intros; by apply Z.shiftl_mul_pow2).
  erewrite (c_shl_small (sq_wqe_count u) 6) by (done || (rewrite ?Hsl; lia)).
  cbn [mbind option_bind]. rewrite (proj2 (Z.eqb_neq t _) Ht), Hq. cbn [orb]. intros [= <-].
  cbn [sq rq wqe_shift wqe_cnt set_sq set_rq offset buf_size set_bufs].
  rewrite (Hsl 6), (Hsl sh), s32_id by lia. split_and!; try done; unfold sh.
  - intros Hn. rewrite (proj2 (Z.eqb_neq t _) Hn). done.
  - intros -> Hp. simpl. change (2 ^ 7) with 128. lia.
Qed.

Lemma user_layout_buffer_witness :
  exists qp', user_layout caps0 sqp0 (mk_create 0 0 16) IB_QPT_SRM = Some (0, qp') /\
    buf_size qp' < offset (sq qp') + Z.shiftl (wqe_cnt (sq qp')) (wqe_shift (sq qp')).
Proof.
  eexists. split; [vm_compute; reflexivity|].
  eapply (user_layout_buffer caps0 sqp0 (mk_create 0 0 16) IB_QPT_SRM);
    try reflexivity; try discriminate; split; vm_compute; (reflexivity || discriminate).
Defined.
