(* ===== verification/Bfreg.v ===== *)
(** * Doorbell registers of user contexts in mlx5: qp.c and main.c of hw/mlx5

    A user context has system pages of UARs, each with doorbell ("blue flame")
    registers: [calc_total_bfregs], [allocate_uars] and [deallocate_uars] set the pages
    up, [alloc_bfreg] and [mlx5_ib_free_bfreg] hand registers to queue pairs,
    [bfregn_to_uar_index] finds the UAR of a register, [uar_mmap] maps pages and
    allocates dynamic ones. [_create_user_qp] and [destroy_qp] are modelled by the
    resources they take and release. The answers of the firmware and of the memory
    subsystem are arguments. Every access outside an array gives [None]. *)

From Stdlib Require Import ZArith Lia.
From stdpp Require Import base tactics numbers list option sets gmap.
From S2P Require Import Prelude Verbs Mlx5Qp Mlx5Size.

Local Open Scope Z_scope.

Definition MLX5_NON_FP_BFREGS_PER_UAR : Z := 2.
Definition MLX5_BFREGS_PER_UAR : Z := 4.
Definition MLX5_MAX_BFREGS : Z := 512.
Definition MLX5_MIN_DYN_BFREGS : Z := 512.
Definition MLX5_MAX_DYN_BFREGS : Z := 1024.
Definition MLX5_ADAPTER_PAGE_SIZE : Z := 4096.
Definition MLX5_IB_INVALID_UAR_INDEX : Z := 2 ^ 31.
Definition NUM_NON_BLUE_FLAME_BFREGS : Z := 1.
Definition MLX5_IB_MMAP_REGULAR_PAGE : Z := 0.
Definition MLX5_IB_MMAP_WC_PAGE : Z := 2.
Definition MLX5_IB_MMAP_NC_PAGE : Z := 3.
Definition MLX5_IB_MMAP_ALLOC_WC : Z := 6.

(** ** State *)

(** The kernel's page size and the device's [uar_4k] capability. *)
Record uar_dev := mk_udev { PAGE_SIZE : Z; uar_4k : bool }.

Record bfreg_info := mk_bfregi {
  sys_pages : list Z; num_low_latency_bfregs : Z; count : list Z; ver : Z;
  lib_uar_4k : bool; lib_uar_dyn : bool;
  num_sys_pages : Z; num_static_sys_pages : Z; total_num_bfregs : Z; num_dyn_bfregs : Z
}.

Definition set_count (b : bfreg_info) (c : list Z) : bfreg_info :=
  mk_bfregi (sys_pages b) (num_low_latency_bfregs b) c (ver b) (lib_uar_4k b) (lib_uar_dyn b)
    (num_sys_pages b) (num_static_sys_pages b) (total_num_bfregs b) (num_dyn_bfregs b).

Definition set_sys_pages (b : bfreg_info) (p : list Z) : bfreg_info :=
  mk_bfregi p (num_low_latency_bfregs b) (count b) (ver b) (lib_uar_4k b) (lib_uar_dyn b)
    (num_sys_pages b) (num_static_sys_pages b) (total_num_bfregs b) (num_dyn_bfregs b).

(** [a[i]] and [a[i] = v] for an array. *)
Definition at_ (l : list Z) (i : Z) : option Z := if i <? 0 then None else l !! Z.to_nat i.
Definition put (l : list Z) (i v : Z) : option (list Z) :=
  _ ← at_ l i; Some (<[Z.to_nat i := v]> l).

(** [count[i]++] and [count[i]--]. *)
Definition count_inc (l : list Z) (i : Z) : option (list Z) := c ← at_ l i; put l i (u32 (c + 1)).
Definition count_dec (l : list Z) (i : Z) : option (list Z) := c ← at_ l i; put l i (u32 (c - 1)).

(** ** The layout of the pages *)

Definition get_uars_per_sys_page (dev : uar_dev) (lib_support : bool) : Z :=
  if lib_support && uar_4k dev then PAGE_SIZE dev / MLX5_ADAPTER_PAGE_SIZE else 1.

Definition calc_dynamic_bfregs (dev : uar_dev) (uars_per_sys_page : Z) : Z :=
  if (uars_per_sys_page =? 1) && (4096 <? PAGE_SIZE dev) then MLX5_MIN_DYN_BFREGS
  else MLX5_MAX_DYN_BFREGS.

(** [ALIGN(x, a)] on a [u32], for a power of two [a]. *)
Definition ALIGN (x a : Z) : Z := Z.land (u32 (x + (a - 1))) (Z.lnot (a - 1)).

(** The request's [total_num_bfregs] and [num_low_latency_bfregs]; the return value, the
    request's new total and the register info. *)
Definition calc_total_bfregs (dev : uar_dev) (lib_4k : bool) (req_total req_low : Z)
    (b : bfreg_info) : Z * Z * bfreg_info :=
  if req_total =? 0 then (err EINVAL, req_total, b)
  else if MLX5_MAX_BFREGS <? req_total then (err ENOMEM, req_total, b)
  else
    let uars := get_uars_per_sys_page dev lib_4k in
    let per := uars * MLX5_NON_FP_BFREGS_PER_UAR in
    let total := ALIGN req_total per in
    if u32 (total - 1) <? req_low then (err EINVAL, total, b)
    else
      let static := total / per in
      let dyn := ALIGN (calc_dynamic_bfregs dev uars) per in
      (0, total,
       mk_bfregi (sys_pages b) (num_low_latency_bfregs b) (count b) (ver b) (lib_uar_4k b)
         (lib_uar_dyn b) ((total + dyn) / per) static (total + dyn) dyn).

(** [allocate_uars]: [answers] are the results of the firmware's allocations, in order;
    the return value, the pages and the UARs the context holds then. The loop runs over
    the static pages; on an error the pages allocated so far are given back. *)
Fixpoint alloc_loop (n : nat) (i : Z) (answers : list (Z + Z)) (pages : list Z) (uars : gset Z)
  : option (Z * list Z * gset Z) :=
  match n with
  | O => Some (0, pages, uars)
  | S n' =>
      match answers with
      | [] => None
      | inl e :: _ =>
          Some (e, pages, uars ∖ list_to_set (take (Z.to_nat i) pages))
      | inr u :: rest => p ← put pages i u; alloc_loop n' (i + 1) rest p (uars ∪ {[u]})
      end
  end.

Fixpoint fill_invalid (n : nat) (i : Z) (pages : list Z) : option (list Z) :=
  match n with
  | O => Some pages
  | S n' => p ← put pages i MLX5_IB_INVALID_UAR_INDEX; fill_invalid n' (i + 1) p
  end.

Definition allocate_uars (b : bfreg_info) (answers : list (Z + Z)) (uars : gset Z)
  : option (Z * bfreg_info * gset Z) :=
  r ← alloc_loop (Z.to_nat (num_static_sys_pages b)) 0 answers (sys_pages b) uars;
  let '(ret, pages, uars') := r in
  if negb (ret =? 0) then Some (ret, set_sys_pages b pages, uars')
  else
    p ← fill_invalid (Z.to_nat (num_sys_pages b - num_static_sys_pages b))
          (num_static_sys_pages b) pages;
    Some (0, set_sys_pages b p, uars').

Fixpoint dealloc_loop (n : nat) (i : Z) (b : bfreg_info) (uars : gset Z) : option (gset Z) :=
  match n with
  | O => Some uars
  | S n' =>
      pg ← at_ (sys_pages b) i;
      dealloc_loop n' (i + 1) b
        (if (i <? num_static_sys_pages b) || negb (pg =? MLX5_IB_INVALID_UAR_INDEX)
         then uars ∖ {[pg]} else uars)
  end.

Definition deallocate_uars (b : bfreg_info) (uars : gset Z) : option (gset Z) :=
  dealloc_loop (Z.to_nat (num_sys_pages b)) 0 b uars.

(** The registers of a new context that does not manage its UARs itself: the part of
    [mlx5_ib_alloc_ucontext] from [calc_total_bfregs] on, with the arrays [kcalloc]
    returns. *)
Definition setup_bfregs (dev : uar_dev) (lib_4k : bool) (v req_total req_low : Z)
    (answers : list (Z + Z)) (uars : gset Z) : option (Z * bfreg_info * gset Z) :=
  let '(ret, _, b) := calc_total_bfregs dev lib_4k req_total req_low
                        (mk_bfregi [] 0 [] 0 lib_4k false 0 0 0 0) in
  if negb (ret =? 0) then Some (ret, b, uars)
  else
    let b1 := set_sys_pages (set_count b (replicate (Z.to_nat (total_num_bfregs b)) 0))
                (replicate (Z.to_nat (num_sys_pages b)) 0) in
    r ← allocate_uars b1 answers uars;
    let '(ret2, b2, uars') := r in
    Some (ret2,
          mk_bfregi (sys_pages b2) req_low (count b2) v lib_4k false (num_sys_pages b2)
            (num_static_sys_pages b2) (total_num_bfregs b2) (num_dyn_bfregs b2), uars').

(** ** Handing out registers *)

Definition max_bfregs (dev : uar_dev) (b : bfreg_info) : Z :=
  get_uars_per_sys_page dev (lib_uar_4k b) * num_static_sys_pages b * MLX5_NON_FP_BFREGS_PER_UAR.

Definition num_med_bfreg (dev : uar_dev) (b : bfreg_info) : Z :=
  let n := max_bfregs dev b - num_low_latency_bfregs b - NUM_NON_BLUE_FLAME_BFREGS in
  if 0 <=? n then n else 0.

Definition first_med_bfreg (dev : uar_dev) (b : bfreg_info) : Z :=
  if truthy (num_med_bfreg dev b) then 1 else err ENOMEM.

Definition first_hi_bfreg (dev : uar_dev) (b : bfreg_info) : Z := num_med_bfreg dev b + 1.

Fixpoint hi_loop (n : nat) (i : Z) (cnt : list Z) : option (Z * list Z) :=
  match n with
  | O => Some (err ENOMEM, cnt)
  | S n' =>
      c ← at_ cnt i;
      if c =? 0 then (cnt' ← count_inc cnt i; Some (i, cnt')) else hi_loop n' (i + 1) cnt
  end.

Definition alloc_high_class_bfreg (dev : uar_dev) (b : bfreg_info) : option (Z * list Z) :=
  let first := first_hi_bfreg dev b in
  hi_loop (Z.to_nat (max_bfregs dev b - first)) first (count b).

Fixpoint med_loop (n : nat) (i minidx : Z) (cnt : list Z) : option Z :=
  match n with
  | O => Some minidx
  | S n' =>
      ci ← at_ cnt i;
      cm ← at_ cnt minidx;
      let m := if ci <? cm then i else minidx in
      c ← at_ cnt m;
      if c =? 0 then Some m else med_loop n' (i + 1) m cnt
  end.

Definition alloc_med_class_bfreg (dev : uar_dev) (b : bfreg_info) (cnt : list Z)
  : option (Z * list Z) :=
  let minidx := first_med_bfreg dev b in
  if minidx <? 0 then Some (minidx, cnt)
  else
    m ← med_loop (Z.to_nat (first_hi_bfreg dev b - minidx)) minidx minidx cnt;
    cnt' ← count_inc cnt m;
    Some (m, cnt').

Definition alloc_bfreg (dev : uar_dev) (b : bfreg_info) : option (Z * bfreg_info) :=
  if lib_uar_dyn b then Some (err EINVAL, b)
  else
    r ← (if 2 <=? ver b then
           h ← alloc_high_class_bfreg dev b;
           if fst h <? 0 then alloc_med_class_bfreg dev b (snd h) else Some h
         else Some (err ENOMEM, count b));
    if fst r <? 0 then (cnt ← count_inc (snd r) 0; Some (0, set_count b cnt))
    else Some (fst r, set_count b (snd r)).

Definition mlx5_ib_free_bfreg (b : bfreg_info) (bfregn : Z) : option bfreg_info :=
  cnt ← count_dec (count b) bfregn; Some (set_count b cnt).

Definition bfregn_to_uar_index (dev : uar_dev) (b : bfreg_info) (bfregn : Z) (dyn_bfreg : bool)
  : option Z :=
  if lib_uar_dyn b then Some (err EINVAL)
  else
    let per := get_uars_per_sys_page dev (lib_uar_4k b) * MLX5_NON_FP_BFREGS_PER_UAR in
    let index0 := bfregn / per in
    let index := if dyn_bfreg then u32 (index0 + num_static_sys_pages b) else index0 in
    let off := bfregn mod per / MLX5_NON_FP_BFREGS_PER_UAR in
    if dyn_bfreg && (num_sys_pages b <=? index) then Some (err EINVAL)
    else if dyn_bfreg && (num_dyn_bfregs b <? bfregn) then Some (err EINVAL)
    else
      pg ← at_ (sys_pages b) index;
      if dyn_bfreg && (pg =? MLX5_IB_INVALID_UAR_INDEX) then Some (err EINVAL)
      else Some (s32 (u32 (pg + off))).

Definition adjust_bfregn (bfregn : Z) : Z :=
  bfregn / MLX5_NON_FP_BFREGS_PER_UAR * MLX5_BFREGS_PER_UAR + bfregn mod MLX5_NON_FP_BFREGS_PER_UAR.

(** ** Mapping pages *)

Definition get_arg (offset : Z) : Z := Z.land offset (Z.shiftl 1 8 - 1).
Definition get_index (offset : Z) : Z := get_arg offset.
Definition get_extended_index (offset : Z) : Z :=
  Z.lor (get_arg offset) (Z.shiftl (Z.land (Z.shiftr offset 16) 255) 8).

(** [uar_mmap]: [one_page] says that the area is one page, [answer] is what the firmware
    answers to the allocation of a UAR, [map_ret] what the mapping returns; [uars] are
    the UARs the context holds in the firmware. *)
Definition uar_mmap (dev : uar_dev) (b : bfreg_info) (uars : gset Z) (cmd pgoff : Z)
    (one_page : bool) (answer : Z + Z) (map_ret : Z) : option (Z * bfreg_info * gset Z) :=
  let dyn_uar := cmd =? MLX5_IB_MMAP_ALLOC_WC in
  let max_valid_idx := if dyn_uar then num_sys_pages b else num_static_sys_pages b in
  if lib_uar_dyn b then Some (err EINVAL, b, uars)
  else if negb one_page then Some (err EINVAL, b, uars)
  else
    let idx := if dyn_uar then get_extended_index pgoff + num_static_sys_pages b
               else get_index pgoff in
    if max_valid_idx <=? idx then Some (err EINVAL, b, uars)
    else if negb ((cmd =? MLX5_IB_MMAP_WC_PAGE) || (cmd =? MLX5_IB_MMAP_ALLOC_WC)
                  || (cmd =? MLX5_IB_MMAP_REGULAR_PAGE) || (cmd =? MLX5_IB_MMAP_NC_PAGE))
    then Some (err EINVAL, b, uars)
    else if dyn_uar then
      let bidx := u32 (idx * (get_uars_per_sys_page dev (lib_uar_4k b) * MLX5_NON_FP_BFREGS_PER_UAR)) in
      if total_num_bfregs b <=? bidx then Some (err EINVAL, b, uars)
      else
        c ← at_ (count b) bidx;
        if truthy c then Some (err EINVAL, b, uars)
        else
          cnt ← count_inc (count b) bidx;
          let b1 := set_count b cnt in
          match answer with
          | inl e => b2 ← mlx5_ib_free_bfreg b1 bidx; Some (e, b2, uars)
          | inr uar_index =>
              let uars1 := uars ∪ {[uar_index]} in
              if truthy map_ret then
                b2 ← mlx5_ib_free_bfreg b1 bidx; Some (map_ret, b2, uars1 ∖ {[idx]})
              else
                p ← put (sys_pages b1) idx uar_index; Some (0, set_sys_pages b1 p, uars1)
          end
    else
      _ ← at_ (sys_pages b) idx;
      Some (map_ret, b, uars).

(** ** User queue pairs *)

(** Resources of the context: its registers, the number of user memory areas pinned and
    of doorbell records mapped for queue pairs. *)
Record user_res := mk_res { r_bfregi : bfreg_info; r_umems : Z; r_dbs : Z }.

(** What a queue pair holds; [None] is MLX5_IB_INVALID_BFREG. *)
Record user_qp := mk_uqp { uq_type : Z; uq_bfregn : option Z; uq_umem : bool; uq_sizes : sized_qp }.

Inductive uar_request := UAR_page_index | UAR_bfreg_index | UAR_none | UAR_both.

(** What the caller gives, and what the other subsystems answer. *)
Record create_in := mk_in {
  in_type : Z; in_request : uar_request; in_bfreg_index : Z; in_cross_channel : bool;
  in_sizes : sized_qp; in_ucmd : create_ucmd; in_buf_addr : Z;
  in_umem_ret : Z; in_page_size : Z; in_alloc_ok : bool; in_db_ret : Z
}.

(** The register: the return value (0 to go on), the register info and the register. *)
Definition choose_bfreg (dev : uar_dev) (b : bfreg_info) (i : create_in)
  : option (Z * bfreg_info * option Z) :=
  match in_request i with
  | UAR_page_index => Some (0, b, None)
  | UAR_bfreg_index =>
      u ← bfregn_to_uar_index dev b (in_bfreg_index i) true;
      Some (if u <? 0 then u else 0, b, None)
  | UAR_none =>
      if in_cross_channel i then Some (err EINVAL, b, None)
      else
        r ← alloc_bfreg dev b;
        Some (if fst r <? 0 then (fst r, snd r, None) else (0, snd r, Some (fst r)))
  | UAR_both => Some (err EINVAL, b, None)
  end.

Definition free_opt (b : bfreg_info) (bfregn : option Z) : option bfreg_info :=
  match bfregn with Some n => mlx5_ib_free_bfreg b n | None => Some b end.

(** The return value of the part after the layout, and whether a memory area is held on
    success. *)
Definition create_buffers (i : create_in) (s : sized_qp) : Z * bool :=
  let want := truthy (in_buf_addr i) && truthy (buf_size s) in
  if want && truthy (in_umem_ret i) then (in_umem_ret i, false)
  else if want && (in_page_size i =? 0) then (err EINVAL, false)
  else if negb (in_alloc_ok i) then (err ENOMEM, false)
  else if truthy (in_db_ret i) then (in_db_ret i, false)
  else (0, want).

Definition _create_user_qp (dev : uar_dev) (caps : size_caps) (r : user_res) (i : create_in)
  : option (Z * user_res * option user_qp) :=
  c ← choose_bfreg dev (r_bfregi r) i;
  let '(ret, b, bfregn) := c in
  let r1 := mk_res b (r_umems r) (r_dbs r) in
  if negb (ret =? 0) then Some (ret, r1, None)
  else
    _ ← match bfregn with Some n => bfregn_to_uar_index dev b n false | None => Some 0 end;
    l ← user_layout caps (in_sizes i) (in_ucmd i) (in_type i);
    let '(ret2, umem) := if truthy (fst l) then (fst l, false) else create_buffers i (snd l) in
    if truthy ret2 then
      b' ← free_opt b bfregn; Some (ret2, mk_res b' (r_umems r) (r_dbs r), None)
    else
      Some (0, mk_res b (r_umems r + (if umem then 1 else 0)) (r_dbs r + 1),
            Some (mk_uqp (in_type i) bfregn umem (snd l))).

(** [destroy_qp] of a user queue pair. *)
Definition destroy_qp (r : user_res) (q : user_qp) : option user_res :=
  let '(umems, dbs) :=
    if uq_type q =? IB_QPT_SRM
    then (r_umems r - (if uq_umem q then 1 else 0), r_dbs r - 1)
    else (r_umems r, r_dbs r) in
  b ← free_opt (r_bfregi r) (uq_bfregn q);
  Some (mk_res b umems dbs).

(** ** Lemmas *)

Lemma at_Some l i v : at_ l i = Some v <-> 0 <= i /\ l !! Z.to_nat i = Some v.
Proof. unfold at_. destruct (Z.ltb_spec i 0); split; intros; try done; [lia|by destruct_and?]. Qed.

Lemma at_ok l i : 0 <= i < Z.of_nat (length l) -> exists v, at_ l i = Some v.
Proof.
  intros Hi. destruct (lookup_lt_is_Some_2 l (Z.to_nat i)) as [v Hv]; [lia|].
  exists v. apply at_Some. split; [lia|done].
Qed.

Lemma at_range l i v : at_ l i = Some v -> 0 <= i < Z.of_nat (length l).
Proof. intros [? Hl]%at_Some. apply lookup_lt_Some in Hl. lia. Qed.

Lemma put_ok l i v : 0 <= i < Z.of_nat (length l) -> put l i v = Some (<[Z.to_nat i := v]> l).
Proof. intros Hi. unfold put. destruct (at_ok l i Hi) as [x ->]. done. Qed.

Lemma length_put l i v l' : put l i v = Some l' -> length l' = length l.
Proof. unfold put. destruct (at_ l i); [|done]. intros [= <-]. apply length_insert. Qed.

Lemma at_put l i v l' j :
  put l i v = Some l' -> at_ l' j = if bool_decide (i = j) then Some v else at_ l j.
Proof.
  unfold put. destruct (at_ l i) as [x|] eqn:E; [|done]. intros [= <-]. unfold at_ at 1.
  pose proof (at_range _ _ _ E) as Hr. case_bool_decide as Hij.
  - subst j. rewrite (proj2 (Z.ltb_ge i 0)) by lia. apply list_lookup_insert_eq. lia.
  - unfold at_. destruct (Z.ltb_spec j 0); [done|]. apply list_lookup_insert_ne. lia.
Qed.

Abbreviation counts_ok := (Forall (fun c => 0 <= c < 2 ^ 32)).

Lemma count_inc_ok l i :
  0 <= i < Z.of_nat (length l) -> exists c, at_ l i = Some c /\
    count_inc l i = Some (<[Z.to_nat i := u32 (c + 1)]> l).
Proof.
  intros Hi. destruct (at_ok l i Hi) as [c Hc]. exists c. split; [done|].
  unfold count_inc. rewrite Hc. cbn [mbind option_bind]. by apply put_ok.
Qed.

(** Taking a count and giving it back. *)
Lemma count_inc_dec l i l' : counts_ok l -> count_inc l i = Some l' -> count_dec l' i = Some l.
Proof.
  intros Hok. unfold count_inc. destruct (at_ l i) as [c|] eqn:E; [|done].
  pose proof (at_range _ _ _ E) as Hr. cbn [mbind option_bind]. intros Hp.
  unfold count_dec. rewrite (at_put _ _ _ _ i Hp), bool_decide_eq_true_2 by done.
  cbn [mbind option_bind]. rewrite put_ok in Hp by done. injection Hp as <-.
  rewrite put_ok by (rewrite length_insert; done). f_equal.
  rewrite list_insert_insert_eq. apply at_Some in E as [_ E].
  pose proof (Forall_lookup_1 _ _ _ _ Hok E) as Hc. cbv beta in Hc.
  assert (u32 (u32 (c + 1) - 1) = c) as ->.
  { unfold u32. rewrite Zminus_mod_idemp_l. replace (c + 1 - 1) with c by lia. by apply Z.mod_small. }
  by apply list_insert_id.
Qed.

(** The search for a free register. *)
Lemma hi_loop_spec n i cnt :
  0 <= i -> i + Z.of_nat n <= Z.of_nat (length cnt) ->
  (exists j, i <= j < i + Z.of_nat n /\ at_ cnt j = Some 0 /\
     hi_loop n i cnt = Some (j, <[Z.to_nat j := 1]> cnt)) \/
  (hi_loop n i cnt = Some (err ENOMEM, cnt) /\
   forall j c, i <= j < i + Z.of_nat n -> at_ cnt j = Some c -> c <> 0).
Proof.
  revert i. induction n as [|n IH]; intros i Hi Hl; cbn [hi_loop].
  { right. split; [done|]. intros; lia. }
  destruct (count_inc_ok cnt i) as (c & Hc & Hinc); [lia|]. rewrite Hc. cbn [mbind option_bind].
  destruct (Z.eqb_spec c 0) as [->|Hn].
  - left. exists i. rewrite Hinc. split_and!; [lia|lia|done|done].
  - destruct (IH (i + 1)) as [(j & Hj & H0 & H1)|[H1 H2]]; [lia|lia| |].
    + left. exists j. split_and!; [lia|lia|done|done].
    + right. split; [done|]. intros j c' Hj Hc'. destruct (decide (j = i)) as [->|]; [congruence|].
      apply (H2 j); [lia|done].
Qed.

(** The search for the least used register. *)
Lemma med_loop_spec n i m cnt :
  0 <= m -> m <= i -> i + Z.of_nat n <= Z.of_nat (length cnt) -> (n = O -> m < Z.of_nat (length cnt)) ->
  counts_ok cnt ->
  exists r c, med_loop n i m cnt = Some r /\ (r = m \/ i <= r < i + Z.of_nat n) /\
    at_ cnt r = Some c /\
    forall j cj, j = m \/ i <= j < i + Z.of_nat n -> at_ cnt j = Some cj -> c <= cj.
Proof.
  intros Hm Hmi. revert i m Hm Hmi. induction n as [|n IH]; intros i m Hm Hmi Hl Hn Hok; cbn [med_loop].
  { destruct (at_ok cnt m) as [c Hc]; [lia|]. exists m, c. split_and!; [done|by left|done|].
    intros j cj [->|]; [|lia]. intros ?. simplify_eq. lia. }
  destruct (at_ok cnt i) as [ci Hci]; [lia|]. destruct (at_ok cnt m) as [cm Hcm]; [lia|].
  rewrite Hci, Hcm. cbn [mbind option_bind]. cbv zeta.
  set (m' := if ci <? cm then i else m).
  assert (at_ cnt m' = Some (Z.min ci cm)) as Hm'.
  { unfold m'. destruct (Z.ltb_spec ci cm); [rewrite Z.min_l by lia|rewrite Z.min_r by lia]; done. }
  assert (m' = m \/ m' = i) as Hm'' by (unfold m'; case_match; auto).
  rewrite Hm'. cbn [mbind option_bind]. destruct (Z.eqb_spec (Z.min ci cm) 0) as [Hz|].
  - exists m', 0. rewrite <- Hz. split_and!; [done|lia|done|].
    intros j cj _ [_ Hj]%at_Some. rewrite Hz. by apply (Forall_lookup_1 _ _ _ _ Hok Hj).
  - destruct (IH (i + 1) m') as (r & c & H1 & H2 & H3 & H4); [lia|lia|lia| |done|].
    { intros _. apply at_range in Hm'. lia. }
    exists r, c. split_and!; [done|lia|done|]. intros j cj Hj Hcj.
    destruct (decide (i + 1 <= j)); [apply (H4 j); [right; lia|done]|].
    assert (c <= Z.min ci cm) by (apply (H4 m'); [by left|done]).
    destruct Hj as [->|Hj]; simplify_eq; [lia|]. assert (j = i) as -> by lia. simplify_eq. lia.
Qed.

(** ** The layout of a context *)

Definition per_page (dev : uar_dev) (b : bfreg_info) : Z :=
  get_uars_per_sys_page dev (lib_uar_4k b) * MLX5_NON_FP_BFREGS_PER_UAR.

(** The invariant of a context whose registers the kernel hands out. *)
Record layout (dev : uar_dev) (b : bfreg_info) : Prop := {
  lay_kernel : lib_uar_dyn b = false;
  lay_uars : 1 <= get_uars_per_sys_page dev (lib_uar_4k b);
  lay_pages : Z.of_nat (length (sys_pages b)) = num_sys_pages b;
  lay_count : Z.of_nat (length (count b)) = total_num_bfregs b;
  lay_static : 1 <= num_static_sys_pages b <= num_sys_pages b;
  lay_total : total_num_bfregs b = num_sys_pages b * per_page dev b;
  lay_dyn : num_dyn_bfregs b = (num_sys_pages b - num_static_sys_pages b) * per_page dev b;
  lay_low : 0 <= num_low_latency_bfregs b < max_bfregs dev b;
  lay_small : total_num_bfregs b < 2 ^ 16;
  lay_counts : counts_ok (count b)
}.

Lemma layout_max dev b : layout dev b -> max_bfregs dev b <= Z.of_nat (length (count b)).
Proof.
  intros [_ Hu _ Hc Hs Ht _ _ _ _]. rewrite Hc, Ht. unfold max_bfregs, per_page, MLX5_NON_FP_BFREGS_PER_UAR.
  nia.
Qed.

Lemma first_hi_layout dev b :
  layout dev b -> first_hi_bfreg dev b = max_bfregs dev b - num_low_latency_bfregs b /\
    1 <= first_hi_bfreg dev b <= max_bfregs dev b /\
    num_med_bfreg dev b = first_hi_bfreg dev b - 1.
Proof.
  intros [_ _ _ _ _ _ _ Hl _ _]. unfold first_hi_bfreg, num_med_bfreg, NUM_NON_BLUE_FLAME_BFREGS.
  destruct (Z.leb_spec 0 (max_bfregs dev b - num_low_latency_bfregs b - 1)); lia.
Qed.

(** All low-latency registers are in use. *)
Definition hi_busy (dev : uar_dev) (b : bfreg_info) : Prop :=
  forall j c, first_hi_bfreg dev b <= j < max_bfregs dev b -> at_ (count b) j = Some c -> c <> 0.

(** What [alloc_bfreg] may choose: a free low-latency register; when there is none, a
    least used register of the middle class; else the first register. *)
Inductive good_choice (dev : uar_dev) (b : bfreg_info) : Z -> Z -> Prop :=
| choice_hi n : first_hi_bfreg dev b <= n < max_bfregs dev b -> good_choice dev b n 0
| choice_med n c :
    1 <= n < first_hi_bfreg dev b -> hi_busy dev b ->
    (forall j cj, 1 <= j < first_hi_bfreg dev b -> at_ (count b) j = Some cj -> c <= cj) ->
    good_choice dev b n c
| choice_first c :
    ver b < 2 \/ hi_busy dev b /\ num_med_bfreg dev b = 0 -> good_choice dev b 0 c.

Definition take_register (b : bfreg_info) (n c : Z) : bfreg_info :=
  set_count b (<[Z.to_nat n := u32 (c + 1)]> (count b)).

Lemma alloc_med_spec dev b :
  layout dev b -> hi_busy dev b ->
  (num_med_bfreg dev b = 0 /\ alloc_med_class_bfreg dev b (count b) = Some (err ENOMEM, count b)) \/
  exists n c, 1 <= n /\ at_ (count b) n = Some c /\ good_choice dev b n c /\
    alloc_med_class_bfreg dev b (count b) = Some (n, count (take_register b n c)).
Proof.
  intros Hlay Hb. destruct (first_hi_layout dev b Hlay) as (_ & Hr & Hm).
  pose proof (layout_max dev b Hlay) as Hmax.
  unfold alloc_med_class_bfreg, first_med_bfreg, truthy. cbv zeta.
  destruct (Z.eqb_spec (num_med_bfreg dev b) 0) as [Hz|Hz]; [by left|]. right. cbn [negb].
  change (1 <? 0) with false. cbv iota.
  destruct (med_loop_spec (Z.to_nat (first_hi_bfreg dev b - 1)) 1 1 (count b))
    as (n & c & H1 & H2 & H3 & H4); [lia|lia|lia|lia|by destruct Hlay|].
  rewrite H1. cbn [mbind option_bind].
  destruct (count_inc_ok (count b) n (at_range _ _ _ H3)) as (c' & Hc' & ->). simplify_eq.
  exists n, c. split_and!; [lia|done| |done].
  apply choice_med; [lia|done|]. intros j cj Hj. apply H4. lia.
Qed.

Lemma alloc_bfreg_spec dev b :
  layout dev b -> exists n c, alloc_bfreg dev b = Some (n, take_register b n c) /\
    0 <= n < max_bfregs dev b /\ at_ (count b) n = Some c /\ good_choice dev b n c.
Proof.
  intros Hlay. destruct (first_hi_layout dev b Hlay) as (_ & Hr & Hm).
  pose proof (layout_max dev b Hlay) as Hmax.
  assert (exists c, at_ (count b) 0 = Some c /\
            count_inc (count b) 0 = Some (count (take_register b 0 c))) as (c0 & Hc0 & Hi0)
    by (apply count_inc_ok; lia).
  unfold alloc_bfreg. rewrite (lay_kernel _ _ Hlay).
  destruct (Z.leb_spec 2 (ver b)) as [Hv|Hv]; cbn [mbind option_bind fst snd].
  2: { exists 0, c0. change (err ENOMEM <? 0) with true. cbv iota. rewrite Hi0.
       split_and!; [done|lia|lia|done|]. apply choice_first. by left. }
  unfold alloc_high_class_bfreg. cbv zeta.
  destruct (hi_loop_spec (Z.to_nat (max_bfregs dev b - first_hi_bfreg dev b))
    (first_hi_bfreg dev b) (count b)) as [(j & Hj & H0 & ->)|[-> Hb]]; [lia|lia| |];
    cbn [mbind option_bind fst snd].
  - rewrite (proj2 (Z.ltb_ge j 0)) by lia. cbn [mbind option_bind fst snd].
    rewrite (proj2 (Z.ltb_ge j 0)) by lia. exists j, 0.
    split_and!; [done|lia|lia|done|]. apply choice_hi. lia.
  - change (err ENOMEM <? 0) with true. cbv iota.
    assert (hi_busy dev b) as Hbusy by (intros j c Hj; apply Hb; lia).
    destruct (alloc_med_spec dev b Hlay Hbusy) as [[Hz ->]|(n & c & Hn & Hc & Hg & ->)];
      cbn [mbind option_bind fst snd].
    + change (err ENOMEM <? 0) with true. cbv iota. rewrite Hi0. exists 0, c0.
      split_and!; [done|lia|lia|done|]. apply choice_first. by right.
    + rewrite (proj2 (Z.ltb_ge n 0)) by lia. exists n, c. split_and!; [done|lia| |done|done].
      inversion Hg; lia.
Qed.

Lemma free_take dev b n c :
  layout dev b -> at_ (count b) n = Some c ->
  mlx5_ib_free_bfreg (take_register b n c) n = Some b.
Proof.
  intros Hlay Hc. unfold mlx5_ib_free_bfreg, take_register. cbn [count set_count].
  destruct (count_inc_ok (count b) n (at_range _ _ _ Hc)) as (c' & Hc' & Hi). simplify_eq.
  rewrite (count_inc_dec (count b) n _ (lay_counts _ _ Hlay) Hi). by destruct b.
Qed.

Lemma layout_take dev b n c : layout dev b -> layout dev (take_register b n c).
Proof.
  intros [? ? ? ? ? ? ? ? ? ?]. constructor; try done; simpl.
  - by rewrite length_insert.
  - apply Forall_insert; auto with widths.
Qed.

Lemma static_uar_index dev b n :
  layout dev b -> 0 <= n < max_bfregs dev b ->
  exists pg, at_ (sys_pages b) (n / per_page dev b) = Some pg /\
    n / per_page dev b < num_static_sys_pages b /\
    bfregn_to_uar_index dev b n false
    = Some (s32 (u32 (pg + n mod per_page dev b / MLX5_NON_FP_BFREGS_PER_UAR))).
Proof.
  intros Hlay Hn. pose proof Hlay as [Hk Hu Hp _ Hs _ _ _ _ _].
  assert (1 <= per_page dev b) by (unfold per_page, MLX5_NON_FP_BFREGS_PER_UAR; lia).
  assert (0 <= n / per_page dev b < num_static_sys_pages b) as Hi.
  { split; [apply Z.div_pos; lia|]. apply Z.div_lt_upper_bound; [lia|].
    unfold per_page. unfold max_bfregs in Hn. lia. }
  destruct (at_ok (sys_pages b) (n / per_page dev b)) as [pg Hpg]; [lia|].
  exists pg. split_and!; [done|lia|]. unfold bfregn_to_uar_index. rewrite Hk. cbv zeta.
  fold (per_page dev b). rewrite Hpg. done.
Qed.

(** *** Mapping a dynamic page *)

Lemma extended_index_nonneg pgoff : 0 <= get_extended_index pgoff.
Proof.
  unfold get_extended_index, get_arg. apply Z.lor_nonneg. split.
  - apply Z.land_nonneg. right. by compute.
  - apply Z.shiftl_nonneg, Z.land_nonneg. right. lia.
Qed.

Definition dyn_page (b : bfreg_info) (pgoff : Z) : Z :=
  get_extended_index pgoff + num_static_sys_pages b.

(** The dynamic branch, once its checks pass. *)
Lemma uar_mmap_dyn_spec dev b uars pgoff answer map_ret :
  layout dev b -> dyn_page b pgoff < num_sys_pages b ->
  at_ (count b) (dyn_page b pgoff * per_page dev b) = Some 0 ->
  let idx := dyn_page b pgoff in
  uar_mmap dev b uars MLX5_IB_MMAP_ALLOC_WC pgoff true answer map_ret =
  match answer with
  | inl e => Some (e, b, uars)
  | inr u =>
      if truthy map_ret then Some (map_ret, b, (uars ∪ {[u]}) ∖ {[idx]})
      else Some (0, set_sys_pages (take_register b (idx * per_page dev b) 0)
                      (<[Z.to_nat idx := u]> (sys_pages b)), uars ∪ {[u]})
  end.
Proof.
  intros Hlay Hi Hc. cbv zeta. pose proof Hlay as [Hk Hu Hp Hl Hs Ht _ _ Hsm _].
  pose proof (extended_index_nonneg pgoff).
  assert (1 <= per_page dev b) by (unfold per_page, MLX5_NON_FP_BFREGS_PER_UAR; lia).
  assert (0 <= dyn_page b pgoff) by (unfold dyn_page; lia).
  assert (0 <= dyn_page b pgoff * per_page dev b < total_num_bfregs b) as Hb by (rewrite Ht; nia).
  unfold uar_mmap. rewrite Hk. cbv zeta. fold (dyn_page b pgoff). fold (per_page dev b).
  change (MLX5_IB_MMAP_ALLOC_WC =? MLX5_IB_MMAP_ALLOC_WC) with true. cbn [negb andb orb].
  rewrite (proj2 (Z.leb_gt (num_sys_pages b) _)) by lia.
  rewrite orb_true_r. cbn [negb orb]. rewrite (u32_id (dyn_page b pgoff * _)) by lia.
  rewrite (proj2 (Z.leb_gt (total_num_bfregs b) _)) by lia. rewrite Hc. cbn [mbind option_bind].
  change (truthy 0) with false. cbv iota.
  destruct (count_inc_ok (count b) _ (at_range _ _ _ Hc)) as (c' & Hc' & ->). simplify_eq.
  cbn [mbind option_bind]. fold (take_register b (dyn_page b pgoff * per_page dev b) 0).
  rewrite (free_take dev b _ 0 Hlay Hc). destruct answer as [e|u]; [done|].
  destruct (truthy map_ret); [done|]. rewrite put_ok by (simpl; lia). done.
Qed.

(** *** Setting up a context *)

Lemma ALIGN_spec x k :
  0 <= k <= 10 -> 0 <= x <= 2 ^ 20 ->
  ALIGN x (2 ^ k) = (x + 2 ^ k - 1) / 2 ^ k * 2 ^ k /\ x <= ALIGN x (2 ^ k) < x + 2 ^ k.
Proof.
  intros Hk Hx. pose proof (Z.pow_pos_nonneg 2 k). pose proof (Z.pow_le_mono_r 2 k 10).
  unfold ALIGN. rewrite u32_id by lia. rewrite Z.sub_1_r, <- Z.ones_equiv.
  rewrite <- Z.ldiff_land, Z.ldiff_ones_r by lia.
  rewrite Z.shiftl_mul_pow2, Z.shiftr_div_pow2, Z.ones_equiv by lia.
  replace (x + Z.pred (2 ^ k)) with (x + 2 ^ k - 1) by lia. split; [done|].
  pose proof (Z.div_mod (x + 2 ^ k - 1) (2 ^ k)). pose proof (Z.mod_pos_bound (x + 2 ^ k - 1) (2 ^ k)). nia.
Qed.

Lemma alloc_loop_length n i ans pages uars ret p u :
  alloc_loop n i ans pages uars = Some (ret, p, u) -> length p = length pages.
Proof.
  revert i ans pages uars. induction n as [|n IH]; intros i ans pages uars; cbn [alloc_loop].
  { by intros [= _ <- _]. }
  destruct ans as [|[e|v] rest]; [done|by intros [= _ <- _]|].
  destruct (put pages i v) as [p'|] eqn:E; [|done]. cbn [mbind option_bind].
  intros H%IH. by rewrite H, (length_put _ _ _ _ E).
Qed.

(** After a successful loop the context holds, besides what it held, exactly the UARs in
    the pages of the loop, which are answers of the firmware. *)
Lemma alloc_loop_exact n i ans pages uars p u :
  0 <= i -> alloc_loop n i ans pages uars = Some (0, p, u) -> Forall (fun a => a <> inl 0) ans ->
  (forall j, j < i -> at_ p j = at_ pages j) /\
  (forall j x, i <= j < i + Z.of_nat n -> at_ p j = Some x -> inr x ∈ ans) /\
  (forall x, x ∈ u <-> x ∈ uars \/ exists j, i <= j < i + Z.of_nat n /\ at_ p j = Some x).
Proof.
  intros Hi. revert i ans pages uars Hi.
  induction n as [|n IH]; intros i ans pages uars Hi; cbn [alloc_loop].
  { intros [= <- <-] _. split_and!; [done|intros; lia|]. intros x.
    split; [by left|]. intros [?|(j & ? & _)]; [done|lia]. }
  destruct ans as [|[e|v] rest]; [done| |].
  { intros [= -> _ _] Hf. by inversion Hf. }
  destruct (put pages i v) as [p'|] eqn:E; [|done]. cbn [mbind option_bind].
  intros H Hf. inversion Hf as [|? ? _ Hf']; subst.
  destruct (IH (i + 1) rest p' _ ltac:(lia) H Hf') as (H1 & H2 & H3).
  assert (at_ p i = Some v) as Hv.
  { rewrite H1, (at_put _ _ _ _ i E), bool_decide_eq_true_2 by (done || lia). done. }
  split_and!.
  - intros j Hj. rewrite H1, (at_put _ _ _ _ j E), bool_decide_eq_false_2 by lia. done.
  - intros j x Hj Hx. destruct (decide (j = i)) as [->|]; [simplify_eq; left|].
    right. apply (H2 j); [lia|done].
  - intros x. rewrite H3, elem_of_union, elem_of_singleton. split.
    + intros [[?| ->]|(j & ? & ?)]; [by left|right; exists i; split; [lia|done]|].
      right. exists j. split; [lia|done].
    + intros [?|(j & ? & Hj)]; [by left; left|].
      destruct (decide (j = i)) as [->|]; [left; right; congruence|]. right. exists j. split; [lia|done].
Qed.

Lemma dealloc_loop_spec n i b uars :
  0 <= i -> i + Z.of_nat n <= Z.of_nat (length (sys_pages b)) ->
  exists u, dealloc_loop n i b uars = Some u /\ forall x, x ∈ u <-> x ∈ uars /\
    forall j, i <= j < i + Z.of_nat n -> at_ (sys_pages b) j = Some x ->
      num_static_sys_pages b <= j /\ x = MLX5_IB_INVALID_UAR_INDEX.
Proof.
  revert i uars. induction n as [|n IH]; intros i uars Hi Hl; cbn [dealloc_loop].
  { exists uars. split; [done|]. intros x. split; [intros ?; split; [done|intros; lia]|by intros [? _]]. }
  destruct (at_ok (sys_pages b) i) as [pg Hpg]; [lia|]. rewrite Hpg. cbn [mbind option_bind].
  destruct (IH (i + 1)
    (if (i <? num_static_sys_pages b) || negb (pg =? MLX5_IB_INVALID_UAR_INDEX)
     then uars ∖ {[pg]} else uars)) as (u & -> & Hu); [lia|lia|].
  exists u. split; [done|]. intros x. rewrite Hu.
  destruct (Z.ltb_spec i (num_static_sys_pages b)), (Z.eqb_spec pg MLX5_IB_INVALID_UAR_INDEX);
    cbn [orb negb]; rewrite ?elem_of_difference, ?elem_of_singleton; split.
  all: try (intros [[Hx Hne] Hj]; split; [done|]; intros j Hr Hat;
            destruct (decide (j = i)) as [->|]; [congruence|apply Hj; [lia|done]]).
  all: try (intros [Hx Hj]; split; [split; [done|]; intros ->; destruct (Hj i) as [? ?];
            [lia|done|lia || done]|intros j Hr; apply Hj; lia]).
  - intros [Hx Hj]. split; [done|]. intros j Hr Hat.
    destruct (decide (j = i)) as [->|]; [split; [lia|congruence]|apply Hj; [lia|done]].
  - intros [Hx Hj]. split; [done|]. intros j Hr. apply Hj. lia.
Qed.

Lemma fill_invalid_spec n i pages :
  0 <= i -> i + Z.of_nat n <= Z.of_nat (length pages) ->
  exists p, fill_invalid n i pages = Some p /\ length p = length pages /\
    (forall j, j < i -> at_ p j = at_ pages j) /\
    (forall j, i <= j < i + Z.of_nat n -> at_ p j = Some MLX5_IB_INVALID_UAR_INDEX).
Proof.
  revert i pages. induction n as [|n IH]; intros i pages Hi Hl; cbn [fill_invalid].
  { exists pages. split_and!; [done|done|done|intros; lia]. }
  destruct (put pages i MLX5_IB_INVALID_UAR_INDEX) as [p1|] eqn:E;
    [|rewrite put_ok in E by lia; done].
  pose proof (length_put _ _ _ _ E) as Hlen. cbn [mbind option_bind].
  destruct (IH (i + 1) p1) as (p & H1 & H2 & H3 & H4); [lia|lia|].
  exists p. split_and!; [done|lia| |].
  - intros j Hj. rewrite H3, (at_put _ _ _ _ j E), bool_decide_eq_false_2 by lia. done.
  - intros j Hj. destruct (decide (j = i)) as [->|]; [|apply H4; lia].
    rewrite H3, (at_put _ _ _ _ i E), bool_decide_eq_true_2 by (done || lia). done.
Qed.

(** A page size the build accepts: a power of two with whole UARs, so that the registers
    of a page divide [MLX5_MAX_BFREGS]. *)
Definition page_size_ok (dev : uar_dev) : Prop := exists k, 12 <= k <= 20 /\ PAGE_SIZE dev = 2 ^ k.

Lemma uars_pow2 dev lib :
  page_size_ok dev -> exists k, 1 <= k <= 9 /\
    get_uars_per_sys_page dev lib * MLX5_NON_FP_BFREGS_PER_UAR = 2 ^ k /\
    1 <= get_uars_per_sys_page dev lib.
Proof.
  intros (pk & Hpk & Hp). unfold get_uars_per_sys_page, MLX5_NON_FP_BFREGS_PER_UAR, MLX5_ADAPTER_PAGE_SIZE.
  destruct (lib && uar_4k dev); [|exists 1; split_and!; (done || lia)].
  rewrite Hp. change 4096 with (2 ^ 12). rewrite <- Z.pow_sub_r by lia.
  exists (pk - 12 + 1). rewrite Z.pow_add_r by lia. pose proof (Z.pow_pos_nonneg 2 (pk - 12)).
  split_and!; lia.
Qed.

Lemma calc_total_spec dev lib req_total req_low b total b' :
  page_size_ok dev -> 0 <= req_total -> 0 <= req_low ->
  calc_total_bfregs dev lib req_total req_low b = (0, total, b') ->
  let per := get_uars_per_sys_page dev lib * MLX5_NON_FP_BFREGS_PER_UAR in
  1 <= num_static_sys_pages b' <= num_sys_pages b' /\
  total_num_bfregs b' = num_sys_pages b' * per /\
  num_dyn_bfregs b' = (num_sys_pages b' - num_static_sys_pages b') * per /\
  req_low < num_static_sys_pages b' * per /\ total_num_bfregs b' < 2 ^ 16.
Proof.
  intros Hpg Ht Hl. unfold calc_total_bfregs.
  destruct (Z.eqb_spec req_total 0); [done|].
  destruct (Z.ltb_spec MLX5_MAX_BFREGS req_total) as [|Hm]; [done|]. cbv zeta.
  destruct (uars_pow2 dev lib Hpg) as (k & Hk & -> & Hu).
  unfold MLX5_MAX_BFREGS in Hm. pose proof (Z.pow_pos_nonneg 2 k). pose proof (Z.pow_le_mono_r 2 k 9).
  destruct (ALIGN_spec req_total k) as [Ea Hra]; [lia|lia|].
  set (d := calc_dynamic_bfregs dev _).
  assert (0 <= d <= 1024) as Hd by (unfold d, calc_dynamic_bfregs; case_cond; by compute).
  destruct (ALIGN_spec d k) as [Ed Hrd]; [lia|lia|].
  set (s := (req_total + 2 ^ k - 1) / 2 ^ k) in *. set (t := (d + 2 ^ k - 1) / 2 ^ k) in *.
  rewrite Ea, Ed in *.
  assert (1 <= s /\ 0 <= t) as [Hs0 Ht0] by nia.
  rewrite (u32_id (s * 2 ^ k - 1)) by lia.
  destruct (Z.ltb_spec (s * 2 ^ k - 1) req_low); [done|]. intros [= _ <-]. simpl.
  rewrite <- Z.mul_add_distr_r, !Z.div_mul by lia. split_and!; lia.
Qed.

(** *** User queue pairs *)

Lemma dyn_uar_index dev b n :
  layout dev b -> 0 <= n < 2 ^ 32 -> is_Some (bfregn_to_uar_index dev b n true).
Proof.
  intros Hlay Hn. pose proof Hlay as [Hk Hu Hp _ Hs _ _ _ _ _]. unfold bfregn_to_uar_index. rewrite Hk.
  cbv zeta. cbn [andb]. pose proof (u32_range (n / (per_page dev b) + num_static_sys_pages b)).
  unfold per_page in *. case_cond; [done|]. case_cond; [done|]. bool_to_prop.
  match goal with |- context [at_ (sys_pages b) ?i] => destruct (at_ok (sys_pages b) i) as [pg ->]; [lia|] end.
  cbn [mbind option_bind]. by case_cond.
Qed.

(** The register a queue pair gets can be given back. *)
Lemma choose_bfreg_spec dev b i :
  layout dev b -> 0 <= in_bfreg_index i < 2 ^ 32 ->
  exists ret b' n, choose_bfreg dev b i = Some (ret, b', n) /\ free_opt b' n = Some b /\
    layout dev b' /\ (ret <> 0 -> b' = b /\ n = None) /\
    (forall k, n = Some k -> 0 <= k < max_bfregs dev b').
Proof.
  intros Hlay Hi. unfold choose_bfreg. destruct (in_request i).
  - exists 0, b, None. split_and!; done.
  - destruct (dyn_uar_index dev b _ Hlay Hi) as [u ->]. cbn [mbind option_bind].
    eexists _, b, None. split_and!; done.
  - destruct (in_cross_channel i); [eexists _, b, None; split_and!; done|].
    destruct (alloc_bfreg_spec dev b Hlay) as (n & c & -> & Hn & Hc & _).
    cbn [mbind option_bind fst snd]. rewrite (proj2 (Z.ltb_ge n 0)) by lia.
    eexists _, _, _. split_and!; [done|by eapply free_take|by apply layout_take|done|].
    intros k [= <-]. done.
  - eexists _, b, None. split_and!; done.
Qed.

(** A creation, up to the answers of the other subsystems. *)
Lemma create_user_qp_spec dev caps r i l :
  layout dev (r_bfregi r) -> 0 <= in_bfreg_index i < 2 ^ 32 ->
  user_layout caps (in_sizes i) (in_ucmd i) (in_type i) = Some l ->
  exists ret r' q, _create_user_qp dev caps r i = Some (ret, r', q) /\
    (ret <> 0 -> r' = r /\ q = None) /\
    (ret = 0 -> exists u, q = Some u /\ uq_type u = in_type i /\ layout dev (r_bfregi r') /\
       free_opt (r_bfregi r') (uq_bfregn u) = Some (r_bfregi r) /\
       r_umems r' = r_umems r + (if uq_umem u then 1 else 0) /\ r_dbs r' = r_dbs r + 1).
Proof.
  intros Hlay Hi Hu. destruct (choose_bfreg_spec dev _ i Hlay Hi) as (ret & b & n & Hc & Hf & Hlb & He & Hn).
  unfold _create_user_qp. rewrite Hc. cbn [mbind option_bind].
  destruct (Z.eqb_spec ret 0) as [->|Hr]; cbn [negb].
  2: { destruct (He Hr) as [-> ->]. eexists _, _, _. split; [done|]. split; [|done].
       intros _. by destruct r. }
  assert (is_Some (match n with Some k => bfregn_to_uar_index dev b k false | None => Some 0 end))
    as [x ->].
  { destruct n as [k|]; [|done]. destruct (static_uar_index dev b k Hlb (Hn k eq_refl)) as (pg & _ & _ & ->).
    done. }
  cbn [mbind option_bind]. rewrite Hu. cbn [mbind option_bind].
  destruct (if truthy (fst l) then (fst l, false) else create_buffers i (snd l)) as [ret2 umem].
  unfold truthy. destruct (Z.eqb_spec ret2 0) as [->|Hr2]; cbn [negb].
  - eexists _, _, _. split; [done|]. split; [done|]. intros _. eexists. split_and!; done.
  - rewrite Hf. cbn [mbind option_bind]. eexists _, _, _. split; [done|]. split; [|done].
    intros _. by destruct r.
Qed.

(** A successful set-up: the layout, the static pages with their UARs, the set of UARs held. *)
Lemma setup_bfregs_spec dev lib v req_total req_low answers uars b uars' :
  page_size_ok dev -> 0 <= req_total -> 0 <= req_low -> Forall (fun a => a <> inl 0) answers ->
  setup_bfregs dev lib v req_total req_low answers uars = Some (0, b, uars') ->
  layout dev b /\
  (forall i x, 0 <= i < num_static_sys_pages b -> at_ (sys_pages b) i = Some x -> inr x ∈ answers) /\
  (forall x, x ∈ uars' <->
     x ∈ uars \/ exists i, 0 <= i < num_static_sys_pages b /\ at_ (sys_pages b) i = Some x) /\
  (forall i, num_static_sys_pages b <= i < num_sys_pages b ->
     at_ (sys_pages b) i = Some MLX5_IB_INVALID_UAR_INDEX).
Proof.
  intros Hpg Ht Hl Hans. unfold setup_bfregs.
  destruct (calc_total_bfregs dev lib req_total req_low _) as [[ret total] b0] eqn:Hc.
  destruct (Z.eqb_spec ret 0) as [->|Hr]; cbn [negb]; [|intros [= -> _ _]; done].
  destruct (calc_total_spec _ _ _ _ _ _ _ Hpg Ht Hl Hc) as (Hs & Htot & Hdyn & Hlow & Hsm).
  destruct (uars_pow2 dev lib Hpg) as (k & _ & _ & Hu).
  cbv zeta. unfold allocate_uars.
  cbn [set_sys_pages set_count sys_pages count num_sys_pages num_static_sys_pages].
  destruct (alloc_loop _ _ _ _ _) as [[[ret2 p] u]|] eqn:Ha; [|done]. cbn [mbind option_bind].
  pose proof (alloc_loop_length _ _ _ _ _ _ _ _ Ha) as Hlen. rewrite length_replicate in Hlen.
  destruct (Z.eqb_spec ret2 0) as [->|]; cbn [negb]; [|intros [= -> _ _]; done].
  destruct (alloc_loop_exact _ _ _ _ _ _ _ (Z.le_refl 0) Ha Hans) as (_ & Hans' & Hheld).
  destruct (fill_invalid_spec (Z.to_nat (num_sys_pages b0 - num_static_sys_pages b0))
    (num_static_sys_pages b0) p) as (p' & -> & Hp1 & Hp2 & Hp3); [lia|lia|].
  cbn [mbind option_bind]. intros [= <- <-]. split_and!; simpl.
  - constructor; simpl; try done; try lia; unfold per_page, max_bfregs; simpl; try lia.
    + rewrite length_replicate. nia.
    + apply Forall_replicate. lia.
  - intros i x Hi Hx. rewrite Hp2 in Hx by lia. apply (Hans' i); [lia|done].
  - intros x. rewrite Hheld. split; (intros [?|(i & Hi & Hx)]; [by left|right; exists i]).
    + rewrite Hp2 by lia. split; [lia|done].
    + rewrite Hp2 in Hx by lia. split; [lia|done].
  - intros i Hi. apply Hp3. lia.
Qed.

(** ** Properties *)

(** A device with 4 KiB pages. *)
Definition udev0 : uar_dev := mk_udev 4096 true.

(** Setting up the registers of a new user context: for a request the driver accepts
    whose UARs the firmware provides, the arrays and totals form a well-laid-out context
    (so that every register the kernel hands out lies in them), the static pages hold
    UARs of the context, and every dynamic page is marked invalid. *)
Theorem setup_bfregs_layout dev lib v req_total req_low answers uars b uars' :
  page_size_ok dev -> 0 <= req_total -> 0 <= req_low -> Forall (fun a => a <> inl 0) answers ->
  setup_bfregs dev lib v req_total req_low answers uars = Some (0, b, uars') ->
  layout dev b /\
  (forall i pg, 0 <= i < num_static_sys_pages b -> at_ (sys_pages b) i = Some pg -> pg ∈ uars') /\
  (forall i, num_static_sys_pages b <= i < num_sys_pages b ->
     at_ (sys_pages b) i = Some MLX5_IB_INVALID_UAR_INDEX).
Proof.
  intros Hpg Ht Hl Hans Hs.
  destruct (setup_bfregs_spec _ _ _ _ _ _ _ _ _ Hpg Ht Hl Hans Hs) as (Hlay & _ & Hheld & Hinv).
  split_and!; [done| |done]. intros i pg Hi Hat. apply Hheld. right. by exists i.
Qed.

Lemma setup_bfregs_layout_witness :
  exists b uars', setup_bfregs udev0 true 2 4 1 [inr 5; inr 6] ∅ = Some (0, b, uars') /\
    layout udev0 b.
Proof.
  eexists _, _. split; [vm_compute; reflexivity|].
  eapply (setup_bfregs_layout udev0 true 2 4 1 [inr 5; inr 6] ∅);
    [exists 12; split; [lia|reflexivity]|lia|lia|repeat constructor; discriminate
    |vm_compute; reflexivity].
Defined.

(** Tearing a context down gives back what setting it up took: when the firmware
    hands out UARs the context did not hold, [deallocate_uars] after a successful set-up
    reads inside the pages and leaves the context with exactly the UARs it held before. *)
Theorem setup_deallocate_roundtrip dev lib v req_total req_low answers uars b uars' :
  page_size_ok dev -> 0 <= req_total -> 0 <= req_low -> Forall (fun a => a <> inl 0) answers ->
  (forall x, inr x ∈ answers -> x ∉ uars) ->
  setup_bfregs dev lib v req_total req_low answers uars = Some (0, b, uars') ->
  deallocate_uars b uars' = Some uars.
Proof.
  intros Hpg Ht Hl Hans Hfresh Hs.
  destruct (setup_bfregs_spec _ _ _ _ _ _ _ _ _ Hpg Ht Hl Hans Hs) as (Hlay & Hin & Hheld & Hinv).
  pose proof Hlay as [_ _ Hp _ Hst _ _ _ _ _]. unfold deallocate_uars.
  destruct (dealloc_loop_spec (Z.to_nat (num_sys_pages b)) 0 b uars') as (u & -> & Hu); [lia|lia|].
  f_equal. apply set_eq. intros x. rewrite Hu, Hheld. split.
  - intros [[?|(j & Hj & Hat)] Hall]; [done|]. destruct (Hall j) as [? _]; [lia|done|lia].
  - intros Hx. split; [by left|]. intros j Hj Hat.
    destruct (decide (j < num_static_sys_pages b)).
    + destruct (Hfresh x); [|done]. apply (Hin j); [lia|done].
    + split; [lia|]. rewrite Hinv in Hat by lia. congruence.
Qed.

Lemma setup_deallocate_roundtrip_witness :
  exists b uars', setup_bfregs udev0 true 2 4 1 [inr 5; inr 6] {[9]} = Some (0, b, uars') /\
    deallocate_uars b uars' = Some {[9]}.
Proof.
  eexists _, _. split; [vm_compute; reflexivity|].
  apply (setup_deallocate_roundtrip udev0 true 2 4 1 [inr 5; inr 6] {[9]});
    [exists 12; split; [lia|reflexivity]|lia|lia|repeat constructor; discriminate| |vm_compute; reflexivity].
  intros x [[= ->]|[[= ->]|[]%not_elem_of_nil]%elem_of_cons]%elem_of_cons H;
    apply elem_of_singleton in H; discriminate.
Defined.

(** Handing out a doorbell register to a queue pair: in a well-laid-out context the
    allocation always succeeds, within the static registers and without reading outside
    the array. It takes a low-latency register only when it is free, so queue pairs never
    share one; when all of those are in use it takes a register of the middle class that
    no other one is used less than; the shared first register is the last resort. The
    layout is kept, the register's UAR is a static page of the context, and freeing the
    register gives back exactly the state before. *)
Theorem alloc_bfreg_correct dev b :
  layout dev b -> exists n c b', alloc_bfreg dev b = Some (n, b') /\
    0 <= n < max_bfregs dev b /\ at_ (count b) n = Some c /\ good_choice dev b n c /\
    at_ (count b') n = Some (u32 (c + 1)) /\
    (forall j, j <> n -> at_ (count b') j = at_ (count b) j) /\
    layout dev b' /\ mlx5_ib_free_bfreg b' n = Some b /\
    exists pg, at_ (sys_pages b) (n / per_page dev b) = Some pg /\
      n / per_page dev b < num_static_sys_pages b /\
      bfregn_to_uar_index dev b' n false
      = Some (s32 (u32 (pg + n mod per_page dev b / MLX5_NON_FP_BFREGS_PER_UAR))).
Proof.
  intros Hlay. destruct (alloc_bfreg_spec dev b Hlay) as (n & c & Ha & Hn & Hc & Hg).
  exists n, c, (take_register b n c).
  assert (put (count b) n (u32 (c + 1)) = Some (count (take_register b n c))) as Hp
    by (apply put_ok, (at_range _ _ _ Hc)).
  split_and!; try done; try lia.
  - rewrite (at_put _ _ _ _ n Hp), bool_decide_eq_true_2 by done. done.
  - intros j Hj. rewrite (at_put _ _ _ _ j Hp), bool_decide_eq_false_2 by done. done.
  - by apply layout_take.
  - by eapply free_take.
  - apply (static_uar_index dev (take_register b n c)); [by apply layout_take|done].
Qed.

(** Two static pages (one low-latency register), two dynamic ones. *)
Definition bfregi0 : bfreg_info :=
  mk_bfregi [5; 6; MLX5_IB_INVALID_UAR_INDEX; MLX5_IB_INVALID_UAR_INDEX] 1 (replicate 8 0) 2
    true false 4 2 8 4.

Lemma layout0 : layout udev0 bfregi0.
Proof.
  split; [reflexivity|vm_compute; discriminate|reflexivity|reflexivity|split; discriminate
    |reflexivity|reflexivity|split; [discriminate|reflexivity]|reflexivity|].
  repeat (constructor; [split; [discriminate|reflexivity]|]). constructor.
Defined.

Lemma alloc_bfreg_correct_witness :
  exists b', alloc_bfreg udev0 bfregi0 = Some (3, b') /\ mlx5_ib_free_bfreg b' 3 = Some bfregi0.
Proof.
  destruct (alloc_bfreg_correct udev0 bfregi0 layout0)
    as (n & c & b' & Ha & _ & _ & _ & _ & _ & _ & Hf & _).
  assert (n = 3) as -> by (vm_compute in Ha; injection Ha as <- _; reflexivity).
  exists b'. split; [exact Ha|exact Hf].
Defined.

(** Mapping a dynamic page of a well-laid-out context that is not in use: when the
    firmware has no UAR the state is unchanged; when the mapping succeeds, the context
    holds the new UAR, the page records it, the layout is kept and mapping the page again
    is refused. *)
Theorem uar_mmap_dynamic dev b uars pgoff e u :
  layout dev b -> dyn_page b pgoff < num_sys_pages b ->
  at_ (count b) (dyn_page b pgoff * per_page dev b) = Some 0 ->
  uar_mmap dev b uars MLX5_IB_MMAP_ALLOC_WC pgoff true (inl e) 0 = Some (e, b, uars) /\
  exists b', uar_mmap dev b uars MLX5_IB_MMAP_ALLOC_WC pgoff true (inr u) 0
             = Some (0, b', uars ∪ {[u]}) /\
    at_ (sys_pages b') (dyn_page b pgoff) = Some u /\ layout dev b' /\
    forall uars' ans ret,
      uar_mmap dev b' uars' MLX5_IB_MMAP_ALLOC_WC pgoff true ans ret = Some (err EINVAL, b', uars').
Proof.
  intros Hlay Hi Hc. split; [exact (uar_mmap_dyn_spec dev b uars pgoff (inl e) 0 Hlay Hi Hc)|].
  pose proof Hlay as [Hk Hu Hp Hl Hs Ht _ _ Hsm _]. pose proof (extended_index_nonneg pgoff).
  assert (0 <= dyn_page b pgoff) by (unfold dyn_page; lia).
  set (n := dyn_page b pgoff * per_page dev b) in *.
  pose proof (at_range _ _ _ Hc) as Hn.
  eexists. split; [exact (uar_mmap_dyn_spec dev b uars pgoff (inr u) 0 Hlay Hi Hc)|]. fold n.
  set (b' := set_sys_pages _ _). split_and!.
  - unfold at_. rewrite (proj2 (Z.ltb_ge _ 0)) by lia. apply list_lookup_insert_eq. lia.
  - destruct (layout_take dev b n 0 Hlay). constructor; try done; simpl. by rewrite length_insert.
  - intros uars' ans ret. unfold uar_mmap. cbn [lib_uar_dyn b' set_sys_pages take_register set_count].
    rewrite Hk. change (MLX5_IB_MMAP_ALLOC_WC =? MLX5_IB_MMAP_ALLOC_WC) with true. cbv zeta.
    cbn [negb num_sys_pages num_static_sys_pages total_num_bfregs lib_uar_4k count b' set_sys_pages
         take_register set_count].
    fold (dyn_page b pgoff). fold (per_page dev b). fold n.
    rewrite (proj2 (Z.leb_gt (num_sys_pages b) _)) by lia. rewrite orb_true_r. cbn [orb negb].
    rewrite (u32_id n) by lia. rewrite (proj2 (Z.leb_gt (total_num_bfregs b) _)) by lia.
    unfold at_ at 1. rewrite (proj2 (Z.ltb_ge n 0)) by lia. rewrite list_lookup_insert_eq by lia. done.
Qed.

Lemma uar_mmap_dynamic_witness :
  exists b', uar_mmap udev0 bfregi0 {[5; 6]} MLX5_IB_MMAP_ALLOC_WC 1 true (inr 9) 0
             = Some (0, b', {[5; 6]} ∪ {[9]}) /\ at_ (sys_pages b') 3 = Some 9.
Proof.
  destruct (uar_mmap_dynamic udev0 bfregi0 {[5; 6]} 1 0 9 layout0) as [_ (b' & H1 & H2 & _)];
    [reflexivity|reflexivity|]. exists b'. split; [exact H1|exact H2].
Defined.

(** When the mapping of a new dynamic page fails, [uar_mmap] gives back the wrong
    UAR: the page's index, instead of the UAR it has allocated. The new UAR stays
    allocated in the firmware while no page of the context records it, and a UAR the
    context holds whose number is the page's index is released although it is in use. *)
Theorem uar_mmap_failed_map_leaks dev b uars pgoff u map_ret :
  layout dev b -> dyn_page b pgoff < num_sys_pages b ->
  at_ (count b) (dyn_page b pgoff * per_page dev b) = Some 0 ->
  map_ret <> 0 -> u <> dyn_page b pgoff ->
  exists uars', uar_mmap dev b uars MLX5_IB_MMAP_ALLOC_WC pgoff true (inr u) map_ret
                = Some (map_ret, b, uars') /\
    u ∈ uars' /\ dyn_page b pgoff ∉ uars'.
Proof.
  intros Hlay Hi Hc Hm Hu. eexists. rewrite (uar_mmap_dyn_spec dev b uars pgoff (inr u) map_ret Hlay Hi Hc).
  unfold truthy. rewrite (proj2 (Z.eqb_neq map_ret 0) Hm). split; [done|]. split.
  - apply elem_of_difference. split; [by apply elem_of_union_r, elem_of_singleton|].
    by rewrite elem_of_singleton.
  - intros [_ Hn]%elem_of_difference. by apply Hn, elem_of_singleton.
Qed.

Lemma uar_mmap_failed_map_leaks_witness :
  exists uars', uar_mmap udev0 (set_sys_pages bfregi0 [3; 6; 2 ^ 31; 2 ^ 31]) {[3; 6]}
                  MLX5_IB_MMAP_ALLOC_WC 1 true (inr 9) (-11)
                = Some (-11, set_sys_pages bfregi0 [3; 6; 2 ^ 31; 2 ^ 31], uars') /\
    9 ∈ uars' /\ 3 ∉ uars'.
Proof.
  apply (uar_mmap_failed_map_leaks udev0 (set_sys_pages bfregi0 [3; 6; 2 ^ 31; 2 ^ 31]) {[3; 6]} 1 9 (-11));
    [|reflexivity|reflexivity|discriminate|discriminate].
  destruct layout0. constructor; assumption || reflexivity.
Defined.

(** A failed creation of a user queue pair leaves nothing behind: whatever fails (the
    choice of the register, the sizes, pinning the buffer, its page size, the command's
    memory, mapping the doorbell), [_create_user_qp] gives back exactly the resources
    that were there; it never reads outside the register arrays, and a successful
    creation keeps the layout and holds one doorbell mapping and at most one buffer. *)
Theorem create_user_qp_rollback dev caps r i l :
  layout dev (r_bfregi r) -> 0 <= in_bfreg_index i < 2 ^ 32 ->
  user_layout caps (in_sizes i) (in_ucmd i) (in_type i) = Some l ->
  exists ret r' q, _create_user_qp dev caps r i = Some (ret, r', q) /\
    (ret <> 0 -> r' = r /\ q = None) /\
    (ret = 0 -> exists u, q = Some u /\ layout dev (r_bfregi r') /\
       r_umems r' = r_umems r + (if uq_umem u then 1 else 0) /\ r_dbs r' = r_dbs r + 1).
Proof.
  intros Hlay Hi Hu.
  destruct (create_user_qp_spec dev caps r i l Hlay Hi Hu) as (ret & r' & q & H1 & H2 & H3).
  exists ret, r', q. split_and!; [done|done|].
  intros Hr. destruct (H3 Hr) as (u & ? & _ & ? & _ & ? & ?). by exists u.
Qed.

(** A creation of a queue pair with 16 WQEs; [db] is what mapping the doorbell returns. *)
Definition create0 (t db : Z) : create_in :=
  mk_in t UAR_none 0 false sqp0 (mk_create 0 0 16) 4096 0 4096 true db.
Definition res0 : user_res := mk_res bfregi0 0 0.

Lemma create_user_qp_rollback_witness :
  _create_user_qp udev0 caps0 res0 (create0 IB_QPT_RC (-12)) = Some (-12, res0, None).
Proof.
  destruct (create_user_qp_rollback udev0 caps0 res0 (create0 IB_QPT_RC (-12)) _ layout0
    ltac:(simpl; lia) ltac:(vm_compute; reflexivity)) as (ret & r' & q & H & He & _).
  assert (ret = -12) as -> by (vm_compute in H; injection H as <- _ _; reflexivity).
  destruct (He ltac:(discriminate)) as [-> ->]. exact H.
Defined.

(** Destroying a user queue pair gives back all its resources only when it is of the
    SRM type: then the register, the buffer and the doorbell mapping are as before the
    creation. For every other type only the register comes back: the doorbell mapping
    and the pinned buffer of the queue pair stay, with no owner left to release them. *)
Theorem destroy_qp_resources dev caps r i l r' u :
  layout dev (r_bfregi r) -> 0 <= in_bfreg_index i < 2 ^ 32 ->
  user_layout caps (in_sizes i) (in_ucmd i) (in_type i) = Some l ->
  _create_user_qp dev caps r i = Some (0, r', Some u) ->
  (in_type i = IB_QPT_SRM -> destroy_qp r' u = Some r) /\
  (in_type i <> IB_QPT_SRM -> exists r'', destroy_qp r' u = Some r'' /\
     r_bfregi r'' = r_bfregi r /\ r_dbs r'' = r_dbs r + 1 /\
     r_umems r'' = r_umems r + (if uq_umem u then 1 else 0)).
Proof.
  intros Hlay Hi Hu Hc.
  destruct (create_user_qp_spec dev caps r i l Hlay Hi Hu) as (ret & r1 & q & H1 & _ & H3).
  rewrite Hc in H1. injection H1 as <- <- <-.
  destruct (H3 eq_refl) as (u' & [= <-] & Ht & _ & Hf & Hm & Hd).
  unfold destroy_qp. rewrite Ht. split.
  - intros ->. change (IB_QPT_SRM =? IB_QPT_SRM) with true. cbv iota. rewrite Hf, Hm, Hd.
    cbn [mbind option_bind]. destruct r as [b m d]. simpl. do 2 f_equal; [destruct (uq_umem u)|]; lia.
  - intros Hn. rewrite (proj2 (Z.eqb_neq _ _) Hn), Hf. cbn [mbind option_bind].
    eexists. split_and!; done.
Qed.

Lemma destroy_qp_resources_witness :
  exists r' u r'', _create_user_qp udev0 caps0 res0 (create0 IB_QPT_RC 0) = Some (0, r', Some u) /\
    destroy_qp r' u = Some r'' /\ r_dbs r'' = 1 /\ r_umems r'' = 1.
Proof.
  eexists _, _. destruct (proj2 (destroy_qp_resources udev0 caps0 res0 (create0 IB_QPT_RC 0) _ _ _ layout0
    ltac:(simpl; lia) ltac:(vm_compute; reflexivity) ltac:(vm_compute; reflexivity))
    ltac:(discriminate)) as (r'' & H1 & H2 & H3 & H4).
  exists r''. split; [vm_compute; reflexivity|]. split; [exact H1|]. split; [exact H3|exact H4].
Defined.
