(* ===== verification/SegAlloc.v ===== *)
(** * Interface: an allocator of aligned segments

    What the memory pool of the steering code (IcmPool.v) relies on in the
    allocator it keeps per memory region: the operations of dr_buddy.c and the
    laws that describe them through the blocks handed out, never through the
    bitmaps. Buddy.v discharges the laws for the buddy allocator. *)

From Stdlib Require Import ZArith Lia.
From stdpp Require Import base tactics numbers list option.
From S2P Require Import Prelude.

Local Open Scope Z_scope.

(** Allocations and releases of kernel memory, numbered in program order. *)
Inductive heap_event := HAlloc (i : nat) | HFree (i : nat).

Definition allocs (ev : list heap_event) : list nat :=
  omap (fun e => match e with HAlloc i => Some i | HFree _ => None end) ev.
Definition frees (ev : list heap_event) : list nat :=
  omap (fun e => match e with HFree i => Some i | HAlloc _ => None end) ev.

(** A block handed out: its first unit and its order. It covers the units [u]
    with [u >> order = seg >> order]. *)
Abbreviation blocks := (list (Z * Z)).

Definition unit_in (u : Z) (bl : Z * Z) : Prop :=
  0 <= u /\ Z.shiftr u bl.2 = Z.shiftr bl.1 bl.2.

(** Block number [s] of order [order] lies in a memory of [2 ^ M] units and
    shares no unit with a block handed out. *)
Definition fits (M : Z) (held : blocks) (order s : Z) : Prop :=
  0 <= order <= M /\ 0 <= s < 2 ^ (M - order) /\
  forall u, 0 <= u -> Z.shiftr u order = s -> Forall (fun bl => ~ unit_in u bl) held.

(** The blocks handed out: inside the memory, aligned and pairwise disjoint. *)
Definition blocks_ok (M : Z) (held : blocks) : Prop :=
  Forall (fun bl => 0 <= bl.2 <= M /\ 0 <= bl.1 < 2 ^ M /\ bl.1 mod 2 ^ bl.2 = 0) held /\
  forall i j bi bj u, held !! i = Some bi -> held !! j = Some bj ->
    unit_in u bi -> unit_in u bj -> i = j.

Class SegAllocator (B : Type) := {
  sa_init : Z -> (nat -> bool) -> list heap_event * (Z + option B);
  sa_cleanup : B -> list heap_event;
  sa_alloc : Z -> B -> option ((Z + Z) * B);
  sa_free : Z -> Z -> B -> option B;

  (** [sa_rel M b held]: state [b] manages [2 ^ M] units of which exactly the
      blocks [held] are handed out. *)
  sa_rel : Z -> B -> blocks -> Prop;

  sa_rel_proper :: forall M b, Proper (Permutation ==> iff) (sa_rel M b);
  sa_rel_blocks : forall M b held, sa_rel M b held -> 0 <= M <= 30 /\ blocks_ok M held;
  sa_init_law : forall M ok, 0 <= M <= 30 ->
    NoDup (allocs (sa_init M ok).1) /\
    match sa_init M ok with
    | (ev, inl e) => e = err ENOMEM /\ frees ev ≡ₚ allocs ev
    | (ev, inr ob) => exists b, ob = Some b /\ sa_rel M b [] /\ frees ev = [] /\
        frees (sa_cleanup b) ≡ₚ allocs ev /\ allocs (sa_cleanup b) = []
    end;
  sa_init_succeeds : forall M ok, 0 <= M <= 30 -> (forall i, ok i = true) ->
    exists ev b, sa_init M ok = (ev, inr (Some b));
  sa_cleanup_law : forall M b b' held held',
    sa_rel M b held -> sa_rel M b' held' -> sa_cleanup b = sa_cleanup b';
  sa_alloc_law : forall M b held order, sa_rel M b held -> 0 <= order < 2 ^ 32 - 1 ->
    (exists s b', sa_alloc order b = Some (inr (s * 2 ^ order), b') /\
       fits M held order s /\ sa_rel M b' ((s * 2 ^ order, order) :: held)) \/
    (sa_alloc order b = Some (inl (err ENOMEM), b) /\ forall s, ~ fits M held order s);
  sa_free_law : forall M b held seg order, sa_rel M b ((seg, order) :: held) ->
    exists b', sa_free seg order b = Some b' /\ sa_rel M b' held;
  sa_roundtrip : forall M b held order seg b', sa_rel M b held -> 0 <= order < 2 ^ 32 - 1 ->
    sa_alloc order b = Some (inr seg, b') -> sa_free seg order b' = Some b
}.

(** ** Blocks and addresses *)

Lemma block_units bl u :
  0 <= bl.2 -> 0 <= bl.1 -> bl.1 mod 2 ^ bl.2 = 0 ->
  unit_in u bl <-> bl.1 <= u < bl.1 + 2 ^ bl.2.
Proof.
  intros Ho Hs Hm. unfold unit_in. rewrite !Z.shiftr_div_pow2 by done.
  assert (0 < 2 ^ bl.2) by (apply Z.pow_pos_nonneg; lia).
  pose proof (Z.div_mod bl.1 (2 ^ bl.2) ltac:(lia)) as Hb. rewrite Hm in Hb.
  split.
  - intros [Hu E]. pose proof (Z.div_mod u (2 ^ bl.2) ltac:(lia)).
    pose proof (Z.mod_pos_bound u (2 ^ bl.2)). nia.
  - intros Hr. split; [lia|]. symmetry. apply Z.div_unique with (u - bl.1); nia.
Qed.

(** Two different blocks handed out cover disjoint ranges of units. *)
Lemma blocks_ok_ranges M held i j bi bj :
  blocks_ok M held -> held !! i = Some bi -> held !! j = Some bj -> i <> j ->
  bi.1 + 2 ^ bi.2 <= bj.1 \/ bj.1 + 2 ^ bj.2 <= bi.1.
Proof.
  intros [Hall Hd] Hi Hj Hne.
  pose proof (Forall_lookup_1 _ _ _ _ Hall Hi) as (Hi2 & Hi1 & Him).
  pose proof (Forall_lookup_1 _ _ _ _ Hall Hj) as (Hj2 & Hj1 & Hjm).
  assert (0 < 2 ^ bi.2) by (apply Z.pow_pos_nonneg; lia).
  assert (0 < 2 ^ bj.2) by (apply Z.pow_pos_nonneg; lia).
  destruct (decide (bi.1 + 2 ^ bi.2 <= bj.1 \/ bj.1 + 2 ^ bj.2 <= bi.1)) as [|Hn]; [done|].
  destruct Hne. apply (Hd i j bi bj (Z.max bi.1 bj.1)); [done|done| |];
    apply block_units; lia.
Qed.

(** An aligned block inside the memory ends inside it. *)
Lemma block_end M bl :
  0 <= bl.2 <= M -> 0 <= bl.1 < 2 ^ M -> bl.1 mod 2 ^ bl.2 = 0 -> bl.1 + 2 ^ bl.2 <= 2 ^ M.
Proof.
  intros Ho Hs Hm. assert (0 < 2 ^ bl.2) by (apply Z.pow_pos_nonneg; lia).
  pose proof (Z.div_mod bl.1 (2 ^ bl.2) ltac:(lia)) as Hb. rewrite Hm in Hb.
  assert (2 ^ M = 2 ^ bl.2 * 2 ^ (M - bl.2)) as E
    by (rewrite <- Z.pow_add_r by lia; f_equal; lia).
  assert (bl.1 / 2 ^ bl.2 < 2 ^ (M - bl.2)) by nia. nia.
Qed.

Lemma fits_empty M order : 0 <= order <= M -> fits M [] order 0.
Proof.
  intros Ho. split_and!; [lia..| |by constructor].
  apply Z.pow_pos_nonneg; lia.
Qed.
