(* ===== verification/Buddy.v ===== *)
(** * The buddy allocator of the steering memory (dr_buddy.c)

    [mlx5dr_icm_buddy_mem] keeps, for every order from 0 to [max_order], a
    bitmap with one bit per aligned block of that order, set when the block is
    free, and the number of set bits. A block [(k, s)] covers the units [u] with
    [u >> k = s].

    The model keeps the bitmaps as lists of bits of the length the kernel
    allocates (whole 64-bit words), so that an access the C code makes beyond
    the requested number of bits but inside the last word is defined and any
    access outside of it is not: the operations return [None] there.

    The theorems relate the bitmaps to the set of free units: the state is the
    canonical one for that set, an allocation takes an aligned block out of it
    and fails exactly when there is none, and a release puts the block back. *)

From Stdlib Require Import ZArith Lia.
From stdpp Require Import base tactics numbers list option.
From S2P Require Import Prelude SegAlloc.

Local Open Scope Z_scope.

(** ** Bitmaps of the kernel *)

Definition BITS_PER_LONG : Z := 64.
Definition BITS_TO_LONGS (n : Z) : Z := (n + BITS_PER_LONG - 1) / BITS_PER_LONG.

Definition bitmap_zalloc (n : Z) : list bool :=
  replicate (Z.to_nat (BITS_TO_LONGS n * BITS_PER_LONG)) false.

Definition test_bit (i : Z) (bm : list bool) : option bool := bm !! Z.to_nat i.

(** [bitmap_set(bm, i, 1)] and [bitmap_clear(bm, i, 1)]. *)
Definition bitmap_put (v : bool) (i : Z) (bm : list bool) : option (list bool) :=
  if bool_decide (Z.to_nat i < length bm)%nat
  then Some (<[Z.to_nat i := v]> bm) else None.

(** Position of the first set bit, [length bm] when there is none. *)
Fixpoint first_set (bm : list bool) : nat :=
  match bm with
  | [] => O
  | true :: _ => O
  | false :: r => S (first_set r)
  end.

(** [find_first_bit(bm, m)] looks at the first [m] bits and answers [m] when
    none is set. *)
Definition find_first_bit (bm : list bool) (m : Z) : option Z :=
  if bool_decide (Z.to_nat m <= length bm)%nat
  then Some (Z.of_nat (first_set (take (Z.to_nat m) bm))) else None.

(** ** The allocator *)

Record mlx5dr_icm_buddy_mem := {
  bitmap : list (list bool);
  num_free : list Z;
  max_order : Z
}.

Abbreviation buddy_mem := mlx5dr_icm_buddy_mem.

(** [1 << n] converted to [unsigned int]. *)
Definition shl1 (n : Z) : option Z :=
  if (0 <=? n) && (n <? 32) then Some (Z.shiftl 1 n) else None.

Definition put_bit (v : bool) (order seg : Z) (b : buddy_mem) : option buddy_mem :=
  bm ← bitmap b !! Z.to_nat order;
  bm' ← bitmap_put v seg bm;
  Some {| bitmap := <[Z.to_nat order := bm']> (bitmap b);
          num_free := num_free b; max_order := max_order b |}.

Definition add_free (d order : Z) (b : buddy_mem) : option buddy_mem :=
  n ← num_free b !! Z.to_nat order;
  Some {| bitmap := bitmap b;
          num_free := <[Z.to_nat order := u32 (n + d)]> (num_free b);
          max_order := max_order b |}.

(** The bit set and the counter incremented, or the bit cleared and the counter
    decremented, as the loops of the allocator do. *)
Definition mark_free (order seg : Z) (b : buddy_mem) : option buddy_mem :=
  b1 ← put_bit true order seg b; add_free 1 order b1.
Definition mark_used (order seg : Z) (b : buddy_mem) : option buddy_mem :=
  b1 ← put_bit false order seg b; add_free (-1) order b1.

(** [mlx5dr_buddy_init]: the allocations are numbered in program order, [ok i]
    tells whether the [i]-th succeeds. The result carries the allocations made
    and the ones released. *)
Fixpoint init_bitmaps (n : nat) (i max_order : Z) (id : nat) (ok : nat -> bool)
  : list heap_event * (list (list bool) + list nat) :=
  match n with
  | O => ([], inl [])
  | S n' =>
      if ok id then
        match init_bitmaps n' (i + 1) max_order (S id) ok with
        | (ev, inl bms) =>
            (HAlloc id :: ev, inl (bitmap_zalloc (Z.shiftl 1 (max_order - i)) :: bms))
        | (ev, inr ids) => (HAlloc id :: ev, inr (id :: ids))
        end
      else ([], inr [])
  end.

Definition free_if (b : bool) (i : nat) : list heap_event :=
  if b then [HFree i] else [].

Definition mlx5dr_buddy_init (order : Z) (ok : nat -> bool)
  : list heap_event * (Z + option buddy_mem) :=
  let ev0 := (if ok 0%nat then [HAlloc 0] else []) ++
             (if ok 1%nat then [HAlloc 1] else []) in
  let err_free_all := free_if (ok 1%nat) 1 ++ free_if (ok 0%nat) 0 in
  if negb (ok 0%nat) || negb (ok 1%nat) then (ev0 ++ err_free_all, inl (err ENOMEM))
  else
    match init_bitmaps (Z.to_nat (order + 1)) 0 order 2 ok with
    | (ev, inr ids) =>
        (ev0 ++ ev ++ map HFree ids ++ err_free_all, inl (err ENOMEM))
    | (ev, inl bms) =>
        (ev0 ++ ev,
         inr (b1 ← put_bit true order 0
                     {| bitmap := bms;
                        num_free := replicate (Z.to_nat (order + 1)) 0;
                        max_order := order |};
              Some {| bitmap := bitmap b1;
                      num_free := <[Z.to_nat order := 1]> (num_free b1);
                      max_order := order |}))
    end.

Definition mlx5dr_buddy_cleanup (b : buddy_mem) : list heap_event :=
  map HFree (seq 2 (Z.to_nat (max_order b + 1))) ++ [HFree 1; HFree 0].

(** [dr_buddy_find_free_seg]: the loop over the orders; [inl] is the error. *)
Fixpoint find_loop (fuel : nat) (b : buddy_mem) (order_iter : Z)
  : option (Z + Z * Z) :=
  match fuel with
  | O => None
  | S f =>
      if order_iter <=? max_order b then
        n ← num_free b !! Z.to_nat order_iter;
        if n =? 0 then find_loop f b (u32 (order_iter + 1))
        else
          m ← shl1 (max_order b - order_iter);
          bm ← bitmap b !! Z.to_nat order_iter;
          seg ← find_first_bit bm m;
          if m <=? seg then Some (inl (err ENOMEM)) else Some (inr (seg, order_iter))
      else Some (inl (err ENOMEM))
  end.

Definition loop_fuel (b : buddy_mem) : nat := Z.to_nat (max_order b + 2).

Definition dr_buddy_find_free_seg (b : buddy_mem) (start_order : Z)
  : option (Z + Z * Z) :=
  find_loop (loop_fuel b) b start_order.

(** The splitting loop of [mlx5dr_buddy_alloc_mem]. *)
Fixpoint split_loop (fuel : nat) (order order_iter seg : Z) (b : buddy_mem)
  : option (Z * buddy_mem) :=
  match fuel with
  | O => None
  | S f =>
      if order <? order_iter then
        let order_iter := order_iter - 1 in
        let seg := u32 (Z.shiftl seg 1) in
        b' ← mark_free order_iter (Z.lxor seg 1) b;
        split_loop f order order_iter seg b'
      else Some (seg, b)
  end.

Definition mlx5dr_buddy_alloc_mem (order : Z) (b : buddy_mem)
  : option ((Z + Z) * buddy_mem) :=
  r ← dr_buddy_find_free_seg b order;
  match r with
  | inl e => Some (inl e, b)
  | inr (seg, order_iter) =>
      b1 ← mark_used order_iter seg b;
      '(seg, b2) ← split_loop (loop_fuel b) order order_iter seg b1;
      if order <? 32 then Some (inr (u32 (Z.shiftl seg order)), b2) else None
  end.

(** The merging loop of [mlx5dr_buddy_free_mem]. *)
Fixpoint merge_loop (fuel : nat) (order seg : Z) (b : buddy_mem)
  : option buddy_mem :=
  match fuel with
  | O => None
  | S f =>
      bm ← bitmap b !! Z.to_nat order;
      t ← test_bit (Z.lxor seg 1) bm;
      if (t : bool) then
        b' ← mark_used order (Z.lxor seg 1) b;
        merge_loop f (u32 (order + 1)) (Z.shiftr seg 1) b'
      else mark_free order seg b
  end.

Definition mlx5dr_buddy_free_mem (seg order : Z) (b : buddy_mem)
  : option buddy_mem :=
  if order <? 32 then merge_loop (loop_fuel b) order (Z.shiftr seg order) b
  else None.

(** ** Free blocks and free units *)

(** Bit [s] of the bitmap of order [k]. *)
Definition free_block (b : buddy_mem) (k s : Z) : bool :=
  (0 <=? k) && (0 <=? s) &&
  match bitmap b !! Z.to_nat k with
  | Some bm => default false (bm !! Z.to_nat s)
  | None => false
  end.

(** The units a free block covers. *)
Definition free_unit (b : buddy_mem) (u : Z) : Prop :=
  0 <= u /\ exists k, free_block b k (Z.shiftr u k) = true.

(** The block [(k, s)] is entirely free. *)
Definition all_free (b : buddy_mem) (k s : Z) : Prop :=
  forall u, 0 <= u -> Z.shiftr u k = s -> free_unit b u.

Definition in_range (b : buddy_mem) (k s : Z) : Prop :=
  0 <= k <= max_order b /\ 0 <= s < 2 ^ (max_order b - k).

Fixpoint count_true (bm : list bool) : Z :=
  match bm with
  | [] => 0
  | x :: r => (if x then 1 else 0) + count_true r
  end.

Definition word_bits (n : Z) : nat := Z.to_nat (BITS_TO_LONGS n * BITS_PER_LONG).

(** The shape of the arrays, and the counters. *)
Record buddy_shape (b : buddy_mem) : Prop := {
  sh_order : 0 <= max_order b <= 30;
  sh_bitmaps : length (bitmap b) = Z.to_nat (max_order b + 1);
  sh_nums : length (num_free b) = Z.to_nat (max_order b + 1);
  sh_len : forall k bm, bitmap b !! k = Some bm ->
    length bm = word_bits (2 ^ (max_order b - Z.of_nat k));
  sh_count : forall k bm n, bitmap b !! k = Some bm -> num_free b !! k = Some n ->
    n = count_true bm
}.

(** The invariant: the shape, that only blocks inside the memory are free, that
    no unit is covered twice and that no two buddies are both free. *)
Record buddy_wf (b : buddy_mem) : Prop := {
  wf_shape : buddy_shape b;
  wf_range : forall k s, free_block b k s = true -> in_range b k s;
  wf_disjoint : forall u k j, 0 <= u ->
    free_block b k (Z.shiftr u k) = true -> free_block b j (Z.shiftr u j) = true -> k = j;
  wf_maximal : forall k s, free_block b k s = true -> free_block b k (Z.lxor s 1) = false
}.

(** ** Arithmetic of blocks *)

Lemma lxor_1 s : 0 <= s -> Z.lxor s 1 = s + 1 - 2 * (s mod 2).
Proof.
  intros Hs. destruct s as [|p|p]; [done| |lia].
  destruct p as [p|p|]; [| |done].
  - change (Z.lxor (Z.pos p~1) 1) with (Z.pos p~0).
    rewrite (Pos2Z.inj_xI p), (Pos2Z.inj_xO p).
    replace (2 * Z.pos p + 1) with (1 + Z.pos p * 2) by lia.
    rewrite Z.mod_add, Z.mod_small by lia. lia.
  - change (Z.lxor (Z.pos p~0) 1) with (Z.pos p~1).
    rewrite (Pos2Z.inj_xI p), (Pos2Z.inj_xO p).
    replace (2 * Z.pos p) with (Z.pos p * 2) by lia.
    rewrite Z.mod_mul by lia. lia.
Qed.

Lemma shiftr_1 s : Z.shiftr s 1 = s / 2.
Proof. by rewrite Z.shiftr_div_pow2. Qed.

Lemma shiftr_S u k : 0 <= k -> Z.shiftr u (k + 1) = Z.shiftr u k / 2.
Proof. intros. by rewrite <- shiftr_1, Z.shiftr_shiftr by lia. Qed.

Lemma shiftr_le u k j :
  0 <= k <= j -> Z.shiftr u j = Z.shiftr (Z.shiftr u k) (j - k).
Proof. intros. rewrite Z.shiftr_shiftr by lia. f_equal. lia. Qed.

(** The sibling of a block and the parent of both. *)
Lemma sibling s : 0 <= s ->
  0 <= Z.lxor s 1 /\ Z.lxor s 1 <> s /\ Z.lxor s 1 / 2 = s / 2 /\
  forall t, t / 2 = s / 2 -> t = s \/ t = Z.lxor s 1.
Proof.
  intros Hs. rewrite lxor_1 by done.
  pose proof (Z.div_mod s 2). pose proof (Z.mod_pos_bound s 2).
  split_and!; [lia|lia| |].
  - assert (s + 1 - 2 * (s mod 2) = 2 * (s / 2) + (1 - s mod 2)) as -> by lia.
    rewrite Z.add_comm, Z.mul_comm, Z.div_add, Z.div_small by lia. lia.
  - intros t Ht. pose proof (Z.div_mod t 2). pose proof (Z.mod_pos_bound t 2). lia.
Qed.

Lemma lxor_1_range s n : 0 < n -> 0 <= s < 2 ^ n -> 0 <= Z.lxor s 1 < 2 ^ n.
Proof.
  intros Hn Hs. rewrite lxor_1 by lia.
  pose proof (Z.div_mod s 2). pose proof (Z.mod_pos_bound s 2).
  replace n with (1 + (n - 1)) in * by lia. rewrite Z.pow_add_r in * by lia. lia.
Qed.

Lemma lxor_1_twice s : Z.lxor (Z.lxor s 1) 1 = s.
Proof. by rewrite Z.lxor_assoc, Z.lxor_nilpotent, Z.lxor_0_r. Qed.

Lemma unit_of_block k s : 0 <= k -> 0 <= s -> 0 <= s * 2 ^ k /\ Z.shiftr (s * 2 ^ k) k = s.
Proof.
  intros Hk Hs. assert (0 < 2 ^ k) by (apply Z.pow_pos_nonneg; lia).
  split; [lia|]. by rewrite Z.shiftr_div_pow2, Z.div_mul by lia.
Qed.

(** ** Counting *)

Lemma count_true_nonneg bm : 0 <= count_true bm <= Z.of_nat (length bm).
Proof. induction bm as [|[] r IH]; cbn [count_true length]; lia. Qed.

Lemma count_true_insert (v : bool) i bm (x : bool) :
  bm !! i = Some x ->
  count_true (<[i := v]> bm) =
  count_true bm + (if v then 1 else 0) - (if x then 1 else 0).
Proof.
  revert i. induction bm as [|y r IH]; intros [|i] Hi; simplify_eq/=; [lia|].
  rewrite (IH _ Hi). lia.
Qed.

Lemma count_true_pos bm : 0 < count_true bm ->
  bm !! first_set bm = Some true.
Proof. induction bm as [|[] r IH]; cbn; [lia|done|]. intros. apply IH. lia. Qed.

Lemma count_true_lookup bm i : bm !! i = Some true -> 0 < count_true bm.
Proof.
  revert i. induction bm as [|y r IH]; intros [|i] Hi; simplify_eq/=.
  - pose proof (count_true_nonneg r). lia.
  - specialize (IH _ Hi). destruct y; lia.
Qed.

Lemma first_set_lt bm i : bm !! i = Some true -> (first_set bm <= i)%nat.
Proof.
  revert i. induction bm as [|[] r IH]; intros [|i] Hi; simplify_eq/=; try lia.
  specialize (IH _ Hi). lia.
Qed.

Lemma count_true_replicate n : count_true (replicate n false) = 0.
Proof. induction n; cbn; lia. Qed.

Lemma word_bits_ge n : 0 < n ->
  n <= Z.of_nat (word_bits n) < n + 64 /\ 64 <= Z.of_nat (word_bits n).
Proof.
  intros Hn. unfold word_bits, BITS_TO_LONGS, BITS_PER_LONG.
  pose proof (Z.div_mod (n + 64 - 1) 64). pose proof (Z.mod_pos_bound (n + 64 - 1) 64).
  rewrite Z2Nat.id by lia. lia.
Qed.

(** ** Marking one block *)

Definition mark (v : bool) (k s : Z) (b : buddy_mem) : option buddy_mem :=
  b1 ← put_bit v k s b; add_free (if v then 1 else -1) k b1.

Lemma bitmap_at b k :
  buddy_shape b -> 0 <= k <= max_order b ->
  exists bm n, bitmap b !! Z.to_nat k = Some bm /\ num_free b !! Z.to_nat k = Some n /\
    n = count_true bm /\ length bm = word_bits (2 ^ (max_order b - k)) /\ 0 <= n < 2 ^ 31.
Proof.
  intros Hb Hk.
  destruct (lookup_lt_is_Some_2 (bitmap b) (Z.to_nat k)) as [bm Hbm];
    [rewrite (sh_bitmaps _ Hb); lia|].
  destruct (lookup_lt_is_Some_2 (num_free b) (Z.to_nat k)) as [n Hn];
    [rewrite (sh_nums _ Hb); lia|].
  pose proof (sh_count _ Hb _ _ _ Hbm Hn) as Hc.
  pose proof (sh_len _ Hb _ _ Hbm) as Hl. rewrite Z2Nat.id in Hl by lia.
  exists bm, n. split_and!; try done; subst n; pose proof (count_true_nonneg bm); [lia|].
  pose proof (sh_order _ Hb).
  assert (0 < 2 ^ (max_order b - k)) by (apply Z.pow_pos_nonneg; lia).
  assert (2 ^ (max_order b - k) <= 2 ^ 30) by (apply Z.pow_le_mono_r; lia).
  pose proof (word_bits_ge (2 ^ (max_order b - k)) ltac:(lia)). lia.
Qed.

Lemma free_block_at b k s bm :
  bitmap b !! Z.to_nat k = Some bm -> 0 <= k -> 0 <= s ->
  free_block b k s = default false (bm !! Z.to_nat s).
Proof.
  intros H ??. unfold free_block. rewrite H.
  rewrite !(proj2 (Z.leb_le _ _)) by done. done.
Qed.

Lemma in_range_lookup b k s bm :
  length bm = word_bits (2 ^ (max_order b - k)) -> in_range b k s ->
  bm !! Z.to_nat s = Some (default false (bm !! Z.to_nat s)).
Proof.
  intros Hl [Hk Hs].
  destruct (lookup_lt_is_Some_2 bm (Z.to_nat s)) as [x ->]; [|done].
  pose proof (word_bits_ge (2 ^ (max_order b - k))). lia.
Qed.

Lemma mark_spec v k s b :
  buddy_shape b -> in_range b k s -> free_block b k s = negb v ->
  exists b', mark v k s b = Some b' /\ buddy_shape b' /\ max_order b' = max_order b /\
    forall k' s', free_block b' k' s' =
      if bool_decide (k' = k /\ s' = s) then v else free_block b k' s'.
Proof.
  intros Hb Hr Hf. destruct (bitmap_at b k Hb (proj1 Hr)) as (bm & n & Hbm & Hn & Hc & Hl & Hn31).
  rewrite (free_block_at _ _ _ _ Hbm) in Hf by apply Hr.
  pose proof (in_range_lookup _ _ _ _ Hl Hr) as Hs. rewrite Hf in Hs.
  pose proof (lookup_lt_Some _ _ _ Hs) as Hlt.
  assert (0 <= n + (if v then 1 else -1) < 2 ^ 32) as Hw.
  { pose proof (count_true_lookup bm (Z.to_nat s)). destruct v; simpl in Hs; [lia|].
    specialize (H Hs). lia. }
  eexists. split.
  { unfold mark, put_bit. rewrite Hbm. simpl. unfold bitmap_put.
    rewrite bool_decide_eq_true_2 by done. simpl. unfold add_free. simpl.
    rewrite Hn. simpl. reflexivity. }
  rewrite u32_id by done. split_and!; [|done|].
  - constructor; cbn [bitmap num_free max_order];
      [apply Hb|by rewrite length_insert; apply Hb|by rewrite length_insert; apply Hb| |].
    + intros k' bm' H'. apply list_lookup_insert_Some in H' as [(<- & <- & _)|[_ H']];
        [|by apply (sh_len _ Hb)].
      rewrite length_insert, Hl. f_equal. rewrite Z2Nat.id by apply Hr. done.
    + intros k' bm' n' H1 H2.
      apply list_lookup_insert_Some in H1 as [(<- & <- & _)|[Hne H1]].
      * rewrite list_lookup_insert_eq in H2 by (by eapply lookup_lt_Some). simplify_eq.
        rewrite (count_true_insert _ _ _ _ Hs). destruct v; simpl; lia.
      * rewrite list_lookup_insert_ne in H2 by done. by eapply (sh_count _ Hb).
  - intros k' s'. unfold free_block. cbn [bitmap]. destruct Hr as [Hk Hs0].
    destruct (Z.leb_spec 0 k'); [|rewrite bool_decide_eq_false_2 by lia; done].
    destruct (Z.leb_spec 0 s'); [|rewrite bool_decide_eq_false_2 by lia; done].
    cbn [andb]. destruct (decide (k' = k)) as [->|Hk'].
    + rewrite list_lookup_insert_eq by (by eapply lookup_lt_Some). rewrite Hbm.
      destruct (decide (s' = s)) as [->|Hs'].
      * rewrite bool_decide_eq_true_2 by done. rewrite list_lookup_insert_eq by done. done.
      * rewrite bool_decide_eq_false_2 by lia. rewrite list_lookup_insert_ne by lia. done.
    + rewrite bool_decide_eq_false_2 by lia. rewrite list_lookup_insert_ne by lia. done.
Qed.

(** Taking a free block out, and adding a block none of whose units is free and
    whose buddy is not free, both preserve the invariant. *)
Lemma mark_used_wf k s b :
  buddy_wf b -> free_block b k s = true ->
  exists b', mark_used k s b = Some b' /\ buddy_wf b' /\ max_order b' = max_order b /\
    forall u, free_unit b' u <-> free_unit b u /\ Z.shiftr u k <> s.
Proof.
  intros Hb Hf. pose proof (wf_range _ Hb _ _ Hf) as Hr.
  destruct (mark_spec false k s b (wf_shape _ Hb) Hr Hf) as (b' & Hm & Hs & Ho & Hfb).
  assert (forall k' s', free_block b' k' s' = true ->
            free_block b k' s' = true /\ ~ (k' = k /\ s' = s)) as Hin.
  { intros k' s'. rewrite Hfb. case_bool_decide; [done|]. intros ->. done. }
  exists b'. split_and!; [done| |done|].
  - constructor; [done| | |].
    + intros k' s' [H' _]%Hin. unfold in_range. rewrite Ho. by apply (wf_range _ Hb).
    + intros u k' j Hu [H1 _]%Hin [H2 _]%Hin. by apply (wf_disjoint _ Hb u).
    + intros k' s' [H' _]%Hin. rewrite Hfb. case_bool_decide; [done|].
      by apply (wf_maximal _ Hb).
  - intros u. split.
    + intros (Hu & k' & [H' Hne]%Hin). split; [by split; [|exists k']|].
      intros E. apply Hne. assert (k' = k) as -> by
        (eapply (wf_disjoint _ Hb u); [done|done|by rewrite E]). done.
    + intros ((Hu & k' & H') & Hne). split; [done|]. exists k'. rewrite Hfb.
      rewrite bool_decide_eq_false_2 by (intros [-> E]; by apply Hne). done.
Qed.

Lemma mark_free_wf k s b :
  buddy_wf b -> in_range b k s -> free_block b k (Z.lxor s 1) = false ->
  (forall u, 0 <= u -> Z.shiftr u k = s -> ~ free_unit b u) ->
  exists b', mark_free k s b = Some b' /\ buddy_wf b' /\ max_order b' = max_order b /\
    forall u, free_unit b' u <-> free_unit b u \/ (0 <= u /\ Z.shiftr u k = s).
Proof.
  intros Hb Hr Hbud Hnone. destruct Hr as [Hk Hs0] eqn:Er. clear Er.
  assert (free_block b k s = false) as Hf.
  { apply not_true_is_false. intros Hf. destruct (unit_of_block k s) as [Hu E]; [lia..|].
    apply (Hnone _ Hu E). split; [done|]. exists k. by rewrite E. }
  destruct (mark_spec true k s b (wf_shape _ Hb) Hr Hf) as (b' & Hm & Hs & Ho & Hfb).
  assert (forall k' s', free_block b' k' s' = true ->
            free_block b k' s' = true \/ (k' = k /\ s' = s)) as Hin.
  { intros k' s'. rewrite Hfb. case_bool_decide; auto. }
  exists b'. split_and!; [done| |done|].
  - constructor; [done| | |].
    + intros k' s' [H'|[-> ->]]%Hin; unfold in_range; rewrite Ho; [|done].
      by apply (wf_range _ Hb).
    + intros u k' j Hu [H1|[-> E1]]%Hin [H2|[-> E2]]%Hin; try done.
      * by apply (wf_disjoint _ Hb u).
      * destruct (Hnone u Hu E2). split; [done|by exists k'].
      * destruct (Hnone u Hu E1). split; [done|by exists j].
    + intros k' s' [H'|[-> ->]]%Hin; rewrite Hfb; case_bool_decide as E.
      * destruct E as [-> E]. rewrite <- E, lxor_1_twice in Hbud. congruence.
      * by apply (wf_maximal _ Hb).
      * destruct E as [_ E]. destruct (sibling s) as (_ & E' & _); [lia|done].
      * done.
  - intros u. split.
    + intros (Hu & k' & [H'|[-> E]]%Hin); [left; split; [done|by exists k']|by right].
    + intros [(Hu & k' & H')|[Hu E]]; split; try done.
      * exists k'. rewrite Hfb. case_bool_decide; done.
      * exists k. rewrite Hfb. rewrite bool_decide_eq_true_2; done.
Qed.

(** ** A free aligned block lies inside one free block of the bitmaps *)

Lemma all_free_half b k s t :
  0 <= k -> 0 <= t -> t / 2 = s -> all_free b (k + 1) s -> all_free b k t.
Proof. intros Hk Ht E H u Hu Eu. apply H; [done|]. rewrite shiftr_S by done. by rewrite Eu. Qed.

Lemma all_free_contained b k s :
  buddy_wf b -> 0 <= k -> 0 <= s -> all_free b k s ->
  exists j, k <= j /\ free_block b j (Z.shiftr s (j - k)) = true.
Proof.
  intros Hb Hk. revert s. pattern k. apply natlike_ind; [| |done]; clear k Hk.
  - intros s Hs Ha. destruct (Ha s Hs) as (_ & j & Hj); [apply Z.shiftr_0_r|].
    exists j. rewrite Z.sub_0_r. split; [|done]. apply (wf_range _ Hb) in Hj. apply Hj.
  - intros k Hk IH s Hs Ha. rewrite <- Z.add_1_r in *.
    assert ((2 * s) / 2 = s) as E0 by (rewrite Z.mul_comm; apply Z.div_mul; lia).
    assert ((2 * s + 1) / 2 = s) as E1
      by (rewrite Z.add_comm, Z.mul_comm, Z.div_add by lia; done).
    destruct (IH (2 * s)) as (j0 & Hj0 & F0); [lia|apply (all_free_half b k s); [done|lia|done..]|].
    destruct (IH (2 * s + 1)) as (j1 & Hj1 & F1); [lia|apply (all_free_half b k s); [done|lia|done..]|].
    assert (forall t j, t / 2 = s -> k < j -> Z.shiftr t (j - k) = Z.shiftr s (j - (k + 1))) as Hup.
    { intros t j Et Hj. rewrite <- Et, <- shiftr_1, Z.shiftr_shiftr by lia. f_equal. lia. }
    destruct (decide (j0 = k)) as [->|]; [|exists j0; split; [lia|by rewrite <- (Hup (2 * s)) by lia]].
    destruct (decide (j1 = k)) as [->|]; [|exists j1; split; [lia|by rewrite <- (Hup (2 * s + 1)) by lia]].
    rewrite Z.sub_diag, Z.shiftr_0_r in F0, F1.
    apply (wf_maximal _ Hb) in F0. rewrite lxor_1 in F0 by lia.
    rewrite (Z.mul_comm 2 s), Z.mod_mul, Z.mul_comm in F0 by lia.
    rewrite Z.mul_0_r, Z.sub_0_r in F0. congruence.
Qed.

Lemma free_block_all_free b k s :
  free_block b k s = true -> all_free b k s.
Proof. intros H u Hu E. split; [done|]. exists k. by rewrite E. Qed.

(** The state is determined by the set of free units. *)
Lemma free_block_unique b b' k s :
  buddy_wf b -> buddy_wf b' -> (forall u, free_unit b u <-> free_unit b' u) ->
  free_block b k s = true -> free_block b' k s = true.
Proof.
  intros Hb Hb' He Hf. destruct (wf_range _ Hb _ _ Hf) as [Hk Hs].
  destruct (all_free_contained b' k s) as (j & Hj & Fj); [done|lia|lia| |].
  { intros u Hu E. apply He. by apply (free_block_all_free b k s). }
  set (t := Z.shiftr s (j - k)) in *. destruct (wf_range _ Hb' _ _ Fj) as [Hj' Ht].
  destruct (all_free_contained b j t) as (i & Hi & Fi); [done|lia|lia| |].
  { intros u Hu E. apply He. by apply (free_block_all_free b' j t). }
  destruct (unit_of_block k s) as [Hu E]; [lia..|].
  assert (k = i) as Ei.
  { eapply (wf_disjoint _ Hb (s * 2 ^ k)); [done|by rewrite E|].
    rewrite (shiftr_le _ k) by lia. rewrite E. unfold t in Fi.
    rewrite Z.shiftr_shiftr in Fi by lia. by replace (j - k + (i - j)) with (i - k) in Fi by lia. }
  assert (j = k) as -> by lia. unfold t in Fj. by rewrite Z.sub_diag, Z.shiftr_0_r in Fj.
Qed.

Lemma free_block_ext b b' :
  buddy_shape b -> buddy_shape b' -> max_order b = max_order b' ->
  (forall k s, free_block b k s = free_block b' k s) -> b = b'.
Proof.
  intros Hb Hb' Ho Hf.
  assert (bitmap b = bitmap b') as Ebm.
  { apply list_eq_same_length with (length (bitmap b));
      [by rewrite (sh_bitmaps _ Hb), (sh_bitmaps _ Hb'), Ho|done|].
    intros k bm bm' Hk H1 H2. apply list_eq_same_length with (length bm); [|done|].
    { by rewrite (sh_len _ Hb _ _ H1), (sh_len _ Hb' _ _ H2), Ho. }
    intros s x y Hs Hx Hy. specialize (Hf (Z.of_nat k) (Z.of_nat s)).
    rewrite (free_block_at _ _ _ bm), (free_block_at _ _ _ bm') in Hf
      by (try lia; by rewrite Nat2Z.id).
    rewrite Nat2Z.id, Hx, Hy in Hf. done. }
  assert (num_free b = num_free b') as Enum.
  { apply list_eq_same_length with (length (num_free b));
      [by rewrite (sh_nums _ Hb), (sh_nums _ Hb'), Ho|done|].
    intros k n n' Hk H1 H2.
    destruct (lookup_lt_is_Some_2 (bitmap b) k) as [bm Hbm];
      [rewrite (sh_bitmaps _ Hb), <- (sh_nums _ Hb); done|].
    rewrite (sh_count _ Hb _ _ _ Hbm H1). symmetry. rewrite Ebm in Hbm.
    apply (sh_count _ Hb' _ _ _ Hbm H2). }
  destruct b, b'; simpl in *; congruence.
Qed.

Lemma buddy_canonical b b' :
  buddy_wf b -> buddy_wf b' -> max_order b = max_order b' ->
  (forall u, free_unit b u <-> free_unit b' u) -> b = b'.
Proof.
  intros Hb Hb' Ho He. apply free_block_ext; [apply Hb|apply Hb'|done|].
  intros k s. apply eq_true_iff_eq. split; by apply free_block_unique.
Qed.

(** ** The search for a free block *)

(** The answer of the search: the least order with a free block, and the first
    free block of that order. *)
Definition best_fit (b : buddy_mem) (start_order seg order : Z) : Prop :=
  start_order <= order /\ free_block b order seg = true /\
  (forall k s, start_order <= k < order -> free_block b k s = false) /\
  (forall s, free_block b order s = true -> seg <= s).

Lemma order_empty b k :
  buddy_shape b -> 0 <= k <= max_order b ->
  num_free b !! Z.to_nat k = Some 0 -> forall s, free_block b k s = false.
Proof.
  intros Hb Hk H0 s. destruct (bitmap_at b k Hb Hk) as (bm & n & Hbm & Hn & Hc & _).
  destruct (decide (0 <= s)).
  - rewrite (free_block_at _ _ _ _ Hbm) by lia.
    destruct (bm !! Z.to_nat s) as [[]|] eqn:E; [|done..].
    apply count_true_lookup in E. simplify_eq. lia.
  - unfold free_block. rewrite (proj2 (Z.leb_gt 0 s)) by lia. by rewrite andb_false_r.
Qed.

Lemma find_first_bit_spec b k bm :
  buddy_wf b -> 0 <= k <= max_order b -> bitmap b !! Z.to_nat k = Some bm ->
  0 < count_true bm ->
  exists seg, find_first_bit bm (Z.shiftl 1 (max_order b - k)) = Some seg /\
    seg < Z.shiftl 1 (max_order b - k) /\ free_block b k seg = true /\
    (forall s, free_block b k s = true -> seg <= s).
Proof.
  intros Hb Hk Hbm Hc. destruct (bitmap_at b k (wf_shape _ Hb) Hk) as (bm' & n & Hbm' & _ & _ & Hl & _).
  simplify_eq. rewrite Z.shiftl_1_l. pose proof (count_true_pos _ Hc) as Hfs.
  set (m := 2 ^ (max_order b - k)) in *. assert (0 < m) by (apply Z.pow_pos_nonneg; lia).
  pose proof (word_bits_ge m).
  assert (free_block b k (Z.of_nat (first_set bm)) = true) as Hf
    by (rewrite (free_block_at _ _ _ _ Hbm), Nat2Z.id, Hfs by lia; done).
  destruct (wf_range _ Hb _ _ Hf) as [_ Hlt]. fold m in Hlt.
  assert (first_set (take (Z.to_nat m) bm) = first_set bm) as E.
  { assert (take (Z.to_nat m) bm !! first_set bm = Some true) as Ht
      by (rewrite lookup_take, decide_True by lia; done).
    pose proof (first_set_lt _ _ Ht). apply Nat.le_antisymm; [done|]. apply first_set_lt.
    pose proof (count_true_pos _ (count_true_lookup _ _ Ht)) as Hp.
    rewrite lookup_take, decide_True in Hp by lia. done. }
  exists (Z.of_nat (first_set bm)). split_and!; [|lia|done|].
  - unfold find_first_bit. rewrite bool_decide_eq_true_2 by lia. by rewrite E.
  - intros s Hs. destruct (wf_range _ Hb _ _ Hs) as [_ Hs0].
    rewrite (free_block_at _ _ _ _ Hbm) in Hs by lia.
    destruct (bm !! Z.to_nat s) as [[]|] eqn:E'; [|done..]. apply first_set_lt in E'. lia.
Qed.

Lemma find_loop_spec b fuel order :
  buddy_wf b -> 0 <= order -> Z.max 0 (max_order b + 1 - order) < Z.of_nat fuel -> order < 2 ^ 32 - 1 ->
  (exists seg k, find_loop fuel b order = Some (inr (seg, k)) /\ best_fit b order seg k) \/
  (find_loop fuel b order = Some (inl (err ENOMEM)) /\
   forall k s, order <= k -> free_block b k s = false).
Proof.
  intros Hb. revert order. induction fuel as [|f IH]; intros order Ho Hfu Hw.
  { lia. }
  cbn [find_loop]. pose proof (sh_order _ (wf_shape _ Hb)) as HM.
  destruct (Z.leb_spec order (max_order b)) as [Hle|Hgt].
  2: { right. split; [done|]. intros k s Hk. apply not_true_is_false. intros F.
       apply (wf_range _ Hb) in F as [? _]. lia. }
  destruct (bitmap_at b order (wf_shape _ Hb)) as (bm & n & Hbm & Hn & Hc & Hl & Hn31); [lia|].
  rewrite Hn. cbn [mbind option_bind]. destruct (Z.eqb_spec n 0) as [->|Hn0].
  - pose proof (order_empty b order (wf_shape _ Hb) (conj Ho Hle) Hn) as Hemp.
    rewrite u32_id by lia. destruct (IH (order + 1)) as [(seg & k & E & Hk & Hf & Hmin & Hfst)|[E Hno]]; [lia..| |].
    + left. exists seg, k. split; [done|]. split_and!; [lia|done| |done].
      intros k' s' Hk'. destruct (decide (k' = order)) as [->|]; [done|apply Hmin; lia].
    + right. split; [done|]. intros k s Hk.
      destruct (decide (k = order)) as [->|]; [done|apply Hno; lia].
  - left. unfold shl1. rewrite (proj2 (Z.leb_le _ _)), (proj2 (Z.ltb_lt _ _)) by lia.
    cbn [andb mbind option_bind]. rewrite Hbm. cbn [mbind option_bind].
    destruct (find_first_bit_spec b order bm Hb (conj Ho Hle) Hbm) as (seg & Hff & Hlt & Hf & Hfst); [lia|].
    rewrite Hff. cbn [mbind option_bind]. rewrite (proj2 (Z.leb_gt _ _)) by done.
    exists seg, order. split; [done|]. split_and!; [lia|done| |done]. intros; lia.
Qed.

(** ** Splitting *)

Lemma split_loop_spec b fuel order k s :
  buddy_wf b -> 0 <= order <= k -> in_range b k s -> Z.max 0 (k - order) < Z.of_nat fuel ->
  (forall u, 0 <= u -> Z.shiftr u k = s -> ~ free_unit b u) ->
  exists b', split_loop fuel order k s b = Some (s * 2 ^ (k - order), b') /\
    buddy_wf b' /\ max_order b' = max_order b /\
    forall u, free_unit b' u <->
      free_unit b u \/ (0 <= u /\ Z.shiftr u k = s /\ Z.shiftr u order <> s * 2 ^ (k - order)).
Proof.
  revert b k s. induction fuel as [|f IH]; intros b k s Hb Ho Hr Hfu Hnone; [lia|].
  cbn [split_loop]. destruct (Z.ltb_spec order k) as [Hlt|Hge].
  2: { assert (k = order) as -> by lia. rewrite Z.sub_diag, Z.pow_0_r, Z.mul_1_r.
       exists b. split_and!; [done..|]. intros u. split; [by left|].
       intros [H|(_ & E & Hne)]; [done|]. by destruct (Hne E). }
  destruct Hr as [Hk Hs]. pose proof (sh_order _ (wf_shape _ Hb)) as HM.
  assert (2 ^ (max_order b - (k - 1)) = 2 * 2 ^ (max_order b - k)) as Epow.
  { replace (max_order b - (k - 1)) with (1 + (max_order b - k)) by lia.
    rewrite Z.pow_add_r by lia. lia. }
  assert (2 ^ (max_order b - (k - 1)) <= 2 ^ 31) as Hp31 by (apply Z.pow_le_mono_r; lia).
  assert (u32 (Z.shiftl s 1) = 2 * s) as ->
    by (rewrite Z.shiftl_mul_pow2 by lia; rewrite u32_id; lia).
  assert (Z.lxor (2 * s) 1 = 2 * s + 1) as ->.
  { rewrite lxor_1 by lia. rewrite (Z.mul_comm 2 s), Z.mod_mul by lia. lia. }
  assert (forall u, Z.shiftr u k = Z.shiftr u (k - 1) / 2) as Hup
    by (intros u; rewrite <- shiftr_S by lia; f_equal; lia).
  assert (forall t, t / 2 = s <-> t = 2 * s \/ t = 2 * s + 1) as Hdiv.
  { intros t. pose proof (Z.div_mod t 2). pose proof (Z.mod_pos_bound t 2). lia. }
  destruct (mark_free_wf (k - 1) (2 * s + 1) b) as (b1 & Hm & Hb1 & Ho1 & Hu1); [done|split; lia| | |].
  - apply not_true_is_false. intros F. destruct (unit_of_block (k - 1) (2 * s)) as [Hu E]; [lia..|].
    apply (Hnone _ Hu); [rewrite Hup, E; apply Hdiv; by left|].
    split; [done|]. exists (k - 1). rewrite E. rewrite lxor_1 in F by lia.
    replace (2 * s + 1) with (1 + s * 2) in F by lia. rewrite Z.mod_add, Z.mod_small in F by lia.
    by replace (1 + s * 2 + 1 - 2 * 1) with (2 * s) in F by lia.
  - intros u Hu E. apply Hnone; [done|]. rewrite Hup, E. apply Hdiv. by right.
  - rewrite Hm. cbn [mbind option_bind].
    destruct (IH b1 (k - 1) (2 * s)) as (b' & E & Hb' & Ho' & Hu'); [done|lia| |lia| |].
    + unfold in_range. rewrite Ho1. lia.
    + intros u Hu Eu [F|[_ F]]%Hu1; [|lia]. apply (Hnone u); [done| |done].
      rewrite Hup, Eu. apply Hdiv. by left.
    + assert (2 * s * 2 ^ (k - 1 - order) = s * 2 ^ (k - order)) as Es.
      { replace (k - order) with (1 + (k - 1 - order)) by lia. rewrite Z.pow_add_r by lia. lia. }
      rewrite Es in E, Hu'. exists b'. split_and!; [done|done|congruence|].
      intros u. rewrite Hu', Hu1, Hup, Hdiv. split; [|tauto].
      intros [[F|[Hu F]]|(Hu & F & Hne)]; [by left|right|right; tauto].
      split_and!; [done|by right|]. intros Eu.
      rewrite (shiftr_le u order (k - 1)), Eu in F by lia.
      rewrite <- Es, Z.shiftr_div_pow2, Z.div_mul in F by (try apply Z.pow_nonzero; lia). lia.
Qed.

(** ** Allocation and release *)

(** What an allocation of [2 ^ order] units promises, in terms of the free
    units only. *)
Definition takes_block (order seg : Z) (b b' : buddy_mem) : Prop :=
  exists s, seg = s * 2 ^ order /\ 0 <= s < 2 ^ (max_order b - order) /\
    all_free b order s /\ max_order b' = max_order b /\
    forall u, free_unit b' u <-> free_unit b u /\ Z.shiftr u order <> s.

Lemma best_fit_none b order :
  buddy_wf b -> 0 <= order ->
  (forall k s, order <= k -> free_block b k s = false) ->
  forall s, 0 <= s -> ~ all_free b order s.
Proof.
  intros Hb Ho Hno s Hs Ha.
  destruct (all_free_contained b order s Hb Ho Hs Ha) as (j & Hj & F).
  rewrite Hno in F by done. done.
Qed.

Lemma sub_block u k order s :
  0 <= order <= k -> Z.shiftr u order = s * 2 ^ (k - order) -> Z.shiftr u k = s.
Proof.
  intros Ho E. rewrite (shiftr_le u order k), E by lia.
  rewrite Z.shiftr_div_pow2, Z.div_mul by (try apply Z.pow_nonzero; lia). done.
Qed.

Lemma alloc_taken b order seg k :
  buddy_wf b -> 0 <= order -> best_fit b order seg k ->
  exists b', mlx5dr_buddy_alloc_mem order b = Some (inr (seg * 2 ^ k), b') /\
    buddy_wf b' /\ takes_block order (seg * 2 ^ k) b b'.
Proof.
  intros Hb Ho (Hok & Hf & Hmin & Hfst).
  pose proof (wf_range _ Hb _ _ Hf) as Hr. pose proof (sh_order _ (wf_shape _ Hb)) as HM.
  destruct Hr as [Hk Hs] eqn:Er. clear Er.
  destruct (mark_used_wf k seg b Hb Hf) as (b1 & Hm & Hb1 & Ho1 & Hu1).
  destruct (split_loop_spec b1 (loop_fuel b) order k seg) as (b2 & Hsp & Hb2 & Ho2 & Hu2);
    [done|lia|by unfold in_range; rewrite Ho1|unfold loop_fuel; lia| |].
  { intros u Hu E [_ Hne]%Hu1. done. }
  assert (seg * 2 ^ (k - order) * 2 ^ order = seg * 2 ^ k) as Epow.
  { rewrite <- Z.mul_assoc, <- Z.pow_add_r by lia. f_equal. f_equal. lia. }
  assert (0 < 2 ^ (k - order)) as Hpos by (apply Z.pow_pos_nonneg; lia).
  assert (2 ^ (max_order b - order) = 2 ^ (max_order b - k) * 2 ^ (k - order)) as Ep2
    by (rewrite <- Z.pow_add_r by lia; f_equal; lia).
  assert (2 ^ max_order b = 2 ^ (max_order b - k) * 2 ^ k) as Ep3
    by (rewrite <- Z.pow_add_r by lia; f_equal; lia).
  assert (2 ^ max_order b <= 2 ^ 30) by (apply Z.pow_le_mono_r; lia).
  exists b2. split_and!; [|done|].
  - unfold mlx5dr_buddy_alloc_mem.
    destruct (find_loop_spec b (loop_fuel b) order Hb Ho) as [(seg' & k' & E & Hok' & Hf' & Hmin' & Hfst')|[_ Hno]];
      [unfold loop_fuel; lia|lia| |rewrite (Hno k seg) in Hf by done; done].
    assert (k' = k) as ->.
    { destruct (Z.lt_trichotomy k' k) as [Hl|[Heq|Hg]]; [|done|].
      - rewrite (Hmin k' seg') in Hf' by lia. done.
      - rewrite (Hmin' k seg) in Hf by lia. done. }
    assert (seg' = seg) as -> by (apply Z.le_antisymm; [by apply Hfst'|by apply Hfst]).
    unfold dr_buddy_find_free_seg. rewrite E. cbn [mbind option_bind].
    change (mark_used k seg b) with (mark false k seg b) in *. rewrite Hm.
    cbn [mbind option_bind]. rewrite Hsp. cbn [mbind option_bind].
    rewrite (proj2 (Z.ltb_lt order 32)) by lia.
    rewrite Z.shiftl_mul_pow2, Epow, u32_id; [done|nia|lia].
  - exists (seg * 2 ^ (k - order)). split_and!; [done|nia|nia| |congruence|].
    + intros u Hu E. split; [done|]. exists k. by rewrite (sub_block u k order seg).
    + intros u. rewrite Hu2, Hu1. split.
      * intros [[F Hne]|(Hu & E & Hne)].
        -- split; [done|]. intros E. by apply Hne, sub_block with order.
        -- split; [|done]. split; [done|]. exists k. by rewrite E.
      * intros [F Hne]. destruct (decide (Z.shiftr u k = seg)) as [E|E]; [|by left].
        right. split_and!; [apply F|done..].
Qed.

Lemma alloc_spec b order :
  buddy_wf b -> 0 <= order < 2 ^ 32 - 1 ->
  (exists seg k b', mlx5dr_buddy_alloc_mem order b = Some (inr (seg * 2 ^ k), b') /\
     best_fit b order seg k /\ buddy_wf b' /\ takes_block order (seg * 2 ^ k) b b') \/
  (mlx5dr_buddy_alloc_mem order b = Some (inl (err ENOMEM), b) /\
   forall s, 0 <= s -> ~ all_free b order s).
Proof.
  intros Hb Ho. pose proof (sh_order _ (wf_shape _ Hb)) as HM.
  destruct (find_loop_spec b (loop_fuel b) order Hb) as [(seg & k & E & Hbf)|[E Hno]];
    [lia|unfold loop_fuel; lia|lia| |].
  - left. destruct (alloc_taken b order seg k Hb) as (b' & Ha & Hb' & Ht); [lia|done|].
    exists seg, k, b'. split_and!; done.
  - right. split; [|apply best_fit_none; [done|lia|done]].
    unfold mlx5dr_buddy_alloc_mem, dr_buddy_find_free_seg. by rewrite E.
Qed.

(** *** Merging *)

Lemma top_bit_clear b s :
  buddy_wf b -> in_range b (max_order b) s -> free_block b (max_order b) (Z.lxor s 1) = false.
Proof.
  intros Hb [_ Hs]. rewrite Z.sub_diag, Z.pow_0_r in Hs. assert (s = 0) as -> by lia.
  apply not_true_is_false. intros F. apply (wf_range _ Hb) in F as [_ F].
  rewrite Z.sub_diag, Z.pow_0_r in F. change (Z.lxor 0 1) with 1 in F. lia.
Qed.

(** The bit of the buddy can be read even at the top order, where it lies
    beyond the requested bits but inside the allocated word. *)
Lemma buddy_bit_readable b k s :
  buddy_wf b -> in_range b k s ->
  exists bm, bitmap b !! Z.to_nat k = Some bm /\
    test_bit (Z.lxor s 1) bm = Some (free_block b k (Z.lxor s 1)).
Proof.
  intros Hb [Hk Hs]. destruct (bitmap_at b k (wf_shape _ Hb) Hk) as (bm & n & Hbm & _ & _ & Hl & _).
  exists bm. split; [done|]. destruct (sibling s) as (Hx & _); [lia|].
  rewrite (free_block_at _ _ _ _ Hbm) by lia. unfold test_bit.
  destruct (lookup_lt_is_Some_2 bm (Z.to_nat (Z.lxor s 1))) as [x ->]; [|done].
  pose proof (word_bits_ge (2 ^ (max_order b - k))).
  destruct (decide (k = max_order b)) as [->|].
  - rewrite Z.sub_diag, Z.pow_0_r in Hs. assert (s = 0) as -> by lia.
    change (Z.lxor 0 1) with 1. rewrite Hl. lia.
  - pose proof (lxor_1_range s (max_order b - k)). lia.
Qed.

Lemma merge_loop_spec b fuel k s :
  buddy_wf b -> in_range b k s -> max_order b - k < Z.of_nat fuel ->
  (forall u, 0 <= u -> Z.shiftr u k = s -> ~ free_unit b u) ->
  exists b', merge_loop fuel k s b = Some b' /\ buddy_wf b' /\ max_order b' = max_order b /\
    forall u, free_unit b' u <-> free_unit b u \/ (0 <= u /\ Z.shiftr u k = s).
Proof.
  revert b k s. induction fuel as [|f IH]; intros b k s Hb Hr Hfu Hnone;
    [destruct Hr; lia|].
  pose proof (sh_order _ (wf_shape _ Hb)) as HM.
  cbn [merge_loop]. destruct (buddy_bit_readable b k s Hb Hr) as (bm & -> & Ht).
  cbn [mbind option_bind]. rewrite Ht. cbn [mbind option_bind].
  destruct (free_block b k (Z.lxor s 1)) eqn:F; [|by apply mark_free_wf].
  destruct (decide (k = max_order b)) as [->|Hkm]; [by rewrite top_bit_clear in F|].
  destruct Hr as [Hk Hs]. destruct (sibling s) as (Hx & _ & Ex & Hsib); [lia|].
  destruct (mark_used_wf k (Z.lxor s 1) b Hb F) as (b1 & Hm & Hb1 & Ho1 & Hu1).
  rewrite Hm. cbn [mbind option_bind]. rewrite u32_id, shiftr_1 by lia.
  destruct (IH b1 (k + 1) (s / 2)) as (b' & Hl & Hb' & Ho' & Hu'); [done| |lia| |].
  - unfold in_range. rewrite Ho1. split; [lia|]. split; [apply Z.div_pos; lia|].
    apply Z.div_lt_upper_bound; [lia|].
    replace (max_order b - k) with (1 + (max_order b - (k + 1))) in Hs by lia.
    rewrite Z.pow_add_r in Hs by lia. lia.
  - intros u Hu E [Hfu' Hne]%Hu1. rewrite shiftr_S in E by lia.
    destruct (Hsib _ E) as [E'|E']; [by apply (Hnone u)|done].
  - exists b'. split_and!; [done|done|congruence|]. intros u. rewrite Hu', Hu1, shiftr_S by lia.
    split.
    + intros [[? _]|[Hu E]]; [by left|].
      destruct (Hsib _ E) as [E'|E']; [by right|left; split; [done|]]. exists k. by rewrite E'.
    + intros [H|[Hu E]]; [|right; split; [done|by rewrite E]].
      destruct (decide (Z.shiftr u k = Z.lxor s 1)) as [E|E]; [|by left].
      right. split; [apply H|]. by rewrite E.
Qed.

Lemma free_spec b seg order :
  buddy_wf b -> 0 <= order <= max_order b -> 0 <= seg < 2 ^ max_order b ->
  (forall u, 0 <= u -> Z.shiftr u order = Z.shiftr seg order -> ~ free_unit b u) ->
  exists b', mlx5dr_buddy_free_mem seg order b = Some b' /\ buddy_wf b' /\
    max_order b' = max_order b /\
    forall u, free_unit b' u <->
      free_unit b u \/ (0 <= u /\ Z.shiftr u order = Z.shiftr seg order).
Proof.
  intros Hb Ho Hs Hnone. pose proof (sh_order _ (wf_shape _ Hb)) as HM.
  unfold mlx5dr_buddy_free_mem. rewrite (proj2 (Z.ltb_lt _ _)) by lia.
  apply merge_loop_spec; [done| |unfold loop_fuel; lia|done].
  split; [lia|]. rewrite Z.shiftr_div_pow2 by lia. split; [apply Z.div_pos; lia|].
  apply Z.div_lt_upper_bound; [lia|]. rewrite <- Z.pow_add_r by lia.
  replace (order + (max_order b - order)) with (max_order b) by lia. lia.
Qed.

(** ** The initial state *)

Lemma allocs_map_HFree l : allocs (map HFree l) = [].
Proof. by induction l. Qed.

Lemma frees_map_HFree l : frees (map HFree l) = l.
Proof. induction l as [|i l IH]; [done|]. cbn. f_equal. apply IH. Qed.

Lemma init_bitmaps_events n i M id ok :
  match init_bitmaps n i M id ok with
  | (ev, inl bms) => allocs ev = seq id n /\ frees ev = [] /\ length bms = n /\
      forall k bm, bms !! k = Some bm -> bm = bitmap_zalloc (Z.shiftl 1 (M - (i + Z.of_nat k)))
  | (ev, inr ids) => allocs ev = ids /\ frees ev = [] /\
      exists m, (m < n)%nat /\ ids = seq id m
  end.
Proof.
  revert i id. induction n as [|n IH]; intros i id; simpl; [done|].
  destruct (ok id); [|simpl; split_and!; [done|done|exists 0%nat; split; [lia|done]]].
  specialize (IH (i + 1) (S id)). destruct (init_bitmaps n (i + 1) M (S id) ok) as [ev [bms|ids]].
  - destruct IH as (E1 & E2 & E3 & E4).
    split_and!; [cbn; f_equal; apply E1|apply E2|cbn; by rewrite E3|].
    intros [|k] bm Hk; simplify_eq/=; [by rewrite Z.add_0_r|].
    rewrite (E4 _ _ Hk). f_equal. f_equal. lia.
  - destruct IH as (E1 & E2 & m & Hm & E3). 
    split_and!; [cbn; f_equal; apply E1|apply E2|]. exists (S m). split; [lia|]. simpl. by rewrite E3.
Qed.

Lemma init_bitmaps_ok n i M id ok :
  (forall j, ok j = true) -> exists ev bms, init_bitmaps n i M id ok = (ev, inl bms).
Proof.
  intros Hok. revert i id. induction n as [|n IH]; intros i id; simpl; [by eauto|].
  rewrite Hok. destruct (IH (i + 1) (S id)) as (ev & bms & ->). eauto.
Qed.

(** The state right after the allocation of the bitmaps: no free block. *)
Lemma zalloc_shape M bms :
  0 <= M <= 30 -> length bms = Z.to_nat (M + 1) ->
  (forall k bm, bms !! k = Some bm -> bm = bitmap_zalloc (Z.shiftl 1 (M - (0 + Z.of_nat k)))) ->
  let b := {| bitmap := bms; num_free := replicate (Z.to_nat (M + 1)) 0; max_order := M |} in
  buddy_shape b /\ forall k s, free_block b k s = false.
Proof.
  intros HM Hl Hz b. split.
  - constructor; simpl; [done|done|by rewrite length_replicate| |].
    + intros k bm Hk. rewrite (Hz _ _ Hk). unfold bitmap_zalloc.
      rewrite length_replicate, Z.shiftl_1_l, Z.add_0_l. done.
    + intros k bm n Hk Hn. rewrite (Hz _ _ Hk). unfold bitmap_zalloc.
      rewrite count_true_replicate. by apply lookup_replicate_1 in Hn as [-> _].
  - intros k s. unfold free_block. simpl.
    destruct (bms !! Z.to_nat k) as [bm|] eqn:Hk; [|by rewrite andb_false_r].
    rewrite (Hz _ _ Hk). unfold bitmap_zalloc.
    destruct (replicate _ false !! Z.to_nat s) as [x|] eqn:Hx; [|by rewrite andb_false_r].
    apply lookup_replicate_1 in Hx as [-> _]. by rewrite andb_false_r.
Qed.

Lemma shiftr_top_zero u M : 0 <= M -> 0 <= u -> (Z.shiftr u M = 0 <-> u < 2 ^ M).
Proof.
  intros HM Hu. rewrite Z.shiftr_div_pow2 by done.
  assert (0 < 2 ^ M) by (apply Z.pow_pos_nonneg; lia).
  rewrite Z.div_small_iff by lia. lia.
Qed.

(** Marking the block of the largest order free completes the initialisation. *)
Lemma init_first_block M bms :
  0 <= M <= 30 -> length bms = Z.to_nat (M + 1) ->
  (forall k bm, bms !! k = Some bm -> bm = bitmap_zalloc (Z.shiftl 1 (M - (0 + Z.of_nat k)))) ->
  exists b,
    (b1 ← put_bit true M 0 {| bitmap := bms; num_free := replicate (Z.to_nat (M + 1)) 0;
                              max_order := M |};
     Some {| bitmap := bitmap b1; num_free := <[Z.to_nat M := 1]> (num_free b1);
             max_order := M |}) = Some b /\
    buddy_wf b /\ max_order b = M /\ forall u, free_unit b u <-> 0 <= u < 2 ^ M.
Proof.
  intros HM Hl Hz. destruct (zalloc_shape M bms HM Hl Hz) as [Hsh Hnone].
  set (b0 := {| bitmap := bms; num_free := _; max_order := M |}) in *.
  assert (buddy_wf b0) as Hwf.
  { constructor; [done| | |]; intros; by rewrite Hnone in *. }
  assert (forall u, ~ free_unit b0 u) as Hu0.
  { intros u (_ & k & F). by rewrite Hnone in F. }
  destruct (mark_free_wf M 0 b0) as (b & Hm & Hb & Ho & Hu); [done| |apply Hnone|auto|].
  { split; simpl; [lia|]. rewrite Z.sub_diag. simpl. lia. }
  exists b. split_and!; [|done|done|].
  - unfold mark_free in Hm. destruct (put_bit true M 0 b0) as [b1|] eqn:Ep; [|done].
    assert (num_free b1 = num_free b0 /\ max_order b1 = M) as [En Eo].
    { unfold put_bit in Ep. destruct (bitmap b0 !! Z.to_nat M); [|done]. simpl in Ep.
      destruct (bitmap_put true 0 l); [|done]. by simplify_eq/=. }
    cbn [mbind option_bind] in *. unfold add_free in Hm. rewrite En, Eo in Hm. rewrite En.
    unfold b0 in Hm |- *. cbn [num_free] in Hm |- *.
    rewrite lookup_replicate_2 in Hm by lia. exact Hm.
  - intros u. rewrite Hu. split.
    + intros [F|[? F]]; [by apply Hu0 in F|]. apply shiftr_top_zero in F; lia.
    + intros ?. right. split; [lia|]. apply shiftr_top_zero; lia.
Qed.

Lemma init_spec M ok :
  0 <= M <= 30 -> (forall j, ok j = true) ->
  exists ev b, mlx5dr_buddy_init M ok = (ev, inr (Some b)) /\ buddy_wf b /\ max_order b = M /\
    forall u, free_unit b u <-> 0 <= u < 2 ^ M.
Proof.
  intros HM Hok. unfold mlx5dr_buddy_init. rewrite !Hok. cbn [negb orb].
  pose proof (init_bitmaps_events (Z.to_nat (M + 1)) 0 M 2 ok) as He.
  destruct (init_bitmaps_ok (Z.to_nat (M + 1)) 0 M 2 ok Hok) as (ev & bms & E).
  rewrite E in He |- *. destruct He as (_ & _ & Hl & Hz).
  destruct (init_first_block M bms HM Hl Hz) as (b & -> & Hb). eexists _, b. by split.
Qed.

Lemma allocs_app ev ev' : allocs (ev ++ ev') = allocs ev ++ allocs ev'.
Proof. apply omap_app. Qed.

Lemma frees_app ev ev' : frees (ev ++ ev') = frees ev ++ frees ev'.
Proof. apply omap_app. Qed.

(** ** Refinement: a client of the allocator

    The client holds the blocks it was given, as pairs of segment and order,
    most recent first, and releases them by position. *)

Inductive client_op := CAlloc (order : Z) | CFree (i : nat).

(** The concrete run: the code, with the blocks the client holds. [None] is
    undefined behaviour or a loop that does not end. *)
Definition client_step (o : client_op) (st : buddy_mem * blocks)
  : option (option Z * (buddy_mem * blocks)) :=
  let '(b, held) := st in
  match o with
  | CAlloc order =>
      r ← mlx5dr_buddy_alloc_mem order b;
      match r with
      | (inr seg, b') => Some (Some seg, (b', (seg, order) :: held))
      | (inl _, b') => Some (None, (b', held))
      end
  | CFree i =>
      match held !! i with
      | Some (seg, order) =>
          b' ← mlx5dr_buddy_free_mem seg order b;
          Some (None, (b', delete i held))
      | None => Some (None, st)
      end
  end.

Fixpoint client_run (os : list client_op) (st : buddy_mem * blocks)
  : option (list (option Z) * (buddy_mem * blocks)) :=
  match os with
  | [] => Some ([], st)
  | o :: os' =>
      '(r, st1) ← client_step o st;
      '(rs, st2) ← client_run os' st1;
      Some (r :: rs, st2)
  end.

(** The abstract allocator: a memory of [2 ^ M] units and the blocks handed
    out; [fits] tells which blocks it may hand out. *)
Inductive spec_step (M : Z) : client_op -> blocks -> option Z -> blocks -> Prop :=
| spec_alloc order s held :
    fits M held order s ->
    spec_step M (CAlloc order) held (Some (s * 2 ^ order)) ((s * 2 ^ order, order) :: held)
| spec_nomem order held :
    (forall s, ~ fits M held order s) ->
    spec_step M (CAlloc order) held None held
| spec_free i held :
    spec_step M (CFree i) held None (delete i held).

Inductive spec_run (M : Z) : list client_op -> blocks -> list (option Z) -> blocks -> Prop :=
| spec_run_nil held : spec_run M [] held [] held
| spec_run_cons o os held r held1 rs held2 :
    spec_step M o held r held1 -> spec_run M os held1 rs held2 ->
    spec_run M (o :: os) held (r :: rs) held2.

(** The refinement relation: a unit is free exactly when it lies in the memory
    and no block handed out covers it; the blocks handed out are aligned, inside
    the memory and disjoint. *)
Record buddy_rel (M : Z) (b : buddy_mem) (held : blocks) : Prop := {
  rel_wf : buddy_wf b;
  rel_order : max_order b = M;
  rel_units : forall u, free_unit b u <->
    0 <= u < 2 ^ M /\ Forall (fun bl => ~ unit_in u bl) held;
  rel_blocks : blocks_ok M held
}.

Definition op_ok (o : client_op) : Prop :=
  match o with CAlloc order => 0 <= order < 2 ^ 32 - 1 | CFree _ => True end.

Lemma block_in_memory M order s u :
  0 <= order <= M -> 0 <= s < 2 ^ (M - order) -> 0 <= u -> Z.shiftr u order = s ->
  0 <= u < 2 ^ M.
Proof.
  intros Ho Hs Hu E. split; [done|].
  apply (shiftr_top_zero u M); [lia|done|].
  rewrite (shiftr_le u order M), E by lia. apply shiftr_top_zero; lia.
Qed.

Lemma fits_all_free M b held order s :
  buddy_rel M b held -> 0 <= order <= M -> 0 <= s < 2 ^ (M - order) ->
  (fits M held order s <-> all_free b order s).
Proof.
  intros [Hb HM Hu _] Ho Hs. split.
  - intros (_ & _ & H) u Hu0 E. apply Hu. split; [|by apply H].
    by apply (block_in_memory M order s).
  - intros H. split_and!; [lia..|]. intros u Hu0 E. by apply Hu, H.
Qed.

Lemma all_free_range b order s :
  buddy_wf b -> 0 <= order -> 0 <= s -> all_free b order s ->
  order <= max_order b /\ s < 2 ^ (max_order b - order).
Proof.
  intros Hb Ho Hs Ha. destruct (all_free_contained b order s Hb Ho Hs Ha) as (j & Hj & F).
  destruct (wf_range _ Hb _ _ F) as [Hj' Hr]. split; [lia|].
  rewrite Z.shiftr_div_pow2 in Hr by lia.
  assert (0 < 2 ^ (j - order)) by (apply Z.pow_pos_nonneg; lia).
  assert (2 ^ (max_order b - order) = 2 ^ (max_order b - j) * 2 ^ (j - order)) as ->
    by (rewrite <- Z.pow_add_r by lia; f_equal; lia).
  pose proof (Z.div_mod s (2 ^ (j - order))). pose proof (Z.mod_pos_bound s (2 ^ (j - order))).
  nia.
Qed.

Lemma unit_in_block u s order :
  0 <= order -> 0 <= s -> unit_in u (s * 2 ^ order, order) <-> 0 <= u /\ Z.shiftr u order = s.
Proof.
  intros. unfold unit_in. simpl. by rewrite (proj2 (unit_of_block order s ltac:(lia) ltac:(lia))).
Qed.

Lemma Forall_delete_iff {A} (P : A -> Prop) (i : nat) (l : list A) x :
  l !! i = Some x -> Forall P l <-> P x /\ Forall P (delete i l).
Proof.
  intros Hi. rewrite delete_take_drop.
  rewrite <- (take_drop_middle l i x Hi) at 1.
  rewrite !Forall_app, Forall_cons_iff. tauto.
Qed.

(** An element left after a deletion, with its former position. *)
Lemma lookup_delete_inv {A} (l : list A) (i j : nat) x :
  delete i l !! j = Some x ->
  exists j', j' <> i /\ l !! j' = Some x /\ (j = if decide (j' < i) then j' else j' - 1)%nat.
Proof.
  intros Hj. destruct (decide (j < i)%nat) as [Hl|Hl].
  - rewrite list_lookup_delete_lt in Hj by done. exists j.
    split_and!; [lia|done|]. by rewrite decide_True by lia.
  - rewrite list_lookup_delete_ge in Hj by lia. exists (S j).
    split_and!; [lia|done|]. rewrite decide_False by lia. lia.
Qed.

Lemma sim_alloc M b held order :
  buddy_rel M b held -> 0 <= order < 2 ^ 32 - 1 ->
  exists r st, client_step (CAlloc order) (b, held) = Some (r, st) /\
    spec_step M (CAlloc order) held r st.2 /\ buddy_rel M st.1 st.2.
Proof.
  intros Hrel Ho. pose proof Hrel as [Hb HM Hu [Hbl Hd]].
  destruct (alloc_spec b order Hb Ho) as [(seg & k & b' & Ha & _ & Hb' & Ht)|[Ha Hno]].
  - destruct Ht as (s & Es & Hs & Haf & Ho' & Hu'). rewrite Es in Ha. rewrite HM in Hs.
    destruct (all_free_range b order s) as [Hom _]; [done|lia|lia|done|]. rewrite HM in Hom.
    pose proof (proj2 (fits_all_free M b held order s Hrel ltac:(lia) Hs) Haf) as Hfit.
    exists (Some (s * 2 ^ order)), (b', (s * 2 ^ order, order) :: held).
    split_and!; [unfold client_step; by rewrite Ha|by apply spec_alloc|]. cbn [fst snd].
    pose proof (fun u => unit_in_block u s order ltac:(lia) ltac:(lia)) as Hui.
    constructor; [done|congruence| |split].
    + intros u. rewrite Hu', Hu, Forall_cons_iff, Hui.
      split; [tauto|]. intros [? [Hn ?]]. split; [done|]. intros E. apply Hn. lia.
    + constructor; [|done]. cbn [fst snd]. split_and!; [lia|lia| | |].
      3: { apply Z.mod_mul, Z.pow_nonzero; lia. }
      all: destruct (unit_of_block order s) as [H0 E]; [lia..|].
      all:       apply (block_in_memory M order s); [lia|lia|done|done].
    + destruct Hfit as (_ & _ & Hfit).
      intros [|i] [|j] bi bj u Hi Hj Hui1 Hui2; simplify_eq/=; [done| | |].
      * apply Hui in Hui1 as [? E]. pose proof (Hfit u ltac:(lia) E) as Hall.
        by destruct (Forall_lookup_1 _ _ _ _ Hall Hj).
      * apply Hui in Hui2 as [? E]. pose proof (Hfit u ltac:(lia) E) as Hall.
        by destruct (Forall_lookup_1 _ _ _ _ Hall Hi).
      * f_equal. by apply (Hd i j bi bj u).
  - exists None, (b, held). split_and!; [unfold client_step; by rewrite Ha| |done].
    apply spec_nomem. intros s Hfit. pose proof Hfit as (Ho' & Hs & _).
    apply (Hno s); [lia|]. by apply (fits_all_free M b held order s Hrel).
Qed.

Lemma sim_free M b held i :
  buddy_rel M b held ->
  exists r st, client_step (CFree i) (b, held) = Some (r, st) /\
    spec_step M (CFree i) held r st.2 /\ buddy_rel M st.1 st.2.
Proof.
  intros Hrel. pose proof Hrel as [Hb HM Hu [Hbl Hd]].
  exists None. unfold client_step. destruct (held !! i) as [[seg order]|] eqn:Hi.
  2: { exists (b, held). assert (delete i held = held) as E.
       { rewrite delete_take_drop. apply lookup_ge_None in Hi.
         rewrite take_ge, drop_ge by lia. apply app_nil_r. }
       split_and!; [done| |done]. cbn [snd]. rewrite <- E at 2. constructor. }
  pose proof (Forall_lookup_1 _ _ _ _ Hbl Hi) as (Ho & Hs & _). cbn [fst snd] in Ho, Hs.
  destruct (free_spec b seg order) as (b' & Hf & Hb' & Ho' & Hu'); [done|lia|by rewrite HM| |].
  { intros u Hu0 E [_ Hall]%Hu. by destruct (Forall_lookup_1 _ _ _ _ Hall Hi). }
  exists (b', delete i held). rewrite Hf. split_and!; [done|constructor|]. cbn [fst snd].
  constructor; [done|congruence| |split].
  - intros u. rewrite Hu', Hu, (Forall_delete_iff _ i held _ Hi). split.
    + intros [(? & ? & ?)|[Hu0 E]]; [done|]. split.
      * apply (block_in_memory M order (Z.shiftr u order)); [lia| |done|done].
        rewrite E, Z.shiftr_div_pow2 by lia. split; [apply Z.div_pos; lia|].
        apply Z.div_lt_upper_bound; [lia|]. rewrite <- Z.pow_add_r by lia.
        replace (order + (M - order)) with M by lia. lia.
      * apply Forall_lookup. intros j bl (j' & Hne & Hj & _)%lookup_delete_inv Hbj.
        destruct Hne. eapply (Hd _ _ _ _ u Hj Hi); [done|by split].
    + intros [Hr Hall]. destruct (decide (Z.shiftr u order = Z.shiftr seg order)) as [E|E];
        [right; split; [lia|done]|left]. split_and!; [lia..| |done].
      intros [_ E']. by apply E.
  - by apply (Forall_delete_iff _ i held _ Hi) in Hbl as [_ ?].
  - intros j1 j2 b1 b2 u (j1' & _ & H1 & ->)%lookup_delete_inv
      (j2' & _ & H2 & ->)%lookup_delete_inv Hu1 Hu2.
    by rewrite (Hd _ _ _ _ u H1 H2 Hu1 Hu2).
Qed.

Lemma client_sim M b held o :
  buddy_rel M b held -> op_ok o ->
  exists r st, client_step o (b, held) = Some (r, st) /\
    spec_step M o held r st.2 /\ buddy_rel M st.1 st.2.
Proof. destruct o; intros ? ?; [by apply sim_alloc|by apply sim_free]. Qed.

Lemma client_run_sim M os b held :
  buddy_rel M b held -> Forall op_ok os ->
  exists rs st, client_run os (b, held) = Some (rs, st) /\
    spec_run M os held rs st.2 /\ buddy_rel M st.1 st.2.
Proof.
  intros Hrel Hos. revert b held Hrel.
  induction Hos as [|o os Ho Hos IH]; intros b held Hrel; cbn [client_run].
  { exists [], (b, held). split_and!; [done|constructor|done]. }
  destruct (client_sim M b held o Hrel Ho) as (r & [b1 held1] & E & Hs & Hrel1).
  destruct (IH b1 held1 Hrel1) as (rs & st & E' & Hr & Hrel2).
  exists (r :: rs), st. rewrite E. cbn [mbind option_bind]. rewrite E'.
  split_and!; [done|by econstructor|done].
Qed.

Lemma init_rel M b :
  buddy_wf b -> max_order b = M -> (forall u, free_unit b u <-> 0 <= u < 2 ^ M) ->
  buddy_rel M b [].
Proof.
  intros Hb HM Hu. constructor; [done|done| |split; [constructor|by intros ??????]].
  intros u. rewrite Hu. split; [intros; split; [done|constructor]|tauto].
Qed.

Lemma alloc_free_back b order seg b' :
  buddy_wf b -> 0 <= order < 2 ^ 32 - 1 ->
  mlx5dr_buddy_alloc_mem order b = Some (inr seg, b') ->
  mlx5dr_buddy_free_mem seg order b' = Some b.
Proof.
  intros Hb Ho Ha.
  destruct (alloc_spec b order Hb Ho) as [(seg' & k & b1 & Ha' & _ & Hb' & Ht)|[Ha' _]]; [|congruence].
  rewrite Ha in Ha'. simplify_eq.
  destruct Ht as (s & Es & Hs & Haf & Ho' & Hu'). rewrite Es.
  destruct (all_free_range b order s) as [Hom _]; [done|lia|lia|done|].
  destruct (unit_of_block order s) as [H0 E]; [lia..|].
  destruct (free_spec b1 (s * 2 ^ order) order) as (b2 & Hf & Hb2 & Ho2 & Hu2);
    [done|rewrite Ho'; lia| | |].
  - rewrite Ho'. apply (block_in_memory (max_order b) order s); [lia|lia|done|done].
  - rewrite E. intros u Hu0 Eu [_ Hne]%Hu'. done.
  - rewrite Hf. f_equal. apply buddy_canonical; [done|done|congruence|].
    intros u. rewrite Hu2, Hu', E. split.
    + intros [[? _]|[Hu0 Eu]]; [done|by apply Haf].
    + intros F. destruct (decide (Z.shiftr u order = s)); [right; split; [apply F|done]|by left].
Qed.

Lemma init_heap M ok :
  0 <= M <= 30 ->
  NoDup (allocs (mlx5dr_buddy_init M ok).1) /\
  match mlx5dr_buddy_init M ok with
  | (ev, inl e) => e = err ENOMEM /\ frees ev ≡ₚ allocs ev
  | (ev, inr ob) => exists b, ob = Some b /\ buddy_rel M b [] /\ frees ev = [] /\
      frees (mlx5dr_buddy_cleanup b) ≡ₚ allocs ev /\ allocs (mlx5dr_buddy_cleanup b) = []
  end.
Proof.
  intros HM.
  unfold mlx5dr_buddy_init. destruct (ok 0%nat) eqn:E0, (ok 1%nat) eqn:E1; cbn [negb orb].
  2-4: split; [|done]; cbn; repeat constructor; intros []%elem_of_nil.
  pose proof (init_bitmaps_events (Z.to_nat (M + 1)) 0 M 2 ok) as He.
  destruct (init_bitmaps (Z.to_nat (M + 1)) 0 M 2 ok) as [ev [bms|ids]]; cbn [fst].
  - destruct He as (Ha & Hf & Hl & Hz). rewrite !allocs_app, !frees_app, Ha, Hf.
    split; [change (NoDup (seq 0 (2 + Z.to_nat (M + 1)))); apply NoDup_seq|].
    destruct (init_first_block M bms HM Hl Hz) as (b & -> & Hb & Ho & Hu).
    exists b. unfold mlx5dr_buddy_cleanup.
    rewrite frees_app, allocs_app, frees_map_HFree, allocs_map_HFree, Ho.
    split_and!; [done|by apply init_rel|done| |done]. cbn. solve_Permutation.
  - destruct He as (Ha & Hf & m & _ & ->).
    rewrite !allocs_app, !frees_app, allocs_map_HFree, frees_map_HFree, Ha, Hf.
    cbn. rewrite !app_nil_r. split.
    + change (NoDup (seq 0 (2 + m))). apply NoDup_seq.
    + split; [done|]. solve_Permutation.
Qed.

(** ** The buddy allocator provides the interface *)

Lemma blocks_ok_perm M held held' : held ≡ₚ held' -> blocks_ok M held -> blocks_ok M held'.
Proof.
  intros Hp [Hall Hd]. split; [by rewrite <- Hp|].
  symmetry in Hp. apply Permutation_inj in Hp as (_ & f & Hf & Hl).
  intros i j bi bj u Hi Hj Hui Huj. rewrite Hl in Hi, Hj. apply Hf.
  by apply (Hd _ _ bi bj u).
Qed.

Lemma buddy_rel_perm M b held held' :
  held ≡ₚ held' -> buddy_rel M b held -> buddy_rel M b held'.
Proof.
  intros Hp [Hb HM Hu Hbl]. constructor; [done|done| |by eapply blocks_ok_perm].
  intros u. by rewrite Hu, Hp.
Qed.

#[export] Program Instance buddy_seg_allocator : SegAllocator buddy_mem := {|
  sa_init := mlx5dr_buddy_init;
  sa_cleanup := mlx5dr_buddy_cleanup;
  sa_alloc := mlx5dr_buddy_alloc_mem;
  sa_free := mlx5dr_buddy_free_mem;
  sa_rel := buddy_rel
|}.
Next Obligation.
  intros M b held held' Hp. split; by apply buddy_rel_perm.
Qed.
Next Obligation.
  intros M b held [Hb HM _ Hbl]. rewrite <- HM. split; [apply Hb|by rewrite HM].
Qed.
Next Obligation. intros M ok HM. by apply init_heap. Qed.
Next Obligation.
  intros M ok HM Hok. destruct (init_spec M ok HM Hok) as (ev & b & E & _). by exists ev, b.
Qed.
Next Obligation.
  intros M b b' held held' [_ E _ _] [_ E' _ _]. unfold mlx5dr_buddy_cleanup. by rewrite E, E'.
Qed.
Next Obligation.
  intros M b held order Hrel Ho.
  destruct (sim_alloc M b held order Hrel Ho) as (r & [b' held'] & E & Hs & Hrel').
  unfold client_step in E. cbn [fst snd] in *.
  destruct (mlx5dr_buddy_alloc_mem order b) as [[[e|seg] b1]|] eqn:Ea; simplify_eq/=.
  - right. inversion Hs; subst. split; [|done].
    destruct (alloc_spec b order (rel_wf _ _ _ Hrel) Ho) as [(? & ? & ? & ? & _)|[? _]]; congruence.
  - left. inversion Hs as [? s ? Hf| |]; subst. exists s, b'. by split_and!.
Qed.
Next Obligation.
  intros M b held seg order Hrel.
  destruct (sim_free M b _ 0%nat Hrel) as (r & [b' held'] & E & Hs & Hrel').
  unfold client_step in E. cbn in E.
  destruct (mlx5dr_buddy_free_mem seg order b) as [b1|]; simplify_eq/=. by exists b'.
Qed.
Next Obligation.
  intros M b held order seg b' Hrel Ho Ha. eapply alloc_free_back; [apply Hrel|done|done].
Qed.

(** ** Properties *)

(** An allocation of order [order] on a well-formed allocator never touches
    memory outside its arrays, ends, and either takes the first free block of the
    least order that has one, returning the start of an aligned block that was
    entirely free and whose units are then exactly the ones no longer free, or
    answers [-ENOMEM], leaves the state alone, and no aligned block of that size
    is entirely free. The invariant is preserved. *)
Theorem mlx5dr_buddy_alloc_mem_correct b order
  (Hb : buddy_wf b) (Ho : 0 <= order < 2 ^ 32 - 1) :
  (exists seg k b', mlx5dr_buddy_alloc_mem order b = Some (inr (seg * 2 ^ k), b') /\
     best_fit b order seg k /\ buddy_wf b' /\ takes_block order (seg * 2 ^ k) b b') \/
  (mlx5dr_buddy_alloc_mem order b = Some (inl (err ENOMEM), b) /\
   forall s, 0 <= s -> ~ all_free b order s).
Proof. by apply alloc_spec. Qed.

(** Releasing the block an allocation returned brings back the very state
    the allocator had before: bitmaps and counters are equal, so splitting and
    merging lose nothing. *)
Theorem buddy_alloc_free_roundtrip b order seg b'
  (Hb : buddy_wf b) (Ho : 0 <= order < 2 ^ 32 - 1)
  (Ha : mlx5dr_buddy_alloc_mem order b = Some (inr seg, b')) :
  mlx5dr_buddy_free_mem seg order b' = Some b.
Proof. by apply alloc_free_back. Qed.

(** C18. Refinement: from a freshly initialised memory of [2 ^ M] units, any
    sequence of allocations and releases of held blocks runs to its end, and its
    answers are those of the abstract allocator that knows only the blocks handed
    out: a block handed out is aligned, inside the memory and disjoint from every
    block held, and an allocation fails only when no such block exists. Once the
    client holds nothing, the state is the initial one. *)
Theorem buddy_refines_abstract_allocator M ok os
  (HM : 0 <= M <= 30) (Hok : forall j, ok j = true) (Hos : Forall op_ok os) :
  exists ev b0 rs b held,
    mlx5dr_buddy_init M ok = (ev, inr (Some b0)) /\
    client_run os (b0, []) = Some (rs, (b, held)) /\
    spec_run M os [] rs held /\ buddy_rel M b held /\
    (held = [] -> b = b0).
Proof.
  destruct (init_spec M ok HM Hok) as (ev & b0 & Hi & Hb0 & Ho0 & Hu0).
  pose proof (init_rel M b0 Hb0 Ho0 Hu0) as Hrel0.
  destruct (client_run_sim M os b0 [] Hrel0 Hos) as (rs & [b held] & Hr & Hsp & Hrel).
  exists ev, b0, rs, b, held. split_and!; [done..|]. intros ->.
  destruct Hrel as [Hb HMb Hu _]. cbn [fst snd] in *.
  apply buddy_canonical; [done|done|congruence|].
  intros u. rewrite Hu, Hu0. split; [tauto|]. intros. split; [done|constructor].
Qed.

(** The memory of the allocator itself: when [mlx5dr_buddy_init] fails, at
    whichever allocation, exactly what it had allocated has been released; when
    it succeeds, [mlx5dr_buddy_cleanup] releases exactly what it allocated. *)
Theorem mlx5dr_buddy_init_no_leak M ok (HM : 0 <= M <= 30) :
  NoDup (allocs (mlx5dr_buddy_init M ok).1) /\
  match mlx5dr_buddy_init M ok with
  | (ev, inl e) => e = err ENOMEM /\ frees ev ≡ₚ allocs ev
  | (ev, inr ob) => exists b, ob = Some b /\ frees ev = [] /\
      frees (mlx5dr_buddy_cleanup b) ≡ₚ allocs ev
  end.
Proof.
  pose proof (init_heap M ok HM) as [Hnd Hi]. split; [done|].
  destruct (mlx5dr_buddy_init M ok) as [ev [e|ob]]; [done|].
  destruct Hi as (b & ? & _ & ? & ? & _). by exists b.
Qed.

(** ** Witnesses: a memory of eight units *)

Definition buddy8 : buddy_mem :=
  match mlx5dr_buddy_init 3 (fun _ => true) with
  | (_, inr (Some b)) => b
  | _ => {| bitmap := []; num_free := []; max_order := 0 |}
  end.

Lemma buddy8_wf : buddy_wf buddy8.
Proof.
  destruct (init_spec 3 (fun _ => true)) as (ev & b & E & Hb & _); [lia|done|].
  unfold buddy8. by rewrite E.
Qed.

Definition buddy8_after : buddy_mem :=
  match mlx5dr_buddy_alloc_mem 1 buddy8 with Some (_, b) => b | None => buddy8 end.

Lemma mlx5dr_buddy_alloc_mem_correct_witness :
  mlx5dr_buddy_alloc_mem 1 buddy8 = Some (inr 0, buddy8_after) /\
  num_free buddy8_after = [0; 1; 1; 0] /\
  ((exists seg k b', mlx5dr_buddy_alloc_mem 1 buddy8 = Some (inr (seg * 2 ^ k), b') /\
      best_fit buddy8 1 seg k /\ buddy_wf b' /\ takes_block 1 (seg * 2 ^ k) buddy8 b') \/
   (mlx5dr_buddy_alloc_mem 1 buddy8 = Some (inl (err ENOMEM), buddy8) /\
    forall s, 0 <= s -> ~ all_free buddy8 1 s)).
Proof.
  split; [vm_compute; reflexivity|]. split; [vm_compute; reflexivity|].
  apply (mlx5dr_buddy_alloc_mem_correct buddy8 1 buddy8_wf). lia.
Defined.

Lemma buddy_alloc_free_roundtrip_witness :
  mlx5dr_buddy_free_mem 0 1 buddy8_after = Some buddy8.
Proof.
  apply (buddy_alloc_free_roundtrip buddy8 1 0 buddy8_after buddy8_wf);
    [lia|vm_compute; reflexivity].
Defined.

Definition ops8 : list client_op :=
  [CAlloc 0; CAlloc 2; CAlloc 3; CAlloc 1; CFree 1; CFree 1; CFree 0].

Lemma buddy_refines_abstract_allocator_witness :
  client_run ops8 (buddy8, []) =
    Some ([Some 0; Some 4; None; Some 2; None; None; None], (buddy8, [])) /\
  exists ev b0 rs b held,
    mlx5dr_buddy_init 3 (fun _ => true) = (ev, inr (Some b0)) /\
    client_run ops8 (b0, []) = Some (rs, (b, held)) /\
    spec_run 3 ops8 [] rs held /\ buddy_rel 3 b held /\ (held = [] -> b = b0).
Proof.
  split; [vm_compute; reflexivity|].
  apply (buddy_refines_abstract_allocator 3 (fun _ => true) ops8); [lia|done|].
  repeat constructor; done.
Defined.

Lemma mlx5dr_buddy_init_no_leak_witness :
  NoDup (allocs (mlx5dr_buddy_init 3 (fun i => bool_decide (i < 4)%nat)).1) /\
  match mlx5dr_buddy_init 3 (fun i => bool_decide (i < 4)%nat) with
  | (ev, inl e) => e = err ENOMEM /\ frees ev ≡ₚ allocs ev
  | (ev, inr ob) => exists b, ob = Some b /\ frees ev = [] /\
      frees (mlx5dr_buddy_cleanup b) ≡ₚ allocs ev
  end.
Proof. apply (mlx5dr_buddy_init_no_leak 3 (fun i => bool_decide (i < 4)%nat)). lia. Defined.
