(* ===== verification/IcmPool.v ===== *)
(** * The pool of device memory for steering (dr_icm_pool.c)

    A pool hands out chunks of device memory. It keeps a list of memory regions,
    each with an allocator of aligned segments (the interface of SegAlloc.v,
    which Buddy.v implements), and an array of "hot" chunks: chunks that were
    released but that the hardware may still read, and that go back to their
    allocator at the next synchronisation.

    The model is in a section over any implementation of the interface. A memory
    region is known by its identifier (its address in the C code); chunks refer
    to it by that identifier, and an access through an identifier that is no
    longer in the list is a dangling pointer: the operations return [None]
    there, as they do for an access outside an array. Failures of the kernel's
    and the device's services are arguments. *)

From Stdlib Require Import ZArith Lia.
From stdpp Require Import base tactics numbers list option sorting.
From S2P Require Import Prelude SegAlloc Buddy.

Local Open Scope Z_scope.

(** ** Sizes (dr_types.h) *)

Inductive mlx5dr_icm_type :=
  DR_ICM_TYPE_STE | DR_ICM_TYPE_MODIFY_ACTION | DR_ICM_TYPE_MODIFY_HDR_PTRN.

Definition is_ste (t : mlx5dr_icm_type) : bool :=
  match t with DR_ICM_TYPE_STE => true | _ => false end.

Definition DR_STE_SIZE : Z := 64.
Definition DR_MODIFY_ACTION_SIZE : Z := 8.
Definition DR_ICM_MODIFY_HDR_ALIGN_BASE : Z := 64.
Definition DR_CHUNK_SIZE_4K : Z := 12.
Definition DR_CHUNK_SIZE_1024K : Z := 20.

Definition mlx5dr_icm_pool_dm_type_to_entry_size (t : mlx5dr_icm_type) : Z :=
  if is_ste t then DR_STE_SIZE else DR_MODIFY_ACTION_SIZE.

Definition mlx5dr_icm_pool_chunk_size_to_entries (chunk_size : Z) : Z :=
  u32 (Z.shiftl 1 chunk_size).

Definition mlx5dr_icm_pool_chunk_size_to_byte (chunk_size : Z) (t : mlx5dr_icm_type) : Z :=
  let entry_size := mlx5dr_icm_pool_dm_type_to_entry_size t in
  let num_of_entries := s32 (mlx5dr_icm_pool_chunk_size_to_entries chunk_size) in
  s32 (entry_size * num_of_entries).

(** ** Resources acquired and released *)

Inductive resource :=
| RIcmMr | RDm (obj_id : Z) | RMkey (mkey : Z)
| RBuddy | RBuddyHeap (i : nat) | RSteArr | RHwSteArr | RMissList.

Inductive pool_event := Acquire (r : resource) | Release (r : resource).

Definition heap_events : list heap_event -> list pool_event :=
  map (fun e => match e with
                | HAlloc i => Acquire (RBuddyHeap i)
                | HFree i => Release (RBuddyHeap i)
                end).

(** The answers of the services one creation of a memory region uses; [inl] is
    the error of a device command. *)
Record create_env := {
  ce_icm_mr : bool;
  ce_dm : Z + Z * Z;
  ce_mkey : Z + Z;
  ce_buddy : bool;
  ce_init : nat -> bool;
  ce_ste_arr : bool;
  ce_hw_ste_arr : bool;
  ce_miss_list : bool
}.

Record mlx5dr_icm_mr := {
  mr_mkey : Z;
  dm_obj_id : Z;
  dm_addr : Z;
  dm_length : Z;
  icm_start_addr : Z
}.

Definition log_align_base (t : mlx5dr_icm_type) (length : Z) : Z :=
  if is_ste t then Z.log2 length else Z.log2 DR_ICM_MODIFY_HDR_ALIGN_BASE.

(** [dr_icm_pool_mr_create]: device memory, its key, and the alignment check. *)
Definition dr_icm_pool_mr_create (t : mlx5dr_icm_type) (max_log_chunk_sz : Z)
    (env : create_env) : list pool_event * option mlx5dr_icm_mr :=
  if negb (ce_icm_mr env) then ([], None) else
  let length := u64 (mlx5dr_icm_pool_chunk_size_to_byte max_log_chunk_sz t) in
  let align := log_align_base t length in
  match ce_dm env with
  | inl _ => ([Acquire RIcmMr; Release RIcmMr], None)
  | inr (addr, obj_id) =>
      match ce_mkey env with
      | inl _ => ([Acquire RIcmMr; Acquire (RDm obj_id);
                   Release (RDm obj_id); Release RIcmMr], None)
      | inr mkey =>
          let ev := [Acquire RIcmMr; Acquire (RDm obj_id); Acquire (RMkey mkey)] in
          if has_flag addr (Z.shiftl 1 align - 1) then
            (ev ++ [Release (RMkey mkey); Release (RDm obj_id); Release RIcmMr], None)
          else
            (ev, Some {| mr_mkey := mkey; dm_obj_id := obj_id; dm_addr := addr;
                         dm_length := length; icm_start_addr := addr |})
      end
  end.

Definition dr_icm_pool_mr_destroy (mr : mlx5dr_icm_mr) : list pool_event :=
  [Release (RMkey (mr_mkey mr)); Release (RDm (dm_obj_id mr)); Release RIcmMr].

(** [dr_icm_buddy_init_ste_cache]: [true] is success. *)
Definition dr_icm_buddy_init_ste_cache (env : create_env) : list pool_event * bool :=
  if negb (ce_ste_arr env) then ([], false)
  else if negb (ce_hw_ste_arr env) then ([Acquire RSteArr; Release RSteArr], false)
  else if negb (ce_miss_list env) then
    ([Acquire RSteArr; Acquire RHwSteArr; Release RHwSteArr; Release RSteArr], false)
  else ([Acquire RSteArr; Acquire RHwSteArr; Acquire RMissList], true).

Definition dr_icm_buddy_cleanup_ste_cache : list pool_event :=
  [Release RSteArr; Release RHwSteArr; Release RMissList].

(** ** The pool *)

Record mlx5dr_icm_hot_chunk := { hc_buddy : nat; hc_seg : Z; hc_size : Z }.

(** A chunk; [ste_index] is the position of [ste_arr], [hw_ste_arr] and
    [miss_list] in the caches of the region. *)
Record mlx5dr_icm_chunk := { chunk_hot : mlx5dr_icm_hot_chunk; ste_index : option Z }.

Section Pool.

Context {B : Type} `{!SegAllocator B}.

Record icm_buddy := {
  ib_id : nat;
  ib_mem : B;
  ib_mr : mlx5dr_icm_mr;
  used_memory : Z
}.

Record mlx5dr_icm_pool := {
  icm_type : mlx5dr_icm_type;
  max_log_chunk_sz : Z;
  buddy_mem_list : list icm_buddy;
  hot_chunks_arr : list (option mlx5dr_icm_hot_chunk);
  hot_chunks_num : Z;
  hot_memory_size : Z;
  th : Z;
  num_buddies : Z;
  next_id : nat
}.

Definition set_buddies (l : list icm_buddy) (p : mlx5dr_icm_pool) : mlx5dr_icm_pool :=
  {| icm_type := icm_type p; max_log_chunk_sz := max_log_chunk_sz p; buddy_mem_list := l;
     hot_chunks_arr := hot_chunks_arr p; hot_chunks_num := hot_chunks_num p;
     hot_memory_size := hot_memory_size p; th := th p; num_buddies := num_buddies p;
     next_id := next_id p |}.

Definition set_hot (arr : list (option mlx5dr_icm_hot_chunk)) (num size : Z)
    (p : mlx5dr_icm_pool) : mlx5dr_icm_pool :=
  {| icm_type := icm_type p; max_log_chunk_sz := max_log_chunk_sz p;
     buddy_mem_list := buddy_mem_list p; hot_chunks_arr := arr; hot_chunks_num := num;
     hot_memory_size := size; th := th p; num_buddies := num_buddies p;
     next_id := next_id p |}.

(** Dereference a pointer to a region and update the region. *)
Fixpoint update_buddy (id : nat) (f : icm_buddy -> option icm_buddy)
    (l : list icm_buddy) : option (list icm_buddy) :=
  match l with
  | [] => None
  | pb :: r =>
      if bool_decide (ib_id pb = id) then pb' ← f pb; Some (pb' :: r)
      else r' ← update_buddy id f r; Some (pb :: r')
  end.

Definition set_mem (b : B) (pb : icm_buddy) : icm_buddy :=
  {| ib_id := ib_id pb; ib_mem := b; ib_mr := ib_mr pb; used_memory := used_memory pb |}.

Definition add_used (d : Z) (pb : icm_buddy) : icm_buddy :=
  {| ib_id := ib_id pb; ib_mem := ib_mem pb; ib_mr := ib_mr pb;
     used_memory := u64 (used_memory pb + d) |}.

(** [dr_icm_buddy_create]; [true] is success. *)
Definition dr_icm_buddy_create (env : create_env) (p : mlx5dr_icm_pool)
  : option (list pool_event * bool * mlx5dr_icm_pool) :=
  match dr_icm_pool_mr_create (icm_type p) (max_log_chunk_sz p) env with
  | (ev, None) => Some (ev, false, p)
  | (ev, Some mr) =>
      if negb (ce_buddy env) then Some (ev ++ dr_icm_pool_mr_destroy mr, false, p) else
      match sa_init (max_log_chunk_sz p) (ce_init env) with
      | (hev, inl _) =>
          Some (ev ++ [Acquire RBuddy] ++ heap_events hev ++
                [Release RBuddy] ++ dr_icm_pool_mr_destroy mr, false, p)
      | (hev, inr ob) =>
          b ← ob;
          let '(cev, cok) := if is_ste (icm_type p) then dr_icm_buddy_init_ste_cache env
                             else ([], true) in
          let ev1 := ev ++ [Acquire RBuddy] ++ heap_events hev ++ cev in
          if (cok : bool) then
            Some (ev1, true,
              {| icm_type := icm_type p; max_log_chunk_sz := max_log_chunk_sz p;
                 buddy_mem_list := {| ib_id := next_id p; ib_mem := b; ib_mr := mr;
                                      used_memory := 0 |} :: buddy_mem_list p;
                 hot_chunks_arr := hot_chunks_arr p; hot_chunks_num := hot_chunks_num p;
                 hot_memory_size := hot_memory_size p; th := th p;
                 num_buddies := u32 (num_buddies p + 1); next_id := S (next_id p) |})
          else
            Some (ev1 ++ heap_events (sa_cleanup b) ++ [Release RBuddy] ++
                  dr_icm_pool_mr_destroy mr, false, p)
      end
  end.

(** [dr_icm_buddy_destroy], without the removal from the list. *)
Definition dr_icm_buddy_destroy (t : mlx5dr_icm_type) (pb : icm_buddy) : list pool_event :=
  dr_icm_pool_mr_destroy (ib_mr pb) ++ heap_events (sa_cleanup (ib_mem pb)) ++
  (if is_ste t then dr_icm_buddy_cleanup_ste_cache else []) ++ [Release RBuddy].

(** [list_for_each_entry_safe] with the destruction of the entries [doomed]
    selects. *)
Fixpoint destroy_buddies (t : mlx5dr_icm_type) (doomed : icm_buddy -> bool)
    (l : list icm_buddy) : list pool_event * Z * list icm_buddy :=
  match l with
  | [] => ([], 0, [])
  | pb :: r =>
      let '(ev, n, r') := destroy_buddies t doomed r in
      if doomed pb then (dr_icm_buddy_destroy t pb ++ ev, n + 1, r') else (ev, n, pb :: r')
  end.

Definition run_destroy (doomed : icm_buddy -> bool) (p : mlx5dr_icm_pool)
  : list pool_event * mlx5dr_icm_pool :=
  let '(ev, n, l) := destroy_buddies (icm_type p) doomed (buddy_mem_list p) in
  (ev, {| icm_type := icm_type p; max_log_chunk_sz := max_log_chunk_sz p;
          buddy_mem_list := l; hot_chunks_arr := hot_chunks_arr p;
          hot_chunks_num := hot_chunks_num p; hot_memory_size := hot_memory_size p;
          th := th p; num_buddies := u32 (num_buddies p - n); next_id := next_id p |}).

(** The scan of the list in [dr_icm_handle_buddies_get_mem]. *)
Inductive scan_result := Found (id : nat) (seg : Z) | Out (e : Z) | Exhausted.

Fixpoint scan_buddies (chunk_size : Z) (new_mem : bool) (l : list icm_buddy)
  : option (scan_result * list icm_buddy) :=
  match l with
  | [] => Some (Exhausted, [])
  | pb :: r =>
      '(res, b') ← sa_alloc chunk_size (ib_mem pb);
      match res with
      | inr seg => Some (Found (ib_id pb) seg, set_mem b' pb :: r)
      | inl e =>
          if new_mem then Some (Out e, set_mem b' pb :: r)
          else '(res', r') ← scan_buddies chunk_size new_mem r;
               Some (res', set_mem b' pb :: r')
      end
  end.

(** [dr_icm_handle_buddies_get_mem]: the loop behind [goto alloc_buddy_mem];
    [envs i] answers the [i]-th creation. *)
Fixpoint get_mem_loop (fuel : nat) (envs : nat -> create_env) (i : nat) (chunk_size : Z)
    (new_mem : bool) (p : mlx5dr_icm_pool)
  : option (list pool_event * (Z + nat * Z) * mlx5dr_icm_pool) :=
  match fuel with
  | O => None
  | S f =>
      '(res, l) ← scan_buddies chunk_size new_mem (buddy_mem_list p);
      let p1 := set_buddies l p in
      match res with
      | Found id seg => Some ([], inr (id, seg), p1)
      | Out e => Some ([], inl e, p1)
      | Exhausted =>
          '(ev, ok, p2) ← dr_icm_buddy_create (envs i) p1;
          if (ok : bool) then
            '(ev', r, p3) ← get_mem_loop f envs (S i) chunk_size true p2;
            Some (ev ++ ev', r, p3)
          else Some (ev, inl (err ENOMEM), p2)
      end
  end.

Definition dr_icm_handle_buddies_get_mem (envs : nat -> create_env) (chunk_size : Z)
    (p : mlx5dr_icm_pool) : option (list pool_event * (Z + nat * Z) * mlx5dr_icm_pool) :=
  get_mem_loop 2 envs 0 chunk_size false p.

(** [dr_icm_chunk_ste_init]: the entries of the chunk are cleared, which must
    stay inside the caches of the region. *)
Definition dr_icm_chunk_ste_init (max_log chunk_size offset : Z) : option Z :=
  let num_of_entries := s32 (mlx5dr_icm_pool_chunk_size_to_entries chunk_size) in
  let index := Z.quot offset DR_STE_SIZE in
  if (0 <=? index) && (0 <=? num_of_entries) &&
     (index + num_of_entries <=? s32 (mlx5dr_icm_pool_chunk_size_to_entries max_log))
  then Some index else None.

Definition dr_icm_chunk_init (p : mlx5dr_icm_pool) (chunk_size : Z) (id : nat) (seg : Z)
  : option (mlx5dr_icm_chunk * mlx5dr_icm_pool) :=
  idx ← (if is_ste (icm_type p) then
           let offset := s32 (mlx5dr_icm_pool_dm_type_to_entry_size (icm_type p) * seg) in
           i ← dr_icm_chunk_ste_init (max_log_chunk_sz p) chunk_size offset; Some (Some i)
         else Some None);
  l ← update_buddy id
        (fun pb => Some (add_used (u32 (mlx5dr_icm_pool_chunk_size_to_byte chunk_size (icm_type p))) pb))
        (buddy_mem_list p);
  Some ({| chunk_hot := {| hc_buddy := id; hc_seg := seg; hc_size := chunk_size |};
           ste_index := idx |}, set_buddies l p).

(** [mlx5dr_icm_alloc_chunk]; [chunk_ok] is the answer of [kmem_cache_alloc]. *)
Definition mlx5dr_icm_alloc_chunk (envs : nat -> create_env) (chunk_ok : bool)
    (chunk_size : Z) (p : mlx5dr_icm_pool)
  : option (list pool_event * option mlx5dr_icm_chunk * mlx5dr_icm_pool) :=
  if max_log_chunk_sz p <? chunk_size then Some ([], None, p) else
  '(ev, r, p1) ← dr_icm_handle_buddies_get_mem envs chunk_size p;
  match r with
  | inl _ => Some (ev, None, p1)
  | inr (id, seg) =>
      if chunk_ok then
        '(c, p2) ← dr_icm_chunk_init p1 chunk_size id seg;
        Some (ev, Some c, p2)
      else
        l ← update_buddy id
              (fun pb => b' ← sa_free seg chunk_size (ib_mem pb); Some (set_mem b' pb))
              (buddy_mem_list p1);
        Some (ev, None, set_buddies l p1)
  end.

Definition dr_icm_pool_is_sync_required (p : mlx5dr_icm_pool) : bool :=
  th p <? hot_memory_size p.

(** The body and the loop of [dr_icm_pool_clear_hot_chunks_arr]. *)
Definition release_hot (t : mlx5dr_icm_type) (hc : mlx5dr_icm_hot_chunk)
    (l : list icm_buddy) : option (list icm_buddy) :=
  let num_entries := mlx5dr_icm_pool_chunk_size_to_entries (hc_size hc) in
  update_buddy (hc_buddy hc)
    (fun pb =>
       b' ← sa_free (hc_seg hc) (Z.log2 num_entries) (ib_mem pb);
       Some (add_used (- mlx5dr_icm_pool_chunk_size_to_byte (hc_size hc) t) (set_mem b' pb)))
    l.

Fixpoint release_hots (t : mlx5dr_icm_type) (arr : list (option mlx5dr_icm_hot_chunk))
    (n : nat) (l : list icm_buddy) {struct n} : option (list icm_buddy) :=
  match n, arr with
  | O, _ => Some l
  | S n', Some hc :: arr' => l' ← release_hot t hc l; release_hots t arr' n' l'
  | S _, _ => None
  end.

Definition dr_icm_pool_clear_hot_chunks_arr (p : mlx5dr_icm_pool)
  : option mlx5dr_icm_pool :=
  l ← release_hots (icm_type p) (hot_chunks_arr p) (Z.to_nat (hot_chunks_num p))
        (buddy_mem_list p);
  Some (set_hot (hot_chunks_arr p) 0 0 (set_buddies l p)).

Definition unused_ste_buddy (t : mlx5dr_icm_type) (pb : icm_buddy) : bool :=
  (used_memory pb =? 0) && is_ste t.

(** [dr_icm_pool_sync_all_buddy_pools]; [sync] is the answer of the device. *)
Definition dr_icm_pool_sync_all_buddy_pools (sync : Z) (p : mlx5dr_icm_pool)
  : option (list pool_event * Z * mlx5dr_icm_pool) :=
  if truthy sync then Some ([], sync, p) else
  p1 ← dr_icm_pool_clear_hot_chunks_arr p;
  let '(ev, p2) := run_destroy (unused_ste_buddy (icm_type p1)) p1 in
  Some (ev, 0, p2).

Definition mlx5dr_icm_free_chunk (sync : Z) (c : mlx5dr_icm_chunk) (p : mlx5dr_icm_pool)
  : option (list pool_event * mlx5dr_icm_pool) :=
  _ ← update_buddy (hc_buddy (chunk_hot c)) Some (buddy_mem_list p);
  let size := u64 (hot_memory_size p +
    u32 (mlx5dr_icm_pool_chunk_size_to_byte (hc_size (chunk_hot c)) (icm_type p))) in
  if bool_decide (Z.to_nat (hot_chunks_num p) < length (hot_chunks_arr p))%nat then
    let p1 := set_hot (<[Z.to_nat (hot_chunks_num p) := Some (chunk_hot c)]> (hot_chunks_arr p))
                      (u32 (hot_chunks_num p + 1)) size p in
    if dr_icm_pool_is_sync_required p1 then
      '(ev, _, p2) ← dr_icm_pool_sync_all_buddy_pools sync p1; Some (ev, p2)
    else Some ([], p1)
  else None.

(** [mlx5dr_icm_pool_create], with the limits of the domain ([dmn->info]). *)
Definition hot_percent (t : mlx5dr_icm_type) : Z :=
  match t with
  | DR_ICM_TYPE_STE => 25
  | DR_ICM_TYPE_MODIFY_ACTION => 90
  | DR_ICM_TYPE_MODIFY_HDR_PTRN => 50
  end.

Definition mlx5dr_icm_pool_create (max_log_sz : mlx5dr_icm_type -> Z) (t : mlx5dr_icm_type)
    (pool_ok arr_ok : bool) : option mlx5dr_icm_pool :=
  if negb pool_ok then None else
  let max_log := max_log_sz t in
  let max_hot_size :=
    u32 (Z.quot (s32 (mlx5dr_icm_pool_chunk_size_to_byte max_log t * hot_percent t)) 100) in
  let entry_size := u32 (mlx5dr_icm_pool_dm_type_to_entry_size t) in
  let num_of_chunks := u32 (u32 (max_hot_size + entry_size - 1) / entry_size + 1) in
  if negb arr_ok then None else
  Some {| icm_type := t; max_log_chunk_sz := max_log; buddy_mem_list := [];
          hot_chunks_arr := replicate (Z.to_nat num_of_chunks) None;
          hot_chunks_num := 0; hot_memory_size := 0; th := max_hot_size;
          num_buddies := 0; next_id := 0 |}.

Definition mlx5dr_icm_pool_destroy (p : mlx5dr_icm_pool)
  : option (list pool_event * mlx5dr_icm_pool) :=
  p1 ← dr_icm_pool_clear_hot_chunks_arr p;
  Some (run_destroy (fun _ => true) p1).

(** ** Addresses of a chunk *)

Definition chunk_icm_addr (t : mlx5dr_icm_type) (pb : icm_buddy) (hc : mlx5dr_icm_hot_chunk) : Z :=
  u64 (icm_start_addr (ib_mr pb) + u32 (mlx5dr_icm_pool_dm_type_to_entry_size t * hc_seg hc)).

Definition mlx5dr_icm_pool_get_chunk_mr_addr (t : mlx5dr_icm_type) (hc : mlx5dr_icm_hot_chunk) : Z :=
  u64 (u32 (mlx5dr_icm_pool_dm_type_to_entry_size t) * hc_seg hc).

(** ** Sizes *)

Definition max_log_ok (M : Z) : Prop := 0 <= M <= DR_CHUNK_SIZE_1024K.

Lemma entry_size_range t :
  mlx5dr_icm_pool_dm_type_to_entry_size t = 64 \/ mlx5dr_icm_pool_dm_type_to_entry_size t = 8.
Proof. destruct t; [by left|by right|by right]. Qed.

Lemma pow2_20 k : max_log_ok k -> 1 <= 2 ^ k <= 2 ^ 20.
Proof.
  intros Hk. unfold max_log_ok, DR_CHUNK_SIZE_1024K in Hk.
  split; [apply (Z.pow_le_mono_r 2 0 k); lia|apply Z.pow_le_mono_r; lia].
Qed.

Lemma entries_eq k : max_log_ok k -> mlx5dr_icm_pool_chunk_size_to_entries k = 2 ^ k.
Proof.
  intros Hk. pose proof (pow2_20 k Hk). unfold mlx5dr_icm_pool_chunk_size_to_entries.
  rewrite Z.shiftl_1_l, u32_id; lia.
Qed.

Lemma bytes_eq k t :
  max_log_ok k ->
  mlx5dr_icm_pool_chunk_size_to_byte k t = mlx5dr_icm_pool_dm_type_to_entry_size t * 2 ^ k.
Proof.
  intros Hk. pose proof (pow2_20 k Hk). unfold mlx5dr_icm_pool_chunk_size_to_byte.
  rewrite entries_eq by done. pose proof (entry_size_range t).
  rewrite (s32_id (2 ^ k)) by lia. rewrite s32_id; lia.
Qed.

(** Bytes of a chunk of order [k]. *)
Definition csize (t : mlx5dr_icm_type) (k : Z) : Z :=
  mlx5dr_icm_pool_dm_type_to_entry_size t * 2 ^ k.

Lemma csize_range t k : max_log_ok k -> mlx5dr_icm_pool_dm_type_to_entry_size t <= csize t k <= 2 ^ 26.
Proof.
  intros Hk. unfold csize. pose proof (pow2_20 k Hk). pose proof (entry_size_range t). nia.
Qed.

(** ** The chunks of one region *)

Definition of_buddy (id : nat) (l : list mlx5dr_icm_hot_chunk) : list mlx5dr_icm_hot_chunk :=
  filter (fun c => hc_buddy c = id) l.
Definition blocks_of (id : nat) (l : list mlx5dr_icm_hot_chunk) : blocks :=
  map (fun c => (hc_seg c, hc_size c)) (of_buddy id l).
Definition bytes (t : mlx5dr_icm_type) (l : list mlx5dr_icm_hot_chunk) : Z :=
  foldr (fun c n => csize t (hc_size c) + n) 0 l.

#[local] Instance blocks_of_perm id : Proper (Permutation ==> Permutation) (blocks_of id).
Proof. intros l l' Hp. unfold blocks_of, of_buddy. by rewrite Hp. Qed.

#[local] Instance bytes_perm t : Proper (Permutation ==> eq) (bytes t).
Proof.
  intros l l' Hp. unfold bytes. induction Hp; simpl; [done|by f_equal|lia|congruence].
Qed.

Lemma bytes_app t l l' : bytes t (l ++ l') = bytes t l + bytes t l'.
Proof. induction l as [|c l IH]; simpl; [done|]. unfold bytes in *. simpl. lia. Qed.

Lemma blocks_of_cons id c l :
  blocks_of id (c :: l) =
  if bool_decide (hc_buddy c = id) then (hc_seg c, hc_size c) :: blocks_of id l
  else blocks_of id l.
Proof. unfold blocks_of, of_buddy. rewrite filter_cons. by repeat case_decide; case_bool_decide. Qed.

Lemma of_buddy_cons id c l :
  of_buddy id (c :: l) =
  if bool_decide (hc_buddy c = id) then c :: of_buddy id l else of_buddy id l.
Proof. unfold of_buddy. rewrite filter_cons. by repeat case_decide; case_bool_decide. Qed.

(** What holds of a region when [held] are the chunks in use or hot. *)
Definition buddy_ok (t : mlx5dr_icm_type) (M : Z) (held : list mlx5dr_icm_hot_chunk)
    (pb : icm_buddy) : Prop :=
  sa_rel M (ib_mem pb) (blocks_of (ib_id pb) held) /\
  used_memory pb = bytes t (of_buddy (ib_id pb) held).

Lemma buddy_ok_perm t M held held' pb :
  held ≡ₚ held' -> buddy_ok t M held pb -> buddy_ok t M held' pb.
Proof.
  intros Hp [Hr Hu]. split; [by rewrite <- Hp|].
  rewrite Hu. unfold of_buddy. by rewrite Hp.
Qed.

Lemma update_buddy_spec id f l (P Q : icm_buddy -> Prop) :
  NoDup (map ib_id l) -> id ∈ map ib_id l -> Forall P l ->
  (forall pb, ib_id pb = id -> P pb -> exists pb', f pb = Some pb' /\ ib_id pb' = id /\ Q pb') ->
  (forall pb, ib_id pb <> id -> P pb -> Q pb) ->
  exists l', update_buddy id f l = Some l' /\ map ib_id l' = map ib_id l /\ Forall Q l'.
Proof.
  intros Hnd Hin HP Hf Hne. induction HP as [|pb r Hpb HP IH]; [by apply elem_of_nil in Hin|].
  simpl in *. apply NoDup_cons in Hnd as [Hni Hnd]. case_bool_decide as E.
  - destruct (Hf pb E Hpb) as (pb' & -> & E' & HQ). cbn.
    exists (pb' :: r). split_and!; [done|simpl; congruence|]. constructor; [done|].
    apply Forall_lookup. intros i x Hx. apply Hne; [|by eapply Forall_lookup_1].
    intros E2. apply Hni. rewrite E, <- E2. apply list_elem_of_fmap. exists x.
    split; [done|by eapply list_elem_of_lookup_2].
  - apply elem_of_cons in Hin as [Hin|Hin]; [congruence|].
    destruct (IH Hnd Hin) as (r' & -> & Em & HQ). cbn.
    exists (pb :: r'). split_and!; [done|simpl; congruence|]. constructor; [|done]. by apply Hne.
Qed.

(** ** Accounting stays within 64 bits *)

Lemma blocks_ok_length M held : blocks_ok M held -> Z.of_nat (length held) <= 2 ^ M.
Proof.
  intros [Hall Hd].
  assert (NoDup (map (fun bl => Z.to_nat bl.1) held)) as Hnd.
  { apply NoDup_alt. intros i j x Hi Hj.
    apply list_lookup_fmap_Some in Hi as (bi & Ei & Hi).
    apply list_lookup_fmap_Some in Hj as (bj & Ej & Hj). subst x.
    pose proof (Forall_lookup_1 _ _ _ _ Hall Hi) as (Hi2 & Hi1 & Him).
    pose proof (Forall_lookup_1 _ _ _ _ Hall Hj) as (Hj2 & Hj1 & Hjm).
    apply (Hd i j bi bj bi.1); [done|done|split; [lia|done]|].
    assert (bi.1 = bj.1) as -> by lia. split; [lia|done]. }
  assert (map (fun bl => Z.to_nat bl.1) held ⊆+ seq 0 (Z.to_nat (2 ^ M))) as Hsub.
  { apply NoDup_submseteq; [done|]. intros x Hx.
    apply list_elem_of_fmap in Hx as (bl & -> & Hbl). apply elem_of_seq.
    rewrite Forall_forall in Hall.
    destruct (Hall _ Hbl) as (_ & ? & _). lia. }
  apply submseteq_length in Hsub. rewrite length_map, length_seq in Hsub. lia.
Qed.

Lemma bytes_bound t l n :
  Forall (fun c => max_log_ok (hc_size c)) l -> Z.of_nat (length l) <= n ->
  0 <= bytes t l <= n * 2 ^ 26.
Proof.
  intros Hl. revert n. induction Hl as [|c l Hc Hl IH]; intros n Hn; simpl in *; [lia|].
  pose proof (csize_range t _ Hc). pose proof (entry_size_range t).
  specialize (IH (n - 1) ltac:(lia)). lia.
Qed.

Lemma Forall_of_buddy (P : mlx5dr_icm_hot_chunk -> Prop) id l :
  Forall P l -> Forall P (of_buddy id l).
Proof.
  rewrite !Forall_forall. intros H c Hc. apply H. by apply list_elem_of_filter in Hc as [_ ?].
Qed.

Lemma buddy_bytes_bound t M held b id :
  max_log_ok M -> sa_rel M b (blocks_of id held) ->
  Forall (fun c => max_log_ok (hc_size c)) held ->
  0 <= bytes t (of_buddy id held) <= 2 ^ 46.
Proof.
  intros HM Hrel Hs. apply sa_rel_blocks in Hrel as [_ Hbl].
  apply blocks_ok_length in Hbl. unfold blocks_of in Hbl. rewrite length_map in Hbl.
  pose proof (pow2_20 M HM).
  pose proof (bytes_bound t (of_buddy id held) (2 ^ 20) (Forall_of_buddy _ _ _ Hs) ltac:(lia)).
  lia.
Qed.

(** ** The invariant of the pool *)

(** [live] are the chunks in the hands of callers, [hots] the ones waiting for a
    synchronisation. *)
Record pool_inv (p : mlx5dr_icm_pool) (live hots : list mlx5dr_icm_hot_chunk) : Prop := {
  pi_max : max_log_ok (max_log_chunk_sz p);
  pi_num : hot_chunks_num p = Z.of_nat (length hots);
  pi_arr : take (length hots) (hot_chunks_arr p) = map Some hots;
  pi_arr_len : Z.of_nat (length (hot_chunks_arr p)) < 2 ^ 32;
  pi_ids : NoDup (map ib_id (buddy_mem_list p));
  pi_fresh : Forall (fun pb => (ib_id pb < next_id p)%nat) (buddy_mem_list p);
  pi_buddies : Forall (buddy_ok (icm_type p) (max_log_chunk_sz p) (live ++ hots)) (buddy_mem_list p);
  pi_owner : Forall (fun c => hc_buddy c ∈ map ib_id (buddy_mem_list p)) (live ++ hots);
  pi_sizes : Forall (fun c => 0 <= hc_size c <= max_log_chunk_sz p) (live ++ hots);
  pi_hot_size : hot_memory_size p = bytes (icm_type p) hots
}.

Lemma pi_sizes_ok p live hots :
  pool_inv p live hots -> Forall (fun c => max_log_ok (hc_size c)) (live ++ hots).
Proof.
  intros H. eapply Forall_impl; [apply (pi_sizes _ _ _ H)|].
  intros c Hc. pose proof (pi_max _ _ _ H). unfold max_log_ok in *. simpl in *. lia.
Qed.

Lemma pi_hots_in_arr p live hots :
  pool_inv p live hots -> (length hots <= length (hot_chunks_arr p))%nat.
Proof.
  intros H. pose proof (f_equal length (pi_arr _ _ _ H)) as E.
  rewrite length_take, length_map in E. lia.
Qed.

Lemma pool_inv_perm p live live' hots :
  live ≡ₚ live' -> pool_inv p live hots -> pool_inv p live' hots.
Proof.
  intros Hp H. destruct H. constructor; try done; [|by rewrite <- Hp|by rewrite <- Hp].
  eapply Forall_impl; [done|]. intros pb. apply buddy_ok_perm. by rewrite Hp.
Qed.


(** ** Creation of a region *)

(** The hot chunks and the configuration are left alone. *)
Definition same_hot (p p' : mlx5dr_icm_pool) : Prop :=
  icm_type p' = icm_type p /\ max_log_chunk_sz p' = max_log_chunk_sz p /\ th p' = th p /\
  hot_chunks_arr p' = hot_chunks_arr p /\ hot_chunks_num p' = hot_chunks_num p /\
  hot_memory_size p' = hot_memory_size p.

Lemma same_hot_trans p1 p2 p3 : same_hot p1 p2 -> same_hot p2 p3 -> same_hot p1 p3.
Proof. intros (? & ? & ? & ? & ? & ?) (? & ? & ? & ? & ? & ?). split_and!; congruence. Qed.

Lemma fresh_no_chunks p live hots :
  pool_inv p live hots -> of_buddy (next_id p) (live ++ hots) = [].
Proof.
  intros H. pose proof (pi_owner _ _ _ H) as Ho. pose proof (pi_fresh _ _ _ H) as Hf.
  unfold of_buddy. induction Ho as [|c l Hc Ho IH]; [done|].
  rewrite filter_cons_False; [done|]. intros E.
  apply list_elem_of_fmap in Hc as (pb & Ec & Hpb). rewrite Forall_forall in Hf.
  specialize (Hf _ Hpb). simpl in Hf. lia.
Qed.

Lemma max_log_30 M : max_log_ok M -> 0 <= M <= 30.
Proof. unfold max_log_ok, DR_CHUNK_SIZE_1024K. lia. Qed.

Lemma create_cases env p :
  max_log_ok (max_log_chunk_sz p) ->
  (exists ev, dr_icm_buddy_create env p = Some (ev, false, p)) \/
  (exists ev b mr, dr_icm_buddy_create env p = Some (ev, true,
     {| icm_type := icm_type p; max_log_chunk_sz := max_log_chunk_sz p;
        buddy_mem_list := {| ib_id := next_id p; ib_mem := b; ib_mr := mr;
                             used_memory := 0 |} :: buddy_mem_list p;
        hot_chunks_arr := hot_chunks_arr p; hot_chunks_num := hot_chunks_num p;
        hot_memory_size := hot_memory_size p; th := th p;
        num_buddies := u32 (num_buddies p + 1); next_id := S (next_id p) |}) /\
     sa_rel (max_log_chunk_sz p) b []).
Proof.
  intros HM. unfold dr_icm_buddy_create.
  destruct (dr_icm_pool_mr_create _ _ env) as [ev [mr|]]; [|left; by eexists].
  destruct (ce_buddy env); [|left; by eexists]. cbn [negb].
  pose proof (sa_init_law (max_log_chunk_sz p) (ce_init env) (max_log_30 _ HM)) as [_ Hi].
  destruct (sa_init (max_log_chunk_sz p) (ce_init env)) as [hev [e|ob]]; [left; by eexists|].
  destruct Hi as (b & -> & Hrel & _). cbn [mbind option_bind].
  destruct (if is_ste (icm_type p) then _ else _) as [cev []]; [right|left; by eexists].
  by eexists _, b, mr.
Qed.

Lemma create_inv env p live hots :
  pool_inv p live hots ->
  exists ev ok p', dr_icm_buddy_create env p = Some (ev, ok, p') /\
    if ok : bool then
      pool_inv p' live hots /\ same_hot p p' /\
      exists pb, buddy_mem_list p' = pb :: buddy_mem_list p /\
        sa_rel (max_log_chunk_sz p) (ib_mem pb) []
    else p' = p.
Proof.
  intros H. pose proof H as [].
  destruct (create_cases env p pi_max0) as [(ev & E)|(ev & b & mr & E & Hb)].
  - by exists ev, false, p.
  - eexists ev, true, _. split; [done|]. split_and!; [|done|by eexists].
    pose proof (fresh_no_chunks _ _ _ H) as Hno.
    constructor; cbn [icm_type max_log_chunk_sz buddy_mem_list hot_chunks_arr hot_chunks_num
                      hot_memory_size next_id map ib_id]; try done.
    + apply NoDup_cons. split; [|done]. intros Hin. rewrite Forall_forall in pi_fresh0.
      apply list_elem_of_fmap in Hin as (pb & E1 & Hpb). specialize (pi_fresh0 _ Hpb). simpl in *. lia.
    + constructor; [simpl; lia|]. eapply Forall_impl; [apply pi_fresh0|]. intros ? ?; simpl in *; lia.
    + constructor; [|done]. split; cbn [ib_id ib_mem used_memory].
      * unfold blocks_of. by rewrite Hno.
      * by rewrite Hno.
    + eapply Forall_impl; [apply pi_owner0|]. intros c Hc. by apply elem_of_cons; right.
Qed.

(** ** Finding a segment *)

(** The region [id] has just given out the segment [seg]. *)
Definition buddy_pending t M held id seg size (pb : icm_buddy) : Prop :=
  if bool_decide (ib_id pb = id) then
    sa_rel M (ib_mem pb) ((seg, size) :: blocks_of id held) /\
    used_memory pb = bytes t (of_buddy id held)
  else buddy_ok t M held pb.

Lemma set_mem_same pb : set_mem (ib_mem pb) pb = pb.
Proof. by destruct pb. Qed.

Lemma pending_other t M held id seg size l :
  id ∉ map ib_id l -> Forall (buddy_ok t M held) l ->
  Forall (buddy_pending t M held id seg size) l.
Proof.
  intros Hni H. rewrite Forall_forall in *. intros pb Hpb. unfold buddy_pending.
  rewrite bool_decide_eq_false_2; [by apply H|]. intros E. apply Hni.
  apply list_elem_of_fmap. by exists pb.
Qed.

Lemma scan_spec t M held size new_mem l :
  0 <= size <= M -> max_log_ok M -> NoDup (map ib_id l) -> Forall (buddy_ok t M held) l ->
  exists res l', scan_buddies size new_mem l = Some (res, l') /\
    match res with
    | Found id seg => map ib_id l' = map ib_id l /\ id ∈ map ib_id l /\
        Forall (buddy_pending t M held id seg size) l'
    | Out e => l' = l /\ e = err ENOMEM /\ new_mem = true /\
        exists pb r, l = pb :: r /\ forall s, ~ fits M (blocks_of (ib_id pb) held) size s
    | Exhausted => l' = l /\ (new_mem = true -> l = []) /\
        Forall (fun pb => forall s, ~ fits M (blocks_of (ib_id pb) held) size s) l
    end.
Proof.
  intros Hs HM Hnd Hl. induction Hl as [|pb r Hpb Hl IH]; cbn [scan_buddies].
  { by exists Exhausted, []. }
  simpl in Hnd. apply NoDup_cons in Hnd as [Hni Hnd]. destruct Hpb as [Hrel Hu] eqn:E. clear E.
  pose proof (max_log_30 M HM).
  destruct (sa_alloc_law M (ib_mem pb) _ size Hrel) as [(s & b' & -> & Hfit & Hrel')|[-> Hno]]; [lia| |].
  - cbn [mbind option_bind]. exists (Found (ib_id pb) (s * 2 ^ size)), (set_mem b' pb :: r).
    split; [done|]. cbn [map]. split_and!; [done|by apply elem_of_cons; left|].
    constructor; [|by apply pending_other].
    unfold buddy_pending. rewrite bool_decide_eq_true_2 by done. done.
  - cbn [mbind option_bind]. rewrite set_mem_same. destruct new_mem.
    { exists (Out (err ENOMEM)), (pb :: r). split_and!; [done..|by exists pb, r]. }
    destruct (IH Hnd) as (res & r' & -> & Hres). cbn [mbind option_bind].
    exists res, (pb :: r'). split; [done|]. destruct res as [id seg|e|].
    + destruct Hres as (Em & Hin & Hf). cbn [map]. split_and!; [by rewrite Em|by apply elem_of_cons; right|].
      constructor; [|done]. unfold buddy_pending. rewrite bool_decide_eq_false_2; [done|].
      intros E. by rewrite E in Hni.
    + by destruct Hres as (_ & _ & ? & _).
    + destruct Hres as (-> & Hn & Hf). split_and!; [done|done|by constructor].
Qed.

Lemma set_buddies_same p : set_buddies (buddy_mem_list p) p = p.
Proof. by destruct p. Qed.

(** A segment was found: in the region [id] of the pool [p0], which is the pool
    as it was or with one more region. *)
Definition found_in (p0 p' : mlx5dr_icm_pool) live hots id seg size : Prop :=
  pool_inv p0 live hots /\
  exists l, p' = set_buddies l p0 /\ map ib_id l = map ib_id (buddy_mem_list p0) /\
    id ∈ map ib_id (buddy_mem_list p0) /\
    Forall (buddy_pending (icm_type p0) (max_log_chunk_sz p0) (live ++ hots) id seg size) l.

(** After a creation the new region is first in the list and the second scan
    succeeds there, so the loop makes at most two rounds. *)
Lemma second_round envs i p live hots pb r size :
  pool_inv p live hots -> 0 <= size <= max_log_chunk_sz p ->
  buddy_mem_list p = pb :: r -> sa_rel (max_log_chunk_sz p) (ib_mem pb) [] ->
  exists id seg p', get_mem_loop 1 envs i size true p = Some ([], inr (id, seg), p') /\
    found_in p p' live hots id seg size.
Proof.
  intros H Hs El Hb. pose proof H as [].
  destruct (scan_spec (icm_type p) (max_log_chunk_sz p) (live ++ hots) size true (buddy_mem_list p))
    as (res & l' & E & Hres); [done|done|done|done|].
  cbn [get_mem_loop]. rewrite E. cbn [mbind option_bind]. destruct res as [id seg|e|].
  - destruct Hres as (Em & Hin & Hf). exists id, seg, (set_buddies l' p). split; [done|].
    split; [done|]. by exists l'.
  - exfalso. rewrite El in E. cbn [scan_buddies] in E.
    pose proof (max_log_30 _ pi_max0).
    destruct (sa_alloc_law _ _ _ size Hb) as [(s & b' & Ea & _)|[_ Hno]]; [lia| |].
    + rewrite Ea in E. cbn in E. congruence.
    + by apply (Hno 0), fits_empty.
  - destruct Hres as (_ & Hn & _). by rewrite El in Hn; specialize (Hn eq_refl).
Qed.

Lemma get_mem_spec envs p live hots size :
  pool_inv p live hots -> 0 <= size <= max_log_chunk_sz p ->
  exists ev r p', dr_icm_handle_buddies_get_mem envs size p = Some (ev, r, p') /\
    match r with
    | inl e => e = err ENOMEM /\ p' = p /\ (exists ev', dr_icm_buddy_create (envs 0%nat) p = Some (ev', false, p)) /\
        Forall (fun pb => forall s,
          ~ fits (max_log_chunk_sz p) (blocks_of (ib_id pb) (live ++ hots)) size s) (buddy_mem_list p)
    | inr (id, seg) => exists p0, same_hot p p0 /\ found_in p0 p' live hots id seg size /\
        (p0 = p \/ exists ev', dr_icm_buddy_create (envs 0%nat) p = Some (ev', true, p0))
    end.
Proof.
  intros H Hs. pose proof H as []. unfold dr_icm_handle_buddies_get_mem.
  destruct (scan_spec (icm_type p) (max_log_chunk_sz p) (live ++ hots) size false (buddy_mem_list p))
    as (res & l' & E & Hres); [done..|].
  assert (get_mem_loop 2 envs 0 size false p =
    ('(res, l) ← scan_buddies size false (buddy_mem_list p);
     let p1 := set_buddies l p in
     match res with
     | Found id seg => Some ([], inr (id, seg), p1)
     | Out e => Some ([], inl e, p1)
     | Exhausted =>
         '(ev, ok, p2) ← dr_icm_buddy_create (envs 0%nat) p1;
         if (ok : bool) then
           '(ev', r, p3) ← get_mem_loop 1 envs 1 size true p2; Some (ev ++ ev', r, p3)
         else Some (ev, inl (err ENOMEM), p2)
     end)) as -> by reflexivity.
  rewrite E. cbn [mbind option_bind]. destruct res as [id seg|e|].
  - destruct Hres as (Em & Hin & Hf). eexists _, (inr (id, seg)), _. split; [done|].
    exists p. split_and!; [done| |by left]. split; [done|]. by exists l'.
  - by destruct Hres as (_ & _ & ? & _).
  - destruct Hres as (-> & _ & Hno). rewrite set_buddies_same.
    destruct (create_inv (envs 0%nat) p live hots H) as (ev & ok & p1 & Ec & Hok). rewrite Ec.
    cbn [mbind option_bind]. destruct ok.
    + destruct Hok as (H1 & Hsame & pb & El & Hb). pose proof Hsame as (_ & EM & _).
      destruct (second_round envs 1 p1 live hots pb (buddy_mem_list p) size)
        as (id & seg & p' & E2 & Hf); [done|by rewrite EM|done|by rewrite EM|].
      rewrite E2. cbn [mbind option_bind]. eexists _, (inr (id, seg)), p'. split; [done|].
      exists p1. split_and!; [done|done|right; by exists ev].
    + subst p1. eexists _, (inl _), p. split; [done|]. split_and!; [done|done|by exists ev|done].
Qed.

(** ** Allocation of a chunk *)

Lemma set_buddies_inv p live live' hots l :
  pool_inv p live hots -> map ib_id l = map ib_id (buddy_mem_list p) ->
  Forall (buddy_ok (icm_type p) (max_log_chunk_sz p) (live' ++ hots)) l ->
  Forall (fun c => hc_buddy c ∈ map ib_id (buddy_mem_list p)) live' ->
  Forall (fun c => 0 <= hc_size c <= max_log_chunk_sz p) live' ->
  pool_inv (set_buddies l p) live' hots.
Proof.
  intros [] Em Hl Ho Hs.
  constructor; cbn [set_buddies icm_type max_log_chunk_sz buddy_mem_list hot_chunks_arr
    hot_chunks_num hot_memory_size next_id]; rewrite ?Em; try done.
  - rewrite <- (Forall_map ib_id (fun i => (i < next_id p)%nat)) in *.
    change (Forall (fun i => (i < next_id p)%nat) (map ib_id l)). by rewrite Em.
  - apply Forall_app. split; [done|]. by apply Forall_app in pi_owner0 as [_ ?].
  - apply Forall_app. split; [done|]. by apply Forall_app in pi_sizes0 as [_ ?].
Qed.

Lemma pending_block t M held id seg size l :
  id ∈ map ib_id l -> Forall (buddy_pending t M held id seg size) l ->
  0 <= size <= M /\ 0 <= seg < 2 ^ M /\ seg mod 2 ^ size = 0 /\ seg + 2 ^ size <= 2 ^ M.
Proof.
  intros Hin Hl. apply list_elem_of_fmap in Hin as (pb & E & Hpb).
  rewrite Forall_forall in Hl. specialize (Hl _ Hpb). unfold buddy_pending in Hl.
  rewrite bool_decide_eq_true_2 in Hl by done. destruct Hl as [Hrel _].
  apply sa_rel_blocks in Hrel as [_ [Hall _]]. apply Forall_cons_iff in Hall as [(H1 & H2 & H3) _].
  split_and!; try apply H1; try apply H2; try done. by apply (block_end M (seg, size)).
Qed.

Lemma bytes_u32 k t :
  max_log_ok k -> u32 (mlx5dr_icm_pool_chunk_size_to_byte k t) = csize t k.
Proof.
  intros Hk. rewrite bytes_eq by done. fold (csize t k). pose proof (csize_range t k Hk).
  pose proof (entry_size_range t). apply u32_id. lia.
Qed.

Lemma pending_commit t M held seg size pb :
  max_log_ok M -> 0 <= size <= M -> Forall (fun c => max_log_ok (hc_size c)) held ->
  buddy_pending t M held (ib_id pb) seg size pb ->
  buddy_ok t M ({| hc_buddy := ib_id pb; hc_seg := seg; hc_size := size |} :: held)
    (add_used (csize t size) pb).
Proof.
  intros HM Hs Hh Hp. unfold buddy_pending in Hp. rewrite bool_decide_eq_true_2 in Hp by done.
  destruct Hp as [Hrel Hu]. set (c := {| hc_buddy := ib_id pb; hc_seg := seg; hc_size := size |}).
  assert (blocks_of (ib_id pb) (c :: held) = (seg, size) :: blocks_of (ib_id pb) held) as Eb
    by (rewrite blocks_of_cons, bool_decide_eq_true_2; done).
  assert (of_buddy (ib_id pb) (c :: held) = c :: of_buddy (ib_id pb) held) as Eo
    by (rewrite of_buddy_cons, bool_decide_eq_true_2; done).
  split; cbn [add_used ib_id ib_mem used_memory]; [by rewrite Eb|].
  rewrite <- Eb in Hrel. rewrite Hu, Eo.
  pose proof (buddy_bytes_bound t M (c :: held) _ _ HM Hrel) as Hbd. rewrite Eo in Hbd.
  assert (max_log_ok size) by (unfold max_log_ok in *; lia).
  cbn [bytes foldr] in Hbd |- *. fold (bytes t (of_buddy (ib_id pb) held)) in Hbd |- *.
  cbn [c hc_size] in Hbd |- *.
  rewrite u64_id; [lia|]. specialize (Hbd ltac:(by constructor)). lia.
Qed.

Lemma pending_rollback t M held seg size pb :
  buddy_pending t M held (ib_id pb) seg size pb ->
  exists b', sa_free seg size (ib_mem pb) = Some b' /\ buddy_ok t M held (set_mem b' pb).
Proof.
  unfold buddy_pending. rewrite bool_decide_eq_true_2 by done. intros [Hrel Hu].
  destruct (sa_free_law _ _ _ _ _ Hrel) as (b' & E & Hrel'). exists b'. by split.
Qed.

Lemma buddy_ok_other t M held c pb :
  ib_id pb <> hc_buddy c -> buddy_ok t M (c :: held) pb <-> buddy_ok t M held pb.
Proof.
  intros Hne. unfold buddy_ok. rewrite blocks_of_cons, of_buddy_cons.
  by rewrite !bool_decide_eq_false_2 by done.
Qed.

Lemma pending_elsewhere t M held id seg size pb :
  ib_id pb <> id -> buddy_pending t M held id seg size pb -> buddy_ok t M held pb.
Proof. intros Hne. unfold buddy_pending. by rewrite bool_decide_eq_false_2. Qed.

Lemma chunk_init_spec p0 p' live hots id seg size :
  found_in p0 p' live hots id seg size ->
  exists c p2, dr_icm_chunk_init p' size id seg = Some (c, p2) /\
    chunk_hot c = {| hc_buddy := id; hc_seg := seg; hc_size := size |} /\
    pool_inv p2 (chunk_hot c :: live) hots /\ same_hot p0 p2.
Proof.
  intros (H & l & -> & Em & Hin & Hl). pose proof H as [].
  pose proof (pi_sizes_ok _ _ _ H) as Hszs.
  assert (id ∈ map ib_id l) as Hin' by (by rewrite Em).
  destruct (pending_block _ _ _ _ _ _ _ Hin' Hl) as (Hs & Hseg & Hmod & Hend).
  assert (max_log_ok size) as Hsz by (unfold max_log_ok in *; lia).
  pose proof (pow2_20 _ pi_max0). pose proof (pow2_20 _ Hsz).
  unfold dr_icm_chunk_init. cbn [set_buddies icm_type max_log_chunk_sz buddy_mem_list].
  rewrite bytes_u32 by done.
  assert (exists idx, (if is_ste (icm_type p0) then
      i ← dr_icm_chunk_ste_init (max_log_chunk_sz p0) size
            (s32 (mlx5dr_icm_pool_dm_type_to_entry_size (icm_type p0) * seg)); Some (Some i)
    else Some None) = Some idx) as [idx Ei].
  { destruct (is_ste (icm_type p0)) eqn:Et; [|by eexists].
    unfold dr_icm_chunk_ste_init, mlx5dr_icm_pool_dm_type_to_entry_size. rewrite Et.
    rewrite !entries_eq by done. unfold DR_STE_SIZE.
    rewrite (s32_id (64 * seg)), (s32_id (2 ^ size)), (s32_id (2 ^ max_log_chunk_sz p0)) by lia.
    rewrite Z.mul_comm, Z.quot_mul by lia.
    rewrite !(proj2 (Z.leb_le _ _)) by lia. by eexists. }
  rewrite Ei. cbn [mbind option_bind].
  destruct (update_buddy_spec id (fun pb => Some (add_used (csize (icm_type p0) size) pb)) l
    (buddy_pending (icm_type p0) (max_log_chunk_sz p0) (live ++ hots) id seg size)
    (buddy_ok (icm_type p0) (max_log_chunk_sz p0)
       ({| hc_buddy := id; hc_seg := seg; hc_size := size |} :: live ++ hots)))
    as (l' & -> & Em' & Hl'); [by rewrite Em|done|done| | |].
  - intros pb <- Hpb. eexists. split_and!; [done|done|]. by apply pending_commit.
  - intros pb Hne Hpb. apply buddy_ok_other; [done|]. by eapply pending_elsewhere.
  - cbn [mbind option_bind]. eexists _, _. split_and!; [done|done| |done]. cbn [chunk_hot].
    change (set_buddies l' (set_buddies l p0)) with (set_buddies l' p0).
    apply Forall_app in pi_owner0 as [? _]. apply Forall_app in pi_sizes0 as [? _].
    eapply set_buddies_inv; [done|by rewrite Em'|done| |]; by constructor.
Qed.

Lemma alloc_chunk_spec envs ok p live hots size :
  pool_inv p live hots -> 0 <= size ->
  exists ev r p', mlx5dr_icm_alloc_chunk envs ok size p = Some (ev, r, p') /\ same_hot p p' /\
    match r with
    | Some c => pool_inv p' (chunk_hot c :: live) hots /\ hc_size (chunk_hot c) = size
    | None => pool_inv p' live hots /\
        (max_log_chunk_sz p < size \/ ok = false \/
         ((exists ev', dr_icm_buddy_create (envs 0%nat) p = Some (ev', false, p)) /\
          Forall (fun pb => forall s,
            ~ fits (max_log_chunk_sz p) (blocks_of (ib_id pb) (live ++ hots)) size s)
            (buddy_mem_list p)))
    end.
Proof.
  intros H Hs. unfold mlx5dr_icm_alloc_chunk.
  destruct (Z.ltb_spec (max_log_chunk_sz p) size) as [Hlt|Hge].
  { exists [], None, p. split_and!; [done..|by left]. }
  destruct (get_mem_spec envs p live hots size H (conj Hs Hge)) as (ev & r & p1 & -> & Hr).
  cbn [mbind option_bind]. destruct r as [e|[id seg]].
  { destruct Hr as (-> & -> & Hc & Hno). exists ev, None, p. split_and!; [done..|]. by right; right. }
  destruct Hr as (p0 & Hsame & Hfound & _). destruct ok.
  - destruct (chunk_init_spec _ _ _ _ _ _ _ Hfound) as (c & p2 & -> & Ec & Hp2 & Hs2).
    cbn [mbind option_bind]. eexists _, (Some c), p2. split_and!; [done| |done|by rewrite Ec].
    by eapply same_hot_trans.
  - destruct Hfound as (H0 & l & -> & Em & Hin & Hl). cbn [set_buddies buddy_mem_list].
    destruct (update_buddy_spec id (fun pb => b' ← sa_free seg size (ib_mem pb); Some (set_mem b' pb)) l
      (buddy_pending (icm_type p0) (max_log_chunk_sz p0) (live ++ hots) id seg size)
      (buddy_ok (icm_type p0) (max_log_chunk_sz p0) (live ++ hots)))
      as (l' & -> & Em' & Hl'); [rewrite Em; apply H0|by rewrite Em|done| | |].
    + intros pb <- Hpb. destruct (pending_rollback _ _ _ _ _ _ Hpb) as (b' & -> & Hok). by eexists.
    + intros pb Hne Hpb. by eapply pending_elsewhere.
    + cbn [mbind option_bind]. eexists _, None, _. split_and!; [done|done| |by right; left].
      change (set_buddies l' (set_buddies l p0)) with (set_buddies l' p0).
      pose proof (pi_owner _ _ _ H0) as [? _]%Forall_app.
      pose proof (pi_sizes _ _ _ H0) as [? _]%Forall_app.
      eapply set_buddies_inv; [done|by rewrite Em'|done..].
Qed.

(** ** Synchronisation *)

Lemma release_hot_spec t M held c l :
  max_log_ok M -> 0 <= hc_size c <= M -> Forall (fun c => max_log_ok (hc_size c)) held ->
  NoDup (map ib_id l) -> hc_buddy c ∈ map ib_id l -> Forall (buddy_ok t M (c :: held)) l ->
  exists l', release_hot t c l = Some l' /\ map ib_id l' = map ib_id l /\
    Forall (buddy_ok t M held) l'.
Proof.
  intros HM Hs Hh Hnd Hin Hl. assert (max_log_ok (hc_size c)) as Hsz by (unfold max_log_ok in *; lia).
  unfold release_hot. rewrite entries_eq, bytes_eq, Z.log2_pow2 by (done || lia).
  fold (csize t (hc_size c)).
  apply (update_buddy_spec _ _ _ (buddy_ok t M (c :: held)) (buddy_ok t M held)); [done..| |].
  - intros pb E [Hrel Hu]. rewrite blocks_of_cons, bool_decide_eq_true_2 in Hrel by done.
    rewrite of_buddy_cons, bool_decide_eq_true_2 in Hu by done.
    destruct (sa_free_law _ _ _ _ _ Hrel) as (b' & -> & Hrel'). cbn [mbind option_bind].
    eexists. split_and!; [done|done|]. split; [done|]. cbn [add_used set_mem used_memory ib_id].
    rewrite Hu. cbn [bytes foldr]. fold (bytes t (of_buddy (ib_id pb) held)).
    pose proof (buddy_bytes_bound t M held _ _ HM Hrel' Hh). rewrite u64_id; lia.
  - intros pb Hne Hpb. by apply (buddy_ok_other t M held c).
Qed.

Lemma release_hots_spec t M live hots arr l :
  max_log_ok M -> Forall (fun c => 0 <= hc_size c <= M) (hots ++ live) ->
  NoDup (map ib_id l) -> Forall (fun c => hc_buddy c ∈ map ib_id l) hots ->
  Forall (buddy_ok t M (hots ++ live)) l -> take (length hots) arr = map Some hots ->
  exists l', release_hots t arr (length hots) l = Some l' /\ map ib_id l' = map ib_id l /\
    Forall (buddy_ok t M live) l'.
Proof.
  intros HM. revert arr l. induction hots as [|c hots IH]; intros arr l Hs Hnd Ho Hl Ha.
  { by exists l. }
  destruct arr as [|x arr]; simplify_eq/=. apply Forall_cons_iff in Hs as [Hc Hs].
  apply Forall_cons_iff in Ho as [Hoc Ho].
  destruct (release_hot_spec t M (hots ++ live) c l) as (l1 & -> & Em & Hl1); try done.
  { eapply Forall_impl; [apply Hs|]. intros c' Hc'. unfold max_log_ok in *. simpl in *. lia. }
  cbn [mbind option_bind]. destruct (IH arr l1) as (l' & -> & Em' & Hl'); rewrite ?Em; try done.
  exists l'. split_and!; [done|congruence|done].
Qed.

Lemma clear_hot_spec p live hots :
  pool_inv p live hots ->
  exists p', dr_icm_pool_clear_hot_chunks_arr p = Some p' /\ pool_inv p' live [] /\
    icm_type p' = icm_type p /\ max_log_chunk_sz p' = max_log_chunk_sz p /\ th p' = th p /\
    hot_chunks_arr p' = hot_chunks_arr p.
Proof.
  intros H. pose proof H as []. unfold dr_icm_pool_clear_hot_chunks_arr.
  rewrite pi_num0, Nat2Z.id. apply Forall_app in pi_owner0 as [Hol Hoh].
  destruct (release_hots_spec (icm_type p) (max_log_chunk_sz p) live hots (hot_chunks_arr p)
    (buddy_mem_list p)) as (l' & -> & Em & Hl'); try done.
  { by rewrite Permutation_app_comm. }
  { eapply Forall_impl; [apply pi_buddies0|]. intros pb. apply buddy_ok_perm, Permutation_app_comm. }
  cbn [mbind option_bind]. eexists. split; [done|]. split; [|done].
  apply Forall_app in pi_sizes0 as [Hsl _].
  constructor; cbn [set_hot set_buddies icm_type max_log_chunk_sz buddy_mem_list hot_chunks_arr
    hot_chunks_num hot_memory_size next_id]; rewrite ?app_nil_r, ?Em; try done.
  rewrite <- (Forall_map ib_id (fun i => (i < next_id p)%nat)) in *.
  change (Forall (fun i => (i < next_id p)%nat) (map ib_id l')). by rewrite Em.
Qed.

Lemma destroy_buddies_spec t doomed l :
  exists ev n, destroy_buddies t doomed l = (ev, n, filter (fun pb => doomed pb = false) l).
Proof.
  induction l as [|pb r (ev & n & IH)]; cbn [destroy_buddies]; [by eexists _, _|].
  rewrite IH, filter_cons. destruct (doomed pb); [rewrite decide_False by done|rewrite decide_True by done];
    by eexists _, _.
Qed.

(** A region that no chunk refers to may go. *)
Lemma run_destroy_inv doomed p live hots ev p' :
  pool_inv p live hots ->
  (forall pb, pb ∈ buddy_mem_list p -> doomed pb = true ->
     forall c, c ∈ live ++ hots -> hc_buddy c <> ib_id pb) ->
  run_destroy doomed p = (ev, p') -> pool_inv p' live hots /\ same_hot p p' /\
    buddy_mem_list p' = filter (fun pb => doomed pb = false) (buddy_mem_list p).
Proof.
  intros H Hd E. pose proof H as []. unfold run_destroy in E.
  destruct (destroy_buddies_spec (icm_type p) doomed (buddy_mem_list p)) as (ev' & n & Ed).
  rewrite Ed in E. simplify_eq. split; [|done].
  set (l := filter _ _). assert (sublist l (buddy_mem_list p)) as Hsub by apply sublist_filter.
  assert (forall Q : icm_buddy -> Prop, Forall Q (buddy_mem_list p) -> Forall Q l) as Hfa
    by (intros Q; rewrite !Forall_forall; intros HQ pb [_ ?]%list_elem_of_filter; by apply HQ).
  constructor; cbn [icm_type max_log_chunk_sz buddy_mem_list hot_chunks_arr
    hot_chunks_num hot_memory_size next_id]; try done; try by apply Hfa.
  - eapply sublist_NoDup; [done|]. by apply (fmap_sublist ib_id).
  - rewrite Forall_forall in pi_owner0 |- *. intros c Hc. specialize (pi_owner0 c Hc).
    apply list_elem_of_fmap in pi_owner0 as (pb & Ec & Hpb). apply list_elem_of_fmap.
    exists pb. split; [done|]. apply list_elem_of_filter. split; [|done].
    destruct (doomed pb) eqn:Eb; [|done]. by destruct (Hd pb Hpb Eb c Hc).
Qed.

Lemma unused_no_chunk t M held pb c :
  max_log_ok M -> Forall (fun c => max_log_ok (hc_size c)) held -> buddy_ok t M held pb ->
  unused_ste_buddy t pb = true -> c ∈ held -> hc_buddy c <> ib_id pb.
Proof.
  intros HM Hs [Hrel Hu] Hd Hc E. unfold unused_ste_buddy in Hd.
  apply andb_true_iff in Hd as [Hd _]. apply Z.eqb_eq in Hd. rewrite Hu in Hd.
  apply list_elem_of_split in Hc as (l1 & l2 & ->).
  rewrite <- Permutation_middle in Hrel, Hs.
  assert (of_buddy (ib_id pb) (l1 ++ c :: l2) ≡ₚ c :: of_buddy (ib_id pb) (l1 ++ l2)) as Ep.
  { unfold of_buddy. rewrite <- Permutation_middle. by rewrite filter_cons_True. }
  rewrite Ep in Hd. cbn [bytes foldr] in Hd. fold (bytes t (of_buddy (ib_id pb) (l1 ++ l2))) in Hd.
  apply Forall_cons_iff in Hs as [Hc Hs]. pose proof (csize_range t _ Hc).
  pose proof (bytes_bound t _ _ (Forall_of_buddy _ (ib_id pb) _ Hs) (Z.le_refl _)).
  pose proof (entry_size_range t). lia.
Qed.

Lemma sync_spec sync p live hots :
  pool_inv p live hots ->
  exists ev e p', dr_icm_pool_sync_all_buddy_pools sync p = Some (ev, e, p') /\ e = sync /\
    if truthy sync then p' = p
    else pool_inv p' live [] /\ icm_type p' = icm_type p /\
      max_log_chunk_sz p' = max_log_chunk_sz p /\ th p' = th p /\
      hot_chunks_arr p' = hot_chunks_arr p.
Proof.
  intros H. unfold dr_icm_pool_sync_all_buddy_pools. destruct (truthy sync) eqn:Es.
  { by exists [], sync, p. }
  assert (sync = 0) as -> by (unfold truthy in Es; bool_to_prop; done).
  destruct (clear_hot_spec _ _ _ H) as (p1 & -> & H1 & Et & EM & Eth & Ea). cbn [mbind option_bind].
  destruct (run_destroy (unused_ste_buddy (icm_type p1)) p1) as [ev p2] eqn:Er.
  pose proof (fun Hd => run_destroy_inv _ _ _ _ _ _ H1 Hd Er) as Hrun.
  destruct Hrun as (H2 & Hs & _).
  { intros pb Hpb Hd c Hc. pose proof (pi_buddies _ _ _ H1) as Hb. rewrite Forall_forall in Hb.
    eapply unused_no_chunk; [apply H1|by eapply pi_sizes_ok|by apply Hb|done|done]. }
  destruct Hs as (? & ? & ? & ? & _). eexists _, _, p2. split; [done|]. split; [done|].
  split_and!; [done|congruence..].
Qed.

(** ** Release of a chunk *)

(** The pool when every synchronisation asked for so far succeeded: the hot
    memory is at most the threshold, for which the array of hot chunks was
    sized. *)
Definition pool_synced (p : mlx5dr_icm_pool) : Prop :=
  hot_memory_size p <= th p /\
  th p / mlx5dr_icm_pool_dm_type_to_entry_size (icm_type p) + 1 <=
    Z.of_nat (length (hot_chunks_arr p)).

Lemma hots_bytes_lower t l :
  Forall (fun c => max_log_ok (hc_size c)) l ->
  Z.of_nat (length l) * mlx5dr_icm_pool_dm_type_to_entry_size t <= bytes t l.
Proof.
  induction 1 as [|c l Hc Hl IH]; [done|]. cbn [bytes foldr length]. fold (bytes t l).
  pose proof (csize_range t _ Hc). lia.
Qed.

Lemma hot_slot_free p live hots :
  pool_inv p live hots -> pool_synced p ->
  (length hots < length (hot_chunks_arr p))%nat.
Proof.
  intros H [Hle Hlen]. pose proof (pi_sizes_ok _ _ _ H) as [_ Hs]%Forall_app.
  pose proof (hots_bytes_lower (icm_type p) hots Hs) as Hlow.
  rewrite (pi_hot_size _ _ _ H) in Hle.
  set (e := mlx5dr_icm_pool_dm_type_to_entry_size (icm_type p)) in *.
  assert (0 < e) by (pose proof (entry_size_range (icm_type p)); lia).
  assert (Z.of_nat (length hots) <= th p / e) by (apply Z.div_le_lower_bound; lia). lia.
Qed.

Lemma update_buddy_present id l : id ∈ map ib_id l -> update_buddy id Some l = Some l.
Proof.
  induction l as [|pb r IH]; intros Hin; cbn [update_buddy map] in *; [by apply elem_of_nil in Hin|].
  case_bool_decide; [done|]. apply elem_of_cons in Hin as [?|Hin]; [congruence|]. by rewrite IH.
Qed.

Lemma push_hot_inv p live hots c :
  pool_inv p (chunk_hot c :: live) hots -> (length hots < length (hot_chunks_arr p))%nat ->
  pool_inv
    (set_hot (<[Z.to_nat (hot_chunks_num p) := Some (chunk_hot c)]> (hot_chunks_arr p))
       (u32 (hot_chunks_num p + 1))
       (u64 (hot_memory_size p +
          u32 (mlx5dr_icm_pool_chunk_size_to_byte (hc_size (chunk_hot c)) (icm_type p)))) p)
    live (hots ++ [chunk_hot c]).
Proof.
  intros H Hlen. pose proof (pi_sizes_ok _ _ _ H) as Hsz. pose proof H as [].
  apply Forall_app in Hsz as [[Hc _]%Forall_cons_iff Hsh].
  pose proof (csize_range (icm_type p) _ Hc). pose proof (entry_size_range (icm_type p)).
  pose proof (bytes_bound (icm_type p) hots (2 ^ 32) Hsh ltac:(lia)).
  assert (live ++ hots ++ [chunk_hot c] ≡ₚ (chunk_hot c :: live) ++ hots) as Hp
    by (rewrite app_assoc, <- Permutation_cons_append; done).
  constructor; cbn [set_hot icm_type max_log_chunk_sz buddy_mem_list hot_chunks_arr
    hot_chunks_num hot_memory_size next_id]; try done.
  - rewrite pi_num0, length_app, u32_id; simpl; lia.
  - rewrite pi_num0, Nat2Z.id, length_app, map_app, <- pi_arr0. simpl.
    rewrite Nat.add_1_r, (take_S_r _ _ (Some (chunk_hot c))).
    + by rewrite take_insert_ge by lia.
    + by apply list_lookup_insert_eq.
  - by rewrite length_insert.
  - eapply Forall_impl; [apply pi_buddies0|]. intros pb. apply buddy_ok_perm. by rewrite Hp.
  - by rewrite Hp.
  - by rewrite Hp.
  - rewrite bytes_app, pi_hot_size0, bytes_u32 by done. cbn [bytes foldr]. rewrite u64_id; lia.
Qed.

Lemma free_chunk_spec sync p live hots c :
  pool_inv p (chunk_hot c :: live) hots -> (length hots < length (hot_chunks_arr p))%nat ->
  exists ev p' hots', mlx5dr_icm_free_chunk sync c p = Some (ev, p') /\ pool_inv p' live hots' /\
    icm_type p' = icm_type p /\ max_log_chunk_sz p' = max_log_chunk_sz p /\ th p' = th p /\
    length (hot_chunks_arr p') = length (hot_chunks_arr p) /\
    ((hots' = hots ++ [chunk_hot c] /\ (sync = 0 -> hot_memory_size p' <= th p)) \/
     (hots' = [] /\ sync = 0)).
Proof.
  intros H Hlen. pose proof (push_hot_inv p live hots c H Hlen) as H1. pose proof H as [].
  unfold mlx5dr_icm_free_chunk. rewrite update_buddy_present.
  2: { rewrite Forall_forall in pi_owner0. apply pi_owner0. by apply elem_of_cons; left. }
  cbn [mbind option_bind]. rewrite bool_decide_eq_true_2 by lia.
  set (p1 := set_hot _ _ _ p) in *.
  assert (length (hot_chunks_arr p1) = length (hot_chunks_arr p)) as El
    by (unfold p1; cbn [set_hot hot_chunks_arr]; apply length_insert).
  destruct (dr_icm_pool_is_sync_required p1) eqn:Ereq; unfold dr_icm_pool_is_sync_required in Ereq; bool_to_prop.
  - destruct (sync_spec sync p1 _ _ H1) as (ev & e & p2 & -> & -> & Hs). cbn [mbind option_bind].
    destruct (truthy sync) eqn:Es; unfold truthy in Es; bool_to_prop.
    + subst p2. exists ev, p1, (hots ++ [chunk_hot c]). split_and!; [done..|]. left. split; [done|lia].
    + destruct Hs as (H2 & ? & ? & ? & ?). exists ev, p2, [].
      split_and!; [done|done|done|done|done|congruence|by right].
  - exists [], p1, (hots ++ [chunk_hot c]). split_and!; [done..|]. left. split; [done|]. intros _. done.
Qed.

(** ** Users of the pool *)

(** A user allocates chunks and releases the ones it holds, by position. *)
Inductive pool_op :=
| PAlloc (envs : nat -> create_env) (chunk_ok : bool) (size : Z)
| PFree (i : nat) (sync : Z).

Definition pool_step_ev (o : pool_op) (st : mlx5dr_icm_pool * list mlx5dr_icm_chunk)
  : option (list pool_event * (mlx5dr_icm_pool * list mlx5dr_icm_chunk)) :=
  let '(p, live) := st in
  match o with
  | PAlloc envs ok size =>
      '(ev, r, p') ← mlx5dr_icm_alloc_chunk envs ok size p;
      Some (ev, (p', match r with Some c => c :: live | None => live end))
  | PFree i sync =>
      match live !! i with
      | Some c => '(ev, p') ← mlx5dr_icm_free_chunk sync c p; Some (ev, (p', delete i live))
      | None => Some ([], (p, live))
      end
  end.

Definition pool_step (o : pool_op) (st : mlx5dr_icm_pool * list mlx5dr_icm_chunk)
  : option (mlx5dr_icm_pool * list mlx5dr_icm_chunk) :=
  '(_, st') ← pool_step_ev o st; Some st'.

Fixpoint pool_run (os : list pool_op) (st : mlx5dr_icm_pool * list mlx5dr_icm_chunk)
  : option (mlx5dr_icm_pool * list mlx5dr_icm_chunk) :=
  match os with
  | [] => Some st
  | o :: os' => st' ← pool_step o st; pool_run os' st'
  end.

(** What a run acquires and releases. *)
Fixpoint pool_events (os : list pool_op) (st : mlx5dr_icm_pool * list mlx5dr_icm_chunk)
  : list pool_event :=
  match os with
  | [] => []
  | o :: os' => match pool_step_ev o st with Some (ev, st') => ev ++ pool_events os' st' | None => [] end
  end.

Definition pool_op_ok (o : pool_op) : Prop :=
  match o with PAlloc _ _ size => 0 <= size | PFree _ sync => sync = 0 end.

(** The limits [dr_domain.c] gives to a pool. *)
Definition limits_ok (max_log_sz : mlx5dr_icm_type -> Z) : Prop :=
  0 <= max_log_sz DR_ICM_TYPE_STE <= DR_CHUNK_SIZE_1024K /\
  0 <= max_log_sz DR_ICM_TYPE_MODIFY_ACTION <= DR_CHUNK_SIZE_4K /\
  0 <= max_log_sz DR_ICM_TYPE_MODIFY_HDR_PTRN <= DR_CHUNK_SIZE_4K.

Lemma limits_max_log max_log_sz t : limits_ok max_log_sz -> max_log_ok (max_log_sz t).
Proof.
  unfold limits_ok, max_log_ok, DR_CHUNK_SIZE_1024K, DR_CHUNK_SIZE_4K. destruct t; lia.
Qed.

Lemma percent_fits max_log_sz t :
  limits_ok max_log_sz ->
  0 < csize t (max_log_sz t) * hot_percent t < 2 ^ 31.
Proof.
  intros (H1 & H2 & H3). unfold DR_CHUNK_SIZE_1024K, DR_CHUNK_SIZE_4K in *.
  unfold csize, mlx5dr_icm_pool_dm_type_to_entry_size.
  assert (forall k n, 0 <= k <= n -> 1 <= 2 ^ k <= 2 ^ n) as Hp.
  { intros k n Hk. split; [apply (Z.pow_le_mono_r 2 0 k); lia|apply Z.pow_le_mono_r; lia]. }
  destruct t; cbn [is_ste hot_percent]; unfold DR_STE_SIZE, DR_MODIFY_ACTION_SIZE.
  - pose proof (Hp _ _ H1). lia.
  - pose proof (Hp _ _ H2). lia.
  - pose proof (Hp _ _ H3). lia.
Qed.

Lemma create_pool_spec max_log_sz t p :
  limits_ok max_log_sz -> mlx5dr_icm_pool_create max_log_sz t true true = Some p ->
  pool_inv p [] [] /\ pool_synced p.
Proof.
  intros Hlim E. pose proof (limits_max_log _ t Hlim) as HM. pose proof (percent_fits _ t Hlim) as Hp.
  unfold mlx5dr_icm_pool_create in E. cbn [negb] in E.
  rewrite bytes_eq in E by done. fold (csize t (max_log_sz t)) in E.
  rewrite (s32_id (csize _ _ * _)) in E by lia.
  set (n := csize t (max_log_sz t) * hot_percent t) in *.
  rewrite Z.quot_div_nonneg in E by lia.
  assert (0 <= n / 100 < 2 ^ 31) as Hn
    by (split; [apply Z.div_pos; lia|apply Z.div_lt_upper_bound; lia]).
  pose proof (entry_size_range t) as He.
  rewrite (u32_id (n / 100)), (u32_id (mlx5dr_icm_pool_dm_type_to_entry_size t)) in E by lia.
  set (e := mlx5dr_icm_pool_dm_type_to_entry_size t) in *.
  rewrite (u32_id (n / 100 + e - 1)) in E by lia.
  assert (0 <= (n / 100 + e - 1) / e < 2 ^ 31) as Hq
    by (split; [apply Z.div_pos; lia|apply Z.div_lt_upper_bound; lia]).
  rewrite (u32_id ((n / 100 + e - 1) / e + 1)) in E by lia.
  assert (n / 100 / e <= (n / 100 + e - 1) / e) as Hd by (apply Z.div_le_mono; lia).
  simplify_eq. split.
  - constructor; cbn [icm_type max_log_chunk_sz buddy_mem_list hot_chunks_arr
      hot_chunks_num hot_memory_size next_id map length app take]; try done; try by constructor.
    rewrite length_replicate. lia.
  - split; cbn [hot_memory_size th icm_type hot_chunks_arr]; [lia|].
    rewrite length_replicate. fold e. lia.
Qed.

Lemma live_delete (live : list mlx5dr_icm_chunk) i c :
  live !! i = Some c -> map chunk_hot live ≡ₚ chunk_hot c :: map chunk_hot (delete i live).
Proof. intros Hi. by rewrite (delete_Permutation _ _ _ Hi) at 1. Qed.

Lemma pool_step_spec o p live hots :
  pool_inv p (map chunk_hot live) hots -> pool_synced p -> pool_op_ok o ->
  exists p' live' hots', pool_step o (p, live) = Some (p', live') /\
    pool_inv p' (map chunk_hot live') hots' /\ pool_synced p' /\ icm_type p' = icm_type p /\
    max_log_chunk_sz p' = max_log_chunk_sz p.
Proof.
  intros H Hsync Ho. unfold pool_step. destruct o as [envs ok size|i sync]; cbn [pool_step_ev pool_op_ok] in *.
  - destruct (alloc_chunk_spec envs ok p _ hots size H Ho) as (ev & r & p' & -> & Hs & Hr).
    cbn [mbind option_bind]. exists p', (match r with Some c => c :: live | None => live end), hots.
    assert (pool_synced p') as Hsync'.
    { destruct Hs as (E1 & _ & E3 & E4 & _ & E6). unfold pool_synced in *. by rewrite E1, E3, E4, E6. }
    split_and!; [done|destruct r; by destruct Hr|done|apply Hs|apply Hs].
  - subst sync. destruct (live !! i) as [c|] eqn:Hi; [|by exists p, live, hots].
    apply (pool_inv_perm _ _ _ _ (live_delete _ _ _ Hi)) in H.
    destruct (free_chunk_spec 0 p _ hots c H (hot_slot_free _ _ _ H Hsync))
      as (ev & p' & hots' & -> & H' & Et & EM & Eth & El & Hc). cbn [mbind option_bind].
    exists p', (delete i live), hots'. split_and!; [done|done| |done|done].
    unfold pool_synced in *. rewrite Et, Eth, El. split; [|by apply Hsync].
    destruct Hc as [[-> Hle]|[-> _]]; [by apply Hle|].
    rewrite (pi_hot_size _ _ _ H'). cbn [bytes foldr].
    destruct Hsync as [Hh _]. rewrite (pi_hot_size _ _ _ H) in Hh.
    pose proof (pi_sizes_ok _ _ _ H) as [_ Hsz]%Forall_app.
    pose proof (bytes_bound (icm_type p) hots _ Hsz (Z.le_refl _)). lia.
Qed.

Lemma pool_run_spec os p live hots :
  pool_inv p (map chunk_hot live) hots -> pool_synced p -> Forall pool_op_ok os ->
  exists p' live' hots', pool_run os (p, live) = Some (p', live') /\
    pool_inv p' (map chunk_hot live') hots' /\ pool_synced p' /\ icm_type p' = icm_type p /\
    max_log_chunk_sz p' = max_log_chunk_sz p.
Proof.
  intros H Hs Hos. revert p live hots H Hs.
  induction Hos as [|o os Ho Hos IH]; intros p live hots H Hs; cbn [pool_run].
  { by exists p, live, hots. }
  destruct (pool_step_spec o p live hots H Hs Ho) as (p1 & l1 & h1 & -> & H1 & Hs1 & Et & EM).
  cbn [mbind option_bind].
  destruct (IH p1 l1 h1 H1 Hs1) as (p' & live' & hots' & E & H' & Hs' & Et' & EM').
  exists p', live', hots'. split_and!; [done|done|done|congruence|congruence].
Qed.

(** Two chunks in use, at different positions, of the same region. *)
Lemma live_disjoint p live hots i j ci cj pb :
  pool_inv p live hots -> live !! i = Some ci -> live !! j = Some cj -> i <> j ->
  hc_buddy ci = ib_id pb -> hc_buddy cj = ib_id pb -> pb ∈ buddy_mem_list p ->
  (0 <= hc_seg ci /\ hc_seg ci + 2 ^ hc_size ci <= 2 ^ max_log_chunk_sz p) /\
  (hc_seg ci + 2 ^ hc_size ci <= hc_seg cj \/ hc_seg cj + 2 ^ hc_size cj <= hc_seg ci).
Proof.
  intros H Hi Hj Hne Ei Ej Hpb. pose proof (pi_buddies _ _ _ H) as Hb.
  rewrite Forall_forall in Hb. destruct (Hb _ Hpb) as [Hrel _].
  assert (live ≡ₚ ci :: cj :: delete (if decide (j < i)%nat then j else (j - 1)%nat) (delete i live)) as Hp.
  { rewrite (delete_Permutation _ _ _ Hi) at 1. constructor. apply delete_Permutation.
    case_decide; [by rewrite list_lookup_delete_lt by lia|].
    rewrite list_lookup_delete_ge by lia. by replace (S (j - 1)) with j by lia. }
  rewrite Hp in Hrel. apply sa_rel_blocks in Hrel as [_ Hok]. cbn [app] in Hok. rewrite !blocks_of_cons in Hok.
  rewrite !bool_decide_eq_true_2 in Hok by done.
  split.
  - destruct Hok as [Hall _]. apply Forall_cons_iff in Hall as [(H1 & H2 & H3) _].
    cbn [fst snd] in *. split; [lia|]. by apply (block_end _ (hc_seg ci, hc_size ci)).
  - apply (blocks_ok_ranges _ _ 0%nat 1%nat (hc_seg ci, hc_size ci) (hc_seg cj, hc_size cj) Hok); done.
Qed.

(** ** Resources of a region *)

Definition acquired (ev : list pool_event) : list resource :=
  omap (fun e => match e with Acquire r => Some r | Release _ => None end) ev.
Definition released (ev : list pool_event) : list resource :=
  omap (fun e => match e with Release r => Some r | Acquire _ => None end) ev.

Lemma acquired_app ev ev' : acquired (ev ++ ev') = acquired ev ++ acquired ev'.
Proof. apply omap_app. Qed.

Lemma released_app ev ev' : released (ev ++ ev') = released ev ++ released ev'.
Proof. apply omap_app. Qed.

Lemma acquired_heap ev : acquired (heap_events ev) = map RBuddyHeap (allocs ev).
Proof. induction ev as [|[] ev IH]; cbn; [done|f_equal; apply IH|apply IH]. Qed.

Lemma released_heap ev : released (heap_events ev) = map RBuddyHeap (frees ev).
Proof. induction ev as [|[] ev IH]; cbn; [done|apply IH|f_equal; apply IH]. Qed.

Lemma mr_create_resources t M env :
  match dr_icm_pool_mr_create t M env with
  | (ev, None) => released ev ≡ₚ acquired ev
  | (ev, Some mr) => released ev = [] /\ released (dr_icm_pool_mr_destroy mr) ≡ₚ acquired ev /\
      acquired (dr_icm_pool_mr_destroy mr) = []
  end.
Proof.
  unfold dr_icm_pool_mr_create. destruct (ce_icm_mr env); [|constructor]. cbn [negb].
  destruct (ce_dm env) as [?|[addr obj]]; [cbn; solve_Permutation|].
  destruct (ce_mkey env) as [?|k].
  - cbn. solve_Permutation.
  - destruct (has_flag addr _); cbn; [solve_Permutation|]. split_and!; [done|solve_Permutation|done].
Qed.

Lemma ste_cache_resources env :
  match dr_icm_buddy_init_ste_cache env with
  | (ev, false) => released ev ≡ₚ acquired ev
  | (ev, true) => released ev = [] /\ released dr_icm_buddy_cleanup_ste_cache ≡ₚ acquired ev
  end.
Proof.
  unfold dr_icm_buddy_init_ste_cache.
  destruct (ce_ste_arr env), (ce_hw_ste_arr env), (ce_miss_list env); cbn [negb]; cbn;
    try (split; [done|]); solve_Permutation.
Qed.

Lemma create_resources env p :
  max_log_ok (max_log_chunk_sz p) ->
  exists ev ok p', dr_icm_buddy_create env p = Some (ev, ok, p') /\
    if ok : bool then
      released ev = [] /\ exists pb, buddy_mem_list p' = pb :: buddy_mem_list p /\
        forall b' held, sa_rel (max_log_chunk_sz p) b' held ->
          released (dr_icm_buddy_destroy (icm_type p) (set_mem b' pb)) ≡ₚ acquired ev
    else p' = p /\ released ev ≡ₚ acquired ev.
Proof.
  intros HM. unfold dr_icm_buddy_create.
  pose proof (mr_create_resources (icm_type p) (max_log_chunk_sz p) env) as Hmr.
  destruct (dr_icm_pool_mr_create _ _ env) as [ev [mr|]]; [|by exists ev, false, p].
  destruct Hmr as (Ern & Erp & Ean). destruct (ce_buddy env); cbn [negb].
  2: { eexists _, false, p. split_and!; [done|done|].
       rewrite released_app, acquired_app, Ern, Ean, app_nil_r. done. }
  pose proof (sa_init_law (max_log_chunk_sz p) (ce_init env) (max_log_30 _ HM)) as [_ Hi].
  destruct (sa_init (max_log_chunk_sz p) (ce_init env)) as [hev [e|ob]].
  { destruct Hi as [_ Hi]. eexists _, false, p. split_and!; [done|done|].
    rewrite !released_app, !acquired_app, released_heap, acquired_heap, Ern, Ean, Hi, Erp.
    cbn. solve_Permutation. }
  destruct Hi as (b & -> & Hrel & Efr & Ecl & Eca). cbn [mbind option_bind].
  pose proof (ste_cache_resources env) as Hste.
  destruct (is_ste (icm_type p)) eqn:Et.
  - destruct (dr_icm_buddy_init_ste_cache env) as [cev []]; cbn [fst snd].
    + destruct Hste as [Ec1 Ec2]. eexists _, true, _. split; [done|].
      rewrite !released_app, !acquired_app, released_heap, acquired_heap, Ern, Efr, Ec1.
      split; [done|]. eexists. split; [done|]. intros b' held Hb'.
      unfold dr_icm_buddy_destroy. rewrite Et. cbn [set_mem ib_mem ib_mr].
      rewrite (sa_cleanup_law _ _ _ _ _ Hb' Hrel).
      rewrite !released_app, released_heap, Ecl, Erp, Ec2. cbn. solve_Permutation.
    + eexists _, false, p. split_and!; [done|done|].
      rewrite !released_app, !acquired_app, !released_heap, !acquired_heap, Ern, Efr, Ecl, Eca, Ean, Erp, Hste.
      cbn. rewrite ?app_nil_r. solve_Permutation.
  - eexists _, true, _. split; [done|].
    rewrite !released_app, !acquired_app, released_heap, acquired_heap, Ern, Efr.
    split; [done|]. eexists. split; [done|]. intros b' held Hb'.
    unfold dr_icm_buddy_destroy. rewrite Et. cbn [set_mem ib_mem ib_mr].
    rewrite (sa_cleanup_law _ _ _ _ _ Hb' Hrel).
    rewrite !released_app, released_heap, Ecl, Erp. cbn. solve_Permutation.
Qed.

(** *** The books of a pool *)

Section books.
Context (M : Z) (b0 : B) (Hb0 : sa_rel M b0 []) (Hnew : allocs (sa_cleanup b0) = []).

(** What the regions of a list hold. *)
Definition region (t : mlx5dr_icm_type) (mr : mlx5dr_icm_mr) : list resource :=
  released (dr_icm_buddy_destroy t {| ib_id := 0; ib_mem := b0; ib_mr := mr; used_memory := 0 |}).
Definition regions (t : mlx5dr_icm_type) (l : list icm_buddy) : list resource :=
  concat (map (fun pb => region t (ib_mr pb)) l).
Definition manages (l : list icm_buddy) : Prop := Forall (fun pb => exists held, sa_rel M (ib_mem pb) held) l.

Lemma destroy_region t pb held : sa_rel M (ib_mem pb) held -> released (dr_icm_buddy_destroy t pb) = region t (ib_mr pb).
Proof. intros H. unfold region, dr_icm_buddy_destroy. cbn [ib_mem ib_mr]. by rewrite (sa_cleanup_law _ _ _ _ _ H Hb0). Qed.

Lemma regions_mr t l l' : map ib_mr l' = map ib_mr l -> regions t l' = regions t l.
Proof.
  intros E. unfold regions. rewrite <- !(map_map ib_mr (region t)). by rewrite E.
Qed.

Lemma update_mr id f l l' :
  (forall pb pb', f pb = Some pb' -> ib_mr pb' = ib_mr pb) -> update_buddy id f l = Some l' -> map ib_mr l' = map ib_mr l.
Proof.
  intros Hf. revert l'. induction l as [|pb r IH]; intros l'; cbn [update_buddy]; [done|]. case_bool_decide.
  - destruct (f pb) as [pb'|] eqn:E; [|done]. intros [= <-]. cbn. by rewrite (Hf _ _ E).
  - destruct (update_buddy id f r) as [r'|]; [|done]. intros [= <-]. cbn. by rewrite (IH r').
Qed.

Lemma scan_mr size new l res l' : scan_buddies size new l = Some (res, l') -> map ib_mr l' = map ib_mr l.
Proof.
  revert res l'. induction l as [|pb r IH]; intros res l'; cbn [scan_buddies]; [by intros [= _ <-]|].
  destruct (sa_alloc size (ib_mem pb)) as [[[e|seg] b']|]; cbn [mbind option_bind]; [|by intros [= _ <-]|done].
  destruct new; [by intros [= _ <-]|]. destruct (scan_buddies size false r) as [[res' r']|] eqn:E; [|done].
  intros [= _ <-]. cbn. by rewrite (IH _ _ eq_refl).
Qed.

Lemma create_books env p ev ok p' :
  max_log_ok M -> max_log_chunk_sz p = M -> dr_icm_buddy_create env p = Some (ev, ok, p') ->
  acquired ev ++ regions (icm_type p) (buddy_mem_list p) ≡ₚ released ev ++ regions (icm_type p) (buddy_mem_list p') /\
  icm_type p' = icm_type p /\ max_log_chunk_sz p' = M.
Proof.
  intros HM EM E. assert (icm_type p' = icm_type p /\ max_log_chunk_sz p' = max_log_chunk_sz p) as [Et EM'].
  { revert E. unfold dr_icm_buddy_create. destruct (dr_icm_pool_mr_create _ _ env) as [ev1 [mr|]]; [|by intros [= _ _ <-]].
    destruct (ce_buddy env); cbn [negb]; [|by intros [= _ _ <-]]. destruct (sa_init _ _) as [hev [e|[b|]]]; [by intros [= _ _ <-]| |done].
    cbn [mbind option_bind]. destruct (if is_ste (icm_type p) then _ else _) as [cev []]; by intros [= _ _ <-]. }
  split; [|split; congruence].
  destruct (create_resources env p) as (ev1 & ok1 & p1 & E1 & H1); [by rewrite EM|]. rewrite E in E1. injection E1 as <- <- <-.
  destruct ok; [|destruct H1 as [-> ->]; done]. destruct H1 as (-> & pb & -> & Hr). rewrite EM in Hr.
  cbn [app]. unfold regions. cbn [map concat]. rewrite <- (Hr b0 [] Hb0), (destroy_region _ (set_mem b0 pb) [] Hb0). done.
Qed.

Lemma get_mem_books fuel envs i size new p ev r p' :
  max_log_ok M -> max_log_chunk_sz p = M -> get_mem_loop fuel envs i size new p = Some (ev, r, p') ->
  acquired ev ++ regions (icm_type p) (buddy_mem_list p) ≡ₚ released ev ++ regions (icm_type p) (buddy_mem_list p') /\
  icm_type p' = icm_type p /\ max_log_chunk_sz p' = M.
Proof.
  intros HM. revert i new p ev r p'. induction fuel as [|fuel IH]; intros i new p ev r p' EM; cbn [get_mem_loop]; [done|].
  destruct (scan_buddies size new (buddy_mem_list p)) as [[res l]|] eqn:Es; [|done]. cbn [mbind option_bind].
  pose proof (regions_mr (icm_type p) _ _ (scan_mr _ _ _ _ _ Es)) as El.
  destruct res as [id seg|e|]; [intros [= <- _ <-]; by rewrite <- El| intros [= <- _ <-]; by rewrite <- El|].
  destruct (dr_icm_buddy_create (envs i) (set_buddies l p)) as [[[ev1 ok] p2]|] eqn:Ec; [|done]. cbn [mbind option_bind].
  destruct (create_books _ (set_buddies l p) _ _ _ HM EM Ec) as (B1 & T1 & M1). cbn [set_buddies icm_type buddy_mem_list] in B1, T1. rewrite El in B1.
  destruct ok; [|by intros [= <- _ <-]].
  destruct (get_mem_loop fuel envs (S i) size true p2) as [[[ev2 r2] p3]|] eqn:Eg; [|done]. cbn [mbind option_bind]. intros [= <- _ <-].
  destruct (IH _ _ _ _ _ _ M1 Eg) as (B2 & T2 & M2). rewrite T1 in *. split; [|done].
  rewrite acquired_app, released_app, <- !app_assoc. rewrite (Permutation_app_swap_app (acquired ev1)), B1, (Permutation_app_swap_app (acquired ev2)), B2. done.
Qed.

Lemma pool_alloc_books envs ok size p ev r p' :
  max_log_ok M -> max_log_chunk_sz p = M -> mlx5dr_icm_alloc_chunk envs ok size p = Some (ev, r, p') ->
  acquired ev ++ regions (icm_type p) (buddy_mem_list p) ≡ₚ released ev ++ regions (icm_type p) (buddy_mem_list p').
Proof.
  intros HM EM. unfold mlx5dr_icm_alloc_chunk, dr_icm_handle_buddies_get_mem. destruct (_ <? _); [by intros [= <- _ <-]|].
  destruct (get_mem_loop 2 envs 0 size false p) as [[[ev1 r1] p1]|] eqn:Eg; [|done]. cbn [mbind option_bind].
  destruct (get_mem_books _ _ _ _ _ _ _ _ _ HM EM Eg) as (B1 & T1 & M1). destruct r1 as [e|[id seg]]; [by intros [= <- _ <-]|].
  assert (forall f l, (forall pb pb', f pb = Some pb' -> ib_mr pb' = ib_mr pb) -> update_buddy id f (buddy_mem_list p1) = Some l ->
    acquired ev1 ++ regions (icm_type p) (buddy_mem_list p) ≡ₚ released ev1 ++ regions (icm_type p) l) as Hup.
  { intros f l Hf Eu. by rewrite (regions_mr _ _ _ (update_mr _ _ _ _ Hf Eu)). }
  destruct ok.
  - unfold dr_icm_chunk_init. match goal with |- context [if is_ste ?t then ?x else ?y] => destruct (if is_ste t then x else y) as [idx|] end; [|done]. cbn [mbind option_bind].
    destruct (update_buddy id _ _) as [l|] eqn:Eu; [|done]. cbn [mbind option_bind]. intros [= <- _ <-].
    apply (Hup _ l) in Eu; [done|]. by intros pb pb' [= <-].
  - destruct (update_buddy id _ _) as [l|] eqn:Eu; [|done]. cbn [mbind option_bind]. intros [= <- _ <-].
    apply (Hup _ l) in Eu; [done|]. intros pb pb'. by destruct (sa_free seg size (ib_mem pb)); [intros [= <-]|].
Qed.

Lemma destroy_acquires t pb held : sa_rel M (ib_mem pb) held -> acquired (dr_icm_buddy_destroy t pb) = [].
Proof.
  intros H. unfold dr_icm_buddy_destroy. rewrite !acquired_app, acquired_heap, (sa_cleanup_law _ _ _ _ _ H Hb0), Hnew.
  by destruct (is_ste t).
Qed.

Lemma destroy_books t doomed l ev n l' :
  manages l -> destroy_buddies t doomed l = (ev, n, l') -> acquired ev = [] /\ regions t l ≡ₚ released ev ++ regions t l'.
Proof.
  intros Hl. revert ev n l'. induction Hl as [|pb l [held Hpb] Hl IH]; intros ev n l'; cbn [destroy_buddies]; [by intros [= <- <- <-]|].
  destruct (destroy_buddies t doomed l) as [[ev1 n1] l1]. destruct (IH _ _ _ eq_refl) as [IH1 IH2].
  assert (regions t (pb :: l) = region t (ib_mr pb) ++ regions t l) as -> by done. 
  pose proof (destroy_acquires t _ _ Hpb) as D1. pose proof (destroy_region t _ _ Hpb) as D2. revert D1 D2. generalize (dr_icm_buddy_destroy t pb) as d.
  intros d D1 D2. destruct (doomed pb); intros [= <- _ <-].
  - rewrite acquired_app, released_app, D1, D2, IH1. split; [done|]. by rewrite <- app_assoc, <- IH2.
  - split; [done|]. assert (regions t (pb :: l1) = region t (ib_mr pb) ++ regions t l1) as -> by done.
    rewrite IH2. apply Permutation_app_swap_app.
Qed.

Lemma inv_manages p live hots : pool_inv p live hots -> max_log_chunk_sz p = M -> manages (buddy_mem_list p).
Proof. intros H EM. eapply Forall_impl; [apply (pi_buddies _ _ _ H)|]. intros pb [Hr _]. rewrite EM in Hr. eauto. Qed.

Lemma run_destroy_books doomed p live hots ev p' :
  pool_inv p live hots -> max_log_chunk_sz p = M -> run_destroy doomed p = (ev, p') ->
  acquired ev = [] /\ regions (icm_type p) (buddy_mem_list p) ≡ₚ released ev ++ regions (icm_type p) (buddy_mem_list p').
Proof.
  intros H EM. unfold run_destroy. destruct (destroy_buddies _ doomed _) as [[ev1 n] l] eqn:E. intros [= <- <-].
  eapply destroy_books; [by eapply inv_manages|exact E].
Qed.

Lemma clear_books p p' : dr_icm_pool_clear_hot_chunks_arr p = Some p' ->
  regions (icm_type p) (buddy_mem_list p') = regions (icm_type p) (buddy_mem_list p).
Proof.
  unfold dr_icm_pool_clear_hot_chunks_arr. destruct (release_hots _ _ _ _) as [l|] eqn:E; [|done]. cbn [mbind option_bind]. intros [= <-].
  cbn [set_hot set_buddies buddy_mem_list]. apply regions_mr. revert E. generalize (Z.to_nat (hot_chunks_num p)) as n. generalize (hot_chunks_arr p) as arr.
  generalize (buddy_mem_list p) as l0. intros l0 arr n. revert arr l0. induction n as [|n IH]; intros arr l0; cbn [release_hots]; [by intros [= <-]|].
  destruct arr as [|[hc|] arr]; [done| |done]. destruct (release_hot (icm_type p) hc l0) as [l1|] eqn:E1; [|done]. cbn [mbind option_bind].
  intros E. rewrite (IH _ _ E). unfold release_hot in E1. eapply update_mr; [|exact E1]. cbv beta.
  intros pb pb'. by destruct (sa_free _ _ _); [intros [= <-]|].
Qed.

Lemma free_books sync c p live hots ev p' :
  pool_inv p (chunk_hot c :: live) hots -> (length hots < length (hot_chunks_arr p))%nat -> max_log_chunk_sz p = M ->
  mlx5dr_icm_free_chunk sync c p = Some (ev, p') ->
  acquired ev ++ regions (icm_type p) (buddy_mem_list p) ≡ₚ released ev ++ regions (icm_type p) (buddy_mem_list p').
Proof.
  intros H Hlen EM. pose proof (push_hot_inv p live hots c H Hlen) as H1. unfold mlx5dr_icm_free_chunk.
  destruct (update_buddy _ _ _); [|done]. cbn [mbind option_bind]. case_bool_decide; [|done]. set (p1 := set_hot _ _ _ p) in *.
  destruct (dr_icm_pool_is_sync_required p1); [|by intros [= <- <-]]. unfold dr_icm_pool_sync_all_buddy_pools.
  destruct (truthy sync); [by intros [= <- <-]|]. destruct (clear_hot_spec _ _ _ H1) as (p2 & E2 & H2 & T2 & M2 & _).
  rewrite E2. cbn [mbind option_bind]. destruct (run_destroy _ p2) as [ev2 p3] eqn:E3. intros [= <- <-].
  destruct (run_destroy_books _ _ _ _ _ _ H2 ltac:(by rewrite M2) E3) as [Ea Eb]. pose proof (clear_books _ _ E2) as Ec.
  rewrite T2 in Eb. change (icm_type p1) with (icm_type p) in *. change (buddy_mem_list p1) with (buddy_mem_list p) in *. by rewrite Ea, <- Ec.
Qed.

Lemma run_books os p live hots :
  max_log_ok M -> pool_inv p (map chunk_hot live) hots -> pool_synced p -> Forall pool_op_ok os -> max_log_chunk_sz p = M ->
  exists p' live', pool_run os (p, live) = Some (p', live') /\
    acquired (pool_events os (p, live)) ++ regions (icm_type p) (buddy_mem_list p) ≡ₚ
    released (pool_events os (p, live)) ++ regions (icm_type p) (buddy_mem_list p').
Proof.
  intros HM H Hs Hos. revert p live hots H Hs. induction Hos as [|o os Ho Hos IH]; intros p live hots H Hs EM; cbn [pool_run pool_events].
  { by exists p, live. }
  destruct (pool_step_spec o p live hots H Hs Ho) as (p1 & l1 & h1 & E1 & H1 & Hs1 & Et & EM1). rewrite E1. cbn [mbind option_bind].
  destruct (IH p1 l1 h1 H1 Hs1 ltac:(congruence)) as (p' & live' & E & Bk). exists p', live'. split; [exact E|].
  unfold pool_step in E1. destruct (pool_step_ev o (p, live)) as [[ev st]|] eqn:Es; [|done]. injection E1 as ->.
  assert (acquired ev ++ regions (icm_type p) (buddy_mem_list p) ≡ₚ released ev ++ regions (icm_type p) (buddy_mem_list p1)) as B1.
  { destruct o as [envs ok size|i sync]; cbn [pool_step_ev pool_op_ok] in *.
    - destruct (mlx5dr_icm_alloc_chunk envs ok size p) as [[[ev' r] p'']|] eqn:Ea; [|done]. injection Es as <- <- _. by eapply pool_alloc_books.
    - destruct (live !! i) as [c|] eqn:Hi; [|by injection Es as <- <- _].
      apply (pool_inv_perm _ _ _ _ (live_delete _ _ _ Hi)) in H. destruct (mlx5dr_icm_free_chunk sync c p) as [[ev' p'']|] eqn:Ef; [|done].
      injection Es as <- <- _. eapply free_books; [exact H|by eapply hot_slot_free|done|exact Ef]. }
  rewrite acquired_app, released_app, <- !app_assoc. rewrite Et in Bk.
  rewrite (Permutation_app_swap_app (acquired ev)), B1, (Permutation_app_swap_app _ (released ev)), Bk. done.
Qed.

Lemma teardown_books p live hots :
  pool_inv p live hots -> max_log_chunk_sz p = M ->
  exists ev p', mlx5dr_icm_pool_destroy p = Some (ev, p') /\ buddy_mem_list p' = [] /\ acquired ev = [] /\
    released ev ≡ₚ regions (icm_type p) (buddy_mem_list p).
Proof.
  intros H EM. unfold mlx5dr_icm_pool_destroy. destruct (clear_hot_spec _ _ _ H) as (p1 & E1 & H1 & T1 & M1 & _). rewrite E1. cbn [mbind option_bind].
  destruct (run_destroy _ p1) as [ev p2] eqn:E2. exists ev, p2. split; [done|].
  destruct (run_destroy_books _ _ _ _ _ _ H1 ltac:(by rewrite M1) E2) as [Ea Eb]. rewrite T1, (clear_books _ _ E1) in Eb.
  assert (buddy_mem_list p2 = []) as E0.
  { unfold run_destroy in E2. destruct (destroy_buddies_spec (icm_type p1) (fun _ => true) (buddy_mem_list p1)) as (ev' & n & Ed). rewrite Ed in E2. injection E2 as _ <-.
    cbn [buddy_mem_list]. clear. induction (buddy_mem_list p1); [done|]. by rewrite filter_cons_False. }
  split; [done|]. split; [done|]. rewrite E0 in Eb. cbn in Eb. by rewrite app_nil_r in Eb.
Qed.

End books.

(** Services that all succeed, with a device address aligned as the pool needs. *)
Definition env_good (t : mlx5dr_icm_type) (M : Z) (env : create_env) : Prop :=
  ce_icm_mr env = true /\
  (exists addr obj, ce_dm env = inr (addr, obj) /\
     has_flag addr (Z.shiftl 1 (log_align_base t (u64 (mlx5dr_icm_pool_chunk_size_to_byte M t))) - 1) = false) /\
  (exists k, ce_mkey env = inr k) /\ ce_buddy env = true /\ (forall i, ce_init env i = true) /\
  ce_ste_arr env = true /\ ce_hw_ste_arr env = true /\ ce_miss_list env = true.

Lemma create_good env p :
  max_log_ok (max_log_chunk_sz p) -> env_good (icm_type p) (max_log_chunk_sz p) env ->
  exists ev p', dr_icm_buddy_create env p = Some (ev, true, p').
Proof.
  intros HM (E1 & (addr & obj & E2 & E2') & (k & E3) & E4 & E5 & E6 & E7 & E8).
  unfold dr_icm_buddy_create, dr_icm_pool_mr_create, dr_icm_buddy_init_ste_cache.
  rewrite E1, E2, E3, E4, E6, E7, E8. cbn [negb]. rewrite E2'.
  destruct (sa_init_succeeds _ (ce_init env) (max_log_30 _ HM) E5) as (hev & b & ->).
  cbn [mbind option_bind]. destruct (is_ste (icm_type p)); by eexists _, _.
Qed.

(** ** Properties *)

(** C17. From a freshly created pool, any sequence of chunk allocations and
    releases in which the device synchronisations succeed runs without undefined
    behaviour, whatever the other services answer: no write outside the array of
    hot chunks or the STE caches, no use of a destroyed region, every search for
    memory ends, and the counters and allocators describe exactly the chunks in
    use and the hot ones. Tearing the pool down then succeeds, leaves no region,
    and everything the run acquired for its regions (device memory, keys, allocators,
    caches) has been released, by the run or by the teardown, exactly once. *)
Theorem icm_pool_run_safe max_log_sz t p os
  (Hlim : limits_ok max_log_sz)
  (Hp : mlx5dr_icm_pool_create max_log_sz t true true = Some p)
  (Hos : Forall pool_op_ok os) :
  exists p' live hots, pool_run os (p, []) = Some (p', live) /\
    pool_inv p' (map chunk_hot live) hots /\ pool_synced p' /\
    exists ev p2, mlx5dr_icm_pool_destroy p' = Some (ev, p2) /\ buddy_mem_list p2 = [] /\
      released (pool_events os (p, []) ++ ev) ≡ₚ acquired (pool_events os (p, []) ++ ev).
Proof.
  destruct (create_pool_spec _ _ _ Hlim Hp) as [H Hs]. pose proof (pi_max _ _ _ H) as HM.
  destruct (pool_run_spec os p [] [] H Hs Hos) as (p' & live & hots & E & H' & Hs' & Et & EM).
  exists p', live, hots. split; [done|]. split; [done|]. split; [done|].
  pose proof (sa_init_law _ (fun _ => true) (max_log_30 _ HM)) as [_ Hi].
  destruct (sa_init_succeeds _ (fun _ => true) (max_log_30 _ HM) ltac:(done)) as (hev & b0 & Eb). rewrite Eb in Hi.
  destruct Hi as (b & [= <-] & Hb0 & _ & _ & Hnew).
  destruct (run_books _ b0 Hb0 Hnew os p [] [] HM H Hs Hos eq_refl) as (p1 & live1 & E1 & Bk). rewrite E in E1. injection E1 as <- <-.
  destruct (teardown_books _ b0 Hb0 Hnew p' _ _ H' EM) as (ev & p2 & Ed & El & Ea & Er). exists ev, p2. split; [done|]. split; [done|].
  assert (buddy_mem_list p = []) as E0.
  { unfold mlx5dr_icm_pool_create in Hp. cbn [negb] in Hp. by injection Hp as <-. }
  rewrite released_app, acquired_app, Ea, Er, Et, <- Bk, E0. done.
Qed.

(** Two chunks in use of one memory region occupy disjoint ranges of device
    addresses, both inside the region. *)
Theorem icm_chunks_disjoint p live hots i j ci cj pb
  (H : pool_inv p live hots) (Hi : live !! i = Some ci) (Hj : live !! j = Some cj)
  (Hne : i <> j) (Ei : hc_buddy ci = ib_id pb) (Ej : hc_buddy cj = ib_id pb)
  (Hpb : pb ∈ buddy_mem_list p)
  (Ha : 0 <= icm_start_addr (ib_mr pb) /\
        icm_start_addr (ib_mr pb) + csize (icm_type p) (max_log_chunk_sz p) <= 2 ^ 64) :
  icm_start_addr (ib_mr pb) <= chunk_icm_addr (icm_type p) pb ci /\
  chunk_icm_addr (icm_type p) pb ci + csize (icm_type p) (hc_size ci) <=
    icm_start_addr (ib_mr pb) + csize (icm_type p) (max_log_chunk_sz p) /\
  (chunk_icm_addr (icm_type p) pb ci + csize (icm_type p) (hc_size ci) <=
     chunk_icm_addr (icm_type p) pb cj \/
   chunk_icm_addr (icm_type p) pb cj + csize (icm_type p) (hc_size cj) <=
     chunk_icm_addr (icm_type p) pb ci).
Proof.
  destruct (live_disjoint p live hots i j ci cj pb H Hi Hj Hne Ei Ej Hpb) as [Hri Hd].
  destruct (live_disjoint p live hots j i cj ci pb H Hj Hi (not_eq_sym Hne) Ej Ei Hpb) as [Hrj _].
  pose proof (pi_max _ _ _ H) as HM. pose proof (pow2_20 _ HM).
  pose proof (entry_size_range (icm_type p)) as He.
  pose proof (pi_sizes _ _ _ H) as [Hsz _]%Forall_app.
  pose proof (Forall_lookup_1 _ _ _ _ Hsz Hi) as Hszi.
  pose proof (Forall_lookup_1 _ _ _ _ Hsz Hj) as Hszj. cbv beta in Hszi, Hszj.
  assert (0 < 2 ^ hc_size ci /\ 0 < 2 ^ hc_size cj) as [] by (split; apply Z.pow_pos_nonneg; lia).
  assert (hc_seg ci <= 2 ^ 20 /\ hc_seg cj <= 2 ^ 20) as [] by lia.
  unfold chunk_icm_addr, csize in *.
  set (e := mlx5dr_icm_pool_dm_type_to_entry_size (icm_type p)) in *.
  destruct He as [He|He]; rewrite He in *;
    rewrite (u32_id (_ * hc_seg ci)), (u32_id (_ * hc_seg cj)) by lia;
    rewrite (u64_id (_ + _ * hc_seg ci)), (u64_id (_ + _ * hc_seg cj)) by lia; lia.
Qed.

(** Liveness: an allocation of a size the pool supports returns a chunk as
    soon as the chunk object can be allocated and the services needed for one more
    memory region succeed: the search never gives up in a pool that could grow,
    and it makes at most two rounds. *)
Theorem icm_alloc_chunk_succeeds envs p live hots size
  (H : pool_inv p live hots) (Hs : 0 <= size <= max_log_chunk_sz p)
  (Henv : env_good (icm_type p) (max_log_chunk_sz p) (envs 0%nat)) :
  exists ev c p', mlx5dr_icm_alloc_chunk envs true size p = Some (ev, Some c, p') /\
    hc_size (chunk_hot c) = size /\ pool_inv p' (chunk_hot c :: live) hots.
Proof.
  destruct (alloc_chunk_spec envs true p live hots size H) as (ev & r & p' & E & _ & Hr); [lia|].
  destruct r as [c|]; [destruct Hr; by exists ev, c, p'|].
  destruct Hr as [_ [Hlt|[Hf|[(ev' & Hc) _]]]]; [lia|done|].
  destruct (create_good (envs 0%nat) p (pi_max _ _ _ H) Henv) as (? & ? & Hc'). congruence.
Qed.

(** Creating a memory region leaks nothing: whichever service fails, all that
    was acquired is released and the pool is unchanged; when it succeeds, the
    destruction of the region, at whatever state its allocator is then, releases
    exactly what the creation acquired. *)
Theorem dr_icm_buddy_create_no_leak env p (HM : max_log_ok (max_log_chunk_sz p)) :
  exists ev ok p', dr_icm_buddy_create env p = Some (ev, ok, p') /\
    if ok : bool then
      released ev = [] /\ exists pb, buddy_mem_list p' = pb :: buddy_mem_list p /\
        forall b' held, sa_rel (max_log_chunk_sz p) b' held ->
          released (dr_icm_buddy_destroy (icm_type p) (set_mem b' pb)) ≡ₚ acquired ev
    else p' = p /\ released ev ≡ₚ acquired ev.
Proof. by apply create_resources. Qed.


End Pool.

(** ** The pool over the buddy allocator *)

Definition limits_small (t : mlx5dr_icm_type) : Z :=
  match t with DR_ICM_TYPE_STE => 3 | _ => 2 end.

Definition env_all : create_env :=
  {| ce_icm_mr := true; ce_dm := inr (4096, 7); ce_mkey := inr 99; ce_buddy := true;
     ce_init := fun _ => true; ce_ste_arr := true; ce_hw_ste_arr := true;
     ce_miss_list := true |}.

Abbreviation buddy_pool := (mlx5dr_icm_pool (B := mlx5dr_icm_buddy_mem)).

Definition empty_pool (t : mlx5dr_icm_type) : buddy_pool :=
  {| icm_type := t; max_log_chunk_sz := 0; buddy_mem_list := []; hot_chunks_arr := [];
     hot_chunks_num := 0; hot_memory_size := 0; th := 0; num_buddies := 0; next_id := 0 |}.

Definition small_pool (t : mlx5dr_icm_type) : buddy_pool :=
  default (empty_pool t) (mlx5dr_icm_pool_create limits_small t true true).

Lemma small_pool_created t : mlx5dr_icm_pool_create limits_small t true true = Some (small_pool t).
Proof. by destruct t. Qed.

Lemma limits_small_ok : limits_ok limits_small.
Proof. unfold limits_ok, limits_small, DR_CHUNK_SIZE_1024K, DR_CHUNK_SIZE_4K. lia. Qed.

Lemma small_pool_inv t : pool_inv (small_pool t) [] [].
Proof. exact (proj1 (create_pool_spec _ t _ limits_small_ok (small_pool_created t))). Qed.

Definition demo_ops : list pool_op :=
  [PAlloc (fun _ => env_all) true 1; PAlloc (fun _ => env_all) true 0; PFree 1 0;
   PAlloc (fun _ => env_all) true 3; PFree 0 0; PFree 0 0].

Lemma icm_pool_run_safe_witness :
  exists p' live hots, pool_run demo_ops (small_pool DR_ICM_TYPE_STE, []) = Some (p', live) /\
    pool_inv p' (map chunk_hot live) hots /\ pool_synced p' /\
    exists ev p2, mlx5dr_icm_pool_destroy p' = Some (ev, p2) /\ buddy_mem_list p2 = [] /\
      released (pool_events demo_ops (small_pool DR_ICM_TYPE_STE, []) ++ ev) ≡ₚ
      acquired (pool_events demo_ops (small_pool DR_ICM_TYPE_STE, []) ++ ev).
Proof.
  apply (icm_pool_run_safe limits_small DR_ICM_TYPE_STE);
    [exact limits_small_ok|apply small_pool_created|repeat constructor; done].
Defined.

Lemma icm_alloc_chunk_succeeds_witness :
  exists ev c p',
    mlx5dr_icm_alloc_chunk (fun _ => env_all) true 1 (small_pool DR_ICM_TYPE_STE)
      = Some (ev, Some c, p') /\
    hc_size (chunk_hot c) = 1 /\ pool_inv p' [chunk_hot c] [].
Proof.
  apply (icm_alloc_chunk_succeeds (fun _ => env_all) (small_pool DR_ICM_TYPE_STE) [] [] 1).
  - apply small_pool_inv.
  - vm_compute. split; discriminate.
  - split_and!; [reflexivity|exists 4096, 7; split; vm_compute; reflexivity|exists 99; reflexivity
                |reflexivity|intros i; reflexivity|reflexivity..].
Defined.

Lemma dr_icm_buddy_create_no_leak_witness :
  exists ev ok p',
    dr_icm_buddy_create env_all (small_pool DR_ICM_TYPE_STE) = Some (ev, ok, p') /\
    if ok : bool then
      released ev = [] /\
      exists pb, buddy_mem_list p' = pb :: buddy_mem_list (small_pool DR_ICM_TYPE_STE) /\
        forall b' held, sa_rel (max_log_chunk_sz (small_pool DR_ICM_TYPE_STE)) b' held ->
          released (dr_icm_buddy_destroy (icm_type (small_pool DR_ICM_TYPE_STE)) (set_mem b' pb))
            ≡ₚ acquired ev
    else p' = small_pool DR_ICM_TYPE_STE /\ released ev ≡ₚ acquired ev.
Proof.
  apply (dr_icm_buddy_create_no_leak env_all (small_pool DR_ICM_TYPE_STE)).
  vm_compute. split; discriminate.
Defined.

(** Two chunks allocated from one region. *)
Definition two_chunks : buddy_pool * list mlx5dr_icm_chunk :=
  default (empty_pool DR_ICM_TYPE_STE, [])
    (pool_run [PAlloc (fun _ => env_all) true 1; PAlloc (fun _ => env_all) true 0]
       (small_pool DR_ICM_TYPE_STE, [])).

Definition chunk_a : mlx5dr_icm_hot_chunk := {| hc_buddy := 0; hc_seg := 2; hc_size := 0 |}.
Definition chunk_b : mlx5dr_icm_hot_chunk := {| hc_buddy := 0; hc_seg := 0; hc_size := 1 |}.

Lemma two_chunks_inv : exists hots, pool_inv two_chunks.1 [chunk_a; chunk_b] hots.
Proof.
  destruct (create_pool_spec limits_small DR_ICM_TYPE_STE _ limits_small_ok (small_pool_created _)) as [H Hs].
  destruct (pool_run_spec [PAlloc (fun _ => env_all) true 1; PAlloc (fun _ => env_all) true 0]
    _ [] [] H Hs) as (p' & live & hots & E & H' & _); [repeat constructor; done|].
  exists hots. unfold two_chunks. rewrite E. cbn [default fst].
  assert (map chunk_hot live = [chunk_a; chunk_b]) as <-; [|done].
  assert (live = two_chunks.2) as -> by (unfold two_chunks; rewrite E; done).
  vm_compute. reflexivity.
Qed.

Lemma icm_chunks_disjoint_witness :
  exists hots pb, pool_inv two_chunks.1 [chunk_a; chunk_b] hots /\ pb ∈ buddy_mem_list two_chunks.1 /\
  icm_start_addr (ib_mr pb) <= chunk_icm_addr (icm_type two_chunks.1) pb chunk_a /\
  chunk_icm_addr (icm_type two_chunks.1) pb chunk_a + csize (icm_type two_chunks.1) (hc_size chunk_a) <=
    icm_start_addr (ib_mr pb) + csize (icm_type two_chunks.1) (max_log_chunk_sz two_chunks.1) /\
  (chunk_icm_addr (icm_type two_chunks.1) pb chunk_a + csize (icm_type two_chunks.1) (hc_size chunk_a) <=
     chunk_icm_addr (icm_type two_chunks.1) pb chunk_b \/
   chunk_icm_addr (icm_type two_chunks.1) pb chunk_b + csize (icm_type two_chunks.1) (hc_size chunk_b) <=
     chunk_icm_addr (icm_type two_chunks.1) pb chunk_a).
Proof.
  destruct two_chunks_inv as [hots Hinv]. exists hots.
  destruct (buddy_mem_list two_chunks.1) as [|pb r] eqn:E; [vm_compute in E; discriminate|].
  exists pb. split; [exact Hinv|]. split; [left|].
  assert (ib_id pb = 0%nat /\ icm_start_addr (ib_mr pb) = 4096) as [Eid Ea].
  { assert (Some pb = head (buddy_mem_list two_chunks.1)) as Hh by (rewrite E; reflexivity).
    vm_compute in Hh. injection Hh as ->. split; reflexivity. }
  apply (icm_chunks_disjoint two_chunks.1 [chunk_a; chunk_b] hots 0 1 chunk_a chunk_b pb Hinv).
  - reflexivity.
  - reflexivity.
  - discriminate.
  - rewrite Eid. reflexivity.
  - rewrite Eid. reflexivity.
  - rewrite E. left.
  - rewrite Ea. vm_compute. split; discriminate.
Defined.

(** When the device refuses to synchronise, the array of hot chunks is not
    emptied and the error is not reported to the caller: after five releases of a
    pool of four-entry regions whose array has five slots, every synchronisation
    having failed, the array is full and the sixth release writes past its end. *)
Theorem hot_chunks_overflow_after_failed_sync :
  exists p c,
    pool_run (replicate 6 (PAlloc (fun _ => env_all) true 0) ++ replicate 5 (PFree 0 (err EIO)))
      (small_pool DR_ICM_TYPE_MODIFY_ACTION, []) = Some (p, [c]) /\
    hot_chunks_num p = Z.of_nat (length (hot_chunks_arr p)) /\
    pool_step (PFree 0 (err EIO)) (p, [c]) = None.
Proof.
  eexists _, _. split; [vm_compute; reflexivity|]. split; vm_compute; reflexivity.
Qed.
