(* ===== verification/RmppRecv.v ===== *)
(** * RMPP, receiving side (mad_rmpp.c)

    The reliable multi-packet protocol splits a long message into segments
    carried by one MAD each. This file models the receiving side: the list of
    transactions of an agent, the insertion of segments that arrive in any order
    and any number of times, the window and the acknowledgements, the completion,
    and the timers.

    A received buffer is the list of the fields of its MAD that the protocol
    uses. [cur_seg_buf], a pointer into the list of buffers, is its position in
    that list. The answers of the services (memory, address handles, posting)
    are the fields of [recv_env]. The locks make each handler atomic with respect
    to the others of the transaction; a handler is one step of the model. *)

From Stdlib Require Import ZArith Lia Sorted.
From stdpp Require Import base tactics numbers list option sorting.
From S2P Require Import Prelude.

Local Open Scope Z_scope.

(** ** Constants (ib_mad.h) *)

Definition IB_MGMT_RMPP_VERSION : Z := 1.
Definition IB_MGMT_RMPP_TYPE_DATA : Z := 1.
Definition IB_MGMT_RMPP_TYPE_ACK : Z := 2.
Definition IB_MGMT_RMPP_TYPE_STOP : Z := 3.
Definition IB_MGMT_RMPP_TYPE_ABORT : Z := 4.
Definition IB_MGMT_RMPP_FLAG_ACTIVE : Z := 1.
Definition IB_MGMT_RMPP_FLAG_FIRST : Z := 2.
Definition IB_MGMT_RMPP_FLAG_LAST : Z := 4.
Definition IB_MGMT_RMPP_STATUS_RESX : Z := 1.
Definition IB_MGMT_RMPP_STATUS_ABORT_MIN : Z := 118.
Definition IB_MGMT_RMPP_STATUS_T2L : Z := 118.
Definition IB_MGMT_RMPP_STATUS_BAD_SEG : Z := 120.
Definition IB_MGMT_RMPP_STATUS_BADT : Z := 121.
Definition IB_MGMT_RMPP_STATUS_W2S : Z := 122.
Definition IB_MGMT_RMPP_STATUS_S2B : Z := 123.
Definition IB_MGMT_RMPP_STATUS_BAD_STATUS : Z := 124.
Definition IB_MGMT_RMPP_STATUS_UNV : Z := 125.
Definition IB_MGMT_RMPP_STATUS_ABORT_MAX : Z := 127.
Definition IB_MGMT_METHOD_RESP : Z := 128.
Definition IB_MGMT_MAD_HDR : Z := 24.
Definition IB_MGMT_RMPP_HDR : Z := 36.
Definition IB_MGMT_VENDOR_HDR : Z := 40.
Definition IB_MGMT_SA_HDR : Z := 56.
Definition IB_MGMT_DEVICE_HDR : Z := 64.
Definition IB_MGMT_MAD_SIZE : Z := 256.
Definition IB_MGMT_RMPP_DATA : Z := 220.
Definition OPA_MGMT_MAD_SIZE : Z := 2048.
Definition OPA_MGMT_RMPP_DATA : Z := 2012.
Definition OPA_MGMT_BASE_VERSION : Z := 128.

(** [ib_get_mad_data_offset] (mad.c). *)
Definition ib_get_mad_data_offset (mgmt_class : Z) : Z :=
  if mgmt_class =? 3 then IB_MGMT_SA_HDR
  else if (mgmt_class =? 6) || (mgmt_class =? 16) || (mgmt_class =? 18)
  then IB_MGMT_DEVICE_HDR
  else if (48 <=? mgmt_class) && (mgmt_class <=? 79) then IB_MGMT_VENDOR_HDR
  else IB_MGMT_MAD_HDR.

(** ** MADs *)

(** The fields of a MAD and of its completion that RMPP reads or writes;
    [seg_num] and [paylen_newwin] are in host order. [m_grh] is the destination and
    the source GID of a global route header. For a MAD to be sent, [m_src_qp] and
    [m_slid] name the destination. *)
Record rmpp_mad := {
  m_tid : Z; m_mgmt_class : Z; m_class_version : Z; m_method : Z; m_base_version : Z;
  m_src_qp : Z; m_slid : Z;
  m_rmpp_version : Z; m_rmpp_type : Z; m_rtime_flags : Z; m_rmpp_status : Z;
  m_seg_num : Z; m_paylen_newwin : Z;
  m_data : list Z;
  m_attr_mod : Z; m_grh : option (list Z * list Z); m_path_bits : Z
}.

Definition ib_get_rmpp_flags (m : rmpp_mad) : Z := Z.land (m_rtime_flags m) 7.
Definition ib_set_rmpp_flags (rtime flags : Z) : Z :=
  Z.lor (Z.land rtime 248) (Z.land flags 7).

Definition get_last_flag (m : rmpp_mad) : bool :=
  has_flag (ib_get_rmpp_flags m) IB_MGMT_RMPP_FLAG_LAST.
Definition get_seg_num (m : rmpp_mad) : Z := s32 (m_seg_num m).

(** ** Transactions *)

Inductive rmpp_state := RMPP_STATE_ACTIVE | RMPP_STATE_TIMEOUT | RMPP_STATE_COMPLETE.

#[export] Instance rmpp_state_eq_dec : EqDecision rmpp_state.
Proof. solve_decision. Defined.

Record mad_rmpp_recv := {
  r_state : rmpp_state;
  r_refcount : Z;
  r_timeout_work : bool;
  r_cleanup_work : bool;
  r_list : list rmpp_mad;
  r_cur : nat;
  r_last_ack : Z;
  r_seg_num : Z;
  r_newwin : Z;
  r_repwin : Z;
  r_tid : Z; r_src_qp : Z; r_slid : Z; r_mgmt_class : Z; r_class_version : Z;
  r_method : Z; r_base_version : Z
}.

Record rmpp_agent := {
  a_recvs : list mad_rmpp_recv;
  a_max_active : Z;
  a_opa : bool
}.

Definition set_recvs (l : list mad_rmpp_recv) (a : rmpp_agent) : rmpp_agent :=
  {| a_recvs := l; a_max_active := a_max_active a; a_opa := a_opa a |}.

(** Replace the fields that change while segments arrive. *)
Definition upd (st : rmpp_state) (rc : Z) (tw cw : bool) (l : list rmpp_mad) (cur : nat)
    (la sn nw rw : Z) (r : mad_rmpp_recv) : mad_rmpp_recv :=
  {| r_state := st; r_refcount := rc; r_timeout_work := tw; r_cleanup_work := cw;
     r_list := l; r_cur := cur; r_last_ack := la; r_seg_num := sn; r_newwin := nw;
     r_repwin := rw; r_tid := r_tid r; r_src_qp := r_src_qp r; r_slid := r_slid r;
     r_mgmt_class := r_mgmt_class r; r_class_version := r_class_version r;
     r_method := r_method r; r_base_version := r_base_version r |}.

Definition set_last_ack (v : Z) (r : mad_rmpp_recv) : mad_rmpp_recv :=
  upd (r_state r) (r_refcount r) (r_timeout_work r) (r_cleanup_work r) (r_list r) (r_cur r)
      v (r_seg_num r) (r_newwin r) (r_repwin r) r.
Definition set_state (s : rmpp_state) (r : mad_rmpp_recv) : mad_rmpp_recv :=
  upd s (r_refcount r) (r_timeout_work r) (r_cleanup_work r) (r_list r) (r_cur r)
      (r_last_ack r) (r_seg_num r) (r_newwin r) (r_repwin r) r.
Definition set_newwin (v : Z) (r : mad_rmpp_recv) : mad_rmpp_recv :=
  upd (r_state r) (r_refcount r) (r_timeout_work r) (r_cleanup_work r) (r_list r) (r_cur r)
      (r_last_ack r) (r_seg_num r) v (r_repwin r) r.
Definition set_repwin (v : Z) (r : mad_rmpp_recv) : mad_rmpp_recv :=
  upd (r_state r) (r_refcount r) (r_timeout_work r) (r_cleanup_work r) (r_list r) (r_cur r)
      (r_last_ack r) (r_seg_num r) (r_newwin r) v r.
Definition set_works (tw cw : bool) (r : mad_rmpp_recv) : mad_rmpp_recv :=
  upd (r_state r) (r_refcount r) tw cw (r_list r) (r_cur r)
      (r_last_ack r) (r_seg_num r) (r_newwin r) (r_repwin r) r.
Definition add_ref (d : Z) (r : mad_rmpp_recv) : mad_rmpp_recv :=
  upd (r_state r) (r_refcount r + d) (r_timeout_work r) (r_cleanup_work r) (r_list r) (r_cur r)
      (r_last_ack r) (r_seg_num r) (r_newwin r) (r_repwin r) r.
Definition set_segs (l : list rmpp_mad) (cur : nat) (sn : Z) (r : mad_rmpp_recv)
  : mad_rmpp_recv :=
  upd (r_state r) (r_refcount r) (r_timeout_work r) (r_cleanup_work r) l cur
      (r_last_ack r) sn (r_newwin r) (r_repwin r) r.

(** ** Effects *)

(** What the code hands to other layers: MADs posted, received buffers freed. *)
Inductive rmpp_event := ESend (m : rmpp_mad) | EFree (ms : list rmpp_mad).

(** Allocation and posting of an acknowledgement. *)
Inductive ack_result := AckNoMsg | AckPostFailed | AckPosted.

Record recv_env := {
  e_kmalloc : bool;
  e_ah : bool;
  e_ack : ack_result;
  e_nack : bool
}.

(** [format_ack] *)
Definition format_ack (data : rmpp_mad) (r : mad_rmpp_recv) : rmpp_mad :=
  {| m_tid := m_tid data; m_mgmt_class := m_mgmt_class data;
     m_class_version := m_class_version data;
     m_method := Z.lxor (m_method data) IB_MGMT_METHOD_RESP;
     m_base_version := m_base_version data;
     m_src_qp := m_src_qp data; m_slid := m_slid data;
     m_rmpp_version := m_rmpp_version data; m_rmpp_type := IB_MGMT_RMPP_TYPE_ACK;
     m_rtime_flags := ib_set_rmpp_flags (m_rtime_flags data) IB_MGMT_RMPP_FLAG_ACTIVE;
     m_rmpp_status := m_rmpp_status data;
     m_seg_num := u32 (r_seg_num r); m_paylen_newwin := u32 (r_newwin r);
     m_data := [];
     m_attr_mod := m_attr_mod data; m_grh := None; m_path_bits := 0 |}.

Definition ack_recv (env : recv_env) (m : rmpp_mad) (r : mad_rmpp_recv)
  : mad_rmpp_recv * list rmpp_event :=
  match e_ack env with
  | AckNoMsg => (r, [])
  | AckPostFailed => (set_last_ack (r_seg_num r) r, [])
  | AckPosted => (set_last_ack (r_seg_num r) r, [ESend (format_ack m r)])
  end.

(** [nack_recv]: an ABORT with the given status. *)
Definition nack_recv (env : recv_env) (m : rmpp_mad) (rmpp_status : Z) : list rmpp_event :=
  if e_nack env then
    [ESend {| m_tid := m_tid m; m_mgmt_class := m_mgmt_class m;
              m_class_version := m_class_version m;
              m_method := Z.lxor (m_method m) IB_MGMT_METHOD_RESP;
              m_base_version := m_base_version m; m_src_qp := m_src_qp m; m_slid := m_slid m;
              m_rmpp_version := IB_MGMT_RMPP_VERSION;
              m_rmpp_type := IB_MGMT_RMPP_TYPE_ABORT;
              m_rtime_flags := ib_set_rmpp_flags (m_rtime_flags m) IB_MGMT_RMPP_FLAG_ACTIVE;
              m_rmpp_status := rmpp_status; m_seg_num := 0; m_paylen_newwin := 0;
              m_data := [];
     m_attr_mod := m_attr_mod m; m_grh := None; m_path_bits := 0 |}]
  else [].

(** [ack_ds_ack]: the answer to an ACK of a completed double-sided send. *)
Definition ack_ds_ack (env : recv_env) (m : rmpp_mad) : list rmpp_event :=
  if e_nack env then
    [ESend {| m_tid := m_tid m; m_mgmt_class := m_mgmt_class m;
              m_class_version := m_class_version m;
              m_method := Z.lxor (m_method m) IB_MGMT_METHOD_RESP;
              m_base_version := m_base_version m; m_src_qp := m_src_qp m; m_slid := m_slid m;
              m_rmpp_version := m_rmpp_version m; m_rmpp_type := m_rmpp_type m;
              m_rtime_flags := ib_set_rmpp_flags (m_rtime_flags m) IB_MGMT_RMPP_FLAG_ACTIVE;
              m_rmpp_status := m_rmpp_status m; m_seg_num := 0; m_paylen_newwin := 1;
              m_data := [];
     m_attr_mod := m_attr_mod m; m_grh := None; m_path_bits := 0 |}]
  else [].

(** ** Finding transactions and places *)

Definition matches (m : rmpp_mad) (r : mad_rmpp_recv) : bool :=
  (r_tid r =? m_tid m) && (r_src_qp r =? m_src_qp m) && (r_slid r =? m_slid m) &&
  (r_mgmt_class r =? m_mgmt_class m) && (r_class_version r =? m_class_version m) &&
  (r_method r =? m_method m).

(** [find_rmpp_recv]: the position of the first transaction that matches. *)
Fixpoint find_rmpp_recv (m : rmpp_mad) (l : list mad_rmpp_recv) : option nat :=
  match l with
  | [] => None
  | r :: l' => if matches m r then Some O else S <$> find_rmpp_recv m l'
  end.

(** [find_seg_location]: scan the buffers from the last one; the answer is a
    position in the list, [None] for a duplicate (or a number below the first). *)
Fixpoint find_seg_rev (seg_num : Z) (rev : list rmpp_mad) : option nat :=
  match rev with
  | [] => None
  | m :: rev' =>
      let cur_seg_num := get_seg_num m in
      if cur_seg_num <? seg_num then Some (length rev')
      else if seg_num =? cur_seg_num then None
      else find_seg_rev seg_num rev'
  end.

Definition find_seg_location (l : list rmpp_mad) (seg_num : Z) : option nat :=
  find_seg_rev seg_num (reverse l).

(** [update_seg_num]: [tail] are the buffers from the new one on, [cur] the
    position before it. *)
Fixpoint update_seg_num (tail : list rmpp_mad) (cur : nat) (sn : Z) : nat * Z :=
  match tail with
  | [] => (cur, sn)
  | m :: tail' =>
      if get_seg_num m =? s32 (sn + 1) then update_seg_num tail' (S cur) (s32 (sn + 1))
      else (cur, sn)
  end.

(** [list_add(&new->list, &prev->list)]. *)
Definition insert_after (prev : nat) (m : rmpp_mad) (l : list rmpp_mad) : list rmpp_mad :=
  take (S prev) l ++ m :: drop (S prev) l.

Definition window_size (a : rmpp_agent) : Z := Z.max (Z.shiftr (a_max_active a) 3) 1.

(** [get_mad_len]: the length of the reassembled message. *)
Definition get_mad_len (opa : bool) (r : mad_rmpp_recv) (cur : rmpp_mad) : Z :=
  let hdr_size := ib_get_mad_data_offset (m_mgmt_class cur) in
  let big := opa && (r_base_version r =? OPA_MGMT_BASE_VERSION) in
  let mad_size := if big then OPA_MGMT_MAD_SIZE else IB_MGMT_MAD_SIZE in
  let rmpp_data := if big then OPA_MGMT_RMPP_DATA else IB_MGMT_RMPP_DATA in
  let data_size := s32 (mad_size - hdr_size) in
  let pad := s32 (rmpp_data - m_paylen_newwin cur) in
  let pad := if (rmpp_data <? pad) || (pad <? 0) then 0 else pad in
  s32 (hdr_size + r_seg_num r * data_size - pad).

(** A delivered message: its segments and its length. *)
Abbreviation delivery := (list rmpp_mad * Z)%type.

(** [complete_rmpp]; [first] is the buffer of [rmpp_wc]. *)
Definition complete_rmpp (env : recv_env) (opa : bool) (r : mad_rmpp_recv)
  : option (mad_rmpp_recv * list rmpp_event * delivery) :=
  first ← r_list r !! 0%nat;
  cur ← r_list r !! r_cur r;
  let '(r1, ev) := ack_recv env first r in
  let tw := if 1 <? r_seg_num r1 then false else r_timeout_work r1 in
  Some (set_works tw true r1, ev, (r_list r1, get_mad_len opa r1 cur)).

(** ** Arrival of a segment *)

(** [continue_rmpp] for the transaction [r]. *)
Definition continue_recv (env : recv_env) (a : rmpp_agent) (m : rmpp_mad) (r : mad_rmpp_recv)
  : option (mad_rmpp_recv * list rmpp_event * option delivery) :=
  let seg_num := get_seg_num m in
  if bool_decide (r_state r = RMPP_STATE_TIMEOUT) || (r_newwin r <? seg_num)
  then Some (r, [EFree [m]], None)
  else if (seg_num <=? r_last_ack r) || bool_decide (r_state r = RMPP_STATE_COMPLETE)
  then let '(r1, ev) := ack_recv env m r in Some (r1, ev ++ [EFree [m]], None)
  else
    match find_seg_location (r_list r) seg_num with
    | None => Some (r, [EFree [m]], None)
    | Some prev =>
        let l := insert_after prev m (r_list r) in
        if bool_decide (r_cur r = prev) then
          let '(cur, sn) := update_seg_num (drop (S prev) l) (r_cur r) (r_seg_num r) in
          let r1 := set_segs l cur sn r in
          cur_buf ← l !! cur;
          if get_last_flag cur_buf then
            '(r2, ev, d) ← complete_rmpp env (a_opa a) (set_state RMPP_STATE_COMPLETE r1);
            Some (r2, ev, Some d)
          else if r_seg_num r1 =? r_newwin r1 then
            let '(r2, ev) := ack_recv env m (set_newwin (s32 (r_newwin r1 + window_size a)) r1) in
            Some (r2, ev, None)
          else Some (r1, [], None)
        else
          let cur := if bool_decide (prev < r_cur r)%nat then S (r_cur r) else r_cur r in
          Some (set_segs l cur (r_seg_num r) r, [], None)
    end.

Definition continue_rmpp (env : recv_env) (m : rmpp_mad) (a : rmpp_agent)
  : option (rmpp_agent * list rmpp_event * option delivery) :=
  match find_rmpp_recv m (a_recvs a) with
  | None => Some (a, [EFree [m]], None)
  | Some i =>
      r ← a_recvs a !! i;
      '(r1, ev, d) ← continue_recv env a m (add_ref 1 r);
      Some (set_recvs (<[i := add_ref (-1) r1]> (a_recvs a)) a, ev, d)
  end.

(** [create_rmpp_recv]: the transaction of a first segment. *)
Definition create_rmpp_recv (m : rmpp_mad) : mad_rmpp_recv :=
  {| r_state := RMPP_STATE_ACTIVE; r_refcount := 1; r_timeout_work := false;
     r_cleanup_work := false; r_list := [m]; r_cur := 0; r_last_ack := 0; r_seg_num := 1;
     r_newwin := 1; r_repwin := 1; r_tid := m_tid m; r_src_qp := m_src_qp m;
     r_slid := m_slid m; r_mgmt_class := m_mgmt_class m;
     r_class_version := m_class_version m; r_method := m_method m;
     r_base_version := m_base_version m |}.

Definition start_rmpp (env : recv_env) (m : rmpp_mad) (a : rmpp_agent)
  : option (rmpp_agent * list rmpp_event * option delivery) :=
  if negb (e_kmalloc env) || negb (e_ah env) then Some (a, [EFree [m]], None) else
  let r := create_rmpp_recv m in
  match find_rmpp_recv m (a_recvs a) with
  | Some _ => continue_rmpp env m a
  | None =>
      let r := add_ref 1 r in
      if get_last_flag m then
        '(r1, ev, d) ← complete_rmpp env (a_opa a) (set_state RMPP_STATE_COMPLETE r);
        Some (set_recvs (a_recvs a ++ [add_ref (-1) r1]) a, ev, Some d)
      else
        let r := set_works true (r_cleanup_work r) r in
        let r := set_newwin (s32 (r_newwin r + window_size a)) r in
        let '(r1, ev) := ack_recv env m r in
        Some (set_recvs (a_recvs a ++ [add_ref (-1) r1]) a, ev, None)
  end.

Definition process_rmpp_data (env : recv_env) (m : rmpp_mad) (a : rmpp_agent)
  : option (rmpp_agent * list rmpp_event * option delivery) :=
  let bad rmpp_status := Some (a, nack_recv env m rmpp_status ++ [EFree [m]], None) in
  if truthy (m_rmpp_status m) then bad IB_MGMT_RMPP_STATUS_BAD_STATUS
  else if m_seg_num m =? 1 then
    if negb (has_flag (ib_get_rmpp_flags m) IB_MGMT_RMPP_FLAG_FIRST)
    then bad IB_MGMT_RMPP_STATUS_BAD_SEG else start_rmpp env m a
  else
    if has_flag (ib_get_rmpp_flags m) IB_MGMT_RMPP_FLAG_FIRST
    then bad IB_MGMT_RMPP_STATUS_BAD_SEG else continue_rmpp env m a.

(** ** Timers and shutdown *)

(** [recv_timeout_handler] of the transaction at position [i]. *)
Definition recv_timeout_handler (env : recv_env) (i : nat) (a : rmpp_agent)
  : option (rmpp_agent * list rmpp_event) :=
  r ← a_recvs a !! i;
  if bool_decide (r_state r = RMPP_STATE_ACTIVE) then
    first ← r_list r !! 0%nat;
    Some (set_recvs (delete i (a_recvs a)) a,
          nack_recv env first IB_MGMT_RMPP_STATUS_T2L ++ [EFree (r_list r)])
  else Some (a, []).

Definition recv_cleanup_handler (i : nat) (a : rmpp_agent) : rmpp_agent :=
  set_recvs (delete i (a_recvs a)) a.

(** [ib_cancel_rmpp_recvs]: what is freed when the agent goes. *)
Definition ib_cancel_rmpp_recvs (a : rmpp_agent) : rmpp_agent * list rmpp_event :=
  (set_recvs [] a,
   map (fun r => EFree (r_list r))
     (filter (fun r => r_state r <> RMPP_STATE_COMPLETE) (a_recvs a))).

(** ** The buffers of a transaction *)

Definition seg_lt (m m' : rmpp_mad) : Prop := get_seg_num m < get_seg_num m'.

(** The place found for a new segment number splits a sorted list; no place is
    found for a duplicate or below the first. *)
Lemma find_seg_location_spec l s :
  StronglySorted seg_lt l ->
  match find_seg_location l s with
  | Some p => (p < length l)%nat /\
      Forall (fun m => get_seg_num m < s) (take (S p) l) /\
      Forall (fun m => s < get_seg_num m) (drop (S p) l)
  | None => Exists (fun m => get_seg_num m = s) l \/ Forall (fun m => s < get_seg_num m) l
  end.
Proof.
  unfold find_seg_location. induction l as [|x l IH] using rev_ind; intros Hs; [by right|].
  rewrite reverse_app. cbn [reverse rev_append app find_seg_rev].
  change (reverse [x] ++ reverse l) with (x :: reverse l). cbn [find_seg_rev].
  apply StronglySorted_app in Hs as (Hlx & Hl & _).
  destruct (Z.ltb_spec (get_seg_num x) s) as [Hlt|Hge].
  - rewrite length_reverse, length_app. cbn [length].
    split_and!; [lia| |].
    + rewrite take_ge by (rewrite length_app; simpl; lia). apply Forall_app. split; [|by constructor].
      apply Forall_forall. intros m Hm. specialize (Hlx m x Hm ltac:(by apply list_elem_of_singleton)).
      unfold seg_lt in Hlx. lia.
    + rewrite drop_ge by (rewrite length_app; simpl; lia). constructor.
  - destruct (Z.eqb_spec s (get_seg_num x)) as [->|Hne].
    + left. apply Exists_app. right. by constructor.
    + specialize (IH Hl). destruct (find_seg_rev s (reverse l)) as [p|].
      * destruct IH as (Hp & Ht & Hd). split_and!; [rewrite length_app; lia| |].
        -- by rewrite take_app_le by lia.
        -- rewrite drop_app_le by lia. apply Forall_app. split; [done|]. constructor; [lia|done].
      * destruct IH as [He|Hf]; [left; apply Exists_app; by left|right].
        apply Forall_app. split; [done|]. constructor; [lia|done].
Qed.

Lemma insert_after_sorted p m l :
  StronglySorted seg_lt l ->
  Forall (fun x => get_seg_num x < get_seg_num m) (take (S p) l) ->
  Forall (fun x => get_seg_num m < get_seg_num x) (drop (S p) l) ->
  StronglySorted seg_lt (insert_after p m l).
Proof.
  intros Hs Ht Hd. unfold insert_after.
  pose proof Hs as Hs'. rewrite <- (take_drop (S p) l) in Hs'.
  apply StronglySorted_app in Hs' as (Hcross & Hst & Hsd).
  rewrite Forall_forall in Ht. apply StronglySorted_app. split_and!; [|done|].
  - intros x y Hx Hy. apply elem_of_cons in Hy as [->|Hy]; [by apply Ht|by apply Hcross].
  - by constructor.
Qed.

Lemma length_insert_after p m l : length (insert_after p m l) = S (length l).
Proof.
  unfold insert_after. rewrite length_app. cbn [length].
  pose proof (f_equal length (take_drop (S p) l)) as E. rewrite length_app in E. lia.
Qed.

Lemma insert_after_low p m l i :
  (i <= p)%nat -> (p < length l)%nat -> insert_after p m l !! i = l !! i.
Proof.
  intros Hi Hp. unfold insert_after. rewrite lookup_app_l by (rewrite length_take; lia).
  rewrite lookup_take, decide_True by lia. done.
Qed.

Lemma drop_insert_after p m l :
  (p < length l)%nat -> drop (S p) (insert_after p m l) = m :: drop (S p) l.
Proof.
  intros Hp. unfold insert_after. rewrite drop_app_length' by (rewrite length_take; lia). done.
Qed.

(** The contiguous run taken over by [update_seg_num]. *)
Lemma update_seg_num_spec tail cur sn :
  StronglySorted seg_lt tail -> Forall (fun m => sn < get_seg_num m) tail -> 0 <= sn ->
  exists k, update_seg_num tail cur sn = ((cur + k)%nat, sn + Z.of_nat k) /\ (k <= length tail)%nat /\
    (forall i m, (i < k)%nat -> tail !! i = Some m -> get_seg_num m = sn + 1 + Z.of_nat i) /\
    (forall m, tail !! k = Some m -> sn + Z.of_nat k + 1 < get_seg_num m).
Proof.
  revert cur sn. induction tail as [|x tail IH]; intros cur sn Hs Hf Hsn; cbn [update_seg_num].
  { exists 0%nat. rewrite Nat.add_0_r, Z.add_0_r. split_and!; [done|lia|lia|done]. }
  apply Forall_cons_iff in Hf as [Hx Hf].
  assert (get_seg_num x < 2 ^ 31) as Hb.
  { unfold get_seg_num, s32. pose proof (swrap_range 32 (m_seg_num x)). simpl Z.sub in *. lia. }
  rewrite s32_id by lia. destruct (Z.eqb_spec (get_seg_num x) (sn + 1)) as [Ex|Ex].
  - apply StronglySorted_inv in Hs as [Hs Hall].
    destruct (IH (S cur) (sn + 1)) as (k & -> & Hk & Hrun & Hnext); [done| |lia|].
    { eapply Forall_impl; [apply Hall|]. intros m Hm. unfold seg_lt in Hm. simpl in *. lia. }
    exists (S k). split_and!; [f_equal; lia|simpl; lia| |].
    + intros [|i] m Hi Hm; simplify_eq/=; [lia|]. rewrite (Hrun i m) by (done || lia). lia.
    + intros m Hm. simpl in Hm. specialize (Hnext m Hm). lia.
  - exists 0%nat. rewrite Nat.add_0_r, Z.add_0_r. split_and!; [done|lia|lia|].
    intros m Hm. simplify_eq/=. lia.
Qed.

(** ** The invariant of a transaction *)

(** The buffers: sorted, with the segments up to [seg_num] in place and the
    next one missing; the window covers all of them. *)
Record recv_core (W : Z) (r : mad_rmpp_recv) : Prop := {
  ri_sorted : StronglySorted seg_lt (r_list r);
  ri_cur : (r_cur r < length (r_list r))%nat;
  ri_prefix : forall i m, (i <= r_cur r)%nat -> r_list r !! i = Some m ->
    get_seg_num m = Z.of_nat i + 1;
  ri_num : r_seg_num r = Z.of_nat (r_cur r) + 1;
  ri_next : forall m, r_list r !! S (r_cur r) = Some m -> r_seg_num r + 1 < get_seg_num m;
  ri_ack : 0 <= r_last_ack r <= r_seg_num r;
  ri_win : r_seg_num r <= r_newwin r <= r_seg_num r + W;
  ri_bound : Forall (fun m => get_seg_num m <= r_newwin r) (r_list r)
}.

(** The states: an active transaction can still take the next segment and has not
    seen the last one; a complete one has; a timed-out one is in no list. *)
Record recv_inv (W : Z) (r : mad_rmpp_recv) : Prop := {
  ri_core :> recv_core W r;
  ri_state : match r_state r with
    | RMPP_STATE_ACTIVE => r_seg_num r < r_newwin r /\
        forall m, r_list r !! r_cur r = Some m -> get_last_flag m = false
    | RMPP_STATE_COMPLETE =>
        forall m, r_list r !! r_cur r = Some m -> get_last_flag m = true
    | RMPP_STATE_TIMEOUT => False
    end
}.

(** What identifies a transaction. *)
Definition recv_key (r : mad_rmpp_recv) : Z * Z * Z * Z * Z * Z :=
  (r_tid r, r_src_qp r, r_slid r, r_mgmt_class r, r_class_version r, r_method r).
Definition mad_key (m : rmpp_mad) : Z * Z * Z * Z * Z * Z :=
  (m_tid m, m_src_qp m, m_slid m, m_mgmt_class m, m_class_version m, m_method m).

Lemma matches_key m r : matches m r = true <-> recv_key r = mad_key m.
Proof.
  unfold matches, recv_key, mad_key. rewrite !andb_true_iff, !Z.eqb_eq. split.
  - intros [[[[[-> ->] ->] ->] ->] ->]. done.
  - intros E. injection E. tauto.
Qed.

(** Segments below the first missing one are in place. *)
Lemma prefix_below W r m :
  recv_core W r -> m ∈ drop (S (r_cur r)) (r_list r) -> r_seg_num r + 1 < get_seg_num m.
Proof.
  intros H Hm. apply list_elem_of_lookup in Hm as [i Hi]. rewrite lookup_drop in Hi.
  pose proof (ri_sorted _ _ H) as Hs.
  destruct (lookup_lt_is_Some_2 (r_list r) (S (r_cur r))) as [x Hx].
  { apply lookup_lt_Some in Hi. lia. }
  pose proof (ri_next _ _ H x Hx). destruct i as [|i]; [rewrite Nat.add_0_r in Hi; congruence|].
  enough (get_seg_num x < get_seg_num m) by lia.
  rewrite <- (take_drop_middle _ _ _ Hx) in Hs. apply StronglySorted_app in Hs as (_ & _ & Hs).
  apply StronglySorted_inv in Hs as [_ Hall]. rewrite Forall_forall in Hall.
  apply Hall. apply list_elem_of_lookup. exists i. rewrite lookup_drop. rewrite <- Hi. f_equal. lia.
Qed.

(** A segment number above the prefix and not stored is placed after it. *)
Lemma place_after_prefix W r s p :
  recv_core W r -> 0 < s -> find_seg_location (r_list r) s = Some p ->
  (r_cur r <= p < length (r_list r))%nat /\ r_seg_num r < s /\
  Forall (fun m => get_seg_num m < s) (take (S p) (r_list r)) /\
  Forall (fun m => s < get_seg_num m) (drop (S p) (r_list r)).
Proof.
  intros H Hs0 E. pose proof (find_seg_location_spec (r_list r) s (ri_sorted _ _ H)) as Hsp.
  rewrite E in Hsp. destruct Hsp as (Hp & Ht & Hd).
  pose proof (ri_cur _ _ H) as Hc. pose proof (ri_num _ _ H) as Hn.
  assert (r_cur r <= p)%nat as Hcp.
  { destruct (decide (r_cur r <= p)%nat) as [|Hlt]; [done|exfalso].
    destruct (lookup_lt_is_Some_2 (r_list r) p) as [x Hx]; [lia|].
    destruct (lookup_lt_is_Some_2 (r_list r) (S p)) as [y Hy]; [lia|].
    pose proof (ri_prefix _ _ H p x ltac:(lia) Hx).
    pose proof (ri_prefix _ _ H (S p) y ltac:(lia) Hy).
    assert (get_seg_num x < s).
    { rewrite Forall_forall in Ht. apply Ht, list_elem_of_lookup. exists p.
      rewrite lookup_take, decide_True by lia. done. }
    assert (s < get_seg_num y); [|lia].
    rewrite Forall_forall in Hd. apply Hd, list_elem_of_lookup. exists 0%nat.
    by rewrite lookup_drop, Nat.add_0_r. }
  split_and!; [lia|lia| |done|done].
  destruct (lookup_lt_is_Some_2 (r_list r) (r_cur r)) as [x Hx]; [lia|].
  pose proof (ri_prefix _ _ H (r_cur r) x ltac:(lia) Hx) as Ex. rewrite Hn, <- Ex.
  rewrite Forall_forall in Ht. apply Ht, list_elem_of_lookup. exists (r_cur r).
  rewrite lookup_take, decide_True by lia. done.
Qed.

(** ** Arrival of a segment preserves the invariant *)

Lemma get_seg_num_lt m : get_seg_num m < 2 ^ 31.
Proof.
  unfold get_seg_num, s32. pose proof (swrap_range 32 (m_seg_num m)). simpl Z.sub in *. lia.
Qed.

(** Storing a segment away from the prefix. *)
Lemma store_core W r m p :
  recv_core W r -> 0 < get_seg_num m <= r_newwin r ->
  find_seg_location (r_list r) (get_seg_num m) = Some p -> p <> r_cur r ->
  recv_core W (set_segs (insert_after p m (r_list r)) (r_cur r) (r_seg_num r) r).
Proof.
  intros H Hm E Hne. destruct (place_after_prefix W r (get_seg_num m) p H ltac:(lia) E) as (Hp & Hs & Ht & Hd).
  pose proof H as []. constructor; cbn [set_segs upd r_list r_cur r_seg_num r_last_ack r_newwin]; try done.
  - by apply insert_after_sorted.
  - rewrite length_insert_after. lia.
  - intros i x Hi Hx. rewrite insert_after_low in Hx by lia. by apply ri_prefix0.
  - intros x Hx. rewrite insert_after_low in Hx by lia. by apply ri_next0.
  - unfold insert_after. rewrite <- (take_drop (S p) (r_list r)) in ri_bound0.
    apply Forall_app in ri_bound0 as [? ?]. apply Forall_app. split; [done|].
    constructor; [lia|done].
Qed.

(** Storing a segment right after the prefix, which may extend it. *)
Lemma advance_core W r m :
  recv_core W r -> 0 < get_seg_num m <= r_newwin r ->
  find_seg_location (r_list r) (get_seg_num m) = Some (r_cur r) ->
  exists k, let l := insert_after (r_cur r) m (r_list r) in
    update_seg_num (drop (S (r_cur r)) l) (r_cur r) (r_seg_num r)
      = ((r_cur r + k)%nat, r_seg_num r + Z.of_nat k) /\
    recv_core W (set_segs l (r_cur r + k) (r_seg_num r + Z.of_nat k) r) /\
    (get_seg_num m = r_seg_num r + 1 -> (0 < k)%nat) /\
    (k = 0%nat -> l !! r_cur r = r_list r !! r_cur r).
Proof.
  intros H Hm E. destruct (place_after_prefix W r (get_seg_num m) (r_cur r) H ltac:(lia) E) as (Hp & Hs & Ht & Hd).
  pose proof H as []. set (l := insert_after (r_cur r) m (r_list r)).
  assert (StronglySorted seg_lt l) as Hsl by (by apply insert_after_sorted).
  assert (drop (S (r_cur r)) l = m :: drop (S (r_cur r)) (r_list r)) as Edrop
    by (by apply drop_insert_after).
  destruct (update_seg_num_spec (drop (S (r_cur r)) l) (r_cur r) (r_seg_num r))
    as (k & Eu & Hk & Hrun & Hnext); [| |lia|].
  { rewrite <- (take_drop (S (r_cur r)) l) in Hsl. by apply StronglySorted_app in Hsl as (_ & _ & ?). }
  { rewrite Edrop. constructor; [done|]. eapply Forall_impl; [apply Hd|]. intros x Hx. simpl in *. lia. }
  assert (Forall (fun x => get_seg_num x <= r_newwin r) l) as Hbl.
  { unfold l, insert_after. rewrite <- (take_drop (S (r_cur r)) (r_list r)) in ri_bound0.
    apply Forall_app in ri_bound0 as [? ?]. apply Forall_app. split; [done|]. constructor; [lia|done]. }
  assert (length l = S (length (r_list r))) as Hll by apply length_insert_after.
  rewrite length_drop in Hk. exists k. cbv zeta. split_and!; [done| | |].
  - constructor; cbn [set_segs upd r_list r_cur r_seg_num r_last_ack r_newwin];
      [done|lia| |lia| |lia| |done].
    + intros i x Hi Hx. destruct (decide (i <= r_cur r)%nat).
      * unfold l in Hx. rewrite insert_after_low in Hx by lia. by apply ri_prefix0.
      * rewrite (Hrun (i - S (r_cur r))%nat x); [lia|lia|].
        rewrite lookup_drop. by replace (S (r_cur r) + (i - S (r_cur r)))%nat with i by lia.
    + intros x Hx. apply Hnext. rewrite lookup_drop. rewrite <- Hx. done.
    + split; [|lia]. destruct k as [|k]; [lia|].
      destruct (lookup_lt_is_Some_2 (drop (S (r_cur r)) l) k) as [x Hx]; [rewrite length_drop; lia|].
      pose proof (Hrun k x ltac:(lia) Hx). rewrite lookup_drop in Hx.
      pose proof (Forall_lookup_1 _ _ _ _ Hbl Hx). simpl in *. lia.
  - intros Em. destruct k as [|k]; [|lia]. exfalso. rewrite Edrop in Hnext.
    specialize (Hnext m eq_refl). lia.
  - intros ->. unfold l. apply insert_after_low; lia.
Qed.

Lemma ack_recv_cases env m r :
  exists v ev, ack_recv env m r = (set_last_ack v r, ev) /\ (v = r_last_ack r \/ v = r_seg_num r) /\
    (ev = [] \/ ev = [ESend (format_ack m r)]).
Proof.
  unfold ack_recv. destruct (e_ack env).
  - exists (r_last_ack r), []. split_and!; [by destruct r|by left|by left].
  - exists (r_seg_num r), []. split_and!; [done|by right|by left].
  - exists (r_seg_num r), [ESend (format_ack m r)]. split_and!; [done|by right|by right].
Qed.

Lemma set_last_ack_core W r v :
  recv_core W r -> v = r_last_ack r \/ v = r_seg_num r -> recv_core W (set_last_ack v r).
Proof.
  intros [] Hv. constructor; cbn [set_last_ack upd r_list r_cur r_seg_num r_last_ack r_newwin]; try done.
  destruct Hv; lia.
Qed.

(** The buffers an event list frees. *)
Definition freed (ev : list rmpp_event) : list rmpp_mad :=
  concat (omap (fun e => match e with EFree ms => Some ms | ESend _ => None end) ev).

(** What one arrival does to a transaction: the buffer is either stored or freed,
    the window never shrinks, an acknowledgement tells the state reached, and a
    delivery happens exactly when the transaction completes. *)
Record recv_step_ok (W : Z) (a : rmpp_agent) (m : rmpp_mad) (r r' : mad_rmpp_recv)
    (ev : list rmpp_event) (d : option delivery) : Prop := {
  rs_inv : recv_inv W r';
  rs_key : recv_key r' = recv_key r /\ r_base_version r' = r_base_version r;
  rs_ref : r_refcount r' = r_refcount r;
  rs_list : (r_list r' = r_list r /\ freed ev = [m]) \/ (r_list r' ≡ₚ m :: r_list r /\ freed ev = []);
  rs_mono : r_seg_num r <= r_seg_num r' /\ r_newwin r <= r_newwin r';
  rs_done : match d with
    | Some (l, len) => r_state r = RMPP_STATE_ACTIVE /\ r_state r' = RMPP_STATE_COMPLETE /\
        l = r_list r' /\
        exists cur, r_list r' !! r_cur r' = Some cur /\ len = get_mad_len (a_opa a) r' cur
    | None => r_state r' = r_state r
    end;
  rs_progress : r_state r = RMPP_STATE_ACTIVE -> get_seg_num m = r_seg_num r + 1 ->
    r_seg_num r < r_seg_num r';
  rs_acks : Forall (fun e => match e with
    | ESend x => exists m0, x = format_ack m0 r' /\ (m0 = m \/ m0 ∈ r_list r')
    | EFree _ => True end) ev
}.

Lemma insert_after_perm p m l : insert_after p m l ≡ₚ m :: l.
Proof.
  unfold insert_after. rewrite <- Permutation_middle. constructor. by rewrite take_drop.
Qed.

Lemma format_ack_ext m r r' :
  r_seg_num r' = r_seg_num r -> r_newwin r' = r_newwin r -> format_ack m r' = format_ack m r.
Proof. unfold format_ack. by intros -> ->. Qed.

(** Nothing but [last_ack] changes. *)
Lemma step_ok_rejected W a env m r :
  recv_inv W r -> ~ (r_state r = RMPP_STATE_ACTIVE /\ get_seg_num m = r_seg_num r + 1) ->
  forall v ev, (v = r_last_ack r \/ v = r_seg_num r) ->
    (ev = [] \/ ev = [ESend (format_ack m r)]) ->
    ack_recv env m r = (set_last_ack v r, ev) ->
    recv_step_ok W a m r (set_last_ack v r) (ev ++ [EFree [m]]) None.
Proof.
  intros H Hn v ev Hv Hev _. pose proof H as [Hc Hst].
  constructor; cbn [set_last_ack upd r_list r_refcount r_seg_num r_newwin r_state r_cur]; try done.
  - constructor; [by apply set_last_ack_core|]. done.
  - left. split; [done|]. by destruct Hev as [->| ->].
  - intros Ha Hs. by destruct Hn.
  - destruct Hev as [->| ->]; cbn [app]; repeat constructor. exists m. split; [|by left].
    by apply format_ack_ext.
Qed.

Lemma step_ok_dropped W a m r :
  recv_inv W r -> ~ (r_state r = RMPP_STATE_ACTIVE /\ get_seg_num m = r_seg_num r + 1) ->
  recv_step_ok W a m r r [EFree [m]] None.
Proof.
  intros H Hn. constructor; try done; [by left|intros; by destruct Hn|by repeat constructor].
Qed.

Lemma complete_rmpp_ok W env opa r :
  recv_core W r -> r_state r = RMPP_STATE_COMPLETE ->
  exists v ev first cur, r_list r !! 0%nat = Some first /\ r_list r !! r_cur r = Some cur /\
    complete_rmpp env opa r =
      Some (set_works (if 1 <? r_seg_num r then false else r_timeout_work r) true (set_last_ack v r),
            ev, (r_list r, get_mad_len opa (set_last_ack v r) cur)) /\
    (v = r_last_ack r \/ v = r_seg_num r) /\ (ev = [] \/ ev = [ESend (format_ack first r)]).
Proof.
  intros H Hst. pose proof (ri_cur _ _ H) as Hc.
  destruct (lookup_lt_is_Some_2 (r_list r) 0) as [first Hf]; [lia|].
  destruct (lookup_lt_is_Some_2 (r_list r) (r_cur r)) as [cur Hcur]; [lia|].
  destruct (ack_recv_cases env first r) as (v & ev & E & Hv & Hev).
  exists v, ev, first, cur. split_and!; [done|done| |done|done].
  unfold complete_rmpp. rewrite Hf. cbn [mbind option_bind]. rewrite Hcur. cbn [mbind option_bind].
  by rewrite E.
Qed.

(** The segment completes the message. *)
Lemma step_ok_complete W a env m r k cur :
  let l := insert_after (r_cur r) m (r_list r) in
  let r1 := set_segs l (r_cur r + k) (r_seg_num r + Z.of_nat k) r in
  r_state r = RMPP_STATE_ACTIVE -> recv_core W r1 ->
  (get_seg_num m = r_seg_num r + 1 -> (0 < k)%nat) ->
  l !! (r_cur r + k)%nat = Some cur -> get_last_flag cur = true ->
  exists r2 ev d, complete_rmpp env (a_opa a) (set_state RMPP_STATE_COMPLETE r1) = Some (r2, ev, d) /\
    recv_step_ok W a m r r2 ev (Some d).
Proof.
  intros l r1 Ha Hc1 Hk Hcur Hlast.
  assert (recv_core W (set_state RMPP_STATE_COMPLETE r1)) as Hc by (destruct Hc1; by constructor).
  destruct (complete_rmpp_ok W env (a_opa a) _ Hc eq_refl) as (v & ev & first & cur' & Hf & Hcur' & E & Hv & Hev).
  rewrite E. eexists _, ev, _. split; [done|].
  constructor; cbn [set_works set_last_ack set_state set_segs upd r1 r_list r_refcount r_seg_num
    r_newwin r_state r_cur r_base_version] in *; try done.
  - constructor; [|intros x Hx; cbn in Hx; congruence].
    apply (set_last_ack_core W _ v) in Hc; [|done]. destruct Hc. by constructor.
  - right. split; [apply insert_after_perm|]. by destruct Hev as [->| ->].
  - lia.
  - split_and!; [done|done|done|]. exists cur'. by split.
  - intros _ Em. specialize (Hk Em). lia.
  - destruct Hev as [->| ->]; repeat constructor. exists first.
    split; [by apply format_ack_ext|right]. by apply list_elem_of_lookup; exists 0%nat.
Qed.

(** The prefix has reached the end of the window: it is moved and acknowledged. *)
Lemma step_ok_window W a env m r k cur :
  let l := insert_after (r_cur r) m (r_list r) in
  let r1 := set_segs l (r_cur r + k) (r_seg_num r + Z.of_nat k) r in
  r_state r = RMPP_STATE_ACTIVE -> recv_core W r1 -> 0 < W ->
  r_newwin r + W < 2 ^ 31 ->
  (get_seg_num m = r_seg_num r + 1 -> (0 < k)%nat) ->
  l !! (r_cur r + k)%nat = Some cur -> get_last_flag cur = false ->
  r_seg_num r + Z.of_nat k = r_newwin r ->
  exists r2 ev, ack_recv env m (set_newwin (s32 (r_newwin r + W)) r1) = (r2, ev) /\
    recv_step_ok W a m r r2 ev None.
Proof.
  intros l r1 Ha Hc1 HW Hb Hk Hcur Hlast Ewin. pose proof (ri_ack _ _ Hc1) as Hack. cbn in Hack.
  rewrite s32_id by lia.
  destruct (ack_recv_cases env m (set_newwin (r_newwin r + W) r1)) as (v & ev & E & Hv & Hev).
  assert (recv_core W (set_newwin (r_newwin r + W) r1)) as Hc.
  { destruct Hc1. constructor; cbn in *; try done; [lia|].
    eapply Forall_impl; [apply ri_bound0|]. intros x Hx. simpl in *. lia. }
  exists (set_last_ack v (set_newwin (r_newwin r + W) r1)), ev. split; [done|].
  constructor; cbn [set_works set_last_ack set_newwin set_segs upd r1 r_list r_refcount r_seg_num
    r_newwin r_state r_cur r_base_version] in *; try done.
  - constructor; [by apply set_last_ack_core|]. cbn. rewrite Ha. split; [lia|].
    intros x Hx. congruence.
  - right. split; [apply insert_after_perm|]. by destruct Hev as [->| ->].
  - lia.
  - intros _ Em. specialize (Hk Em). lia.
  - destruct Hev as [->| ->]; repeat constructor. exists m. split; [by apply format_ack_ext|by left].
Qed.

Lemma window_pos a : 0 < window_size a.
Proof. unfold window_size. lia. Qed.

Lemma next_seg_found W r m :
  recv_core W r -> get_seg_num m = r_seg_num r + 1 ->
  find_seg_location (r_list r) (get_seg_num m) = Some (r_cur r).
Proof.
  intros H Em. pose proof (find_seg_location_spec (r_list r) (get_seg_num m) (ri_sorted _ _ H)) as Hsp.
  pose proof (ri_num _ _ H) as Hn. pose proof (ri_cur _ _ H) as Hcur.
  destruct (find_seg_location (r_list r) (get_seg_num m)) as [p|] eqn:E.
  - destruct (place_after_prefix W r (get_seg_num m) p H ltac:(lia) E) as (Hp & _ & Ht & _).
    f_equal. destruct (decide (p = r_cur r)) as [|Hne]; [done|exfalso].
    destruct (lookup_lt_is_Some_2 (r_list r) (S (r_cur r))) as [x Hx]; [lia|].
    pose proof (ri_next _ _ H x Hx). rewrite Forall_forall in Ht.
    enough (get_seg_num x < get_seg_num m) by lia. apply Ht, list_elem_of_lookup.
    exists (S (r_cur r)). rewrite lookup_take, decide_True by lia. done.
  - exfalso. destruct Hsp as [He|Hf].
    + apply Exists_exists in He as (x & Hx & Ex). rewrite <- (take_drop (S (r_cur r)) (r_list r)) in Hx.
      apply elem_of_app in Hx as [Hx|Hx]; [|pose proof (prefix_below W r x H Hx); lia].
      apply list_elem_of_lookup in Hx as [i Hi]. rewrite lookup_take in Hi.
      case_decide; [|done]. pose proof (ri_prefix _ _ H i x ltac:(lia) Hi). lia.
    + destruct (lookup_lt_is_Some_2 (r_list r) (r_cur r)) as [x Hx]; [lia|].
      pose proof (ri_prefix _ _ H (r_cur r) x ltac:(lia) Hx).
      pose proof (Forall_lookup_1 _ _ _ _ Hf Hx). simpl in *. lia.
Qed.

Lemma continue_recv_spec W env a m r :
  recv_inv W r -> window_size a = W -> r_newwin r + W < 2 ^ 31 ->
  exists r' ev d, continue_recv env a m r = Some (r', ev, d) /\
    recv_step_ok W a m r r' ev d.
Proof.
  intros H HW Hb. pose proof H as [Hc Hst]. pose proof (window_pos a) as Hwp. rewrite HW in Hwp.
  pose proof Hc as []. unfold continue_recv.
  destruct (r_state r) eqn:Est; [|done|].
  2: { rewrite bool_decide_eq_false_2 by done. cbn [orb].
       destruct (Z.ltb_spec (r_newwin r) (get_seg_num m)).
       - exists r, [EFree [m]], None. split; [done|]. apply step_ok_dropped; [done|]. intros [? _]. congruence.
       - rewrite (bool_decide_eq_true_2 (RMPP_STATE_COMPLETE = _)), orb_true_r by done.
         destruct (ack_recv_cases env m r) as (v & ev & E & Hv & Hev). rewrite E.
         eexists _, _, _. split; [done|]. eapply step_ok_rejected; [done| |done|done|exact E].
         intros [? _]. congruence. }
  destruct Hst as [Hlt Hlast].
  rewrite bool_decide_eq_false_2 by done. cbn [orb].
  destruct (Z.ltb_spec (r_newwin r) (get_seg_num m)).
  { exists r, [EFree [m]], None. split; [done|]. apply step_ok_dropped; [done|]. lia. }
  rewrite (bool_decide_eq_false_2 (RMPP_STATE_ACTIVE = _)), orb_false_r by done.
  destruct (Z.leb_spec (get_seg_num m) (r_last_ack r)).
  { destruct (ack_recv_cases env m r) as (v & ev & E & Hv & Hev). rewrite E.
    eexists _, _, _. split; [done|]. eapply step_ok_rejected; [done|lia|done|done|exact E]. }
  destruct (find_seg_location (r_list r) (get_seg_num m)) as [p|] eqn:Ep.
  2: { exists r, [EFree [m]], None. split; [done|]. apply step_ok_dropped; [done|].
       intros [_ Em]. rewrite (next_seg_found W r m Hc Em) in Ep. done. }
  case_bool_decide as Ecur.
  - subst p. destruct (advance_core W r m Hc ltac:(lia) Ep) as (k & Eu & Hc1 & Hk & _).
    cbv zeta in Eu, Hc1. rewrite Eu. pose proof (ri_cur _ _ Hc1) as Hlen.
    pose proof (ri_win _ _ Hc1) as Hw1. cbn [set_segs upd r_list r_cur r_seg_num r_newwin] in Hlen, Hw1 |- *.
    destruct (lookup_lt_is_Some_2 _ _ Hlen) as [cur Hcur]. rewrite Hcur. cbn [mbind option_bind].
    destruct (get_last_flag cur) eqn:El.
    + destruct (step_ok_complete W a env m r k cur Est Hc1 Hk Hcur El) as (r2 & ev & d & E2 & Hok).
      rewrite E2. cbn [mbind option_bind]. by exists r2, ev, (Some d).
    + rewrite HW. destruct (Z.eqb_spec (r_seg_num r + Z.of_nat k) (r_newwin r)) as [Ewin|Hne].
      * destruct (step_ok_window W a env m r k cur Est Hc1 Hwp Hb Hk Hcur El Ewin) as (r2 & ev & E2 & Hok).
        rewrite E2. by exists r2, ev, None.
      * eexists _, [], None. split; [done|]. constructor; try done.
        -- constructor; [done|]. cbn. rewrite Est. split; [lia|]. intros x Hx. congruence.
        -- right. split; [apply insert_after_perm|done].
        -- cbn. lia.
        -- intros _ Em. specialize (Hk Em). cbn. lia.
  - destruct (place_after_prefix W r (get_seg_num m) p Hc ltac:(lia) Ep) as (Hp & Hs & _).
    rewrite bool_decide_eq_false_2 by lia. eexists _, [], None. split; [done|].
    pose proof (store_core W r m p Hc ltac:(lia) Ep ltac:(done)) as Hc1.
    constructor; try done.
    + constructor; [done|]. cbn. rewrite Est. split; [lia|].
      intros x Hx. rewrite insert_after_low in Hx by lia. by apply Hlast.
    + right. split; [apply insert_after_perm|done].
    + intros _ Em. rewrite (next_seg_found W r m Hc Em) in Ep. congruence.
Qed.

(** ** The transactions of an agent *)

Abbreviation rkey := (Z * Z * Z * Z * Z * Z)%type.

Fixpoint lookup_key (k : rkey) (l : list mad_rmpp_recv) : option mad_rmpp_recv :=
  match l with
  | [] => None
  | r :: l' => if decide (recv_key r = k) then Some r else lookup_key k l'
  end.

Lemma find_None m l : find_rmpp_recv m l = None <-> lookup_key (mad_key m) l = None.
Proof.
  induction l as [|r l IH]; [done|]. cbn [find_rmpp_recv lookup_key].
  pose proof (matches_key m r) as Hm. destruct (matches m r), (decide (recv_key r = mad_key m)) as [E|E].
  - done.
  - destruct E. by apply Hm.
  - destruct Hm as [_ Hm]. by specialize (Hm E).
  - rewrite <- IH. by destruct (find_rmpp_recv m l).
Qed.

Lemma find_Some m l i :
  find_rmpp_recv m l = Some i ->
  exists r, l !! i = Some r /\ lookup_key (mad_key m) l = Some r /\ recv_key r = mad_key m.
Proof.
  revert i. induction l as [|r l IH]; intros i; [done|]. cbn [find_rmpp_recv lookup_key].
  pose proof (matches_key m r) as Hm. destruct (matches m r).
  - intros [= <-]. exists r. rewrite decide_True by (by apply Hm). split_and!; [done|done|by apply Hm].
  - destruct (find_rmpp_recv m l) as [j|]; [|done]. intros [= <-].
    destruct (IH j eq_refl) as (r0 & Hr0 & El & Ek). exists r0. split_and!; [done| |done].
    rewrite decide_False; [done|]. intros E. destruct Hm as [_ Hm]. by specialize (Hm E).
Qed.

Lemma lookup_key_insert m l i r' k :
  find_rmpp_recv m l = Some i -> recv_key r' = mad_key m ->
  lookup_key k (<[i := r']> l) = if decide (mad_key m = k) then Some r' else lookup_key k l.
Proof.
  revert i. induction l as [|r l IH]; intros i; [done|]. cbn [find_rmpp_recv].
  pose proof (matches_key m r) as Hm. destruct (matches m r).
  - intros [= <-] Ek. cbn [list_insert insert lookup_key]. rewrite Ek.
    destruct Hm as [Hm _]. rewrite (Hm eq_refl). by case_decide.
  - destruct (find_rmpp_recv m l) as [j|]; [|done]. intros [= <-] Ek.
    change (<[S j := r']> (r :: l)) with (r :: <[j := r']> l). cbn [lookup_key].
    rewrite (IH j eq_refl Ek). destruct (decide (recv_key r = k)) as [<-|]; [|done].
    rewrite decide_False; [done|]. intros E. destruct Hm as [_ Hm]. by specialize (Hm (eq_sym E)).
Qed.

Lemma lookup_key_app k l r :
  lookup_key k (l ++ [r]) =
  match lookup_key k l with
  | Some x => Some x
  | None => if decide (recv_key r = k) then Some r else None
  end.
Proof.
  induction l as [|x l IH]; [done|]. cbn [lookup_key app].
  destruct (decide (recv_key x = k)); [done|apply IH].
Qed.

Lemma lookup_key_elem k l r : lookup_key k l = Some r -> r ∈ l /\ recv_key r = k.
Proof.
  induction l as [|x l IH]; [done|]. cbn [lookup_key]. case_decide as E.
  - intros [= ->]. split; [by left|done].
  - intros [? ?]%IH. split; [by right|done].
Qed.

(** [N] bounds the number of MADs received so far: no transaction holds more
    buffers, so the windows stay far from overflow. *)
Definition recv_ok (a : rmpp_agent) (N : Z) (r : mad_rmpp_recv) : Prop :=
  recv_inv (window_size a) r /\ Z.of_nat (length (r_list r)) <= N /\ r_refcount r = 1.

Definition agent_ok (N : Z) (a : rmpp_agent) : Prop :=
  Forall (recv_ok a N) (a_recvs a) /\ N + 2 * window_size a + 2 < 2 ^ 31.

Definition same_config (a a' : rmpp_agent) : Prop :=
  a_max_active a' = a_max_active a /\ a_opa a' = a_opa a.

Lemma recv_ok_mono a N N' r : N <= N' -> recv_ok a N r -> recv_ok a N' r.
Proof. intros HN (? & ? & ?). split_and!; [done|lia|done]. Qed.

Lemma add_ref_inv W d r : recv_inv W (add_ref d r) <-> recv_inv W r.
Proof. split; intros [[] Hs]; constructor; try done; by constructor. Qed.

Lemma add_ref_step W a m r r' ev d :
  recv_step_ok W a m (add_ref 1 r) r' ev d -> recv_step_ok W a m r (add_ref (-1) r') ev d.
Proof.
  intros []. constructor; try done; [by apply add_ref_inv|].
  cbn [add_ref upd r_refcount] in *. lia.
Qed.

Lemma step_length W a m r r' ev d :
  recv_step_ok W a m r r' ev d -> (length (r_list r') <= S (length (r_list r)))%nat.
Proof.
  intros []. destruct rs_list0 as [[-> _]|[E _]]; [lia|]. by rewrite E.
Qed.

Lemma window_config a a' : same_config a a' -> window_size a' = window_size a.
Proof. intros [E _]. unfold window_size. by rewrite E. Qed.

(** A MAD for a known transaction. *)
Lemma continue_rmpp_known N env m a r :
  agent_ok N a -> lookup_key (mad_key m) (a_recvs a) = Some r ->
  exists r' ev d a', continue_rmpp env m a = Some (a', ev, d) /\
    recv_step_ok (window_size a) a m r r' ev d /\ same_config a a' /\
    Forall (recv_ok a (N + 1)) (a_recvs a') /\
    map recv_key (a_recvs a') = map recv_key (a_recvs a) /\
    forall k, lookup_key k (a_recvs a') =
      if decide (mad_key m = k) then Some r' else lookup_key k (a_recvs a).
Proof.
  intros [Hall HN] Hl. unfold continue_rmpp.
  destruct (find_rmpp_recv m (a_recvs a)) as [i|] eqn:Ef; [|apply find_None in Ef; congruence].
  destruct (find_Some _ _ _ Ef) as (r0 & Hi & El & Ek). rewrite El in Hl. injection Hl as ->.
  rewrite Hi. cbn [mbind option_bind].
  pose proof (Forall_lookup_1 _ _ _ _ Hall Hi) as (Hinv & Hlen & Href).
  pose proof (ri_num _ _ Hinv). pose proof (ri_cur _ _ Hinv). pose proof (ri_win _ _ Hinv).
  destruct (continue_recv_spec (window_size a) env a m (add_ref 1 r)) as (r1 & ev & d & E & Hok);
    [by apply add_ref_inv|done|cbn; lia|].
  rewrite E. cbn [mbind option_bind]. apply add_ref_step in Hok.
  exists (add_ref (-1) r1), ev, d, (set_recvs (<[i := add_ref (-1) r1]> (a_recvs a)) a).
  split_and!; [done|done|done| | |].
  - cbn [set_recvs a_recvs]. apply Forall_insert.
    + eapply Forall_impl; [apply Hall|]. intros x. apply recv_ok_mono. lia.
    + split_and!; [apply Hok| |]. { pose proof (step_length _ _ _ _ _ _ _ Hok). lia. }
      rewrite (rs_ref _ _ _ _ _ _ _ Hok). done.
  - cbn [set_recvs a_recvs]. change (map recv_key) with (fmap (M := list) recv_key).
    rewrite list_fmap_insert. apply list_insert_id. rewrite list_lookup_fmap, Hi. cbn.
    by rewrite <- (proj1 (rs_key _ _ _ _ _ _ _ Hok)).
  - intros k. apply lookup_key_insert; [done|]. rewrite (proj1 (rs_key _ _ _ _ _ _ _ Hok)). done.
Qed.

(** A first segment of an unknown transaction: a new transaction holds it. *)
Lemma start_rmpp_new N env m a :
  agent_ok N a -> 0 <= N -> lookup_key (mad_key m) (a_recvs a) = None ->
  e_kmalloc env = true -> e_ah env = true -> get_seg_num m = 1 ->
  exists r ev d a', start_rmpp env m a = Some (a', ev, d) /\ same_config a a' /\
    Forall (recv_ok a (N + 1)) (a_recvs a') /\
    map recv_key (a_recvs a') = map recv_key (a_recvs a) ++ [mad_key m] /\
    recv_inv (window_size a) r /\
    recv_key r = mad_key m /\ r_base_version r = m_base_version m /\ r_list r = [m] /\
    (forall k, lookup_key k (a_recvs a') =
       if decide (mad_key m = k) then Some r else lookup_key k (a_recvs a)) /\
    freed ev = [] /\
    (if get_last_flag m then r_state r = RMPP_STATE_COMPLETE /\
       d = Some ([m], get_mad_len (a_opa a) r m)
     else r_state r = RMPP_STATE_ACTIVE /\ d = None) /\
    Forall (fun e => match e with ESend x => x = format_ack m r | EFree _ => True end) ev.
Proof.
  intros [Hall HN] HN0 Hl Hk Ha Hs. pose proof (window_pos a) as Hw. unfold start_rmpp.
  rewrite Hk, Ha. cbn [negb orb]. rewrite (proj2 (find_None _ _) Hl).
  assert (forall r, recv_inv (window_size a) r -> r_list r = [m] -> r_refcount r = 1 ->
    recv_key r = mad_key m ->
    Forall (recv_ok a (N + 1)) (a_recvs a ++ [r]) /\
    forall k, lookup_key k (a_recvs a ++ [r]) =
      if decide (mad_key m = k) then Some r else lookup_key k (a_recvs a)) as Happ.
  { intros r Hr El Er Ek. split.
    - apply Forall_app. split.
      + eapply Forall_impl; [apply Hall|]. intros x. apply recv_ok_mono. lia.
      + constructor; [|constructor]. split_and!; [done|rewrite El; simpl; lia|done].
    - intros k. rewrite lookup_key_app, Ek. case_decide as E; [|by destruct (lookup_key k (a_recvs a))].
      rewrite <- E, Hl. done. }
  assert (forall rc v nw tw cw st, (v = 0 \/ v = 1) -> 1 <= nw <= 1 + window_size a ->
    recv_core (window_size a) (upd st rc tw cw [m] 0 v 1 nw 1 (create_rmpp_recv m))) as Hcore.
  { intros rc v nw tw cw st Hv Hnw. constructor; cbn; try done; try lia.
    - repeat constructor.
    - intros i x Hi Hx. assert (i = 0%nat) as -> by lia. simplify_eq/=. lia.
    - constructor; [lia|done]. }
  destruct (get_last_flag m) eqn:El.
  - set (r0 := set_state RMPP_STATE_COMPLETE (add_ref 1 (create_rmpp_recv m))).
    assert (recv_core (window_size a) r0) as Hc0
      by (apply (Hcore 2 0 1 false false RMPP_STATE_COMPLETE); [by left|lia]).
    destruct (complete_rmpp_ok _ env (a_opa a) r0 Hc0 eq_refl)
      as (v & ev & first & cur & Hf1 & Hc1 & E & Hv & Hev).
    cbn in Hf1, Hc1. simplify_eq. rewrite E. cbn [mbind option_bind].
    set (r := add_ref (-1) _).
    assert (recv_inv (window_size a) r) as Hr.
    { constructor; [apply (Hcore 1 v 1 _ _ RMPP_STATE_COMPLETE); [by destruct Hv as [->| ->]; [left|right]|lia]|].
      cbn. intros x Hx. simplify_eq/=. done. }
    destruct (Happ r Hr eq_refl eq_refl eq_refl) as [Hf Hlk].
    eexists r, ev, _, _. split; [done|]. split_and!; try done.
    + cbn [set_recvs a_recvs]. by rewrite map_app.
    + by destruct Hev as [->| ->].
    + destruct Hev as [->| ->]; repeat constructor; by apply format_ack_ext.
  - set (r0 := set_newwin _ _). destruct (ack_recv_cases env m r0) as (v & ev & E & Hv & Hev). rewrite E.
    assert (r_newwin r0 = 1 + window_size a) as En.
    { unfold r0. cbn [set_newwin upd r_newwin set_works add_ref create_rmpp_recv]. apply s32_id. lia. }
    set (r := add_ref (-1) _).
    assert (recv_inv (window_size a) r) as Hr.
    { constructor.
      - unfold r, r0, set_last_ack, add_ref, set_newwin, set_works, upd in *. cbn in *.
        apply (Hcore 1 v _ true false RMPP_STATE_ACTIVE); [by destruct Hv as [->| ->]; [left|right]|lia].
      - unfold r. cbn [r0 set_last_ack add_ref set_newwin set_works upd r_state r_seg_num r_newwin r_list r_cur create_rmpp_recv].
        split; [rewrite s32_id; lia|]. intros x Hx. simplify_eq/=. done. }
    destruct (Happ r Hr eq_refl eq_refl eq_refl) as [Hf Hlk].
    eexists r, ev, None, _. split; [done|]. split_and!; try done.
    + cbn [set_recvs a_recvs]. by rewrite map_app.
    + by destruct Hev as [->| ->].
    + destruct Hev as [->| ->]; repeat constructor; by apply format_ack_ext.
Qed.

(** ** One MAD *)

(** A data MAD whose header fields agree with its place in the message. *)
Definition good_data (m : rmpp_mad) : Prop :=
  m_rmpp_status m = 0 /\
  has_flag (ib_get_rmpp_flags m) IB_MGMT_RMPP_FLAG_FIRST = (m_seg_num m =? 1).

(** No acknowledgement is sent. *)
Definition only_aborts (ev : list rmpp_event) : Prop :=
  Forall (fun e => match e with
    | ESend x => m_rmpp_type x = IB_MGMT_RMPP_TYPE_ABORT
    | EFree _ => True end) ev.

(** The three outcomes of a data MAD: it is dropped, it goes to its transaction,
    or it opens one. *)
Inductive data_outcome (env : recv_env) (m : rmpp_mad) (a : rmpp_agent)
  : rmpp_agent -> list rmpp_event -> option delivery -> Prop :=
| do_dropped ev :
    freed ev = [m] -> only_aborts ev ->
    (good_data m -> if m_seg_num m =? 1 then e_kmalloc env && e_ah env = false
                    else lookup_key (mad_key m) (a_recvs a) = None) ->
    data_outcome env m a a ev None
| do_known r r' a' ev d :
    lookup_key (mad_key m) (a_recvs a) = Some r ->
    recv_step_ok (window_size a) a m r r' ev d ->
    map recv_key (a_recvs a') = map recv_key (a_recvs a) ->
    (forall k, lookup_key k (a_recvs a') =
       if decide (mad_key m = k) then Some r' else lookup_key k (a_recvs a)) ->
    data_outcome env m a a' ev d
| do_new r a' ev d :
    lookup_key (mad_key m) (a_recvs a) = None -> m_seg_num m = 1 ->
    recv_inv (window_size a) r -> recv_key r = mad_key m -> r_base_version r = m_base_version m ->
    r_list r = [m] ->
    map recv_key (a_recvs a') = map recv_key (a_recvs a) ++ [mad_key m] ->
    (forall k, lookup_key k (a_recvs a') =
       if decide (mad_key m = k) then Some r else lookup_key k (a_recvs a)) ->
    freed ev = [] ->
    (if get_last_flag m then r_state r = RMPP_STATE_COMPLETE /\
       d = Some ([m], get_mad_len (a_opa a) r m)
     else r_state r = RMPP_STATE_ACTIVE /\ d = None) ->
    Forall (fun e => match e with ESend x => x = format_ack m r | EFree _ => True end) ev ->
    data_outcome env m a a' ev d.

Lemma freed_app ev ev' : freed (ev ++ ev') = freed ev ++ freed ev'.
Proof. unfold freed. by rewrite omap_app, concat_app. Qed.

Lemma freed_nack env m s : freed (nack_recv env m s) = [].
Proof. unfold nack_recv. by destruct (e_nack env). Qed.

Lemma nack_only_aborts env m s ms : only_aborts (nack_recv env m s ++ [EFree ms]).
Proof. unfold only_aborts, nack_recv. destruct (e_nack env); by repeat constructor. Qed.

Lemma free_only_aborts ms : only_aborts [EFree ms].
Proof. by repeat constructor. Qed.

#[local] Hint Resolve nack_only_aborts free_only_aborts : core.

Lemma same_config_refl a : same_config a a.
Proof. done. Qed.

Lemma process_rmpp_data_spec N env m a :
  agent_ok N a -> 0 <= N ->
  exists a' ev d, process_rmpp_data env m a = Some (a', ev, d) /\ same_config a a' /\
    Forall (recv_ok a (N + 1)) (a_recvs a') /\ data_outcome env m a a' ev d.
Proof.
  intros Hok HN. pose proof Hok as [Hall _].
  assert (Forall (recv_ok a (N + 1)) (a_recvs a)) as Hall1
    by (eapply Forall_impl; [apply Hall|]; intros x; apply recv_ok_mono; lia).
  assert (forall s, ~ good_data m -> exists a' ev d,
    Some (a, nack_recv env m s ++ [EFree [m]], None) = Some (a', ev, d) /\ same_config a a' /\
    Forall (recv_ok a (N + 1)) (a_recvs a') /\ data_outcome env m a a' ev d) as Hbad.
  { intros s Hb. eexists _, _, _. split_and!; [done|done|done|].
    constructor; [by rewrite freed_app, freed_nack|auto|done]. }
  assert (forall r, lookup_key (mad_key m) (a_recvs a) = Some r ->
    exists a' ev d, continue_rmpp env m a = Some (a', ev, d) /\ same_config a a' /\
      Forall (recv_ok a (N + 1)) (a_recvs a') /\ data_outcome env m a a' ev d) as Hknown.
  { intros r Hr. destruct (continue_rmpp_known N env m a r Hok Hr) as (r' & ev & d & a' & E & Hst & Hc & Hf & Hkeys & Hlk).
    exists a', ev, d. split_and!; [done|done|done|]. by eapply do_known. }
  unfold process_rmpp_data, truthy.
  destruct (Z.eqb_spec (m_rmpp_status m) 0) as [Es|Es]; cbn [negb].
  2: { apply Hbad. intros [? _]. done. }
  destruct (has_flag (ib_get_rmpp_flags m) IB_MGMT_RMPP_FLAG_FIRST) eqn:Ef, (Z.eqb_spec (m_seg_num m) 1) as [E1|E1];
    cbn [negb]; [|by apply Hbad; intros [_ H]; rewrite Ef in H; apply eq_sym, Z.eqb_eq in H
                 |by apply Hbad; intros [_ H]; rewrite Ef, E1 in H|].
  - destruct (lookup_key (mad_key m) (a_recvs a)) as [r|] eqn:El.
    + unfold start_rmpp. destruct (find_rmpp_recv m (a_recvs a)) eqn:Efi; [|apply find_None in Efi; congruence].
      destruct (e_kmalloc env && e_ah env) eqn:Eka.
      * apply andb_true_iff in Eka as [-> ->]. cbn [negb orb]. by apply (Hknown r).
      * rewrite <- negb_andb, Eka. cbn [negb]. eexists _, _, _. split_and!; [done|done|done|].
        constructor; [done|auto|]. intros _. by rewrite E1.
    + destruct (e_kmalloc env) eqn:Ek, (e_ah env) eqn:Eh;
        try (unfold start_rmpp; rewrite Ek, Eh; cbn [negb orb]; eexists _, _, _; split_and!; [done|done|done|];
             constructor; [done|auto|]; intros _; rewrite E1, Ek, Eh; done).
      destruct (start_rmpp_new N env m a Hok HN El Ek Eh) as
        (r & ev & d & a' & E & Hc & Hf & Hkeys & Hi & Hk & Hbv & Hl & Hlk & Hfr & Hd & Hack);
        [unfold get_seg_num; rewrite E1; done|].
      exists a', ev, d. split_and!; [done|done|done|]. by eapply do_new.
  - destruct (lookup_key (mad_key m) (a_recvs a)) as [r|] eqn:El; [by apply (Hknown r)|].
    unfold continue_rmpp. rewrite (proj2 (find_None _ _) El).
    eexists _, _, _. split_and!; [done|done|done|]. constructor; [done|auto|].
    intros _. by rewrite (proj2 (Z.eqb_neq _ _) E1).
Qed.

(** ** Messages *)

(** The segments of one message, in order: numbered from 1, the flags of the
    first and of the last one set accordingly, all with the key of the
    transaction. *)
Record is_message (k : rkey) (msg : list rmpp_mad) : Prop := {
  im_nonempty : msg <> [];
  im_small : Z.of_nat (length msg) < 2 ^ 31;
  im_seg : forall i m, msg !! i = Some m ->
    m_seg_num m = Z.of_nat i + 1 /\ good_data m /\ mad_key m = k /\
    get_last_flag m = bool_decide (S i = length msg)
}.

(** The length announced for the whole message. *)
Definition message_len (opa : bool) (msg : list rmpp_mad) : Z :=
  match msg with
  | [] => 0
  | f :: _ =>
      get_mad_len opa
        (set_segs msg (length msg - 1) (Z.of_nat (length msg)) (create_rmpp_recv f))
        (default f (last msg))
  end.

Lemma get_mad_len_ext opa r r' cur :
  r_base_version r = r_base_version r' -> r_seg_num r = r_seg_num r' ->
  get_mad_len opa r cur = get_mad_len opa r' cur.
Proof. unfold get_mad_len. by intros -> ->. Qed.

Section Message.

Context (k : rkey) (msg : list rmpp_mad) (Hmsg : is_message k msg).

Lemma msg_seg i m : msg !! i = Some m -> get_seg_num m = Z.of_nat i + 1.
Proof.
  intros Hi. destruct (im_seg _ _ Hmsg i m Hi) as (E & _). unfold get_seg_num. rewrite E.
  pose proof (im_small _ _ Hmsg). apply lookup_lt_Some in Hi. apply s32_id. lia.
Qed.

(** The transaction holds segments of the message only. *)
Definition from_msg (r : mad_rmpp_recv) : Prop := Forall (fun m => m ∈ msg) (r_list r).

Lemma prefix_is_msg W r i m :
  recv_core W r -> from_msg r -> (i <= r_cur r)%nat -> r_list r !! i = Some m -> msg !! i = Some m.
Proof.
  intros H Hf Hi Hm. pose proof (ri_prefix _ _ H i m Hi Hm) as Es.
  pose proof (Forall_lookup_1 _ _ _ _ Hf Hm) as Hin. apply list_elem_of_lookup in Hin as [j Hj].
  rewrite (msg_seg j m Hj) in Es. by assert (j = i) as <- by lia.
Qed.

Lemma prefix_le_msg W r : recv_core W r -> from_msg r -> (r_cur r < length msg)%nat.
Proof.
  intros H Hf. destruct (lookup_lt_is_Some_2 (r_list r) (r_cur r)) as [m Hm]; [apply H|].
  by apply (prefix_is_msg W r), lookup_lt_Some in Hm.
Qed.

(** A complete transaction holds exactly the message. *)
Lemma complete_is_msg W r :
  recv_inv W r -> from_msg r -> r_state r = RMPP_STATE_COMPLETE ->
  r_list r = msg /\ r_seg_num r = Z.of_nat (length msg).
Proof.
  intros H Hf Hst. pose proof H as [Hc Hs]. rewrite Hst in Hs.
  destruct (lookup_lt_is_Some_2 (r_list r) (r_cur r)) as [cur Hcur]; [apply Hc|].
  specialize (Hs cur Hcur). pose proof (prefix_is_msg W r _ _ Hc Hf (Nat.le_refl _) Hcur) as Hm.
  destruct (im_seg _ _ Hmsg _ _ Hm) as (_ & _ & _ & El). rewrite Hs in El.
  symmetry in El. apply bool_decide_eq_true in El.
  assert (r_seg_num r = Z.of_nat (length msg)) as En by (rewrite (ri_num _ _ Hc); lia).
  split; [|done].
  assert (length (r_list r) = length msg) as Elen.
  { pose proof (ri_cur _ _ Hc). destruct (decide (length (r_list r) = length msg)) as [|Hne]; [done|].
    destruct (lookup_lt_is_Some_2 (r_list r) (S (r_cur r))) as [x Hx]; [lia|].
    pose proof (ri_next _ _ Hc x Hx).
    pose proof (Forall_lookup_1 _ _ _ _ Hf Hx) as Hin. apply list_elem_of_lookup in Hin as [j Hj].
    pose proof (msg_seg j x Hj). apply lookup_lt_Some in Hj. lia. }
  apply list_eq_same_length with (length msg); [done|done|].
  intros i x y Hi Hx Hy. rewrite (prefix_is_msg W r i x Hc Hf) in Hy; [congruence|lia|done].
Qed.

(** An active transaction has not reached the last segment. *)
Lemma active_below_msg W r :
  recv_inv W r -> from_msg r -> r_state r = RMPP_STATE_ACTIVE ->
  r_seg_num r < Z.of_nat (length msg).
Proof.
  intros H Hf Hst. pose proof H as [Hc Hs]. rewrite Hst in Hs. destruct Hs as [_ Hs].
  destruct (lookup_lt_is_Some_2 (r_list r) (r_cur r)) as [cur Hcur]; [apply Hc|].
  specialize (Hs cur Hcur). pose proof (prefix_is_msg W r _ _ Hc Hf (Nat.le_refl _) Hcur) as Hm.
  destruct (im_seg _ _ Hmsg _ _ Hm) as (_ & _ & _ & El). rewrite Hs in El.
  symmetry in El. apply bool_decide_eq_false in El.
  pose proof (prefix_le_msg W r Hc Hf). rewrite (ri_num _ _ Hc). lia.
Qed.

(** The state of the transaction and what has been delivered for it. *)
Definition tx_ok (a : rmpp_agent) (ds : list delivery) : Prop :=
  match lookup_key k (a_recvs a) with
  | None => ds = []
  | Some r => recv_inv (window_size a) r /\ from_msg r /\
      (forall f, msg !! 0%nat = Some f -> r_base_version r = m_base_version f) /\
      match r_state r with
      | RMPP_STATE_COMPLETE => ds = [(msg, message_len (a_opa a) msg)]
      | _ => ds = []
      end
  end.

(** How many leading segments have certainly been taken in. *)
Definition taken (j : nat) (a : rmpp_agent) : Prop :=
  match lookup_key k (a_recvs a) with
  | None => j = 0%nat
  | Some r => Z.of_nat j <= r_seg_num r
  end.

Lemma delivered_len opa W r cur :
  recv_inv W r -> from_msg r -> r_state r = RMPP_STATE_COMPLETE ->
  (forall f, msg !! 0%nat = Some f -> r_base_version r = m_base_version f) ->
  r_list r !! r_cur r = Some cur -> get_mad_len opa r cur = message_len opa msg.
Proof.
  intros H Hf Hst Hbv Hcur. destruct (complete_is_msg W r H Hf Hst) as [El En].
  pose proof (ri_num _ _ H) as Hn. unfold message_len.
  destruct msg as [|f rest] eqn:Em; [rewrite El in Hcur; done|].
  rewrite <- Em in *. assert (last msg = Some cur) as ->.
  { rewrite last_lookup. rewrite El in Hcur. rewrite <- Hcur. f_equal. lia. }
  apply get_mad_len_ext; cbn; [apply Hbv; by rewrite Em|lia].
Qed.

Lemma step_from_msg W a m r r' ev d :
  recv_step_ok W a m r r' ev d -> m ∈ msg -> from_msg r -> from_msg r'.
Proof.
  intros Hok Hm Hf. unfold from_msg in *.
  destruct (rs_list _ _ _ _ _ _ _ Hok) as [[-> _]|[-> _]]; [done|by constructor].
Qed.

(** One MAD: another transaction is left alone, and a segment of the message
    moves the transaction on. *)
Lemma data_step env m a a' ev d ds :
  data_outcome env m a a' ev d -> same_config a a' -> (mad_key m = k -> m ∈ msg) -> tx_ok a ds ->
  tx_ok a' (if decide (mad_key m = k) then ds ++ from_option (fun x => [x]) [] d else ds) /\
  (forall j, taken j a -> taken j a') /\
  (forall i, msg !! i = Some m -> e_kmalloc env && e_ah env = true -> taken i a -> taken (S i) a').
Proof.
  intros Ho Hcfg Hin Htx. pose proof (window_config _ _ Hcfg) as Ew. destruct Hcfg as [_ Eopa].
  assert (forall i, msg !! i = Some m -> mad_key m = k /\ m ∈ msg /\ m_seg_num m = Z.of_nat i + 1
            /\ get_seg_num m = Z.of_nat i + 1 /\ good_data m) as Him.
  { intros i Hi. destruct (im_seg _ _ Hmsg i m Hi) as (E & Hg & Ek & _).
    split_and!; [done|by apply list_elem_of_lookup_2 in Hi|done|by apply msg_seg|done]. }
  destruct Ho as [ev Hfr _ Hnone | r r' a' ev d Hl Hok _ Hlk | r a' ev d Hl Hs1 Hi Hk Hbv El _ Hlk Hfr Hd _].
  - split_and!; [|done|].
    + cbn [from_option]. rewrite app_nil_r. by case_decide.
    + intros i Hi Hka Ht. destruct (Him i Hi) as (Ek & _ & Es & _ & Hg). specialize (Hnone Hg).
      unfold taken in *. destruct (Z.eqb_spec (m_seg_num m) 1); [congruence|].
      rewrite Ek in Hnone. rewrite Hnone in Ht |- *. lia.
  - destruct (decide (mad_key m = k)) as [Ek|Ek].
    2: { unfold tx_ok, taken. rewrite Hlk, Ew, Eopa. rewrite !decide_False by done.
         split_and!; [done|done|]. intros i Hi. by destruct (Him i Hi) as (? & _). }
    specialize (Hin Ek). unfold tx_ok, taken in *. rewrite Hlk, Ew, Eopa. rewrite decide_True by done.
    rewrite Ek in Hl. rewrite Hl in Htx |- *. destruct Htx as (Hinv & Hf & Hb & Hds).
    pose proof (step_from_msg _ _ _ _ _ _ _ Hok Hin Hf) as Hf'. pose proof Hok as [].
    split_and!; [done|done| | |intros j Hj; lia|].
    + intros f Hf0. rewrite (proj2 rs_key0). by apply Hb.
    + destruct d as [[l len]|].
      * destruct rs_done0 as (Ha & Hc & -> & cur & Hcur & ->). rewrite Ha in Hds. rewrite Hc, Hds.
        cbn [from_option app]. destruct (complete_is_msg _ _ rs_inv0 Hf' Hc) as [-> _].
        rewrite (delivered_len (a_opa a) _ _ _ rs_inv0 Hf' Hc); [done| |done].
        intros f Hf0. rewrite (proj2 rs_key0). by apply Hb.
      * rewrite rs_done0. cbn [from_option]. by rewrite app_nil_r.
    + intros i Hi _ Ht. destruct (Him i Hi) as (_ & _ & _ & Es & _).
      destruct (r_state r) eqn:Est.
      * destruct (decide (Z.of_nat i = r_seg_num r)); [|lia].
        pose proof (rs_progress0 eq_refl). lia.
      * destruct Hinv as [_ Hst]. by rewrite Est in Hst.
      * destruct (complete_is_msg _ _ Hinv Hf Est) as [_ En]. apply lookup_lt_Some in Hi. lia.
  - destruct (decide (mad_key m = k)) as [Ek|Ek].
    2: { unfold tx_ok, taken. rewrite Hlk, Ew, Eopa. rewrite !decide_False by done.
         split_and!; [done|done|]. intros i Hi'. by destruct (Him i Hi') as (? & _). }
    specialize (Hin Ek). unfold tx_ok, taken in *. rewrite Hlk, Ew, Eopa. rewrite decide_True by done.
    rewrite Ek in Hl. rewrite Hl in Htx |- *. subst ds.
    assert (from_msg r) as Hf by (unfold from_msg; rewrite El; by repeat constructor).
    pose proof (ri_num _ _ Hi) as Hn.
    assert (forall f, msg !! 0%nat = Some f -> r_base_version r = m_base_version f) as Hb.
    { intros f Hf0. rewrite Hbv. apply list_elem_of_lookup in Hin as [j Hj].
      destruct (im_seg _ _ Hmsg j m Hj) as (Es & _). assert (j = 0%nat) as -> by lia. congruence. }
    split_and!; [done|done|done| |intros j ->; lia|].
    + destruct (get_last_flag m); destruct Hd as [Est ->]; rewrite Est; [|done].
      cbn [from_option app]. destruct (complete_is_msg _ _ Hi Hf Est) as [Em _].
      pose proof (ri_cur _ _ Hi). rewrite El in Em, H. simpl in H.
      rewrite (delivered_len (a_opa a) _ r m Hi Hf Est Hb); [by rewrite Em|].
      rewrite El. by assert (r_cur r = 0%nat) as -> by lia.
    + intros i Hi' _ ->. lia.
Qed.

End Message.

(** ** A sequence of arrivals *)

Fixpoint recv_run (l : list (recv_env * rmpp_mad)) (a : rmpp_agent)
  : option (rmpp_agent * list (rkey * delivery)) :=
  match l with
  | [] => Some (a, [])
  | (env, m) :: l' =>
      '(a1, _, d) ← process_rmpp_data env m a;
      '(a2, ds) ← recv_run l' a1;
      Some (a2, from_option (fun x => [(mad_key m, x)]) [] d ++ ds)
  end.

Definition deliveries_of (k : rkey) (ds : list (rkey * delivery)) : list delivery :=
  map snd (filter (fun x => x.1 = k) ds).

Lemma deliveries_of_app k ds ds' :
  deliveries_of k (ds ++ ds') = deliveries_of k ds ++ deliveries_of k ds'.
Proof. unfold deliveries_of. by rewrite filter_app, map_app. Qed.

Lemma deliveries_of_one k k' d :
  deliveries_of k (from_option (fun x => [(k', x)]) [] d) =
  if decide (k' = k) then from_option (fun x => [x]) [] d else [].
Proof.
  unfold deliveries_of. destruct d as [x|]; cbn [from_option]; [|by case_decide].
  rewrite filter_cons. cbn [fst]. by case_decide.
Qed.

Lemma recv_run_spec k msg l N a ds0 j :
  is_message k msg -> agent_ok (N + Z.of_nat (length l)) a -> Forall (recv_ok a N) (a_recvs a) ->
  0 <= N -> Forall (fun x => mad_key x.2 = k -> x.2 ∈ msg) l -> tx_ok k msg a ds0 -> taken k j a ->
  exists a' ds, recv_run l a = Some (a', ds) /\ same_config a a' /\
    Forall (recv_ok a (N + Z.of_nat (length l))) (a_recvs a') /\
    tx_ok k msg a' (ds0 ++ deliveries_of k ds) /\ taken k j a' /\
    (Forall (fun x => e_kmalloc x.1 && e_ah x.1 = true) l ->
     sublist (drop j msg) (map snd l) -> taken k (length msg) a').
Proof.
  intros Hmsg. revert N a ds0 j. induction l as [|[env m] l IH]; intros N a ds0 j Hok Hrecv HN Hin Htx Ht.
  { exists a, []. cbn [recv_run]. rewrite app_nil_r. cbn [length] in *. rewrite Z.add_0_r.
    split_and!; try done. intros _ Hs. apply sublist_nil_r in Hs.
    assert (length msg <= j)%nat as Hj by (pose proof (f_equal length Hs) as E; rewrite length_drop in E; simpl in E; lia).
    unfold taken in *. destruct (lookup_key k (a_recvs a)) as [r|].
    - lia.
    - subst j. pose proof (im_nonempty _ _ Hmsg). destruct msg; [done|simpl in Hj; lia]. }
  apply Forall_cons_iff in Hin as [Hm Hin]. cbn [snd] in Hm.
  destruct Hok as [_ HNb]. cbn [length] in HNb.
  destruct (process_rmpp_data_spec N env m a) as (a1 & ev & d & E & Hcfg & Hf1 & Ho); [split; [done|lia]|done|].
  pose proof (window_config _ _ Hcfg) as Ew.
  destruct (data_step k msg Hmsg env m a a1 ev d ds0 Ho Hcfg Hm Htx) as (Htx1 & Hmono & Hprog).
  assert (Forall (recv_ok a1 (N + 1)) (a_recvs a1)) as Hf1'
    by (unfold recv_ok in *; rewrite Ew; done).
  assert (forall j', taken k j' a1 ->
    exists a' ds, recv_run l a1 = Some (a', ds) /\ same_config a1 a' /\
    Forall (recv_ok a1 (N + 1 + Z.of_nat (length l))) (a_recvs a') /\
    tx_ok k msg a' ((if decide (mad_key m = k) then ds0 ++ from_option (fun x => [x]) [] d else ds0)
       ++ deliveries_of k ds) /\ taken k j' a' /\
    (Forall (fun x => e_kmalloc x.1 && e_ah x.1 = true) l ->
     sublist (drop j' msg) (map snd l) -> taken k (length msg) a')) as IH'.
  { intros j' Hj'. apply IH; [|done|lia|done|done|done]. split; [|rewrite Ew; lia].
    eapply Forall_impl; [apply Hf1'|]. intros x. apply recv_ok_mono. lia. }
  destruct (IH' j (Hmono j Ht)) as (a' & ds & Er & Hcfg' & Hf' & Htx' & Ht' & Hlive').
  exists a', (from_option (fun x => [(mad_key m, x)]) [] d ++ ds). split_and!.
  - cbn [recv_run]. rewrite E. cbn [mbind option_bind]. by rewrite Er.
  - destruct Hcfg, Hcfg'. split; congruence.
  - cbn [length]. unfold recv_ok in *. rewrite Ew in Hf'.
    by replace (N + Z.of_nat (S (length l))) with (N + 1 + Z.of_nat (length l)) by lia.
  - rewrite deliveries_of_app, deliveries_of_one. case_decide; [|done]. by rewrite app_assoc.
  - done.
  - intros Henv Hsub. apply Forall_cons_iff in Henv as [He Henv]. cbn [fst] in He.
    cbn [map snd] in Hsub. destruct (drop j msg) as [|x rest] eqn:Edrop.
    + apply Hlive'; [done|]. apply sublist_nil_l.
    + assert (msg !! j = Some x) as Hj by (rewrite <- (Nat.add_0_r j), <- lookup_drop, Edrop; done).
      assert (drop (S j) msg = rest) as Erest 
        by (replace (S j) with (j + 1)%nat by lia; rewrite <- drop_drop, Edrop; done).
      apply sublist_cons_r in Hsub as [Hsub|(rest' & E' & Hsub)].
      * by apply Hlive'.
      * injection E' as -> <-. destruct (IH' (S j)) as (a'' & ds'' & Er'' & _ & _ & _ & _ & Hlive'').
        { by apply Hprog. }
        rewrite Er in Er''. injection Er'' as <- <-. apply Hlive''; [done|]. by rewrite Erest.
Qed.

(** ** Properties *)

(** C19. Whatever data MADs arrive, in any order, repeated or missing, mixed with
    the segments of other transactions, and whichever services fail, an agent
    processes them without undefined behaviour and keeps the invariant of all its
    transactions; for a transaction whose segments all belong to one message, it
    delivers nothing or, once, exactly the segments of that message in order with
    its length. *)
Theorem rmpp_reassembly_correct k msg l a N
  (Hmsg : is_message k msg) (Ha : Forall (recv_ok a N) (a_recvs a)) (HN : 0 <= N)
  (Hb : N + Z.of_nat (length l) + 2 * window_size a + 2 < 2 ^ 31)
  (Hnew : lookup_key k (a_recvs a) = None)
  (Hin : Forall (fun x => mad_key x.2 = k -> x.2 ∈ msg) l) :
  exists a' ds, recv_run l a = Some (a', ds) /\
    Forall (recv_ok a (N + Z.of_nat (length l))) (a_recvs a') /\
    (deliveries_of k ds = [] \/ deliveries_of k ds = [(msg, message_len (a_opa a) msg)]).
Proof.
  destruct (recv_run_spec k msg l N a [] 0) as (a' & ds & E & Hcfg & Hf & Htx & _); try done.
  { split; [|done]. eapply Forall_impl; [apply Ha|]. intros r. apply recv_ok_mono. lia. }
  { unfold tx_ok. by rewrite Hnew. }
  { unfold taken. by rewrite Hnew. }
  exists a', ds. split_and!; [done|done|]. unfold tx_ok in Htx. cbn [app] in Htx.
  rewrite (proj2 Hcfg) in Htx. destruct (lookup_key k (a_recvs a')) as [r|]; [|by left].
  destruct Htx as (_ & _ & _ & Hd). destruct (r_state r); [by left|by left|by right].
Qed.

(** A message of three segments, and arrivals out of order with a duplicate, a
    failed acknowledgement and a segment of another transaction. *)
Definition demo_seg (tid i : Z) : rmpp_mad :=
  {| m_tid := tid; m_mgmt_class := 48; m_class_version := 1; m_method := 1; m_base_version := 1;
     m_src_qp := 1; m_slid := 9; m_rmpp_version := 1; m_rmpp_type := 1;
     m_rtime_flags := (if i =? 1 then 3 else if i =? 3 then 5 else 1);
     m_rmpp_status := 0; m_seg_num := i; m_paylen_newwin := (if i =? 3 then 200 else 0);
     m_data := [i];
     m_attr_mod := 0; m_grh := None; m_path_bits := 0 |}.

Definition demo_msg : list rmpp_mad := [demo_seg 7 1; demo_seg 7 2; demo_seg 7 3].

Definition demo_env (ack : ack_result) : recv_env :=
  {| e_kmalloc := true; e_ah := true; e_ack := ack; e_nack := true |}.

Definition demo_agent : rmpp_agent := {| a_recvs := []; a_max_active := 16; a_opa := false |}.

Definition demo_arrivals : list (recv_env * rmpp_mad) :=
  [(demo_env AckPosted, demo_seg 7 1); (demo_env AckPosted, demo_seg 7 3);
   (demo_env AckNoMsg, demo_seg 7 1); (demo_env AckPosted, demo_seg 8 1);
   (demo_env AckPostFailed, demo_seg 7 2); (demo_env AckPosted, demo_seg 7 3)].

Lemma demo_is_message : is_message (mad_key (demo_seg 7 1)) demo_msg.
Proof.
  constructor; [done|cbn; lia|].
  intros i m Hi. destruct i as [|[|[|i]]]; simplify_eq/=; (split; [done|]); (split; [|by split]); by split.
Qed.

Lemma demo_arrivals_in :
  Forall (fun x => mad_key x.2 = mad_key (demo_seg 7 1) -> x.2 ∈ demo_msg) demo_arrivals.
Proof.
  unfold demo_arrivals, demo_msg. rewrite !Forall_cons_iff. cbn [snd].
  split_and!; [..|apply Forall_nil; done]; intros E; try done;
    repeat (apply elem_of_cons; first [left; reflexivity|right]).
Qed.

Lemma rmpp_reassembly_correct_witness :
  exists a' ds, recv_run demo_arrivals demo_agent = Some (a', ds) /\
    Forall (recv_ok demo_agent (0 + Z.of_nat (length demo_arrivals))) (a_recvs a') /\
    (deliveries_of (mad_key (demo_seg 7 1)) ds = [] \/
     deliveries_of (mad_key (demo_seg 7 1)) ds = [(demo_msg, message_len (a_opa demo_agent) demo_msg)]).
Proof.
  apply rmpp_reassembly_correct; [exact demo_is_message|constructor|lia|vm_compute; reflexivity|
    reflexivity|exact demo_arrivals_in].
Defined.

(** Liveness: if the segments of the message arrive at least once each in
    order, whatever arrives in between (duplicates, later segments ahead of their
    turn, other transactions), and memory is available for the transaction, the
    message is delivered, exactly once: the window never blocks the next segment. *)
Theorem rmpp_reassembly_live k msg l a N
  (Hmsg : is_message k msg) (Ha : Forall (recv_ok a N) (a_recvs a)) (HN : 0 <= N)
  (Hb : N + Z.of_nat (length l) + 2 * window_size a + 2 < 2 ^ 31)
  (Hnew : lookup_key k (a_recvs a) = None)
  (Hin : Forall (fun x => mad_key x.2 = k -> x.2 ∈ msg) l)
  (Henv : Forall (fun x => e_kmalloc x.1 && e_ah x.1 = true) l)
  (Hsub : sublist msg (map snd l)) :
  exists a' ds, recv_run l a = Some (a', ds) /\
    deliveries_of k ds = [(msg, message_len (a_opa a) msg)].
Proof.
  destruct (recv_run_spec k msg l N a [] 0) as (a' & ds & E & Hcfg & Hf & Htx & _ & Hlive); try done.
  { split; [|done]. eapply Forall_impl; [apply Ha|]. intros r. apply recv_ok_mono. lia. }
  { unfold tx_ok. by rewrite Hnew. }
  { unfold taken. by rewrite Hnew. }
  exists a', ds. split; [done|]. specialize (Hlive Henv Hsub).
  unfold tx_ok, taken in *. cbn [app] in Htx. rewrite (proj2 Hcfg) in Htx.
  destruct (lookup_key k (a_recvs a')) as [r|].
  - destruct Htx as (Hi & Hfm & _ & Hd). destruct (r_state r) eqn:Est; [|by destruct Hi as [_ Hs]; rewrite Est in Hs|done].
    pose proof (active_below_msg k msg Hmsg _ r Hi Hfm Est). lia.
  - pose proof (im_nonempty _ _ Hmsg). by destruct msg.
Qed.

Lemma rmpp_reassembly_live_witness :
  exists a' ds, recv_run demo_arrivals demo_agent = Some (a', ds) /\
    deliveries_of (mad_key (demo_seg 7 1)) ds = [(demo_msg, message_len (a_opa demo_agent) demo_msg)].
Proof.
  apply (rmpp_reassembly_live _ _ _ _ 0); [exact demo_is_message|constructor|lia|vm_compute; reflexivity|
    reflexivity|exact demo_arrivals_in|repeat constructor|].
  unfold demo_msg, demo_arrivals. cbn [map snd].
  apply sublist_skip, sublist_cons, sublist_cons, sublist_cons, sublist_skip, sublist_skip, sublist_nil.
Defined.
