(* ===== verification/RmppSend.v ===== *)
(** * RMPP, sending side (mad_rmpp.c, with the segment lists of mad.c)

    A send work request carries the segments of a message; the protocol sends
    them in order inside the window granted by the receiver, moves the window on
    acknowledgements and goes back to the last acknowledged segment on a timeout.
    This file models the fields of the work request the protocol uses and the
    code that reads and writes them.

    The segments are a circular kernel list; [cur_seg] and [last_ack_seg] point
    into it. A node is its position, the position [length segs] being the list
    head. The loops of [ib_get_rmpp_segment] and [adjust_last_ack] start at a
    segment and treat every node they meet as a segment, the list head included:
    the [num] they read there is the parameter [hnum]. *)

From Stdlib Require Import ZArith Lia.
From stdpp Require Import base tactics numbers list option sorting.
From S2P Require Import MadReg.
From S2P Require Import Prelude RmppRecv.

Local Open Scope Z_scope.

(** Results of the RMPP layer (mad_rmpp.h). *)
Definition IB_RMPP_RESULT_PROCESSED : Z := 0.
Definition IB_RMPP_RESULT_CONSUMED : Z := 1.
Definition IB_RMPP_RESULT_INTERNAL : Z := 2.
Definition IB_RMPP_RESULT_UNHANDLED : Z := 3.

Definition IB_WC_SUCCESS : Z := 0.
Definition IB_WC_WR_FLUSH_ERR : Z := 5.
Definition IB_WC_REM_ABORT_ERR : Z := 16.
Definition IB_WC_RESP_TIMEOUT_ERR : Z := 20.
Definition IB_WC_GENERAL_ERR : Z := 21.

(** ** Segmentation (mad.c) *)

Definition get_pad_size (hdr_len data_len mad_size : Z) : Z :=
  let seg_size := s32 (mad_size - hdr_len) in
  if truthy data_len && truthy seg_size then
    let pad := seg_size - Z.rem data_len seg_size in
    if pad =? seg_size then 0 else pad
  else seg_size.

(** The loop of [alloc_send_rmpp_list]: [inr n] is [n] segments allocated,
    [inl n] a failure after [n] allocations, all released. *)
Fixpoint alloc_loop (fuel : nat) (left seg_size : Z) (seg_count : nat) (ok : nat -> bool)
  : option (nat + nat) :=
  match fuel with
  | O => None
  | S f =>
      if 0 <? left then
        if ok seg_count then alloc_loop f (s32 (left - seg_size)) seg_size (S seg_count) ok
        else Some (inl seg_count)
      else Some (inr seg_count)
  end.

(** A send buffer: the lengths computed for it and the segments allocated. *)
Record created_send := {
  cs_hdr_len : Z; cs_data_len : Z; cs_pad : Z;
  cs_sge0_length : Z; cs_sge1_length : Z;
  cs_seg_size : Z; cs_seg_rmpp_size : Z; cs_seg_count : nat
}.

Definition mad_size_of (opa : bool) (base_version : Z) : Z :=
  if opa && (base_version =? OPA_MGMT_BASE_VERSION) then OPA_MGMT_MAD_SIZE else IB_MGMT_MAD_SIZE.

Definition alloc_send_rmpp_list (c : created_send) (mad_size : Z) (ok : nat -> bool)
  : option (Z + created_send) :=
  let seg_size := s32 (mad_size - cs_hdr_len c) in
  let left := s32 (cs_data_len c + cs_pad c) in
  r ← alloc_loop (S (Z.to_nat left)) left seg_size 0 ok;
  match r with
  | inl _ => Some (inl (err ENOMEM))
  | inr n =>
      Some (inr {| cs_hdr_len := cs_hdr_len c; cs_data_len := cs_data_len c; cs_pad := cs_pad c;
                   cs_sge0_length := cs_sge0_length c; cs_sge1_length := cs_sge1_length c;
                   cs_seg_size := seg_size; cs_seg_rmpp_size := s32 (mad_size - IB_MGMT_RMPP_HDR);
                   cs_seg_count := n |})
  end.

(** [ib_create_send_mad]; the comparison with [mad_size], a [size_t], is unsigned. *)
Definition ib_create_send_mad (kernel_rmpp opa rmpp_active : bool) (hdr_len data_len base_version : Z)
    (kzalloc : bool) (ok : nat -> bool) : option (Z + created_send) :=
  let mad_size := mad_size_of opa base_version in
  let pad := get_pad_size hdr_len data_len mad_size in
  let message_size := s32 (hdr_len + data_len + pad) in
  let too_big := mad_size <? u64 message_size in
  if (if kernel_rmpp then negb rmpp_active && too_big else rmpp_active || too_big)
  then Some (inl (err EINVAL)) else
  if negb kzalloc then Some (inl (err ENOMEM)) else
  let c := {| cs_hdr_len := hdr_len; cs_data_len := data_len; cs_pad := pad;
              cs_sge0_length := u32 hdr_len;
              cs_sge1_length :=
                if opa && (base_version =? OPA_MGMT_BASE_VERSION) &&
                   (u64 data_len <? u64 (mad_size - hdr_len))
                then u32 data_len else u32 (mad_size - hdr_len);
              cs_seg_size := 0; cs_seg_rmpp_size := 0; cs_seg_count := 0 |} in
  if rmpp_active then alloc_send_rmpp_list c mad_size ok else Some (inr c).

(** ** Send work requests *)

Record ib_mad_send_wr_private := {
  w_mad : rmpp_mad;
  w_segs : list (list Z);
  w_seg_count : Z;
  w_seg_rmpp_size : Z;
  w_pad : Z;
  w_cur_seg : nat;
  w_last_ack_seg : nat;
  w_last_ack : Z;
  w_seg_num : Z;
  w_newwin : Z;
  w_timeout : Z;
  w_timeout_ms : Z;
  w_max_retries : Z;
  w_retries_left : Z;
  w_refcount : Z;
  w_status : Z
}.

Abbreviation send_wr := ib_mad_send_wr_private.

(** Replace the control fields. *)
Definition wr_upd (cs las : nat) (la sn nw to rl rc st : Z) (w : send_wr) : send_wr :=
  {| w_mad := w_mad w; w_segs := w_segs w; w_seg_count := w_seg_count w;
     w_seg_rmpp_size := w_seg_rmpp_size w; w_pad := w_pad w;
     w_cur_seg := cs; w_last_ack_seg := las; w_last_ack := la; w_seg_num := sn;
     w_newwin := nw; w_timeout := to; w_timeout_ms := w_timeout_ms w;
     w_max_retries := w_max_retries w; w_retries_left := rl; w_refcount := rc;
     w_status := st |}.

Definition set_cur_seg (v : nat) (w : send_wr) : send_wr :=
  wr_upd v (w_last_ack_seg w) (w_last_ack w) (w_seg_num w) (w_newwin w) (w_timeout w)
    (w_retries_left w) (w_refcount w) (w_status w) w.
Definition set_ack_pos (las : nat) (la : Z) (w : send_wr) : send_wr :=
  wr_upd (w_cur_seg w) las la (w_seg_num w) (w_newwin w) (w_timeout w)
    (w_retries_left w) (w_refcount w) (w_status w) w.
Definition set_seg_num (v : Z) (w : send_wr) : send_wr :=
  wr_upd (w_cur_seg w) (w_last_ack_seg w) (w_last_ack w) v (w_newwin w) (w_timeout w)
    (w_retries_left w) (w_refcount w) (w_status w) w.
Definition set_wr_newwin (v : Z) (w : send_wr) : send_wr :=
  wr_upd (w_cur_seg w) (w_last_ack_seg w) (w_last_ack w) (w_seg_num w) v (w_timeout w)
    (w_retries_left w) (w_refcount w) (w_status w) w.
Definition set_timeout (v : Z) (w : send_wr) : send_wr :=
  wr_upd (w_cur_seg w) (w_last_ack_seg w) (w_last_ack w) (w_seg_num w) (w_newwin w) v
    (w_retries_left w) (w_refcount w) (w_status w) w.
Definition set_retries (v : Z) (w : send_wr) : send_wr :=
  wr_upd (w_cur_seg w) (w_last_ack_seg w) (w_last_ack w) (w_seg_num w) (w_newwin w)
    (w_timeout w) v (w_refcount w) (w_status w) w.
Definition set_refcount (v : Z) (w : send_wr) : send_wr :=
  wr_upd (w_cur_seg w) (w_last_ack_seg w) (w_last_ack w) (w_seg_num w) (w_newwin w)
    (w_timeout w) (w_retries_left w) v (w_status w) w.
Definition set_status (v : Z) (w : send_wr) : send_wr :=
  wr_upd (w_cur_seg w) (w_last_ack_seg w) (w_last_ack w) (w_seg_num w) (w_newwin w)
    (w_timeout w) (w_retries_left w) (w_refcount w) v w.

(** ** Walking the list of segments *)

Definition node_num (n : nat) (hnum : Z) (pos : nat) : Z :=
  if bool_decide (pos < n)%nat then Z.of_nat pos + 1 else hnum.
Definition node_next (n pos : nat) : nat := if bool_decide (pos = n) then 0%nat else S pos.
Definition node_prev (n pos : nat) : nat := if bool_decide (pos = 0)%nat then n else (pos - 1)%nat.

(** [list_for_each_entry(p, start, list) if (p->num == seg_num) break;]: the node
    [p] points to after the loop. *)
Fixpoint walk (fuel : nat) (step : nat -> nat) (n : nat) (hnum : Z) (start pos : nat)
    (seg_num : Z) : nat :=
  match fuel with
  | O => pos
  | S f =>
      if bool_decide (pos = start) then pos
      else if node_num n hnum pos =? seg_num then pos
      else walk f step n hnum start (step pos) seg_num
  end.

Definition walk_forward (n : nat) (hnum : Z) (start : nat) (seg_num : Z) : nat :=
  walk (S n) (node_next n) n hnum start (node_next n start) seg_num.
Definition walk_backward (n : nat) (hnum : Z) (start : nat) (seg_num : Z) : nat :=
  walk (S n) (node_prev n) n hnum start (node_prev n start) seg_num.

(** [ib_get_rmpp_segment]: moves [cur_seg] and returns the data there ([None]: the
    pointer is on the list head). The numbers are compared as [u32]. *)
Definition ib_get_rmpp_segment (hnum seg_num : Z) (w : send_wr)
  : option (list Z * send_wr) :=
  let n := length (w_segs w) in
  let num := node_num n hnum (w_cur_seg w) in
  let sn := u32 seg_num in
  let cs :=
    if num <? sn then walk_forward n hnum (w_cur_seg w) sn
    else if sn <? num then walk_backward n hnum (w_cur_seg w) sn
    else w_cur_seg w in
  data ← w_segs w !! cs;
  Some (data, set_cur_seg cs w).

(** ** Sending *)

(** [msecs_to_jiffies] and the outcome of [ib_send_mad]: [None] is a failure to
    map the header, [Some ret] the result after the payload was looked up. *)
Record send_env := {
  se_jiffies : Z -> Z;
  se_send : option Z;
  se_hnum : Z
}.

(** The MAD of segment [seg_num]: [send_next_seg] fills the RMPP header of the
    template, [ib_send_mad] adds the payload. *)
Definition segment_mad (w : send_wr) (seg_num : Z) (data : list Z) : rmpp_mad :=
  let t := w_mad w in
  let flags := ib_set_rmpp_flags (m_rtime_flags t) IB_MGMT_RMPP_FLAG_ACTIVE in
  let first := seg_num =? 1 in
  let last := seg_num =? w_seg_count w in
  let flags := if first then Z.lor flags IB_MGMT_RMPP_FLAG_FIRST else flags in
  let flags := if last then Z.lor flags IB_MGMT_RMPP_FLAG_LAST else flags in
  let paylen := if first then u32 (w_seg_count w * w_seg_rmpp_size w - w_pad w) else 0 in
  let paylen := if last then u32 (w_seg_rmpp_size w - w_pad w) else paylen in
  {| m_tid := m_tid t; m_mgmt_class := m_mgmt_class t; m_class_version := m_class_version t;
     m_method := m_method t; m_base_version := m_base_version t;
     m_src_qp := m_src_qp t; m_slid := m_slid t;
     m_rmpp_version := m_rmpp_version t; m_rmpp_type := m_rmpp_type t;
     m_rtime_flags := flags; m_rmpp_status := m_rmpp_status t;
     m_seg_num := u32 seg_num; m_paylen_newwin := paylen; m_data := data;
     m_attr_mod := m_attr_mod t; m_grh := None; m_path_bits := 0 |}.

Definition send_next_seg (env : send_env) (w : send_wr)
  : option (Z * list rmpp_event * send_wr) :=
  let w := set_seg_num (s32 (w_seg_num w + 1)) w in
  let w := if (w_timeout_ms w =? 0) || (2000 <? w_timeout_ms w)
           then set_timeout (se_jiffies env 2000) w else w in
  match se_send env with
  | None => Some (err ENOMEM, [], w)
  | Some ret =>
      '(data, w') ← ib_get_rmpp_segment (se_hnum env) (w_seg_num w) w;
      Some (ret, if ret =? 0 then [ESend (segment_mad w' (w_seg_num w') data)] else [], w')
  end.

Definition rmpp_active (w : send_wr) : bool :=
  has_flag (ib_get_rmpp_flags (w_mad w)) IB_MGMT_RMPP_FLAG_ACTIVE.
Definition rmpp_data (w : send_wr) : bool := m_rmpp_type (w_mad w) =? IB_MGMT_RMPP_TYPE_DATA.

(** [init_newwin]: the window of a response comes from the transaction of its
    request; [dlid] is the destination of the address handle ([None]: the query
    fails). *)
Fixpoint init_newwin_loop (w : send_wr) (dlid : option Z) (l : list mad_rmpp_recv) : Z :=
  match l with
  | [] => 1
  | r :: l' =>
      if negb (r_tid r =? m_tid (w_mad w)) || negb (r_mgmt_class r =? m_mgmt_class (w_mad w)) ||
         negb (r_class_version r =? m_class_version (w_mad w)) ||
         has_flag (r_method r) IB_MGMT_METHOD_RESP
      then init_newwin_loop w dlid l'
      else match dlid with
           | None => init_newwin_loop w dlid l'
           | Some d => if r_slid r =? d then r_repwin r else init_newwin_loop w dlid l'
           end
  end.

Definition init_newwin (w : send_wr) (dlid : option Z) (a : rmpp_agent) : Z :=
  if has_flag (m_method (w_mad w)) IB_MGMT_METHOD_RESP
  then init_newwin_loop w dlid (a_recvs a) else 1.

Definition ib_send_rmpp_mad (env : send_env) (dlid : option Z) (a : rmpp_agent) (w : send_wr)
  : option (Z * list rmpp_event * send_wr) :=
  if negb (rmpp_active w) then Some (IB_RMPP_RESULT_UNHANDLED, [], w) else
  if negb (rmpp_data w) then Some (IB_RMPP_RESULT_INTERNAL, [], set_seg_num 1 w) else
  let w := set_wr_newwin (init_newwin w dlid a) w in
  let w := set_refcount (w_refcount w + (if w_timeout w =? 0 then 1 else 0)) w in
  '(ret, ev, w') ← send_next_seg env w;
  Some (if ret =? 0 then IB_RMPP_RESULT_CONSUMED else ret, ev, w').

(** [ib_process_rmpp_send_wc]: the result, the events, the status left in the
    completion and the work request. *)
Definition ib_process_rmpp_send_wc (env : send_env) (wc_status : Z) (w : send_wr)
  : option (Z * list rmpp_event * Z * send_wr) :=
  if negb (rmpp_active w) then Some (IB_RMPP_RESULT_UNHANDLED, [], wc_status, w) else
  if negb (rmpp_data w) then Some (IB_RMPP_RESULT_INTERNAL, [], wc_status, w) else
  if negb (wc_status =? IB_WC_SUCCESS) || negb (w_status w =? IB_WC_SUCCESS)
  then Some (IB_RMPP_RESULT_PROCESSED, [], wc_status, w) else
  if w_timeout w =? 0 then Some (IB_RMPP_RESULT_PROCESSED, [], wc_status, w) else
  if w_last_ack w =? w_seg_count w then
    Some (IB_RMPP_RESULT_PROCESSED, [], wc_status, set_timeout (se_jiffies env (w_timeout_ms w)) w) else
  if (w_seg_num w =? w_newwin w) || (w_seg_num w =? w_seg_count w) then
    Some (IB_RMPP_RESULT_PROCESSED, [], wc_status, w) else
  '(ret, ev, w') ← send_next_seg env w;
  if ret =? 0 then Some (IB_RMPP_RESULT_CONSUMED, ev, wc_status, w')
  else Some (IB_RMPP_RESULT_PROCESSED, ev, IB_WC_GENERAL_ERR, w').

Definition ib_retry_rmpp (env : send_env) (w : send_wr)
  : option (Z * list rmpp_event * send_wr) :=
  if negb (rmpp_active w) then Some (IB_RMPP_RESULT_UNHANDLED, [], w) else
  if w_last_ack w =? w_seg_count w then Some (IB_RMPP_RESULT_PROCESSED, [], w) else
  let w := set_seg_num (w_last_ack w) w in
  let w := set_cur_seg (w_last_ack_seg w) w in
  '(ret, ev, w') ← send_next_seg env w;
  Some (if ret =? 0 then IB_RMPP_RESULT_CONSUMED else IB_RMPP_RESULT_PROCESSED, ev, w').

(** ** Answers of the receiver *)

Definition adjust_last_ack (hnum seg_num : Z) (w : send_wr) : send_wr :=
  set_ack_pos (walk_forward (length (w_segs w)) hnum (w_last_ack_seg w) (u32 seg_num)) seg_num w.

(** What the handlers below leave to the lists of the agent: nothing; mark the
    send done and complete it with a status ([ib_mark_mad_done] and
    [ib_mad_complete_send_wr]); queue it again for its response
    ([ib_reset_mad_timeout]); move it to the end of the send list. The fields of
    the work request those calls set first are already set in the result. *)
Inductive send_action := SNone | SDone (status vendor_err : Z) | SReset | SRequeue.

Definition send_over (w : send_wr) : bool :=
  (w_last_ack w =? w_seg_count w) || (w_timeout w =? 0) || negb (w_status w =? IB_WC_SUCCESS).

(** [abort_send] for the send found (none: unmatched). *)
Definition abort_send (rmpp_status : Z) (found : option send_wr) : send_action * option send_wr :=
  match found with
  | None => (SNone, None)
  | Some w => if send_over w then (SNone, Some w)
              else (SDone IB_WC_REM_ABORT_ERR rmpp_status, Some (set_timeout 0 w))
  end.

(** [abort_send] followed by [nack_recv] with the same status. *)
Definition abort_nack (renv : recv_env) (m : rmpp_mad) (rmpp_status : Z) (found : option send_wr)
  : send_action * list rmpp_event * option send_wr :=
  let '(act, found') := abort_send rmpp_status found in
  (act, nack_recv renv m rmpp_status, found').

(** [process_ds_ack] *)
Definition process_ds_ack (m : rmpp_mad) (newwin : Z) (a : rmpp_agent) : rmpp_agent :=
  match find_rmpp_recv m (a_recvs a) with
  | None => a
  | Some i =>
      match a_recvs a !! i with
      | Some r => if bool_decide (r_state r = RMPP_STATE_COMPLETE)
                  then set_recvs (<[i := set_repwin newwin r]> (a_recvs a)) a else a
      | None => a
      end
  end.

(** [process_rmpp_ack], from the test for a repeated ACK on, for the send found. *)
Definition ack_wr (senv : send_env) (renv : recv_env) (m : rmpp_mad) (w : send_wr)
  : option (send_action * list rmpp_event * send_wr) :=
  let seg_num := s32 (m_seg_num m) in
  let newwin := s32 (m_paylen_newwin m) in
  if (w_last_ack w =? w_seg_count w) && truthy (w_timeout w)
  then Some (SNone, ack_ds_ack renv m, w) else
  if send_over w then Some (SNone, [], w) else
  if (w_seg_count w <? seg_num) || (w_newwin w <? seg_num) then
    let '(act, ev, found) := abort_nack renv m IB_MGMT_RMPP_STATUS_S2B (Some w) in
    w' ← found; Some (act, ev, w')
  else
  if (newwin <? w_newwin w) || (seg_num <? w_last_ack w) then Some (SNone, [], w) else
  let w := if w_last_ack w <? seg_num
           then set_retries (w_max_retries w) (adjust_last_ack (se_hnum senv) seg_num w) else w in
  let w := set_wr_newwin newwin w in
  if w_last_ack w =? w_seg_count w then
    if w_timeout_ms w =? 0 then Some (SDone IB_WC_SUCCESS 0, [], set_timeout 0 w)
    else if w_refcount w =? 1
    then Some (SReset, ack_ds_ack renv m, set_timeout (se_jiffies senv (w_timeout_ms w)) w)
    else Some (SNone, ack_ds_ack renv m, w)
  else if (w_refcount w =? 1) && (w_seg_num w <? w_newwin w) && (w_seg_num w <? w_seg_count w) then
    '(ret, ev, w') ← send_next_seg senv w;
    if ret =? 0 then Some (SRequeue, ev, set_refcount (w_refcount w' + 1) w')
    else Some (SNone, ev, w')
  else Some (SNone, [], w).

(** [process_rmpp_ack]; [found] is the answer of [ib_find_send_mad]. *)
Definition process_rmpp_ack (senv : send_env) (renv : recv_env) (m : rmpp_mad)
    (found : option send_wr) (a : rmpp_agent)
  : option (send_action * list rmpp_event * option send_wr * rmpp_agent) :=
  let fail st := let '(act, ev, f) := abort_nack renv m st found in Some (act, ev, f, a) in
  let seg_num := s32 (m_seg_num m) in
  let newwin := s32 (m_paylen_newwin m) in
  if truthy (m_rmpp_status m) then fail IB_MGMT_RMPP_STATUS_BAD_STATUS
  else if newwin <? seg_num then fail IB_MGMT_RMPP_STATUS_W2S
  else match found with
  | None => Some (SNone, [], None, if seg_num =? 0 then process_ds_ack m newwin a else a)
  | Some w =>
      '(act, ev, w') ← ack_wr senv renv m w;
      Some (act, ev, Some w', a)
  end.

Definition process_rmpp_stop (renv : recv_env) (m : rmpp_mad) (found : option send_wr)
  : send_action * list rmpp_event * option send_wr :=
  if negb (m_rmpp_status m =? IB_MGMT_RMPP_STATUS_RESX)
  then abort_nack renv m IB_MGMT_RMPP_STATUS_BAD_STATUS found
  else let '(act, f) := abort_send (m_rmpp_status m) found in (act, [], f).

Definition process_rmpp_abort (renv : recv_env) (m : rmpp_mad) (found : option send_wr)
  : send_action * list rmpp_event * option send_wr :=
  if (m_rmpp_status m <? IB_MGMT_RMPP_STATUS_ABORT_MIN) ||
     (IB_MGMT_RMPP_STATUS_ABORT_MAX <? m_rmpp_status m)
  then abort_nack renv m IB_MGMT_RMPP_STATUS_BAD_STATUS found
  else let '(act, f) := abort_send (m_rmpp_status m) found in (act, [], f).

(** ** The entry point of received MADs *)

(** [ib_process_rmpp_recv_wc] returns the MAD itself, a reassembled message, or
    nothing. *)
Inductive recv_result := RPass (m : rmpp_mad) | RMessage (d : delivery) | RConsumed.

Definition ib_process_rmpp_recv_wc (senv : send_env) (renv : recv_env) (m : rmpp_mad)
    (found : option send_wr) (a : rmpp_agent)
  : option (recv_result * send_action * list rmpp_event * option send_wr * rmpp_agent) :=
  let out '(act, ev, f) := Some (RConsumed, act, ev ++ [EFree [m]], f, a) in
  if negb (has_flag (m_rtime_flags m) IB_MGMT_RMPP_FLAG_ACTIVE)
  then Some (RPass m, SNone, [], found, a) else
  if negb (m_rmpp_version m =? IB_MGMT_RMPP_VERSION)
  then out (abort_nack renv m IB_MGMT_RMPP_STATUS_UNV found) else
  if m_rmpp_type m =? IB_MGMT_RMPP_TYPE_DATA then
    '(a', ev, d) ← process_rmpp_data renv m a;
    Some (from_option RMessage RConsumed d, SNone, ev, found, a')
  else if m_rmpp_type m =? IB_MGMT_RMPP_TYPE_ACK then
    '(act, ev, f, a') ← process_rmpp_ack senv renv m found a;
    Some (RConsumed, act, ev ++ [EFree [m]], f, a')
  else if m_rmpp_type m =? IB_MGMT_RMPP_TYPE_STOP then out (process_rmpp_stop renv m found)
  else if m_rmpp_type m =? IB_MGMT_RMPP_TYPE_ABORT then out (process_rmpp_abort renv m found)
  else out (abort_nack renv m IB_MGMT_RMPP_STATUS_BADT found).

(** ** The walks find the segment *)

Lemma node_num_seg n hnum pos : (pos < n)%nat -> node_num n hnum pos = Z.of_nat pos + 1.
Proof. intros. unfold node_num. by rewrite bool_decide_eq_true_2. Qed.

Lemma walk_up n hnum start t fuel pos :
  (start < pos <= t)%nat -> (t < n)%nat -> (t - pos < fuel)%nat ->
  walk fuel (node_next n) n hnum start pos (Z.of_nat t + 1) = t.
Proof.
  revert pos. induction fuel as [|f IH]; intros pos Hp Ht Hf; [lia|]. cbn [walk].
  rewrite bool_decide_eq_false_2 by lia. rewrite node_num_seg by lia.
  destruct (Z.eqb_spec (Z.of_nat pos + 1) (Z.of_nat t + 1)); [lia|].
  unfold node_next at 2. rewrite bool_decide_eq_false_2 by lia. apply IH; lia.
Qed.

Lemma walk_forward_found n hnum start t :
  (start < t < n)%nat -> walk_forward n hnum start (Z.of_nat t + 1) = t.
Proof.
  intros Ht. unfold walk_forward, node_next at 2. rewrite bool_decide_eq_false_2 by lia.
  apply walk_up; lia.
Qed.

Lemma walk_down n hnum start t fuel pos :
  (t <= pos < start)%nat -> (start < n)%nat -> (pos - t < fuel)%nat ->
  walk fuel (node_prev n) n hnum start pos (Z.of_nat t + 1) = t.
Proof.
  revert pos. induction fuel as [|f IH]; intros pos Hp Ht Hf; [lia|]. cbn [walk].
  rewrite bool_decide_eq_false_2 by lia. rewrite node_num_seg by lia.
  destruct (Z.eqb_spec (Z.of_nat pos + 1) (Z.of_nat t + 1)); [lia|].
  unfold node_prev at 2. rewrite bool_decide_eq_false_2 by lia. apply IH; lia.
Qed.

Lemma walk_backward_found n hnum start t :
  (t < start < n)%nat -> walk_backward n hnum start (Z.of_nat t + 1) = t.
Proof.
  intros Ht. unfold walk_backward, node_prev at 2. rewrite bool_decide_eq_false_2 by lia.
  apply walk_down; lia.
Qed.

(** From the first segment, a search for the first segment goes around the whole
    list, over its head, and ends where it began. *)
Lemma walk_around n hnum fuel pos :
  hnum <> 1 -> (0 < pos <= n)%nat -> (n - pos + 1 < fuel)%nat ->
  walk fuel (node_next n) n hnum 0 pos 1 = 0%nat.
Proof.
  intros Hh. revert pos. induction fuel as [|f IH]; intros pos Hp Hf; [lia|]. cbn [walk].
  rewrite bool_decide_eq_false_2 by lia.
  assert (node_num n hnum pos <> 1) as Hn.
  { unfold node_num. case_bool_decide; lia. }
  rewrite (proj2 (Z.eqb_neq _ _) Hn). unfold node_next at 2. case_bool_decide as E.
  - destruct f as [|f]; [lia|]. done.
  - apply IH; lia.
Qed.

Lemma walk_forward_first n hnum :
  hnum <> 1 -> (0 < n)%nat -> walk_forward n hnum 0 1 = 0%nat.
Proof.
  intros Hh Hn. unfold walk_forward, node_next at 2. rewrite bool_decide_eq_false_2 by lia.
  destruct (decide (n = 0)%nat); [lia|]. apply walk_around; lia || done.
Qed.

(** ** The invariant of a send *)

Definition nsegs (w : send_wr) : Z := Z.of_nat (length (w_segs w)).

(** Pointers and counters agree: [last_ack_seg] is the last acknowledged segment
    (the first one before any acknowledgement), [cur_seg] is a segment. *)
Record send_wf (w : send_wr) : Prop := {
  sw_count : w_seg_count w = nsegs w;
  sw_some : 0 < nsegs w < 2 ^ 31 - 1;
  sw_cur : (w_cur_seg w < length (w_segs w))%nat;
  sw_ack : 0 <= w_last_ack w <= nsegs w;
  sw_ack_seg : w_last_ack_seg w = Z.to_nat (w_last_ack w - 1);
  sw_num : 0 <= w_seg_num w <= nsegs w;
  sw_active : rmpp_active w = true;
  sw_data : rmpp_data w = true
}.

(** The part of a work request that never changes. *)
Definition same_message (w w' : send_wr) : Prop :=
  w_mad w' = w_mad w /\ w_segs w' = w_segs w /\ w_seg_count w' = w_seg_count w /\
  w_seg_rmpp_size w' = w_seg_rmpp_size w /\ w_pad w' = w_pad w /\
  w_timeout_ms w' = w_timeout_ms w /\ w_max_retries w' = w_max_retries w.

(** The MADs of the message, in order. *)
Definition sent_msg (w : send_wr) : list rmpp_mad :=
  imap (fun i data => segment_mad w (Z.of_nat i + 1) data) (w_segs w).

Lemma segment_mad_ext w w' sn data :
  same_message w w' -> segment_mad w' sn data = segment_mad w sn data.
Proof. intros (E1 & _ & E3 & E4 & E5 & _). unfold segment_mad. by rewrite E1, E3, E4, E5. Qed.

Lemma sent_msg_ext w w' : same_message w w' -> sent_msg w' = sent_msg w.
Proof.
  intros H. unfold sent_msg. rewrite (proj1 (proj2 H)). apply imap_ext.
  intros i d _. by apply segment_mad_ext.
Qed.

Lemma sent_msg_lookup w i : sent_msg w !! i = segment_mad w (Z.of_nat i + 1) <$> w_segs w !! i.
Proof. unfold sent_msg. by rewrite list_lookup_imap. Qed.

Lemma same_message_refl w : same_message w w.
Proof. done. Qed.

Lemma same_message_trans w1 w2 w3 : same_message w1 w2 -> same_message w2 w3 -> same_message w1 w3.
Proof.
  intros (? & ? & ? & ? & ? & ? & ?) (? & ? & ? & ? & ? & ? & ?). split_and!; congruence.
Qed.

Lemma get_segment_spec hnum sn w :
  (w_cur_seg w < length (w_segs w))%nat -> 1 <= sn <= nsegs w -> nsegs w < 2 ^ 31 ->
  exists data, w_segs w !! Z.to_nat (sn - 1) = Some data /\
    ib_get_rmpp_segment hnum sn w = Some (data, set_cur_seg (Z.to_nat (sn - 1)) w).
Proof.
  intros Hc Hs Hb. unfold nsegs in *. unfold ib_get_rmpp_segment. rewrite node_num_seg by done.
  rewrite (u32_id sn) by lia.
  destruct (lookup_lt_is_Some_2 (w_segs w) (Z.to_nat (sn - 1))) as [data Hd]; [lia|].
  exists data. split; [done|].
  set (t := Z.to_nat (sn - 1)) in *. replace sn with (Z.of_nat t + 1) by lia.
  destruct (Z.ltb_spec (Z.of_nat (w_cur_seg w) + 1) (Z.of_nat t + 1)).
  - rewrite walk_forward_found by lia. by rewrite Hd.
  - destruct (Z.ltb_spec (Z.of_nat t + 1) (Z.of_nat (w_cur_seg w) + 1)).
    + rewrite walk_backward_found by lia. by rewrite Hd.
    + assert (w_cur_seg w = t) as -> by lia. by rewrite Hd.
Qed.

(** What sending a segment leaves: the next number, and at most the MAD of that
    segment handed to the device. *)
Lemma send_next_seg_spec env w :
  send_wf w -> w_seg_num w < nsegs w ->
  exists ret ev w', send_next_seg env w = Some (ret, ev, w') /\ send_wf w' /\ same_message w w' /\
    w_seg_num w' = w_seg_num w + 1 /\ w_last_ack w' = w_last_ack w /\ w_newwin w' = w_newwin w /\
    w_refcount w' = w_refcount w /\ w_status w' = w_status w /\ w_retries_left w' = w_retries_left w /\
    (if ret =? 0 then exists m, sent_msg w !! Z.to_nat (w_seg_num w) = Some m /\ ev = [ESend m]
     else ev = []) /\
    ret = default (err ENOMEM) (se_send env) /\
    w_timeout w' = if (w_timeout_ms w =? 0) || (2000 <? w_timeout_ms w)
                   then se_jiffies env 2000 else w_timeout w.
Proof.
  intros H Hlt. pose proof H as []. unfold send_next_seg.
  rewrite s32_id by lia. set (w1 := if _ || _ then _ else _).
  assert (same_message w w1 /\ w_seg_num w1 = w_seg_num w + 1 /\ w_last_ack w1 = w_last_ack w /\
    w_newwin w1 = w_newwin w /\ w_refcount w1 = w_refcount w /\ w_status w1 = w_status w /\
    w_retries_left w1 = w_retries_left w /\ w_cur_seg w1 = w_cur_seg w /\
    w_last_ack_seg w1 = w_last_ack_seg w /\
    w_timeout w1 = if (w_timeout_ms w =? 0) || (2000 <? w_timeout_ms w)
                   then se_jiffies env 2000 else w_timeout w)
    as (Hsm & E1 & E2 & E3 & E4 & E5 & E6 & E7 & E8 & E9)
    by (unfold w1; cbn [set_seg_num wr_upd w_timeout_ms]; destruct (_ || _); done).
  assert (forall cs, (cs < length (w_segs w))%nat -> send_wf (set_cur_seg cs w1)) as Hwf.
  { intros cs Hcs. destruct Hsm as (F1 & F2 & F3 & _).
    constructor; unfold nsegs, rmpp_active, rmpp_data in *;
      cbn [set_cur_seg wr_upd w_seg_count w_segs w_cur_seg w_last_ack w_last_ack_seg w_seg_num w_mad];
      rewrite ?F1, ?F2, ?F3, ?E1, ?E2, ?E8; done || lia. }
  assert (set_cur_seg (w_cur_seg w1) w1 = w1) as Eta by (by destruct w1).
  destruct (se_send env) as [ret|].
  - destruct (get_segment_spec (se_hnum env) (w_seg_num w1) w1) as (data & Hd & Eg).
    { rewrite E7, (proj1 (proj2 Hsm)). done. }
    { unfold nsegs in *. rewrite E1, (proj1 (proj2 Hsm)). lia. }
    { unfold nsegs in *. rewrite (proj1 (proj2 Hsm)). lia. }
    rewrite Eg. cbn [mbind option_bind]. rewrite (proj1 (proj2 Hsm)) in Hd.
    eexists ret, _, _. split; [done|]. split_and!; try done.
    + apply Hwf. by apply lookup_lt_Some in Hd.
    + destruct (Z.eqb_spec ret 0) as [->|]; [|done]. eexists. split; [|done].
      rewrite sent_msg_lookup. rewrite E1 in Hd.
      replace (w_seg_num w + 1 - 1) with (w_seg_num w) in Hd by lia. rewrite Hd. cbn.
      f_equal. rewrite E1. rewrite Z2Nat.id by lia. symmetry. apply segment_mad_ext.
      eapply same_message_trans; [apply Hsm|done].
  - eexists _, _, _. split; [done|]. rewrite <- Eta. split_and!; try done. apply Hwf. by rewrite E7.
Qed.

(** ** The window *)

(** Sent segments lie inside the window, which is open until everything is
    acknowledged. *)
Record send_ok (w : send_wr) : Prop := {
  so_wf : send_wf w;
  so_win : w_seg_num w <= w_newwin w;
  so_open : w_last_ack w < w_newwin w \/ w_last_ack w = nsegs w
}.

(** The receiver that acknowledges [seg_num] grants more, or has everything. *)
Definition ack_open (w : send_wr) (m : rmpp_mad) : Prop :=
  s32 (m_seg_num m) < s32 (m_paylen_newwin m) \/ s32 (m_seg_num m) = nsegs w.

(** The data MADs of an event list. *)
Definition data_sent (ev : list rmpp_event) : list rmpp_mad :=
  omap (fun e => match e with
    | ESend m => if m_rmpp_type m =? IB_MGMT_RMPP_TYPE_DATA then Some m else None
    | EFree _ => None end) ev.

(** Only segments of the message inside the window are sent. *)
Definition sends_in_window (w w' : send_wr) (ev : list rmpp_event) : Prop :=
  Forall (fun m => exists i, sent_msg w !! i = Some m /\ Z.of_nat i + 1 <= w_newwin w') (data_sent ev).

Lemma nack_no_data renv m st : data_sent (nack_recv renv m st) = [].
Proof. unfold nack_recv. by destruct (e_nack renv). Qed.

Lemma ack_ds_no_data renv m :
  m_rmpp_type m <> IB_MGMT_RMPP_TYPE_DATA -> data_sent (ack_ds_ack renv m) = [].
Proof.
  intros Ht. unfold ack_ds_ack. destruct (e_nack renv); [|done]. cbn.
  by rewrite (proj2 (Z.eqb_neq _ _) Ht).
Qed.

(** What a step of the sender keeps. *)
Record send_step_ok (w : send_wr) (ev : list rmpp_event) (w' : send_wr) : Prop := {
  ss_ok : send_ok w';
  ss_same : same_message w w';
  ss_sends : sends_in_window w w' ev;
  ss_newwin : w_newwin w <= w_newwin w';
  ss_ack : w_last_ack w <= w_last_ack w'
}.

(** A step that sends no data and changes at most the timer. *)
Lemma step_ok_quiet w t ev : send_ok w -> data_sent ev = [] -> send_step_ok w ev (set_timeout t w).
Proof.
  intros [Hwf ? ?] Hd. constructor; [|done|unfold sends_in_window; rewrite Hd; constructor|cbn; lia|cbn; lia].
  constructor; [by destruct Hwf|done|done].
Qed.

Lemma step_ok_same w ev : send_ok w -> data_sent ev = [] -> send_step_ok w ev w.
Proof.
  intros H Hd. pose proof (step_ok_quiet w (w_timeout w) ev H Hd) as Hq.
  assert (set_timeout (w_timeout w) w = w) as Eta by (by destruct w). by rewrite Eta in Hq.
Qed.

Lemma step_ok_refl w : send_ok w -> send_step_ok w [] w.
Proof. intros H. by apply step_ok_same. Qed.

Lemma step_ok_trans w1 ev1 w2 ev2 w3 :
  send_step_ok w1 ev1 w2 -> send_step_ok w2 ev2 w3 -> data_sent ev1 = [] -> send_step_ok w1 ev2 w3.
Proof.
  intros [_ Hsm _ ? ?] [? Hsm' Hs ? ?] Hd.
  constructor; [done|by eapply same_message_trans| |lia|lia].
  unfold sends_in_window in *. by rewrite (sent_msg_ext _ _ Hsm) in Hs.
Qed.

Lemma nsegs_ext w w' : same_message w w' -> nsegs w' = nsegs w.
Proof. intros (_ & E & _). unfold nsegs. by rewrite E. Qed.

(** Sending the next segment inside the window. *)
Lemma next_seg_ok env w :
  send_wf w -> w_seg_num w < nsegs w -> w_seg_num w < w_newwin w ->
  (w_last_ack w < w_newwin w \/ w_last_ack w = nsegs w) ->
  exists ret ev w', send_next_seg env w = Some (ret, ev, w') /\ send_step_ok w ev w' /\
    w_last_ack w' = w_last_ack w /\ w_newwin w' = w_newwin w /\ w_refcount w' = w_refcount w /\
    (ret = 0 -> exists m, sent_msg w !! Z.to_nat (w_seg_num w) = Some m /\ ev = [ESend m]) /\
    (se_send env = Some 0 -> ret = 0).
Proof.
  intros Hwf Hlt Hwin Hopen.
  destruct (send_next_seg_spec env w Hwf Hlt) as
    (ret & ev & w' & E & Hwf' & Hsm & En & Ea & Ew & Er & _ & _ & Hev & Hok & _).
  exists ret, ev, w'. split; [done|]. pose proof (sw_num _ Hwf) as Hn.
  split_and!; [|done|done|done| |by rewrite Hok; intros ->].
  - constructor; [|done| |lia|lia].
    + constructor; [done|lia|]. rewrite Ea, Ew, (nsegs_ext _ _ Hsm). done.
    + destruct (ret =? 0); [|subst ev; constructor].
      destruct Hev as (m & Hm & ->). unfold sends_in_window, data_sent. cbn.
      destruct (m_rmpp_type m =? IB_MGMT_RMPP_TYPE_DATA); [|constructor].
      constructor; [|done]. exists (Z.to_nat (w_seg_num w)).
      split; [done|lia].
  - intros ->. exact Hev.
Qed.

Lemma send_wc_ok env st w :
  send_ok w ->
  exists ret ev st' w', ib_process_rmpp_send_wc env st w = Some (ret, ev, st', w') /\
    send_step_ok w ev w' /\ w_last_ack w' = w_last_ack w.
Proof.
  intros H. pose proof H as [Hwf Hwin Hopen]. unfold ib_process_rmpp_send_wc.
  rewrite (sw_active _ Hwf), (sw_data _ Hwf). cbn [negb].
  destruct (negb (st =? IB_WC_SUCCESS) || _); [by eexists _, _, _, w; split; [done|]; split; [apply step_ok_refl|]|].
  destruct (w_timeout w =? 0); [by eexists _, _, _, w; split; [done|]; split; [apply step_ok_refl|]|].
  destruct (Z.eqb_spec (w_last_ack w) (w_seg_count w)).
  { eexists _, _, _, _. split; [done|]. split; [by apply step_ok_quiet|done]. }
  destruct (Z.eqb_spec (w_seg_num w) (w_newwin w)); cbn [orb];
    [by eexists _, _, _, w; split; [done|]; split; [apply step_ok_refl|]|].
  destruct (Z.eqb_spec (w_seg_num w) (w_seg_count w));
    [by eexists _, _, _, w; split; [done|]; split; [apply step_ok_refl|]|].
  pose proof (sw_count _ Hwf). pose proof (sw_num _ Hwf).
  destruct (next_seg_ok env w Hwf) as (ret & ev & w' & E & Hok & Ea & _); [lia|lia|done|].
  rewrite E. cbn [mbind option_bind]. destruct (ret =? 0); by eexists _, _, _, w'.
Qed.

(** Going back to the last acknowledged segment. *)
Definition rewind (w : send_wr) : send_wr :=
  set_cur_seg (w_last_ack_seg w) (set_seg_num (w_last_ack w) w).

Lemma rewind_wf w : send_wf w -> send_wf (rewind w).
Proof.
  intros []. constructor; try done; cbn [rewind set_cur_seg set_seg_num wr_upd w_cur_seg w_segs
    w_last_ack_seg w_seg_num]; unfold nsegs in *; cbn; lia.
Qed.

Lemma retry_ok env w :
  send_ok w ->
  exists ret ev w', ib_retry_rmpp env w = Some (ret, ev, w') /\ send_step_ok w ev w' /\
    w_last_ack w' = w_last_ack w /\
    (w_last_ack w < nsegs w -> se_send env = Some 0 ->
     exists m, sent_msg w !! Z.to_nat (w_last_ack w) = Some m /\ ev = [ESend m]).
Proof.
  intros H. pose proof H as [Hwf Hwin Hopen]. pose proof Hwf as []. unfold ib_retry_rmpp.
  rewrite sw_active0. cbn [negb].
  destruct (Z.eqb_spec (w_last_ack w) (w_seg_count w)).
  { eexists _, _, w. split; [done|]. split_and!; [by apply step_ok_refl|done|lia]. }
  set (w1 := set_cur_seg _ _). assert (send_wf w1) as Hwf1 by exact (rewind_wf w Hwf).
  assert (same_message w w1) as Hsm by done.
  destruct (next_seg_ok env w1 Hwf1) as (ret & ev & w' & E & Hok & Ea & _ & _ & Hev & Hret);
    [cbn; unfold nsegs in *; cbn; lia|cbn; unfold nsegs in *; lia|done|].
  rewrite E. cbn [mbind option_bind]. eexists _, ev, w'. split; [done|]. split_and!; [|done|].
  - destruct Hok. constructor; [done|by eapply same_message_trans|done|done|done].
  - intros _ Hs. by apply Hev, Hret.
Qed.

(** Following an acknowledgement in the list of segments. *)
Lemma adjust_last_ack_wf hnum sn w :
  send_wf w -> hnum <> 1 -> w_last_ack w < sn <= nsegs w ->
  send_wf (adjust_last_ack hnum sn w) /\ w_last_ack (adjust_last_ack hnum sn w) = sn.
Proof.
  intros Hwf Hh Hs. pose proof Hwf as []. split; [|done].
  assert (walk_forward (length (w_segs w)) hnum (w_last_ack_seg w) sn = Z.to_nat (sn - 1)) as Ew.
  { rewrite sw_ack_seg0. unfold nsegs in *. destruct (decide (sn = 1)) as [->|].
    - assert (Z.to_nat (w_last_ack w - 1) = 0%nat) as -> by lia. apply walk_forward_first; lia || done.
    - replace sn with (Z.of_nat (Z.to_nat (sn - 1)) + 1) at 1 by lia. apply walk_forward_found. lia. }
  unfold adjust_last_ack. rewrite u32_id by (unfold nsegs in *; lia). rewrite Ew.
  constructor; try done; unfold nsegs in *; cbn; lia.
Qed.

(** An ACK that moves the window. *)
Definition ack_accept (senv : send_env) (seg_num newwin : Z) (w : send_wr) : send_wr :=
  set_wr_newwin newwin
    (if w_last_ack w <? seg_num
     then set_retries (w_max_retries w) (adjust_last_ack (se_hnum senv) seg_num w) else w).

Lemma ack_accept_ok senv sn nw w :
  send_ok w -> se_hnum senv <> 1 -> w_last_ack w <= sn <= nsegs w -> w_newwin w <= nw ->
  sn < nw \/ sn = nsegs w ->
  send_step_ok w [] (ack_accept senv sn nw w) /\ w_last_ack (ack_accept senv sn nw w) = sn.
Proof.
  intros [Hwf Hwin _] Hh Hsn Hnw Hopen.
  set (w1 := if w_last_ack w <? sn then set_retries (w_max_retries w) (adjust_last_ack (se_hnum senv) sn w) else w).
  assert (send_wf w1 /\ w_last_ack w1 = sn /\ same_message w w1 /\ w_seg_num w1 = w_seg_num w)
    as (Hwf1 & Ea1 & Hsm1 & En1).
  { unfold w1. destruct (Z.ltb_spec (w_last_ack w) sn).
    - destruct (adjust_last_ack_wf (se_hnum senv) sn w Hwf Hh) as [Hwf' Ea]; [lia|].
      split_and!; try done. by destruct Hwf'.
    - split_and!; [done|lia|done..]. }
  change (ack_accept senv sn nw w) with (set_wr_newwin nw w1). split; [|done].
  assert (same_message w (set_wr_newwin nw w1)) as Hsm2 by (eapply same_message_trans; [apply Hsm1|done]).
  constructor; [|done|constructor|cbn; lia|cbn; lia].
  constructor; [by destruct Hwf1|cbn; lia|]. rewrite (nsegs_ext _ _ Hsm2). cbn. lia.
Qed.

Lemma send_ok_refcount rc w : send_ok w -> send_ok (set_refcount rc w).
Proof. intros [Hwf ? ?]. constructor; [by destruct Hwf|done|done]. Qed.

Lemma step_ok_refcount w ev rc w' :
  send_step_ok w ev w' -> send_step_ok w ev (set_refcount rc w').
Proof.
  intros [H Hsm Hs ? ?]. constructor; [by apply send_ok_refcount| |done|done|done].
  by eapply same_message_trans.
Qed.

(** Every ACK of a receiver that keeps its window open is processed inside the
    window. *)
Lemma ack_ok senv renv m w :
  send_ok w -> ack_open w m -> se_hnum senv <> 1 -> m_rmpp_type m = IB_MGMT_RMPP_TYPE_ACK ->
  exists act ev w', ack_wr senv renv m w = Some (act, ev, w') /\ send_step_ok w ev w' /\
    (w_last_ack w' = w_last_ack w \/ w_last_ack w' = s32 (m_seg_num m)).
Proof.
  intros H Hopen Hh Ht. pose proof H as [Hwf Hwin Ho]. unfold ack_wr. unfold ack_open in Hopen.
  set (sn := s32 (m_seg_num m)) in *. set (nw := s32 (m_paylen_newwin m)) in *.
  assert (data_sent (ack_ds_ack renv m) = []) as Hds by (apply ack_ds_no_data; rewrite Ht; done).
  destruct (_ && _); [eexists _, _, w; split; [done|]; split; [by apply step_ok_same|by left]|].
  destruct (send_over w) eqn:Eov; [eexists _, _, w; split; [done|]; split; [by apply step_ok_refl|by left]|].
  destruct (Z.ltb_spec (w_seg_count w) sn) as [|Hsc]; cbn [orb];
    [|destruct (Z.ltb_spec (w_newwin w) sn)].
  1,2: unfold abort_nack, abort_send; rewrite Eov; cbn [mbind option_bind]; eexists _, _, _; split; [done|];
    (split; [apply step_ok_quiet; [done|apply nack_no_data]|by left]).
  destruct (Z.ltb_spec nw (w_newwin w)); cbn [orb];
    [eexists _, _, w; split; [done|]; split; [by apply step_ok_refl|by left]|].
  destruct (Z.ltb_spec sn (w_last_ack w));
    [eexists _, _, w; split; [done|]; split; [by apply step_ok_refl|by left]|].
  rewrite (sw_count _ Hwf) in Hsc.
  destruct (ack_accept_ok senv sn nw w H Hh) as [Hok Ea]; [lia|lia|done|].
  change (set_wr_newwin nw _) with (ack_accept senv sn nw w). set (w2 := ack_accept senv sn nw w) in *.
  pose proof (ss_ok _ _ _ Hok) as Hok2. pose proof Hok2 as [Hwf2 _ Ho2].
  assert (forall ev, data_sent ev = [] -> forall t, send_step_ok w ev (set_timeout t w2)) as Htail.
  { intros ev Hev t. by eapply step_ok_trans; [apply Hok|apply step_ok_quiet|]. }
  destruct (w_last_ack w2 =? w_seg_count w2).
  { destruct (w_timeout_ms w2 =? 0); [|destruct (w_refcount w2 =? 1)];
      (eexists _, _, _; split; [done|]; split; [|right; done]); [by apply Htail|by apply Htail|].
    by eapply step_ok_trans; [apply Hok|apply step_ok_same|]. }
  destruct ((w_refcount w2 =? 1) && (w_seg_num w2 <? w_newwin w2) && (w_seg_num w2 <? w_seg_count w2)) eqn:Es.
  2: { eexists _, [], w2. split; [done|]. split; [done|by right]. }
  bool_to_prop. rewrite (sw_count _ Hwf2) in *.
  destruct (next_seg_ok senv w2 Hwf2) as (ret & ev & w3 & E & Hok3 & Ea3 & _); [done|done|done|].
  rewrite E. cbn [mbind option_bind].
  assert (send_step_ok w ev w3) as Hfin by (by eapply step_ok_trans).
  destruct (ret =? 0); eexists _, ev, _; (split; [done|]); (split; [|right; cbn; lia]); [|done].
  by apply step_ok_refcount.
Qed.

(** ** Segmentation *)

Lemma alloc_loop_spec fuel q seg_size c ok :
  0 < seg_size -> Z.of_nat q * seg_size < 2 ^ 31 -> (q < fuel)%nat -> (forall i, ok i = true) ->
  alloc_loop fuel (Z.of_nat q * seg_size) seg_size c ok = Some (inr (c + q)%nat).
Proof.
  revert q c. induction fuel as [|f IH]; intros q c Hs Hb Hf Hok; [lia|]. cbn [alloc_loop].
  destruct q as [|q]; [by rewrite Nat.add_0_r|].
  rewrite (proj2 (Z.ltb_lt _ _)) by lia. rewrite Hok.
  replace (Z.of_nat (S q) * seg_size - seg_size) with (Z.of_nat q * seg_size) by lia.
  rewrite s32_id by lia. rewrite IH by (done || lia). do 2 f_equal. lia.
Qed.

(** The padding completes the last segment; an empty message has one segment. *)
Lemma get_pad_size_spec hdr_len data_len mad_size :
  0 <= hdr_len < mad_size -> mad_size < 2 ^ 31 -> 0 <= data_len ->
  exists q, data_len + get_pad_size hdr_len data_len mad_size = Z.of_nat q * (mad_size - hdr_len) /\
    (0 < q)%nat /\ 0 <= get_pad_size hdr_len data_len mad_size <= mad_size - hdr_len.
Proof.
  intros Hh Hm Hd. unfold get_pad_size, truthy. rewrite s32_id by lia.
  set (seg := mad_size - hdr_len) in *.
  destruct (Z.eqb_spec data_len 0) as [->|Hne]; cbn [negb andb].
  { exists 1%nat. lia. }
  rewrite (proj2 (Z.eqb_neq seg 0)) by lia. cbn [negb].
  rewrite Z.rem_mod_nonneg by lia. pose proof (Z.mod_pos_bound data_len seg ltac:(lia)).
  pose proof (Z.div_mod data_len seg ltac:(lia)). pose proof (Z.div_pos data_len seg ltac:(lia) ltac:(lia)).
  destruct (Z.eqb_spec (seg - data_len mod seg) seg).
  - exists (Z.to_nat (data_len / seg)). rewrite Z2Nat.id by lia.
    split; [lia|]. split; [|lia]. assert (data_len / seg <> 0); [|lia]. intros E. rewrite E in *. lia.
  - exists (Z.to_nat (data_len / seg + 1)). rewrite Z2Nat.id by lia. lia.
Qed.

(** A work request made from a created buffer: its segments filled in, its header
    that of the class and base version the buffer was made for. *)
Record made_from (opa : bool) (mgmt_class base_version : Z) (c : created_send) (w : send_wr) : Prop := {
  mf_count : w_seg_count w = Z.of_nat (cs_seg_count c);
  mf_segs : length (w_segs w) = cs_seg_count c;
  mf_size : w_seg_rmpp_size w = cs_seg_rmpp_size c;
  mf_pad : w_pad w = cs_pad c;
  mf_class : m_mgmt_class (w_mad w) = mgmt_class;
  mf_base : m_base_version (w_mad w) = base_version
}.

Lemma rmpp_class_offset mgmt_class :
  ib_is_mad_class_rmpp mgmt_class = true ->
  IB_MGMT_RMPP_HDR <= ib_get_mad_data_offset mgmt_class <= 64.
Proof.
  unfold ib_is_mad_class_rmpp, IB_MGMT_CLASS_SUBN_ADM, IB_MGMT_CLASS_DEVICE_MGMT,
    IB_MGMT_CLASS_DEVICE_ADM, IB_MGMT_CLASS_BIS, IB_MGMT_CLASS_VENDOR_RANGE2_START,
    IB_MGMT_CLASS_VENDOR_RANGE2_END, ib_get_mad_data_offset, IB_MGMT_RMPP_HDR, IB_MGMT_SA_HDR,
    IB_MGMT_DEVICE_HDR, IB_MGMT_VENDOR_HDR, IB_MGMT_MAD_HDR.
  destruct (mgmt_class =? 3), (mgmt_class =? 6), (mgmt_class =? 16), (mgmt_class =? 18),
    (48 <=? mgmt_class), (mgmt_class <=? 79); cbn; intros; done || lia.
Qed.

Lemma mad_size_cases opa bv :
  exists rd, mad_size_of opa bv = rd + 36 /\ (rd = 220 \/ rd = 2012) /\
    (if opa && (bv =? OPA_MGMT_BASE_VERSION) then OPA_MGMT_RMPP_DATA else IB_MGMT_RMPP_DATA) = rd.
Proof.
  unfold mad_size_of. destruct (opa && _); [exists 2012|exists 220];
    (split; [done|split; [by (left + right)|done]]).
Qed.

Lemma create_send_spec opa bv mgmt_class data_len ok :
  ib_is_mad_class_rmpp mgmt_class = true -> 0 <= data_len < 2 ^ 31 - 4096 -> (forall i, ok i = true) ->
  exists c, ib_create_send_mad true opa true (ib_get_mad_data_offset mgmt_class) data_len bv true ok
      = Some (inr c) /\
    let seg := mad_size_of opa bv - ib_get_mad_data_offset mgmt_class in
    (0 < cs_seg_count c)%nat /\ data_len + cs_pad c = Z.of_nat (cs_seg_count c) * seg /\
    0 <= cs_pad c <= seg /\ cs_seg_rmpp_size c = mad_size_of opa bv - IB_MGMT_RMPP_HDR.
Proof.
  intros Hc Hd Hok. pose proof (rmpp_class_offset _ Hc) as Hh. unfold IB_MGMT_RMPP_HDR in *.
  destruct (mad_size_cases opa bv) as (rd & Em & Hrd & _).
  unfold ib_create_send_mad. cbn [negb andb orb].
  destruct (get_pad_size_spec (ib_get_mad_data_offset mgmt_class) data_len (mad_size_of opa bv))
    as (q & Eq & Hq & Hpad); [lia|lia|lia|].
  unfold alloc_send_rmpp_list. cbn [cs_hdr_len cs_data_len cs_pad].
  rewrite Eq, (s32_id (mad_size_of opa bv - ib_get_mad_data_offset mgmt_class)) by lia.
  rewrite (s32_id (Z.of_nat q * _)) by lia.
  rewrite alloc_loop_spec by (done || nia). cbn [mbind option_bind].
  eexists. split; [done|]. cbn [cs_seg_count cs_pad cs_seg_rmpp_size]. unfold IB_MGMT_RMPP_HDR.
  rewrite s32_id by lia. split_and!; lia.
Qed.

Lemma sent_msg_length w : length (sent_msg w) = length (w_segs w).
Proof. unfold sent_msg. by rewrite length_imap. Qed.

Lemma sent_msg_last w :
  w_segs w <> [] -> exists d, last (sent_msg w) = Some (segment_mad w (nsegs w) d).
Proof.
  intros Hn. rewrite last_lookup, sent_msg_length, sent_msg_lookup.
  destruct (lookup_lt_is_Some_2 (w_segs w) (pred (length (w_segs w)))) as [d Hd].
  { destruct (w_segs w); [done|simpl; lia]. }
  exists d. rewrite Hd. cbn. unfold nsegs. do 2 f_equal. destruct (w_segs w); [done|simpl; lia].
Qed.

Lemma message_len_sent opa mgmt_class bv c w data_len :
  ib_is_mad_class_rmpp mgmt_class = true -> 0 <= data_len < 2 ^ 31 - 4096 ->
  (0 < cs_seg_count c)%nat ->
  data_len + cs_pad c =
    Z.of_nat (cs_seg_count c) * (mad_size_of opa bv - ib_get_mad_data_offset mgmt_class) ->
  0 <= cs_pad c <= mad_size_of opa bv - ib_get_mad_data_offset mgmt_class ->
  cs_seg_rmpp_size c = mad_size_of opa bv - IB_MGMT_RMPP_HDR ->
  made_from opa mgmt_class bv c w ->
  message_len opa (sent_msg w) = ib_get_mad_data_offset mgmt_class + data_len.
Proof.
  intros Hc Hd Hq Eq Hp Er []. pose proof (rmpp_class_offset _ Hc) as Hh. unfold IB_MGMT_RMPP_HDR in *.
  destruct (mad_size_cases opa bv) as (rd & Em & Hrd & Erd).
  destruct (sent_msg_last w) as [d Hl]; [intros E; rewrite E in mf_segs0; cbn [length] in mf_segs0; lia|].
  pose proof (sent_msg_length w) as Hlen. unfold message_len.
  destruct (sent_msg w) as [|f rest] eqn:Ew; [done|]. rewrite Hl. cbn [default]. rewrite <- Ew in *.
  assert (m_base_version f = bv) as Ebf.
  { assert (sent_msg w !! 0%nat = Some f) as H0 by (by rewrite Ew). rewrite sent_msg_lookup in H0.
    destruct (w_segs w !! 0%nat); [|done]. cbn in H0. injection H0 as <-. done. }
  unfold get_mad_len, segment_mad.
  cbn [default set_segs upd create_rmpp_recv r_base_version r_seg_num m_mgmt_class m_paylen_newwin from_option id].
  rewrite Ebf, mf_class0, mf_count0, mf_size0, mf_pad0, Er. unfold nsegs. rewrite mf_segs0, Z.eqb_refl.
  rewrite Erd. change (if opa && (bv =? OPA_MGMT_BASE_VERSION) then _ else _) with (mad_size_of opa bv).
  rewrite Hlen, mf_segs0. rewrite (s32_id (mad_size_of opa bv - ib_get_mad_data_offset mgmt_class)) by lia.
  rewrite u32_id by lia. replace (rd - (mad_size_of opa bv - 36 - cs_pad c)) with (cs_pad c) by lia.
  rewrite (s32_id (cs_pad c)) by lia. rewrite (proj2 (Z.ltb_ge rd _)), (proj2 (Z.ltb_ge _ 0)) by lia. cbn [orb].
  rewrite <- Eq. rewrite s32_id by lia. lia.
Qed.

(** ** The life of a send *)

(** The events that reach a send: completion of a segment, expiry of its timer, an
    ACK, a message that aborts it. *)
Inductive send_cmd :=
| CCompletion (env : send_env) (wc_status : Z)
| CRetry (env : send_env)
| CAck (env : send_env) (renv : recv_env) (m : rmpp_mad)
| CAbort (rmpp_status : Z).

Definition send_exec1 (c : send_cmd) (w : send_wr) : option (list rmpp_event * send_wr) :=
  match c with
  | CCompletion env st =>
      '(_, ev, _, w') ← ib_process_rmpp_send_wc env st w; Some (ev, w')
  | CRetry env => '(_, ev, w') ← ib_retry_rmpp env w; Some (ev, w')
  | CAck env renv m => '(_, ev, w') ← ack_wr env renv m w; Some (ev, w')
  | CAbort st => w' ← (abort_send st (Some w)).2; Some ([], w')
  end.

Fixpoint send_exec (l : list send_cmd) (w : send_wr) : option (list rmpp_event * send_wr) :=
  match l with
  | [] => Some ([], w)
  | c :: l' =>
      '(ev, w1) ← send_exec1 c w;
      '(ev', w2) ← send_exec l' w1;
      Some (ev ++ ev', w2)
  end.

(** The ACKs come from a receiver that keeps its window open. *)
Definition cmd_ok (w : send_wr) (c : send_cmd) : Prop :=
  match c with
  | CAck env _ m => ack_open w m /\ se_hnum env <> 1 /\ m_rmpp_type m = IB_MGMT_RMPP_TYPE_ACK
  | _ => True
  end.

Lemma cmd_ok_ext w w' c : same_message w w' -> cmd_ok w c -> cmd_ok w' c.
Proof.
  intros Hsm. destruct c; cbn; [done|done| |done]. unfold ack_open. by rewrite (nsegs_ext _ _ Hsm).
Qed.

Lemma send_exec1_ok c w :
  send_ok w -> cmd_ok w c -> exists ev w', send_exec1 c w = Some (ev, w') /\ send_step_ok w ev w'.
Proof.
  intros H Hc. destruct c as [env st|env|env renv m|st]; cbn [send_exec1].
  - destruct (send_wc_ok env st w H) as (ret & ev & st' & w' & -> & Hok & _). by exists ev, w'.
  - destruct (retry_ok env w H) as (ret & ev & w' & -> & Hok & _). by exists ev, w'.
  - destruct Hc as (Ho & Hh & Ht).
    destruct (ack_ok env renv m w H Ho Hh Ht) as (act & ev & w' & -> & Hok & _). by exists ev, w'.
  - unfold abort_send. destruct (send_over w); cbn [snd mbind option_bind].
    + exists [], w. split; [done|]. by apply step_ok_refl.
    + eexists [], _. split; [done|]. by apply step_ok_quiet.
Qed.

Lemma data_sent_app ev ev' : data_sent (ev ++ ev') = data_sent ev ++ data_sent ev'.
Proof. apply omap_app. Qed.

Lemma send_exec_ok l w :
  send_ok w -> Forall (cmd_ok w) l ->
  exists ev w', send_exec l w = Some (ev, w') /\ send_step_ok w ev w'.
Proof.
  revert w. induction l as [|c l IH]; intros w H Hl; cbn [send_exec].
  { exists [], w. split; [done|]. by apply step_ok_refl. }
  apply Forall_cons_iff in Hl as [Hc Hl].
  destruct (send_exec1_ok c w H Hc) as (ev & w1 & -> & Hok). cbn [mbind option_bind].
  pose proof Hok as [H1 Hsm Hs Hn Ha].
  destruct (IH w1 H1) as (ev' & w2 & -> & [H2 Hsm' Hs' Hn' Ha']).
  { eapply Forall_impl; [apply Hl|]. intros x. by apply cmd_ok_ext. }
  exists (ev ++ ev'), w2. split; [done|].
  constructor; [done|by eapply same_message_trans| |lia|lia].
  unfold sends_in_window in *. rewrite data_sent_app. apply Forall_app. split.
  - eapply Forall_impl; [apply Hs|]. intros m (i & Hi & Hb). exists i. split; [done|lia].
  - by rewrite <- (sent_msg_ext _ _ Hsm).
Qed.

(** ** Properties *)

(** A send in its invariant processes any sequence of completions, timer
    expiries, aborts and ACKs from a receiver that keeps its window open without
    following a bad pointer; every data MAD it hands to the device is a segment of
    its message, with a number inside the largest window granted so far; the
    acknowledged prefix and the window never move back, and the invariant holds
    again at the end. *)
Theorem rmpp_send_in_window l w
  (Hw : send_ok w) (Hl : Forall (cmd_ok w) l) :
  exists ev w', send_exec l w = Some (ev, w') /\ send_ok w' /\
    (forall m, m ∈ data_sent ev ->
       exists i, sent_msg w !! i = Some m /\ Z.of_nat i + 1 <= w_newwin w') /\
    w_last_ack w <= w_last_ack w' /\ w_newwin w <= w_newwin w'.
Proof.
  destruct (send_exec_ok l w Hw Hl) as (ev & w' & E & [Hok _ Hs Hn Ha]).
  exists ev, w'. split_and!; [done|done| |done|done]. by apply Forall_forall.
Qed.

(** A send of three segments of a vendor class, with its window at one segment. *)
Definition demo_template : rmpp_mad :=
  {| m_tid := 7; m_mgmt_class := 48; m_class_version := 1; m_method := 1; m_base_version := 1;
     m_src_qp := 1; m_slid := 9; m_rmpp_version := 1; m_rmpp_type := 1; m_rtime_flags := 1;
     m_rmpp_status := 0; m_seg_num := 0; m_paylen_newwin := 0; m_data := [];
     m_attr_mod := 0; m_grh := None; m_path_bits := 0 |}.

Definition demo_send (newwin : Z) : send_wr :=
  {| w_mad := demo_template; w_segs := [[10]; [20]; [30]; [40]]; w_seg_count := 4;
     w_seg_rmpp_size := 220; w_pad := 5; w_cur_seg := 0; w_last_ack_seg := 0; w_last_ack := 0;
     w_seg_num := 1; w_newwin := newwin; w_timeout := 500; w_timeout_ms := 0; w_max_retries := 3;
     w_retries_left := 3; w_refcount := 1; w_status := IB_WC_SUCCESS |}.

Definition demo_senv : send_env :=
  {| se_jiffies := fun ms => ms; se_send := Some 0; se_hnum := 0 |}.
Definition demo_renv : recv_env :=
  {| e_kmalloc := true; e_ah := true; e_ack := AckPosted; e_nack := true |}.

Definition demo_ack (seg_num newwin : Z) : rmpp_mad :=
  {| m_tid := 7; m_mgmt_class := 48; m_class_version := 1; m_method := 129; m_base_version := 1;
     m_src_qp := 1; m_slid := 9; m_rmpp_version := 1; m_rmpp_type := IB_MGMT_RMPP_TYPE_ACK;
     m_rtime_flags := 1; m_rmpp_status := 0; m_seg_num := seg_num; m_paylen_newwin := newwin;
     m_data := [];
     m_attr_mod := 0; m_grh := None; m_path_bits := 0 |}.

Lemma demo_send_ok nw : 1 <= nw -> send_ok (demo_send nw).
Proof.
  intros Hn. constructor; [|cbn; lia|left; cbn; lia].
  constructor; try (vm_compute; reflexivity); cbn; unfold nsegs; cbn; lia.
Qed.

Lemma rmpp_send_in_window_witness :
  exists ev w', send_exec [CAck demo_senv demo_renv (demo_ack 1 3); CCompletion demo_senv 0;
    CCompletion demo_senv 0; CRetry demo_senv] (demo_send 1) = Some (ev, w') /\ send_ok w' /\
    (forall m, m ∈ data_sent ev ->
       exists i, sent_msg (demo_send 1) !! i = Some m /\ Z.of_nat i + 1 <= w_newwin w') /\
    w_last_ack (demo_send 1) <= w_last_ack w' /\ w_newwin (demo_send 1) <= w_newwin w'.
Proof.
  apply rmpp_send_in_window.
  - apply demo_send_ok. lia.
  - repeat constructor; vm_compute; done.
Defined.

(** The receiver of a message built by [ib_create_send_mad] computes its
    length back: for a class that carries RMPP and any data length that fits, the
    creation succeeds when memory is available (the allocation loop ends), and the
    length announced for the segments sent is the header and the data, without the
    padding and without the repeated headers. *)
Theorem rmpp_length_roundtrip opa mgmt_class base_version data_len ok
  (Hc : ib_is_mad_class_rmpp mgmt_class = true) (Hd : 0 <= data_len < 2 ^ 31 - 4096)
  (Hok : forall i, ok i = true) :
  exists c, ib_create_send_mad true opa true (ib_get_mad_data_offset mgmt_class) data_len
      base_version true ok = Some (inr c) /\
    forall w, made_from opa mgmt_class base_version c w ->
      message_len opa (sent_msg w) = ib_get_mad_data_offset mgmt_class + data_len.
Proof.
  destruct (create_send_spec opa base_version mgmt_class data_len ok Hc Hd Hok)
    as (c & E & Hq & Eq & Hp & Er).
  exists c. split; [done|]. intros w Hw. by eapply message_len_sent.
Qed.

Lemma rmpp_length_roundtrip_witness :
  exists c, ib_create_send_mad true false true (ib_get_mad_data_offset 48) 859 1 true (fun _ => true)
      = Some (inr c) /\
    forall w, made_from false 48 1 c w ->
      message_len false (sent_msg w) = ib_get_mad_data_offset 48 + 859.
Proof. apply rmpp_length_roundtrip; [reflexivity|lia|reflexivity]. Defined.

(** A receiver may close its window with an ACK whose new window is the
    segment it acknowledges; the sender accepts it and waits, but its timer then
    sends the segment after the window, and since the test for the end of the
    window is an equality that has been jumped over, the completions send all the
    remaining segments: the window is ignored. *)
Theorem rmpp_closed_window_ignored :
  exists ev w', send_exec [CAck demo_senv demo_renv (demo_ack 1 1); CRetry demo_senv;
      CCompletion demo_senv 0; CCompletion demo_senv 0] (demo_send 1) = Some (ev, w') /\
    w_newwin w' = 1 /\ map m_seg_num (data_sent ev) = [2; 3; 4].
Proof. eexists _, _. split; [vm_compute; reflexivity|]. by split. Qed.

(** Finding a segment by walking the circular list from the cached segment,
    forwards or backwards, is the same as indexing the segments directly, for every
    position of the cache, every number of the message and whatever is read at the
    list head; the cache is left on the segment found. *)
Theorem ib_get_rmpp_segment_direct hnum seg_num w
  (Hcur : (w_cur_seg w < length (w_segs w))%nat) (Hs : 1 <= seg_num <= nsegs w)
  (Hb : nsegs w < 2 ^ 31) :
  let i := Z.to_nat (seg_num - 1) in
  ib_get_rmpp_segment hnum seg_num w = (d ← w_segs w !! i; Some (d, set_cur_seg i w)) /\
  is_Some (w_segs w !! i).
Proof.
  destruct (get_segment_spec hnum seg_num w Hcur Hs Hb) as (d & Hd & E).
  cbv zeta. rewrite Hd. split; [exact E|by eexists].
Qed.

Lemma ib_get_rmpp_segment_direct_witness :
  let i := Z.to_nat (3 - 1) in
  ib_get_rmpp_segment 3 3 (demo_send 1) = (d ← w_segs (demo_send 1) !! i; Some (d, set_cur_seg i (demo_send 1))) /\
  is_Some (w_segs (demo_send 1) !! i).
Proof. apply ib_get_rmpp_segment_direct; unfold nsegs; cbn; lia. Defined.
