(* ===== verification/RmppSystem.v ===== *)
(** * RMPP, a transfer from end to end

    The sending side, the receiving side and a network that may lose, duplicate
    and reorder MADs: everything ever sent stays available for delivery, any
    number of times, in any order, or never. Both ends run the entry points of
    mad_rmpp.c; the receiving agent also serves other transactions, and its timers
    may expire at any moment. *)

From Stdlib Require Import ZArith Lia Sorted.
From stdpp Require Import base tactics numbers list option sorting.
From S2P Require Import Prelude RmppRecv RmppSend.

Local Open Scope Z_scope.

(** A MAD as the receiver sees it: with the address of the sender. *)
Definition arrive (src_qp slid : Z) (m : rmpp_mad) : rmpp_mad :=
  {| m_tid := m_tid m; m_mgmt_class := m_mgmt_class m; m_class_version := m_class_version m;
     m_method := m_method m; m_base_version := m_base_version m;
     m_src_qp := src_qp; m_slid := slid;
     m_rmpp_version := m_rmpp_version m; m_rmpp_type := m_rmpp_type m;
     m_rtime_flags := m_rtime_flags m; m_rmpp_status := m_rmpp_status m;
     m_seg_num := m_seg_num m; m_paylen_newwin := m_paylen_newwin m; m_data := m_data m;
     m_attr_mod := m_attr_mod m; m_grh := m_grh m; m_path_bits := m_path_bits m |}.

(** ** The system *)

Record sys := {
  s_wr : send_wr;
  s_agent : rmpp_agent;
  s_air : list rmpp_mad;
  s_back : list rmpp_mad;
  s_ds : list delivery
}.

Inductive sys_cmd :=
| YCompletion (env : send_env) (wc_status : Z)
| YRetry (env : send_env)
| YAnswer (senv : send_env) (renv : recv_env) (i : nat)
| YData (senv : send_env) (renv : recv_env) (i : nat)
| YOther (senv : send_env) (renv : recv_env) (m : rmpp_mad)
| YTimeout (renv : recv_env) (i : nat)
| YCleanup (i : nat).

Definition sends_of (ev : list rmpp_event) : list rmpp_mad :=
  omap (fun e => match e with ESend m => Some m | EFree _ => None end) ev.

Definition message_of (r : recv_result) : list delivery :=
  match r with RMessage d => [d] | _ => [] end.

Section System.

Context (src_qp slid : Z).

(** The agent of the sender receives nothing but answers. *)
Definition sender_agent : rmpp_agent := {| a_recvs := []; a_max_active := 0; a_opa := false |}.

Definition with_sender (ev : list rmpp_event) (w : send_wr) (s : sys) : sys :=
  {| s_wr := w; s_agent := s_agent s;
     s_air := s_air s ++ map (arrive src_qp slid) (data_sent ev);
     s_back := s_back s; s_ds := s_ds s |}.

Definition with_receiver (a : rmpp_agent) (back : list rmpp_mad) (ds : list delivery) (s : sys) : sys :=
  {| s_wr := s_wr s; s_agent := a; s_air := s_air s; s_back := s_back s ++ back;
     s_ds := s_ds s ++ ds |}.

Definition sys_exec1 (c : sys_cmd) (s : sys) : option sys :=
  match c with
  | YCompletion env st =>
      '(_, ev, _, w) ← ib_process_rmpp_send_wc env st (s_wr s); Some (with_sender ev w s)
  | YRetry env => '(_, ev, w) ← ib_retry_rmpp env (s_wr s); Some (with_sender ev w s)
  | YAnswer senv renv i =>
      match s_back s !! i with
      | None => Some s
      | Some m =>
          '(_, _, ev, f, _) ← ib_process_rmpp_recv_wc senv renv m (Some (s_wr s)) sender_agent;
          w ← f; Some (with_sender ev w s)
      end
  | YData senv renv i =>
      match s_air s !! i with
      | None => Some s
      | Some m =>
          '(res, _, ev, _, a) ← ib_process_rmpp_recv_wc senv renv m None (s_agent s);
          Some (with_receiver a (sends_of ev) (message_of res) s)
      end
  | YOther senv renv m =>
      '(_, _, _, _, a) ← ib_process_rmpp_recv_wc senv renv m None (s_agent s);
      Some (with_receiver a [] [] s)
  | YTimeout renv i =>
      match a_recvs (s_agent s) !! i with
      | None => Some s
      | Some _ =>
          '(a, ev) ← recv_timeout_handler renv i (s_agent s);
          Some (with_receiver a (sends_of ev) [] s)
      end
  | YCleanup i =>
      match a_recvs (s_agent s) !! i with
      | None => Some s
      | Some _ => Some (with_receiver (recv_cleanup_handler i (s_agent s)) [] [] s)
      end
  end.

Fixpoint sys_exec (l : list sys_cmd) (s : sys) : option sys :=
  match l with
  | [] => Some s
  | c :: l' => s1 ← sys_exec1 c s; sys_exec l' s1
  end.

End System.

(** ** What is sent is a message *)

Definition sent_key (src_qp slid : Z) (w : send_wr) : rkey :=
  (m_tid (w_mad w), src_qp, slid, m_mgmt_class (w_mad w), m_class_version (w_mad w),
   m_method (w_mad w)).

Definition arriving (src_qp slid : Z) (w : send_wr) : list rmpp_mad :=
  map (arrive src_qp slid) (sent_msg w).

Lemma set_flags_active rt : Z.land (ib_set_rmpp_flags rt IB_MGMT_RMPP_FLAG_ACTIVE) 7 = 1.
Proof.
  unfold ib_set_rmpp_flags, IB_MGMT_RMPP_FLAG_ACTIVE. rewrite Z.land_lor_distr_l, <- Z.land_assoc.
  change (Z.land 248 7) with 0. by rewrite Z.land_0_r.
Qed.

(** The flags of a segment say whether it is the first and whether the last. *)
Lemma segment_flags w sn d :
  ib_get_rmpp_flags (segment_mad w sn d) =
    1 + (if sn =? 1 then 2 else 0) + (if sn =? w_seg_count w then 4 else 0).
Proof.
  unfold ib_get_rmpp_flags, segment_mad, IB_MGMT_RMPP_FLAG_FIRST, IB_MGMT_RMPP_FLAG_LAST.
  cbn [m_rtime_flags]. pose proof (set_flags_active (m_rtime_flags (w_mad w))) as E.
  destruct (sn =? 1), (sn =? w_seg_count w); by rewrite ?Z.land_lor_distr_l, E.
Qed.

Lemma arriving_lookup src_qp slid w i m :
  arriving src_qp slid w !! i = Some m ->
  exists d, w_segs w !! i = Some d /\ m = arrive src_qp slid (segment_mad w (Z.of_nat i + 1) d).
Proof.
  unfold arriving. change (map (arrive src_qp slid)) with (fmap (M := list) (arrive src_qp slid)).
  rewrite list_lookup_fmap, sent_msg_lookup. destruct (w_segs w !! i) as [d|]; [|done].
  intros E. simplify_eq/=. by exists d.
Qed.

Lemma sent_is_message src_qp slid w :
  send_wf w -> m_rmpp_status (w_mad w) = 0 ->
  is_message (sent_key src_qp slid w) (arriving src_qp slid w).
Proof.
  intros [] Hst.
  assert (length (arriving src_qp slid w) = length (w_segs w)) as Hlen
    by (unfold arriving; by rewrite length_map, sent_msg_length).
  unfold nsegs in *. constructor.
  - intros E. rewrite E in Hlen. simpl in Hlen. lia.
  - lia.
  - intros i m Hi. pose proof (lookup_lt_Some _ _ _ Hi) as Hlt. rewrite Hlen in Hlt.
    apply arriving_lookup in Hi as (d & _ & ->).
    assert (m_seg_num (arrive src_qp slid (segment_mad w (Z.of_nat i + 1) d)) = Z.of_nat i + 1) as Es
      by (cbn [arrive segment_mad m_seg_num]; apply u32_id; lia).
    pose proof (segment_flags w (Z.of_nat i + 1) d) as Ef.
    change (ib_get_rmpp_flags (segment_mad w (Z.of_nat i + 1) d)) with
      (ib_get_rmpp_flags (arrive src_qp slid (segment_mad w (Z.of_nat i + 1) d))) in Ef.
    rewrite sw_count in Ef. unfold nsegs in Ef.
    split_and!; [done| |done|].
    + split; [done|]. rewrite Es, Ef. destruct (Z.eqb_spec (Z.of_nat i + 1) 1),
        (Z.eqb_spec (Z.of_nat i + 1) (Z.of_nat (length (w_segs w)))); done.
    + unfold get_last_flag. rewrite Ef, Hlen.
      destruct (Z.eqb_spec (Z.of_nat i + 1) 1),
        (Z.eqb_spec (Z.of_nat i + 1) (Z.of_nat (length (w_segs w)))); cbn;
        case_bool_decide; done || lia.
Qed.

Lemma arriving_ext src_qp slid w w' :
  same_message w w' -> arriving src_qp slid w' = arriving src_qp slid w.
Proof. intros H. unfold arriving. by rewrite (sent_msg_ext _ _ H). Qed.

(** ** The sender receives an answer *)

Lemma step_ok_free w ev w' ms : send_step_ok w ev w' -> send_step_ok w (ev ++ [EFree ms]) w'.
Proof.
  intros []. constructor; try done. unfold sends_in_window in *.
  rewrite data_sent_app. cbn [data_sent omap list_omap]. by rewrite app_nil_r.
Qed.

Lemma abort_send_ok st w :
  send_ok w -> exists act w', abort_send st (Some w) = (act, Some w') /\
    send_step_ok w [] w' /\ w_last_ack w' = w_last_ack w.
Proof.
  intros H. unfold abort_send. destruct (send_over w); eexists _, _; (split; [done|]); (split; [|done]).
  - by apply step_ok_refl.
  - by apply step_ok_quiet.
Qed.

Lemma abort_nack_ok renv m st w :
  send_ok w -> exists act ev w', abort_nack renv m st (Some w) = (act, ev, Some w') /\
    send_step_ok w ev w' /\ w_last_ack w' = w_last_ack w.
Proof.
  intros H. unfold abort_nack. destruct (abort_send_ok st w H) as (act & w' & -> & Hok & Ea).
  exists act, (nack_recv renv m st), w'. split_and!; [done| |done].
  destruct Hok. constructor; try done. unfold sends_in_window. rewrite nack_no_data. constructor.
Qed.

(** An ACK of an open window, or an ABORT, as the receiver sends them. *)
Definition answer_ok (w : send_wr) (m : rmpp_mad) : Prop :=
  m_rmpp_type m = IB_MGMT_RMPP_TYPE_ABORT \/
  (m_rmpp_type m = IB_MGMT_RMPP_TYPE_ACK /\ ack_open w m).

Lemma process_ack_ok senv renv m w a :
  send_ok w -> se_hnum senv <> 1 -> m_rmpp_type m = IB_MGMT_RMPP_TYPE_ACK -> ack_open w m ->
  exists act ev w' a', process_rmpp_ack senv renv m (Some w) a = Some (act, ev, Some w', a') /\
    send_step_ok w ev w' /\ (w_last_ack w' = w_last_ack w \/ w_last_ack w' = s32 (m_seg_num m)).
Proof.
  intros H Hh Ht Ho. unfold process_rmpp_ack.
  assert (forall st, exists act ev w' a',
    (let '(x, y, f) := abort_nack renv m st (Some w) in Some (x, y, f, a)) = Some (act, ev, Some w', a') /\
    send_step_ok w ev w' /\ (w_last_ack w' = w_last_ack w \/ w_last_ack w' = s32 (m_seg_num m))) as Hfail.
  { intros st. destruct (abort_nack_ok renv m st w H) as (act & ev & w' & -> & Hok & Ea).
    eexists act, ev, w', a. split_and!; [done|done|by left]. }
  destruct (truthy (m_rmpp_status m)); [apply Hfail|].
  destruct (_ <? _); [apply Hfail|].
  destruct (ack_ok senv renv m w H Ho Hh Ht) as (act & ev & w' & -> & Hok & Ha).
  by exists act, ev, w', a.
Qed.

Lemma sender_answer_ok senv renv m w a :
  send_ok w -> se_hnum senv <> 1 -> answer_ok w m ->
  exists res act ev w' a', ib_process_rmpp_recv_wc senv renv m (Some w) a
      = Some (res, act, ev, Some w', a') /\ send_step_ok w ev w' /\
    (w_last_ack w' = w_last_ack w \/
     (m_rmpp_type m = IB_MGMT_RMPP_TYPE_ACK /\ w_last_ack w' = s32 (m_seg_num m))).
Proof.
  intros H Hh Hm. unfold ib_process_rmpp_recv_wc.
  destruct (has_flag _ _); cbn [negb].
  2: { eexists _, _, _, w, a. split; [done|]. split; [by apply step_ok_refl|by left]. }
  destruct (m_rmpp_version m =? IB_MGMT_RMPP_VERSION); cbn [negb].
  2: { destruct (abort_nack_ok renv m IB_MGMT_RMPP_STATUS_UNV w H) as (act & ev & w' & -> & Hok & Ea).
       eexists _, act, _, w', a. split; [done|]. split; [by apply step_ok_free|by left]. }
  destruct Hm as [E|[E Ho]]; rewrite E; cbn [Z.eqb Pos.eqb IB_MGMT_RMPP_TYPE_DATA
    IB_MGMT_RMPP_TYPE_ACK IB_MGMT_RMPP_TYPE_STOP IB_MGMT_RMPP_TYPE_ABORT].
  - unfold process_rmpp_abort. destruct (_ || _).
    + destruct (abort_nack_ok renv m IB_MGMT_RMPP_STATUS_BAD_STATUS w H) as (act & ev & w' & -> & Hok & Ea).
      eexists _, act, _, w', a. split; [done|]. split; [by apply step_ok_free|by left].
    + destruct (abort_send_ok (m_rmpp_status m) w H) as (act & w' & -> & Hok & Ea).
      eexists _, act, _, w', a. split; [done|]. split; [by apply step_ok_free|by left].
  - destruct (process_ack_ok senv renv m w a H Hh E Ho) as (act & ev & w' & a' & -> & Hok & Ha).
    eexists _, act, _, w', a'. split; [done|]. split; [by apply step_ok_free|].
    destruct Ha as [Ha|Ha]; [by left|by right].
Qed.

(** ** The invariant of a transfer *)

(** An answer of the receiver: an acknowledgement of everything is only sent once
    the message has been delivered. *)
Definition back_ok (w : send_wr) (ds : list delivery) (m : rmpp_mad) : Prop :=
  answer_ok w m /\
  (m_rmpp_type m = IB_MGMT_RMPP_TYPE_ACK -> ds = [] -> s32 (m_seg_num m) < nsegs w).

Section Transfer.

Context (src_qp slid : Z).

Record sys_inv (k : rkey) (msg : list rmpp_mad) (N : Z) (s : sys) : Prop := {
  yi_send : send_ok (s_wr s);
  yi_msg : arriving src_qp slid (s_wr s) = msg;
  yi_air : Forall (fun m => m ∈ msg) (s_air s);
  yi_recv : Forall (recv_ok (s_agent s) N) (a_recvs (s_agent s));
  yi_keys : NoDup (map recv_key (a_recvs (s_agent s)));
  yi_ds : exists old cur, s_ds s = old ++ cur /\
    Forall (fun d => d = (msg, message_len (a_opa (s_agent s)) msg)) old /\
    tx_ok k msg (s_agent s) cur;
  yi_back : Forall (back_ok (s_wr s) (s_ds s)) (s_back s);
  yi_ack : s_ds s = [] -> w_last_ack (s_wr s) < nsegs (s_wr s)
}.

Lemma back_ok_ext w w' ds m : same_message w w' -> back_ok w ds m -> back_ok w' ds m.
Proof.
  intros Hsm. unfold back_ok, answer_ok, ack_open. by rewrite (nsegs_ext _ _ Hsm).
Qed.

Lemma back_ok_app w ds ds' m : back_ok w ds m -> back_ok w (ds ++ ds') m.
Proof.
  intros [Ha Hd]. split; [done|]. intros Ht E. apply app_eq_nil in E as [E _]. by apply Hd.
Qed.

(** A step of the sender. *)
Lemma sender_step_inv k msg N s ev w :
  sys_inv k msg N s -> send_step_ok (s_wr s) ev w ->
  (s_ds s = [] -> w_last_ack w < nsegs (s_wr s)) ->
  sys_inv k msg N (with_sender src_qp slid ev w s).
Proof.
  intros [] [Hok Hsm Hs _ _] Ha. constructor; cbn [with_sender s_wr s_agent s_air s_back s_ds]; try done.
  - by rewrite (arriving_ext _ _ _ _ Hsm).
  - apply Forall_app. split; [done|]. apply Forall_forall. intros m Hm.
    apply list_elem_of_In, in_map_iff in Hm as (m' & <- & Hm'). apply list_elem_of_In in Hm'.
    unfold sends_in_window in Hs. rewrite Forall_forall in Hs.
    destruct (Hs m' Hm') as (i & Hi & _). rewrite <- yi_msg0. unfold arriving.
    apply list_elem_of_In, in_map, list_elem_of_In. by apply list_elem_of_lookup_2 in Hi.
  - eapply Forall_impl; [apply yi_back0|]. intros x. by apply back_ok_ext.
  - rewrite (nsegs_ext _ _ Hsm). done.
Qed.

Context (k : rkey) (msg : list rmpp_mad) (Hmsg : is_message k msg).

(** Data MADs that pass the entry point. *)
Definition wire_data (m : rmpp_mad) : Prop :=
  has_flag (m_rtime_flags m) IB_MGMT_RMPP_FLAG_ACTIVE = true /\
  m_rmpp_version m = IB_MGMT_RMPP_VERSION /\ m_rmpp_type m = IB_MGMT_RMPP_TYPE_DATA.

Context (Hwire : Forall wire_data msg).

Lemma member_key m : m ∈ msg -> mad_key m = k.
Proof. intros [i Hi]%list_elem_of_lookup. by destruct (im_seg _ _ Hmsg i m Hi) as (_ & _ & ? & _). Qed.

Lemma lookup_key_None kk l : lookup_key kk l = None <-> kk ∉ map recv_key l.
Proof.
  induction l as [|r l IH]; [split; [intros _ H; inversion H|done]|]. cbn [lookup_key map].
  rewrite not_elem_of_cons. case_decide as E; [split; [done|intros [? _]; congruence]|].
  rewrite IH. split; [intros ?; split; [congruence|done]|by intros [_ ?]].
Qed.

Lemma data_keys env m a a' ev d :
  data_outcome env m a a' ev d -> NoDup (map recv_key (a_recvs a)) -> NoDup (map recv_key (a_recvs a')).
Proof.
  intros [| |]; intros Hnd; [done|congruence|].
  match goal with E : map recv_key _ = _ ++ _ |- _ => rewrite E end.
  apply NoDup_app. split_and!; [done| |by apply NoDup_singleton].
  intros x Hx E%list_elem_of_singleton. subst x.
  match goal with E : lookup_key _ _ = None |- _ => by apply lookup_key_None in E end.
Qed.

(** The answers to a segment of the message. *)
Lemma data_acks env m a a' ev d :
  data_outcome env m a a' ev d -> mad_key m = k ->
  Forall (fun x => m_rmpp_type x = IB_MGMT_RMPP_TYPE_ABORT \/
    exists r m0, lookup_key k (a_recvs a') = Some r /\ x = format_ack m0 r) (sends_of ev).
Proof.
  intros Ho Ek. apply Forall_forall. intros x Hx. unfold sends_of in Hx.
  apply list_elem_of_omap in Hx as (e & He & Ex). destruct e as [y|]; [|done]. injection Ex as ->.
  destruct Ho as [ev _ Hab _ | r r' a' ev d _ Hok _ Hlk | r a' ev d _ _ _ _ _ _ _ Hlk _ _ Hack].
  - left. unfold only_aborts in Hab. rewrite Forall_forall in Hab. by apply (Hab _ He).
  - right. pose proof (rs_acks _ _ _ _ _ _ _ Hok) as Hack. rewrite Forall_forall in Hack.
    destruct (Hack _ He) as (m0 & -> & _). exists r', m0. by rewrite Hlk, decide_True.
  - right. rewrite Forall_forall in Hack. exists r, m. rewrite Hlk, decide_True by done.
    split; [done|by apply (Hack _ He)].
Qed.

(** An acknowledgement of the transaction tells the truth. *)
Lemma ack_back_ok w a N old cur r m0 :
  tx_ok k msg a cur -> Forall (recv_ok a N) (a_recvs a) -> N + 2 * window_size a + 2 < 2 ^ 31 ->
  lookup_key k (a_recvs a) = Some r -> Z.of_nat (length msg) = nsegs w ->
  back_ok w (old ++ cur) (format_ack m0 r).
Proof.
  intros Htx Hall HN Hl Hn. unfold tx_ok in Htx. rewrite Hl in Htx. destruct Htx as (Hi & Hf & _ & Hd).
  destruct (lookup_key_elem _ _ _ Hl) as [Hin _]. rewrite Forall_forall in Hall.
  destruct (Hall r Hin) as (_ & Hlen & _).
  pose proof (ri_num _ _ Hi). pose proof (ri_cur _ _ Hi). pose proof (ri_win _ _ Hi).
  pose proof (window_pos a).
  assert (s32 (m_seg_num (format_ack m0 r)) = r_seg_num r) as Es
    by (cbn [format_ack m_seg_num]; rewrite u32_id, s32_id; lia).
  assert (s32 (m_paylen_newwin (format_ack m0 r)) = r_newwin r) as Ew
    by (cbn [format_ack m_paylen_newwin]; rewrite u32_id, s32_id; lia).
  unfold back_ok, answer_ok, ack_open. rewrite Es, Ew, <- Hn.
  destruct (r_state r) eqn:Est.
  - pose proof (active_below_msg k msg Hmsg _ r Hi Hf Est). pose proof (ri_state _ _ Hi) as Hst.
    rewrite Est in Hst. split; [right; split; [done|]; left; tauto|done].
  - pose proof (ri_state _ _ Hi) as Hst. by rewrite Est in Hst.
  - destruct (complete_is_msg k msg Hmsg _ r Hi Hf Est) as [_ En].
    split; [right; split; [done|by right]|]. intros _ E. apply app_eq_nil in E as [_ E]. by rewrite E in Hd.
Qed.

Lemma entry_data senv renv m a :
  wire_data m ->
  ib_process_rmpp_recv_wc senv renv m None a =
    '(a', ev, d) ← process_rmpp_data renv m a;
    Some (from_option RMessage RConsumed d, SNone, ev, None, a').
Proof.
  intros (Hf & Hv & Ht). unfold ib_process_rmpp_recv_wc. by rewrite Hf, Hv, Ht.
Qed.

(** A segment of the message arrives. *)
Lemma data_step_inv senv renv m N s :
  sys_inv k msg N s -> m ∈ msg -> 0 <= N -> N + 1 + 2 * window_size (s_agent s) + 2 < 2 ^ 31 ->
  exists res act ev f a,
    ib_process_rmpp_recv_wc senv renv m None (s_agent s) = Some (res, act, ev, f, a) /\
    window_size a = window_size (s_agent s) /\ a_opa a = a_opa (s_agent s) /\
    sys_inv k msg (N + 1) (with_receiver a (sends_of ev) (message_of res) s).
Proof.
  intros Hs Hm HN Hb. pose proof Hs as [? ? ? ? ? (old & cur & Eds & Hold & Htx) ? ?].
  rewrite entry_data by (by rewrite Forall_forall in Hwire; apply Hwire).
  destruct (process_rmpp_data_spec N renv m (s_agent s)) as (a & ev & d & -> & Hcfg & Hrecv & Ho);
    [split; [done|lia]|done|].
  cbn [mbind option_bind]. pose proof (member_key m Hm) as Ek.
  destruct (data_step k msg Hmsg renv m _ _ ev d cur Ho Hcfg ltac:(done) Htx) as (Htx' & _).
  rewrite decide_True in Htx' by done. pose proof (window_config _ _ Hcfg) as EW.
  eexists _, _, ev, _, a. split; [done|]. split; [done|]. split; [by apply Hcfg|].
  assert (message_of (from_option RMessage RConsumed d) = from_option (fun x => [x]) [] d) as Em
    by (by destruct d).
  rewrite Em. assert (Forall (recv_ok a (N + 1)) (a_recvs a)) as Hrecv'
    by (unfold recv_ok in *; by rewrite EW).
  constructor; cbn [with_receiver s_wr s_agent s_air s_back s_ds]; try done.
  - by eapply data_keys.
  - exists old, (cur ++ from_option (fun x => [x]) [] d). rewrite Eds, app_assoc.
    split_and!; [done| |done]. by rewrite (proj2 Hcfg).
  - apply Forall_app. split.
    + eapply Forall_impl; [apply yi_back0|]. intros x. apply back_ok_app.
    + eapply Forall_impl; [eapply data_acks; [apply Ho|done]|].
      intros x [Hab|(r & m0 & Hl & ->)]; [split; [by left|]; intros E; rewrite Hab in E; done|].
      rewrite Eds, <- app_assoc. eapply ack_back_ok; [done|done|rewrite EW; lia|done|].
      rewrite <- yi_msg0. unfold nsegs, arriving. by rewrite length_map, sent_msg_length.
  - intros E. apply app_eq_nil in E as [E _]. by apply yi_ack0.
Qed.

(** ** Other traffic *)

(** The receiver changes in a way that leaves the transaction alone. *)
Lemma receiver_quiet_inv N a s :
  sys_inv k msg N s -> 0 <= N -> same_config (s_agent s) a ->
  Forall (recv_ok a (N + 1)) (a_recvs a) -> NoDup (map recv_key (a_recvs a)) ->
  (forall ds, tx_ok k msg (s_agent s) ds -> tx_ok k msg a ds) ->
  sys_inv k msg (N + 1) (with_receiver a [] [] s).
Proof.
  intros [? ? ? ? ? (old & cur & Eds & Hold & Htx) ? ?] HN Hcfg Hrecv Hnd Htx'.
  constructor; cbn [with_receiver s_wr s_agent s_air s_back s_ds]; rewrite ?app_nil_r; try done.
  exists old, cur. split_and!; [done| |by apply Htx']. by rewrite (proj2 Hcfg).
Qed.

Lemma tx_ok_ext a a' ds :
  same_config a a' -> lookup_key k (a_recvs a') = lookup_key k (a_recvs a) ->
  tx_ok k msg a ds -> tx_ok k msg a' ds.
Proof.
  intros Hcfg El. unfold tx_ok. rewrite El, (window_config _ _ Hcfg), (proj2 Hcfg). done.
Qed.

Lemma repwin_ok a N v r : recv_ok a N r -> recv_ok a N (set_repwin v r).
Proof. intros ([[] Hs] & ? & ?). split_and!; [|done|done]. constructor; [by constructor|done]. Qed.

Lemma insert_same_key i r r' l :
  l !! i = Some r -> recv_key r' = recv_key r -> map recv_key (<[i := r']> l) = map recv_key l.
Proof.
  intros Hi E. change (map recv_key) with (fmap (M := list) recv_key).
  rewrite list_fmap_insert, E. apply list_insert_id. by rewrite list_lookup_fmap, Hi.
Qed.

Lemma ds_ack_quiet m v N a :
  Forall (recv_ok a N) (a_recvs a) -> NoDup (map recv_key (a_recvs a)) -> mad_key m <> k ->
  let a' := process_ds_ack m v a in
  same_config a a' /\ Forall (recv_ok a' N) (a_recvs a') /\ NoDup (map recv_key (a_recvs a')) /\
  lookup_key k (a_recvs a') = lookup_key k (a_recvs a).
Proof.
  intros Hall Hnd Hk. unfold process_ds_ack.
  destruct (find_rmpp_recv m (a_recvs a)) as [i|] eqn:Ef; [|done].
  destruct (find_Some _ _ _ Ef) as (r & Hi & _ & Ek). rewrite Hi.
  case_bool_decide; [|done]. cbn [set_recvs a_recvs]. split_and!; [done| | |].
  - apply Forall_insert; [done|]. apply repwin_ok. by apply (Forall_lookup_1 _ _ _ _ Hall Hi).
  - by erewrite insert_same_key.
  - erewrite lookup_key_insert; [|done|done]. by rewrite decide_False.
Qed.

(** A MAD that belongs to another transaction. *)
Lemma other_step_inv senv renv m N s :
  sys_inv k msg N s -> mad_key m <> k -> 0 <= N -> N + 1 + 2 * window_size (s_agent s) + 2 < 2 ^ 31 ->
  exists res act ev f a,
    ib_process_rmpp_recv_wc senv renv m None (s_agent s) = Some (res, act, ev, f, a) /\
    window_size a = window_size (s_agent s) /\ a_opa a = a_opa (s_agent s) /\
    sys_inv k msg (N + 1) (with_receiver a [] [] s).
Proof.
  intros Hs Hk HN Hb. pose proof Hs as [? ? ? Hr Hnd ? ? ?].
  assert (Forall (recv_ok (s_agent s) (N + 1)) (a_recvs (s_agent s))) as Hr1
    by (eapply Forall_impl; [apply Hr|]; intros x; apply recv_ok_mono; lia).
  assert (forall (res : recv_result) (act : send_action) (ev : list rmpp_event) (f : option send_wr),
    exists res' act' ev' f' a,
    Some (res, act, ev, f, s_agent s) = Some (res', act', ev', f', a) /\
    window_size a = window_size (s_agent s) /\ a_opa a = a_opa (s_agent s) /\
    sys_inv k msg (N + 1) (with_receiver a [] [] s)) as Hnone.
  { intros res act ev f. eexists res, act, ev, f, (s_agent s). split_and!; try done.
    by apply receiver_quiet_inv. }
  unfold ib_process_rmpp_recv_wc.
  destruct (has_flag _ _); cbn [negb]; [|apply Hnone].
  destruct (m_rmpp_version m =? _); cbn [negb]; [|apply Hnone].
  destruct (m_rmpp_type m =? IB_MGMT_RMPP_TYPE_DATA).
  { destruct (process_rmpp_data_spec N renv m (s_agent s)) as (a & ev & d & -> & Hcfg & Hrecv & Ho);
      [split; [done|lia]|done|].
    cbn [mbind option_bind]. pose proof (window_config _ _ Hcfg) as EW.
    eexists _, _, ev, _, a. split; [done|]. split; [done|]. split; [by apply Hcfg|].
    apply receiver_quiet_inv; [done|done|done|unfold recv_ok in *; by rewrite EW|by eapply data_keys|].
    intros ds Htx. destruct (data_step k msg Hmsg renv m _ _ ev d ds Ho Hcfg ltac:(done) Htx) as (Htx' & _).
    by rewrite decide_False in Htx' by done. }
  destruct (m_rmpp_type m =? IB_MGMT_RMPP_TYPE_ACK).
  { unfold process_rmpp_ack. destruct (truthy _); [apply Hnone|]. destruct (_ <? _); [apply Hnone|].
    cbn [mbind option_bind]. destruct (_ =? 0); [|apply Hnone].
    destruct (ds_ack_quiet m (s32 (m_paylen_newwin m)) (N + 1) (s_agent s) Hr1 Hnd Hk) as (Hc & Hr' & Hnd' & El).
    eexists _, _, _, _, _. split; [done|]. split; [by apply window_config|]. split; [by apply Hc|].
    apply receiver_quiet_inv; try done. intros ds. by apply tx_ok_ext. }
  destruct (m_rmpp_type m =? IB_MGMT_RMPP_TYPE_STOP).
  { unfold process_rmpp_stop. destruct (negb _); apply Hnone. }
  destruct (m_rmpp_type m =? IB_MGMT_RMPP_TYPE_ABORT); [|apply Hnone].
  unfold process_rmpp_abort. destruct (_ || _); apply Hnone.
Qed.

(** ** Timers of the receiver *)

Lemma lookup_key_delete l i r :
  NoDup (map recv_key l) -> l !! i = Some r ->
  lookup_key k (delete i l) = if decide (recv_key r = k) then None else lookup_key k l.
Proof.
  revert i. induction l as [|x l IH]; intros [|i] Hnd Hi; simplify_eq/=; apply NoDup_cons in Hnd as [Hn Hnd].
  - destruct (decide (recv_key r = k)) as [E|]; [|done]. apply lookup_key_None. by rewrite <- E.
  - change (delete (S i) (x :: l)) with (x :: delete i l). cbn [lookup_key]. rewrite (IH i Hnd Hi).
    destruct (decide (recv_key x = k)) as [E|]; [|done]. rewrite decide_False; [done|].
    intros E'. apply Hn. rewrite E, <- E'. apply list_elem_of_In, in_map, list_elem_of_In.
    by eapply list_elem_of_lookup_2.
Qed.

(** Forgetting a transaction, answering at most with an ABORT. *)
Lemma forget_inv N s i r back :
  sys_inv k msg N s -> 0 <= N -> a_recvs (s_agent s) !! i = Some r ->
  Forall (fun x => m_rmpp_type x = IB_MGMT_RMPP_TYPE_ABORT) back ->
  sys_inv k msg (N + 1)
    (with_receiver (set_recvs (delete i (a_recvs (s_agent s))) (s_agent s)) back [] s).
Proof.
  intros [? ? ? Hr Hnd (old & cur & Eds & Hold & Htx) ? ?] HN Hi Hback.
  constructor; cbn [with_receiver set_recvs s_wr s_agent s_air s_back s_ds a_recvs a_opa];
    rewrite ?app_nil_r; try done.
  - apply Forall_delete. eapply Forall_impl; [apply Hr|]. intros x Hx.
    apply (recv_ok_mono (s_agent s) N (N + 1)); [lia|exact Hx].
  - change (map recv_key) with (fmap (M := list) recv_key). rewrite list_fmap_delete.
    eapply sublist_NoDup; [apply Hnd|]. apply sublist_delete.
  - unfold tx_ok in *. cbn [set_recvs a_recvs]. rewrite (lookup_key_delete _ _ _ Hnd Hi).
    destruct (decide (recv_key r = k)) as [E|].
    2: { exists old, cur. split_and!; [done|done|]. exact Htx. }
    exists (old ++ cur), []. rewrite app_nil_r. split_and!; [done| |done].
    apply Forall_app. split; [done|]. destruct (lookup_key k (a_recvs (s_agent s))); [|by rewrite Htx].
    destruct Htx as (_ & _ & _ & Hd). case_match; rewrite Hd; by repeat constructor.
  - apply Forall_app. split; [done|]. eapply Forall_impl; [apply Hback|]. intros x Hx. simpl in Hx.
    split; [by left|]. intros E. by rewrite Hx in E.
Qed.

(** ** Any step *)

Definition sys_cmd_ok (c : sys_cmd) : Prop :=
  match c with
  | YAnswer senv _ _ => se_hnum senv <> 1
  | YOther _ _ m => mad_key m <> k
  | _ => True
  end.

Lemma sys_inv_mono N s : sys_inv k msg N s -> sys_inv k msg (N + 1) s.
Proof.
  intros []. constructor; try done. eapply Forall_impl; [apply yi_recv0|]. intros x.
  apply recv_ok_mono. lia.
Qed.

Lemma sender_cmd_inv N s ev w :
  sys_inv k msg N s -> send_step_ok (s_wr s) ev w ->
  (s_ds s = [] -> w_last_ack w < nsegs (s_wr s)) ->
  exists s', Some (with_sender src_qp slid ev w s) = Some s' /\ sys_inv k msg (N + 1) s' /\
    window_size (s_agent s') = window_size (s_agent s) /\ a_opa (s_agent s') = a_opa (s_agent s).
Proof. intros. eexists. split_and!; [done| |done|done]. by apply sys_inv_mono, sender_step_inv. Qed.

Lemma sys_exec1_inv c N s :
  sys_inv k msg N s -> sys_cmd_ok c -> 0 <= N -> N + 1 + 2 * window_size (s_agent s) + 2 < 2 ^ 31 ->
  exists s', sys_exec1 src_qp slid c s = Some s' /\ sys_inv k msg (N + 1) s' /\
    window_size (s_agent s') = window_size (s_agent s) /\ a_opa (s_agent s') = a_opa (s_agent s).
Proof.
  intros Hs Hc HN Hb. pose proof Hs as [? ? ? Hr ? ? Hback Hack].
  assert (exists s', Some s = Some s' /\ sys_inv k msg (N + 1) s' /\
    window_size (s_agent s') = window_size (s_agent s) /\ a_opa (s_agent s') = a_opa (s_agent s)) as Hidle
    by (exists s; split_and!; [done|by apply sys_inv_mono|done|done]).
  destruct c as [env st|env|senv renv i|senv renv i|senv renv m|renv i|i]; cbn [sys_exec1].
  - destruct (send_wc_ok env st (s_wr s)) as (ret & ev & st' & w' & -> & Hok & Ea); [done|].
    apply sender_cmd_inv; [done|done|]. by rewrite Ea.
  - destruct (retry_ok env (s_wr s)) as (ret & ev & w' & -> & Hok & Ea & _); [done|].
    apply sender_cmd_inv; [done|done|]. by rewrite Ea.
  - destruct (s_back s !! i) as [m|] eqn:Ei; [|done].
    destruct (Forall_lookup_1 _ _ _ _ Hback Ei) as [Han Hlt].
    destruct (sender_answer_ok senv renv m (s_wr s) sender_agent) as (res & act & ev & w' & a' & -> & Hok & Ea);
      [done|done|done|].
    apply sender_cmd_inv; [done|done|]. intros E. destruct Ea as [->|[Ht ->]]; [by apply Hack|by apply Hlt].
  - destruct (s_air s !! i) as [m|] eqn:Ei; [|done].
    destruct (data_step_inv senv renv m N s) as (res & act & ev & f & a & -> & Ew & Eo & Hs'); try done.
    { by apply (Forall_lookup_1 _ _ _ _ yi_air0 Ei). }
    eexists. split_and!; [done|done|done|done].
  - destruct (other_step_inv senv renv m N s) as (res & act & ev & f & a & -> & Ew & Eo & Hs'); try done.
    eexists. split_and!; [done|done|done|done].
  - destruct (a_recvs (s_agent s) !! i) as [r|] eqn:Ei; [|done]. unfold recv_timeout_handler. rewrite Ei.
    cbn [mbind option_bind]. case_bool_decide; [|eexists; split_and!; [done| |done|done];
      apply receiver_quiet_inv; try done; eapply Forall_impl; [apply Hr|]; intros x; apply recv_ok_mono; lia].
    destruct (Forall_lookup_1 _ _ _ _ Hr Ei) as (Hi & _). pose proof (ri_cur _ _ Hi).
    destruct (lookup_lt_is_Some_2 (r_list r) 0) as [first ->]; [lia|]. cbn [mbind option_bind].
    eexists. split_and!; [done| |done|done]. eapply forget_inv; [done|done|done|].
    unfold nack_recv. destruct (e_nack renv); by repeat constructor.
  - destruct (a_recvs (s_agent s) !! i) as [r|] eqn:Ei; [|done].
    eexists. split_and!; [done| |done|done]. by eapply forget_inv.
Qed.

Lemma sys_exec_inv l N s :
  sys_inv k msg N s -> Forall sys_cmd_ok l -> 0 <= N ->
  N + Z.of_nat (length l) + 2 * window_size (s_agent s) + 2 < 2 ^ 31 ->
  exists s', sys_exec src_qp slid l s = Some s' /\ sys_inv k msg (N + Z.of_nat (length l)) s' /\
    a_opa (s_agent s') = a_opa (s_agent s).
Proof.
  revert N s. induction l as [|c l IH]; intros N s Hs Hl HN Hb; cbn [sys_exec length] in *.
  { exists s. rewrite Z.add_0_r. done. }
  apply Forall_cons_iff in Hl as [Hc Hl].
  destruct (sys_exec1_inv c N s Hs Hc HN) as (s1 & -> & Hs1 & Ew & Eo); [lia|].
  destruct (IH (N + 1) s1 Hs1 Hl) as (s2 & E2 & Hs2 & Eo2); [lia|rewrite Ew; lia|].
  exists s2. cbn [mbind option_bind]. split_and!; [done| |congruence].
  by replace (N + Z.of_nat (S (length l))) with (N + 1 + Z.of_nat (length l)) by lia.
Qed.

End Transfer.

(** ** Posting the message *)

Lemma post_ok env dlid sa w :
  send_wf w -> w_seg_num w = 0 -> w_last_ack w = 0 -> 1 <= init_newwin w dlid sa ->
  exists ret ev w', ib_send_rmpp_mad env dlid sa w = Some (ret, ev, w') /\ send_ok w' /\
    same_message w w' /\ w_last_ack w' = 0 /\ forall m, m ∈ data_sent ev -> m ∈ sent_msg w.
Proof.
  intros Hwf E0 Ea Hwin. pose proof Hwf as []. unfold ib_send_rmpp_mad. rewrite sw_active, sw_data.
  cbn [negb]. set (w1 := set_refcount _ _).
  assert (send_wf w1) as Hwf1 by (by constructor).
  destruct (next_seg_ok env w1 Hwf1) as (ret & ev & w' & -> & [Hok Hsm Hs _ _] & Ea' & _).
  { change (w_seg_num w < nsegs w). lia. }
  { change (w_seg_num w < init_newwin w dlid sa). lia. }
  { left. change (w_last_ack w < init_newwin w dlid sa). lia. }
  cbn [mbind option_bind]. eexists _, ev, w'. split_and!; [done|done|done| |].
  - rewrite Ea'. exact Ea.
  - intros m Hm. unfold sends_in_window in Hs. rewrite Forall_forall in Hs.
    destruct (Hs m Hm) as (i & Hi & _). by apply list_elem_of_lookup_2 in Hi.
Qed.

Lemma arriving_wire src_qp slid w :
  send_wf w -> m_rmpp_version (w_mad w) = IB_MGMT_RMPP_VERSION ->
  Forall wire_data (arriving src_qp slid w).
Proof.
  intros [] Hv. apply Forall_forall. intros m [i Hi]%list_elem_of_lookup.
  apply arriving_lookup in Hi as (d & _ & ->). split_and!; [|done|by apply Z.eqb_eq].
  pose proof (segment_flags w (Z.of_nat i + 1) d) as Ef. unfold ib_get_rmpp_flags in Ef.
  unfold has_flag. cbn [arrive m_rtime_flags]. change IB_MGMT_RMPP_FLAG_ACTIVE with (Z.land 7 1).
  rewrite Z.land_assoc, Ef. by destruct (_ =? 1), (_ =? _).
Qed.

Definition start (w : send_wr) (a : rmpp_agent) : sys :=
  {| s_wr := w; s_agent := a; s_air := []; s_back := []; s_ds := [] |}.

Lemma start_inv src_qp slid w0 w ev a N :
  send_wf w0 -> send_ok w -> same_message w0 w -> w_last_ack w = 0 ->
  (forall m, m ∈ data_sent ev -> m ∈ sent_msg w0) ->
  Forall (recv_ok a N) (a_recvs a) -> NoDup (map recv_key (a_recvs a)) ->
  lookup_key (sent_key src_qp slid w0) (a_recvs a) = None ->
  sys_inv src_qp slid (sent_key src_qp slid w0) (arriving src_qp slid w0) N
    (with_sender src_qp slid ev w (start w a)).
Proof.
  intros Hwf0 Hw Hsm Ea Hev Hr Hnd Hn.
  constructor; cbn [with_sender start s_wr s_agent s_air s_back s_ds app]; try done.
  - by apply arriving_ext.
  - apply Forall_forall. intros m Hm. apply list_elem_of_In, in_map_iff in Hm as (m' & <- & Hm').
    apply list_elem_of_In in Hm'. apply list_elem_of_In, in_map, list_elem_of_In. by apply Hev.
  - exists [], []. split_and!; [done|constructor|]. unfold tx_ok. by rewrite Hn.
  - intros _. rewrite Ea, (nsegs_ext _ _ Hsm). by apply sw_some.
Qed.

(** ** Properties *)

(** C1. End to end: a message is posted, and then anything happens: MADs are lost,
    repeated and reordered, segments complete or fail, timers of both sides
    expire, the receiver forgets finished or stuck transactions and serves others.
    Nothing gets stuck on either side; every message the receiver delivers for the
    transaction is exactly the segments that were posted, in order, with their
    length; and the sender counts the message as acknowledged only after it has
    been delivered. *)
Theorem rmpp_transfer_safe senv dlid sa w0 src_qp slid a N l
  (Hw : send_wf w0) (Hfresh : w_seg_num w0 = 0 /\ w_last_ack w0 = 0)
  (Hwin : 1 <= init_newwin w0 dlid sa)
  (Hhdr : m_rmpp_version (w_mad w0) = IB_MGMT_RMPP_VERSION /\ m_rmpp_status (w_mad w0) = 0)
  (Ha : Forall (recv_ok a N) (a_recvs a)) (Hnd : NoDup (map recv_key (a_recvs a)))
  (Hnew : lookup_key (sent_key src_qp slid w0) (a_recvs a) = None) (HN : 0 <= N)
  (Hb : N + Z.of_nat (length l) + 2 * window_size a + 2 < 2 ^ 31)
  (Hl : Forall (sys_cmd_ok (sent_key src_qp slid w0)) l) :
  let msg := arriving src_qp slid w0 in
  exists ret ev w s, ib_send_rmpp_mad senv dlid sa w0 = Some (ret, ev, w) /\
    sys_exec src_qp slid l (with_sender src_qp slid ev w (start w a)) = Some s /\
    (forall d, d ∈ s_ds s -> d = (msg, message_len (a_opa a) msg)) /\
    (w_last_ack (s_wr s) = w_seg_count (s_wr s) -> s_ds s <> []).
Proof.
  cbv zeta. destruct (post_ok senv dlid sa w0) as (ret & ev & w & E & Hok & Hsm & Ea & Hev); try tauto.
  pose proof (sent_is_message src_qp slid w0 Hw (proj2 Hhdr)) as Hmsg.
  pose proof (arriving_wire src_qp slid w0 Hw (proj1 Hhdr)) as Hwire.
  pose proof (start_inv src_qp slid w0 w ev a N Hw Hok Hsm Ea Hev Ha Hnd Hnew) as Hs.
  destruct (sys_exec_inv src_qp slid _ _ Hmsg Hwire l N _ Hs Hl HN Hb) as (s & Es & Hinv & Eo).
  exists ret, ev, w, s. split_and!; [done|done| |].
  - destruct Hinv as [? ? ? ? ? (old & cur & -> & Hold & Htx) ? ?]. cbn [with_sender start s_agent] in Eo.
    rewrite Eo in Hold. unfold tx_ok in Htx. rewrite Eo in Htx. rewrite Forall_forall in Hold.
    intros d [Hd|Hd]%elem_of_app; [by apply Hold|].
    destruct (lookup_key (sent_key src_qp slid w0) (a_recvs (s_agent s))); [|subst cur; by inversion Hd].
    destruct Htx as (_ & _ & _ & Hc). case_match; subst cur; try by inversion Hd.
    by apply list_elem_of_singleton in Hd.
  - intros El Ed. pose proof (yi_ack _ _ _ _ _ _ Hinv Ed) as Hlt.
    pose proof (sw_count _ (so_wf _ (yi_send _ _ _ _ _ _ Hinv))). lia.
Qed.

Definition demo_fresh : send_wr := set_wr_newwin 0 (set_seg_num 0 (demo_send 0)).

(** A schedule with a lost ACK, a repeated segment, a retry and other traffic. *)
Definition demo_schedule : list sys_cmd :=
  [YData demo_senv demo_renv 0; YData demo_senv demo_renv 0;
   YOther demo_senv demo_renv (demo_seg 8 1); YAnswer demo_senv demo_renv 1;
   YCompletion demo_senv 0; YData demo_senv demo_renv 2; YRetry demo_senv;
   YData demo_senv demo_renv 1; YAnswer demo_senv demo_renv 2; YCompletion demo_senv 0;
   YCompletion demo_senv 0; YData demo_senv demo_renv 5; YAnswer demo_senv demo_renv 3].

Lemma demo_fresh_wf : send_wf demo_fresh.
Proof. constructor; try (vm_compute; reflexivity); cbn; unfold nsegs; cbn; lia. Qed.

Lemma demo_schedule_ok : Forall (sys_cmd_ok (sent_key 2 5 demo_fresh)) demo_schedule.
Proof. unfold demo_schedule. rewrite !Forall_cons_iff. split_and!; done. Qed.

Lemma rmpp_transfer_safe_witness :
  let msg := arriving 2 5 demo_fresh in
  exists ret ev w s, ib_send_rmpp_mad demo_senv None sender_agent demo_fresh = Some (ret, ev, w) /\
    sys_exec 2 5 demo_schedule (with_sender 2 5 ev w (start w demo_agent)) = Some s /\
    (forall d, d ∈ s_ds s -> d = (msg, message_len (a_opa demo_agent) msg)) /\
    (w_last_ack (s_wr s) = w_seg_count (s_wr s) -> s_ds s <> []).
Proof.
  apply (rmpp_transfer_safe demo_senv None sender_agent demo_fresh 2 5 demo_agent 0);
    [exact demo_fresh_wf|by split|vm_compute; discriminate|by split|constructor|constructor|
     reflexivity|lia|vm_compute; reflexivity|exact demo_schedule_ok].
Defined.

(** In that schedule the transfer completes: four segments, 40 bytes of header
    and 859 of data. *)
Example demo_transfer :
  match ib_send_rmpp_mad demo_senv None sender_agent demo_fresh with
  | Some (_, ev, w) =>
      match sys_exec 2 5 demo_schedule (with_sender 2 5 ev w (start w demo_agent)) with
      | Some s => (w_last_ack (s_wr s), map m_seg_num (s_air s), map m_seg_num (s_back s),
                   map (fun d => (map m_seg_num d.1, d.2)) (s_ds s))
      | None => (0, [], [], [])
      end
  | None => (0, [], [], [])
  end = (4, [1; 2; 3; 2; 3; 4], [1; 1; 3; 4], [([1; 2; 3; 4], 899)]).
Proof. vm_compute. reflexivity. Qed.
