(* ===== verification/MadSend.v ===== *)
(** * Sends of a MAD agent (mad.c)

    An agent keeps its sends on three lists: [send_list] (the device has a work
    request for it), [wait_list] (sent, waiting for a response) and [done_list]
    (answered, about to be completed). A reference count per send tells how many
    parties still have to let go of it; who drops the last one calls the send
    handler of the client, who may then free it. This file models posting,
    completions, responses, the RMPP answers, timeouts with retries, modification
    and cancellation, and the matching of received MADs with sends.

    A send is named by a number, given out in order ([g_next]); [g_wrs] holds the
    live ones, [g_failed] those whose posting returned an error. [g_hw] are the work
    requests the device owes a completion for (posted or on the overflow list of
    the queue pair). A call of [ib_mad_complete_send_wr] is a step of its own: it is
    recorded in [g_pend] when the code before it has released the lock, so that
    other steps may come in between. Sends of subnet management packets and of
    agents under SA congestion control have windows of their own and are not part
    of this model. *)

From Stdlib Require Import ZArith Lia.
From stdpp Require Import base tactics numbers list option gmap sorting.
From S2P Require Import MadReg.
From S2P Require Import Prelude RmppRecv RmppSend.

Local Open Scope Z_scope.

Definition IB_WC_LOC_QP_OP_ERR : Z := 2.

(** ** Agents *)

Record mad_agent := {
  g_kernel_rmpp : bool;
  g_rmpp : rmpp_agent;
  g_send : list nat;
  g_wait : list nat;
  g_done : list nat;
  g_wrs : gmap nat send_wr;
  g_hw : list nat;
  g_pend : list (nat * bool * Z);
  g_refs : Z;
  g_closed : bool;
  g_calls : list (nat * Z);
  g_rcalls : list (option nat);
  g_now : Z;
  g_next : nat;
  g_failed : list nat
}.

Definition set_lists (s w d : list nat) (g : mad_agent) : mad_agent :=
  {| g_kernel_rmpp := g_kernel_rmpp g; g_rmpp := g_rmpp g; g_send := s; g_wait := w; g_done := d;
     g_wrs := g_wrs g; g_hw := g_hw g; g_pend := g_pend g; g_refs := g_refs g;
     g_closed := g_closed g; g_calls := g_calls g; g_rcalls := g_rcalls g; g_now := g_now g;
     g_next := g_next g; g_failed := g_failed g |}.
Definition set_wrs (m : gmap nat send_wr) (g : mad_agent) : mad_agent :=
  {| g_kernel_rmpp := g_kernel_rmpp g; g_rmpp := g_rmpp g; g_send := g_send g; g_wait := g_wait g;
     g_done := g_done g; g_wrs := m; g_hw := g_hw g; g_pend := g_pend g; g_refs := g_refs g;
     g_closed := g_closed g; g_calls := g_calls g; g_rcalls := g_rcalls g; g_now := g_now g;
     g_next := g_next g; g_failed := g_failed g |}.
Definition set_hw (l : list nat) (g : mad_agent) : mad_agent :=
  {| g_kernel_rmpp := g_kernel_rmpp g; g_rmpp := g_rmpp g; g_send := g_send g; g_wait := g_wait g;
     g_done := g_done g; g_wrs := g_wrs g; g_hw := l; g_pend := g_pend g; g_refs := g_refs g;
     g_closed := g_closed g; g_calls := g_calls g; g_rcalls := g_rcalls g; g_now := g_now g;
     g_next := g_next g; g_failed := g_failed g |}.
Definition set_pend (l : list (nat * bool * Z)) (g : mad_agent) : mad_agent :=
  {| g_kernel_rmpp := g_kernel_rmpp g; g_rmpp := g_rmpp g; g_send := g_send g; g_wait := g_wait g;
     g_done := g_done g; g_wrs := g_wrs g; g_hw := g_hw g; g_pend := l; g_refs := g_refs g;
     g_closed := g_closed g; g_calls := g_calls g; g_rcalls := g_rcalls g; g_now := g_now g;
     g_next := g_next g; g_failed := g_failed g |}.
Definition set_refs (r : Z) (g : mad_agent) : mad_agent :=
  {| g_kernel_rmpp := g_kernel_rmpp g; g_rmpp := g_rmpp g; g_send := g_send g; g_wait := g_wait g;
     g_done := g_done g; g_wrs := g_wrs g; g_hw := g_hw g; g_pend := g_pend g; g_refs := r;
     g_closed := g_closed g; g_calls := g_calls g; g_rcalls := g_rcalls g; g_now := g_now g;
     g_next := g_next g; g_failed := g_failed g |}.
Definition set_calls (c : list (nat * Z)) (g : mad_agent) : mad_agent :=
  {| g_kernel_rmpp := g_kernel_rmpp g; g_rmpp := g_rmpp g; g_send := g_send g; g_wait := g_wait g;
     g_done := g_done g; g_wrs := g_wrs g; g_hw := g_hw g; g_pend := g_pend g; g_refs := g_refs g;
     g_closed := g_closed g; g_calls := c; g_rcalls := g_rcalls g; g_now := g_now g;
     g_next := g_next g; g_failed := g_failed g |}.
Definition set_rcalls (c : list (option nat)) (g : mad_agent) : mad_agent :=
  {| g_kernel_rmpp := g_kernel_rmpp g; g_rmpp := g_rmpp g; g_send := g_send g; g_wait := g_wait g;
     g_done := g_done g; g_wrs := g_wrs g; g_hw := g_hw g; g_pend := g_pend g; g_refs := g_refs g;
     g_closed := g_closed g; g_calls := g_calls g; g_rcalls := c; g_now := g_now g;
     g_next := g_next g; g_failed := g_failed g |}.
Definition set_rmpp (a : rmpp_agent) (g : mad_agent) : mad_agent :=
  {| g_kernel_rmpp := g_kernel_rmpp g; g_rmpp := a; g_send := g_send g; g_wait := g_wait g;
     g_done := g_done g; g_wrs := g_wrs g; g_hw := g_hw g; g_pend := g_pend g; g_refs := g_refs g;
     g_closed := g_closed g; g_calls := g_calls g; g_rcalls := g_rcalls g; g_now := g_now g;
     g_next := g_next g; g_failed := g_failed g |}.
Definition set_now (t : Z) (g : mad_agent) : mad_agent :=
  {| g_kernel_rmpp := g_kernel_rmpp g; g_rmpp := g_rmpp g; g_send := g_send g; g_wait := g_wait g;
     g_done := g_done g; g_wrs := g_wrs g; g_hw := g_hw g; g_pend := g_pend g; g_refs := g_refs g;
     g_closed := g_closed g; g_calls := g_calls g; g_rcalls := g_rcalls g; g_now := t;
     g_next := g_next g; g_failed := g_failed g |}.
Definition set_closed (g : mad_agent) : mad_agent :=
  {| g_kernel_rmpp := g_kernel_rmpp g; g_rmpp := g_rmpp g; g_send := g_send g; g_wait := g_wait g;
     g_done := g_done g; g_wrs := g_wrs g; g_hw := g_hw g; g_pend := g_pend g; g_refs := g_refs g;
     g_closed := true; g_calls := g_calls g; g_rcalls := g_rcalls g; g_now := g_now g;
     g_next := g_next g; g_failed := g_failed g |}.

(** The next number for a send; a refused send is the client's again. *)
Definition set_next (failed : list nat) (g : mad_agent) : mad_agent :=
  {| g_kernel_rmpp := g_kernel_rmpp g; g_rmpp := g_rmpp g; g_send := g_send g; g_wait := g_wait g;
     g_done := g_done g; g_wrs := g_wrs g; g_hw := g_hw g; g_pend := g_pend g; g_refs := g_refs g;
     g_closed := g_closed g; g_calls := g_calls g; g_rcalls := g_rcalls g; g_now := g_now g;
     g_next := S (g_next g); g_failed := g_failed g ++ failed |}.

Definition put_wr (id : nat) (w : send_wr) (g : mad_agent) : mad_agent :=
  set_wrs (<[id := w]> (g_wrs g)) g.

(** [list_del] of the node of a send, on whichever list it is. *)
Definition list_del (id : nat) (l : list nat) : list nat := filter (fun x => x <> id) l.
Definition unlink (id : nat) (g : mad_agent) : mad_agent :=
  set_lists (list_del id (g_send g)) (list_del id (g_wait g)) (list_del id (g_done g)) g.

Definition link_send (id : nat) (g : mad_agent) : mad_agent :=
  set_lists (g_send g ++ [id]) (g_wait g) (g_done g) g.
Definition link_done (id : nat) (g : mad_agent) : mad_agent :=
  set_lists (g_send g) (g_wait g) (g_done g ++ [id]) g.

Definition post_hw (id : nat) (g : mad_agent) : mad_agent := set_hw (g_hw g ++ [id]) g.

Definition set_timeout_ms (v : Z) (w : send_wr) : send_wr :=
  {| w_mad := w_mad w; w_segs := w_segs w; w_seg_count := w_seg_count w;
     w_seg_rmpp_size := w_seg_rmpp_size w; w_pad := w_pad w; w_cur_seg := w_cur_seg w;
     w_last_ack_seg := w_last_ack_seg w; w_last_ack := w_last_ack w; w_seg_num := w_seg_num w;
     w_newwin := w_newwin w; w_timeout := w_timeout w; w_timeout_ms := v;
     w_max_retries := w_max_retries w; w_retries_left := w_retries_left w;
     w_refcount := w_refcount w; w_status := w_status w |}.

Definition set_max_retries (v : Z) (w : send_wr) : send_wr :=
  {| w_mad := w_mad w; w_segs := w_segs w; w_seg_count := w_seg_count w;
     w_seg_rmpp_size := w_seg_rmpp_size w; w_pad := w_pad w; w_cur_seg := w_cur_seg w;
     w_last_ack_seg := w_last_ack_seg w; w_last_ack := w_last_ack w; w_seg_num := w_seg_num w;
     w_newwin := w_newwin w; w_timeout := w_timeout w; w_timeout_ms := w_timeout_ms w;
     w_max_retries := v; w_retries_left := v;
     w_refcount := w_refcount w; w_status := w_status w |}.

(** ** Waiting for a response *)

(** [time_after(a, b)] on [unsigned long]. *)
Definition time_after (a b : Z) : bool := s64 (b - a) <? 0.

(** The place in the wait list, searched from its end. *)
Fixpoint wait_place (timeout : Z) (tm : nat -> Z) (rev : list nat) : nat :=
  match rev with
  | [] => O
  | x :: rev' => if time_after timeout (tm x) then length rev else wait_place timeout tm rev'
  end.

Definition tm_of (g : mad_agent) (id : nat) : Z := from_option w_timeout 0 (g_wrs g !! id).

Definition wait_for_response (id : nat) (g : mad_agent) : option mad_agent :=
  w ← g_wrs g !! id;
  let g := unlink id g in
  let delay := w_timeout w in
  let timeout := u64 (w_timeout w + g_now g) in
  let n := if truthy delay then wait_place timeout (tm_of g) (reverse (g_wait g)) else O in
  Some (put_wr id (set_timeout timeout w)
         (set_lists (g_send g) (take n (g_wait g) ++ id :: drop n (g_wait g)) (g_done g) g)).

Definition ib_reset_mad_timeout (env : send_env) (id : nat) (timeout_ms : Z) (g : mad_agent)
  : option mad_agent :=
  w ← g_wrs g !! id;
  wait_for_response id (put_wr id (set_timeout (se_jiffies env timeout_ms) w) g).

(** ** Completion *)

(** The send handler (or, for internal sends, [ib_rmpp_send_handler]) is called,
    the reference on the agent dropped; the send is the client's again. *)
Definition notify (id : nat) (status : Z) (g : mad_agent) : mad_agent :=
  set_calls (g_calls g ++ [(id, status)])
    (set_refs (g_refs g - 1) (set_wrs (delete id (g_wrs g)) g)).

Definition b2z (b : bool) : Z := if b then 1 else 0.

Definition ib_mad_complete_send_wr (env : send_env) (id : nat) (wc_status : Z) (g : mad_agent)
  : option mad_agent :=
  w ← g_wrs g !! id;
  '(ret, wc_status, w) ←
    (if g_kernel_rmpp g then
       '(ret, _, st, w') ← ib_process_rmpp_send_wc env wc_status w; Some (ret, st, w')
     else Some (IB_RMPP_RESULT_UNHANDLED, wc_status, w));
  if ret =? IB_RMPP_RESULT_CONSUMED then Some (post_hw id (put_wr id w g)) else
  let w := if negb (wc_status =? IB_WC_SUCCESS) && (w_status w =? IB_WC_SUCCESS)
           then set_refcount (w_refcount w - b2z (0 <? w_timeout w)) (set_status wc_status w)
           else w in
  let w := set_refcount (w_refcount w - 1) w in
  let g := put_wr id w g in
  if 0 <? w_refcount w then
    if (w_refcount w =? 1) && truthy (w_timeout w) && (w_status w =? IB_WC_SUCCESS)
    then wait_for_response id g else Some g
  else
    let st := if negb (w_status w =? IB_WC_SUCCESS) then w_status w else wc_status in
    Some (notify id st (unlink id g)).

Definition ib_mark_mad_done (id : nat) (g : mad_agent) : option mad_agent :=
  w ← g_wrs g !! id;
  let g := put_wr id (set_timeout 0 w) g in
  Some (if w_refcount w =? 1 then link_done id (unlink id g) else g).

(** ** Posting *)

(** [ib_send_mad] of a whole MAD. *)
Definition ib_send_mad (env : send_env) : Z := default (err ENOMEM) (se_send env).

(** [ib_post_send_mad] for one buffer; [allowed] are the checks before the send is
    touched (security, handlers, class). *)
Definition ib_post_send_mad (env : send_env) (dlid : option Z) (allowed : bool) (retries : Z)
    (id : nat) (w : send_wr) (g : mad_agent) : option (Z * mad_agent) :=
  if negb allowed then Some (err EINVAL, g) else
  let w := set_timeout (se_jiffies env (w_timeout_ms w)) (set_max_retries retries w) in
  let w := set_status IB_WC_SUCCESS (set_refcount (1 + b2z (0 <? w_timeout w)) w) in
  let g1 := put_wr id w (link_send id (set_refs (g_refs g + 1) g)) in
  '(ret, w, posted) ←
    (if g_kernel_rmpp g then
       '(ret, _, w') ← ib_send_rmpp_mad env dlid (g_rmpp g) w;
       if (0 <=? ret) && negb (ret =? IB_RMPP_RESULT_CONSUMED)
       then Some (ib_send_mad env, w', ib_send_mad env =? 0)
       else Some (ret, w', ret =? IB_RMPP_RESULT_CONSUMED)
     else Some (ib_send_mad env, w, ib_send_mad env =? 0));
  if ret <? 0 then
    let g2 := unlink id g1 in
    Some (ret, set_refs (g_refs g2 - 1) (set_wrs (delete id (g_wrs g2)) g2))
  else Some (0, if posted : bool then post_hw id (put_wr id w g1) else put_wr id w g1).

(** ** Matching received MADs with sends *)

Record ah_attr := { ah_grh : option (Z * list Z); ah_dlid : Z; ah_path_bits : Z }.

(** Queries of the address handle, the LMC of the port and its GID table. *)
Record gid_env := {
  q_ah : nat -> option ah_attr;
  q_lmc : option Z;
  q_gid : Z -> option (list Z)
}.

Definition hdr_of (m : rmpp_mad) : mad_hdr :=
  mk_mad_hdr (m_base_version m) (m_mgmt_class m) (m_class_version m) (m_method m) (m_tid m)
    0 (m_attr_mod m) [].

Definition rcv_has_same_class (w : send_wr) (m : rmpp_mad) : bool :=
  m_mgmt_class (w_mad w) =? m_mgmt_class m.

Definition rcv_has_same_gid (q : gid_env) (id : nat) (w : send_wr) (m : rmpp_mad) : bool :=
  let send_resp := ib_response_mad (hdr_of (w_mad w)) in
  let rcv_resp := ib_response_mad (hdr_of m) in
  if eqb send_resp rcv_resp then false else
  match q_ah q id with
  | None => false
  | Some attr =>
      match ah_grh attr, m_grh m with
      | None, Some _ | Some _, None => false
      | None, None =>
          if negb send_resp && rcv_resp then
            match q_lmc q with
            | None => false
            | Some lmc => (lmc =? 0) ||
                negb (truthy (Z.land (Z.lxor (ah_path_bits attr) (m_path_bits m))
                                (Z.shiftl 1 lmc - 1)))
            end
          else ah_dlid attr =? m_slid m
      | Some (sgid_index, dgid), Some (r_dgid, r_sgid) =>
          if negb send_resp && rcv_resp then
            match q_gid q sgid_index with
            | None => false
            | Some sgid => bool_decide (sgid = r_dgid)
            end
          else bool_decide (dgid = r_sgid)
      end
  end.

Definition is_direct (mgmt_class : Z) : bool := mgmt_class =? IB_MGMT_CLASS_SUBN_DIRECTED_ROUTE.

Definition is_rmpp_data_mad (kernel_rmpp : bool) (m : rmpp_mad) : bool :=
  negb kernel_rmpp || negb (has_flag (ib_get_rmpp_flags m) IB_MGMT_RMPP_FLAG_ACTIVE) ||
  (m_rmpp_type m =? IB_MGMT_RMPP_TYPE_DATA).

Definition send_matches (q : gid_env) (m : rmpp_mad) (id : nat) (w : send_wr) : bool :=
  (m_tid (w_mad w) =? m_tid m) && rcv_has_same_class w m &&
  (is_direct (m_mgmt_class m) || rcv_has_same_gid q id w m).

(** The first send of a list that passes a test. *)
Fixpoint find_send (test : nat -> send_wr -> bool) (wrs : gmap nat send_wr) (l : list nat)
  : option (nat * send_wr) :=
  match l with
  | [] => None
  | id :: l' =>
      match wrs !! id with
      | Some w => if test id w then Some (id, w) else find_send test wrs l'
      | None => None
      end
  end.

Definition ib_find_send_mad (q : gid_env) (m : rmpp_mad) (g : mad_agent)
  : option (nat * send_wr) :=
  let live x := if w_status x.2 =? IB_WC_SUCCESS then Some x else None in
  match find_send (send_matches q m) (g_wrs g) (g_wait g) with
  | Some x => live x
  | None =>
      x ← find_send (fun id w => is_rmpp_data_mad (g_kernel_rmpp g) (w_mad w) &&
                       truthy (w_timeout w) && send_matches q m id w)
            (g_wrs g) (g_send g);
      live x
  end.

(** ** Received MADs *)

(** What the RMPP handlers leave to the lists. *)
Definition apply_action (act : send_action) (id : nat) (g : mad_agent) : option mad_agent :=
  match act with
  | SNone => Some g
  | SDone st _ =>
      g1 ← ib_mark_mad_done id g;
      Some (set_pend (g_pend g1 ++ [(id, false, st)]) g1)
  | SReset => wait_for_response id g
  | SRequeue => Some (post_hw id (link_send id (unlink id g)))
  end.

(** [ib_process_rmpp_recv_wc] on the agent: the MAD to go on with, if any. *)
Definition process_rmpp (senv : send_env) (renv : recv_env) (q : gid_env) (m : rmpp_mad)
    (g : mad_agent) : option (option rmpp_mad * mad_agent) :=
  let found := ib_find_send_mad q m g in
  '(res, act, _, f, a) ← ib_process_rmpp_recv_wc senv renv m (snd <$> found) (g_rmpp g);
  let g := set_rmpp a g in
  g ← match found, f with
      | Some (id, _), Some w => apply_action act id (put_wr id w g)
      | _, _ => Some g
      end;
  match res with
  | RPass m => Some (Some m, g)
  | RMessage (first :: _, _) => Some (Some first, g)
  | RMessage ([], _) => None
  | RConsumed => Some (None, g)
  end.

(** [ib_mad_complete_recv] after the security check. *)
Definition ib_mad_complete_recv (senv : send_env) (renv : recv_env) (q : gid_env) (m : rmpp_mad)
    (g : mad_agent) : option mad_agent :=
  '(r, g) ← (if g_kernel_rmpp g then process_rmpp senv renv q m g else Some (Some m, g));
  match r with
  | None => Some g
  | Some m =>
      if ib_response_mad (hdr_of m) then
        match ib_find_send_mad q m g with
        | None =>
            if negb (g_kernel_rmpp g) && ib_is_mad_class_rmpp (m_mgmt_class m) &&
               has_flag (ib_get_rmpp_flags m) IB_MGMT_RMPP_FLAG_ACTIVE
            then Some (set_rcalls (g_rcalls g ++ [None]) g)
            else Some g
        | Some (id, _) =>
            g ← ib_mark_mad_done id g;
            let g := set_rcalls (g_rcalls g ++ [Some id]) g in
            Some (set_pend (g_pend g ++ [(id, false, IB_WC_SUCCESS)]) g)
        end
      else Some (set_rcalls (g_rcalls g ++ [None]) g)
  end.

(** ** Timeouts *)

(** [retry_send]: the result and the send; it is posted again when the result is 0. *)
Definition retry_send (kernel_rmpp : bool) (env : send_env) (w : send_wr)
  : option (Z * send_wr) :=
  if w_retries_left w =? 0 then Some (err ETIMEDOUT, w) else
  let w := set_timeout (se_jiffies env (w_timeout_ms w)) (set_retries (w_retries_left w - 1) w) in
  '(ret, w) ←
    (if kernel_rmpp then
       '(ret, _, w') ← ib_retry_rmpp env w;
       Some (if ret =? IB_RMPP_RESULT_UNHANDLED then ib_send_mad env
             else if ret =? IB_RMPP_RESULT_CONSUMED then 0 else err ECOMM, w')
     else Some (ib_send_mad env, w));
  Some (ret, if ret =? 0 then set_refcount (w_refcount w + 1) w else w).

(** The loop of [timeout_sends]; [envs n] serves the send met with [n] iterations
    to go. *)
Fixpoint timeout_loop (fuel : nat) (envs : nat -> send_env) (g : mad_agent) : option mad_agent :=
  match g_wait g with
  | [] => Some g
  | id :: _ =>
      match fuel with
      | O => None
      | S n =>
          w ← g_wrs g !! id;
          if time_after (w_timeout w) (g_now g) then Some g else
          let g := unlink id g in
          '(ret, w) ← (if w_status w =? IB_WC_SUCCESS then retry_send (g_kernel_rmpp g) (envs n) w
                       else Some (err ETIMEDOUT, w));
          if ret =? 0 then timeout_loop n envs (post_hw id (link_send id (put_wr id w g)))
          else
            let st := if w_status w =? IB_WC_SUCCESS then IB_WC_RESP_TIMEOUT_ERR else w_status w in
            timeout_loop n envs (notify id st (put_wr id w g))
      end
  end.

Definition timeout_sends (envs : nat -> send_env) (g : mad_agent) : option mad_agent :=
  timeout_loop (length (g_wait g)) envs g.

(** ** Modification and cancellation by the client *)

Definition find_send_wr (id : nat) (g : mad_agent) : option send_wr :=
  if bool_decide (id ∈ g_wait g) then g_wrs g !! id
  else if bool_decide (id ∈ g_send g) then
    w ← g_wrs g !! id;
    if is_rmpp_data_mad (g_kernel_rmpp g) (w_mad w) then Some w else None
  else None.

Definition ib_modify_mad (env : send_env) (id : nat) (timeout_ms : Z) (g : mad_agent)
  : option (Z * mad_agent) :=
  match find_send_wr id g with
  | None => Some (err EINVAL, g)
  | Some w =>
      if negb (w_status w =? IB_WC_SUCCESS) then Some (err EINVAL, g) else
      let active := (w_timeout w =? 0) || (1 <? w_refcount w) in
      let w := if timeout_ms =? 0
               then set_refcount (w_refcount w - b2z (0 <? w_timeout w))
                      (set_status IB_WC_WR_FLUSH_ERR w)
               else w in
      let w := set_timeout_ms timeout_ms w in
      if active then Some (0, put_wr id (set_timeout (se_jiffies env timeout_ms) w) g)
      else
        g ← ib_reset_mad_timeout env id timeout_ms (put_wr id w g);
        Some (0, g)
  end.

(** [cancel_mads]: what is on the send list is flushed when it completes, what
    waits is reported at once. *)
Definition flush_wr (w : send_wr) : send_wr :=
  if w_status w =? IB_WC_SUCCESS
  then set_refcount (w_refcount w - b2z (0 <? w_timeout w)) (set_status IB_WC_WR_FLUSH_ERR w)
  else w.

Fixpoint flush_all (l : list nat) (m : gmap nat send_wr) : option (gmap nat send_wr) :=
  match l with
  | [] => Some m
  | id :: l' => w ← m !! id; flush_all l' (<[id := flush_wr w]> m)
  end.

Fixpoint notify_all (l : list nat) (g : mad_agent) : mad_agent :=
  match l with
  | [] => g
  | id :: l' => notify_all l' (notify id IB_WC_WR_FLUSH_ERR g)
  end.

Definition cancel_mads (g : mad_agent) : option mad_agent :=
  m ← flush_all (g_send g) (g_wrs g);
  Some (notify_all (g_wait g) (set_lists (g_send g) [] (g_done g) (set_closed (set_wrs m g)))).

(** ** Steps *)

Inductive mad_cmd :=
| KPost (env : send_env) (dlid : option Z) (allowed : bool) (retries : Z) (w : send_wr)
| KSent (i : nat) (status : Z)
| KComplete (env : send_env) (i : nat)
| KRecv (senv : send_env) (renv : recv_env) (q : gid_env) (m : rmpp_mad)
| KModify (env : send_env) (id : nat) (timeout_ms : Z)
| KTimeouts (envs : nat -> send_env)
| KTick (t : Z)
| KRmppTimeout (renv : recv_env) (i : nat)
| KRmppCleanup (i : nat)
| KCancel.

Definition mad_exec1 (c : mad_cmd) (g : mad_agent) : option mad_agent :=
  match c with
  | KPost env dlid allowed retries w =>
      '(ret, g1) ← ib_post_send_mad env dlid allowed retries (g_next g) w g;
      Some (set_next (if ret =? 0 then [] else [g_next g]) g1)
  | KSent i status =>
      match g_hw g !! i with
      | None => Some g
      | Some id => Some (set_pend (g_pend g ++ [(id, true, status)]) (set_hw (delete i (g_hw g)) g))
      end
  | KComplete env i =>
      match g_pend g !! i with
      | None => Some g
      | Some (id, _, st) => ib_mad_complete_send_wr env id st (set_pend (delete i (g_pend g)) g)
      end
  | KRecv senv renv q m => ib_mad_complete_recv senv renv q m g
  | KModify env id t => snd <$> ib_modify_mad env id t g
  | KTimeouts envs => timeout_sends envs g
  | KTick t => Some (set_now (Z.max t (g_now g)) g)
  | KRmppTimeout renv i =>
      match a_recvs (g_rmpp g) !! i with
      | None => Some g
      | Some _ => '(a, _) ← recv_timeout_handler renv i (g_rmpp g); Some (set_rmpp a g)
      end
  | KRmppCleanup i =>
      match a_recvs (g_rmpp g) !! i with
      | None => Some g
      | Some _ => Some (set_rmpp (recv_cleanup_handler i (g_rmpp g)) g)
      end
  | KCancel => cancel_mads g
  end.

Fixpoint mad_exec (l : list mad_cmd) (g : mad_agent) : option mad_agent :=
  match l with
  | [] => Some g
  | c :: l' => g1 ← mad_exec1 c g; mad_exec l' g1
  end.

(** ** What the RMPP layer does to a send *)

(** Assumptions on the environment: [msecs_to_jiffies] maps 0 to 0, is otherwise
    positive and bounded, errors are negative, and the word read at the head of a
    list of segments is not 1. *)
Record env_ok (T : Z) (env : send_env) : Prop := {
  eo_zero : se_jiffies env 0 = 0;
  eo_pos : forall ms, 0 < ms -> 0 < se_jiffies env ms;
  eo_max : forall ms, 0 <= ms -> se_jiffies env ms <= T;
  eo_send : forall r, se_send env = Some r -> r <= 0;
  eo_head : se_hnum env <> 1
}.

Lemma env_jiffies T env ms : env_ok T env -> 0 <= ms -> 0 <= se_jiffies env ms <= T.
Proof.
  intros [] Hm. split; [|by apply eo_max0]. destruct (decide (ms = 0)) as [->|]; [lia|].
  pose proof (eo_pos0 ms ltac:(lia)). lia.
Qed.

Lemma env_send T env : env_ok T env -> ib_send_mad env <= 0.
Proof.
  intros []. unfold ib_send_mad. destruct (se_send env) as [r|] eqn:E; cbn; [by apply eo_send0|].
  unfold err, ENOMEM. lia.
Qed.

(** A request still waits for its response. *)
Definition waiting (w : send_wr) : bool := (w_status w =? IB_WC_SUCCESS) && (0 <? w_timeout w).

(** The part of the state of a send the lists do not depend on. *)
Definition wr_ok (kernel_rmpp : bool) (B : Z) (w : send_wr) : Prop :=
  0 <= w_timeout w <= B /\ 0 <= w_timeout_ms w /\
  if kernel_rmpp && rmpp_active w then
    if rmpp_data w then
      send_wf w /\ (waiting w = true -> w_last_ack w = nsegs w -> 0 < w_timeout_ms w)
    else w_timeout w = 0
  else (waiting w = true -> 0 < w_timeout_ms w) /\
       (kernel_rmpp = true -> w_last_ack w = w_seg_count w).

(** What no step of RMPP changes. *)
Definition wr_same (w w' : send_wr) : Prop :=
  same_message w w' /\ w_refcount w' = w_refcount w /\ w_status w' = w_status w.

Lemma wr_ok_mono k B B' w : B <= B' -> wr_ok k B w -> wr_ok k B' w.
Proof. intros HB (Ht & H). split; [lia|done]. Qed.

Lemma wr_ok_refcount k B rc w : wr_ok k B w -> wr_ok k B (set_refcount rc w).
Proof.
  intros (Ht & Hms & Hk). split; [done|]. split; [done|].
  change (rmpp_active (set_refcount rc w)) with (rmpp_active w).
  change (rmpp_data (set_refcount rc w)) with (rmpp_data w).
  change (waiting (set_refcount rc w)) with (waiting w).
  destruct (k && rmpp_active w); [|done]. destruct (rmpp_data w); [|done].
  destruct Hk as [[] Hl]. split; [by constructor|done].
Qed.

Lemma rmpp_kind_same w w' :
  same_message w w' -> rmpp_active w' = rmpp_active w /\ rmpp_data w' = rmpp_data w.
Proof. intros (E & _). unfold rmpp_active, rmpp_data. by rewrite E. Qed.

(** Sending a segment keeps the send in order; its timer is running afterwards if
    it was before, or if no response is awaited. *)
Lemma next_seg_wr T env w :
  env_ok T env -> send_wf w -> w_seg_num w < nsegs w -> 0 <= w_timeout w ->
  exists ev w', send_next_seg env w = Some (ib_send_mad env, ev, w') /\ send_wf w' /\ wr_same w w' /\
    w_last_ack w' = w_last_ack w /\ w_retries_left w' = w_retries_left w /\
    (0 < w_timeout w \/ w_timeout_ms w = 0 -> 0 < w_timeout w') /\
    0 <= w_timeout w' <= Z.max (w_timeout w) T.
Proof.
  intros He Hwf Hn Ht. pose proof (env_jiffies T env 2000 He ltac:(lia)).
  pose proof (eo_pos _ _ He 2000 ltac:(lia)).
  destruct (send_next_seg_spec env w Hwf Hn) as
    (ret & ev & w' & E & Hwf' & Hsm & _ & Ea & _ & Er & Es & Erl & _ & Eret & Et).
  exists ev, w'. rewrite E. unfold ib_send_mad. rewrite <- Eret.
  split_and!; try done.
  - intros Hc. rewrite Et. destruct (Z.eqb_spec (w_timeout_ms w) 0); cbn [orb]; [done|].
    destruct (2000 <? w_timeout_ms w); [done|]. lia.
  - rewrite Et. destruct (_ || _); lia.
  - rewrite Et. destruct (_ || _); lia.
Qed.

(** Completion of a segment. *)
Lemma send_wc_wr T B env st w :
  env_ok T env -> T <= B -> wr_ok true B w ->
  exists ret ev st' w', ib_process_rmpp_send_wc env st w = Some (ret, ev, st', w') /\
    wr_ok true B w' /\ wr_same w w' /\ (w_timeout w = 0 -> w_timeout w' = 0) /\
    waiting w' = waiting w /\
    (ret = IB_RMPP_RESULT_CONSUMED -> 0 < w_timeout w /\ waiting w = true) /\
    (st <> IB_WC_SUCCESS -> st' <> IB_WC_SUCCESS).
Proof.
  intros He HTB H. unfold ib_process_rmpp_send_wc.
  assert (forall ret st', (ret <> IB_RMPP_RESULT_CONSUMED) -> (st <> IB_WC_SUCCESS -> st' <> IB_WC_SUCCESS) ->
    exists ret0 ev st0 w', Some (ret, [] : list rmpp_event, st', w) = Some (ret0, ev, st0, w') /\
    wr_ok true B w' /\ wr_same w w' /\ (w_timeout w = 0 -> w_timeout w' = 0) /\
    waiting w' = waiting w /\ (ret0 = IB_RMPP_RESULT_CONSUMED -> 0 < w_timeout w /\ waiting w = true) /\
    (st <> IB_WC_SUCCESS -> st0 <> IB_WC_SUCCESS)) as Hstay.
  { intros ret st' Hret Hst. eexists _, _, _, w. split; [done|]. by split_and!. }
  pose proof H as (Ht & Hms & Hk). cbn [andb] in Hk.
  destruct (rmpp_active w) eqn:Eact; cbn [negb]; [|by apply Hstay].
  destruct (rmpp_data w) eqn:Edat; cbn [negb]; [|by apply Hstay].
  destruct Hk as [Hwf Hlast].
  destruct (Z.eqb_spec st IB_WC_SUCCESS) as [Est|Est]; cbn [negb orb]; [|by apply Hstay].
  destruct (Z.eqb_spec (w_status w) IB_WC_SUCCESS) as [Ews|Ews]; cbn [negb]; [|by apply Hstay].
  destruct (Z.eqb_spec (w_timeout w) 0) as [Et|Et]; [by apply Hstay|].
  assert (waiting w = true) as Hwait
    by (unfold waiting; rewrite (proj2 (Z.eqb_eq _ _) Ews); apply Z.ltb_lt; lia).
  rewrite (sw_count _ Hwf). destruct (Z.eqb_spec (w_last_ack w) (nsegs w)) as [El|El].
  { specialize (Hlast Hwait El). pose proof (eo_pos _ _ He _ Hlast).
    pose proof (eo_max _ _ He (w_timeout_ms w) ltac:(lia)).
    eexists _, _, _, _. split; [done|].
    assert (waiting (set_timeout (se_jiffies env (w_timeout_ms w)) w) = true) as Hw'
      by (unfold waiting; cbn; rewrite (proj2 (Z.eqb_eq _ _) Ews); apply Z.ltb_lt; lia).
    split_and!; try done; [|by rewrite Hw', Hwait].
    split; [cbn; lia|]. split; [done|]. cbn [andb].
    change (rmpp_active (set_timeout _ w)) with (rmpp_active w).
    change (rmpp_data (set_timeout _ w)) with (rmpp_data w). rewrite Eact, Edat.
    split; [by destruct Hwf|done]. }
  destruct (Z.eqb_spec (w_seg_num w) (w_newwin w)); cbn [orb]; [by apply Hstay|].
  destruct (Z.eqb_spec (w_seg_num w) (nsegs w)); [by apply Hstay|].
  pose proof (sw_num _ Hwf).
  destruct (next_seg_wr T env w He Hwf) as (ev & w' & -> & Hwf' & Hsame & Ela & _ & Hpos & Hb); [lia|lia|].
  cbn [mbind option_bind]. pose proof Hsame as (Hsm & Er & Es). specialize (Hpos ltac:(lia)).
  assert (waiting w' = true) as Hw'
    by (unfold waiting; rewrite Es, (proj2 (Z.eqb_eq _ _) Ews); apply Z.ltb_lt; lia).
  assert (wr_ok true B w') as Hok'.
  { split; [lia|]. split; [by destruct Hsm as (_ & _ & _ & _ & _ & -> & _)|]. cbn [andb].
    destruct (rmpp_kind_same _ _ Hsm) as [-> ->]. rewrite Eact, Edat. split; [done|].
    rewrite Ela, (nsegs_ext _ _ Hsm). done. }
  destruct (ib_send_mad env =? 0); eexists _, _, _, w'; (split; [done|]); 
    (split_and!; [done|done|lia|congruence|intros _; split; [lia|done]|done]).
Qed.

(** A retry that succeeds runs the timer again and takes a reference. *)
Lemma retry_send_wr T B k env w :
  env_ok T env -> T <= B -> wr_ok k B w -> waiting w = true ->
  exists ret w', retry_send k env w = Some (ret, w') /\ w_status w' = w_status w /\
    (ret = 0 -> wr_ok k B w' /\ waiting w' = true /\ w_refcount w' = w_refcount w + 1).
Proof.
  intros He HTB (Ht & Hms & Hk) Hw. unfold retry_send.
  pose proof (env_jiffies T env (w_timeout_ms w) He Hms) as Hj.
  destruct (w_retries_left w =? 0); [by eexists _, w|].
  set (w1 := set_timeout _ _).
  assert (w_status w = IB_WC_SUCCESS) as Ews by (unfold waiting in Hw; bool_to_prop; done).
  assert (forall w', w_status w' = w_status w -> 0 < w_timeout w' -> waiting w' = true) as Hwait.
  { intros w' Es Hp. unfold waiting. rewrite Es, (proj2 (Z.eqb_eq _ _) Ews). by apply Z.ltb_lt. }
  (* the MAD is sent as it is *)
  assert (k && rmpp_active w = false -> exists ret w',
    Some (ib_send_mad env, if ib_send_mad env =? 0 then set_refcount (w_refcount w1 + 1) w1 else w1)
      = Some (ret, w') /\ w_status w' = w_status w /\
    (ret = 0 -> wr_ok k B w' /\ waiting w' = true /\ w_refcount w' = w_refcount w + 1)) as Hplain.
  { intros E. rewrite E in Hk. destruct Hk as [Hp Hl]. specialize (Hp Hw).
    pose proof (eo_pos _ _ He _ Hp). eexists _, _. split; [done|].
    destruct (ib_send_mad env =? 0) eqn:E0; [|split; [done|]; intros E1; by rewrite E1 in E0].
    split; [done|]. intros _. split_and!; [|by apply Hwait|done].
    split; [cbn; lia|]. split; [done|]. 
    change (rmpp_active (set_refcount _ w1)) with (rmpp_active w). by rewrite E. }
  destruct k; cbn [andb] in *; [|by apply Hplain].
  unfold ib_retry_rmpp. change (rmpp_active w1) with (rmpp_active w).
  destruct (rmpp_active w) eqn:Eact; cbn [negb mbind option_bind]; [|by apply Hplain].
  destruct (rmpp_data w) eqn:Edat; [|unfold waiting in Hw; rewrite Hk in Hw; bool_to_prop; lia].
  destruct Hk as [Hwf Hlast]. change (w_last_ack w1) with (w_last_ack w).
  change (w_seg_count w1) with (w_seg_count w). rewrite (sw_count _ Hwf).
  destruct (Z.eqb_spec (w_last_ack w) (nsegs w)) as [El|El]; [by eexists _, w1|].
  change (set_cur_seg _ _) with (rewind w1).
  assert (send_wf (rewind w1)) as Hwf1 by (apply rewind_wf; by destruct Hwf).
  pose proof (sw_ack _ Hwf) as Hack.
  destruct (next_seg_wr T env (rewind w1) He Hwf1) as (ev & w' & -> & Hwf' & Hsame & Ela & _ & Hpos & Hb);
    [change (w_last_ack w < nsegs w); lia|cbn; lia|].
  cbn [mbind option_bind]. pose proof Hsame as (Hsm & Er & Es).
  assert (same_message w w') as Hsm' by (eapply same_message_trans; [|apply Hsm]; done).
  assert (0 < w_timeout w') as Hp.
  { apply Hpos. change (0 < se_jiffies env (w_timeout_ms w) \/ w_timeout_ms w = 0).
    destruct (decide (w_timeout_ms w = 0)); [by right|left]. apply (eo_pos _ _ He). lia. }
  destruct (ib_send_mad env =? 0); [|by eexists _, w'].
  eexists _, _. split; [done|]. split; [exact Es|]. intros _.
  split_and!; [|apply Hwait; [exact Es|done]|cbn; by rewrite Er].
  cbn [rewind set_cur_seg set_seg_num wr_upd w1 set_timeout w_timeout] in Hb.
  change (if true then set_refcount (w_refcount w' + 1) w' else w') with (set_refcount (w_refcount w' + 1) w').
  apply wr_ok_refcount. split; [lia|].
  split; [by destruct Hsm' as (_ & _ & _ & _ & _ & -> & _)|].
  destruct (rmpp_kind_same _ _ Hsm') as [-> ->]. rewrite Eact, Edat. cbn [andb].
  split; [done|]. intros _ E. exfalso. apply El.
  rewrite (nsegs_ext _ _ Hsm') in E. by rewrite <- E, Ela.
Qed.

(** What an answer of the RMPP peer does to the waiting send it was matched with. *)
Definition act_ok (B : Z) (w : send_wr) (act : send_action) (w' : send_wr) : Prop :=
  wr_ok true B w' /\ w_status w' = w_status w /\
  match act with
  | SNone => w_refcount w' = w_refcount w /\ waiting w' = true
  | SDone _ _ => w_refcount w' = w_refcount w /\ w_timeout w' = 0
  | SReset => w_refcount w = 1 /\ w_refcount w' = 1 /\ waiting w' = true
  | SRequeue => w_refcount w = 1 /\ w_refcount w' = 2 /\ waiting w' = true
  end.

Lemma act_ok_none B w : wr_ok true B w -> waiting w = true -> act_ok B w SNone w.
Proof. intros. unfold act_ok. by split_and!. Qed.

Lemma wr_ok_data B w :
  rmpp_active w = true -> rmpp_data w = true -> 0 <= w_timeout w <= B -> 0 <= w_timeout_ms w ->
  send_wf w -> (waiting w = true -> w_last_ack w = nsegs w -> 0 < w_timeout_ms w) -> wr_ok true B w.
Proof. intros Ha Hd Ht Hm Hwf Hl. unfold wr_ok. rewrite Ha, Hd. cbn [andb]. by split. Qed.

(** A send whose timer is stopped. *)
Lemma wr_ok_stopped k B w : 0 <= B -> wr_ok k B w -> wr_ok k B (set_timeout 0 w).
Proof.
  intros HB (Ht & Hms & Hk). split; [cbn; lia|]. split; [done|].
  change (rmpp_active (set_timeout 0 w)) with (rmpp_active w).
  change (rmpp_data (set_timeout 0 w)) with (rmpp_data w).
  assert (waiting (set_timeout 0 w) = false) as -> by (unfold waiting; apply andb_false_r).
  destruct (k && rmpp_active w); [destruct (rmpp_data w)|]; [|done|by destruct Hk].
  destruct Hk as [[] _]. split; [by constructor|done].
Qed.

Lemma abort_act B st w :
  0 <= B -> wr_ok true B w -> waiting w = true ->
  exists act w', abort_send st (Some w) = (act, Some w') /\ act_ok B w act w'.
Proof.
  intros HB H Hw. unfold abort_send. destruct (send_over w).
  - eexists _, _. split; [done|]. by apply act_ok_none.
  - eexists _, _. split; [done|]. unfold act_ok. split_and!; try done. by apply wr_ok_stopped.
Qed.

Lemma abort_nack_act B renv m st w :
  0 <= B -> wr_ok true B w -> waiting w = true ->
  exists act ev w', abort_nack renv m st (Some w) = (act, ev, Some w') /\ act_ok B w act w'.
Proof.
  intros HB H Hw. unfold abort_nack. destruct (abort_act B st w HB H Hw) as (act & w' & -> & Ha).
  by eexists _, _, w'.
Qed.

Lemma ack_accept_wf senv sn nw w :
  send_wf w -> se_hnum senv <> 1 -> w_last_ack w <= sn <= nsegs w ->
  send_wf (ack_accept senv sn nw w) /\ w_last_ack (ack_accept senv sn nw w) = sn /\
  same_message w (ack_accept senv sn nw w) /\
  w_timeout (ack_accept senv sn nw w) = w_timeout w /\
  w_refcount (ack_accept senv sn nw w) = w_refcount w /\
  w_status (ack_accept senv sn nw w) = w_status w.
Proof.
  intros Hwf Hh Hsn. unfold ack_accept. destruct (Z.ltb_spec (w_last_ack w) sn).
  - destruct (adjust_last_ack_wf (se_hnum senv) sn w Hwf Hh) as [Hwf' Ea]; [lia|].
    split_and!; try done. by destruct Hwf'.
  - split_and!; [by destruct Hwf|cbn; lia|done..].
Qed.

(** An accepted ACK: [w2] is the send with its new position and window. *)
Lemma ack_accepted_act T B senv renv m w w2 :
  env_ok T senv -> 0 <= T <= B -> wr_ok true B w -> waiting w = true -> rmpp_active w = true ->
  rmpp_data w = true -> send_wf w2 -> same_message w w2 -> w_timeout w2 = w_timeout w ->
  w_refcount w2 = w_refcount w -> w_status w2 = w_status w ->
  exists act ev w',
    (if w_last_ack w2 =? w_seg_count w2 then
       if w_timeout_ms w2 =? 0 then Some (SDone IB_WC_SUCCESS 0, [], set_timeout 0 w2)
       else if w_refcount w2 =? 1
       then Some (SReset, ack_ds_ack renv m, set_timeout (se_jiffies senv (w_timeout_ms w2)) w2)
       else Some (SNone, ack_ds_ack renv m, w2)
     else if (w_refcount w2 =? 1) && (w_seg_num w2 <? w_newwin w2) && (w_seg_num w2 <? w_seg_count w2) then
       '(ret, ev, w') ← send_next_seg senv w2;
       if ret =? 0 then Some (SRequeue, ev, set_refcount (w_refcount w' + 1) w') else Some (SNone, ev, w')
     else Some (SNone, [], w2)) = Some (act, ev, w') /\ act_ok B w act w'.
Proof.
  intros He HB (Ht & Hms & _) Hw Eact Edat Hwf2 Hsm Et Er Es.
  assert (w_status w = IB_WC_SUCCESS /\ 0 < w_timeout w) as [Ews Htp]
    by (unfold waiting in Hw; bool_to_prop; lia).
  destruct (rmpp_kind_same _ _ Hsm) as [Ka Kd].
  assert (w_timeout_ms w2 = w_timeout_ms w) as Em by (by destruct Hsm as (_ & _ & _ & _ & _ & ? & _)).
  rewrite (sw_count _ Hwf2), Em.
  assert (forall t, 0 <= t <= B -> (w_last_ack w2 = nsegs w2 -> 0 < t -> 0 < w_timeout_ms w) ->
    wr_ok true B (set_timeout t w2)) as Hok.
  { intros t Hb Hl. apply wr_ok_data; [exact (eq_trans Ka Eact)|exact (eq_trans Kd Edat)|done|
      change (0 <= w_timeout_ms w2); lia|by destruct Hwf2|].
    unfold waiting. change (w_timeout (set_timeout t w2)) with t. intros Hwt E. bool_to_prop.
    change (0 < w_timeout_ms w2). rewrite Em. by apply Hl. }
  assert (forall t, 0 < t -> waiting (set_timeout t w2) = true) as Hwt.
  { intros t Hb. unfold waiting. change (w_status (set_timeout t w2)) with (w_status w2).
    rewrite Es, (proj2 (Z.eqb_eq _ _) Ews). by apply Z.ltb_lt. }
  assert (set_timeout (w_timeout w2) w2 = w2) as Eta by (by destruct w2).
  assert (w_timeout_ms w <> 0 \/ w_last_ack w2 <> nsegs w2 -> act_ok B w SNone w2) as Hnone.
  { intros Hor. rewrite <- Eta. unfold act_ok; split_and!; [apply Hok; lia|done|done|apply Hwt; lia]. }
  destruct (Z.eqb_spec (w_last_ack w2) (nsegs w2)) as [El2|El2].
  - destruct (Z.eqb_spec (w_timeout_ms w) 0); [|destruct (Z.eqb_spec (w_refcount w2) 1)].
    + eexists _, _, _. split; [done|]. unfold act_ok; split_and!; [apply Hok; lia|done|cbn; lia|done].
    + pose proof (eo_pos _ _ He (w_timeout_ms w) ltac:(lia)).
      pose proof (eo_max _ _ He (w_timeout_ms w) ltac:(lia)).
      eexists _, _, _. split; [done|]. unfold act_ok; split_and!; [apply Hok; lia|done|lia|done|apply Hwt; lia].
    + eexists _, _, w2. split; [done|]. apply Hnone. by left.
  - destruct ((w_refcount w2 =? 1) && (w_seg_num w2 <? w_newwin w2) && (w_seg_num w2 <? nsegs w2)) eqn:Eg;
      [|eexists _, _, w2; split; [done|]; apply Hnone; by right].
    bool_to_prop. pose proof (sw_num _ Hwf2).
    destruct (next_seg_wr T senv w2 He Hwf2) as (ev & w3 & -> & Hwf3 & Hsame & Ela & _ & Hpos & Hb); [lia|lia|].
    cbn [mbind option_bind]. pose proof Hsame as (Hsm3 & Er3 & Es3). specialize (Hpos ltac:(lia)).
    destruct (rmpp_kind_same _ _ Hsm3) as [Ka3 Kd3].
    assert (waiting w3 = true) as Hw3.
    { unfold waiting. rewrite Es3, Es, (proj2 (Z.eqb_eq _ _) Ews). by apply Z.ltb_lt. }
    assert (wr_ok true B w3) as Hok3.
    { apply wr_ok_data; [congruence|congruence|lia| |done|].
      - destruct Hsm3 as (_ & _ & _ & _ & _ & -> & _). lia.
      - intros _ E. exfalso. apply El2. rewrite (nsegs_ext _ _ Hsm3) in E. congruence. }
    destruct (ib_send_mad senv =? 0).
    + eexists _, _, _. split; [done|]. unfold act_ok; split_and!; [by apply wr_ok_refcount|cbn; congruence|lia|cbn; lia|done].
    + eexists _, _, w3. split; [done|]. unfold act_ok; split_and!; [done|congruence|congruence|done].
Qed.

Lemma ack_wr_act T B senv renv m w :
  env_ok T senv -> 0 <= T <= B -> wr_ok true B w -> waiting w = true ->
  exists act ev w', ack_wr senv renv m w = Some (act, ev, w') /\ act_ok B w act w'.
Proof.
  intros He HB H Hw. unfold ack_wr. pose proof H as (Ht & Hms & Hk). cbn [andb] in Hk.
  assert (w_status w = IB_WC_SUCCESS /\ 0 < w_timeout w) as [Ews Htp]
    by (unfold waiting in Hw; bool_to_prop; lia).
  unfold truthy. rewrite (proj2 (Z.eqb_neq (w_timeout w) 0)) by lia. cbn [negb].
  destruct (Z.eqb_spec (w_last_ack w) (w_seg_count w)) as [El|El]; cbn [andb].
  { eexists _, _, w. split; [done|]. by apply act_ok_none. }
  destruct (rmpp_active w) eqn:Eact; [|by destruct Hk as [_ Hk]; specialize (Hk eq_refl)].
  destruct (rmpp_data w) eqn:Edat; [|lia]. destruct Hk as [Hwf Hlast].
  assert (send_over w = false) as Eov.
  { unfold send_over. rewrite (proj2 (Z.eqb_neq _ _) El), (proj2 (Z.eqb_neq (w_timeout w) 0)) by lia.
    by rewrite (proj2 (Z.eqb_eq _ _) Ews). }
  rewrite Eov. set (sn := s32 (m_seg_num m)). set (nw := s32 (m_paylen_newwin m)).
  destruct (Z.ltb_spec (w_seg_count w) sn) as [|Hsc]; cbn [orb]; [|destruct (Z.ltb_spec (w_newwin w) sn)].
  1,2: destruct (abort_nack_act B renv m IB_MGMT_RMPP_STATUS_S2B w) as (act & ev & w' & -> & Ha);
    [lia|done|done|]; cbn [mbind option_bind]; by eexists _, _, w'.
  destruct (_ <? w_newwin w); cbn [orb]; [eexists _, _, w; split; [done|by apply act_ok_none]|].
  destruct (Z.ltb_spec sn (w_last_ack w)); [eexists _, _, w; split; [done|by apply act_ok_none]|].
  change (set_wr_newwin nw _) with (ack_accept senv sn nw w).
  rewrite (sw_count _ Hwf) in Hsc.
  destruct (ack_accept_wf senv sn nw w Hwf (eo_head _ _ He)) as (Hwf2 & Ea & Hsm & Et & Er & Es); [lia|].
  by apply (ack_accepted_act T B).
Qed.

(** The answer for a send found, or none for none found. *)
Definition found_ok (B : Z) (found : option send_wr) (act : send_action) (f : option send_wr) : Prop :=
  match found, f with
  | None, None => True
  | Some w, Some w' => act_ok B w act w'
  | _, _ => False
  end.

Definition found_waiting (B : Z) (found : option send_wr) : Prop :=
  match found with None => True | Some w => wr_ok true B w /\ waiting w = true end.

Lemma found_none B found : found_waiting B found -> found_ok B found SNone found.
Proof. destruct found as [w|]; [|done]. intros [? ?]. by apply act_ok_none. Qed.

Lemma found_abort B renv m st found :
  0 <= B -> found_waiting B found ->
  exists act ev f, abort_nack renv m st found = (act, ev, f) /\ found_ok B found act f.
Proof.
  intros HB Hf. destruct found as [w|]; [|by eexists _, _, _].
  destruct Hf as [H Hw]. destruct (abort_nack_act B renv m st w HB H Hw) as (act & ev & w' & -> & Ha).
  by eexists _, _, (Some w').
Qed.

Lemma found_abort_send B st found :
  0 <= B -> found_waiting B found ->
  exists act f, abort_send st found = (act, f) /\ found_ok B found act f.
Proof.
  intros HB Hf. destruct found as [w|]; [|by eexists _, _].
  destruct Hf as [H Hw]. destruct (abort_act B st w HB H Hw) as (act & w' & -> & Ha).
  by eexists _, (Some w').
Qed.

(** The agent and a transaction after a double-sided ACK. *)
Lemma repwin_recv_ok a N v r : recv_ok a N r -> recv_ok a N (set_repwin v r).
Proof. intros ([[] Hs] & ? & ?). split_and!; [|done|done]. constructor; [by constructor|done]. Qed.

Lemma ds_ack_recvs m v N a :
  Forall (recv_ok a N) (a_recvs a) ->
  same_config a (process_ds_ack m v a) /\
  Forall (recv_ok (process_ds_ack m v a) N) (a_recvs (process_ds_ack m v a)).
Proof.
  intros Hall. unfold process_ds_ack. destruct (find_rmpp_recv m (a_recvs a)) as [i|]; [|done].
  destruct (a_recvs a !! i) as [r|] eqn:Hi; [|done]. case_bool_decide; [|done]. split; [done|].
  cbn [set_recvs a_recvs]. apply Forall_insert; [done|]. apply repwin_recv_ok.
  by apply (Forall_lookup_1 _ _ _ _ Hall Hi).
Qed.

Lemma recvs_mono a N : Forall (recv_ok a N) (a_recvs a) -> Forall (recv_ok a (N + 1)) (a_recvs a).
Proof. intros H. eapply Forall_impl; [apply H|]. intros x. apply recv_ok_mono. lia. Qed.

Lemma delivered_nonempty env m a a' ev l len :
  data_outcome env m a a' ev (Some (l, len)) -> l <> [].
Proof.
  remember (Some (l, len)) as d eqn:Ed. intros Ho. revert Ed.
  destruct Ho as [| r r' a'' ev' d' _ Hok | r a'' ev' d' _ _ _ _ _ _ _ _ _ Hd _]; intros Ed; [done| |].
  - pose proof (rs_done _ _ _ _ _ _ _ Hok) as Hd. rewrite Ed in Hd. destruct Hd as (_ & _ & -> & _).
    pose proof (ri_cur _ _ (rs_inv _ _ _ _ _ _ _ Hok)) as Hc. intros E. rewrite E in Hc. simpl in Hc. lia.
  - destruct (get_last_flag m); destruct Hd as [_ Hd]; rewrite Hd in Ed; [|done]. by injection Ed as <- _.
Qed.

Lemma recv_wc_spec T B N senv renv m found a :
  env_ok T senv -> 0 <= T <= B -> found_waiting B found ->
  agent_ok N a -> 0 <= N ->
  exists res act ev f a', ib_process_rmpp_recv_wc senv renv m found a = Some (res, act, ev, f, a') /\
    found_ok B found act f /\ same_config a a' /\ Forall (recv_ok a' (N + 1)) (a_recvs a') /\
    match res with RMessage (l, _) => l <> [] | _ => True end.
Proof.
  intros He HB Hf Ha HN. unfold ib_process_rmpp_recv_wc.
  pose proof (recvs_mono a N (proj1 Ha)) as Hr.
  assert (forall act ev f, found_ok B found act f -> exists res' act' ev' f' a',
    Some (RConsumed, act, ev ++ [EFree [m]], f, a) = Some (res', act', ev', f', a') /\
    found_ok B found act' f' /\ same_config a a' /\ Forall (recv_ok a' (N + 1)) (a_recvs a') /\
    match res' with RMessage (l, _) => l <> [] | _ => True end) as Hout
    by (intros act ev f Ho; by eexists _, _, _, _, _).
  assert (forall st, exists res' act' ev' f' a',
    (let '(act, ev, f) := abort_nack renv m st found in Some (RConsumed, act, ev ++ [EFree [m]], f, a))
      = Some (res', act', ev', f', a') /\
    found_ok B found act' f' /\ same_config a a' /\ Forall (recv_ok a' (N + 1)) (a_recvs a') /\
    match res' with RMessage (l, _) => l <> [] | _ => True end) as Hab.
  { intros st. destruct (found_abort B renv m st found ltac:(lia) Hf) as (act & ev & f & -> & Ho).
    by apply Hout. }
  destruct (has_flag _ _); cbn [negb].
  2: { eexists _, _, _, _, _. split; [done|]. split_and!; try done. by apply found_none. }
  destruct (m_rmpp_version m =? _); cbn [negb]; [|apply Hab].
  destruct (m_rmpp_type m =? IB_MGMT_RMPP_TYPE_DATA).
  { destruct (process_rmpp_data_spec N renv m a Ha HN) as (a' & ev & d & -> & Hcfg & Hr' & Ho).
    cbn [mbind option_bind]. eexists _, _, _, _, _. split; [done|]. split_and!; [by apply found_none|done| |].
    - unfold recv_ok in *. by rewrite (window_config _ _ Hcfg).
    - destruct d as [[l len]|]; [|done]. cbn [from_option]. by eapply delivered_nonempty. }
  destruct (m_rmpp_type m =? IB_MGMT_RMPP_TYPE_ACK).
  { unfold process_rmpp_ack. destruct (truthy (m_rmpp_status m)).
    { destruct (found_abort B renv m IB_MGMT_RMPP_STATUS_BAD_STATUS found) as (act & ev & f & -> & Ho);
        [lia|done|]. by apply Hout. }
    destruct (_ <? _).
    { destruct (found_abort B renv m IB_MGMT_RMPP_STATUS_W2S found) as (act & ev & f & -> & Ho);
        [lia|done|]. by apply Hout. }
    destruct found as [w|].
    - destruct Hf as [H Hw]. destruct (ack_wr_act T B senv renv m w He HB H Hw) as (act & ev & w' & -> & Ho).
      cbn [mbind option_bind]. by apply (Hout act ev (Some w')).
    - cbn [mbind option_bind]. destruct (_ =? 0); [|by apply (Hout SNone [] None)].
      destruct (ds_ack_recvs m (s32 (m_paylen_newwin m)) (N + 1) a Hr) as [Hc Hr']. by eexists _, _, _, _, _. }
  destruct (m_rmpp_type m =? IB_MGMT_RMPP_TYPE_STOP);
    [|destruct (m_rmpp_type m =? IB_MGMT_RMPP_TYPE_ABORT); [|apply Hab]].
  - unfold process_rmpp_stop. destruct (negb _); [apply Hab|].
    destruct (found_abort_send B (m_rmpp_status m) found) as (act & f & -> & Ho); [lia|done|]. by apply Hout.
  - unfold process_rmpp_abort. destruct (_ || _); [apply Hab|].
    destruct (found_abort_send B (m_rmpp_status m) found) as (act & f & -> & Ho); [lia|done|]. by apply Hout.
Qed.
