(* ===== verification/MadAgent.v ===== *)
(** * The life of the sends of an agent

    The invariant of the send, wait and done lists of [MadSend]: what the reference
    count of a send counts, on which list it is, and who will complete it; and the
    theorems about whole runs of an agent. The invariant is stated send by send, on
    the places where the number of a send occurs in the state ([view_of]); a step
    that touches one send leaves the views of the others unchanged ([only]). *)

From Stdlib Require Import ZArith Lia.
From stdpp Require Import base tactics numbers list option gmap sorting.
From S2P Require Import MadReg.
From S2P Require Import Prelude RmppRecv RmppSend MadSend.

Local Open Scope Z_scope.

(** ** Occurrences *)

Definition cnt {A} `{EqDecision A} (x : A) (l : list A) : nat := length (filter (fun y => y = x) l).

Lemma cnt_cons {A} `{EqDecision A} (x y : A) l :
  cnt x (y :: l) = ((if decide (y = x) then 1 else 0) + cnt x l)%nat.
Proof. unfold cnt. rewrite filter_cons. by case_decide. Qed.

Lemma cnt_nil {A} `{EqDecision A} (x : A) : cnt x [] = 0%nat.
Proof. done. Qed.

Lemma cnt_app {A} `{EqDecision A} (x : A) l l' : cnt x (l ++ l') = (cnt x l + cnt x l')%nat.
Proof. unfold cnt. by rewrite filter_app, length_app. Qed.

Lemma cnt_one {A} `{EqDecision A} (x y : A) : cnt x [y] = if decide (y = x) then 1%nat else 0%nat.
Proof. rewrite cnt_cons. case_decide; done. Qed.

Lemma cnt_del (x id : nat) l : cnt x (list_del id l) = if decide (x = id) then 0%nat else cnt x l.
Proof.
  induction l as [|y l IH]; [by case_decide|]. unfold list_del in *. rewrite filter_cons.
  destruct (decide (y <> id)) as [Hy|Hy]; rewrite !cnt_cons, ?IH; repeat case_decide; subst; done || lia.
Qed.

Lemma cnt_delete {A} `{EqDecision A} (x y : A) l i :
  l !! i = Some y -> cnt x l = ((if decide (y = x) then 1 else 0) + cnt x (delete i l))%nat.
Proof.
  revert i. induction l as [|z l IH]; intros [|i] Hi; simplify_eq/=; rewrite !cnt_cons; [done|].
  rewrite (IH i Hi). lia.
Qed.

Lemma cnt_insert_at (x id : nat) n l :
  (cnt x (take n l) + cnt x (id :: drop n l) = (if decide (id = x) then 1 else 0) + cnt x l)%nat.
Proof.
  rewrite cnt_cons. rewrite <- (take_drop n l) at 3. rewrite cnt_app. lia.
Qed.

Lemma cnt_elem {A} `{EqDecision A} (x : A) l : x ∈ l <-> (0 < cnt x l)%nat.
Proof.
  induction l as [|y l IH]; [rewrite cnt_nil; split; [intros H; by inversion H|lia]|].
  rewrite elem_of_cons, cnt_cons, IH. case_decide; [subst; split; [lia|by left]|].
  split; [intros [->|]; [done|lia]|right; lia].
Qed.

(** ** The view of one send *)

Record view := mkview {
  v_wr : option send_wr;
  v_s : nat; v_w : nat; v_d : nat;
  v_h : nat; v_ph : nat; v_pd : nat;
  v_c : nat; v_r : nat; v_x : nat
}.

(** Where a send occurs: on the three lists, at the device, in pending completions
    of the device and of responses, in the calls of the handlers. *)
Definition view_of (g : mad_agent) (id : nat) : view :=
  mkview (g_wrs g !! id) (cnt id (g_send g)) (cnt id (g_wait g)) (cnt id (g_done g))
    (cnt id (g_hw g)) (cnt (id, true) (map fst (g_pend g))) (cnt (id, false) (map fst (g_pend g)))
    (cnt id (map fst (g_calls g))) (cnt (Some id) (g_rcalls g)) (cnt id (g_failed g)).

(** Parties other than the waiting response that hold a reference. *)
Definition holders (v : view) : nat := (v_h v + v_ph v + v_pd v)%nat.

(** A live send is on exactly one list; its references are the work request of the
    device or its completion, a pending completion of a response, and the awaited
    response; on the wait list only the response is missing, elsewhere someone will
    complete the send. *)
Record live_inv (k : bool) (B : Z) (w : send_wr) (v : view) : Prop := {
  lv_place : (v_s v + v_w v + v_d v = 1)%nat;
  lv_hw : (v_h v + v_ph v <= 1)%nat;
  lv_once : (v_c v + v_x v = 0)%nat /\ (v_r v <= 1)%nat /\ (v_pd v <= 1)%nat;
  lv_ref : w_refcount w = Z.of_nat (holders v) + b2z (waiting w);
  lv_wait : v_w v = 1%nat -> holders v = 0%nat /\ (w_status w = IB_WC_SUCCESS -> 0 < w_timeout w);
  lv_busy : v_w v = 0%nat -> (0 < holders v)%nat;
  lv_stopped : (0 < v_d v + v_pd v + v_r v)%nat -> w_timeout w = 0;
  lv_ok : wr_ok k B w
}.

Definition b2n (b : bool) : nat := if b then 1%nat else 0%nat.

(** A send that is not live occurs nowhere but in the past: once posted, it was
    refused or reported, exactly once. *)
Definition pt_inv (k : bool) (B : Z) (posted : bool) (v : view) : Prop :=
  match v_wr v with
  | None => (v_s v + v_w v + v_d v + v_h v + v_ph v + v_pd v = 0)%nat /\
            (v_c v + v_x v = b2n posted)%nat /\ (v_r v <= b2n posted)%nat
  | Some w => posted = true /\ live_inv k B w v
  end.

Definition posted (g : mad_agent) (id : nat) : bool := bool_decide (id < g_next g)%nat.

(** [base] are the references on the agent that do not come from sends; [N] bounds
    the MADs received, [B] the timers, [T] the time. *)
Record agent_inv (base T B N : Z) (g : mad_agent) : Prop := {
  ai_pt : forall id, pt_inv (g_kernel_rmpp g) B (posted g id) (view_of g id);
  ai_refs : g_refs g = base + Z.of_nat (size (g_wrs g));
  ai_now : 0 < g_now g <= T;
  ai_recv : Forall (recv_ok (g_rmpp g) N) (a_recvs (g_rmpp g))
}.

(** Only the send [id] is touched. *)
Record only (id : nat) (g g' : mad_agent) : Prop := {
  on_views : forall id', id' <> id -> view_of g' id' = view_of g id';
  on_refs : g_refs g' - Z.of_nat (size (g_wrs g')) = g_refs g - Z.of_nat (size (g_wrs g));
  on_kernel : g_kernel_rmpp g' = g_kernel_rmpp g;
  on_now : g_now g' = g_now g;
  on_next : g_next g' = g_next g;
  on_rmpp : g_rmpp g' = g_rmpp g
}.

Lemma only_refl id g : only id g g.
Proof. by constructor. Qed.

Lemma only_trans id g1 g2 g3 : only id g1 g2 -> only id g2 g3 -> only id g1 g3.
Proof.
  intros [] []. constructor; try congruence.
  intros id' Hne. by rewrite on_views1, on_views0.
Qed.

Lemma only_inv base T B N id g g' :
  agent_inv base T B N g -> only id g g' -> pt_inv (g_kernel_rmpp g) B (posted g id) (view_of g' id) ->
  agent_inv base T B N g'.
Proof.
  intros [] [] Hpt. constructor.
  - intros id'. unfold posted. rewrite on_kernel0, on_next0. destruct (decide (id' = id)) as [->|]; [exact Hpt|].
    rewrite on_views0 by done. apply ai_pt0.
  - lia.
  - by rewrite on_now0.
  - by rewrite on_rmpp0.
Qed.

Lemma pt_mono k B B' p v : B <= B' -> pt_inv k B p v -> pt_inv k B' p v.
Proof.
  intros HB. unfold pt_inv. destruct (v_wr v) as [w|]; [|done]. intros [? []]. split; [done|].
  constructor; try done. by eapply wr_ok_mono.
Qed.

(** ** The elementary changes *)

Ltac view_simpl :=
  unfold view_of; cbn [put_wr unlink link_send link_done post_hw set_lists set_wrs set_hw set_pend
    set_refs set_calls set_rcalls notify g_wrs g_send g_wait g_done g_hw g_pend g_calls g_rcalls g_failed g_next
    g_kernel_rmpp g_refs g_now g_rmpp];
  rewrite ?map_app, ?cnt_app, ?cnt_del, ?cnt_app; cbn [map fst]; rewrite ?cnt_one.

Ltac only_other :=
  intros ? ?; view_simpl;
  repeat first [rewrite lookup_insert_ne by done | rewrite lookup_delete_ne by done];
  repeat (rewrite decide_False by congruence); rewrite ?Nat.add_0_r; done.

Lemma only_put id w w' g : g_wrs g !! id = Some w' -> only id g (put_wr id w g).
Proof.
  intros E. constructor; try done; [only_other|]. cbn [put_wr set_wrs g_refs g_wrs].
  rewrite map_size_insert_Some by done. done.
Qed.

Lemma only_unlink id g : only id g (unlink id g).
Proof. constructor; try done. only_other. Qed.

Lemma only_link_send id g : only id g (link_send id g).
Proof. constructor; try done. only_other. Qed.

Lemma only_link_done id g : only id g (link_done id g).
Proof. constructor; try done. only_other. Qed.

Lemma only_post_hw id g : only id g (post_hw id g).
Proof. constructor; try done. only_other. Qed.

Lemma only_pend id b st g : only id g (set_pend (g_pend g ++ [(id, b, st)]) g).
Proof. constructor; try done. only_other. Qed.

Lemma only_rcalls id g : only id g (set_rcalls (g_rcalls g ++ [Some id]) g).
Proof. constructor; try done. only_other. Qed.

Lemma only_notify id w st g : g_wrs g !! id = Some w -> only id g (notify id st g).
Proof.
  intros E. constructor; try done; [only_other|]. cbn [notify set_calls set_refs set_wrs g_refs g_wrs].
  rewrite map_size_delete_Some by (by eexists).
  assert (size (g_wrs g) <> 0%nat); [|lia].
  intros E0. apply map_size_empty_inv in E0. rewrite E0 in E. done.
Qed.

Lemma view_post id g :
  view_of (post_hw id g) id =
  let v := view_of g id in
  mkview (v_wr v) (v_s v) (v_w v) (v_d v) (v_h v + 1) (v_ph v) (v_pd v) (v_c v) (v_r v) (v_x v).
Proof. view_simpl. by rewrite decide_True. Qed.

Lemma decide_same (id : nat) {A} (a b : A) : (if decide (id = id) then a else b) = a.
Proof. by rewrite decide_True. Qed.

Lemma view_eq v wr s w d h ph pd c r x :
  v_wr v = wr -> v_s v = s -> v_w v = w -> v_d v = d -> v_h v = h -> v_ph v = ph -> v_pd v = pd ->
  v_c v = c -> v_r v = r -> v_x v = x -> v = mkview wr s w d h ph pd c r x.
Proof. destruct v. cbn. congruence. Qed.

(** [wait_for_response] moves the send to the wait list and makes its timer absolute. *)
Lemma wait_spec id w g :
  g_wrs g !! id = Some w ->
  exists g', wait_for_response id g = Some g' /\ only id g g' /\
    view_of g' id =
      let v := view_of g id in
      mkview (Some (set_timeout (u64 (w_timeout w + g_now g)) w)) 0 1 0
        (v_h v) (v_ph v) (v_pd v) (v_c v) (v_r v) (v_x v).
Proof.
  intros E. unfold wait_for_response. rewrite E. cbn [mbind option_bind].
  set (n := if truthy (w_timeout w) then _ else _). eexists. split; [done|]. split.
  - eapply only_trans; [apply (only_unlink id)|]. constructor; try done.
    + intros id' Hne. view_simpl. rewrite lookup_insert_ne, cnt_insert_at by done.
      rewrite cnt_del. rewrite !decide_False by congruence. done.
    + cbn [put_wr set_wrs set_lists unlink g_refs g_wrs]. rewrite map_size_insert_Some by done. done.
  - view_simpl. rewrite lookup_insert_eq, cnt_insert_at, !decide_same, cnt_del, decide_same. done.
Qed.

Lemma waiting_spec w : waiting w = true <-> w_status w = IB_WC_SUCCESS /\ 0 < w_timeout w.
Proof. unfold waiting. rewrite andb_true_iff, Z.eqb_eq, Z.ltb_lt. done. Qed.

Lemma wr_ok_status k B st w :
  st <> IB_WC_SUCCESS -> wr_ok k B w -> wr_ok k B (set_status st w) /\ waiting (set_status st w) = false.
Proof.
  intros Hst (Ht & Hms & Hk).
  assert (waiting (set_status st w) = false) as Hw
    by (unfold waiting; cbn; by rewrite (proj2 (Z.eqb_neq _ _) Hst)).
  split; [|done]. split; [done|]. split; [done|]. rewrite Hw.
  change (rmpp_active (set_status st w)) with (rmpp_active w).
  change (rmpp_data (set_status st w)) with (rmpp_data w).
  destruct (k && rmpp_active w); [destruct (rmpp_data w)|]; [|done|by destruct Hk].
  destruct Hk as [[] _]. split; [by constructor|done].
Qed.

(** A new value of a running timer. *)
Lemma wr_ok_timeout k B t w :
  0 < t <= B -> waiting w = true -> wr_ok k B w ->
  wr_ok k B (set_timeout t w) /\ waiting (set_timeout t w) = true.
Proof.
  intros Hb Hw (Ht & Hms & Hk). pose proof (proj1 (waiting_spec w) Hw) as [Es _].
  assert (waiting (set_timeout t w) = true) as Hw' by (apply waiting_spec; cbn; split; [done|lia]).
  split; [|done]. split; [cbn; lia|]. split; [done|]. rewrite Hw'.
  change (rmpp_active (set_timeout t w)) with (rmpp_active w).
  change (rmpp_data (set_timeout t w)) with (rmpp_data w).
  destruct (k && rmpp_active w); [destruct (rmpp_data w)|].
  - destruct Hk as [[] Hl]. split; [by constructor|]. intros _. by apply Hl.
  - apply waiting_spec in Hw. lia.
  - destruct Hk as [Hl ?]. split; [|done]. intros _. by apply Hl.
Qed.

(** The RMPP part of a completion, with and without the RMPP of the kernel. *)
Lemma completion_rmpp T B k env st w :
  env_ok T env -> T <= B -> wr_ok k B w ->
  exists ret st' w',
    (if k then '(ret, _, st, w') ← ib_process_rmpp_send_wc env st w; Some (ret, st, w')
     else Some (IB_RMPP_RESULT_UNHANDLED, st, w)) = Some (ret, st', w') /\
    wr_ok k B w' /\ w_refcount w' = w_refcount w /\ w_status w' = w_status w /\
    (w_timeout w = 0 -> w_timeout w' = 0) /\ waiting w' = waiting w /\
    (ret = IB_RMPP_RESULT_CONSUMED -> waiting w = true).
Proof.
  intros He HTB H. destruct k; [|by eexists _, _, w].
  destruct (send_wc_wr T B env st w He HTB H) as (ret & ev & st' & w' & -> & Hok & Hs & Ht & Hw & Hc & _).
  destruct Hs as (_ & Er & Es). eexists _, _, w'. split; [done|]. split_and!; try done.
  intros E. by apply Hc.
Qed.

(** The bookkeeping of references in a completion. *)
Definition account (wc_status : Z) (w : send_wr) : send_wr :=
  let w := if negb (wc_status =? IB_WC_SUCCESS) && (w_status w =? IB_WC_SUCCESS)
           then set_refcount (w_refcount w - b2z (0 <? w_timeout w)) (set_status wc_status w)
           else w in
  set_refcount (w_refcount w - 1) w.

Lemma account_spec k B st w n :
  wr_ok k B w -> w_refcount w = n + b2z (waiting w) ->
  wr_ok k B (account st w) /\ w_refcount (account st w) = n - 1 + b2z (waiting (account st w)) /\
  w_timeout (account st w) = w_timeout w.
Proof.
  intros Hok Hr. unfold account.
  destruct (Z.eqb_spec st IB_WC_SUCCESS) as [|Hst]; cbn [negb andb].
  { split_and!; [by apply wr_ok_refcount| |done]. change (waiting (set_refcount _ w)) with (waiting w). cbn. lia. }
  destruct (Z.eqb_spec (w_status w) IB_WC_SUCCESS) as [Es|Es].
  - destruct (wr_ok_status k B st w Hst Hok) as [Hok' Hw']. split_and!; [by apply wr_ok_refcount, wr_ok_refcount| |done].
    change (waiting (set_refcount _ (set_refcount _ (set_status st w)))) with (waiting (set_status st w)).
    rewrite Hw'. assert (waiting w = (0 <? w_timeout w)) as Ew
      by (unfold waiting; by rewrite (proj2 (Z.eqb_eq _ _) Es)).
    cbn [set_refcount set_status wr_upd w_refcount]. rewrite <- Ew. cbn [b2z]. lia.
  - split_and!; [by apply wr_ok_refcount| |done]. change (waiting (set_refcount _ w)) with (waiting w). cbn. lia.
Qed.

(** ** Completions *)

(** Taking a pending completion. *)
Lemma pend_take g i id b st :
  g_pend g !! i = Some (id, b, st) ->
  let g0 := set_pend (delete i (g_pend g)) g in
  only id g g0 /\
  exists ph pd, let v := view_of g id in
    view_of g0 id = mkview (v_wr v) (v_s v) (v_w v) (v_d v) (v_h v) ph pd (v_c v) (v_r v) (v_x v) /\
    v_ph v = (b2n b + ph)%nat /\ v_pd v = (b2n (negb b) + pd)%nat.
Proof.
  intros Hi. cbv zeta.
  assert (map fst (delete i (g_pend g)) = delete i (map fst (g_pend g))) as Ed
    by apply (list_fmap_delete fst).
  assert (map fst (g_pend g) !! i = Some (id, b)) as Hm
    by (change (map fst (g_pend g)) with (fst <$> g_pend g); by rewrite list_lookup_fmap, Hi).
  split.
  - constructor; try done. intros id' Hne. unfold view_of. cbn [set_pend g_wrs g_send g_wait g_done g_hw
      g_pend g_calls g_rcalls g_failed g_next]. rewrite Ed.
    rewrite (cnt_delete (id', true) _ _ _ Hm), (cnt_delete (id', false) _ _ _ Hm).
    rewrite !decide_False by congruence. done.
  - exists (cnt (id, true) (delete i (map fst (g_pend g)))), (cnt (id, false) (delete i (map fst (g_pend g)))).
    cbv zeta. unfold view_of. cbn [set_pend g_wrs g_send g_wait g_done g_hw g_pend g_calls g_rcalls g_failed g_next
      v_wr v_s v_w v_d v_h v_ph v_pd v_c v_r v_x]. rewrite Ed. split_and!; [done| |];
      rewrite (cnt_delete _ _ _ _ Hm); destruct b; by repeat case_decide.
Qed.

Lemma live_of base T B N g id :
  agent_inv base T B N g -> (0 < v_s (view_of g id) + v_w (view_of g id) + v_d (view_of g id) + holders (view_of g id))%nat ->
  exists w, g_wrs g !! id = Some w /\ posted g id = true /\
    live_inv (g_kernel_rmpp g) B w (view_of g id).
Proof.
  intros Hi Hp. pose proof (ai_pt _ _ _ _ _ Hi id) as H. unfold pt_inv in H.
  change (v_wr (view_of g id)) with (g_wrs g !! id) in H.
  destruct (g_wrs g !! id) as [w|]; [exists w; split; [done|by apply H]|]. unfold holders in Hp. destruct H as [H _]. lia.
Qed.

(** The end of a completion: the send waits, stays, or is reported. *)
Definition settle (id : nat) (wc_status : Z) (w : send_wr) (g : mad_agent) : option mad_agent :=
  let g := put_wr id w g in
  if 0 <? w_refcount w then
    if (w_refcount w =? 1) && truthy (w_timeout w) && (w_status w =? IB_WC_SUCCESS)
    then wait_for_response id g else Some g
  else
    let st := if negb (w_status w =? IB_WC_SUCCESS) then w_status w else wc_status in
    Some (notify id st (unlink id g)).

(** A send that is on the send or done list, with references that are accounted
    for, but perhaps nobody left to complete it. *)
Record loose (k : bool) (B : Z) (w : send_wr) (v : view) : Prop := {
  lo_place : (v_s v + v_d v = 1)%nat /\ v_w v = 0%nat;
  lo_hw : (v_h v + v_ph v <= 1)%nat;
  lo_once : (v_c v + v_x v = 0)%nat /\ (v_r v <= 1)%nat /\ (v_pd v <= 1)%nat;
  lo_ref : w_refcount w = Z.of_nat (holders v) + b2z (waiting w);
  lo_stopped : (0 < v_d v + v_pd v + v_r v)%nat -> w_timeout w = 0;
  lo_ok : wr_ok k B w
}.

Lemma view_put id w g :
  view_of (put_wr id w g) id =
  let v := view_of g id in
  mkview (Some w) (v_s v) (v_w v) (v_d v) (v_h v) (v_ph v) (v_pd v) (v_c v) (v_r v) (v_x v).
Proof. unfold view_of. cbn. by rewrite lookup_insert_eq. Qed.

Lemma view_notify id st g :
  view_of (notify id st (unlink id g)) id =
  let v := view_of g id in mkview None 0 0 0 (v_h v) (v_ph v) (v_pd v) (v_c v + 1) (v_r v) (v_x v).
Proof. view_simpl. by rewrite lookup_delete_eq, !decide_same. Qed.

Lemma u64_sum a b : 0 < a -> 0 < b -> a + b < 2 ^ 63 -> u64 (a + b) = a + b.
Proof. intros. apply u64_id. lia. Qed.

Lemma settle_spec T k B id st w w0 g :
  g_wrs g !! id = Some w0 -> loose k B w (view_of g id) -> 0 < g_now g <= T -> B + T < 2 ^ 63 ->
  exists g', settle id st w g = Some g' /\ only id g g' /\ pt_inv k (B + T) true (view_of g' id).
Proof.
  intros E0 [[Hp Hw0] Hh (Hc & Hr & Hpd) Href Hst Hok] Hn Hb. unfold settle.
  assert (wr_ok k (B + T) w) as Hok' by (eapply wr_ok_mono; [|done]; lia).
  assert (0 <= w_timeout w <= B) as Ht by apply Hok.
  destruct (Z.ltb_spec 0 (w_refcount w)) as [Hpos|Hz].
  2: { eexists. split; [done|]. split.
       - eapply only_trans; [by eapply only_put|]. eapply only_trans; [apply only_unlink|].
         eapply only_notify. cbn [unlink set_lists put_wr set_wrs g_wrs]. apply lookup_insert_eq.
       - rewrite view_notify, view_put. cbv zeta. unfold pt_inv. cbn [v_wr v_s v_w v_d v_h v_ph v_pd v_c v_r v_x b2n].
         unfold holders in Href. destruct (waiting w); cbn [b2z] in Href; lia. }
  destruct ((w_refcount w =? 1) && truthy (w_timeout w) && (w_status w =? IB_WC_SUCCESS)) eqn:Ewt.
  - unfold truthy in Ewt. bool_to_prop.
    assert (waiting w = true) as Hw by (apply waiting_spec; split; [done|lia]).
    rewrite Hw in Href. cbn [b2z] in Href. unfold holders in Href.
    destruct (wait_spec id w (put_wr id w g)) as (g' & -> & Hon & Ev); [apply lookup_insert_eq|].
    exists g'. split; [done|]. split; [eapply only_trans; [by eapply only_put|done]|].
    rewrite Ev, view_put. cbv zeta. cbn [v_h v_ph v_pd v_c v_r v_x]. unfold pt_inv. cbn [v_wr]. split; [done|].
    change (g_now (put_wr id w g)) with (g_now g). rewrite u64_sum by lia.
    destruct (wr_ok_timeout k (B + T) (w_timeout w + g_now g) w) as [Hok2 Hw2]; [lia|done|done|].
    constructor; unfold holders; cbn [v_s v_w v_d v_h v_ph v_pd v_c v_r v_x]; try done; try lia.
    + rewrite Hw2. cbn [b2z set_timeout wr_upd w_refcount]. lia.
    + intros _. split; [lia|]. intros _. cbn. lia.
  - eexists. split; [done|]. split; [by eapply only_put|]. rewrite view_put. cbv zeta.
    unfold pt_inv. cbn [v_wr]. split; [done|]. constructor; unfold holders in *; cbn [v_s v_w v_d v_h v_ph v_pd v_c v_r v_x]; try done; try lia.
    intros _. destruct (decide (v_h (view_of g id) + v_ph (view_of g id) + v_pd (view_of g id) = 0)%nat) as [E|]; [|lia].
    exfalso. rewrite E in Href. destruct (waiting w) eqn:Hw; cbn [b2z] in Href; [|lia].
    apply waiting_spec in Hw as [Es Hp']. rewrite Href, (proj2 (Z.eqb_eq _ _) Es) in Ewt.
    unfold truthy in Ewt. rewrite (proj2 (Z.eqb_neq (w_timeout w) 0)) in Ewt by lia. done.
Qed.

Lemma complete_inv base T B N g i id b st env :
  agent_inv base T B N g -> g_pend g !! i = Some (id, b, st) -> env_ok T env ->
  0 <= T <= B -> B + T < 2 ^ 63 ->
  exists g', ib_mad_complete_send_wr env id st (set_pend (delete i (g_pend g)) g) = Some g' /\
    agent_inv base T (B + T) N g' /\ g_rmpp g' = g_rmpp g.
Proof.
  intros Hi Hp He HT Hb.
  assert (agent_inv base T (B + T) N g) as Hi'
    by (destruct Hi; constructor; try done; intros x; eapply pt_mono; [|done]; lia).
  destruct (pend_take g i id b st Hp) as [Hon (ph & pd & Ev & Eph & Epd)].
  set (g0 := set_pend _ g) in *. set (v := view_of g id) in *.
  destruct (live_of base T B N g id Hi) as (w & Ew & Hpo & Hl).
  { unfold holders. fold v. destruct b; cbn [b2n negb] in Eph, Epd; lia. }
  fold v in Hl. destruct Hl as [Hpl Hhw (Hc & Hr & Hpd) Href Hwa Hbu Hst Hok].
  unfold holders in Href, Hwa, Hbu.
  assert (v_w v = 0%nat) as Hw0.
  { assert (v_w v <= 1)%nat by lia. destruct (decide (v_w v = 1%nat)) as [E|]; [|lia].
    destruct (Hwa E) as [Hz _]. destruct b; cbn [b2n negb] in Eph, Epd; lia. }
  assert (g_wrs g0 !! id = Some w) as Ew0 by done.
  unfold ib_mad_complete_send_wr. rewrite Ew0. cbn [mbind option_bind].
  change (g_kernel_rmpp g0) with (g_kernel_rmpp g).
  destruct (completion_rmpp T B (g_kernel_rmpp g) env st w He ltac:(lia) Hok)
    as (ret & st' & w1 & -> & Hok1 & Er1 & Es1 & Et1 & Ew1 & Hcon).
  cbn [mbind option_bind]. destruct (Z.eqb_spec ret IB_RMPP_RESULT_CONSUMED) as [Ec|Ec].
  - (* the next segment goes out in place of the completed one *)
    apply waiting_spec in Hcon as [_ Hcon]; [|done]. eexists. split; [done|]. split; [|done].
    eapply only_inv; [exact Hi'| |].
    { eapply only_trans; [exact Hon|]. eapply only_trans; [by eapply only_put|apply only_post_hw]. }
    destruct b; cbn [b2n negb] in Eph, Epd; [|specialize (Hst ltac:(lia)); lia].
    rewrite view_post, view_put, Ev. cbv zeta. unfold pt_inv. cbn [v_wr]. split; [done|].
    constructor; unfold holders; cbn [v_s v_w v_d v_h v_ph v_pd v_c v_r v_x]; try done; try lia.
    + rewrite Ew1. lia.
    + eapply wr_ok_mono; [|exact Hok1]. lia.
  - destruct (account_spec (g_kernel_rmpp g) B st' w1 (Z.of_nat (v_h v + v_ph v + v_pd v)) Hok1)
      as (Hok2 & Hr2 & Et2); [by rewrite Er1, Ew1|].
    change (exists g', settle id st' (account st' w1) g0 = Some g' /\ agent_inv base T (B + T) N g' /\
      g_rmpp g' = g_rmpp g).
    destruct (settle_spec T (g_kernel_rmpp g) B id st' (account st' w1) w g0 Ew0) as (g' & -> & Hon' & Hpt).
    + rewrite Ev. constructor; unfold holders; cbn [v_s v_w v_d v_h v_ph v_pd v_c v_r v_x]; try done;
        rewrite ?Hr2, ?Et2; try (intros Hx; apply Et1, Hst); destruct b; cbn [b2n negb] in Eph, Epd; lia.
    + apply Hi.
    + done.
    + exists g'. split; [done|]. split; [|apply Hon'].
      eapply only_inv; [exact Hi'|by eapply only_trans|]. by rewrite Hpo.
Qed.

(** ** Steps on one send *)

Lemma inv_mono base T B B' N g : B <= B' -> agent_inv base T B N g -> agent_inv base T B' N g.
Proof. intros HB []. constructor; try done. intros x. by eapply pt_mono. Qed.

(** A step on a live send. *)
Lemma live_step base T B B' N id g g' w' :
  agent_inv base T B N g -> B <= B' -> posted g id = true -> only id g g' ->
  v_wr (view_of g' id) = Some w' -> live_inv (g_kernel_rmpp g) B' w' (view_of g' id) ->
  agent_inv base T B' N g'.
Proof.
  intros Hi HB Hp Hon Ew Hl. eapply only_inv; [by eapply inv_mono|done|].
  rewrite Hp. unfold pt_inv. by rewrite Ew.
Qed.

(** The device completes a work request. *)
Lemma sent_inv base T B N g i id st :
  agent_inv base T B N g -> g_hw g !! i = Some id ->
  agent_inv base T B N (set_pend (g_pend g ++ [(id, true, st)]) (set_hw (delete i (g_hw g)) g)).
Proof.
  intros Hi Hh. pose proof (cnt_delete id _ _ _ Hh) as Hc. rewrite decide_same in Hc.
  destruct (live_of base T B N g id Hi) as (w & Ew & Hpo & []); [unfold holders; cbn; lia|].
  set (g' := set_pend _ _).
  assert (view_of g' id = let v := view_of g id in
    mkview (Some w) (v_s v) (v_w v) (v_d v) (cnt id (delete i (g_hw g))) (v_ph v + 1) (v_pd v)
      (v_c v) (v_r v) (v_x v)) as Ev.
  { unfold g'. view_simpl. cbn [set_hw g_wrs g_send g_wait g_done g_hw g_pend g_calls g_rcalls].
    rewrite Ew, decide_True, decide_False by congruence. by rewrite Nat.add_0_r. }
  assert (v_h (view_of g id) = S (cnt id (delete i (g_hw g)))) as Eh by exact Hc.
  eapply (live_step _ _ _ B _ id g g' w); [done|lia|done| |by rewrite Ev|].
  - constructor; try done. intros id' Hne. unfold g'. view_simpl.
    cbn [set_hw g_wrs g_send g_wait g_done g_hw g_pend g_calls g_rcalls].
    rewrite (cnt_delete id' _ _ _ Hh). rewrite !decide_False by congruence. by rewrite !Nat.add_0_r.
  - rewrite Ev. unfold holders in *.
    constructor; unfold holders; cbn [v_s v_w v_d v_h v_ph v_pd v_c v_r v_x]; try done; try lia.
Qed.

Lemma view_pend_done id st g :
  view_of (set_pend (g_pend g ++ [(id, false, st)]) g) id =
  let v := view_of g id in
  mkview (v_wr v) (v_s v) (v_w v) (v_d v) (v_h v) (v_ph v) (v_pd v + 1) (v_c v) (v_r v) (v_x v).
Proof. view_simpl. by rewrite decide_False, decide_True, Nat.add_0_r by congruence. Qed.

Lemma view_rcalls id g :
  view_of (set_rcalls (g_rcalls g ++ [Some id]) g) id =
  let v := view_of g id in
  mkview (v_wr v) (v_s v) (v_w v) (v_d v) (v_h v) (v_ph v) (v_pd v) (v_c v) (v_r v + 1) (v_x v).
Proof. view_simpl. by rewrite decide_True. Qed.

Lemma mark_done_spec id w g :
  g_wrs g !! id = Some w ->
  exists g', ib_mark_mad_done id g = Some g' /\ only id g g' /\
    view_of g' id =
      let v := view_of g id in
      if w_refcount w =? 1
      then mkview (Some (set_timeout 0 w)) 0 0 1 (v_h v) (v_ph v) (v_pd v) (v_c v) (v_r v) (v_x v)
      else mkview (Some (set_timeout 0 w)) (v_s v) (v_w v) (v_d v) (v_h v) (v_ph v) (v_pd v)
             (v_c v) (v_r v) (v_x v).
Proof.
  intros E. unfold ib_mark_mad_done. rewrite E. cbn [mbind option_bind]. eexists. split; [done|].
  destruct (w_refcount w =? 1).
  - split.
    + eapply only_trans; [by eapply only_put|]. eapply only_trans; [apply only_unlink|apply only_link_done].
    + view_simpl. by rewrite lookup_insert_eq, !decide_same.
  - split; [by eapply only_put|apply view_put].
Qed.

(** A waiting send is answered: it is marked done, and its completion is pending.
    [w] is the send after an RMPP handler, [w0] before. *)
Lemma answered_live k B w0 w v r :
  live_inv k B w0 v -> waiting w0 = true -> w_refcount w = w_refcount w0 -> w_status w = w_status w0 ->
  wr_ok k B (set_timeout 0 w) -> (r <= 1)%nat ->
  live_inv k B (set_timeout 0 w)
    (if w_refcount w =? 1
     then mkview (Some (set_timeout 0 w)) 0 0 1 (v_h v) (v_ph v) (v_pd v + 1) (v_c v) (v_r v + r) (v_x v)
     else mkview (Some (set_timeout 0 w)) (v_s v) (v_w v) (v_d v) (v_h v) (v_ph v) (v_pd v + 1)
            (v_c v) (v_r v + r) (v_x v)).
Proof.
  intros [Hp Hh (Hc & Hr & Hpd) Href Hwa Hbu Hst _] Hw Er Es Hok Hr1.
  pose proof (proj1 (waiting_spec w0) Hw) as [_ Htp]. unfold holders in *.
  assert (v_d v + v_pd v + v_r v = 0)%nat as Hz by (destruct (decide (0 < v_d v + v_pd v + v_r v)%nat) as [Hx|]; [specialize (Hst Hx)|]; lia).
  rewrite Hw in Href. cbn [b2z] in Href.
  assert (waiting (set_timeout 0 w) = false) as Hw0 by (unfold waiting; apply andb_false_r).
  destruct (Z.eqb_spec (w_refcount w) 1) as [E|E];
    constructor; unfold holders; cbn [v_s v_w v_d v_h v_ph v_pd v_c v_r v_x]; try done; try lia;
    rewrite ?Hw0; cbn [b2z set_timeout wr_upd w_refcount]; try lia.
Qed.

(** ** Received MADs *)

Lemma find_send_spec test wrs l id w :
  find_send test wrs l = Some (id, w) -> id ∈ l /\ wrs !! id = Some w /\ test id w = true.
Proof.
  induction l as [|x l IH]; [done|]. cbn [find_send]. destruct (wrs !! x) as [w'|] eqn:E; [|done].
  destruct (test x w') eqn:Et.
  - intros [= -> ->]. split; [by left|done].
  - intros H. destruct (IH H) as (? & ? & ?). split; [by right|done].
Qed.

(** A send that is found is live and waits for its response. *)
Lemma find_mad_spec base T B N q m g id w :
  agent_inv base T B N g -> ib_find_send_mad q m g = Some (id, w) ->
  g_wrs g !! id = Some w /\ posted g id = true /\ waiting w = true /\
  live_inv (g_kernel_rmpp g) B w (view_of g id).
Proof.
  intros Hi Hf. unfold ib_find_send_mad in Hf.
  assert (forall l x, find_send (send_matches q m) (g_wrs g) l = Some x -> True) as _ by done.
  destruct (find_send (send_matches q m) (g_wrs g) (g_wait g)) as [[id' w']|] eqn:E1.
  - cbn [snd] in Hf. destruct (Z.eqb_spec (w_status w') IB_WC_SUCCESS) as [Es|]; [|done]. injection Hf as -> ->.
    apply find_send_spec in E1 as (Hin & Ew & _). apply cnt_elem in Hin.
    destruct (live_of base T B N g id Hi) as (w0 & Ew0 & Hpo & Hl); [cbn; lia|].
    rewrite Ew in Ew0. injection Ew0 as <-. split_and!; [done|done| |done].
    apply waiting_spec. split; [done|]. apply (lv_wait _ _ _ _ Hl); [|done].
    pose proof (lv_place _ _ _ _ Hl). cbn in *. lia.
  - destruct (find_send _ (g_wrs g) (g_send g)) as [[id' w']|] eqn:E2; [|done].
    cbn [mbind option_bind snd] in Hf.
    destruct (Z.eqb_spec (w_status w') IB_WC_SUCCESS) as [Es|]; [|done]. injection Hf as -> ->.
    apply find_send_spec in E2 as (Hin & Ew & Ht). apply cnt_elem in Hin.
    destruct (live_of base T B N g id Hi) as (w0 & Ew0 & Hpo & Hl); [cbn; lia|].
    rewrite Ew in Ew0. injection Ew0 as <-. split_and!; [done|done| |done].
    apply waiting_spec. split; [done|]. unfold truthy in Ht. bool_to_prop.
    destruct (lv_ok _ _ _ _ Hl) as (? & _). lia.
Qed.

(** A live send that keeps waiting, where it is. *)
Lemma live_again k B B' w w' v :
  live_inv k B w v -> waiting w = true -> w_refcount w' = w_refcount w -> waiting w' = true ->
  wr_ok k B' w' ->
  live_inv k B' w' (mkview (Some w') (v_s v) (v_w v) (v_d v) (v_h v) (v_ph v) (v_pd v) (v_c v) (v_r v) (v_x v)).
Proof.
  intros [Hp Hh (Hc & Hr & Hpd) Href Hwa Hbu Hst _] Hw Er Hw' Hok. rewrite Hw in Href. unfold holders in *.
  apply waiting_spec in Hw as [_ Htp].
  constructor; unfold holders; cbn [v_s v_w v_d v_h v_ph v_pd v_c v_r v_x]; try done; try lia.
  - by rewrite Hw', Er.
  - intros E. destruct (Hwa E) as [? _]. split; [done|]. intros _. by apply waiting_spec in Hw' as [_ ?].
Qed.

(** A send nobody else holds goes (back) to the wait list. *)
Lemma live_waits k B w w' v :
  live_inv k B w v -> waiting w = true -> w_refcount w = 1 -> w_refcount w' = 1 -> waiting w' = true ->
  wr_ok k B w' ->
  live_inv k B w' (mkview (Some w') 0 1 0 (v_h v) (v_ph v) (v_pd v) (v_c v) (v_r v) (v_x v)).
Proof.
  intros [Hp Hh (Hc & Hr & Hpd) Href Hwa Hbu Hst _] Hw Er Er' Hw' Hok. rewrite Hw in Href. unfold holders in *.
  apply waiting_spec in Hw as [_ Htp]. cbn [b2z] in Href.
  constructor; unfold holders; cbn [v_s v_w v_d v_h v_ph v_pd v_c v_r v_x]; try done; try lia.
  - rewrite Hw'. cbn [b2z]. lia.
  - intros _. split; [lia|]. intros _. by apply waiting_spec in Hw' as [_ ?].
Qed.

(** A send nobody else holds is posted again. *)
Lemma live_requeued k B w w' v :
  live_inv k B w v -> waiting w = true -> w_refcount w = 1 -> w_refcount w' = 2 -> waiting w' = true ->
  wr_ok k B w' ->
  live_inv k B w' (mkview (Some w') 1 0 0 (v_h v + 1) (v_ph v) (v_pd v) (v_c v) (v_r v) (v_x v)).
Proof.
  intros [Hp Hh (Hc & Hr & Hpd) Href Hwa Hbu Hst _] Hw Er Er' Hw' Hok. rewrite Hw in Href. unfold holders in *.
  apply waiting_spec in Hw as [_ Htp]. cbn [b2z] in Href.
  constructor; unfold holders; cbn [v_s v_w v_d v_h v_ph v_pd v_c v_r v_x]; try done; try lia.
  rewrite Hw'. cbn [b2z]. lia.
Qed.

Lemma live_mono k B B' w v : B <= B' -> live_inv k B w v -> live_inv k B' w v.
Proof. intros HB []. constructor; try done. by eapply wr_ok_mono. Qed.

Lemma view_requeued id w g :
  view_of (post_hw id (link_send id (unlink id (put_wr id w g)))) id =
  let v := view_of g id in mkview (Some w) 1 0 0 (v_h v + 1) (v_ph v) (v_pd v) (v_c v) (v_r v) (v_x v).
Proof. view_simpl. by rewrite lookup_insert_eq, !decide_same. Qed.

Lemma only_requeued id w0 w g :
  g_wrs g !! id = Some w0 -> only id g (post_hw id (link_send id (unlink id (put_wr id w g)))).
Proof.
  intros E. eapply only_trans; [by eapply only_put|]. eapply only_trans; [apply only_unlink|].
  eapply only_trans; [apply only_link_send|apply only_post_hw].
Qed.

(** A running timer made absolute. *)
Lemma absolute_timer T B k w now :
  wr_ok k B w -> waiting w = true -> 0 < now <= T -> B + T < 2 ^ 63 ->
  wr_ok k (B + T) (set_timeout (u64 (w_timeout w + now)) w) /\
  waiting (set_timeout (u64 (w_timeout w + now)) w) = true.
Proof.
  intros Hok Hw Hn Hb. pose proof (proj1 (waiting_spec w) Hw) as [_ Htp].
  assert (0 <= w_timeout w <= B) as Ht by apply Hok. rewrite u64_sum by lia.
  apply wr_ok_timeout; [lia|done|]. eapply wr_ok_mono; [|done]. lia.
Qed.

(** What an RMPP answer leaves of the send, on the lists. *)
Lemma action_inv base T B N g id w act w' :
  agent_inv base T B N g -> g_kernel_rmpp g = true -> g_wrs g !! id = Some w -> posted g id = true ->
  waiting w = true -> live_inv true B w (view_of g id) -> act_ok B w act w' ->
  0 <= T <= B -> B + T < 2 ^ 63 ->
  exists g', apply_action act id (put_wr id w' g) = Some g' /\ agent_inv base T (B + T) N g' /\
    g_rmpp g' = g_rmpp g /\ g_kernel_rmpp g' = true.
Proof.
  intros Hi Hk Ew Hpo Hw Hl (Hok & Es & Hact) HT Hb.
  assert (only id g (put_wr id w' g)) as Hon by (by eapply only_put).
  apply (live_mono _ _ (B + T)) in Hl; [|lia].
  assert (wr_ok true (B + T) w') as Hok' by (eapply wr_ok_mono; [|done]; lia).
  assert (forall g' w2, only id g g' -> v_wr (view_of g' id) = Some w2 ->
    live_inv true (B + T) w2 (view_of g' id) ->
    agent_inv base T (B + T) N g' /\ g_rmpp g' = g_rmpp g /\ g_kernel_rmpp g' = true) as Hend.
  { intros g' w2 Ho Hv Hlv. split; [|by destruct Ho; split; congruence].
    eapply live_step; [done|lia|done|done|done|by rewrite Hk]. }
  destruct act as [|st vendor| |]; cbn [apply_action].
  - destruct Hact as [Er Hw']. eexists. split; [done|]. eapply (Hend _ w'); [done|by rewrite view_put|].
    rewrite view_put. by eapply live_again.
  - destruct Hact as [Er Et]. assert (set_timeout 0 w' = w') as Eta by (destruct w'; cbn in *; by subst).
    destruct (mark_done_spec id w' (put_wr id w' g)) as (g1 & -> & Hon1 & Ev1); [apply lookup_insert_eq|].
    cbn [mbind option_bind]. eexists. split; [done|].
    eapply (Hend _ (set_timeout 0 w'));
      [eapply only_trans; [done|]; eapply only_trans; [done|apply only_pend]| |].
    + rewrite view_pend_done, Ev1. cbv zeta. by destruct (_ =? 1).
    + rewrite view_pend_done, Ev1, view_put. cbv zeta.
      pose proof (answered_live true (B + T) w w' (view_of g id) 0) as Ha. rewrite Nat.add_0_r in Ha.
      destruct (w_refcount w' =? 1); apply Ha; try done; try lia; by rewrite Eta.
  - destruct Hact as (Er & Er' & Hw').
    destruct (wait_spec id w' (put_wr id w' g)) as (g1 & -> & Hon1 & Ev1); [apply lookup_insert_eq|].
    destruct (absolute_timer T B true w' (g_now g) Hok Hw') as [Hok2 Hw2]; [apply Hi|done|].
    eexists. split; [done|]. eapply Hend; [by eapply only_trans|by rewrite Ev1|]. rewrite Ev1, view_put.
    cbv zeta. cbn [v_h v_ph v_pd v_c v_r v_x]. by apply (live_waits _ _ w).
  - destruct Hact as (Er & Er' & Hw'). eexists. split; [done|].
    eapply (Hend _ w'); [by eapply only_requeued|by rewrite view_requeued|].
    rewrite view_requeued. by eapply live_requeued.
Qed.

Lemma rmpp_inv base T B N N' a g :
  agent_inv base T B N g -> Forall (recv_ok a N') (a_recvs a) -> agent_inv base T B N' (set_rmpp a g).
Proof. by intros [] ?. Qed.

(** The RMPP layer on a received MAD. *)
Lemma process_inv base T B N g senv renv q m :
  agent_inv base T B N g -> g_kernel_rmpp g = true -> N + 2 * window_size (g_rmpp g) + 2 < 2 ^ 31 ->
  0 <= N -> env_ok T senv -> 0 <= T <= B -> B + T < 2 ^ 63 ->
  exists r g', process_rmpp senv renv q m g = Some (r, g') /\ agent_inv base T (B + T) (N + 1) g' /\
    same_config (g_rmpp g) (g_rmpp g') /\ g_kernel_rmpp g' = true.
Proof.
  intros Hi Hk HW HN He HT Hb. unfold process_rmpp.
  destruct (ib_find_send_mad q m g) as [[id w]|] eqn:Ef; cbn [fmap option_fmap option_map snd].
  - destruct (find_mad_spec base T B N q m g id w Hi Ef) as (Ew & Hpo & Hw & Hl).
    rewrite Hk in Hl. pose proof (lv_ok _ _ _ _ Hl) as Hok.
    destruct (recv_wc_spec T B N senv renv m (Some w) (g_rmpp g) He ltac:(lia) (conj Hok Hw))
      as (res & act & ev & f & a & -> & Hf & Hc & Hr & Hm); [split; [apply Hi|done]|done|].
    cbn [mbind option_bind]. destruct f as [w'|]; [|done].
    destruct (action_inv base T B (N + 1) (set_rmpp a g) id w act w') as (g' & -> & Hi' & Er & Ek);
      try done; [by eapply rmpp_inv|]. cbn [mbind option_bind].
    destruct res as [m'|[[|x l] n]|]; [|done| |]; eexists _, g'; (split; [done|]); by rewrite Er.
  - destruct (recv_wc_spec T B N senv renv m None (g_rmpp g) He ltac:(lia) I)
      as (res & act & ev & f & a & -> & Hf & Hc & Hr & Hm); [split; [apply Hi|done]|done|].
    cbn [mbind option_bind]. assert (agent_inv base T (B + T) (N + 1) (set_rmpp a g)) as Hi'.
    { eapply inv_mono; [|by eapply rmpp_inv]. lia. }
    destruct res as [m'|[[|x l] n]|]; [|done| |]; by eexists _, _.
Qed.

(** A MAD that is no response is handed to the client. *)
Lemma unsolicited_inv base T B N g :
  agent_inv base T B N g -> agent_inv base T B N (set_rcalls (g_rcalls g ++ [None]) g).
Proof.
  intros []. constructor; try done. intros id. specialize (ai_pt0 id). unfold view_of in *.
  cbn [set_rcalls g_wrs g_send g_wait g_done g_hw g_pend g_calls g_rcalls g_failed].
  by rewrite cnt_app, cnt_one, decide_False, Nat.add_0_r by done.
Qed.

(** A response completes the request it was found for. *)
Lemma response_inv base T B N q m g id w :
  agent_inv base T B N g -> 0 <= B -> ib_find_send_mad q m g = Some (id, w) ->
  exists g1, ib_mark_mad_done id g = Some g1 /\ g_rmpp g1 = g_rmpp g /\
    agent_inv base T B N (set_pend (g_pend g1 ++ [(id, false, IB_WC_SUCCESS)])
                            (set_rcalls (g_rcalls g1 ++ [Some id]) g1)).
Proof.
  intros Hi HB Hf. destruct (find_mad_spec base T B N q m g id w Hi Hf) as (Ew & Hpo & Hw & Hl).
  destruct (mark_done_spec id w g Ew) as (g1 & -> & Hon & Ev). exists g1. split; [done|].
  split; [apply Hon|]. set (g2 := set_rcalls _ g1).
  change (g_pend g1) with (g_pend g2).
  eapply (live_step _ _ B _ _ id g _ (set_timeout 0 w)); [done|lia|done| | |].
  - eapply only_trans; [done|]. eapply only_trans; [apply only_rcalls|apply only_pend].
  - rewrite view_pend_done. unfold g2. rewrite view_rcalls, Ev. cbv zeta. by destruct (_ =? 1).
  - rewrite view_pend_done. unfold g2. rewrite view_rcalls, Ev. cbv zeta.
    pose proof (answered_live _ B w w (view_of g id) 1 Hl Hw eq_refl eq_refl) as Ha.
    destruct (w_refcount w =? 1); apply Ha; try lia; by apply wr_ok_stopped, Hl.
Qed.

Lemma received_inv base T B N g senv renv q m :
  agent_inv base T B N g -> N + 2 * window_size (g_rmpp g) + 2 < 2 ^ 31 -> 0 <= N ->
  env_ok T senv -> 0 <= T <= B -> B + T < 2 ^ 63 ->
  exists g', ib_mad_complete_recv senv renv q m g = Some g' /\ agent_inv base T (B + T) (N + 1) g' /\
    window_size (g_rmpp g') = window_size (g_rmpp g).
Proof.
  intros Hi HW HN He HT Hb. unfold ib_mad_complete_recv.
  assert (exists r g1, (if g_kernel_rmpp g then process_rmpp senv renv q m g else Some (Some m, g)) = Some (r, g1) /\
    agent_inv base T (B + T) (N + 1) g1 /\ same_config (g_rmpp g) (g_rmpp g1)) as (r & g1 & -> & Hi1 & Hc).
  { destruct (g_kernel_rmpp g) eqn:Hk.
    - destruct (process_inv base T B N g senv renv q m) as (r & g1 & ? & ? & ? & ?); try done. by eexists _, g1.
    - eexists _, g. split; [done|]. split; [|done]. destruct Hi. eapply (inv_mono _ _ B); [lia|].
      constructor; try done. by apply recvs_mono. }
  cbn [mbind option_bind]. apply window_config in Hc. rewrite <- Hc.
  destruct r as [m'|]; [|by exists g1].
  destruct (ib_response_mad (hdr_of m')); [|eexists; split; [done|]; split; [by apply unsolicited_inv|done]].
  destruct (ib_find_send_mad q m' g1) as [[id w]|] eqn:Ef.
  - destruct (response_inv _ _ _ _ q m' g1 id w Hi1 ltac:(lia) Ef) as (g2 & -> & Er & Hi2).
    cbn [mbind option_bind]. eexists. split; [done|]. split; [exact Hi2|]. cbn. by rewrite Er.
  - destruct (_ && _); eexists; (split; [done|]); split; [by apply unsolicited_inv|done|done|done].
Qed.

(** ** Timeouts *)

(** A send on the wait list: only the response is missing. *)
Lemma on_wait_list base T B N g id :
  agent_inv base T B N g -> id ∈ g_wait g ->
  exists w, g_wrs g !! id = Some w /\ posted g id = true /\
    live_inv (g_kernel_rmpp g) B w (view_of g id) /\ v_w (view_of g id) = 1%nat /\
    holders (view_of g id) = 0%nat /\ (w_status w = IB_WC_SUCCESS -> waiting w = true /\ w_refcount w = 1).
Proof.
  intros Hi Hin. apply cnt_elem in Hin. change (cnt id (g_wait g)) with (v_w (view_of g id)) in Hin.
  destruct (live_of base T B N g id Hi) as (w & Ew & Hpo & Hl); [lia|]. exists w.
  pose proof (lv_place _ _ _ _ Hl). assert (v_w (view_of g id) = 1%nat) as E1 by lia.
  destruct (lv_wait _ _ _ _ Hl E1) as [Hh Hs]. split_and!; try done.
  intros Es. assert (waiting w = true) as Hw by (apply waiting_spec; auto).
  split; [done|]. rewrite (lv_ref _ _ _ _ Hl), Hh, Hw. done.
Qed.

(** Reporting a send nobody holds. *)
Lemma report_inv base T B N g id w w' st :
  agent_inv base T B N g -> g_wrs g !! id = Some w -> posted g id = true ->
  live_inv (g_kernel_rmpp g) B w (view_of g id) -> holders (view_of g id) = 0%nat ->
  agent_inv base T B N (notify id st (unlink id (put_wr id w' g))).
Proof.
  intros Hi Ew Hpo [Hp Hh (Hc & Hr & Hpd) _ _ _ _ _] H0. unfold holders in H0.
  eapply only_inv; [exact Hi| |].
  - eapply only_trans; [by eapply only_put|]. eapply only_trans; [apply only_unlink|].
    eapply only_notify. cbn [unlink set_lists put_wr set_wrs g_wrs]. apply lookup_insert_eq.
  - rewrite view_notify, view_put, Hpo. cbv zeta. unfold pt_inv.
    cbn [v_wr v_s v_w v_d v_h v_ph v_pd v_c v_r v_x b2n]. lia.
Qed.

(** No expired send at the head of the wait list. *)
Definition wait_head_ok (g : mad_agent) : Prop :=
  match g_wait g with
  | [] => True
  | id :: _ => exists w, g_wrs g !! id = Some w /\ time_after (w_timeout w) (g_now g) = true
  end.

Lemma timeouts_inv base T B N n envs g :
  agent_inv base T B N g -> (length (g_wait g) <= n)%nat -> (forall i, env_ok T (envs i)) -> T <= B ->
  exists g', timeout_loop n envs g = Some g' /\ agent_inv base T B N g' /\ g_rmpp g' = g_rmpp g /\
    wait_head_ok g'.
Proof.
  intros Hi Hn He HT. revert g Hi Hn. induction n as [|n IH]; intros g Hi Hn; cbn [timeout_loop].
  { destruct (g_wait g) as [|id l] eqn:Ewl; [|cbn in Hn; lia].
    exists g. unfold wait_head_ok. by rewrite Ewl. }
  destruct (g_wait g) as [|id l] eqn:Ewl; [exists g; unfold wait_head_ok; by rewrite Ewl|].
  destruct (on_wait_list base T B N g id Hi) as (w & Ew & Hpo & Hl & Hv1 & Hh & Hs);
    [rewrite Ewl; by left|]. rewrite Ew. cbn [mbind option_bind].
  destruct (time_after _ _) eqn:Eta; [exists g; unfold wait_head_ok; rewrite Ewl; split_and!; [done..|by exists w]|].
  assert (forall g1, g_wait g1 = list_del id (g_wait g) -> (length (g_wait g1) <= n)%nat) as Hlen.
  { intros g1 ->. rewrite Ewl. unfold list_del. rewrite filter_cons_False by tauto.
    etransitivity; [apply length_filter|]. cbn in Hn. lia. }
  assert (forall w' st, exists g', timeout_loop n envs (notify id st (put_wr id w' (unlink id g))) = Some g' /\
    agent_inv base T B N g' /\ g_rmpp g' = g_rmpp g /\ wait_head_ok g') as Hrep.
  { intros w' st. apply (IH (notify id st (unlink id (put_wr id w' g)))); [|by apply Hlen].
    by eapply report_inv. }
  destruct (Z.eqb_spec (w_status w) IB_WC_SUCCESS) as [Es|Es]; [|cbn [mbind option_bind]; apply Hrep].
  destruct (Hs Es) as [Hw Er]. change (g_kernel_rmpp (unlink id g)) with (g_kernel_rmpp g).
  destruct (retry_send_wr T B (g_kernel_rmpp g) (envs n) w (He n) HT (lv_ok _ _ _ _ Hl) Hw)
    as (ret & w' & -> & Es' & Hret). cbn [mbind option_bind].
  destruct (Z.eqb_spec ret 0) as [E0|E0]; [|apply Hrep].
  destruct (Hret E0) as (Hok' & Hw' & Er').
  apply (IH (post_hw id (link_send id (unlink id (put_wr id w' g))))); [|by apply Hlen].
  eapply (live_step _ _ B _ _ id g _ w'); [done|lia|done|by eapply only_requeued|by rewrite view_requeued|].
  rewrite view_requeued. cbv zeta. apply (live_requeued _ _ w); try done. lia.
Qed.

(** ** Modification *)

Lemma find_wr_spec base T B N g id w :
  agent_inv base T B N g -> find_send_wr id g = Some w ->
  g_wrs g !! id = Some w /\ posted g id = true /\ live_inv (g_kernel_rmpp g) B w (view_of g id).
Proof.
  intros Hi Hf. unfold find_send_wr in Hf.
  assert (id ∈ g_wait g \/ id ∈ g_send g) as Hin
    by (repeat case_bool_decide; [by left|by right|done]).
  destruct (live_of base T B N g id Hi) as (w' & Ew & Hpo & Hl).
  { rewrite !cnt_elem in Hin. cbn [view_of v_s v_w v_d]. lia. }
  assert (w = w') as ->; [|done]. rewrite Ew in Hf.
  repeat case_bool_decide; [by injection Hf|cbn [mbind option_bind] in Hf|done].
  destruct (is_rmpp_data_mad _ _); [by injection Hf|done].
Qed.

(** A send whose status has been set to an error. *)
Lemma wr_ok_cancelled k B w t ms rc st :
  wr_ok k B w -> 0 <= t <= B -> 0 <= ms -> t = 0 \/ w_timeout w <> 0 -> st <> IB_WC_SUCCESS ->
  let w' := set_timeout t (set_timeout_ms ms (set_refcount rc (set_status st w))) in
  wr_ok k B w' /\ waiting w' = false.
Proof.
  intros (Ht & Hms & Hk) Hb Hm Hor Hst. cbv zeta. set (w' := set_timeout _ _).
  assert (waiting w' = false) as Hw by (unfold waiting; cbn; by rewrite (proj2 (Z.eqb_neq _ _) Hst)).
  split; [|done]. split; [done|]. split; [done|]. rewrite Hw.
  change (rmpp_active w') with (rmpp_active w). change (rmpp_data w') with (rmpp_data w).
  destruct (k && rmpp_active w); [destruct (rmpp_data w)|].
  - destruct Hk as [[] _]. split; [by constructor|done].
  - cbn. lia.
  - by destruct Hk.
Qed.

(** A waiting send with a new timeout. *)
Lemma wr_ok_modified k B w t ms :
  wr_ok k B w -> waiting w = true -> 0 < t <= B -> 0 < ms ->
  wr_ok k B (set_timeout t (set_timeout_ms ms w)) /\ waiting (set_timeout t (set_timeout_ms ms w)) = true.
Proof.
  intros (Ht & Hms & Hk) Hw Hb Hm. apply waiting_spec in Hw as [Es Htp].
  set (w' := set_timeout _ _).
  assert (waiting w' = true) as Hw' by (apply waiting_spec; cbn; split; [done|lia]).
  split; [|done]. split; [cbn; lia|]. split; [cbn; lia|]. rewrite Hw'.
  change (rmpp_active w') with (rmpp_active w). change (rmpp_data w') with (rmpp_data w).
  destruct (k && rmpp_active w); [destruct (rmpp_data w)|].
  - destruct Hk as [[] _]. split; [by constructor|done].
  - lia.
  - by destruct Hk.
Qed.

(** A send is cancelled where it is; the response is no longer awaited. *)
Lemma live_cancelled k B w w' v :
  live_inv k B w v -> w_status w = IB_WC_SUCCESS -> w_status w' <> IB_WC_SUCCESS -> wr_ok k B w' ->
  w_refcount w' = w_refcount w - b2z (0 <? w_timeout w) -> (w_timeout w = 0 -> w_timeout w' = 0) ->
  live_inv k B w' (mkview (Some w') (v_s v) (v_w v) (v_d v) (v_h v) (v_ph v) (v_pd v) (v_c v) (v_r v) (v_x v)).
Proof.
  intros [Hp Hh Ho Href Hwa Hbu Hst _] Es Es' Hok Er Ht. unfold holders in *.
  assert (waiting w = (0 <? w_timeout w)) as Ew by (unfold waiting; by rewrite (proj2 (Z.eqb_eq _ _) Es)).
  assert (waiting w' = false) as Ew' by (unfold waiting; by rewrite (proj2 (Z.eqb_neq _ _) Es')).
  rewrite Ew in Href.
  constructor; unfold holders; cbn [v_s v_w v_d v_h v_ph v_pd v_c v_r v_x]; try done.
  - rewrite Ew'. cbn [b2z]. lia.
  - intros E. by destruct (Hwa E).
  - intros Hx. by apply Ht, Hst.
Qed.

(** [ib_modify_mad] gives a new timeout to a send that awaits no response: one that
    was posted without a timeout, or that was answered while the device still has
    it. The code accepts it (mad.c, ib_modify_mad has no test for it). *)
Definition rearm (id : nat) (timeout_ms : Z) (g : mad_agent) : bool :=
  match find_send_wr id g with
  | Some w => negb (timeout_ms =? 0) && (w_status w =? IB_WC_SUCCESS) && (w_timeout w =? 0)
  | None => false
  end.

Lemma cancel_one_inv base T B N g env id w :
  agent_inv base T B N g -> g_wrs g !! id = Some w -> posted g id = true ->
  live_inv (g_kernel_rmpp g) B w (view_of g id) -> w_status w = IB_WC_SUCCESS ->
  env_ok T env -> 0 <= T <= B -> B + T < 2 ^ 63 ->
  let w1 := set_timeout_ms 0 (set_refcount (w_refcount w - b2z (0 <? w_timeout w))
              (set_status IB_WC_WR_FLUSH_ERR w)) in
  exists g', (if (w_timeout w =? 0) || (1 <? w_refcount w)
              then Some (0, put_wr id (set_timeout (se_jiffies env 0) w1) g)
              else g ← ib_reset_mad_timeout env id 0 (put_wr id w1 g); Some (0, g)) = Some (0, g') /\
    agent_inv base T (B + T) N g' /\ g_rmpp g' = g_rmpp g.
Proof.
  intros Hi Ew Hpo Hl Es He HT Hb. cbv zeta. set (w1 := set_timeout_ms 0 _). rewrite (eo_zero _ _ He).
  pose proof (lv_ok _ _ _ _ Hl) as Hok. apply (live_mono _ _ (B + T)) in Hl; [|lia].
  assert (wr_ok (g_kernel_rmpp g) (B + T) w) as Hok' by apply Hl.
  assert (only id g (put_wr id w1 g)) as Hon by (by eapply only_put).
  assert (only id g (put_wr id (set_timeout 0 w1) g)) as Hon0 by (by eapply only_put).
  destruct ((w_timeout w =? 0) || (1 <? w_refcount w)) eqn:Ea.
  - eexists. split; [done|]. split; [|done].
    eapply (live_step _ _ B _ _ id g _ (set_timeout 0 w1)); [done|lia|done|done|by rewrite view_put|].
    rewrite view_put. cbv zeta. apply (live_cancelled _ _ w); try done.
    apply wr_ok_cancelled; [done|lia|lia|by left|done].
  - apply orb_false_iff in Ea as [Et Er]. rewrite Z.eqb_neq in Et. rewrite Z.ltb_ge in Er.
    assert (0 < w_timeout w) as Htp by (destruct Hok; lia).
    assert (waiting w = true) as Hw by (by apply waiting_spec).
    unfold ib_reset_mad_timeout. cbn [put_wr set_wrs g_wrs]. rewrite lookup_insert_eq. cbn [mbind option_bind].
    rewrite (eo_zero _ _ He).
    assert (only id g (put_wr id (set_timeout 0 w1) (put_wr id w1 g))) as Hon1
      by (eapply only_trans; [exact Hon|eapply only_put, lookup_insert_eq]).
    destruct (wait_spec id (set_timeout 0 w1) (put_wr id (set_timeout 0 w1) (put_wr id w1 g)))
      as (g2 & Hg2 & Hon2 & Ev2); [apply lookup_insert_eq|].
    change (set_wrs (<[id:=w1]> (g_wrs g)) g) with (put_wr id w1 g). rewrite Hg2. cbn [mbind option_bind].
    exists g2. split; [done|]. split; [|by rewrite (on_rmpp _ _ _ Hon2)].
    pose proof (ai_now _ _ _ _ _ Hi) as Hnow.
    eapply (live_step _ _ B _ _ id g); [done|lia|done|by eapply only_trans|by rewrite Ev2|].
    rewrite Ev2, !view_put. cbv zeta. cbn [v_h v_ph v_pd v_c v_r v_x].
    change (g_now (put_wr _ _ _)) with (g_now g). change (w_timeout (set_timeout 0 w1)) with 0.
    rewrite Z.add_0_l, u64_id by lia.
    destruct (wr_ok_cancelled (g_kernel_rmpp g) (B + T) w (g_now g) 0
      (w_refcount w - b2z (0 <? w_timeout w)) IB_WC_WR_FLUSH_ERR) as [Hok2 Hw2]; [done|lia|lia|right; lia|done|].
    pose proof Hl as [Hp Hh (Hc & Hr & Hpd) Href Hwa Hbu Hst _]. rewrite Hw in Href. unfold holders in *.
    cbn [b2z] in Href. assert (~ (0 < v_d (view_of g id) + v_pd (view_of g id) + v_r (view_of g id))%nat) by (intros Hx; apply Hst in Hx; lia).
    constructor; unfold holders; cbn [v_s v_w v_d v_h v_ph v_pd v_c v_r v_x]; try done; try lia.
    + change (set_timeout (g_now g) (set_timeout 0 w1)) with (set_timeout (g_now g) w1). unfold w1. rewrite Hw2.
      cbn [set_timeout set_timeout_ms set_refcount set_status wr_upd w_refcount].
      rewrite (proj2 (Z.ltb_lt 0 (w_timeout w))) by lia. cbn [b2z]. lia.
    + intros _. split; [lia|done].
Qed.

Lemma modify_inv base T B N g env id ms :
  agent_inv base T B N g -> 0 <= ms -> rearm id ms g = false -> env_ok T env ->
  0 <= T <= B -> B + T < 2 ^ 63 ->
  exists ret g', ib_modify_mad env id ms g = Some (ret, g') /\ agent_inv base T (B + T) N g' /\
    g_rmpp g' = g_rmpp g.
Proof.
  intros Hi Hms Hor He HT Hb. unfold rearm in Hor. unfold ib_modify_mad.
  assert (agent_inv base T (B + T) N g) as Hi' by (eapply inv_mono; [|done]; lia).
  destruct (find_send_wr id g) as [w|] eqn:Ef; [|by eexists _, g].
  destruct (find_wr_spec base T B N g id w Hi Ef) as (Ew & Hpo & Hl).
  destruct (Z.eqb_spec (w_status w) IB_WC_SUCCESS) as [Es|]; cbn [negb]; [|by eexists _, g].
  destruct (Z.eqb_spec ms 0) as [->|Hne].
  { destruct (cancel_one_inv base T B N g env id w Hi Ew Hpo Hl Es He HT Hb) as (g' & E & Hg').
    cbv zeta in E. rewrite E. by eexists _, g'. }
  cbn [negb andb] in Hor. rewrite Z.eqb_neq in Hor.
  pose proof (lv_ok _ _ _ _ Hl) as Hok. assert (0 < w_timeout w) as Htp by (destruct Hok; lia).
  assert (waiting w = true) as Hw by (by apply waiting_spec).
  pose proof (eo_pos _ _ He ms ltac:(lia)). pose proof (eo_max _ _ He ms Hms).
  set (w1 := set_timeout_ms ms w).
  destruct (wr_ok_modified (g_kernel_rmpp g) B w (se_jiffies env ms) ms Hok Hw) as [Hok1 Hw1]; [lia|lia|].
  fold w1 in Hok1, Hw1. set (w2 := set_timeout (se_jiffies env ms) w1) in *.
  destruct ((w_timeout w =? 0) || (1 <? w_refcount w)) eqn:Ea.
  - eexists _, _. split; [done|]. split; [|done].
    eapply (live_step _ _ B _ _ id g _ w2); [done|lia|done|by eapply only_put|by rewrite view_put|].
    rewrite view_put. apply (live_again _ B _ w); try done. eapply wr_ok_mono; [|done]. lia.
  - apply orb_false_iff in Ea as [_ Er]. rewrite Z.ltb_ge in Er.
    unfold ib_reset_mad_timeout. cbn [put_wr set_wrs g_wrs]. rewrite lookup_insert_eq. cbn [mbind option_bind].
    fold w2. change (set_wrs (<[id:=w1]> (g_wrs g)) g) with (put_wr id w1 g).
    assert (only id g (put_wr id w2 (put_wr id w1 g))) as Hon1
      by (eapply only_trans; [by eapply only_put|eapply only_put, lookup_insert_eq]).
    destruct (wait_spec id w2 (put_wr id w2 (put_wr id w1 g))) as (g2 & -> & Hon2 & Ev2); [apply lookup_insert_eq|].
    cbn [mbind option_bind]. eexists _, g2. split; [done|]. split; [|by rewrite (on_rmpp _ _ _ Hon2)].
    destruct (absolute_timer T B (g_kernel_rmpp g) w2 (g_now g) Hok1 Hw1) as [Hok2 Hw2]; [apply Hi|done|].
    eapply (live_step _ _ B _ _ id g); [done|lia|done|by eapply only_trans|by rewrite Ev2|].
    rewrite Ev2, !view_put. cbv zeta. cbn [v_h v_ph v_pd v_c v_r v_x].
    assert (w_refcount w = 1) as Er1.
    { pose proof (lv_ref _ _ _ _ Hl) as E. rewrite Hw in E. cbn [b2z] in E. lia. }
    apply (live_waits _ _ w); try done. eapply live_mono; [|done]. lia.
Qed.

(** ** Cancellation *)

Lemma flush_live k B w v :
  live_inv k B w v ->
  live_inv k B (flush_wr w)
    (mkview (Some (flush_wr w)) (v_s v) (v_w v) (v_d v) (v_h v) (v_ph v) (v_pd v) (v_c v) (v_r v) (v_x v)).
Proof.
  intros Hl. unfold flush_wr. destruct (Z.eqb_spec (w_status w) IB_WC_SUCCESS) as [Es|Es]; [|by destruct Hl].
  apply (live_cancelled _ _ w); try done. apply wr_ok_refcount, wr_ok_status; [done|apply Hl].
Qed.

(** Flushing keeps every send where it is. *)
Lemma flush_all_inv base T B N l g :
  agent_inv base T B N g -> (forall id, id ∈ l -> is_Some (g_wrs g !! id)) ->
  exists m, flush_all l (g_wrs g) = Some m /\ agent_inv base T B N (set_wrs m g) /\
    (forall id, is_Some (g_wrs g !! id) -> is_Some (m !! id)).
Proof.
  revert g. induction l as [|id l IH]; intros g Hi Hl; cbn [flush_all].
  { exists (g_wrs g). split; [done|]. split; [by destruct Hi|done]. }
  destruct (Hl id) as [w Ew]; [by left|]. rewrite Ew. cbn [mbind option_bind].
  pose proof (ai_pt _ _ _ _ _ Hi id) as Hpt. unfold pt_inv in Hpt.
  change (v_wr (view_of g id)) with (g_wrs g !! id) in Hpt. rewrite Ew in Hpt. destruct Hpt as [Hpo Hli].
  assert (forall id', is_Some (g_wrs g !! id') -> is_Some (<[id:=flush_wr w]> (g_wrs g) !! id')) as Hsome.
  { intros id' Hs. destruct (decide (id' = id)) as [->|]; [rewrite lookup_insert_eq; by eexists|].
    by rewrite lookup_insert_ne. }
  destruct (IH (put_wr id (flush_wr w) g)) as (m & Em & Him & Hm).
  - eapply (live_step _ _ B _ _ id g _ (flush_wr w)); [done|lia|done|by eapply only_put|by rewrite view_put|].
    rewrite view_put. by apply flush_live.
  - intros id' Hin. apply Hsome, Hl. by right.
  - exists m. split; [exact Em|]. split; [exact Him|]. intros id' Hs. apply Hm, Hsome, Hs.
Qed.

Lemma nodup_cnt {A} `{EqDecision A} (l : list A) : (forall x, (cnt x l <= 1)%nat) -> NoDup l.
Proof.
  induction l as [|y l IH]; intros Hc; [constructor|]. constructor.
  - rewrite cnt_elem. specialize (Hc y). rewrite cnt_cons, decide_True in Hc by done. lia.
  - apply IH. intros x. specialize (Hc x). rewrite cnt_cons in Hc. lia.
Qed.

Lemma notify_all_view l g id :
  NoDup l ->
  view_of (notify_all l g) id =
  let v := view_of g id in
  if decide (id ∈ l)
  then mkview None (v_s v) (v_w v) (v_d v) (v_h v) (v_ph v) (v_pd v) (v_c v + 1) (v_r v) (v_x v)
  else v.
Proof.
  revert g. induction l as [|x l IH]; intros g Hnd; cbn [notify_all].
  { rewrite decide_False by (intros H; by inversion H). done. }
  apply NoDup_cons in Hnd as [Hx Hnd]. rewrite IH by done. cbv zeta.
  destruct (decide (id = x)) as [->|Hne].
  - rewrite (decide_True (P := x ∈ x :: l)) by (by left). rewrite decide_False by done.
    view_simpl. by rewrite lookup_delete_eq, decide_True.
  - rewrite (decide_ext (id ∈ x :: l) (id ∈ l)) by (rewrite elem_of_cons; tauto).
    assert (view_of (notify x IB_WC_WR_FLUSH_ERR g) id = view_of g id) as ->; [|done].
    view_simpl. by rewrite lookup_delete_ne, decide_False, Nat.add_0_r by done.
Qed.

Lemma notify_all_rest l g :
  NoDup l -> (forall id, id ∈ l -> is_Some (g_wrs g !! id)) ->
  let g' := notify_all l g in
  g_refs g' - Z.of_nat (size (g_wrs g')) = g_refs g - Z.of_nat (size (g_wrs g)) /\
  g_kernel_rmpp g' = g_kernel_rmpp g /\ g_now g' = g_now g /\ g_next g' = g_next g /\ g_rmpp g' = g_rmpp g.
Proof.
  cbv zeta. revert g. induction l as [|x l IH]; intros g Hnd Hl; cbn [notify_all]; [done|].
  apply NoDup_cons in Hnd as [Hx Hnd]. destruct (Hl x) as [w Ew]; [by left|].
  destruct (IH (notify x IB_WC_WR_FLUSH_ERR g)) as (E1 & E2 & E3 & E4 & E5); [done| |].
  - intros id Hin. cbn [notify set_calls set_refs set_wrs g_wrs].
    rewrite lookup_delete_ne by (intros <-; done). apply Hl. by right.
  - rewrite E1, E2, E3, E4, E5. split_and!; try done.
    apply (on_refs x). by eapply only_notify.
Qed.

Lemma cancel_inv base T B N g :
  agent_inv base T B N g ->
  exists g', cancel_mads g = Some g' /\ agent_inv base T B N g' /\ g_rmpp g' = g_rmpp g /\ g_wait g' = [].
Proof.
  intros Hi. unfold cancel_mads.
  destruct (flush_all_inv base T B N (g_send g) g Hi) as (m & -> & Him & Hm).
  { intros id Hin. apply cnt_elem in Hin. destruct (live_of base T B N g id Hi) as (w & Ew & _); [cbn; lia|].
    by eexists. }
  cbn [mbind option_bind]. set (g1 := set_wrs m g) in *.
  assert (forall id, id ∈ g_wait g1 -> exists w, g_wrs g1 !! id = Some w /\ posted g1 id = true /\
    live_inv (g_kernel_rmpp g1) B w (view_of g1 id) /\ v_w (view_of g1 id) = 1%nat /\
    holders (view_of g1 id) = 0%nat) as Hw.
  { intros id Hin. destruct (on_wait_list base T B N g1 id Him Hin) as (w & ? & ? & ? & ? & ? & _).
    exists w. by split_and!. }
  assert (NoDup (g_wait g1)) as Hnd.
  { apply nodup_cnt. intros x. destruct (decide (cnt x (g_wait g1) <= 1)%nat) as [|Hx]; [done|].
    destruct (Hw x) as (_ & _ & _ & _ & E & _); [apply cnt_elem; lia|].
    change (cnt x (g_wait g1) = 1%nat) in E. lia. }
  change (g_wait g) with (g_wait g1). change (g_send g) with (g_send g1). change (g_done g) with (g_done g1).
  set (g2 := set_lists (g_send g1) [] (g_done g1) (set_closed g1)).
  destruct (notify_all_rest (g_wait g1) g2 Hnd) as (E1 & E2 & E3 & E4 & E5).
  { intros id Hin. destruct (Hw id Hin) as (w & Ew & _). exists w. exact Ew. }
  exists (notify_all (g_wait g1) g2). split; [done|]. split_and!.
  - constructor.
    + intros id. unfold posted. rewrite E2, E4, notify_all_view by done. cbv zeta.
      pose proof (ai_pt _ _ _ _ _ Him id) as Hpt. unfold posted in Hpt.
      change (g_kernel_rmpp g2) with (g_kernel_rmpp g1). change (g_next g2) with (g_next g1).
      destruct (decide (id ∈ g_wait g1)) as [Hin|Hin].
      * destruct (Hw id Hin) as (w & Ew & Hpo & [Hp Hh (Hc & Hr & Hpd) _ _ _ _ _] & Hv & H0).
        unfold posted in Hpo. rewrite Hpo. unfold holders in H0. unfold pt_inv.
        change (view_of g2 id) with (mkview (g_wrs g1 !! id) (v_s (view_of g1 id)) 0 (v_d (view_of g1 id))
          (v_h (view_of g1 id)) (v_ph (view_of g1 id)) (v_pd (view_of g1 id)) (v_c (view_of g1 id))
          (v_r (view_of g1 id)) (v_x (view_of g1 id))).
        cbn [v_wr v_s v_w v_d v_h v_ph v_pd v_c v_r v_x b2n]. lia.
      * assert (view_of g2 id = view_of g1 id) as ->; [|exact Hpt].
        unfold view_of. cbn [g2 set_lists set_closed g_wrs g_send g_wait g_done g_hw g_pend g_calls g_rcalls g_failed].
        assert (cnt id (g_wait g1) = 0%nat) as ->; [|done]. rewrite cnt_elem in Hin. lia.
    + pose proof (ai_refs _ _ _ _ _ Him) as E. change (g_refs g2) with (g_refs g1) in E1.
      change (g_wrs g2) with (g_wrs g1) in E1. lia.
    + rewrite E3. apply Him.
    + rewrite E5. apply Him.
  - by rewrite E5.
  - assert (forall l x, g_wait (notify_all l x) = g_wait x) as ->; [|done].
    induction l as [|y l IH]; intros x; [done|]. cbn [notify_all]. by rewrite IH.
Qed.

(** ** Posting *)

(** A send as [ib_create_send_mad] and the client leave it: nothing of an RMPP
    message has been sent; RMPP control messages and plain MADs have no segments to
    be acknowledged, the former no timeout. *)
Definition fresh_ok (kernel_rmpp : bool) (w : send_wr) : Prop :=
  0 <= w_timeout_ms w /\
  if kernel_rmpp && rmpp_active w then
    if rmpp_data w then send_wf w /\ w_seg_num w = 0 /\ w_last_ack w = 0
    else w_timeout_ms w = 0
  else kernel_rmpp = true -> w_last_ack w = w_seg_count w.

(** The number of the next send occurs nowhere. *)
Lemma fresh_view base T B N g :
  agent_inv base T B N g -> view_of g (g_next g) = mkview None 0 0 0 0 0 0 0 0 0.
Proof.
  intros Hi. pose proof (ai_pt _ _ _ _ _ Hi (g_next g)) as H. unfold pt_inv, posted in H.
  rewrite bool_decide_false in H by lia. destruct (v_wr (view_of g (g_next g))) as [w|] eqn:E; [by destruct H|].
  cbn [b2n] in H. apply view_eq; first [exact E|lia].
Qed.

Lemma posted_next g failed id :
  posted (set_next failed g) id = if decide (id = g_next g) then true else posted g id.
Proof.
  unfold posted. cbn [set_next g_next]. case_decide; [subst; apply bool_decide_true; lia|].
  apply bool_decide_ext. lia.
Qed.

Lemma view_next g failed id :
  view_of (set_next failed g) id =
  let v := view_of g id in
  mkview (v_wr v) (v_s v) (v_w v) (v_d v) (v_h v) (v_ph v) (v_pd v) (v_c v) (v_r v) (v_x v + cnt id failed).
Proof. unfold view_of. cbn [set_next g_wrs g_send g_wait g_done g_hw g_pend g_calls g_rcalls g_failed]. by rewrite cnt_app. Qed.

(** The next send, and no other, appears. *)
Lemma next_inv base T B N g g' failed :
  agent_inv base T B N g -> only (g_next g) g g' -> (forall id, id <> g_next g -> cnt id failed = 0%nat) ->
  pt_inv (g_kernel_rmpp g) B true (view_of (set_next failed g') (g_next g)) ->
  agent_inv base T B N (set_next failed g').
Proof.
  intros [] [] Hf Hpt. constructor.
  - intros id. rewrite posted_next, on_next0. change (g_kernel_rmpp (set_next failed g')) with (g_kernel_rmpp g').
    rewrite on_kernel0. case_decide; [by subst|]. rewrite view_next, on_views0, Hf by done.
    cbv zeta. rewrite Nat.add_0_r. unfold posted. rewrite on_next0. apply ai_pt0.
  - cbn [set_next g_refs g_wrs]. lia.
  - cbn [set_next g_now]. by rewrite on_now0.
  - cbn [set_next g_rmpp]. by rewrite on_rmpp0.
Qed.

Lemma refused_inv base T B N g g' :
  agent_inv base T B N g -> only (g_next g) g g' -> view_of g' (g_next g) = view_of g (g_next g) ->
  agent_inv base T B N (set_next [g_next g] g').
Proof.
  intros Hi Hon Ev. eapply next_inv; [done|done| |].
  - intros id Hne. by rewrite cnt_one, decide_False.
  - rewrite view_next, Ev, (fresh_view _ _ _ _ _ Hi), cnt_one, decide_True by done. cbn. lia.
Qed.

(** The RMPP part of posting. *)
Lemma post_rmpp T B k env dlid a w :
  env_ok T env -> T <= B -> fresh_ok k w -> w_timeout w = se_jiffies env (w_timeout_ms w) ->
  w_refcount w = 1 + b2z (0 <? w_timeout w) -> w_status w = IB_WC_SUCCESS ->
  exists ret w' p,
    (if k then
       '(ret, _, w') ← ib_send_rmpp_mad env dlid a w;
       if (0 <=? ret) && negb (ret =? IB_RMPP_RESULT_CONSUMED)
       then Some (ib_send_mad env, w', ib_send_mad env =? 0)
       else Some (ret, w', ret =? IB_RMPP_RESULT_CONSUMED)
     else Some (ib_send_mad env, w, ib_send_mad env =? 0)) = Some (ret, w', p) /\
    (0 <= ret -> p = true /\ wr_ok k B w' /\ w_refcount w' = 1 + b2z (waiting w')).
Proof.
  intros He HTB [Hms Hk] Et Er Es. pose proof (env_jiffies _ _ _ He Hms) as Hj. pose proof (env_send _ _ He) as Hs.
  assert (waiting w = (0 <? w_timeout w)) as Ew by (unfold waiting; by rewrite (proj2 (Z.eqb_eq _ _) Es)).
  assert (forall w', wr_ok k B w' -> w_refcount w' = w_refcount w -> waiting w' = waiting w ->
    exists ret w'' p, Some (ib_send_mad env, w', ib_send_mad env =? 0) = Some (ret, w'', p) /\
    (0 <= ret -> p = true /\ wr_ok k B w'' /\ w_refcount w'' = 1 + b2z (waiting w''))) as Hplain.
  { intros w' Hok Er' Ew'. eexists _, w', _. split; [done|]. intros H0. split_and!; [apply Z.eqb_eq; lia|done|].
    by rewrite Er', Ew', Ew. }
  assert (waiting w = true -> 0 < w_timeout_ms w) as Hwp.
  { intros H. rewrite Ew, Et in H. apply Z.ltb_lt in H. destruct (decide (w_timeout_ms w = 0)) as [E|]; [|lia].
    rewrite E, (eo_zero _ _ He) in H. lia. }
  destruct k; cbn [andb] in Hk; [|apply Hplain; try done; split_and!; [lia|lia|done|cbn [andb]; split; [done|congruence]]].
  unfold ib_send_rmpp_mad. destruct (rmpp_active w) eqn:Eact; cbn [negb].
  2: { cbn [mbind option_bind]. apply Hplain; try done. unfold wr_ok. cbn [andb]. rewrite Eact.
       split_and!; [lia|lia|done|done|done]. }
  destruct (rmpp_data w) eqn:Edat; cbn [negb].
  2: { cbn [mbind option_bind]. apply Hplain; try done. unfold wr_ok. cbn [andb].
       change (rmpp_active (set_seg_num 1 w)) with (rmpp_active w).
       change (rmpp_data (set_seg_num 1 w)) with (rmpp_data w). rewrite Eact, Edat.
       cbn [set_seg_num wr_upd w_timeout w_timeout_ms]. rewrite Et, Hk, (eo_zero _ _ He) in *. lia. }
  destruct Hk as (Hwf & Hn & Ha). set (w1 := set_refcount _ _).
  assert (send_wf w1) as Hwf1 by (destruct Hwf; by constructor).
  destruct (next_seg_wr T env w1 He Hwf1) as (ev & w' & -> & Hwf' & Hsame & Ela & _ & Hpos & Hb).
  { pose proof (sw_some _ Hwf). change (w_seg_num w < nsegs w). lia. }
  { change (0 <= w_timeout w). lia. }
  cbn [mbind option_bind]. destruct Hsame as (Hsm & Er' & Es').
  destruct (Z.eqb_spec (ib_send_mad env) 0) as [E0|E0].
  2: { rewrite (proj2 (Z.leb_gt 0 _)) by lia. cbn [andb]. eexists _, w', _. split; [done|]. lia. }
  cbn [andb negb Z.eqb Z.leb IB_RMPP_RESULT_CONSUMED]. eexists _, w', _. split; [done|]. intros _.
  assert (0 < w_timeout w') as Hp.
  { apply Hpos. change (0 < w_timeout w \/ w_timeout_ms w = 0). destruct (decide (w_timeout_ms w = 0)); [by right|].
    left. rewrite Et. apply (eo_pos _ _ He). lia. }
  assert (waiting w' = true) as Hw' by (apply waiting_spec; by rewrite Es').
  destruct (rmpp_kind_same _ _ Hsm) as [Ka Kd].
  split_and!; [done| |].
  - apply wr_ok_data; [by rewrite Ka|by rewrite Kd| | |done|].
    + change (w_timeout w1) with (w_timeout w) in Hb. lia.
    + destruct Hsm as (_ & _ & _ & _ & _ & -> & _). exact Hms.
    + rewrite Ela, (nsegs_ext _ _ Hsm). change (waiting w' = true -> w_last_ack w = nsegs w -> 0 < w_timeout_ms w').
      pose proof (sw_some _ Hwf). lia.
  - rewrite Hw', Er'. cbn [b2z w1 set_refcount set_wr_newwin wr_upd w_refcount w_timeout]. rewrite Er.
    destruct (Z.ltb_spec 0 (w_timeout w)); destruct (Z.eqb_spec (w_timeout w) 0); cbn [b2z]; lia.
Qed.

Lemma post_inv base T B N g env dlid allowed retries w :
  agent_inv base T B N g -> fresh_ok (g_kernel_rmpp g) w -> env_ok T env -> T <= B ->
  exists ret g', ib_post_send_mad env dlid allowed retries (g_next g) w g = Some (ret, g') /\
    agent_inv base T B N (set_next (if ret =? 0 then [] else [g_next g]) g') /\ g_rmpp g' = g_rmpp g.
Proof.
  intros Hi Hf He HTB. pose proof (fresh_view _ _ _ _ _ Hi) as Hv. unfold ib_post_send_mad.
  destruct allowed; cbn [negb].
  2: { eexists _, g. split; [done|]. split; [|done]. by apply refused_inv; [|apply only_refl|]. }
  set (id := g_next g) in *. set (w1 := set_timeout _ _). set (w2 := set_status _ _).
  assert (g_wrs g !! id = None) as Ew by (by injection Hv).
  set (g1 := link_send id (set_refs (g_refs g + 1) g)).
  destruct (post_rmpp T B (g_kernel_rmpp g) env dlid (g_rmpp g) w2 He HTB) as (ret & w' & p & -> & Hret);
    [|done..|]; [destruct Hf as [Hms Hk]; split; [done|]|].
  { change (rmpp_active w2) with (rmpp_active w). change (rmpp_data w2) with (rmpp_data w).
    destruct (_ && _); [|done]. destruct (rmpp_data w); [|done]. destruct Hk as [[] ?]. split; [by constructor|done]. }
  cbn [mbind option_bind]. destruct (Z.ltb_spec ret 0) as [Hneg|Hpos].
  - eexists _, _. split; [done|]. rewrite (proj2 (Z.eqb_neq ret 0)) by lia. split; [|done].
    apply refused_inv; [done| |].
    + constructor; try done; [unfold g1, id; only_other|].
      cbn [g1 set_refs set_wrs unlink set_lists put_wr link_send g_refs g_wrs]. rewrite delete_insert_id by done. lia.
    + fold id. rewrite Hv. unfold g1. view_simpl. injection Hv as _ -> -> -> -> -> -> -> -> ->.
      by rewrite lookup_delete_eq, !decide_same.
  - destruct (Hret Hpos) as (-> & Hok & Er). eexists _, _. split; [done|]. cbn [Z.eqb]. split; [|done].
    eapply next_inv; [done| |done|].
    + constructor; try done; [unfold g1, id; only_other|].
      cbn [g1 post_hw set_hw set_refs set_wrs set_lists put_wr link_send g_refs g_wrs].
      rewrite insert_insert_eq, map_size_insert_None by done. lia.
    + rewrite view_next, view_post, !view_put. fold id. unfold g1.
      assert (view_of (link_send id (set_refs (g_refs g + 1) g)) id = mkview None 1 0 0 0 0 0 0 0 0) as ->.
      { view_simpl. injection Hv as -> -> -> -> -> -> -> -> -> ->. by rewrite !decide_same. }
      cbv zeta. cbn [v_wr v_s v_w v_d v_h v_ph v_pd v_c v_r v_x]. unfold pt_inv. cbn [v_wr]. split; [done|].
      constructor; unfold holders; cbn [v_s v_w v_d v_h v_ph v_pd v_c v_r v_x]; try done; try lia.
      rewrite cnt_nil. lia.
Qed.
