(* ===== verification/MadRuns.v ===== *)
(** * Runs of a MAD agent

    Sequences of steps of [MadSend] from an agent without sends: posting, device
    completions, received MADs, timeouts, modifications and cancellation, in any
    order. Every send that was posted is refused or reported to its client, once;
    the references on the agent are the live sends; the loop of [timeout_sends]
    ends; and after a cancellation the completions the device still owes drain the
    agent. The runs are those in which [ib_modify_mad] does not give a timeout to a
    send that awaits no response ([rearms], a hypothesis of each theorem);
    [modify_rearms_answered_send] at the end shows a run in which it does, and in
    which the conclusions fail. *)

From Stdlib Require Import ZArith Lia.
From stdpp Require Import base tactics numbers list option gmap sorting.
From S2P Require Import MadReg.
From S2P Require Import Prelude RmppRecv RmppSend MadSend MadAgent.

Local Open Scope Z_scope.

(** ** Steps *)

(** What a step may assume of its environment and of the client. *)
Definition cmd_ok (T : Z) (c : mad_cmd) (g : mad_agent) : Prop :=
  match c with
  | KPost env _ _ _ w => env_ok T env /\ fresh_ok (g_kernel_rmpp g) w
  | KComplete env _ => env_ok T env
  | KRecv senv _ _ _ => env_ok T senv
  | KModify env _ ms => env_ok T env /\ 0 <= ms
  | KTimeouts envs => forall i, env_ok T (envs i)
  | KTick t => t <= T
  | KSent _ _ | KRmppTimeout _ _ | KRmppCleanup _ | KCancel => True
  end.

Fixpoint cmds_ok (T : Z) (l : list mad_cmd) (g : mad_agent) : Prop :=
  match l with
  | [] => True
  | c :: l' => cmd_ok T c g /\ forall g1, mad_exec1 c g = Some g1 -> cmds_ok T l' g1
  end.

(** Some step of the run gives a timeout to a send that awaits no response. *)
Definition rearm_cmd (c : mad_cmd) (g : mad_agent) : bool :=
  match c with KModify _ id ms => rearm id ms g | _ => false end.

Fixpoint rearms (l : list mad_cmd) (g : mad_agent) : bool :=
  match l with
  | [] => false
  | c :: l' => rearm_cmd c g || match mad_exec1 c g with Some g1 => rearms l' g1 | None => false end
  end.

(** [create_mad_agent]: an agent that holds [refs] references on itself. *)
Definition new_agent (kernel_rmpp : bool) (max_active : Z) (opa : bool) (refs now : Z) : mad_agent :=
  {| g_kernel_rmpp := kernel_rmpp;
     g_rmpp := {| a_recvs := []; a_max_active := max_active; a_opa := opa |};
     g_send := []; g_wait := []; g_done := []; g_wrs := ∅; g_hw := []; g_pend := [];
     g_refs := refs; g_closed := false; g_calls := []; g_rcalls := []; g_now := now;
     g_next := 0; g_failed := [] |}.

Lemma new_agent_inv T k ma opa refs now :
  0 < now <= T -> agent_inv refs T T 0 (new_agent k ma opa refs now).
Proof. intros H. constructor; [| |done|constructor].
  - intros id. unfold pt_inv. cbn. by rewrite lookup_empty.
  - cbn [new_agent g_wrs g_refs]. rewrite map_size_empty. lia.
 Qed.

(** The RMPP timers of the receiver. *)
Lemma recv_timer_ok renv i a N :
  Forall (recv_ok a N) (a_recvs a) -> is_Some (a_recvs a !! i) ->
  exists a' ev, recv_timeout_handler renv i a = Some (a', ev) /\ same_config a a' /\
    Forall (recv_ok a' N) (a_recvs a').
Proof.
  intros Hr [r Ei]. unfold recv_timeout_handler. rewrite Ei. cbn [mbind option_bind].
  case_bool_decide; [|by eexists _, _].
  destruct (Forall_lookup_1 _ _ _ _ Hr Ei) as (Hi & _). pose proof (ri_cur _ _ Hi).
  destruct (lookup_lt_is_Some_2 (r_list r) 0) as [first ->]; [lia|]. cbn [mbind option_bind].
  eexists _, _. split; [done|]. split; [done|]. cbn [set_recvs a_recvs]. by apply Forall_delete.
Qed.

Lemma inv_weaken base T B B' N N' g :
  B <= B' -> N <= N' -> agent_inv base T B N g -> agent_inv base T B' N' g.
Proof.
  intros HB HN Hi. apply (inv_mono _ _ _ B') in Hi; [|done]. destruct Hi. constructor; try done.
  eapply Forall_impl; [apply ai_recv|]. intros x. by apply recv_ok_mono.
Qed.

Lemma step_inv base T B N c g :
  agent_inv base T B N g -> cmd_ok T c g -> rearm_cmd c g = false -> 0 <= N -> N + 2 * window_size (g_rmpp g) + 2 < 2 ^ 31 ->
  0 <= T <= B -> B + T < 2 ^ 63 ->
  exists g', mad_exec1 c g = Some g' /\ agent_inv base T (B + T) (N + 1) g' /\
    window_size (g_rmpp g') = window_size (g_rmpp g).
Proof.
  intros Hi Hc Hra HN HW HT Hb.
  assert (forall B' g', B' <= B + T -> agent_inv base T B' N g' -> agent_inv base T (B + T) (N + 1) g') as Hup.
  { intros B' g' HB. apply inv_weaken; lia. }
  destruct c as [env dlid allowed retries w|i st|env i|senv renv q m|env id ms|envs|t|renv i|i|];
    cbn [cmd_ok mad_exec1 rearm_cmd] in *.
  - destruct Hc as [He Hf].
    destruct (post_inv base T B N g env dlid allowed retries w) as (ret & g1 & -> & Hi1 & Er); try done; [lia|].
    cbn [mbind option_bind]. eexists. split; [done|]. split; [eapply Hup; [|done]; lia|]. cbn. by rewrite Er.
  - destruct (g_hw g !! i) as [id|] eqn:E; eexists; (split; [done|]); (split; [|done]);
      (eapply (Hup B); [lia|]); [by apply sent_inv|done].
  - destruct (g_pend g !! i) as [[[id b] st]|] eqn:E; [|exists g; split; [done|]; split; [by apply (Hup B); [lia|]|done]].
    destruct (complete_inv base T B N g i id b st env Hi E Hc HT Hb) as (g' & E' & Hi' & Er).
    exists g'. split; [done|]. split; [by apply (Hup (B + T))|by rewrite Er].
  - destruct (received_inv base T B N g senv renv q m) as (g' & E & Hi' & Er); try done. by exists g'.
  - destruct Hc as [He Hm].
    destruct (modify_inv base T B N g env id ms Hi Hm Hra He HT Hb) as (ret & g' & -> & Hi' & Er).
    exists g'. split; [done|]. split; [by apply (Hup (B + T))|by rewrite Er].
  - destruct (timeouts_inv base T B N (length (g_wait g)) envs g) as (g' & E & Hi' & Er & _); try done; [lia|].
    exists g'. split; [done|]. split; [apply (Hup B); [lia|done]|by rewrite Er].
  - eexists. split; [done|]. split; [|done]. apply (Hup B); [lia|]. destruct Hi. constructor; try done.
    cbn [set_now g_now]. lia.
  - destruct (a_recvs (g_rmpp g) !! i) as [r|] eqn:E;
      [|exists g; split; [done|]; split; [by apply (Hup B); [lia|]|done]].
    destruct (recv_timer_ok renv i (g_rmpp g) N) as (a & ev & -> & Hcfg & Hr); [apply Hi|by eexists|].
    cbn [mbind option_bind]. eexists. split; [done|]. split; [apply (Hup B); [lia|by eapply rmpp_inv]|].
    by apply window_config.
  - destruct (a_recvs (g_rmpp g) !! i) as [r|] eqn:E;
      [|exists g; split; [done|]; split; [by apply (Hup B); [lia|]|done]].
    eexists. split; [done|]. split; [|done]. apply (Hup B); [lia|]. eapply rmpp_inv; [done|].
    cbn [recv_cleanup_handler set_recvs a_recvs]. apply Forall_delete. apply Hi.
  - destruct (cancel_inv base T B N g Hi) as (g' & E & Hi' & Er & _).
    exists g'. split; [done|]. split; [apply (Hup B); [lia|done]|by rewrite Er].
Qed.

Lemma exec_inv base T l B N g :
  agent_inv base T B N g -> cmds_ok T l g -> rearms l g = false -> 0 <= N ->
  N + Z.of_nat (length l) + 2 * window_size (g_rmpp g) + 2 < 2 ^ 31 ->
  0 <= T <= B -> B + Z.of_nat (length l) * T < 2 ^ 63 ->
  exists g', mad_exec l g = Some g' /\
    agent_inv base T (B + Z.of_nat (length l) * T) (N + Z.of_nat (length l)) g' /\
    window_size (g_rmpp g') = window_size (g_rmpp g).
Proof.
  revert B N g. induction l as [|c l IH]; intros B N g Hi Hl Hra HN HW HT Hb; cbn [mad_exec length rearms] in *.
  { exists g. split; [done|]. by rewrite Z.mul_0_l, !Z.add_0_r. }
  destruct Hl as [Hc Hl]. apply orb_false_iff in Hra as [Hr1 Hr].
  destruct (step_inv base T B N c g) as (g1 & E1 & Hi1 & Ew1); try done; [lia|nia|]. rewrite E1 in Hr |- *. cbn [mbind option_bind].
  destruct (IH (B + T) (N + 1) g1) as (g' & -> & Hi' & Ew'); [done|by apply Hl|done|lia|lia|lia|nia|].
  exists g'. split; [done|]. split; [|congruence].
  eapply inv_weaken; [| |exact Hi']; nia.
Qed.

(** ** After a cancellation *)

(** No send waits for a response. *)
Definition quiet (g : mad_agent) : Prop :=
  g_wait g = [] /\ forall id w, g_wrs g !! id = Some w -> waiting w = false.

Lemma flush_status w : w_status (flush_wr w) <> IB_WC_SUCCESS.
Proof. unfold flush_wr. by destruct (Z.eqb_spec (w_status w) IB_WC_SUCCESS). Qed.

Lemma flush_all_status l m m' :
  flush_all l m = Some m' ->
  forall id w, m' !! id = Some w ->
    (id ∈ l -> w_status w <> IB_WC_SUCCESS) /\
    (forall w0, m !! id = Some w0 -> w_status w0 <> IB_WC_SUCCESS -> w_status w <> IB_WC_SUCCESS).
Proof.
  revert m. induction l as [|x l IH]; intros m Hf id w Ew; cbn [flush_all] in Hf.
  { injection Hf as ->. split; [intros H; by inversion H|]. intros w0 E. by rewrite Ew in E; injection E as <-. }
  destruct (m !! x) as [wx|] eqn:Ex; [|done]. cbn [mbind option_bind] in Hf.
  destruct (IH _ Hf id w Ew) as [H1 H2]. destruct (decide (id = x)) as [->|Hne].
  - assert (w_status w <> IB_WC_SUCCESS) by (eapply H2; [apply lookup_insert_eq|apply flush_status]). done.
  - rewrite lookup_insert_ne in H2 by done. split; [|done].
    intros Hin. apply elem_of_cons in Hin as [|Hin]; [done|by apply H1].
Qed.

Lemma notify_all_send l g :
  g_send (notify_all l g) = g_send g /\
  forall id w, g_wrs (notify_all l g) !! id = Some w -> g_wrs g !! id = Some w.
Proof.
  revert g. induction l as [|x l IH]; intros g; cbn [notify_all]; [done|].
  destruct (IH (notify x IB_WC_WR_FLUSH_ERR g)) as [-> H]. split; [done|]. intros id w E.
  apply H in E. cbn [notify set_calls set_refs set_wrs g_wrs] in E. by apply lookup_delete_Some in E as [_ E].
Qed.

Lemma cancel_quiet base T B N g g' :
  agent_inv base T B N g -> cancel_mads g = Some g' -> quiet g'.
Proof.
  intros Hi Hc. destruct (cancel_inv base T B N g Hi) as (g1 & E & Hi1 & _ & Ewt).
  rewrite Hc in E. injection E as <-. split; [done|]. intros id w Ew.
  unfold cancel_mads in Hc. destruct (flush_all (g_send g) (g_wrs g)) as [m|] eqn:Ef; [|done].
  cbn [mbind option_bind] in Hc. injection Hc as Eg.
  destruct (notify_all_send (g_wait g) (set_lists (g_send g) [] (g_done g) (set_closed (set_wrs m g)))) as [Es Hm].
  rewrite Eg in Es, Hm. pose proof (ai_pt _ _ _ _ _ Hi1 id) as Hpt. unfold pt_inv in Hpt.
  change (v_wr (view_of g' id)) with (g_wrs g' !! id) in Hpt. rewrite Ew in Hpt. destruct Hpt as [_ Hl].
  apply Hm in Ew. cbn [set_lists set_closed set_wrs g_wrs] in Ew.
  destruct (flush_all_status _ _ _ Ef id w Ew) as [Hst _].
  unfold waiting. destruct (decide (id ∈ g_send g)) as [Hin|Hin].
  - by rewrite (proj2 (Z.eqb_neq _ _) (Hst Hin)).
  - assert (w_timeout w = 0) as ->; [|apply andb_false_r]. apply (lv_stopped _ _ _ _ Hl).
    pose proof (lv_place _ _ _ _ Hl) as Hp. cbn [view_of v_s v_w v_d v_pd v_r] in Hp |- *.
    rewrite Ewt, Es, cnt_nil in Hp. rewrite cnt_elem in Hin. cbn [set_lists g_send] in Hp. lia.
Qed.

Lemma account_quiet st w : waiting w = false -> waiting (account st w) = false.
Proof.
  intros H. unfold account. destruct (Z.eqb_spec st IB_WC_SUCCESS) as [|Hst]; cbn [negb andb]; [done|].
  destruct (_ =? IB_WC_SUCCESS); [|done]. unfold waiting.
  cbn [set_refcount set_status wr_upd w_status w_timeout]. by rewrite (proj2 (Z.eqb_neq _ _) Hst).
Qed.

(** Completing a send that is not awaited puts nothing on the wait list and posts
    nothing. *)
Lemma complete_quiet base T B N g i id b st env g' :
  agent_inv base T B N g -> quiet g -> g_pend g !! i = Some (id, b, st) -> env_ok T env -> T <= B ->
  ib_mad_complete_send_wr env id st (set_pend (delete i (g_pend g)) g) = Some g' ->
  quiet g' /\ g_hw g' = g_hw g /\ g_pend g' = delete i (g_pend g).
Proof.
  intros Hi [Hw0 Hq] Hp He HT Hc. unfold ib_mad_complete_send_wr in Hc.
  set (g0 := set_pend (delete i (g_pend g)) g) in *. change (g_wrs g0) with (g_wrs g) in Hc.
  destruct (g_wrs g !! id) as [w|] eqn:Ew; [|done]. cbn [mbind option_bind] in Hc.
  pose proof (ai_pt _ _ _ _ _ Hi id) as Hpt. unfold pt_inv in Hpt.
  change (v_wr (view_of g id)) with (g_wrs g !! id) in Hpt. rewrite Ew in Hpt. destruct Hpt as [_ Hl].
  change (g_kernel_rmpp g0) with (g_kernel_rmpp g) in Hc.
  destruct (completion_rmpp T B (g_kernel_rmpp g) env st w He HT (lv_ok _ _ _ _ Hl))
    as (ret & st' & w1 & E & Hok1 & _ & _ & _ & Ew1 & Hcon). rewrite E in Hc. cbn [mbind option_bind] in Hc.
  pose proof (Hq id w Ew) as Hwt. rewrite Hwt in Ew1, Hcon.
  destruct (Z.eqb_spec ret IB_RMPP_RESULT_CONSUMED) as [Ec|_]; [by specialize (Hcon Ec)|].
  change (settle id st' (account st' w1) g0 = Some g') in Hc. pose proof (account_quiet st' w1 Ew1) as Hw2.
  assert (0 <= w_timeout (account st' w1)) as Ht.
  { unfold account. destruct (_ && _); apply Hok1. }
  set (w2 := account st' w1) in *. clearbody w2. unfold settle in Hc.
  assert (forall id' w', <[id:=w2]> (g_wrs g) !! id' = Some w' -> waiting w' = false) as Hq'.
  { intros id' w' E'. destruct (decide (id' = id)) as [->|Hne].
    - rewrite lookup_insert_eq in E'. by injection E' as <-.
    - rewrite lookup_insert_ne in E' by done. by eapply Hq. }
  destruct (0 <? w_refcount w2).
  - destruct ((w_refcount w2 =? 1) && truthy (w_timeout w2) && (w_status w2 =? IB_WC_SUCCESS)) eqn:Ewt.
    + exfalso. unfold truthy in Ewt. bool_to_prop. apply not_true_iff_false in Hw2. apply Hw2, waiting_spec.
      split; [done|lia].
    + injection Hc as <-. by split_and!.
  - injection Hc as <-. split_and!; [|done|done]. split; [by cbn; rewrite Hw0|].
    intros id' w' E'. cbn [notify set_calls set_refs set_wrs unlink set_lists put_wr g_wrs] in E'.
    apply lookup_delete_Some in E' as [_ E']. by eapply Hq'.
Qed.

(** The device completes what it has, then the completions are processed. *)
Definition drain (env : send_env) (st : Z) (g : mad_agent) : list mad_cmd :=
  replicate (length (g_hw g)) (KSent 0 st) ++
  replicate (length (g_hw g) + length (g_pend g)) (KComplete env 0).

Lemma drain_sent base T B N st g :
  agent_inv base T B N g -> quiet g ->
  exists g', mad_exec (replicate (length (g_hw g)) (KSent 0 st)) g = Some g' /\
    agent_inv base T B N g' /\ quiet g' /\ g_hw g' = [] /\
    length (g_pend g') = (length (g_hw g) + length (g_pend g))%nat.
Proof.
  remember (length (g_hw g)) as n eqn:En. revert g En.
  induction n as [|n IH]; intros g En Hi Hq; cbn [replicate mad_exec].
  { exists g. destruct (g_hw g) eqn:Eh; [by split_and!|done]. }
  destruct (g_hw g) as [|id l] eqn:Eh; [done|]. cbn [mad_exec1]. rewrite Eh.
  cbn [lookup list_lookup mbind option_bind delete list_delete].
  assert (g_hw g !! 0%nat = Some id) as E0 by (by rewrite Eh).
  pose proof (sent_inv base T B N g 0 id st Hi E0) as Hi1. rewrite Eh in Hi1.
  cbn [delete list_delete] in Hi1. cbn [length] in En. apply Nat.succ_inj in En.
  destruct (IH (set_pend (g_pend g ++ [(id, true, st)]) (set_hw l g)) En Hi1 Hq) as (g' & E & Hi' & Hq' & Eh' & El).
  exists g'. split_and!; try done. rewrite El. cbn [set_pend set_hw g_pend]. rewrite length_app. cbn. lia.
Qed.

Lemma drain_complete base T B N env g :
  agent_inv base T B N g -> quiet g -> g_hw g = [] -> env_ok T env -> 0 <= T <= B ->
  B + Z.of_nat (length (g_pend g)) * T < 2 ^ 63 ->
  exists g' B', mad_exec (replicate (length (g_pend g)) (KComplete env 0)) g = Some g' /\
    agent_inv base T B' N g' /\ quiet g' /\ g_hw g' = [] /\ g_pend g' = [].
Proof.
  remember (length (g_pend g)) as n eqn:En. revert B g En.
  induction n as [|n IH]; intros B g En Hi Hq Hh He HT Hb; cbn [replicate mad_exec].
  { exists g, B. destruct (g_pend g) eqn:Ep; [by split_and!|done]. }
  destruct (g_pend g) as [|[[id b] st] l] eqn:Ep; [done|]. cbn [mad_exec1].
  assert (g_pend g !! 0%nat = Some (id, b, st)) as E0 by (by rewrite Ep). rewrite E0.
  destruct (complete_inv base T B N g 0 id b st env Hi E0 He HT) as (g1 & E1 & Hi1 & _); [nia|].
  rewrite E1. cbn [mbind option_bind].
  destruct (complete_quiet base T B N g 0 id b st env g1 Hi Hq E0 He ltac:(lia) E1) as (Hq1 & Hh1 & Hp1).
  rewrite Ep in Hp1. cbn [delete list_delete] in Hp1. cbn [length] in En.
  apply (IH (B + T) g1); try done; [rewrite Hp1; lia|by rewrite Hh1|lia|nia].
Qed.

(** When the device and the pending completions hold nothing, nothing is live. *)
Lemma quiet_empty base T B N g :
  agent_inv base T B N g -> quiet g -> g_hw g = [] -> g_pend g = [] -> g_wrs g = ∅.
Proof.
  intros Hi [Hw _] Hh Hp. apply map_eq. intros id. rewrite lookup_empty.
  pose proof (ai_pt _ _ _ _ _ Hi id) as Hpt. unfold pt_inv in Hpt.
  change (v_wr (view_of g id)) with (g_wrs g !! id) in Hpt.
  destruct (g_wrs g !! id) as [w|]; [|done]. destruct Hpt as [_ Hl]. exfalso.
  pose proof (lv_busy _ _ _ _ Hl) as Hb. unfold holders in Hb. cbn [view_of v_w v_h v_ph v_pd] in Hb.
  rewrite Hw, Hh, Hp in Hb. cbn [map] in Hb. rewrite !cnt_nil in Hb. specialize (Hb eq_refl). lia.
Qed.

Lemma mad_exec_app l l' g : mad_exec (l ++ l') g = g1 ← mad_exec l g; mad_exec l' g1.
Proof. revert g. induction l as [|c l IH]; intros g; [done|]. cbn. destruct (mad_exec1 c g); [apply IH|done]. Qed.

(** ** The theorems *)

Section run.
Context (T : Z) (kernel_rmpp : bool) (max_active : Z) (opa : bool) (refs now : Z).
Context (l : list mad_cmd).
Let g0 := new_agent kernel_rmpp max_active opa refs now.

Lemma run_inv :
  0 < now <= T -> cmds_ok T l g0 -> rearms l g0 = false ->
  Z.of_nat (length l) + 2 * window_size (g_rmpp g0) + 2 < 2 ^ 31 ->
  T + Z.of_nat (length l) * T < 2 ^ 63 ->
  exists g, mad_exec l g0 = Some g /\
    agent_inv refs T (T + Z.of_nat (length l) * T) (Z.of_nat (length l)) g.
Proof.
  intros Hn Hl Hra HW Hb.
  destruct (exec_inv refs T l T 0 g0) as (g & E & Hi & _);
    [by apply new_agent_inv|done|done|lia|lia|lia|lia|].
  by exists g.
Qed.

(** C2. In every run of an agent (sends posted, completed, answered, retried,
    modified, cancelled, with and without RMPP) in which [ib_modify_mad] never gives
    a non-zero timeout to a send that awaits no response ([rearms l g0 = false]; the
    code accepts such a call, and [modify_rearms_answered_send] shows that the send
    is then delivered twice and freed while the device has it), no step reaches a freed
    send, and every send that was posted is in one of two situations: it is live, on exactly
    one of the three lists and not reported yet; or it is on no list, nothing the
    device or a handler still owes refers to it, and it was refused by
    [ib_post_send_mad] or reported by exactly one call of the send handler. Its
    response is handed to the client at most once. *)
Theorem sends_reported_once :
  0 < now <= T -> cmds_ok T l g0 -> rearms l g0 = false ->
  Z.of_nat (length l) + 2 * window_size (g_rmpp g0) + 2 < 2 ^ 31 ->
  T + Z.of_nat (length l) * T < 2 ^ 63 ->
  exists g, mad_exec l g0 = Some g /\
    forall id, (id < g_next g)%nat ->
      (cnt (Some id) (g_rcalls g) <= 1)%nat /\
      match g_wrs g !! id with
      | Some _ => (cnt id (g_send g ++ g_wait g ++ g_done g) = 1 /\
                   cnt id (map fst (g_calls g) ++ g_failed g) = 0)%nat
      | None => (cnt id (map fst (g_calls g) ++ g_failed g) = 1)%nat /\
                (cnt id (g_send g ++ g_wait g ++ g_done g ++ g_hw g) = 0)%nat /\
                (cnt (id, true) (map fst (g_pend g)) + cnt (id, false) (map fst (g_pend g)) = 0)%nat
      end.
Proof.
  intros Hn Hl Hra HW Hb. destruct (run_inv Hn Hl Hra HW Hb) as (g & E & Hi). exists g. split; [done|].
  intros id Hid. pose proof (ai_pt _ _ _ _ _ Hi id) as Hpt. unfold pt_inv, posted in Hpt.
  rewrite bool_decide_true in Hpt by done. change (v_wr (view_of g id)) with (g_wrs g !! id) in Hpt.
  destruct (g_wrs g !! id) as [w|].
  - destruct Hpt as (_ & [Hp _ (Hc & Hr & _) _ _ _ _ _]). cbn [view_of v_s v_w v_d v_c v_r v_x] in *.
    rewrite !cnt_app. lia.
  - cbn [view_of v_s v_w v_d v_h v_ph v_pd v_c v_r v_x b2n] in Hpt. rewrite !cnt_app. lia.
Qed.

(** In every run, the references on the agent are those it started with and one
    per live send; the reference count of a live send is one for the work request
    at the device or its completion, one for the pending completion of a response,
    one for an awaited response; and a send that is not on the wait list has a
    completion outstanding. *)
Theorem references_counted :
  0 < now <= T -> cmds_ok T l g0 -> rearms l g0 = false ->
  Z.of_nat (length l) + 2 * window_size (g_rmpp g0) + 2 < 2 ^ 31 ->
  T + Z.of_nat (length l) * T < 2 ^ 63 ->
  exists g, mad_exec l g0 = Some g /\
    g_refs g = refs + Z.of_nat (size (g_wrs g)) /\
    forall id w, g_wrs g !! id = Some w ->
      let owed := (cnt id (g_hw g) + cnt (id, true) (map fst (g_pend g)) +
                   cnt (id, false) (map fst (g_pend g)))%nat in
      w_refcount w = Z.of_nat owed + b2z ((w_status w =? IB_WC_SUCCESS) && (0 <? w_timeout w)) /\
      (id ∈ g_wait g <-> owed = 0%nat).
Proof.
  intros Hn Hl Hra HW Hb. destruct (run_inv Hn Hl Hra HW Hb) as (g & E & Hi). exists g. split; [done|].
  split; [apply Hi|]. intros id w Ew. cbv zeta.
  pose proof (ai_pt _ _ _ _ _ Hi id) as Hpt. unfold pt_inv in Hpt.
  change (v_wr (view_of g id)) with (g_wrs g !! id) in Hpt. rewrite Ew in Hpt.
  destruct Hpt as (_ & [Hp _ _ Href Hwa Hbu _ _]). split; [exact Href|].
  unfold holders in *. cbn [view_of v_s v_w v_d v_h v_ph v_pd] in *. rewrite cnt_elem. split; [|lia].
  intros H. by destruct Hwa as [? _]; [lia|].
Qed.

(** The loop of [timeout_sends] ends, in every state an agent reaches, after
    at most as many rounds as sends are waiting: each round takes the first send
    off the wait list for good. When it ends, the first send that is still waiting
    has not expired. *)
Theorem timeout_sends_terminates envs :
  0 < now <= T -> cmds_ok T l g0 -> rearms l g0 = false ->
  Z.of_nat (length l) + 2 * window_size (g_rmpp g0) + 2 < 2 ^ 31 ->
  T + Z.of_nat (length l) * T < 2 ^ 63 -> (forall i, env_ok T (envs i)) ->
  exists g g', mad_exec l g0 = Some g /\ timeout_loop (length (g_wait g)) envs g = Some g' /\
    match g_wait g' with
    | [] => True
    | id :: _ => exists w, g_wrs g' !! id = Some w /\ time_after (w_timeout w) (g_now g') = true
    end.
Proof.
  intros Hn Hl Hra HW Hb He. destruct (run_inv Hn Hl Hra HW Hb) as (g & E & Hi).
  destruct (timeouts_inv _ _ _ _ (length (g_wait g)) envs g Hi) as (g' & E' & _ & _ & Hh); [lia|done|nia|].
  by exists g, g'.
Qed.

(** C29. Unregistering an agent comes to an end: after any run in which
    [ib_modify_mad] never gives a non-zero timeout to a send that awaits no response
    ([rearms l g0 = false], as in [sends_reported_once]), cancelling
    the sends and then processing the completions the device still owes, in whatever
    state they are and with whatever status, leaves no send live and no reference
    of a send on the agent, and every send ever posted was refused or reported
    exactly once. *)
Theorem cancelled_agent_drains env st :
  0 < now <= T -> cmds_ok T l g0 -> rearms l g0 = false -> env_ok T env ->
  Z.of_nat (length l) + 2 * window_size (g_rmpp g0) + 2 < 2 ^ 31 ->
  T + Z.of_nat (length l) * T < 2 ^ 63 ->
  exists g, mad_exec (l ++ [KCancel]) g0 = Some g /\
    (T + Z.of_nat (length l + length (drain env st g)) * T < 2 ^ 63 ->
     exists g', mad_exec (drain env st g) g = Some g' /\ g_wrs g' = ∅ /\ g_refs g' = refs /\
       forall id, (id < g_next g')%nat -> cnt id (map fst (g_calls g') ++ g_failed g') = 1%nat).
Proof.
  intros Hn Hl Hra He HW Hb. destruct (run_inv Hn Hl Hra HW Hb) as (g & E & Hi).
  destruct (cancel_inv _ _ _ _ g Hi) as (g1 & E1 & Hi1 & _ & _). exists g1.
  split; [rewrite mad_exec_app, E; cbn; by rewrite E1|]. intros Hb'.
  pose proof (cancel_quiet _ _ _ _ g g1 Hi E1) as Hq.
  destruct (drain_sent _ _ _ _ st g1 Hi1 Hq) as (g2 & E2 & Hi2 & Hq2 & Hh2 & El).
  unfold drain in *. rewrite length_app, !length_replicate in Hb'.
  destruct (drain_complete _ _ _ _ env g2 Hi2 Hq2 Hh2 He) as (g3 & B3 & E3 & Hi3 & Hq3 & Hh3 & Hp3); [nia|nia|].
  exists g3. rewrite mad_exec_app, E2. cbn [mbind option_bind]. rewrite <- El. split; [done|].
  pose proof (quiet_empty _ _ _ _ g3 Hi3 Hq3 Hh3 Hp3) as Hz. split; [done|]. split.
  - rewrite (ai_refs _ _ _ _ _ Hi3), Hz, map_size_empty. lia.
  - intros id Hid. pose proof (ai_pt _ _ _ _ _ Hi3 id) as Hpt. unfold pt_inv, posted in Hpt.
    rewrite bool_decide_true in Hpt by done. change (v_wr (view_of g3 id)) with (g_wrs g3 !! id) in Hpt.
    rewrite Hz, lookup_empty in Hpt. cbn [view_of v_c v_x b2n] in Hpt. rewrite cnt_app. lia.
Qed.

End run.

(** ** Concrete runs *)

Definition run_env : send_env := {| se_jiffies := fun ms => Z.min ms 4000; se_send := Some 0; se_hnum := 0 |}.

(** A device that is out of memory. *)
Definition full_env : send_env := {| se_jiffies := fun ms => Z.min ms 4000; se_send := None; se_hnum := 0 |}.

Lemma run_env_ok : env_ok 100000 run_env.
Proof. constructor; cbn; intros; simplify_eq; lia. Qed.

Lemma full_env_ok : env_ok 100000 full_env.
Proof. constructor; cbn; intros; simplify_eq; lia. Qed.

(** A path without a global routing header, LMC 0. *)
Definition run_gids : gid_env :=
  {| q_ah := fun _ => Some {| ah_grh := None; ah_dlid := 9; ah_path_bits := 0 |};
     q_lmc := Some 0; q_gid := fun _ => None |}.

(** A plain MAD and a send of it. *)
Definition plain_mad (tid method : Z) : rmpp_mad :=
  {| m_tid := tid; m_mgmt_class := 7; m_class_version := 1; m_method := method; m_base_version := 1;
     m_src_qp := 1; m_slid := 9; m_rmpp_version := 0; m_rmpp_type := 0; m_rtime_flags := 0;
     m_rmpp_status := 0; m_seg_num := 0; m_paylen_newwin := 0; m_data := [];
     m_attr_mod := 0; m_grh := None; m_path_bits := 0 |}.

Definition plain_send (tid timeout_ms : Z) : send_wr :=
  {| w_mad := plain_mad tid 1; w_segs := []; w_seg_count := 0; w_seg_rmpp_size := 0; w_pad := 0;
     w_cur_seg := 0; w_last_ack_seg := 0; w_last_ack := 0; w_seg_num := 0; w_newwin := 0; w_timeout := 0;
     w_timeout_ms := timeout_ms; w_max_retries := 0; w_retries_left := 0; w_refcount := 0;
     w_status := IB_WC_SUCCESS |}.

Lemma plain_fresh k tid ms : 0 <= ms -> fresh_ok k (plain_send tid ms).
Proof. intros H. split; [done|]. by destruct k. Qed.

(** A request answered before the device reports it, one that times out after a
    retry, one that is refused, one that is cancelled. *)
Definition demo_run : list mad_cmd :=
  [KPost run_env None true 0 (plain_send 7 1000); KPost run_env None true 1 (plain_send 8 500);
   KPost full_env None true 1 (plain_send 9 500); KPost run_env None true 1 (plain_send 10 0);
   KRecv run_env demo_renv run_gids (plain_mad 7 129); KSent 0 0; KComplete run_env 1; KComplete run_env 0;
   KSent 0 0; KComplete run_env 0; KTick 2000; KTimeouts (fun _ => run_env); KSent 1 0; KComplete run_env 0;
   KRecv run_env demo_renv run_gids (plain_mad 99 129); KTick 90000].

Lemma cmds_ok_static T l g :
  Forall (fun c => forall g, cmd_ok T c g) l -> cmds_ok T l g.
Proof.
  revert g. induction l as [|c l IH]; intros g Hl; [done|]. apply Forall_cons_iff in Hl as [Hc Hl].
  split; [apply Hc|]. intros g1 _. by apply IH.
Qed.

Lemma demo_run_ok k : cmds_ok 100000 demo_run (new_agent k 16 false 1 100).
Proof.
  apply cmds_ok_static. unfold demo_run. rewrite !Forall_cons_iff. split_and!; try (by constructor); intros g; cbn [cmd_ok];
    try done; try (split; [|apply plain_fresh; lia]); auto using run_env_ok, full_env_ok; lia.
Qed.

Example demo_run_end :
  match mad_exec (demo_run ++ [KTimeouts (fun _ => run_env); KCancel]) (new_agent true 16 false 1 100) with
  | Some g => Some (g_send g, g_wait g, g_hw g, g_calls g, g_failed g, g_rcalls g, g_refs g)
  | None => None
  end = Some ([3%nat], [], [3%nat], [(0%nat, IB_WC_SUCCESS); (1%nat, IB_WC_RESP_TIMEOUT_ERR)], [2%nat], [Some 0%nat], 2).
Proof. vm_compute. reflexivity. Qed.

Lemma sends_reported_once_witness :
  exists g, mad_exec demo_run (new_agent true 16 false 1 100) = Some g /\
    forall id, (id < g_next g)%nat ->
      (cnt (Some id) (g_rcalls g) <= 1)%nat /\
      match g_wrs g !! id with
      | Some _ => (cnt id (g_send g ++ g_wait g ++ g_done g) = 1 /\
                   cnt id (map fst (g_calls g) ++ g_failed g) = 0)%nat
      | None => (cnt id (map fst (g_calls g) ++ g_failed g) = 1)%nat /\
                (cnt id (g_send g ++ g_wait g ++ g_done g ++ g_hw g) = 0)%nat /\
                (cnt (id, true) (map fst (g_pend g)) + cnt (id, false) (map fst (g_pend g)) = 0)%nat
      end.
Proof.
  apply (sends_reported_once 100000 true 16 false 1 100 demo_run);
    [lia|apply demo_run_ok|vm_compute; reflexivity|vm_compute; reflexivity|vm_compute; reflexivity].
Defined.

Lemma references_counted_witness :
  exists g, mad_exec demo_run (new_agent false 16 false 1 100) = Some g /\
    g_refs g = 1 + Z.of_nat (size (g_wrs g)).
Proof.
  destruct (references_counted 100000 false 16 false 1 100 demo_run) as (g & E & Hr & _);
    [lia|apply demo_run_ok|vm_compute; reflexivity|vm_compute; reflexivity|vm_compute; reflexivity|].
  exists g. exact (conj E Hr).
Defined.

Lemma timeout_sends_terminates_witness :
  exists g g', mad_exec demo_run (new_agent true 16 false 1 100) = Some g /\
    timeout_sends (fun _ => run_env) g = Some g'.
Proof.
  destruct (timeout_sends_terminates 100000 true 16 false 1 100 demo_run (fun _ => run_env)) as (g & g' & E & E' & _);
    [lia|apply demo_run_ok|vm_compute; reflexivity|vm_compute; reflexivity|vm_compute; reflexivity|intros i; exact run_env_ok|].
  exists g, g'. exact (conj E E').
Defined.

Lemma cancelled_agent_drains_witness :
  exists g, mad_exec (demo_run ++ [KCancel]) (new_agent true 16 false 1 100) = Some g /\
    (100000 + Z.of_nat (length demo_run + length (drain run_env IB_WC_WR_FLUSH_ERR g)) * 100000 < 2 ^ 63 ->
     exists g', mad_exec (drain run_env IB_WC_WR_FLUSH_ERR g) g = Some g' /\ g_wrs g' = ∅ /\ g_refs g' = 1 /\
       forall id, (id < g_next g')%nat -> cnt id (map fst (g_calls g') ++ g_failed g') = 1%nat).
Proof.
  apply (cancelled_agent_drains 100000 true 16 false 1 100 demo_run run_env IB_WC_WR_FLUSH_ERR);
    [lia|apply demo_run_ok|vm_compute; reflexivity|exact run_env_ok|vm_compute; reflexivity|vm_compute; reflexivity].
Defined.

(** A request whose response arrives, and is completed, while the device still has
    the work request, and whose timeout the client then changes. *)
Definition rearm_run : list mad_cmd :=
  [KPost run_env None true 3 (plain_send 7 1000);
   KRecv run_env demo_renv run_gids (plain_mad 7 129); KComplete run_env 0;
   KModify run_env 0 500;
   KRecv run_env demo_renv run_gids (plain_mad 7 129); KComplete run_env 0].

(** [ib_modify_mad] accepts a new timeout for a request whose response has already
    arrived, as long as the device has not completed it: the timeout is set although
    no reference is held for it ([rearms] is true of the run). A duplicate of the response is then delivered a
    second time and completes the send while the device still owns its buffer, and
    the completion of the device finds a send that is gone. *)
Theorem modify_rearms_answered_send :
  rearms rearm_run (new_agent false 16 false 1 100) = true /\
  (exists g, mad_exec rearm_run (new_agent false 16 false 1 100) = Some g /\
     g_calls g = [(0%nat, IB_WC_SUCCESS)] /\ g_rcalls g = [Some 0%nat; Some 0%nat] /\
     g_hw g = [0%nat] /\ g_wrs g = ∅) /\
  mad_exec (rearm_run ++ [KSent 0 0; KComplete run_env 0]) (new_agent false 16 false 1 100) = None.
Proof.
  split; [vm_compute; reflexivity|]. split; [|vm_compute; reflexivity].
  destruct (mad_exec rearm_run (new_agent false 16 false 1 100)) as [g|] eqn:E; [|vm_compute in E; discriminate].
  exists g. vm_compute in E. injection E as <-. by split_and!.
Qed.

(** A message of four segments with a response timeout of one second. *)
Definition rmpp_request : send_wr :=
  set_timeout_ms 1000 (set_wr_newwin 0 (set_seg_num 0 (demo_send 0))).

Definition second_segment_run : list mad_cmd :=
  [KPost run_env None true 3 rmpp_request; KSent 0 0; KComplete run_env 0;
   KRecv run_env demo_renv run_gids (demo_ack 1 2); KSent 0 0; KComplete run_env 0].

(** [send_next_seg] leaves the timer alone when the timeout of the request is
    between 1 and 2000 ms. A segment that is sent when an ACK arrives finds the send
    on the wait list, where the timer is a point in time; when it is back on the
    wait list, [wait_for_response] adds the clock a second time. The segment posted
    at time 50000 with a timeout of 1000 expires at 101000 instead of 51000. *)
Theorem segment_timer_is_absolute_twice :
  match mad_exec second_segment_run (new_agent true 16 false 1 50000) with
  | Some g => (g_wait g, w_timeout <$> g_wrs g !! 0%nat, g_now g)
  | None => ([], None, 0)
  end = ([0%nat], Some 101000, 50000) /\
  match mad_exec (second_segment_run ++ [KTick 100000; KTimeouts (fun _ => run_env)])
          (new_agent true 16 false 1 50000) with
  | Some g => (g_wait g, g_calls g)
  | None => ([], [(0%nat, 0)])
  end = ([0%nat], []).
Proof. split; vm_compute; reflexivity. Qed.
