(* ===== verification/SaCc.v ===== *)
(** * SA congestion control (mad.c)

    Requests to the subnet administrator are let out only while fewer than
    [max_outstanding] are in flight; the others wait in a FIFO whose entries expire
    (the timeout FIFO, [tf_*] in mad.c): one list in order of arrival, one in order of
    expiry, a timer for the first to expire and a work item that reports the expired.
    The code is part of this driver distribution, not of the upstream kernel.

    A request is named by a number; [cc_mads] holds the requests the subsystem owns,
    [cc_flight] those that were handed to [ib_send_mad], [cc_reports] the calls of the
    send handler, [cc_refused] the posts that returned an error, [cc_sent] the timeouts
    and retries given to each send. [jiffies] is [cc_now]. The timer is the time it is
    set to, if it is pending. *)

From Stdlib Require Import ZArith Lia.
From stdpp Require Import base tactics numbers list option gmap sorting.
From S2P Require Import MadReg.
From S2P Require Import Prelude RmppRecv RmppSend MadSend MadAgent.

Local Open Scope Z_scope.

Definition MIN_BETWEEN_ACTIVATIONS_MS : Z := 5.
Definition SA_CC_DEFAULT_OUTSTANDING_SA_MADS : Z := 16.
Definition SA_CC_DEFAULT_MAD_TIME_MS : Z := 20.
Definition SA_CC_DEFAULT_QUEUE_SIZE : Z := Z.shiftl 1 16.

(** ** State *)

(** An entry of the FIFO with what it needs of its request. *)
Record tf_entry := {
  te_exp_time : Z;
  te_canceled : bool;
  te_agent : nat;
  te_timeout_ms : Z
}.

Record to_fifo := {
  tf_to : list nat;
  tf_fifo : list nat;
  tf_num_items : Z;
  tf_stop_enqueue : bool;
  tf_timer : option Z;
  tf_work : bool
}.

Record sa_cc_data := {
  cc_outstanding : Z;
  cc_queue_size : Z;
  cc_time_sa_mad : Z;
  cc_max_outstanding : Z;
  cc_drops : Z;
  cc_tf : to_fifo;
  cc_mads : gmap nat tf_entry;
  cc_flight : list nat;
  cc_reports : list (nat * Z);
  cc_refused : list nat;
  cc_sent : list (nat * Z * Z);
  cc_now : Z;
  cc_next : nat
}.

(** Conversions of time, results of posting the [n]-th next request (its agent may be
    closing), and the word that is read when the head of the FIFO is taken for an
    entry. *)
Record cc_env := {
  ce_jiffies : Z -> Z;
  ce_msecs : Z -> Z;
  ce_closed : nat -> bool;
  ce_send : nat -> Z;
  ce_head_canceled : bool
}.

Definition with_tf (tf : to_fifo) (c : sa_cc_data) : sa_cc_data :=
  {| cc_outstanding := cc_outstanding c; cc_queue_size := cc_queue_size c;
     cc_time_sa_mad := cc_time_sa_mad c; cc_max_outstanding := cc_max_outstanding c;
     cc_drops := cc_drops c; cc_tf := tf; cc_mads := cc_mads c; cc_flight := cc_flight c;
     cc_reports := cc_reports c; cc_refused := cc_refused c; cc_sent := cc_sent c;
     cc_now := cc_now c; cc_next := cc_next c |}.
Definition with_mads (m : gmap nat tf_entry) (c : sa_cc_data) : sa_cc_data :=
  {| cc_outstanding := cc_outstanding c; cc_queue_size := cc_queue_size c;
     cc_time_sa_mad := cc_time_sa_mad c; cc_max_outstanding := cc_max_outstanding c;
     cc_drops := cc_drops c; cc_tf := cc_tf c; cc_mads := m; cc_flight := cc_flight c;
     cc_reports := cc_reports c; cc_refused := cc_refused c; cc_sent := cc_sent c;
     cc_now := cc_now c; cc_next := cc_next c |}.
Definition with_outstanding (n : Z) (c : sa_cc_data) : sa_cc_data :=
  {| cc_outstanding := n; cc_queue_size := cc_queue_size c;
     cc_time_sa_mad := cc_time_sa_mad c; cc_max_outstanding := cc_max_outstanding c;
     cc_drops := cc_drops c; cc_tf := cc_tf c; cc_mads := cc_mads c; cc_flight := cc_flight c;
     cc_reports := cc_reports c; cc_refused := cc_refused c; cc_sent := cc_sent c;
     cc_now := cc_now c; cc_next := cc_next c |}.
Definition with_drop (c : sa_cc_data) : sa_cc_data :=
  {| cc_outstanding := cc_outstanding c; cc_queue_size := cc_queue_size c;
     cc_time_sa_mad := cc_time_sa_mad c; cc_max_outstanding := cc_max_outstanding c;
     cc_drops := u64 (cc_drops c + 1); cc_tf := cc_tf c; cc_mads := cc_mads c; cc_flight := cc_flight c;
     cc_reports := cc_reports c; cc_refused := cc_refused c; cc_sent := cc_sent c;
     cc_now := cc_now c; cc_next := cc_next c |}.
Definition with_flight (l : list nat) (sent : list (nat * Z * Z)) (c : sa_cc_data) : sa_cc_data :=
  {| cc_outstanding := cc_outstanding c; cc_queue_size := cc_queue_size c;
     cc_time_sa_mad := cc_time_sa_mad c; cc_max_outstanding := cc_max_outstanding c;
     cc_drops := cc_drops c; cc_tf := cc_tf c; cc_mads := cc_mads c; cc_flight := l;
     cc_reports := cc_reports c; cc_refused := cc_refused c; cc_sent := cc_sent c ++ sent;
     cc_now := cc_now c; cc_next := cc_next c |}.
Definition with_reports (r : list (nat * Z)) (c : sa_cc_data) : sa_cc_data :=
  {| cc_outstanding := cc_outstanding c; cc_queue_size := cc_queue_size c;
     cc_time_sa_mad := cc_time_sa_mad c; cc_max_outstanding := cc_max_outstanding c;
     cc_drops := cc_drops c; cc_tf := cc_tf c; cc_mads := cc_mads c; cc_flight := cc_flight c;
     cc_reports := r; cc_refused := cc_refused c; cc_sent := cc_sent c;
     cc_now := cc_now c; cc_next := cc_next c |}.
Definition with_now (t : Z) (c : sa_cc_data) : sa_cc_data :=
  {| cc_outstanding := cc_outstanding c; cc_queue_size := cc_queue_size c;
     cc_time_sa_mad := cc_time_sa_mad c; cc_max_outstanding := cc_max_outstanding c;
     cc_drops := cc_drops c; cc_tf := cc_tf c; cc_mads := cc_mads c; cc_flight := cc_flight c;
     cc_reports := cc_reports c; cc_refused := cc_refused c; cc_sent := cc_sent c;
     cc_now := t; cc_next := cc_next c |}.

(** A request with the next number; a refused one is the client's again. *)
Definition with_next (e : tf_entry) (c : sa_cc_data) : sa_cc_data :=
  {| cc_outstanding := cc_outstanding c; cc_queue_size := cc_queue_size c;
     cc_time_sa_mad := cc_time_sa_mad c; cc_max_outstanding := cc_max_outstanding c;
     cc_drops := cc_drops c; cc_tf := cc_tf c; cc_mads := <[cc_next c := e]> (cc_mads c);
     cc_flight := cc_flight c; cc_reports := cc_reports c; cc_refused := cc_refused c;
     cc_sent := cc_sent c; cc_now := cc_now c; cc_next := S (cc_next c) |}.
Definition refuse (id : nat) (c : sa_cc_data) : sa_cc_data :=
  {| cc_outstanding := cc_outstanding c; cc_queue_size := cc_queue_size c;
     cc_time_sa_mad := cc_time_sa_mad c; cc_max_outstanding := cc_max_outstanding c;
     cc_drops := cc_drops c; cc_tf := cc_tf c; cc_mads := delete id (cc_mads c);
     cc_flight := cc_flight c; cc_reports := cc_reports c; cc_refused := cc_refused c ++ [id];
     cc_sent := cc_sent c; cc_now := cc_now c; cc_next := cc_next c |}.

Definition put_lists (to fifo : list nat) (num : Z) (tf : to_fifo) : to_fifo :=
  {| tf_to := to; tf_fifo := fifo; tf_num_items := num; tf_stop_enqueue := tf_stop_enqueue tf;
     tf_timer := tf_timer tf; tf_work := tf_work tf |}.
Definition put_timer (t : option Z) (tf : to_fifo) : to_fifo :=
  {| tf_to := tf_to tf; tf_fifo := tf_fifo tf; tf_num_items := tf_num_items tf;
     tf_stop_enqueue := tf_stop_enqueue tf; tf_timer := t; tf_work := tf_work tf |}.
Definition put_work (w : bool) (tf : to_fifo) : to_fifo :=
  {| tf_to := tf_to tf; tf_fifo := tf_fifo tf; tf_num_items := tf_num_items tf;
     tf_stop_enqueue := tf_stop_enqueue tf; tf_timer := tf_timer tf; tf_work := w |}.
Definition tf_stop (tf : to_fifo) : to_fifo :=
  {| tf_to := tf_to tf; tf_fifo := tf_fifo tf; tf_num_items := tf_num_items tf;
     tf_stop_enqueue := true; tf_timer := tf_timer tf; tf_work := tf_work tf |}.

Definition set_exp (t : Z) (canceled : bool) (e : tf_entry) : tf_entry :=
  {| te_exp_time := t; te_canceled := canceled; te_agent := te_agent e; te_timeout_ms := te_timeout_ms e |}.

(** [notify_failure]: the send handler is called, the request is the client's again. *)
Definition notify_failure (id : nat) (status : Z) (c : sa_cc_data) : sa_cc_data :=
  with_reports (cc_reports c ++ [(id, status)]) (with_mads (delete id (cc_mads c)) c).

(** ** The timeout FIFO *)

(** The timer expires. *)
Definition activate_timeout_handler_task (tf : to_fifo) : to_fifo := put_work true (put_timer None tf).

Definition adjusted_time (env : cc_env) (last next : Z) : Z :=
  let min_next := u64 (last + ce_jiffies env MIN_BETWEEN_ACTIVATIONS_MS) in
  if time_after min_next next then min_next else next.

Definition exp_of (m : gmap nat tf_entry) (id : nat) : Z := from_option te_exp_time 0 (m !! id).

(** The walk over the list of expiries up to the first that is still to come. *)
Fixpoint expired_prefix (curr_time : Z) (m : gmap nat tf_entry) (l : list nat)
  : option (list nat * list nat) :=
  match l with
  | [] => Some ([], [])
  | id :: l' =>
      e ← m !! id;
      if time_after (te_exp_time e) curr_time then Some ([], l) else
      '(a, b) ← expired_prefix curr_time m l';
      Some (id :: a, b)
  end.

Definition report_expired (id : nat) (c : sa_cc_data) : option sa_cc_data :=
  e ← cc_mads c !! id;
  Some (notify_failure id (if te_canceled e then IB_WC_WR_FLUSH_ERR else IB_WC_RESP_TIMEOUT_ERR) c).

Fixpoint report_all (l : list nat) (c : sa_cc_data) : option sa_cc_data :=
  match l with
  | [] => Some c
  | id :: l' => c1 ← report_expired id c; report_all l' c1
  end.

Definition remove_all (l from : list nat) : list nat := filter (fun x => x ∉ l) from.

(** The loop of [timeout_handler_task], one round per element of [times], the values
    of [jiffies] it reads. *)
Fixpoint timeout_rounds (times : list Z) (c : sa_cc_data) : option (Z * sa_cc_data) :=
  match times with
  | [] => None
  | t :: times' =>
      let tf := cc_tf c in
      '(exp, rest) ← expired_prefix t (cc_mads c) (tf_to tf);
      let tf1 := put_lists rest (remove_all exp (tf_fifo tf)) (u32 (tf_num_items tf - Z.of_nat (length exp))) tf in
      c1 ← report_all exp (with_tf tf1 (with_now t c));
      if bool_decide (exp = []) then Some (t, c1) else timeout_rounds times' c1
  end.

(** The work is no longer pending when it has run (nothing it does depends on that). *)
Definition timeout_handler_task (env : cc_env) (times : list Z) (c : sa_cc_data) : option sa_cc_data :=
  '(t, c1) ← timeout_rounds times c;
  let c1 := with_tf (put_work false (cc_tf c1)) c1 in
  match tf_to (cc_tf c1) with
  | [] => Some c1
  | id :: _ =>
      e ← cc_mads c1 !! id;
      Some (with_tf (put_timer (Some (adjusted_time env t (te_exp_time e))) (cc_tf c1)) c1)
  end.

Definition tf_create : to_fifo :=
  {| tf_to := []; tf_fifo := []; tf_num_items := 0; tf_stop_enqueue := false; tf_timer := None; tf_work := false |}.

(** The list of expiries with an item in its place, searched from the end; the timer
    when the item is the first. *)
Definition insert_timed (id : nat) (exp_time : Z) (m : gmap nat tf_entry) (tf : to_fifo) : to_fifo :=
  let n := wait_place exp_time (exp_of m) (reverse (tf_to tf)) in
  let tf1 := put_lists (take n (tf_to tf) ++ id :: drop n (tf_to tf)) (tf_fifo tf) (tf_num_items tf) tf in
  if bool_decide (n = O) then put_timer (Some exp_time) tf1 else tf1.

Definition tf_enqueue (env : cc_env) (id : nat) (timeout_ms : Z) (c : sa_cc_data)
  : option (Z * sa_cc_data) :=
  e ← cc_mads c !! id;
  let exp_time := u64 (cc_now c + ce_jiffies env timeout_ms) in
  let m := <[id := set_exp exp_time (te_canceled e) e]> (cc_mads c) in
  let c := with_mads m c in
  let tf := cc_tf c in
  if (cc_queue_size c <=? tf_num_items tf) || tf_stop_enqueue tf then Some (err EBUSY, with_drop c) else
  let tf := insert_timed id exp_time m tf in
  Some (0, with_tf (put_lists (tf_to tf) (tf_fifo tf ++ [id]) (u32 (tf_num_items tf + 1)) tf) c).

(** The first entry that is not canceled. *)
Fixpoint find_live (m : gmap nat tf_entry) (l : list nat) : option (option nat) :=
  match l with
  | [] => Some None
  | id :: l' => e ← m !! id; if te_canceled e then find_live m l' else Some (Some id)
  end.

(** [tf_dequeue]: the request and the time it has left. When every entry is canceled
    the loop ends at the head of the list, which is then read as an entry. *)
Definition tf_dequeue (env : cc_env) (c : sa_cc_data) : option (option (nat * Z) * sa_cc_data) :=
  let tf := cc_tf c in
  if bool_decide (tf_fifo tf = []) then Some (None, c) else
  tmp ← find_live (cc_mads c) (tf_fifo tf);
  match tmp with
  | None => if ce_head_canceled env then Some (None, c) else None
  | Some id =>
      e ← cc_mads c !! id;
      tf1 ← match tf_to tf with
            | x :: rest =>
                if bool_decide (x = id) then
                  match rest with
                  | [] => Some (put_timer None tf)
                  | y :: _ => e1 ← cc_mads c !! y; Some (put_timer (Some (te_exp_time e1)) tf)
                  end
                else Some tf
            | [] => Some tf
            end;
      let tf2 := put_lists (list_del id (tf_to tf)) (list_del id (tf_fifo tf)) (u32 (tf_num_items tf - 1)) tf1 in
      let time_left := u64 (te_exp_time e - cc_now c) in
      let time_left := if s64 time_left <=? 0 then 0 else time_left in
      Some (Some (id, u32 (ce_msecs env time_left)), with_tf tf2 c)
  end.

Definition of_agent (agent : nat) (m : gmap nat tf_entry) (id : nat) : bool :=
  from_option (fun e => bool_decide (te_agent e = agent)) false (m !! id).

Fixpoint notify_failures (l : list nat) (status : Z) (c : sa_cc_data) : sa_cc_data :=
  match l with
  | [] => c
  | id :: l' => notify_failures l' status (notify_failure id status c)
  end.

(** [tf_free_agent]: the entries of the agent are collected in reverse order. *)
Definition tf_free_agent (agent : nat) (c : sa_cc_data) : sa_cc_data :=
  let tf := cc_tf c in
  let mine := filter (fun id => of_agent agent (cc_mads c) id = true) (tf_fifo tf) in
  let tf1 := put_lists (remove_all mine (tf_to tf)) (remove_all mine (tf_fifo tf))
               (u32 (tf_num_items tf - Z.of_nat (length mine))) tf in
  notify_failures (reverse mine) IB_WC_WR_FLUSH_ERR (with_tf tf1 c).

Definition tf_modify_item (env : cc_env) (agent id : nat) (timeout_ms : Z) (c : sa_cc_data)
  : option (Z * sa_cc_data) :=
  let tf := cc_tf c in
  if negb (bool_decide (id ∈ tf_fifo tf) && of_agent agent (cc_mads c) id) then Some (err ENXIO, c) else
  e ← cc_mads c !! id;
  let exp_time := u64 (cc_now c + ce_jiffies env timeout_ms) in
  if truthy timeout_ms then
    let m := <[id := set_exp exp_time (te_canceled e) e]> (cc_mads c) in
    let tf1 := put_lists (list_del id (tf_to tf)) (tf_fifo tf) (tf_num_items tf) tf in
    Some (0, with_tf (insert_timed id exp_time m tf1) (with_mads m c))
  else
    let m := <[id := set_exp exp_time true e]> (cc_mads c) in
    let tf1 := put_lists (id :: list_del id (tf_to tf)) (list_del id (tf_fifo tf) ++ [id]) (tf_num_items tf) tf in
    Some (0, with_tf (put_timer (Some exp_time) tf1) (with_mads m c)).

(** ** Congestion control *)

Definition is_sa_cc_mad (timeout_ms mgmt_class method : Z) : bool :=
  truthy timeout_ms && (mgmt_class =? IB_MGMT_CLASS_SUBN_ADM) && ((method =? 1) || (method =? 2)).

(** [send_sa_cc_mad]: the request is in flight when the result is 0. *)
Definition send_sa_cc_mad (env : cc_env) (n id : nat) (timeout_ms retries : Z) (c : sa_cc_data)
  : Z * sa_cc_data :=
  if ce_closed env n then (err EIO, c) else
  let ret := ce_send env n in
  (ret, if ret <? 0 then c else with_flight (cc_flight c ++ [id]) [(id, timeout_ms, retries)] c).

(** The timeout and the retries of a request that leaves the FIFO. *)
Definition share (time_left_ms timeout_ms : Z) : Z * Z :=
  if timeout_ms <? time_left_ms then (timeout_ms, u32 (time_left_ms / timeout_ms - 1))
  else (time_left_ms, 0).

(** The loop of [sa_cc_mad_done]. *)
Fixpoint mad_done_loop (fuel : nat) (env : cc_env) (c : sa_cc_data) : option sa_cc_data :=
  match fuel with
  | O => None
  | S n =>
      '(tfe, c) ← tf_dequeue env c;
      match tfe with
      | None => Some (if 0 <? cc_outstanding c then with_outstanding (cc_outstanding c - 1) c else c)
      | Some (id, time_left_ms) =>
          e ← cc_mads c !! id;
          let '(timeout_ms, retries) := share (u32 (time_left_ms + cc_time_sa_mad c)) (te_timeout_ms e) in
          let '(ret, c) := send_sa_cc_mad env n id timeout_ms retries c in
          if ret =? 0 then Some c else
          mad_done_loop n env
            (notify_failure id (if ret =? err ENOMEM then IB_WC_GENERAL_ERR else IB_WC_LOC_QP_OP_ERR) c)
      end
  end.

Definition sa_cc_mad_done (env : cc_env) (c : sa_cc_data) : option sa_cc_data :=
  mad_done_loop (S (length (tf_fifo (cc_tf c)))) env c.

Definition sa_cc_mad_send (env : cc_env) (id : nat) (retries_left : Z) (c : sa_cc_data)
  : option (Z * sa_cc_data) :=
  e ← cc_mads c !! id;
  if cc_outstanding c <? cc_max_outstanding c then
    let c := with_outstanding (cc_outstanding c + 1) c in
    let '(ret, c) := send_sa_cc_mad env (S (length (tf_fifo (cc_tf c)))) id (te_timeout_ms e) retries_left c in
    if ret =? 0 then Some (0, c) else c ← sa_cc_mad_done env c; Some (ret, c)
  else
    let qtime := s32 (s32 (te_timeout_ms e * (retries_left + 1)) - cc_time_sa_mad c) in
    tf_enqueue env id (if qtime <? 0 then 0 else qtime) c.

Definition modify_sa_cc_mad (env : cc_env) (agent id : nat) (timeout_ms : Z) (c : sa_cc_data)
  : option (Z * sa_cc_data) :=
  let qtime := if cc_time_sa_mad c <? timeout_ms then s32 (timeout_ms - cc_time_sa_mad c) else 0 in
  tf_modify_item env agent id (u32 qtime) c.

Definition cancel_sa_cc_mads (agent : nat) (c : sa_cc_data) : sa_cc_data := tf_free_agent agent c.

Definition sa_cc_init (now : Z) : sa_cc_data :=
  {| cc_outstanding := 0; cc_queue_size := SA_CC_DEFAULT_QUEUE_SIZE;
     cc_time_sa_mad := SA_CC_DEFAULT_MAD_TIME_MS; cc_max_outstanding := SA_CC_DEFAULT_OUTSTANDING_SA_MADS;
     cc_drops := 0; cc_tf := tf_create; cc_mads := ∅; cc_flight := []; cc_reports := []; cc_refused := [];
     cc_sent := []; cc_now := now; cc_next := 0 |}.

(** [sa_cc_destroy] up to [tf_free]. *)
Fixpoint destroy_loop (fuel : nat) (env : cc_env) (c : sa_cc_data) : option sa_cc_data :=
  match fuel with
  | O => None
  | S n =>
      '(tfe, c) ← tf_dequeue env c;
      match tfe with
      | None => Some c
      | Some (id, _) => destroy_loop n env (notify_failure id IB_WC_WR_FLUSH_ERR c)
      end
  end.

Definition sa_cc_destroy (env : cc_env) (c : sa_cc_data) : option sa_cc_data :=
  let c := with_tf (tf_stop (cc_tf c)) c in
  destroy_loop (S (length (tf_fifo (cc_tf c)))) env c.

(** ** Steps *)

Inductive cc_cmd :=
| CPost (env : cc_env) (agent : nat) (timeout_ms retries : Z)
| CDone (env : cc_env) (i : nat) (status : Z)
| CModify (env : cc_env) (agent id : nat) (timeout_ms : Z)
| CCancel (agent : nat)
| CTick (t : Z)
| CTimer
| CWork (env : cc_env) (times : list Z).

Definition cc_exec1 (k : cc_cmd) (c : sa_cc_data) : option sa_cc_data :=
  match k with
  | CPost env agent timeout_ms retries =>
      let id := cc_next c in
      let e := {| te_exp_time := 0; te_canceled := false; te_agent := agent; te_timeout_ms := timeout_ms |} in
      '(ret, c1) ← sa_cc_mad_send env id retries (with_next e c);
      Some (if ret =? 0 then c1 else refuse id c1)
  | CDone env i status =>
      match cc_flight c !! i with
      | None => Some c
      | Some id =>
          c1 ← sa_cc_mad_done env (with_flight (delete i (cc_flight c)) [] c);
          Some (notify_failure id status c1)
      end
  | CModify env agent id timeout_ms => snd <$> modify_sa_cc_mad env agent id timeout_ms c
  | CCancel agent => Some (cancel_sa_cc_mads agent c)
  | CTick t => Some (with_now (Z.max t (cc_now c)) c)
  | CTimer =>
      match tf_timer (cc_tf c) with
      | Some t => Some (if t <=? cc_now c then with_tf (activate_timeout_handler_task (cc_tf c)) c else c)
      | None => Some c
      end
  | CWork env times => if tf_work (cc_tf c) then timeout_handler_task env times c else Some c
  end.

Fixpoint cc_exec (l : list cc_cmd) (c : sa_cc_data) : option sa_cc_data :=
  match l with
  | [] => Some c
  | k :: l' => c1 ← cc_exec1 k c; cc_exec l' c1
  end.

(** ** The invariant *)

(** Time is a point of 63 bits. *)
Lemma time_after_spec a b : 0 <= a < 2 ^ 63 -> 0 <= b < 2 ^ 63 -> time_after a b = (b <? a).
Proof.
  intros Ha Hb. unfold time_after, s64. rewrite swrap_id by lia.
  destruct (Z.ltb_spec b a); [apply Z.ltb_lt|apply Z.ltb_ge]; lia.
Qed.

(** An expiry as it counts at the time [now]: what has passed has passed. *)
Definition due (now : Z) (m : gmap nat tf_entry) (id : nat) : Z := Z.max now (exp_of m id).

Definition in_order (now : Z) (m : gmap nat tf_entry) (l : list nat) : Prop :=
  StronglySorted (fun a b => due now m a <= due now m b) l.

Definition live_queued (c : sa_cc_data) : Prop :=
  exists id e, id ∈ tf_fifo (cc_tf c) /\ cc_mads c !! id = Some e /\ te_canceled e = false.

(** [J] is the delay of [MIN_BETWEEN_ACTIVATIONS_MS], [H] bounds all times. *)
Definition timer_ok (J now : Z) (m : gmap nat tf_entry) (tf : to_fifo) : Prop :=
  tf_work tf = true \/ tf_to tf = [] \/
  exists t, tf_timer tf = Some t /\ forall id, id ∈ tf_to tf -> t <= Z.max (exp_of m id) (now + J).

(** [D] bounds the timeouts. *)
Section invariant.
Context (D : Z).

(** The parts of the state that only the FIFO changes. *)
Record fifo_inv (J H : Z) (c : sa_cc_data) : Prop := {
  fi_num : tf_num_items (cc_tf c) = Z.of_nat (length (tf_fifo (cc_tf c)));
  fi_size : tf_num_items (cc_tf c) <= cc_queue_size c < 2 ^ 32;
  fi_to : forall id, cnt id (tf_to (cc_tf c)) = cnt id (tf_fifo (cc_tf c));
  fi_order : in_order (cc_now c) (cc_mads c) (tf_to (cc_tf c));
  fi_timer : timer_ok J (cc_now c) (cc_mads c) (cc_tf c);
  fi_now : 0 < cc_now c < H /\ cc_now c + D <= H;
  fi_times : forall id e, cc_mads c !! id = Some e -> 0 <= te_exp_time e < H /\ 0 < te_timeout_ms e
}.

(** [held] slots of the window are taken by requests that are neither in flight nor
    queued, [hand] are the requests the running operation holds. A request is in the
    hand, queued, in flight, reported or refused, and in one place only. *)
Record cc_inv (J H held : Z) (hand : list nat) (c : sa_cc_data) : Prop := {
  ci_fifo :> fifo_inv J H c;
  ci_one : forall id, (cnt id hand + cnt id (tf_fifo (cc_tf c)) + cnt id (cc_flight c) +
                       cnt id (map fst (cc_reports c)) + cnt id (cc_refused c) =
                       b2n (bool_decide (id < cc_next c)%nat))%nat;
  ci_mads : forall id, is_Some (cc_mads c !! id) <->
              (0 < cnt id hand + cnt id (tf_fifo (cc_tf c)) + cnt id (cc_flight c))%nat;
  ci_out : cc_outstanding c = Z.of_nat (length (cc_flight c)) + held;
  ci_max : cc_outstanding c <= cc_max_outstanding c;
  ci_busy : live_queued c -> cc_outstanding c = cc_max_outstanding c
}.

Record cc_env_ok (J : Z) (env : cc_env) : Prop := {
  ck_zero : ce_jiffies env 0 = 0;
  ck_range : forall ms, 0 <= ms -> 0 <= ce_jiffies env ms < D;
  ck_min : ce_jiffies env MIN_BETWEEN_ACTIVATIONS_MS <= J;
  ck_send : forall n, ce_send env n <= 0
}.

(** The search of [tf_dequeue] may end at the head of the FIFO: there is a cancelled
    request in it, and the word that is read behind the head is 0. *)
Definition head_read (env : cc_env) (c : sa_cc_data) : Prop :=
  ce_head_canceled env = false /\
  exists id e, id ∈ tf_fifo (cc_tf c) /\ cc_mads c !! id = Some e /\ te_canceled e = true.

(** *** Order *)

Lemma due_mono now now' m a b : now <= now' -> due now m a <= due now m b -> due now' m a <= due now' m b.
Proof. unfold due. lia. Qed.

Lemma in_order_now now now' m l : now <= now' -> in_order now m l -> in_order now' m l.
Proof.
  intros Hn Hs. induction Hs as [|x l Hs IH Hx]; constructor; [done|].
  eapply Forall_impl; [apply Hx|]. intros y. by apply due_mono.
Qed.

Lemma in_order_ext now m m' l :
  (forall id, id ∈ l -> exp_of m' id = exp_of m id) -> in_order now m l -> in_order now m' l.
Proof.
  intros He Hs. induction Hs as [|x l Hs IH Hx]; constructor.
  - apply IH. intros id Hin. apply He. by right.
  - apply Forall_forall. intros y Hy. unfold due. rewrite !He by (by constructor).
    apply (proj1 (Forall_forall _ _) Hx y Hy).
Qed.

Lemma sorted_filter {A} (R : A -> A -> Prop) (P : A -> Prop) `{forall x, Decision (P x)} (l : list A) :
  StronglySorted R l -> StronglySorted R (filter P l).
Proof.
  intros Hs. induction Hs as [|x l Hs IH Hx]; [constructor|]. rewrite filter_cons. case_decide; [|done].
  constructor; [done|]. apply Forall_forall. intros y Hy. apply list_elem_of_filter in Hy as [_ Hy].
  apply (proj1 (Forall_forall _ _) Hx y Hy).
Qed.

Lemma sorted_insert {A} (R : A -> A -> Prop) (x : A) (l1 l2 : list A) :
  StronglySorted R (l1 ++ l2) -> Forall (fun y => R y x) l1 -> Forall (R x) l2 ->
  StronglySorted R (l1 ++ x :: l2).
Proof.
  intros Hs H1 H2. induction l1 as [|y l1 IH]; cbn [app] in *; [by constructor|].
  apply StronglySorted_inv in Hs as [Hs Hy]. apply Forall_cons_iff in H1 as [Hyx H1].
  rewrite Forall_app in Hy. destruct Hy as [Hy1 Hy2]. constructor; [by apply IH|].
  apply Forall_app. split; [done|]. by constructor.
Qed.

Lemma sorted_app_le {A} (R : A -> A -> Prop) (l1 l2 : list A) x y :
  StronglySorted R (l1 ++ l2) -> x ∈ l1 -> y ∈ l2 -> R x y.
Proof.
  intros Hs Hx Hy. induction l1 as [|z l1 IH]; [by inversion Hx|]. cbn [app] in Hs.
  apply StronglySorted_inv in Hs as [Hs Hz]. apply elem_of_cons in Hx as [->|Hx]; [|by apply IH].
  apply (proj1 (Forall_forall _ _) Hz y). apply elem_of_app. by right.
Qed.

Lemma wait_place_le e tm r : (wait_place e tm r <= length r)%nat.
Proof. induction r as [|x r IH]; cbn; [lia|]. destruct (time_after _ _); cbn; lia. Qed.

(** The place found from the end of the list. *)
Lemma wait_place_split e tm l :
  let n := wait_place e tm (reverse l) in
  Forall (fun x => time_after e (tm x) = false) (drop n l) /\
  (n = O \/ exists l1 p, take n l = l1 ++ [p] /\ time_after e (tm p) = true).
Proof.
  cbv zeta. induction l as [|x l IH] using rev_ind; [by split; [|left]|].
  rewrite reverse_snoc. cbn [wait_place]. destruct (time_after e (tm x)) eqn:Et.
  - cbn [length]. rewrite length_reverse.
    assert (S (length l) = length (l ++ [x])) as E by (rewrite length_app; cbn; lia).
    rewrite E, drop_all, take_ge by lia. split; [done|]. right. by exists l, x.
  - destruct IH as [Hd Ht]. set (n := wait_place e tm (reverse l)) in *.
    assert (n <= length l)%nat as Hn by (unfold n; rewrite <- length_reverse; apply wait_place_le).
    rewrite drop_app_le, take_app_le by done. split; [|done]. apply Forall_app. split; [done|]. by constructor.
Qed.

Lemma exp_of_insert_ne m id x e : x <> id -> exp_of (<[id:=e]> m) x = exp_of m x.
Proof. intros Hx. unfold exp_of. by rewrite lookup_insert_ne. Qed.

Lemma exp_of_insert m id e : exp_of (<[id:=e]> m) id = te_exp_time e.
Proof. unfold exp_of. by rewrite lookup_insert_eq. Qed.

Lemma exp_of_delete_ne m id x : x <> id -> exp_of (delete id m) x = exp_of m x.
Proof. intros Hx. unfold exp_of. by rewrite lookup_delete_ne. Qed.

Lemma timer_ok_ext J now m m' tf :
  (forall id, id ∈ tf_to tf -> exp_of m' id = exp_of m id) -> timer_ok J now m tf -> timer_ok J now m' tf.
Proof.
  intros He [Hw|[Ht|(t & Et & Hb)]]; [by left|by right; left|]. right. right. exists t. split; [done|].
  intros id Hin. rewrite He by done. by apply Hb.
Qed.

(** An item enters the list of expiries. *)
Lemma insert_timed_spec J now m id e tf :
  0 <= J -> exp_of m id = e -> now <= e -> 0 <= e < 2 ^ 63 ->
  (forall x, x ∈ tf_to tf -> 0 <= exp_of m x < 2 ^ 63) -> in_order now m (tf_to tf) -> timer_ok J now m tf ->
  let tf' := insert_timed id e m tf in
  tf_fifo tf' = tf_fifo tf /\ tf_num_items tf' = tf_num_items tf /\ tf_stop_enqueue tf' = tf_stop_enqueue tf /\
  tf_work tf' = tf_work tf /\
  (forall x, cnt x (tf_to tf') = (cnt x [id] + cnt x (tf_to tf))%nat) /\
  in_order now m (tf_to tf') /\ timer_ok J now m tf'.
Proof.
  intros HJ Ee Hne He Hx Hord Htm. unfold insert_timed. set (l := tf_to tf) in *.
  set (n := wait_place e (exp_of m) (reverse l)).
  destruct (wait_place_split e (exp_of m) l) as [Hd Ht]. fold n in Hd, Ht.
  set (tf1 := put_lists _ _ _ _).
  assert (forall b, tf_to (if b : bool then put_timer (Some e) tf1 else tf1) = take n l ++ id :: drop n l) as Eto
    by (by intros []).
  cbv zeta. rewrite Eto.
  assert (Forall (fun x => e <= exp_of m x) (drop n l)) as Hdrop.
  { apply Forall_forall. intros x Hin. pose proof (proj1 (Forall_forall _ _) Hd x Hin) as Hf.
    assert (x ∈ l) as Hl by (rewrite <- (take_drop n l), elem_of_app; by right).
    cbn beta in Hf. rewrite time_after_spec in Hf by auto. apply Z.ltb_ge in Hf. lia. }
  split_and!; [by destruct (bool_decide _)..| | |].
  - intros x. rewrite cnt_app, cnt_insert_at, cnt_one. done.
  - apply sorted_insert; [by rewrite take_drop| |].
    + destruct Ht as [->|(l1 & p & Etk & Hp)]; [constructor|].
      assert (p ∈ l) as Hpl by (rewrite <- (take_drop n l), Etk, !elem_of_app; left; right; by left).
      rewrite time_after_spec in Hp by auto. apply Z.ltb_lt in Hp.
      rewrite Etk. apply Forall_app. split; [|by constructor; [unfold due; lia|]].
      apply Forall_forall. intros x Hin.
      assert (due now m x <= due now m p) as Hxp; [|unfold due in *; lia].
      unfold in_order in Hord. rewrite <- (take_drop n l), Etk, <- app_assoc in Hord.
      exact (sorted_app_le _ _ _ x p Hord Hin ltac:(by left)).
    + eapply Forall_impl; [exact Hdrop|]. intros x ?. cbn beta in *. unfold due. lia.
  - destruct (bool_decide (n = O)) eqn:En.
    + apply bool_decide_eq_true in En. right. right. exists e. split; [done|]. cbn [put_timer tf_to tf1 put_lists].
      rewrite En in *. cbn [take app drop] in *. intros x Hin. apply elem_of_cons in Hin as [->|Hin]; [lia|].
      pose proof (proj1 (Forall_forall _ _) Hdrop x Hin). cbn beta in *. lia.
    + apply bool_decide_eq_false in En. destruct Ht as [|(l1 & p & Etk & Hp)]; [done|].
      assert (p ∈ l) as Hpl by (rewrite <- (take_drop n l), Etk, !elem_of_app; left; right; by left).
      rewrite time_after_spec in Hp by auto. apply Z.ltb_lt in Hp.
      destruct Htm as [Hw|[Hz|(t & Et & Hb)]]; [by left|unfold l in Hpl; rewrite Hz in Hpl; by inversion Hpl|].
      right. right. exists t. split; [done|]. cbn [tf1 put_lists tf_to].
      intros x Hin. rewrite elem_of_app, elem_of_cons in Hin.
      assert (x = id \/ x ∈ l) as [->|Hin'].
      { rewrite <- (take_drop n l), elem_of_app. tauto. }
      * specialize (Hb p Hpl). lia.
      * by apply Hb.
Qed.

Lemma expired_prefix_spec now t m l :
  in_order now m l -> now <= t -> 0 <= t < 2 ^ 63 ->
  (forall x, x ∈ l -> is_Some (m !! x) /\ 0 <= exp_of m x < 2 ^ 63) ->
  exists a b, expired_prefix t m l = Some (a, b) /\ l = a ++ b /\
    Forall (fun x => exp_of m x <= t) a /\ Forall (fun x => t < exp_of m x) b.
Proof.
  intros Hord Hn Ht. induction l as [|x l IH]; intros Hx; cbn [expired_prefix]; [by exists [], []|].
  apply StronglySorted_inv in Hord as [Hord Hle].
  destruct (Hx x) as [[e E] Hr]; [by left|]. rewrite E. cbn [mbind option_bind].
  assert (exp_of m x = te_exp_time e) as Ee by (unfold exp_of; by rewrite E).
  rewrite time_after_spec, <- Ee by lia. destruct (Z.ltb_spec t (exp_of m x)) as [Hlt|Hge].
  - exists [], (x :: l). split_and!; [done|done|constructor|]. constructor; [done|].
    eapply Forall_impl; [exact Hle|]. intros y. cbn beta. unfold due. lia.
  - destruct (IH Hord) as (a & b & -> & -> & Ha & Hb); [intros y Hy; apply Hx; by right|].
    cbn [mbind option_bind]. exists (x :: a), b. split_and!; try done. by constructor.
Qed.

(** *** Elementary changes *)

Lemma length_del id l : (length (list_del id l) + cnt id l = length l)%nat.
Proof.
  induction l as [|x l IH]; [done|]. unfold list_del in *. rewrite filter_cons, cnt_cons.
  destruct (decide (x <> id)); cbn [length]; case_decide; subst; try done; lia.
Qed.

Lemma elem_del x id l : x ∈ list_del id l -> x ∈ l /\ x <> id.
Proof. unfold list_del. rewrite list_elem_of_filter. tauto. Qed.

(** A request in the hand is in no list. *)
Lemma in_hand J H held hand id c :
  cc_inv J H held hand c -> (0 < cnt id hand)%nat ->
  cnt id hand = 1%nat /\ cnt id (tf_fifo (cc_tf c)) = 0%nat /\ cnt id (tf_to (cc_tf c)) = 0%nat /\
  cnt id (cc_flight c) = 0%nat /\ cnt id (map fst (cc_reports c)) = 0%nat /\ cnt id (cc_refused c) = 0%nat.
Proof.
  intros Hc Hh. pose proof (ci_one _ _ _ _ _ Hc id) as H1. rewrite (fi_to _ _ _ Hc id).
  assert (b2n (bool_decide (id < cc_next c)%nat) <= 1)%nat by (destruct (bool_decide _); cbn; lia). lia.
Qed.

Lemma queued_entry J H held hand c id :
  cc_inv J H held hand c -> id ∈ tf_to (cc_tf c) ->
  is_Some (cc_mads c !! id) /\ 0 <= exp_of (cc_mads c) id < H.
Proof.
  intros Hc Hin. apply cnt_elem in Hin. rewrite (fi_to _ _ _ Hc) in Hin.
  assert (is_Some (cc_mads c !! id)) as [e E] by (apply (ci_mads _ _ _ _ _ Hc); lia).
  split; [by exists e|]. unfold exp_of. rewrite E. apply (fi_times _ _ _ Hc id e E).
Qed.

(** Giving up the entry of a request that is not queued. *)
Lemma forget_fifo J H c id m :
  fifo_inv J H c -> cnt id (tf_to (cc_tf c)) = 0%nat -> m = delete id (cc_mads c) ->
  fifo_inv J H (with_mads m c).
Proof.
  intros [] Hid ->.
  assert (forall x, x ∈ tf_to (cc_tf c) -> exp_of (delete id (cc_mads c)) x = exp_of (cc_mads c) x) as Hext.
  { intros x Hin. apply exp_of_delete_ne. intros ->. apply cnt_elem in Hin. lia. }
  constructor; try done.
  - by eapply in_order_ext.
  - by eapply timer_ok_ext.
  - cbn [with_mads cc_mads]. intros x e E. apply lookup_delete_Some in E as [_ E]. eauto.
Qed.

Lemma forgotten_mads (m : gmap nat tf_entry) id x n n' :
  (is_Some (m !! x) <-> (0 < n)%nat) -> (x <> id -> n' = n) -> (x = id -> n' = 0%nat) ->
  is_Some (delete id m !! x) <-> (0 < n')%nat.
Proof.
  intros Hm Hne Heq. destruct (decide (x = id)) as [->|Hx].
  - rewrite lookup_delete_eq, Heq by done. split; [by intros []|lia].
  - by rewrite lookup_delete_ne, Hne by done.
Qed.

Lemma live_forget c id m' :
  m' = delete id (cc_mads c) -> forall c', cc_tf c' = cc_tf c -> cc_mads c' = m' -> live_queued c' -> live_queued c.
Proof.
  intros -> c' Et Em (x & e & Hin & E & Hl). rewrite Em in E. apply lookup_delete_Some in E as [_ E].
  exists x, e. by rewrite <- Et.
Qed.

Lemma notify_inv J H held hand id st c :
  cc_inv J H held (id :: hand) c -> cc_inv J H held hand (notify_failure id st c).
Proof.
  intros Hc. destruct (in_hand J H held _ id c Hc) as (H1 & H2 & H3 & H4 & H5 & H6); [rewrite cnt_cons, decide_True by done; lia|].
  rewrite cnt_cons, decide_True in H1 by done.
  pose proof (forget_fifo J H c id _ Hc H3 eq_refl) as Hf. destruct Hc as [_ Ho Hm Hout Hmax Hb].
  constructor; [by destruct Hf| | |done|done|].
  - intros x. specialize (Ho x). cbn [notify_failure with_reports with_mads cc_tf cc_flight cc_reports cc_refused cc_next].
    rewrite map_app, cnt_app. cbn [map fst]. rewrite cnt_one. rewrite cnt_cons in Ho. lia.
  - intros x. apply (forgotten_mads _ _ _ _ _ (Hm x));
      cbn [notify_failure with_reports with_mads cc_tf cc_flight];
      [intros Hx; rewrite cnt_cons, decide_False by congruence; lia|intros ->; lia].
  - intros Hl. apply Hb. eapply (live_forget c id _ eq_refl); [| |exact Hl]; done.
Qed.

Lemma refuse_inv J H held hand id c :
  cc_inv J H held (id :: hand) c -> cc_inv J H held hand (refuse id c).
Proof.
  intros Hc. destruct (in_hand J H held _ id c Hc) as (H1 & H2 & H3 & H4 & H5 & H6); [rewrite cnt_cons, decide_True by done; lia|].
  rewrite cnt_cons, decide_True in H1 by done.
  pose proof (forget_fifo J H c id _ Hc H3 eq_refl) as Hf. destruct Hc as [_ Ho Hm Hout Hmax Hb].
  constructor; [by destruct Hf| | |done|done|].
  - intros x. specialize (Ho x). cbn [refuse cc_tf cc_flight cc_reports cc_refused cc_next].
    rewrite cnt_app, cnt_one. rewrite cnt_cons in Ho. lia.
  - intros x. apply (forgotten_mads _ _ _ _ _ (Hm x)); cbn [refuse cc_tf cc_flight];
      [intros Hx; rewrite cnt_cons, decide_False by congruence; lia|intros ->; lia].
  - intros Hl. apply Hb. eapply (live_forget c id _ eq_refl); [| |exact Hl]; done.
Qed.

(** A request of the hand takes the slot that is held. *)
Lemma fly_inv J H hand id sent c :
  cc_inv J H 1 (id :: hand) c -> cc_inv J H 0 hand (with_flight (cc_flight c ++ [id]) sent c).
Proof.
  intros [[] Ho Hm Hout Hmax Hb]. constructor; [by constructor| | | |done|exact Hb].
  - intros x. specialize (Ho x). cbn [with_flight cc_tf cc_flight cc_reports cc_refused cc_next].
    rewrite cnt_app, cnt_one. rewrite cnt_cons in Ho. lia.
  - intros x. rewrite (Hm x). cbn [with_flight cc_tf cc_flight]. rewrite cnt_app, cnt_one, cnt_cons. lia.
  - cbn [with_flight cc_flight cc_outstanding]. rewrite length_app, Hout. cbn [length]. lia.
Qed.

(** A request comes back; its slot is held. *)
Lemma land_inv J H i id c :
  cc_flight c !! i = Some id -> cc_inv J H 0 [] c -> cc_inv J H 1 [id] (with_flight (delete i (cc_flight c)) [] c).
Proof.
  intros Hi [[] Ho Hm Hout Hmax Hb]. constructor; [by constructor| | | |done|exact Hb].
  - intros x. specialize (Ho x). cbn [with_flight cc_tf cc_flight cc_reports cc_refused cc_next].
    rewrite (cnt_delete x _ _ _ Hi), cnt_nil in Ho. rewrite cnt_one. lia.
  - intros x. rewrite (Hm x). cbn [with_flight cc_tf cc_flight]. rewrite (cnt_delete x _ _ _ Hi), cnt_nil, cnt_one. lia.
  - cbn [with_flight cc_flight cc_outstanding]. apply lookup_lt_Some in Hi as Hlt.
    rewrite length_delete by (by eexists). lia.
Qed.

Lemma release_inv J H hand c :
  cc_inv J H 1 hand c -> ~ live_queued c -> cc_inv J H 0 hand (with_outstanding (cc_outstanding c - 1) c).
Proof.
  intros [[] Ho Hm Hout Hmax Hb] Hl. constructor; [by constructor|done|done| | |by intros ?].
  - cbn [with_outstanding cc_outstanding cc_flight]. lia.
  - cbn [with_outstanding cc_outstanding cc_max_outstanding]. lia.
Qed.

(** *** The operations of the FIFO *)

Lemma find_live_spec m l :
  (forall id, id ∈ l -> is_Some (m !! id)) ->
  exists r, find_live m l = Some r /\
    match r with
    | None => forall id e, id ∈ l -> m !! id = Some e -> te_canceled e = true
    | Some id => id ∈ l /\ exists e, m !! id = Some e /\ te_canceled e = false
    end.
Proof.
  induction l as [|x l IH]; intros Hl; cbn [find_live]; [exists None; split; [done|]; intros ? ? H; by inversion H|].
  destruct (Hl x) as [e E]; [by left|]. rewrite E. cbn [mbind option_bind]. destruct (te_canceled e) eqn:Ec.
  - destruct IH as (r & -> & Hr); [intros id Hin; apply Hl; by right|]. exists r. split; [done|].
    destruct r as [id|]; [destruct Hr; split; [by right|done]|].
    intros id e' Hin E'. apply elem_of_cons in Hin as [->|Hin]; [congruence|eauto].
  - exists (Some x). split; [done|]. split; [by left|]. by exists e.
Qed.

(** What stays the same when a request leaves the lists. *)
Definition same_mads (c c' : sa_cc_data) : Prop :=
  cc_mads c' = cc_mads c /\ cc_flight c' = cc_flight c /\ cc_reports c' = cc_reports c /\
  cc_refused c' = cc_refused c /\ cc_next c' = cc_next c /\ cc_outstanding c' = cc_outstanding c /\
  cc_max_outstanding c' = cc_max_outstanding c /\ cc_queue_size c' = cc_queue_size c /\ cc_now c' = cc_now c.

(** The timer when the first entry leaves: it is set to the second. *)
Lemma timer_next J now m tf id :
  0 <= J -> in_order now m (tf_to tf) -> timer_ok J now m tf -> cnt id (tf_to tf) = 1%nat ->
  (forall x, x ∈ tf_to tf -> is_Some (m !! x)) ->
  exists tf1, match tf_to tf with
            | x :: rest =>
                if bool_decide (x = id) then
                  match rest with
                  | [] => Some (put_timer None tf)
                  | y :: _ => e1 ← m !! y; Some (put_timer (Some (te_exp_time e1)) tf)
                  end
                else Some tf
            | [] => Some tf
            end = Some tf1 /\ tf_work tf1 = tf_work tf /\ tf_stop_enqueue tf1 = tf_stop_enqueue tf /\
    (tf_work tf1 = true \/ list_del id (tf_to tf) = [] \/
     exists t, tf_timer tf1 = Some t /\ forall x, x ∈ list_del id (tf_to tf) -> t <= Z.max (exp_of m x) (now + J)).
Proof.
  intros HJ Hord Htm Hid Hm.
  assert (tf_work tf = true \/ list_del id (tf_to tf) = [] \/
     exists t, tf_timer tf = Some t /\ forall x, x ∈ list_del id (tf_to tf) -> t <= Z.max (exp_of m x) (now + J)) as Hold.
  { destruct Htm as [Hw|[Hz|(t & Et & Hb)]]; [by left|right; left; by rewrite Hz|].
    right. right. exists t. split; [done|]. intros x Hin. apply elem_del in Hin as [Hin _]. by apply Hb. }
  destruct (tf_to tf) as [|x rest] eqn:El; [by exists tf|].
  case_bool_decide as Hx; [|by exists tf]. subst x.
  assert (list_del id (id :: rest) = list_del id rest) as Ed
    by (unfold list_del; rewrite filter_cons_False by tauto; done).
  destruct rest as [|y rest].
  { eexists. split; [done|]. split_and!; [done|done|]. right. left. by rewrite Ed. }
  destruct (Hm y) as [e1 E1]; [right; by left|]. rewrite E1. cbn [mbind option_bind].
  eexists. split; [done|]. split_and!; [done|done|]. right. right. exists (te_exp_time e1). split; [done|].
  intros x Hin. rewrite Ed in Hin. apply elem_del in Hin as [Hin _].
  assert (exp_of m y = te_exp_time e1) as Ey by (unfold exp_of; by rewrite E1).
  apply StronglySorted_inv in Hord as [Hord _]. apply StronglySorted_inv in Hord as [_ Hle].
  apply elem_of_cons in Hin as [->|Hin]; [lia|].
  pose proof (proj1 (Forall_forall _ _) Hle x Hin) as Hyx. cbn beta in Hyx. unfold due in Hyx. lia.
Qed.

(** Requests leave both lists. *)
Lemma leave_inv J H held hand l c tf' :
  cc_inv J H held hand c ->
  (forall x, x ∈ tf_to tf' -> x ∈ tf_to (cc_tf c)) -> in_order (cc_now c) (cc_mads c) (tf_to tf') ->
  timer_ok J (cc_now c) (cc_mads c) tf' ->
  (forall x, (cnt x (tf_fifo tf') + cnt x l = cnt x (tf_fifo (cc_tf c)))%nat) ->
  (forall x, (cnt x (tf_to tf') = cnt x (tf_fifo tf'))%nat) ->
  tf_num_items tf' = Z.of_nat (length (tf_fifo tf')) -> (length (tf_fifo tf') <= length (tf_fifo (cc_tf c)))%nat ->
  cc_inv J H held (l ++ hand) (with_tf tf' c).
Proof.
  intros [[] Ho Hm Hout Hmax Hb] Hsub Hord Htm Hf Ht Hn Hlen. constructor; [constructor; try done| | |done|done|].
  - cbn [with_tf cc_tf cc_queue_size]. lia.
  - intros x. specialize (Ho x). specialize (Hf x).
    cbn [with_tf cc_tf cc_flight cc_reports cc_refused cc_next]. rewrite cnt_app. lia.
  - intros x. specialize (Hf x). rewrite (Hm x). cbn [with_tf cc_tf cc_flight]. rewrite cnt_app. lia.
  - intros (x & e & Hin & E & Hl). apply Hb. exists x, e. split; [|done].
    apply cnt_elem. apply cnt_elem in Hin. cbn [with_tf cc_tf] in Hin. specialize (Hf x). lia.
Qed.

Lemma dequeue_inv J H held hand env c :
  cc_inv J H held hand c -> cc_env_ok J env -> 0 <= J ->
  (exists r c', tf_dequeue env c = Some (r, c') /\
    match r with
    | None => c' = c /\ ~ live_queued c
    | Some (id, _) => cc_inv J H held (id :: hand) c' /\ same_mads c c' /\ is_Some (cc_mads c !! id) /\
        length (tf_fifo (cc_tf c)) = S (length (tf_fifo (cc_tf c'))) /\
        forall x, x ∈ tf_fifo (cc_tf c') -> x ∈ tf_fifo (cc_tf c)
    end) \/
  (tf_dequeue env c = None /\ head_read env c).
Proof.
  intros Hc He HJ. unfold tf_dequeue. case_bool_decide as Hz.
  { left. exists None, c. split; [done|]. split; [done|]. intros (x & e & Hin & _). rewrite Hz in Hin. by inversion Hin. }
  assert (forall x, x ∈ tf_fifo (cc_tf c) -> is_Some (cc_mads c !! x)) as Hm.
  { intros x Hin. apply cnt_elem in Hin. apply (ci_mads _ _ _ _ _ Hc). lia. }
  destruct (find_live_spec (cc_mads c) (tf_fifo (cc_tf c)) Hm) as (r & -> & Hr). cbn [mbind option_bind].
  destruct r as [id|].
  2: { destruct (ce_head_canceled env) eqn:Eh.
       - left. exists None, c. split; [done|]. split; [done|].
         intros (x & e & Hin & E & Hl). specialize (Hr x e Hin E). congruence.
       - right. split; [done|]. split; [done|]. destruct (tf_fifo (cc_tf c)) as [|x l]; [done|].
         destruct (Hm x ltac:(by left)) as [e E]. exists x, e. split_and!; [by left|done|]. by apply (Hr x e); [left|]. }
  destruct Hr as [Hin (e & E & Hl)]. rewrite E. cbn [mbind option_bind].
  assert (cnt id (tf_fifo (cc_tf c)) = 1%nat) as H1.
  { pose proof (ci_one _ _ _ _ _ Hc id) as H1. apply cnt_elem in Hin.
    destruct (bool_decide _); cbn [b2n] in H1; lia. }
  destruct (timer_next J (cc_now c) (cc_mads c) (cc_tf c) id) as (tf1 & -> & Ew & Est & Ht);
    [done|apply Hc|apply Hc|by rewrite (fi_to _ _ _ Hc)|intros x Hx; by apply (queued_entry _ _ _ _ _ _ Hc)|].
  cbn [mbind option_bind]. left. eexists _, _. split; [done|].
  pose proof (length_del id (tf_fifo (cc_tf c))) as Hlen.
  pose proof (fi_num _ _ _ Hc) as Hnum. pose proof (fi_size _ _ _ Hc) as Hsz.
  split_and!; [|done|by exists e|cbn [with_tf cc_tf put_lists tf_fifo]; lia|cbn; intros x Hx; by apply elem_del in Hx as [? _]].
  apply (leave_inv J H held hand [id]); [done|..].
  - cbn [put_lists tf_to]. intros x Hx. by apply elem_del in Hx as [? _].
  - cbn [put_lists tf_to]. apply sorted_filter. apply Hc.
  - destruct Ht as [Ht|[Ht|Ht]]; [by left|by right; left|by right; right].
  - intros x. cbn [put_lists tf_fifo]. rewrite cnt_del, cnt_one. repeat case_decide; subst; try done; lia.
  - intros x. cbn [put_lists tf_to tf_fifo]. rewrite !cnt_del, (fi_to _ _ _ Hc). done.
  - cbn [put_lists tf_num_items tf_fifo]. rewrite u32_id by lia. lia.
  - cbn [put_lists tf_fifo]. lia.
Qed.

Lemma mad_done_inv J H env n hand c :
  cc_inv J H 1 hand c -> cc_env_ok J env -> 0 <= J -> (length (tf_fifo (cc_tf c)) < n)%nat ->
  (exists c', mad_done_loop n env c = Some c' /\ cc_inv J H 0 hand c') \/
  (mad_done_loop n env c = None /\ head_read env c).
Proof.
  intros Hc He HJ. revert c Hc. induction n as [|n IH]; intros c Hc Hn; [lia|]. cbn [mad_done_loop].
  destruct (dequeue_inv J H 1 hand env c Hc He HJ) as [(r & c1 & -> & Hr)|[-> ?]]; [|by right]. cbn [mbind option_bind].
  destruct r as [[id tl]|].
  2: { left. destruct Hr as [-> Hl]. pose proof (ci_out _ _ _ _ _ Hc).
       rewrite (proj2 (Z.ltb_lt 0 _)) by lia. eexists. split; [done|]. by apply release_inv. }
  destruct Hr as (Hc1 & Hs & [e Ee] & Hlen & Hsub). destruct Hs as (Em & _). rewrite Em, Ee. cbn [mbind option_bind].
  destruct (share _ _) as [to rt]. unfold send_sa_cc_mad.
  assert (forall st, (exists c', mad_done_loop n env (notify_failure id st c1) = Some c' /\ cc_inv J H 0 hand c') \/
    (mad_done_loop n env (notify_failure id st c1) = None /\ head_read env c)) as Hf.
  { intros st. destruct (IH (notify_failure id st c1)) as [?|[? (Eh & x & ex & Hx & E & Hcx)]]; [by apply notify_inv|cbn; lia|by left|right].
    split; [done|]. split; [done|]. exists x, ex. cbn in Hx, E. apply lookup_delete_Some in E as [_ E]. rewrite Em in E. auto. }
  destruct (ce_closed env n); [apply Hf|]. pose proof (ck_send _ _ He n).
  destruct (Z.eqb_spec (ce_send env n) 0) as [E0|E0].
  - rewrite (proj2 (Z.ltb_ge (ce_send env n) 0)) by lia. left. eexists. split; [done|]. by apply fly_inv.
  - rewrite (proj2 (Z.ltb_lt (ce_send env n) 0)) by lia. apply Hf.
Qed.

(** A new expiry for a request that is not in the list of expiries. *)
Lemma retime_order J now m tf id e :
  cnt id (tf_to tf) = 0%nat -> in_order now m (tf_to tf) -> timer_ok J now m tf ->
  in_order now (<[id:=e]> m) (tf_to tf) /\ timer_ok J now (<[id:=e]> m) tf.
Proof.
  intros Hid Hord Htm.
  assert (forall x, x ∈ tf_to tf -> exp_of (<[id:=e]> m) x = exp_of m x) as Hext.
  { intros x Hin. apply exp_of_insert_ne. intros ->. apply cnt_elem in Hin. lia. }
  split; [by eapply in_order_ext|by eapply timer_ok_ext].
Qed.

Lemma retime_mads (m : gmap nat tf_entry) id e x :
  is_Some (m !! id) -> is_Some (<[id:=e]> m !! x) <-> is_Some (m !! x).
Proof.
  intros Hs. destruct (decide (x = id)) as [->|Hx]; [|by rewrite lookup_insert_ne].
  rewrite lookup_insert_eq. split; [done|]. intros _. by eexists.
Qed.

Lemma retime_times (m : gmap nat tf_entry) H id e :
  (forall x e, m !! x = Some e -> 0 <= te_exp_time e < H /\ 0 < te_timeout_ms e) ->
  0 <= te_exp_time e < H /\ 0 < te_timeout_ms e ->
  forall x e', <[id:=e]> m !! x = Some e' -> 0 <= te_exp_time e' < H /\ 0 < te_timeout_ms e'.
Proof. intros Hm He x e' E. apply lookup_insert_Some in E as [[_ <-]|[_ E]]; eauto. Qed.

Lemma exp_range J H c x : fifo_inv J H c -> 0 <= exp_of (cc_mads c) x < H.
Proof.
  intros Hf. unfold exp_of. destruct (cc_mads c !! x) as [e|] eqn:E; cbn [from_option].
  - apply (fi_times _ _ _ Hf x e E).
  - pose proof (fi_now _ _ _ Hf). lia.
Qed.

Lemma exp_range_insert J H c id e x :
  fifo_inv J H c -> 0 <= te_exp_time e < H -> 0 <= exp_of (<[id:=e]> (cc_mads c)) x < H.
Proof.
  intros Hf He. destruct (decide (x = id)) as [->|]; [by rewrite exp_of_insert|].
  rewrite exp_of_insert_ne by done. by eapply exp_range.
Qed.

Lemma enqueue_inv J H env hand id ms c :
  cc_inv J H 0 (id :: hand) c -> cc_outstanding c = cc_max_outstanding c -> cc_env_ok J env ->
  0 <= J -> 0 <= ms -> H <= 2 ^ 63 ->
  exists ret c', tf_enqueue env id ms c = Some (ret, c') /\
    if ret =? 0 then cc_inv J H 0 hand c' else cc_inv J H 0 (id :: hand) c'.
Proof.
  intros Hc Hfull He HJ Hms HH. unfold tf_enqueue.
  destruct (in_hand J H 0 _ id c Hc) as (H1 & H2 & H3 & H4 & H5 & H6); [rewrite cnt_cons, decide_True by done; lia|].
  assert (is_Some (cc_mads c !! id)) as [e E] by (apply (ci_mads _ _ _ _ _ Hc); lia).
  rewrite E. cbn [mbind option_bind]. pose proof (ck_range _ _ He ms Hms) as Hj.
  pose proof (fi_now _ _ _ Hc) as Hnow. rewrite u64_id by lia.
  set (t := cc_now c + ce_jiffies env ms). set (e' := set_exp t (te_canceled e) e).
  assert (0 <= te_exp_time e' < H /\ 0 < te_timeout_ms e') as He'
    by (destruct (fi_times _ _ _ Hc id e E); cbn; unfold t; lia).
  destruct (retime_order J (cc_now c) (cc_mads c) (cc_tf c) id e' H3) as [Hord Htm]; [apply Hc..|].
  pose proof (retime_times _ H id e' (fi_times _ _ _ Hc) He') as Hti.
  pose proof (retime_mads (cc_mads c) id e') as Hsome.
  change (cc_tf (with_mads _ c)) with (cc_tf c). change (cc_queue_size (with_mads _ c)) with (cc_queue_size c).
  destruct (_ || _) eqn:Ef.
  - eexists _, _. split; [done|]. cbn [Z.eqb err EBUSY Z.opp]. destruct Hc as [[] Ho Hm Hout Hmax Hb].
    constructor; [by constructor|done| |done|done|by intros _].
    intros x. cbn [with_drop with_mads cc_mads cc_tf cc_flight]. rewrite Hsome by (by exists e). apply Hm.
  - apply orb_false_iff in Ef as [Esz _]. apply Z.leb_gt in Esz.
    destruct (insert_timed_spec J (cc_now c) (<[id:=e']> (cc_mads c)) id t (cc_tf c)) as
      (Ef1 & En1 & _ & Ew1 & Ec1 & Ho1 & Ht1); try done; [by rewrite exp_of_insert|unfold t; lia|unfold t; lia| |].
    { intros x _. pose proof (exp_range_insert J H c id e' x Hc (proj1 He')). lia. }
    set (tf1 := insert_timed id t _ _) in *. clearbody tf1. eexists _, _. split; [done|]. cbn [Z.eqb].
    destruct Hc as [[] Ho Hm Hout Hmax Hb]. rewrite cnt_cons, decide_True in H1 by done.
    constructor; [constructor| | |done|done|by intros _];
      cbn [with_tf with_mads put_lists cc_tf cc_mads cc_now cc_queue_size cc_flight cc_reports cc_refused cc_next
           tf_num_items tf_fifo tf_to]; try done.
    + rewrite length_app, En1, Ef1. cbn [length]. rewrite u32_id by lia. lia.
    + rewrite En1, u32_id by lia. lia.
    + intros x. rewrite Ec1, Ef1, cnt_app, fi_to0. lia.
    + intros x. specialize (Ho x). rewrite Ef1, cnt_app, cnt_one. rewrite cnt_cons in Ho. lia.
    + intros x. rewrite Hsome by (by exists e). rewrite Hm, Ef1, cnt_app, cnt_one, cnt_cons. lia.
Qed.

(** A fresh request. *)
Lemma next_request_inv J H e c :
  cc_inv J H 0 [] c -> 0 <= te_exp_time e < H /\ 0 < te_timeout_ms e ->
  cc_inv J H 0 [cc_next c] (with_next e c).
Proof.
  intros Hc He. pose proof (ci_one _ _ _ _ _ Hc (cc_next c)) as H1. rewrite bool_decide_false in H1 by lia.
  cbn [b2n] in H1.
  assert (cnt (cc_next c) (tf_to (cc_tf c)) = 0%nat) as H3 by (rewrite (fi_to _ _ _ Hc); lia).
  destruct (retime_order J (cc_now c) (cc_mads c) (cc_tf c) (cc_next c) e H3) as [Hord Htm]; [apply Hc..|].
  pose proof (retime_times _ H (cc_next c) e (fi_times _ _ _ Hc) He) as Hti.
  destruct Hc as [[] Ho Hm Hout Hmax Hb]. constructor; [by constructor| | |done|done|].
  - intros x. specialize (Ho x). cbn [with_next cc_tf cc_flight cc_reports cc_refused cc_next]. rewrite cnt_one.
    rewrite cnt_nil in Ho. destruct (decide (cc_next c = x)) as [<-|Hx].
    + rewrite bool_decide_false in Ho by lia. rewrite bool_decide_true by lia. cbn [b2n] in *. lia.
    + rewrite (bool_decide_ext _ (x < cc_next c)%nat) by lia. lia.
  - intros x. cbn [with_next cc_tf cc_mads cc_flight]. rewrite cnt_one. destruct (decide (x = cc_next c)) as [->|Hx].
    + rewrite lookup_insert_eq, decide_True by done. split; [lia|by eexists].
    + rewrite lookup_insert_ne, decide_False by congruence. rewrite Hm. done.
  - intros (x & e' & Hin & E & Hl). apply Hb. exists x, e'. split; [done|]. split; [|done].
    cbn [with_next cc_mads] in E. rewrite lookup_insert_ne in E; [done|]. intros <-.
    cbn [with_next cc_tf] in Hin. apply cnt_elem in Hin. lia.
Qed.

Lemma mad_send_inv J H env id retries c :
  cc_inv J H 0 [id] c -> cc_env_ok J env -> 0 <= J -> H <= 2 ^ 63 ->
  (exists ret c', sa_cc_mad_send env id retries c = Some (ret, c') /\
    if ret =? 0 then cc_inv J H 0 [] c' else cc_inv J H 0 [id] c') \/
  (sa_cc_mad_send env id retries c = None /\ head_read env c).
Proof.
  intros Hc He HJ HH. unfold sa_cc_mad_send.
  assert (is_Some (cc_mads c !! id)) as [e E]
    by (apply (ci_mads _ _ _ _ _ Hc); rewrite cnt_one, decide_True by done; lia).
  rewrite E. cbn [mbind option_bind]. destruct (Z.ltb_spec (cc_outstanding c) (cc_max_outstanding c)) as [Hlt|Hge].
  - assert (cc_inv J H 1 [id] (with_outstanding (cc_outstanding c + 1) c)) as Hc1.
    { destruct Hc as [[] Ho Hm Hout Hmax Hb]. constructor; [by constructor|done|done|..];
        cbn [with_outstanding cc_outstanding cc_flight cc_max_outstanding]; [lia|lia|].
      intros Hl. change (live_queued c) in Hl. specialize (Hb Hl). lia. }
    set (c1 := with_outstanding _ c) in *. change (cc_tf c1) with (cc_tf c). unfold send_sa_cc_mad.
    set (n := S (length (tf_fifo (cc_tf c)))).
    assert (forall ret, ret <> 0 -> (exists ret0 c', (c2 ← sa_cc_mad_done env c1; Some (ret, c2)) = Some (ret0, c') /\
      (if ret0 =? 0 then cc_inv J H 0 [] c' else cc_inv J H 0 [id] c')) \/
      ((c2 ← sa_cc_mad_done env c1; Some (ret, c2)) = None /\ head_read env c)) as Hf.
    { intros ret Hr. unfold sa_cc_mad_done.
      destruct (mad_done_inv J H env (S (length (tf_fifo (cc_tf c1)))) [id] c1 Hc1 He HJ) as [(c' & -> & Hc')|[-> ?]]; [lia| |by right].
      left. eexists _, c'. split; [done|]. by rewrite (proj2 (Z.eqb_neq ret 0)). }
    destruct (ce_closed env n); [by apply Hf|]. pose proof (ck_send _ _ He n).
    destruct (Z.eqb_spec (ce_send env n) 0) as [E0|E0].
    + rewrite (proj2 (Z.ltb_ge (ce_send env n) 0)) by lia. left. eexists _, _. split; [done|]. by apply fly_inv.
    + rewrite (proj2 (Z.ltb_lt (ce_send env n) 0)) by lia. by apply Hf.
  - pose proof (ci_max _ _ _ _ _ Hc). left. apply (enqueue_inv J H); try done; [lia|].
    destruct (Z.ltb_spec (s32 (s32 (te_timeout_ms e * (retries + 1)) - cc_time_sa_mad c)) 0); lia.
Qed.

(** *** Modification and cancellation *)

(** A queued request with a new expiry, taken out of the list of expiries. *)
Definition untimed (id : nat) (tf : to_fifo) : to_fifo :=
  put_lists (list_del id (tf_to tf)) (tf_fifo tf) (tf_num_items tf) tf.

Record retimed (J H : Z) (id : nat) (e e' : tf_entry) (c : sa_cc_data) : Prop := {
  rt_one : cnt id (tf_fifo (cc_tf c)) = 1%nat;
  rt_cnt : forall x, (cnt x [id] + cnt x (list_del id (tf_to (cc_tf c))) = cnt x (tf_fifo (cc_tf c)))%nat;
  rt_order : in_order (cc_now c) (<[id:=e']> (cc_mads c)) (tf_to (untimed id (cc_tf c)));
  rt_timer : timer_ok J (cc_now c) (<[id:=e']> (cc_mads c)) (untimed id (cc_tf c));
  rt_times : forall x e1, <[id:=e']> (cc_mads c) !! x = Some e1 -> 0 <= te_exp_time e1 < H /\ 0 < te_timeout_ms e1;
  rt_some : forall x, is_Some (<[id:=e']> (cc_mads c) !! x) <-> is_Some (cc_mads c !! x)
}.

Lemma retimed_ok J H held hand id e e' c :
  cc_inv J H held hand c -> id ∈ tf_fifo (cc_tf c) -> cc_mads c !! id = Some e ->
  0 <= te_exp_time e' < H /\ 0 < te_timeout_ms e' -> retimed J H id e e' c.
Proof.
  intros Hc Hin E He'. apply cnt_elem in Hin.
  assert (cnt id (tf_fifo (cc_tf c)) = 1%nat) as H1.
  { pose proof (ci_one _ _ _ _ _ Hc id) as H1. destruct (bool_decide _); cbn [b2n] in H1; lia. }
  assert (cnt id (tf_to (untimed id (cc_tf c))) = 0%nat) as H0
    by (cbn [untimed put_lists tf_to]; by rewrite cnt_del, decide_True).
  destruct (retime_order J (cc_now c) (cc_mads c) (untimed id (cc_tf c)) id e' H0) as [Hord Htm].
  - apply sorted_filter, Hc.
  - destruct (fi_timer _ _ _ Hc) as [Hw|[Hz|(u & Eu & Hb)]]; [by left| |].
    + right. left. cbn [untimed put_lists tf_to]. by rewrite Hz.
    + right. right. exists u. split; [done|]. intros x Hx. apply elem_del in Hx as [Hx _]. by apply Hb.
  - constructor; try done.
    + intros x. rewrite cnt_one, cnt_del, (fi_to _ _ _ Hc). repeat case_decide; subst; try done; lia.
    + apply retime_times; [apply Hc|done].
    + intros x. apply retime_mads. by exists e.
Qed.

(** A new expiry. *)
Lemma modify_later_inv J H c id e t :
  cc_inv J H 0 [] c -> id ∈ tf_fifo (cc_tf c) -> cc_mads c !! id = Some e -> 0 <= J -> H <= 2 ^ 63 ->
  cc_now c <= t < H ->
  let m := <[id := set_exp t (te_canceled e) e]> (cc_mads c) in
  cc_inv J H 0 [] (with_tf (insert_timed id t m (untimed id (cc_tf c))) (with_mads m c)).
Proof.
  intros Hc Hin E HJ HH Ht. set (e' := set_exp t (te_canceled e) e). cbv zeta. pose proof (fi_now _ _ _ Hc).
  assert (0 <= te_exp_time e' < H /\ 0 < te_timeout_ms e') as He'
    by (destruct (fi_times _ _ _ Hc id e E); cbn; lia).
  destruct (retimed_ok J H 0 [] id e e' c Hc Hin E He') as [_ Hcnt Hord Htm Hti Hsome].
  destruct (insert_timed_spec J (cc_now c) (<[id:=e']> (cc_mads c)) id t (untimed id (cc_tf c))) as
    (Ef1 & En1 & _ & Ew1 & Ec1 & Ho1 & Ht1); try done; [by rewrite exp_of_insert|lia|lia| |].
  { intros x _. pose proof (exp_range_insert J H c id e' x Hc (proj1 He')). lia. }
  set (tf1 := insert_timed id t _ _) in *. clearbody tf1.
  destruct Hc as [[] Ho Hm Hout Hmax Hb].
  constructor; [constructor| | |done|done|]; cbn [with_tf with_mads cc_tf cc_mads cc_now cc_queue_size
    cc_flight cc_reports cc_refused cc_next]; rewrite ?Ef1, ?En1; try done.
  - intros x. rewrite Ec1. apply Hcnt.
  - intros x. rewrite Hsome. apply Hm.
  - intros (x & e1 & Hx & E1 & Hl). apply Hb. cbn [with_tf with_mads cc_tf cc_mads] in Hx, E1. rewrite Ef1 in Hx.
    apply lookup_insert_Some in E1 as [[<- <-]|[_ E1]]; [by exists id, e|by exists x, e1].
Qed.

(** A cancellation: first to expire, last to be sent. *)
Lemma modify_cancel_inv J H c id e :
  cc_inv J H 0 [] c -> id ∈ tf_fifo (cc_tf c) -> cc_mads c !! id = Some e -> 0 <= J ->
  let m := <[id := set_exp (cc_now c) true e]> (cc_mads c) in
  let tf1 := put_lists (id :: list_del id (tf_to (cc_tf c))) (list_del id (tf_fifo (cc_tf c)) ++ [id])
               (tf_num_items (cc_tf c)) (cc_tf c) in
  cc_inv J H 0 [] (with_tf (put_timer (Some (cc_now c)) tf1) (with_mads m c)).
Proof.
  intros Hc Hin E HJ. set (e' := set_exp (cc_now c) true e). cbv zeta. pose proof (fi_now _ _ _ Hc).
  assert (0 <= te_exp_time e' < H /\ 0 < te_timeout_ms e') as He'
    by (destruct (fi_times _ _ _ Hc id e E); cbn; lia).
  destruct (retimed_ok J H 0 [] id e e' c Hc Hin E He') as [H1 Hcnt Hord Htm Hti Hsome].
  pose proof (length_del id (tf_fifo (cc_tf c))) as Hlen.
  destruct Hc as [[] Ho Hm Hout Hmax Hb].
  constructor; [constructor| | |done|done|]; cbn [with_tf with_mads put_timer put_lists cc_tf cc_mads cc_now cc_queue_size
    cc_flight cc_reports cc_refused cc_next tf_to tf_fifo tf_num_items]; try done.
  - rewrite length_app. cbn [length]. lia.
  - intros x. rewrite cnt_cons, cnt_app, cnt_one, !cnt_del, fi_to0. lia.
  - apply (sorted_insert _ id []); [exact Hord|constructor|]. apply Forall_forall. intros x _.
    unfold due at 1. rewrite exp_of_insert. cbn [e' set_exp te_exp_time]. unfold due. lia.
  - right. right. exists (cc_now c). split; [done|]. intros x _. cbn [with_tf with_mads cc_now]. lia.
  - intros x. specialize (Ho x). rewrite cnt_app, cnt_one, cnt_del. repeat case_decide; subst; try done; lia.
  - intros x. rewrite Hsome, Hm, cnt_app, cnt_one, cnt_del. repeat case_decide; subst; try done; lia.
  - intros (x & e1 & Hx & E1 & Hl). apply Hb. cbn [with_tf with_mads put_timer put_lists cc_tf cc_mads tf_fifo] in Hx, E1.
    apply lookup_insert_Some in E1 as [[<- <-]|[Hne E1]]; [done|]. exists x, e1. split; [|done].
    apply elem_of_app in Hx as [Hx|Hx]; [by apply elem_del in Hx as [? _]|].
    apply list_elem_of_singleton in Hx. congruence.
Qed.

Lemma modify_item_inv J H env agent id ms c :
  cc_inv J H 0 [] c -> cc_env_ok J env -> 0 <= J -> 0 <= ms -> H <= 2 ^ 63 ->
  exists ret c', tf_modify_item env agent id ms c = Some (ret, c') /\ cc_inv J H 0 [] c'.
Proof.
  intros Hc He HJ Hms HH. unfold tf_modify_item.
  destruct (bool_decide (id ∈ tf_fifo (cc_tf c)) && of_agent agent (cc_mads c) id) eqn:Ef; cbn [negb]; [|by eexists _, c].
  apply andb_true_iff in Ef as [Hin _]. apply bool_decide_eq_true in Hin.
  assert (is_Some (cc_mads c !! id)) as [e E]
    by (apply (ci_mads _ _ _ _ _ Hc); apply cnt_elem in Hin; lia).
  rewrite E. cbn [mbind option_bind]. pose proof (ck_range _ _ He ms Hms) as Hj.
  pose proof (fi_now _ _ _ Hc) as Hnow. rewrite u64_id by lia.
  destruct (truthy ms) eqn:Etr; eexists _, _; (split; [done|]).
  - apply modify_later_inv; try done. lia.
  - apply negb_false_iff, Z.eqb_eq in Etr. rewrite Etr, (ck_zero _ _ He), Z.add_0_r.
    by apply modify_cancel_inv.
Qed.

Lemma cnt_filter {A} `{EqDecision A} (P : A -> Prop) `{forall x, Decision (P x)} (x : A) l :
  cnt x (filter P l) = if decide (P x) then cnt x l else 0%nat.
Proof.
  induction l as [|y l IH]; [by case_decide|]. rewrite filter_cons, cnt_cons.
  destruct (decide (P y)) as [Hy|Hy]; rewrite ?cnt_cons, IH; repeat case_decide; subst; try done; lia.
Qed.

Lemma cnt_perm {A} `{EqDecision A} (l l' : list A) : (forall x, cnt x l = cnt x l') -> l ≡ₚ l'.
Proof.
  revert l'. induction l as [|y l IH]; intros l' Hc.
  - destruct l' as [|z l']; [done|]. specialize (Hc z). rewrite cnt_nil, cnt_cons, decide_True in Hc by done. lia.
  - assert (y ∈ l') as Hin by (apply cnt_elem; rewrite <- Hc, cnt_cons, decide_True by done; lia).
    apply list_elem_of_split in Hin as (l1 & l2 & ->). rewrite <- Permutation_middle. constructor. apply IH.
    intros x. specialize (Hc x). rewrite !cnt_app, !cnt_cons in Hc. rewrite cnt_app. lia.
Qed.

Lemma cnt_remove x l from : cnt x (remove_all l from) = if decide (x ∈ l) then 0%nat else cnt x from.
Proof. unfold remove_all. rewrite cnt_filter. repeat case_decide; tauto. Qed.

(** The requests [l] leave both lists. *)
Lemma remove_inv J H held hand l c tf' :
  cc_inv J H held hand c -> (forall x, cnt x l = 0%nat \/ cnt x l = cnt x (tf_fifo (cc_tf c))) ->
  tf_fifo tf' = remove_all l (tf_fifo (cc_tf c)) ->
  (forall x, cnt x (tf_to tf') = cnt x (remove_all l (tf_to (cc_tf c)))) ->
  (forall x, x ∈ tf_to tf' -> x ∈ tf_to (cc_tf c)) -> in_order (cc_now c) (cc_mads c) (tf_to tf') ->
  tf_num_items tf' = u32 (tf_num_items (cc_tf c) - Z.of_nat (length l)) ->
  tf_timer tf' = tf_timer (cc_tf c) -> tf_work tf' = tf_work (cc_tf c) ->
  cc_inv J H held (l ++ hand) (with_tf tf' c).
Proof.
  intros Hc Hl Ef Et Hsub Hord En Etm Ew.
  assert (forall x, (cnt x (tf_fifo tf') + cnt x l = cnt x (tf_fifo (cc_tf c)))%nat) as Hcnt.
  { intros x. rewrite Ef, cnt_remove. case_decide as Hx.
    - apply cnt_elem in Hx. destruct (Hl x); lia.
    - rewrite cnt_elem in Hx. lia. }
  assert (length (tf_fifo tf') + length l = length (tf_fifo (cc_tf c)))%nat as Hlen.
  { rewrite <- length_app. apply Permutation_length, cnt_perm. intros x. rewrite cnt_app. apply Hcnt. }
  pose proof (fi_num _ _ _ Hc) as Hnum. pose proof (fi_size _ _ _ Hc) as Hsz.
  apply leave_inv; try done.
  - destruct (fi_timer _ _ _ Hc) as [Hw|[Hz|(u & Eu & Hb)]]; [left; congruence| |].
    + right. left. destruct (tf_to tf') as [|y ?] eqn:E; [done|]. specialize (Hsub y (list_elem_of_here _ _)).
      rewrite Hz in Hsub. by inversion Hsub.
    + right. right. exists u. split; [congruence|]. intros x Hx. by apply Hb, Hsub.
  - intros x. rewrite Et, Ef, !cnt_remove, (fi_to _ _ _ Hc). done.
  - rewrite En, u32_id by lia. lia.
  - lia.
Qed.

Lemma hand_perm J H held hand hand' c :
  cc_inv J H held hand c -> hand ≡ₚ hand' -> cc_inv J H held hand' c.
Proof.
  intros [] Hp. assert (forall x, cnt x hand' = cnt x hand) as E.
  { intros x. unfold cnt. by rewrite Hp. }
  constructor; try done; intros x; by rewrite E.
Qed.

Lemma notify_failures_inv J H held hand l st c :
  cc_inv J H held (l ++ hand) c -> cc_inv J H held hand (notify_failures l st c).
Proof. revert c. induction l as [|id l IH]; intros c Hc; [done|]. apply IH, notify_inv, Hc. Qed.

Lemma free_agent_inv J H agent c : cc_inv J H 0 [] c -> cc_inv J H 0 [] (tf_free_agent agent c).
Proof.
  intros Hc. unfold tf_free_agent. set (mine := filter _ _). apply notify_failures_inv.
  apply (hand_perm _ _ _ (mine ++ [])); [|by rewrite reverse_Permutation].
  apply remove_inv; cbn [put_lists tf_to tf_fifo tf_num_items tf_timer tf_work]; try done.
  - intros x. unfold mine. rewrite cnt_filter. case_decide; [by right|by left].
  - intros x Hx. by apply list_elem_of_filter in Hx as [_ Hx].
  - apply sorted_filter, Hc.
Qed.

(** *** The expiry of requests *)

(** What the handler reports for a request. *)
Definition expiry_report (m : gmap nat tf_entry) (id : nat) : nat * Z :=
  (id, if from_option te_canceled false (m !! id) then IB_WC_WR_FLUSH_ERR else IB_WC_RESP_TIMEOUT_ERR).

Lemma report_all_inv J H held hand l c :
  cc_inv J H held (l ++ hand) c -> NoDup l ->
  exists c', report_all l c = Some c' /\ cc_inv J H held hand c' /\ cc_tf c' = cc_tf c /\ cc_now c' = cc_now c /\
    cc_reports c' = cc_reports c ++ map (expiry_report (cc_mads c)) l /\
    (forall x, x ∉ l -> cc_mads c' !! x = cc_mads c !! x).
Proof.
  revert c. induction l as [|id l IH]; intros c Hc Hnd; cbn [report_all].
  { exists c. split_and!; try done. by rewrite app_nil_r. }
  apply NoDup_cons in Hnd as [Hid Hnd]. cbn [app] in Hc. unfold report_expired.
  assert (is_Some (cc_mads c !! id)) as [e E]
    by (apply (ci_mads _ _ _ _ _ Hc); rewrite cnt_cons, decide_True by done; lia).
  rewrite E. cbn [mbind option_bind]. set (st := if te_canceled e then _ else _).
  destruct (IH (notify_failure id st c)) as (c' & -> & Hc' & Et & En & Er & Em); [by apply notify_inv|done|].
  exists c'. split_and!; try done.
  - rewrite Er. cbn [notify_failure with_reports with_mads cc_reports cc_mads map]. rewrite <- app_assoc. f_equal.
    cbn [app]. f_equal; [unfold expiry_report; by rewrite E|].
    apply map_ext_in. intros x Hx. unfold expiry_report. rewrite lookup_delete_ne; [done|].
    intros <-. apply Hid. by apply list_elem_of_In.
  - intros x Hx. rewrite elem_of_cons in Hx. rewrite Em by tauto.
    cbn [notify_failure with_reports with_mads cc_mads]. rewrite lookup_delete_ne; [done|]. intros ->. tauto.
Qed.

Lemma tick_inv J H held hand t c :
  cc_inv J H held hand c -> cc_now c <= t < H -> t + D <= H -> cc_inv J H held hand (with_now t c).
Proof.
  intros [[] Ho Hm Hout Hmax Hb] Ht HD. constructor; [constructor; try done|done|done|done|done|exact Hb].
  - cbn [with_now cc_now cc_mads cc_tf]. eapply in_order_now; [|done]. lia.
  - destruct fi_timer0 as [Hw|[Hz|(u & Eu & Hu)]]; [by left|by right; left|]. right. right. exists u. split; [done|].
    intros x Hx. specialize (Hu x Hx). cbn [with_now cc_now cc_mads]. lia.
  - cbn [with_now cc_now]. lia.
Qed.

(** One round of the handler at the time [t]. *)
Lemma round_inv J H t c :
  cc_inv J H 0 [] c -> cc_now c <= t < H -> t + D <= H -> H <= 2 ^ 63 ->
  exists exp rest c1,
    expired_prefix t (cc_mads c) (tf_to (cc_tf c)) = Some (exp, rest) /\
    report_all exp (with_tf (put_lists rest (remove_all exp (tf_fifo (cc_tf c)))
      (u32 (tf_num_items (cc_tf c) - Z.of_nat (length exp))) (cc_tf c)) (with_now t c)) = Some c1 /\
    cc_inv J H 0 [] c1 /\ tf_work (cc_tf c1) = tf_work (cc_tf c) /\ cc_now c1 = t /\
    tf_to (cc_tf c) = exp ++ rest /\ tf_to (cc_tf c1) = rest /\
    Forall (fun x => exp_of (cc_mads c) x <= t) exp /\ Forall (fun x => t < exp_of (cc_mads c) x) rest /\
    cc_reports c1 = cc_reports c ++ map (expiry_report (cc_mads c)) exp /\
    (forall x, x ∉ exp -> cc_mads c1 !! x = cc_mads c !! x).
Proof.
  intros Hc Ht HD HH. pose proof (fi_now _ _ _ Hc) as Hn.
  destruct (expired_prefix_spec (cc_now c) t (cc_mads c) (tf_to (cc_tf c))) as (a & b & E & El & Ha & Hb);
    [apply Hc|lia|lia|intros x Hx; destruct (queued_entry _ _ _ _ _ _ Hc Hx); split; [done|lia]|].
  exists a, b. rewrite E.
  assert (NoDup (a ++ b)) as Hnd.
  { apply nodup_cnt. intros x. rewrite <- El, (fi_to _ _ _ Hc). pose proof (ci_one _ _ _ _ _ Hc x) as H1.
    destruct (bool_decide _); cbn [b2n] in H1; lia. }
  apply NoDup_app in Hnd as (Hna & Hab & Hnb).
  pose proof (tick_inv J H 0 [] t c Hc Ht HD) as Hc0.
  set (tf1 := put_lists b _ _ _).
  assert (cc_inv J H 0 (a ++ []) (with_tf tf1 (with_now t c))) as Hc1.
  { apply remove_inv; cbn [tf1 put_lists tf_to tf_fifo tf_num_items tf_timer tf_work with_now cc_tf]; try done.
    - intros x. rewrite <- (fi_to _ _ _ Hc), El, cnt_app. destruct (decide (x ∈ a)) as [Hx|Hx].
      + right. assert (~ (0 < cnt x b)%nat) by (rewrite <- cnt_elem; by apply Hab). lia.
      + left. rewrite cnt_elem in Hx. lia.
    - intros x. rewrite cnt_remove, El, cnt_app. case_decide as Hx.
      + assert (~ (0 < cnt x b)%nat) by (rewrite <- cnt_elem; by apply Hab). lia.
      + rewrite cnt_elem in Hx. lia.
    - intros x Hx. rewrite El, elem_of_app. by right.
    - pose proof (fi_order _ _ _ Hc0) as Hord. cbn [with_now cc_tf cc_now cc_mads] in Hord. rewrite El in Hord.
      clear - Hord. induction a as [|y a IH]; [done|]. apply StronglySorted_inv in Hord as [Hord _]. by apply IH. }
  destruct (report_all_inv J H 0 [] a (with_tf tf1 (with_now t c)) Hc1 Hna) as (c' & E1 & Hc' & Et & En & Er & Em).
  exists c'. rewrite app_nil_r in *. by rewrite Et.
Qed.

(** The values of [jiffies] a run of the handler reads. *)
Fixpoint times_ok (H now : Z) (times : list Z) : Prop :=
  match times with
  | [] => True
  | t :: times' => now <= t < H /\ t + D <= H /\ times_ok H t times'
  end.

Lemma rounds_inv J H times c :
  cc_inv J H 0 [] c -> times_ok H (cc_now c) times -> H <= 2 ^ 63 ->
  (length (tf_to (cc_tf c)) < length times)%nat ->
  exists t c' rep, timeout_rounds times c = Some (t, c') /\ cc_inv J H 0 [] c' /\ cc_now c' = t /\ t ∈ times /\
    cc_now c <= t /\ tf_work (cc_tf c') = tf_work (cc_tf c) /\
    cc_reports c' = cc_reports c ++ map (expiry_report (cc_mads c)) rep /\
    tf_to (cc_tf c) = rep ++ tf_to (cc_tf c') /\
    Forall (fun x => exp_of (cc_mads c) x <= t) rep /\
    Forall (fun x => t < exp_of (cc_mads c') x /\ cc_mads c' !! x = cc_mads c !! x) (tf_to (cc_tf c')).
Proof.
  revert c. induction times as [|t times IH]; intros c Hc Hts HH Hlen; [cbn in Hlen; lia|].
  destruct Hts as (Ht & HD & Hts). cbn [timeout_rounds length] in *.
  destruct (round_inv J H t c Hc Ht HD HH) as (a & b & c1 & E & E1 & Hc1 & Ew & En & El & Eb & Ha & Hb & Er & Em).
  rewrite E. cbn [mbind option_bind]. rewrite E1. cbn [mbind option_bind].
  assert (forall x, x ∈ b -> cc_mads c1 !! x = cc_mads c !! x) as Hsame.
  { intros x Hx. apply Em. intros Hxa. pose proof (proj1 (Forall_forall _ _) Ha x Hxa).
    pose proof (proj1 (Forall_forall _ _) Hb x Hx). cbn beta in *. lia. }
  assert (forall x, x ∈ b -> exp_of (cc_mads c1) x = exp_of (cc_mads c) x) as Hexp
    by (intros x Hx; unfold exp_of; by rewrite Hsame).
  case_bool_decide as Hz.
  - exists t, c1, a. split_and!; try done; [by left|lia|by rewrite Eb|]. rewrite Eb. apply Forall_forall. intros x Hx.
    rewrite Hexp by done. split; [apply (proj1 (Forall_forall _ _) Hb x Hx)|by apply Hsame].
  - destruct (IH c1) as (u & c' & rep & -> & Hc' & En' & Hui & Hu & Ew' & Er' & El' & Hrep & Hrest); try done.
    { by rewrite En. }
    { rewrite Eb. apply (f_equal length) in El. rewrite length_app in El. destruct a; [done|]. cbn [length] in El. lia. }
    rewrite Eb in El'.
    assert (forall x, x ∈ rep \/ x ∈ tf_to (cc_tf c') -> x ∈ b) as Hin
      by (intros x Hx; rewrite El', elem_of_app; tauto).
    exists u, c', (a ++ rep). split_and!; try done; [by right|lia|congruence| | | |].
    + rewrite Er', Er, map_app, app_assoc. f_equal. apply map_ext_in. intros x Hx.
      unfold expiry_report. rewrite Hsame; [done|]. apply Hin. left. by apply list_elem_of_In.
    + rewrite El, El'. by rewrite app_assoc.
    + apply Forall_app. split.
      * eapply Forall_impl; [exact Ha|]. intros x ?. cbn beta in *. lia.
      * apply Forall_forall. intros x Hx. rewrite <- Hexp by auto. apply (proj1 (Forall_forall _ _) Hrep x Hx).
    + apply Forall_forall. intros x Hx. destruct (proj1 (Forall_forall _ _) Hrest x Hx) as [? Hm].
      split; [done|]. rewrite Hm. apply Hsame. auto.
Qed.

Lemma adjusted_time_spec J H env last next :
  cc_env_ok J env -> 0 < last -> last + D <= H -> H <= 2 ^ 63 -> 0 <= next < H ->
  adjusted_time env last next <= Z.max next (last + J).
Proof.
  intros He Hl HD HH Hn. pose proof (ck_range _ _ He MIN_BETWEEN_ACTIVATIONS_MS ltac:(done)).
  pose proof (ck_min _ _ He). unfold adjusted_time. rewrite u64_id by lia. destruct (time_after _ _); lia.
Qed.

(** The handler reports what has expired, in the order of expiry, and nothing else,
    and sets the timer for the rest. *)
Lemma handler_inv J H env times c :
  cc_inv J H 0 [] c -> cc_env_ok J env -> 0 <= J -> times_ok H (cc_now c) times -> H <= 2 ^ 63 ->
  (length (tf_to (cc_tf c)) < length times)%nat ->
  exists c' rep, timeout_handler_task env times c = Some c' /\ cc_inv J H 0 [] c' /\ cc_now c <= cc_now c' /\ cc_now c' ∈ times /\
    cc_reports c' = cc_reports c ++ map (expiry_report (cc_mads c)) rep /\
    tf_to (cc_tf c) = rep ++ tf_to (cc_tf c') /\
    Forall (fun x => exp_of (cc_mads c) x <= cc_now c') rep /\
    Forall (fun x => cc_now c' < exp_of (cc_mads c) x) (tf_to (cc_tf c')).
Proof.
  intros Hc He HJ Hts HH Hlen. unfold timeout_handler_task.
  destruct (rounds_inv J H times c Hc Hts HH Hlen) as (t & c1 & rep & -> & Hc1 & En & Hti & Ht & Ew & Er & El & Hrep & Hrest).
  cbn [mbind option_bind with_tf cc_tf put_work tf_to cc_mads].
  assert (Forall (fun x => t < exp_of (cc_mads c) x) (tf_to (cc_tf c1))) as Hlate.
  { eapply Forall_impl; [exact Hrest|]. intros x [? E]. unfold exp_of in *. by rewrite <- E. }
  destruct (tf_to (cc_tf c1)) as [|id l] eqn:El1.
  - eexists _, rep. split; [done|]. cbn [with_tf cc_tf put_work tf_to cc_now cc_reports]. rewrite El1.
    split_and!; try done; [|lia|by rewrite En|by rewrite En].
    destruct Hc1 as [[] Ho Hm Hout Hmax Hb]. constructor; try done. constructor; try done. by right; left.
  - destruct (queued_entry _ _ _ _ _ id Hc1) as [[e E] He1]; [rewrite El1; by left|]. rewrite E. cbn [mbind option_bind].
    eexists _, rep. split; [done|]. cbn [with_tf cc_tf put_work put_timer tf_to cc_now cc_reports]. rewrite El1.
    split_and!; try done; [|lia|by rewrite En|by rewrite En|by rewrite En].
    pose proof (fi_now _ _ _ Hc1) as Hn1. unfold exp_of in He1. rewrite E in He1. cbn [from_option] in He1.
    pose proof (adjusted_time_spec J H env t (te_exp_time e) He ltac:(lia) ltac:(lia) HH He1) as Hadj.
    pose proof (fi_order _ _ _ Hc1) as Hord. rewrite El1 in Hord. apply StronglySorted_inv in Hord as [_ Hle].
    destruct Hc1 as [[] Ho Hm Hout Hmax Hb]. constructor; try done. constructor; try done.
    right. right. eexists. split; [done|]. cbn [with_tf put_timer put_work cc_tf cc_now cc_mads tf_to]. rewrite El1.
    assert (exp_of (cc_mads c1) id = te_exp_time e) as Eid by (unfold exp_of; by rewrite E).
    intros x Hx. apply elem_of_cons in Hx as [->|Hx]; [lia|].
    pose proof (proj1 (Forall_forall _ _) Hle x Hx) as Hix. cbn beta in Hix. unfold due in Hix. lia.
Qed.

(** ** Runs *)

Definition cc_cmd_ok (J H : Z) (k : cc_cmd) (c : sa_cc_data) : Prop :=
  match k with
  | CPost env _ timeout_ms _ => cc_env_ok J env /\ 0 < timeout_ms
  | CDone env _ _ | CModify env _ _ _ => cc_env_ok J env
  | CTick t => t < H /\ t + D <= H
  | CWork env times => cc_env_ok J env /\ times_ok H (cc_now c) times /\
                       (length (tf_to (cc_tf c)) < length times)%nat
  | CCancel _ | CTimer => True
  end.

Fixpoint cc_cmds_ok (J H : Z) (l : list cc_cmd) (c : sa_cc_data) : Prop :=
  match l with
  | [] => True
  | k :: l' => cc_cmd_ok J H k c /\ forall c1, cc_exec1 k c = Some c1 -> cc_cmds_ok J H l' c1
  end.

(** The step may send or unlink the head of the FIFO as if it were a request. *)
Definition reads_head (k : cc_cmd) (c : sa_cc_data) : Prop :=
  match k with CPost env _ _ _ | CDone env _ _ => head_read env c | _ => False end.

Lemma cc_step_inv J H k c :
  cc_inv J H 0 [] c -> cc_cmd_ok J H k c -> 0 <= J -> H <= 2 ^ 63 ->
  (exists c', cc_exec1 k c = Some c' /\ cc_inv J H 0 [] c') \/ (cc_exec1 k c = None /\ reads_head k c).
Proof.
  intros Hc Hk HJ HH. destruct k as [env agent ms rt|env i st|env agent id ms|agent|t| |env times]; cbn [cc_exec1 cc_cmd_ok] in *.
  - destruct Hk as [He Hms]. set (e := Build_tf_entry 0 false agent ms).
    pose proof (fi_now _ _ _ Hc).
    destruct (mad_send_inv J H env (cc_next c) rt (with_next e c)) as [(ret & c1 & -> & Hc1)|[-> (Eh & x & ex & Hx & E & Hcx)]]; try done.
    { apply next_request_inv; [done|]. cbn. lia. }
    2: { right. split; [done|]. split; [done|]. exists x, ex. cbn in Hx, E. apply lookup_insert_Some in E as [[_ <-]|[_ E]]; [done|auto]. }
    left. cbn [mbind option_bind]. eexists. split; [done|]. destruct (ret =? 0); [done|by apply refuse_inv].
  - destruct (cc_flight c !! i) as [id|] eqn:Ei; [|left; by exists c].
    unfold sa_cc_mad_done. set (c0 := with_flight _ _ c).
    destruct (mad_done_inv J H env (S (length (tf_fifo (cc_tf c0)))) [id] c0) as [(c1 & -> & Hc1)|[-> ?]]; try done;
      [by apply land_inv|lia| |by right]. left. cbn [mbind option_bind]. eexists. split; [done|]. by apply notify_inv.
  - unfold modify_sa_cc_mad. set (q := u32 _).
    destruct (modify_item_inv J H env agent id q c) as (ret & c1 & -> & Hc1); try done.
    { pose proof (u32_range (if cc_time_sa_mad c <? ms then s32 (ms - cc_time_sa_mad c) else 0)). unfold q. lia. }
    left. by exists c1.
  - left. eexists. split; [done|]. by apply free_agent_inv.
  - left. eexists. split; [done|]. pose proof (fi_now _ _ _ Hc). apply tick_inv; [done|lia|lia].
  - left. destruct (tf_timer (cc_tf c)) as [u|]; [|by exists c]. eexists. split; [done|].
    destruct (u <=? cc_now c); [|done]. destruct Hc as [[] Ho Hm Hout Hmax Hb].
    constructor; try done. constructor; try done. by left.
  - left. destruct (tf_work (cc_tf c)); [|by exists c]. destruct Hk as (He & Hts & Hlen).
    destruct (handler_inv J H env times c Hc He HJ Hts HH Hlen) as (c' & rep & E & Hc' & _). by exists c'.
Qed.

Lemma cc_exec_inv J H l c :
  cc_inv J H 0 [] c -> cc_cmds_ok J H l c -> 0 <= J -> H <= 2 ^ 63 ->
  match cc_exec l c with
  | Some c' => cc_inv J H 0 [] c'
  | None => exists l1 k l2 c1, l = l1 ++ k :: l2 /\ cc_exec l1 c = Some c1 /\ reads_head k c1
  end.
Proof.
  intros Hc Hl HJ HH. revert c Hc Hl. induction l as [|k l IH]; intros c Hc Hl; [done|].
  destruct Hl as [Hk Hl]. cbn [cc_exec].
  destruct (cc_step_inv J H k c Hc Hk HJ HH) as [(c1 & E & Hc1)|[E Hr]]; rewrite E; cbn [mbind option_bind].
  - specialize (IH c1 Hc1 (Hl c1 E)). destruct (cc_exec l c1); [done|].
    destruct IH as (l1 & k' & l2 & c2 & -> & E2 & Hr). exists (k :: l1), k', l2, c2. split_and!; [done| |done]. cbn [cc_exec]. by rewrite E.
  - by exists [], k, l, c.
Qed.

Lemma cc_init_inv J H now :
  0 < now < H -> now + D <= H -> cc_inv J H 0 [] (sa_cc_init now).
Proof.
  intros Hn HD. constructor; [constructor| | | | |]; cbn; try done; try lia.
  - constructor.
  - by right; left.
  - intros x. rewrite lookup_empty. split; [by intros []|lia].
  - intros (x & e & Hin & _). by inversion Hin.
Qed.

End invariant.
