(* ===== verification/SaCcRuns.v ===== *)
(** * Runs of the SA congestion control

    All sequences of the operations of [SaCc] from its initial state: requests posted
    and completed, modified, cancelled with their agent, the timer and the work that
    reports expired requests. Requests are conserved, the window is kept and used,
    and what expires is reported. One run shows the fault that stops it, another a
    cancellation nobody asked for. *)

From Stdlib Require Import ZArith Lia.
From stdpp Require Import base tactics numbers list option gmap sorting.
From S2P Require Import MadReg.
From S2P Require Import Prelude RmppRecv RmppSend MadSend MadAgent SaCc.

Local Open Scope Z_scope.

(** C30. In every run of the congestion control, with the limits left as they are at the
    start, no operation uses a request that is gone; a run is stopped in one case only,
    when [tf_dequeue], with a cancelled request in the FIFO, reads the head of the list
    as an entry and the word behind it is 0 ([reads_head]; [dequeue_reads_list_head] is
    such a run). Otherwise every request posted is in exactly one place, the FIFO, in
    flight, reported to its client or refused; both lists of the FIFO hold the same requests and its counter is their number, within
    the queue size; the window counts the requests in flight and is never exceeded;
    and as long as a request that was not cancelled waits, the window is full. *)
Theorem sa_cc_requests_conserved (J D H now : Z) (l : list cc_cmd) :
  0 < now < H -> now + D <= H -> H <= 2 ^ 63 -> 0 <= J -> cc_cmds_ok D J H l (sa_cc_init now) ->
  match cc_exec l (sa_cc_init now) with
  | None => exists l1 k l2 c1, l = l1 ++ k :: l2 /\ cc_exec l1 (sa_cc_init now) = Some c1 /\ reads_head k c1
  | Some c =>
    (forall id, (id < cc_next c)%nat ->
       (cnt id (tf_fifo (cc_tf c)) + cnt id (cc_flight c) + cnt id (map fst (cc_reports c)) +
        cnt id (cc_refused c) = 1)%nat) /\
    tf_to (cc_tf c) ≡ₚ tf_fifo (cc_tf c) /\
    tf_num_items (cc_tf c) = Z.of_nat (length (tf_fifo (cc_tf c))) /\
    tf_num_items (cc_tf c) <= cc_queue_size c /\
    cc_outstanding c = Z.of_nat (length (cc_flight c)) /\ cc_outstanding c <= cc_max_outstanding c /\
    forall id e, id ∈ tf_fifo (cc_tf c) -> cc_mads c !! id = Some e -> te_canceled e = false ->
      cc_outstanding c = cc_max_outstanding c
  end.
Proof.
  intros Hn HD HH HJ Hl.
  pose proof (cc_exec_inv D J H l (sa_cc_init now) (cc_init_inv D J H now Hn HD) Hl HJ HH) as Hc.
  destruct (cc_exec l (sa_cc_init now)) as [c|]; [|done]. split_and!.
  - intros id Hid. pose proof (ci_one _ _ _ _ _ _ Hc id) as H1. rewrite bool_decide_true, cnt_nil in H1 by done. exact H1.
  - apply cnt_perm. apply (fi_to _ _ _ _ Hc).
  - apply Hc.
  - apply (fi_size _ _ _ _ Hc).
  - rewrite (ci_out _ _ _ _ _ _ Hc). lia.
  - apply Hc.
  - intros id e Hin Ee Hl'. apply (ci_busy _ _ _ _ _ _ Hc). by exists id, e.
Qed.

(** Expired requests are reported: in every state a run reaches, and for every
    request in the FIFO, once the clock has passed its expiry and the minimal distance
    between two activations, the timer fires or the work is already pending, and the
    work reports that request. It reports every request that has expired, in the order
    of the list, as timed out or, when it was cancelled, as flushed, and no other. *)
Theorem sa_cc_expired_reported (J D H now : Z) (l : list cc_cmd) (env : cc_env) c :
  0 < now < H -> now + D <= H -> H <= 2 ^ 63 -> 0 <= J -> cc_cmds_ok D J H l (sa_cc_init now) ->
  cc_env_ok D J env -> cc_exec l (sa_cc_init now) = Some c ->
    forall id e t, id ∈ tf_fifo (cc_tf c) -> cc_mads c !! id = Some e ->
      te_exp_time e <= t -> cc_now c + J <= t -> t < H -> t + D <= H ->
      exists c' rep,
        cc_exec [CTick t; CTimer; CWork env (replicate (S (length (tf_to (cc_tf c)))) t)] c = Some c' /\
        id ∈ rep /\ tf_to (cc_tf c) = rep ++ tf_to (cc_tf c') /\
        cc_reports c' = cc_reports c ++ map (expiry_report (cc_mads c)) rep /\
        Forall (fun x => exp_of (cc_mads c) x <= t) rep /\
        Forall (fun x => t < exp_of (cc_mads c) x) (tf_to (cc_tf c')).
Proof.
  intros Hn HD HH HJ Hl He E.
  pose proof (cc_exec_inv D J H l (sa_cc_init now) (cc_init_inv D J H now Hn HD) Hl HJ HH) as Hc. rewrite E in Hc.
  intros id e t Hin Ee Hte HtJ HtH HtD.
  assert (id ∈ tf_to (cc_tf c)) as Hto by (apply cnt_elem; rewrite (fi_to _ _ _ _ Hc); by apply cnt_elem).
  assert (exp_of (cc_mads c) id = te_exp_time e) as Eid by (unfold exp_of; by rewrite Ee).
  pose proof (tick_inv D J H 0 [] t c Hc ltac:(lia) HtD) as Hc1.
  set (c2 := with_tf (activate_timeout_handler_task (cc_tf c)) (with_now t c)).
  assert (cc_inv D J H 0 [] c2) as Hc2.
  { destruct Hc1 as [[] ? ? ? ? ?]. constructor; try done. constructor; try done. by left. }
  assert (exists c3, cc_exec1 CTimer (with_now t c) = Some c3 /\ cc_inv D J H 0 [] c3 /\ tf_work (cc_tf c3) = true /\
    cc_now c3 = t /\ cc_mads c3 = cc_mads c /\ cc_reports c3 = cc_reports c /\
    tf_to (cc_tf c3) = tf_to (cc_tf c)) as (c3 & E3 & Hc3 & Ew & En3 & Em3 & Er3 & Et3).
  { cbn [cc_exec1 with_now cc_tf cc_now]. destruct (fi_timer _ _ _ _ Hc) as [Hw|[Hz|(u & Eu & Hu)]].
    - destruct (tf_timer (cc_tf c)) as [u|]; [destruct (u <=? t)|]; by eexists.
    - rewrite Hz in Hto. by inversion Hto.
    - rewrite Eu. specialize (Hu id Hto). rewrite (proj2 (Z.leb_le u t)) by lia. by exists c2. }
  set (times := replicate (S (length (tf_to (cc_tf c)))) t).
  assert (forall n, times_ok D H t (replicate n t)) as Hts by (induction n as [|n IH]; [done|by split_and!; [lia|lia|lia|]]).
  destruct (handler_inv D J H env times c3 Hc3 He HJ) as (c' & rep & E' & _ & _ & Hti & Er & El & Hrep & Hrest);
    [rewrite En3; apply Hts|done|unfold times; rewrite length_replicate, Et3; lia|].
  exists c', rep. cbn [cc_exec]. cbn [cc_exec1]. rewrite Z.max_l by lia. cbn [mbind option_bind].
  cbn [cc_exec1] in E3. rewrite E3. cbn [mbind option_bind]. rewrite Ew, E'. cbn [mbind option_bind].
  rewrite Et3, Em3, Er3 in *.
  assert (cc_now c' = t) as En' by (by apply elem_of_replicate in Hti as [-> _]).
  rewrite En' in *. split_and!; try done.
  rewrite El, elem_of_app in Hto. destruct Hto as [|Hr]; [done|].
  pose proof (proj1 (Forall_forall _ _) Hrest id Hr). cbn beta in *. lia.
Qed.

(** ** Concrete runs *)

Definition cc_run_env (head : bool) : cc_env :=
  {| ce_jiffies := fun ms => Z.min ms 100000; ce_msecs := fun j => j; ce_closed := fun _ => false;
     ce_send := fun _ => 0; ce_head_canceled := head |}.

Lemma cc_run_env_ok : cc_env_ok 200000 5 (cc_run_env true).
Proof. constructor; cbn; intros; unfold MIN_BETWEEN_ACTIVATIONS_MS; lia. Qed.

(** A concrete run keeps to the assumptions: each step is evaluated. *)
Ltac check_run :=
  repeat match goal with
  | |- _ /\ _ => split
  | |- forall c, cc_exec1 _ _ = Some c -> _ =>
      let c := fresh in let E := fresh in intros c E; vm_compute in E; injection E as <-
  | |- True => exact I
  | |- cc_env_ok _ _ _ => exact cc_run_env_ok
  | |- times_ok _ _ _ _ => cbn [times_ok cc_now]
  | |- _ => cbn; lia
  end.

(** Sixteen requests fill the window, three more wait. *)
Definition fill_run (head : bool) : list cc_cmd :=
  replicate 16 (CPost (cc_run_env head) 1 1000 3) ++
  [CPost (cc_run_env head) 1 1000 0; CPost (cc_run_env head) 2 1000 3; CPost (cc_run_env head) 2 500 1].

(** One completion lets the next out, one request expires, one is cancelled with its
    agent. *)
Definition cc_demo_run : list cc_cmd :=
  fill_run true ++
  [CDone (cc_run_env true) 3 0; CPost (cc_run_env true) 1 100 0; CTick 1000; CTimer;
   CWork (cc_run_env true) [1000; 1001; 1002; 1003]; CCancel 2].

Lemma cc_demo_run_ok : cc_cmds_ok 200000 5 1000000 cc_demo_run (sa_cc_init 100).
Proof.
  cbn [cc_demo_run fill_run replicate app cc_cmds_ok cc_cmd_ok].
  check_run.
Qed.

Example cc_demo_end :
  match cc_exec cc_demo_run (sa_cc_init 100) with
  | Some c => (tf_fifo (cc_tf c), cc_outstanding c, cc_reports c, length (cc_flight c), tf_timer (cc_tf c))
  | None => ([], 0, [], O, None)
  end = ([], 16, [(3%nat, 0); (19%nat, IB_WC_RESP_TIMEOUT_ERR); (18%nat, IB_WC_WR_FLUSH_ERR);
                  (17%nat, IB_WC_WR_FLUSH_ERR)], 16%nat, Some 1080).
Proof. vm_compute. reflexivity. Qed.

Lemma sa_cc_requests_conserved_witness :
  exists c, cc_exec cc_demo_run (sa_cc_init 100) = Some c /\
    (forall id, (id < cc_next c)%nat ->
       (cnt id (tf_fifo (cc_tf c)) + cnt id (cc_flight c) + cnt id (map fst (cc_reports c)) +
        cnt id (cc_refused c) = 1)%nat) /\
    cc_outstanding c = Z.of_nat (length (cc_flight c)) /\ cc_outstanding c <= cc_max_outstanding c.
Proof.
  pose proof (sa_cc_requests_conserved 5 200000 1000000 100 cc_demo_run ltac:(lia) ltac:(lia) ltac:(lia) ltac:(lia) cc_demo_run_ok) as Hc.
  destruct (cc_exec cc_demo_run (sa_cc_init 100)) as [c|] eqn:E; [|exfalso; vm_compute in E; discriminate].
  destruct Hc as (Ho & _ & _ & _ & Hout & Hm & _). exists c. exact (conj eq_refl (conj Ho (conj Hout Hm))).
Defined.

(** The three requests that wait in [fill_run], one of them cancelled. *)
Definition waiting_run : list cc_cmd := fill_run true ++ [CModify (cc_run_env true) 2 17 0].

Lemma waiting_run_ok : cc_cmds_ok 200000 5 1000000 waiting_run (sa_cc_init 100).
Proof.
  cbn [waiting_run fill_run replicate app cc_cmds_ok cc_cmd_ok].
  check_run.
Qed.

Lemma sa_cc_expired_reported_witness :
  exists c, cc_exec waiting_run (sa_cc_init 100) = Some c /\
    forall id e t, id ∈ tf_fifo (cc_tf c) -> cc_mads c !! id = Some e ->
      te_exp_time e <= t -> cc_now c + 5 <= t -> t < 1000000 -> t + 200000 <= 1000000 ->
      exists c' rep,
        cc_exec [CTick t; CTimer; CWork (cc_run_env true) (replicate (S (length (tf_to (cc_tf c)))) t)] c = Some c' /\
        id ∈ rep /\ tf_to (cc_tf c) = rep ++ tf_to (cc_tf c') /\
        cc_reports c' = cc_reports c ++ map (expiry_report (cc_mads c)) rep /\
        Forall (fun x => exp_of (cc_mads c) x <= t) rep /\
        Forall (fun x => t < exp_of (cc_mads c) x) (tf_to (cc_tf c')).
Proof.
  destruct (cc_exec waiting_run (sa_cc_init 100)) as [c|] eqn:E; [|exfalso; vm_compute in E; discriminate]. exists c. split; [reflexivity|].
  apply (sa_cc_expired_reported 5 200000 1000000 100 waiting_run (cc_run_env true) c);
    [lia|lia|lia|lia|exact waiting_run_ok|exact cc_run_env_ok|exact E].
Defined.

(** [ib_modify_mad] with a new timeout of up to [time_sa_mad] (20 ms) for a request that
    still waits in the FIFO: the time left for the FIFO is 0, and [tf_modify_item] takes
    a timeout of 0 for a cancellation. The request is flushed as if the client had
    cancelled it, instead of being given the timeout. *)
Theorem short_timeout_cancels :
  match cc_exec (fill_run true ++ [CModify (cc_run_env true) 2 17 10; CTimer; CWork (cc_run_env true) [100; 100]])
          (sa_cc_init 100) with
  | Some c => cc_reports c
  | None => []
  end = [(17%nat, IB_WC_WR_FLUSH_ERR)].
Proof. vm_compute. reflexivity. Qed.

(** [tf_dequeue] ends its search at the head of the FIFO when every entry is cancelled
    and then reads [canceled] of the head, as if it were an entry: the word found there
    belongs to the timer, which is not pending between the moment it fires and the run
    of the work. When it reads 0, the head is unlinked and sent as a request. *)
Theorem dequeue_reads_list_head :
  let l head := fill_run head ++
    [CModify (cc_run_env head) 1 16 0; CModify (cc_run_env head) 2 17 0; CModify (cc_run_env head) 2 18 0;
     CTimer; CDone (cc_run_env head) 0 0] in
  match cc_exec (l true) (sa_cc_init 100) with
  | Some c => (tf_fifo (cc_tf c), tf_timer (cc_tf c), cc_outstanding c)
  | None => ([], None, 0)
  end = ([16%nat; 17%nat; 18%nat], None, 15) /\
  cc_exec (l false) (sa_cc_init 100) = None.
Proof. split; vm_compute; reflexivity. Qed.

(** ** Destruction *)

(** [sa_cc_destroy] flushes every request that waits and was not cancelled. *)
Lemma destroy_flushes D J H env c :
  cc_inv D J H 0 [] c -> cc_env_ok D J env -> ce_head_canceled env = true -> 0 <= J ->
  exists c', sa_cc_destroy env c = Some c' /\ cc_inv D J H 0 [] c' /\ ~ live_queued c'.
Proof.
  intros Hc He Eh HJ. unfold sa_cc_destroy.
  assert (cc_inv D J H 0 [] (with_tf (tf_stop (cc_tf c)) c)) as Hc0
    by (destruct Hc as [[] ? ? ? ? ?]; constructor; try done; by constructor).
  revert Hc0. generalize (with_tf (tf_stop (cc_tf c)) c). clear c Hc. intros c.
  assert (length (tf_fifo (cc_tf c)) < S (length (tf_fifo (cc_tf c))))%nat as Hn by lia. revert Hn.
  generalize (S (length (tf_fifo (cc_tf c)))). intros n. revert c.
  induction n as [|n IH]; intros c Hn Hc; [lia|]. cbn [destroy_loop].
  destruct (dequeue_inv D J H 0 [] env c Hc He HJ) as [(r & c1 & -> & Hr)|[_ [? _]]]; [|congruence]. cbn [mbind option_bind].
  destruct r as [[id tl]|]; [|destruct Hr as [-> Hl]; by exists c].
  destruct Hr as (Hc1 & _ & _ & Hlen & _). apply IH; [cbn; lia|by apply notify_inv].
Qed.

(** A request that was cancelled and not reported yet stays in the FIFO, whose timer
    [tf_free] then deletes: its client would not be told, so the agents have to be
    unregistered (which empties the FIFO of their requests) before. *)
Theorem destroy_forgets_cancelled :
  match cc_exec (fill_run true ++ [CModify (cc_run_env true) 2 17 0]) (sa_cc_init 100) with
  | Some c =>
      match sa_cc_destroy (cc_run_env true) c with
      | Some c' => (cc_reports c', tf_fifo (cc_tf c'), tf_work (cc_tf c'))
      | None => ([], [], true)
      end
  | None => ([], [], true)
  end = ([(16%nat, IB_WC_WR_FLUSH_ERR); (18%nat, IB_WC_WR_FLUSH_ERR)], [17%nat], false).
Proof. vm_compute. reflexivity. Qed.
