(* ===== verification/MadQueue.v ===== *)
(** * The send queue of a MAD queue pair (mad.c)

    Below the lists of an agent ([MadSend]) a send waits up to twice: a request to a
    subnet management agent first for a place in the window of outstanding SMPs, then
    every send for a place in the send queue of the queue pair. [ib_send_mad] puts it
    on the first list that has no room, [ib_mad_send_done] (a completion of the device)
    moves sends up into the queue, and [smp_mad_done] (the end of an SMP) into the
    window.

    A send is named by a number. [q_done] are the calls of [ib_mad_complete_send_wr],
    [q_failed] the calls of [ib_send_mad] that returned an error, [q_fin] the SMPs that
    have ended; the end of a send is a step of its own, as in [MadSend]. [smp] tells
    which sends are SMPs ([is_smp_mad]), [post] are the results of [ib_post_send]. *)

From Stdlib Require Import ZArith Lia.
From stdpp Require Import base tactics numbers list option gmap sorting.
From S2P Require Import MadReg.
From S2P Require Import Prelude RmppRecv RmppSend MadSend MadAgent.

Local Open Scope Z_scope.

Record mad_queue := {
  q_count : Z;
  q_max_active : Z;
  q_list : list nat;
  q_overflow : list nat;
  w_outstanding : Z;
  w_max_outstanding : Z;
  w_overflow : list nat;
  q_done : list (nat * Z);
  q_failed : list nat;
  q_fin : list nat;
  q_next : nat
}.

Definition set_queue (count : Z) (l o : list nat) (q : mad_queue) : mad_queue :=
  {| q_count := count; q_max_active := q_max_active q; q_list := l; q_overflow := o;
     w_outstanding := w_outstanding q; w_max_outstanding := w_max_outstanding q; w_overflow := w_overflow q;
     q_done := q_done q; q_failed := q_failed q; q_fin := q_fin q; q_next := q_next q |}.
Definition set_window (n : Z) (o : list nat) (q : mad_queue) : mad_queue :=
  {| q_count := q_count q; q_max_active := q_max_active q; q_list := q_list q; q_overflow := q_overflow q;
     w_outstanding := n; w_max_outstanding := w_max_outstanding q; w_overflow := o;
     q_done := q_done q; q_failed := q_failed q; q_fin := q_fin q; q_next := q_next q |}.
Definition set_history (d : list (nat * Z)) (f fin : list nat) (n : nat) (q : mad_queue) : mad_queue :=
  {| q_count := q_count q; q_max_active := q_max_active q; q_list := q_list q; q_overflow := q_overflow q;
     w_outstanding := w_outstanding q; w_max_outstanding := w_max_outstanding q; w_overflow := w_overflow q;
     q_done := d; q_failed := f; q_fin := fin; q_next := n |}.

(** A call of [ib_mad_complete_send_wr]. *)
Definition complete (id : nat) (status : Z) (q : mad_queue) : mad_queue :=
  set_history (q_done q ++ [(id, status)]) (q_failed q) (q_fin q) (q_next q) q.
Definition finish (id : nat) (q : mad_queue) : mad_queue :=
  set_history (q_done q) (q_failed q) (q_fin q ++ [id]) (q_next q) q.

Definition is_smp_mad (timeout_ms mgmt_class method : Z) : bool :=
  truthy timeout_ms && ((mgmt_class =? IB_MGMT_CLASS_SUBN_LID_ROUTED) ||
                        (mgmt_class =? IB_MGMT_CLASS_SUBN_DIRECTED_ROUTE)) &&
  ((method =? 1) || (method =? 2)).

(** The queue pair: posted to the device, or behind it. *)
Definition queue_post (id : nat) (ret : Z) (q : mad_queue) : Z * mad_queue :=
  if q_count q <? q_max_active q then
    (ret, if ret =? 0 then set_queue (q_count q + 1) (q_list q ++ [id]) (q_overflow q) q else q)
  else (0, set_queue (q_count q + 1) (q_list q) (q_overflow q ++ [id]) q).

(** [ib_send_mad]; [mapped] tells whether the buffers could be mapped. *)
Definition ib_send_mad (smp : nat -> bool) (mapped : bool) (id : nat) (post : Z) (q : mad_queue)
  : Z * mad_queue :=
  if negb mapped then (err ENOMEM, q) else
  if smp id then
    if w_max_outstanding q <=? w_outstanding q
    then (0, set_window (w_outstanding q) (w_overflow q ++ [id]) q)
    else queue_post id post (set_window (w_outstanding q + 1) (w_overflow q) q)
  else queue_post id post q.

(** [ib_mad_send_done], without the errors [ib_mad_send_error] handles by posting the
    send again. The head of the overflow list is taken without looking whether it is
    empty. *)
Fixpoint ib_mad_send_done (fuel : nat) (post : nat -> Z) (id : nat) (status : Z) (q : mad_queue)
  : option mad_queue :=
  match fuel with
  | O => None
  | S n =>
      let count := q_count q - 1 in
      let l := list_del id (q_list q) in
      if q_max_active q <? q_count q then
        match q_overflow q with
        | [] => None
        | x :: o =>
            let q := complete id status (set_queue count (l ++ [x]) o q) in
            if post n =? 0 then Some q else ib_mad_send_done n post x IB_WC_LOC_QP_OP_ERR q
        end
      else Some (complete id status (set_queue count l (q_overflow q) q))
  end.

(** [smp_mad_done] from [retry_locked] on: a send that cannot be posted is completed,
    which ends it and calls [smp_mad_done] for it, and the next one is tried. *)
Definition window_dec (q : mad_queue) : mad_queue :=
  set_window (if truthy (w_outstanding q) then w_outstanding q - 1 else w_outstanding q) (w_overflow q) q.

Fixpoint smp_retry (fuel : nat) (post : nat -> Z) (q : mad_queue) : option mad_queue :=
  match w_overflow q with
  | [] => Some q
  | x :: o =>
      match fuel with
      | O => None
      | S n =>
          let '(ret, q1) := queue_post x (post n) (set_window (w_outstanding q) o q) in
          if ret =? 0 then Some (set_window (w_outstanding q1 + 1) (w_overflow q1) q1)
          else
            q2 ← smp_retry n post (window_dec (finish x (complete x IB_WC_LOC_QP_OP_ERR q1)));
            smp_retry n post q2
      end
  end.

Definition smp_mad_done (post : nat -> Z) (q : mad_queue) : option mad_queue :=
  smp_retry (length (w_overflow q)) post (window_dec q).

Definition smp_window_init (max_active mad_smp_window : Z) : mad_queue :=
  {| q_count := 0; q_max_active := max_active; q_list := []; q_overflow := [];
     w_outstanding := 0; w_max_outstanding := mad_smp_window; w_overflow := [];
     q_done := []; q_failed := []; q_fin := []; q_next := 0 |}.

(** ** Steps *)

Inductive queue_cmd :=
| QSend (mapped : bool) (post : Z)
| QDone (i : nat) (status : Z) (post : nat -> Z)
| QFinish (id : nat) (post : nat -> Z).

Definition queue_exec1 (smp : nat -> bool) (k : queue_cmd) (q : mad_queue) : option mad_queue :=
  match k with
  | QSend mapped post =>
      let id := q_next q in
      let '(ret, q1) := ib_send_mad smp mapped id post q in
      Some (set_history (q_done q1) (if ret =? 0 then q_failed q1 else q_failed q1 ++ [id]) (q_fin q1) (S id) q1)
  | QDone i status post =>
      match q_list q !! i with
      | None => Some q
      | Some id => ib_mad_send_done (S (length (q_overflow q))) post id status q
      end
  | QFinish id post =>
      if smp id && bool_decide (id ∈ map fst (q_done q)) && negb (bool_decide (id ∈ q_fin q))
      then smp_mad_done post (finish id q) else Some q
  end.

Fixpoint queue_exec (smp : nat -> bool) (l : list queue_cmd) (q : mad_queue) : option mad_queue :=
  match l with
  | [] => Some q
  | k :: l' => q1 ← queue_exec1 smp k q; queue_exec smp l' q1
  end.

(** ** The queue *)

(** Every send is in one place, or in the hand of the running operation; the counter
    counts both lists; something waits behind the device only when it is full. *)
Record queue_inv (hand : list nat) (q : mad_queue) : Prop := {
  qi_count : q_count q = Z.of_nat (length (q_list q) + length (q_overflow q));
  qi_max : Z.of_nat (length (q_list q)) <= q_max_active q;
  qi_full : q_overflow q <> [] -> Z.of_nat (length (q_list q)) = q_max_active q;
  qi_one : forall id, (cnt id hand + cnt id (w_overflow q) + cnt id (q_list q) + cnt id (q_overflow q) +
                       cnt id (map fst (q_done q)) + cnt id (q_failed q) =
                       b2n (bool_decide (id < q_next q)%nat))%nat
}.

Lemma length_del_one id l : cnt id l = 1%nat -> S (length (list_del id l)) = length l.
Proof.
  intros H. assert (length (list_del id l) + cnt id l = length l)%nat; [|lia].
  clear H. induction l as [|x l IH]; [done|]. unfold list_del in *. rewrite filter_cons, cnt_cons.
  destruct (decide (x <> id)); cbn [length]; case_decide; subst; try done; lia.
Qed.

Lemma post_queue hand id ret q :
  queue_inv (id :: hand) q ->
  let '(r, q') := queue_post id ret q in
  if r =? 0 then queue_inv hand q' else q' = q.
Proof.
  intros [Hc Hm Hf Ho]. unfold queue_post. destruct (Z.ltb_spec (q_count q) (q_max_active q)) as [Hlt|Hge].
  - destruct (Z.eqb_spec ret 0); [|done].
    assert (q_overflow q = []) as Hz by (destruct (q_overflow q); [done|]; specialize (Hf ltac:(done)); cbn in Hc; lia).
    constructor; cbn [set_queue q_count q_list q_overflow q_max_active w_overflow q_done q_failed q_next].
    + rewrite Hc, length_app. cbn [length]. lia.
    + rewrite length_app. cbn [length]. lia.
    + done.
    + intros x. specialize (Ho x). rewrite cnt_app, cnt_one. rewrite cnt_cons in Ho. lia.
  - cbn [Z.eqb]. constructor; cbn [set_queue q_count q_list q_overflow q_max_active w_overflow q_done q_failed q_next].
    + rewrite Hc, length_app. cbn [length]. lia.
    + done.
    + intros _. destruct (q_overflow q); [cbn [length] in Hc; lia|by apply Hf].
    + intros x. specialize (Ho x). rewrite cnt_app, cnt_one. rewrite cnt_cons in Ho. lia.
Qed.

Lemma window_queue hand n o hand' q :
  queue_inv hand q -> (forall x, cnt x hand' + cnt x o = cnt x hand + cnt x (w_overflow q))%nat ->
  queue_inv hand' (set_window n o q).
Proof.
  intros [Hc Hm Hf Ho] Hx. constructor; try done. intros x. specialize (Ho x). specialize (Hx x).
  cbn [set_window w_overflow q_list q_overflow q_done q_failed q_next]. lia.
Qed.

Lemma complete_queue hand id st q : queue_inv (id :: hand) q -> queue_inv hand (complete id st q).
Proof.
  intros [Hc Hm Hf Ho]. constructor; try done. intros x. specialize (Ho x).
  cbn [complete set_history w_overflow q_list q_overflow q_done q_failed q_next].
  rewrite map_app, cnt_app. cbn [map fst]. rewrite cnt_one. rewrite cnt_cons in Ho. lia.
Qed.

Lemma finish_queue hand id q : queue_inv hand q -> queue_inv hand (finish id q).
Proof. by intros []. Qed.

(** A completion of the device: the completed send leaves the queue, the next one
    enters it; [ib_mad_send_done] never takes from an empty list, and ends. *)
Lemma send_done_queue n post id st q :
  queue_inv [] q -> cnt id (q_list q) = 1%nat -> (length (q_overflow q) < n)%nat ->
  exists q', ib_mad_send_done n post id st q = Some q' /\ queue_inv [] q'.
Proof.
  revert id st q. induction n as [|n IH]; intros id st q Hq Hid Hn; [lia|]. cbn [ib_mad_send_done].
  pose proof Hq as [Hc Hm Hf Ho]. pose proof (length_del_one id _ Hid) as Hdel.
  destruct (Z.ltb_spec (q_max_active q) (q_count q)) as [Hlt|Hge].
  - destruct (q_overflow q) as [|x o] eqn:Eo; [cbn [length] in Hc; lia|].
    set (q1 := set_queue (q_count q - 1) (list_del id (q_list q) ++ [x]) o q).
    assert (queue_inv [id] q1) as Hq1.
    { constructor; cbn [q1 set_queue q_count q_list q_overflow q_max_active w_overflow q_done q_failed q_next].
      - rewrite length_app. cbn [length] in Hc |- *. lia.
      - rewrite length_app. cbn [length]. lia.
      - intros _. specialize (Hf ltac:(done)). rewrite length_app. cbn [length]. lia.
      - intros y. specialize (Ho y). rewrite cnt_nil, cnt_cons in Ho. rewrite cnt_app, !cnt_one, cnt_del.
        destruct (decide (y = id)) as [->|]; [rewrite !(decide_True (P := id = id)) by done; lia|].
        rewrite (decide_False (P := id = y)) by congruence. lia. }
    pose proof (complete_queue [] id st q1 Hq1) as Hq2.
    destruct (post n =? 0); [by eexists|]. apply IH; [done| |cbn in Hn |- *; lia].
    cbn [complete set_history q1 set_queue q_list]. pose proof (qi_one _ _ Hq1 x) as Hx.
    cbn [q1 set_queue q_list w_overflow q_overflow q_done q_failed q_next] in Hx.
    assert (cnt x [x] = 1%nat) by (by rewrite cnt_one, decide_True). rewrite cnt_app in Hx |- *.
    destruct (bool_decide _); cbn [b2n] in Hx; lia.
  - assert (q_overflow q = []) as Hz by (destruct (q_overflow q); [done|]; specialize (Hf ltac:(done)); cbn in Hc; lia).
    eexists. split; [done|]. apply complete_queue.
    constructor; cbn [set_queue q_count q_list q_overflow q_max_active w_overflow q_done q_failed q_next].
    + rewrite Hc, Hz. cbn [length]. lia.
    + lia.
    + by rewrite Hz.
    + intros y. specialize (Ho y). rewrite cnt_one, cnt_del. rewrite cnt_nil in Ho.
      destruct (decide (y = id)) as [->|]; [rewrite decide_True by done; lia|]. rewrite decide_False by congruence. lia.
Qed.

Lemma retry_queue n post q :
  queue_inv [] q -> (length (w_overflow q) <= n)%nat ->
  exists q', smp_retry n post q = Some q' /\ queue_inv [] q' /\ (length (w_overflow q') <= length (w_overflow q))%nat.
Proof.
  revert q. induction n as [|n IH]; intros q Hq Hn; cbn [smp_retry].
  { destruct (w_overflow q) as [|x o] eqn:Eo; [exists q; by rewrite Eo|cbn in Hn; lia]. }
  destruct (w_overflow q) as [|x o] eqn:Eo; [exists q; by rewrite Eo|].
  pose proof (window_queue [] (w_outstanding q) o [x] q Hq) as Hq1.
  pose proof (post_queue [] x (post n) (set_window (w_outstanding q) o q)) as Hp.
  assert (queue_inv [x] (set_window (w_outstanding q) o q)) as Hx.
  { apply Hq1. intros y. rewrite Eo, cnt_nil, cnt_one, cnt_cons. lia. }
  specialize (Hp Hx). destruct (queue_post x (post n) _) as [ret q1] eqn:Eq.
  assert (w_overflow q1 = o) as Ew.
  { unfold queue_post in Eq. destruct (_ <? _); [destruct (_ =? _)|]; by injection Eq as <- <-. }
  destruct (ret =? 0).
  - eexists. split; [done|]. split; [|cbn; rewrite Ew; lia]. by apply (window_queue []).
  - subst q1. set (q1 := set_window (w_outstanding q) o q) in *. set (q2 := window_dec _).
    assert (queue_inv [] q2) as Hq2 by (apply (window_queue []); [by apply finish_queue, complete_queue|done]).
    cbn [length] in Hn.
    destruct (IH q2 Hq2) as (q3 & -> & Hq3 & Hl3); [cbn; lia|]. cbn [mbind option_bind].
    destruct (IH q3 Hq3) as (q4 & -> & Hq4 & Hl4); [cbn in Hl3; lia|]. exists q4. split_and!; try done.
    cbn in Hl3 |- *. lia.
Qed.

Lemma queue_step smp k q :
  queue_inv [] q -> exists q', queue_exec1 smp k q = Some q' /\ queue_inv [] q'.
Proof.
  intros Hq. destruct k as [mapped post|i st post|id post]; cbn [queue_exec1].
  - set (id := q_next q). pose proof Hq as [Hc Hm Hf Ho].
    (* the new send is in the hand *)
    set (qn := set_history (q_done q) (q_failed q) (q_fin q) (S id) q).
    assert (queue_inv [id] qn) as Hn.
    { constructor; try done. intros x. specialize (Ho x). cbn [qn set_history w_overflow q_list q_overflow q_done q_failed q_next].
      rewrite cnt_one. rewrite cnt_nil in Ho. destruct (decide (id = x)) as [<-|Hx].
      - rewrite bool_decide_false in Ho by (unfold id; lia). rewrite bool_decide_true by (unfold id; lia). cbn [b2n] in *. lia.
      - rewrite (bool_decide_ext _ (x < q_next q)%nat) by (unfold id in *; lia). lia. }
    assert (exists ret q1, ib_send_mad smp mapped id post qn = (ret, q1) /\
      queue_inv (if ret =? 0 then [] else [id]) q1) as (ret & q1 & E & Hq1).
    { unfold ib_send_mad. destruct mapped; cbn [negb]; [|by eexists _, qn].
      assert (forall w, queue_inv [id] w -> exists ret q1, queue_post id post w = (ret, q1) /\
        queue_inv (if ret =? 0 then [] else [id]) q1) as Hp.
      { intros w Hw. pose proof (post_queue [] id post w Hw) as H. destruct (queue_post id post w) as [ret q1].
        exists ret, q1. split; [done|]. destruct (ret =? 0); [done|by subst]. }
      destruct (smp id); [|by apply Hp]. destruct (_ <=? _).
      - eexists _, _. split; [done|]. cbn [Z.eqb]. apply (window_queue [id]); [done|].
        intros x. rewrite cnt_app, cnt_nil. lia.
      - apply Hp. by apply (window_queue [id]). }
    assert (exists q0, ib_send_mad smp mapped id post q = (ret, q0) /\
      set_history (q_done q0) (q_failed q0) (q_fin q0) (S id) q0 = q1) as (q0 & -> & E0).
    { revert E. unfold ib_send_mad, queue_post. destruct mapped; cbn [negb]; [|intros [= <- <-]; (eexists; split; reflexivity)].
      cbn [qn set_history w_max_outstanding w_outstanding q_count q_max_active set_window].
      destruct (smp id); [destruct (_ <=? _)|]; try destruct (_ <? _); destruct (post =? 0);
        intros [= <- <-]; (eexists; split; reflexivity). }
    eexists. split; [done|]. destruct (ret =? 0); [by rewrite E0|].
    rewrite <- E0 in Hq1. destruct Hq1 as [Hc1 Hm1 Hf1 Ho1]. constructor; try done. intros x. specialize (Ho1 x).
    cbn [set_history w_overflow q_list q_overflow q_done q_failed q_next] in *. rewrite cnt_nil, cnt_app, cnt_one.
    rewrite cnt_one in Ho1. lia.
  - destruct (q_list q !! i) as [id|] eqn:Ei; [|by exists q]. apply send_done_queue; [done| |lia].
    pose proof (qi_one _ _ Hq id) as H1. assert (0 < cnt id (q_list q))%nat.
    { apply cnt_elem. by eapply list_elem_of_lookup_2. }
    destruct (bool_decide _); cbn [b2n] in H1; lia.
  - destruct (_ && _); [|by exists q]. unfold smp_mad_done.
    destruct (retry_queue (length (w_overflow (finish id q))) post (window_dec (finish id q))) as (q' & -> & Hq' & _);
      [|done|by exists q']. apply (window_queue []); [by apply finish_queue|done].
Qed.

Lemma queue_run smp l q :
  queue_inv [] q -> exists q', queue_exec smp l q = Some q' /\ queue_inv [] q'.
Proof.
  revert q. induction l as [|k l IH]; intros q Hq; [by exists q|]. cbn [queue_exec].
  destruct (queue_step smp k q Hq) as (q1 & -> & Hq1). by apply IH.
Qed.

Lemma init_queue ma win : 0 <= ma -> queue_inv [] (smp_window_init ma win).
Proof. intros H. constructor; cbn; try done. Qed.

(** ** The window of SMPs *)

Section window.
Context (smp : nat -> bool).

Definition nsmp (l : list nat) : Z := Z.of_nat (length (filter (fun x => smp x = true) l)).

Lemma nsmp_app l l' : nsmp (l ++ l') = nsmp l + nsmp l'.
Proof. unfold nsmp. rewrite filter_app, length_app. lia. Qed.

Lemma nsmp_cons x l : nsmp (x :: l) = b2z (smp x) + nsmp l.
Proof. unfold nsmp. rewrite filter_cons. destruct (smp x); case_decide; cbn [length b2z]; try done; lia. Qed.

Lemma nsmp_nil : nsmp [] = 0.
Proof. done. Qed.

Lemma nsmp_del id l : cnt id l = 1%nat -> nsmp (list_del id l) + b2z (smp id) = nsmp l.
Proof.
  intros H. assert (nsmp (list_del id l) + Z.of_nat (cnt id l) * b2z (smp id) = nsmp l) as E; [|rewrite H in E; lia].
  clear H. induction l as [|x l IH]; [done|]. unfold list_del in *. rewrite filter_cons, cnt_cons.
  destruct (decide (x <> id)) as [Hx|Hx]; rewrite ?nsmp_cons; case_decide; subst; try done; lia.
Qed.

(** The SMPs that hold a place: posted or behind the device, or completed by the device
    and not at their end. *)
Definition in_window (q : mad_queue) : Z :=
  nsmp (q_list q) + nsmp (q_overflow q) + nsmp (map fst (q_done q)) - Z.of_nat (length (q_fin q)).

Record window_inv (q : mad_queue) : Prop := {
  wi_queue :> queue_inv [] q;
  wi_out : w_outstanding q = in_window q;
  wi_max : w_outstanding q <= w_max_outstanding q;
  wi_full : w_overflow q <> [] -> w_outstanding q = w_max_outstanding q;
  wi_smp : Forall (fun x => smp x = true) (w_overflow q);
  wi_fin : NoDup (q_fin q) /\ forall x, x ∈ q_fin q -> smp x = true /\ x ∈ map fst (q_done q)
}.

Definition posts_succeed (k : queue_cmd) : Prop :=
  match k with
  | QSend _ post => post = 0
  | QDone _ _ post | QFinish _ post => forall n, post n = 0
  end.

Lemma window_send mapped q :
  window_inv q -> exists q', queue_exec1 smp (QSend mapped 0) q = Some q' /\ window_inv q'.
Proof.
  intros Hw. destruct (queue_step smp (QSend mapped 0) q Hw) as (q' & E & Hq'). exists q'. split; [done|].
  destruct Hw as [_ Hout Hmax Hfull Hs Hfin]. revert E. cbn [queue_exec1]. unfold ib_send_mad, queue_post.
  destruct mapped; cbn [negb]; [|intros [= <-]; by constructor].
  destruct (smp (q_next q)) eqn:Es; [destruct (Z.leb_spec (w_max_outstanding q) (w_outstanding q)) as [Hge|Hlt]|].
  1: intros [= <-]; constructor; try done; [intros _; cbn [set_window set_history w_outstanding w_max_outstanding]; lia|].
  1: cbn [set_window set_history w_overflow]; apply Forall_app; by split; [|constructor].
  all: cbn [set_window w_outstanding w_overflow w_max_outstanding q_count q_max_active q_list q_overflow].
  all: destruct (q_count q <? q_max_active q); cbn [Z.eqb]; intros [= <-]; constructor; try done;
    cbn [set_history set_queue set_window w_outstanding w_max_outstanding w_overflow]; unfold in_window in *;
    cbn [set_history set_queue set_window q_list q_overflow q_done q_fin w_outstanding];
    rewrite ?nsmp_app, ?nsmp_cons, ?nsmp_nil, ?Es; cbn [b2z]; try lia; intros Hne; specialize (Hfull Hne); lia.
Qed.

Lemma window_done i st post q :
  window_inv q -> (forall n, post n = 0) ->
  exists q', queue_exec1 smp (QDone i st post) q = Some q' /\ window_inv q'.
Proof.
  intros Hw Hp. destruct (queue_step smp (QDone i st post) q Hw) as (q' & E & Hq'). exists q'. split; [done|].
  pose proof Hw as [Hq Hout Hmax Hfull Hs Hfin]. revert E. cbn [queue_exec1].
  destruct (q_list q !! i) as [id|] eqn:Ei; [|by intros [= <-]].
  assert (cnt id (q_list q) = 1%nat) as H1.
  { pose proof (qi_one _ _ Hq id) as H1. assert (0 < cnt id (q_list q))%nat
      by (apply cnt_elem; by eapply list_elem_of_lookup_2).
    destruct (bool_decide _); cbn [b2n] in H1; lia. }
  pose proof (nsmp_del id _ H1) as Hdel.
  assert (NoDup (q_fin q) /\ forall x, x ∈ q_fin q -> smp x = true /\ x ∈ map fst (q_done q ++ [(id, st)])) as Hfin'.
  { destruct Hfin as [Hnd Hf]. split; [done|]. intros x Hx. destruct (Hf x Hx). split; [done|].
    rewrite map_app, elem_of_app. by left. }
  cbn [ib_mad_send_done]. rewrite Hp. cbn [Z.eqb].
  destruct (q_max_active q <? q_count q); [destruct (q_overflow q) as [|x o] eqn:Eo; [done|]|];
    intros [= <-]; constructor; try done;
    cbn [complete set_history set_queue w_outstanding]; unfold in_window in *;
    cbn [complete set_history set_queue q_list q_overflow q_done q_fin];
    rewrite ?Eo in *; rewrite map_app; cbn [map fst]; rewrite ?nsmp_app, ?nsmp_cons, ?nsmp_nil in *; lia.
Qed.

Lemma window_finish id post q :
  window_inv q -> (forall n, post n = 0) ->
  exists q', queue_exec1 smp (QFinish id post) q = Some q' /\ window_inv q'.
Proof.
  intros Hw Hp. destruct (queue_step smp (QFinish id post) q Hw) as (q' & E & Hq'). exists q'. split; [done|].
  pose proof Hw as [Hq Hout Hmax Hfull Hs [Hnd Hf]]. revert E. cbn [queue_exec1].
  destruct (smp id && bool_decide (id ∈ map fst (q_done q)) && negb (bool_decide (id ∈ q_fin q))) eqn:Eg;
    [|by intros [= <-]].
  rewrite !andb_true_iff, negb_true_iff in Eg. destruct Eg as [[Es Hd] Hnf].
  apply bool_decide_eq_true in Hd. apply bool_decide_eq_false in Hnf.
  assert (NoDup (q_fin q ++ [id])) as Hnd'.
  { apply NoDup_app. split_and!; [done| |apply NoDup_singleton]. intros x Hx Hx'.
    apply list_elem_of_singleton in Hx' as ->. done. }
  assert (Z.of_nat (length (q_fin q ++ [id])) <= nsmp (map fst (q_done q))) as Hlt.
  { unfold nsmp. apply inj_le, submseteq_length, NoDup_submseteq; [done|]. intros x Hx.
    apply list_elem_of_filter. rewrite elem_of_app, list_elem_of_singleton in Hx.
    destruct Hx as [Hx| ->]; [by apply Hf|done]. }
  assert (forall x, x ∈ q_fin q ++ [id] -> smp x = true /\ x ∈ map fst (q_done q)) as Hf'.
  { intros x Hx. rewrite elem_of_app, list_elem_of_singleton in Hx. destruct Hx as [Hx| ->]; [by apply Hf|done]. }
  rewrite length_app in Hlt. cbn [length] in Hlt. unfold in_window in Hout.
  pose proof (Nat2Z.is_nonneg (length (filter (fun x => smp x = true) (q_list q)))).
  pose proof (Nat2Z.is_nonneg (length (filter (fun x => smp x = true) (q_overflow q)))).
  assert (truthy (w_outstanding q) = true) as Et.
  { unfold truthy. rewrite (proj2 (Z.eqb_neq _ _)); [done|]. unfold nsmp in *. lia. }
  unfold smp_mad_done, window_dec, finish. cbn [finish set_history w_overflow window_dec set_window w_outstanding]. rewrite Et.
  destruct (w_overflow q) as [|x o] eqn:Eo; cbn [length smp_retry set_window w_overflow set_history].
  - intros [= <-]. constructor; try done; unfold in_window;
      cbn [set_window set_history w_outstanding w_max_outstanding w_overflow q_list q_overflow q_done q_fin];
      rewrite ?length_app; cbn [length]; try done; lia.
  - rewrite Hp. specialize (Hfull ltac:(done)). apply Forall_cons_iff in Hs as [Hsx Hs]. unfold queue_post.
    cbn [set_window set_history w_outstanding w_overflow q_count q_max_active q_list q_overflow].
    destruct (q_count q <? q_max_active q); cbn [Z.eqb]; intros [= <-]; constructor; try done; unfold in_window;
      cbn [set_queue set_window set_history w_outstanding w_max_outstanding w_overflow q_list q_overflow q_done q_fin];
      rewrite ?length_app, ?nsmp_app, ?nsmp_cons, ?nsmp_nil, ?Hsx; cbn [length b2z]; try done; lia.
Qed.

Lemma window_run l q :
  window_inv q -> Forall posts_succeed l -> exists q', queue_exec smp l q = Some q' /\ window_inv q'.
Proof.
  intros Hw Hl. revert q Hw. induction Hl as [|k l Hk _ IH]; intros q Hw; [by exists q|]. cbn [queue_exec].
  assert (exists q1, queue_exec1 smp k q = Some q1 /\ window_inv q1) as (q1 & -> & Hw1).
  { destruct k as [mapped post|i st post|id post]; cbn [posts_succeed] in Hk.
    - rewrite Hk. by apply window_send.
    - by apply window_done.
    - by apply window_finish. }
  by apply IH.
Qed.

End window.

(** ** The theorems *)

(** In every run of the send queue, whatever [ib_post_send] returns, no operation
    takes an entry from an empty list, [ib_mad_send_done] and [smp_mad_done] end, and:
    every send is in exactly one place (waiting for the window, in the queue, behind
    it, completed or refused); the counter is the number of sends in the queue and
    behind it; the device never has more than [max_active] sends, and has as many while
    one waits behind it. If [ib_post_send] always succeeds, the window counts the SMPs
    that are sent and not at their end, is never exceeded, and is full while an SMP
    waits for it. *)
Theorem mad_queue_kept (smp : nat -> bool) (max_active window : Z) (l : list queue_cmd) :
  0 <= max_active -> 0 <= window ->
  exists q, queue_exec smp l (smp_window_init max_active window) = Some q /\
    (forall id, (id < q_next q)%nat ->
       (cnt id (w_overflow q) + cnt id (q_list q) + cnt id (q_overflow q) +
        cnt id (map fst (q_done q)) + cnt id (q_failed q) = 1)%nat) /\
    q_count q = Z.of_nat (length (q_list q) + length (q_overflow q)) /\
    Z.of_nat (length (q_list q)) <= q_max_active q /\
    (q_overflow q <> [] -> Z.of_nat (length (q_list q)) = q_max_active q) /\
    (Forall posts_succeed l ->
     w_outstanding q = in_window smp q /\ w_outstanding q <= w_max_outstanding q /\
     (w_overflow q <> [] -> w_outstanding q = w_max_outstanding q)).
Proof.
  intros Hm Hw. pose proof (init_queue max_active window Hm) as Hq.
  destruct (queue_run smp l _ Hq) as (q & E & Hq'). exists q. split; [done|]. split_and!; [|apply Hq'..|].
  - intros id Hid. pose proof (qi_one _ _ Hq' id) as H1. rewrite bool_decide_true, cnt_nil in H1 by done. exact H1.
  - intros Hl. destruct (window_run smp l (smp_window_init max_active window)) as (q1 & E1 & []); [|done|].
    + constructor; try done. split; [constructor|]. intros x Hx. by inversion Hx.
    + rewrite E in E1. by injection E1 as <-.
Qed.

(** ** Concrete runs *)

(** The even numbers are SMPs. *)
Definition even_smp (id : nat) : bool := Nat.even id.
Definition always (r : Z) : nat -> Z := fun _ => r.

Definition queue_demo_run : list queue_cmd :=
  [QSend true 0; QSend true 0; QSend true 0; QSend true 0; QSend false 0; QSend true 0;
   QDone 1 0 (always (-5)); QDone 0 0 (always 0); QFinish 0 (always 0)].

Lemma mad_queue_kept_witness :
  exists q, queue_exec even_smp queue_demo_run (smp_window_init 2 1) = Some q /\
    q_count q = Z.of_nat (length (q_list q) + length (q_overflow q)) /\
    Z.of_nat (length (q_list q)) <= q_max_active q.
Proof.
  destruct (mad_queue_kept even_smp 2 1 queue_demo_run) as (q & E & _ & Hc & Hm & _); [lia|lia|].
  exists q. exact (conj E (conj Hc Hm)).
Defined.

Example queue_demo_end :
  match queue_exec even_smp queue_demo_run (smp_window_init 2 1) with
  | Some q => (q_list q, q_overflow q, w_overflow q, q_done q, q_failed q, w_outstanding q)
  | None => ([], [], [], [], [], 0)
  end = ([2%nat], [], [], [(1%nat, 0); (3%nat, IB_WC_LOC_QP_OP_ERR); (5%nat, IB_WC_LOC_QP_OP_ERR); (0%nat, 0)],
         [4%nat], 1).
Proof. vm_compute. reflexivity. Qed.

(** [ib_send_mad] counts an SMP in the window before it posts it and does not take it
    back when [ib_post_send] fails: the place is lost. With as many failures as places,
    every later SMP waits for the end of an SMP that does not exist. *)
Theorem failed_post_loses_place :
  match queue_exec (fun _ => true) [QSend true (err ENOMEM); QSend true 0] (smp_window_init 128 1) with
  | Some q => (q_failed q, w_overflow q, q_list q, w_outstanding q, in_window (fun _ => true) q)
  | None => ([], [], [], 0, 0)
  end = ([0%nat], [1%nat], [], 1, 0).
Proof. vm_compute. reflexivity. Qed.

(** An SMP that cannot be posted when it leaves the window list was not counted, but
    its completion calls [smp_mad_done] for it and takes a place of another SMP out of
    the count: afterwards more SMPs than the window allows are in flight. *)
Theorem failed_requeue_exceeds_window :
  match queue_exec (fun _ => true)
          [QSend true 0; QSend true 0; QSend true 0; QDone 0 0 (always 0); QFinish 0 (always (err EIO));
           QSend true 0; QSend true 0] (smp_window_init 128 2) with
  | Some q => (q_list q, q_done q, w_outstanding q, in_window (fun _ => true) q)
  | None => ([], [], 0, 0)
  end = ([1%nat; 3%nat; 4%nat], [(0%nat, 0); (2%nat, IB_WC_LOC_QP_OP_ERR)], 2, 3).
Proof. vm_compute. reflexivity. Qed.
