(* ===== verification/Outcome.v ===== *)
(** * Sections of concurrent code

    Code in which threads interleave is modelled as programs of sections. A section
    returns, runs into a bug (a [BUG()], an access to freed memory, a reference count below
    zero), or cannot go on before another thread has moved. *)

From stdpp Require Import base tactics list.

(** ** Results of a section *)

Inductive outcome (A : Type) :=
| Ok (a : A)
| Bug
| Block.
Arguments Ok {A} _.
Arguments Bug {A}.
Arguments Block {A}.

Definition obind {A B} (f : A -> outcome B) (o : outcome A) : outcome B :=
  match o with Ok a => f a | Bug => Bug | Block => Block end.
#[export] Instance outcome_bind : MBind outcome := @obind.
#[export] Instance outcome_ret : MRet outcome := @Ok.

Lemma bind_Ok {A B} (f : A -> outcome B) (o : outcome A) b :
  o ≫= f = Ok b <-> exists a, o = Ok a /\ f a = Ok b.
Proof. destruct o; split; intros E; [by eexists|by destruct E as (? & [= ->] & ?)|done|by destruct E as (? & ? & _)..|done|by destruct E as (? & ? & _)]. Qed.

(** ** Queues *)

(** A queue without its first [x]. *)
Definition remove_first {A} `{!EqDecision A} (x : A) (l : list A) : list A :=
  match list_find (eq x) l with Some (i, _) => delete i l | None => l end.

Lemma remove_first_perm {A} `{!EqDecision A} (n : A) l : n ∈ l -> l ≡ₚ n :: remove_first n l.
Proof.
  intros H. unfold remove_first. destruct (list_find_elem_of (eq n) l n H eq_refl) as [[i y] Hi]. rewrite Hi. apply list_find_Some in Hi as (Hi & <- & _).
  by apply delete_Permutation.
Qed.
