(* ===== verification/Iwcm.v ===== *)
(** * The iWARP connection manager (iwcm.c)

    A connection identifier ([iwcm_id_private]) is shared by three parties: its client,
    which connects, listens, accepts, rejects, disconnects and destroys; the device
    driver (the provider), which reports events from interrupt context
    ([cm_event_handler]); and the single thread of [iwcm_wq], which takes the events off
    the list of the identifier and runs the client's callback ([cm_work_handler]).

    The code drops the lock of the identifier in the middle of almost every function, so
    a function is a sequence of sections here: [iw_cm_connect pc i m] runs the section at
    the program point [pc] (with the results [i] of code outside) on the memory [m] and
    gives the next point, with the local variables that are still needed, or the value
    returned. [Bug] is [BUG()], a use of memory that was freed or a reference count that
    underflows; [Block] is a wait that is not over. [IwcmSystem] interleaves the sections
    of the three parties. *)

From Stdlib Require Import ZArith Lia.
From stdpp Require Import base tactics numbers list option.
From S2P Require Import Prelude Outcome.

Local Open Scope Z_scope.

(** ** Addresses

    The bytes of a [sockaddr_storage] at the places the code reads: [sin_addr] of an IPv4
    address shares its place with the flow label of an IPv6 address. *)

Definition AF_INET : Z := 2.
Definition AF_INET6 : Z := 10.

Record sockaddr := {
  ss_family : Z;
  sa_port : Z;
  sin_addr : Z;
  sin6_addr : Z
}.
#[export] Instance sockaddr_eq_dec : EqDecision sockaddr.
Proof. solve_decision. Defined.

Definition iw_cm_check_wildcard (pm cm out : sockaddr) : sockaddr :=
  if ss_family pm =? AF_INET then
    if sin_addr pm =? 0
    then {| ss_family := ss_family out; sa_port := sa_port out; sin_addr := sin_addr cm; sin6_addr := sin6_addr out |}
    else out
  else
    if sin6_addr pm =? 0
    then {| ss_family := ss_family out; sa_port := sa_port out; sin_addr := sin_addr out; sin6_addr := sin6_addr cm |}
    else out.

(** ** The identifier *)

Inductive iw_cm_state :=
| IDLE | LISTEN | CONN_RECV | CONN_SENT | ESTABLISHED | CLOSING | DESTROYING.
#[export] Instance iw_cm_state_eq_dec : EqDecision iw_cm_state.
Proof. solve_decision. Defined.

Inductive iw_cm_event_type :=
| EV_CONNECT_REQUEST | EV_CONNECT_REPLY | EV_ESTABLISHED | EV_DISCONNECT | EV_CLOSE.
#[export] Instance iw_cm_event_type_eq_dec : EqDecision iw_cm_event_type.
Proof. solve_decision. Defined.

Record iw_cm_event := {
  ev_type : iw_cm_event_type;
  ev_status : Z;
  ev_local_addr : sockaddr;
  ev_remote_addr : sockaddr;
  ev_private_data_len : Z
}.
#[export] Instance iw_cm_event_eq_dec : EqDecision iw_cm_event.
Proof. solve_decision. Defined.

Record iw_cm_id := {
  local_addr : sockaddr;
  remote_addr : sockaddr;
  m_local_addr : sockaddr;
  m_remote_addr : sockaddr;
  mapped : bool
}.

(** A work element is named by a number; [work_list] holds it with its event. *)
Record iwcm_id_private := {
  id : iw_cm_id;
  state : iw_cm_state;
  f_connect_wait : bool;
  f_drop_events : bool;
  qp : option Z;
  work_list : list (nat * iw_cm_event);
  refcount : Z;
  work_free_list : list nat
}.

Definition set_id (x : iw_cm_id) (p : iwcm_id_private) : iwcm_id_private :=
  {| id := x; state := state p; f_connect_wait := f_connect_wait p; f_drop_events := f_drop_events p;
     qp := qp p; work_list := work_list p; refcount := refcount p; work_free_list := work_free_list p |}.
Definition set_state (x : iw_cm_state) (p : iwcm_id_private) : iwcm_id_private :=
  {| id := id p; state := x; f_connect_wait := f_connect_wait p; f_drop_events := f_drop_events p;
     qp := qp p; work_list := work_list p; refcount := refcount p; work_free_list := work_free_list p |}.
Definition set_wait (x : bool) (p : iwcm_id_private) : iwcm_id_private :=
  {| id := id p; state := state p; f_connect_wait := x; f_drop_events := f_drop_events p;
     qp := qp p; work_list := work_list p; refcount := refcount p; work_free_list := work_free_list p |}.
Definition set_drop (x : bool) (p : iwcm_id_private) : iwcm_id_private :=
  {| id := id p; state := state p; f_connect_wait := f_connect_wait p; f_drop_events := x;
     qp := qp p; work_list := work_list p; refcount := refcount p; work_free_list := work_free_list p |}.
Definition set_qp (x : option Z) (p : iwcm_id_private) : iwcm_id_private :=
  {| id := id p; state := state p; f_connect_wait := f_connect_wait p; f_drop_events := f_drop_events p;
     qp := x; work_list := work_list p; refcount := refcount p; work_free_list := work_free_list p |}.
Definition set_works (wl : list (nat * iw_cm_event)) (fl : list nat) (p : iwcm_id_private) : iwcm_id_private :=
  {| id := id p; state := state p; f_connect_wait := f_connect_wait p; f_drop_events := f_drop_events p;
     qp := qp p; work_list := wl; refcount := refcount p; work_free_list := fl |}.
Definition set_refcount (x : Z) (p : iwcm_id_private) : iwcm_id_private :=
  {| id := id p; state := state p; f_connect_wait := f_connect_wait p; f_drop_events := f_drop_events p;
     qp := qp p; work_list := work_list p; refcount := x; work_free_list := work_free_list p |}.

(** ** Memory and the calls that leave the module

    [m_live] is false once the identifier is freed; [m_wq] are the elements of the
    identifier that wait in [iwcm_wq]; [m_fresh] numbers allocations; [m_pdata] counts
    the copies of private data that are allocated; [m_out] are the calls into the
    driver, the port mapper and the client, in their order. *)
Inductive output :=
| O_add_ref (q : Z)
| O_rem_ref (q : Z)
| O_modify_qp (q : Z) (err : bool)
| O_create_listen (backlog : Z)
| O_destroy_listen
| O_connect
| O_accept
| O_reject
| O_remove_mapping
| O_callback (ev : iw_cm_event)
| O_request (ev : iw_cm_event)
| O_drop (ev : iw_cm_event)
| O_free (works : list nat).
#[export] Instance output_eq_dec : EqDecision output.
Proof. solve_decision. Defined.

Record mem := {
  m_id : iwcm_id_private;
  m_live : bool;
  m_wq : list nat;
  m_fresh : nat;
  m_pdata : Z;
  m_out : list output
}.

Definition set_mid (p : iwcm_id_private) (m : mem) : mem :=
  {| m_id := p; m_live := m_live m; m_wq := m_wq m; m_fresh := m_fresh m; m_pdata := m_pdata m; m_out := m_out m |}.
Definition set_wq (q : list nat) (m : mem) : mem :=
  {| m_id := m_id m; m_live := m_live m; m_wq := q; m_fresh := m_fresh m; m_pdata := m_pdata m; m_out := m_out m |}.
Definition set_fresh (n : nat) (m : mem) : mem :=
  {| m_id := m_id m; m_live := m_live m; m_wq := m_wq m; m_fresh := n; m_pdata := m_pdata m; m_out := m_out m |}.
Definition set_pdata (n : Z) (m : mem) : mem :=
  {| m_id := m_id m; m_live := m_live m; m_wq := m_wq m; m_fresh := m_fresh m; m_pdata := n; m_out := m_out m |}.
Definition out (l : list output) (m : mem) : mem :=
  {| m_id := m_id m; m_live := m_live m; m_wq := m_wq m; m_fresh := m_fresh m; m_pdata := m_pdata m; m_out := m_out m ++ l |}.

(** An access to the identifier. *)
Definition on_id {A} (m : mem) (f : iwcm_id_private -> outcome A) : outcome A :=
  if m_live m then f (m_id m) else Bug.

(** [iw_rem_ref] on a queue pair that may be missing. *)
Definition rem_qp_ref (q : option Z) : list output :=
  match q with Some q => [O_rem_ref q] | None => [] end.

(** ** Work elements *)

Definition get_work (p : iwcm_id_private) : option (nat * iwcm_id_private) :=
  match work_free_list p with
  | [] => None
  | k :: fl => Some (k, set_works (work_list p) fl p)
  end.

Definition put_work (k : nat) (p : iwcm_id_private) : iwcm_id_private :=
  set_works (work_list p) (k :: work_free_list p) p.

Definition dealloc_work_entries (p : iwcm_id_private) : iwcm_id_private := set_works (work_list p) [] p.

(** The loop [while (count--)]; [avail] allocations succeed. *)
Fixpoint alloc_loop (avail : nat) (count : Z) (m : mem) : mem * Z :=
  if count =? 0 then (m, 0) else
  match avail with
  | O => (set_mid (dealloc_work_entries (m_id m)) m, err ENOMEM)
  | S a => alloc_loop a (count - 1) (set_fresh (S (m_fresh m)) (set_mid (put_work (m_fresh m) (m_id m)) m))
  end.

Definition alloc_work_entries (avail : nat) (count : Z) (m : mem) : outcome (mem * Z) :=
  on_id m (fun p =>
    match work_free_list p with
    | [] => Ok (alloc_loop avail count m)
    | _ => Bug
    end).

(** Whether an event carries private data that is copied. *)
Definition copies (ev : iw_cm_event) : bool :=
  match ev_type ev with
  | EV_CONNECT_REQUEST | EV_CONNECT_REPLY => truthy (ev_private_data_len ev)
  | _ => false
  end.

(** ** References *)

Definition free_cm_id (m : mem) : mem :=
  let p := m_id m in
  {| m_id := dealloc_work_entries p; m_live := false; m_wq := m_wq m; m_fresh := m_fresh m;
     m_pdata := m_pdata m; m_out := m_out m ++ [O_free (work_free_list p)] |}.

Definition iwcm_deref_id (m : mem) : outcome (mem * bool) :=
  on_id m (fun p =>
    if refcount p <=? 0 then Bug else
    let m := set_mid (set_refcount (refcount p - 1) p) m in
    if refcount p - 1 =? 0 then
      match work_list p with [] => Ok (free_cm_id m, true) | _ => Bug end
    else Ok (m, false)).

Definition add_ref (m : mem) : outcome mem :=
  on_id m (fun p => if refcount p <=? 0 then Bug else Ok (set_mid (set_refcount (refcount p + 1) p) m)).

Definition rem_ref (m : mem) : outcome mem := '(m, _) ← iwcm_deref_id m; Ok m.

Definition iw_create_cm_id (x : iw_cm_id) : mem :=
  {| m_id := {| id := x; state := IDLE; f_connect_wait := false; f_drop_events := false; qp := None;
                work_list := []; refcount := 1; work_free_list := [] |};
     m_live := true; m_wq := []; m_fresh := 0; m_pdata := 0; m_out := [] |}.

(** ** The port mapper *)

(** Results of the port mapper: the names fit, a daemon is there, a mapping was made,
    with the mapped addresses, and [iwpm_create_mapinfo]. *)
Record map_env := {
  names_fit : bool;
  pid_ok : bool;
  map_status : Z;
  mapped_loc : sockaddr;
  mapped_rem : sockaddr;
  mapinfo_ret : Z
}.

Definition iw_cm_map (active : bool) (e : map_env) (x : iw_cm_id) : iw_cm_id * Z :=
  if negb (names_fit e) then (x, err EINVAL) else
  let x := {| local_addr := local_addr x; remote_addr := remote_addr x; m_local_addr := local_addr x;
              m_remote_addr := remote_addr x; mapped := mapped x |} in
  if negb (pid_ok e) then (x, 0) else
  let ok := map_status e =? 0 in
  ({| local_addr := local_addr x; remote_addr := remote_addr x;
      m_local_addr := if ok then mapped_loc e else m_local_addr x;
      m_remote_addr := if ok && active
        then iw_cm_check_wildcard (mapped_rem e) (remote_addr x) (mapped_rem e) else m_remote_addr x;
      mapped := true |}, mapinfo_ret e).

(** ** Functions called by the client *)

(** Results of the driver, of memory allocation and of the client's callback. *)
Record input := {
  i_ret : Z;
  i_map : map_env;
  i_qp : option Z;
  i_avail : nat;
  i_create : bool;
  i_remote : option sockaddr
}.

Inductive disconnect_pc := DC_wait | DC_lock | DC_modify (q : Z).

Definition iw_cm_disconnect (abrupt : bool) (pc : disconnect_pc) (m : mem)
  : outcome (mem * (disconnect_pc + Z)) :=
  match pc with
  | DC_wait => on_id m (fun p => if f_connect_wait p then Block else Ok (m, inl DC_lock))
  | DC_lock => on_id m (fun p =>
      match state p with
      | ESTABLISHED =>
          let m := set_mid (set_state CLOSING p) m in
          match qp p with
          | Some q => Ok (m, inl (DC_modify q))
          | None => Ok (m, inr (err EINVAL))
          end
      | LISTEN => Ok (m, inr (err EINVAL))
      | CLOSING | IDLE => Ok (m, inr 0)
      | CONN_RECV => Ok (m, inr 0)
      | CONN_SENT | DESTROYING => Bug
      end)
  | DC_modify q => Ok (out [O_modify_qp q abrupt] m, inr 0)
  end.

(** [destroy_cm_id]; [D_call] is the call made without the lock, [D_put] the part after
    the switch. *)
Inductive teardown := T_listen | T_error (q : Z) | T_reject.
#[export] Instance teardown_eq_dec : EqDecision teardown.
Proof. solve_decision. Defined.

Definition teardown_call (t : teardown) : output :=
  match t with T_listen => O_destroy_listen | T_error q => O_modify_qp q true | T_reject => O_reject end.

Inductive destroy_pc :=
| D_wait | D_drop | D_lock
| D_call (t : teardown) (q : option Z)
| D_put (q : option Z).
#[export] Instance destroy_pc_eq_dec : EqDecision destroy_pc.
Proof. solve_decision. Defined.

Definition destroy_cm_id (pc : destroy_pc) (m : mem) : outcome (mem * (destroy_pc + bool)) :=
  match pc with
  | D_wait => on_id m (fun p => if f_connect_wait p then Block else Ok (m, inl D_drop))
  | D_drop => on_id m (fun p => Ok (set_mid (set_drop true p) m, inl D_lock))
  | D_lock => on_id m (fun p =>
      let q := qp p in
      let m := set_mid (set_state DESTROYING (set_qp None p)) m in
      match state p with
      | LISTEN => Ok (m, inl (D_call T_listen q))
      | ESTABLISHED =>
          Ok (m, inl (match q with Some q' => D_call (T_error q') q | None => D_put q end))
      | IDLE | CLOSING => Ok (m, inl (D_put q))
      | CONN_RECV => Ok (m, inl (D_call T_reject q))
      | CONN_SENT | DESTROYING => Bug
      end)
  | D_call t q => on_id m (fun _ => Ok (out [teardown_call t] m, inl (D_put q)))
  | D_put q => on_id m (fun p =>
      let m := out (rem_qp_ref q ++ (if mapped (id p) then [O_remove_mapping] else [])) m in
      '(m, last) ← iwcm_deref_id m; Ok (m, inr last))
  end.

Inductive listen_pc := L_alloc | L_lock | L_call | L_fail (ret : Z).

Definition default_backlog : Z := 256.
Definition listen_backlog (backlog : Z) : Z := if backlog =? 0 then default_backlog else backlog.

Definition iw_cm_listen (backlog : Z) (pc : listen_pc) (i : input) (m : mem) : outcome (mem * (listen_pc + Z)) :=
  match pc with
  | L_alloc =>
      '(m, ret) ← alloc_work_entries (i_avail i) (listen_backlog backlog) m;
      Ok (m, if ret =? 0 then inl L_lock else inr ret)
  | L_lock => on_id m (fun p =>
      match state p with
      | IDLE => Ok (set_mid (set_state LISTEN p) m, inl L_call)
      | _ => Ok (m, inr (err EINVAL))
      end)
  | L_call => on_id m (fun p =>
      let '(x, ret) := iw_cm_map false (i_map i) (id p) in
      let m := set_mid (set_id x p) m in
      if ret =? 0 then
        let m := out [O_create_listen (listen_backlog backlog)] m in
        Ok (m, if i_ret i =? 0 then inr 0 else inl (L_fail (i_ret i)))
      else Ok (m, inl (L_fail ret)))
  | L_fail ret => on_id m (fun p => Ok (set_mid (set_state IDLE p) m, inr ret))
  end.

Inductive reject_pc := R_lock | R_call.

Definition iw_cm_reject (pc : reject_pc) (i : input) (m : mem) : outcome (mem * (reject_pc + Z)) :=
  match pc with
  | R_lock => on_id m (fun p =>
      if decide (state p = CONN_RECV)
      then Ok (set_mid (set_state IDLE (set_wait true p)) m, inl R_call)
      else Ok (set_mid (set_wait false p) m, inr (err EINVAL)))
  | R_call => on_id m (fun p => Ok (out [O_reject] (set_mid (set_wait false p) m), inr (i_ret i)))
  end.

Inductive accept_pc := A_lock | A_call | A_fail (ret : Z) | A_unlink (ret : Z) | A_put (ret : Z) (q : option Z).

Definition iw_cm_accept (pc : accept_pc) (i : input) (m : mem) : outcome (mem * (accept_pc + Z)) :=
  match pc with
  | A_lock => on_id m (fun p =>
      if decide (state p = CONN_RECV) then
        match i_qp i with
        | None => Ok (set_mid (set_wait false p) m, inr (err EINVAL))
        | Some q => Ok (out [O_add_ref q] (set_mid (set_qp (Some q) (set_wait true p)) m), inl A_call)
        end
      else Ok (set_mid (set_wait false p) m, inr (err EINVAL)))
  | A_call => on_id m (fun _ => Ok (out [O_accept] m, if i_ret i =? 0 then inr 0 else inl (A_fail (i_ret i))))
  | A_fail ret => on_id m (fun p =>
      if decide (state p = CONN_RECV) then Ok (set_mid (set_state IDLE p) m, inl (A_unlink ret)) else Bug)
  | A_unlink ret => on_id m (fun p => Ok (set_mid (set_qp None p) m, inl (A_put ret (qp p))))
  | A_put ret q => on_id m (fun p => Ok (out (rem_qp_ref q) (set_mid (set_wait false p) m), inr ret))
  end.

Inductive connect_pc := CN_alloc | CN_lock | CN_call | CN_fail (ret : Z) | CN_put (ret : Z) (q : option Z).

Definition iw_cm_connect (pc : connect_pc) (i : input) (m : mem) : outcome (mem * (connect_pc + Z)) :=
  match pc with
  | CN_alloc =>
      '(m, ret) ← alloc_work_entries (i_avail i) 4 m;
      Ok (m, if ret =? 0 then inl CN_lock else inr ret)
  | CN_lock => on_id m (fun p =>
      let p := set_wait true p in
      if decide (state p = IDLE) then
        match i_qp i with
        | None => Ok (set_mid p m, inl (CN_put (err EINVAL) None))
        | Some q => Ok (out [O_add_ref q] (set_mid (set_state CONN_SENT (set_qp (Some q) p)) m), inl CN_call)
        end
      else Ok (set_mid p m, inl (CN_put (err EINVAL) None)))
  | CN_call => on_id m (fun p =>
      let '(x, ret) := iw_cm_map true (i_map i) (id p) in
      let m := set_mid (set_id x p) m in
      if ret =? 0 then
        let m := out [O_connect] m in
        Ok (m, if i_ret i =? 0 then inr 0 else inl (CN_fail (i_ret i)))
      else Ok (m, inl (CN_fail ret)))
  | CN_fail ret => on_id m (fun p =>
      Ok (set_mid (set_state IDLE (set_qp None p)) m, inl (CN_put ret (qp p))))
  | CN_put ret q => on_id m (fun p => Ok (out (rem_qp_ref q) (set_mid (set_wait false p) m), inr ret))
  end.

(** ** Events *)

(** [cm_event_handler], called by the provider; [copied] tells whether the private data
    could be copied. *)
Definition cm_event_handler (ev : iw_cm_event) (copied : bool) (m : mem) : outcome (mem * Z) :=
  on_id m (fun p =>
    match get_work p with
    | None => Ok (m, err ENOMEM)
    | Some (k, p) =>
        if copies ev && negb copied then Ok (set_mid (put_work k p) m, err ENOMEM) else
        let m := if copies ev then set_pdata (m_pdata m + 1) m else m in
        let m := match work_list p with [] => set_wq (m_wq m ++ [k]) m | _ => m end in
        Ok (set_mid (set_works (work_list p ++ [(k, ev)]) (work_free_list p) (set_refcount (refcount p + 1) p)) m, 0)
    end).

(** What a handler does after it has released the lock: call the client with an event,
    after giving up the reference to a queue pair, or nothing. *)
Inductive after_lock :=
| Notify (ev : iw_cm_event) (q : option Z)
| Quiet (q : option Z).

Definition cm_conn_est_handler (ev : iw_cm_event) (p : iwcm_id_private)
  : outcome (iwcm_id_private * after_lock) :=
  if decide (state p = CONN_RECV)
  then Ok (set_state ESTABLISHED (set_wait false p), Notify ev None)
  else Bug.

Definition cm_conn_rep_handler (ev : iw_cm_event) (p : iwcm_id_private)
  : outcome (iwcm_id_private * after_lock) :=
  if decide (state p = CONN_SENT) then
    let p := set_wait false p in
    if ev_status ev =? 0 then
      let x := id p in
      Ok (set_state ESTABLISHED
            (set_id {| local_addr := local_addr x; remote_addr := remote_addr x;
                       m_local_addr := ev_local_addr ev; m_remote_addr := ev_remote_addr ev; mapped := mapped x |} p),
          Notify {| ev_type := ev_type ev; ev_status := ev_status ev; ev_local_addr := local_addr x;
                    ev_remote_addr := remote_addr x; ev_private_data_len := ev_private_data_len ev |} None)
    else Ok (set_state IDLE (set_qp None p), Notify ev (qp p))
  else Bug.

Definition cm_disconnect_handler (p : iwcm_id_private) : iwcm_id_private :=
  if decide (state p = ESTABLISHED) then set_state CLOSING p else p.

Definition cm_close_handler (ev : iw_cm_event) (p : iwcm_id_private)
  : outcome (iwcm_id_private * after_lock) :=
  match state p with
  | ESTABLISHED | CLOSING => Ok (set_state IDLE (set_qp None p), Notify ev (qp p))
  | DESTROYING => Ok (set_qp None p, Quiet (qp p))
  | _ => Bug
  end.

(** Running a call to its end when nobody interferes. *)
Fixpoint run_alone {PC R} (step : PC -> mem -> outcome (mem * (PC + R))) (fuel : nat) (pc : PC) (m : mem)
  : outcome (mem * R) :=
  match fuel with
  | O => Block
  | S n => '(m, r) ← step pc m;
           match r with inl pc => run_alone step n pc m | inr r => Ok (m, r) end
  end.

(** [iw_cm_reject] and [iw_destroy_cm_id] on a new identifier nobody else knows; the last
    component tells whether [iw_destroy_cm_id] flushes the work queue. *)
Definition reject_and_destroy (i : input) (m : mem) : outcome (mem * bool) :=
  '(m, _) ← run_alone (fun pc => iw_cm_reject pc i) 2 R_lock m;
  '(m, last) ← run_alone destroy_cm_id 5 D_wait m;
  Ok (m, negb last).

(** The identifier of a connection request and the event its client sees. *)
Definition request_child (remote : option sockaddr) (listen : iw_cm_id) (ev : iw_cm_event)
  : mem * iw_cm_event :=
  let loc := local_addr listen in
  let '(loc, rem) := match remote with
    | None => (loc, ev_remote_addr ev)
    | Some r => (iw_cm_check_wildcard (m_local_addr listen) (ev_local_addr ev) loc, r)
    end in
  let m := iw_create_cm_id {| local_addr := loc; remote_addr := rem; m_local_addr := ev_local_addr ev;
                              m_remote_addr := ev_remote_addr ev; mapped := false |} in
  (set_mid (set_state CONN_RECV (m_id m)) m,
   match remote with
   | None => ev
   | Some _ => {| ev_type := ev_type ev; ev_status := ev_status ev; ev_local_addr := loc; ev_remote_addr := rem;
                  ev_private_data_len := ev_private_data_len ev |}
   end).

(** [cm_conn_req_handler] up to the callback: the request is ignored, rejected (the
    identifier is destroyed again), or offered to the client. *)
Inductive request_result :=
| RQ_ignored
| RQ_rejected (child : mem) (flush : bool)
| RQ_offered (child : mem) (ev : iw_cm_event).

Definition cm_conn_req_handler (i : input) (ev : iw_cm_event) (listen : iwcm_id_private) : outcome request_result :=
  if negb (ev_status ev =? 0) then Bug else
  if negb (i_create i) then Ok RQ_ignored else
  let '(m, ev) := request_child (i_remote i) (id listen) ev in
  if negb (bool_decide (state listen = LISTEN)) then
    '(m, flush) ← reject_and_destroy i m; Ok (RQ_rejected m flush)
  else
    '(m, ret) ← alloc_work_entries (i_avail i) 3 m;
    if ret =? 0 then Ok (RQ_offered m ev)
    else '(m, flush) ← reject_and_destroy i m; Ok (RQ_rejected m flush).

(** ** The thread of the work queue *)

Inductive worker_pc :=
| W_idle
| W_loop
| W_test (ev : iw_cm_event) (empty : bool)
| W_proc (ev : iw_cm_event) (empty : bool)
| W_call (ev : iw_cm_event) (q : option Z) (empty : bool)
| W_cb (ev : iw_cm_event) (empty : bool)
| W_request (ev : iw_cm_event) (empty : bool)
| W_quiet (q : option Z) (empty : bool)
| W_destroy (pc : destroy_pc) (empty : bool)
| W_deref (empty : bool).
#[export] Instance worker_pc_eq_dec : EqDecision worker_pc.
Proof. solve_decision. Defined.

(** [process_event] up to the release of the lock. *)
Definition process_event (i : input) (ev : iw_cm_event) (empty : bool) (m : mem) : outcome (mem * worker_pc) :=
  on_id m (fun p =>
    let after (r : iwcm_id_private * after_lock) :=
      let '(p, a) := r in
      (set_mid p m, match a with Notify ev q => W_call ev q empty | Quiet q => W_quiet q empty end) in
    match ev_type ev with
    | EV_CONNECT_REQUEST =>
        r ← cm_conn_req_handler i ev p;
        match r with
        | RQ_offered _ ev' => Ok (out [O_request ev'] m, W_request ev empty)
        | _ => Ok (if truthy (ev_private_data_len ev) then set_pdata (m_pdata m - 1) m else m, W_deref empty)
        end
    | EV_CONNECT_REPLY => r ← cm_conn_rep_handler ev p; Ok (after r)
    | EV_ESTABLISHED => r ← cm_conn_est_handler ev p; Ok (after r)
    | EV_DISCONNECT => Ok (set_mid (cm_disconnect_handler p) m, W_deref empty)
    | EV_CLOSE => r ← cm_close_handler ev p; Ok (after r)
    end).

(** [cm_work_handler]: the sections of one run. *)
Definition cm_work_handler (i : input) (pc : worker_pc) (m : mem) : outcome (mem * worker_pc) :=
  match pc with
  | W_idle => Block
  | W_loop => on_id m (fun p =>
      match work_list p with
      | [] => Ok (m, W_idle)
      | (k, ev) :: wl =>
          Ok (set_mid (put_work k (set_works wl (work_free_list p) p)) m,
              W_test ev (match wl with [] => true | _ => false end))
      end)
  | W_test ev empty => on_id m (fun p =>
      if f_drop_events p then Ok (out [O_drop ev] m, W_deref empty) else Ok (m, W_proc ev empty))
  | W_proc ev empty => process_event i ev empty m
  | W_call ev q empty => on_id m (fun _ => Ok (out (rem_qp_ref q ++ [O_callback ev]) m, W_cb ev empty))
  | W_cb ev empty => on_id m (fun p =>
      let m := if copies ev then set_pdata (m_pdata m - 1) m else m in
      Ok (m, if i_ret i =? 0 then W_deref empty else W_destroy D_wait empty))
  | W_request ev empty =>
      Ok (if truthy (ev_private_data_len ev) then set_pdata (m_pdata m - 1) m else m, W_deref empty)
  | W_quiet q empty => on_id m (fun _ => Ok (out (rem_qp_ref q) m, W_deref empty))
  | W_destroy pc empty =>
      '(m, r) ← destroy_cm_id pc m;
      match r with
      | inl pc => Ok (m, W_destroy pc empty)
      | inr _ => Ok (m, W_deref empty)
      end
  | W_deref empty =>
      '(m, last) ← iwcm_deref_id m;
      Ok (m, if last || empty then W_idle else W_loop)
  end.

(** ** Attributes and messages *)

Definition IB_QP_STATE : Z := 1.
Definition IB_QP_ACCESS_FLAGS : Z := 8.
Definition IB_ACCESS_REMOTE_WRITE : Z := 2.
Definition IB_ACCESS_REMOTE_READ : Z := 4.

Inductive ib_qp_state := QPS_RESET | QPS_INIT | QPS_RTR | QPS_RTS | QPS_SQD | QPS_SQE | QPS_ERR.

(** Result, mask and access flags; [None] is what is left untouched. *)
Definition iwcm_init_qp_init_attr (p : iwcm_id_private) : Z * option (Z * Z) :=
  match state p with
  | IDLE | CONN_SENT | CONN_RECV | ESTABLISHED =>
      (0, Some (Z.lor IB_QP_STATE IB_QP_ACCESS_FLAGS, Z.lor IB_ACCESS_REMOTE_WRITE IB_ACCESS_REMOTE_READ))
  | _ => (err EINVAL, None)
  end.

Definition iwcm_init_qp_rts_attr (flags : Z) (p : iwcm_id_private) : Z * option (Z * Z) :=
  match state p with
  | IDLE | CONN_SENT | CONN_RECV | ESTABLISHED => (0, Some (0, flags))
  | _ => (err EINVAL, None)
  end.

Definition iw_cm_init_qp_attr (qp_state : ib_qp_state) (flags : Z) (p : iwcm_id_private) : Z * option (Z * Z) :=
  match qp_state with
  | QPS_INIT | QPS_RTR => iwcm_init_qp_init_attr p
  | QPS_RTS => iwcm_init_qp_rts_attr flags p
  | _ => (err EINVAL, None)
  end.

(** [iwcm_reject_msg]: the negated reason is converted to [size_t] before it indexes the
    table, whose entries below the last are empty but for two. *)
Inductive reject_msg := MSG_RESET | MSG_REFUSED | MSG_TIMEOUT | MSG_UNRECOGNIZED.

Definition ECONNRESET : Z := 104.
Definition ECONNREFUSED : Z := 111.

Definition iwcm_rej_reason_strs (index : Z) : option reject_msg :=
  if index =? ECONNRESET then Some MSG_RESET else
  if index =? ECONNREFUSED then Some MSG_REFUSED else
  if index =? ETIMEDOUT then Some MSG_TIMEOUT else None.

Definition iwcm_reject_msg (reason : Z) : reject_msg :=
  let index := u64 (- reason) in
  if index <? ECONNREFUSED + 1 then default MSG_UNRECOGNIZED (iwcm_rej_reason_strs index) else MSG_UNRECOGNIZED.
