(* ===== verification/IwcmSystem.v ===== *)
(** * The iWARP connection manager: client, provider and work queue together

    One identifier and its three parties, interleaved section by section. The rules the
    parties keep to are [allowed]:

    - the client makes one call at a time and none after it has asked for destruction
      (by [iw_destroy_cm_id], or by a callback that returns an error); it connects or
      listens once ([alloc_work_entries] insists on it) and does not connect, accept or
      reject while an earlier connect or accept waits for its event;
    - the provider reports, after a connect or an accept that succeeded, first its
      result, then possibly a disconnect, then a close, and nothing else (an event that
      is refused counts as not reported); while it listens it reports requests with
      status 0. It holds a reference to the identifier
      from the connect, accept or listen until after its last event. *)

From Stdlib Require Import ZArith Lia.
From stdpp Require Import base tactics numbers list option.
From S2P Require Import Prelude Outcome Iwcm.

Local Open Scope Z_scope.

Inductive call :=
| K_listen (backlog : Z) | K_connect | K_accept | K_reject | K_disconnect (abrupt : bool) | K_destroy.

Inductive client_pc :=
| C_idle (ret : option Z)
| C_listen (backlog : Z) (pc : listen_pc)
| C_connect (pc : connect_pc)
| C_accept (pc : accept_pc)
| C_reject (pc : reject_pc)
| C_disconnect (abrupt : bool) (pc : disconnect_pc)
| C_destroy (pc : destroy_pc)
| C_flush
| C_gone.

Inductive provider :=
| P_none | P_listening | P_connecting | P_accepting | P_connected | P_disconnected | P_closed.
#[export] Instance provider_eq_dec : EqDecision provider.
Proof. solve_decision. Defined.

(** [s_owned]: the client has not asked for destruction; [s_pref]: the provider holds its
    reference. *)
Record sys := {
  s_mem : mem;
  s_client : client_pc;
  s_worker : worker_pc;
  s_prov : provider;
  s_pref : bool;
  s_owned : bool
}.

Definition upd_client (m : mem) (c : client_pc) (s : sys) : sys :=
  {| s_mem := m; s_client := c; s_worker := s_worker s; s_prov := s_prov s; s_pref := s_pref s; s_owned := s_owned s |}.
Definition upd_worker (m : mem) (w : worker_pc) (s : sys) : sys :=
  {| s_mem := m; s_client := s_client s; s_worker := w; s_prov := s_prov s; s_pref := s_pref s; s_owned := s_owned s |}.
Definition upd_prov (m : mem) (p : provider) (r : bool) (s : sys) : sys :=
  {| s_mem := m; s_client := s_client s; s_worker := s_worker s; s_prov := p; s_pref := r; s_owned := s_owned s |}.
Definition disown (s : sys) : sys :=
  {| s_mem := s_mem s; s_client := s_client s; s_worker := s_worker s; s_prov := s_prov s; s_pref := s_pref s; s_owned := false |}.

(** ** Steps *)

Inductive label :=
| L_start (k : call)
| L_client (i : input)
| L_event (ev : iw_cm_event) (copied : bool)
| L_unref
| L_dispatch
| L_worker (i : input).

(** A call of the driver that succeeds: the provider takes a reference and starts. *)
Definition starts (p : provider) (s : sys) : outcome sys :=
  m ← add_ref (s_mem s); Ok (upd_prov m p true s).

Definition finish {PC} (wrap : PC -> client_pc) (r : PC + Z) : client_pc :=
  match r with inl pc => wrap pc | inr ret => C_idle (Some ret) end.

Definition client_step (i : input) (s : sys) : outcome sys :=
  let m := s_mem s in
  match s_client s with
  | C_idle _ | C_gone => Block
  | C_listen b pc =>
      '(m, r) ← iw_cm_listen b pc i m;
      let s := upd_client m (finish (C_listen b) r) s in
      match pc, r with L_call, inr _ => starts P_listening s | _, _ => Ok s end
  | C_connect pc =>
      '(m, r) ← iw_cm_connect pc i m;
      let s := upd_client m (finish C_connect r) s in
      match pc, r with CN_call, inr _ => starts P_connecting s | _, _ => Ok s end
  | C_accept pc =>
      '(m, r) ← iw_cm_accept pc i m;
      let s := upd_client m (finish C_accept r) s in
      match pc, r with A_call, inr _ => starts P_accepting s | _, _ => Ok s end
  | C_reject pc => '(m, r) ← iw_cm_reject pc i m; Ok (upd_client m (finish C_reject r) s)
  | C_disconnect a pc => '(m, r) ← iw_cm_disconnect a pc m; Ok (upd_client m (finish (C_disconnect a) r) s)
  | C_destroy pc =>
      '(m, r) ← destroy_cm_id pc m;
      let s := match pc with D_call T_listen _ => upd_prov m P_closed (s_pref s) s | _ => s end in
      Ok (upd_client m (match r with inl pc => C_destroy pc | inr true => C_gone | inr false => C_flush end) s)
  | C_flush => match s_worker s with W_idle => Ok (upd_client m C_gone s) | _ => Block end
  end.

Definition start_pc (k : call) : client_pc :=
  match k with
  | K_listen b => C_listen b L_alloc
  | K_connect => C_connect CN_alloc
  | K_accept => C_accept A_lock
  | K_reject => C_reject R_lock
  | K_disconnect a => C_disconnect a DC_wait
  | K_destroy => C_destroy D_wait
  end.

Definition is_destroy (k : call) : bool := match k with K_destroy => true | _ => false end.

(** The provider after an event. *)
Definition prov_next (p : provider) (ev : iw_cm_event) : option provider :=
  match p, ev_type ev with
  | P_listening, EV_CONNECT_REQUEST => if ev_status ev =? 0 then Some P_listening else None
  | P_connecting, EV_CONNECT_REPLY => Some (if ev_status ev =? 0 then P_connected else P_closed)
  | P_accepting, EV_ESTABLISHED => Some P_connected
  | P_connected, EV_DISCONNECT => Some P_disconnected
  | P_connected, EV_CLOSE | P_disconnected, EV_CLOSE => Some P_closed
  | _, _ => None
  end.

Definition run_step (l : label) (s : sys) : outcome sys :=
  match l with
  | L_start k =>
      let s := upd_client (s_mem s) (start_pc k) s in
      Ok (if is_destroy k then disown s else s)
  | L_client i => client_step i s
  | L_event ev copied =>
      '(m, ret) ← cm_event_handler ev copied (s_mem s);
      Ok (upd_prov m (if ret =? 0 then default (s_prov s) (prov_next (s_prov s) ev) else s_prov s) (s_pref s) s)
  | L_unref => m ← rem_ref (s_mem s); Ok (upd_prov m (s_prov s) false s)
  | L_dispatch =>
      match m_wq (s_mem s), s_worker s with
      | _ :: q, W_idle => Ok (upd_worker (set_wq q (s_mem s)) W_loop s)
      | _, _ => Block
      end
  | L_worker i =>
      '(m, w) ← cm_work_handler i (s_worker s) (s_mem s);
      let s' := upd_worker m w s in
      Ok (match s_worker s, w with W_cb _ _, W_destroy _ _ => disown s' | _, _ => s' end)
  end.

(** ** The rules *)

Definition no_works (p : iwcm_id_private) : bool :=
  match work_list p, work_free_list p with [], [] => true | _, _ => false end.

Definition call_ok (k : call) (p : iwcm_id_private) : bool :=
  match k with
  | K_listen b => no_works p && negb (f_connect_wait p) && (0 <=? b)
  | K_connect => no_works p && negb (f_connect_wait p)
  | K_accept | K_reject => negb (f_connect_wait p)
  | K_disconnect _ | K_destroy => true
  end.

Definition is_idle (c : client_pc) : bool := match c with C_idle _ => true | _ => false end.

Definition allowed (l : label) (s : sys) : bool :=
  match l with
  | L_start k => s_owned s && is_idle (s_client s) && call_ok k (m_id (s_mem s))
  | L_client _ | L_dispatch => true
  | L_event ev _ => s_pref s && bool_decide (is_Some (prov_next (s_prov s) ev))
  | L_unref => s_pref s && bool_decide (s_prov s = P_closed)
  | L_worker i =>
      match s_worker s with
      | W_cb _ _ => (i_ret i =? 0) || (s_owned s && is_idle (s_client s))
      | _ => true
      end
  end.

(** An identifier made by [iw_create_cm_id], and one offered for a connection request. *)
Definition init_sys (m : mem) : sys :=
  {| s_mem := m; s_client := C_idle None; s_worker := W_idle; s_prov := P_none; s_pref := false; s_owned := true |}.

Inductive initial : sys -> Prop :=
| initial_created x : initial (init_sys (iw_create_cm_id x))
| initial_request i ev listen m ev' :
    cm_conn_req_handler i ev listen = Ok (RQ_offered m ev') -> initial (init_sys m).

Inductive reachable : sys -> Prop :=
| reach_init s : initial s -> reachable s
| reach_step l s s' : reachable s -> allowed l s = true -> run_step l s = Ok s' -> reachable s'.

(** ** The invariant *)

(** Which part of its destruction the identifier has reached: 0 none was asked for,
    1 to 3 before [D_wait], [D_drop] and [D_lock], 4 after them. *)
Definition destroy_stage (pc : destroy_pc) : nat :=
  match pc with D_wait => 1 | D_drop => 2 | D_lock => 3 | _ => 4 end.

Definition stage (s : sys) : nat :=
  if s_owned s then 0%nat else
  match s_client s, s_worker s with
  | C_destroy pc, _ => destroy_stage pc
  | _, W_destroy pc _ => destroy_stage pc
  | _, _ => 4%nat
  end.

(** Who may destroy: one party, once. *)
Definition one_destroyer (s : sys) : bool :=
  match s_owned s, s_client s, s_worker s with
  | true, (C_destroy _ | C_flush | C_gone), _ => false
  | true, _, W_destroy _ _ => false
  | true, _, _ => true
  | false, C_idle _, _ => true
  | false, (C_destroy _ | C_flush | C_gone), W_destroy _ _ => false
  | false, (C_destroy _ | C_flush | C_gone), _ => true
  | false, _, _ => false
  end.

(** Events reported and not yet handled, the oldest first. *)
Definition current (w : worker_pc) : list iw_cm_event :=
  match w with W_test ev _ | W_proc ev _ => [ev] | _ => [] end.
Definition pending (s : sys) : list iw_cm_event :=
  current (s_worker s) ++ map snd (work_list (m_id (s_mem s))).

Definition is_request (ev : iw_cm_event) : Prop := ev_type ev = EV_CONNECT_REQUEST /\ ev_status ev = 0.
Definition is_setup (ev : iw_cm_event) : bool :=
  match ev_type ev with EV_CONNECT_REPLY | EV_ESTABLISHED => true | _ => false end.

(** What may still be pending at the end of a connection. *)
Inductive ending : provider -> list iw_cm_event -> Prop :=
| end_connected : ending P_connected []
| end_disconnected : ending P_disconnected []
| end_closed : ending P_closed []
| end_d ev : ev_type ev = EV_DISCONNECT -> ending P_disconnected [ev]
| end_c ev : ev_type ev = EV_CLOSE -> ending P_closed [ev]
| end_dc ev ev' : ev_type ev = EV_DISCONNECT -> ev_type ev' = EV_CLOSE -> ending P_closed [ev; ev'].

(** A connection being set up: the result is not there yet, or not handled yet. *)
Inductive setup : provider -> list iw_cm_event -> iw_cm_state -> Prop :=
| su_connecting : setup P_connecting [] CONN_SENT
| su_accepting : setup P_accepting [] CONN_RECV
| su_reply p ev l : ev_type ev = EV_CONNECT_REPLY -> ev_status ev = 0 -> ending p l -> setup p (ev :: l) CONN_SENT
| su_refused ev : ev_type ev = EV_CONNECT_REPLY -> ev_status ev <> 0 -> setup P_closed [ev] CONN_SENT
| su_accepted p ev l : ev_type ev = EV_ESTABLISHED -> ending p l -> setup p (ev :: l) CONN_RECV.

Definition calm (c : client_pc) : Prop :=
  match c with
  | C_idle _ | C_accept A_lock | C_reject R_lock | C_disconnect _ _ | C_destroy _ | C_flush | C_gone => True
  | _ => False
  end.
Definition starting (c : client_pc) : Prop :=
  match c with C_listen _ (L_alloc | L_lock) | C_connect (CN_alloc | CN_lock) => True | _ => False end.
Definition waiting (c : client_pc) : Prop :=
  match c with C_idle _ | C_disconnect _ DC_wait | C_destroy D_wait => True | _ => False end.

(** The configurations of client, provider and identifier: the call the client is in, the
    stage of destruction, the provider, the pending events, the state, the flag
    [CONNECT_WAIT] and the queue pair. *)
Inductive conf : client_pc -> nat -> provider -> list iw_cm_event -> iw_cm_state -> bool -> option Z -> Prop :=
| cf_idle c g : calm c \/ starting c -> (g <= 3)%nat -> conf c g P_none [] IDLE false None
| cf_recv c g : calm c -> (g <= 3)%nat -> conf c g P_none [] CONN_RECV false None
| cf_listen_call b : conf (C_listen b L_call) 0 P_none [] LISTEN false None
| cf_listen_fail b r : conf (C_listen b (L_fail r)) 0 P_none [] LISTEN false None
| cf_listening c g l : calm c -> (g <= 3)%nat -> Forall is_request l -> conf c g P_listening l LISTEN false None
| cf_connect_call q : conf (C_connect CN_call) 0 P_none [] CONN_SENT true (Some q)
| cf_connect_fail r q : conf (C_connect (CN_fail r)) 0 P_none [] CONN_SENT true (Some q)
| cf_connect_put r q : conf (C_connect (CN_put r q)) 0 P_none [] IDLE true None
| cf_reject : conf (C_reject R_call) 0 P_none [] IDLE true None
| cf_accept_call q : conf (C_accept A_call) 0 P_none [] CONN_RECV true (Some q)
| cf_accept_fail r q : conf (C_accept (A_fail r)) 0 P_none [] CONN_RECV true (Some q)
| cf_accept_unlink r q : conf (C_accept (A_unlink r)) 0 P_none [] IDLE true (Some q)
| cf_accept_put r q : conf (C_accept (A_put r q)) 0 P_none [] IDLE true None
| cf_setup c g p l st q : waiting c -> (g <= 1)%nat -> setup p l st -> conf c g p l st true (Some q)
| cf_conn c g p l st q :
    calm c -> (g <= 3)%nat -> (st = ESTABLISHED \/ st = CLOSING) -> ending p l -> conf c g p l st false (Some q)
| cf_over c g : calm c -> (g <= 3)%nat -> conf c g P_closed [] IDLE false None
| cf_destroying c p l :
    calm c -> (p = P_listening <-> exists q, c = C_destroy (D_call T_listen q)) ->
    (ending p l \/ p = P_none /\ l = [] \/ (p = P_listening \/ p = P_closed) /\ Forall is_request l) ->
    conf c 4 p l DESTROYING false None.

(** What the thread of the work queue is doing says something about the provider. *)
Definition worker_ok (w : worker_pc) (p : provider) (l : list iw_cm_event) : Prop :=
  match w with
  | W_idle => True
  | W_loop | W_test _ _ | W_proc _ _ => p <> P_none /\ p <> P_connecting /\ p <> P_accepting
  | W_request _ _ | W_deref _ =>
      p <> P_none /\ p <> P_connecting /\ p <> P_accepting /\ forall ev, ev ∈ l -> is_setup ev = false
  | _ =>
      p <> P_none /\ p <> P_connecting /\ p <> P_accepting /\ p <> P_listening /\
      forall ev, ev ∈ l -> is_setup ev = false
  end.

(** The work queue holds the first element of the list, unless the running handler goes
    on with it. *)
Definition done_flag (w : worker_pc) : bool :=
  match w with
  | W_idle => true
  | W_loop => false
  | W_test _ e | W_proc _ e | W_call _ _ e | W_cb _ e | W_request _ e | W_quiet _ e | W_destroy _ e | W_deref e => e
  end.
Definition queue_ok (w : worker_pc) (wl : list (nat * iw_cm_event)) (wq : list nat) : Prop :=
  if done_flag w then wq = match wl with [] => [] | (k, _) :: _ => [k] end else wq = [] /\ wl <> [].

Definition busy (w : worker_pc) : bool := match w with W_idle | W_loop => false | _ => true end.

(** The reference of the client, until [destroy_cm_id] gives it up. *)
Definition client_ref (s : sys) : bool :=
  s_owned s || match s_client s with C_destroy _ => true | _ => false end ||
  match s_worker s with W_destroy _ _ => true | _ => false end.

Definition b2z (b : bool) : Z := if b then 1 else 0.

(** Work elements: their number, enough for every event of a connection. *)
Definition works_ok (c : client_pc) (p : provider) (st : iw_cm_state) (n : nat) : Prop :=
  (n = 0%nat -> p = P_none /\ (st = IDLE \/ st = DESTROYING)) /\
  (p = P_connecting \/ p = P_accepting \/ p = P_connected \/ p = P_disconnected \/ st = CONN_SENT \/ st = CONN_RECV ->
   (3 <= n)%nat) /\
  match c with
  | C_listen b L_alloc => n = 0%nat /\ 0 <= b
  | C_connect CN_alloc => n = 0%nat
  | C_listen _ L_lock => (0 < n)%nat
  | C_connect CN_lock => (3 <= n)%nat
  | _ => True
  end.

(** References to a queue pair: taken and given up in the trace, and held. *)
Definition qp_delta (x : Z) (o : output) : Z :=
  match o with
  | O_add_ref q => b2z (q =? x)
  | O_rem_ref q => - b2z (q =? x)
  | _ => 0
  end.
Fixpoint zsum (l : list Z) : Z := match l with [] => 0 | z :: l => z + zsum l end.
Definition qp_refs (x : Z) (l : list output) : Z := zsum (map (qp_delta x) l).
Definition holds (x : Z) (q : option Z) : Z := match q with Some q => b2z (q =? x) | None => 0 end.
Definition teardown_qp (pc : destroy_pc) : option Z := match pc with D_call _ q | D_put q => q | _ => None end.
Definition client_qp (c : client_pc) : option Z :=
  match c with
  | C_connect (CN_put _ q) | C_accept (A_put _ q) => q
  | C_destroy pc => teardown_qp pc
  | _ => None
  end.
Definition worker_qp (w : worker_pc) : option Z :=
  match w with W_call _ q _ | W_quiet q _ => q | W_destroy pc _ => teardown_qp pc | _ => None end.

(** Copies of private data: in the list, with the thread, and of dropped events. *)
Definition held_copies (w : worker_pc) : Z :=
  match w with
  | W_test ev _ | W_proc ev _ | W_call ev _ _ | W_cb ev _ => b2z (copies ev)
  | W_request ev _ => b2z (truthy (ev_private_data_len ev))
  | _ => 0
  end.
Definition dropped_copies (l : list output) : Z :=
  zsum (map (fun o => match o with O_drop ev => b2z (copies ev) | _ => 0 end) l).

(** The callbacks the client has seen or is about to see. *)
Definition callbacks (l : list output) : list iw_cm_event :=
  omap (fun o => match o with O_callback ev => Some ev | _ => None end) l.
Definition next_callback (w : worker_pc) : list iw_cm_event := match w with W_call ev _ _ => [ev] | _ => [] end.
Definition setup_ok (ev : iw_cm_event) : Prop :=
  ev_type ev = EV_ESTABLISHED \/ ev_type ev = EV_CONNECT_REPLY /\ ev_status ev = 0.
Definition setup_failed (ev : iw_cm_event) : Prop := ev_type ev = EV_CONNECT_REPLY /\ ev_status ev <> 0.

(** One result, and after a good one at most one close. *)
Inductive client_view : list iw_cm_event -> Prop :=
| cv_nil : client_view []
| cv_failed ev : setup_failed ev -> client_view [ev]
| cv_ok ev : setup_ok ev -> client_view [ev]
| cv_closed ev ev' : setup_ok ev -> ev_type ev' = EV_CLOSE -> client_view [ev; ev'].

Definition view_ok (p : provider) (st : iw_cm_state) (w : bool) (l : list iw_cm_event) : Prop :=
  client_view l /\
  (st = LISTEN \/ p = P_none \/ w = true -> l = []) /\
  (st = ESTABLISHED \/ st = CLOSING -> exists ev, setup_ok ev /\ l = [ev]).

(** [extra] references are about to be given up. *)
Record inv_extra (extra : Z) (s : sys) : Prop := {
  iv_live : m_live (s_mem s) = true;
  iv_one : one_destroyer s = true;
  iv_conf : conf (s_client s) (stage s) (s_prov s) (pending s) (state (m_id (s_mem s)))
                 (f_connect_wait (m_id (s_mem s))) (qp (m_id (s_mem s)));
  iv_worker : worker_ok (s_worker s) (s_prov s) (pending s);
  iv_queue : queue_ok (s_worker s) (work_list (m_id (s_mem s))) (m_wq (s_mem s));
  iv_ref : refcount (m_id (s_mem s)) =
           extra + b2z (client_ref s) + Z.of_nat (length (work_list (m_id (s_mem s)))) + b2z (busy (s_worker s)) + b2z (s_pref s);
  iv_pos : 0 < refcount (m_id (s_mem s));
  iv_drop : f_drop_events (m_id (s_mem s)) = (3 <=? stage s)%nat;
  iv_pref : match s_prov s with P_none => s_pref s = false | P_closed => True | _ => s_pref s = true end;
  iv_works : works_ok (s_client s) (s_prov s) (state (m_id (s_mem s)))
                      (length (work_list (m_id (s_mem s))) + length (work_free_list (m_id (s_mem s))))
}.

Arguments iv_live {_} _ _.
Arguments iv_one {_} _ _.
Arguments iv_conf {_} _ _.
Arguments iv_worker {_} _ _.
Arguments iv_queue {_} _ _.
Arguments iv_ref {_} _ _.
Arguments iv_pos {_} _ _.
Arguments iv_drop {_} _ _.
Arguments iv_pref {_} _ _.
Arguments iv_works {_} _ _.
Abbreviation inv := (inv_extra 0).

(** The accounts: work elements, references to queue pairs, copies, callbacks. *)
Record books (s : sys) : Prop := {
  bk_nodup : NoDup (map fst (work_list (m_id (s_mem s))) ++ work_free_list (m_id (s_mem s)));
  bk_fresh : Forall (fun k => k < m_fresh (s_mem s))%nat
               (map fst (work_list (m_id (s_mem s))) ++ work_free_list (m_id (s_mem s)));
  bk_qp x : qp_refs x (m_out (s_mem s)) =
            holds x (qp (m_id (s_mem s))) + holds x (client_qp (s_client s)) + holds x (worker_qp (s_worker s));
  bk_pdata : m_pdata (s_mem s) =
             zsum (map (fun e => b2z (copies (snd e))) (work_list (m_id (s_mem s)))) +
             held_copies (s_worker s) + dropped_copies (m_out (s_mem s));
  bk_view : view_ok (s_prov s) (state (m_id (s_mem s))) (f_connect_wait (m_id (s_mem s)))
                    (callbacks (m_out (s_mem s)) ++ next_callback (s_worker s))
}.

(** After the identifier was freed. *)
Record dead (s : sys) : Prop := {
  dd_live : m_live (s_mem s) = false;
  dd_works : work_list (m_id (s_mem s)) = [] /\ work_free_list (m_id (s_mem s)) = [] /\ m_wq (s_mem s) = [];
  dd_qp : qp (m_id (s_mem s)) = None /\ client_qp (s_client s) = None;
  dd_client : match s_client s with C_idle _ | C_flush | C_gone => True | _ => False end;
  dd_worker : s_worker s = W_idle;
  dd_pref : s_pref s = false;
  dd_owned : s_owned s = false
}.
