(* ===== verification/IwcmInv.v ===== *)
(** * The iWARP connection manager: the invariant is kept

    Every section of the client, of the provider and of the work queue's thread, run where
    the rules of [IwcmSystem] allow it, keeps the invariant [inv] or frees the identifier,
    and none hits a bug. The lemmas go function by function; [good P o] says that a
    section does not hit a bug and that what it returns satisfies [P]. *)

From Stdlib Require Import ZArith Lia.
From stdpp Require Import base tactics numbers list option.
From S2P Require Import Prelude Outcome Iwcm IwcmSystem.
Local Open Scope Z_scope.

(** ** Sections that neither hit a bug nor leave a predicate *)

Definition good {A} (P : A -> Prop) (o : outcome A) : Prop :=
  match o with Ok a => P a | Bug => False | Block => True end.

Lemma good_mono {A} (P Q : A -> Prop) o : (forall a, P a -> Q a) -> good P o -> good Q o.
Proof. destruct o; simpl; auto. Qed.

Lemma good_bind {A B} (P : A -> Prop) (Q : B -> Prop) (f : A -> outcome B) o :
  good P o -> (forall a, P a -> good Q (f a)) -> good Q (o ≫= f).
Proof. destruct o; simpl; auto. Qed.

Lemma on_id_live {A} m (f : iwcm_id_private -> outcome A) : m_live m = true -> on_id m f = f (m_id m).
Proof. unfold on_id. by intros ->. Qed.

(** A client section that keeps the lists, the references and the stage of destruction. *)
Definition same_works (m m' : mem) : Prop :=
  m_live m' = m_live m /\ work_list (m_id m') = work_list (m_id m) /\
  work_free_list (m_id m') = work_free_list (m_id m) /\ m_wq m' = m_wq m /\
  refcount (m_id m') = refcount (m_id m).

Lemma client_frame m' c' s :
  inv s -> same_works (s_mem s) m' ->
  one_destroyer (upd_client m' c' s) = true ->
  client_ref (upd_client m' c' s) = client_ref s ->
  f_drop_events (m_id m') = (3 <=? stage (upd_client m' c' s))%nat ->
  conf c' (stage (upd_client m' c' s)) (s_prov s) (pending s) (state (m_id m')) (f_connect_wait (m_id m')) (qp (m_id m')) ->
  works_ok c' (s_prov s) (state (m_id m')) (length (work_list (m_id (s_mem s))) + length (work_free_list (m_id (s_mem s)))) ->
  inv (upd_client m' c' s).
Proof.
  intros [] (El & Ew & Ef & Eq & Er) H1 H2 H3 H4 H5.
  constructor; unfold pending in *; cbn [upd_client s_mem s_client s_worker s_prov s_pref s_owned] in *;
    rewrite ?Ew, ?Ef, ?Eq, ?Er, ?El, ?H2 in *; try done.
Qed.

(** A call in flight means that the client still owns the identifier. *)
Lemma call_owned s :
  one_destroyer s = true ->
  match s_client s with C_idle _ | C_destroy _ | C_flush | C_gone => False | _ => True end ->
  s_owned s = true.
Proof. unfold one_destroyer. destruct (s_owned s); [done|]. by destruct (s_client s). Qed.

Lemma stage_owned s : s_owned s = true -> stage s = 0%nat.
Proof. unfold stage. by intros ->. Qed.

Lemma call_worker s : one_destroyer s = true -> s_owned s = true -> forall pc e, s_worker s <> W_destroy pc e.
Proof. unfold one_destroyer. intros H E pc e Hw. rewrite E, Hw in H. by destruct (s_client s). Qed.

Lemma call_frame m' c' s :
  inv s -> s_owned s = true -> same_works (s_mem s) m' ->
  match c' with C_destroy _ | C_flush | C_gone => False | _ => True end ->
  f_drop_events (m_id m') = f_drop_events (m_id (s_mem s)) ->
  conf c' 0 (s_prov s) (pending s) (state (m_id m')) (f_connect_wait (m_id m')) (qp (m_id m')) ->
  works_ok c' (s_prov s) (state (m_id m')) (length (work_list (m_id (s_mem s))) + length (work_free_list (m_id (s_mem s)))) ->
  inv (upd_client m' c' s).
Proof.
  intros Hi Ho Hs Hc Hd Hf Hw. pose proof (iv_one _ Hi) as H1. pose proof (iv_drop _ Hi) as H2.
  assert (stage (upd_client m' c' s) = 0%nat) as E by (by apply stage_owned).
  rewrite stage_owned in H2 by done.
  apply client_frame; rewrite ?E; try done; [| |by rewrite Hd, H2].
  - pose proof (call_worker _ H1 Ho) as Hk. unfold one_destroyer. cbn. rewrite Ho.
    destruct c'; try done; destruct (s_worker s) eqn:Ew; try done; by edestruct Hk.
  - unfold client_ref. cbn. by rewrite Ho.
Qed.

(** Case analysis along a section: only the conditions of the goal are split. *)
Ltac section :=
  rewrite ?on_id_live by (by eauto using iv_live);
  repeat first
  [ progress cbn [good obind mbind outcome_bind fst snd]
  | progress cbn beta iota zeta
  | match goal with |- good _ ?o => match o with context [match ?x with _ => _ end] =>
      lazymatch x with context [match _ with _ => _ end] => fail | _ => destruct x eqn:? end end end ].

(** The configurations a section can start from, and those it leads to: the fields of
    the state become variables, the configuration before is inverted. *)
Ltac conf_cases s H :=
  let p := fresh "p" in let l := fresh "l" in let st := fresh "st" in let wt := fresh "wt" in
  let q := fresh "q" in let n := fresh "n" in
  remember (s_prov s) as p in *; remember (pending s) as l in *;
  remember (state (m_id (s_mem s))) as st in *; remember (f_connect_wait (m_id (s_mem s))) as wt in *;
  remember (qp (m_id (s_mem s))) as q in *;
  remember (length (work_list (m_id (s_mem s))) + length (work_free_list (m_id (s_mem s))))%nat as n in *;
  repeat match goal with E : _ = _ s |- _ => clear E | E : _ = _ (m_id (s_mem s)) |- _ => clear E end;
  inversion H; clear H; subst; try done;
  repeat match goal with X : setup _ _ _ |- _ => inversion X; clear X; subst end; try done;
  try match goal with X : calm _ \/ starting _ |- _ => destruct X as [X|X]; try done end.

Create HintDb iwcm.
#[export] Hint Constructors setup ending : iwcm.

Ltac conf_solve :=
  solve [done | econstructor; simpl; eauto with iwcm; lia | unfold works_ok in *; intuition (try done; try lia)].

(** The start of a lemma about a section of a call in flight. *)
Ltac call_start Hi Ec Ho Hc Hw :=
  intros Hi Ec; match type of Hi with inv ?s =>
    pose proof (call_owned s (iv_one _ Hi)) as Ho; rewrite Ec in Ho; specialize (Ho I);
    pose proof (iv_conf _ Hi) as Hc; pose proof (iv_works _ Hi) as Hw; rewrite Ec, stage_owned in * by done
  end.

Lemma reject_good pc i s :
  inv s -> s_client s = C_reject pc ->
  good (fun '(m, r) => inv (upd_client m (finish C_reject r) s)) (iw_cm_reject pc i (s_mem s)).
Proof.
  call_start Hi Ec Ho Hc Hw.
  destruct pc; cbn [iw_cm_reject]; section; (apply call_frame; [done|done|done|done|done| |]; cbn);
    conf_cases s Hc; conf_solve.
Qed.

Lemma disconnect_good a pc s :
  inv s -> s_client s = C_disconnect a pc ->
  good (fun '(m, r) => inv (upd_client m (finish (C_disconnect a) r) s)) (iw_cm_disconnect a pc (s_mem s)).
Proof.
  call_start Hi Ec Ho Hc Hw.
  destruct pc; cbn [iw_cm_disconnect]; section; try (apply call_frame; [done|done|done|done|done| |]; cbn);
    conf_cases s Hc; conf_solve.
Qed.

(** A call of the driver that succeeds. *)
Lemma starts_good m' c' p' s :
  inv s -> s_owned s = true -> s_prov s = P_none -> same_works (s_mem s) m' ->
  match c' with C_destroy _ | C_flush | C_gone => False | _ => True end ->
  f_drop_events (m_id m') = f_drop_events (m_id (s_mem s)) ->
  p' = P_listening \/ p' = P_connecting \/ p' = P_accepting ->
  s_worker s = W_idle ->
  conf c' 0 p' (pending s) (state (m_id m')) (f_connect_wait (m_id m')) (qp (m_id m')) ->
  works_ok c' p' (state (m_id m')) (length (work_list (m_id (s_mem s))) + length (work_free_list (m_id (s_mem s)))) ->
  good inv (starts p' (upd_client m' c' s)).
Proof.
  intros Hi Ho Ep Hs Hc Hd Hp Ew Hf Hw. pose proof (iv_pref _ Hi) as Hr. rewrite Ep in Hr.
  pose proof (iv_live _ Hi) as El. pose proof (iv_ref _ Hi) as Er. pose proof (iv_queue _ Hi) as Eq.
  pose proof (iv_drop _ Hi) as Ed. rewrite stage_owned in Ed by done.
  unfold client_ref in Er. rewrite Ho, Hr, Ew in *. cbn in Er.
  destruct Hs as (E1 & E2 & E3 & E4 & E5).
  unfold starts, add_ref. cbn [s_mem upd_client]. unfold on_id. rewrite E1, El, E5, Er.
  destruct (_ <=? 0) eqn:Ez; [bool_to_prop; lia|]. cbn.
  constructor; unfold stage, client_ref, one_destroyer, pending in *; cbn; rewrite ?Ew, ?E2, ?E3, ?E4, ?E5, ?Ho in *; try done.
  all: try solve [by rewrite E1|by destruct c'|by rewrite Hd|by destruct Hp as [->|[->| ->]]|cbn; lia].
Qed.

(** Work elements. *)
Lemma alloc_works_spec avail count m :
  0 <= count ->
  let '(m', ret) := alloc_loop avail count m in
  exists fl n, m' = set_fresh n (set_mid (set_works (work_list (m_id m)) fl (m_id m)) m) /\ (m_fresh m <= n)%nat /\
  (ret = 0 /\ fl = rev (seq (m_fresh m) (Z.to_nat count)) ++ work_free_list (m_id m) /\ n = (m_fresh m + Z.to_nat count)%nat \/
   ret = err ENOMEM /\ fl = []).
Proof.
  revert count m. induction avail as [|a IH]; intros count m Hc; cbn [alloc_loop].
  - destruct (count =? 0) eqn:E; bool_to_prop.
    + subst. exists (work_free_list (m_id m)), (m_fresh m). split_and!; [by destruct m as [[]]|lia|left; split_and!; [done..|simpl; lia]].
    + exists [], (m_fresh m). split_and!; [by destruct m as [[]]|lia|by right].
  - destruct (count =? 0) eqn:E; bool_to_prop.
    + subst. exists (work_free_list (m_id m)), (m_fresh m). split_and!; [by destruct m as [[]]|lia|left; split_and!; [done..|simpl; lia]].
    + specialize (IH (count - 1) (set_fresh (S (m_fresh m)) (set_mid (put_work (m_fresh m) (m_id m)) m)) ltac:(lia)).
      destruct (alloc_loop _ _ _) as [m' ret]. destruct IH as (fl & n & -> & Hn & Hr).
      exists fl, n. cbn in *. split_and!; [done|lia|]. destruct Hr as [(-> & -> & ->)|[-> ->]]; [left|by right].
      replace (Z.to_nat count) with (S (Z.to_nat (count - 1))) by lia. cbn [seq rev].
      split_and!; [done|by rewrite <- app_assoc|lia].
Qed.

Lemma none_idle s : inv s -> s_prov s = P_none -> s_worker s = W_idle.
Proof. intros Hi E. pose proof (iv_worker _ Hi) as H. rewrite E in H. by destruct (s_worker s); [|destruct H..]. Qed.

Lemma accept_good pc i s : inv s -> s_client s = C_accept pc -> good inv (client_step i s).
Proof.
  call_start Hi Ec Ho Hc Hw. unfold client_step. rewrite Ec.
  destruct pc; cbn [iw_cm_accept]; section;
    try (apply call_frame; [done|done|done|done|done| |]; cbn; conf_cases s Hc; conf_solve).
  - assert (s_prov s = P_none) as Ep by (clear Hw; conf_cases s Hc).
    apply starts_good; try done; [auto|by apply none_idle|..]; cbn; conf_cases s Hc; conf_solve.
  - conf_cases s Hc.
Qed.

(** New work elements for an identifier that has none. *)
Lemma alloc_good avail count s :
  inv s -> s_owned s = true -> s_prov s = P_none -> starting (s_client s) -> 0 < count ->
  state (m_id (s_mem s)) = IDLE ->
  (length (work_list (m_id (s_mem s))) + length (work_free_list (m_id (s_mem s))) = 0)%nat ->
  good (fun '(m, ret) => forall c',
     c' = C_idle (Some ret) \/
     ret = 0 /\ ((exists b, c' = C_listen b L_lock) \/ c' = C_connect CN_lock /\ 3 <= count) ->
     inv (upd_client m c' s)) (alloc_work_entries avail count (s_mem s)).
Proof.
  intros Hi Ho Ep Hs Hc Est Hn. pose proof (none_idle _ Hi Ep) as Ew.
  destruct (work_list (m_id (s_mem s))) eqn:Ewl; [|done].
  destruct (work_free_list (m_id (s_mem s))) eqn:Efl; [|done].
  unfold alloc_work_entries. rewrite on_id_live by (by eapply iv_live). rewrite Efl. cbn [good].
  pose proof (alloc_works_spec avail count (s_mem s) ltac:(lia)) as Ha.
  destruct (alloc_loop _ _ _) as [m ret]. destruct Ha as (fl & n & -> & Hf & Hr).
  intros c' H'. destruct Hi as [A1 A2 A3 A4 A5 A6 A6' A7 A8 A9].
  unfold stage, client_ref, one_destroyer, pending in *. rewrite Ew, Ho, Ep, Ewl, Efl, Est in *. cbn in *.
  assert (match c' with C_idle _ | C_listen _ L_lock | C_connect CN_lock => True | _ => False end) as Hc'.
  { by destruct H' as [->|(_ & [[b ->]|[-> _]])]. }
  constructor; unfold stage, client_ref, one_destroyer, pending; cbn; rewrite ?Ew, ?Ho, ?Ep, ?Ewl, ?Est; cbn; try done.
  - by destruct c'.
  - assert (f_connect_wait (m_id (s_mem s)) = false /\ qp (m_id (s_mem s)) = None) as [-> ->].
    { clear - A3 Hs. remember (s_client s) as c. conf_cases s A3; by destruct c as [|? []|[]|[]|[]|? []|[]| |]. }
    destruct c' as [| ? []|[]| | | | | |]; try done; (constructor; cbn; auto; lia).
  - assert (length fl = 0%nat \/ length fl = Z.to_nat count) as Hfl.
    { destruct Hr as [(_ & -> & _)|[_ ->]]; [|by left]. right. by rewrite length_app, length_rev, length_seq; cbn; lia. }
    destruct H' as [->|(-> & Hk)].
    + split_and!; [by auto|naive_solver|done].
    + assert (length fl = Z.to_nat count) as E'.
      { destruct Hr as [(_ & -> & _)|[? _]]; [|done]. by rewrite length_app, length_rev, length_seq; cbn; lia. }
      split_and!; [by auto|naive_solver|]. destruct Hk as [[b ->]|[-> ?]]; lia.
Qed.

Lemma connect_good pc i s : inv s -> s_client s = C_connect pc -> good inv (client_step i s).
Proof.
  call_start Hi Ec Ho Hc Hw. unfold client_step. rewrite Ec.
  assert (s_prov s = P_none) as Ep by (clear Hw; conf_cases s Hc).
  destruct pc; cbn [iw_cm_connect].
  - eapply good_bind.
    { eapply good_bind; [apply (alloc_good (i_avail i) 4 s); try done|].
      { by rewrite Ec. } { clear Hw; conf_cases s Hc. } { by destruct Hw as (_ & _ & ->). }
      intros [m ret] H. instantiate (1 := fun '(m, r) => inv (upd_client m (finish C_connect r) s)). cbn.
      destruct (ret =? 0) eqn:Er; bool_to_prop; apply H; [right; subst|by left]. split; [done|by right]. }
    by intros [m [|]] H.
  - section; (apply call_frame; [done|done|done|done|done| |]; cbn; conf_cases s Hc; conf_solve).
  - rewrite on_id_live by (by eapply iv_live). destruct (iw_cm_map _ _ _) as [x ret]. section;
      try (apply call_frame; [done|done|done|done|done| |]; cbn; conf_cases s Hc; conf_solve).
    apply starts_good; try done; [auto|by apply none_idle|..]; cbn; conf_cases s Hc; conf_solve.
  - section; (apply call_frame; [done|done|done|done|done| |]; cbn; conf_cases s Hc; conf_solve).
  - section; (apply call_frame; [done|done|done|done|done| |]; cbn; conf_cases s Hc; conf_solve).
Qed.

Lemma listen_good b pc i s : inv s -> s_client s = C_listen b pc -> good inv (client_step i s).
Proof.
  call_start Hi Ec Ho Hc Hw. unfold client_step. rewrite Ec.
  assert (s_prov s = P_none) as Ep by (clear Hw; conf_cases s Hc).
  destruct pc; cbn [iw_cm_listen].
  - destruct Hw as (_ & _ & Hn & Hb).
    assert (0 < listen_backlog b) as Hl by (unfold listen_backlog, default_backlog; case_cond; bool_to_prop; lia).
    eapply good_bind.
    { eapply good_bind; [apply (alloc_good (i_avail i) (listen_backlog b) s); try done|].
      { by rewrite Ec. } { conf_cases s Hc. }
      intros [m ret] H. instantiate (1 := fun '(m, r) => inv (upd_client m (finish (C_listen b) r) s)). cbn.
      destruct (ret =? 0) eqn:Er; bool_to_prop; apply H; [right; subst|by left]. split; [done|left; by exists b]. }
    by intros [m [|]] H.
  - section; (apply call_frame; [done|done|done|done|done| |]; cbn; conf_cases s Hc; conf_solve).
  - rewrite on_id_live by (by eapply iv_live). destruct (iw_cm_map _ _ _) as [x ret]. section;
      try (apply call_frame; [done|done|done|done|done| |]; cbn; conf_cases s Hc; conf_solve).
    apply starts_good; try done; [auto|by apply none_idle|..]; cbn; conf_cases s Hc; conf_solve.
  - section; (apply call_frame; [done|done|done|done|done| |]; cbn; conf_cases s Hc; conf_solve).
Qed.

Lemma not_owned s : one_destroyer s = true ->
  match s_client s with C_destroy _ | C_flush | C_gone => True | _ => False end ->
  s_owned s = false /\ forall pc e, s_worker s <> W_destroy pc e.
Proof.
  unfold one_destroyer. intros H Hc. destruct (s_owned s); [by destruct (s_client s), (s_worker s)|].
  split; [done|]. intros pc e E. rewrite E in H. by destruct (s_client s).
Qed.

Lemma not_destroying {A} w (f : destroy_pc -> A) d :
  (forall pc e, w <> W_destroy pc e) -> match w with W_destroy pc _ => f pc | _ => d end = d.
Proof. destruct w; try done. intros H. by edestruct H. Qed.

(** Giving up a reference: the identifier lives on or nothing of it is left. *)
Lemma deref_ok m :
  m_live m = true -> 0 < refcount (m_id m) -> (refcount (m_id m) = 1 -> work_list (m_id m) = []) ->
  iwcm_deref_id m =
  if refcount (m_id m) =? 1 then Ok (free_cm_id (set_mid (set_refcount 0 (m_id m)) m), true)
  else Ok (set_mid (set_refcount (refcount (m_id m) - 1) (m_id m)) m, false).
Proof.
  intros Hl Hr Hw. unfold iwcm_deref_id. rewrite on_id_live by done.
  destruct (_ <=? 0) eqn:E1; bool_to_prop; [lia|].
  destruct (refcount (m_id m) =? 1) eqn:E2; bool_to_prop.
  - rewrite E2, Hw by done. by replace (1 - 1) with 0 by lia.
  - by rewrite (proj2 (Z.eqb_neq _ _)) by lia.
Qed.

(** The lock section of [destroy_cm_id], and the driver's answer to it. *)
Lemma conf_destroy c c' p l st w q :
  conf c 3 p l st w q -> calm c' -> (st = LISTEN <-> exists q, c' = C_destroy (D_call T_listen q)) ->
  conf c' 4 p l DESTROYING false None.
Proof.
  intros H Hc Hl. inversion H; subst; try done; try lia; constructor; try done; rewrite <- ?Hl; auto with iwcm; try naive_solver.
  all: match goal with X : ending _ _ |- _ => inversion X; naive_solver end.
Qed.

Lemma conf_destroying c c' p l st w q :
  conf c 4 p l st w q -> calm c' ->
  (p = P_listening <-> exists q, c' = C_destroy (D_call T_listen q)) -> conf c' 4 p l st w q.
Proof. intros H Hc Hl. inversion H; subst; try lia. by constructor. Qed.

Lemma works_destroy c c' p st n :
  works_ok c p st n -> (match c' with C_listen _ _ | C_connect _ => False | _ => True end) -> works_ok c' p DESTROYING n.
Proof. intros (H1 & H2 & _) Hc. split_and!; [naive_solver|naive_solver|]. by destruct c' as [|? []|[]| | | | | |]. Qed.

Lemma destroying_facts c p l st w q : conf c 4 p l st w q -> st = DESTROYING /\ w = false /\ q = None.
Proof. intros H. inversion H; subst; try lia; done. Qed.

Lemma sum_zero a b c (n : nat) : b2z a + Z.of_nat n + b2z b + b2z c = 0 -> a = false /\ n = 0%nat /\ b = false /\ c = false.
Proof. destruct a, b, c; cbn; intros; split_and!; try done; lia. Qed.

Definition with_mem (m : mem) (s : sys) : sys := upd_client m (s_client s) s.

(** A reference given up: either others are left, or nothing is. *)
Lemma release_good s :
  inv_extra 1 s ->
  good (fun '(m, last) => if last : bool then dead (with_mem m s) else inv (with_mem m s)) (iwcm_deref_id (s_mem s)).
Proof.
  intros Hi. pose proof (iv_ref _ Hi) as Er.
  assert (0 <= b2z (client_ref s) + Z.of_nat (length (work_list (m_id (s_mem s)))) + b2z (busy (s_worker s)) + b2z (s_pref s))
    as Hge by (unfold b2z; repeat case_match; lia).
  destruct (decide (refcount (m_id (s_mem s)) = 1)) as [E1|E1].
  - destruct (sum_zero (client_ref s) (busy (s_worker s)) (s_pref s) (length (work_list (m_id (s_mem s))))) as (Z1 & Z2 & Z3 & Z4); [lia|].
    apply length_zero_iff_nil in Z2. pose proof (iv_queue _ Hi) as Hq. rewrite Z2 in Hq.
    assert (s_worker s = W_idle) as Ew by (destruct (s_worker s); try done; by destruct Hq).
    rewrite deref_ok; [|by eapply iv_live|lia|done]. rewrite E1. cbn.
    unfold client_ref in Z1. rewrite !orb_false_iff in Z1. destruct Z1 as [[Ho Hcl] _].
    pose proof (iv_one _ Hi) as H1. unfold one_destroyer in H1. rewrite Ho, Ew in *.
    pose proof (iv_conf _ Hi) as Hc. replace (stage s) with 4%nat in Hc
      by (unfold stage; rewrite Ho, Ew; by destruct (s_client s)).
    destruct (destroying_facts _ _ _ _ _ _ Hc) as (_ & _ & Hqp).
    constructor; cbn; rewrite ?Z2; try done; [split; [done|]|]; by destruct (s_client s).
  - rewrite deref_ok; [|by eapply iv_live|lia|done]. rewrite (proj2 (Z.eqb_neq _ _) E1). cbn.
    destruct Hi as [B1 B2 B3 B4 B5 B6 B6' B7 B8 B9]. constructor; try done;
      unfold with_mem, client_ref in *; cbn in *; lia.
Qed.

Lemma destroying_listen c p l st w q q' :
  conf c 4 p l st w q -> c = C_destroy (D_call T_listen q') -> p = P_listening /\ Forall is_request l.
Proof.
  intros H ->. inversion H as [| | | | | | | | | | | | | | | |? ? ? _ Hp Hl]; subst; try lia.
  assert (p = P_listening) as -> by (apply Hp; by eexists). split; [done|].
  destruct Hl as [He|[[E _]|[_ ?]]]; [by inversion He|done..].
Qed.

Lemma destroying_not_listen c p l st w q :
  conf c 4 p l st w q -> (forall q', c <> C_destroy (D_call T_listen q')) -> p <> P_listening.
Proof.
  intros H Hn ->. inversion H as [| | | | | | | | | | | | | | | |? ? ? _ Hp _]; subst; try lia.
  destruct (proj1 Hp eq_refl) as [q' E]. by edestruct Hn.
Qed.

Lemma lock_facts c p l st w q : conf c 3 p l st w q -> st <> CONN_SENT /\ st <> DESTROYING /\ w = false.
Proof. intros H. inversion H; subst; try lia; naive_solver. Qed.

Lemma client_destroy_good pc i s :
  inv s -> s_client s = C_destroy pc -> good (fun s => inv s \/ dead s) (client_step i s).
Proof.
  intros Hi Ec. pose proof (not_owned s (iv_one _ Hi)) as Ho. rewrite Ec in Ho. destruct (Ho I) as [Hf Hk]. clear Ho.
  pose proof (iv_conf _ Hi) as Hc. pose proof (iv_works _ Hi) as Hw. pose proof (iv_drop _ Hi) as Hd.
  assert (stage s = destroy_stage pc) as Es by (unfold stage; by rewrite Hf, Ec).
  rewrite Ec, Es in *. unfold client_step. rewrite Ec.
  assert (forall m c', match c' with C_destroy _ => True | _ => False end ->
            one_destroyer (upd_client m c' s) = true /\ client_ref (upd_client m c' s) = client_ref s) as Hx.
  { intros m c' H. unfold one_destroyer, client_ref. cbn. rewrite Hf, Ec.
    destruct c'; try done. destruct (s_worker s); try done. by edestruct Hk. }
  destruct pc as [| | |o q|q]; cbn [destroy_cm_id].
  - section; [done|].
    left; apply client_frame; [done|done|by apply Hx|by apply Hx|..]; cbn;
      unfold stage; cbn; rewrite ?Hf; try done; conf_cases s Hc; conf_solve.
  - section.
    left; apply client_frame; [done|done|by apply Hx|by apply Hx|..]; cbn;
      unfold stage; cbn; rewrite ?Hf; try done; conf_cases s Hc; conf_solve.
  - destruct (lock_facts _ _ _ _ _ _ Hc) as (H1 & H2 & H3). section; try done;
    (left; apply client_frame; [done|done|by apply Hx|by apply Hx|..]; cbn; unfold stage; cbn; rewrite ?Hf, ?H3;
      [by destruct (qp (m_id (s_mem s)))| |by eapply works_destroy]).
    all: try (eapply conf_destroy; [done|done|]; split; [try done; by eexists|by intros [? [=]]]).
    destruct (qp (m_id (s_mem s))); (eapply conf_destroy; [done|done|]; split; [done|by intros [? [=]]]).
  - section. left. destruct (destroying_facts _ _ _ _ _ _ Hc) as (H1 & H2 & H3).
    destruct (decide (o = T_listen)).
    + subst o.
      destruct (destroying_listen _ _ _ _ _ _ q Hc eq_refl) as [Ep Hl].
      destruct Hi as [B1 B2 B3 B4 B5 B6 B6' B7 B8 B9]. rewrite Ep in *.
      constructor; unfold stage, client_ref, one_destroyer, pending in *; cbn in *; rewrite ?Hf, ?Ec in *; try done.
      * rewrite H1, H2, H3. constructor; [done|split; [done|by intros [? [=]]]|auto].
      * destruct (s_worker s); naive_solver.
      * rewrite H1 in *. destruct B9 as (W1 & _ & _). split_and!; naive_solver.
    + replace (match o with T_listen => _ | _ => s end) with s by (by destruct o).
      apply client_frame; [done|done|by apply Hx|by apply Hx|..]; cbn; unfold stage; cbn; rewrite ?Hf; try done.
      eapply conf_destroying; [done|done|]. split; [|by intros [? [=]]].
      intros Ep. edestruct destroying_not_listen; [exact Hc|by intros q' [= ->]|done].
  - rewrite on_id_live by (by eapply iv_live). set (os := _ ++ _).
    assert (inv_extra 1 (upd_client (out os (s_mem s)) C_flush s)) as Hx'.
    { destruct Hi as [B1 B2 B3 B4 B5 B6 B6' B7 B8 B9].
      constructor; unfold stage, client_ref, one_destroyer, pending in *; cbn in *; rewrite ?Hf, ?Ec in *; try done.
      all: rewrite ?(not_destroying _ destroy_stage 4%nat Hk), ?(not_destroying _ (fun _ => true) false Hk),
        ?(not_destroying _ (fun _ => false) true Hk); try done.
      eapply conf_destroying; [done|done|]. split; [|by intros [? [=]]].
      intros Ep. edestruct destroying_not_listen; [exact Hc|by intros q' [=]|done]. }
    apply release_good in Hx'. cbn [upd_client s_mem] in Hx'.
    destruct (iwcm_deref_id _) as [[m []]| |]; cbn in *; try done; [right; by destruct Hx'|by left].
Qed.

Lemma no_works_spec p : no_works p = true -> (length (work_list p) + length (work_free_list p) = 0)%nat.
Proof. unfold no_works. by destruct (work_list p), (work_free_list p). Qed.

Lemma start_good k s : inv s -> allowed (L_start k) s = true -> good inv (run_step (L_start k) s).
Proof.
  intros Hi Ha. cbn in Ha. bool_to_prop. rename select (s_owned s = true) into Ho.
  rename select (is_idle _ = true) into Hc. rename select (call_ok _ _ = true) into Hk.
  destruct (s_client s) eqn:Ec; try done. pose proof (iv_conf _ Hi) as Hf. pose proof (iv_works _ Hi) as Hw.
  rewrite Ec, stage_owned in * by done. cbn [run_step good].
  destruct (is_destroy k) eqn:Ed.
  - destruct k; try done. pose proof (call_worker _ (iv_one _ Hi) Ho) as Hx.
    pose proof (iv_drop _ Hi) as Hd. rewrite stage_owned in Hd by done.
    destruct Hi as [B1 B2 B3 B4 B5 B6 B6' B7 B8 B9].
    constructor; unfold stage, client_ref, one_destroyer, pending in *; cbn in *; rewrite ?Ho in *; try done.
    + by rewrite (not_destroying _ (fun _ => false) true Hx).
    + conf_cases s Hf; conf_solve.
  - apply call_frame; try done; [by destruct k| |]; cbn.
    + assert (match k with K_listen _ | K_connect => no_works (m_id (s_mem s)) = true | _ => True end) as Hn
        by (destruct k; cbn in *; bool_to_prop; done).
      destruct k; cbn in *; try (conf_cases s Hf; conf_solve).
      all: apply no_works_spec in Hn; destruct (proj1 Hw Hn) as [E1 [E2|E2]]; conf_cases s Hf;
        try match goal with X : ending P_none _ |- _ => inversion X end; try conf_solve; naive_solver.
    + destruct Hw as (W1 & W2 & _). split_and!; [done|done|].
      destruct k; cbn in *; try done; bool_to_prop; split_and?; try done; by apply no_works_spec.
Qed.

(** An event that is accepted. *)
Lemma ending_event p p' l ev : ending p l -> prov_next p ev = Some p' -> ending p' (l ++ [ev]).
Proof.
  unfold prov_next. destruct 1; destruct (ev_type ev) eqn:Et; intros [= <-]; cbn; by auto with iwcm.
Qed.

Lemma setup_event p p' l st ev : setup p l st -> prov_next p ev = Some p' -> setup p' (l ++ [ev]) st.
Proof.
  destruct 1; intros Hn; cbn; try (constructor; [done..|by eapply ending_event]); try done.
  all: unfold prov_next in Hn; destruct (ev_type ev) eqn:Et; try done;
    try (destruct (ev_status ev =? 0) eqn:Es; bool_to_prop); simplify_eq; by auto with iwcm.
Qed.

Lemma listening_event p' ev : prov_next P_listening ev = Some p' -> p' = P_listening /\ is_request ev.
Proof.
  unfold prov_next. destruct (ev_type ev) eqn:Et; try done. destruct (_ =? 0) eqn:Es; try done. bool_to_prop. by intros [= <-].
Qed.

Lemma prov_next_not p p' ev : prov_next p ev = Some p' -> p <> P_none /\ p <> P_closed.
Proof. by destruct p. Qed.

Lemma conf_event c g p p' l st w q ev :
  conf c g p l st w q -> prov_next p ev = Some p' -> conf c g p' (l ++ [ev]) st w q.
Proof.
  intros H Hn. destruct (prov_next_not _ _ _ Hn).
  destruct H; try done; try (econstructor; eauto using ending_event, setup_event; done).
  - destruct (listening_event _ _ Hn) as [-> Hr]. constructor; [done..|]. by apply Forall_app; auto.
  - match goal with X : _ \/ _ \/ _ |- _ => destruct X as [He|[[-> _]|[[->| ->] Hr]]]; [|done| |done] end.
    + assert (p' <> P_listening /\ p <> P_listening) as [? ?]
        by (pose proof (ending_event _ _ _ _ He Hn) as He'; split; intros ->; [inversion He'|inversion He]).
      constructor; [done|naive_solver|left; by eapply ending_event].
    + destruct (listening_event _ _ Hn) as [-> Hr']. constructor; [done..|]. right; right. split; [auto|]. by apply Forall_app; auto.
Qed.

Lemma worker_event w p p' l ev :
  worker_ok w p l -> p' <> P_none -> p' <> P_connecting -> p' <> P_accepting -> (p <> P_listening -> p' <> P_listening) ->
  w = W_idle \/ is_setup ev = false -> worker_ok w p' (l ++ [ev]).
Proof.
  intros H N1 N2 N3 N4 Hw.
  assert (w <> W_idle -> (forall e, e ∈ l -> is_setup e = false) -> forall e, e ∈ l ++ [ev] -> is_setup e = false) as Hs.
  { intros Hi Hl e [?|E%list_elem_of_singleton]%elem_of_app; [auto|]. subst. by destruct Hw. }
  destruct w; cbn in *; split_and?; try done; destruct_and?; auto.
Qed.

Lemma event_good ev copied s : inv s -> allowed (L_event ev copied) s = true -> good inv (run_step (L_event ev copied) s).
Proof.
  intros Hi Ha. cbn in Ha. bool_to_prop. rename select (s_pref s = true) into Hp.
  rename select (bool_decide _ = true) into Hn. apply bool_decide_eq_true in Hn as [p' Hn].
  cbn [run_step]. unfold cm_event_handler, get_work. rewrite on_id_live by (by eapply iv_live).
  destruct (work_free_list (m_id (s_mem s))) as [|k fl] eqn:Ef; cbn.
  - by destruct s.
  - assert (s_worker s = W_idle \/ is_setup ev = false) as Hsu.
    { pose proof (iv_worker _ Hi) as H. unfold prov_next in Hn. unfold is_setup.
      destruct (s_prov s) eqn:Ep, (ev_type ev); try done; auto; left; destruct (s_worker s); cbn in H; naive_solver. }
    assert (p' <> P_none /\ p' <> P_connecting /\ p' <> P_accepting /\ (s_prov s <> P_listening -> p' <> P_listening)) as (N1 & N2 & N3 & N4).
    { unfold prov_next in Hn. destruct (s_prov s), (ev_type ev); try done; try destruct (ev_status ev =? 0); simplify_eq; done. }
    assert (works_ok (s_client s) p' (state (m_id (s_mem s))) (length (work_list (m_id (s_mem s))) + S (length fl))) as Hw'.
    { pose proof (iv_works _ Hi) as (W1 & W2 & W3). rewrite Ef in *. cbn in *. split_and!; [lia| |done].
      intros H. apply W2. unfold prov_next in Hn.
      destruct (s_prov s), (ev_type ev); try done; try destruct (ev_status ev =? 0); simplify_eq; naive_solver. }
    destruct Hi as [B1 B2 B3 B4 B5 B6 B6' B7 B8 B9]. destruct (copies ev && negb copied) eqn:Eg; cbn [mbind outcome_bind obind].
    + constructor; unfold stage, client_ref, one_destroyer, pending, put_work in *; cbn in *; rewrite ?Ef in *; try done.
    + rewrite Hn. set (m1 := if copies ev then _ else _).
      assert (m_wq m1 = m_wq (s_mem s) /\ m_live m1 = m_live (s_mem s)) as [Q1 Q2] by (unfold m1; by destruct (copies ev)).
      pose proof (conf_event _ _ _ _ _ _ _ _ _ B3 Hn) as Hc'.
      constructor; unfold stage, client_ref, one_destroyer, pending in *; cbn in *.
      * destruct (work_list (m_id (s_mem s))); cbn; congruence.
      * done.
      * by rewrite map_app, app_assoc.
      * rewrite map_app, app_assoc. by eapply worker_event.
      * unfold queue_ok in *. destruct (work_list (m_id (s_mem s))) as [|[k' e'] wl]; cbn; rewrite ?Q1.
        -- destruct (done_flag _); [by rewrite B5|naive_solver].
        -- destruct (done_flag _); [done|naive_solver].
      * rewrite B6, length_app. cbn. lia.
      * lia.
      * done.
      * clear - Hp N1. destruct p'; done.
      * rewrite length_app. cbn. replace (_ + 1 + _)%nat with (length (work_list (m_id (s_mem s))) + S (length fl))%nat by lia. done.
Qed.

Lemma unref_good s : inv s -> allowed L_unref s = true -> good (fun s => inv s \/ dead s) (run_step L_unref s).
Proof.
  intros Hi Ha. cbn in Ha. bool_to_prop. rename select (s_pref s = true) into Hp.
  rename select (bool_decide _ = true) into Hc. apply bool_decide_eq_true in Hc.
  assert (inv_extra 1 (upd_prov (s_mem s) (s_prov s) false s)) as Hx.
  { destruct Hi as [B1 B2 B3 B4 B5 B6 B6' B7 B8 B9]. constructor; try done; unfold client_ref in *; cbn in *; [rewrite Hp in *; cbn in *; lia|by rewrite Hc]. }
  apply release_good in Hx. cbn [run_step]. unfold rem_ref. cbn [upd_prov s_mem] in Hx.
  destruct (iwcm_deref_id _) as [[m []]| |]; cbn in *; try done; [by right|by left].
Qed.

Lemma conf_started c g p ev l st w q :
  conf c g p (ev :: l) st w q -> p <> P_none /\ p <> P_connecting /\ p <> P_accepting.
Proof.
  intros H. inversion H; subst; try done.
  all: try match goal with X : _ \/ _ \/ _ |- _ => destruct X as [X|[[_ ?]|[[?|?] _]]]; subst end; try done.
  all: repeat match goal with X : setup _ _ _ |- _ => inversion X; clear X; subst | X : ending _ _ |- _ => inversion X; clear X; subst end; done.
Qed.

Lemma dispatch_good s : inv s -> good inv (run_step L_dispatch s).
Proof.
  intros Hi. cbn. destruct (m_wq (s_mem s)) as [|k wq] eqn:Eq; [done|]. destruct (s_worker s) eqn:Ew; try done. cbn.
  pose proof (iv_queue _ Hi) as Hq. rewrite Ew, Eq in Hq. cbn in Hq.
  destruct (work_list (m_id (s_mem s))) as [|[k' ev] wl] eqn:El; [done|]. simplify_eq.
  assert (s_prov s <> P_none /\ s_prov s <> P_connecting /\ s_prov s <> P_accepting) as Hp.
  { pose proof (iv_conf _ Hi) as Hc. unfold pending in Hc. rewrite Ew, El in Hc. cbn in Hc.
    by eapply conf_started. }
  destruct Hi as [B1 B2 B3 B4 B5 B6 B6' B7 B8 B9].
  constructor; unfold stage, client_ref, one_destroyer, pending in *; cbn in *; rewrite ?Ew, ?El in *; try done.
Qed.

(** A section of the work queue's thread that keeps the lists and the references. *)
Lemma worker_frame m' w' s :
  inv s -> same_works (s_mem s) m' -> busy w' = busy (s_worker s) -> done_flag w' = done_flag (s_worker s) ->
  one_destroyer (upd_worker m' w' s) = true ->
  client_ref (upd_worker m' w' s) = client_ref s ->
  f_drop_events (m_id m') = (3 <=? stage (upd_worker m' w' s))%nat ->
  conf (s_client s) (stage (upd_worker m' w' s)) (s_prov s) (pending (upd_worker m' w' s))
       (state (m_id m')) (f_connect_wait (m_id m')) (qp (m_id m')) ->
  worker_ok w' (s_prov s) (pending (upd_worker m' w' s)) ->
  works_ok (s_client s) (s_prov s) (state (m_id m')) (length (work_list (m_id (s_mem s))) + length (work_free_list (m_id (s_mem s)))) ->
  inv (upd_worker m' w' s).
Proof.
  intros [B1 B2 B3 B4 B5 B6 B6' B7 B8 B9] (El & Ew & Ef & Eq & Er) Hb Hd H1 H2 H3 H4 H5 H6.
  constructor; try done; unfold queue_ok in *; cbn [upd_worker s_mem s_client s_worker s_prov s_pref s_owned] in *;
    rewrite ?Ew, ?Ef, ?Eq, ?Er, ?El, ?H2, ?Hb, ?Hd in *; try done.
Qed.

(** No result of a connection is pending unless somebody waits for it. *)
Lemma ending_no_setup p l : ending p l -> forall ev, ev ∈ l -> is_setup ev = false.
Proof.
  unfold is_setup. destruct 1; intros e He; repeat (apply elem_of_cons in He as [->|He]); try (by apply not_elem_of_nil in He);
    by repeat match goal with E : ev_type _ = _ |- _ => rewrite E end.
Qed.

Lemma requests_no_setup l : Forall is_request l -> forall ev, ev ∈ l -> is_setup ev = false.
Proof. intros H ev Hin. destruct (proj1 (Forall_forall is_request l) H ev) as [E _]; [by apply list_elem_of_In|]. unfold is_setup. by rewrite E. Qed.

Lemma conf_no_setup c g p l st q : conf c g p l st false q -> forall ev, ev ∈ l -> is_setup ev = false.
Proof.
  intros H. inversion H; subst; eauto using ending_no_setup, requests_no_setup; try (intros ev Hin; by apply not_elem_of_nil in Hin).
  match goal with X : _ \/ _ |- _ => destruct X as [X|[[_ ->]|[_ ?]]] end;
    eauto using ending_no_setup, requests_no_setup. 
Qed.

Lemma ending_tail p ev l : ending p (ev :: l) -> ending p l.
Proof. inversion 1; subst; auto with iwcm. Qed.

(** Dropping the oldest event of an identifier that is being destroyed. *)
Lemma conf_drop c g p ev l st w q : (3 <= g)%nat -> conf c g p (ev :: l) st w q -> conf c g p l st w q /\ w = false.
Proof.
  intros Hg H. inversion H; subst; try lia; (split; [|done]).
  - constructor; [done..|]. by eapply Forall_inv_tail.
  - constructor; try done. by eapply ending_tail.
  - constructor; [done..|]. match goal with X : _ \/ _ |- _ => destruct X as [X|[[_ ?]|[? X]]] end;
      [left; by eapply ending_tail|done|right; right; split; [done|by eapply Forall_inv_tail]].
Qed.

(** A request never hits a bug; what was made for a rejected one is freed again. *)
Lemma request_ok i ev p : ev_status ev = 0 -> exists r, cm_conn_req_handler i ev p = Ok r.
Proof.
  intros Es. unfold cm_conn_req_handler. rewrite Es. cbn. destruct (i_create i); cbn; [|by eexists].
  destruct (request_child _ _ _) as [m ev'] eqn:Em.
  assert (exists x, m = set_mid (set_state CONN_RECV (m_id (iw_create_cm_id x))) (iw_create_cm_id x)) as [x ->].
  { unfold request_child in Em. destruct (i_remote i); simplify_eq; by eexists. }
  destruct (bool_decide _); [|by eexists].
  unfold alloc_work_entries. rewrite on_id_live by done. cbn [work_free_list set_state set_mid m_id iw_create_cm_id mbind outcome_bind obind].
  pose proof (alloc_works_spec (i_avail i) 3 (set_mid (set_state CONN_RECV (m_id (iw_create_cm_id x))) (iw_create_cm_id x)) ltac:(lia)) as Ha.
  destruct (alloc_loop _ _ _) as [m ret]. destruct Ha as (fl & n & -> & _ & [(-> & _)|[-> ->]]); cbn; by eexists.
Qed.

(** Conditions of the thread after it has handled an event. *)
Lemma handled_ok w' l p :
  p <> P_none /\ p <> P_connecting /\ p <> P_accepting ->
  (forall ev, ev ∈ l -> is_setup ev = false) ->
  match w' with W_request _ _ | W_deref _ => True | W_call _ _ _ | W_quiet _ _ => p <> P_listening | _ => False end ->
  worker_ok w' p l.
Proof. intros (N1 & N2 & N3) Hs Hw. by destruct w'. Qed.

Lemma waiting_calm c : waiting c -> calm c.
Proof. by destruct c as [|? []|[]|[]|[]|? []|[]| |]. Qed.

(** Inverts what is known about the oldest pending event. *)
Ltac head_cases H :=
  inversion H; clear H; subst; try done;
  try match goal with X : _ \/ _ \/ _ |- _ => destruct X as [X|[[_ ?]|[? X]]]; try done end;
  try match goal with X : setup _ (_ :: _) _ |- _ => inversion X; clear X; subst end;
  try match goal with X : ending _ (_ :: _) |- _ => inversion X; clear X; subst end;
  try match goal with X : Forall is_request (_ :: _) |- _ =>
    let Y := fresh in pose proof (Forall_inv X) as [Y ?]; apply Forall_inv_tail in X end;
  try congruence.

(** What handling an event does to the configuration. *)
Lemma conf_reply c g p ev l st w q :
  conf c g p (ev :: l) st w q -> ev_type ev = EV_CONNECT_REPLY ->
  st = CONN_SENT /\ p <> P_listening /\
  if ev_status ev =? 0 then conf c g p l ESTABLISHED false q else conf c g p l IDLE false None.
Proof.
  intros H Et. head_cases H; destruct (_ =? 0) eqn:Ez; bool_to_prop; try done; (split; [done|]).
  - split; [intros ->; match goal with X : ending _ _ |- _ => inversion X end|]. constructor; auto using waiting_calm; lia.
  - split; [done|]. constructor; auto using waiting_calm; lia.
Qed.

Lemma conf_established c g p ev l st w q :
  conf c g p (ev :: l) st w q -> ev_type ev = EV_ESTABLISHED ->
  st = CONN_RECV /\ p <> P_listening /\ conf c g p l ESTABLISHED false q.
Proof.
  intros H Et. head_cases H. split; [done|].
  split; [intros ->; match goal with X : ending _ _ |- _ => inversion X end|]. constructor; auto using waiting_calm; lia.
Qed.

Lemma conf_disconnect c g p ev l st w q :
  conf c g p (ev :: l) st w q -> ev_type ev = EV_DISCONNECT ->
  w = false /\ conf c g p l (if decide (st = ESTABLISHED) then CLOSING else st) false q.
Proof.
  intros H Et. head_cases H; (split; [done|]); try (constructor; auto with iwcm).
  all: destruct (decide _); (constructor; auto with iwcm); naive_solver.
Qed.

Lemma conf_close c g p ev l st w q :
  conf c g p (ev :: l) st w q -> ev_type ev = EV_CLOSE ->
  w = false /\ p <> P_listening /\
  ((st = ESTABLISHED \/ st = CLOSING) /\ conf c g p l IDLE false None \/ st = DESTROYING /\ conf c g p l st false None).
Proof.
  intros H Et. head_cases H; (split; [done|]); (split; [done|]).
  - left. split; [done|by constructor].
  - right. split; [done|constructor; auto with iwcm].
Qed.

Lemma conf_request c g p ev l st w q :
  conf c g p (ev :: l) st w q -> ev_type ev = EV_CONNECT_REQUEST -> ev_status ev = 0 /\ w = false /\ conf c g p l st w q.
Proof. intros H Et. head_cases H; (split_and!; [done..|]); constructor; auto. Qed.

(** A handler that leaves its event behind. *)
Lemma handler_frame m' w' ev e s l :
  inv s -> s_worker s = W_proc ev e \/ s_worker s = W_test ev e -> same_works (s_mem s) m' ->
  f_drop_events (m_id m') = f_drop_events (m_id (s_mem s)) ->
  map snd (work_list (m_id (s_mem s))) = l ->
  match w' with W_request _ e' | W_deref e' => e' = e | W_call _ _ e' | W_quiet _ e' => e' = e /\ s_prov s <> P_listening | _ => False end ->
  f_connect_wait (m_id m') = false ->
  conf (s_client s) (stage s) (s_prov s) l (state (m_id m')) false (qp (m_id m')) ->
  works_ok (s_client s) (s_prov s) (state (m_id m')) (length (work_list (m_id (s_mem s))) + length (work_free_list (m_id (s_mem s)))) ->
  inv (upd_worker m' w' s).
Proof.
  intros Hi Ew Hs Hd <- Hw Hwt Hc Hk.
  assert (busy w' = true /\ done_flag w' = e /\ current w' = [] /\ forall pc e, w' <> W_destroy pc e) as (Eb & Ee & Ecu & Hx)
    by (destruct w'; naive_solver).
  assert (forall pc e, s_worker s <> W_destroy pc e) as Hy by (destruct Ew as [-> | ->]; done).
  assert (stage (upd_worker m' w' s) = stage s) as Est.
  { unfold stage. cbn. by rewrite (not_destroying _ destroy_stage 4%nat Hx), (not_destroying _ destroy_stage 4%nat Hy). }
  assert (pending (upd_worker m' w' s) = map snd (work_list (m_id (s_mem s)))) as Epe.
  { unfold pending. cbn. rewrite Ecu. by destruct Hs as (_ & -> & _). }
  apply worker_frame; rewrite ?Est, ?Epe, ?Hwt; try done.
  - rewrite Eb. by destruct Ew as [-> | ->].
  - rewrite Ee. by destruct Ew as [-> | ->].
  - pose proof (iv_one _ Hi) as H1. unfold one_destroyer in *. cbn.
    destruct (s_owned s), (s_client s); try done; by rewrite ?(not_destroying _ (fun _ => false) true Hx).
  - unfold client_ref. cbn. by rewrite (not_destroying _ (fun _ => true) false Hx), (not_destroying _ (fun _ => true) false Hy).
  - by rewrite Hd, (iv_drop _ Hi).
  - apply handled_ok; [|by eapply conf_no_setup|destruct w'; naive_solver].
    pose proof (iv_worker _ Hi) as H. destruct Ew as [Ew | Ew]; rewrite Ew in H; naive_solver.
Qed.

Lemma works_state c p st st' n :
  works_ok c p st n -> st' = IDLE \/ st' = ESTABLISHED \/ st' = CLOSING \/ st' = st -> p <> P_none ->
  works_ok c p st' n.
Proof. intros (W1 & W2 & W3) Hs Hp. split_and!; [naive_solver| |done]. intros H. apply W2. naive_solver. Qed.

Lemma process_good i ev e s :
  inv s -> s_worker s = W_proc ev e ->
  good (fun '(m, w) => inv (upd_worker m w s)) (process_event i ev e (s_mem s)).
Proof.
  intros Hi Ew. pose proof (iv_conf _ Hi) as Hc. unfold pending in Hc. rewrite Ew in Hc. cbn in Hc.
  pose proof (iv_works _ Hi) as Hw. pose proof (iv_worker _ Hi) as Hk. rewrite Ew in Hk. destruct Hk as (K1 & _).
  unfold process_event. rewrite on_id_live by (by eapply iv_live). destruct (ev_type ev) eqn:Et.
  - destruct (conf_request _ _ _ _ _ _ _ _ Hc Et) as (Es & E1 & E2).
    destruct (request_ok i ev (m_id (s_mem s)) Es) as [r Er]. rewrite Er. cbn [mbind outcome_bind obind].
    assert (forall m w, same_works (s_mem s) m -> m_id m = m_id (s_mem s) -> w = W_request ev e \/ w = W_deref e ->
      inv (upd_worker m w s)) as Hx.
    { intros m w Hs Em Hww. eapply handler_frame; [done|by left|done|by rewrite Em|done|by destruct Hww as [->| ->]|by rewrite Em|by rewrite Em, <- E1|by rewrite Em]. }
    destruct r; cbn; apply Hx; auto; try (by destruct (truthy _)); done.
  - destruct (conf_reply _ _ _ _ _ _ _ _ Hc Et) as (Es & Hl & Hc'). unfold cm_conn_rep_handler. rewrite decide_True by done.
    destruct (ev_status ev =? 0); cbn; (eapply handler_frame; [done|by left|done|done|done|done|done|done|]; eapply works_state; [done|by auto|done]).
  - destruct (conf_established _ _ _ _ _ _ _ _ Hc Et) as (Es & Hl & Hc'). unfold cm_conn_est_handler. rewrite decide_True by done.
    cbn. eapply handler_frame; [done|by left|done|done|done|done|done|done|]. eapply works_state; [done|by auto|done].
  - destruct (conf_disconnect _ _ _ _ _ _ _ _ Hc Et) as (E1 & Hc'). cbn. unfold cm_disconnect_handler.
    destruct (decide _); (eapply handler_frame; [done|by left|done|done|done|done|done|done|]; eapply works_state; [done|by auto|done]).
  - destruct (conf_close _ _ _ _ _ _ _ _ Hc Et) as (E1 & Hl & [[Es Hc']|[Es Hc']]); unfold cm_close_handler.
    + destruct Es as [Es|Es]; rewrite Es; cbn;
        (eapply handler_frame; [done|by left|done|done|done|done|done|done|]; eapply works_state; [done|by auto|done]).
    + rewrite Es. cbn. by eapply handler_frame; [done|by left|..].
Qed.

(** The lists when the thread takes the oldest event. *)
Lemma take_good i s : inv s -> s_worker s = W_loop -> good inv (run_step (L_worker i) s).
Proof.
  intros Hi Ew. cbn. rewrite Ew. cbn. rewrite on_id_live by (by eapply iv_live).
  pose proof (iv_queue _ Hi) as Hq. rewrite Ew in Hq. cbn in Hq. destruct Hq as [Eq Hne].
  destruct (work_list (m_id (s_mem s))) as [|[k ev] wl] eqn:El; [done|]. cbn.
  destruct Hi as [B1 B2 B3 B4 B5 B6 B6' B7 B8 B9].
  constructor; unfold stage, client_ref, one_destroyer, pending, queue_ok in *; cbn in *; rewrite ?Ew, ?El in *; try done.
  - rewrite Eq. by destruct wl as [|[]].
  - cbn in *. lia.
  - by rewrite Nat.add_succ_r.
Qed.

Lemma conf_stage r p l st w q : conf (C_idle r) 0 p l st w q -> conf (C_idle r) 1 p l st w q.
Proof. intros H. inversion H; subst; try done; constructor; auto; lia. Qed.

Lemma conf_advance c c' g g' p l st q :
  conf c g p l st false q -> calm c -> calm c' -> (g <= 3)%nat -> (g' <= 3)%nat -> conf c' g' p l st false q.
Proof. intros H H1 H2 H3 H4. inversion H; subst; try done; try lia; constructor; auto. Qed.

Lemma conf_listen c g p l w q : conf c g p l LISTEN w q -> p = P_none \/ p = P_listening.
Proof.
  intros H. inversion H as [| | | | | | | | | | | | |? ? ? ? ? ? _ _ Hs|? ? ? ? ? ? _ _ Hs| |]; subst; auto.
  - inversion Hs.
  - by destruct Hs.
Qed.

Lemma conf_no_wait c g p l st w q : conf c g p l st w q -> (2 <= g)%nat -> w = false.
Proof. intros H Hg. inversion H; subst; try done; lia. Qed.

Lemma worker_destroyer s pc e : one_destroyer s = true -> s_worker s = W_destroy pc e -> s_owned s = false /\ exists r, s_client s = C_idle r.
Proof. unfold one_destroyer. intros H E. rewrite E in H. destruct (s_owned s), (s_client s); try done. split; [done|by eexists]. Qed.

(** The thread goes on with [destroy_cm_id]. *)
Lemma worker_destroy_good pc e i s :
  inv s -> s_worker s = W_destroy pc e -> good inv (run_step (L_worker i) s).
Proof.
  intros Hi Ew. destruct (worker_destroyer _ _ _ (iv_one _ Hi) Ew) as (Hf & r & Ec).
  pose proof (iv_conf _ Hi) as Hc. pose proof (iv_works _ Hi) as Hw. pose proof (iv_drop _ Hi) as Hd.
  pose proof (iv_worker _ Hi) as Hk. unfold pending in Hc, Hk. rewrite Ew in Hc, Hk. cbn in Hc.
  assert (stage s = destroy_stage pc) as Es by (unfold stage; by rewrite Hf, Ec, Ew). rewrite Es, Ec in *.
  assert (forall m' pc', same_works (s_mem s) m' -> f_drop_events (m_id m') = (3 <=? destroy_stage pc')%nat ->
    conf (C_idle r) (destroy_stage pc') (s_prov s) (map snd (work_list (m_id (s_mem s)))) (state (m_id m')) (f_connect_wait (m_id m')) (qp (m_id m')) ->
    works_ok (C_idle r) (s_prov s) (state (m_id m')) (length (work_list (m_id (s_mem s))) + length (work_free_list (m_id (s_mem s)))) ->
    inv (upd_worker m' (W_destroy pc' e) s)) as Hx.
  { intros m' pc' Hs Hdd Hcc Hww.
    apply worker_frame; try done; unfold one_destroyer, client_ref, stage, pending; cbn; rewrite ?Hf, ?Ec, ?Ew; try done;
      by destruct Hs as (_ & -> & _). }
  cbn [run_step]. rewrite Ew. cbn [cm_work_handler].
  destruct pc as [| | |o q|q]; cbn [destroy_cm_id]; rewrite on_id_live by (by eapply iv_live).
  - section; [done|]. apply (Hx _ D_drop); try done. cbn. rewrite Heqb in *. eapply conf_advance; [exact Hc|done|done|cbn; lia..].
  - section. apply (Hx _ D_lock); try done. cbn. pose proof (conf_no_wait _ _ _ _ _ _ _ Hc ltac:(done)) as Hn. rewrite Hn in *.
    eapply conf_advance; [exact Hc|done|done|cbn; lia..].
  - destruct (lock_facts _ _ _ _ _ _ Hc) as (H1 & H2 & H3).
    assert (state (m_id (s_mem s)) <> LISTEN) as Hl.
    { intros E. rewrite E in Hc. destruct Hk as (K1 & K2 & K3 & K4 & _). by destruct (conf_listen _ _ _ _ _ _ Hc). }
    assert (forall pc', destroy_stage pc' = 4%nat ->
      inv (upd_worker (set_mid (set_state DESTROYING (set_qp None (m_id (s_mem s)))) (s_mem s)) (W_destroy pc' e) s)) as Hy.
    { intros pc' E. apply Hx; [done|by rewrite E| |by eapply works_destroy]. cbn. rewrite E, H3.
      eapply conf_destroy; [done|done|]. split; [done|by intros [? [=]]]. }
    section; try done; apply Hy; try done; by destruct (qp _).
  - section. by apply (Hx _ (D_put q)).
  - cbn [mbind outcome_bind obind]. set (os := _ ++ _).
    assert (inv_extra 1 (upd_worker (out os (s_mem s)) (W_deref e) s)) as Hy.
    { destruct Hi as [B1 B2 B3 B4 B5 B6 B6' B7 B8 B9].
      constructor; unfold stage, client_ref, one_destroyer, pending, queue_ok in *; cbn in *; rewrite ?Hf, ?Ec, ?Ew in *; try done.
      cbn in *. destruct Hk as (K1 & K2 & K3 & K4 & K5). done. }
    apply release_good in Hy. cbn [upd_worker s_mem] in Hy.
    destruct (iwcm_deref_id _) as [[m []]| |]; cbn in *; try done. discriminate (dd_worker _ Hy).
Qed.

(** A section that only moves the thread on. *)
Lemma worker_moves m' w w' s :
  inv s -> s_worker s = w -> same_works (s_mem s) m' -> m_id m' = m_id (s_mem s) ->
  busy w' = busy w -> done_flag w' = done_flag w -> current w' = current w ->
  (forall pc e, w' <> W_destroy pc e) -> (forall pc e, w <> W_destroy pc e) ->
  (worker_ok w (s_prov s) (pending s) -> worker_ok w' (s_prov s) (pending s)) ->
  inv (upd_worker m' w' s).
Proof.
  intros Hi <- Hs Em Hb Hd Hcu Hx Hy Hk.
  assert (stage (upd_worker m' w' s) = stage s) as Est.
  { unfold stage. cbn. by rewrite (not_destroying _ destroy_stage 4%nat Hx), (not_destroying _ destroy_stage 4%nat Hy). }
  assert (pending (upd_worker m' w' s) = pending s) as Epe by (unfold pending; cbn; by rewrite Hcu, Em).
  apply worker_frame; rewrite ?Est, ?Epe, ?Em; try done; try apply Hi; [| |by apply Hk, Hi].
  - pose proof (iv_one _ Hi) as H1. unfold one_destroyer in *. cbn.
    destruct (s_owned s), (s_client s); try done; by rewrite ?(not_destroying _ (fun _ => false) true Hx).
  - unfold client_ref. cbn. by rewrite (not_destroying _ (fun _ => true) false Hx), (not_destroying _ (fun _ => true) false Hy).
Qed.

(** A callback that returns an error: the thread destroys the identifier. *)
Lemma destroy_begins m' ev e s :
  inv s -> s_worker s = W_cb ev e -> same_works (s_mem s) m' -> m_id m' = m_id (s_mem s) ->
  s_owned s = true -> is_idle (s_client s) = true -> inv (disown (upd_worker m' (W_destroy D_wait e) s)).
Proof.
  intros Hi Ew (El & Ewl & Ef & Eq & Er) Em Ho Hc. destruct (s_client s) as [r| | | | | | | |] eqn:Ec; try done.
  pose proof (iv_drop _ Hi) as Hd. rewrite stage_owned in Hd by done.
  destruct Hi as [B1 B2 B3 B4 B5 B6 B6' B7 B8 B9]. rewrite stage_owned in B3 by done.
  constructor; unfold client_ref, one_destroyer, pending, queue_ok, stage in *; cbn in *;
    rewrite ?Ec, ?Ew, ?Ho, ?Eq, ?El, ?Em in *; try done.
  by apply conf_stage.
Qed.

(** The thread is about to give up the reference of an event. *)
Lemma deref_extra s e :
  inv s -> s_worker s = W_deref e -> inv_extra 1 (upd_worker (s_mem s) (if e then W_idle else W_loop) s).
Proof.
  intros [B1 B2 B3 B4 B5 B6 B6' B7 B8 B9] Ew.
  constructor; unfold client_ref, one_destroyer, pending, queue_ok, stage in *; cbn in *; rewrite ?Ew in *; cbn in *;
    destruct e; try done; cbn in *; try lia; naive_solver.
Qed.

Lemma worker_good i s :
  inv s -> allowed (L_worker i) s = true -> good (fun s => inv s \/ dead s) (run_step (L_worker i) s).
Proof.
  intros Hi Ha. pose proof (iv_conf _ Hi) as Hc. pose proof (iv_works _ Hi) as Hw. pose proof (iv_drop _ Hi) as Hd.
  pose proof (iv_worker _ Hi) as Hk.
  destruct (s_worker s) eqn:Ew.
  - cbn. by rewrite Ew.
  - eapply good_mono; [|by apply take_good]. auto.
  - cbn. rewrite Ew. cbn. rewrite on_id_live by (by eapply iv_live). section.
    + left. assert (3 <= stage s)%nat as Hg by (apply Nat.leb_le; congruence).
      unfold pending in Hc. rewrite Ew in Hc. cbn in Hc. destruct (conf_drop _ _ _ _ _ _ _ _ Hg Hc) as [Hc' E].
      eapply handler_frame; [done|by right|done|done|done|done|done|by rewrite <- E|done].
    + left. by apply (worker_moves _ _ _ _ Hi Ew).
  - cbn. rewrite Ew. cbn. pose proof (process_good i ev empty s Hi Ew) as H.
    destruct (process_event _ _ _ _) as [[m w]| |]; cbn in *; try done. by left.
  - cbn. rewrite Ew. cbn. rewrite on_id_live by (by eapply iv_live). cbn. left. by apply (worker_moves _ _ _ _ Hi Ew).
  - cbn. rewrite Ew. cbn. rewrite on_id_live by (by eapply iv_live). cbn [mbind outcome_bind obind].
    set (m := if copies ev then _ else _).
    assert (same_works (s_mem s) m /\ m_id m = m_id (s_mem s)) as [Hs Em] by (unfold m; by destruct (copies ev)).
    destruct (i_ret i =? 0) eqn:Er; cbn.
    + left. apply (worker_moves _ _ _ _ Hi Ew); try done. by intros (? & ? & ? & _ & ?).
    + cbn in Ha. rewrite Ew, Er in Ha. cbn in Ha. bool_to_prop. left. by apply (destroy_begins _ ev empty).
  - cbn. rewrite Ew. cbn. left. apply (worker_moves _ _ _ _ Hi Ew); try done; by destruct (truthy _).
  - cbn. rewrite Ew. cbn. rewrite on_id_live by (by eapply iv_live). cbn. left.
    apply (worker_moves _ _ _ _ Hi Ew); try done. by intros (? & ? & ? & _ & ?).
  - eapply good_mono; [|by eapply worker_destroy_good]. auto.
  - cbn. rewrite Ew. cbn [cm_work_handler].
    pose proof (release_good _ (deref_extra s empty Hi Ew)) as H. cbn [upd_worker s_mem] in H.
    destruct (iwcm_deref_id _) as [[m last]| |]; cbn in *; try done. destruct last, empty; cbn in *; auto.
    discriminate (dd_worker _ H).
Qed.

Lemma client_good i s : inv s -> good (fun s => inv s \/ dead s) (client_step i s).
Proof.
  intros Hi. destruct (s_client s) as [r|b pc|pc|pc|pc|a pc|pc| |] eqn:Ec.
  - unfold client_step. by rewrite Ec.
  - eapply good_mono; [|by eapply listen_good]. auto.
  - eapply good_mono; [|by eapply connect_good]. auto.
  - eapply good_mono; [|by eapply accept_good]. auto.
  - unfold client_step. rewrite Ec. pose proof (reject_good pc i s Hi Ec) as H.
    destruct (iw_cm_reject _ _ _) as [[m r]| |]; cbn in *; auto.
  - unfold client_step. rewrite Ec. pose proof (disconnect_good a pc s Hi Ec) as H.
    destruct (iw_cm_disconnect _ _ _) as [[m r]| |]; cbn in *; auto.
  - by eapply client_destroy_good.
  - unfold client_step. rewrite Ec. destruct (s_worker s) eqn:Ew; cbn; try done. left.
    destruct Hi as [B1 B2 B3 B4 B5 B6 B6' B7 B8 B9].
    constructor; unfold stage, client_ref, one_destroyer, pending in *; cbn in *; rewrite ?Ec, ?Ew in *; try done.
    destruct (s_owned s); [done|]. eapply conf_destroying; [done|done|]. split; [|by intros [? [=]]].
    intros Ep. edestruct destroying_not_listen; [exact B3|by intros q' [=]|done].
  - unfold client_step. by rewrite Ec.
Qed.

Lemma dead_good l s : dead s -> allowed l s = true -> good dead (run_step l s).
Proof.
  intros [D1 D2 D3 D4 D5 D6 D7] Ha. destruct l; cbn in *; rewrite ?D7, ?D6 in *; try done.
  - unfold client_step. destruct (s_client s) eqn:Ec; try done. rewrite D5. cbn. by constructor.
  - destruct D2 as (_ & _ & ->). done.
  - by rewrite D5.
Qed.

Lemma step_good l s : inv s \/ dead s -> allowed l s = true -> good (fun s => inv s \/ dead s) (run_step l s).
Proof.
  intros [Hi|Hd] Ha; [|eapply good_mono; [|by apply dead_good]; auto].
  destruct l.
  - eapply good_mono; [|by apply start_good]. auto.
  - by apply client_good.
  - eapply good_mono; [|by apply event_good]. auto.
  - by apply unref_good.
  - eapply good_mono; [|by apply dispatch_good]. auto.
  - by apply worker_good.
Qed.

Lemma created_inv x : inv (init_sys (iw_create_cm_id x)).
Proof.
  constructor; try done; cbn; [by apply cf_idle; [left|lia]|]. split_and!; auto. naive_solver.
Qed.

(** The identifier offered to the client for a request. *)
Lemma offered_child i ev listen m ev' :
  cm_conn_req_handler i ev listen = Ok (RQ_offered m ev') ->
  exists x, m = set_fresh 3 (set_mid (set_works [] [2; 1; 0]%nat (set_state CONN_RECV (m_id (iw_create_cm_id x)))) (iw_create_cm_id x)).
Proof.
  unfold cm_conn_req_handler. destruct (negb _); [done|]. destruct (negb _); [done|].
  destruct (request_child _ _ _) as [m1 ev1] eqn:Em.
  assert (exists x, m1 = set_mid (set_state CONN_RECV (m_id (iw_create_cm_id x))) (iw_create_cm_id x)) as [x ->].
  { unfold request_child in Em. destruct (i_remote i); simplify_eq; by eexists. }
  destruct (negb _); [done|]. unfold alloc_work_entries. rewrite on_id_live by done. cbn [work_free_list set_state set_mid m_id iw_create_cm_id].
  pose proof (alloc_works_spec (i_avail i) 3 (set_mid (set_state CONN_RECV (m_id (iw_create_cm_id x))) (iw_create_cm_id x)) ltac:(lia)) as Ha.
  cbn [mbind outcome_bind obind]. destruct (alloc_loop _ _ _) as [m2 ret].
  destruct Ha as (fl & n & -> & _ & [(-> & -> & ->)|[-> ->]]); [|done]. cbn. intros [= <- <-]. by exists x.
Qed.

Lemma offered_inv i ev listen m ev' : cm_conn_req_handler i ev listen = Ok (RQ_offered m ev') -> inv (init_sys m).
Proof.
  intros H. destruct (offered_child _ _ _ _ _ H) as [x ->].
  constructor; try done; cbn. all: first [by apply cf_recv; [|lia]|split_and!; [lia|auto|done]].
Qed.

Lemma reachable_inv s : reachable s -> inv s \/ dead s.
Proof.
  induction 1 as [s [x|i ev listen m ev' H]|l s s' _ IH Ha Hs].
  - left. apply created_inv.
  - left. by eapply offered_inv.
  - pose proof (step_good l s IH Ha) as H. by rewrite Hs in H.
Qed.
