(* ===== verification/IwcmBooks.v ===== *)
(** * The iWARP connection manager: the accounts

    In every run the work elements of an identifier are distinct, the references to queue
    pairs taken and given up balance with those held, copies of private data are in the
    list, with the thread of the work queue or of dropped events, and the callbacks the
    client sees follow the life of a connection ([books] of [IwcmSystem]). *)

From Stdlib Require Import ZArith Lia.
From stdpp Require Import base tactics numbers list option.
From S2P Require Import Prelude Outcome Iwcm IwcmSystem IwcmInv.

Local Open Scope Z_scope.

(** ** The accounts *)

#[local] Arguments qp_refs : simpl never.
#[local] Arguments dropped_copies : simpl never.
#[local] Arguments callbacks : simpl never.

Lemma zsum_app l l' : zsum (l ++ l') = zsum l + zsum l'.
Proof. induction l as [|z l IH]; cbn; [done|]. rewrite IH. lia. Qed.

Lemma qp_refs_app x l l' : qp_refs x (l ++ l') = qp_refs x l + qp_refs x l'.
Proof. unfold qp_refs. by rewrite map_app, zsum_app. Qed.

Lemma dropped_app l l' : dropped_copies (l ++ l') = dropped_copies l + dropped_copies l'.
Proof. unfold dropped_copies. by rewrite map_app, zsum_app. Qed.

Lemma callbacks_app l l' : callbacks (l ++ l') = callbacks l ++ callbacks l'.
Proof. unfold callbacks. by rewrite omap_app. Qed.

Lemma qp_refs_nil x : qp_refs x [] = 0.
Proof. done. Qed.

Lemma rem_refs x q : qp_refs x (rem_qp_ref q) = - holds x q.
Proof. unfold qp_refs. destruct q; cbn; lia. Qed.

Lemma rem_drops q : dropped_copies (rem_qp_ref q) = 0.
Proof. by destruct q. Qed.

Lemma rem_callbacks q : callbacks (rem_qp_ref q) = [].
Proof. by destruct q. Qed.

Lemma view_frame p p' st st' w w' l :
  view_ok p st w l ->
  (st' = LISTEN \/ p' = P_none \/ w' = true -> st = LISTEN \/ p = P_none \/ w = true) ->
  (st' = ESTABLISHED \/ st' = CLOSING -> st = ESTABLISHED \/ st = CLOSING) ->
  view_ok p' st' w' l.
Proof. intros (V1 & V2 & V3) H1 H2. split_and!; auto. Qed.

(** A section of the client adds [os] to the trace. *)
Lemma client_books m' c' os s :
  books s -> m_out m' = m_out (s_mem s) ++ os -> m_pdata m' = m_pdata (s_mem s) ->
  work_list (m_id m') = work_list (m_id (s_mem s)) -> work_free_list (m_id m') = work_free_list (m_id (s_mem s)) ->
  m_fresh m' = m_fresh (s_mem s) ->
  callbacks os = [] -> dropped_copies os = 0 ->
  (forall x, holds x (qp (m_id (s_mem s))) + holds x (client_qp (s_client s)) + qp_refs x os =
             holds x (qp (m_id m')) + holds x (client_qp c')) ->
  (state (m_id m') = LISTEN \/ s_prov s = P_none \/ f_connect_wait (m_id m') = true ->
   state (m_id (s_mem s)) = LISTEN \/ s_prov s = P_none \/ f_connect_wait (m_id (s_mem s)) = true) ->
  (state (m_id m') = ESTABLISHED \/ state (m_id m') = CLOSING ->
   state (m_id (s_mem s)) = ESTABLISHED \/ state (m_id (s_mem s)) = CLOSING) ->
  books (upd_client m' c' s).
Proof.
  intros [K1 K2 K3 K4 K5] Eo Ep Ew Ef En Hc Hd Hq Hv1 Hv2. constructor; cbn.
  - by rewrite Ew, Ef.
  - by rewrite Ew, Ef, En.
  - intros x. specialize (K3 x). specialize (Hq x). rewrite Eo, qp_refs_app. lia.
  - rewrite Ep, Eo, Ew, dropped_app, Hd. lia.
  - rewrite Eo, callbacks_app, Hc, app_nil_r. by eapply view_frame.
Qed.

Ltac book_solve s Hc :=
  try done; cbn; rewrite ?rem_callbacks, ?rem_drops; try done;
  try (let y := fresh in intros y; cbn; rewrite ?rem_refs; unfold qp_refs; cbn);
  conf_cases s Hc; cbn; try done; try lia; naive_solver lia.

Lemma reject_books pc i s :
  inv s -> books s -> s_client s = C_reject pc ->
  good (fun '(m, r) => books (upd_client m (finish C_reject r) s)) (iw_cm_reject pc i (s_mem s)).
Proof.
  intros Hi Hb Ec. revert Hi Ec. call_start Hi Ec Ho Hc Hw.
  destruct pc; cbn [iw_cm_reject]; section.
  - eapply (client_books _ _ []); rewrite ?Ec; try by rewrite ?app_nil_r. 
    all: book_solve s Hc.
  - eapply (client_books _ _ []); rewrite ?Ec; try by rewrite ?app_nil_r. 
    all: book_solve s Hc.
  - eapply (client_books _ _ _); rewrite ?Ec; try done. 
    all: book_solve s Hc.
Qed.

(** Closes the books of a section: the trace grows by [os], the rest follows from the
    configuration before. *)
Ltac books_by os s Ec Hc :=
  eapply (client_books _ _ os); rewrite ?Ec; try (by rewrite ?app_nil_r); book_solve s Hc.

Lemma starts_books p' m' c' s :
  inv s -> s_owned s = true -> same_works (s_mem s) m' ->
  books (upd_client m' c' s) -> s_prov s = P_none -> (p' = P_listening -> state (m_id m') = LISTEN) ->
  (p' <> P_listening -> f_connect_wait (m_id m') = true) ->
  good books (starts p' (upd_client m' c' s)).
Proof.
  intros Hi Ho (S1 & _ & _ & _ & S5) [K1 K2 K3 K4 K5] Ep Hl Hw. unfold starts, add_ref, on_id. cbn.
  rewrite S1, (iv_live _ Hi), S5. pose proof (iv_ref _ Hi) as Er. unfold client_ref in Er. rewrite Ho in Er. cbn in Er.
  destruct (_ <=? 0) eqn:E0; [unfold b2z in *; bool_to_prop; repeat case_match; lia|]. cbn. constructor; cbn; try done.
  eapply view_frame; [done| |by auto]. cbn. by auto.
Qed.

Lemma accept_books pc i s : inv s -> books s -> s_client s = C_accept pc -> good books (client_step i s).
Proof.
  intros Hi Hb Ec. revert Hi Ec. call_start Hi Ec Ho Hc Hw. unfold client_step. rewrite Ec.
  destruct pc; cbn [iw_cm_accept]; section.
  - books_by [O_add_ref z] s Ec Hc.
  - books_by (@nil output) s Ec Hc.
  - books_by (@nil output) s Ec Hc.
  - assert (s_prov s = P_none /\ f_connect_wait (m_id (s_mem s)) = true) as [Ep Ew] by (clear Hw; conf_cases s Hc).
    apply starts_books; try done. books_by [O_accept] s Ec Hc.
  - books_by [O_accept] s Ec Hc.
  - books_by (@nil output) s Ec Hc.
  - conf_cases s Hc.
  - books_by (@nil output) s Ec Hc.
  - books_by (rem_qp_ref q) s Ec Hc.
Qed.

Lemma reverse_rev_eq {A} (l : list A) : reverse l = rev l.
Proof. by rewrite rev_alt. Qed.

Lemma alloc_books avail count s :
  inv s -> books s -> 0 <= count ->
  work_list (m_id (s_mem s)) = [] -> work_free_list (m_id (s_mem s)) = [] ->
  good (fun '(m, ret) => forall c', client_qp c' = client_qp (s_client s) -> books (upd_client m c' s))
       (alloc_work_entries avail count (s_mem s)).
Proof.
  intros Hi [K1 K2 K3 K4 K5] Hc Ewl Efl. unfold alloc_work_entries. rewrite on_id_live by (by eapply iv_live). rewrite Efl. cbn [good].
  pose proof (alloc_works_spec avail count (s_mem s) Hc) as Ha.
  destruct (alloc_loop _ _ _) as [m ret]. destruct Ha as (fl & n & -> & Hn & Hr).
  intros c' Ec. rewrite Ewl, Efl, app_nil_r in *. constructor; cbn; rewrite ?Ewl; try done.
  - destruct Hr as [(_ & -> & _)|[_ ->]]; [|constructor]. rewrite <- reverse_rev_eq, reverse_Permutation. apply NoDup_seq.
  - destruct Hr as [(_ & -> & ->)|[_ ->]]; [|constructor]. apply Forall_rev, Forall_seq. lia.
  - intros x. rewrite Ec. apply K3.
Qed.

Lemma works_none s : (length (work_list (m_id (s_mem s))) + length (work_free_list (m_id (s_mem s))) = 0)%nat ->
  work_list (m_id (s_mem s)) = [] /\ work_free_list (m_id (s_mem s)) = [].
Proof. by destruct (work_list _), (work_free_list _). Qed.

Lemma connect_books pc i s : inv s -> books s -> s_client s = C_connect pc -> good books (client_step i s).
Proof.
  intros Hi Hb Ec. revert Hi Ec. call_start Hi Ec Ho Hc Hw. unfold client_step. rewrite Ec.
  destruct pc; cbn [iw_cm_connect].
  - destruct (works_none s) as [E1 E2]; [by destruct Hw as (_ & _ & ->)|].
    pose proof (alloc_books (i_avail i) 4 s Hi Hb ltac:(lia) E1 E2) as H. rewrite Ec in H.
    destruct (alloc_work_entries _ _ _) as [[m ret]| |]; cbn in *; try done. destruct (ret =? 0); by apply H.
  - section; [books_by [O_add_ref z] s Ec Hc|books_by (@nil output) s Ec Hc..].
  - rewrite on_id_live by (by eapply iv_live). destruct (iw_cm_map _ _ _) as [x ret]. section.
    + assert (s_prov s = P_none /\ f_connect_wait (m_id (s_mem s)) = true) as [Ep Ew] by (clear Hw; conf_cases s Hc).
      apply starts_books; try done. books_by [O_connect] s Ec Hc.
    + books_by [O_connect] s Ec Hc.
    + books_by (@nil output) s Ec Hc.
  - section. books_by (@nil output) s Ec Hc.
  - section. books_by (rem_qp_ref q) s Ec Hc.
Qed.

Lemma listen_books b pc i s : inv s -> books s -> s_client s = C_listen b pc -> good books (client_step i s).
Proof.
  intros Hi Hb Ec. revert Hi Ec. call_start Hi Ec Ho Hc Hw. unfold client_step. rewrite Ec.
  destruct pc; cbn [iw_cm_listen].
  - destruct Hw as (_ & _ & Hn & Hbl). destruct (works_none s Hn) as [E1 E2].
    assert (0 <= listen_backlog b) as Hl by (unfold listen_backlog, default_backlog; case_cond; bool_to_prop; lia).
    pose proof (alloc_books (i_avail i) _ s Hi Hb Hl E1 E2) as H. rewrite Ec in H.
    destruct (alloc_work_entries _ _ _) as [[m ret]| |]; cbn in *; try done. destruct (ret =? 0); by apply H.
  - section; books_by (@nil output) s Ec Hc.
  - rewrite on_id_live by (by eapply iv_live). destruct (iw_cm_map _ _ _) as [x ret]. section.
    + assert (s_prov s = P_none /\ state (m_id (s_mem s)) = LISTEN) as [Ep Ew] by (clear Hw; conf_cases s Hc).
      apply starts_books; try done. books_by [O_create_listen (listen_backlog b)] s Ec Hc.
    + books_by [O_create_listen (listen_backlog b)] s Ec Hc.
    + books_by (@nil output) s Ec Hc.
  - section. books_by (@nil output) s Ec Hc.
Qed.

Lemma disconnect_books a pc s :
  inv s -> books s -> s_client s = C_disconnect a pc ->
  good (fun '(m, r) => books (upd_client m (finish (C_disconnect a) r) s)) (iw_cm_disconnect a pc (s_mem s)).
Proof.
  intros Hi Hb Ec. revert Hi Ec. call_start Hi Ec Ho Hc Hw.
  destruct pc as [| |q']; cbn [iw_cm_disconnect].
  - section; [done|]. books_by (@nil output) s Ec Hc.
  - pose proof (disconnect_good a DC_lock s Hi Ec) as Hg. cbn [iw_cm_disconnect] in Hg.
    rewrite on_id_live in Hg |- * by (by eapply iv_live). section; try done; books_by (@nil output) s Ec Hc.
  - section. books_by [O_modify_qp q' a] s Ec Hc.
Qed.

Lemma release_books s m last :
  books s -> iwcm_deref_id (s_mem s) = Ok (m, last) -> books (with_mem m s).
Proof.
  intros [K1 K2 K3 K4 K5]. unfold iwcm_deref_id, on_id. destruct (m_live _); [|done]. destruct (_ <=? 0); [done|].
  destruct (_ =? 0).
  - destruct (work_list _) eqn:E; [|done]. intros [= <- <-]. cbn in *. constructor; cbn; rewrite ?E in *; try done; [constructor..| | |].
    + intros x. rewrite qp_refs_app. cbn. rewrite K3. unfold qp_refs. cbn. lia.
    + rewrite dropped_app. cbn in *. unfold dropped_copies at 2. cbn. lia.
    + rewrite callbacks_app. cbn. by rewrite app_nil_r.
  - intros [= <- <-]. by constructor.
Qed.

(** The sections of [destroy_cm_id] before the last, whoever runs them. *)
Record same_books (m m' : mem) (q q' : option Z) : Prop := {
  sb_out : exists os, m_out m' = m_out m ++ os /\ callbacks os = [] /\ dropped_copies os = 0 /\
             forall x, holds x (qp (m_id m)) + holds x q + qp_refs x os = holds x (qp (m_id m')) + holds x q';
  sb_pdata : m_pdata m' = m_pdata m;
  sb_works : work_list (m_id m') = work_list (m_id m) /\ work_free_list (m_id m') = work_free_list (m_id m) /\ m_fresh m' = m_fresh m;
  sb_state : (state (m_id m') = state (m_id m) \/ state (m_id m') = DESTROYING) /\ f_connect_wait (m_id m') = f_connect_wait (m_id m)
}.

Lemma destroy_section pc pc' m m' :
  destroy_cm_id pc m = Ok (m', inl pc') -> same_books m m' (teardown_qp pc) (teardown_qp pc').
Proof.
  destruct pc as [| | |t q|q]; cbn [destroy_cm_id]; unfold on_id; destruct (m_live m); try done.
  - destruct (f_connect_wait _); [done|]. intros [= <- <-]. constructor; auto.
    exists []. rewrite app_nil_r. split_and!; try done. intros x. rewrite qp_refs_nil. cbn. lia.
  - intros [= <- <-]. constructor; auto. exists []. rewrite app_nil_r. split_and!; try done. intros x. rewrite qp_refs_nil. cbn. lia.
  - intros H. assert (m' = set_mid (set_state DESTROYING (set_qp None (m_id m))) m /\ teardown_qp pc' = qp (m_id m)) as [-> E].
    { destruct (state (m_id m)) eqn:Es; simplify_eq; try done. by destruct (qp (m_id m)). }
    constructor; auto. exists []. rewrite app_nil_r. split_and!; try done. intros x. rewrite E, qp_refs_nil. cbn. lia.
  - intros [= <- <-]. constructor; auto. exists [teardown_call t]. split_and!; try (by destruct t). intros x. unfold qp_refs. destruct t; cbn; lia.
  - destruct (iwcm_deref_id _) as [[]| |]; done.
Qed.

(** Such a section keeps the books, whoever's local variable [q] turns into [q']. *)
Lemma same_books_keep s s' q q' :
  books s -> same_books (s_mem s) (s_mem s') q q' ->
  (forall x, holds x (client_qp (s_client s')) + holds x (worker_qp (s_worker s')) + holds x q =
             holds x (client_qp (s_client s)) + holds x (worker_qp (s_worker s)) + holds x q') ->
  held_copies (s_worker s') = held_copies (s_worker s) -> next_callback (s_worker s') = next_callback (s_worker s) ->
  s_prov s' = s_prov s \/ s_prov s' = P_closed -> books s'.
Proof.
  intros [K1 K2 K3 K4 K5] [(os & Eo & Hcb & Hd & Hq) Ep (Ew & Ef & En) [H1 Hw]] Hl Hh Hn Hp. constructor.
  - by rewrite Ew, Ef.
  - by rewrite Ew, Ef, En.
  - intros x. specialize (Hq x). specialize (K3 x). specialize (Hl x). rewrite Eo, qp_refs_app. lia.
  - rewrite Eo, dropped_app, Hd, Ep, Ew, Hh. lia.
  - rewrite Eo, callbacks_app, Hcb, app_nil_r, Hn. eapply view_frame; [done| |]; rewrite ?Hw; destruct H1 as [H1|H1], Hp as [Hp|Hp]; rewrite ?H1, ?Hp; naive_solver.
Qed.

(** The last section of [destroy_cm_id]. *)
Lemma destroy_last q m m' last :
  destroy_cm_id (D_put q) m = Ok (m', inr last) ->
  exists os, iwcm_deref_id (out os m) = Ok (m', last) /\ same_books m (out os m) q None.
Proof.
  cbn. unfold on_id. destruct (m_live m); [|done]. set (os := _ ++ _).
  destruct (iwcm_deref_id (out os m)) as [[m1 l1]| |] eqn:E; cbn; try done. intros [= <- <-]. exists os. split; [done|].
  constructor; auto. exists os. split_and!; [done| | |].
  - unfold os. rewrite callbacks_app, rem_callbacks. by destruct (mapped _).
  - unfold os. rewrite dropped_app, rem_drops. by destruct (mapped _).
  - intros x. unfold os. rewrite qp_refs_app, rem_refs. unfold qp_refs. destruct (mapped _); cbn; lia.
Qed.

Lemma destroy_not_put pc m m' last : destroy_cm_id pc m = Ok (m', inr last) -> exists q, pc = D_put q.
Proof.
  destruct pc as [| | |t q|q]; cbn; unfold on_id; destruct (m_live m); try done; [by destruct (f_connect_wait _)| |by exists q].
  by destruct (state _).
Qed.

Lemma client_destroy_books pc i s s' : books s -> s_client s = C_destroy pc -> client_step i s = Ok s' -> books s'.
Proof.
  intros Hb Ec. unfold client_step. rewrite Ec.
  destruct (destroy_cm_id pc (s_mem s)) as [[m [pc'|last]]| |] eqn:Ed; cbn; try done; intros [= <-].
  - eapply same_books_keep; [done| | | | |]; try (destruct pc as [| | |[]|]; cbn; by auto).
    + replace (s_mem (upd_client _ _ _)) with m by (by destruct pc as [| | |[]|]). by eapply destroy_section.
    + intros x. rewrite Ec. destruct pc as [| | |[]|]; cbn; lia.
  - destruct (destroy_not_put _ _ _ _ Ed) as [q ->]. destruct (destroy_last _ _ _ _ Ed) as (os & Er & Hs).
    assert (books (upd_client (out os (s_mem s)) (if last then C_gone else C_flush) s)) as Hb'.
    { eapply same_books_keep; [done|exact Hs| | | |]; cbn; auto. intros x. rewrite Ec. destruct last; cbn; lia. }
    pose proof (release_books _ m last Hb' Er) as H. by destruct last.
Qed.

(** A section of the thread adds [os] to the trace. *)
Lemma worker_books_frame m' w' os cl s :
  books s -> m_out m' = m_out (s_mem s) ++ os ->
  work_list (m_id m') = work_list (m_id (s_mem s)) -> work_free_list (m_id m') = work_free_list (m_id (s_mem s)) ->
  m_fresh m' = m_fresh (s_mem s) ->
  m_pdata m' = m_pdata (s_mem s) + held_copies w' - held_copies (s_worker s) + dropped_copies os ->
  (forall x, holds x (qp (m_id (s_mem s))) + holds x (worker_qp (s_worker s)) + qp_refs x os =
             holds x (qp (m_id m')) + holds x (worker_qp w')) ->
  callbacks os ++ next_callback w' = cl ->
  view_ok (s_prov s) (state (m_id m')) (f_connect_wait (m_id m')) (callbacks (m_out (s_mem s)) ++ cl) ->
  books (upd_worker m' w' s).
Proof.
  intros [K1 K2 K3 K4 K5] Eo Ew Ef En Ep Hq <- Hv. constructor; cbn.
  - by rewrite Ew, Ef.
  - by rewrite Ew, Ef, En.
  - intros x. specialize (K3 x). specialize (Hq x). rewrite Eo, qp_refs_app. lia.
  - rewrite Ep, Eo, Ew, dropped_app. lia.
  - by rewrite Eo, callbacks_app, <- app_assoc.
Qed.

Ltac worker_books_by os Ew :=
  eapply (worker_books_frame _ _ os); [done|cbn; by rewrite ?app_nil_r|done|done|done| | |reflexivity|]; rewrite ?Ew; cbn.

Lemma setup_waits c g p ev l st w q : conf c g p (ev :: l) st w q -> is_setup ev = true -> w = true.
Proof.
  intros H Hs. destruct w; [done|]. rewrite (conf_no_setup _ _ _ _ _ _ H ev) in Hs; [done|]. by left.
Qed.

Lemma take_books i s s' : books s -> s_worker s = W_loop -> run_step (L_worker i) s = Ok s' -> books s'.
Proof.
  intros [K1 K2 K3 K4 K5] Ew. cbn. rewrite Ew. cbn. unfold on_id. destruct (m_live _); [|done].
  destruct (work_list (m_id (s_mem s))) as [|[k ev] wl] eqn:El; cbn; intros [= <-].
  - rewrite Ew in *. constructor; cbn; rewrite ?El in *; try done.
  - rewrite Ew in *. constructor; cbn in *; rewrite ?El in *; cbn in *; try done.
    + by rewrite <- Permutation_middle.
    + by rewrite <- Permutation_middle.
    + rewrite K4. lia.
Qed.

Lemma process_books i ev e s m w :
  inv s -> books s -> s_worker s = W_proc ev e -> process_event i ev e (s_mem s) = Ok (m, w) -> books (upd_worker m w s).
Proof.
  intros Hi Hb Ew. pose proof (iv_conf _ Hi) as Hc. unfold pending in Hc. rewrite Ew in Hc. cbn in Hc.
  pose proof (bk_view _ Hb) as Hv. rewrite Ew in Hv. cbn in Hv. rewrite app_nil_r in Hv.
  pose proof (iv_worker _ Hi) as Hk. rewrite Ew in Hk. destruct Hk as (K1 & _).
  unfold process_event. rewrite on_id_live by (by eapply iv_live). destruct (ev_type ev) eqn:Et.
  - assert (copies ev = truthy (ev_private_data_len ev)) as Ecp by (unfold copies; by rewrite Et).
    destruct (cm_conn_req_handler _ _ _) as [[]| |]; cbn; try done; intros [= <- <-].
    3: { apply (worker_books_frame _ _ [O_request ev0] []); rewrite ?Ew, ?app_nil_r; try done; cbn; [rewrite Ecp; unfold dropped_copies; cbn; lia|].
         intros x. unfold qp_refs. cbn. lia. }
    all: rewrite <- Ecp; apply (worker_books_frame _ _ [] []); rewrite ?Ew, ?app_nil_r; destruct (copies ev) eqn:E1; cbn; rewrite ?E1; try done;
      cbn; try (unfold dropped_copies; cbn; lia); intros x; rewrite qp_refs_nil; lia.
  - destruct (conf_reply _ _ _ _ _ _ _ _ Hc Et) as (Es & _). unfold cm_conn_rep_handler. rewrite decide_True by done.
    assert (f_connect_wait (m_id (s_mem s)) = true) as Ewt by (eapply setup_waits; [done|unfold is_setup; by rewrite Et]).
    destruct Hv as (_ & V2 & _). rewrite Es, Ewt in V2.
    destruct (ev_status ev =? 0) eqn:Ez; cbn; intros [= <- <-]; bool_to_prop.
    + worker_books_by (@nil output) Ew.
      * unfold copies; cbn. rewrite Et. unfold dropped_copies. cbn. lia.
      * intros x. rewrite qp_refs_nil. lia.
      * rewrite V2 by auto. cbn. split_and!; [apply cv_ok; by right|by intros [|[|]]|].
        intros _. eexists. split; [|done]. by right.
    + worker_books_by (@nil output) Ew.
      * unfold dropped_copies. cbn. lia.
      * intros x. rewrite qp_refs_nil. lia.
      * rewrite V2 by auto. split_and!; [by apply cv_failed|by intros [|[|]]|by intros []].
  - destruct (conf_established _ _ _ _ _ _ _ _ Hc Et) as (Es & _). unfold cm_conn_est_handler. rewrite decide_True by done.
    assert (f_connect_wait (m_id (s_mem s)) = true) as Ewt by (eapply setup_waits; [done|unfold is_setup; by rewrite Et]).
    destruct Hv as (_ & V2 & _). rewrite Es, Ewt in V2. cbn; intros [= <- <-].
    worker_books_by (@nil output) Ew.
    + unfold dropped_copies. cbn. lia.
    + intros x. rewrite qp_refs_nil. lia.
    + rewrite V2 by auto. cbn. split_and!; [apply cv_ok; by left|by intros [|[|]]|].
      intros _. eexists. split; [|done]. by left.
  - cbn. intros [= <- <-]. unfold cm_disconnect_handler.
    assert (copies ev = false) as Ecp by (unfold copies; by rewrite Et).
    destruct (decide _) as [Es|]; worker_books_by (@nil output) Ew; rewrite ?Ecp; try done.
    all: try (intros x; rewrite qp_refs_nil; cbn; lia). 
    all: rewrite ?app_nil_r; try (unfold dropped_copies; cbn; lia); try done. by eapply view_frame; [done|naive_solver..].
  - assert (copies ev = false) as Ecp by (unfold copies; by rewrite Et).
    destruct (conf_close _ _ _ _ _ _ _ _ Hc Et) as (E1 & Hl & [[Es _]|[Es _]]).
    + destruct Hv as (_ & _ & V3). destruct (V3 Es) as (ev0 & Hok & El).
      assert (cm_close_handler ev (m_id (s_mem s)) = Ok (set_state IDLE (set_qp None (m_id (s_mem s))), Notify ev (qp (m_id (s_mem s))))) as Eh
        by (unfold cm_close_handler; by destruct Es as [-> | ->]).
      rewrite Eh. cbn. intros [= <- <-]. worker_books_by (@nil output) Ew; rewrite ?Ecp.
      * unfold dropped_copies. cbn. lia.
      * intros x. rewrite qp_refs_nil. lia.
      * rewrite El. split_and!; [by apply cv_closed|rewrite E1; by intros [|[|]]|by intros []].
    + assert (cm_close_handler ev (m_id (s_mem s)) = Ok (set_qp None (m_id (s_mem s)), Quiet (qp (m_id (s_mem s))))) as Eh
        by (unfold cm_close_handler; by rewrite Es).
      rewrite Eh. cbn. intros [= <- <-]. worker_books_by (@nil output) Ew; rewrite ?Ecp, ?app_nil_r; try done.
      * unfold dropped_copies. cbn. lia.
      * intros x. rewrite qp_refs_nil. lia.
Qed.

Lemma worker_books i s s' : inv s -> books s -> run_step (L_worker i) s = Ok s' -> books s'.
Proof.
  intros Hi Hb. destruct (s_worker s) eqn:Ew; [|by apply take_books|..]; cbn; rewrite Ew; cbn; try done;
    try (rewrite on_id_live by (by eapply iv_live)); cbn;
    pose proof (bk_view _ Hb) as Hv; rewrite Ew in Hv; cbn in Hv; rewrite ?app_nil_r in Hv.
  - destruct (f_drop_events _); cbn; intros [= <-].
    + worker_books_by [O_drop ev] Ew; rewrite ?app_nil_r; try done; [unfold dropped_copies; cbn; lia|].
      intros x. unfold qp_refs. cbn. lia.
    + worker_books_by (@nil output) Ew; rewrite ?app_nil_r; try done; [unfold dropped_copies; cbn; lia|].
      intros x. rewrite qp_refs_nil. lia.
  - destruct (process_event _ _ _ _) as [[m w]| |] eqn:Ep; cbn; try done. intros [= <-]. by eapply process_books.
  - intros [= <-]. eapply (worker_books_frame _ _ (rem_qp_ref q ++ [O_callback ev]) [ev]); [done|done..| | | |]; rewrite ?Ew; cbn.
    + rewrite dropped_app, rem_drops. unfold dropped_copies. cbn. lia.
    + intros x. rewrite qp_refs_app, rem_refs. unfold qp_refs. cbn. lia.
    + by rewrite callbacks_app, rem_callbacks.
    + done.
  - intros H.
    assert (exists m w, (s' = upd_worker m w s \/ s' = disown (upd_worker m w s)) /\ m_id m = m_id (s_mem s) /\ m_out m = m_out (s_mem s) /\
      m_fresh m = m_fresh (s_mem s) /\ m_pdata m = m_pdata (s_mem s) - b2z (copies ev) /\
      (w = W_deref empty \/ w = W_destroy D_wait empty)) as (m & w & Hs & Em & Eo & En & Ep & Hw).
    { destruct (i_ret i =? 0); injection H as <-;
        eexists (if copies ev then _ else _), _; (split; [by auto|]); destruct (copies ev); cbn; split_and!; auto; lia. }
    assert (books (upd_worker m w s)) as Hbb.
    { apply (worker_books_frame _ _ [] []); rewrite ?Em, ?Ew, ?Eo, ?app_nil_r; try done; destruct Hw as [-> | ->]; cbn; try done;
        try (unfold dropped_copies; cbn; lia); intros x; rewrite qp_refs_nil; lia. }
    destruct Hs as [-> | ->]; [done|]. by destruct Hbb; constructor.
  - intros [= <-]. apply (worker_books_frame _ _ [] []); rewrite ?Ew, ?app_nil_r; destruct (truthy (ev_private_data_len ev)) eqn:E1; cbn; rewrite ?E1; try done;
      try (unfold dropped_copies; cbn; lia); intros x; rewrite qp_refs_nil; lia.
  - intros [= <-]. eapply (worker_books_frame _ _ (rem_qp_ref q) []); [done|done..| | | |]; rewrite ?Ew, ?app_nil_r; cbn; try done.
    + rewrite rem_drops. lia.
    + intros x. rewrite rem_refs. lia.
    + by rewrite rem_callbacks.
  - destruct (destroy_cm_id pc (s_mem s)) as [[m [pc'|last]]| |] eqn:Ed; cbn; try done; intros [= <-].
    + eapply same_books_keep; [done|by eapply destroy_section|..]; rewrite ?Ew; cbn; auto; intros x; lia.
    + destruct (destroy_not_put _ _ _ _ Ed) as [q ->]. destruct (destroy_last _ _ _ _ Ed) as (os & Er & Hs).
      assert (books (upd_worker (out os (s_mem s)) (W_deref empty) s)) as Hb'.
      { eapply same_books_keep; [done|exact Hs|..]; rewrite ?Ew; cbn; auto; intros x; lia. }
      exact (release_books _ m last Hb' Er).
  - destruct (iwcm_deref_id _) as [[m last]| |] eqn:Er; cbn; try done. intros [= <-].
    assert (books (upd_worker (s_mem s) (if last || empty then W_idle else W_loop) s)) as Hb'.
    { destruct (last || empty); worker_books_by (@nil output) Ew; rewrite ?app_nil_r; try done; try (unfold dropped_copies; cbn; lia);
        intros x; rewrite qp_refs_nil; lia. }
    exact (release_books _ m last Hb' Er).
Qed.

Lemma client_step_books i s s' : inv s -> books s -> client_step i s = Ok s' -> books s'.
Proof.
  intros Hi Hb Hs. assert (good books (client_step i s) -> books s') as Hg by (by rewrite Hs).
  destruct (s_client s) as [r|b pc|pc|pc|pc|a pc|pc| |] eqn:Ec.
  - unfold client_step in Hs. by rewrite Ec in Hs.
  - apply Hg. by eapply listen_books.
  - apply Hg. by eapply connect_books.
  - apply Hg. by eapply accept_books.
  - unfold client_step in Hs. rewrite Ec in Hs. pose proof (reject_books pc i s Hi Hb Ec) as H.
    destruct (iw_cm_reject _ _ _) as [[m r]| |]; cbn in *; by simplify_eq.
  - unfold client_step in Hs. rewrite Ec in Hs. pose proof (disconnect_books a pc s Hi Hb Ec) as H.
    destruct (iw_cm_disconnect _ _ _) as [[m r]| |]; cbn in *; by simplify_eq.
  - by eapply client_destroy_books.
  - unfold client_step in Hs. rewrite Ec in Hs. destruct (s_worker s) eqn:Ew; try done. injection Hs as <-.
    destruct Hb as [K1 K2 K3 K4 K5]. rewrite Ec, Ew in *. constructor; cbn; rewrite ?Ew; done.
  - unfold client_step in Hs. by rewrite Ec in Hs.
Qed.

Lemma event_books ev copied s s' :
  inv s -> books s -> allowed (L_event ev copied) s = true -> run_step (L_event ev copied) s = Ok s' -> books s'.
Proof.
  intros Hi [K1 K2 K3 K4 K5] Ha. cbn in Ha. bool_to_prop. rename select (bool_decide _ = true) into Hn.
  apply bool_decide_eq_true in Hn as [p' Hn]. cbn [run_step]. unfold cm_event_handler, get_work. rewrite on_id_live by (by eapply iv_live).
  destruct (work_free_list (m_id (s_mem s))) as [|k fl] eqn:Ef; cbn.
  - intros [= <-]. by constructor; cbn; rewrite ?Ef.
  - destruct (copies ev && negb copied) eqn:Eg; cbn.
    + intros [= <-]. by constructor.
    + rewrite Hn. cbn. intros [= <-]. set (m1 := if copies ev then _ else _).
      assert (m_fresh m1 = m_fresh (s_mem s) /\ m_out m1 = m_out (s_mem s) /\ m_pdata m1 = m_pdata (s_mem s) + b2z (copies ev))
        as (M1 & M2 & M3) by (unfold m1; destruct (copies ev); cbn; split_and!; auto; lia).
      set (m2 := match work_list _ with [] => _ | _ => _ end).
      assert (m_fresh m2 = m_fresh m1 /\ m_out m2 = m_out m1 /\ m_pdata m2 = m_pdata m1) as (N1 & N2 & N3)
        by (unfold m2; by destruct (work_list _)).
      constructor; cbn; rewrite ?N1, ?N2, ?N3, ?M1, ?M2, ?M3; try done.
      * rewrite map_app, <- app_assoc. done.
      * rewrite map_app, <- app_assoc. done.
      * rewrite map_app, zsum_app. cbn. lia.
      * eapply view_frame; [done| |by auto]. intros [?|[->|?]]; auto.
        unfold prov_next in Hn. destruct (s_prov s), (ev_type ev); try done; by destruct (_ =? 0).
Qed.

Lemma step_books l s s' :
  inv s \/ dead s -> books s -> allowed l s = true -> run_step l s = Ok s' -> books s'.
Proof.
  intros [Hi|Hd] Hb Ha Hs.
  - destruct l.
    + injection Hs as <-. pose proof (iv_one _ Hi) as H1. cbn in Ha. bool_to_prop.
      destruct (s_client s) eqn:Ec; try done. destruct Hb as [K1 K2 K3 K4 K5]. rewrite Ec in *.
      destruct (is_destroy k); constructor; cbn; try done; intros x; rewrite K3; by destruct k; cbn.
    + by eapply client_step_books.
    + by eapply event_books.
    + cbn in Hs. unfold rem_ref in Hs. destruct (iwcm_deref_id _) as [[m last]| |] eqn:Er; cbn in *; simplify_eq.
      pose proof (release_books s m last Hb Er) as Hb'. by destruct Hb'; constructor.
    + cbn in Hs. destruct (m_wq _); [done|]. destruct (s_worker s) eqn:Ew; try done. injection Hs as <-.
      destruct Hb as [K1 K2 K3 K4 K5]. rewrite Ew in *. by constructor.
    + by eapply worker_books.
  - destruct Hd as [D1 D2 D3 D4 D5 D6 D7]. destruct l; cbn in *; rewrite ?D6, ?D7, ?D5 in *; try done.
    + unfold client_step in Hs. destruct (s_client s) eqn:Ec; try done. rewrite D5 in Hs. injection Hs as <-.
      destruct Hb as [K1 K2 K3 K4 K5]. rewrite Ec in *. by constructor.
    + destruct D2 as (_ & _ & E). by rewrite E in Hs.
Qed.

Lemma initial_books s : initial s -> books s.
Proof.
  intros [x|i ev listen m ev' H].
  - constructor; try done; cbn; [constructor..|]. split_and!; [constructor|done|naive_solver].
  - destruct (offered_child _ _ _ _ _ H) as [x ->]. constructor; try done; cbn.
    + by apply (bool_decide_unpack (NoDup [2; 1; 0]%nat)).
    + by apply (bool_decide_unpack (Forall (fun k => k < 3)%nat [2; 1; 0]%nat)).
    + split_and!; [constructor|done|naive_solver].
Qed.

Lemma reachable_books s : reachable s -> books s.
Proof.
  induction 1 as [s Hs|l s s' Hr IH Ha Hs]; [by apply initial_books|].
  eapply step_books; [by apply reachable_inv|done..].
Qed.
