(* ===== verification/IwcmRuns.v ===== *)
(** * Runs of the iWARP connection manager

    What holds of every identifier in every run of [IwcmSystem], whatever the interleaving
    of its client, its provider and the work queue; that destroying an identifier ends;
    what connection requests lead to; and runs outside the rules that hit a bug. *)

From Stdlib Require Import ZArith Lia.
From stdpp Require Import base tactics numbers list option.
From S2P Require Import Prelude Outcome Iwcm IwcmSystem IwcmInv IwcmBooks.

Local Open Scope Z_scope.

(** C3. In every run of client, provider and work queue that keeps to the rules, whatever
    the interleaving, no section hits a [BUG()], uses the identifier after it was freed, or
    takes a reference count below zero. *)
Theorem iwcm_never_bugs l s : reachable s -> allowed l s = true -> run_step l s <> Bug.
Proof. intros Hr Ha E. pose proof (step_good l s (reachable_inv s Hr) Ha) as H. by rewrite E in H. Qed.

(** C4. References are exact. An identifier that lives has one reference for the client
    until it is destroyed, one for every event in its list and one for the event being
    handled, and one for the provider; once these are gone it is freed, with nothing queued
    and nobody using it. The references taken on a queue pair are given up but for those
    held, and all of them are given up when the identifier is freed. *)
Theorem iwcm_references_exact s :
  reachable s ->
  let p := m_id (s_mem s) in
  (m_live (s_mem s) = true /\ 0 < refcount p /\
   refcount p = b2z (client_ref s) + Z.of_nat (length (work_list p)) + b2z (busy (s_worker s)) + b2z (s_pref s) \/
   m_live (s_mem s) = false /\ client_ref s = false /\ work_list p = [] /\ m_wq (s_mem s) = [] /\
   s_worker s = W_idle /\ s_pref s = false) /\
  forall x, qp_refs x (m_out (s_mem s)) = holds x (qp p) + holds x (client_qp (s_client s)) + holds x (worker_qp (s_worker s)) /\
            (m_live (s_mem s) = false -> qp_refs x (m_out (s_mem s)) = 0).
Proof.
  cbn zeta. intros Hr. pose proof (bk_qp _ (reachable_books s Hr)) as Hq.
  destruct (reachable_inv s Hr) as [Hi|[D1 D2 D3 D4 D5 D6 D7]].
  - split; [left; split_and!; [apply Hi|apply Hi|]|].
    + rewrite (iv_ref _ Hi). lia.
    + intros x. split; [apply Hq|]. rewrite (iv_live _ Hi). done.
  - split; [right; split_and!; try apply D2; try done|].
    + unfold client_ref. rewrite D5, D7. by destruct (s_client s).
    + intros x. split; [apply Hq|]. intros _. rewrite Hq, D5. destruct D3 as [-> ->]. done.
Qed.

(** At most two events of a connection wait when another is reported. *)
Lemma conf_short c g p p' l st w q ev :
  conf c g p l st w q -> prov_next p ev = Some p' -> p <> P_listening -> (length l <= 2)%nat.
Proof.
  intros H Hn Hl. destruct (prov_next_not _ _ _ Hn) as [H1 H2].
  assert (forall l, ending p l -> (length l <= 1)%nat) as He by (intros ?; inversion 1; subst; cbn; try done; lia).
  inversion H; subst; cbn; try done; try lia.
  - match goal with X : setup _ _ _ |- _ => inversion X; subst; cbn; try lia; try done end;
      match goal with X : ending _ _ |- _ => apply He in X; lia end.
  - match goal with X : ending _ _ |- _ => apply He in X; lia end.
  - match goal with X : _ \/ _ \/ _ |- _ => destruct X as [X|[[? _]|[[?|?] _]]]; try done; apply He in X; lia end.
Qed.

(** The work elements allocated by connect and for a request are enough: an event a
    provider reports on a connection is never refused for lack of one. *)
Theorem iwcm_events_accepted ev s :
  reachable s -> allowed (L_event ev true) s = true -> s_prov s <> P_listening ->
  exists m, cm_event_handler ev true (s_mem s) = Ok (m, 0) /\
    map snd (work_list (m_id m)) = map snd (work_list (m_id (s_mem s))) ++ [ev].
Proof.
  intros Hr Ha Hp. cbn in Ha. bool_to_prop. rename select (s_pref s = true) into Hpr.
  rename select (bool_decide _ = true) into Hn. apply bool_decide_eq_true in Hn as [p' Hn].
  destruct (reachable_inv s Hr) as [Hi|Hd]; [|by rewrite (dd_pref _ Hd) in Hpr].
  assert (exists k fl, work_free_list (m_id (s_mem s)) = k :: fl) as (k & fl & Ef).
  { pose proof (iv_works _ Hi) as (_ & W2 & _). pose proof (iv_conf _ Hi) as Hc.
    assert (length (work_list (m_id (s_mem s))) <= 2)%nat as Hl.
    { rewrite <- (length_map snd). assert (length (pending s) <= 2)%nat as H by (by eapply conf_short).
      unfold pending in H. rewrite length_app in H. lia. }
    destruct (work_free_list (m_id (s_mem s))) as [|k fl]; [|by eauto]. cbn in W2. exfalso.
    assert (3 <= length (work_list (m_id (s_mem s))) + 0)%nat; [|lia]. apply W2.
    unfold prov_next in Hn. destruct (s_prov s); auto 7; done. }
  unfold cm_event_handler, get_work. rewrite on_id_live by (by eapply iv_live). rewrite Ef. cbn.
  rewrite andb_false_r. eexists. split; [done|]. cbn. by rewrite map_app.
Qed.

(** What the client sees of a connection: one result, good or bad, and after a good one
    at most one close. *)
Theorem iwcm_client_view s : reachable s -> client_view (callbacks (m_out (s_mem s)) ++ next_callback (s_worker s)).
Proof. intros Hr. apply (bk_view _ (reachable_books s Hr)). Qed.

(** Once [iw_destroy_cm_id] has returned, the thread only drops events. *)
Definition drops_only (w : worker_pc) : bool :=
  match w with W_idle | W_loop | W_test _ _ | W_deref _ => true | _ => false end.

Lemma deref_last m m' : iwcm_deref_id m = Ok (m', true) -> m_live m' = false.
Proof.
  unfold iwcm_deref_id, on_id. destruct (m_live m); [|done]. destruct (_ <=? 0); [done|]. destruct (_ =? 0); [|done].
  destruct (work_list _); [|done]. by intros [= <-].
Qed.

Lemma client_gone i s s' :
  client_step i s = Ok s' -> s_client s' = C_gone -> s_worker s' = W_idle \/ m_live (s_mem s') = false.
Proof.
  unfold client_step. intros Hs Hc. destruct (s_client s) as [r|b pc|pc|pc|pc|a pc|pc| |]; try done.
  - destruct (iw_cm_listen _ _ _ _) as [[m [pc'|ret]]| |]; cbn in Hs; try done; destruct pc; simplify_eq; try done;
      unfold starts in Hs; destruct (add_ref _); simplify_eq/=; done.
  - destruct (iw_cm_connect _ _ _) as [[m [pc'|ret]]| |]; cbn in Hs; try done; destruct pc; simplify_eq; try done;
      unfold starts in Hs; destruct (add_ref _); simplify_eq/=; done.
  - destruct (iw_cm_accept _ _ _) as [[m [pc'|ret]]| |]; cbn in Hs; try done; destruct pc; simplify_eq; try done;
      unfold starts in Hs; destruct (add_ref _); simplify_eq/=; done.
  - by destruct (iw_cm_reject _ _ _) as [[m [pc'|ret]]| |]; simplify_eq/=.
  - by destruct (iw_cm_disconnect _ _ _) as [[m [pc'|ret]]| |]; simplify_eq/=.
  - destruct (destroy_cm_id _ _) as [[m [pc'|[]]]| |] eqn:Ed; cbn in Hs; try done; simplify_eq; try done.
    destruct (destroy_not_put _ _ _ _ Ed) as [q ->]. destruct (destroy_last _ _ _ _ Ed) as (os & Er & _).
    right. cbn. by eapply deref_last.
  - destruct (s_worker s) eqn:Ew; simplify_eq. by left.
Qed.

Lemma gone_drops s : reachable s -> s_client s = C_gone -> drops_only (s_worker s) = true.
Proof.
  induction 1 as [s Hs|l s s' Hr IH Ha Hs]; [by destruct Hs|]. intros Ec.
  destruct (reachable_inv s' (reach_step _ _ _ Hr Ha Hs)) as [Hi'|Hd']; [|by rewrite (dd_worker _ Hd')].
  destruct l; cbn in Hs.
  - injection Hs as <-. by destruct k.
  - destruct (client_gone _ _ _ Hs Ec) as [->|Hl]; [done|]. by rewrite (iv_live _ Hi') in Hl.
  - destruct (cm_event_handler _ _ _) as [[m ret]| |]; cbn in Hs; simplify_eq. by apply IH.
  - destruct (rem_ref _) as [m| |]; cbn in Hs; simplify_eq. by apply IH.
  - destruct (m_wq _); [done|]. destruct (s_worker s) eqn:Ew; simplify_eq. done.
  - destruct (cm_work_handler _ _ _) as [[m w]| |] eqn:Ek; cbn in Hs; simplify_eq.
    assert (s_client s = C_gone) as Ec'.
    { destruct (s_worker s); try exact Ec; destruct w; exact Ec. }
    specialize (IH Ec'). destruct (reachable_inv s Hr) as [Hi|Hd]; [|by rewrite (dd_worker _ Hd) in Ek].
    assert (f_drop_events (m_id (s_mem s)) = true) as Hdr.
    { pose proof (not_owned s (iv_one _ Hi)) as Ho. rewrite Ec' in Ho. destruct (Ho I) as [Hf Hk].
      rewrite (iv_drop _ Hi). unfold stage. rewrite Hf, Ec'. by rewrite (not_destroying _ destroy_stage 4%nat Hk). }
    destruct (s_worker s) as [| |ev e|ev e|ev q e|ev e|ev e|q e|pc e|e] eqn:Ew; try done; cbn in Ek; unfold on_id in Ek;
      try (rewrite (iv_live _ Hi) in Ek).
    + destruct (work_list _) as [|[]]; by simplify_eq.
    + rewrite Hdr in Ek. by simplify_eq.
    + destruct (iwcm_deref_id _) as [[m' last]| |]; cbn in Ek; simplify_eq. cbn. by destruct (last || e).
Qed.

Lemma deref_callbacks m m' last : iwcm_deref_id m = Ok (m', last) -> callbacks (m_out m') = callbacks (m_out m).
Proof.
  unfold iwcm_deref_id, on_id. destruct (m_live m); [|done]. destruct (_ <=? 0); [done|]. destruct (_ =? 0).
  - destruct (work_list _); [|done]. intros [= <- <-]. cbn. rewrite callbacks_app. by rewrite app_nil_r.
  - by intros [= <- <-].
Qed.

Lemma event_callbacks ev copied m m' ret : cm_event_handler ev copied m = Ok (m', ret) -> callbacks (m_out m') = callbacks (m_out m).
Proof.
  unfold cm_event_handler, on_id. destruct (m_live m); [|done]. destruct (get_work _) as [[k p]|]; [|by intros [= <- <-]].
  destruct (copies ev && negb copied); intros [= <- <-]; [done|]. cbn. by destruct (work_list p), (copies ev).
Qed.

Lemma gone_step l s s' :
  reachable s -> s_client s = C_gone -> allowed l s = true -> run_step l s = Ok s' ->
  s_client s' = C_gone /\ callbacks (m_out (s_mem s')) = callbacks (m_out (s_mem s)).
Proof.
  intros Hr Ec Ha Hs. pose proof (gone_drops s Hr Ec) as Hw. destruct l; cbn in Hs, Ha.
  - by rewrite Ec, andb_false_r in Ha.
  - unfold client_step in Hs. by rewrite Ec in Hs.
  - destruct (cm_event_handler _ _ _) as [[m ret]| |] eqn:E; cbn in Hs; simplify_eq. split; [done|]. by eapply event_callbacks.
  - unfold rem_ref in Hs. destruct (iwcm_deref_id _) as [[m last]| |] eqn:E; cbn in Hs; simplify_eq. split; [done|]. by eapply deref_callbacks.
  - destruct (m_wq _); [done|]. by destruct (s_worker s); simplify_eq.
  - destruct (s_worker s) as [| |ev e|ev e|ev q e|ev e|ev e|q e|pc e|e] eqn:Ew; try done; cbn in Hs; unfold on_id in Hs.
    + destruct (m_live _); [|done]. by destruct (work_list _) as [|[]]; cbn in Hs; simplify_eq.
    + assert (f_drop_events (m_id (s_mem s)) = true \/ m_live (s_mem s) = false) as Hd.
      { destruct (reachable_inv s Hr) as [Hi|Hd]; [|by right; apply Hd]. left.
        pose proof (not_owned s (iv_one _ Hi)) as Ho. rewrite Ec in Ho. destruct (Ho I) as [Hf Hk].
        rewrite (iv_drop _ Hi). unfold stage. rewrite Hf, Ec. by rewrite (not_destroying _ destroy_stage 4%nat Hk). }
      destruct (m_live _); [|done]. destruct Hd as [Hd|Hd]; [|done]. rewrite Hd in Hs. cbn in Hs. simplify_eq.
      split; [done|]. cbn. rewrite callbacks_app. by rewrite app_nil_r.
    + destruct (iwcm_deref_id _) as [[m last]| |] eqn:E; cbn in Hs; simplify_eq. split; [done|]. by eapply deref_callbacks.
Qed.

(** A run of [n] steps whose labels satisfy [ok]. *)
Inductive run (ok : label -> Prop) : nat -> sys -> sys -> Prop :=
| run_nil s : run ok 0 s s
| run_cons n l s s' s'' :
    ok l -> allowed l s = true -> run_step l s = Ok s' -> run ok n s' s'' -> run ok (S n) s s''.

(** Once [iw_destroy_cm_id] has returned no event is delivered any more, whatever the
    provider and the work queue still do. *)
Theorem iwcm_silent_after_destroy n s s' :
  reachable s -> s_client s = C_gone -> run (fun _ => True) n s s' ->
  callbacks (m_out (s_mem s')) = callbacks (m_out (s_mem s)).
Proof.
  intros Hr Ec Hn. induction Hn as [s|n l s s1 s' _ Ha Hs _ IH]; [done|].
  destruct (gone_step l s s1 Hr Ec Ha Hs) as [E1 E2]. rewrite <- E2. apply IH; [|done]. by eapply reach_step.
Qed.

(** ** Destruction ends *)

Definition internal (l : label) : Prop :=
  match l with L_client _ | L_dispatch | L_worker _ => True | _ => False end.

Definition destroy_rank (pc : destroy_pc) : nat :=
  match pc with D_wait => 7 | D_drop => 6 | D_lock => 5 | D_call _ _ => 4 | D_put _ => 3 end.
Definition worker_rank (w : worker_pc) : nat :=
  match w with
  | W_idle => 0 | W_loop => 1 | W_test _ _ => 11 | W_proc _ _ => 10 | W_call _ _ _ => 9 | W_cb _ _ => 8
  | W_request _ _ | W_quiet _ _ => 3 | W_destroy pc _ => destroy_rank pc | W_deref _ => 2
  end.
Definition client_rank (c : client_pc) : nat :=
  match c with C_destroy pc => destroy_rank pc | C_flush => 1 | _ => 0 end.

(** How many steps the client and the thread can still make on their own. *)
Definition remaining (s : sys) : nat :=
  12 * length (work_list (m_id (s_mem s))) + 2 * length (m_wq (s_mem s)) + worker_rank (s_worker s) + client_rank (s_client s).

Lemma deref_lists m m' last :
  iwcm_deref_id m = Ok (m', last) -> work_list (m_id m') = work_list (m_id m) /\ m_wq m' = m_wq m.
Proof.
  unfold iwcm_deref_id, on_id. destruct (m_live m); [|done]. destruct (_ <=? 0); [done|]. destruct (_ =? 0).
  - destruct (work_list _) eqn:E; [|done]. intros [= <- <-]. done.
  - by intros [= <- <-].
Qed.

Lemma destroy_lists pc m m' r :
  destroy_cm_id pc m = Ok (m', r) -> work_list (m_id m') = work_list (m_id m) /\ m_wq m' = m_wq m /\
  match r with inl pc' => (destroy_rank pc' < destroy_rank pc)%nat | inr _ => True end.
Proof.
  destruct pc as [| | |t q|q]; cbn [destroy_cm_id]; unfold on_id; (destruct (m_live m); [|done]).
  - destruct (f_connect_wait _); [done|]. intros [= <- <-]. cbn. split_and!; auto; lia.
  - intros [= <- <-]. cbn. split_and!; auto; lia.
  - destruct (state _); intros H; simplify_eq; cbn; split_and!; auto; try lia. destruct (qp _); cbn; lia.
  - intros [= <- <-]. cbn. split_and!; auto; lia.
  - destruct (iwcm_deref_id _) as [[m1 l1]| |] eqn:E; cbn; intros [= <- <-]. destruct (deref_lists _ _ _ E) as [-> ->]. done.
Qed.

Lemma process_lists i ev e m m' w :
  process_event i ev e m = Ok (m', w) ->
  work_list (m_id m') = work_list (m_id m) /\ m_wq m' = m_wq m /\ (worker_rank w <= 9)%nat.
Proof.
  unfold process_event, on_id. destruct (m_live m); [|done]. destruct (ev_type ev).
  - destruct (cm_conn_req_handler _ _ _) as [[]| |]; cbn; intros [= <- <-]; cbn; try (split_and!; auto; lia);
      destruct (truthy _); cbn; split_and!; auto; lia.
  - unfold cm_conn_rep_handler. destruct (decide _); [|done]. destruct (_ =? 0); cbn; intros [= <- <-]; cbn; split_and!; auto; lia.
  - unfold cm_conn_est_handler. destruct (decide _); [|done]. cbn; intros [= <- <-]; cbn; split_and!; auto; lia.
  - cbn. intros [= <- <-]; cbn. unfold cm_disconnect_handler. destruct (decide _); cbn; split_and!; auto; lia.
  - unfold cm_close_handler. destruct (state _); try done; cbn; intros [= <- <-]; cbn; split_and!; auto; lia.
Qed.

Lemma remaining_decreases l s s' :
  inv s \/ dead s -> s_owned s = false -> internal l -> allowed l s = true -> run_step l s = Ok s' ->
  (remaining s' < remaining s)%nat /\ s_owned s' = false /\ s_pref s' = s_pref s.
Proof.
  intros Hi Ho Hl Ha Hs. unfold remaining. destruct l as [|i| | | |i]; try done; cbn in Hs.
  - unfold client_step in Hs.
    assert (match s_client s with C_idle _ | C_destroy _ | C_flush | C_gone => True | _ => False end) as Hc.
    { destruct Hi as [Hi|Hd]; [|pose proof (dd_client _ Hd); by destruct (s_client s)].
      pose proof (iv_one _ Hi) as H1. unfold one_destroyer in H1. rewrite Ho in H1. by destruct (s_client s). }
    destruct (s_client s) as [| | | | | |pc| |] eqn:Ec; try done.
    + destruct (destroy_cm_id _ _) as [[m r]| |] eqn:Ed; cbn in Hs; simplify_eq.
      destruct (destroy_lists _ _ _ _ Ed) as (E1 & E2 & E3).
      assert (forall x, client_rank (match r with inl pc' => C_destroy pc' | inr true => C_gone | inr false => C_flush end) = x ->
        (x < destroy_rank pc)%nat) as Hx.
      { intros x <-. destruct r as [|[]]; cbn; [done|destruct pc as [| | |[]|]; cbn; lia..]. }
      specialize (Hx _ eq_refl). destruct pc as [| | |[]|]; cbn in *; rewrite ?E1, ?E2; split_and!; try done; lia.
    + destruct (s_worker s) eqn:Ew; simplify_eq. cbn. rewrite Ew. split_and!; try done. cbn. lia.
  - destruct (m_wq (s_mem s)) as [|k wq] eqn:Eq; [done|]. destruct (s_worker s) eqn:Ew; simplify_eq. cbn. split_and!; try done. lia.
  - destruct (s_worker s) as [| |ev e|ev e|ev q e|ev e|ev e|q e|pc e|e] eqn:Ew; cbn in Hs; unfold on_id in Hs; try done;
      try (destruct (m_live (s_mem s)); [|done]).
    + assert (exists k ev wl, work_list (m_id (s_mem s)) = (k, ev) :: wl) as (k & ev & wl & El).
      { destruct Hi as [Hi|Hd]; [|by rewrite (dd_worker _ Hd) in Ew]. pose proof (iv_queue _ Hi) as Hq. rewrite Ew in Hq.
        destruct Hq as [_ Hq]. destruct (work_list _) as [|[k ev] wl]; [done|by eauto]. }
      rewrite El in *. cbn in Hs. simplify_eq. cbn. split_and!; try done. lia.
    + destruct (f_drop_events _); cbn in Hs; simplify_eq; cbn; split_and!; try done; lia.
    + destruct (process_event _ _ _ _) as [[m w]| |] eqn:Ep; cbn in Hs; simplify_eq.
      destruct (process_lists _ _ _ _ _ _ Ep) as (E1 & E2 & ?). cbn. rewrite E1, E2. split_and!; try done. lia.
    + cbn in Hs; simplify_eq; cbn; split_and!; try done; lia.
    + cbn in Ha. rewrite Ew, Ho in Ha. rewrite orb_false_r in Ha. rewrite Ha in Hs. cbn in Hs. simplify_eq. cbn.
      destruct (copies ev); cbn; split_and!; try done; lia.
    + simplify_eq. cbn. destruct (truthy _); cbn; split_and!; try done; lia.
    + cbn in Hs; simplify_eq; cbn; split_and!; try done; lia.
    + destruct (destroy_cm_id _ _) as [[m [pc'|last]]| |] eqn:Ed; cbn in Hs; simplify_eq;
        destruct (destroy_lists _ _ _ _ Ed) as (E1 & E2 & E3); cbn; rewrite E1, E2; split_and!; try done; [lia|].
      destruct pc; cbn; lia.
    + destruct (iwcm_deref_id _) as [[m last]| |] eqn:Ed; cbn in Hs; simplify_eq.
      destruct (deref_lists _ _ _ Ed) as [E1 E2]. cbn. rewrite E1, E2. destruct (last || e); cbn; split_and!; try done; lia.
Qed.

Definition return_zero : input :=
  {| i_ret := 0;
     i_map := {| names_fit := true; pid_ok := false; map_status := 0;
                 mapped_loc := {| ss_family := 0; sa_port := 0; sin_addr := 0; sin6_addr := 0 |};
                 mapped_rem := {| ss_family := 0; sa_port := 0; sin_addr := 0; sin6_addr := 0 |}; mapinfo_ret := 0 |};
     i_qp := None; i_avail := 0; i_create := false; i_remote := None |}.

(** Who waits for a connection waits for the provider or for an event that is there. *)
Lemma conf_waiting c g p l st q : conf c g p l st true q -> (1 <= g)%nat -> setup p l st.
Proof. intros H Hg. inversion H; subst; try lia; done. Qed.

Lemma setup_shape p l st :
  setup p l st -> p = P_connecting \/ p = P_accepting \/ exists ev, ev_type ev <> EV_CONNECT_REQUEST /\ ev ∈ l /\ is_setup ev = true.
Proof.
  destruct 1 as [| |p ev l Et| ev Et|p ev l Et]; auto; right; right; exists ev; (split_and!; [by rewrite Et|by left|unfold is_setup; by rewrite Et]).
Qed.

(** The thread of the work queue is never blocked. *)
Lemma worker_progress s : inv s -> s_worker s <> W_idle -> exists s', run_step (L_worker return_zero) s = Ok s'.
Proof.
  intros Hi Hw. assert (allowed (L_worker return_zero) s = true) as Ha by (cbn; by destruct (s_worker s)).
  pose proof (worker_good return_zero s Hi Ha) as Hg. cbn in *.
  assert (cm_work_handler return_zero (s_worker s) (s_mem s) <> Block) as Hb.
  { pose proof (iv_live _ Hi) as El. destruct (s_worker s) as [| |ev e|ev e|ev q e|ev e|ev e|q e|pc e|e] eqn:Ew; try done; cbn; unfold on_id; rewrite ?El; try done.
    - by destruct (work_list _) as [|[]].
    - by destruct (f_drop_events _).
    - unfold process_event, on_id. rewrite El. destruct (ev_type ev) eqn:Et.
      + unfold cm_conn_req_handler. by destruct (negb (ev_status ev =? 0)).
      + unfold cm_conn_rep_handler. destruct (decide _); [|done]. by destruct (_ =? 0).
      + unfold cm_conn_est_handler. by destruct (decide _).
      + done.
      + unfold cm_close_handler. by destruct (state _).
    - destruct (destroy_cm_id pc (s_mem s)) as [[m []]| |] eqn:Ed; try done.
      destruct pc as [| | |t q|q]; cbn in Ed; unfold on_id in Ed; rewrite El in Ed; try done.
      + destruct (f_connect_wait _) eqn:E1; [|done]. pose proof (iv_conf _ Hi) as Hc. pose proof (iv_worker _ Hi) as Hk.
        rewrite Ew in Hk. rewrite E1 in Hc. destruct Hk as (K1 & K2 & K3 & _ & K4).
        destruct (worker_destroyer _ _ _ (iv_one _ Hi) Ew) as (Hf & r & Ec).
        assert (stage s = 1%nat) as Es by (unfold stage; by rewrite Hf, Ec, Ew). rewrite Es in Hc.
        by destruct (setup_shape _ _ _ (conf_waiting _ _ _ _ _ _ Hc ltac:(lia))) as [?|[?|(ev & ? & Hin & E)]]; [..|rewrite K4 in E].
      + by destruct (state _).
      + unfold iwcm_deref_id, on_id in Ed. cbn in Ed. rewrite El in Ed. destruct (_ <=? 0); [done|]. destruct (_ =? 0); [|done].
        by destruct (work_list _).
    - unfold iwcm_deref_id, on_id. rewrite El. destruct (_ <=? 0); [done|]. destruct (_ =? 0); [|done]. by destruct (work_list _). }
  destruct (cm_work_handler _ _ _) as [[m w]| |]; cbn in *; try done. by eexists.
Qed.

Lemma live_progress s :
  inv s -> s_owned s = false -> s_pref s = false ->
  exists l s', internal l /\ allowed l s = true /\ run_step l s = Ok s'.
Proof.
  intros Hi Ho Hp. destruct (decide (s_worker s = W_idle)) as [Ew|Ew].
  2: { destruct (worker_progress s Hi Ew) as [s' Hs]. exists (L_worker return_zero), s'. split_and!; [done| |done].
       cbn. by destruct (s_worker s). }
  assert (work_list (m_id (s_mem s)) <> [] -> exists l s', internal l /\ allowed l s = true /\ run_step l s = Ok s') as Hd.
  { intros Hne. pose proof (iv_queue _ Hi) as Hq. rewrite Ew in Hq. cbn in Hq.
    destruct (work_list _) as [|[k ev] wl]; [done|]. exists L_dispatch. eexists. split_and!; [done|done|]. cbn. by rewrite Hq, Ew. }
  pose proof (iv_one _ Hi) as H1. unfold one_destroyer in H1. rewrite Ho, Ew in H1.
  assert ((exists s', client_step return_zero s = Ok s') -> exists l s', internal l /\ allowed l s = true /\ run_step l s = Ok s') as Hcl.
  { intros [s' Hs]. by exists (L_client return_zero), s'. }
  pose proof (iv_ref _ Hi) as Er. pose proof (iv_pos _ Hi) as Ep. rewrite Hp, Ew in Er. unfold client_ref in Er. rewrite Ho, Ew in Er. cbn in Er.
  destruct (s_client s) as [| | | | | |pc| |] eqn:Ec; try done; cbn in Er.
  - apply Hd. intros E. rewrite E in Er. cbn in Er. lia.
  - destruct (decide (pc = D_wait /\ f_connect_wait (m_id (s_mem s)) = true)) as [[-> Hw]|Hn].
    + apply Hd. intros E. pose proof (iv_conf _ Hi) as Hc. rewrite Hw, Ec in Hc. 
      assert (stage s = 1%nat) as Es by (unfold stage; by rewrite Ho, Ec). rewrite Es in Hc.
      pose proof (iv_pref _ Hi) as Hpr. unfold pending in Hc. rewrite Ew, E in Hc. cbn in Hc.
      destruct (setup_shape _ _ _ (conf_waiting _ _ _ _ _ _ Hc ltac:(lia))) as [E'|[E'|(ev & _ & Hin & _)]];
        [rewrite E' in Hpr; congruence..|by apply not_elem_of_nil in Hin].
    + apply Hcl. pose proof (client_good return_zero s Hi) as Hg. unfold client_step in *. rewrite Ec in *.
      destruct (destroy_cm_id pc (s_mem s)) as [[m r]| |] eqn:Ed; cbn in *; [by eexists|done|].
      exfalso. apply Hn. destruct pc as [| | |t q|q]; cbn in Ed; unfold on_id in Ed; rewrite (iv_live _ Hi) in Ed; try done.
      * by destruct (f_connect_wait _).
      * by destruct (state _).
      * unfold iwcm_deref_id, on_id in Ed. cbn in Ed. rewrite (iv_live _ Hi) in Ed. destruct (_ <=? 0); [done|].
        destruct (_ =? 0); [|done]. by destruct (work_list _).
  - apply Hcl. unfold client_step. rewrite Ec, Ew. by eexists.
  - apply Hd. intros E. rewrite E in Er. cbn in Er. lia.
Qed.

(** C5. Destroying an identifier ends: once the client has asked for it and the provider
    has given up its reference, the client's call and the thread make only so many more
    steps, in any order, and one of them can always go on until the identifier is freed. *)
Theorem iwcm_destroy_ends s :
  reachable s -> s_owned s = false -> s_pref s = false ->
  forall n s', run internal n s s' ->
    (n <= remaining s)%nat /\
    (m_live (s_mem s') = false \/ exists l s'', internal l /\ allowed l s' = true /\ run_step l s' = Ok s'').
Proof.
  intros Hr Ho Hp n s' Hn. induction Hn as [s|n l s s1 s' Hl Ha Hs _ IH].
  - split; [lia|]. destruct (reachable_inv s Hr) as [Hi|Hd]; [|left; apply Hd]. right. by apply live_progress.
  - destruct (remaining_decreases l s s1 (reachable_inv s Hr) Ho Hl Ha Hs) as (H1 & H2 & H3).
    destruct IH as [H4 H5]; [by eapply reach_step|done|congruence|]. split; [lia|done].
Qed.

(** ** Shape of the identifier *)

(** C33. Shape of an identifier that lives: its work elements are distinct, the work queue
    holds at most the first of its list, and the state, the queue pair and the two flags
    fit together. *)
Theorem iwcm_well_formed s :
  reachable s -> m_live (s_mem s) = true ->
  let p := m_id (s_mem s) in
  NoDup (map fst (work_list p) ++ work_free_list p) /\
  (m_wq (s_mem s) = [] \/ exists k ev wl, work_list p = (k, ev) :: wl /\ m_wq (s_mem s) = [k]) /\
  (state p = ESTABLISHED \/ state p = CLOSING -> is_Some (qp p) /\ f_connect_wait p = false) /\
  (state p = CONN_SENT -> is_Some (qp p) /\ f_connect_wait p = true) /\
  (state p = LISTEN -> qp p = None /\ f_connect_wait p = false) /\
  (state p = DESTROYING -> qp p = None /\ f_connect_wait p = false /\ f_drop_events p = true) /\
  (f_drop_events p = true -> s_owned s = false).
Proof.
  intros Hr El. cbn zeta. destruct (reachable_inv s Hr) as [Hi|Hd]; [|by rewrite (dd_live _ Hd) in El].
  split; [apply (reachable_books s Hr)|]. split.
  { pose proof (iv_queue _ Hi) as Hq. unfold queue_ok in Hq. destruct (done_flag _); [|left; apply Hq].
    destruct (work_list _) as [|[k ev] wl]; [by left|right; by eauto]. }
  pose proof (iv_conf _ Hi) as Hc. pose proof (iv_drop _ Hi) as Hd.
  assert (f_drop_events (m_id (s_mem s)) = true -> s_owned s = false) as Hdr.
  { rewrite Hd. unfold stage. by destruct (s_owned s). }
  assert (stage s = 4%nat -> f_drop_events (m_id (s_mem s)) = true) as H4 by (rewrite Hd; by intros ->).
  revert H4 Hdr. clear - Hc. generalize (f_drop_events (m_id (s_mem s))). intros d H4 Hdr.
  remember (stage s) as g. conf_cases s Hc; split_and!; auto; intros Hst; try done; try (by destruct Hst); naive_solver.
Qed.

(** ** Connection requests *)

Lemma alloc_loop_zero avail m : alloc_loop avail 0 m = (m, 0).
Proof. by destruct avail. Qed.

Lemma request_child_shape remote listen ev m ev' :
  request_child remote listen ev = (m, ev') ->
  exists x, m = set_mid (set_state CONN_RECV (m_id (iw_create_cm_id x))) (iw_create_cm_id x) /\ mapped x = false /\
    ev_remote_addr ev' = remote_addr x.
Proof. unfold request_child. destruct remote; intros [= <- <-]; by eexists. Qed.

(** What was made for a request that is rejected is freed at once, so that the flush of
    the work queue, which would wait for its own thread, is not reached. *)
Lemma reject_child i a1 a2 a3 a4 n :
  let x := {| local_addr := a1; remote_addr := a2; m_local_addr := a3; m_remote_addr := a4; mapped := false |} in
  exists m, reject_and_destroy i (set_fresh n (set_mid (set_state CONN_RECV (m_id (iw_create_cm_id x))) (iw_create_cm_id x))) = Ok (m, false) /\
    m_live m = false /\ m_out m = [O_reject; O_free []].
Proof. eexists. split; [vm_compute; reflexivity|done]. Qed.

(** A connection request is offered to the client of a listening identifier, with a new
    identifier from which a run can start, or rejected exactly once and freed again without
    reaching the flush of the work queue (which would wait for its own thread), or, when
    not even the identifier can be made, ignored. *)
Theorem iwcm_request_outcome i ev listen :
  ev_status ev = 0 ->
  exists r, cm_conn_req_handler i ev listen = Ok r /\
  match r with
  | RQ_ignored => i_create i = false
  | RQ_rejected child flush =>
      (state listen <> LISTEN \/ (i_avail i < 3)%nat) /\ m_live child = false /\ m_out child = [O_reject; O_free []] /\ flush = false
  | RQ_offered child ev' =>
      state listen = LISTEN /\ reachable (init_sys child) /\ state (m_id child) = CONN_RECV /\
      length (work_free_list (m_id child)) = 3%nat /\ ev_remote_addr ev' = remote_addr (id (m_id child))
  end.
Proof.
  intros Es. assert (forall m ev', cm_conn_req_handler i ev listen = Ok (RQ_offered m ev') -> reachable (init_sys m)) as Hi
    by (intros m ev' H; apply reach_init; by eapply initial_request).
  unfold cm_conn_req_handler in *. rewrite Es in *. change (negb (0 =? 0)) with false in *. cbn iota in *.
  destruct (i_create i); cbn [negb] in *; cbn iota in *; [|by eexists].
  destruct (request_child _ _ _) as [m ev'] eqn:Em. destruct (request_child_shape _ _ _ _ _ Em) as (x & -> & Ex & Ea).
  destruct x as [a1 a2 a3 a4 mp]. cbn in Ex, Ea. subst mp.
  set (child := set_mid _ (iw_create_cm_id _)) in *.
  assert (forall n, exists m, reject_and_destroy i (set_fresh n child) = Ok (m, false) /\ m_live m = false /\ m_out m = [O_reject; O_free []]) as Hj
    by (intros n; apply reject_child).
  destruct (bool_decide (state listen = LISTEN)) eqn:El; cbn [negb] in *; cbn iota in *.
  - apply bool_decide_eq_true in El. destruct (le_lt_dec 3 (i_avail i)) as [Hn|Hn].
    + destruct (i_avail i) as [|[|[|n]]]; [lia..|]. unfold alloc_work_entries, on_id in *. cbn in *.
      rewrite alloc_loop_zero in *. cbn in *. eexists. split; [done|]. split_and!; try done. by eapply Hi.
    + assert (exists n, alloc_work_entries (i_avail i) 3 child = Ok (set_fresh n child, err ENOMEM)) as [n ->]
        by (destruct (i_avail i) as [|[|[|n]]]; [by eexists..|lia]).
      destruct (Hj n) as (m & E1 & E2 & E3). cbn [mbind outcome_bind obind]. change (err ENOMEM =? 0) with false.
      cbn iota. rewrite E1. eexists. split; [done|]. cbn. split_and!; auto.
  - apply bool_decide_eq_false in El. destruct (Hj (m_fresh child)) as (m & E1 & E2 & E3).
    change (set_fresh (m_fresh child) child) with child in E1. rewrite E1. eexists. split; [done|]. cbn. split_and!; auto.
Qed.

(** ** Concrete runs *)

(** Runs a list of labels; [None] when one is not allowed or does not return. *)
Fixpoint go (ls : list label) (s : sys) : option sys :=
  match ls with
  | [] => Some s
  | l :: ls => if allowed l s then match run_step l s with Ok s' => go ls s' | _ => None end else None
  end.

Lemma go_reachable ls s s' : reachable s -> go ls s = Some s' -> reachable s'.
Proof.
  revert s. induction ls as [|l ls IH]; cbn; intros s Hr; [by intros [= <-]|].
  destruct (allowed l s) eqn:Ha; [|done]. destruct (run_step l s) as [s1| |] eqn:Hs; try done. apply IH. by eapply reach_step.
Qed.

(** Without the rules. *)
Fixpoint go_any (ls : list label) (s : sys) : outcome sys :=
  match ls with [] => Ok s | l :: ls => s' ← run_step l s; go_any ls s' end.

Definition addr0 : sockaddr := {| ss_family := AF_INET; sa_port := 5; sin_addr := 9; sin6_addr := 0 |}.
Definition id0 : iw_cm_id :=
  {| local_addr := addr0; remote_addr := addr0; m_local_addr := addr0; m_remote_addr := addr0; mapped := false |}.
Definition start0 : sys := init_sys (iw_create_cm_id id0).
Definition inp (ret : Z) (q : option Z) (avail : nat) : input :=
  {| i_ret := ret; i_map := i_map return_zero; i_qp := q; i_avail := avail; i_create := true; i_remote := None |}.
Definition event (t : iw_cm_event_type) (status len : Z) : iw_cm_event :=
  {| ev_type := t; ev_status := status; ev_local_addr := addr0; ev_remote_addr := addr0; ev_private_data_len := len |}.
Definition work (n : nat) : list label := L_dispatch :: replicate n (L_worker (inp 0 None 0)).
Definition client (n : nat) : list label := replicate n (L_client (inp 0 (Some 7) 4)).

Lemma start0_reachable : reachable start0.
Proof. apply reach_init, initial_created. Qed.

Definition connect_run : list label := L_start K_connect :: client 3.
Definition connected_run : list label := connect_run ++ [L_event (event EV_CONNECT_REPLY 0 3) true] ++ work 6.
Definition listen_run : list label := L_start (K_listen 2) :: client 3.
Definition drop_run : list label :=
  listen_run ++ [L_event (event EV_CONNECT_REQUEST 0 5) true; L_start K_destroy] ++ client 5 ++ [L_unref] ++ work 3 ++ client 1.
Definition close_run : list label :=
  connected_run ++ L_start (K_disconnect false) :: client 2 ++ [L_event (event EV_CLOSE 0 0) true] ++ work 6 ++ client 1.
Definition destroy_run : list label := connected_run ++ L_start K_destroy :: client 5 ++ [L_event (event EV_CLOSE 0 0) true; L_unref].

Definition gone_run : list label := connected_run ++ L_start K_destroy :: client 6 ++ [L_event (event EV_CLOSE 0 0) true; L_unref].

Lemma go_run ls n s s' : go ls s = Some s' -> length ls = n -> run (fun _ => True) n s s'.
Proof.
  intros H <-. revert s H. induction ls as [|l ls IH]; cbn; intros s; [intros [= <-]; apply run_nil|].
  destruct (allowed l s) eqn:Ha; [|done]. destruct (run_step l s) as [s1| |] eqn:Hs; try done. intros H.
  by eapply run_cons; [done|done|done|apply IH].
Qed.

Definition reached (ls : list label) : sys := default start0 (go ls start0).

Lemma reached_reachable ls : is_Some (go ls start0) -> reachable (reached ls).
Proof. intros [s E]. unfold reached. rewrite E. cbn. by eapply go_reachable, E; apply start0_reachable. Qed.

Example runs_checked :
  is_Some (go connect_run start0) /\ is_Some (go connected_run start0) /\ is_Some (go drop_run start0) /\
  is_Some (go close_run start0) /\ is_Some (go destroy_run start0).
Proof. vm_compute. split_and!; by eexists. Qed.

(** The copy of the private data of a dropped request is never freed. *)
Theorem dropped_request_leaks :
  exists s, reachable s /\ m_live (s_mem s) = false /\ s_client s = C_gone /\ m_pdata (s_mem s) = 1.
Proof. exists (reached drop_run). split; [apply reached_reachable; vm_compute; by eexists|]. by vm_compute. Qed.

(** [iw_cm_disconnect] changes the state of the queue pair after the reference to it was
    given up by the thread that handled the close. *)
Theorem disconnect_after_reference :
  exists s, reachable s /\ qp_refs 7 (m_out (s_mem s)) = 0 /\ exists l, m_out (s_mem s) = l ++ [O_modify_qp 7 false].
Proof.
  exists (reached close_run). split; [apply reached_reachable; vm_compute; by eexists|]. split; [by vm_compute|].
  exists (take 5 (m_out (s_mem (reached close_run)))). by vm_compute.
Qed.

(** Outside the rules: a second [iw_cm_connect] after one that failed finds the work
    elements of the first; an [iw_cm_accept] on a connecting identifier fails, but clears
    the flag its connect waits with, and the next [iw_cm_disconnect] meets [CONN_SENT]. *)
Theorem connect_again_bugs :
  go_any (L_start K_connect :: replicate 3 (L_client (inp 0 None 4)) ++ L_start K_connect :: client 1) start0 = Bug.
Proof. vm_compute. reflexivity. Qed.

Theorem stray_accept_bugs :
  go_any (connect_run ++ L_start K_accept :: client 1 ++ L_start (K_disconnect false) :: client 2) start0 = Bug.
Proof. vm_compute. reflexivity. Qed.

(** ** Witnesses *)

Lemma iwcm_never_bugs_witness :
  run_step (L_event (event EV_CONNECT_REPLY 0 3) true) (reached connect_run) <> Bug.
Proof. apply iwcm_never_bugs; [apply reached_reachable; vm_compute; by eexists|by vm_compute]. Defined.

Lemma iwcm_references_exact_witness :
  refcount (m_id (s_mem (reached connected_run))) = 2 /\
  forall x, m_live (s_mem (reached drop_run)) = false -> qp_refs x (m_out (s_mem (reached drop_run))) = 0.
Proof.
  split; [by vm_compute|]. intros x.
  apply (iwcm_references_exact (reached drop_run)). apply reached_reachable; vm_compute; by eexists.
Defined.

Lemma iwcm_events_accepted_witness :
  exists m, cm_event_handler (event EV_CLOSE 0 0) true (s_mem (reached connected_run)) = Ok (m, 0) /\
    map snd (work_list (m_id m)) = [event EV_CLOSE 0 0].
Proof.
  apply (iwcm_events_accepted (event EV_CLOSE 0 0) (reached connected_run));
    [apply reached_reachable; vm_compute; by eexists|by vm_compute|by vm_compute].
Defined.

Lemma iwcm_client_view_witness :
  callbacks (m_out (s_mem (reached close_run))) =
    [event EV_CONNECT_REPLY 0 3; event EV_CLOSE 0 0] /\
  client_view (callbacks (m_out (s_mem (reached close_run))) ++ next_callback (s_worker (reached close_run))).
Proof. split; [by vm_compute|]. apply iwcm_client_view, reached_reachable; vm_compute; by eexists. Defined.

Lemma iwcm_silent_after_destroy_witness :
  callbacks (m_out (s_mem (reached (gone_run ++ work 3)))) = [event EV_CONNECT_REPLY 0 3].
Proof.
  apply (iwcm_silent_after_destroy 4 (reached gone_run) (reached (gone_run ++ work 3)));
    [apply reached_reachable; vm_compute; by eexists|by vm_compute|].
  apply (go_run (work 3)); by vm_compute.
Defined.

Lemma iwcm_destroy_ends_witness :
  (0 <= remaining (reached destroy_run))%nat /\
  (m_live (s_mem (reached destroy_run)) = false \/
   exists l s'', internal l /\ allowed l (reached destroy_run) = true /\ run_step l (reached destroy_run) = Ok s'').
Proof.
  apply (iwcm_destroy_ends (reached destroy_run)); [apply reached_reachable; vm_compute; by eexists|by vm_compute|by vm_compute|apply run_nil].
Defined.

Lemma iwcm_well_formed_witness : is_Some (qp (m_id (s_mem (reached connected_run)))).
Proof.
  destruct (iwcm_well_formed (reached connected_run)) as (_ & _ & H & _);
    [apply reached_reachable; vm_compute; by eexists|by vm_compute|]. apply H. left. by vm_compute.
Defined.

Lemma iwcm_request_outcome_witness :
  exists r, cm_conn_req_handler (inp 0 None 3) (event EV_CONNECT_REQUEST 0 5) (set_state LISTEN (m_id (iw_create_cm_id id0))) = Ok r /\
    match r with RQ_offered child _ => state (m_id child) = CONN_RECV | _ => True end.
Proof.
  destruct (iwcm_request_outcome (inp 0 None 3) (event EV_CONNECT_REQUEST 0 5) (set_state LISTEN (m_id (iw_create_cm_id id0))) eq_refl)
    as (r & E & H).
  exists r. split; [exact E|]. destruct r; [exact I..|apply H].
Defined.
