(* ===== verification/Mcast.v ===== *)
(** * Multicast groups of a port

    core/multicast.c joins the multicast groups of a port at the subnet administrator (SA) on
    behalf of clients. A group keeps the record the SA returned, a list of requests, a list
    of members and, for each of the four kinds of membership, how many members have it. One
    handler at a time works on a group: it runs from the work queue or from the answer of the
    SA, serves the requests one after another, leaves what nobody needs any more, and resets
    all members after an event of the port. Clients join and free their memberships at any
    time; a member is freed when neither its client nor the handler refers to it, a group
    when no member, no handler and no queued work does.

    The functions are programs of sections ([Outcome]): a section is what runs under the lock
    of the group or of the port, or one call made without a lock. A GID is its sixteen bytes
    as a big-endian number, the order of which is that of [memcmp]; a component mask is a
    number in host order; the address of a member is a [positive], which can be used again
    once the member was freed. *)

From Stdlib Require Import ZArith Lia.
From stdpp Require Import base tactics numbers list option gmap.
From S2P Require Import Prelude Outcome.

Local Open Scope Z_scope.

(** ** Records *)

Record ib_sa_mcmember_rec := {
  mgid : Z;
  port_gid : Z;
  qkey : Z;
  mlid : Z;
  mtu_selector : Z;
  mtu : Z;
  traffic_class : Z;
  pkey : Z;
  rate_selector : Z;
  rate : Z;
  packet_life_time_selector : Z;
  packet_life_time : Z;
  sl : Z;
  flow_label : Z;
  hop_limit : Z;
  scope : Z;
  join_state : Z;
  proxy_join : Z
}.
#[export] Instance ib_sa_mcmember_rec_eq_dec : EqDecision ib_sa_mcmember_rec.
Proof. solve_decision. Defined.

Definition with_join_state (js : Z) (r : ib_sa_mcmember_rec) : ib_sa_mcmember_rec :=
  {| mgid := mgid r; port_gid := port_gid r; qkey := qkey r; mlid := mlid r; mtu_selector := mtu_selector r; mtu := mtu r;
     traffic_class := traffic_class r; pkey := pkey r; rate_selector := rate_selector r; rate := rate r;
     packet_life_time_selector := packet_life_time_selector r; packet_life_time := packet_life_time r; sl := sl r;
     flow_label := flow_label r; hop_limit := hop_limit r; scope := scope r; join_state := js; proxy_join := proxy_join r |}.

Definition IB_SA_COMP_MASK (n : Z) : Z := Z.shiftl 1 n.
Definition IB_SA_MCMEMBER_REC_MGID : Z := IB_SA_COMP_MASK 0.
Definition IB_SA_MCMEMBER_REC_PORT_GID : Z := IB_SA_COMP_MASK 1.
Definition IB_SA_MCMEMBER_REC_QKEY : Z := IB_SA_COMP_MASK 2.
Definition IB_SA_MCMEMBER_REC_MLID : Z := IB_SA_COMP_MASK 3.
Definition IB_SA_MCMEMBER_REC_MTU_SELECTOR : Z := IB_SA_COMP_MASK 4.
Definition IB_SA_MCMEMBER_REC_MTU : Z := IB_SA_COMP_MASK 5.
Definition IB_SA_MCMEMBER_REC_TRAFFIC_CLASS : Z := IB_SA_COMP_MASK 6.
Definition IB_SA_MCMEMBER_REC_PKEY : Z := IB_SA_COMP_MASK 7.
Definition IB_SA_MCMEMBER_REC_RATE_SELECTOR : Z := IB_SA_COMP_MASK 8.
Definition IB_SA_MCMEMBER_REC_RATE : Z := IB_SA_COMP_MASK 9.
Definition IB_SA_MCMEMBER_REC_PACKET_LIFE_TIME_SELECTOR : Z := IB_SA_COMP_MASK 10.
Definition IB_SA_MCMEMBER_REC_PACKET_LIFE_TIME : Z := IB_SA_COMP_MASK 11.
Definition IB_SA_MCMEMBER_REC_SL : Z := IB_SA_COMP_MASK 12.
Definition IB_SA_MCMEMBER_REC_FLOW_LABEL : Z := IB_SA_COMP_MASK 13.
Definition IB_SA_MCMEMBER_REC_HOP_LIMIT : Z := IB_SA_COMP_MASK 14.
Definition IB_SA_MCMEMBER_REC_SCOPE : Z := IB_SA_COMP_MASK 15.
Definition IB_SA_MCMEMBER_REC_JOIN_STATE : Z := IB_SA_COMP_MASK 16.

Definition IB_SA_GT : Z := 0.
Definition IB_SA_LT : Z := 1.
Definition IB_SA_EQ : Z := 2.

(** [check_selector]: whether the comparison fails. *)
Definition check_selector (comp_mask selector_mask value_mask selector src_value dst_value : Z) : bool :=
  if negb (has_flag comp_mask selector_mask) || negb (has_flag comp_mask value_mask) then false
  else if selector =? IB_SA_GT then src_value <=? dst_value
  else if selector =? IB_SA_LT then dst_value <=? src_value
  else if selector =? IB_SA_EQ then negb (src_value =? dst_value)
  else false.

Definition cmp_rec (src dst : ib_sa_mcmember_rec) (comp_mask : Z) : Z :=
  if has_flag comp_mask IB_SA_MCMEMBER_REC_PORT_GID && negb (port_gid src =? port_gid dst) then err EINVAL
  else if has_flag comp_mask IB_SA_MCMEMBER_REC_QKEY && negb (qkey src =? qkey dst) then err EINVAL
  else if has_flag comp_mask IB_SA_MCMEMBER_REC_MLID && negb (mlid src =? mlid dst) then err EINVAL
  else if check_selector comp_mask IB_SA_MCMEMBER_REC_MTU_SELECTOR IB_SA_MCMEMBER_REC_MTU
            (mtu_selector dst) (mtu src) (mtu dst) then err EINVAL
  else if has_flag comp_mask IB_SA_MCMEMBER_REC_TRAFFIC_CLASS && negb (traffic_class src =? traffic_class dst) then err EINVAL
  else if has_flag comp_mask IB_SA_MCMEMBER_REC_PKEY && negb (pkey src =? pkey dst) then err EINVAL
  else if check_selector comp_mask IB_SA_MCMEMBER_REC_RATE_SELECTOR IB_SA_MCMEMBER_REC_RATE
            (rate_selector dst) (rate src) (rate dst) then err EINVAL
  else if check_selector comp_mask IB_SA_MCMEMBER_REC_PACKET_LIFE_TIME_SELECTOR IB_SA_MCMEMBER_REC_PACKET_LIFE_TIME
            (packet_life_time_selector dst) (packet_life_time src) (packet_life_time dst) then err EINVAL
  else if has_flag comp_mask IB_SA_MCMEMBER_REC_SL && negb (sl src =? sl dst) then err EINVAL
  else if has_flag comp_mask IB_SA_MCMEMBER_REC_FLOW_LABEL && negb (flow_label src =? flow_label dst) then err EINVAL
  else if has_flag comp_mask IB_SA_MCMEMBER_REC_HOP_LIMIT && negb (hop_limit src =? hop_limit dst) then err EINVAL
  else if has_flag comp_mask IB_SA_MCMEMBER_REC_SCOPE && negb (scope src =? scope dst) then err EINVAL
  else 0.

(** ** Groups and members *)

Inductive mcast_state := MCAST_JOINING | MCAST_MEMBER | MCAST_ERROR.
#[export] Instance mcast_state_eq_dec : EqDecision mcast_state.
Proof. solve_decision. Defined.

Inductive mcast_group_state := MCAST_IDLE | MCAST_BUSY | MCAST_GROUP_ERROR | MCAST_PKEY_EVENT.
#[export] Instance mcast_group_state_eq_dec : EqDecision mcast_group_state.
Proof. solve_decision. Defined.

Definition MCAST_INVALID_PKEY_INDEX : Z := 65535.
Definition ENETRESET : Z := 102.
Definition NUM_JOIN_MEMBERSHIP_TYPES : nat := 4.

Record mcast_group := {
  g_rec : ib_sa_mcmember_rec;
  g_pending : list positive;
  g_active : list positive;
  g_last_join : option positive;
  g_members : list Z;
  g_refcount : Z;
  g_state : mcast_group_state;
  g_pkey_index : Z;
  g_leave_state : Z;
  g_retries : Z
}.

(** The sections of [ib_sa_free_multicast]: under the lock, queueing the work or releasing
    the group, giving up the own reference, waiting for the others. *)
Inductive free_pc := F_lock | F_queue | F_release | F_deref | F_wait.
#[export] Instance free_pc_eq_dec : EqDecision free_pc.
Proof. solve_decision. Defined.

(** Who has a member: the join is not queued yet; the client has it; it is being freed, by
    the handler ([true]) or by its client. *)
Inductive member_pc := M_queue | M_owned | M_freeing (handler : bool) (pc : free_pc).
#[export] Instance member_pc_eq_dec : EqDecision member_pc.
Proof. solve_decision. Defined.

(** [m_log] are the statuses its callback was called with. *)
Record mcast_member := {
  m_rec : ib_sa_mcmember_rec;
  m_comp_mask : Z;
  m_state : mcast_state;
  m_refcount : Z;
  m_pc : member_pc;
  m_log : list Z
}.

Definition put_rec (r : ib_sa_mcmember_rec) (g : mcast_group) : mcast_group :=
  {| g_rec := r; g_pending := g_pending g; g_active := g_active g; g_last_join := g_last_join g; g_members := g_members g;
     g_refcount := g_refcount g; g_state := g_state g; g_pkey_index := g_pkey_index g; g_leave_state := g_leave_state g;
     g_retries := g_retries g |}.
Definition put_lists (pl al : list positive) (g : mcast_group) : mcast_group :=
  {| g_rec := g_rec g; g_pending := pl; g_active := al; g_last_join := g_last_join g; g_members := g_members g;
     g_refcount := g_refcount g; g_state := g_state g; g_pkey_index := g_pkey_index g; g_leave_state := g_leave_state g;
     g_retries := g_retries g |}.
Definition put_last_join (x : option positive) (g : mcast_group) : mcast_group :=
  {| g_rec := g_rec g; g_pending := g_pending g; g_active := g_active g; g_last_join := x; g_members := g_members g;
     g_refcount := g_refcount g; g_state := g_state g; g_pkey_index := g_pkey_index g; g_leave_state := g_leave_state g;
     g_retries := g_retries g |}.
Definition put_members (ms : list Z) (g : mcast_group) : mcast_group :=
  {| g_rec := g_rec g; g_pending := g_pending g; g_active := g_active g; g_last_join := g_last_join g; g_members := ms;
     g_refcount := g_refcount g; g_state := g_state g; g_pkey_index := g_pkey_index g; g_leave_state := g_leave_state g;
     g_retries := g_retries g |}.
Definition put_refcount (n : Z) (g : mcast_group) : mcast_group :=
  {| g_rec := g_rec g; g_pending := g_pending g; g_active := g_active g; g_last_join := g_last_join g; g_members := g_members g;
     g_refcount := n; g_state := g_state g; g_pkey_index := g_pkey_index g; g_leave_state := g_leave_state g;
     g_retries := g_retries g |}.
Definition put_state (st : mcast_group_state) (g : mcast_group) : mcast_group :=
  {| g_rec := g_rec g; g_pending := g_pending g; g_active := g_active g; g_last_join := g_last_join g; g_members := g_members g;
     g_refcount := g_refcount g; g_state := st; g_pkey_index := g_pkey_index g; g_leave_state := g_leave_state g;
     g_retries := g_retries g |}.
Definition put_pkey_index (n : Z) (g : mcast_group) : mcast_group :=
  {| g_rec := g_rec g; g_pending := g_pending g; g_active := g_active g; g_last_join := g_last_join g; g_members := g_members g;
     g_refcount := g_refcount g; g_state := g_state g; g_pkey_index := n; g_leave_state := g_leave_state g;
     g_retries := g_retries g |}.
Definition put_leave (ls n : Z) (g : mcast_group) : mcast_group :=
  {| g_rec := g_rec g; g_pending := g_pending g; g_active := g_active g; g_last_join := g_last_join g; g_members := g_members g;
     g_refcount := g_refcount g; g_state := g_state g; g_pkey_index := g_pkey_index g; g_leave_state := ls; g_retries := n |}.

Definition m_with (r : ib_sa_mcmember_rec) (st : mcast_state) (n : Z) (pc : member_pc) (l : list Z) (x : mcast_member) : mcast_member :=
  {| m_rec := r; m_comp_mask := m_comp_mask x; m_state := st; m_refcount := n; m_pc := pc; m_log := l |}.
Definition m_put_refcount (n : Z) (x : mcast_member) : mcast_member := m_with (m_rec x) (m_state x) n (m_pc x) (m_log x) x.
Definition m_put_state (st : mcast_state) (x : mcast_member) : mcast_member := m_with (m_rec x) st (m_refcount x) (m_pc x) (m_log x) x.
Definition m_put_pc (pc : member_pc) (x : mcast_member) : mcast_member := m_with (m_rec x) (m_state x) (m_refcount x) pc (m_log x) x.
Definition m_called (status : Z) (x : mcast_member) : mcast_member :=
  m_with (m_rec x) (m_state x) (m_refcount x) (m_pc x) (m_log x ++ [status]) x.

(** [adjust_membership]. *)
Fixpoint adjust_members (ms : list Z) (js inc : Z) : list Z :=
  match ms with
  | [] => []
  | c :: ms => (if has_flag js 1 then c + inc else c) :: adjust_members ms (Z.shiftr js 1) inc
  end.
Definition adjust_membership (js inc : Z) (g : mcast_group) : mcast_group := put_members (adjust_members (g_members g) js inc) g.

(** [get_leave_state]. *)
Fixpoint unused_types (ms : list Z) (i : Z) (leave_state : Z) : Z :=
  match ms with
  | [] => leave_state
  | c :: ms => unused_types ms (i + 1) (if c =? 0 then Z.lor leave_state (Z.shiftl 1 i) else leave_state)
  end.
Definition get_leave_state (g : mcast_group) : Z := Z.land (unused_types (g_members g) 0 0) (join_state (g_rec g)).

(** [list_del_init] of the node of a member, whichever list it is on. *)
Definition list_del_init (id : positive) (g : mcast_group) : mcast_group :=
  put_lists (filter (fun x => x <> id) (g_pending g)) (filter (fun x => x <> id) (g_active g)) g.

(** ** The state of a group

    Where its handler stands ([K_query_join] and [K_query_leave]: waiting for the SA), in
    [errs] whether it works on an event; whether the work is queued; how many handlers have
    finished but not yet released the group; whose reference a handler that has sent a
    request still has to give up; whether [leave_handler] has sent a request again and not
    yet counted it. *)

Inductive handler_pc :=
| K_none
| K_loop
| K_pge
| K_error (found : option (option Z))
| K_errs
| K_cb (id : positive) (status : Z) (errs : bool)
| K_deref (id : positive) (free errs : bool)
| K_free (id : positive) (errs : bool)
| K_send (id : positive)
| K_fail (id : positive) (status : Z)
| K_leave (js : Z)
| K_query_join
| K_query_leave.
#[export] Instance handler_pc_eq_dec : EqDecision handler_pc.
Proof. solve_decision. Defined.

Record sys := {
  s_grp : mcast_group;
  s_live : bool;
  s_wq : bool;
  s_pc : handler_pc;
  s_rel : nat;
  s_tails : list positive;
  s_resent : nat;
  s_mem : gmap positive mcast_member
}.

Definition up_grp (g : mcast_group) (s : sys) : sys :=
  {| s_grp := g; s_live := s_live s; s_wq := s_wq s; s_pc := s_pc s; s_rel := s_rel s; s_tails := s_tails s;
     s_resent := s_resent s; s_mem := s_mem s |}.
Definition up_live (b : bool) (s : sys) : sys :=
  {| s_grp := s_grp s; s_live := b; s_wq := s_wq s; s_pc := s_pc s; s_rel := s_rel s; s_tails := s_tails s;
     s_resent := s_resent s; s_mem := s_mem s |}.
Definition up_wq (b : bool) (s : sys) : sys :=
  {| s_grp := s_grp s; s_live := s_live s; s_wq := b; s_pc := s_pc s; s_rel := s_rel s; s_tails := s_tails s;
     s_resent := s_resent s; s_mem := s_mem s |}.
Definition up_pc (pc : handler_pc) (s : sys) : sys :=
  {| s_grp := s_grp s; s_live := s_live s; s_wq := s_wq s; s_pc := pc; s_rel := s_rel s; s_tails := s_tails s;
     s_resent := s_resent s; s_mem := s_mem s |}.
Definition up_rel (n : nat) (s : sys) : sys :=
  {| s_grp := s_grp s; s_live := s_live s; s_wq := s_wq s; s_pc := s_pc s; s_rel := n; s_tails := s_tails s;
     s_resent := s_resent s; s_mem := s_mem s |}.
Definition up_tails (l : list positive) (s : sys) : sys :=
  {| s_grp := s_grp s; s_live := s_live s; s_wq := s_wq s; s_pc := s_pc s; s_rel := s_rel s; s_tails := l;
     s_resent := s_resent s; s_mem := s_mem s |}.
Definition up_resent (n : nat) (s : sys) : sys :=
  {| s_grp := s_grp s; s_live := s_live s; s_wq := s_wq s; s_pc := s_pc s; s_rel := s_rel s; s_tails := s_tails s;
     s_resent := n; s_mem := s_mem s |}.
Definition up_mem (m : gmap positive mcast_member) (s : sys) : sys :=
  {| s_grp := s_grp s; s_live := s_live s; s_wq := s_wq s; s_pc := s_pc s; s_rel := s_rel s; s_tails := s_tails s;
     s_resent := s_resent s; s_mem := m |}.
Definition put (id : positive) (x : mcast_member) (s : sys) : sys := up_mem (<[id := x]> (s_mem s)) s.

(** Access to the group and to a member: a bug when the memory was freed. *)
Definition on_grp {A} (s : sys) (f : mcast_group -> outcome A) : outcome A :=
  if s_live s then f (s_grp s) else Bug.
Definition on_mem {A} (s : sys) (id : positive) (f : mcast_member -> outcome A) : outcome A :=
  match s_mem s !! id with Some x => f x | None => Bug end.

(** [release_group]; the group is taken out of the table of the port and freed. *)
Definition release_group (s : sys) : outcome sys := on_grp s (fun g =>
  let s := up_grp (put_refcount (g_refcount g - 1) g) s in
  if g_refcount g <=? 0 then Bug else Ok (if g_refcount g =? 1 then up_live false s else s)).

Definition deref_member (id : positive) (s : sys) : outcome sys := on_mem s id (fun x =>
  if m_refcount x <=? 0 then Bug else Ok (put id (m_put_refcount (m_refcount x - 1) x) s)).

Definition ref_member (id : positive) (s : sys) : outcome sys := on_mem s id (fun x =>
  Ok (put id (m_put_refcount (m_refcount x + 1) x) s)).

(** Queueing work that is queued already would lose the reference that goes with it. *)
Definition queue_work (s : sys) : outcome sys := if s_wq s then Bug else Ok (up_wq true s).

Definition queue_join (id : positive) (s : sys) : outcome sys := on_grp s (fun g => on_mem s id (fun x =>
  let s := put id (m_put_pc M_owned x) s in
  let g := put_lists (g_pending g ++ [id]) (g_active g) g in
  if decide (g_state g = MCAST_IDLE)
  then queue_work (up_grp (put_refcount (g_refcount g + 1) (put_state MCAST_BUSY g)) s)
  else Ok (up_grp g s))).

(** A group that [acquire_group] has just made, and the reference it takes on a group. *)
Definition new_group (gid : Z) : mcast_group :=
  {| g_rec := {| mgid := gid; port_gid := 0; qkey := 0; mlid := 0; mtu_selector := 0; mtu := 0; traffic_class := 0;
                 pkey := 0; rate_selector := 0; rate := 0; packet_life_time_selector := 0; packet_life_time := 0;
                 sl := 0; flow_label := 0; hop_limit := 0; scope := 0; join_state := 0; proxy_join := 0 |};
     g_pending := []; g_active := []; g_last_join := None; g_members := replicate NUM_JOIN_MEMBERSHIP_TYPES 0;
     g_refcount := 0; g_state := MCAST_IDLE; g_pkey_index := MCAST_INVALID_PKEY_INDEX; g_leave_state := 0; g_retries := 3 |}.

(** [ib_sa_join_multicast] up to [queue_join], for the group found in the table. *)
Definition new_member (rec : ib_sa_mcmember_rec) (comp_mask : Z) : mcast_member :=
  {| m_rec := rec; m_comp_mask := comp_mask; m_state := MCAST_JOINING; m_refcount := 1; m_pc := M_queue; m_log := [] |}.

Definition ib_sa_join_multicast (id : positive) (rec : ib_sa_mcmember_rec) (comp_mask : Z) (s : sys) : outcome sys :=
  on_grp s (fun g =>
    Ok (up_grp (put_refcount (g_refcount g + 1) g) (put id (new_member rec comp_mask) s))).

(** [ib_sa_free_multicast]; [None] is its end. *)
Definition ib_sa_free_multicast (id : positive) (pc : free_pc) (s : sys) : outcome (sys * option free_pc) :=
  match pc with
  | F_lock => on_grp s (fun g => on_mem s id (fun x =>
      let g := if decide (m_state x = MCAST_MEMBER) then adjust_membership (join_state (m_rec x)) (-1) g else g in
      let g := list_del_init id g in
      if decide (g_state g = MCAST_IDLE) then Ok (up_grp (put_state MCAST_BUSY g) s, Some F_queue)
      else Ok (up_grp g s, Some F_release)))
  | F_queue => s ← queue_work s; Ok (s, Some F_deref)
  | F_release => s ← release_group s; Ok (s, Some F_deref)
  | F_deref => s ← deref_member id s; Ok (s, Some F_wait)
  | F_wait => on_mem s id (fun x =>
      if m_refcount x =? 0 then Ok (up_mem (delete id (s_mem s)) s, None) else Block)
  end.

(** One section of the thread that frees a member. *)
Definition free_step (id : positive) (s : sys) : outcome (sys * bool) := on_mem s id (fun x =>
  match m_pc x with
  | M_freeing h pc =>
      '(s, r) ← ib_sa_free_multicast id pc s;
      match r with
      | None => Ok (s, true)
      | Some pc => s ← on_mem s id (fun x => Ok (put id (m_put_pc (M_freeing h pc) x) s)); Ok (s, false)
      end
  | _ => Block
  end).

(** [mcast_groups_event] on this group. *)
Definition mcast_groups_event (state : mcast_group_state) (s : sys) : outcome sys := on_grp s (fun g =>
  s ← (if decide (g_state g = MCAST_IDLE) then queue_work (up_grp (put_refcount (g_refcount g + 1) g) s) else Ok s);
  let g := s_grp s in
  Ok (up_grp (if decide (g_state g = MCAST_GROUP_ERROR) then g else put_state state g) s)).

(** ** The handler *)

Definition join_group (id : positive) (x : mcast_member) (js : Z) (s : sys) : sys :=
  let g := adjust_membership js 1 (s_grp s) in
  let g := put_rec (with_join_state (Z.lor (join_state (g_rec g)) js) (g_rec g)) g in
  let g := list_del_init id g in
  up_grp (put_lists (g_pending g) (id :: g_active g) g)
    (put id (m_with (with_join_state js (g_rec g)) MCAST_MEMBER (m_refcount x) (m_pc x) (m_log x) x) s).

(** What others answer in one step: a callback, the SA client, the search of a P_Key. *)
Record input := {
  i_ret : Z;
  i_pkey : option Z
}.

(** The result of [send_join] and [send_leave]. *)
Definition query_result (ret : Z) : Z := if 0 <? ret then 0 else ret.

(** After the callback: the rest of the loop of [process_group_error], or of the loop of
    [mcast_work_handler]. *)
Definition back (errs : bool) : handler_pc := if errs then K_errs else K_loop.

(** One round of the loop of [process_group_error], with the lock held. *)
Definition process_group_error (s : sys) : outcome sys :=
  let g := s_grp s in
  match g_active g with
  | [] => Ok (up_pc K_loop (up_grp (put_state MCAST_BUSY (put_rec (with_join_state 0 (g_rec g)) g)) s))
  | id :: _ => on_mem s id (fun x =>
      let g := adjust_membership (join_state (m_rec x)) (-1) (list_del_init id g) in
      s ← ref_member id s;
      on_mem s id (fun x => Ok (up_pc (K_cb id (err ENETRESET) true) (up_grp g (put id (m_put_state MCAST_ERROR x) s)))))
  end.

(** One round of the loop of [mcast_work_handler], and what follows the loop. *)
Definition mcast_work_loop (s : sys) : outcome sys :=
  let g := s_grp s in
  if bool_decide (g_pending g <> []) || bool_decide (g_state g <> MCAST_BUSY) then
    if decide (g_state g = MCAST_BUSY) then
      match g_pending g with
      | [] => Bug
      | id :: _ =>
          s ← ref_member id s;
          on_mem s id (fun x =>
            let js := join_state (m_rec x) in
            if js =? Z.land (join_state (g_rec g)) js then
              let status := cmp_rec (g_rec g) (m_rec x) (m_comp_mask x) in
              Ok (up_pc (K_cb id status false)
                    (if status =? 0 then join_group id x js s else up_grp (list_del_init id g) s))
            else Ok (up_pc (K_send id) s))
      end
    else Ok (up_pc K_pge s)
  else
    let js := get_leave_state g in
    if negb (js =? 0)
    then Ok (up_pc (K_leave js) (up_grp (put_rec (with_join_state (Z.ldiff (join_state (g_rec g)) js) (g_rec g)) g) s))
    else Ok (up_rel (S (s_rel s)) (up_pc K_none (up_grp (put_state MCAST_IDLE g) s))).

(** The sections of [mcast_work_handler]. *)
Definition mcast_work_handler (i : input) (s : sys) : outcome sys := on_grp s (fun g =>
  match s_pc s with
  | K_none | K_query_join | K_query_leave => Block
  | K_loop => mcast_work_loop s
  | K_pge => Ok (up_pc (K_error (if decide (g_state g = MCAST_PKEY_EVENT) then Some (i_pkey i) else None)) s)
  | K_error found =>
      if decide (g_state g = MCAST_PKEY_EVENT) then
        match found with
        | None => Bug
        | Some r =>
            if bool_decide (r = Some (g_pkey_index g)) then Ok (up_pc K_loop (up_grp (put_state MCAST_BUSY g) s))
            else process_group_error s
        end
      else process_group_error s
  | K_errs => process_group_error s
  | K_cb id status errs => on_mem s id (fun x =>
      let free := negb (i_ret i =? 0) in
      let x := m_called status x in
      Ok (up_pc (K_deref id free errs) (put id (if free then m_put_pc (M_freeing true F_lock) x else x) s)))
  | K_deref id free errs =>
      s ← deref_member id s; Ok (up_pc (if free then K_free id errs else back errs) s)
  | K_free id errs =>
      '(s, done) ← free_step id s; Ok (if done : bool then up_pc (back errs) s else s)
  | K_send id =>
      let s := up_grp (put_last_join (Some id) g) s in
      let status := query_result (i_ret i) in
      Ok (if status =? 0 then up_tails (id :: s_tails s) (up_pc K_query_join s) else up_pc (K_fail id status) s)
  | K_fail id status => Ok (up_pc (K_cb id status false) (up_grp (list_del_init id g) s))
  | K_leave js =>
      let s := up_grp (put_leave js (g_retries g) g) s in
      Ok (up_pc (if query_result (i_ret i) =? 0 then K_query_leave else K_loop) s)
  end).

(** [process_join_error]: the request that was sent fails if it is still the first. *)
Definition process_join_error (status : Z) (s : sys) : outcome sys :=
  let g := s_grp s in
  match g_pending g with
  | id :: _ =>
      if decide (g_last_join g = Some id) then
        s ← ref_member id s; Ok (up_pc (K_cb id status false) (up_grp (list_del_init id g) s))
      else Ok (up_pc K_loop s)
  | [] => Ok (up_pc K_loop s)
  end.

(** [join_handler]; [i_pkey] is the index of the P_Key of the record. *)
Definition join_handler (i : input) (status : Z) (rec : ib_sa_mcmember_rec) (s : sys) : outcome sys := on_grp s (fun g =>
  if negb (status =? 0) then process_join_error status s
  else
    let pkey_index := default MCAST_INVALID_PKEY_INDEX (i_pkey i) in
    let g := if bool_decide (g_state g = MCAST_BUSY) && (g_pkey_index g =? MCAST_INVALID_PKEY_INDEX)
             then put_pkey_index pkey_index g else g in
    Ok (up_pc K_loop (up_grp (put_rec rec g) s))).

(** [leave_handler] *)
Definition leave_handler (i : input) (status : Z) (s : sys) : outcome sys := on_grp s (fun g =>
  if negb (status =? 0) && (0 <? g_retries g) && (query_result (i_ret i) =? 0) then Ok (up_resent (S (s_resent s)) s)
  else Ok (up_pc K_loop s)).

(** ** Steps *)

Fixpoint delete_one (id : positive) (l : list positive) : list positive :=
  match l with
  | [] => []
  | x :: l => if decide (x = id) then l else x :: delete_one id l
  end.

Inductive label :=
| L_join (id : positive) (rec : ib_sa_mcmember_rec) (comp_mask : Z)
| L_queue (id : positive)
| L_free (id : positive)
| L_freeing (id : positive)
| L_event (state : mcast_group_state)
| L_dispatch
| L_handler (i : input)
| L_reply (i : input) (status : Z) (rec : ib_sa_mcmember_rec)
| L_release
| L_tail (id : positive)
| L_resent.

Definition run_step (l : label) (s : sys) : outcome sys :=
  match l with
  | L_join id rec comp_mask => ib_sa_join_multicast id rec comp_mask s
  | L_queue id => queue_join id s
  | L_free id => on_mem s id (fun x => Ok (put id (m_put_pc (M_freeing false F_lock) x) s))
  | L_freeing id => '(s, _) ← free_step id s; Ok s
  | L_event st => mcast_groups_event st s
  | L_dispatch =>
      if s_wq s then if decide (s_pc s = K_none) then Ok (up_pc K_loop (up_wq false s)) else Bug else Block
  | L_handler i => mcast_work_handler i s
  | L_reply i status rec =>
      match s_pc s with
      | K_query_join => join_handler i status rec s
      | K_query_leave => leave_handler i status s
      | _ => Block
      end
  | L_release => match s_rel s with O => Block | S n => release_group (up_rel n s) end
  | L_tail id => s ← deref_member id s; Ok (up_tails (delete_one id (s_tails s)) s)
  | L_resent => on_grp s (fun g => Ok (up_resent (pred (s_resent s)) (up_grp (put_leave (g_leave_state g) (g_retries g - 1) g) s)))
  end.

(** The rules of the others: an address is used again only after it was freed, and a group
    is found only while it is in the table; a client frees a membership once, and gives it
    to the handler, by the result of a callback, only if it has not freed it itself; an
    answer of the SA to a join keeps the states the port is known to have joined. Answers
    come at any time: also the answer to a leave request that [leave_handler] has sent again
    before that [leave_handler] has counted the retry ([L_resent]). *)
Definition is_owned (id : positive) (s : sys) : bool :=
  match s_mem s !! id with Some x => bool_decide (m_pc x = M_owned) | None => false end.

Definition allowed (l : label) (s : sys) : bool :=
  match l with
  | L_join id _ _ => s_live s && bool_decide (s_mem s !! id = None)
  | L_queue id => match s_mem s !! id with Some x => bool_decide (m_pc x = M_queue) | None => false end
  | L_free id => is_owned id s
  | L_freeing id =>
      match s_mem s !! id with Some x => match m_pc x with M_freeing h _ => negb h | _ => false end | None => false end
  | L_event st => s_live s && (bool_decide (st = MCAST_GROUP_ERROR) || bool_decide (st = MCAST_PKEY_EVENT))
  | L_dispatch | L_release => true
  | L_handler i =>
      match s_pc s with K_none => false | K_cb id _ _ => (i_ret i =? 0) || is_owned id s | _ => true end
  | L_reply i status rec =>
      match s_pc s with
      | K_query_join => negb (status =? 0) || (Z.ldiff (join_state (g_rec (s_grp s))) (join_state rec) =? 0)
      | _ => true
      end
  | L_tail id => bool_decide (id ∈ s_tails s)
  | L_resent => (0 <? s_resent s)%nat
  end.

(** A run starts with the first request for a group, which is made and entered into the
    table for it. *)
Definition init_sys (id : positive) (rec : ib_sa_mcmember_rec) (comp_mask : Z) : sys :=
  {| s_grp := put_refcount 1 (new_group (mgid rec)); s_live := true; s_wq := false; s_pc := K_none; s_rel := 0; s_tails := [];
     s_resent := 0; s_mem := {[ id := new_member rec comp_mask ]} |}.

Inductive reachable : sys -> Prop :=
| reach_init id rec comp_mask : reachable (init_sys id rec comp_mask)
| reach_step l s s' : reachable s -> allowed l s = true -> run_step l s = Ok s' -> reachable s'.
