(* ===== verification/McastTable.v ===== *)
(** * The multicast groups of a port

    core/multicast.c keeps the groups of a port in a search tree ordered by their MGID. A
    request finds its group there or enters a new one; a group that nobody refers to is taken
    out and freed; an answer of the SA can give a group another MGID, and then moves it.
    Groups whose MGID is still to be chosen by the SA (zero) are all different. Each operation
    is a section under the lock of the port. The rebalancing of the tree (the red-black trees
    of the kernel) is behind the interface [RbTree]: it keeps the order of the entries. *)

From Stdlib Require Import ZArith Lia.
From stdpp Require Import base tactics numbers list option gmap sorting.
From S2P Require Import Prelude Outcome Mcast.

Local Open Scope Z_scope.

(** ** Trees *)

(** An entry is the address of a group and its MGID. *)
Abbreviation entry := (positive * Z)%type.

Inductive tree := Leaf | Node (l : tree) (e : entry) (r : tree).

Fixpoint inorder (t : tree) : list entry :=
  match t with Leaf => [] | Node l e r => inorder l ++ e :: inorder r end.

Fixpoint mcast_find (gid : Z) (t : tree) : option positive :=
  match t with
  | Leaf => None
  | Node l (id, k) r => if gid =? k then Some id else if gid <? k then mcast_find gid l else mcast_find gid r
  end.

(** The walk of [mcast_insert]: the tree with the new entry at the place found, or the group
    that is there. *)
Fixpoint link_node (e : entry) (allow_duplicates : bool) (t : tree) : tree + positive :=
  match t with
  | Leaf => inl (Node Leaf e Leaf)
  | Node l (id, k) r =>
      let left := match link_node e allow_duplicates l with inl l => inl (Node l (id, k) r) | inr c => inr c end in
      if e.2 <? k then left
      else if k <? e.2 then match link_node e allow_duplicates r with inl r => inl (Node l (id, k) r) | inr c => inr c end
      else if allow_duplicates then left
      else inr id
  end.

(** What the code relies on: rebalancing after an insertion keeps the entries in order, and
    erasing takes out the entry of a group. *)
Class RbTree := {
  rb_insert_color : tree -> tree;
  rb_erase : positive -> tree -> tree;
  rb_insert_color_inorder t : inorder (rb_insert_color t) = inorder t;
  rb_erase_inorder id t : inorder (rb_erase id t) = filter (fun e => e.1 <> id) (inorder t)
}.

Record table_group := {
  t_mgid : Z;
  t_refcount : Z
}.

Record mcast_port := {
  p_table : tree;
  p_refcount : Z;
  p_groups : gmap positive table_group
}.

Section port.
  Context `{RB : RbTree}.

Definition mcast_insert (e : entry) (allow_duplicates : bool) (t : tree) : tree + positive :=
  match link_node e allow_duplicates t with inl t => inl (rb_insert_color t) | inr c => inr c end.

(** ** Operations of a port *)

Definition with_group (id : positive) (p : mcast_port) (f : table_group -> outcome mcast_port) : outcome mcast_port :=
  match p_groups p !! id with Some x => f x | None => Bug end.

Definition ref_group (id : positive) (p : mcast_port) : outcome mcast_port := with_group id p (fun x =>
  Ok {| p_table := p_table p; p_refcount := p_refcount p;
        p_groups := <[id := {| t_mgid := t_mgid x; t_refcount := t_refcount x + 1 |}]> (p_groups p) |}).

(** The two sections of [acquire_group]: the search, and the insertion of the group made in
    between, at address [id]. *)
Definition acquire_find (gid : Z) (p : mcast_port) : outcome mcast_port :=
  if gid =? 0 then Ok p else match mcast_find gid (p_table p) with Some id => ref_group id p | None => Ok p end.

Definition acquire_insert (gid : Z) (id : positive) (p : mcast_port) : outcome mcast_port :=
  match mcast_insert (id, gid) (gid =? 0) (p_table p) with
  | inr cur => ref_group cur p
  | inl t => ref_group id {| p_table := t; p_refcount := p_refcount p + 1; p_groups := <[id := {| t_mgid := gid; t_refcount := 0 |}]> (p_groups p) |}
  end.

(** Erasing a node that is not in the tree corrupts it. *)
Definition erase (id : positive) (p : mcast_port) : outcome mcast_port :=
  if bool_decide (id ∈ (inorder (p_table p)).*1)
  then Ok {| p_table := rb_erase id (p_table p); p_refcount := p_refcount p; p_groups := p_groups p |}
  else Bug.

(** [release_group] *)
Definition release_entry (id : positive) (p : mcast_port) : outcome mcast_port := with_group id p (fun x =>
  if t_refcount x =? 1 then
    p ← erase id p;
    Ok {| p_table := p_table p; p_refcount := p_refcount p - 1; p_groups := delete id (p_groups p) |}
  else Ok {| p_table := p_table p; p_refcount := p_refcount p;
             p_groups := <[id := {| t_mgid := t_mgid x; t_refcount := t_refcount x - 1 |}]> (p_groups p) |}).

(** The part of [join_handler] that stores the record of the answer: a group with a new MGID
    is moved in the table. The result of [mcast_insert] is ignored. *)
Definition store_mgid (id : positive) (gid : Z) (p : mcast_port) : outcome mcast_port := with_group id p (fun x =>
  let groups := <[id := {| t_mgid := gid; t_refcount := t_refcount x |}]> (p_groups p) in
  if gid =? t_mgid x then Ok {| p_table := p_table p; p_refcount := p_refcount p; p_groups := groups |}
  else
    p ← erase id p;
    Ok {| p_table := match mcast_insert (id, gid) (gid =? 0) (p_table p) with inl t => t | inr _ => p_table p end;
          p_refcount := p_refcount p; p_groups := groups |}).

(** [ib_sa_get_mcmember_rec], for the records of the groups. *)
Definition EADDRNOTAVAIL : Z := 99.
Definition ib_sa_get_mcmember_rec (dev : bool) (recs : positive -> ib_sa_mcmember_rec) (gid : Z) (p : mcast_port)
  : Z * option ib_sa_mcmember_rec :=
  if negb dev then (err ENODEV, None)
  else match mcast_find gid (p_table p) with Some id => (0, Some (recs id)) | None => (err EADDRNOTAVAIL, None) end.

(** The groups [mcast_groups_event] visits, by [rb_first] and [rb_next]. *)
Definition event_groups (p : mcast_port) : list positive := (inorder (p_table p)).*1.

(** ** Runs *)

Inductive port_op :=
| Op_find (gid : Z)
| Op_insert (gid : Z) (id : positive)
| Op_release (id : positive)
| Op_store (id : positive) (gid : Z).

Definition port_step (o : port_op) (p : mcast_port) : outcome mcast_port :=
  match o with
  | Op_find gid => acquire_find gid p
  | Op_insert gid id => acquire_insert gid id p
  | Op_release id => release_entry id p
  | Op_store id gid => store_mgid id gid p
  end.

(** A new group has an address of its own; who releases a group, or stores an answer, has a
    reference on it. *)
Definition port_allowed (o : port_op) (p : mcast_port) : Prop :=
  match o with
  | Op_find _ => True
  | Op_insert _ id => p_groups p !! id = None
  | Op_release id => is_Some (p_groups p !! id)
  | Op_store id _ => is_Some (p_groups p !! id)
  end.

(** The SA gives a group the MGID of another group in the table. *)
Definition collides (o : port_op) (p : mcast_port) : bool :=
  match o with
  | Op_store id gid =>
      match p_groups p !! id, mcast_find gid (p_table p) with
      | Some x, Some _ => negb (gid =? t_mgid x) && negb (gid =? 0)
      | _, _ => false
      end
  | _ => false
  end.

(** A port as [mcast_add_one] makes it. *)
Definition new_port : mcast_port := {| p_table := Leaf; p_refcount := 1; p_groups := ∅ |}.

(** The runs of a port; the flag tells whether an answer of the SA has collided. *)
Inductive port_reachable : bool -> mcast_port -> Prop :=
| port_init : port_reachable false new_port
| port_next o b p p' : port_reachable b p -> port_allowed o p -> port_step o p = Ok p' -> port_reachable (b || collides o p) p'.
End port.

(** ** Devices *)

Inductive ib_event_type :=
| IB_EVENT_CQ_ERR | IB_EVENT_QP_FATAL | IB_EVENT_QP_REQ_ERR | IB_EVENT_QP_ACCESS_ERR | IB_EVENT_COMM_EST | IB_EVENT_SQ_DRAINED
| IB_EVENT_PATH_MIG | IB_EVENT_PATH_MIG_ERR | IB_EVENT_DEVICE_FATAL | IB_EVENT_PORT_ACTIVE | IB_EVENT_PORT_ERR | IB_EVENT_LID_CHANGE
| IB_EVENT_PKEY_CHANGE | IB_EVENT_SM_CHANGE | IB_EVENT_SRQ_ERR | IB_EVENT_SRQ_LIMIT_REACHED | IB_EVENT_QP_LAST_WQE_REACHED
| IB_EVENT_CLIENT_REREGISTER | IB_EVENT_GID_CHANGE | IB_EVENT_WQ_FATAL | IB_EXP_EVENT_XRQ_QP_ERR
| IB_EVENT_XRQ_NVMF_BACKEND_CTRL_PCI_ERR | IB_EVENT_XRQ_NVMF_BACKEND_CTRL_TO_ERR.

(** The index of the port and the state [mcast_event_handler] gives its groups; [cap] is
    [rdma_cap_ib_mcast]. *)
Definition mcast_event_handler (cap : Z -> bool) (start_port port_num : Z) (event : ib_event_type)
  : option (Z * mcast_group_state) :=
  if negb (cap port_num) then None else
  let index := port_num - start_port in
  match event with
  | IB_EVENT_PORT_ERR | IB_EVENT_LID_CHANGE | IB_EVENT_CLIENT_REREGISTER => Some (index, MCAST_GROUP_ERROR)
  | IB_EVENT_PKEY_CHANGE => Some (index, MCAST_PKEY_EVENT)
  | _ => None
  end.

(** [mcast_add_one]: the ports of a device, of which those without multicast are not
    initialised. *)
Definition EOPNOTSUPP : Z := 95.

Definition init_ports (cap : Z -> bool) (start_port : Z) (n : nat) : list (option mcast_port) :=
  map (fun i => if cap (start_port + Z.of_nat i) then Some new_port else None) (seq 0 n).

Definition mcast_add_one (alloc : bool) (cap : Z -> bool) (start_port end_port : Z) : Z * option (list (option mcast_port)) :=
  if negb alloc then (err ENOMEM, None) else
  let ports := init_ports cap start_port (Z.to_nat (end_port - start_port + 1)) in
  let count := length (filter is_Some ports) in
  if bool_decide (count = O) then (err EOPNOTSUPP, None) else (0, Some ports).

(** [deref_port] in [mcast_remove_one]: whether the wait for its groups is over. *)
Definition deref_port (p : mcast_port) : mcast_port * bool :=
  ({| p_table := p_table p; p_refcount := p_refcount p - 1; p_groups := p_groups p |}, p_refcount p - 1 =? 0).

(** ** The tree is searched and extended in order *)

Definition key_le (a b : entry) : Prop := a.2 <= b.2.
Abbreviation ordered := (StronglySorted key_le).

Lemma ordered_node l e r :
  ordered (inorder l ++ e :: inorder r) <->
  ordered (inorder l) /\ ordered (inorder r) /\ (forall x, x ∈ inorder l -> x.2 <= e.2) /\ (forall x, x ∈ inorder r -> e.2 <= x.2).
Proof.
  rewrite StronglySorted_app, StronglySorted_cons, Forall_forall. unfold key_le. split.
  - intros (H1 & H2 & H3 & H4). split_and!; try done. intros x Hx. apply (H1 x e Hx). set_solver.
  - intros (H1 & H2 & H3 & H4). split_and!; try done. intros x y Hx [->|Hy]%elem_of_cons; [auto|]. specialize (H3 x Hx). specialize (H4 y Hy). lia.
Qed.

Lemma find_in gid t id : mcast_find gid t = Some id -> (id, gid) ∈ inorder t.
Proof.
  induction t as [|l IHl [i k] r IHr]; cbn; [done|]. destruct (Z.eqb_spec gid k) as [->|]; [intros [= ->]; set_solver|].
  destruct (gid <? k); intros H; [apply IHl in H|apply IHr in H]; set_solver.
Qed.

Lemma find_none gid t : ordered (inorder t) -> mcast_find gid t = None -> forall id, (id, gid) ∉ inorder t.
Proof.
  induction t as [|l IHl [i k] r IHr]; cbn; intros Ho Hf id; [set_solver|].
  apply ordered_node in Ho as (O1 & O2 & O3 & O4). cbn in *. destruct (Z.eqb_spec gid k) as [->|Hk]; [done|].
  intros [Hi|[[= _ ?]|Hi]%elem_of_cons]%elem_of_app; [|done|].
  - pose proof (O3 _ Hi). cbn in *. destruct (Z.ltb_spec gid k); [by eapply IHl|lia].
  - pose proof (O4 _ Hi). cbn in *. destruct (Z.ltb_spec gid k); [lia|by eapply IHr].
Qed.

(** Where the walk of an insertion ends: at a place that keeps the order, or at the group that
    has the MGID. *)
Definition placed (e : entry) (dup : bool) (l : list entry) (o : tree + positive) : Prop :=
  match o with
  | inl t => exists l1 l2, l = l1 ++ l2 /\ inorder t = l1 ++ e :: l2 /\
      (forall x, x ∈ l1 -> x.2 <= e.2) /\ (forall x, x ∈ l2 -> e.2 <= x.2) /\ (dup = false -> forall id, (id, e.2) ∉ l)
  | inr c => dup = false /\ (c, e.2) ∈ l
  end.

Lemma placed_left e dup l n r o :
  placed e dup (inorder l) o -> e.2 <= n.2 -> (e.2 = n.2 -> dup = true) -> (forall x, x ∈ inorder r -> n.2 <= x.2) ->
  placed e dup (inorder l ++ n :: inorder r) match o with inl l => inl (Node l n r) | inr c => inr c end.
Proof.
  intros H Hk Hd Hr. destruct o as [t|c]; cbn in *; [|split; [apply H|set_solver]].
  destruct H as (l1 & l2 & E1 & E2 & B1 & B2 & B3). exists l1, (l2 ++ n :: inorder r). rewrite E1, E2.
  split_and!; [by rewrite <- app_assoc|by rewrite <- app_assoc|done| |].
  - intros x [Hx|[->|Hx]%elem_of_cons]%elem_of_app; [auto|done|]. specialize (Hr _ Hx). lia.
  - intros Hf id. rewrite <- E1. intros [Hx|[Hx|Hx]%elem_of_cons]%elem_of_app; [by eapply B3| |].
    + subst n. by rewrite Hd in Hf.
    + specialize (Hr _ Hx). cbn in *. rewrite Hd in Hf by lia. done.
Qed.

Lemma placed_right e dup l n r o :
  placed e dup (inorder r) o -> n.2 < e.2 -> (forall x, x ∈ inorder l -> x.2 <= n.2) ->
  placed e dup (inorder l ++ n :: inorder r) match o with inl r => inl (Node l n r) | inr c => inr c end.
Proof.
  intros H Hk Hl. destruct o as [t|c]; cbn in *; [|split; [apply H|set_solver]].
  destruct H as (l1 & l2 & E1 & E2 & B1 & B2 & B3). exists (inorder l ++ n :: l1), l2. rewrite E1, E2.
  split_and!; [by rewrite <- app_assoc|by rewrite <- app_assoc| |done|].
  - intros x [Hx|[->|Hx]%elem_of_cons]%elem_of_app; [|lia|auto]. specialize (Hl _ Hx). lia.
  - intros Hf id. rewrite <- E1. intros [Hx|[Hx|Hx]%elem_of_cons]%elem_of_app; [| |by eapply B3].
    + specialize (Hl _ Hx). cbn in *. lia.
    + subst n. cbn in *. lia.
Qed.

Lemma link_placed e dup t : ordered (inorder t) -> placed e dup (inorder t) (link_node e dup t).
Proof.
  induction t as [|l IHl [i k] r IHr]; cbn; intros Ho.
  { exists [], []. split_and!; try done; intros; set_solver. }
  apply ordered_node in Ho as (O1 & O2 & O3 & O4). cbn in *. specialize (IHl O1). specialize (IHr O2).
  destruct (Z.ltb_spec e.2 k) as [Hlt|Hge]; [apply placed_left; cbn; auto; lia|].
  destruct (Z.ltb_spec k e.2) as [Hlt|Hle]; [by apply placed_right|]. assert (e.2 = k) as He by lia.
  destruct dup; [apply placed_left; cbn; auto; lia|]. cbn. split; [done|]. rewrite He. set_solver.
Qed.

Lemma placed_ordered e dup l t : ordered l -> placed e dup l (inl t) -> ordered (inorder t).
Proof.
  intros Ho (l1 & l2 & -> & -> & B1 & B2 & _). apply StronglySorted_app in Ho as (H1 & H2 & H3).
  apply StronglySorted_app. split_and!; [|done|apply StronglySorted_cons; split; [apply Forall_forall; exact B2|done]].
  intros x y Hx [->|Hy]%elem_of_cons; [by apply B1|by apply H1].
Qed.

(** ** The invariant of a port *)

Record tree_ok (t : tree) : Prop := {
  to_ordered : ordered (inorder t);
  to_nodup : NoDup (inorder t).*1;
  to_unique : forall id id' gid, (id, gid) ∈ inorder t -> (id', gid) ∈ inorder t -> gid <> 0 -> id = id'
}.

Record port_ok (p : mcast_port) : Prop := {
  po_tree :> tree_ok (p_table p);
  po_groups : forall id gid, (id, gid) ∈ inorder (p_table p) -> exists x, p_groups p !! id = Some x /\ t_mgid x = gid;
  po_refs : forall id x, p_groups p !! id = Some x -> 0 < t_refcount x;
  po_count : p_refcount p = 1 + Z.of_nat (size (p_groups p))
}.

(** Every group is in the table. *)
Definition port_all (p : mcast_port) : Prop := forall id, is_Some (p_groups p !! id) -> id ∈ event_groups p.

(** A step of an operation that keeps the invariant, and the table complete unless it collides; or
    one that erases a group that is not in the table. *)
Definition port_good (p : mcast_port) (o : port_op) (r : outcome mcast_port) : Prop :=
  match r with
  | Ok p' => port_ok p' /\ (collides o p = false -> port_all p -> port_all p')
  | Bug => exists id, (o = Op_release id \/ exists gid, o = Op_store id gid) /\ id ∉ event_groups p
  | Block => True
  end.

Lemma in_event_groups p id : id ∈ event_groups p <-> exists gid, (id, gid) ∈ inorder (p_table p).
Proof.
  unfold event_groups. rewrite list_elem_of_fmap. split; [intros ([id' g] & -> & H); by exists g|intros [g H]; by exists (id, g)].
Qed.

Section invariant.
Context `{RB : RbTree}.

Lemma find_exact t gid id : tree_ok t -> gid <> 0 -> mcast_find gid t = Some id <-> (id, gid) ∈ inorder t.
Proof.
  intros [T1 T2 T3] Hg. split; [apply find_in|]. intros Hi. destruct (mcast_find gid t) as [id'|] eqn:Ef.
  - f_equal. apply find_in in Ef. by eapply T3.
  - by destruct (find_none _ _ T1 Ef id).
Qed.

(** A group that is not in the tree enters it, unless another one has its MGID. *)
Lemma tree_insert t id gid : tree_ok t -> id ∉ (inorder t).*1 ->
  match mcast_insert (id, gid) (gid =? 0) t with
  | inl t' => tree_ok t' /\ (forall e, e ∈ inorder t' <-> e = (id, gid) \/ e ∈ inorder t)
  | inr c => gid <> 0 /\ (c, gid) ∈ inorder t
  end.
Proof.
  intros [T1 T2 T3] Hid. unfold mcast_insert. pose proof (link_placed (id, gid) (gid =? 0) t T1) as X.
  destruct (link_node (id, gid) (gid =? 0) t) as [t'|c]; [|destruct X as [Hz X]; split; [by apply Z.eqb_neq|done]].
  pose proof (placed_ordered _ _ _ _ T1 X) as Ho. destruct X as (l1 & l2 & E1 & E2 & _ & _ & Hf). cbn in Hf.
  assert (forall e, e ∈ inorder (rb_insert_color t') <-> e = (id, gid) \/ e ∈ inorder t) as He.
  { intros e. rewrite rb_insert_color_inorder, E2, E1, !elem_of_app, elem_of_cons. tauto. }
  split; [|done]. constructor.
  - by rewrite rb_insert_color_inorder.
  - rewrite rb_insert_color_inorder, E2, fmap_app, fmap_cons, <- Permutation_middle, <- fmap_app, <- E1. by apply NoDup_cons.
  - intros i i' g [[= -> ->]|H1]%He [[= ->]|H2]%He Hg; try done.
    + by destruct (Hf ltac:(by apply Z.eqb_neq) i').
    + subst. by destruct (Hf ltac:(by apply Z.eqb_neq) i).
    + by eapply T3.
Qed.

Lemma tree_erase t id : tree_ok t -> tree_ok (rb_erase id t) /\ forall e, e ∈ inorder (rb_erase id t) <-> e.1 <> id /\ e ∈ inorder t.
Proof.
  intros [T1 T2 T3]. assert (forall e, e ∈ inorder (rb_erase id t) <-> e.1 <> id /\ e ∈ inorder t) as He
    by (intros e; by rewrite rb_erase_inorder, list_elem_of_filter). split; [|done]. constructor.
  - rewrite rb_erase_inorder. clear - T1. induction T1 as [|e l Hl IH Hf]; [constructor|]. rewrite filter_cons. case_decide; [|done].
    apply StronglySorted_cons. split; [|done]. rewrite Forall_forall in *. intros y [_ Hy]%list_elem_of_filter. auto.
  - rewrite rb_erase_inorder. clear - T2. induction (inorder t) as [|e l IH]; [done|]. rewrite filter_cons. cbn in T2. apply NoDup_cons in T2 as [N1 N2].
    case_decide; [|auto]. cbn. apply NoDup_cons. split; [|auto]. intros (y & Ey & [_ Hy]%list_elem_of_filter)%list_elem_of_fmap.
    apply N1. apply list_elem_of_fmap. eauto.
  - intros i i' g [_ H1]%He [_ H2]%He. by eapply T3.
Qed.

Lemma erase_spec id p : port_ok p ->
  match erase id p with
  | Ok p' => p_refcount p' = p_refcount p /\ p_groups p' = p_groups p /\ tree_ok (p_table p') /\
      (forall e, e ∈ inorder (p_table p') <-> e.1 <> id /\ e ∈ inorder (p_table p))
  | Bug => id ∉ event_groups p
  | Block => False
  end.
Proof.
  intros H. unfold erase. case_bool_decide; [|done]. cbn. destruct (tree_erase (p_table p) id H) as [T1 T2]. done.
Qed.

(** Another count of references, with the MGID it has. *)
Lemma port_ok_count p id x n :
  port_ok p -> p_groups p !! id = Some x -> 0 < n ->
  let p' := {| p_table := p_table p; p_refcount := p_refcount p; p_groups := <[id := {| t_mgid := t_mgid x; t_refcount := n |}]> (p_groups p) |} in
  port_ok p' /\ (port_all p -> port_all p').
Proof.
  intros [P1 P3 P5 P6] E Hn p'. split; [constructor; cbn; try done|].
  - intros id' gid Hi. destruct (P3 _ _ Hi) as (z & Ez & Eg). rewrite lookup_insert. case_decide as Hd; [|by eauto]. subst id'. eexists. split; [done|]. cbn. congruence.
  - intros id' y [[<- <-]|[? Hy]]%lookup_insert_Some; [done|by eapply P5].
  - rewrite map_size_insert_Some by (by rewrite E). done.
  - intros Ha id'. cbn. rewrite lookup_insert. case_decide; [intros _; subst; apply Ha; by rewrite E|apply Ha].
Qed.

Lemma ref_group_good p id x : port_ok p -> p_groups p !! id = Some x ->
  exists p', ref_group id p = Ok p' /\ port_ok p' /\ (port_all p -> port_all p').
Proof.
  intros H E. unfold ref_group, with_group. rewrite E. cbn. eexists. split; [done|]. apply port_ok_count; [done..|]. pose proof (po_refs _ H _ _ E). lia.
Qed.

Lemma not_in_table p id : port_ok p -> p_groups p !! id = None -> id ∉ event_groups p.
Proof. intros H E (g & (x & Ex & _)%(po_groups _ H))%in_event_groups. congruence. Qed.

Lemma table_insert_good gid id p : port_ok p -> p_groups p !! id = None -> port_good p (Op_insert gid id) (acquire_insert gid id p).
Proof.
  intros H E. pose proof (tree_insert (p_table p) id gid H (not_in_table p id H E)) as X. unfold acquire_insert.
  destruct (mcast_insert (id, gid) (gid =? 0) (p_table p)) as [t|c].
  - destruct X as [T1 T2]. unfold ref_group, with_group. cbn. rewrite lookup_insert_eq. cbn. rewrite insert_insert_eq. destruct H as [P1 P3 P5 P6]. split.
    + constructor; cbn; try done.
      * intros id' g [[= -> ->]|Hi]%T2; [rewrite lookup_insert_eq; by eexists|]. destruct (P3 _ _ Hi) as (z & Ez & Eg).
        rewrite lookup_insert_ne by congruence. by eauto.
      * intros id' y [[<- <-]|[? Hy]]%lookup_insert_Some; [done|by eapply P5].
      * rewrite map_size_insert_None by done. lia.
    + intros _ Ha id' Hi. apply in_event_groups. cbn in Hi |- *. destruct (decide (id' = id)) as [->|Hne]; [exists gid; apply T2; by left|].
      rewrite lookup_insert_ne in Hi by done. apply Ha, in_event_groups in Hi as [g Hg]. exists g. apply T2. by right.
  - destruct X as [_ (x & Ex & _)%(po_groups _ H)]. destruct (ref_group_good p c x H Ex) as (p' & -> & H' & Ha). by split.
Qed.

Lemma table_release_good id p : port_ok p -> is_Some (p_groups p !! id) -> port_good p (Op_release id) (release_entry id p).
Proof.
  intros H [x E]. unfold release_entry, with_group. rewrite E. pose proof (po_refs _ H _ _ E) as Hr.
  destruct (Z.eqb_spec (t_refcount x) 1); [|destruct (port_ok_count p id x (t_refcount x - 1) H E ltac:(lia)); by split].
  pose proof (erase_spec id p H) as X. destruct (erase id p) as [p'| |]; [|by exists id; split; [left|]|done].
  destruct X as (E1 & E2 & T1 & T2). cbn. rewrite E1, E2. destruct H as [P1 P3 P5 P6]. split.
  - constructor; cbn; try done.
    + intros id' g [Hne Hi]%T2. destruct (P3 _ _ Hi) as (z & Ez & Eg). cbn in Hne. rewrite lookup_delete_ne by done. eauto.
    + intros id' y [_ Ey]%lookup_delete_Some. by eapply P5.
    + rewrite map_size_delete, E. assert (size (p_groups p) <> 0)%nat; [|lia].
      intros Hs%map_size_empty_inv. rewrite Hs in E. by rewrite lookup_empty in E.
  - intros _ Ha id' Hi. cbn in Hi. apply in_event_groups. destruct Hi as [y [Hne Ey]%lookup_delete_Some].
    destruct (proj1 (in_event_groups p id') (Ha id' ltac:(by eexists))) as [g Hg]. exists g. by apply T2.
Qed.

Lemma table_store_good id gid p : port_ok p -> is_Some (p_groups p !! id) -> port_good p (Op_store id gid) (store_mgid id gid p).
Proof.
  intros H [x E]. unfold store_mgid, with_group. rewrite E. pose proof (po_refs _ H _ _ E) as Hr.
  destruct (Z.eqb_spec gid (t_mgid x)) as [->|Hg]; [destruct (port_ok_count p id x (t_refcount x) H E Hr); by split|].
  pose proof (erase_spec id p H) as X. destruct (erase id p) as [p'| |]; [|by exists id; split; [right; eauto|]|done].
  destruct X as (E1 & E2 & T1 & T2). cbn. rewrite E1.
  assert (id ∉ (inorder (p_table p')).*1) as Hn by (intros ([i g] & -> & [Hne _]%T2)%list_elem_of_fmap; done).
  pose proof (tree_insert (p_table p') id gid T1 Hn) as Y.
  assert (forall t', tree_ok t' -> (forall e, e ∈ inorder t' -> e = (id, gid) \/ e ∈ inorder (p_table p')) ->
    port_ok {| p_table := t'; p_refcount := p_refcount p; p_groups := <[id := {| t_mgid := gid; t_refcount := t_refcount x |}]> (p_groups p) |}) as Hok.
  { intros t' Ht He. destruct H as [P1 P3 P5 P6]. constructor; cbn; try done.
    - intros id' g [[= -> ->]|[Hne Hi]%T2]%He; [rewrite lookup_insert_eq; by eexists|]. cbn in Hne. rewrite lookup_insert_ne by done. by apply P3.
    - intros id' y [[<- <-]|[? Hy]]%lookup_insert_Some; [done|by eapply P5].
    - rewrite map_size_insert_Some by (by rewrite E). done. }
  destruct (mcast_insert (id, gid) (gid =? 0) (p_table p')) as [t'|c]; split.
  - apply Hok; [apply Y|]. intros e. apply Y.
  - intros _ Ha id' Hi. apply in_event_groups. cbn in Hi |- *. destruct (decide (id' = id)) as [->|Hne]; [exists gid; apply Y; by left|].
    rewrite lookup_insert_ne in Hi by done. apply Ha, in_event_groups in Hi as [g Hgi]. exists g. apply Y. right. by apply T2.
  - apply Hok; [done|]. by right.
  - intros Hc. exfalso. unfold collides in Hc. rewrite E in Hc. destruct Y as [Hz [_ Hi]%T2].
    rewrite (proj2 (find_exact (p_table p) gid c H Hz) Hi), (proj2 (Z.eqb_neq _ _) Hg), (proj2 (Z.eqb_neq _ _) Hz) in Hc. done.
Qed.

Lemma port_step_good o p : port_ok p -> port_allowed o p -> port_good p o (port_step o p).
Proof.
  intros H Ha. destruct o as [gid|gid id|id|id gid]; cbn [port_step port_allowed] in *.
  - unfold acquire_find. destruct (Z.eqb_spec gid 0) as [|Hg]; [done|]. destruct (mcast_find gid (p_table p)) as [id|] eqn:Ef; [|done].
    apply (find_exact _ _ _ H Hg) in Ef. destruct (po_groups _ H _ _ Ef) as (x & E & _). destruct (ref_group_good p id x H E) as (p' & -> & H1 & H2). by split.
  - by apply table_insert_good.
  - by apply table_release_good.
  - by apply table_store_good.
Qed.

Lemma port_reachable_ok b p : port_reachable b p -> port_ok p /\ (b = false -> port_all p).
Proof.
  induction 1 as [|o b p p' _ [IH1 IH2] Ha Hs].
  - split; [|intros _ id [x Hx]; cbn in Hx; by rewrite lookup_empty in Hx]. constructor; cbn; try done; [|intros id gid Hi; by apply elem_of_nil in Hi].
    constructor; cbn; [constructor|constructor|]. intros id id' gid Hi. by apply elem_of_nil in Hi.
  - pose proof (port_step_good o p IH1 Ha) as X. rewrite Hs in X. destruct X as [X1 X2]. split; [done|]. intros [-> Hc]%orb_false_iff. auto.
Qed.

(** C32. The table of a port in every run, whatever MGIDs the SA assigns: the search finds, for
    every MGID but zero, exactly the group of the table that has it, so that requests for one
    MGID share one group; an event visits every group of the table once; the references on the
    port are its own and one per group; and the only thing that goes wrong is that a group that
    is not in the table is erased. As long as no answer of the SA has given a group the MGID of
    another group of the table ([collides]), every group is in the table, and nothing goes
    wrong; [join_handler] ignores such a collision, which leaves the group out of the table
    ([store_collision_corrupts]). *)
Theorem mcast_table_correct b p :
  port_reachable b p ->
  (forall o, port_allowed o p -> port_step o p = Bug ->
     exists id, (o = Op_release id \/ exists gid, o = Op_store id gid) /\ id ∉ event_groups p) /\
  (forall gid id, gid <> 0 -> mcast_find gid (p_table p) = Some id <-> id ∈ event_groups p /\ exists x, p_groups p !! id = Some x /\ t_mgid x = gid) /\
  NoDup (event_groups p) /\ (forall id, id ∈ event_groups p -> is_Some (p_groups p !! id)) /\
  p_refcount p = 1 + Z.of_nat (size (p_groups p)) /\
  (b = false -> (forall id, id ∈ event_groups p <-> is_Some (p_groups p !! id)) /\ forall o, port_allowed o p -> port_step o p <> Bug).
Proof.
  intros Hr. destruct (port_reachable_ok b p Hr) as [H Hall].
  assert (forall o, port_allowed o p -> port_step o p = Bug -> exists id, (o = Op_release id \/ exists gid, o = Op_store id gid) /\ id ∉ event_groups p) as Hbug.
  { intros o Ha E. pose proof (port_step_good o p H Ha) as X. by rewrite E in X. }
  assert (forall id, id ∈ event_groups p -> is_Some (p_groups p !! id)) as Hin.
  { intros id (g & (x & E & _)%(po_groups _ H))%in_event_groups. by eexists. }
  split_and!; [done| |apply H|done|apply H|].
  - intros gid id Hg. rewrite (find_exact _ _ _ H Hg). split.
    + intros Hi. split; [apply in_event_groups; eauto|by apply (po_groups _ H)].
    + intros [(g & Hi)%in_event_groups (x & E & <-)]. destruct (po_groups _ H _ _ Hi) as (y & Ey & <-). by simplify_eq.
  - intros Hb. specialize (Hall Hb). split; [split; auto|]. intros o Ha E. destruct (Hbug o Ha E) as (id & Ho & Hni). apply Hni, Hall.
    by destruct Ho as [->|[gid ->]].
Qed.

(** Removing a device waits for a port exactly as long as it has groups. *)
Lemma deref_port_waits b p : port_reachable b p -> snd (deref_port p) = true <-> p_groups p = ∅.
Proof.
  intros [H _]%port_reachable_ok. cbn. rewrite Z.eqb_eq, (po_count _ H). split; [|intros ->; rewrite map_size_empty; lia].
  intros Hz. apply map_size_empty_inv. lia.
Qed.
End invariant.

(** ** Requests and addresses *)

(** The error paths of [ib_sa_join_multicast] and the references it leaves on its client. *)
Definition join_request (dev alloc : bool) (group : option positive) : (Z + positive) * Z :=
  if negb dev then (inl (err ENODEV), 0)
  else if negb alloc then (inl (err ENOMEM), 0)
  else
    let client_refs := 1 in
    match group with
    | None => (inl (err ENOMEM), client_refs - 1)
    | Some g => (inr g, client_refs)
    end.

(** [ib_init_ah_from_mcmember]; [find] is [rdma_find_gid_by_port], an error or a GID
    attribute. *)
Record rdma_ah_attr := {
  ah_type : Z;
  ah_dlid : Z;
  ah_sl : Z;
  ah_port_num : Z;
  ah_static_rate : Z;
  ah_dgid : Z;
  ah_flow_label : Z;
  ah_hop_limit : Z;
  ah_traffic_class : Z;
  ah_sgid_attr : Z
}.

Definition ib_init_ah_from_mcmember (ib roce : bool) (type : Z) (find : Z -> option Z -> Z + Z) (port_num : Z)
  (rec : ib_sa_mcmember_rec) (ndev : option Z) : Z + rdma_ah_attr :=
  if negb ib && negb roce then inl (err EINVAL)
  else
    match find (port_gid rec) (if ib then None else ndev) with
    | inl e => inl e
    | inr sgid_attr =>
        inr {| ah_type := type; ah_dlid := mlid rec; ah_sl := sl rec; ah_port_num := port_num; ah_static_rate := rate rec;
               ah_dgid := mgid rec; ah_flow_label := flow_label rec; ah_hop_limit := hop_limit rec;
               ah_traffic_class := traffic_class rec; ah_sgid_attr := sgid_attr |}
    end.

(** Events are for ports that were initialised. *)
Lemma event_port_initialised cap start_port end_port ports port_num event index st :
  mcast_add_one true cap start_port end_port = (0, Some ports) -> start_port <= port_num <= end_port ->
  mcast_event_handler cap start_port port_num event = Some (index, st) ->
  0 <= index /\ ports !! Z.to_nat index = Some (Some new_port) /\ (st = MCAST_GROUP_ERROR \/ st = MCAST_PKEY_EVENT).
Proof.
  unfold mcast_add_one, mcast_event_handler. cbn. intros Ha Hp He. case_bool_decide; [done|]. injection Ha as <-.
  destruct (cap port_num) eqn:Ec; [|done]. assert (index = port_num - start_port /\ (st = MCAST_GROUP_ERROR \/ st = MCAST_PKEY_EVENT)) as [-> Hs].
  { destruct event; cbn in He; simplify_eq; auto. }
  split; [lia|]. split; [|done]. unfold init_ports. rewrite list_lookup_fmap, lookup_seq_lt by lia. cbn.
  by replace (start_port + Z.of_nat (Z.to_nat (port_num - start_port))) with port_num by lia; rewrite Ec.
Qed.

(** ** An implementation of the interface, and runs *)

Fixpoint of_list (l : list entry) : tree := match l with [] => Leaf | e :: l => Node Leaf e (of_list l) end.

Lemma of_list_inorder l : inorder (of_list l) = l.
Proof. induction l as [|e l IH]; cbn; [done|by rewrite IH]. Qed.

#[export] Program Instance list_rbtree : RbTree := {|
  rb_insert_color t := t;
  rb_erase id t := of_list (filter (fun e : entry => e.1 <> id) (inorder t))
|}.
Next Obligation. done. Qed.
Next Obligation. intros. apply of_list_inorder. Qed.

Fixpoint port_run (os : list port_op) (p : mcast_port) : outcome mcast_port :=
  match os with [] => Ok p | o :: os => p ← port_step o p; port_run os p end.

(** [join_handler] ignores that [mcast_insert] found another group with the new MGID: the group
    is left out of the table, and taken out of it again when it is released. *)
Theorem store_collision_corrupts :
  exists p, port_run [Op_insert 7 1; Op_insert 0 2; Op_store 2 7] new_port = Ok p /\ 2%positive ∉ event_groups p /\ port_step (Op_release 2) p = Bug.
Proof. eexists. split; [vm_compute; reflexivity|]. split; [vm_compute; set_solver|]. vm_compute. reflexivity. Qed.

Definition port_after (os : list port_op) : mcast_port := match port_run os new_port with Ok p => p | _ => new_port end.
Definition one_group : mcast_port := port_after [Op_insert 7 1].
Definition unnamed_group : mcast_port := port_after [Op_insert 7 1; Op_insert 0 2].
Definition two_groups : mcast_port := port_after [Op_insert 7 1; Op_insert 0 2; Op_store 2 9].

Lemma two_groups_reachable : port_reachable false two_groups.
Proof.
  apply (port_next (Op_store 2 9) false unnamed_group); [|by eexists|vm_compute; reflexivity].
  apply (port_next (Op_insert 0 2) false one_group); [|vm_compute; reflexivity..].
  apply (port_next (Op_insert 7 1) false new_port); [apply port_init|vm_compute; reflexivity..].
Qed.

Lemma mcast_table_correct_witness : mcast_find 9 (p_table two_groups) = Some 2%positive /\ p_refcount two_groups = 3.
Proof.
  destruct (mcast_table_correct false two_groups two_groups_reachable) as (_ & Hf & _ & _ & Hc & Ha).
  split; [|exact Hc]. apply (Hf 9 2%positive ltac:(lia)). split; [apply (Ha eq_refl); by eexists|]. eexists; vm_compute; done.
Defined.
