(* ===== verification/McastInv.v ===== *)
(** * The invariant of multicast groups

    What holds of a group in every run of [Mcast]: who refers to what, which lists the
    members are on, what the counters of the four kinds of membership count, and which
    handler is responsible for the group. Each step keeps it and meets no bug. *)

From Stdlib Require Import ZArith Lia.
From stdpp Require Import base tactics numbers list option gmap.
From S2P Require Import Prelude Outcome Mcast.

Local Open Scope Z_scope.

(** ** Sums over members *)

Definition b2z (b : bool) : Z := if b then 1 else 0.

Definition msum (f : mcast_member -> Z) (m : gmap positive mcast_member) : Z :=
  map_fold (fun _ x a => f x + a) 0 m.

Lemma msum_empty f : msum f ∅ = 0.
Proof. apply map_fold_empty. Qed.

Lemma msum_fresh f m id x : m !! id = None -> msum f (<[id := x]> m) = f x + msum f m.
Proof. intros H. unfold msum. rewrite map_fold_insert_L; [done| |done]. intros. lia. Qed.

Lemma msum_delete f m id x : m !! id = Some x -> msum f m = f x + msum f (delete id m).
Proof. intros H. rewrite <- (insert_delete_id m id x H) at 1. apply msum_fresh, lookup_delete_eq. Qed.

Lemma msum_update f m id x y : m !! id = Some x -> msum f (<[id := y]> m) = msum f m - f x + f y.
Proof.
  intros H. rewrite (msum_delete f m id x H), <- insert_delete_eq, msum_fresh by apply lookup_delete_eq. lia.
Qed.

Lemma msum_nonneg f m : (forall x, 0 <= f x) -> 0 <= msum f m.
Proof. intros H. unfold msum. apply (map_fold_weak_ind (fun r _ => 0 <= r)); [done|]. intros. specialize (H x). lia. Qed.

Lemma msum_lookup f m id x : (forall x, 0 <= f x) -> m !! id = Some x -> f x <= msum f m.
Proof. intros H E. rewrite (msum_delete f m id x E). pose proof (msum_nonneg f (delete id m) H). lia. Qed.

(** How many of a list of members have bit [i] in their join state. *)
Definition has_bit (m : gmap positive mcast_member) (i : Z) (id : positive) : Z :=
  match m !! id with Some x => b2z (Z.testbit (join_state (m_rec x)) i) | None => 0 end.

Lemma has_bit_nonneg m i id : 0 <= has_bit m i id.
Proof. unfold has_bit, b2z. by destruct (m !! id) as [x|]; [destruct (Z.testbit _ _)|]. Qed.

Fixpoint count_bit (m : gmap positive mcast_member) (l : list positive) (i : Z) : Z :=
  match l with [] => 0 | id :: l => has_bit m i id + count_bit m l i end.

Lemma count_bit_nonneg m l i : 0 <= count_bit m l i.
Proof. induction l as [|id l IH]; [done|]. cbn. pose proof (has_bit_nonneg m i id). lia. Qed.

Lemma count_bit_other m m' l i :
  (forall id, id ∈ l -> join_state ∘ m_rec <$> m' !! id = join_state ∘ m_rec <$> m !! id) -> count_bit m' l i = count_bit m l i.
Proof.
  induction l as [|id l IH]; intros H; [done|]. cbn. rewrite IH by set_solver. f_equal.
  specialize (H id ltac:(set_solver)). unfold has_bit. destruct (m !! id), (m' !! id); cbn in H; congruence.
Qed.

Lemma count_bit_zero m l i id x :
  count_bit m l i = 0 -> id ∈ l -> m !! id = Some x -> Z.testbit (join_state (m_rec x)) i = false.
Proof.
  induction l as [|y l IH]; cbn; intros H Hin E; [by apply elem_of_nil in Hin|].
  pose proof (count_bit_nonneg m l i). pose proof (has_bit_nonneg m i y).
  apply elem_of_cons in Hin as [->|Hin]; [|apply IH; [lia|done..]].
  unfold has_bit in *. rewrite E in *. destruct (Z.testbit _ _); cbn in *; [lia|done].
Qed.

Lemma count_bit_pos m l i :
  count_bit m l i <> 0 -> exists id x, id ∈ l /\ m !! id = Some x /\ Z.testbit (join_state (m_rec x)) i = true.
Proof.
  induction l as [|y l IH]; cbn; intros H; [done|]. unfold has_bit in H.
  destruct (m !! y) as [x|] eqn:E.
  - destruct (Z.testbit (join_state (m_rec x)) i) eqn:T; [exists y, x; split; [set_solver|done]|].
    cbn in H. destruct IH as (id & x' & ? & ? & ?); [lia|]. exists id, x'. split; [set_solver|done].
  - destruct IH as (id & x' & ? & ? & ?); [lia|]. exists id, x'. split; [set_solver|done].
Qed.

(** Without one member. *)
Abbreviation without id := (filter (fun x => x <> id)).

Lemma count_bit_without m l i id :
  NoDup l -> count_bit m (without id l) i = count_bit m l i - (if decide (id ∈ l) then has_bit m i id else 0).
Proof.
  induction 1 as [|y l Hy Hl IH]; [done|]. rewrite filter_cons. cbn [count_bit].
  destruct (decide (y <> id)) as [Hne|He].
  - cbn [count_bit]. rewrite IH, (decide_ext (id ∈ y :: l) (id ∈ l)) by (rewrite elem_of_cons; naive_solver). lia.
  - assert (y = id) as -> by (by destruct (decide (y = id))). rewrite IH. rewrite !decide_False by done.
    rewrite decide_True by set_solver. lia.
Qed.

Lemma without_notin (id : positive) (l : list positive) : id ∉ l -> without id l = l.
Proof.
  induction l as [|x l IH]; intros H; [done|]. rewrite filter_cons_True by set_solver. by rewrite IH by set_solver.
Qed.

(** ** Membership counters *)

Abbreviation counters f := (map f [0; 1; 2; 3]).

Lemma has_flag_1 z : has_flag z 1 = Z.testbit z 0.
Proof.
  unfold has_flag, truthy. change 1 with (Z.ones 1) at 1. rewrite Z.land_ones by lia. change (2 ^ 1) with 2.
  rewrite <- Z.bit0_mod. by destruct (Z.testbit z 0).
Qed.

Lemma adjust_counters f js inc :
  adjust_members (counters f) js inc = counters (fun i => f i + inc * b2z (Z.testbit js i)).
Proof.
  cbn. rewrite !has_flag_1, !Z.shiftr_spec by lia. change (0 + 1) with 1. change (1 + 1) with 2. change (2 + 1) with 3.
  assert (forall (b : bool) c, (if b then c + inc else c) = c + inc * b2z b) as H by (intros []; cbn; lia).
  by rewrite !H.
Qed.

Lemma leave_state_spec g f i :
  g_members g = counters f -> 0 <= i ->
  Z.testbit (get_leave_state g) i = bool_decide (i < 4) && (f i =? 0) && Z.testbit (join_state (g_rec g)) i.
Proof.
  intros E Hi. unfold get_leave_state. rewrite Z.land_spec, E. f_equal. cbn.
  assert (forall (b : bool) (x k : Z), 0 <= k -> Z.testbit (if b then Z.lor x (Z.shiftl 1 k) else x) i
    = Z.testbit x i || (b && bool_decide (i = k))) as H.
  { intros b x k Hk. destruct b; [|by rewrite orb_false_r]. rewrite Z.lor_spec. f_equal.
    rewrite Z.shiftl_1_l, Z.pow2_bits_eqb by lia. case_bool_decide; lia. }
  rewrite !H, Z.bits_0 by lia. clear H.
  destruct (decide (i < 4)).
  - assert (i = 0 \/ i = 1 \/ i = 2 \/ i = 3) as [ | [ | [ | ]]] by lia; subst i; cbn;
      by rewrite ?andb_false_r, ?andb_true_r, ?orb_false_r.
  - rewrite !bool_decide_eq_false_2 by lia. by rewrite !andb_false_r.
Qed.

(** ** Who refers to what *)

(** The reference a member has on itself; whether it has one on the group; whether the
    thread that frees it is about to queue the work; whether it can be on a list. *)
Definition own (pc : member_pc) : Z := match pc with M_freeing _ F_wait => 0 | _ => 1 end.
Definition attached (x : mcast_member) : Z :=
  match m_pc x with M_freeing _ F_deref | M_freeing _ F_wait => 0 | _ => 1 end.
Definition queueing (x : mcast_member) : Z := match m_pc x with M_freeing _ F_queue => 1 | _ => 0 end.
Definition listed (pc : member_pc) : bool :=
  match pc with M_owned | M_freeing _ F_lock => true | _ => false end.

(** The references of the handler: on the group, and on a member; whether somebody is to
    work on the group; the references of handlers that have sent a request. *)
Definition running (pc : handler_pc) : Z := match pc with K_none => 0 | _ => 1 end.
Definition holds (pc : handler_pc) (id : positive) : Z :=
  match pc with
  | K_cb id' _ _ | K_deref id' _ _ | K_send id' | K_fail id' _ => b2z (bool_decide (id' = id))
  | _ => 0
  end.
Definition busy (st : mcast_group_state) : Z := match st with MCAST_IDLE => 0 | _ => 1 end.
Fixpoint occ (id : positive) (l : list positive) : Z :=
  match l with [] => 0 | x :: l => b2z (bool_decide (x = id)) + occ id l end.

(** ** The invariant *)

(** What the callback of a member was called with. *)
Definition log_ok (pc : handler_pc) (id : positive) (x : mcast_member) : Prop :=
  match m_state x with
  | MCAST_JOINING => m_log x = [] \/ exists st, st <> 0 /\ m_log x = [st]
  | MCAST_MEMBER => m_log x = [0] \/ m_log x = [] /\ pc = K_cb id 0 false
  | MCAST_ERROR => m_log x = [0; err ENETRESET] \/ m_log x = [0] /\ pc = K_cb id (err ENETRESET) true
  end.

(** A request that waits for its answer is on the list or in the hands of the handler. *)
Definition answer_due (pc : handler_pc) (pending : list positive) (id : positive) : Prop :=
  id ∈ pending \/ (exists st, pc = K_cb id st false) \/ (exists st, pc = K_fail id st).

(** What is counted, logged and due for one member. *)
Definition member_ok (pc : handler_pc) (tails pending : list positive) (id : positive) (x : mcast_member) : Prop :=
  m_refcount x = own (m_pc x) + holds pc id + occ id tails /\
  log_ok pc id x /\
  match m_pc x with
  | M_queue => m_state x = MCAST_JOINING /\ m_log x = []
  | M_owned => m_log x = [] -> answer_due pc pending id
  | M_freeing true f => (exists errs, pc = K_deref id true errs /\ f = F_lock) \/ exists errs, pc = K_free id errs
  | M_freeing false _ => True
  end.

(** The lists and the counters against the members. *)
Record lists_ok (pl al : list positive) (ms : list Z) (js : Z) (m : gmap positive mcast_member) : Prop := {
  lo_nodup : NoDup (pl ++ al);
  lo_pending : forall id, id ∈ pl -> exists x, m !! id = Some x /\ m_state x = MCAST_JOINING /\ m_log x = [] /\ listed (m_pc x) = true;
  lo_active : forall id, id ∈ al <-> exists x, m !! id = Some x /\ m_state x = MCAST_MEMBER /\ listed (m_pc x) = true;
  lo_members : ms = counters (count_bit m al);
  lo_bits : forall id x, id ∈ al -> m !! id = Some x -> Z.ldiff (join_state (m_rec x)) js = 0
}.

(** A request the handler works on. *)
Definition in_work (m : gmap positive mcast_member) (id : positive) (st : mcast_state) (log : list Z) : Prop :=
  exists x, m !! id = Some x /\ m_state x = st /\ m_log x = log /\ m_pc x <> M_queue.

Definition on_error (st : mcast_group_state) : Prop := st = MCAST_GROUP_ERROR \/ st = MCAST_PKEY_EVENT.

Definition pc_ok (pc : handler_pc) (g : mcast_group) (m : gmap positive mcast_member) : Prop :=
  match pc with
  | K_none | K_loop | K_query_join => True
  | K_pge | K_errs => on_error (g_state g)
  | K_error found => on_error (g_state g) /\ (found = None -> g_state g = MCAST_GROUP_ERROR)
  | K_cb id st false => in_work m id (if st =? 0 then MCAST_MEMBER else MCAST_JOINING) [] /\ id ∉ g_pending g
  | K_cb id st true => in_work m id MCAST_ERROR [0] /\ st = err ENETRESET /\ on_error (g_state g)
  | K_deref id free errs =>
      (exists x, m !! id = Some x /\ m_log x <> [] /\ (free = true -> m_pc x = M_freeing true F_lock)) /\
      (errs = true -> on_error (g_state g))
  | K_free id errs =>
      (exists x f, m !! id = Some x /\ m_pc x = M_freeing true f) /\ (errs = true -> on_error (g_state g))
  | K_send id => in_work m id MCAST_JOINING []
  | K_fail id st => st <> 0 /\ in_work m id MCAST_JOINING []
  | K_leave js => Z.land (join_state (g_rec g)) js = 0
  | K_query_leave => Z.land (join_state (g_rec g)) (g_leave_state g) = 0
  end.

Record inv (s : sys) : Prop := {
  iv_lists : lists_ok (g_pending (s_grp s)) (g_active (s_grp s)) (g_members (s_grp s)) (join_state (g_rec (s_grp s))) (s_mem s);
  iv_busy : b2z (s_wq s) + running (s_pc s) + msum queueing (s_mem s) = busy (g_state (s_grp s));
  iv_refs : g_refcount (s_grp s) = msum attached (s_mem s) + b2z (s_wq s) + running (s_pc s) + Z.of_nat (s_rel s);
  iv_live : s_live s = (0 <? g_refcount (s_grp s));
  iv_mem : forall id x, s_mem s !! id = Some x -> member_ok (s_pc s) (s_tails s) (g_pending (s_grp s)) id x;
  iv_tails : forall id, id ∈ s_tails s -> is_Some (s_mem s !! id);
  iv_pc : pc_ok (s_pc s) (s_grp s) (s_mem s);
  iv_idle : g_state (s_grp s) = MCAST_IDLE -> g_pending (s_grp s) = [] /\ get_leave_state (s_grp s) = 0
}.

(** The result of a section that keeps the invariant. *)
Definition good (o : outcome sys) : Prop := match o with Ok s => inv s | Bug => False | Block => True end.

(** ** Counting *)

Lemma attached_nonneg x : 0 <= attached x.
Proof. unfold attached. by destruct (m_pc x) as [| |h []]. Qed.

Lemma queueing_nonneg x : 0 <= queueing x.
Proof. unfold queueing. by destruct (m_pc x) as [| |h []]. Qed.

Lemma occ_nonneg id l : 0 <= occ id l.
Proof. induction l as [|x l IH]; [done|]. cbn. unfold b2z. case_bool_decide; lia. Qed.

Lemma occ_in id l : id ∈ l -> 0 < occ id l.
Proof.
  induction l as [|x l IH]; intros H; [by apply elem_of_nil in H|]. cbn. pose proof (occ_nonneg id l).
  apply elem_of_cons in H as [->|H]; [rewrite bool_decide_eq_true_2 by done; cbn; lia|].
  specialize (IH H). unfold b2z. case_bool_decide; lia.
Qed.

Lemma occ_delete id id' l :
  id ∈ l -> occ id' (delete_one id l) = occ id' l - b2z (bool_decide (id = id')).
Proof.
  induction l as [|x l IH]; intros H; [by apply elem_of_nil in H|]. cbn. destruct (decide (x = id)) as [->|Hne]; [lia|].
  cbn. rewrite IH by (apply elem_of_cons in H; naive_solver). lia.
Qed.

Lemma delete_one_in id x l : x ∈ delete_one id l -> x ∈ l.
Proof. induction l as [|y l IH]; cbn; [done|]. case_decide; [set_solver|]. intros [->|E]%elem_of_cons; set_solver. Qed.

(** ** Live groups *)

Lemma inv_live s : inv s -> s_live s = true <-> 0 < msum attached (s_mem s) + b2z (s_wq s) + running (s_pc s) + Z.of_nat (s_rel s).
Proof. intros H. rewrite (iv_live _ H), (iv_refs _ H), Z.ltb_lt. done. Qed.

Lemma member_live s id x : inv s -> s_mem s !! id = Some x -> attached x = 1 -> s_live s = true.
Proof.
  intros H E A. apply (inv_live _ H). pose proof (msum_lookup attached _ _ _ attached_nonneg E).
  unfold b2z, running. destruct (s_wq s), (s_pc s); lia.
Qed.

Lemma running_live s : inv s -> s_pc s <> K_none -> s_live s = true.
Proof.
  intros H A. apply (inv_live _ H). pose proof (msum_nonneg attached (s_mem s) attached_nonneg).
  unfold b2z, running. destruct (s_wq s), (s_pc s); try lia; done.
Qed.

(** Nobody works on an idle group, one thread at a time on another. *)
Lemma idle_quiet s :
  b2z (s_wq s) + running (s_pc s) + msum queueing (s_mem s) = busy (g_state (s_grp s)) -> g_state (s_grp s) = MCAST_IDLE ->
  s_wq s = false /\ s_pc s = K_none /\ msum queueing (s_mem s) = 0.
Proof.
  intros H E. rewrite E in H. pose proof (msum_nonneg queueing (s_mem s) queueing_nonneg).
  destruct (s_wq s), (s_pc s); cbn in *; split_and!; try done; lia.
Qed.

(** ** Lists *)

(** Lookups in an updated map of members. *)
Ltac lookups := repeat
  match goal with
  | H : <[_ := _]> _ !! _ = Some _ |- _ => apply lookup_insert_Some in H as [[<- <-]|[? H]]
  | H : delete _ _ !! _ = Some _ |- _ => apply lookup_delete_Some in H as [? H]
  end.

Section lists.
Context (pl al : list positive) (ms : list Z) (js : Z) (m : gmap positive mcast_member) (id : positive).
Context (L : lists_ok pl al ms js m).

Lemma lists_disjoint id' : id' ∈ pl -> id' ∈ al -> False.
Proof using L. clear id. intros H1 H2. pose proof (lo_nodup _ _ _ _ _ L) as H. apply NoDup_app in H as (_ & H & _). by eapply H. Qed.

Lemma lists_unlisted x : m !! id = Some x -> listed (m_pc x) = false -> id ∉ pl /\ id ∉ al.
Proof using L.
  intros E H. split; intros Hi.
  - destruct (lo_pending _ _ _ _ _ L _ Hi) as (y & Ey & _ & _ & Hl). congruence.
  - apply (lo_active _ _ _ _ _ L) in Hi as (y & Ey & _ & Hl). congruence.
Qed.

Lemma lists_absent : m !! id = None -> id ∉ pl /\ id ∉ al.
Proof using L.
  intros E. split; intros Hi.
  - destruct (lo_pending _ _ _ _ _ L _ Hi) as (y & Ey & _). congruence.
  - apply (lo_active _ _ _ _ _ L) in Hi as (y & Ey & _). congruence.
Qed.

(** A change of a member that is on no list before and after. *)
Lemma lists_other m' :
  id ∉ pl -> id ∉ al -> (forall id', id' <> id -> m' !! id' = m !! id') ->
  (forall y, m' !! id = Some y -> listed (m_pc y) = false \/ m_state y <> MCAST_MEMBER) ->
  lists_ok pl al ms js m'.
Proof using L.
  intros H1 H2 Hm Hy. destruct L as [L1 L2 L3 L4 L5]. constructor; [done|..].
  - intros id' Hi. rewrite Hm by (by intros ->). auto.
  - intros id'. destruct (decide (id' = id)) as [->|Hne]; [|by rewrite Hm by done].
    split; [done|]. intros (y & Ey & ? & ?). destruct (Hy y Ey); congruence.
  - rewrite L4. apply map_ext. intros i. symmetry. apply count_bit_other. intros id' Hi. by rewrite Hm by (by intros ->).
  - intros id' x Hi. rewrite Hm by (by intros ->). by eapply L5.
Qed.

(** A change that keeps what the lists depend on. *)
Lemma lists_same x y :
  m !! id = Some x -> m_state y = m_state x -> listed (m_pc y) = listed (m_pc x) -> m_rec y = m_rec x ->
  m_log y = m_log x \/ id ∉ pl -> lists_ok pl al ms js (<[id := y]> m).
Proof using L.
  intros E H1 H2 H3 H4. destruct L as [L1 L2 L3 L4 L5]. constructor; [done|..].
  - intros id' Hi. destruct (L2 _ Hi) as (z & Ez & ? & ? & ?). destruct (decide (id' = id)) as [->|Hne].
    + exists y. rewrite lookup_insert_eq, H1, H2. assert (z = x) as -> by congruence. by destruct H4 as [->|?].
    + exists z. by rewrite lookup_insert_ne.
  - intros id'. rewrite L3. destruct (decide (id' = id)) as [->|Hne].
    + rewrite lookup_insert_eq, E. split; intros (z & [= <-] & ? & ?); eexists; (split; [done|split; congruence]).
    + by rewrite lookup_insert_ne.
  - rewrite L4. apply map_ext. intros i. symmetry. apply count_bit_other. intros id' Hi.
    destruct (decide (id' = id)) as [->|Hne]; [by rewrite lookup_insert_eq, E; cbn; rewrite H3|by rewrite lookup_insert_ne].
  - intros id' z Hi Ez. lookups; [rewrite H3|]; by eapply L5.
Qed.

(** Taking a member off the lists. *)
Lemma lists_del_pending : id ∉ al -> lists_ok (without id pl) al ms js m.
Proof using L.
  intros H. destruct L as [L1 L2 L3 L4 L5]. constructor; [|intros id' [_ Hi]%list_elem_of_filter; auto|done..].
  apply NoDup_app in L1 as (N1 & N2 & N3). apply NoDup_app. split_and!; [by apply NoDup_filter| |done].
  intros id' [_ Hi]%list_elem_of_filter. auto.
Qed.

Lemma lists_del x y :
  m !! id = Some x -> id ∈ al -> listed (m_pc y) = false \/ m_state y <> MCAST_MEMBER ->
  lists_ok pl (without id al) (adjust_members ms (join_state (m_rec x)) (-1)) js (<[id := y]> m).
Proof using L.
  intros E Hi Hy. pose proof (lists_disjoint id) as Hd. destruct L as [L1 L2 L3 L4 L5].
  apply NoDup_app in L1 as (N1 & N2 & N3). constructor.
  - apply NoDup_app. split_and!; [done| |by apply NoDup_filter]. intros id' Hp [_ Ha]%list_elem_of_filter. by eapply N2.
  - intros id' Hp. destruct (L2 id' Hp) as (z & ? & ?). exists z. by rewrite lookup_insert_ne by (intros ->; naive_solver).
  - intros id'. rewrite list_elem_of_filter, L3. destruct (decide (id' = id)) as [->|Hne].
    + rewrite lookup_insert_eq. split; [naive_solver|]. intros (z & [= <-] & ? & ?). destruct Hy; congruence.
    + rewrite lookup_insert_ne by done. naive_solver.
  - rewrite L4, adjust_counters. apply map_ext. intros i.
    rewrite (count_bit_other m (<[id:=y]> m)).
    + rewrite count_bit_without, decide_True by done. unfold has_bit. rewrite E. lia.
    + intros id' [? _]%list_elem_of_filter. by rewrite lookup_insert_ne.
  - intros id' z [? Ha]%list_elem_of_filter Ez. rewrite lookup_insert_ne in Ez by done. by eapply L5.
Qed.

(** A request becomes a member. *)
Lemma lists_join x y bits :
  m !! id = Some x -> id ∈ pl -> m_state y = MCAST_MEMBER -> m_pc y = m_pc x -> join_state (m_rec y) = bits ->
  lists_ok (without id pl) (id :: without id al) (adjust_members ms bits 1) (Z.lor js bits) (<[id := y]> m).
Proof using L.
  intros E Hp H1 H2 H3. assert (id ∉ al) as Ha by (intros Ha; by eapply lists_disjoint).
  rewrite (without_notin id al) by done. destruct L as [L1 L2 L3 L4 L5]. apply NoDup_app in L1 as (N1 & N2 & N3).
  destruct (L2 id Hp) as (x' & E' & _ & _ & Hl). assert (x' = x) as -> by congruence. clear E'. constructor.
  - apply NoDup_app. split_and!; [by apply NoDup_filter| |by apply NoDup_cons].
    intros id' [? Hp']%list_elem_of_filter [->|Ha']%elem_of_cons; [done|]. by eapply N2.
  - intros id' [Hne Hp']%list_elem_of_filter. rewrite lookup_insert_ne by done. auto.
  - intros id'. rewrite elem_of_cons, L3. destruct (decide (id' = id)) as [->|Hne].
    + rewrite lookup_insert_eq. split; [|by left]. intros _. exists y. by rewrite H2.
    + rewrite lookup_insert_ne by done. naive_solver.
  - rewrite L4, adjust_counters. apply map_ext. intros i. cbn [count_bit].
    rewrite (count_bit_other m (<[id:=y]> m)).
    + unfold has_bit. rewrite lookup_insert_eq, H3. lia.
    + intros id' Hi. by rewrite lookup_insert_ne by (by intros ->).
  - assert (forall a, Z.ldiff a js = 0 -> Z.ldiff a (Z.lor js bits) = 0) as H.
    { intros a Hz. apply Z.bits_inj'. intros n Hn. rewrite Z.bits_0.
      assert (Z.testbit (Z.ldiff a js) n = false) as Hb by (by rewrite Hz, Z.bits_0).
      rewrite Z.ldiff_spec in *. rewrite Z.lor_spec. destruct (Z.testbit a n), (Z.testbit js n), (Z.testbit bits n); done. }
    intros id' z Hi Ez. lookups.
    + rewrite H3. apply Z.bits_inj'. intros n Hn. rewrite Z.bits_0, Z.ldiff_spec, Z.lor_spec.
      by destruct (Z.testbit bits n), (Z.testbit js n).
    + apply elem_of_cons in Hi as [->|Hi]; [done|]. apply H. by eapply L5.
Qed.

(** A request is queued. *)
Lemma lists_queue x :
  m !! id = Some x -> listed (m_pc x) = false -> m_state x = MCAST_JOINING -> m_log x = [] ->
  lists_ok (pl ++ [id]) al ms js (<[id := m_put_pc M_owned x]> m).
Proof using L.
  intros E Hl Hs Hg. destruct (lists_unlisted x E Hl) as [Hp Ha].
  assert (lists_ok pl al ms js (<[id := m_put_pc M_owned x]> m)) as [L1 L2 L3 L4 L5].
  { apply lists_other; [done..| |].
    - intros. by rewrite lookup_insert_ne.
    - intros y. rewrite lookup_insert_eq. intros [= <-]. right. cbn. congruence. }
  constructor; try done.
  - rewrite <- app_assoc. cbn. apply NoDup_app in L1 as (N1 & N2 & N3). apply NoDup_app.
    split_and!; [done| |by apply NoDup_cons]. intros id' Hi [->|?]%elem_of_cons; [done|]. by eapply N2.
  - intros id' [Hi| ->%list_elem_of_singleton]%elem_of_app; [auto|]. eexists. by rewrite lookup_insert_eq.
Qed.
End lists.

(** The section of [ib_sa_free_multicast] under the lock. *)
Lemma lists_free pl al ms js m id x y :
  lists_ok pl al ms js m -> m !! id = Some x -> listed (m_pc x) = true -> listed (m_pc y) = false ->
  lists_ok (without id pl) (without id al)
    (if decide (m_state x = MCAST_MEMBER) then adjust_members ms (join_state (m_rec x)) (-1) else ms) js (<[id := y]> m).
Proof.
  intros L E Hx Hy. destruct (decide (m_state x = MCAST_MEMBER)) as [Hs|Hs].
  - assert (id ∈ al) as Ha by (apply (lo_active _ _ _ _ _ L); eauto).
    rewrite (without_notin id pl) by (intros Hp; by eapply lists_disjoint). apply lists_del; auto.
  - assert (id ∉ al) as Ha by (intros (z & ? & ? & ?)%(lo_active _ _ _ _ _ L); congruence).
    rewrite (without_notin id al) by done.
    apply (lists_other _ al ms js m id (lists_del_pending _ _ _ _ _ _ L Ha)); [|done| |].
    + rewrite list_elem_of_filter. naive_solver.
    + intros. by rewrite lookup_insert_ne.
    + intros z. rewrite lookup_insert_eq. intros [= <-]. by left.
Qed.

Lemma release_group_eq s :
  inv s -> s_live s = true ->
  release_group s = Ok (up_grp (put_refcount (g_refcount (s_grp s) - 1) (s_grp s)) (up_live (0 <? g_refcount (s_grp s) - 1) s)).
Proof.
  intros H L. pose proof (iv_live _ H) as Hl. rewrite L in Hl. symmetry in Hl. apply Z.ltb_lt in Hl.
  unfold release_group, on_grp. rewrite L, (proj2 (Z.leb_gt _ _) Hl). cbn. f_equal.
  destruct (Z.eqb_spec (g_refcount (s_grp s)) 1) as [->|Hn]; [done|].
  rewrite (proj2 (Z.ltb_lt _ _)) by lia. destruct s. cbn in *. by subst.
Qed.

Lemma holds_nonneg pc id : 0 <= holds pc id.
Proof. unfold holds, b2z. destruct pc; try lia; case_bool_decide; lia. Qed.

(** ** Frames *)

Definition mentions (pc : handler_pc) : option positive :=
  match pc with
  | K_cb id _ _ | K_deref id _ _ | K_free id _ | K_send id | K_fail id _ => Some id
  | _ => None
  end.

Lemma holds_other pc id : mentions pc <> Some id -> holds pc id = 0.
Proof. destruct pc; cbn; try done; intros H; by rewrite bool_decide_eq_false_2 by congruence. Qed.

(** A member the handler does not work on, before and after. *)
Lemma member_frame pc pc' t t' pl pl' id x :
  member_ok pc t pl id x -> mentions pc <> Some id -> mentions pc' <> Some id -> occ id t' = occ id t ->
  (id ∈ pl -> id ∈ pl') -> member_ok pc' t' pl' id x.
Proof.
  intros (H1 & H2 & H3) M M' Ho Hp. rewrite holds_other in H1 by done. unfold member_ok.
  rewrite holds_other, Ho by done. split; [done|]. split.
  - unfold log_ok in *. destruct (m_state x); [done|destruct H2 as [?|[_ ->]]; [by left|done]..].
  - destruct (m_pc x) as [| |[] f]; [done| |naive_solver|done].
    intros El. destruct (H3 El) as [?|[[? ->]|[? ->]]]; [left; auto|done..].
Qed.

(** The same handler, and at least the requests there were. *)
Lemma member_keep pc t t' pl pl' id x :
  member_ok pc t pl id x -> occ id t' = occ id t -> (id ∈ pl -> id ∈ pl') -> member_ok pc t' pl' id x.
Proof.
  intros (H1 & H2 & H3) Ho Hp. unfold member_ok. rewrite Ho. split_and!; [done..|].
  destruct (m_pc x) as [| |[] f]; try done. intros El. destruct (H3 El) as [?|?]; [left; auto|by right].
Qed.

(** What other threads leave of the member the handler works on. *)
Definition kept (x y : mcast_member) : Prop :=
  m_state y = m_state x /\ m_log y = m_log x /\ (m_pc x <> M_queue -> m_pc y <> M_queue) /\
  forall f, m_pc x = M_freeing true f -> m_pc y = M_freeing true f.

Lemma pc_keep pc g g' m m' :
  pc_ok pc g m -> (on_error (g_state g) -> on_error (g_state g')) ->
  (g_state g = MCAST_GROUP_ERROR -> g_state g' = MCAST_GROUP_ERROR) ->
  join_state (g_rec g') = join_state (g_rec g) -> g_leave_state g' = g_leave_state g ->
  (forall id, mentions pc = Some id -> id ∉ g_pending g -> id ∉ g_pending g') ->
  (forall id x, mentions pc = Some id -> m !! id = Some x -> exists y, m' !! id = Some y /\ kept x y) ->
  pc_ok pc g' m'.
Proof.
  intros H S1 S2 R1 R2 P M. assert (forall id st log, mentions pc = Some id -> in_work m id st log -> in_work m' id st log) as W.
  { intros id st log Hm (x & E & <- & <- & Hq). destruct (M _ _ Hm E) as (y & Ey & K1 & K2 & K3 & K4). exists y. auto. }
  destruct pc as [| | | | |id st []|id free errs|id errs| | |js| |]; cbn in *; rewrite ?R1, ?R2;
    try (destruct_and?; split_and?; by auto).
  - destruct H as [(x & E & Hl & Hf) He]. split; [|auto]. destruct (M _ _ eq_refl E) as (y & Ey & K1 & K2 & K3 & K4).
    exists y. split_and!; [done|congruence|]. intros ->. auto.
  - destruct H as [(x & f & E & Hf) He]. split; [|auto]. destruct (M _ _ eq_refl E) as (y & Ey & K1 & K2 & K3 & K4).
    exists y, f. auto.
Qed.

Lemma kept_refl x : kept x x.
Proof. done. Qed.

(** Members the handler works on exist, and their join was queued. *)
Lemma mentioned s id : inv s -> mentions (s_pc s) = Some id -> exists x, s_mem s !! id = Some x /\ m_pc x <> M_queue.
Proof.
  intros H M. pose proof (iv_pc _ H) as P. pose proof (iv_mem _ H) as Hm.
  destruct (s_pc s) as [| | | | |id' st []|id' free errs|id' errs| | |js| |]; cbn in *; simplify_eq;
    try (by destruct P as [(x & ? & ? & ? & ?) ?]; eauto); try (by destruct P as (x & ? & ? & ? & ?); eauto);
    try (by destruct P as (? & x & ? & ? & ? & ?); eauto).
  - destruct P as [(x & E & Hl & _) _]. exists x. split; [done|]. intros Eq.
    destruct (Hm _ _ E) as (_ & _ & X). rewrite Eq in X. naive_solver.
  - destruct P as [(x & f & E & Eq) _]. exists x. split; [done|]. by rewrite Eq.
Qed.

Lemma present_insert (m : gmap positive mcast_member) id id' y : is_Some (m !! id') -> is_Some (<[id := y]> m !! id').
Proof. intros H. rewrite lookup_insert. by case_decide. Qed.

(** Sums after the change of one member whose lookup is [E]. *)
Ltac sums E := rewrite ?(msum_update _ _ _ _ _ E);
  repeat match goal with |- context [msum ?f ?m] => let q := fresh "q" in set (q := msum f m) in *; clearbody q end;
  unfold attached, queueing in *; cbn in *;
  repeat match goal with
         | H : m_pc _ = _ |- _ => rewrite H in *; clear H
         | H : s_pc _ = _ |- _ => rewrite H in *; clear H
         | H : s_wq _ = _ |- _ => rewrite H in *; clear H
         | H : g_state _ = _ |- _ => rewrite H in *; clear H
         end; cbn in *; lia.

(** ** Requests *)

Lemma init_inv id rec mask : inv (init_sys id rec mask).
Proof.
  constructor; cbn; try done.
  - constructor; cbn; try done.
    + apply NoDup_nil_2.
    + set_solver.
    + intros id'. split; [set_solver|]. intros (x & [<- <-]%lookup_singleton_Some & ? & ?). done.
    + intros id' x Hi. by apply elem_of_nil in Hi.
  - unfold msum. rewrite map_fold_singleton. done.
  - unfold msum. rewrite map_fold_singleton. done.
  - intros id' x [<- <-]%lookup_singleton_Some. split_and!; try done. cbn. by left.
  - intros id' Hi. by apply elem_of_nil in Hi.
Qed.

Lemma join_good id rec mask s : inv s -> s_live s = true -> s_mem s !! id = None -> good (ib_sa_join_multicast id rec mask s).
Proof.
  intros H L E. unfold ib_sa_join_multicast, on_grp. rewrite L. cbn.
  destruct (lists_absent _ _ _ _ _ id (iv_lists _ H) E) as [Hp Ha].
  assert (mentions (s_pc s) <> Some id) as Hm by (intros X; destruct (mentioned _ _ H X) as (? & ? & ?); congruence).
  assert (occ id (s_tails s) = 0) as Ho.
  { destruct (decide (id ∈ s_tails s)) as [Hi|Hi]; [destruct (iv_tails _ H _ Hi); congruence|].
    clear - Hi. induction (s_tails s) as [|y l IH]; [done|]. cbn. rewrite bool_decide_eq_false_2, IH by set_solver. done. }
  destruct H as [Ilists Ibusy Irefs Ilive Imem Itails Ipc Iidle]. constructor; cbn; try done.
  - apply (lists_other _ _ _ _ _ id Ilists); [done..| |].
    + intros. by rewrite lookup_insert_ne.
    + intros y. rewrite lookup_insert_eq. intros [= <-]. by left.
  - by rewrite msum_fresh.
  - rewrite msum_fresh, Irefs by done. cbn. lia.
  - rewrite Ilive in L. rewrite Ilive, L. lia.
  - intros id' x Hx. lookups; [|by apply Imem]. unfold member_ok. cbn. rewrite holds_other, Ho by done. split_and!; try done. by left.
  - intros id' Hi. apply present_insert; auto.
  - eapply pc_keep; [done..|]. intros id' x Hx Ex. exists x. rewrite lookup_insert_ne by (intros ->; congruence). done.
Qed.

Lemma queue_join_good id x s : inv s -> s_mem s !! id = Some x -> m_pc x = M_queue -> good (queue_join id s).
Proof.
  intros H E Eq. pose proof (member_live s id x H E ltac:(by unfold attached; rewrite Eq)) as L.
  unfold queue_join, on_grp, on_mem, queue_work. rewrite L, E. cbn.
  destruct (lists_unlisted _ _ _ _ _ id (iv_lists _ H) x E ltac:(by rewrite Eq)) as [Hp Ha].
  assert (mentions (s_pc s) <> Some id) as Hm.
  { intros X. destruct (mentioned _ _ H X) as (y & ? & ?). congruence. }
  destruct H as [Ilists Ibusy Irefs Ilive Imem Itails Ipc Iidle]. destruct (Imem _ _ E) as (M1 & M2 & M3). rewrite Eq in M1, M3. destruct M3 as [M3 M4].
  pose proof (lists_queue _ _ _ _ _ id Ilists x E ltac:(by rewrite Eq) M3 M4) as HL.
  assert (forall id' y, <[id:=m_put_pc M_owned x]> (s_mem s) !! id' = Some y ->
    member_ok (s_pc s) (s_tails s) (g_pending (s_grp s) ++ [id]) id' y) as HM.
  { intros id' y Hy. lookups.
    - unfold member_ok. cbn. split_and!; [done..|]. intros _. left. set_solver.
    - eapply member_keep; [by apply Imem|done|set_solver]. }
  assert (forall st g, g_state g = st -> (g_state (s_grp s) = st \/ (g_state (s_grp s) = MCAST_IDLE /\ st = MCAST_BUSY)) -> g_pending g = g_pending (s_grp s) ++ [id] ->
     g_rec g = g_rec (s_grp s) -> g_leave_state g = g_leave_state (s_grp s) -> pc_ok (s_pc s) g (<[id:=m_put_pc M_owned x]> (s_mem s))) as HP.
  { intros st g Hs Hs' Hp' Hr Hl. eapply pc_keep; [done|unfold on_error; naive_solver congruence..|congruence|done| |].
    - rewrite Hp'. intros id' Hi' ?. assert (id' <> id) by congruence. set_solver.
    - intros id' y Hy Ey. exists y. rewrite lookup_insert_ne by (intros ->; congruence). done. }
  assert (forall id', id' ∈ s_tails s -> is_Some (<[id:=m_put_pc M_owned x]> (s_mem s) !! id')) as HT.
  { intros id' Hi. apply present_insert; auto. }
  destruct (decide (g_state (s_grp s) = MCAST_IDLE)) as [Ei|Ei].
  - destruct (idle_quiet s Ibusy Ei) as (Ew & Ek & Eqq). rewrite Ew. cbn.
    constructor; cbn; try done.
    + sums E.
    + sums E.
    + rewrite Ilive in *. lia.
    + by eapply HP; [done|right|..].
  - constructor; cbn; try done.
    + sums E.
    + sums E.
    + by eapply HP; [done|left|..].
Qed.

(** ** Freeing *)

Lemma free_good id x s : inv s -> s_mem s !! id = Some x -> m_pc x = M_owned ->
  inv (put id (m_put_pc (M_freeing false F_lock) x) s).
Proof.
  intros H E Eq. destruct H as [Ilists Ibusy Irefs Ilive Imem Itails Ipc Iidle].
  destruct (Imem _ _ E) as (M1 & M2 & M3). rewrite Eq in M1. constructor; cbn; try done.
  - eapply lists_same; [done..|cbn; by rewrite Eq|done|by left].
  - sums E.
  - sums E.
  - intros id' y Hy. lookups; [|by apply Imem]. done.
  - intros id' Hi. apply present_insert; auto.
  - eapply pc_keep; [done..|]. intros id' y Hx Ey. destruct (decide (id' = id)) as [->|Hne].
    + eexists. rewrite lookup_insert_eq. split; [done|]. split_and!; cbn; naive_solver congruence.
    + exists y. by rewrite lookup_insert_ne.
Qed.

(** The handler while a member is being freed. *)
Lemma pc_freeing pc g g' m id x y h f f' :
  pc_ok pc g m -> m !! id = Some x -> m_pc x = M_freeing h f -> m_pc y = M_freeing h f' ->
  (h = true -> exists errs, pc = K_free id errs) -> m_state y = m_state x -> m_log y = m_log x ->
  (on_error (g_state g) -> on_error (g_state g')) ->
  (g_state g = MCAST_GROUP_ERROR -> g_state g' = MCAST_GROUP_ERROR) ->
  join_state (g_rec g') = join_state (g_rec g) -> g_leave_state g' = g_leave_state g ->
  (forall id', id' ∈ g_pending g' -> id' ∈ g_pending g) -> pc_ok pc g' (<[id := y]> m).
Proof.
  intros H E Ex Ey Hh Es El S1 S2 R1 R2 P. destruct h.
  - destruct (Hh eq_refl) as [errs ->]. cbn in *. destruct H as [_ H]. split; [|auto]. exists y, f'. by rewrite lookup_insert_eq.
  - eapply pc_keep; [done..|auto|]. intros id' z _ Ez. destruct (decide (id' = id)) as [->|Hne].
    + exists y. rewrite lookup_insert_eq. split; [done|]. assert (z = x) as -> by congruence. split_and!; [done..| |]; congruence.
    + exists z. by rewrite lookup_insert_ne.
Qed.

(** What a member being freed has to show. *)
Lemma member_freeing pc t t' pl pl' id x y h f f' :
  member_ok pc t pl id x -> m_pc x = M_freeing h f -> m_pc y = M_freeing h f' ->
  (h = true -> exists errs, pc = K_free id errs) -> m_state y = m_state x -> m_log y = m_log x ->
  m_refcount y = own (m_pc y) + holds pc id + occ id t' -> member_ok pc t' pl' id y.
Proof.
  intros (H1 & H2 & H3) Ex Ey Hh Es El Hr. split; [done|]. split; [unfold log_ok in *; by rewrite Es, El|].
  rewrite Ey. destruct h; [right; auto|done].
Qed.

Section freeing.
Context (s : sys) (id : positive) (x : mcast_member) (h : bool).
Context (H : inv s) (E : s_mem s !! id = Some x) (Hh : h = true -> exists errs, s_pc s = K_free id errs).

Local Abbreviation step f := (m_put_pc (M_freeing h f) x).

(** The invariant after the section under the lock, for either continuation. *)
Lemma free_lock_inv f st ms g' :
  m_pc x = M_freeing h F_lock ->
  g_state (s_grp s) = MCAST_IDLE /\ st = MCAST_BUSY /\ f = F_queue \/ g_state (s_grp s) <> MCAST_IDLE /\ st = g_state (s_grp s) /\ f = F_release ->
  ms = (if decide (m_state x = MCAST_MEMBER) then adjust_members (g_members (s_grp s)) (join_state (m_rec x)) (-1) else g_members (s_grp s)) ->
  g' = list_del_init id (put_members ms (put_state st (s_grp s))) ->
  inv (put id (step f) (up_grp g' s)).
Proof using H E Hh.
  intros Eq Hst -> ->. destruct H as [Ilists Ibusy Irefs Ilive Imem Itails Ipc Iidle].
  assert (own (M_freeing h f) = 1 /\ listed (M_freeing h f) = false /\ attached (step f) = 1 /\ busy st = 1 /\
    queueing (step f) = 1 - busy (g_state (s_grp s))) as (F1 & F2 & F3 & F4 & F5).
  { destruct Hst as [(-> & -> & ->)|(Hi & -> & ->)]; [done|]. by destruct (g_state (s_grp s)). }
  constructor; cbn; try done.
  - apply lists_free; [done..|by rewrite Eq|done].
  - rewrite (msum_update _ _ _ _ _ E). unfold queueing at 2. rewrite Eq. lia.
  - rewrite (msum_update _ _ _ _ _ E). unfold attached at 2. rewrite Eq. lia.
  - intros id' y Hy. lookups.
    + eapply (member_freeing _ _ _ _ _ _ x _ h); [by apply Imem|done..|]. destruct (Imem _ _ E) as (M1 & _). rewrite Eq in M1.
      cbn. cbn in F1. rewrite F1. done.
    + eapply member_keep; [by apply Imem|done|]. intros Hi. apply list_elem_of_filter. done.
  - intros id' Hi. apply present_insert; auto.
  - eapply (pc_freeing (s_pc s) (s_grp s) _ _ id x _ h); [done..| | |done|done|]; cbn.
    + unfold on_error. destruct Hst as [(-> & -> & _)|(_ & -> & _)]; [by intros [?|?]|done].
    + destruct Hst as [(-> & -> & _)|(_ & -> & _)]; done.
    + intros id' [_ Hi]%list_elem_of_filter. done.
  - intros ->. done.
Qed.

Lemma free_lock_good : m_pc x = M_freeing h F_lock -> exists s', free_step id s = Ok (s', false) /\ inv s' /\ s_pc s' = s_pc s.
Proof using H E Hh.
  intros Eq. pose proof (member_live s id x H E ltac:(by unfold attached; rewrite Eq)) as L.
  pose proof free_lock_inv as Hi. unfold free_step, ib_sa_free_multicast, on_grp, on_mem. rewrite E, Eq, L.
  assert (forall b : bool, (if b then adjust_membership (join_state (m_rec x)) (-1) (s_grp s) else s_grp s)
    = put_members (if b then adjust_members (g_members (s_grp s)) (join_state (m_rec x)) (-1) else g_members (s_grp s)) (s_grp s)) as Eg
    by (intros []; [done|by destruct (s_grp s)]).
  cbn. destruct (decide (m_state x = MCAST_MEMBER)), (decide (g_state (s_grp s) = MCAST_IDLE)) as [Ei|Ei];
    cbn; rewrite ?decide_True, ?decide_False by done; cbn; rewrite E; cbn; eexists; (split; [done|]); (split; [|done]);
    eapply Hi; try done; rewrite ?decide_True, ?decide_False by done; eauto 10.
Qed.

(** The sections after the lock change counters only. *)
Lemma free_counters_inv f f' n b wq r :
  m_pc x = M_freeing h f -> f <> F_lock -> f' <> F_lock ->
  let y := m_with (m_rec x) (m_state x) r (M_freeing h f') (m_log x) x in
  b2z wq + queueing y = b2z (s_wq s) + queueing x ->
  n + attached x + b2z (s_wq s) = g_refcount (s_grp s) + attached y + b2z wq ->
  r + own (m_pc x) = m_refcount x + own (M_freeing h f') -> b = (0 <? n) ->
  inv (put id y (up_grp (put_refcount n (s_grp s)) (up_live b (up_wq wq s)))).
Proof using H E Hh.
  intros Eq Hf Hf' y Hq Ha Hr ->. destruct H as [Ilists Ibusy Irefs Ilive Imem Itails Ipc Iidle].
  assert (listed (M_freeing h f') = listed (m_pc x)) as Hl by (rewrite Eq; by destruct f, f').
  constructor; cbn [s_grp s_live s_wq s_pc s_rel s_tails s_resent s_mem put up_grp up_live up_wq up_mem g_rec g_pending
    g_active g_members g_refcount g_state g_retries g_leave_state put_refcount]; try done.
  - eapply lists_same; [done..|by left].
  - rewrite (msum_update _ _ _ _ _ E). lia.
  - rewrite (msum_update _ _ _ _ _ E). lia.
  - intros id' z Hz. lookups; [|by apply Imem].
    eapply (member_freeing _ _ _ _ _ _ x _ h); [by apply Imem|done..|]. destruct (Imem _ _ E) as (M1 & _). cbn [m_refcount m_pc y m_with]. lia.
  - intros id' Hi. apply present_insert; auto.
  - by eapply (pc_freeing (s_pc s) (s_grp s) _ _ id x _ h).
Qed.

(** The end: the member is gone. *)
Lemma free_wait_inv pc' :
  m_pc x = M_freeing h F_wait -> m_refcount x = 0 ->
  (if h then exists errs, s_pc s = K_free id errs /\ pc' = back errs else pc' = s_pc s) ->
  inv (up_pc pc' (up_mem (delete id (s_mem s)) s)).
Proof using H E Hh.
  intros Eq Hr Hpc. destruct (lists_unlisted _ _ _ _ _ id (iv_lists _ H) x E ltac:(by rewrite Eq)) as [Hp Ha].
  destruct H as [Ilists Ibusy Irefs Ilive Imem Itails Ipc Iidle].
  destruct (Imem _ _ E) as (M1 & M2 & M3). rewrite Eq in M1, M3. cbn in M1.
  assert (occ id (s_tails s) = 0 /\ holds (s_pc s) id = 0) as [Ho Hk].
  { pose proof (occ_nonneg id (s_tails s)). pose proof (holds_nonneg (s_pc s) id). lia. }
  assert (mentions pc' <> Some id) as Hm'.
  { destruct h; [destruct Hpc as ([] & _ & ->); done|]. subst pc'. intros Hm.
    destruct (s_pc s) as [| | | | |id' st []|id' free errs|id' errs| | |js| |]; cbn in *; simplify_eq; try (by rewrite bool_decide_eq_true_2 in Hk).
    destruct Ipc as [(y & f & ? & ?) _]. congruence. }
  assert (running pc' = running (s_pc s)) as Hrun by (destruct h; [destruct Hpc as ([] & -> & ->)|subst]; done).
  constructor; cbn; try done.
  - apply (lists_other _ _ _ _ _ id Ilists); [done..| |].
    + intros. by rewrite lookup_delete_ne.
    + intros y. by rewrite lookup_delete_eq.
  - pose proof (msum_delete queueing _ _ _ E) as X. unfold queueing at 2 in X. rewrite Eq in X. lia.
  - pose proof (msum_delete attached _ _ _ E) as X. unfold attached at 2 in X. rewrite Eq in X. lia.
  - intros id' y Hy. lookups. destruct h; [|subst; by apply Imem].
    destruct Hpc as (errs & Epc & ->). eapply member_frame; [by apply Imem| |by destruct errs|done..]. rewrite Epc. cbn. congruence.
  - intros id' Hi. rewrite lookup_delete_ne; [auto|]. intros ->. apply occ_in in Hi. lia.
  - destruct h.
    + destruct Hpc as (errs & Epc & ->). rewrite Epc in Ipc. destruct Ipc as [_ Ipc]. destruct errs; cbn; auto.
    + subst. eapply pc_keep; [done..|]. intros id' y Hi Ey. exists y. rewrite lookup_delete_ne by congruence. done.
Qed.
End freeing.

(** One section of freeing a member, by its client or by the handler. *)
Lemma free_step_good id x h f s :
  inv s -> s_mem s !! id = Some x -> m_pc x = M_freeing h f -> (h = true -> exists errs, s_pc s = K_free id errs) ->
  match free_step id s with
  | Ok (s', false) => inv s' /\ s_pc s' = s_pc s
  | Ok (s', true) => s_pc s' = s_pc s /\
      forall pc', (if h then exists errs, s_pc s = K_free id errs /\ pc' = back errs else pc' = s_pc s) -> inv (up_pc pc' s')
  | Bug => False
  | Block => True
  end.
Proof.
  intros H E Eq Hh. destruct f.
  - destruct (free_lock_good s id x h H E Hh Eq) as (s' & -> & ? & ?). done.
  - unfold free_step, on_mem. rewrite E, Eq. cbn. unfold queue_work.
    assert (s_wq s = false) as Ew.
    { pose proof (msum_lookup queueing _ _ _ queueing_nonneg E) as X. unfold queueing at 1 in X. rewrite Eq in X.
      pose proof (iv_busy _ H). destruct (s_wq s), (s_pc s), (g_state (s_grp s)); cbn in *; try done; lia. }
    rewrite Ew. cbn. rewrite E. cbn. split; [|done].
    pose proof (free_counters_inv s id x h H E Hh F_queue F_deref (g_refcount (s_grp s)) (s_live s) true (m_refcount x) Eq) as X.
    cbn in X. replace (up_grp (put_refcount (g_refcount (s_grp s)) (s_grp s)) (up_live (s_live s) (up_wq true s))) with (up_wq true s)
      in X by (by destruct s as [[] ? ? ? ? ? ? ?]).
    apply X; try done; unfold attached, queueing; rewrite ?Eq, ?Ew; cbn; try lia. apply H.
  - pose proof (member_live s id x H E ltac:(by unfold attached; rewrite Eq)) as L.
    unfold free_step, on_mem. rewrite E, Eq. cbn. rewrite release_group_eq by done. cbn. rewrite E. cbn. split; [|done].
    pose proof (free_counters_inv s id x h H E Hh F_release F_deref (g_refcount (s_grp s) - 1) (0 <? g_refcount (s_grp s) - 1)
      (s_wq s) (m_refcount x) Eq) as X.
    replace (up_wq (s_wq s) s) with s in X by (by destruct s).
    apply X; try done; unfold attached, queueing; rewrite ?Eq; cbn; lia.
  - unfold free_step, on_mem. rewrite E, Eq. cbn. unfold deref_member, on_mem. rewrite E. cbn.
    assert (0 < m_refcount x) as Hr.
    { destruct (iv_mem _ H _ _ E) as (M1 & _). rewrite Eq in M1. cbn in M1. pose proof (occ_nonneg id (s_tails s)).
      pose proof (holds_nonneg (s_pc s) id). lia. }
    rewrite (proj2 (Z.leb_gt _ _) Hr). cbn. rewrite lookup_insert_eq. cbn. split; [|done].
    pose proof (free_counters_inv s id x h H E Hh F_deref F_wait (g_refcount (s_grp s)) (s_live s) (s_wq s) (m_refcount x - 1) Eq) as X.
    replace (up_grp (put_refcount (g_refcount (s_grp s)) (s_grp s)) (up_live (s_live s) (up_wq (s_wq s) s))) with s
      in X by (by destruct s as [[] ? ? ? ? ? ? ?]).
    unfold put in *. cbn. rewrite insert_insert_eq. apply X; try done; unfold attached, queueing; rewrite ?Eq; cbn; try lia. apply H.
  - unfold free_step, on_mem. rewrite E, Eq. cbn. unfold on_mem. rewrite E.
    destruct (Z.eqb_spec (m_refcount x) 0) as [Hr|Hr]; cbn; [|done]. split; [done|]. intros pc'. by eapply free_wait_inv.
Qed.

(** ** Events, the work queue and threads that finish *)

Lemma mc_event_good st s : inv s -> s_live s = true -> on_error st -> good (mcast_groups_event st s).
Proof.
  intros H L Hst. unfold mcast_groups_event, on_grp. rewrite L.
  destruct H as [Ilists Ibusy Irefs Ilive Imem Itails Ipc Iidle].
  assert (busy st = 1 /\ st <> MCAST_IDLE) as [Hb Hi] by (by destruct Hst as [-> | ->]).
  destruct (decide (g_state (s_grp s) = MCAST_IDLE)) as [Ei|Ei].
  - destruct (idle_quiet s Ibusy Ei) as (Ew & Ek & Eqq). unfold queue_work. cbn. rewrite Ew. cbn. rewrite Ei.
    rewrite decide_False by done. rewrite Ek, Ew in *. constructor; cbn; rewrite ?Ek; try done; cbn in *; [lia..|].
    rewrite Ilive in L. apply Z.ltb_lt in L. rewrite Ilive. lia.
  - cbn. destruct (decide (g_state (s_grp s) = MCAST_GROUP_ERROR)) as [Eg|Eg]; [by replace (up_grp (s_grp s) s) with s by (by destruct s)|].
    constructor; cbn; try done.
    + rewrite Hb, Ibusy. by destruct (g_state (s_grp s)).
    + eapply pc_keep; [done..| |done|done|done|done|].
      * done.
      * intros id x _ E. by exists x.
Qed.

Lemma mc_dispatch_good s : inv s -> good (run_step L_dispatch s).
Proof.
  intros H. cbn. destruct (s_wq s) eqn:Ew; [|done].
  destruct H as [Ilists Ibusy Irefs Ilive Imem Itails Ipc Iidle].
  assert (s_pc s = K_none) as Ek.
  { pose proof (msum_nonneg queueing (s_mem s) queueing_nonneg). rewrite Ew in Ibusy.
    destruct (s_pc s), (g_state (s_grp s)); cbn in *; try done; lia. }
  rewrite decide_True by done. rewrite Ek in *. constructor; cbn; try done.
  - rewrite Ew in *. cbn in *. lia.
  - rewrite Ew in *. cbn in *. lia.
  - intros id x E. by eapply member_frame; [apply Imem|..].
Qed.

Lemma mc_release_good s : inv s -> good (run_step L_release s).
Proof.
  intros H. cbn. destruct (s_rel s) as [|n] eqn:Er; [done|].
  assert (s_live s = true) as L.
  { apply (inv_live _ H). rewrite Er. pose proof (msum_nonneg attached (s_mem s) attached_nonneg).
    unfold b2z, running. destruct (s_wq s), (s_pc s); lia. }
  assert (release_group (up_rel n s) = Ok (up_rel n (up_grp (put_refcount (g_refcount (s_grp s) - 1) (s_grp s))
    (up_live (0 <? g_refcount (s_grp s) - 1) s)))) as ->.
  { pose proof (release_group_eq s H L) as X. unfold release_group, on_grp in *. cbn. destruct (s_live s); [|done].
    destruct (g_refcount (s_grp s) <=? 0); [done|]. apply (f_equal (fun o => match o with Ok s => Ok (up_rel n s) | o => o end)) in X.
    etrans; [|exact X]. by destruct (g_refcount (s_grp s) =? 1). }
  destruct H as [Ilists Ibusy Irefs Ilive Imem Itails Ipc Iidle]. constructor; cbn; try done. lia.
Qed.

Lemma tail_good id s : inv s -> id ∈ s_tails s -> good (run_step (L_tail id) s).
Proof.
  intros H Hi. cbn. destruct (iv_tails _ H _ Hi) as [x E]. destruct H as [Ilists Ibusy Irefs Ilive Imem Itails Ipc Iidle].
  unfold deref_member, on_mem. rewrite E. cbn. destruct (Imem _ _ E) as (M1 & M2 & M3).
  assert (0 < m_refcount x) as Hr.
  { pose proof (occ_in _ _ Hi). pose proof (holds_nonneg (s_pc s) id). destruct (m_pc x) as [| |? []]; cbn in *; lia. }
  rewrite (proj2 (Z.leb_gt _ _) Hr). cbn. constructor; cbn; try done.
  - eapply lists_same; [done..|by left].
  - sums E.
  - sums E.
  - intros id' y Hy. lookups.
    + split_and!; try done. cbn. rewrite occ_delete, bool_decide_eq_true_2, M1 by done. cbn. lia.
    + eapply member_keep; [by apply Imem| |done]. rewrite occ_delete, bool_decide_eq_false_2 by done. cbn. lia.
  - intros id' Hd. apply present_insert, Itails. by eapply delete_one_in.
  - eapply pc_keep; [done..|]. intros id' y _ Ey. destruct (decide (id' = id)) as [->|Hne].
    + eexists. rewrite lookup_insert_eq. split; [done|]. by assert (y = x) as -> by congruence.
    + exists y. by rewrite lookup_insert_ne.
Qed.

Lemma resent_good s : inv s -> s_live s = true -> good (run_step L_resent s).
Proof.
  intros H L. cbn. unfold on_grp. rewrite L.
  destruct H as [Ilists Ibusy Irefs Ilive Imem Itails Ipc Iidle]. constructor; cbn; try done; lia.
Qed.

(** ** The handler *)

Lemma running_busy s : inv s -> s_pc s <> K_none -> busy (g_state (s_grp s)) = 1.
Proof.
  intros H Hk. pose proof (iv_busy _ H). pose proof (msum_nonneg queueing (s_mem s) queueing_nonneg).
  unfold b2z in *. destruct (s_wq s), (s_pc s), (g_state (s_grp s)); cbn in *; try done; lia.
Qed.

(** A section of the handler that changes the group, and the one that also changes the
    member it works on. *)
Lemma handler_group s pc' g' :
  inv s -> s_pc s <> K_none -> pc' <> K_none -> mentions (s_pc s) = None -> mentions pc' = None ->
  lists_ok (g_pending g') (g_active g') (g_members g') (join_state (g_rec g')) (s_mem s) ->
  g_pending g' = g_pending (s_grp s) ->
  g_refcount g' = g_refcount (s_grp s) -> busy (g_state g') = 1 -> pc_ok pc' g' (s_mem s) ->
  inv (up_pc pc' (up_grp g' s)).
Proof.
  intros H Hk Hk' Hm Hm' HL HP Hr Hb Hpc. pose proof (running_busy s H Hk) as Hb'.
  assert (running pc' = running (s_pc s)) as Hrun by (destruct pc', (s_pc s); done).
  destruct H as [Ilists Ibusy Irefs Ilive Imem Itails Ipc Iidle]. constructor; cbn; try done.
  - lia.
  - lia.
  - by rewrite Hr.
  - intros id x E. eapply member_frame; [by apply Imem|by rewrite ?Hm, ?Hm'..|done|by rewrite HP].
  - intros E. by rewrite E in Hb.
Qed.

(** What a section of the handler leaves alone. *)
Definition same (s s' : sys) : Prop :=
  s_live s' = s_live s /\ s_wq s' = s_wq s /\ s_rel s' = s_rel s /\
  g_refcount (s_grp s') = g_refcount (s_grp s).

Lemma handler_member s s' id x y :
  inv s -> same s s' -> s_pc s <> K_none -> s_pc s' <> K_none -> busy (g_state (s_grp s')) = 1 ->
  s_mem s !! id = Some x -> s_mem s' = <[id := y]> (s_mem s) ->
  m_pc y = m_pc x \/ m_pc x = M_owned /\ m_pc y = M_freeing true F_lock ->
  mentions (s_pc s) = None \/ mentions (s_pc s) = Some id -> mentions (s_pc s') = None \/ mentions (s_pc s') = Some id ->
  (forall id', id' <> id -> id' ∈ g_pending (s_grp s) -> id' ∈ g_pending (s_grp s')) ->
  s_tails s' = s_tails s \/ s_tails s' = id :: s_tails s ->
  lists_ok (g_pending (s_grp s')) (g_active (s_grp s')) (g_members (s_grp s')) (join_state (g_rec (s_grp s'))) (s_mem s') ->
  member_ok (s_pc s') (s_tails s') (g_pending (s_grp s')) id y -> pc_ok (s_pc s') (s_grp s') (s_mem s') -> inv s'.
Proof.
  intros H (S1 & S2 & S3 & S5) Hk Hk' Hb E E' Hpcs Hm Hm' HP Ht HL HM Hpc. pose proof (running_busy s H Hk) as Hb'.
  assert (running (s_pc s') = running (s_pc s)) as Hrun by (destruct (s_pc s'), (s_pc s); done).
  assert (attached y = attached x /\ queueing y = queueing x) as [Ha Hq].
  { unfold attached, queueing. by destruct Hpcs as [->|[-> ->]]. }
  destruct H as [Ilists Ibusy Irefs Ilive Imem Itails Ipc Iidle].
  constructor; rewrite ?S1, ?S2, ?S3, ?S5; try done.
  - rewrite E', (msum_update _ _ _ _ _ E). lia.
  - rewrite E', (msum_update _ _ _ _ _ E). lia.
  - rewrite E'. intros id' z Hz. lookups; [done|]. eapply member_frame; [by apply Imem| | | |auto].
    + destruct Hm as [-> | ->]; congruence.
    + destruct Hm' as [-> | ->]; congruence.
    + destruct Ht as [-> | ->]; [done|]. cbn. by rewrite bool_decide_eq_false_2.
  - rewrite E'. intros id' Hi. assert (id' = id \/ id' ∈ s_tails s) as [->|Hi'] by (destruct Ht as [X|X]; rewrite X in Hi; set_solver).
    + by rewrite lookup_insert_eq.
    + apply present_insert; auto.
  - intros Ei. by rewrite Ei in Hb.
Qed.

Lemma up_tails_id s : up_tails (s_tails s) s = s.
Proof. by destruct s. Qed.

Lemma put_id id x s : s_mem s !! id = Some x -> put id x s = s.
Proof. intros E. unfold put. rewrite insert_id by done. by destruct s. Qed.

Lemma up_grp_id s : up_grp (s_grp s) s = s.
Proof. by destruct s. Qed.

Lemma error_busy g : on_error (g_state g) -> busy (g_state g) = 1.
Proof. by intros [-> | ->]. Qed.

Lemma pge_good i s : inv s -> s_pc s = K_pge -> good (mcast_work_handler i s).
Proof.
  intros H Ek. unfold mcast_work_handler, on_grp. rewrite running_live by (try done; congruence). rewrite Ek.
  pose proof (iv_pc _ H) as Hp. rewrite Ek in Hp. cbn in Hp.
  cbn [good]. rewrite <- (up_grp_id s) at 3. apply handler_group; try done; try congruence; [by rewrite Ek|apply H|by apply error_busy|].
  cbn. split; [done|]. case_decide; [done|]. intros _. by destruct Hp.
Qed.

Lemma leave_good i js s : inv s -> s_pc s = K_leave js -> good (mcast_work_handler i s).
Proof.
  intros H Ek. unfold mcast_work_handler, on_grp. rewrite running_live by (try done; congruence). rewrite Ek.
  pose proof (iv_pc _ H) as Hp. rewrite Ek in Hp. cbn in Hp.
  cbn [good]. apply handler_group; try done; try congruence; try (by case_match); [by rewrite Ek|apply H|cbn; by apply running_busy; congruence].
Qed.

(** The end of the loop: nothing is left to do, or a kind of membership is given up. *)
Lemma loop_end_good s : inv s -> s_pc s = K_loop -> g_pending (s_grp s) = [] -> g_state (s_grp s) = MCAST_BUSY -> good (mcast_work_loop s).
Proof.
  intros H Ek Ep Es. unfold mcast_work_loop. rewrite Ep, Es. cbn.
  destruct (Z.eqb_spec (get_leave_state (s_grp s)) 0) as [El|El]; cbn.
  - destruct H as [Ilists Ibusy Irefs Ilive Imem Itails Ipc Iidle].
    rewrite Es, Ek in Ibusy. rewrite Ek in Irefs. constructor; cbn; try done.
    + cbn in *. lia.
    + cbn in *. lia.
    + intros id x E. eapply member_frame; [by apply Imem|by rewrite Ek|done..].
  - pose proof (iv_lists _ H) as L. set (js := get_leave_state (s_grp s)) in *.
    apply handler_group; try done; try congruence; [by rewrite Ek| |cbn; by rewrite Es|].
    + cbn. destruct L as [L1 L2 L3 L4 L5]. constructor; try done. intros id x Hi E.
      pose proof (L5 id x Hi E) as Hb. apply Z.bits_inj'. intros n Hn. rewrite Z.bits_0, Z.ldiff_spec, Z.ldiff_spec.
      assert (Z.testbit (Z.ldiff (join_state (m_rec x)) (join_state (g_rec (s_grp s)))) n = false) as Hb' by (by rewrite Hb, Z.bits_0).
      rewrite Z.ldiff_spec in Hb'. destruct (Z.testbit (join_state (m_rec x)) n) eqn:Ex; [|done]. cbn in *.
      apply negb_false_iff in Hb'. rewrite Hb'. cbn. apply negb_false_iff. apply negb_true_iff.
      unfold js. rewrite (leave_state_spec _ _ _ L4 Hn).
      destruct (Z.eqb_spec (count_bit (s_mem s) (g_active (s_grp s)) n) 0) as [Hz|Hz]; [|by rewrite andb_false_r].
      pose proof (count_bit_zero _ _ _ _ _ Hz Hi E). congruence.
    + cbn. apply Z.bits_inj'. intros n Hn. rewrite Z.bits_0, Z.land_spec, Z.ldiff_spec. by destruct (Z.testbit _ n), (Z.testbit js n).
Qed.

(** A member the handler takes from a list, with a reference. *)
Lemma taken_ok s pc pl id x y :
  inv s -> s_mem s !! id = Some x -> mentions (s_pc s) = None -> m_refcount y = m_refcount x + 1 -> m_pc y = m_pc x ->
  m_pc x <> M_queue -> log_ok pc id y -> holds pc id = 1 -> answer_due pc pl id -> member_ok pc (s_tails s) pl id y.
Proof.
  intros H E Hm Hr Hp Hq Hl Hh Ha. destruct (iv_mem _ H _ _ E) as (M1 & _ & M3). rewrite holds_other in M1 by (by rewrite Hm).
  unfold member_ok. rewrite Hp, Hh, Hr, M1. split_and!; [lia|done|].
  destruct (m_pc x) as [| |[] f]; try done. exfalso. by destruct M3 as [(? & Y & _)|(? & Y)]; rewrite Y in Hm.
Qed.

(** The first request: it is answered from the record of the group, or sent to the SA. *)
Lemma loop_request_good s id pl : inv s -> s_pc s = K_loop -> g_pending (s_grp s) = id :: pl -> g_state (s_grp s) = MCAST_BUSY ->
  good (mcast_work_loop s).
Proof.
  intros H Ek Ep Es. unfold mcast_work_loop. rewrite Ep, Es. cbn.
  assert (id ∈ g_pending (s_grp s)) as Hi by (rewrite Ep; set_solver).
  pose proof (iv_lists _ H) as L. destruct (lo_pending _ _ _ _ _ L _ Hi) as (x & E & X1 & X2 & X3).
  assert (id ∉ g_active (s_grp s)) as Ha by (intros ?; by eapply lists_disjoint).
  assert (m_pc x <> M_queue) as X4 by (intros Y; by rewrite Y in X3).
  unfold ref_member, on_mem. rewrite E. cbn. rewrite lookup_insert_eq. cbn.
  destruct (join_state (m_rec x) =? Z.land (join_state (g_rec (s_grp s))) (join_state (m_rec x))) eqn:Ejs; cbn.
  - set (status := cmp_rec _ _ _). destruct (Z.eqb_spec status 0) as [Est|Est].
    + rewrite Est. unfold join_group, put, m_put_refcount. cbn. rewrite insert_insert_eq.
      eapply (handler_member s _ id x); cbn; try done; auto; try congruence.
      * by rewrite Es.
      * rewrite Ek. by left.
      * intros id' Hne Hp. by apply list_elem_of_filter.
      * by apply lists_join with (x := x).
      * eapply taken_ok; try done; [by rewrite Ek|by right|cbn; by rewrite bool_decide_eq_true_2|]. right. left. eauto.
      * split; [|rewrite list_elem_of_filter; naive_solver]. eexists. rewrite lookup_insert_eq. done.
    + eapply (handler_member s _ id x); cbn; try done; auto; try congruence.
      * by rewrite Es.
      * rewrite Ek. by left.
      * intros id' Hne Hp. by apply list_elem_of_filter.
      * rewrite (without_notin id (g_active _)) by done.
        apply lists_same with (x := x); try done; [by apply lists_del_pending|by left].
      * eapply taken_ok; try done; [by rewrite Ek|unfold log_ok; cbn; rewrite X1; by left|cbn; by rewrite bool_decide_eq_true_2|].
        right. left. eauto.
      * split; [|rewrite list_elem_of_filter; naive_solver]. eexists. rewrite lookup_insert_eq.
        by rewrite (proj2 (Z.eqb_neq _ _) Est).
  - eapply (handler_member s _ id x); cbn; try done; auto; try congruence.
    + by rewrite Es.
    + rewrite Ek. by left.
    + apply lists_same with (x := x); try done. by left.
    + eapply taken_ok; try done; [by rewrite Ek|unfold log_ok; cbn; rewrite X1; by left|cbn; by rewrite bool_decide_eq_true_2|by left].
    + eexists. rewrite lookup_insert_eq. done.
Qed.

(** An event: the members are reset one after another. *)
Lemma group_error_good s : inv s -> s_pc s <> K_none -> mentions (s_pc s) = None -> on_error (g_state (s_grp s)) ->
  good (process_group_error s).
Proof.
  intros H Hk Hm He. unfold process_group_error. pose proof (iv_lists _ H) as L.
  destruct (g_active (s_grp s)) as [|id al] eqn:Ea.
  - cbn. apply handler_group; try done. cbn. rewrite Ea. destruct L as [L1 L2 L3 L4 L5]. constructor; try done.
    intros id x Hi. by apply elem_of_nil in Hi.
  - assert (id ∈ g_active (s_grp s)) as Ha by (rewrite Ea; set_solver). rewrite <- Ea in *.
    destruct (proj1 (lo_active _ _ _ _ _ L id) Ha) as (x & E & X1 & X2).
    assert (id ∉ g_pending (s_grp s)) as Hp by (intros ?; by eapply lists_disjoint).
    destruct (iv_mem _ H _ _ E) as (M1 & M2 & M3). rewrite holds_other in M1 by (by rewrite Hm).
    assert (m_log x = [0]) as Elog.
    { unfold log_ok in M2. rewrite X1 in M2. destruct M2 as [?|[_ Hc]]; [done|]. by rewrite Hc in Hm. }
    unfold on_mem at 1. rewrite E. unfold ref_member, on_mem. rewrite E. cbn. rewrite lookup_insert_eq. cbn. unfold put. cbn. rewrite insert_insert_eq.
    eapply (handler_member s _ id x); cbn; try done; auto; try congruence.
    + by apply error_busy.
    + intros id' Hne Hi. by apply list_elem_of_filter.
    + rewrite (without_notin id (g_pending _)) by done. apply lists_del with (x := x); try done. by right.
    + split_and!; cbn; [|by right|].
      * rewrite bool_decide_eq_true_2 by done. cbn. lia.
      * destruct (m_pc x) as [| |[] f]; try done; [by rewrite Elog|]. exfalso. destruct M3 as [(? & Y & _)|(? & Y)]; by rewrite Y in Hm.
    + split_and!; try done. eexists. rewrite lookup_insert_eq. split_and!; try done. cbn. intros Y. by rewrite Y in X2.
Qed.

(** The callback of a member. *)
Lemma cb_good i id st errs s :
  inv s -> s_pc s = K_cb id st errs -> (i_ret i =? 0) || is_owned id s = true -> good (mcast_work_handler i s).
Proof.
  intros H Ek Hi. unfold mcast_work_handler, on_grp. rewrite running_live by (try done; congruence). rewrite Ek.
  assert (exists x, s_mem s !! id = Some x /\ m_pc x <> M_queue /\ id ∉ g_pending (s_grp s) /\
    log_ok (K_deref id (negb (i_ret i =? 0)) errs) id (m_called st x)) as (x & E & Xq & Xp & Xl).
  { pose proof (iv_pc _ H) as P. rewrite Ek in P. cbn in P. destruct errs.
    - destruct P as ((x & E & X1 & X2 & X3) & -> & _). exists x. split_and!; [done..| |].
      + intros Hp. destruct (lo_pending _ _ _ _ _ (iv_lists _ H) _ Hp) as (y & ? & ? & _). congruence.
      + unfold log_ok. cbn. rewrite X1, X2. by left.
    - destruct P as ((x & E & X1 & X2 & X3) & X4). exists x. split_and!; [done..|].
      unfold log_ok. cbn. rewrite X1, X2. destruct (Z.eqb_spec st 0) as [->|]; [by left|]. right. eauto. }
  assert (on_error (g_state (s_grp s)) \/ errs = false) as He.
  { pose proof (iv_pc _ H) as P. rewrite Ek in P. destruct errs; [left; apply P|by right]. }
  unfold on_mem. rewrite E. cbn. destruct (iv_mem _ H _ _ E) as (M1 & M2 & M3). rewrite Ek in M1, M3. cbn in M1.
  rewrite bool_decide_eq_true_2 in M1 by done. cbn in M1.
  assert (forall f, m_pc x <> M_freeing true f) as Hnf by (intros f Y; rewrite Y in M3; naive_solver).
  assert (busy (g_state (s_grp s)) = 1) as Hb by (apply running_busy; [done|congruence]).
  unfold is_owned in Hi. rewrite E in Hi.
  destruct (Z.eqb_spec (i_ret i) 0) as [Er|Er]; cbn in *.
  - eapply (handler_member s _ id x); cbn; try done; auto; try congruence; try (rewrite Ek; by right).
    + apply lists_same with (x := x); try done; [apply H|by right].
    + split_and!; cbn; [|done|].
      * rewrite bool_decide_eq_true_2 by done. cbn. lia.
      * destruct (m_pc x) as [| |[] f] eqn:Epc; try done; [by intros [_ ?]%app_nil|by destruct (Hnf f)].
    + split; [|intros ->; by destruct He]. eexists. rewrite lookup_insert_eq. split_and!; try done. cbn. by intros [_ ?]%app_nil.
  - apply bool_decide_eq_true in Hi. eapply (handler_member s _ id x); cbn; try done; auto; try congruence; try (rewrite Ek; by right).
    + apply lists_same with (x := x); try done; [apply H|cbn; by rewrite Hi|by right].
    + split_and!; cbn; [|done|].
      * rewrite bool_decide_eq_true_2 by done. rewrite Hi in M1. cbn in *. lia.
      * left. eauto.
    + split; [|intros ->; by destruct He]. eexists. rewrite lookup_insert_eq. split_and!; try done. cbn. by intros [_ ?]%app_nil.
Qed.

Lemma deref_good i id free errs s : inv s -> s_pc s = K_deref id free errs -> good (mcast_work_handler i s).
Proof.
  intros H Ek. unfold mcast_work_handler, on_grp. rewrite running_live by (try done; congruence). rewrite Ek.
  pose proof (iv_pc _ H) as P. rewrite Ek in P. destruct P as [(x & E & X1 & X2) X3].
  unfold deref_member, on_mem. rewrite E. cbn. destruct (iv_mem _ H _ _ E) as (M1 & M2 & M3). rewrite Ek in M1, M2, M3. cbn in M1.
  rewrite bool_decide_eq_true_2 in M1 by done. cbn in M1.
  assert (0 < m_refcount x) as Hr.
  { pose proof (occ_nonneg id (s_tails s)). destruct (m_pc x) as [| |? []]; cbn in *; lia. }
  rewrite (proj2 (Z.leb_gt _ _) Hr). cbn.
  assert (busy (g_state (s_grp s)) = 1) as Hb by (apply running_busy; [done|congruence]).
  assert (forall pc, log_ok pc id x) as Hl.
  { intros pc. unfold log_ok in *. destruct (m_state x); [done|destruct M2 as [?|[? ?]]; [by left|done]..]. }
  eapply (handler_member s _ id x); cbn; try done; auto; try congruence; try (rewrite Ek; by right).
  - by destruct free, errs.
  - destruct free; [by right|left; by destruct errs].
  - apply lists_same with (x := x); try done; [apply H|by left].
  - split_and!; cbn; [|apply Hl|].
    + assert (holds (if free then K_free id errs else back errs) id = 0) as -> by (by destruct free, errs). lia.
    + destruct (m_pc x) as [| |[] f] eqn:Epc; try done. destruct M3 as [(errs' & [= -> ->] & ->)|(? & ?)]; [|done]. right. eauto.
  - destruct free; cbn.
    + split; [|done]. eexists _, F_lock. rewrite lookup_insert_eq. split; [done|]. cbn. auto.
    + destruct errs; cbn; auto.
Qed.

Lemma send_good i id s : inv s -> s_pc s = K_send id -> good (mcast_work_handler i s).
Proof.
  intros H Ek. unfold mcast_work_handler, on_grp. rewrite running_live by (try done; congruence). rewrite Ek.
  pose proof (iv_pc _ H) as P. rewrite Ek in P. destruct P as (x & E & X1 & X2 & X3).
  destruct (iv_mem _ H _ _ E) as (M1 & M2 & M3). rewrite Ek in M1, M2, M3. cbn in M1.
  rewrite bool_decide_eq_true_2 in M1 by done. cbn in M1.
  assert (busy (g_state (s_grp s)) = 1) as Hb by (apply running_busy; [done|congruence]).
  assert (forall f, m_pc x <> M_freeing true f) as Hnf by (intros f Y; rewrite Y in M3; naive_solver).
  assert (forall pc, log_ok pc id x) as Hl by (intros pc; unfold log_ok; rewrite X1; by left).
  cbn. destruct (Z.eqb_spec (query_result (i_ret i)) 0) as [Er|Er].
  - eapply (handler_member s _ id x x); cbn; try done; auto; try congruence; try (rewrite Ek; by right).
    + by rewrite insert_id.
    + apply H.
    + split_and!; cbn; [rewrite bool_decide_eq_true_2 by done; cbn; lia|apply Hl|].
      destruct (m_pc x) as [| |[] f] eqn:Epc; try done; [|by destruct (Hnf f)]. intros ?. destruct M3 as [?|[[? ?]|[? ?]]]; [done|by left|done..].
  - eapply (handler_member s _ id x x); cbn; try done; auto; try congruence; try (rewrite Ek; by right).
    + by rewrite insert_id.
    + apply H.
    + split_and!; cbn; [rewrite bool_decide_eq_true_2 by done; cbn; lia|apply Hl|].
      destruct (m_pc x) as [| |[] f] eqn:Epc; try done; [|by destruct (Hnf f)]. intros ?. right. right. eauto.
    + split; [done|]. by exists x.
Qed.

Lemma fail_good i id st s : inv s -> s_pc s = K_fail id st -> good (mcast_work_handler i s).
Proof.
  intros H Ek. unfold mcast_work_handler, on_grp. rewrite running_live by (try done; congruence). rewrite Ek.
  pose proof (iv_pc _ H) as P. rewrite Ek in P. destruct P as (X0 & x & E & X1 & X2 & X3).
  destruct (iv_mem _ H _ _ E) as (M1 & M2 & M3). rewrite Ek in M1, M2, M3. cbn in M1.
  assert (busy (g_state (s_grp s)) = 1) as Hb by (apply running_busy; [done|congruence]).
  pose proof (iv_lists _ H) as L.
  assert (id ∉ g_active (s_grp s)) as Ha by (intros (y & ? & ? & ?)%(lo_active _ _ _ _ _ L); congruence).
  eapply (handler_member s _ id x x); cbn; try done; auto; try congruence; try (rewrite Ek; by right).
  - by rewrite insert_id.
  - intros id' Hne Hi. by apply list_elem_of_filter.
  - rewrite (without_notin id (g_active _)) by done. by apply lists_del_pending.
  - split_and!; cbn; [done|unfold log_ok; rewrite X1; by left|].
    destruct (m_pc x) as [| |[] f] eqn:Epc; try done; [|naive_solver]. intros _. right. left. eauto.
  - split; [|rewrite list_elem_of_filter; naive_solver]. exists x. by rewrite (proj2 (Z.eqb_neq _ _) X0).
Qed.

Lemma handler_good i s : inv s -> allowed (L_handler i) s = true -> good (mcast_work_handler i s).
Proof.
  intros H Ha. cbn in Ha. destruct (s_pc s) as [| | |found| |id st errs|id free errs|id errs|id|id st|js| |] eqn:Ek.
  - done.
  - unfold mcast_work_handler, on_grp. rewrite running_live by (try done; congruence). rewrite Ek.
    destruct (decide (g_state (s_grp s) = MCAST_BUSY)) as [Es|Es].
    + destruct (g_pending (s_grp s)) as [|id pl] eqn:Ep; [by apply loop_end_good|by eapply loop_request_good].
    + unfold mcast_work_loop. rewrite (bool_decide_eq_true_2 (g_state _ <> _)), orb_true_r, decide_False by done.
      cbn [good]. rewrite <- (up_grp_id s) at 1. assert (busy (g_state (s_grp s)) = 1) as Hb by (apply running_busy; [done|congruence]).
      apply handler_group; try done; try congruence; [by rewrite Ek|apply H|].
      cbn. unfold on_error. revert Es Hb. destruct (g_state (s_grp s)); cbn; auto; done.
  - by apply pge_good.
  - unfold mcast_work_handler, on_grp. rewrite running_live by (try done; congruence). rewrite Ek.
    pose proof (iv_pc _ H) as P. rewrite Ek in P. destruct P as [P1 P2].
    assert (good (process_group_error s)) by (apply group_error_good; try done; [congruence|by rewrite Ek]).
    case_decide as Es; [|done]. destruct found as [r|]; [|by rewrite P2 in Es]. case_bool_decide; [|done].
    apply handler_group; try done; try congruence; [by rewrite Ek|apply H].
  - unfold mcast_work_handler, on_grp. rewrite running_live by (try done; congruence). rewrite Ek.
    pose proof (iv_pc _ H) as P. rewrite Ek in P. apply group_error_good; try done; [congruence|by rewrite Ek].
  - by eapply cb_good.
  - by eapply deref_good.
  - unfold mcast_work_handler, on_grp. rewrite running_live by (try done; congruence). rewrite Ek.
    pose proof (iv_pc _ H) as P. rewrite Ek in P. destruct P as [(x & f & E & Ex) _].
    pose proof (free_step_good id x true f s H E Ex ltac:(by eauto)) as X.
    destruct (free_step id s) as [[s' []]| |]; cbn; [|by destruct X|done..]. apply X. eauto.
  - by eapply send_good.
  - by eapply fail_good.
  - by eapply leave_good.
  - unfold mcast_work_handler, on_grp. rewrite running_live by (try done; congruence). by rewrite Ek.
  - unfold mcast_work_handler, on_grp. rewrite running_live by (try done; congruence). by rewrite Ek.
Qed.

(** ** Answers of the SA *)

Lemma to_loop s : inv s -> s_pc s = K_query_join \/ s_pc s = K_query_leave -> inv (up_pc K_loop s).
Proof.
  intros H Hk. rewrite <- (up_grp_id s). assert (s_pc s <> K_none) as Hn by (intros Y; rewrite Y in Hk; naive_solver).
  apply handler_group; try done; [by destruct Hk as [-> | ->]|apply H|by apply running_busy].
Qed.

Lemma join_error_good st s : inv s -> s_pc s = K_query_join -> st <> 0 -> good (process_join_error st s).
Proof.
  intros H Ek Hst. unfold process_join_error. destruct (g_pending (s_grp s)) as [|id pl] eqn:Ep; [apply to_loop; auto|].
  case_decide; [|apply to_loop; auto].
  assert (id ∈ g_pending (s_grp s)) as Hi by (rewrite Ep; set_solver).
  pose proof (iv_lists _ H) as L. destruct (lo_pending _ _ _ _ _ L _ Hi) as (x & E & X1 & X2 & X3).
  assert (id ∉ g_active (s_grp s)) as Ha by (intros ?; by eapply lists_disjoint).
  assert (m_pc x <> M_queue) as X4 by (intros Y; by rewrite Y in X3).
  unfold ref_member, on_mem. rewrite E. cbn.
  eapply (handler_member s _ id x); cbn; try done; auto; try congruence; try (rewrite Ek; by left).
  - apply running_busy; [done|congruence].
  - intros id' Hne Hp. by apply list_elem_of_filter.
  - rewrite (without_notin id (g_active _)) by done. apply lists_same with (x := x); try done; [by apply lists_del_pending|by left].
  - eapply taken_ok; try done; [by rewrite Ek|unfold log_ok; cbn; rewrite X1; by left|cbn; by rewrite bool_decide_eq_true_2|].
    right. left. eauto.
  - split; [|rewrite list_elem_of_filter; naive_solver]. eexists. rewrite lookup_insert_eq. by rewrite (proj2 (Z.eqb_neq _ _) Hst).
Qed.

Lemma reply_good i st rec s : inv s -> allowed (L_reply i st rec) s = true -> good (run_step (L_reply i st rec) s).
Proof.
  intros H Ha. cbn in Ha |- *. destruct (s_pc s) eqn:Ek; try done.
  - unfold join_handler, on_grp. rewrite running_live by (try done; congruence).
    destruct (Z.eqb_spec st 0) as [Est|Est]; cbn; [|by apply join_error_good].
    apply Z.eqb_eq in Ha as Hj. set (g := if bool_decide _ && _ then _ else _).
    assert (g_pending g = g_pending (s_grp s) /\ g_active g = g_active (s_grp s) /\ g_members g = g_members (s_grp s) /\
      g_refcount g = g_refcount (s_grp s) /\ g_state g = g_state (s_grp s) /\ g_retries g = g_retries (s_grp s))
      as (G1 & G2 & G3 & G4 & G5 & G6) by (by subst g; case_match).
    apply handler_group; try done; try congruence; [by rewrite Ek| |cbn; rewrite G5; apply running_busy; [done|congruence]].
    cbn. rewrite G1, G2, G3. pose proof (iv_lists _ H) as [L1 L2 L3 L4 L5]. constructor; try done.
    intros id x Hi E. pose proof (L5 id x Hi E) as Hb. apply Z.bits_inj'. intros n Hn. rewrite Z.bits_0.
    apply (f_equal (fun z => Z.testbit z n)) in Hb, Hj. rewrite Z.bits_0, Z.ldiff_spec in *.
    by destruct (Z.testbit (join_state (m_rec x)) n), (Z.testbit (join_state (g_rec (s_grp s))) n), (Z.testbit (join_state rec) n).
  - unfold leave_handler, on_grp. rewrite running_live by (try done; congruence).
    destruct (negb (st =? 0) && (0 <? g_retries (s_grp s)) && _) eqn:Eb; [|apply to_loop; auto].
    destruct H as [Ilists Ibusy Irefs Ilive Imem Itails Ipc Iidle]. by constructor.
Qed.

(** ** Every step *)

(** Every step but the last one of a [leave_handler] whose group is gone. *)
Lemma mc_step_good l s :
  inv s -> allowed l s = true -> (l = L_resent -> s_live s = true) -> good (run_step l s).
Proof.
  intros H Ha Hrs. destruct l as [id rec mask|id|id|id|st| |i|i st rec| |id|]; cbn in Ha.
  - apply andb_true_iff in Ha as [L E%bool_decide_eq_true]. by apply join_good.
  - destruct (s_mem s !! id) as [x|] eqn:E; [|done]. apply bool_decide_eq_true in Ha. by eapply queue_join_good.
  - unfold is_owned in Ha. cbn. unfold on_mem. destruct (s_mem s !! id) as [x|] eqn:E; [|done]. apply bool_decide_eq_true in Ha. by apply free_good.
  - destruct (s_mem s !! id) as [x|] eqn:E; [|done]. destruct (m_pc x) as [| |[] f] eqn:Ex; try done.
    pose proof (free_step_good id x false f s H E Ex ltac:(done)) as X. cbn.
    destruct (free_step id s) as [[s' []]| |] eqn:Ef; cbn; [|by destruct X|done..].
    destruct X as [Epc X]. specialize (X (s_pc s) eq_refl). rewrite <- Epc in X. by replace (up_pc (s_pc s') s') with s' in X by (by destruct s').
  - apply andb_true_iff in Ha as [L Hst]. apply mc_event_good; [done..|]. unfold on_error.
    apply orb_true_iff in Hst as [?%bool_decide_eq_true|?%bool_decide_eq_true]; auto.
  - by apply mc_dispatch_good.
  - by apply handler_good.
  - by apply reply_good.
  - by apply mc_release_good.
  - apply bool_decide_eq_true in Ha. by apply tail_good.
  - by apply resent_good, Hrs.
Qed.

Lemma mc_reachable_inv s : reachable s -> inv s.
Proof.
  induction 1 as [id rec mask|l s s' _ IH Ha Hs]; [apply init_inv|].
  assert (l = L_resent -> s_live s = true) as Hrs.
  { intros ->. cbn in Hs. unfold on_grp in Hs. by destruct (s_live s). }
  pose proof (mc_step_good l s IH Ha Hrs) as X. by rewrite Hs in X.
Qed.
