(* ===== verification/McastRuns.v ===== *)
(** * Runs of multicast groups

    What holds of a multicast group in every run of [Mcast], whatever the interleaving of
    clients, the work queue, the answers of the SA and events of the port; that the handler
    comes to an end; what the comparison of records accepts; and runs in which the code goes
    wrong. *)

From Stdlib Require Import ZArith Lia.
From stdpp Require Import base tactics numbers list option gmap.
From S2P Require Import Prelude Outcome Mcast McastInv.

Local Open Scope Z_scope.

(** ** Safety *)


(** References are exact. A group has one for every member until it is released, one
    for the queued work or the handler and one for a handler that has finished, and it is
    freed exactly when they are gone; a member has its own, one of the handler that works on
    it and one for each handler that has sent its request and not returned yet. *)
Theorem mcast_references_exact s :
  reachable s ->
  g_refcount (s_grp s) = msum attached (s_mem s) + b2z (s_wq s) + running (s_pc s) + Z.of_nat (s_rel s) /\
  (s_live s = true <-> 0 < g_refcount (s_grp s)) /\
  (forall id x, s_mem s !! id = Some x -> m_refcount x = own (m_pc x) + holds (s_pc s) id + occ id (s_tails s)) /\
  (s_live s = false -> s_pc s = K_none /\ s_wq s = false /\ g_pending (s_grp s) = [] /\ g_active (s_grp s) = []).
Proof.
  intros Hr. pose proof (mc_reachable_inv s Hr) as H. split; [apply H|]. split; [rewrite (iv_live _ H), Z.ltb_lt; done|].
  split; [intros id x E; apply (iv_mem _ H _ _ E)|]. intros El.
  assert (forall id x, s_mem s !! id = Some x -> listed (m_pc x) = true -> False) as Hno.
  { intros id x E Hl. rewrite (member_live s id x H E) in El; [done|]. unfold attached. by destruct (m_pc x) as [| |? []]. }
  pose proof (iv_lists _ H) as L. split_and!.
  - destruct (decide (s_pc s = K_none)) as [|Hk]; [done|]. by rewrite (running_live s H Hk) in El.
  - destruct (s_wq s) eqn:Ew; [|done]. exfalso. assert (s_live s = true); [|congruence]. apply (inv_live _ H). rewrite Ew.
    pose proof (msum_nonneg attached (s_mem s) attached_nonneg). unfold running. destruct (s_pc s); cbn; lia.
  - destruct (g_pending (s_grp s)) as [|id pl] eqn:Ep; [done|]. rewrite ?Ep in L.
    destruct (lo_pending _ _ _ _ _ L id ltac:(set_solver)) as (x & E & _ & _ & Hl). by destruct (Hno id x).
  - destruct (g_active (s_grp s)) as [|id al] eqn:Ep; [done|]. rewrite ?Ep in L.
    destruct (proj1 (lo_active _ _ _ _ _ L id) ltac:(set_solver)) as (x & E & _ & Hl). by destruct (Hno id x).
Qed.

(** ** Membership *)

Lemma ldiff_subset a b i : 0 <= i -> Z.ldiff a b = 0 -> Z.testbit a i = true -> Z.testbit b i = true.
Proof.
  intros Hi H Ha. apply (f_equal (fun z => Z.testbit z i)) in H. rewrite Z.ldiff_spec, Z.bits_0, Ha in H. cbn in H.
  by apply negb_false_iff in H.
Qed.

(** C7. The four counters count the members of their kind; the port has joined, at the SA,
    every kind a member has; and it never leaves a kind that a member has, neither when the
    request to leave is sent nor while its answer is awaited. When nobody works on the group,
    the port has joined exactly the kinds its members have. *)
Theorem mcast_membership s :
  reachable s ->
  let g := s_grp s in
  g_members g = counters (count_bit (s_mem s) (g_active g)) /\
  (forall id x i, id ∈ g_active g -> s_mem s !! id = Some x -> 0 <= i -> Z.testbit (join_state (m_rec x)) i = true ->
    Z.testbit (join_state (g_rec g)) i = true /\
    (forall js, s_pc s = K_leave js -> Z.testbit js i = false) /\ (s_pc s = K_query_leave -> Z.testbit (g_leave_state g) i = false)) /\
  (g_state g = MCAST_IDLE -> forall i, 0 <= i < 4 ->
    Z.testbit (join_state (g_rec g)) i = true <->
    exists id x, id ∈ g_active g /\ s_mem s !! id = Some x /\ Z.testbit (join_state (m_rec x)) i = true).
Proof.
  intros Hr. cbn zeta. pose proof (mc_reachable_inv s Hr) as H. pose proof (iv_lists _ H) as [L1 L2 L3 L4 L5]. split; [done|].
  assert (forall id x i, id ∈ g_active (s_grp s) -> s_mem s !! id = Some x -> 0 <= i -> Z.testbit (join_state (m_rec x)) i = true ->
    Z.testbit (join_state (g_rec (s_grp s))) i = true) as Hsub by (intros; by eapply ldiff_subset; [|by eapply L5|]).
  assert (forall a b i, Z.land a b = 0 -> Z.testbit a i = true -> Z.testbit b i = false) as Hland.
  { intros a b i Hz Ha. apply (f_equal (fun z => Z.testbit z i)) in Hz. rewrite Z.land_spec, Z.bits_0, Ha in Hz. done. }
  split.
  - intros id x i Ha E Hi Hb. pose proof (Hsub _ _ _ Ha E Hi Hb) as Hg. pose proof (iv_pc _ H) as P. split_and!; [done| |].
    + intros js Ek. rewrite Ek in P. by eapply Hland.
    + intros Ek. rewrite Ek in P. by eapply Hland.
  - intros Ei i Hi. destruct (iv_idle _ H Ei) as [_ Hl]. split.
    + intros Hb. apply count_bit_pos. intros Hz. pose proof (leave_state_spec _ _ i L4 ltac:(lia)) as X.
      rewrite Hl, Z.bits_0, Hz, Hb, bool_decide_eq_true_2 in X by lia. done.
    + intros (id & x & Ha & E & Hb). eapply Hsub; [done..|lia|done].
Qed.

(** ** What clients see *)

(** What the callback of a member was called with, at any time of any run: nothing yet, one
    error, success, or success and then the loss of the membership; and when nobody works on
    the group, every request a client holds was answered. *)
Theorem mcast_callbacks s id x :
  reachable s -> s_mem s !! id = Some x ->
  (m_log x = [] \/ (exists st, st <> 0 /\ m_log x = [st]) \/ m_log x = [0] \/ m_log x = [0; err ENETRESET]) /\
  (g_state (s_grp s) = MCAST_IDLE -> m_pc x = M_owned -> m_log x <> []).
Proof.
  intros Hr E. pose proof (mc_reachable_inv s Hr) as H. destruct (iv_mem _ H _ _ E) as (_ & M2 & M3). split.
  - unfold log_ok in M2. destruct (m_state x); naive_solver.
  - intros Ei Eo El. rewrite Eo in M3. destruct (idle_quiet s (iv_busy _ H) Ei) as (_ & Ek & _).
    destruct (iv_idle _ H Ei) as [Ep _]. destruct (M3 El) as [Hin|[[? X]|[? X]]]; [|congruence..].
    rewrite Ep in Hin. by apply elem_of_nil in Hin.
Qed.

(** A request that waits is not forgotten: while one is on the list, a handler runs (or
    waits for the SA), or its work is queued, or a thread that frees a member is about to
    queue it; never two of them. *)
Theorem mcast_one_handler s :
  reachable s ->
  b2z (s_wq s) + running (s_pc s) + msum queueing (s_mem s) <= 1 /\
  (g_pending (s_grp s) <> [] \/ get_leave_state (s_grp s) <> 0 \/ g_state (s_grp s) <> MCAST_IDLE ->
   b2z (s_wq s) + running (s_pc s) + msum queueing (s_mem s) = 1).
Proof.
  intros Hr. pose proof (mc_reachable_inv s Hr) as H. pose proof (iv_busy _ H) as Hb. split.
  - rewrite Hb. by destruct (g_state (s_grp s)).
  - intros Hn. rewrite Hb. destruct (g_state (s_grp s)) eqn:Es; try done. destruct (iv_idle _ H Es) as [? ?]. naive_solver.
Qed.

(** ** Events *)

(** Steps of a section, down to its result. *)
Ltac steps :=
  repeat first
    [ progress cbn in *
    | match goal with
      | H : Bug = Ok _ |- _ => discriminate H
      | H : Block = Ok _ |- _ => discriminate H
      | H : Ok _ = Ok _ |- _ => injection H as H
      | H : (_, _) = (_, _) |- _ => injection H as ? ?
      | H : _ ≫= _ = Ok _ |- _ => apply bind_Ok in H as (? & ? & H)
      | H : on_grp _ _ = Ok _ |- _ => unfold on_grp in H
      | H : on_mem _ _ _ = Ok _ |- _ => unfold on_mem in H
      | H : context [match ?x with _ => _ end] |- _ =>
          match type of H with _ = Ok _ => let E := fresh "E" in destruct x eqn:E end
      | H : let '(_, _) := ?x in _ = Ok _ |- _ => destruct x
      end
    | progress subst ].

Lemma queue_work_eq s s' : queue_work s = Ok s' -> s' = up_wq true s.
Proof. unfold queue_work. by case_match; intros [= <-]. Qed.

Lemma release_group_state s s' : release_group s = Ok s' ->
  g_state (s_grp s') = g_state (s_grp s) /\ g_active (s_grp s') = g_active (s_grp s) /\ s_mem s' = s_mem s.
Proof. unfold release_group. intros H. steps; by repeat case_match. Qed.

Lemma deref_member_state id s s' : deref_member id s = Ok s' -> s_grp s' = s_grp s /\ s_pc s' = s_pc s.
Proof. unfold deref_member. intros H. steps; done. Qed.

Lemma ref_member_state id s s' : ref_member id s = Ok s' -> s_grp s' = s_grp s.
Proof. unfold ref_member. intros H. steps; done. Qed.

Lemma free_step_state id s s' b : free_step id s = Ok (s', b) -> g_state (s_grp s) = MCAST_GROUP_ERROR -> g_state (s_grp s') = MCAST_GROUP_ERROR.
Proof.
  unfold free_step. intros H Hg. unfold on_mem in H. destruct (s_mem s !! id) as [x|]; [|done]. destruct (m_pc x) as [| |h f]; try done.
  apply bind_Ok in H as ([s1 r] & H1 & H2).
  assert (g_state (s_grp s1) = MCAST_GROUP_ERROR) as Hs1.
  { destruct f; cbn in H1.
    - steps; destruct (decide (m_state _ = MCAST_MEMBER)); cbn in *; congruence.
    - apply bind_Ok in H1 as (s2 & ->%queue_work_eq & [= <- <-]). done.
    - apply bind_Ok in H1 as (s2 & (Hs & _)%release_group_state & [= <- <-]). congruence.
    - apply bind_Ok in H1 as (s2 & [Hs _]%deref_member_state & [= <- <-]). congruence.
    - by steps. }
  destruct r; steps; done.
Qed.

(** The state of an event is left only when no member is left. *)
Lemma error_kept l s s' :
  run_step l s = Ok s' -> g_state (s_grp s) = MCAST_GROUP_ERROR ->
  g_state (s_grp s') = MCAST_GROUP_ERROR \/ g_active (s_grp s') = [] /\ join_state (g_rec (s_grp s')) = 0 /\ s_pc s' = K_loop.
Proof.
  intros H Hg.
  assert (forall s', process_group_error s = Ok s' -> g_state (s_grp s') = MCAST_GROUP_ERROR \/
    g_active (s_grp s') = [] /\ join_state (g_rec (s_grp s')) = 0 /\ s_pc s' = K_loop) as Hp.
  { clear H s'. intros s' H. unfold process_group_error in H. destruct (g_active (s_grp s)) as [|id al] eqn:Ea; steps; [by right|by left]. }
  destruct l as [id rec mask|id|id|id|st| |i|i st rec| |id|]; cbn in H.
  - left. unfold ib_sa_join_multicast in H. by steps.
  - left. unfold queue_join in H. steps; congruence.
  - left. by steps.
  - left. apply bind_Ok in H as ([s1 b] & H & [= <-]). by eapply free_step_state.
  - left. unfold mcast_groups_event, on_grp in H. destruct (s_live s); [|done]. rewrite decide_False in H by (by rewrite Hg).
    cbn in H. rewrite decide_True in H by done. by injection H as <-.
  - left. by steps.
  - unfold mcast_work_handler in H. unfold on_grp in H. destruct (s_live s); [|done].
    destruct (s_pc s) as [| | |found| |id st errs|id free errs|id errs|id|id st|js| |] eqn:Ek; try done.
    + left. unfold mcast_work_loop in H. rewrite Hg in H. rewrite orb_true_r in H. by steps.
    + left. by steps.
    + rewrite decide_False in H by (by rewrite Hg). auto.
    + auto.
    + left. by steps.
    + left. apply bind_Ok in H as (s1 & H & [= <-]). apply deref_member_state in H as [H _]. cbn. by rewrite H.
    + left. apply bind_Ok in H as ([s1 b] & H & [= <-]). apply free_step_state in H; [|done]. by destruct b.
    + left. steps. by case_match.
    + left. by steps.
    + left. by steps.
  - left. destruct (s_pc s); try done.
    + unfold join_handler, process_join_error in H. steps; by repeat case_match.
    + unfold leave_handler in H. by steps.
  - left. destruct (s_rel s); [done|]. apply release_group_state in H as (-> & _). done.
  - left. apply bind_Ok in H as (s1 & H & [= <-]). apply deref_member_state in H as [H _]. cbn. by rewrite H.
  - left. by steps.
Qed.

(** After an event of the port (an error, a new LID, a request to register again) the group
    does not return to its work before every member was told: when a step ends the state of
    the event, no client holds a membership whose last callback was a success, and the port
    counts as having joined nothing. *)
Theorem mcast_error_resets l s s' :
  reachable s -> allowed l s = true -> run_step l s = Ok s' ->
  g_state (s_grp s) = MCAST_GROUP_ERROR -> g_state (s_grp s') <> MCAST_GROUP_ERROR ->
  join_state (g_rec (s_grp s')) = 0 /\ g_members (s_grp s') = [0; 0; 0; 0] /\
  forall id x, s_mem s' !! id = Some x -> m_pc x = M_owned ->
    m_log x = [] \/ (exists st, st <> 0 /\ m_log x = [st]) \/ m_log x = [0; err ENETRESET].
Proof.
  intros Hr Ha Hs Hg Hg'. destruct (error_kept l s s' Hs Hg) as [?|(Ea & Ej & Ek)]; [done|].
  pose proof (mc_reachable_inv s' ltac:(by eapply reach_step)) as H. split; [done|]. split.
  - rewrite (lo_members _ _ _ _ _ (iv_lists _ H)), Ea. done.
  - intros id x E Eo. destruct (iv_mem _ H _ _ E) as (_ & M2 & _). unfold log_ok in M2. rewrite Ek in M2.
    destruct (m_state x) eqn:Es; [naive_solver| |naive_solver]. exfalso.
    assert (id ∈ g_active (s_grp s')) as Hi by (apply (lo_active _ _ _ _ _ (iv_lists _ H)); exists x; by rewrite Eo).
    rewrite Ea in Hi. by apply elem_of_nil in Hi.
Qed.

(** ** The handler comes to an end *)

(** How much is left for the handler: the requests (without the one it has taken), the
    members an event resets, a kind of membership to leave, an event to look at, and the
    sections of the round it is in. *)
Definition ended (pc : handler_pc) : bool := match pc with K_none | K_query_join | K_query_leave => true | _ => false end.
Definition in_error (pc : handler_pc) : bool :=
  match pc with K_pge | K_error _ | K_errs => true | K_cb _ _ e | K_deref _ _ e | K_free _ e => e | _ => false end.
Definition requests_left (pc : handler_pc) (pl : list positive) : nat :=
  match pc with K_send id | K_fail id _ => length (without id pl) | _ => length pl end.
Definition free_rank (f : free_pc) : nat := match f with F_lock => 5 | F_queue | F_release => 3 | F_deref => 2 | F_wait => 1 end.
Definition round_left (s : sys) : nat :=
  match s_pc s with
  | K_none | K_query_join | K_query_leave => 0
  | K_loop => 1 | K_leave _ => 2 | K_errs => 10 | K_error _ => 11 | K_pge => 12
  | K_free id _ => 10 + match s_mem s !! id with Some x => match m_pc x with M_freeing _ f => free_rank f | _ => 0 end | None => 0 end
  | K_deref _ _ _ => 16 | K_cb _ _ _ => 17 | K_fail _ _ => 18 | K_send _ => 19
  end.
Definition leave_left (g : mcast_group) : nat := if get_leave_state g =? 0 then 0 else 4.
Definition event_left (pc : handler_pc) (g : mcast_group) : nat :=
  if in_error pc then 0 else match g_state g with MCAST_BUSY => 0 | _ => 16 end.
#[local] Arguments Nat.mul : simpl never.
Definition left_to_do (s : sys) : nat :=
  if ended (s_pc s) then 0 else
  60 * requests_left (s_pc s) (g_pending (s_grp s)) + 30 * length (g_active (s_grp s)) + leave_left (s_grp s) +
  event_left (s_pc s) (s_grp s) + round_left s.

Lemma length_without (id : positive) (l : list positive) : (length (without id l) <= length l)%nat.
Proof. apply length_filter. Qed.

Lemma length_without_in (id : positive) (l : list positive) : id ∈ l -> (length (without id l) < length l)%nat.
Proof.
  induction l as [|x l IH]; intros H; [by apply elem_of_nil in H|]. rewrite filter_cons. case_decide; cbn.
  - apply elem_of_cons in H as [->|H]; [done|]. specialize (IH H). lia.
  - pose proof (length_without id l). lia.
Qed.

Lemma leave_left_bound g : (leave_left g <= 4)%nat.
Proof. unfold leave_left. case_match; lia. Qed.

Lemma leave_left_done g :
  leave_left (put_rec (with_join_state (Z.ldiff (join_state (g_rec g)) (get_leave_state g)) (g_rec g)) g) = 0%nat.
Proof.
  unfold leave_left, get_leave_state. cbn.
  assert (Z.land (unused_types (g_members g) 0 0) (Z.ldiff (join_state (g_rec g)) (Z.land (unused_types (g_members g) 0 0) (join_state (g_rec g)))) = 0) as ->; [|done].
  apply Z.bits_inj'. intros n Hn. rewrite Z.land_spec, Z.ldiff_spec, Z.land_spec, Z.bits_0. by destruct (Z.testbit _ n), (Z.testbit (join_state _) n).
Qed.

Section decrease.
Context (s : sys) (H : inv s).

Lemma error_decreases s' : in_error (s_pc s) = true -> ended (s_pc s) = false -> (10 <= round_left s)%nat ->
  requests_left (s_pc s) (g_pending (s_grp s)) = length (g_pending (s_grp s)) ->
  process_group_error s = Ok s' -> (left_to_do s' < left_to_do s)%nat.
Proof using H.
  intros He Hn Hw Hq Hs. unfold process_group_error in Hs. unfold left_to_do at 2. rewrite Hn, Hq. unfold event_left. rewrite He.
  destruct (g_active (s_grp s)) as [|id al] eqn:Ea; steps.
  - unfold left_to_do. cbn. rewrite Ea. unfold event_left. cbn. pose proof (leave_left_bound (put_state MCAST_BUSY
      (put_rec (with_join_state 0 (g_rec (s_grp s))) (s_grp s)))). lia.
  - unfold ref_member in *. steps. unfold left_to_do. cbn. unfold event_left. cbn.
    match goal with |- context [leave_left ?g] => pose proof (leave_left_bound g) end.
    pose proof (length_without id (g_pending (s_grp s))). pose proof (length_without_in id (g_active (s_grp s)) ltac:(rewrite Ea; set_solver)).
    rewrite Ea in *. cbn in *. lia.
Qed.

Lemma loop_decreases s' : s_pc s = K_loop -> mcast_work_loop s = Ok s' -> (left_to_do s' < left_to_do s)%nat.
Proof using H.
  intros Ek Hs. unfold mcast_work_loop in Hs. unfold left_to_do at 2. rewrite Ek. cbn. unfold event_left, round_left. cbn. rewrite Ek.
  destruct (decide (g_state (s_grp s) = MCAST_BUSY)) as [Es|Es].
  - rewrite Es.
    destruct (g_pending (s_grp s)) as [|id pl] eqn:Ep.
    + rewrite (bool_decide_eq_false_2 (g_state _ <> _)) in Hs by naive_solver. cbn in Hs.
      destruct (Z.eqb_spec (get_leave_state (s_grp s)) 0) as [El|El]; cbn in Hs; injection Hs as <-.
      * unfold left_to_do. cbn. lia.
      * unfold left_to_do. cbn -[leave_left]. rewrite leave_left_done. unfold event_left. cbn. rewrite Ep, Es. cbn.
        unfold leave_left. rewrite (proj2 (Z.eqb_neq _ _) El). lia.
    + cbn in Hs. apply bind_Ok in Hs as (s1 & H1 & Hs). unfold ref_member, on_mem in H1. destruct (s_mem s !! id) as [x|] eqn:E; [|done].
      injection H1 as <-. unfold on_mem in Hs. cbn in Hs. rewrite lookup_insert_eq in Hs.
      assert (length (without id (g_pending (s_grp s))) <= length pl)%nat as Hpl.
      { rewrite Ep. rewrite filter_cons_False by naive_solver. apply length_without. }
      cbn in Hs. case_match.
      * injection Hs as <-. match goal with |- (left_to_do ?z < _)%nat => pose proof (leave_left_bound (s_grp z)) as Hl end.
        unfold left_to_do. cbn in *. unfold event_left. cbn. pose proof (length_without id (g_active (s_grp s))).
        case_match; cbn in *; rewrite Es; cbn; lia.
      * injection Hs as <-. unfold left_to_do. cbn. unfold event_left. cbn. rewrite Es. cbn. unfold leave_left in *. case_match; lia.
  - rewrite (bool_decide_eq_true_2 (g_state _ <> _)), orb_true_r in Hs by done. injection Hs as <-.
    unfold left_to_do, event_left, round_left. cbn. destruct (g_state (s_grp s)); try done; lia.
Qed.

(** Freeing a member given up by its callback. *)
Lemma freeing_decreases id errs s' b : s_pc s = K_free id errs -> free_step id s = Ok (s', b) ->
  (left_to_do (if b : bool then up_pc (back errs) s' else s') < left_to_do s)%nat.
Proof using H.
  intros Ek Hs. pose proof (iv_pc _ H) as P. rewrite Ek in P. destruct P as [(x & f & E & Ex) _].
  pose proof (running_busy s H ltac:(congruence)) as Hb.
  unfold left_to_do at 2. rewrite Ek. unfold round_left, event_left. rewrite Ek, E, Ex. cbn.
  unfold free_step, on_mem in Hs. rewrite E, Ex in Hs. destruct f; cbn in Hs.
  - unfold on_grp, on_mem in Hs. rewrite (running_live s H) in Hs by congruence. rewrite E in Hs.
    assert (forall g, (if decide (m_state x = MCAST_MEMBER) then adjust_membership (join_state (m_rec x)) (-1) (s_grp s) else s_grp s) = g ->
      g_state g = g_state (s_grp s) /\ (30 * length (without id (g_active g)) + leave_left (list_del_init id g) <= 30 * length (g_active (s_grp s)) + leave_left (s_grp s))%nat /\
      (length (without id (g_pending g)) <= length (g_pending (s_grp s)))%nat) as Hg.
    { intros g <-. pose proof (length_without id (g_pending (s_grp s))). pose proof (length_without id (g_active (s_grp s))).
      destruct (decide (m_state x = MCAST_MEMBER)) as [Em|Em]; cbn; split_and!; try done.
      - pose proof (length_without_in id (g_active (s_grp s))) as Hl.
        assert (id ∈ g_active (s_grp s)) as Hi by (apply (lo_active _ _ _ _ _ (iv_lists _ H)); exists x; by rewrite Ex).
        specialize (Hl Hi). match goal with |- context [leave_left ?g] => pose proof (leave_left_bound g) end. lia.
      - change (leave_left (list_del_init id (s_grp s))) with (leave_left (s_grp s)). lia. }
    destruct (Hg _ eq_refl) as (G1 & G2 & G3). set (g := if decide (m_state x = MCAST_MEMBER) then _ else _) in *.
    rewrite decide_False in Hs by (cbn; rewrite G1; intros Y; by rewrite Y in Hb). cbn in Hs. rewrite E in Hs. injection Hs as <- <-.
    unfold left_to_do, round_left, event_left. cbn. rewrite Ek. cbn. rewrite lookup_insert_eq. cbn. rewrite G1. lia.
  - apply bind_Ok in Hs as ([s1 r] & Hs & Hd). apply bind_Ok in Hs as (s2 & ->%queue_work_eq & [= <- <-]). cbn in Hd.
    rewrite E in Hd. injection Hd as <- <-. unfold left_to_do, round_left, event_left. cbn. rewrite Ek. cbn. rewrite lookup_insert_eq. cbn. lia.
  - pose proof (running_live s H ltac:(congruence)) as Hl. rewrite release_group_eq in Hs by done. cbn in Hs.
    rewrite E in Hs. injection Hs as <- <-. unfold left_to_do, round_left, event_left. cbn. rewrite Ek. cbn. rewrite lookup_insert_eq. cbn.
    change (leave_left (put_refcount _ _)) with (leave_left (s_grp s)). lia.
  - apply bind_Ok in Hs as ([s1 r] & Hs & Hd). apply bind_Ok in Hs as (s2 & Hs & [= <- <-]). unfold deref_member, on_mem in Hs.
    rewrite E in Hs. destruct (m_refcount x <=? 0); [done|]. injection Hs as <-. cbn in Hd. rewrite lookup_insert_eq in Hd. injection Hd as <- <-.
    unfold left_to_do, round_left, event_left. cbn. rewrite Ek. cbn. rewrite lookup_insert_eq. cbn. lia.
  - unfold on_mem in Hs. rewrite E in Hs. destruct (m_refcount x =? 0); [|done]. cbn in Hs. injection Hs as <- <-.
    unfold left_to_do, round_left, event_left. cbn. destruct errs; cbn; lia.
Qed.

Lemma handler_decreases i s' : mcast_work_handler i s = Ok s' -> (left_to_do s' < left_to_do s)%nat.
Proof using H.
  intros Hs. unfold mcast_work_handler, on_grp in Hs. destruct (s_live s); [|done].
  destruct (s_pc s) as [| | |found| |id st errs|id free errs|id errs|id|id st|js| |] eqn:Ek; try done.
  - by apply loop_decreases.
  - injection Hs as <-. unfold left_to_do, round_left, event_left. cbn. rewrite Ek. cbn. lia.
  - assert (forall s', process_group_error s = Ok s' -> (left_to_do s' < left_to_do s)%nat) as Hp.
    { intros. apply error_decreases; try done; rewrite ?Ek; try done. unfold round_left. rewrite Ek. lia. }
    destruct (decide (g_state (s_grp s) = MCAST_PKEY_EVENT)); [|by apply Hp]. destruct found as [r|]; [|done].
    destruct (bool_decide _); [|by apply Hp]. injection Hs as <-.
    unfold left_to_do, round_left, event_left. cbn. rewrite Ek. cbn.
    change (leave_left (put_state _ _)) with (leave_left (s_grp s)). lia.
  - apply error_decreases; try done; rewrite ?Ek; try done. unfold round_left. rewrite Ek. lia.
  - unfold on_mem in Hs. destruct (s_mem s !! id) as [x|] eqn:E; [|done]. injection Hs as <-.
    unfold left_to_do, round_left, event_left. cbn. rewrite Ek. cbn. lia.
  - apply bind_Ok in Hs as (s1 & Hs & [= <-]). unfold deref_member, on_mem in Hs. destruct (s_mem s !! id) as [x|] eqn:E; [|done].
    destruct (m_refcount x <=? 0); [done|]. injection Hs as <-. unfold left_to_do, round_left, event_left. rewrite Ek. cbn.
    destruct free; cbn; [|destruct errs; cbn; lia]. rewrite lookup_insert_eq. cbn.
    pose proof (iv_pc _ H) as P. rewrite Ek in P. destruct P as [(y & Ey & _ & Hy) _]. assert (y = x) as -> by congruence.
    rewrite Hy by done. cbn. lia.
  - apply bind_Ok in Hs as ([s1 b] & Hs & [= <-]). by eapply freeing_decreases.
  - injection Hs as <-. unfold left_to_do, round_left, event_left. rewrite Ek. cbn.
    destruct (query_result (i_ret i) =? 0); cbn; [lia|].
    change (leave_left (put_last_join _ _)) with (leave_left (s_grp s)). lia.
  - injection Hs as <-. unfold left_to_do, round_left, event_left. rewrite Ek. cbn. pose proof (length_without id (g_active (s_grp s))).
    change (leave_left (list_del_init _ _)) with (leave_left (s_grp s)). lia.
  - injection Hs as <-. unfold left_to_do, round_left, event_left. rewrite Ek. cbn.
    destruct (query_result (i_ret i) =? 0); cbn; [lia|].
    change (leave_left (put_leave _ _ _)) with (leave_left (s_grp s)). lia.
Qed.
End decrease.

(** A run of the handler alone. *)
Inductive handles : nat -> sys -> sys -> Prop :=
| handles_nil s : handles 0 s s
| handles_cons n i s s1 s' : allowed (L_handler i) s = true -> run_step (L_handler i) s = Ok s1 -> handles n s1 s' -> handles (S n) s s'.

Lemma occ_pos id l : occ id l <> 0 -> id ∈ l.
Proof. induction l as [|x l IH]; cbn; [done|]. case_bool_decide as E; [subst; set_solver|]. cbn. intros ?. apply elem_of_cons. auto. Qed.

(** The handler can go on, ends, waits for the SA, or waits for another thread that still has
    a reference on the member it frees. *)
Lemma handler_progress s : inv s ->
  ended (s_pc s) = true \/
  (exists i s', allowed (L_handler i) s = true /\ run_step (L_handler i) s = Ok s') \/
  exists id errs, s_pc s = K_free id errs /\ id ∈ s_tails s.
Proof.
  intros H. destruct (ended (s_pc s)) eqn:En; [by left|]. right.
  set (i := {| i_ret := 0; i_pkey := None |}).
  assert (allowed (L_handler i) s = true) as Ha by (cbn; by destruct (s_pc s)).
  pose proof (mc_step_good _ _ H Ha ltac:(done)) as Hg. destruct (run_step (L_handler i) s) as [s'| |] eqn:E; [left; eauto|done|]. right. clear Hg.
  cbn in E. unfold mcast_work_handler, on_grp in E. rewrite (running_live s H) in E by (intros Y; by rewrite Y in En).
  pose proof (iv_pc _ H) as P.
  assert (forall s, process_group_error s <> Block) as Hp.
  { clear. intros s. unfold process_group_error, ref_member, on_mem. repeat case_match; try done. cbn. by repeat case_match. }
  destruct (s_pc s) as [| | |found| |id st errs|id free errs|id errs|id|id st|js| |] eqn:Ek; try done.
  - exfalso. revert E. unfold mcast_work_loop, ref_member, on_mem. repeat case_match; try done; cbn; by repeat case_match.
  - repeat case_match; try done; by destruct (Hp s).
  - by destruct (Hp s).
  - exfalso. revert E. unfold on_mem. by repeat case_match.
  - exfalso. revert E. unfold deref_member, on_mem. by repeat case_match.
  - exists id, errs. split; [done|]. destruct P as [(x & f & Ex & Ef) _]. destruct (iv_mem _ H _ _ Ex) as (M1 & _).
    rewrite Ef, Ek in M1. apply occ_pos. intros Ho. rewrite Ho in M1. revert E.
    unfold free_step, on_mem. rewrite Ex, Ef. destruct f; cbn.
    + unfold on_grp, on_mem. rewrite Ex. repeat case_match; cbn; rewrite ?Ex; done.
    + unfold queue_work. case_match; cbn; rewrite ?Ex; done.
    + unfold release_group, on_grp. repeat case_match; cbn; rewrite ?Ex; done.
    + unfold deref_member, on_mem. rewrite Ex. case_match; cbn; rewrite ?lookup_insert_eq; done.
    + unfold on_mem. rewrite Ex. cbn in M1. rewrite (proj2 (Z.eqb_eq _ _)) by lia. done.
Qed.

(** C31. The handler comes to an end: in every reachable state a run of it has at most a
    computed number of sections, and it stops only when it is done, has sent a request to the
    SA, or waits for a thread that has sent the request of a member being freed and is about
    to give up its reference. *)
Theorem mcast_handler_ends n s s' :
  reachable s -> handles n s s' ->
  (n <= left_to_do s)%nat /\
  (ended (s_pc s') = true \/ (exists i s'', allowed (L_handler i) s' = true /\ run_step (L_handler i) s' = Ok s'') \/
   exists id errs, s_pc s' = K_free id errs /\ id ∈ s_tails s').
Proof.
  intros Hr Hn. induction Hn as [s|n i s s1 s' Ha Hs _ IH].
  - split; [lia|]. by apply handler_progress, mc_reachable_inv.
  - destruct IH as [IH1 IH2]; [by eapply reach_step|]. split; [|done].
    pose proof (handler_decreases s (mc_reachable_inv s Hr) i s1 Hs). lia.
Qed.

(** ** Records *)

(** The components a request can fix: those that must be equal, and those compared as their
    selector says. *)
Definition equal_components : list (Z * (ib_sa_mcmember_rec -> Z)) :=
  [(1, port_gid); (2, qkey); (3, mlid); (6, traffic_class); (7, pkey); (12, sl); (13, flow_label); (14, hop_limit); (15, scope)].
Definition ranged_components : list (Z * (ib_sa_mcmember_rec -> Z) * (ib_sa_mcmember_rec -> Z)) :=
  [(4, mtu_selector, mtu); (8, rate_selector, rate); (10, packet_life_time_selector, packet_life_time)].

Definition accepts (mask : Z) (src dst : ib_sa_mcmember_rec) : Prop :=
  (forall i f, In (i, f) equal_components -> Z.testbit mask i = true -> f src = f dst) /\
  (forall i sel f, In (i, sel, f) ranged_components -> Z.testbit mask i = true -> Z.testbit mask (i + 1) = true ->
    (sel dst = IB_SA_GT -> f src > f dst) /\ (sel dst = IB_SA_LT -> f src < f dst) /\ (sel dst = IB_SA_EQ -> f src = f dst)).

Lemma has_flag_mask mask i : 0 <= i -> has_flag mask (IB_SA_COMP_MASK i) = Z.testbit mask i.
Proof.
  intros Hi. unfold has_flag, truthy, IB_SA_COMP_MASK. rewrite Z.shiftl_1_l. destruct (Z.testbit mask i) eqn:E.
  - apply negb_true_iff, Z.eqb_neq. intros Hz. apply (f_equal (fun z => Z.testbit z i)) in Hz.
    rewrite Z.land_spec, Z.bits_0, E, Z.pow2_bits_true in Hz by lia. done.
  - apply negb_false_iff, Z.eqb_eq. apply Z.bits_inj'. intros n Hn. rewrite Z.land_spec, Z.bits_0, Z.pow2_bits_eqb by lia.
    destruct (Z.eqb_spec i n) as [->|]; [by rewrite E|by rewrite andb_false_r].
Qed.

Lemma check_selector_spec mask i sel a b : 0 <= i ->
  check_selector mask (IB_SA_COMP_MASK i) (IB_SA_COMP_MASK (i + 1)) sel a b = false <->
  (Z.testbit mask i = true -> Z.testbit mask (i + 1) = true ->
    (sel = IB_SA_GT -> a > b) /\ (sel = IB_SA_LT -> a < b) /\ (sel = IB_SA_EQ -> a = b)).
Proof.
  intros Hi. unfold check_selector. rewrite !has_flag_mask by lia. unfold IB_SA_GT, IB_SA_LT, IB_SA_EQ.
  destruct (Z.testbit mask i), (Z.testbit mask (i + 1)); cbn; try (by split; intros; congruence).
  destruct (Z.eqb_spec sel 0) as [->|]; [destruct (Z.leb_spec a b); split; intros; try done; lia|].
  destruct (Z.eqb_spec sel 1) as [->|]; [destruct (Z.leb_spec b a); split; intros; try done; lia|].
  destruct (Z.eqb_spec sel 2) as [->|]; [destruct (Z.eqb_spec a b); split; intros; try done; lia|].
  split; intros; [lia|done].
Qed.

Lemma check_equal_spec mask i a b : 0 <= i ->
  has_flag mask (IB_SA_COMP_MASK i) && negb (a =? b) = false <-> (Z.testbit mask i = true -> a = b).
Proof.
  intros Hi. rewrite has_flag_mask by done. destruct (Z.testbit mask i), (Z.eqb_spec a b); cbn; split; intros; try done; auto; by exfalso; auto.
Qed.

Lemma check_chain (b : bool) (k : Z) : (if b then err EINVAL else k) = 0 <-> b = false /\ k = 0.
Proof. destruct b; unfold err, EINVAL; split; intros; try done; by destruct_and?. Qed.

(** C35. The comparison of the record of a group with that of a request gives 0 exactly when the
    group has every component the request fixes: the same value, or one above, below or
    equal to the value asked for, as its selector says; otherwise the request fails with
    -EINVAL. *)
Theorem cmp_rec_equiv src dst mask :
  (cmp_rec src dst mask = 0 <-> accepts mask src dst) /\ (cmp_rec src dst mask = 0 \/ cmp_rec src dst mask = err EINVAL).
Proof.
  split; [|unfold cmp_rec; repeat case_match; auto].
  unfold cmp_rec. rewrite !check_chain.
  unfold IB_SA_MCMEMBER_REC_PORT_GID, IB_SA_MCMEMBER_REC_QKEY, IB_SA_MCMEMBER_REC_MLID, IB_SA_MCMEMBER_REC_TRAFFIC_CLASS,
    IB_SA_MCMEMBER_REC_PKEY, IB_SA_MCMEMBER_REC_SL, IB_SA_MCMEMBER_REC_FLOW_LABEL, IB_SA_MCMEMBER_REC_HOP_LIMIT, IB_SA_MCMEMBER_REC_SCOPE.
  rewrite !check_equal_spec by lia.
  rewrite (check_selector_spec mask 4), (check_selector_spec mask 8), (check_selector_spec mask 10) by lia.
  unfold accepts. split.
  - intros Hc. destruct_and! Hc. split.
    + intros i f Hin. cbn in Hin. repeat (destruct Hin as [[= <- <-]|Hin]; [done|]). done.
    + intros i sel f Hin. cbn in Hin. repeat (destruct Hin as [[= <- <- <-]|Hin]; [done|]). done.
  - intros [He Hr].
    split_and!; [apply (He 1 port_gid)|apply (He 2 qkey)|apply (He 3 mlid)|apply (Hr 4 mtu_selector mtu)|apply (He 6 traffic_class)
      |apply (He 7 pkey)|apply (Hr 8 rate_selector rate)|apply (Hr 10 packet_life_time_selector packet_life_time)|apply (He 12 sl)
      |apply (He 13 flow_label)|apply (He 14 hop_limit)|apply (He 15 scope)|done]; cbn; auto 12.
Qed.

(** ** Concrete runs *)

Definition a_rec (js : Z) : ib_sa_mcmember_rec :=
  {| mgid := 1; port_gid := 2; qkey := 3; mlid := 49152; mtu_selector := 2; mtu := 4; traffic_class := 0; pkey := 65535;
     rate_selector := 2; rate := 3; packet_life_time_selector := 0; packet_life_time := 0; sl := 0; flow_label := 0; hop_limit := 0;
     scope := 2; join_state := js; proxy_join := 0 |}.
Definition answers (ret : Z) (p : option Z) : input := {| i_ret := ret; i_pkey := p |}.
Abbreviation handler ret := (L_handler (answers ret None)).

(** A run by its labels; with [check], every step keeps to the rules. *)
Fixpoint go (check : bool) (ls : list label) (s : sys) : option sys :=
  match ls with
  | [] => Some s
  | l :: ls => if negb check || allowed l s then match run_step l s with Ok s => go check ls s | _ => None end else None
  end.

Lemma mc_go_reachable ls s s' : reachable s -> go true ls s = Some s' -> reachable s'.
Proof.
  revert s. induction ls as [|l ls IH]; cbn; intros s Hr E; [congruence|].
  destruct (allowed l s) eqn:Ha; [|done]. destruct (run_step l s) as [s1| |] eqn:Hs; try done. eapply IH; [|done]. by eapply reach_step.
Qed.

Definition start : sys := init_sys 1 (a_rec 1) 0.
Definition after (ls : list label) : sys := default start (go true ls start).

Lemma after_reachable ls : is_Some (go true ls start) -> reachable (after ls).
Proof. intros [s E]. unfold after. rewrite E. cbn. eapply mc_go_reachable; [|done]. apply reach_init. Qed.

(** Member 1 joins as a full member: its request is queued, sent and answered. *)
Definition queued : list label := [L_queue 1].
Definition sent : list label := queued ++ [L_dispatch; handler 0; handler 1; L_tail 1].
Definition answered : list label := sent ++ [L_reply (answers 0 (Some 5)) 0 (a_rec 1); handler 0].
Definition joined : list label := answered ++ [handler 0; handler 0; handler 0; L_release].

Example joined_run :
  let s := after joined in
  g_state (s_grp s) = MCAST_IDLE /\ g_members (s_grp s) = [1; 0; 0; 0] /\ m_log <$> s_mem s !! 1%positive = Some [0] /\ g_refcount (s_grp s) = 1.
Proof. vm_compute. split_and!; reflexivity. Qed.

(** Its client frees it, and the handler asks the SA to leave. *)
Definition leaving : list label :=
  joined ++ [L_free 1; L_freeing 1; L_freeing 1; L_freeing 1; L_freeing 1; L_dispatch; handler 0; handler 1].

(** [leave_handler] counts a request it has sent again after sending it. An answer that comes in
    between ends the handler and frees the group under it. *)
Theorem resent_after_free :
  exists s, go true (leaving ++ [L_reply (answers 1 None) (err ETIMEDOUT) (a_rec 0); L_reply (answers 0 None) 0 (a_rec 0); handler 0; L_release]) start = Some s /\
    s_live s = false /\ allowed L_resent s = true /\ run_step L_resent s = Bug.
Proof. eexists. split; [vm_compute; reflexivity|]. done. Qed.

(** The group remembers the address of the member whose request it has sent. When that member
    is freed and another one gets its address, the failure of the old request is reported to
    the new member, whose own request was never sent. *)
Theorem stale_request_fails_other :
  exists s, go true (sent ++ [L_free 1; L_freeing 1; L_freeing 1; L_freeing 1; L_freeing 1; L_join 1 (a_rec 4) 0; L_queue 1;
      L_reply (answers 0 None) (err ETIMEDOUT) (a_rec 0); handler 0]) start = Some s /\
    m_log <$> s_mem s !! 1%positive = Some [err ETIMEDOUT].
Proof. eexists. split; vm_compute; reflexivity. Qed.

(** The index of the P_Key is stored when the first answer arrives and never again. After the
    P_Key has moved from index 5 to index 6, a member that joined with index 6 is reset by
    the next event although nothing has changed for it. *)
Definition moved : list label :=
  joined ++ [L_event MCAST_PKEY_EVENT; L_dispatch; handler 0; L_handler (answers 0 (Some 6)); handler 0; handler 0; handler 0; handler 0; handler 0; L_release].
Definition rejoined : list label :=
  moved ++ [L_join 2 (a_rec 1) 0; L_queue 2; L_dispatch; handler 0; handler 1; L_tail 2; L_reply (answers 0 (Some 6)) 0 (a_rec 1);
            handler 0; handler 0; handler 0; handler 0; L_release].

Theorem stale_pkey_index_resets :
  exists s, go true (rejoined ++ [L_event MCAST_PKEY_EVENT; L_dispatch; handler 0; L_handler (answers 0 (Some 6)); handler 0; handler 0]) start = Some s /\
    m_log <$> s_mem s !! 2%positive = Some [0; err ENETRESET] /\ g_pkey_index (s_grp s) = 5.
Proof. eexists. split; [vm_compute; reflexivity|]. done. Qed.

(** ** The theorems on concrete runs *)


Lemma mcast_references_exact_witness : s_live (after leaving) = true <-> 0 < g_refcount (s_grp (after leaving)).
Proof.
  destruct (mcast_references_exact (after leaving)) as (_ & H & _); [|exact H]. apply after_reachable. vm_compute. by eexists.
Defined.

Lemma mcast_membership_witness :
  exists id x, id ∈ g_active (s_grp (after joined)) /\ s_mem (after joined) !! id = Some x /\ Z.testbit (join_state (m_rec x)) 0 = true.
Proof.
  destruct (mcast_membership (after joined)) as (_ & _ & H).
  - apply after_reachable. vm_compute. by eexists.
  - apply (H ltac:(vm_compute; reflexivity) 0 ltac:(lia)). vm_compute. reflexivity.
Defined.

Lemma mcast_callbacks_witness : exists x, s_mem (after joined) !! 1%positive = Some x /\ m_log x <> [].
Proof.
  eexists. split; [vm_compute; reflexivity|].
  refine (proj2 (mcast_callbacks (after joined) 1 _ _ _) _ _); [|vm_compute; reflexivity..].
  apply after_reachable. vm_compute. by eexists.
Defined.

Lemma mcast_one_handler_witness : b2z (s_wq (after queued)) + running (s_pc (after queued)) + msum queueing (s_mem (after queued)) = 1.
Proof.
  apply (mcast_one_handler (after queued)); [apply after_reachable; vm_compute; by eexists|]. left. vm_compute. discriminate.
Defined.

Definition in_reset : list label := joined ++ [L_event MCAST_GROUP_ERROR; L_dispatch; handler 0; handler 0; handler 0; handler 0; handler 0].

Lemma mcast_error_resets_witness :
  exists s', run_step (handler 0) (after in_reset) = Ok s' /\ g_members (s_grp s') = [0; 0; 0; 0] /\
    m_log <$> s_mem s' !! 1%positive = Some [0; err ENETRESET].
Proof.
  eexists. split; [vm_compute; reflexivity|]. split; [|vm_compute; reflexivity].
  refine (proj1 (proj2 (mcast_error_resets (handler 0) (after in_reset) _ _ _ _ _ _))); [|vm_compute; reflexivity..|vm_compute; discriminate].
  apply after_reachable. vm_compute. by eexists.
Defined.

Lemma mcast_handler_ends_witness : handles 2 (after (queued ++ [L_dispatch])) (after (queued ++ [L_dispatch; handler 0; handler 1])) /\
  (2 <= left_to_do (after (queued ++ [L_dispatch])))%nat.
Proof.
  assert (handles 2 (after (queued ++ [L_dispatch])) (after (queued ++ [L_dispatch; handler 0; handler 1]))) as Hn.
  { eapply (handles_cons _ (answers 0 None)); [vm_compute; reflexivity..|].
    eapply (handles_cons _ (answers 1 None)); [vm_compute; reflexivity..|]. vm_compute. apply handles_nil. }
  split; [exact Hn|]. refine (proj1 (mcast_handler_ends 2 _ _ _ Hn)). apply after_reachable. vm_compute. by eexists.
Defined.
