(* ===== verification/Umem.v ===== *)
(** * User memory: page sizes and DMA blocks

    A memory region is registered as a list of blocks of one size, a page size the device
    supports: the device finds the byte at an I/O virtual address in the block the address
    falls into. core/umem.c chooses the size ([ib_umem_find_best_pgsz]) from the list of DMA
    segments of the memory, and the block iterator (core/verbs.c, include/rdma/ib_umem.h) cuts
    the segments into blocks. Here: the code, and the walk of the
    iterator, which makes exactly as many blocks as [ib_umem_num_dma_blocks] says and through
    which the device finds the memory. UmemPgsz.v: the size chosen is the best one. *)

From Stdlib Require Import ZArith Lia.
From stdpp Require Import base tactics numbers list option.
From S2P Require Import Prelude.

Local Open Scope Z_scope.

(** ** Data *)

Definition PAGE_SHIFT : Z := 12.
Definition PAGE_SIZE : Z := 2 ^ PAGE_SHIFT.

(** A DMA-mapped entry of a scatter list. *)
Record sg_dma := {
  dma_address : Z;
  dma_len : Z
}.

(** [odp_shift] is the page shift of memory paged on demand. *)
Record ib_umem := {
  iova : Z;
  length_ : Z;
  address : Z;
  odp_shift : option Z;
  sgl : list sg_dma
}.

Definition with_iova (virt : Z) (u : ib_umem) : ib_umem :=
  {| iova := virt; length_ := length_ u; address := address u; odp_shift := odp_shift u; sgl := sgl u |}.

Definition ib_umem_offset (u : ib_umem) : Z := address u mod PAGE_SIZE.

(** ** The best page size *)

(** [GENMASK(63, l)]: shifting by the width is not defined. *)
Definition genmask_from (l : Z) : option Z := if l <? 64 then Some (Z.shiftl (Z.ones (64 - l)) l) else None.

Definition bits_per (n : Z) : Z := if n <? 2 then 1 else Z.log2 n + 1.

Fixpoint ctz_pos (p : positive) : Z := match p with xO p => 1 + ctz_pos p | _ => 0 end.
Definition count_trailing_zeros (z : Z) : Z := match z with Zpos p => ctz_pos p | _ => 0 end.

(** The loop over the segments. *)
Fixpoint pgsz_mask (l : list sg_dma) (mask va pgoff : Z) : Z :=
  match l with
  | [] => mask
  | sg :: r =>
      let mask := Z.lor mask (Z.lxor (u64 (dma_address sg + pgoff)) va) in
      let va := u64 (va + dma_len sg - pgoff) in
      let mask := match r with [] => mask | _ => Z.lor mask va end in
      pgsz_mask r mask va 0
  end.

Definition ib_umem_find_best_pgsz (pgsz_bitmap virt : Z) (u : ib_umem) : option (ib_umem * Z) :=
  let u := with_iova virt u in
  match odp_shift u with
  | Some shift =>
      let page_size := u32 (2 ^ shift) in
      Some (u, if has_flag pgsz_bitmap page_size then page_size else 0)
  | None =>
      high ← genmask_from (bits_per (Z.lxor (u64 (length_ u - 1 + virt)) virt));
      let mask := pgsz_mask (sgl u) (Z.land pgsz_bitmap high) virt (ib_umem_offset u) in
      let bitmap := if mask =? 0 then pgsz_bitmap else Z.land pgsz_bitmap (Z.ones (count_trailing_zeros mask + 1)) in
      Some (u, if bitmap =? 0 then 0 else 2 ^ Z.log2 bitmap)
  end.

(** [ib_umem_find_best_pgoff] *)
Definition ib_umem_find_best_pgoff (pgsz_bitmap pgoff_bitmask : Z) (u : ib_umem) : option (ib_umem * Z) :=
  sg ← head (sgl u);
  let dma_addr := u64 (dma_address sg + ib_umem_offset u) in
  ib_umem_find_best_pgsz pgsz_bitmap (Z.land dma_addr pgoff_bitmask) u.

(** ** Blocks *)

Definition ALIGN (x a : Z) : Z := Z.ldiff (u64 (x + (a - 1))) (a - 1).
Definition ALIGN_DOWN (x a : Z) : Z := Z.ldiff x (a - 1).

Definition ib_umem_num_dma_blocks (u : ib_umem) (pgsz : Z) : Z :=
  u64 (ALIGN (u64 (iova u + length_ u)) pgsz - ALIGN_DOWN (iova u) pgsz) / pgsz.

(** The place in the scatter list is the rest of the list; [b_sg = []] is a null pointer. *)
Record ib_block_iter := {
  b_sg : list sg_dma;
  b_dma_addr : Z;
  b_sg_numblocks : Z;
  b_sg_nents : Z;
  b_sg_advance : Z;
  b_pg_bit : Z
}.

Definition rdma_block_iter_start (sglist : list sg_dma) (nents pgsz : Z) : ib_block_iter :=
  {| b_sg := sglist; b_dma_addr := 0; b_sg_numblocks := 0; b_sg_nents := u32 nents; b_sg_advance := 0; b_pg_bit := Z.log2 pgsz |}.

Definition rdma_block_iter_next (b : ib_block_iter) : bool * ib_block_iter :=
  match b_sg b with
  | [] => (false, b)
  | sg :: r =>
      if b_sg_nents b =? 0 then (false, b) else
      let dma_addr := u64 (dma_address sg + b_sg_advance b) in
      let block_offset := u32 (Z.land dma_addr (2 ^ b_pg_bit b - 1)) in
      let sg_delta := u32 (2 ^ b_pg_bit b - block_offset) in
      (true,
       if sg_delta <? u32 (dma_len sg - b_sg_advance b)
       then {| b_sg := b_sg b; b_dma_addr := dma_addr; b_sg_numblocks := b_sg_numblocks b; b_sg_nents := b_sg_nents b;
               b_sg_advance := u32 (b_sg_advance b + sg_delta); b_pg_bit := b_pg_bit b |}
       else {| b_sg := r; b_dma_addr := dma_addr; b_sg_numblocks := b_sg_numblocks b; b_sg_nents := u32 (b_sg_nents b - 1);
               b_sg_advance := 0; b_pg_bit := b_pg_bit b |})
  end.

Definition rdma_block_iter_dma_address (b : ib_block_iter) : Z := Z.ldiff (b_dma_addr b) (2 ^ b_pg_bit b - 1).

Definition with_blocks (adv n : Z) (b : ib_block_iter) : ib_block_iter :=
  {| b_sg := b_sg b; b_dma_addr := b_dma_addr b; b_sg_numblocks := n; b_sg_nents := b_sg_nents b; b_sg_advance := adv; b_pg_bit := b_pg_bit b |}.

Definition rdma_umem_block_iter_start (u : ib_umem) (pgsz : Z) : ib_block_iter :=
  with_blocks (u32 (Z.ldiff (ib_umem_offset u) (pgsz - 1))) (ib_umem_num_dma_blocks u pgsz)
    (rdma_block_iter_start (sgl u) (Z.of_nat (length (sgl u))) pgsz).

Definition rdma_umem_block_iter_next (b : ib_block_iter) : bool * ib_block_iter :=
  let '(more, b) := rdma_block_iter_next b in
  if more then (negb (b_sg_numblocks b =? 0), with_blocks (b_sg_advance b) (u64 (b_sg_numblocks b - 1)) b)
  else (false, b).

(** [rdma_umem_for_each_dma_block]: the addresses of the blocks; [None] is a loop that has not
    ended after [fuel] rounds. *)
Fixpoint umem_dma_blocks (fuel : nat) (b : ib_block_iter) : option (list Z) :=
  match fuel with
  | O => None
  | S fuel =>
      let '(more, b) := rdma_umem_block_iter_next b in
      if more then l ← umem_dma_blocks fuel b; Some (rdma_block_iter_dma_address b :: l) else Some []
  end.

(** ** Arithmetic of blocks *)

Lemma land_pow2 x n : 0 <= n -> Z.land x (2 ^ n - 1) = x mod 2 ^ n.
Proof. intros. rewrite <- Z.land_ones by done. by rewrite Z.ones_equiv, Z.sub_1_r. Qed.

Lemma ldiff_pow2 x n : 0 <= n -> Z.ldiff x (2 ^ n - 1) = x - x mod 2 ^ n.
Proof.
  intros. rewrite Z.sub_1_r, <- Z.ones_equiv, Z.ldiff_ones_r by done. rewrite Z.shiftr_div_pow2, Z.shiftl_mul_pow2 by done.
  pose proof (Z.div_mod x (2 ^ n) ltac:(lia)). lia.
Qed.

(** Same place in the block after a shift by whole blocks. *)
Lemma mod_shift p a b : 0 < p -> (a - b) mod p = 0 -> a mod p = b mod p.
Proof.
  intros Hp H. apply Z.mod_divide in H as [k H]; [|lia]. replace a with (b + k * p) by lia. apply Z.mod_add. lia.
Qed.

Lemma block_next p w : 0 < p -> w + (p - w mod p) = (w / p + 1) * p.
Proof. intros. pose proof (Z.div_mod w p ltac:(lia)). lia. Qed.

Lemma block_same p w v : 0 < p -> w <= v < w + (p - w mod p) -> v / p = w / p.
Proof.
  intros Hp Hv. rewrite block_next in Hv by done. pose proof (Z.div_mod w p ltac:(lia)). pose proof (Z.mod_pos_bound w p Hp).
  symmetry. apply Z.div_unique with (r := v - (w / p) * p); lia.
Qed.

(** ** Segments in the I/O virtual address space *)

(** The address of the byte at [v] when the first segment starts at [B]. *)
Fixpoint dma_at (B : Z) (l : list sg_dma) (v : Z) : Z :=
  match l with
  | [] => 0
  | sg :: r => if v <? B + dma_len sg then dma_address sg + (v - B) else dma_at (B + dma_len sg) r v
  end.

(** Segments that cover the space up to [E], and keep the place in a block: each is displaced
    by whole blocks, and all but the last end with a block. *)
Fixpoint laid (p B E : Z) (l : list sg_dma) : Prop :=
  match l with
  | [] => False
  | sg :: r =>
      0 < dma_len sg < 2 ^ 32 /\ 0 <= dma_address sg /\ dma_address sg + dma_len sg <= 2 ^ 64 /\ (dma_address sg - B) mod p = 0 /\
      match r with
      | [] => E <= B + dma_len sg
      | _ => (B + dma_len sg) mod p = 0 /\ B + dma_len sg < E /\ laid p (B + dma_len sg) E r
      end
  end.

(** A round with no block left ends the loop, wherever the iterator stands. *)
Lemma no_block_left fuel b : b_sg_numblocks b = 0 -> umem_dma_blocks (S fuel) b = Some [].
Proof.
  intros E. cbn. unfold rdma_umem_block_iter_next, rdma_block_iter_next.
  destruct (b_sg b) as [|sg r]; [done|]. destruct (b_sg_nents b =? 0); [done|].
  destruct (_ <? _); cbn; by rewrite E.
Qed.

(** The length of a block from [w] on, or what the 32 bits of the code make of it when no
    segment is that long. *)
Definition delta (p w : Z) : Z := u32 (p - u32 (w mod p)).

Lemma delta_exact p w : 0 < p -> p - w mod p < 2 ^ 32 -> delta p w = p - w mod p.
Proof.
  intros Hp H. unfold delta, u32. pose proof (Z.mod_pos_bound w p Hp).
  rewrite Zminus_mod_idemp_r. apply Z.mod_small. lia.
Qed.

Section walk.
Context (bit E : Z) (Hbit : 0 <= bit < 64).
Local Abbreviation p := (2 ^ bit).

Lemma p_pos : 0 < p.
Proof using Hbit. apply Z.pow_pos_nonneg; lia. Qed.

(** The place of an iterator: in the first segment, at [w]. *)
Record at_place (b : ib_block_iter) (B : Z) (sg : sg_dma) (r : list sg_dma) (w : Z) (m : nat) : Prop := {
  ap_sg : b_sg b = sg :: r;
  ap_laid : laid p B E (sg :: r);
  ap_adv : b_sg_advance b = w - B;
  ap_in : 0 <= w - B < dma_len sg;
  ap_range : w < E;
  ap_left : Z.of_nat m = (E + p - 1) / p - w / p;
  ap_num : b_sg_numblocks b = Z.of_nat m;
  ap_nents : b_sg_nents b = Z.of_nat (length (sg :: r));
  ap_small : Z.of_nat (length (sg :: r)) < 2 ^ 32 /\ Z.of_nat m < 2 ^ 64;
  ap_bit : b_pg_bit b = bit
}.

(** One round: the block it yields, and where the iterator stands then, unless no block is
    left. *)
Lemma walk_step b B sg r w m :
  at_place b B sg r w (S m) ->
  exists b', rdma_umem_block_iter_next b = (true, b') /\
    rdma_block_iter_dma_address b' = dma_address sg + (w - B) - w mod p /\
    b_sg_numblocks b' = Z.of_nat m /\ b_pg_bit b' = bit /\
    (b_sg b', b_sg_nents b', b_sg_advance b') =
      if delta p w <? dma_len sg - (w - B) then (sg :: r, b_sg_nents b, u32 (w - B + delta p w)) else (r, b_sg_nents b - 1, 0).
Proof using Hbit.
  intros [A1 A2 A3 A4 A5 A6 A7 A8 A9 A10]. pose proof p_pos as Hp. destruct A2 as (L1 & L2 & L3 & L4 & _).
  unfold rdma_umem_block_iter_next, rdma_block_iter_next. rewrite A1, A8, A3, A10.
  rewrite (proj2 (Z.eqb_neq (Z.of_nat (length (sg :: r))) 0)) by (cbn; lia).
  assert (u64 (dma_address sg + (w - B)) = dma_address sg + (w - B)) as E1 by (apply u64_id; lia). rewrite E1.
  assert ((dma_address sg + (w - B)) mod p = w mod p) as E2 by (apply mod_shift; [done|]; by replace (dma_address sg + (w - B) - w) with (dma_address sg - B) by lia).
  rewrite land_pow2, E2 by lia. fold (delta p w). rewrite (u32_id (dma_len sg - _)) by lia.
  assert (u64 (Z.of_nat (S m) - 1) = Z.of_nat m) as E3 by (replace (Z.of_nat (S m) - 1) with (Z.of_nat m) by lia; apply u64_id; lia).
  assert (Z.ldiff (dma_address sg + (w - B)) (p - 1) = dma_address sg + (w - B) - w mod p) as E4 by (by rewrite ldiff_pow2, E2 by lia).
  destruct (delta p w <? dma_len sg - (w - B)); cbn -[Z.of_nat]; rewrite A7, E3; rewrite (proj2 (Z.eqb_neq (Z.of_nat (S m)) 0)) by lia;
    eexists; (split; [reflexivity|]); cbn -[Z.of_nat]; (split; [exact E4|]); split_and!; try done.
  cbn -[Z.of_nat] in A9. by rewrite u32_id by lia.
Qed.

(** Where the iterator stands after a round, unless no block is left: at the next block. *)
Lemma walk_next b b' B sg r w m :
  at_place b B sg r w (S m) -> m <> O ->
  b_sg_numblocks b' = Z.of_nat m -> b_pg_bit b' = bit ->
  (b_sg b', b_sg_nents b', b_sg_advance b') =
    (if delta p w <? dma_len sg - (w - B) then (sg :: r, b_sg_nents b, u32 (w - B + delta p w)) else (r, b_sg_nents b - 1, 0)) ->
  exists B' sg' r', at_place b' B' sg' r' ((w / p + 1) * p) m /\
    (forall v, (w / p + 1) * p <= v -> dma_at B' (sg' :: r') v = dma_at B (sg :: r) v) /\ (w / p + 1) * p <= B + dma_len sg.
Proof using Hbit.
  intros [A1 A2 A3 A4 A5 A6 A7 A8 A9 A10] Hm Hn Hb Hs. pose proof p_pos as Hp. pose proof (block_next p w Hp) as Hw.
  pose proof (Z.mod_pos_bound w p Hp) as Hmod.
  assert ((w / p + 1) * p < E) as HE.
  { assert (w / p + 2 <= (E + p - 1) / p) as H by lia. pose proof (Z.mul_div_le (E + p - 1) p Hp). nia. }
  assert ((w / p + 1) * p / p = w / p + 1) as Hd by (apply Z.div_mul; lia).
  assert (Z.of_nat m = (E + p - 1) / p - (w / p + 1) * p / p) as Hleft by lia.
  pose proof A2 as A2'. destruct A2 as (L1 & L2 & L3 & L4 & L5).
  assert (p - w mod p < 2 ^ 32 /\ (w / p + 1) * p <= B + dma_len sg) as [Hlt Hend].
  { destruct r as [|sg' r']; [lia|]. destruct L5 as (M1 & M2 & _). apply Z.mod_divide in M1 as [k M1]; [|lia].
    assert (w / p < k) by (apply Z.div_lt_upper_bound; lia). nia. }
  rewrite delta_exact in Hs by done. destruct (Z.ltb_spec (p - w mod p) (dma_len sg - (w - B))) as [Hc|Hc].
  - injection Hs as S1 S2 S3. rewrite u32_id in S3 by lia. exists B, sg, r. split_and!; [|done|done].
    constructor; try done; lia.
  - destruct r as [|sg' r']; [lia|]. injection Hs as S1 S2 S3. destruct L5 as (M1 & M2 & M3).
    assert ((w / p + 1) * p = B + dma_len sg) as Heq by lia. exists (B + dma_len sg), sg', r'. split_and!; [|intros v Hv; cbn; by rewrite (proj2 (Z.ltb_ge v (B + dma_len sg))) by lia|done].
    pose proof M3 as M3'. destruct M3 as (N1 & _).
    constructor; try done; try lia; [rewrite S2, A8; cbn; lia|]. split; [|lia]. destruct A9 as [A9 _]. cbn in *. lia.
Qed.

(** The blocks of the loop are the memory: the byte at [v] is in the block of [v], at its
    place. *)
Lemma walk_blocks m : forall b B sg r w fuel,
  at_place b B sg r w m -> (m < fuel)%nat ->
  exists l, umem_dma_blocks fuel b = Some l /\ length l = m /\
    forall v, w <= v < E -> exists a, l !! Z.to_nat (v / p - w / p) = Some a /\ a mod p = 0 /\ a + v mod p = dma_at B (sg :: r) v.
Proof using Hbit.
  pose proof p_pos as Hp. induction m as [|m IH]; intros b B sg r w fuel HA Hf.
  { exfalso. destruct HA as [A1 A2 A3 A4 A5 A6 A7 A8 A9 A10]. pose proof (Z.div_le_mono (w + p) (E + p - 1) p Hp ltac:(lia)) as X.
    rewrite <- (Z.mul_1_l p) in X at 1. rewrite Z.div_add in X by lia. lia. }
  destruct fuel as [|fuel]; [lia|]. cbn. destruct (walk_step _ _ _ _ _ _ HA) as (b' & E1 & E2 & E3 & E4 & E5). rewrite E1, E2.
  pose proof HA as [A1 (L1 & L2 & L3 & L4 & L5) A3 A4 A5 A6 A7 A8 A9 A10].
  assert (forall v, w <= v < E -> v < (w / p + 1) * p -> v < B + dma_len sg ->
    (dma_address sg + (w - B) - w mod p) mod p = 0 /\ dma_address sg + (w - B) - w mod p + v mod p = dma_at B (sg :: r) v /\ v / p - w / p = 0) as Hblock.
  { intros v Hv Hn Hin. rewrite <- block_next in Hn by done. pose proof (block_same p w v Hp ltac:(lia)) as Hs.
    pose proof (Z.div_mod v p ltac:(lia)). pose proof (Z.div_mod w p ltac:(lia)). split_and!; [| |lia].
    - apply Z.mod_divide; [lia|]. apply Z.mod_divide in L4 as [k L4]; [|lia]. exists (k + w / p). lia.
    - cbn. rewrite (proj2 (Z.ltb_lt _ _)) by done. rewrite Hs in *. lia. }
  destruct (decide (m = O)) as [->|Hm].
  - destruct fuel as [|fuel]; [lia|]. rewrite no_block_left by done. eexists. split; [done|]. split; [done|].
    intros v Hv. assert (E <= (w / p + 1) * p) as HE.
    { assert ((E + p - 1) / p = w / p + 1) as HQ by lia. pose proof (Z.div_mod (E + p - 1) p ltac:(lia)). pose proof (Z.mod_pos_bound (E + p - 1) p Hp). nia. }
    assert (v < B + dma_len sg) as Hin.
    { destruct r as [|sg' r']; [lia|]. destruct L5 as (M1 & M2 & _). apply Z.mod_divide in M1 as [k M1]; [|lia].
      assert (w / p < k) by (apply Z.div_lt_upper_bound; lia). nia. }
    destruct (Hblock v Hv ltac:(lia) Hin) as (H1 & H2 & H3). rewrite H3. eexists. split; [done|]. done.
  - destruct (walk_next b b' B sg r w m HA Hm E3 E4 E5) as (B' & sg' & r' & HA' & Hdma & Hend).
    destruct (IH b' B' sg' r' _ fuel HA' ltac:(lia)) as (l & -> & Hlen & Hl). eexists. split; [done|]. split; [cbn; lia|].
    intros v Hv. destruct (decide (v < (w / p + 1) * p)) as [Hlt|Hge].
    + destruct (Hblock v Hv Hlt ltac:(lia)) as (H1 & H2 & H3). rewrite H3. eexists. split; [done|]. done.
    + destruct (Hl v ltac:(lia)) as (a & Ha & H1 & H2). rewrite Z.div_mul in Ha by lia. exists a.
      assert (w / p + 1 <= v / p) by (apply Z.div_le_lower_bound; lia).
      replace (Z.to_nat (v / p - w / p)) with (S (Z.to_nat (v / p - (w / p + 1)))) by lia. split; [done|]. split; [done|]. rewrite H2. apply Hdma. lia.
Qed.
End walk.

(** ** The mask of the page sizes *)

Lemma ctz_pos_nonneg q : 0 <= ctz_pos q.
Proof. induction q; cbn; lia. Qed.

Lemma ctz_spec z n : 0 < z -> 0 <= n -> z mod 2 ^ n = 0 <-> n <= count_trailing_zeros z.
Proof.
  intros Hz Hn. destruct z as [|q|q]; try lia. cbn. clear Hz. revert n Hn. induction q as [q IH|q IH|]; intros n Hn; cbn.
  - destruct (decide (n = 0)) as [->|Hne]; [by rewrite Z.mod_1_r|]. split; [|lia]. intros H. exfalso.
    replace n with (1 + (n - 1)) in H by lia. rewrite Z.pow_add_r in H by lia. apply Z.mod_divide in H as [k H]; lia.
  - destruct (decide (n = 0)) as [->|Hne]; [rewrite Z.mod_1_r; pose proof (ctz_pos_nonneg q); lia|].
    replace n with (1 + (n - 1)) at 1 by lia. rewrite Z.pow_add_r by lia. change (2 ^ 1) with 2.
    replace (Z.pos q~0) with (2 * Z.pos q) by lia. rewrite Zmult_mod_distr_l. specialize (IH (n - 1) ltac:(lia)). lia.
  - destruct (decide (n = 0)) as [->|Hne]; [by rewrite Z.mod_1_r|]. split; [|lia]. intros H. exfalso.
    rewrite Z.mod_small in H; [done|]. split; [lia|]. apply Z.pow_gt_1; lia.
Qed.

Lemma mod_land z n : 0 <= n -> z mod 2 ^ n = 0 <-> Z.land z (Z.ones n) = 0.
Proof. intros. by rewrite Z.land_ones. Qed.

Lemma mod_lor a b n : 0 <= n -> Z.lor a b mod 2 ^ n = 0 <-> a mod 2 ^ n = 0 /\ b mod 2 ^ n = 0.
Proof. intros. rewrite !mod_land, Z.land_lor_distr_l by done. apply Z.lor_eq_0_iff. Qed.

Lemma mod_lxor a b n : 0 <= n -> Z.lxor a b mod 2 ^ n = 0 <-> (a - b) mod 2 ^ n = 0.
Proof.
  intros. rewrite mod_land by done.
  assert (Z.land (Z.lxor a b) (Z.ones n) = Z.lxor (Z.land a (Z.ones n)) (Z.land b (Z.ones n))) as ->.
  { apply Z.bits_inj'. intros i _. rewrite !Z.land_spec, !Z.lxor_spec, !Z.land_spec. by destruct (Z.testbit a i), (Z.testbit b i), (Z.testbit (Z.ones n) i). }
  rewrite Z.lxor_eq_0_iff, !Z.land_ones by done. split.
  - intros E. by rewrite Zminus_mod, E, Z.sub_diag.
  - intros E. apply mod_shift; [lia|done].
Qed.

Lemma u64_mod z n : 0 <= n <= 64 -> u64 z mod 2 ^ n = z mod 2 ^ n.
Proof.
  intros. unfold u64. apply Z.mod_mod_divide. exists (2 ^ (64 - n)). rewrite <- Z.pow_add_r by lia. f_equal. lia.
Qed.

(** A block size the segments fit: from the first byte on, DMA addresses and I/O virtual
    addresses have the same place in their blocks, and all segments but the last end with a
    block. *)
Fixpoint fits (p va pgoff : Z) (l : list sg_dma) : Prop :=
  match l with
  | [] => True
  | sg :: r =>
      (dma_address sg + pgoff - va) mod p = 0 /\
      match r with [] => True | _ => (va + dma_len sg - pgoff) mod p = 0 end /\
      fits p (va + dma_len sg - pgoff) 0 r
  end.

Lemma mask_fits n : 0 <= n <= 64 -> forall l mask va va' pgoff,
  va' mod 2 ^ 64 = va mod 2 ^ 64 -> pgsz_mask l mask va' pgoff mod 2 ^ n = 0 <-> mask mod 2 ^ n = 0 /\ fits (2 ^ n) va pgoff l.
Proof.
  intros Hn. induction l as [|sg r IH]; intros mask va va' pgoff Hva; [cbn; tauto|]. cbn.
  assert (u64 (va' + dma_len sg - pgoff) = u64 (va + dma_len sg - pgoff)) as Ev.
  { unfold u64. replace (va' + dma_len sg - pgoff) with (va' + (dma_len sg - pgoff)) by lia.
    rewrite Zplus_mod, Hva, <- Zplus_mod. f_equal. lia. }
  rewrite (IH _ (va + dma_len sg - pgoff)) by (rewrite Ev; apply Zmod_mod).
  assert (Z.lxor (u64 (dma_address sg + pgoff)) va' mod 2 ^ n = 0 <-> (dma_address sg + pgoff - va) mod 2 ^ n = 0) as Hx.
  { rewrite mod_lxor by lia. rewrite Zminus_mod, u64_mod by lia.
    assert (va' mod 2 ^ n = va mod 2 ^ n) as -> by (rewrite <- (u64_mod va'), <- (u64_mod va) by lia; unfold u64; by rewrite Hva).
    by rewrite <- Zminus_mod. }
  destruct r as [|sg' r'].
  - rewrite mod_lor, Hx by lia. tauto.
  - rewrite !mod_lor, Hx, Ev, u64_mod by lia. tauto.
Qed.

(** ** Memory as the core pins it *)

(** Segments of whole pages. *)
Definition seg_ok (sg : sg_dma) : Prop :=
  0 < dma_len sg < 2 ^ 32 /\ dma_len sg mod PAGE_SIZE = 0 /\
  0 <= dma_address sg /\ dma_address sg mod PAGE_SIZE = 0 /\ dma_address sg + dma_len sg <= 2 ^ 64.

(** Segments laid from [B] on reach [E], and all are needed. *)
Fixpoint spans (B E : Z) (l : list sg_dma) : Prop :=
  match l with
  | [] => False
  | sg :: r => match r with [] => B < E <= B + dma_len sg | _ => B + dma_len sg < E /\ spans (B + dma_len sg) E r end
  end.

Definition umem_ok (u : ib_umem) : Prop :=
  Forall seg_ok (sgl u) /\ Z.of_nat (length (sgl u)) < 2 ^ 32 /\ 0 < length_ u /\
  spans 0 (ib_umem_offset u + length_ u) (sgl u).

(** The device's addresses of the memory. *)
Definition range_ok (virt : Z) (u : ib_umem) : Prop := 0 <= virt /\ virt + length_ u <= 2 ^ 64.

Lemma page_offset u : 0 <= ib_umem_offset u < PAGE_SIZE.
Proof. unfold ib_umem_offset. apply Z.mod_pos_bound. done. Qed.

Lemma seg_ok_page sg : seg_ok sg -> PAGE_SIZE <= dma_len sg.
Proof.
  intros (H1 & H2 & _). apply Z.mod_divide in H2 as [j H2]; [|done]. unfold PAGE_SIZE, PAGE_SHIFT in *. lia.
Qed.

Lemma fits_laid p E : forall l B pgoff,
  Forall seg_ok l -> fits p (B + pgoff) pgoff l -> spans B E l -> laid p B E l.
Proof.
  induction l as [|sg r IH]; intros B pgoff HF Hf Hs; [done|].
  apply Forall_cons_1 in HF as [(H1 & H2 & H3 & H4 & H5) HF]. cbn in Hf, Hs |- *. destruct Hf as (F1 & F2 & F3).
  replace (dma_address sg + pgoff - (B + pgoff)) with (dma_address sg - B) in F1 by lia.
  replace (B + pgoff + dma_len sg - pgoff) with (B + dma_len sg) in F2, F3 by lia.
  destruct r as [|sg' r']; [by split_and!; try lia|]. destruct Hs as [S1 S2]. split_and!; try done; try lia.
  apply (IH _ 0); [done| |done]. by rewrite Z.add_0_r.
Qed.

Lemma dma_at_shift d : forall l B v, dma_at (B + d) l (v + d) = dma_at B l v.
Proof.
  induction l as [|sg r IH]; intros B v; cbn; [done|].
  replace (B + d + dma_len sg) with (B + dma_len sg + d) by lia. rewrite IH.
  replace (v + d - (B + d)) with (v - B) by lia. destruct (Z.ltb_spec (v + d) (B + dma_len sg + d)), (Z.ltb_spec v (B + dma_len sg)); done || lia.
Qed.

Lemma spans_shift d E : forall l B, spans B E l -> spans (B + d) (E + d) l.
Proof.
  induction l as [|sg r IH]; intros B; cbn; [done|]. destruct r as [|sg' r']; [lia|]. intros [H1 H2].
  replace (B + d + dma_len sg) with (B + dma_len sg + d) by lia. split; [lia|by apply IH].
Qed.

(** A power of two divides the page size or is a multiple of it. *)
Lemma pow2_page bit : 0 <= bit -> (exists k, PAGE_SIZE = k * 2 ^ bit) \/ (exists k, 2 ^ bit = k * PAGE_SIZE /\ 0 < k).
Proof.
  intros H. unfold PAGE_SIZE. destruct (decide (bit <= PAGE_SHIFT)).
  - left. exists (2 ^ (PAGE_SHIFT - bit)). rewrite <- Z.pow_add_r by lia. f_equal. lia.
  - right. exists (2 ^ (bit - PAGE_SHIFT)). rewrite <- Z.pow_add_r by (unfold PAGE_SHIFT in *; lia). split; [f_equal; lia|].
    apply Z.pow_pos_nonneg; lia.
Qed.

(** The first byte is no nearer to the start of its block than it is to the start of its page. *)
Lemma offset_in_block bit dma o virt :
  0 <= bit -> 0 <= o < PAGE_SIZE -> dma mod PAGE_SIZE = 0 -> (dma + o - virt) mod 2 ^ bit = 0 ->
  o mod 2 ^ bit <= virt mod 2 ^ bit.
Proof.
  intros Hb Ho Hd Hv. pose proof (Z.pow_pos_nonneg 2 bit ltac:(lia) Hb) as Hp. apply mod_shift in Hv; [|done]. rewrite <- Hv.
  apply Z.mod_divide in Hd as [j ->]; [|done]. destruct (pow2_page bit Hb) as [[k Hk]|(k & Hk & Hk0)].
  - rewrite Hk. replace (j * (k * 2 ^ bit) + o) with (o + (j * k) * 2 ^ bit) by lia. rewrite Z.mod_add by lia. lia.
  - rewrite Hk. assert (0 < PAGE_SIZE) as HP by done. pose proof (Z.div_mod j k ltac:(lia)) as Hj. pose proof (Z.mod_pos_bound j k Hk0).
    replace (j * PAGE_SIZE + o) with ((j mod k) * PAGE_SIZE + o + (j / k) * (k * PAGE_SIZE)) by (rewrite Hj at 3; ring).
    rewrite Z.mod_add by nia. rewrite !Z.mod_small by nia. nia.
Qed.

(** The number of blocks of the range, when they do not fill the address space. *)
Definition blocks_of (p virt E : Z) : Z := (E + p - 1) / p - virt / p.

Lemma num_blocks bit u :
  0 <= bit < 64 -> range_ok (iova u) u -> 0 <= length_ u ->
  let p := 2 ^ bit in
  blocks_of p (iova u) (iova u + length_ u) * p < 2 ^ 64 ->
  ib_umem_num_dma_blocks u p = blocks_of p (iova u) (iova u + length_ u).
Proof.
  intros Hb [Hr1 Hr2] Hl p Hm. assert (0 < p) as Hp by (apply Z.pow_pos_nonneg; lia).
  set (E := iova u + length_ u) in *. set (m := blocks_of p (iova u) E) in *.
  assert (0 <= m) as Hm0 by (subst m; unfold blocks_of; pose proof (Z.div_le_mono (iova u) (E + p - 1) p Hp ltac:(lia)); lia).
  unfold ib_umem_num_dma_blocks, ALIGN, ALIGN_DOWN. fold E. subst p. rewrite !ldiff_pow2 by lia. set (p := 2 ^ bit) in *.
  assert (u64 (u64 E + (p - 1)) = u64 (E + p - 1)) as -> by (unfold u64; rewrite Zplus_mod_idemp_l; f_equal; lia).
  assert (forall z, u64 z mod p = z mod p) as -> by (intros; apply u64_mod; lia).
  assert (u64 (u64 (E + p - 1) - (E + p - 1) mod p - (iova u - iova u mod p)) = m * p) as ->.
  { unfold u64. rewrite <- !Z.sub_add_distr. rewrite Zminus_mod_idemp_l.
    replace (E + p - 1 - _) with (m * p); [apply Z.mod_small; nia|]. subst m. unfold blocks_of.
    pose proof (Z.div_mod (E + p - 1) p ltac:(lia)). pose proof (Z.div_mod (iova u) p ltac:(lia)). lia. }
  apply Z.div_mul. lia.
Qed.

(** The blocks of a size that fits are the memory: the device, which looks for the byte at
    offset [k] in the block its I/O virtual address falls into, finds it. *)
Lemma blocks_are_memory bit u :
  0 <= bit < 64 -> umem_ok u -> range_ok (iova u) u -> fits (2 ^ bit) (iova u) (ib_umem_offset u) (sgl u) ->
  let p := 2 ^ bit in
  let m := ib_umem_num_dma_blocks u p in
  blocks_of p (iova u) (iova u + length_ u) * p < 2 ^ 64 ->
  exists l, umem_dma_blocks (S (Z.to_nat m)) (rdma_umem_block_iter_start u p) = Some l /\ Z.of_nat (length l) = m /\
    forall k, 0 <= k < length_ u ->
      exists a, l !! Z.to_nat ((iova u + k) / p - iova u / p) = Some a /\ a mod p = 0 /\
        a + (iova u + k) mod p = dma_at 0 (sgl u) (ib_umem_offset u + k).
Proof.
  intros Hb (HF & Hn & Hl & Hs) Hr Hf p m Hm. assert (0 < p) as Hp by (apply Z.pow_pos_nonneg; lia).
  pose proof (num_blocks bit u Hb Hr ltac:(lia) Hm) as Em. fold p m in Em. pose proof (page_offset u) as Ho. destruct Hr as [Hr1 Hr2].
  set (o := ib_umem_offset u) in *. set (B := iova u - o). set (E := iova u + length_ u) in *.
  assert (laid p B E (sgl u)) as HL.
  { apply (fits_laid p E _ B o HF); [by replace (B + o) with (iova u) by lia|].
    replace B with (0 + B) by lia. replace E with (o + length_ u + B) by lia. by apply spans_shift. }
  destruct (sgl u) as [|sg r] eqn:El; [done|]. pose proof HF as HF'. apply Forall_cons_1 in HF' as [HG _].
  pose proof (seg_ok_page sg HG) as Hps. destruct HG as (G1 & G2 & G3 & G4 & G5).
  destruct Hf as (F1 & _). pose proof (offset_in_block bit _ o (iova u) ltac:(lia) Ho G4 F1) as Hob. fold p in Hob.
  pose proof (Z.mod_pos_bound o p Hp) as Hop. pose proof (Z.mod_le o p ltac:(lia) Hp) as Hoo.
  pose proof (Z.div_mod (iova u) p ltac:(lia)) as Hdm. pose proof (Z.mod_pos_bound (iova u) p Hp).
  set (w := iova u - o mod p).
  assert (w / p = iova u / p) as Hw by (symmetry; apply Z.div_unique with (r := iova u mod p - o mod p); lia).
  assert (PAGE_SIZE < 2 ^ 32) by done.
  destruct (walk_blocks bit E Hb (Z.to_nat m) (rdma_umem_block_iter_start u p) B sg r w (S (Z.to_nat m))) as (l & Hbl & Hlen & Hv).
  - assert (0 <= m) as Hm0 by (rewrite Em; unfold blocks_of; pose proof (Z.div_le_mono (iova u) (E + p - 1) p Hp ltac:(lia)); lia).
    constructor; cbn -[Z.of_nat]; try done.
    + unfold p at 1. rewrite ldiff_pow2 by lia. fold p o. rewrite u32_id by lia. lia.
    + lia.
    + lia.
    + fold p. rewrite Hw, Z2Nat.id by done. exact Em.
    + fold m. lia.
    + rewrite El. apply u32_id. cbn in *. lia.
    + split; [done|]. rewrite Z2Nat.id by done. fold p in Hm. rewrite <- Em in Hm. nia.
    + apply Z.log2_pow2. lia.
  - lia.
  - exists l. split; [done|]. split; [|].
    { rewrite Hlen, Z2Nat.id; [done|]. rewrite Em; unfold blocks_of; pose proof (Z.div_le_mono (iova u) (E + p - 1) p Hp ltac:(lia)); lia. }
    intros k Hk. destruct (Hv (iova u + k) ltac:(lia)) as (a & Ha & Ha0 & Haa). fold p in Ha, Ha0, Haa. rewrite Hw in Ha. exists a.
    split; [done|]. split; [done|]. rewrite Haa, <- (dma_at_shift B (sg :: r) 0). f_equal; lia.
Qed.
