(* ===== verification/UmemPgsz.v ===== *)
(** * User memory: the best page size

    What [ib_umem_find_best_pgsz] (core/umem.c) returns: the mask of address bits it builds
    leaves exactly the page sizes the segments fit, so that the result is a usable page size
    with as few blocks as any, and the blocks of that size are the memory. *)

From Stdlib Require Import ZArith Lia.
From stdpp Require Import base tactics numbers list option.
From S2P Require Import Prelude Umem.

Local Open Scope Z_scope.

(** ** The best page size *)

(** A page size the device supports and the memory fits at I/O virtual address [virt]. *)
Definition usable (bm virt : Z) (u : ib_umem) (n : Z) : Prop :=
  0 <= n /\ Z.testbit bm n = true /\ fits (2 ^ n) virt (ib_umem_offset u) (sgl u).

Lemma mod_bits z n : 0 <= n -> z mod 2 ^ n = 0 <-> forall i, 0 <= i < n -> Z.testbit z i = false.
Proof.
  intros Hn. split.
  - intros H i Hi. rewrite <- (Z.mod_pow2_bits_low z n i) by lia. rewrite H. apply Z.bits_0.
  - intros H. apply Z.bits_inj'. intros i Hi. rewrite Z.bits_0. destruct (decide (i < n)).
    + rewrite Z.mod_pow2_bits_low by lia. apply H. lia.
    + apply Z.mod_pow2_bits_high. lia.
Qed.

Lemma genmask_bits bm l g n :
  0 <= l -> genmask_from l = Some g -> 0 <= n <= 64 -> Z.land bm g mod 2 ^ n = 0 <-> forall i, l <= i < n -> Z.testbit bm i = false.
Proof.
  intros Hl Hg Hn. unfold genmask_from in Hg. destruct (Z.ltb_spec l 64); simplify_eq. rewrite mod_bits by lia.
  assert (forall i, 0 <= i < 64 -> Z.testbit (Z.shiftl (Z.ones (64 - l)) l) i = (l <=? i)) as Hb.
  { intros i Hi. rewrite Z.shiftl_spec by lia. destruct (Z.leb_spec l i); [apply Z.ones_spec_low; lia|apply Z.testbit_neg_r; lia]. }
  split; intros H' i Hi; specialize (H' i).
  - rewrite Z.land_spec, Hb, (proj2 (Z.leb_le l i)), andb_true_r in H' by lia. apply H'. lia.
  - rewrite Z.land_spec, Hb by lia. destruct (Z.leb_spec l i); [rewrite H' by lia|rewrite andb_false_r]; done.
Qed.

(** The set bits of the bitmap that survive the mask of a number [z]: those up to its trailing
    zeros. *)
Lemma masked_bits bm z i : 0 <= z -> 0 <= i ->
  Z.testbit (if z =? 0 then bm else Z.land bm (Z.ones (count_trailing_zeros z + 1))) i = true <-> Z.testbit bm i = true /\ z mod 2 ^ i = 0.
Proof.
  intros Hz Hi. destruct (Z.eqb_spec z 0) as [->|Hne]; [by rewrite Zmod_0_l; naive_solver|].
  rewrite Z.land_spec, andb_true_iff, Z.testbit_ones_nonneg by (try lia; destruct z; cbn; try lia; pose proof (ctz_pos_nonneg p); lia).
  rewrite ctz_spec, Z.ltb_lt by lia. intuition lia.
Qed.

(** Rounding down to a power of two gives the highest set bit. *)
Lemma highest_bit bm : 0 < bm -> Z.testbit bm (Z.log2 bm) = true /\ forall i, Z.testbit bm i = true -> i <= Z.log2 bm.
Proof.
  intros H. split; [by apply Z.bit_log2|]. intros i Hi. destruct (decide (i <= Z.log2 bm)); [done|].
  rewrite Z.bits_above_log2 in Hi by lia. done.
Qed.

Lemma fits_smaller n m : 0 <= n <= m -> forall l va o, fits (2 ^ m) va o l -> fits (2 ^ n) va o l.
Proof.
  intros Hn. assert (forall z, z mod 2 ^ m = 0 -> z mod 2 ^ n = 0) as HD.
  { intros z. rewrite !mod_bits by lia. intros H i Hi. apply H. lia. }
  induction l as [|sg r IH]; intros va o; cbn; [done|]. intros (H1 & H2 & H3). split_and!; [auto|destruct r; auto|auto].
Qed.

(** *** How many blocks a range takes *)

Lemma blocks_of_last p virt E : 0 < p -> blocks_of p virt E = (E - 1) / p - virt / p + 1.
Proof.
  intros. unfold blocks_of. replace (E + p - 1) with (E - 1 + 1 * p) by lia. rewrite Z.div_add by lia. lia.
Qed.

Lemma lxor_div a b n : 0 <= a -> 0 <= b -> 0 <= n -> Z.lxor a b < 2 ^ n <-> a / 2 ^ n = b / 2 ^ n.
Proof.
  intros Ha Hb Hn. rewrite <- !Z.shiftr_div_pow2 by done. rewrite <- Z.lxor_eq_0_iff, <- Z.shiftr_lxor, Z.shiftr_div_pow2 by done.
  assert (0 <= Z.lxor a b) by (apply Z.lxor_nonneg; lia). rewrite Z.div_small_iff by lia. lia.
Qed.

Lemma div_diff_le q a b : 0 < q -> b <= a -> a / q - b / q <= a - b.
Proof.
  intros Hq Hab. pose proof (Z.div_mod a q ltac:(lia)). pose proof (Z.div_mod b q ltac:(lia)).
  pose proof (Z.mod_pos_bound a q Hq). pose proof (Z.mod_pos_bound b q Hq). pose proof (Z.div_le_mono b a q Hq Hab). nia.
Qed.

Lemma blocks_of_mono n m virt E : 0 <= n <= m -> virt < E -> blocks_of (2 ^ m) virt E <= blocks_of (2 ^ n) virt E.
Proof.
  intros Hn HE. rewrite !blocks_of_last by (apply Z.pow_pos_nonneg; lia).
  replace (2 ^ m) with (2 ^ n * 2 ^ (m - n)) by (rewrite <- Z.pow_add_r by lia; f_equal; lia).
  assert (0 < 2 ^ n /\ 0 < 2 ^ (m - n)) as [P1 P2] by (split; apply Z.pow_pos_nonneg; lia).
  rewrite <- !Z.div_div by lia. pose proof (Z.div_le_mono virt (E - 1) (2 ^ n) P1 ltac:(lia)).
  pose proof (div_diff_le (2 ^ (m - n)) ((E - 1) / 2 ^ n) (virt / 2 ^ n) P2). lia.
Qed.

Lemma blocks_of_one n virt E : 0 <= n -> 0 <= virt < E -> blocks_of (2 ^ n) virt E <= 1 <-> Z.lxor (E - 1) virt < 2 ^ n.
Proof.
  intros Hn HE. assert (0 < 2 ^ n) as P by (apply Z.pow_pos_nonneg; lia). rewrite blocks_of_last, lxor_div by lia.
  pose proof (Z.div_le_mono virt (E - 1) (2 ^ n) P ltac:(lia)). lia.
Qed.

(** A range within one half of the address space takes no more than that. *)
Lemma blocks_of_half n virt E : 0 <= n < 64 -> 0 <= virt < E -> Z.lxor (E - 1) virt < 2 ^ 63 -> blocks_of (2 ^ n) virt E * 2 ^ n < 2 ^ 64.
Proof.
  intros Hn HE Hx. apply lxor_div in Hx; [|lia..]. assert (0 < 2 ^ n) as P by (apply Z.pow_pos_nonneg; lia).
  rewrite blocks_of_last by lia. set (q := 2 ^ (63 - n)). assert (2 ^ 63 = 2 ^ n * q) as HQ by (unfold q; rewrite <- Z.pow_add_r by lia; f_equal; lia).
  assert (0 < q) as Pq by (apply Z.pow_pos_nonneg; lia). rewrite HQ in Hx. rewrite <- !Z.div_div in Hx by lia.
  set (a := (E - 1) / 2 ^ n) in *. set (b := virt / 2 ^ n) in *. pose proof (Z.div_mod a q ltac:(lia)). pose proof (Z.div_mod b q ltac:(lia)).
  pose proof (Z.mod_pos_bound a q Pq). pose proof (Z.mod_pos_bound b q Pq). assert (a - b + 1 <= q) by lia.
  replace (2 ^ 64) with (2 * 2 ^ 63) by done. nia.
Qed.

Lemma bits_per_spec x n : 0 <= x -> bits_per x <= n -> x < 2 ^ n.
Proof.
  intros Hx Hn. unfold bits_per in Hn. destruct (Z.ltb_spec x 2).
  - pose proof (Z.pow_le_mono_r 2 1 n ltac:(lia) Hn). lia.
  - destruct (Z.log2_spec x ltac:(lia)) as [_ H2]. pose proof (Z.pow_le_mono_r 2 (Z.succ (Z.log2 x)) n ltac:(lia) ltac:(lia)). lia.
Qed.

Lemma bits_per_below x n : 0 < n < bits_per x -> 2 ^ n <= x.
Proof.
  intros Hn. unfold bits_per in Hn. destruct (Z.ltb_spec x 2); [lia|]. apply Z.log2_le_pow2; lia.
Qed.

Lemma bits_per_pos x : 0 < bits_per x.
Proof. unfold bits_per. destruct (_ <? _); [lia|]. pose proof (Z.log2_nonneg x). lia. Qed.

(** *** What [ib_umem_find_best_pgsz] returns *)

Lemma pgsz_mask_nonneg : forall l mask va o, 0 <= mask -> 0 <= va -> 0 <= pgsz_mask l mask va o.
Proof.
  induction l as [|sg r IH]; intros mask va o Hm Hv; cbn; [done|].
  assert (forall z, 0 <= u64 z) as HU by (intros; apply Z.mod_pos_bound; done).
  apply IH; [|done]. assert (0 <= Z.lor mask (Z.lxor (u64 (dma_address sg + o)) va)).
  { apply Z.lor_nonneg. split; [done|]. apply Z.lxor_nonneg. pose proof (HU (dma_address sg + o)). lia. }
  destruct r; [done|]. apply Z.lor_nonneg. done.
Qed.

Section best.
Context (bm virt : Z) (u : ib_umem) (Hbm : 0 <= bm < 2 ^ 64) (Hrange : range_ok virt u) (Hlen : 0 < length_ u).
Local Abbreviation last := (virt + length_ u - 1).
Local Abbreviation high := (bits_per (Z.lxor last virt)).

(** The sizes left after the mask: usable, and no supported size from [high] up is below. *)
Definition candidate (n : Z) : Prop := usable bm virt u n /\ forall i, high <= i < n -> Z.testbit bm i = false.

(** The result is the largest candidate; the range does not cross the middle of the address
    space. *)
Lemma best_raw r :
  odp_shift u = None -> ib_umem_find_best_pgsz bm virt u = Some r ->
  high < 64 /\ r.1 = with_iova virt u /\
  ((r.2 = 0 /\ forall n, ~ candidate n) \/ exists g, r.2 = 2 ^ g /\ g < 64 /\ candidate g /\ forall n, candidate n -> n <= g).
Proof using All.
  intros Ho Hr. unfold ib_umem_find_best_pgsz in Hr. change (odp_shift (with_iova virt u)) with (odp_shift u) in Hr. rewrite Ho in Hr.
  destruct Hrange as [R1 R2].
  replace (length_ (with_iova virt u) - 1 + virt) with last in Hr by (cbn; lia). rewrite (u64_id last) in Hr by lia.
  destruct (genmask_from high) as [g|] eqn:Eg; [|done]. cbn -[Z.pow ib_umem_offset] in Hr. injection Hr as <-. cbn -[Z.pow ib_umem_offset].
  split; [by unfold genmask_from in Eg; destruct (Z.ltb_spec high 64)|]. split; [done|].
  change (ib_umem_offset (with_iova virt u)) with (ib_umem_offset u). set (mask := pgsz_mask _ _ _ _).
  assert (0 <= mask) as Hm by (apply pgsz_mask_nonneg; [apply Z.land_nonneg|]; lia).
  assert (forall n, n < 64 -> candidate n <-> 0 <= n /\ Z.testbit bm n = true /\ mask mod 2 ^ n = 0) as Hc.
  { intros n Hn. unfold candidate, usable. destruct (decide (0 <= n)) as [Hn0|]; [|naive_solver].
    unfold mask. rewrite (mask_fits n ltac:(lia) _ _ virt) by done. pose proof (bits_per_pos (Z.lxor last virt)).
    rewrite (genmask_bits bm high g) by (done || lia). naive_solver. }
  assert (forall n, Z.testbit bm n = true -> n < 64) as Hb64.
  { intros n Hn. destruct (decide (n < 64)); [done|]. rewrite <- (Z.mod_small bm (2 ^ 64)), Z.mod_pow2_bits_high in Hn by lia. done. }
  assert (forall n, 0 <= n -> Z.testbit (if mask =? 0 then bm else Z.land bm (Z.ones (count_trailing_zeros mask + 1))) n = true <-> candidate n) as Hbits.
  { intros n Hn. rewrite masked_bits by done. split; [intros [H1 H2]; apply Hc; auto|]. intros HC.
    pose proof HC as [(_ & Hn2 & _) _]. apply (Hc n) in HC; [tauto|auto]. }
  set (bitmap := if mask =? 0 then _ else _) in *.
  assert (0 <= bitmap) as Hbp by (unfold bitmap; destruct (mask =? 0); [lia|apply Z.land_nonneg; lia]).
  destruct (Z.eqb_spec bitmap 0) as [E0|E0].
  - left. split; [done|]. intros n HC. pose proof HC as [(Hn & _) _]. apply (Hbits n Hn) in HC. rewrite E0, Z.bits_0 in HC. done.
  - right. destruct (highest_bit bitmap ltac:(lia)) as [H1 H2]. apply Hbits in H1; [|apply Z.log2_nonneg]. eexists. split; [done|].
    split; [|split; [done|]].
    + destruct H1 as [(_ & H1 & _) _]. auto.
    + intros n HC. apply H2. pose proof HC as [(Hn & _) _]. by apply Hbits.
Qed.

(** A usable size that is no candidate has a candidate from [high] up below it. *)
Lemma candidate_below n : usable bm virt u n -> ~ candidate n -> exists g, candidate g /\ high <= g < n.
Proof using All.
  intros HU HN. pose proof HU as (Hn & _ & Hf). pose proof (bits_per_pos (Z.lxor last virt)) as Hp.
  assert (forall k : nat, (forall i, high <= i < high + Z.of_nat k -> Z.testbit bm i = false) \/
    exists g, high <= g < high + Z.of_nat k /\ Z.testbit bm g = true /\ forall i, high <= i < g -> Z.testbit bm i = false) as Hk.
  { induction k as [|k IH]; [left; lia|]. destruct IH as [IH|(g & G1 & G2 & G3)]; [|right; exists g; split; [lia|done]].
    destruct (Z.testbit bm (high + Z.of_nat k)) eqn:Eb; [right; exists (high + Z.of_nat k); split; [lia|done]|].
    left. intros i Hi. destruct (decide (i = high + Z.of_nat k)) as [->|]; [done|]. apply IH. lia. }
  destruct (Hk (Z.to_nat (n - high))) as [H|(g & G1 & G2 & G3)].
  - exfalso. apply HN. split; [done|]. intros i Hi. apply H. lia.
  - exists g. split; [|lia]. split; [|done]. split; [lia|]. split; [done|]. apply (fits_smaller g n); [lia|done].
Qed.

Lemma best_pgsz r :
  odp_shift u = None -> ib_umem_find_best_pgsz bm virt u = Some r ->
  let E := virt + length_ u in
  (forall n, 0 <= n < 64 -> blocks_of (2 ^ n) virt E * 2 ^ n < 2 ^ 64) /\ r.1 = with_iova virt u /\
  ((r.2 = 0 /\ forall n, ~ usable bm virt u n) \/
   exists g, r.2 = 2 ^ g /\ g < 64 /\ usable bm virt u g /\
     forall n, usable bm virt u n ->
       blocks_of (2 ^ g) virt E <= blocks_of (2 ^ n) virt E /\ (0 < n < g -> 1 < blocks_of (2 ^ n) virt E)).
Proof using All.
  intros Ho Hr E. destruct (best_raw r Ho Hr) as (H1 & H2 & H3). pose proof Hrange as [R1 R2].
  assert (0 <= Z.lxor last virt) as Hx0 by (apply Z.lxor_nonneg; lia).
  assert (Z.lxor (E - 1) virt < 2 ^ 63) as Hx by (apply bits_per_spec; subst E; lia).
  split; [intros n Hn; apply blocks_of_half; lia|]. split; [done|]. destruct H3 as [[H3 H4]|(g & H3 & H4 & H5 & H6)].
  - left. split; [done|]. intros n HU. destruct (candidate_below n HU (H4 n)) as (g & Hg & _). by apply (H4 g).
  - right. exists g. split; [done|]. split; [done|]. split; [apply H5|]. intros n HU. pose proof HU as (Hn & Hbn & _). pose proof H5 as [(Hg & _) H5'].
    split.
    + destruct (decide (n <= g)); [apply blocks_of_mono; lia|].
      destruct (candidate_below n HU ltac:(intros HC; apply H6 in HC; lia)) as (g' & Hg' & Hh).
      apply H6 in Hg'. transitivity 1; [apply blocks_of_one; [lia..|]; apply bits_per_spec; subst E; lia|].
      rewrite blocks_of_last by (apply Z.pow_pos_nonneg; lia). pose proof (Z.div_le_mono virt (E - 1) (2 ^ n) ltac:(apply Z.pow_pos_nonneg; lia) ltac:(lia)). lia.
    + intros Hng. assert (n < high) as Hnh.
      { destruct (decide (n < high)); [done|]. rewrite H5' in Hbn by lia. done. }
      pose proof (bits_per_below _ n ltac:(split; [lia|exact Hnh])) as Hlow. destruct (decide (1 < blocks_of (2 ^ n) virt E)); [done|].
      assert (blocks_of (2 ^ n) virt E <= 1) as HB by lia. apply blocks_of_one in HB; [|lia..]. subst E. lia.
Qed.
End best.

(** A size up to a page fits whenever the addresses agree within it. *)
Lemma small_fits n virt : 0 <= n <= PAGE_SHIFT -> forall l o,
  Forall seg_ok l -> (o - virt) mod 2 ^ n = 0 -> fits (2 ^ n) virt o l.
Proof.
  intros Hn. assert (forall z, z mod PAGE_SIZE = 0 -> z mod 2 ^ n = 0) as HD.
  { intros z. unfold PAGE_SIZE. rewrite !mod_bits by (unfold PAGE_SHIFT in *; lia). intros H i Hi. apply H. lia. }
  assert (forall a b c, a mod 2 ^ n = 0 -> b mod 2 ^ n = 0 -> a + b = c -> c mod 2 ^ n = 0) as HA.
  { intros a b c Ha Hb <-. by rewrite Zplus_mod, Ha, Hb. }
  intros l. revert virt. induction l as [|sg r IH]; intros virt o HF Ho; cbn; [done|].
  apply Forall_cons_1 in HF as [(H1 & H2 & H3 & H4 & H5) HF].
  assert ((virt + dma_len sg - o) mod 2 ^ n = 0) as Hv.
  { apply (HA (dma_len sg) (- (o - virt))); [auto| |lia]. by apply Z_mod_zero_opp_full. }
  split_and!; [apply (HA (dma_address sg) (o - virt)); [auto|done|lia]|by destruct r|].
  apply IH; [done|]. rewrite Z.sub_0_l. by apply Z_mod_zero_opp_full.
Qed.

(** ** What the functions promise *)

Lemma has_flag_testbit bm n : 0 <= n -> has_flag bm (2 ^ n) = Z.testbit bm n.
Proof.
  intros Hn. unfold has_flag, truthy. assert (Z.land bm (2 ^ n) = if Z.testbit bm n then 2 ^ n else 0) as ->.
  { apply Z.bits_inj'. intros i Hi. rewrite Z.land_spec, Z.pow2_bits_eqb by lia. destruct (Z.eqb_spec n i) as [->|Hne].
    - rewrite andb_true_r. destruct (Z.testbit bm i); [by rewrite Z.pow2_bits_true|by rewrite Z.bits_0].
    - rewrite andb_false_r. destruct (Z.testbit bm n); [by rewrite Z.pow2_bits_false|by rewrite Z.bits_0]. }
  destruct (Z.testbit bm n); [|done]. rewrite (proj2 (Z.eqb_neq _ _)) by (pose proof (Z.pow_pos_nonneg 2 n); lia). done.
Qed.

(** Memory paged on demand has the one page size it was set up with. *)
Lemma odp_pgsz bm virt u shift : odp_shift u = Some shift -> 0 <= shift < 32 -> exists pg,
  ib_umem_find_best_pgsz bm virt u = Some (with_iova virt u, pg) /\ pg = if Z.testbit bm shift then 2 ^ shift else 0.
Proof.
  intros Ho Hs. unfold ib_umem_find_best_pgsz. change (odp_shift (with_iova virt u)) with (odp_shift u). rewrite Ho.
  eexists. split; [reflexivity|]. assert (2 ^ shift < 2 ^ 32) by (apply Z.pow_lt_mono_r; lia).
  rewrite u32_id by (split; [apply Z.pow_nonneg|]; lia). by rewrite has_flag_testbit by lia.
Qed.

Lemma best_blocks bm virt u u' pg :
  0 <= bm < 2 ^ 64 -> umem_ok u -> range_ok virt u -> odp_shift u = None ->
  ib_umem_find_best_pgsz bm virt u = Some (u', pg) -> pg <> 0 ->
  let m := ib_umem_num_dma_blocks u' pg in
  exists l, umem_dma_blocks (S (Z.to_nat m)) (rdma_umem_block_iter_start u' pg) = Some l /\ Z.of_nat (length l) = m /\
    forall k, 0 <= k < length_ u ->
      exists a, l !! Z.to_nat ((virt + k) / pg - virt / pg) = Some a /\ a mod pg = 0 /\
        a + (virt + k) mod pg = dma_at 0 (sgl u) (ib_umem_offset u + k).
Proof.
  intros Hbm Hok Hr Ho Hf Hpg. pose proof Hok as (_ & _ & Hl & _).
  destruct (best_pgsz bm virt u Hbm Hr Hl (u', pg) Ho Hf) as (H1 & H2 & [[H3 _]|(g & H3 & H4 & (H5 & _ & H6) & _)]); [done|].
  cbn in H2, H3. subst u' pg. apply (blocks_are_memory g (with_iova virt u)); [lia|done..|]. apply H1. lia.
Qed.

(** the blocks of the page size [ib_umem_find_best_pgsz] returns are the memory. The
    iterator makes exactly [ib_umem_num_dma_blocks] of them, each aligned to the page size, and
    the device, which looks for the byte at offset [k] in the block its I/O virtual address falls
    into, finds the [k]th byte of the memory there. *)
Theorem umem_blocks_correct bm virt u u' pg :
  0 <= bm < 2 ^ 64 -> umem_ok u -> range_ok virt u -> odp_shift u = None ->
  ib_umem_find_best_pgsz bm virt u = Some (u', pg) -> pg <> 0 ->
  let m := ib_umem_num_dma_blocks u' pg in
  exists l, umem_dma_blocks (S (Z.to_nat m)) (rdma_umem_block_iter_start u' pg) = Some l /\ Z.of_nat (length l) = m /\
    forall k, 0 <= k < length_ u ->
      exists a, l !! Z.to_nat ((virt + k) / pg - virt / pg) = Some a /\ a mod pg = 0 /\
        a + (virt + k) mod pg = dma_at 0 (sgl u) (ib_umem_offset u + k).
Proof. apply best_blocks. Qed.

(** C23. [ib_umem_find_best_pgsz] returns 0 exactly if no supported page size can pass the
    addresses through to the DMA addresses, and else a usable size that takes no more blocks than
    any other usable size; a smaller usable size (but single bytes) takes more than one block. *)
Theorem umem_pgsz_best bm virt u u' pg :
  0 <= bm < 2 ^ 64 -> range_ok virt u -> 0 < length_ u -> odp_shift u = None ->
  ib_umem_find_best_pgsz bm virt u = Some (u', pg) ->
  u' = with_iova virt u /\ (pg = 0 <-> forall n, ~ usable bm virt u n) /\
  (pg <> 0 -> exists g, pg = 2 ^ g /\ usable bm virt u g /\
     forall n, usable bm virt u n ->
       ib_umem_num_dma_blocks u' pg <= ib_umem_num_dma_blocks u' (2 ^ n) /\
       (0 < n < g -> 1 < ib_umem_num_dma_blocks u' (2 ^ n))).
Proof.
  intros Hbm Hr Hl Ho Hf. destruct (best_pgsz bm virt u Hbm Hr Hl (u', pg) Ho Hf) as (H1 & H2 & H3). cbn in H2, H3.
  split; [done|]. assert (forall n, usable bm virt u n -> n < 64) as Hb64.
  { intros n (_ & Hn & _). destruct (decide (n < 64)); [done|]. rewrite <- (Z.mod_small bm (2 ^ 64)), Z.mod_pow2_bits_high in Hn by lia. done. }
  assert (forall n, 0 <= n < 64 -> ib_umem_num_dma_blocks u' (2 ^ n) = blocks_of (2 ^ n) virt (virt + length_ u)) as Hnum.
  { intros n Hn. subst u'. apply (num_blocks n (with_iova virt u)); [done|done|cbn; lia|]. by apply H1. }
  destruct H3 as [[H3 H4]|(g & H3 & H4 & H5 & H6)].
  - split; [done|]. intros; congruence.
  - assert (pg <> 0) as Hpg by (pose proof (Z.pow_pos_nonneg 2 g); destruct H5; lia). split; [naive_solver|]. intros _. exists g.
    split; [done|]. split; [done|]. intros n Hn. pose proof (Hb64 n Hn). pose proof Hn as [Hn0 _]. pose proof H5 as [Hg0 _].
    subst pg. rewrite !Hnum by lia. apply H6. done.
Qed.

(** a device that supports a page size up to [PAGE_SIZE] is never refused, if the I/O
    virtual address and the user's address agree within that size. *)
Theorem umem_page_size_enough bm virt u u' pg n :
  0 <= bm < 2 ^ 64 -> umem_ok u -> range_ok virt u -> odp_shift u = None ->
  ib_umem_find_best_pgsz bm virt u = Some (u', pg) ->
  0 <= n <= PAGE_SHIFT -> Z.testbit bm n = true -> (address u - virt) mod 2 ^ n = 0 -> pg <> 0.
Proof.
  intros Hbm (HF & _ & Hl & _) Hr Ho Hf Hn Hb Ha Hpg.
  destruct (best_pgsz bm virt u Hbm Hr Hl (u', pg) Ho Hf) as (_ & _ & [[_ H4]|(g & H3 & _ & [H5 _] & _)]).
  - apply (H4 n). split; [lia|]. split; [done|]. apply small_fits; [done..|].
    unfold ib_umem_offset, PAGE_SIZE. apply mod_shift in Ha; [|apply Z.pow_pos_nonneg; lia].
    rewrite Zminus_mod, <- Ha, Z.mod_mod_divide; [by rewrite Z.sub_diag|].
    exists (2 ^ (PAGE_SHIFT - n)). rewrite <- Z.pow_add_r by lia. f_equal. lia.
  - cbn in H3. pose proof (Z.pow_pos_nonneg 2 g). lia.
Qed.

(** ** A memory region *)

(** 19000 bytes from offset 0x234 of a page on: five pages in two segments, registered at the
    I/O virtual address 0x7002234. *)
Definition umem1 : ib_umem :=
  {| iova := 0; length_ := 19000; address := 0x555000234; odp_shift := None;
     sgl := [{| dma_address := 0x80002000; dma_len := 0x2000 |}; {| dma_address := 0x90008000; dma_len := 0x3000 |}] |}.

Lemma umem1_ok : umem_ok umem1.
Proof. split_and!; [repeat (apply Forall_cons_2; [vm_compute; split_and!; done|]); apply Forall_nil_2|vm_compute; split_and?; done..]. Qed.

Definition virt1 : Z := 0x7002234.

Lemma umem_blocks_correct_witness :
  exists l, umem_dma_blocks 3 (rdma_umem_block_iter_start (with_iova virt1 umem1) 16384) = Some l /\ Z.of_nat (length l) = 2 /\
    forall k, 0 <= k < 19000 ->
      exists a, l !! Z.to_nat ((virt1 + k) / 16384 - virt1 / 16384) = Some a /\ a mod 16384 = 0 /\
        a + (virt1 + k) mod 16384 = dma_at 0 (sgl umem1) (564 + k).
Proof.
  exact (umem_blocks_correct 0x7000 virt1 umem1 (with_iova virt1 umem1) 16384 ltac:(split; done) umem1_ok
    ltac:(split; vm_compute; done) eq_refl ltac:(vm_compute; reflexivity) ltac:(done)).
Defined.

Lemma umem_pgsz_best_witness :
  ib_umem_find_best_pgsz 0x7000 virt1 umem1 = Some (with_iova virt1 umem1, 16384) /\
  exists g, 16384 = 2 ^ g /\ usable 0x7000 virt1 umem1 g.
Proof.
  split; [vm_compute; reflexivity|].
  destruct (umem_pgsz_best 0x7000 virt1 umem1 (with_iova virt1 umem1) 16384) as (_ & _ & H);
    [split; done|split; vm_compute; done|vm_compute; done|done|vm_compute; reflexivity|].
  destruct (H ltac:(done)) as (g & Hg & HU & _). by exists g.
Defined.

Lemma umem_page_size_enough_witness :
  exists pg, ib_umem_find_best_pgsz 0x1000 0x3234 umem1 = Some (with_iova 0x3234 umem1, pg) /\ pg <> 0.
Proof.
  exists 4096. split; [vm_compute; reflexivity|].
  apply (umem_page_size_enough 0x1000 0x3234 umem1 (with_iova 0x3234 umem1) 4096 12);
    [split; done|apply umem1_ok|split; vm_compute; done|done|vm_compute; reflexivity|done|done|vm_compute; reflexivity].
Defined.

(** The size returned is not always the smallest one that takes the fewest blocks: two pages
    that straddle a block of 8 KiB take two blocks of either size. *)
Lemma pgsz_not_smallest :
  let u := {| iova := 0; length_ := 0x2000; address := 0x1000; odp_shift := None; sgl := [{| dma_address := 0x1000; dma_len := 0x2000 |}] |} in
  let u' := with_iova 0x1000 u in
  ib_umem_find_best_pgsz 0x3000 0x1000 u = Some (u', 0x2000) /\
  ib_umem_find_best_pgsz 0x1000 0x1000 u = Some (u', 0x1000) /\
  ib_umem_num_dma_blocks u' 0x2000 = 2 /\ ib_umem_num_dma_blocks u' 0x1000 = 2.
Proof. vm_compute. done. Qed.
