(* ===== verification/UmemPin.v ===== *)
(** * User memory: pinning, accounting and release

    [ib_umem_get] (core/umem.c) pins the pages of a range of a process, counts them against the
    process's limit, gathers them into a scatter list ([ib_umem_add_sg_table]) and maps that list
    for DMA; [ib_umem_release] undoes it. The code is the one for kernels whose scatter lists do
    not append by themselves. Peer memory, DMA buffers and on-demand paging are other kinds of
    memory, with functions of their own. Proved: [ib_umem_get] always returns, leaves no trace
    when it fails, and when it succeeds the pages of the scatter list are those of the range; a
    device that goes through the blocks of UmemPgsz.v reaches the user's bytes. *)

From Stdlib Require Import ZArith Lia.
From stdpp Require Import base tactics numbers list option gmultiset gmap.
From S2P Require Import Prelude Umem UmemPgsz.

Local Open Scope Z_scope.

(** ** Data *)

(** An entry of a scatter list: page frame number and length in bytes. *)
Record sge := {
  sg_page : Z;
  sg_length : Z
}.

(** What the functions change: the process's count of pinned pages, the pins on pages, the pages
    marked dirty, the references to the process's memory, the live DMA mappings. *)
Record mm_state := {
  pinned_vm : Z;
  pins : gmultiset Z;
  dirty : gset Z;
  mm_count : Z;
  dma_maps : Z
}.

(** The kernel around: permissions, allocations, the pages behind the addresses, DMA mapping.
    [pin_user_pages_fast cur_base n] is an error or the frames of the first pages. *)
Record env := {
  can_do_mlock : bool;
  cap_ipc_lock : bool;
  rlimit_memlock : Z;
  kzalloc_ok : bool;
  get_free_page_ok : bool;
  sg_alloc_table_ret : Z;
  max_seg_size : Z;
  pin_user_pages_fast : Z -> Z -> Z + list Z;
  ib_dma_map_sg : list sge -> list sg_dma
}.

(** The [nmap] of the code is the length of [sgl]. *)
Record umem := {
  ub : ib_umem;
  writable : bool;
  sg_head : list sge;
  sg_nents : Z
}.

Definition EPERM : Z := 1.
Definition EOPNOTSUPP : Z := 95.
Definition UINT_MAX : Z := 2 ^ 32 - 1.

Definition IB_ACCESS_LOCAL_WRITE : Z := 1.
Definition IB_ACCESS_REMOTE_WRITE : Z := 2.
Definition IB_ACCESS_REMOTE_ATOMIC : Z := 8.
Definition IB_ACCESS_MW_BIND : Z := 16.
Definition IB_ACCESS_ON_DEMAND : Z := 64.

Definition ib_access_writable (access : Z) : bool :=
  has_flag access (Z.lor (Z.lor IB_ACCESS_LOCAL_WRITE IB_ACCESS_REMOTE_WRITE) (Z.lor IB_ACCESS_REMOTE_ATOMIC IB_ACCESS_MW_BIND)).

Definition ib_umem_num_pages (u : ib_umem) : Z := ib_umem_num_dma_blocks u PAGE_SIZE.

(** ** Gathering pages into a scatter list *)

(** The contiguous pages from the head of the list on, at most [room]: their number, and the
    rest. *)
Fixpoint take_run (room pfn : Z) (pages : list Z) : Z * list Z :=
  match pages with
  | [] => (0, [])
  | q :: r => if (pfn =? q) && (0 <? room) then let '(len, rest) := take_run (room - 1) (pfn + 1) r in (1 + len, rest) else (0, pages)
  end.

(** The outer loop of [ib_umem_add_sg_table]. The table holds [cap] entries; [t] is the part in
    use, the current entry first. [None]: the table is full, or no round takes a page. *)
Fixpoint add_pages (fuel : nat) (cap max_seg_sz : Z) (update_cur_sg : bool) (pages : list Z) (t : list sge) (nents : Z) : option (list sge * Z) :=
  match pages, fuel with
  | [], _ => Some (t, nents)
  | _, O => None
  | first_page :: _, S fuel =>
      let '(len, rest) := take_run (Z.shiftr max_seg_sz PAGE_SHIFT) first_page pages in
      let bytes := u64 (Z.shiftl len PAGE_SHIFT) in
      let next :=
        if Z.of_nat (length t) <? cap
        then add_pages fuel cap max_seg_sz false rest ({| sg_page := first_page; sg_length := u32 bytes |} :: t) (u32 (nents + 1))
        else None in
      match t with
      | sg :: t' =>
          if update_cur_sg && (bytes <=? u32 (max_seg_sz - sg_length sg))
          then add_pages fuel cap max_seg_sz false rest ({| sg_page := sg_page sg; sg_length := u32 (sg_length sg + bytes) |} :: t') nents
          else next
      | [] => next
      end
  end.

Definition ib_umem_add_sg_table (cap max_seg_sz : Z) (t : list sge) (pages : list Z) (nents : Z) : option (list sge * Z) :=
  let update_cur_sg :=
    match t, pages with sg :: _, p0 :: _ => sg_page sg + Z.shiftr (sg_length sg) PAGE_SHIFT =? p0 | _, _ => false end in
  add_pages (length pages) cap max_seg_sz update_cur_sg pages t nents.

(** ** Pinning and releasing *)

Definition with_pinned (n : Z) (s : mm_state) : mm_state :=
  {| pinned_vm := u64 n; pins := pins s; dirty := dirty s; mm_count := mm_count s; dma_maps := dma_maps s |}.
Definition with_pins (p : gmultiset Z) (d : gset Z) (s : mm_state) : mm_state :=
  {| pinned_vm := pinned_vm s; pins := p; dirty := d; mm_count := mm_count s; dma_maps := dma_maps s |}.
Definition with_maps (n : Z) (s : mm_state) : mm_state :=
  {| pinned_vm := pinned_vm s; pins := pins s; dirty := dirty s; mm_count := mm_count s; dma_maps := n |}.
Definition with_mm (n : Z) (s : mm_state) : mm_state :=
  {| pinned_vm := pinned_vm s; pins := pins s; dirty := dirty s; mm_count := n; dma_maps := dma_maps s |}.

Definition mmgrab (s : mm_state) : mm_state := with_mm (mm_count s + 1) s.
Definition mmdrop (s : mm_state) : mm_state := with_mm (mm_count s - 1) s.

Definition unpin_page (make_dirty : bool) (s : mm_state) (p : Z) : mm_state :=
  with_pins (pins s ∖ {[+ p +]}) (if make_dirty then {[ p ]} ∪ dirty s else dirty s) s.

(** The pages of an entry, in [for_each_sg_page]. *)
Definition pages_of (sg : sge) : list Z := seqZ (sg_page sg) (Z.shiftr (ALIGN (sg_length sg) PAGE_SIZE) PAGE_SHIFT).

Definition __ib_umem_release (u : umem) (dirty_ : bool) (s : mm_state) : mm_state :=
  let s := match sgl (ub u) with [] => s | _ => with_maps (dma_maps s - 1) s end in
  foldl (unpin_page (writable u && dirty_)) s (take (Z.to_nat (sg_nents u)) (sg_head u) ≫= pages_of).

(** The loop of [__ib_umem_get] that pins: the last result, the table and the state it leaves.
    A page of pointers is pinned at a time. *)
Fixpoint pin_pages (fuel : nat) (e : env) (cap cur_base npages : Z) (t : list sge) (nents : Z) (s : mm_state) :
    option (Z * list sge * Z * mm_state) :=
  if npages =? 0 then Some (0, t, nents, s) else
  match fuel with
  | O => None
  | S fuel =>
      match pin_user_pages_fast e cur_base (Z.min npages (PAGE_SIZE / 8)) with
      | inl ret => Some (ret, t, nents, s)
      | inr page_list =>
          let ret := Z.of_nat (length page_list) in
          let s := with_pins (list_to_set_disj page_list ⊎ pins s) (dirty s) s in
          '(t, nents) ← ib_umem_add_sg_table cap (max_seg_size e) t page_list nents;
          pin_pages fuel e cap (u64 (cur_base + ret * PAGE_SIZE)) (u64 (npages - ret)) t nents s
      end
  end.

(** [__ib_umem_get] without peer memory; [None] is a loop that does not end or an access past
    the scatter list. *)
Definition ib_umem_get (e : env) (addr size access : Z) (s : mm_state) : option ((Z + umem) * mm_state) :=
  if (u64 (addr + size) <? addr) || (ALIGN (u64 (addr + size)) PAGE_SIZE <? u64 (addr + size)) then Some (inl (err EINVAL), s) else
  if negb (can_do_mlock e) then Some (inl (err EPERM), s) else
  if has_flag access IB_ACCESS_ON_DEMAND then Some (inl (err EOPNOTSUPP), s) else
  if negb (kzalloc_ok e) then Some (inl (err ENOMEM), s) else
  let b := {| iova := addr; length_ := size; address := addr; odp_shift := None; sgl := [] |} in
  let s := mmgrab s in
  let fail ret s := Some (inl ret, mmdrop s) in
  if negb (get_free_page_ok e) then fail (err ENOMEM) s else
  let npages := ib_umem_num_pages b in
  if (npages =? 0) || (UINT_MAX <? npages) then fail (err EINVAL) s else
  let lock_limit := Z.shiftr (rlimit_memlock e) PAGE_SHIFT in
  let new_pinned := u64 (pinned_vm s + npages) in
  let s := with_pinned (pinned_vm s + npages) s in
  let vma ret s := fail ret (with_pinned (pinned_vm s - ib_umem_num_pages b) s) in
  if (lock_limit <? new_pinned) && negb (cap_ipc_lock e) then fail (err ENOMEM) (with_pinned (pinned_vm s - npages) s) else
  if negb (sg_alloc_table_ret e =? 0) then vma (sg_alloc_table_ret e) s else
  '(ret, t, nents, s) ← pin_pages (Z.to_nat npages) e npages (addr - addr mod PAGE_SIZE) npages [] 0 s;
  let u := {| ub := b; writable := ib_access_writable access; sg_head := rev t; sg_nents := nents |} in
  if ret <? 0 then vma ret (__ib_umem_release u false s) else
  match ib_dma_map_sg e (rev t) with
  | [] => vma (err ENOMEM) (__ib_umem_release u false s)
  | l =>
      Some (inr {| ub := {| iova := addr; length_ := size; address := addr; odp_shift := None; sgl := l |};
                   writable := writable u; sg_head := rev t; sg_nents := nents |},
            with_maps (dma_maps s + 1) s)
  end.

Definition ib_umem_release (u : umem) (s : mm_state) : mm_state :=
  let s := __ib_umem_release u true s in
  mmdrop (with_pinned (pinned_vm s - ib_umem_num_pages (ub u)) s).

(** ** Scatter lists of whole pages *)

Definition sge_ok (max_seg_sz : Z) (sg : sge) : Prop := 0 < sg_length sg <= max_seg_sz /\ sg_length sg mod PAGE_SIZE = 0.

(** The pages of a table in use. *)
Definition table_pages (t : list sge) : list Z := rev t ≫= pages_of.

Lemma PAGE_SIZE_eq : PAGE_SIZE = 4096.
Proof. done. Qed.

Lemma ALIGN_page x : 0 <= x -> x + 4095 < 2 ^ 64 -> ALIGN x PAGE_SIZE = (x + 4095) / 4096 * 4096.
Proof.
  intros H1 H2. unfold ALIGN. rewrite PAGE_SIZE_eq, u64_id by lia. change 4096 with (2 ^ 12) at 2. rewrite ldiff_pow2 by lia.
  change (2 ^ 12) with 4096. pose proof (Z.div_mod (x + (4096 - 1)) 4096). replace (x + 4095) with (x + (4096 - 1)) by lia. lia.
Qed.

Lemma pages_of_ok max_seg_sz sg : max_seg_sz < 2 ^ 32 -> sge_ok max_seg_sz sg -> pages_of sg = seqZ (sg_page sg) (sg_length sg / 4096).
Proof.
  intros Hm [H1 H2]. unfold pages_of. rewrite ALIGN_page by lia. rewrite PAGE_SIZE_eq in H2. f_equal.
  rewrite Z.shiftr_div_pow2 by done. change (2 ^ PAGE_SHIFT) with 4096. rewrite Z.div_mul by done.
  pose proof (Z.div_mod (sg_length sg) 4096). symmetry. apply Z.div_unique with (r := 4095); lia.
Qed.

Lemma take_run_spec : forall pages room pfn len rest,
  take_run room pfn pages = (len, rest) ->
  pages = seqZ pfn len ++ rest /\ 0 <= len <= Z.max 0 room /\ (head pages = Some pfn -> 0 < room -> 0 < len).
Proof.
  induction pages as [|q r IH]; intros room pfn len rest H; cbn in H; [simplify_eq; split_and!; [done|lia|lia|done]|].
  destruct (Z.eqb_spec pfn q) as [->|Hne]; cbn in H; [|simplify_eq; split_and!; [done|lia|lia|cbn; congruence]].
  destruct (Z.ltb_spec 0 room); cbn in H; [|simplify_eq; split_and!; [done|lia..]].
  destruct (take_run (room - 1) (q + 1) r) as [len' rest'] eqn:E. simplify_eq. destruct (IH _ _ _ _ E) as (H1 & H2 & _).
  split_and!; [|lia|lia|lia]. rewrite H1 at 1. rewrite (seqZ_cons q) by lia. cbn. f_equal. f_equal. f_equal; lia.
Qed.

(** The pages go to the end of the table, in order; the table does not grow by more entries than
    there are pages. *)
Lemma add_pages_ok cap mx : 4096 <= mx < 2 ^ 32 -> forall fuel upd pages t nents,
  (length pages <= fuel)%nat -> Forall (sge_ok mx) t -> Z.of_nat (length t + length pages) <= cap ->
  (upd = true -> exists sg t' p0 r, t = sg :: t' /\ pages = p0 :: r /\ sg_page sg + sg_length sg / 4096 = p0) ->
  nents = Z.of_nat (length t) -> cap < 2 ^ 32 ->
  exists t', add_pages fuel cap mx upd pages t nents = Some (t', Z.of_nat (length t')) /\
    table_pages t' = table_pages t ++ pages /\ Forall (sge_ok mx) t' /\ (length t' <= length t + length pages)%nat.
Proof.
  intros Hmx. induction fuel as [|fuel IH]; intros upd pages t nents Hf Ht Hcap Hupd -> Hcap32.
  { destruct pages; [|cbn in Hf; lia]. exists t. split_and!; [done| |done|lia]. by rewrite app_nil_r. }
  destruct pages as [|p0 r]; [exists t; split_and!; [done| |done|lia]; by rewrite app_nil_r|]. cbn -[take_run].
  destruct (take_run _ p0 (p0 :: r)) as [len rest] eqn:ER. destruct (take_run_spec _ _ _ _ _ ER) as (R1 & R2 & R3).
  rewrite Z.shiftr_div_pow2 in R2, R3 by done. change (2 ^ PAGE_SHIFT) with 4096 in *.
  assert (1 <= mx / 4096) as Hroom by (apply Z.div_le_lower_bound; lia). specialize (R3 eq_refl ltac:(lia)).
  assert (len * 4096 <= mx) as Hlen by (pose proof (Z.mul_div_le mx 4096 ltac:(lia)); lia).
  assert (u64 (Z.shiftl len PAGE_SHIFT) = len * 4096) as Hb by (rewrite Z.shiftl_mul_pow2 by done; apply u64_id; change (2 ^ PAGE_SHIFT) with 4096; lia).
  rewrite Hb, (u32_id (len * 4096)) by lia.
  assert (length (p0 :: r) = Z.to_nat len + length rest)%nat as Hl by (rewrite R1, length_app, length_seqZ; done). cbn in Hl, Hf, Hcap.
  set (sgn := {| sg_page := p0; sg_length := len * 4096 |}).
  assert (sge_ok mx sgn) as Hsn by (split; [cbn; lia|]; cbn; rewrite PAGE_SIZE_eq; apply Z.mod_mul; lia).
  assert (pages_of sgn = seqZ p0 len) as Hpn by (rewrite (pages_of_ok mx) by (done || lia); cbn; by rewrite Z.div_mul by lia).
  assert (exists t', (if Z.of_nat (length t) <? cap then add_pages fuel cap mx false rest (sgn :: t) (u32 (Z.of_nat (length t) + 1)) else None)
      = Some (t', Z.of_nat (length t')) /\ table_pages t' = table_pages t ++ p0 :: r /\ Forall (sge_ok mx) t' /\ (length t' <= length t + length (p0 :: r))%nat) as Hnext.
  { rewrite (proj2 (Z.ltb_lt _ _)) by lia. rewrite u32_id by lia.
    destruct (IH false rest (sgn :: t) (Z.of_nat (length t) + 1)) as (t' & -> & T1 & T2 & T3);
      [lia|by apply Forall_cons_2|cbn; lia|done|cbn; lia|done|].
    exists t'. split_and!; [done| |done|cbn in *; lia]. rewrite T1, R1. unfold table_pages. cbn. rewrite bind_app. cbn. by rewrite Hpn, app_nil_r, <- app_assoc. }
  destruct t as [|sg t0]; [exact Hnext|]. destruct upd; [|exact Hnext]. cbn -[length].
  destruct (Z.leb_spec (len * 4096) (u32 (mx - sg_length sg))) as [Hfit|]; [|exact Hnext].
  apply Forall_cons_1 in Ht as [Hsg Ht]. pose proof Hsg as [S1 S2]. rewrite u32_id in Hfit by lia.
  rewrite (u32_id (sg_length sg + len * 4096)) by lia. set (sgu := {| sg_page := sg_page sg; sg_length := sg_length sg + len * 4096 |}).
  rewrite PAGE_SIZE_eq in S2.
  assert (sge_ok mx sgu) as Hsu by (split; [cbn; lia|]; cbn; rewrite PAGE_SIZE_eq, Z.mod_add by lia; done).
  destruct (Hupd eq_refl) as (? & ? & ? & ? & [= <- <-] & [= <- <-] & Hc).
  destruct (IH false rest (sgu :: t0) (Z.of_nat (length (sg :: t0)))) as (t' & -> & T1 & T2 & T3);
    [lia|by apply Forall_cons_2|cbn in *; lia|done|done|done|].
  exists t'. split_and!; [done| |done|cbn in *; lia]. rewrite T1, R1. unfold table_pages. cbn. rewrite !bind_app. cbn.
  rewrite !app_nil_r, <- !app_assoc. f_equal. rewrite app_assoc. f_equal. rewrite !(pages_of_ok mx) by (done || lia). cbn.
  rewrite Z.div_add by lia. rewrite seqZ_app by (try lia; apply Z.div_pos; lia). by rewrite Hc.
Qed.

Lemma add_sg_table_ok cap mx t pages nents : 4096 <= mx < 2 ^ 32 -> Forall (sge_ok mx) t ->
  Z.of_nat (length t + length pages) <= cap < 2 ^ 32 -> nents = Z.of_nat (length t) ->
  exists t', ib_umem_add_sg_table cap mx t pages nents = Some (t', Z.of_nat (length t')) /\
    table_pages t' = table_pages t ++ pages /\ Forall (sge_ok mx) t' /\ (length t' <= length t + length pages)%nat.
Proof.
  intros Hmx Ht Hc ->. apply add_pages_ok; try done; try lia. intros Hu. destruct t as [|sg t0], pages as [|p0 r]; try done.
  apply Z.eqb_eq in Hu. rewrite Z.shiftr_div_pow2 in Hu by done. eauto 10.
Qed.

(** ** The kernel around *)

Fixpoint phys_at (B : Z) (l : list sge) (k : Z) : Z :=
  match l with
  | [] => 0
  | sg :: r => if k <? B + sg_length sg then sg_page sg * PAGE_SIZE + (k - B) else phys_at (B + sg_length sg) r k
  end.

Definition sge_total (l : list sge) : Z := foldr (fun sg n => sg_length sg + n) 0 l.
Definition dma_total (l : list sg_dma) : Z := foldr (fun sg n => dma_len sg + n) 0 l.

(** The documented behaviour of the functions of the kernel. [pt] is the process's page table
    (page number to frame), [iommu] what the bus makes of a DMA address: pinning fails or pins at
    least one page; mapping fails or gives segments of whole pages, no more than there were, that
    lead to the same memory. *)
Record env_ok (e : env) (pt iommu : Z -> Z) : Prop := {
  eo_seg : PAGE_SIZE <= max_seg_size e < 2 ^ 32;
  eo_alloc : sg_alloc_table_ret e <= 0;
  eo_pin : forall base n, 0 < n -> base mod PAGE_SIZE = 0 ->
    match pin_user_pages_fast e base n with
    | inl ret => ret < 0
    | inr l => 0 < Z.of_nat (length l) <= n /\ l = pt <$> seqZ (base / PAGE_SIZE) (Z.of_nat (length l))
    end;
  eo_map : forall t, t <> [] -> Forall (sge_ok (max_seg_size e)) t ->
    let l := ib_dma_map_sg e t in
    l = [] \/ (Forall seg_ok l /\ (length l <= length t)%nat /\ dma_total l = sge_total t /\
               forall k, 0 <= k < sge_total t -> iommu (dma_at 0 l k) = phys_at 0 t k)
}.

(** ** Pins *)

Lemma with_pins_id s P D : P = pins s -> D = dirty s -> with_pins P D s = s.
Proof. intros -> ->. by destruct s. Qed.

Lemma no_pins s : with_pins (list_to_set_disj [] ⊎ pins s) (dirty s) s = s.
Proof. apply with_pins_id; [|done]. rewrite list_to_set_disj_nil. multiset_solver. Qed.

Lemma foldl_unpin d : forall l s,
  foldl (unpin_page d) s l = with_pins (pins s ∖ list_to_set_disj l) (if d then list_to_set l ∪ dirty s else dirty s) s.
Proof.
  induction l as [|p l IH]; intros s.
  - cbn [foldl]. symmetry. apply with_pins_id; [rewrite list_to_set_disj_nil; multiset_solver|destruct d; set_solver].
  - cbn [foldl]. rewrite IH, list_to_set_disj_cons. unfold unpin_page, with_pins; cbn [pinned_vm pins dirty mm_count dma_maps]. f_equal; [|destruct d; set_solver].
    apply gmultiset_eq. intros x. rewrite !multiplicity_difference, multiplicity_disj_union. lia.
Qed.

(** Releasing what a table holds gives back its pins. *)
Lemma release_ok u d s l :
  sg_nents u = Z.of_nat (length (sg_head u)) -> sg_head u ≫= pages_of = l ->
  __ib_umem_release u d (with_pins (list_to_set_disj l ⊎ pins s) (dirty s) s) =
  with_pins (pins s) (if writable u && d then list_to_set l ∪ dirty s else dirty s)
    (match sgl (ub u) with [] => s | _ => with_maps (dma_maps s - 1) s end).
Proof.
  intros Hn Hl. unfold __ib_umem_release. rewrite foldl_unpin, Hn, Nat2Z.id, take_ge, Hl by lia.
  destruct (sgl (ub u)); unfold with_pins, with_maps; cbn [pinned_vm pins dirty mm_count dma_maps]; f_equal; apply gmultiset_eq; intros x;
    rewrite multiplicity_difference, multiplicity_disj_union; lia.
Qed.

(** ** The loop *)

Section get.
Context (e : env) (pt iommu : Z -> Z) (He : env_ok e pt iommu).
Local Abbreviation mx := (max_seg_size e).

Lemma pin_pages_ok cap fuel : cap < 2 ^ 32 -> forall base n t s,
  0 <= n <= Z.of_nat fuel -> 0 <= base -> base mod PAGE_SIZE = 0 -> (n <> 0 -> base + n * PAGE_SIZE <= 2 ^ 64) ->
  Forall (sge_ok mx) t -> Z.of_nat (length t) + n <= cap ->
  exists ret t' m, let l := pt <$> seqZ (base / PAGE_SIZE) m in
    pin_pages fuel e cap base n t (Z.of_nat (length t)) s =
      Some (ret, t', Z.of_nat (length t'), with_pins (list_to_set_disj l ⊎ pins s) (dirty s) s) /\
    0 <= m <= n /\ ret <= 0 /\ (ret = 0 -> m = n) /\ table_pages t' = table_pages t ++ l /\ Forall (sge_ok mx) t' /\
    Z.of_nat (length t') <= Z.of_nat (length t) + m.
Proof using He.
  intros Hcap. destruct He as [E1 E2 E3 _]. rewrite PAGE_SIZE_eq in *.
  induction fuel as [|fuel IH]; intros base n t s Hn Hb0 Hbm Hb Ht Hc; cbn [pin_pages].
  { assert (n = 0) as -> by lia. exists 0, t, 0. cbn -[list_to_set_disj]. split_and!; try done; try lia; [by rewrite no_pins|by rewrite app_nil_r]. }
  destruct (Z.eqb_spec n 0) as [->|Hn0].
  { exists 0, t, 0. cbn -[list_to_set_disj]. split_and!; try done; try lia; [by rewrite no_pins|by rewrite app_nil_r]. }
  rewrite PAGE_SIZE_eq. change (4096 / 8) with 512. specialize (E3 base (Z.min n 512) ltac:(lia) Hbm).
  destruct (pin_user_pages_fast e base (Z.min n 512)) as [ret|l].
  { exists ret, t, 0. cbn -[list_to_set_disj]. split_and!; try done; try lia; [by rewrite no_pins|by rewrite app_nil_r]. }
  destruct E3 as [L1 L2]. set (k := Z.of_nat (length l)) in *.
  destruct (add_sg_table_ok cap mx t l (Z.of_nat (length t)) ltac:(lia) Ht ltac:(lia) eq_refl) as (t1 & -> & T1 & T2 & T3). cbn [mbind option_bind].
  rewrite (u64_id (n - k)) by lia. specialize (Hb Hn0).
  set (s1 := with_pins _ _ _).
  destruct (decide (n - k = 0)) as [Hz|Hz].
  - exists 0, t1, k. replace (pin_pages fuel e cap (u64 (base + k * 4096)) (n - k) t1 (Z.of_nat (length t1)) s1) with (Some (0, t1, Z.of_nat (length t1), s1))
      by (rewrite Hz; by destruct fuel).
    cbn. rewrite <- L2. subst s1. split_and!; try done; try lia.
  - rewrite (u64_id (base + k * 4096)) by lia.
    destruct (IH (base + k * 4096) (n - k) t1 s1) as (ret & t' & m & Hp & M1 & M2 & M3 & M4 & M5 & M6); try lia; try done.
    { rewrite Z.mod_add by lia. done. }
    exists ret, t', (k + m). rewrite Z.div_add in Hp, M4 by lia. cbn. rewrite Hp. rewrite seqZ_app, fmap_app, <- L2 by lia.
    split_and!; try lia; try done; [|by rewrite M4, T1, app_assoc]. unfold s1, with_pins; cbn [pinned_vm pins dirty mm_count dma_maps]. do 2 f_equal. f_equal.
    rewrite list_to_set_disj_app. multiset_solver.
Qed.

Lemma num_pages_ok addr size : 0 <= addr < 2 ^ 64 -> 0 <= size < 2 ^ 64 ->
  (u64 (addr + size) <? addr) || (ALIGN (u64 (addr + size)) PAGE_SIZE <? u64 (addr + size)) = false ->
  forall l, let n := ib_umem_num_pages {| iova := addr; length_ := size; address := addr; odp_shift := None; sgl := l |} in
  n = (addr + size + 4095) / 4096 - addr / 4096 /\ addr + size + 4095 < 2 ^ 64.
Proof.
  intros Ha Hs Hg l n. apply orb_false_iff in Hg as [G1 G2]. apply Z.ltb_ge in G1, G2.
  assert (addr + size < 2 ^ 64) as H1.
  { destruct (decide (addr + size < 2 ^ 64)); [done|]. exfalso. unfold u64 in G1.
    assert (addr + size - 2 ^ 64 = (addr + size) mod 2 ^ 64) as X by (apply Z.mod_unique with (q := 1); lia). lia. }
  rewrite u64_id in G2 by lia.
  assert (addr + size + 4095 < 2 ^ 64) as H2.
  { destruct (decide (addr + size + 4095 < 2 ^ 64)); [done|]. exfalso. unfold ALIGN in G2. rewrite PAGE_SIZE_eq in G2.
    change 4096 with (2 ^ 12) in G2 at 2. rewrite ldiff_pow2 in G2 by lia. unfold u64 in G2.
    assert (addr + size + (4096 - 1) - 2 ^ 64 = (addr + size + (4096 - 1)) mod 2 ^ 64) as X by (apply Z.mod_unique with (q := 1); lia). rewrite <- X in G2.
    pose proof (Z.mod_pos_bound (addr + size + (4096 - 1) - 2 ^ 64) (2 ^ 12) ltac:(lia)). lia. }
  split; [|done]. unfold n, ib_umem_num_pages. unfold PAGE_SIZE.
  rewrite (num_blocks 12); cbn -[Z.pow]; unfold blocks_of, range_ok; cbn -[Z.pow]; try lia.
  - change (2 ^ 12) with 4096. do 2 f_equal. lia.
  - change (2 ^ 12) with 4096. pose proof (Z.div_mod (addr + size + 4096 - 1) 4096). pose proof (Z.div_mod addr 4096).
    pose proof (Z.mod_pos_bound (addr + size + 4096 - 1) 4096). pose proof (Z.mod_pos_bound addr 4096). lia.
Qed.
End get.

(** ** What the scatter lists lead to *)

Lemma sge_total_pages mx t : mx < 2 ^ 32 -> Forall (sge_ok mx) t -> sge_total t = 4096 * Z.of_nat (length (t ≫= pages_of)).
Proof.
  intros Hm. induction 1 as [|sg t Hsg Ht IH]; [done|]. cbn. rewrite length_app, (pages_of_ok mx), length_seqZ by done.
  unfold sge_total in IH. rewrite IH. destruct Hsg as [H1 H2]. rewrite PAGE_SIZE_eq in H2. pose proof (Z.div_mod (sg_length sg) 4096).
  pose proof (Z.div_pos (sg_length sg) 4096). lia.
Qed.

Lemma phys_pages mx k : mx < 2 ^ 32 -> forall t B, Forall (sge_ok mx) t -> B mod 4096 = 0 -> B <= k < B + sge_total t ->
  exists pfn, (t ≫= pages_of) !! Z.to_nat ((k - B) / 4096) = Some pfn /\ phys_at B t k = pfn * 4096 + (k - B) mod 4096.
Proof.
  intros Hm. induction t as [|sg t IH]; intros B HF HB Hk; [cbn in Hk; lia|]. apply Forall_cons_1 in HF as [Hsg Ht].
  cbn in Hk. fold (sge_total t) in Hk. cbn. rewrite (pages_of_ok mx) by done. destruct Hsg as [H1 H2]. rewrite PAGE_SIZE_eq in *.
  pose proof (Z.div_mod (sg_length sg) 4096). pose proof (Z.div_mod (k - B) 4096). pose proof (Z.mod_pos_bound (k - B) 4096).
  destruct (Z.ltb_spec k (B + sg_length sg)).
  - assert (0 <= (k - B) / 4096 < sg_length sg / 4096) as Hi by (split; [apply Z.div_pos|]; lia).
    eexists. rewrite lookup_app_l by (rewrite length_seqZ; lia). rewrite lookup_seqZ_lt by lia. split; [done|]. lia.
  - destruct (IH (B + sg_length sg) Ht) as (pfn & P1 & P2); [|lia|].
    { rewrite Zplus_mod, HB, H2. done. }
    assert ((k - (B + sg_length sg)) = (k - B) + - (sg_length sg / 4096) * 4096) as X by lia.
    rewrite X, Z.div_add in P1 by lia. rewrite X, Z.mod_add in P2 by lia. exists pfn. split; [|done].
    assert (sg_length sg / 4096 <= (k - B) / 4096) by (apply Z.div_le_mono; lia).
    rewrite lookup_app_r by (rewrite length_seqZ; lia). rewrite length_seqZ. rewrite <- P1. f_equal. lia.
Qed.

(** Segments of whole pages whose last page is needed are all needed. *)
Lemma whole_spans E : forall l B, l <> [] -> Forall seg_ok l -> B + dma_total l - 4096 < E <= B + dma_total l -> spans B E l.
Proof.
  induction l as [|sg r IH]; intros B Hne HF HE; [done|]. apply Forall_cons_1 in HF as [(H1 & H2 & _) HF].
  rewrite PAGE_SIZE_eq in H2. pose proof (Z.div_mod (dma_len sg) 4096). cbn in HE |- *. fold (dma_total r) in HE.
  destruct r as [|sg' r]; [cbn in HE; lia|]. assert (forall l, Forall seg_ok l -> 0 <= dma_total l) as Hpos.
  { induction 1 as [|x l Hx Hl IHl]; cbn; [lia|]. destruct Hx. unfold dma_total in IHl. lia. }
  pose proof HF as HF'. apply Forall_cons_1 in HF' as [(G1 & G2 & _) HF']. rewrite PAGE_SIZE_eq in G2. pose proof (Z.div_mod (dma_len sg') 4096).
  pose proof (Hpos r HF'). split; [cbn in HE; fold (dma_total r) in HE; lia|]. apply IH; [done|done|lia].
Qed.

(** ** What [ib_umem_get] promises *)

Definition npages_of (addr size : Z) : Z := (addr + size + 4095) / 4096 - addr / 4096.

(** The frames of the range, in order. *)
Definition user_frames (pt : Z -> Z) (addr size : Z) : list Z := pt <$> seqZ (addr / PAGE_SIZE) (npages_of addr size).

(** The physical address of a byte of the process. *)
Definition user_phys (pt : Z -> Z) (v : Z) : Z := pt (v / PAGE_SIZE) * PAGE_SIZE + v mod PAGE_SIZE.

(** A memory region over the user's range. *)
Record region (pt iommu : Z -> Z) (addr size : Z) (u : umem) : Prop := {
  rg_addr : address (ub u) = addr;
  rg_len : length_ (ub u) = size;
  rg_odp : odp_shift (ub u) = None;
  rg_nents : sg_nents u = Z.of_nat (length (sg_head u));
  rg_pages : sg_head u ≫= pages_of = user_frames pt addr size;
  rg_few : 0 < npages_of addr size < 2 ^ 32;
  rg_mapped : sgl (ub u) <> [];
  rg_segs : Forall seg_ok (sgl (ub u));
  rg_count : Z.of_nat (length (sgl (ub u))) < 2 ^ 32;
  rg_total : dma_total (sgl (ub u)) = 4096 * npages_of addr size;
  rg_dma : forall k, 0 <= k < 4096 * npages_of addr size ->
    iommu (dma_at 0 (sgl (ub u)) k) = user_phys pt (addr / PAGE_SIZE * PAGE_SIZE + k)
}.

Lemma user_frame pt addr size i pfn : 0 <= i -> user_frames pt addr size !! Z.to_nat i = Some pfn -> pfn = pt (addr / PAGE_SIZE + i).
Proof.
  intros Hi H. unfold user_frames in H. rewrite list_lookup_fmap in H.
  destruct (seqZ _ _ !! Z.to_nat i) as [z|] eqn:E; [|done]. injection H as <-. apply lookup_seqZ in E as [-> _]. f_equal. lia.
Qed.

Section get_spec.
Context (e : env) (pt iommu : Z -> Z) (He : env_ok e pt iommu).
Context (addr size access : Z) (Haddr : 0 <= addr < 2 ^ 64) (Hsize : 0 <= size < 2 ^ 64).

Lemma undo_pinned s n : 0 <= pinned_vm s < 2 ^ 64 -> u64 (u64 (pinned_vm s + n) - n) = pinned_vm s.
Proof. intros H. unfold u64. rewrite Zminus_mod_idemp_l. replace (pinned_vm s + n - n) with (pinned_vm s) by lia. by apply Z.mod_small. Qed.

(** The table, gathered and mapped, is a region. *)
Lemma mapped_region t b l :
  0 < npages_of addr size < 2 ^ 32 -> Forall (sge_ok (max_seg_size e)) t -> table_pages t = user_frames pt addr size ->
  Z.of_nat (length t) <= npages_of addr size -> ib_dma_map_sg e (rev t) = l -> l <> [] ->
  region pt iommu addr size
    {| ub := {| iova := addr; length_ := size; address := addr; odp_shift := None; sgl := l |};
       writable := b; sg_head := rev t; sg_nents := Z.of_nat (length t) |}.
Proof using He Haddr Hsize.
  intros Hn Ht Hp Hlen Hl Hne. destruct He as [E1 _ _ E4]. assert (Forall (sge_ok (max_seg_size e)) (rev t)) as Ht' by (by apply Forall_rev).
  assert (Z.of_nat (length (rev t ≫= pages_of)) = npages_of addr size) as Hc.
  { fold (table_pages t). rewrite Hp. unfold user_frames. rewrite length_fmap, length_seqZ. lia. }
  assert (sge_total (rev t) = 4096 * npages_of addr size) as Htot by (rewrite (sge_total_pages (max_seg_size e)), Hc by (done || lia); lia).
  destruct (E4 (rev t)) as [E|(M1 & M2 & M3 & M4)]; [intros E; rewrite E in Hc; cbn in Hc; lia|done|congruence|]. rewrite Hl in *.
  constructor; cbn -[npages_of user_frames dma_total Z.mul]; [done|done|done|by rewrite length_rev|done|done|done|done|rewrite length_rev in M2; lia|by rewrite M3|].
  intros k Hk. rewrite M4 by lia. destruct (phys_pages (max_seg_size e) k ltac:(lia) (rev t) 0 Ht' ltac:(done) ltac:(lia)) as (pfn & P1 & ->).
  fold (table_pages t) in P1. rewrite Hp in P1. rewrite Z.sub_0_r in *. apply user_frame in P1; [|apply Z.div_pos; lia]. subst pfn.
  unfold user_phys. rewrite PAGE_SIZE_eq. rewrite Z.add_comm, Z.div_add_l by lia. rewrite (Z.add_comm (addr / 4096 * 4096)), Z.mod_add by lia. lia.
Qed.

(** Giving up after [n] pages were counted leaves no trace. *)
Lemma no_trace s s1 n : 0 <= pinned_vm s < 2 ^ 64 -> s1 = with_pinned (pinned_vm s + n) (mmgrab s) ->
  mmdrop (with_pinned (pinned_vm s1 - n) s1) = s.
Proof.
  intros Hs ->. pose proof (undo_pinned s n Hs) as H. destruct s as [p P D c m]. unfold mmdrop, mmgrab, with_mm, with_pinned. cbn -[u64] in *.
  f_equal; [done|lia].
Qed.

Lemma ib_umem_get_ok s : 0 <= pinned_vm s < 2 ^ 64 ->
  exists r s', ib_umem_get e addr size access s = Some (r, s') /\
  match r with
  | inl ret => ret < 0 /\ s' = s
  | inr u =>
      region pt iommu addr size u /\ writable u = ib_access_writable access /\ iova (ub u) = addr /\ addr + size + 4095 < 2 ^ 64 /\
      s' = {| pinned_vm := u64 (pinned_vm s + npages_of addr size); pins := list_to_set_disj (user_frames pt addr size) ⊎ pins s;
              dirty := dirty s; mm_count := mm_count s + 1; dma_maps := dma_maps s + 1 |}
  end.
Proof using He Haddr Hsize.
  intros Hs. unfold ib_umem_get. destruct (_ || _) eqn:EG; [do 2 eexists; split; done|].
  destruct (can_do_mlock e); [|do 2 eexists; split; done]. cbn [negb].
  destruct (has_flag access IB_ACCESS_ON_DEMAND); [do 2 eexists; split; done|].
  destruct (kzalloc_ok e); [|do 2 eexists; split; done]. cbn [negb].
  assert (mmdrop (mmgrab s) = s) as Hmm by (destruct s; unfold mmdrop, mmgrab, with_mm; cbn; f_equal; lia).
  destruct (get_free_page_ok e); [|do 2 eexists; split; done]. cbn [negb]. cbv zeta.
  destruct (num_pages_ok addr size Haddr Hsize EG []) as [Hn Hend]. rewrite Hn. fold (npages_of addr size). set (n := npages_of addr size).
  assert (n = npages_of addr size) as En by done. clearbody n.
  destruct ((n =? 0) || (UINT_MAX <? n)) eqn:EN; [do 2 eexists; split; done|]. apply orb_false_iff in EN as [N1 N2].
  apply Z.eqb_neq in N1. apply Z.ltb_ge in N2. unfold UINT_MAX in N2.
  assert (0 < n) as Hn0.
  { pose proof (Z.div_le_mono addr (addr + size + 4095) 4096 ltac:(lia) ltac:(lia)). unfold npages_of in En. lia. }
  set (s1 := with_pinned (pinned_vm (mmgrab s) + n) (mmgrab s)). assert (mmdrop (with_pinned (pinned_vm s1 - n) s1) = s) as Hg by (by apply no_trace).
  destruct (_ && _); [do 2 eexists; split; [done|]; rewrite Hg; done|].
  pose proof (eo_alloc _ _ _ He) as Ha. destruct (Z.eqb_spec (sg_alloc_table_ret e) 0); cbn [negb]; [|do 2 eexists; split; [done|]; rewrite Hg; split; [lia|done]].
  assert (0 <= addr - addr mod 4096 /\ (addr - addr mod 4096) = addr / 4096 * 4096) as [Hb1 Hb2].
  { pose proof (Z.div_mod addr 4096). pose proof (Z.div_pos addr 4096). lia. }
  destruct (pin_pages_ok e pt iommu He n (Z.to_nat n) ltac:(lia) (addr - addr mod PAGE_SIZE) n [] s1) as (ret & t & m & Hpp & M1 & M2 & M3 & M4 & M5 & M6);
    rewrite ?PAGE_SIZE_eq; [lia|lia|rewrite Hb2; apply Z.mod_mul; lia| |done|cbn; lia|].
  { intros _. unfold npages_of in En. pose proof (Z.mul_div_le (addr + size + 4095) 4096). lia. }
  rewrite PAGE_SIZE_eq in Hpp, M4. rewrite Hb2 in *. rewrite Z.div_mul in Hpp, M4 by lia. cbn [length Z.of_nat table_pages rev mbind list_bind app] in Hpp, M4, M6.
  change (Z.of_nat 0) with 0 in Hpp. rewrite Hpp.
  cbn [mbind option_bind]. set (l := pt <$> seqZ (addr / 4096) m) in *.
  assert (forall u, ub u = {| iova := addr; length_ := size; address := addr; odp_shift := None; sgl := [] |} -> sg_head u = rev t ->
    sg_nents u = Z.of_nat (length t) -> __ib_umem_release u false (with_pins (list_to_set_disj l ⊎ pins s1) (dirty s1) s1) = s1) as Hrel.
  { intros u U1 U2 U3. rewrite release_ok; [|by rewrite U3, U2, length_rev|by rewrite U2]. rewrite U1, andb_false_r. cbn. by apply with_pins_id. }
  destruct (Z.ltb_spec ret 0); [do 2 eexists; split; [done|]; rewrite Hrel, Hg by done; split; [lia|done]|].
  assert (m = n) as -> by (apply M3; lia). destruct (ib_dma_map_sg e (rev t)) as [|sg r] eqn:EM; [do 2 eexists; split; [done|]; rewrite Hrel, Hg by done; done|].
  do 2 eexists. split; [done|]. cbn [writable ub iova]. split_and!; [|done|done|done|].
  - subst n. apply mapped_region; try done; try lia.
  - subst n. done.
Qed.
End get_spec.

(** ** Release, and the device's view *)

(** The region after [ib_umem_find_best_pgsz] has set the I/O virtual address. *)
Definition at_iova (virt : Z) (u : umem) : umem :=
  {| ub := with_iova virt (ub u); writable := writable u; sg_head := sg_head u; sg_nents := sg_nents u |}.

Lemma npages_shift a b size : (a - b) mod 4096 = 0 -> npages_of a size = npages_of b size.
Proof.
  intros H. apply Z.mod_divide in H as [k H]; [|lia]. unfold npages_of. replace (a + size + 4095) with (b + size + 4095 + k * 4096) by lia.
  replace a with (b + k * 4096) by lia. rewrite !Z.div_add by lia. lia.
Qed.

(** The pages counted at the release: those of the range at the I/O virtual address. *)
Lemma region_num_pages pt iommu addr size u virt :
  region pt iommu addr size u -> 0 <= size -> 0 <= virt -> virt + size <= 2 ^ 64 -> (virt - addr) mod PAGE_SIZE = 0 ->
  ib_umem_num_pages (ub (at_iova virt u)) = npages_of addr size.
Proof.
  intros HR Hs Hv Hvs Hm. destruct HR as [R1 R2 _ _ _ R6 _ _ _ _]. pose proof (npages_shift virt addr size Hm) as E.
  assert (blocks_of (2 ^ 12) virt (virt + size) = npages_of addr size) as EB.
  { rewrite <- E. unfold blocks_of, npages_of. change (2 ^ 12) with 4096. do 2 f_equal. lia. }
  unfold ib_umem_num_pages, PAGE_SIZE, PAGE_SHIFT. rewrite (num_blocks 12 (ub (at_iova virt u))); unfold range_ok; cbn -[Z.pow]; rewrite ?R2, ?EB; lia || done.
Qed.

Lemma release_region pt iommu addr size u virt s :
  region pt iommu addr size u -> 0 <= size -> 0 <= virt -> virt + size <= 2 ^ 64 -> (virt - addr) mod PAGE_SIZE = 0 ->
  ib_umem_release (at_iova virt u) s =
    {| pinned_vm := u64 (pinned_vm s - npages_of addr size); pins := pins s ∖ list_to_set_disj (user_frames pt addr size);
       dirty := if writable u then list_to_set (user_frames pt addr size) ∪ dirty s else dirty s;
       mm_count := mm_count s - 1; dma_maps := dma_maps s - 1 |}.
Proof.
  intros HR Hs Hv Hvs Hm. unfold ib_umem_release. rewrite (region_num_pages pt iommu addr size) by done. destruct HR as [_ _ _ R4 R5 _ R7 _ _ _].
  unfold __ib_umem_release. cbn [at_iova ub with_iova sgl writable sg_head sg_nents]. rewrite foldl_unpin, R4, Nat2Z.id, take_ge, R5, andb_true_r by lia.
  by destruct (sgl (ub u)).
Qed.

(** C22. [ib_umem_get] always returns and never runs past the scatter list. When it fails it
    leaves no trace: no page stays pinned or counted, no reference is kept. When it succeeds the
    pages of the scatter list are the frames of the user's range in order, each pinned once more
    and counted, and the DMA segments lead to the same bytes. *)
Theorem umem_get_all_or_nothing e pt iommu addr size access s :
  env_ok e pt iommu -> 0 <= addr < 2 ^ 64 -> 0 <= size < 2 ^ 64 -> 0 <= pinned_vm s < 2 ^ 64 ->
  exists r s', ib_umem_get e addr size access s = Some (r, s') /\
  match r with
  | inl ret => ret < 0 /\ s' = s
  | inr u =>
      region pt iommu addr size u /\ writable u = ib_access_writable access /\
      s' = {| pinned_vm := u64 (pinned_vm s + npages_of addr size); pins := list_to_set_disj (user_frames pt addr size) ⊎ pins s;
              dirty := dirty s; mm_count := mm_count s + 1; dma_maps := dma_maps s + 1 |}
  end.
Proof.
  intros He Ha Hs Hp. destruct (ib_umem_get_ok e pt iommu He addr size access Ha Hs s Hp) as (r & s' & E & H). exists r, s'. split; [done|].
  destruct r; [done|]. naive_solver.
Qed.

(** releasing a region undoes [ib_umem_get], whatever I/O virtual address it was given in
    between, if that address has the place in its page the user's address has; the pages a device
    could write are marked dirty. *)
Theorem umem_get_release e pt iommu addr size access s u s' virt :
  env_ok e pt iommu -> 0 <= addr < 2 ^ 64 -> 0 <= size < 2 ^ 64 -> 0 <= pinned_vm s < 2 ^ 64 ->
  ib_umem_get e addr size access s = Some (inr u, s') ->
  0 <= virt -> virt + size <= 2 ^ 64 -> (virt - addr) mod PAGE_SIZE = 0 ->
  ib_umem_release (at_iova virt u) s' =
    with_pins (pins s) (if ib_access_writable access then list_to_set (user_frames pt addr size) ∪ dirty s else dirty s) s.
Proof.
  intros He Ha Hs Hp E Hv Hvs Hm. destruct (ib_umem_get_ok e pt iommu He addr size access Ha Hs s Hp) as (r & s1 & E1 & H).
  rewrite E in E1. injection E1 as <- <-. destruct H as (HR & HW & _ & _ & ->). rewrite (release_region pt iommu addr size) by (done || lia).
  unfold with_pins. cbn [pinned_vm pins dirty mm_count dma_maps]. rewrite HW, undo_pinned by done. f_equal; [|lia..].
  apply gmultiset_eq. intros x. rewrite multiplicity_difference, multiplicity_disj_union. lia.
Qed.

Lemma region_umem_ok pt iommu addr size u : region pt iommu addr size u -> 0 < size -> 0 <= addr -> umem_ok (ub u).
Proof.
  intros [R1 R2 R3 R4 R5 R6 R7 R8 R9 R10 R11] Hs Ha. split_and!; [done|done|lia|]. unfold ib_umem_offset. rewrite R1, R2, PAGE_SIZE_eq.
  apply whole_spans; [done..|]. rewrite R10. unfold npages_of. pose proof (Z.div_mod (addr + size + 4095) 4096). pose proof (Z.div_mod addr 4096).
  pose proof (Z.mod_pos_bound (addr + size + 4095) 4096). pose proof (Z.mod_pos_bound addr 4096). lia.
Qed.

(** C21. the way from the user's memory to the device. Memory pinned by [ib_umem_get] and
    registered with the page size [ib_umem_find_best_pgsz] returns: the device that looks for the
    byte at I/O virtual address [virt + k] through the blocks reaches the physical address of the
    user's byte [addr + k], and the blocks are as many as [ib_umem_num_dma_blocks] says. *)
Theorem device_reaches_user_memory e pt iommu addr size access s u s' bm virt b pg :
  env_ok e pt iommu -> 0 <= addr < 2 ^ 64 -> 0 < size < 2 ^ 64 -> 0 <= pinned_vm s < 2 ^ 64 ->
  ib_umem_get e addr size access s = Some (inr u, s') ->
  0 <= bm < 2 ^ 64 -> 0 <= virt -> virt + size <= 2 ^ 64 ->
  ib_umem_find_best_pgsz bm virt (ub u) = Some (b, pg) -> pg <> 0 ->
  let m := ib_umem_num_dma_blocks b pg in
  exists l, umem_dma_blocks (S (Z.to_nat m)) (rdma_umem_block_iter_start b pg) = Some l /\ Z.of_nat (length l) = m /\
    forall k, 0 <= k < size ->
      exists a, l !! Z.to_nat ((virt + k) / pg - virt / pg) = Some a /\ iommu (a + (virt + k) mod pg) = user_phys pt (addr + k).
Proof.
  intros He Ha Hs Hp E Hbm Hv Hvs Hf Hpg m. destruct (ib_umem_get_ok e pt iommu He addr size access Ha ltac:(lia) s Hp) as (r & s1 & E1 & H).
  rewrite E in E1. injection E1 as <- <-. destruct H as (HR & _). pose proof (region_umem_ok _ _ _ _ _ HR ltac:(lia) ltac:(lia)) as Hok.
  pose proof HR as [R1 R2 R3 _ _ _ _ _ _ _ R11]. assert (range_ok virt (ub u)) as Hr by (split; [done|]; rewrite R2; lia).
  destruct (best_blocks bm virt (ub u) b pg Hbm Hok Hr R3 Hf Hpg) as (l & L1 & L2 & L3). exists l. split; [done|]. split; [done|].
  intros k Hk. destruct (L3 k ltac:(lia)) as (a & A1 & _ & A3). exists a. split; [done|]. rewrite A3. unfold ib_umem_offset. rewrite R1.
  pose proof (Z.div_mod addr 4096). pose proof (Z.mod_pos_bound addr 4096). rewrite PAGE_SIZE_eq.
  rewrite R11; [f_equal; rewrite PAGE_SIZE_eq; lia|]. unfold npages_of.
  pose proof (Z.div_mod (addr + size + 4095) 4096). pose proof (Z.mod_pos_bound (addr + size + 4095) 4096). lia.
Qed.

(** ** A process *)

(** Two frames for every two pages, one after the other, and a gap between the pairs; two pages
    are pinned at a time; no IOMMU. *)
Definition pt1 (v : Z) : Z := 0x80000 + v / 2 * 4 + v mod 2.

Definition dma_direct (t : list sge) : list sg_dma :=
  if forallb (fun sg => (0 <=? sg_page sg) && (sg_page sg * PAGE_SIZE + sg_length sg <=? 2 ^ 64)) t
  then (fun sg => {| dma_address := sg_page sg * PAGE_SIZE; dma_len := sg_length sg |}) <$> t else [].

Definition env1 : env :=
  {| can_do_mlock := true; cap_ipc_lock := false; rlimit_memlock := 65536; kzalloc_ok := true; get_free_page_ok := true;
     sg_alloc_table_ret := 0; max_seg_size := 65536;
     pin_user_pages_fast := fun base n => inr (pt1 <$> seqZ (base / PAGE_SIZE) (Z.min n 2)); ib_dma_map_sg := dma_direct |}.

Lemma direct_at : forall t B k, phys_at B t k = dma_at B ((fun sg => {| dma_address := sg_page sg * PAGE_SIZE; dma_len := sg_length sg |}) <$> t) k.
Proof. induction t as [|sg t IH]; intros B k; cbn; [done|]. by rewrite IH. Qed.

Lemma env1_ok : env_ok env1 pt1 (fun a => a).
Proof.
  split; [done|done| |].
  - intros base n Hn Hb. cbn -[PAGE_SIZE]. rewrite length_fmap, length_seqZ, Z2Nat.id by lia. split; [lia|done].
  - intros t Hne Ht l. unfold l. cbn [env1 ib_dma_map_sg max_seg_size] in *. unfold dma_direct. destruct (forallb _ t) eqn:EF; [|by left].
    right. apply Is_true_true, forallb_True in EF. split_and!.
    + apply Forall_fmap. apply Forall_forall. intros x Hx. rewrite Forall_forall in EF, Ht. specialize (EF x Hx). specialize (Ht x Hx). destruct Ht as [T1 T2].
      apply Is_true_true, andb_true_iff in EF as [F1 F2]. apply Z.leb_le in F1, F2. unfold compose, seg_ok. cbn -[Z.pow PAGE_SIZE].
      split_and!; try lia; try done; [rewrite PAGE_SIZE_eq; lia|apply Z.mod_mul; done].
    + by rewrite length_fmap.
    + unfold dma_total, sge_total. clear. induction t as [|sg t IH]; cbn; [done|]. by rewrite IH.
    + intros k _. symmetry. apply direct_at.
Qed.

Definition mm0 : mm_state := {| pinned_vm := 3; pins := ∅; dirty := ∅; mm_count := 1; dma_maps := 0 |}.

(** 19000 bytes from offset 0x234 of page 2 on. *)
Definition addr1 : Z := 0x2234.

Lemma umem_get_all_or_nothing_witness : exists r s', ib_umem_get env1 addr1 19000 1 mm0 = Some (r, s') /\
  match r with
  | inl ret => ret < 0 /\ s' = mm0
  | inr u => region pt1 (fun a => a) addr1 19000 u /\ writable u = true /\ pinned_vm s' = 8
  end.
Proof.
  destruct (umem_get_all_or_nothing env1 pt1 (fun a => a) addr1 19000 1 mm0 env1_ok) as (r & s' & E & H); [split; done..|].
  exists r, s'. split; [done|]. destruct r as [ret|u]; [done|]. destruct H as (H1 & H2 & ->). split_and!; done.
Defined.

Lemma umem_get_release_witness : exists u s', ib_umem_get env1 addr1 19000 1 mm0 = Some (inr u, s') /\
  ib_umem_release (at_iova 0x5234 u) s' = with_pins ∅ (list_to_set (user_frames pt1 addr1 19000) ∪ ∅) mm0.
Proof.
  eexists _, _. split; [vm_compute; reflexivity|].
  apply (umem_get_release env1 pt1 (fun a => a) addr1 19000 1 mm0); [apply env1_ok|split; done|split; done|split; done|vm_compute; reflexivity|done|done|done].
Defined.

Lemma device_reaches_user_memory_witness : exists u s' b, ib_umem_get env1 addr1 19000 1 mm0 = Some (inr u, s') /\
  ib_umem_find_best_pgsz 0x3000 0x6234 (ub u) = Some (b, 0x2000) /\
  exists l, umem_dma_blocks 4 (rdma_umem_block_iter_start b 0x2000) = Some l /\
    forall k, 0 <= k < 19000 -> exists a, l !! Z.to_nat ((0x6234 + k) / 0x2000 - 0x6234 / 0x2000) = Some a /\
      a + (0x6234 + k) mod 0x2000 = user_phys pt1 (addr1 + k).
Proof.
  eexists _, _, _. split; [vm_compute; reflexivity|]. split; [vm_compute; reflexivity|].
  match goal with |- exists l, umem_dma_blocks 4 (rdma_umem_block_iter_start ?b _) = _ /\ _ =>
    refine (match device_reaches_user_memory env1 pt1 (fun a => a) addr1 19000 1 mm0 ?[u] ?[s] 0x3000 0x6234 b 0x2000
      env1_ok _ _ _ _ _ _ _ _ _ with ex_intro _ l (conj L1 (conj _ L2)) => ex_intro _ l (conj L1 L2) end) end;
    [split; done|split; done|split; done|vm_compute; reflexivity|split; done|done|done|vm_compute; reflexivity|done].
Defined.

(** A buffer a device refuses stays counted: the pages are counted at the user's address and
    taken off the count at the I/O virtual address, which is set even when no page size fits.
    The buffer is 0xfe0 bytes from offset 0x21 of a page on, over two pages; the mask is the one
    mlx5 uses for queue pairs. *)
Lemma refused_buffer_stays_counted : exists u s' b, ib_umem_get env1 0x1021 0xfe0 1 mm0 = Some (inr u, s') /\
  ib_umem_find_best_pgoff 0xfffff000 0xffffffc0 (ub u) = Some (b, 0) /\
  pins (ib_umem_release (at_iova (iova b) u) s') = pins mm0 /\
  pinned_vm (ib_umem_release (at_iova (iova b) u) s') = pinned_vm mm0 + 1.
Proof. eexists _, _, _. split; [vm_compute; reflexivity|]. split; [vm_compute; reflexivity|]. split; vm_compute; reflexivity. Qed.
