(* ===== verification/Mlx5Mem.v ===== *)
(** * mlx5: page sizes and page lists of user buffers

    Queue buffers (hw/mlx5/mem.c, mlx5_ib.h): the command that creates a queue takes a page
    size, the list of the pages and a quantized page offset, counted in parts of the page size.
    [__mlx5_umem_find_best_quantized_pgoff] looks for a page size whose offset the field can
    hold. DEVX memory (hw/mlx5/devx.c) has no offset. Proved: the search ends, its offset is the
    one of the buffer, and the device that starts at the offset in the page list walks through
    the buffer. *)

From Stdlib Require Import ZArith Lia.
From stdpp Require Import base tactics numbers list option.
From S2P Require Import Prelude Umem UmemPgsz.

Local Open Scope Z_scope.

Definition MLX5_ADAPTER_PAGE_SHIFT : Z := 12.
Definition BITS_PER_LONG : Z := 64.

(** [GENMASK(h, l)], defined for bits of a word from [l] up to [h]. *)
Definition genmask (h l : Z) : option Z :=
  if (0 <=? l) && (l <=? h) && (h <? BITS_PER_LONG) then Some (Z.shiftl (Z.ones (h + 1 - l)) l) else None.

Definition __mlx5_log_page_size_to_bitmap (log_pgsz_bits pgsz_shift : Z) : option Z :=
  let largest_pg_shift := Z.min (u64 (Z.shiftl 1 log_pgsz_bits - 1 + pgsz_shift)) (BITS_PER_LONG - 1) in
  genmask largest_pg_shift (Z.max MLX5_ADAPTER_PAGE_SHIFT pgsz_shift).

Definition ib_umem_dma_offset (u : ib_umem) (pgsz : Z) : option Z :=
  sg ← head (sgl u);
  Some (Z.land (u64 (dma_address sg + ib_umem_offset u)) (pgsz - 1)).

(** The loop that halves the page size until the offset fits the field; [None] is a loop that
    has not ended after [fuel] rounds. *)
Fixpoint shrink_page_size (fuel : nat) (u : ib_umem) (page_offset_mask scale page_size : Z) : option (Z * Z) :=
  match fuel with
  | O => None
  | S fuel =>
      page_offset ← ib_umem_dma_offset u page_size;
      if Z.ldiff page_offset (u64 (page_offset_mask * (page_size / scale))) =? 0 then Some (page_size, page_offset)
      else shrink_page_size fuel u page_offset_mask scale (page_size / 2)
  end.

(** The page size (0: none) and the quantized offset. [None] is what the language does not
    define, such as a division by zero. *)
Definition __mlx5_umem_find_best_quantized_pgoff (u : ib_umem) (pgsz_bitmap page_offset_bits pgoff_bitmask scale : Z) :
    option (ib_umem * Z * Z) :=
  let page_offset_mask := Z.shiftl 1 page_offset_bits - 1 in
  '(u, page_size) ← ib_umem_find_best_pgoff pgsz_bitmap pgoff_bitmask u;
  if page_size =? 0 then Some (u, 0, 0) else
  '(page_size, page_offset) ← shrink_page_size 65 u page_offset_mask scale page_size;
  if negb (has_flag pgsz_bitmap page_size) then Some (u, 0, 0) else
  if page_size / scale =? 0 then None else
  let page_offset_quantized := u32 (page_offset / (page_size / scale)) in
  if page_offset_mask <? page_offset_quantized then Some (u, 0, page_offset_quantized) else Some (u, page_size, page_offset_quantized).

Definition mlx5_ib_populate_pas (fuel : nat) (u : ib_umem) (page_size access_flags : Z) : option (list Z) :=
  match umem_dma_blocks fuel (rdma_umem_block_iter_start u page_size) with
  | Some l => Some (map (fun a => Z.lor a access_flags) l)
  | None => None
  end.

Definition order_base_2 (n : Z) : Z := if 1 <? n then Z.log2 (n - 1) + 1 else 0.

(** The loop of [devx_umem_find_best_pgsize]. *)
Fixpoint devx_shrink (fuel : nat) (u : ib_umem) (page_size : Z) : option Z :=
  match fuel with
  | O => None
  | S fuel =>
      off ← ib_umem_dma_offset u page_size;
      if (negb (off =? 0) || negb (length_ u mod page_size =? 0)) && (PAGE_SIZE <? page_size) then devx_shrink fuel u (page_size / 2)
      else Some page_size
  end.

Definition devx_umem_find_best_pgsize (u : ib_umem) (pgsz_bitmap : Z) : option (ib_umem * Z) :=
  mask ← genmask (Z.max (order_base_2 (length_ u)) PAGE_SHIFT) MLX5_ADAPTER_PAGE_SHIFT;
  let pgsz_bitmap := Z.land pgsz_bitmap mask in
  if pgsz_bitmap =? 0 then Some (u, 0) else
  '(u, page_size) ← ib_umem_find_best_pgoff pgsz_bitmap (2 ^ 64 - 1) u;
  if page_size =? 0 then Some (u, 0) else
  page_size ← devx_shrink 65 u page_size;
  Some (u, u32 page_size).

(** ** The search for a page size *)

Lemma dma_offset_pow2 u sg r n : sgl u = sg :: r -> 0 <= n -> ib_umem_dma_offset u (2 ^ n) = Some (u64 (dma_address sg + ib_umem_offset u) mod 2 ^ n).
Proof. intros E Hn. unfold ib_umem_dma_offset. rewrite E. cbn. by rewrite land_pow2. Qed.

(** Nothing outside the bits [s, s + b): a multiple of [2 ^ s], and below [2 ^ (s + b)]. *)
Lemma within_field x s b : 0 <= x -> 0 <= s -> 0 <= b -> Z.ldiff x ((2 ^ b - 1) * 2 ^ s) = 0 -> x mod 2 ^ s = 0 /\ x < 2 ^ (s + b).
Proof.
  intros Hx Hs Hb H. replace ((2 ^ b - 1) * 2 ^ s) with (Z.shiftl (Z.ones b) s) in H by (rewrite Z.shiftl_mul_pow2, Z.ones_equiv by done; lia).
  assert (forall i, 0 <= i -> (i < s \/ s + b <= i) -> Z.testbit x i = false) as HB.
  { intros i Hi Ho. assert (Z.testbit (Z.ldiff x (Z.shiftl (Z.ones b) s)) i = false) as T by (by rewrite H, Z.bits_0).
    rewrite Z.ldiff_spec, Z.shiftl_spec in T by lia. destruct (Z.testbit x i); [|done]. cbn in T.
    destruct Ho; [rewrite Z.testbit_neg_r in T by lia; done|rewrite Z.ones_spec_high in T by lia; done]. }
  split; [apply mod_bits; [done|]; intros i Hi; apply HB; lia|].
  destruct (decide (x = 0)) as [->|]; [apply Z.pow_pos_nonneg; lia|]. apply Z.log2_lt_pow2; [lia|].
  destruct (decide (Z.log2 x < s + b)); [done|]. pose proof (Z.log2_nonneg x). pose proof (HB (Z.log2 x) ltac:(lia) ltac:(lia)) as T.
  rewrite Z.bit_log2 in T by lia. done.
Qed.

Lemma ldiff_u64 x m : 0 <= x < 2 ^ 64 -> Z.ldiff x (u64 m) = Z.ldiff x m.
Proof.
  intros Hx. apply Z.bits_inj'. intros i Hi. rewrite !Z.ldiff_spec. destruct (decide (i < 64)).
  - unfold u64. by rewrite Z.mod_pow2_bits_low by lia.
  - replace (Z.testbit x i) with false; [done|]. rewrite <- (Z.mod_small x (2 ^ 64)) by lia. by rewrite Z.mod_pow2_bits_high by lia.
Qed.

(** The loop ends: at the latest with single bytes. *)
Lemma shrink_ends u sg r pb sc : sgl u = sg :: r -> 0 <= pb <= 32 -> 0 <= sc < 32 -> forall fuel g, 0 <= g < 64 -> g < Z.of_nat fuel ->
  exists n, shrink_page_size fuel u (2 ^ pb - 1) (2 ^ sc) (2 ^ g) = Some (2 ^ n, u64 (dma_address sg + ib_umem_offset u) mod 2 ^ n) /\ 0 <= n <= g /\
    Z.ldiff (u64 (dma_address sg + ib_umem_offset u) mod 2 ^ n) (u64 ((2 ^ pb - 1) * (2 ^ n / 2 ^ sc))) = 0.
Proof.
  intros Hl Hpb Hsc. induction fuel as [|fuel IH]; intros g Hg Hf; [lia|]. cbn [shrink_page_size]. rewrite (dma_offset_pow2 u sg r) by (done || lia). cbn [mbind option_bind].
  destruct (Z.eqb_spec (Z.ldiff (u64 (dma_address sg + ib_umem_offset u) mod 2 ^ g) (u64 ((2 ^ pb - 1) * (2 ^ g / 2 ^ sc)))) 0); [exists g; split_and!; done || lia|].
  destruct (decide (g = 0)) as [->|]; [by rewrite Z.mod_1_r, Z.ldiff_0_l in *|].
  replace (2 ^ g / 2) with (2 ^ (g - 1)) by (rewrite Z.pow_sub_r by lia; done). destruct (IH (g - 1)) as (k & H1 & H2 & H3); [lia..|].
  exists k. split_and!; [done|lia|lia|done].
Qed.

Section queue.
Context (u : ib_umem) (bm pb mask sc : Z) (Hbm : 0 <= bm < 2 ^ 64) (Hpb : 0 <= pb <= 31) (Hsc : 0 <= sc < 32).
Context (Hlow : forall n, Z.testbit bm n = true -> sc <= n) (Hok : umem_ok u) (Hodp : odp_shift u = None).

(** What the search returns: [u'] has the I/O virtual address the search set. *)
Lemma quantized_ok u0 pg q : 0 <= mask -> 
  (forall sg, head (sgl u) = Some sg -> range_ok (Z.land (u64 (dma_address sg + ib_umem_offset u)) mask) u) ->
  __mlx5_umem_find_best_quantized_pgoff u bm pb mask (2 ^ sc) = Some (u0, pg, q) -> pg <> 0 ->
  exists n sg r, pg = 2 ^ n /\ sc <= n < 64 /\ Z.testbit bm n = true /\ sgl u = sg :: r /\
    u0 = with_iova (Z.land (u64 (dma_address sg + ib_umem_offset u)) mask) u /\
    fits pg (iova u0) (ib_umem_offset u) (sgl u) /\ range_ok (iova u0) u /\ blocks_of pg (iova u0) (iova u0 + length_ u) * pg < 2 ^ 64 /\
    q * (pg / 2 ^ sc) = iova u0 mod pg /\ 0 <= q < 2 ^ pb.
Proof using All.
  intros Hmask Hrange H Hpg. unfold __mlx5_umem_find_best_quantized_pgoff, ib_umem_find_best_pgoff in H.
  destruct (sgl u) as [|sg r] eqn:El; [done|]. cbn [head mbind option_bind] in H. specialize (Hrange sg eq_refl).
  set (x := u64 (dma_address sg + ib_umem_offset u)) in *. set (virt := Z.land x mask) in *.
  destruct (ib_umem_find_best_pgsz bm virt u) as [[u1 p0]|] eqn:EB; [|done]. cbn [mbind option_bind] in H.
  pose proof Hok as (_ & _ & Hlen & _).
  destruct (best_pgsz bm virt u Hbm Hrange Hlen (u1, p0) Hodp EB) as (B1 & B2 & B3). cbn in B2, B3. subst u1.
  destruct (Z.eqb_spec p0 0) as [_|Hp0]; [congruence|]. destruct B3 as [[B3 _]|(g & -> & Hg & (Hg0 & _ & Hf) & _)]; [done|].
  destruct (shrink_ends (with_iova virt u) sg r pb sc El ltac:(lia) Hsc 65 g ltac:(lia) ltac:(lia)) as (n & HS & Hn & Hfield).
  rewrite Z.shiftl_1_l, HS in H. cbn [mbind option_bind] in H. change (ib_umem_offset (with_iova virt u)) with (ib_umem_offset u) in *. fold x in H, Hfield.
  destruct (has_flag bm (2 ^ n)) eqn:EF; [|injection H as; congruence]. cbn [negb] in H.
  pose proof EF as Hbit. rewrite has_flag_testbit in Hbit by lia.
  pose proof (Hlow n Hbit) as Hscn.
  assert (2 ^ n / 2 ^ sc = 2 ^ (n - sc)) as Ediv by (rewrite <- Z.pow_sub_r by lia; done). rewrite Ediv in *.
  assert (0 < 2 ^ (n - sc)) as Hpos by (apply Z.pow_pos_nonneg; lia). rewrite (proj2 (Z.eqb_neq _ _)) in H by lia.
  assert (fits (2 ^ n) virt (ib_umem_offset u) (sgl u)) as Hfn by (apply (fits_smaller n g); [lia|done]).
  assert (x mod 2 ^ n = virt mod 2 ^ n) as Hxv.
  { rewrite El in Hfn. destruct Hfn as (F1 & _). apply mod_shift in F1; [|apply Z.pow_pos_nonneg; lia]. unfold x. rewrite u64_mod by lia. done. }
  rewrite Hxv in *. pose proof (Z.mod_pos_bound virt (2 ^ n) ltac:(apply Z.pow_pos_nonneg; lia)) as Hvb.
  rewrite ldiff_u64 in Hfield by (pose proof (Z.pow_le_mono_r 2 n 64); lia).
  destruct (within_field (virt mod 2 ^ n) (n - sc) pb ltac:(lia) ltac:(lia) ltac:(lia) Hfield) as [Q1 Q2].
  assert (0 <= virt mod 2 ^ n / 2 ^ (n - sc) < 2 ^ pb) as Hq.
  { split; [apply Z.div_pos; lia|]. apply Z.div_lt_upper_bound; [lia|]. by rewrite <- Z.pow_add_r by lia. }
  pose proof (Z.pow_le_mono_r 2 pb 31 ltac:(lia) ltac:(lia)). rewrite u32_id in H by lia.
  rewrite (proj2 (Z.ltb_ge _ _)) in H by lia. injection H as <- <- <-. exists n, sg, r. rewrite El in Hfn. cbn [with_iova iova].
  split_and!; try done; try lia; [apply B1; lia|]. rewrite Ediv. apply Z.mod_divide in Q1 as [k Q1]; [|lia]. rewrite Q1, Z.div_mul by lia. lia.
Qed.
End queue.

(** If there is a page size at all, the search returns: its loop ends and it does not divide by
    zero. *)
Lemma quantized_returns u bm pb mask sc u1 p0 :
  0 <= bm < 2 ^ 64 -> 0 <= pb <= 31 -> 0 <= sc < 32 -> (forall n, Z.testbit bm n = true -> sc <= n) -> umem_ok u -> odp_shift u = None -> 0 <= mask ->
  (forall sg, head (sgl u) = Some sg -> range_ok (Z.land (u64 (dma_address sg + ib_umem_offset u)) mask) u) ->
  ib_umem_find_best_pgoff bm mask u = Some (u1, p0) -> is_Some (__mlx5_umem_find_best_quantized_pgoff u bm pb mask (2 ^ sc)).
Proof.
  intros Hbm Hpb Hsc Hlow Hok Hodp Hmask Hrange H. unfold __mlx5_umem_find_best_quantized_pgoff. rewrite H. cbn [mbind option_bind].
  unfold ib_umem_find_best_pgoff in H. destruct (sgl u) as [|sg r] eqn:El; [done|]. cbn [head mbind option_bind] in H. specialize (Hrange sg eq_refl).
  pose proof Hok as (_ & _ & Hlen & _). destruct (best_pgsz bm _ u Hbm Hrange Hlen (u1, p0) Hodp H) as (_ & B2 & B3). cbn in B2, B3. subst u1.
  destruct (Z.eqb_spec p0 0) as [_|Hp0]; [done|]. destruct B3 as [[B3 _]|(g & -> & Hg & (Hg0 & _) & _)]; [done|].
  set (u' := with_iova _ u). destruct (shrink_ends u' sg r pb sc El ltac:(lia) Hsc 65 g ltac:(lia) ltac:(lia)) as (n & HS & Hn & _).
  rewrite Z.shiftl_1_l, HS. cbn [mbind option_bind]. destruct (has_flag bm (2 ^ n)) eqn:EF; [|done]. cbn [negb].
  rewrite has_flag_testbit in EF by lia. pose proof (Hlow n EF). rewrite <- Z.pow_sub_r by lia.
  rewrite (proj2 (Z.eqb_neq _ _)) by (pose proof (Z.pow_pos_nonneg 2 (n - sc)); lia). by destruct (_ <? _).
Qed.

(** ** What the device walks through *)

(** C34. the page list of a queue buffer. If [__mlx5_umem_find_best_quantized_pgoff] finds a page
    size, the quantized offset it returns fits its field, and the device that starts at
    [page_offset_quantized * (page_size / scale)] in the pages of [mlx5_ib_populate_pas] walks
    through the bytes of the buffer; the list has [ib_umem_num_dma_blocks] entries. *)
Theorem mlx5_queue_pages u bm pb mask sc u0 pg q flags :
  0 <= bm < 2 ^ 64 -> 0 <= pb <= 31 -> 0 <= sc < 32 -> (forall n, Z.testbit bm n = true -> sc <= n) -> umem_ok u -> odp_shift u = None -> 0 <= mask ->
  (forall sg, head (sgl u) = Some sg -> range_ok (Z.land (u64 (dma_address sg + ib_umem_offset u)) mask) u) ->
  __mlx5_umem_find_best_quantized_pgoff u bm pb mask (2 ^ sc) = Some (u0, pg, q) -> pg <> 0 ->
  let off := q * (pg / 2 ^ sc) in
  let m := ib_umem_num_dma_blocks u0 pg in
  0 <= q < 2 ^ pb /\ has_flag bm pg = true /\
  exists l, mlx5_ib_populate_pas (S (Z.to_nat m)) u0 pg flags = Some l /\ Z.of_nat (length l) = m /\
    forall k, 0 <= k < length_ u -> exists a, l !! Z.to_nat ((off + k) / pg) = Some (Z.lor a flags) /\
      a mod pg = 0 /\ a + (off + k) mod pg = dma_at 0 (sgl u) (ib_umem_offset u + k).
Proof.
  intros Hbm Hpb Hsc Hlow Hok Hodp Hmask Hrange H Hpg off m.
  destruct (quantized_ok u bm pb mask sc Hbm Hpb Hsc Hlow Hok Hodp u0 pg q Hmask Hrange H Hpg) as (n & sg & r & -> & Hn & Hbit & El & Hu0 & Hf & Hr & Hm & Hq & Hqb).
  split; [done|]. split; [by rewrite has_flag_testbit by lia|].
  set (v := iova u0) in *. destruct (blocks_are_memory n u0) as (l & L1 & L2 & L3); [lia|by subst u0|by subst u0|by subst u0|by subst u0|].
  exists (map (fun a => Z.lor a flags) l). unfold mlx5_ib_populate_pas, m. rewrite L1. split; [done|]. split; [by rewrite length_map|].
  intros k Hk. destruct (L3 k) as (a & A1 & A2 & A3); [by subst u0|]. exists a. fold v in A1, A3.
  assert (0 < 2 ^ n) as Hp by (apply Z.pow_pos_nonneg; lia). pose proof (Z.div_mod v (2 ^ n) ltac:(lia)) as Hdm.
  assert (off + k = v + k + - (v / 2 ^ n) * 2 ^ n) as Eoff by (unfold off; lia). rewrite Eoff, Z.div_add, Z.mod_add by lia.
  split; [|split; [done|by subst u0]]. change (@map Z Z) with (@fmap list _ Z Z). rewrite list_lookup_fmap.
  replace ((v + k) / 2 ^ n + - (v / 2 ^ n)) with ((v + k) / 2 ^ n - v / 2 ^ n) by lia. by rewrite A1.
Qed.

(** *** DEVX memory *)

Lemma genmask_spec h l m : genmask h l = Some m -> 0 <= m /\ forall i, Z.testbit m i = true -> l <= i <= h.
Proof.
  unfold genmask. destruct (Z.leb_spec 0 l), (Z.leb_spec l h), (h <? BITS_PER_LONG); cbn [andb]; intros [= <-]. split.
  - apply Z.shiftl_nonneg. rewrite Z.ones_equiv. pose proof (Z.pow_pos_nonneg 2 (h + 1 - l)). lia.
  - intros i Hi. destruct (decide (0 <= i)); [|rewrite Z.testbit_neg_r in Hi by lia; done]. rewrite Z.shiftl_spec in Hi by done.
    destruct (decide (l <= i)); [|rewrite Z.testbit_neg_r in Hi by lia; done].
    destruct (decide (i <= h)); [done|]. rewrite Z.ones_spec_high in Hi by lia. done.
Qed.

Lemma devx_shrink_ends u sg r : sgl u = sg :: r -> forall fuel g, 12 <= g < 64 -> g < Z.of_nat fuel ->
  exists n, devx_shrink fuel u (2 ^ g) = Some (2 ^ n) /\ 12 <= n <= g /\
    (2 ^ n = PAGE_SIZE \/ (u64 (dma_address sg + ib_umem_offset u) mod 2 ^ n = 0 /\ length_ u mod 2 ^ n = 0)).
Proof.
  intros Hl. induction fuel as [|fuel IH]; intros g Hg Hf; [lia|]. cbn [devx_shrink]. rewrite (dma_offset_pow2 u sg r) by (done || lia). cbn [mbind option_bind].
  destruct (decide (g = 12)) as [->|Hne].
  { exists 12. rewrite (proj2 (Z.ltb_ge PAGE_SIZE (2 ^ 12))), andb_false_r by done. split; [done|]. split; [lia|by left]. }
  destruct (Z.eqb_spec (u64 (dma_address sg + ib_umem_offset u) mod 2 ^ g) 0), (Z.eqb_spec (length_ u mod 2 ^ g) 0); cbn [negb orb andb];
    [exists g; split; [done|]; split; [lia|by right]|..];
    (rewrite (proj2 (Z.ltb_lt PAGE_SIZE (2 ^ g))) by (unfold PAGE_SIZE, PAGE_SHIFT; apply Z.pow_lt_mono_r; lia));
    replace (2 ^ g / 2) with (2 ^ (g - 1)) by (rewrite Z.pow_sub_r by lia; done);
    (destruct (IH (g - 1)) as (n1 & H1 & H2 & H3); [lia..|]); exists n1; (split; [done|]); (split; [lia|done]).
Qed.

(** Segments shorter than 4 GiB cannot fill blocks of 4 GiB or more. *)
Lemma no_huge_fit n u sg r : 32 <= n < 64 -> umem_ok u -> sgl u = sg :: r -> 0 < length_ u ->
  u64 (dma_address sg + ib_umem_offset u) mod 2 ^ n = 0 -> length_ u mod 2 ^ n = 0 ->
  fits (2 ^ n) (u64 (dma_address sg + ib_umem_offset u)) (ib_umem_offset u) (sgl u) -> False.
Proof.
  intros Hn (HF & _ & _ & Hs) El Hl Ho Hlm Hf. rewrite El in *. apply Forall_cons_1 in HF as [HS _].
  pose proof (seg_ok_page sg HS) as Hpg. destruct HS as (S1 & _).
  pose proof (Z.pow_le_mono_r 2 32 n ltac:(lia) ltac:(lia)) as Hp. pose proof (page_offset u) as Hpo. unfold PAGE_SIZE, PAGE_SHIFT in Hpo.
  assert (2 ^ n <= length_ u) as Hbig by (apply Z.divide_pos_le; [done|]; apply Z.mod_divide; [lia|done]).
  cbn in Hs. destruct r as [|sg' r]; [lia|]. destruct Hf as (_ & F2 & _). set (x := u64 _) in *.
  replace (x + dma_len sg - ib_umem_offset u) with (x + (dma_len sg - ib_umem_offset u)) in F2 by lia.
  rewrite Zplus_mod, Ho, Z.add_0_l, Zmod_mod in F2. destruct Hs as [Hs _].
  unfold PAGE_SIZE, PAGE_SHIFT in Hpg. rewrite Z.mod_small in F2; lia.
Qed.

(** the page size of DEVX memory. The search returns 0 exactly if no page size of its bitmap
    is usable (no size is lost in the 32 bits the result has), and else a usable size that is a
    page, or with blocks of which the memory starts and ends. *)
Theorem devx_pgsize u sg r bm mask u' pg :
  0 <= bm < 2 ^ 64 -> umem_ok u -> odp_shift u = None -> sgl u = sg :: r ->
  let virt := u64 (dma_address sg + ib_umem_offset u) in
  range_ok virt u ->
  genmask (Z.max (order_base_2 (length_ u)) PAGE_SHIFT) MLX5_ADAPTER_PAGE_SHIFT = Some mask ->
  devx_umem_find_best_pgsize u bm = Some (u', pg) ->
  (pg = 0 <-> forall n, ~ usable (Z.land bm mask) virt u n) /\
  (pg <> 0 -> exists n, pg = 2 ^ n /\ 12 <= n < 32 /\ u' = with_iova virt u /\ fits pg virt (ib_umem_offset u) (sgl u) /\
     (pg = PAGE_SIZE \/ (virt mod pg = 0 /\ length_ u mod pg = 0))).
Proof.
  intros Hbm Hok Hodp El virt Hr Hmask H. unfold devx_umem_find_best_pgsize in H. rewrite Hmask in H. cbn [mbind option_bind] in H.
  destruct (genmask_spec _ _ _ Hmask) as [Hm0 Hmb].
  assert (0 <= Z.land bm mask < 2 ^ 64) as Hb.
  { assert (0 <= Z.land bm mask) by (apply Z.land_nonneg; lia). split; [done|]. destruct (Z.eq_dec (Z.land bm mask) 0); [lia|]. apply Z.log2_lt_pow2; [lia|].
    pose proof (Z.log2_land bm mask ltac:(lia) ltac:(lia)). enough (Z.log2 bm < 64) by lia. destruct (Z.eq_dec bm 0) as [->|]; [done|]. apply Z.log2_lt_pow2; lia. }
  set (bm' := Z.land bm mask) in *.
  assert (forall n, Z.testbit bm' n = true -> 12 <= n) as Hlow.
  { intros n Hn. unfold bm' in Hn. rewrite Z.land_spec, andb_true_iff in Hn. destruct Hn as [_ Hn]. apply Hmb in Hn. unfold MLX5_ADAPTER_PAGE_SHIFT in Hn. lia. }
  destruct (Z.eqb_spec bm' 0) as [E0|E0].
  { injection H as <- <-. split; [|done]. split; [|done]. intros _ n (_ & Hn & _). rewrite E0, Z.bits_0 in Hn. done. }
  unfold ib_umem_find_best_pgoff in H. rewrite El in H. cbn [head mbind option_bind] in H. fold virt in H.
  assert (Z.land virt (2 ^ 64 - 1) = virt) as Ev by (rewrite land_pow2 by lia; apply Z.mod_small, u64_range). rewrite Ev in H.
  destruct (ib_umem_find_best_pgsz bm' virt u) as [[u1 p0]|] eqn:EB; [|done]. cbn [mbind option_bind] in H. pose proof Hok as (_ & _ & Hlen & _).
  destruct (best_pgsz bm' virt u Hb Hr Hlen (u1, p0) Hodp EB) as (_ & B2 & B3). cbn in B2, B3. subst u1.
  destruct B3 as [[-> B3]|(g & -> & Hg & HU & _)]; [injection H as <- <-; split; [done|]; done|]. pose proof HU as (Hg0 & Hgb & Hf).
  pose proof (Hlow g Hgb). rewrite (proj2 (Z.eqb_neq (2 ^ g) 0)) in H by (pose proof (Z.pow_pos_nonneg 2 g); lia).
  destruct (devx_shrink_ends (with_iova virt u) sg r El 65 g ltac:(lia) ltac:(lia)) as (n & HS & Hn & Hcase). rewrite HS in H. cbn [mbind option_bind] in H.
  injection H as <- <-. change (ib_umem_offset (with_iova virt u)) with (ib_umem_offset u) in Hcase. fold virt in Hcase.
  assert (fits (2 ^ n) virt (ib_umem_offset u) (sgl u)) as Hfn by (apply (fits_smaller n g); [lia|done]).
  assert (n < 32) as Hn32.
  { destruct (decide (n < 32)); [done|]. exfalso. destruct Hcase as [Hc|[H1 H2]].
    - pose proof (Z.pow_le_mono_r 2 32 n ltac:(lia) ltac:(lia)). unfold PAGE_SIZE, PAGE_SHIFT in Hc. lia.
    - apply (no_huge_fit n u sg r); try done; lia. }
  pose proof (Z.pow_lt_mono_r 2 n 32 ltac:(lia) ltac:(lia) Hn32). pose proof (Z.pow_pos_nonneg 2 n ltac:(lia) ltac:(lia)). rewrite u32_id by lia.
  split; [split; [lia|]; intros HN; by destruct (HN g)|]. intros _. exists n. split_and!; try done; lia.
Qed.

(** ** A queue buffer *)

(** The page sizes of a field of 5 bits: 4 KiB and up. *)
Definition bitmap1 : Z := 0xffffffff000.

(** 0x2000 bytes from offset 0x240 on: three pages in two segments. *)
Definition buf1 : ib_umem :=
  {| iova := 0; length_ := 0x2000; address := 0x555000240; odp_shift := None;
     sgl := [{| dma_address := 0x80003000; dma_len := 0x1000 |}; {| dma_address := 0x90004000; dma_len := 0x2000 |}] |}.

Lemma bitmap1_ok : __mlx5_log_page_size_to_bitmap 5 12 = Some bitmap1 /\ forall n, Z.testbit bitmap1 n = true -> 12 <= n.
Proof.
  split; [vm_compute; reflexivity|]. intros n Hn. destruct (genmask_spec 43 12 bitmap1) as [_ H]; [vm_compute; reflexivity|]. apply H in Hn. lia.
Qed.

Lemma buf1_ok : umem_ok buf1.
Proof. split_and!; [repeat (apply Forall_cons_2; [vm_compute; split_and!; done|]); apply Forall_nil_2|vm_compute; split_and?; done..]. Qed.

Lemma mlx5_queue_pages_witness : exists u0,
  __mlx5_umem_find_best_quantized_pgoff buf1 bitmap1 6 0xffffffc0 (2 ^ 6) = Some (u0, 0x1000, 9) /\
  exists l, mlx5_ib_populate_pas 4 u0 0x1000 3 = Some l /\ Z.of_nat (length l) = 3 /\
    forall k, 0 <= k < 0x2000 -> exists a, l !! Z.to_nat ((0x240 + k) / 0x1000) = Some (Z.lor a 3) /\
      a mod 0x1000 = 0 /\ a + (0x240 + k) mod 0x1000 = dma_at 0 (sgl buf1) (0x240 + k).
Proof.
  exists (with_iova 0x80003240 buf1). split; [vm_compute; reflexivity|].
  refine (proj2 (proj2 (mlx5_queue_pages buf1 bitmap1 6 0xffffffc0 6 (with_iova 0x80003240 buf1) 0x1000 9 3 _ _ _ _ buf1_ok _ _ _ _ _)));
    [split; done|split; done|split; done| |done|done| |vm_compute; reflexivity|done].
  - intros n Hn. apply bitmap1_ok in Hn. lia.
  - intros sg [= <-]. split; vm_compute; done.
Defined.

Lemma devx_pgsize_witness : exists u' n, devx_umem_find_best_pgsize buf1 bitmap1 = Some (u', 2 ^ n) /\ 12 <= n < 32.
Proof.
  destruct (devx_pgsize buf1 {| dma_address := 0x80003000; dma_len := 0x1000 |} [{| dma_address := 0x90004000; dma_len := 0x2000 |}] bitmap1 0x3000
    (with_iova 0x80003240 buf1) 0x1000) as [_ H]; [split; done|apply buf1_ok|done|done|split; vm_compute; done|vm_compute; reflexivity|vm_compute; reflexivity|].
  destruct H as (n & Hp & Hn & _); [done|]. exists (with_iova 0x80003240 buf1), n. rewrite <- Hp. split; [vm_compute; reflexivity|done].
Defined.
