(* ===== verification/GidCache.v ===== *)
(** * The GID cache

    core/cache.c keeps the GID tables of the ports of a device: add, delete and look up GIDs,
    with references that keep an entry alive for its users after it was deleted. Writers hold
    the mutex of a table and change it in sections under its read-write lock; readers run in
    between, under that lock only; entries whose last reference a user gives up are freed by a
    work item; references to net devices are given up in RCU callbacks. The model has one thread
    per table that holds the mutex, a list of the sections it has still to do, and the steps of
    users, work items and callbacks in any order between the sections. *)

From Stdlib Require Import ZArith Lia.
From stdpp Require Import base tactics numbers list option gmap gmultiset.
From S2P Require Import Prelude Outcome.

Local Open Scope Z_scope.

(** ** Data *)

Definition ENOENT : Z := 2.
Definition ENOSPC : Z := 28.
Definition ENODATA : Z := 61.

Definition GID_ATTR_FIND_MASK_GID : Z := 1.
Definition GID_ATTR_FIND_MASK_NETDEV : Z := 2.
Definition GID_ATTR_FIND_MASK_DEFAULT : Z := 4.
Definition GID_ATTR_FIND_MASK_GID_TYPE : Z := 8.

Definition IB_GID_TYPE_SIZE : Z := 3.

Inductive gid_table_entry_state := GID_TABLE_ENTRY_INVALID | GID_TABLE_ENTRY_VALID | GID_TABLE_ENTRY_PENDING_DEL.
#[export] Instance gid_table_entry_state_eq_dec : EqDecision gid_table_entry_state.
Proof. solve_decision. Defined.

(** A GID is a number of 128 bits, a net device a number. *)
Record ib_gid_attr := {
  a_ndev : option Z;
  a_gid : Z;
  a_type : Z;
  a_index : Z;
  a_port : Z
}.

Record ib_gid_table_entry := {
  e_kref : Z;
  e_attr : ib_gid_attr;
  e_ndev_storage : option Z;
  e_state : gid_table_entry_state
}.

(** The device: the sizes of the tables, the indices of default GIDs, the protocol of the ports,
    and whether the driver has the operations [add_gid] and [del_gid] of a hardware table. *)
Record device := {
  d_ports : list Z;
  d_sz : Z -> Z;
  d_default : Z -> Z;
  d_roce : Z -> bool;
  d_iwarp : Z -> bool;
  d_gid_ops : bool
}.

Definition rdma_cap_roce_gid_table (d : device) (port : Z) : bool := d_roce d port && d_gid_ops d.

(** The sections of a thread that holds the mutex of a table. *)
Inductive sect :=
| S_add (gid type : Z) (ndev : option Z) (mask : Z) (dflt : bool)
| S_add_done
| S_modify (a : ib_gid_attr)
| S_alloc (a : ib_gid_attr)
| S_roce (e : positive)
| S_store (e : positive)
| S_del_mark (ix : Z)
| S_del_hw (e : positive)
| S_del_put (e : positive)
| S_del (gid type : Z) (ndev : option Z) (mask : Z) (dflt : bool)
| S_dispatch
| S_dispatch_unlocked
| S_del_netdev (ndev : option Z) (ix : Z) (deleted : bool)
| S_cleanup (ix : Z)
| S_config (i len : Z) (ndev : option Z).

Record thread := {
  t_ret : Z;
  t_todo : list sect
}.

(** What clients see: the result of an operation, a GID change event. *)
Inductive notice := N_ret (port ret : Z) | N_change (port : Z).

(** [slots] are the pointers of the tables, by port and index; [works] the queued work items;
    [rcu] the net devices of the queued callbacks; [hw] the indices of the hardware tables in
    use; [nrefs] the references to net devices taken and not given up; [holders] the references
    to entries users have; [busy] the holders of the mutexes; [unlocked] the threads that have
    given the mutex back and have still to report a change (port and result). *)
Record cache := {
  slots : gmap (Z * Z) positive;
  entries : gmap positive ib_gid_table_entry;
  works : list positive;
  rcu : list Z;
  hw : gset (Z * Z);
  nrefs : gmultiset Z;
  holders : gmultiset positive;
  busy : gmap Z thread;
  unlocked : list (Z * Z);
  notices : list notice
}.

Definition with_slots x s := {| slots := x; entries := entries s; works := works s; rcu := rcu s; hw := hw s; nrefs := nrefs s; holders := holders s; busy := busy s; unlocked := unlocked s; notices := notices s |}.
Definition with_entries x s := {| slots := slots s; entries := x; works := works s; rcu := rcu s; hw := hw s; nrefs := nrefs s; holders := holders s; busy := busy s; unlocked := unlocked s; notices := notices s |}.
Definition with_works x s := {| slots := slots s; entries := entries s; works := x; rcu := rcu s; hw := hw s; nrefs := nrefs s; holders := holders s; busy := busy s; unlocked := unlocked s; notices := notices s |}.
Definition with_rcu x s := {| slots := slots s; entries := entries s; works := works s; rcu := x; hw := hw s; nrefs := nrefs s; holders := holders s; busy := busy s; unlocked := unlocked s; notices := notices s |}.
Definition with_hw x s := {| slots := slots s; entries := entries s; works := works s; rcu := rcu s; hw := x; nrefs := nrefs s; holders := holders s; busy := busy s; unlocked := unlocked s; notices := notices s |}.
Definition with_nrefs x s := {| slots := slots s; entries := entries s; works := works s; rcu := rcu s; hw := hw s; nrefs := x; holders := holders s; busy := busy s; unlocked := unlocked s; notices := notices s |}.
Definition with_holders x s := {| slots := slots s; entries := entries s; works := works s; rcu := rcu s; hw := hw s; nrefs := nrefs s; holders := x; busy := busy s; unlocked := unlocked s; notices := notices s |}.
Definition with_busy x s := {| slots := slots s; entries := entries s; works := works s; rcu := rcu s; hw := hw s; nrefs := nrefs s; holders := holders s; busy := x; unlocked := unlocked s; notices := notices s |}.
Definition with_unlocked x s := {| slots := slots s; entries := entries s; works := works s; rcu := rcu s; hw := hw s; nrefs := nrefs s; holders := holders s; busy := busy s; unlocked := x; notices := notices s |}.
Definition with_notice x s := {| slots := slots s; entries := entries s; works := works s; rcu := rcu s; hw := hw s; nrefs := nrefs s; holders := holders s; busy := busy s; unlocked := unlocked s; notices := notices s ++ [x] |}.

Definition with_kref k x := {| e_kref := k; e_attr := e_attr x; e_ndev_storage := e_ndev_storage x; e_state := e_state x |}.
Definition with_state t x := {| e_kref := e_kref x; e_attr := e_attr x; e_ndev_storage := e_ndev_storage x; e_state := t |}.
Definition without_ndev x :=
  {| e_kref := e_kref x;
     e_attr := {| a_ndev := None; a_gid := a_gid (e_attr x); a_type := a_type (e_attr x); a_index := a_index (e_attr x); a_port := a_port (e_attr x) |};
     e_ndev_storage := None; e_state := e_state x |}.

Definition e_place (x : ib_gid_table_entry) : Z * Z := (a_port (e_attr x), a_index (e_attr x)).

Section code.
Context (d : device).

(** ** Looking into a table *)

Definition rdma_is_zero_gid (gid : Z) : bool := gid =? 0.

Definition is_gid_index_default (port index : Z) : bool := (index <? 32) && Z.testbit (d_default d port) index.

(** The entry at an index. *)
Definition entry_at (s : cache) (port ix : Z) : option (positive * ib_gid_table_entry) :=
  e ← slots s !! (port, ix); x ← entries s !! e; Some (e, x).

Definition is_gid_entry_free (s : cache) (port ix : Z) : bool := match slots s !! (port, ix) with None => true | Some _ => false end.

Definition is_gid_entry_valid (s : cache) (port ix : Z) : bool :=
  match entry_at s port ix with Some (_, x) => bool_decide (e_state x = GID_TABLE_ENTRY_VALID) | None => false end.

(** The tests of [find_gid] on a valid entry. *)
Definition gid_matches (port ix : Z) (a : ib_gid_attr) (gid type : Z) (ndev : option Z) (dflt : bool) (mask : Z) : bool :=
  negb (has_flag mask GID_ATTR_FIND_MASK_GID_TYPE && negb (a_type a =? type)) &&
  negb (has_flag mask GID_ATTR_FIND_MASK_GID && negb (gid =? a_gid a)) &&
  negb (has_flag mask GID_ATTR_FIND_MASK_NETDEV && negb (bool_decide (a_ndev a = ndev))) &&
  negb (has_flag mask GID_ATTR_FIND_MASK_DEFAULT && negb (Bool.eqb (is_gid_index_default port ix) dflt)).

Fixpoint find_gid_loop (s : cache) (port gid type : Z) (ndev : option Z) (dflt : bool) (mask : Z) (pempty : bool) (ixs : list Z) (found empty : Z) : Z * Z :=
  match ixs with
  | [] => (found, empty)
  | i :: r =>
      if (found <? 0) || (empty <? 0) then
        let empty := if pempty && (empty <? 0) && is_gid_entry_free s port i && Bool.eqb dflt (is_gid_index_default port i) then i else empty in
        let found :=
          match entry_at s port i with
          | Some (_, x) =>
              if bool_decide (e_state x = GID_TABLE_ENTRY_VALID) && (found <? 0) && gid_matches port i (e_attr x) gid type ndev dflt mask then i else found
          | None => found
          end in
        find_gid_loop s port gid type ndev dflt mask pempty r found empty
      else (found, empty)
  end.

(** The index of a matching entry and of a free slot, -1 for none. *)
Definition find_gid (s : cache) (port gid type : Z) (ndev : option Z) (dflt : bool) (mask : Z) (pempty : bool) : Z * Z :=
  find_gid_loop s port gid type ndev dflt mask pempty (seqZ 0 (d_sz d port)) (-1) (if pempty then -1 else 0).

(** ** References *)

Definition get_gid_entry (e : positive) (s : cache) : outcome cache :=
  match entries s !! e with
  | Some x => if e_kref x <=? 0 then Bug else Ok (with_entries (<[e := with_kref (e_kref x + 1) x]> (entries s)) s)
  | None => Bug
  end.

(** [put_gid_entry]: the work item frees the entry. *)
Definition put_gid_entry (e : positive) (s : cache) : outcome cache :=
  match entries s !! e with
  | Some x =>
      if e_kref x <=? 0 then Bug else
      let s := with_entries (<[e := with_kref (e_kref x - 1) x]> (entries s)) s in
      Ok (if e_kref x - 1 =? 0 then with_works (works s ++ [e]) s else s)
  | None => Bug
  end.

(** [call_rcu] with [put_gid_ndev]. *)
Definition call_put_ndev (storage : option Z) (s : cache) : cache :=
  match storage with Some n => with_rcu (rcu s ++ [n]) s | None => s end.

Definition free_gid_entry_locked (e : positive) (s : cache) : outcome cache :=
  match entries s !! e with
  | Some x =>
      let s := if bool_decide (slots s !! e_place x = Some e) then with_slots (delete (e_place x) (slots s)) s else s in
      Ok (with_entries (delete e (entries s)) (call_put_ndev (e_ndev_storage x) s))
  | None => Bug
  end.

Definition put_gid_entry_locked (e : positive) (s : cache) : outcome cache :=
  match entries s !! e with
  | Some x =>
      if e_kref x <=? 0 then Bug else
      let s := with_entries (<[e := with_kref (e_kref x - 1) x]> (entries s)) s in
      if e_kref x - 1 =? 0 then free_gid_entry_locked e s else Ok s
  | None => Bug
  end.

(** ** The sections of the writers *)

(** [add_modify_gid] goes on with [alloc_gid_entry], [add_roce_gid] and [store_gid_entry];
    [del_gid] is three sections. *)

(** What a section meets: the memory it gets, the answers of the driver. *)
Record meets := {
  m_alloc : option positive;
  m_storage : bool;
  m_add_gid : Z;
  m_query_gid : Z + Z;
  m_netdev : option Z
}.

(** The state after a section, the result so far, and the sections it adds before the rest. *)
Definition next (ret : Z) (l : list sect) (s : cache) : outcome (cache * Z * list sect) := Ok (s, ret, l).

(** [__ib_cache_gid_add]: a place for the GID. *)
Definition __ib_cache_gid_add (port gid type : Z) (ndev : option Z) (mask : Z) (dflt : bool) (s : cache) : outcome (cache * Z * list sect) :=
  let '(ix, empty) := find_gid s port gid type ndev dflt mask true in
  if 0 <=? ix then next 0 [] s
  else if empty <? 0 then next (err ENOSPC) [] s
  else next 0 [S_modify {| a_ndev := ndev; a_gid := gid; a_type := type; a_index := empty; a_port := port |}; S_add_done] s.

(** Its end: the event, if the GID was added. *)
Definition gid_add_done (ret : Z) (s : cache) : outcome (cache * Z * list sect) :=
  if ret =? 0 then next ret [S_dispatch] s else next ret [] s.

(** [add_modify_gid]: an old entry of the index goes first. *)
Definition add_modify_gid (port : Z) (a : ib_gid_attr) (s : cache) : outcome (cache * Z * list sect) :=
  next 0 ((if is_gid_entry_valid s port (a_index a) then [S_del_mark (a_index a)] else []) ++ [S_alloc a]) s.

(** [alloc_gid_entry], unless the GID is zero. *)
Definition alloc_gid_entry (port : Z) (c : meets) (a : ib_gid_attr) (s : cache) : outcome (cache * Z * list sect) :=
  if rdma_is_zero_gid (a_gid a) then next 0 [] s else
  match m_alloc c with
  | Some e =>
      if bool_decide (is_Some (entries s !! e)) then Block else
      match a_ndev a, m_storage c with
      | Some n, false => next (err ENOMEM) [] s
      | nd, _ =>
          let s := with_entries (<[e := {| e_kref := 1; e_attr := a; e_ndev_storage := nd; e_state := GID_TABLE_ENTRY_INVALID |}]> (entries s)) s in
          let s := match nd with Some n => with_nrefs (nrefs s ⊎ {[+ n +]}) s | None => s end in
          next 0 [if d_roce d port then S_roce e else S_store e] s
      end
  | None => next (err ENOMEM) [] s
  end.

(** [add_roce_gid]; an entry that is not accepted is given up. *)
Definition add_roce_gid (port : Z) (c : meets) (e : positive) (s : cache) : outcome (cache * Z * list sect) :=
  match entries s !! e with
  | Some x =>
      match a_ndev (e_attr x) with
      | None => s ← put_gid_entry e s; next (err EINVAL) [] s
      | Some _ =>
          if rdma_cap_roce_gid_table d port then
            if m_add_gid c =? 0 then
              if bool_decide (e_place x ∈ hw s) then Bug else next 0 [S_store e] (with_hw ({[e_place x]} ∪ hw s) s)
            else s ← put_gid_entry e s; next (m_add_gid c) [] s
          else next 0 [S_store e] s
      end
  | None => Bug
  end.

Definition store_gid_entry (e : positive) (s : cache) : outcome (cache * Z * list sect) :=
  match entries s !! e with
  | Some x => next 0 [] (with_slots (<[e_place x := e]> (slots s)) (with_entries (<[e := with_state GID_TABLE_ENTRY_VALID x]> (entries s)) s))
  | None => Bug
  end.

(** [del_gid], first section: the entry is marked and, on a port that is no RoCE port, taken out
    of the table. *)
Definition del_gid_mark (port ret ix : Z) (s : cache) : outcome (cache * Z * list sect) :=
  match entry_at s port ix with
  | Some (e, x) =>
      let s := with_entries (<[e := with_state GID_TABLE_ENTRY_PENDING_DEL x]> (entries s)) s in
      next ret [S_del_hw e] (if d_roce d port then s else with_slots (delete (port, ix) (slots s)) s)
  | None => Bug
  end.

(** [del_gid], second section: the driver deletes it. *)
Definition del_gid_hw (port ret : Z) (e : positive) (s : cache) : outcome (cache * Z * list sect) :=
  match entries s !! e with
  | Some x =>
      if rdma_cap_roce_gid_table d port then
        if bool_decide (e_place x ∈ hw s) then next ret [S_del_put e] (with_hw (hw s ∖ {[e_place x]}) s) else Bug
      else next ret [S_del_put e] s
  | None => Bug
  end.

(** [del_gid], third section: its net device and the reference of the table are given up. *)
Definition del_gid_put (ret : Z) (e : positive) (s : cache) : outcome (cache * Z * list sect) :=
  match entries s !! e with
  | Some x =>
      let s := match e_ndev_storage x with
               | Some n => call_put_ndev (Some n) (with_entries (<[e := without_ndev x]> (entries s)) s)
               | None => s
               end in
      s ← put_gid_entry_locked e s; next ret [] s
  | None => Bug
  end.

Definition _ib_cache_gid_del (port gid type : Z) (ndev : option Z) (mask : Z) (dflt : bool) (s : cache) : outcome (cache * Z * list sect) :=
  let ix := (find_gid s port gid type ndev dflt mask false).1 in
  if ix <? 0 then next (err EINVAL) [] s else next 0 [S_del_mark ix; S_dispatch] s.

Definition dispatch_gid_change_event (port ret : Z) (s : cache) : outcome (cache * Z * list sect) :=
  next ret [] (with_notice (N_change port) s).

(** A round of the loop; the event comes after the mutex is given back. *)
Definition ib_cache_gid_del_all_netdev_gids (port : Z) (ndev : option Z) (ix : Z) (deleted : bool) (s : cache) : outcome (cache * Z * list sect) :=
  if ix <? d_sz d port then
    match entry_at s port ix with
    | Some (_, x) =>
        if bool_decide (e_state x = GID_TABLE_ENTRY_VALID) && bool_decide (a_ndev (e_attr x) = ndev)
        then next 0 [S_del_mark ix; S_del_netdev ndev (ix + 1) true] s
        else next 0 [S_del_netdev ndev (ix + 1) deleted] s
    | None => next 0 [S_del_netdev ndev (ix + 1) deleted] s
    end
  else next 0 (if deleted then [S_dispatch_unlocked] else []) s.

(** A round of the loop. *)
Definition cleanup_gid_table_port (port ix : Z) (s : cache) : outcome (cache * Z * list sect) :=
  if ix <? d_sz d port then next 0 ((if is_gid_entry_valid s port ix then [S_del_mark ix] else []) ++ [S_cleanup (ix + 1)]) s
  else next 0 [] s.

(** A round of the loop of [config_non_roce_gid_cache]; a driver without [query_gid] has [len] 0.
    The subnet prefix it leaves is in PortCache.v. *)
Definition config_non_roce_gids (port : Z) (c : meets) (i len : Z) (ndev : option Z) (s : cache) : outcome (cache * Z * list sect) :=
  if i <? len then
    match m_query_gid c with
    | inl e => next e [] s
    | inr gid =>
        match (if d_iwarp d port then m_netdev c else ndev), d_iwarp d port with
        | None, true => next 0 [S_config (i + 1) len ndev] s
        | nd, _ => next 0 [S_modify {| a_ndev := nd; a_gid := gid; a_type := 0; a_index := i; a_port := port |}; S_config (i + 1) len nd] s
        end
    end
  else next 0 [] s.

Definition run_sect (port : Z) (c : meets) (ret : Z) (k : sect) (s : cache) : outcome (cache * Z * list sect) :=
  match k with
  | S_add gid type ndev mask dflt => __ib_cache_gid_add port gid type ndev mask dflt s
  | S_add_done => gid_add_done ret s
  | S_modify a => add_modify_gid port a s
  | S_alloc a => alloc_gid_entry port c a s
  | S_roce e => add_roce_gid port c e s
  | S_store e => store_gid_entry e s
  | S_del_mark ix => del_gid_mark port ret ix s
  | S_del_hw e => del_gid_hw port ret e s
  | S_del_put e => del_gid_put ret e s
  | S_del gid type ndev mask dflt => _ib_cache_gid_del port gid type ndev mask dflt s
  | S_dispatch => dispatch_gid_change_event port ret s
  | S_dispatch_unlocked => Block
  | S_del_netdev ndev ix deleted => ib_cache_gid_del_all_netdev_gids port ndev ix deleted s
  | S_cleanup ix => cleanup_gid_table_port port ix s
  | S_config i len ndev => config_non_roce_gids port c i len ndev s
  end.

(** ** The operations of the writers *)

Inductive gid_op :=
| Op_add (gid type : Z) (ndev : option Z)
| Op_del (gid type : Z) (ndev : option Z)
| Op_default_add (gid type : Z) (ndev : option Z)
| Op_default_del (type : Z) (ndev : option Z)
| Op_del_netdev (ndev : option Z)
| Op_cleanup
| Op_config (len : Z).

Definition DEFAULT_MASK : Z := Z.lor GID_ATTR_FIND_MASK_GID_TYPE (Z.lor GID_ATTR_FIND_MASK_DEFAULT GID_ATTR_FIND_MASK_NETDEV).
Definition ADD_MASK : Z := Z.lor GID_ATTR_FIND_MASK_GID (Z.lor GID_ATTR_FIND_MASK_GID_TYPE GID_ATTR_FIND_MASK_NETDEV).
Definition DEL_MASK : Z := Z.lor ADD_MASK GID_ATTR_FIND_MASK_DEFAULT.

(** The sections of an operation, or the error it returns before it takes the mutex. *)
Definition op_sects (op : gid_op) : Z + list sect :=
  match op with
  | Op_add gid type ndev => if rdma_is_zero_gid gid then inl (err EINVAL) else inr [S_add gid type ndev ADD_MASK false]
  | Op_del gid type ndev => inr [S_del gid type ndev DEL_MASK false]
  | Op_default_add gid type ndev => if rdma_is_zero_gid gid then inl (err EINVAL) else inr [S_add gid type ndev DEFAULT_MASK true]
  | Op_default_del type ndev => inr [S_del 0 type ndev DEFAULT_MASK true]
  | Op_del_netdev ndev => inr [S_del_netdev ndev 0 false]
  | Op_cleanup => inr [S_cleanup 0]
  | Op_config len => inr [S_config 0 len None]
  end.

(** [make_default_gid]: the link-local prefix and the interface identifier of the net device. *)
Definition make_default_gid (ifid : Z) : Z := Z.lor (Z.shiftl 0xfe80000000000000 64) ifid.

(** The operations of [ib_cache_gid_set_default_gid]; [set] tells the mode. *)
Definition ib_cache_gid_set_default_gid (ifid : Z) (ndev : option Z) (gid_type_mask : Z) (set : bool) : list gid_op :=
  (fun type => if set then Op_default_add (make_default_gid ifid) type ndev else Op_default_del type ndev) <$>
    filter (fun type => Z.testbit gid_type_mask type = true) (seqZ 0 IB_GID_TYPE_SIZE).

(** ** Users *)

(** A reference on the entry at an index. *)
Definition take_at (port ix : Z) (s : cache) : outcome (cache * (Z + positive)) :=
  match slots s !! (port, ix) with
  | Some e => s ← get_gid_entry e s; Ok (with_holders (holders s ⊎ {[+ e +]}) s, inr e)
  | None => Bug
  end.

Definition rdma_is_port_valid (port : Z) : bool := bool_decide (port ∈ d_ports d).

Definition find_mask (ndev : option Z) : Z :=
  Z.lor (Z.lor GID_ATTR_FIND_MASK_GID GID_ATTR_FIND_MASK_GID_TYPE) (match ndev with Some _ => GID_ATTR_FIND_MASK_NETDEV | None => 0 end).

Definition rdma_find_gid_by_port (port gid type : Z) (ndev : option Z) (s : cache) : outcome (cache * (Z + positive)) :=
  if negb (rdma_is_port_valid port) then Ok (s, inl (err ENOENT)) else
  let ix := (find_gid s port gid type ndev false (find_mask ndev) false).1 in
  if 0 <=? ix then take_at port ix s else Ok (s, inl (err ENOENT)).

(** The ports are searched one after the other, each under the lock of its table. A port
    without the GID changes nothing: with steps of other threads in between, the search is the
    search of the port that has it. *)
Fixpoint rdma_find_gid (ports : list Z) (gid type : Z) (ndev : option Z) (s : cache) : outcome (cache * (Z + positive)) :=
  match ports with
  | [] => Ok (s, inl (err ENOENT))
  | p :: r =>
      let ix := (find_gid s p gid type ndev false (find_mask ndev) false).1 in
      if 0 <=? ix then take_at p ix s else rdma_find_gid r gid type ndev s
  end.

Fixpoint filter_loop (port gid : Z) (filter : ib_gid_attr -> bool) (ixs : list Z) (s : cache) : outcome (cache * (Z + positive)) :=
  match ixs with
  | [] => Ok (s, inl (err ENOENT))
  | i :: r =>
      match entry_at s port i with
      | Some (_, x) =>
          if bool_decide (e_state x = GID_TABLE_ENTRY_VALID) && (gid =? a_gid (e_attr x)) && filter (e_attr x)
          then take_at port i s else filter_loop port gid filter r s
      | None => filter_loop port gid filter r s
      end
  end.

Definition rdma_find_gid_by_filter (port gid : Z) (filter : ib_gid_attr -> bool) (s : cache) : outcome (cache * (Z + positive)) :=
  if negb (rdma_is_port_valid port) then Ok (s, inl (err EINVAL)) else filter_loop port gid filter (seqZ 0 (d_sz d port)) s.

Definition rdma_get_gid_attr (port index : Z) (s : cache) : outcome (cache * (Z + positive)) :=
  if negb (rdma_is_port_valid port) then Ok (s, inl (err EINVAL)) else
  if (index <? 0) || (d_sz d port <=? index) then Ok (s, inl (err EINVAL)) else
  if negb (is_gid_entry_valid s port index) then Ok (s, inl (err ENODATA)) else take_at port index s.

(** Users hold and give up references they have. *)
Definition rdma_hold_gid_attr (e : positive) (s : cache) : outcome cache :=
  if bool_decide (e ∈ holders s) then s ← get_gid_entry e s; Ok (with_holders (holders s ⊎ {[+ e +]}) s) else Block.

Definition rdma_put_gid_attr (e : positive) (s : cache) : outcome cache :=
  if bool_decide (e ∈ holders s) then put_gid_entry e (with_holders (holders s ∖ {[+ e +]}) s) else Block.

(** Reading the table. *)
Definition rdma_query_gid (port index : Z) (s : cache) : Z + Z :=
  if negb (rdma_is_port_valid port) then inl (err EINVAL) else
  if (index <? 0) || (d_sz d port <=? index) then inl (err EINVAL) else
  match entry_at s port index with
  | Some (_, x) => if bool_decide (e_state x = GID_TABLE_ENTRY_VALID) then inr (a_gid (e_attr x)) else inl (err ENOENT)
  | None => inl (err ENOENT)
  end.

Definition valid_attrs (port : Z) (s : cache) : list ib_gid_attr :=
  omap (fun i => match entry_at s port i with
                 | Some (_, x) => if bool_decide (e_state x = GID_TABLE_ENTRY_VALID) then Some (e_attr x) else None
                 | None => None end) (seqZ 0 (d_sz d port)).

(** The entries of all ports, if there is room for them. *)
Fixpoint rdma_query_gid_table (ports : list Z) (acc : list ib_gid_attr) (max_entries : Z) (s : cache) : Z + list ib_gid_attr :=
  match ports with
  | [] => inr acc
  | p :: r =>
      if max_entries <? Z.of_nat (length (acc ++ valid_attrs p s)) then inl (err EINVAL)
      else rdma_query_gid_table r (acc ++ valid_attrs p s) max_entries s
  end.

(** Both look at the slot of the entry, not at the entry. *)
Definition rdma_is_gid_attr_valid (a : ib_gid_attr) (s : cache) : bool := is_gid_entry_valid s (a_port a) (a_index a).

Definition rdma_read_gid_attr_ndev_rcu (a : ib_gid_attr) (s : cache) : Z + Z :=
  if is_gid_entry_valid s (a_port a) (a_index a)
  then match a_ndev a with Some n => inr n | None => inl (err ENODEV) end
  else inl (err EINVAL).

(** The entries [release_gid_table] finds still in the table, with their counts. *)
Definition release_gid_table (port : Z) (s : cache) : list (Z * Z) :=
  omap (fun i => match entry_at s port i with Some (_, x) => Some (i, e_kref x) | None => None end) (seqZ 0 (d_sz d port)).

(** ** Steps *)

Inductive gstep :=
| G_start (port : Z) (op : gid_op)
| G_sect (port : Z) (c : meets)
| G_end (port : Z)
| G_unlocked (port ret : Z)
| G_work (e : positive)
| G_rcu (n : Z)
| G_find_port (port gid type : Z) (ndev : option Z)
| G_find (gid type : Z) (ndev : option Z)
| G_filter (port gid : Z) (f : ib_gid_attr -> bool)
| G_get (port index : Z)
| G_hold (e : positive)
| G_put (e : positive).

Definition g_run (g : gstep) (s : cache) : outcome cache :=
  match g with
  | G_start port op =>
      if bool_decide (port ∈ d_ports d) then
        match op_sects op with
        | inl ret => Ok (with_notice (N_ret port ret) s)
        | inr l =>
            match busy s !! port with
            | Some _ => Block
            | None => Ok (with_busy (<[port := {| t_ret := 0; t_todo := l |}]> (busy s)) s)
            end
        end
      else Block
  | G_sect port c =>
      match busy s !! port with
      | Some {| t_ret := ret; t_todo := k :: r |} =>
          '(s, ret, l) ← run_sect port c ret k s;
          Ok (with_busy (<[port := {| t_ret := ret; t_todo := l ++ r |}]> (busy s)) s)
      | _ => Block
      end
  | G_end port =>
      match busy s !! port with
      | Some {| t_ret := ret; t_todo := [] |} => Ok (with_notice (N_ret port ret) (with_busy (delete port (busy s)) s))
      | Some {| t_ret := ret; t_todo := [S_dispatch_unlocked] |} => Ok (with_unlocked (unlocked s ++ [(port, ret)]) (with_busy (delete port (busy s)) s))
      | _ => Block
      end
  | G_unlocked port ret =>
      if bool_decide ((port, ret) ∈ unlocked s)
      then Ok (with_notice (N_ret port ret) (with_notice (N_change port) (with_unlocked (remove_first (port, ret) (unlocked s)) s)))
      else Block
  | G_work e =>
      if bool_decide (e ∈ works s) then
        match entries s !! e with
        | Some x =>
            match busy s !! a_port (e_attr x) with
            | Some _ => Block
            | None => free_gid_entry_locked e (with_works (remove_first e (works s)) s)
            end
        | None => Bug
        end
      else Block
  | G_rcu n =>
      if bool_decide (n ∈ rcu s) then
        if bool_decide (n ∈ nrefs s) then Ok (with_nrefs (nrefs s ∖ {[+ n +]}) (with_rcu (remove_first n (rcu s)) s)) else Bug
      else Block
  | G_find_port port gid type ndev => s ← rdma_find_gid_by_port port gid type ndev s; Ok s.1
  | G_find gid type ndev => s ← rdma_find_gid (d_ports d) gid type ndev s; Ok s.1
  | G_filter port gid f => s ← rdma_find_gid_by_filter port gid f s; Ok s.1
  | G_get port index => s ← rdma_get_gid_attr port index s; Ok s.1
  | G_hold e => rdma_hold_gid_attr e s
  | G_put e => rdma_put_gid_attr e s
  end.

(** What the driver promises: [config_non_roce_gid_cache] runs for ports that are no RoCE ports,
    and the GID table such a port reports is not longer than the table that was made for it. *)
Definition client_ok (g : gstep) : Prop :=
  match g with
  | G_start port (Op_config len) => d_roce d port = false /\ len <= d_sz d port
  | G_start port _ => True
  | _ => True
  end.

Definition device_ok : Prop := forall p, 0 <= d_sz d p.

Definition cache_init : cache :=
  {| slots := ∅; entries := ∅; works := []; rcu := []; hw := ∅; nrefs := ∅; holders := ∅; busy := ∅; unlocked := []; notices := [] |}.

Inductive g_reachable : cache -> Prop :=
| g_init : g_reachable cache_init
| g_next s g s' : g_reachable s -> client_ok g -> g_run g s = Ok s' -> g_reachable s'.
End code.

(** The code of a section. *)
Tactic Notation "open_sect" :=
  cbn [run_sect]; unfold __ib_cache_gid_add, gid_add_done, add_modify_gid, alloc_gid_entry, add_roce_gid, store_gid_entry, del_gid_mark, del_gid_hw, del_gid_put, _ib_cache_gid_del, dispatch_gid_change_event, ib_cache_gid_del_all_netdev_gids, cleanup_gid_table_port, config_non_roce_gids.
Tactic Notation "open_sect" "in" hyp(H) :=
  cbn [run_sect] in H; unfold __ib_cache_gid_add, gid_add_done, add_modify_gid, alloc_gid_entry, add_roce_gid, store_gid_entry, del_gid_mark, del_gid_hw, del_gid_put, _ib_cache_gid_del, dispatch_gid_change_event, ib_cache_gid_del_all_netdev_gids, cleanup_gid_table_port, config_non_roce_gids in H.
