(* ===== verification/GidInv.v ===== *)
(** * The GID cache: the invariant

    Every entry is in one phase of its life; the phase says who has the reference of the table,
    whether a slot and the hardware table have it, and whether it has a net device. *)

From Stdlib Require Import ZArith Lia.
From stdpp Require Import base tactics numbers list option gmap gmultiset.
From S2P Require Import Prelude Outcome GidCache.

Local Open Scope Z_scope.

(** ** Phases *)

(** [Ph_new], [Ph_added]: the writer has the entry, before and after the driver has it;
    [Ph_marked], [Ph_hwgone]: the writer deletes it, before and after the driver has; [Ph_dead]:
    only users have it; [Ph_failed]: it was never in the table. *)
Inductive phase := Ph_new | Ph_added | Ph_valid | Ph_marked | Ph_hwgone | Ph_dead | Ph_failed.

Definition ph_state (f : phase) : gid_table_entry_state :=
  match f with
  | Ph_new | Ph_added | Ph_failed => GID_TABLE_ENTRY_INVALID
  | Ph_valid => GID_TABLE_ENTRY_VALID
  | Ph_marked | Ph_hwgone | Ph_dead => GID_TABLE_ENTRY_PENDING_DEL
  end.

(** The reference of the table or its writer. *)
Definition ph_ref (f : phase) : Z := match f with Ph_dead | Ph_failed => 0 | _ => 1 end.

Definition ph_slot (roce : bool) (f : phase) : bool :=
  match f with Ph_valid => true | Ph_marked | Ph_hwgone | Ph_dead => roce | _ => false end.

Definition ph_hw (f : phase) : bool := match f with Ph_added | Ph_valid | Ph_marked => true | _ => false end.

(** Entries no user has seen. *)
Definition ph_private (f : phase) : bool := match f with Ph_new | Ph_added | Ph_failed => true | _ => false end.

(** The section of the writer that has the entry. *)
Definition ph_sect (f : phase) (e : positive) : option sect :=
  match f with
  | Ph_new => Some (S_roce e)
  | Ph_added => Some (S_store e)
  | Ph_marked => Some (S_del_hw e)
  | Ph_hwgone => Some (S_del_put e)
  | _ => None
  end.

(** ** References to net devices *)

Definition ref1 (n : option Z) : gmultiset Z := match n with Some n => {[+ n +]} | None => ∅ end.
Definition storages (m : gmap positive ib_gid_table_entry) : gmultiset Z := map_fold (fun _ x acc => ref1 (e_ndev_storage x) ⊎ acc) ∅ m.

Lemma storages_insert m e x : m !! e = None -> storages (<[e := x]> m) = ref1 (e_ndev_storage x) ⊎ storages m.
Proof. intros H. unfold storages. rewrite map_fold_insert_L; [done| |done]. intros. multiset_solver. Qed.

Lemma storages_delete m e x : m !! e = Some x -> storages m = ref1 (e_ndev_storage x) ⊎ storages (delete e m).
Proof. intros H. rewrite <- (insert_delete_id m e x) at 1 by done. apply storages_insert. apply lookup_delete_eq. Qed.

Lemma storages_update m e x y : m !! e = Some x ->
  storages (<[e := y]> m) ⊎ ref1 (e_ndev_storage x) = storages m ⊎ ref1 (e_ndev_storage y).
Proof.
  intros H. rewrite (storages_delete m e x) by done. rewrite <- (insert_delete_eq m e y), storages_insert by apply lookup_delete_eq. multiset_solver.
Qed.

Section inv.
Context (d : device).

(** ** Looking up *)

(** The attributes of the valid entry at an index. *)
Definition valid_at (s : cache) (p i : Z) : option ib_gid_attr :=
  match entry_at s p i with
  | Some (_, x) => if decide (e_state x = GID_TABLE_ENTRY_VALID) then Some (e_attr x) else None
  | None => None
  end.

Lemma valid_at_Some s p i a : valid_at s p i = Some a <->
  exists e x, slots s !! (p, i) = Some e /\ entries s !! e = Some x /\ e_state x = GID_TABLE_ENTRY_VALID /\ a = e_attr x.
Proof.
  unfold valid_at, entry_at. destruct (slots s !! (p, i)) as [e|] eqn:E1; cbn; [|naive_solver].
  destruct (entries s !! e) as [x|] eqn:E2; cbn; [|naive_solver]. case_decide; naive_solver.
Qed.

Lemma is_valid_at s p i : is_gid_entry_valid s p i = true <-> is_Some (valid_at s p i).
Proof.
  unfold is_gid_entry_valid, valid_at. destruct (entry_at s p i) as [[e x]|]; [|split; [done|by intros []]].
  rewrite bool_decide_eq_true. case_decide; split; done || (by intros []).
Qed.

(** A matching entry; a free slot of the right kind. *)
Definition hit (s : cache) (p gid type : Z) (ndev : option Z) (dflt : bool) (mask i : Z) : bool :=
  match valid_at s p i with Some a => gid_matches d p i a gid type ndev dflt mask | None => false end.
Definition vacant (s : cache) (p : Z) (dflt : bool) (i : Z) : bool := is_gid_entry_free s p i && Bool.eqb dflt (is_gid_index_default d p i).

(** The loop of [find_gid] looks for the first hit and the first vacant slot. *)
Record found (P Q : Z -> bool) (pempty : bool) (n : Z) (r : Z * Z) : Prop := {
  fo_found : 0 <= r.1 -> r.1 < n /\ P r.1 = true /\ forall i, 0 <= i < r.1 -> P i = false;
  fo_none : r.1 < 0 -> forall i, 0 <= i < n -> P i = false;
  fo_empty : pempty = true -> 0 <= r.2 -> r.2 < n /\ Q r.2 = true /\ forall i, 0 <= i < r.2 -> Q i = false;
  fo_full : pempty = true -> r.2 < 0 -> forall i, 0 <= i < n -> Q i = false
}.

Lemma find_loop_found s p gid type ndev dflt mask pempty n : forall k i fd em,
  let P := hit s p gid type ndev dflt mask in let Q := vacant s p dflt in
  Z.of_nat k = n - i -> 0 <= i -> found P Q pempty i (fd, em) ->
  found P Q pempty n (find_gid_loop d s p gid type ndev dflt mask pempty (seqZ i (Z.of_nat k)) fd em).
Proof.
  induction k as [|k IH]; intros i fd em P Q Hk Hi HF.
  { replace n with i by lia. done. }
  rewrite (seqZ_cons i) by lia. replace (Z.pred (Z.of_nat (S k))) with (Z.of_nat k) by lia. replace (Z.succ i) with (i + 1) by lia. cbn [find_gid_loop].
  pose proof HF as [F1 F2 F3 F4]. cbn [fst snd] in *. destruct ((fd <? 0) || (em <? 0)) eqn:EC.
  2:{ apply orb_false_iff in EC as [E1 E2]. apply Z.ltb_ge in E1, E2. constructor; cbn [fst snd]; try lia.
      - intros _. destruct (F1 E1) as (G1 & G2 & G3). split; [lia|done].
      - intros Hpe _. destruct (F3 Hpe E2) as (G1 & G2 & G3). split; [lia|done]. }
  set (em' := if pempty && _ && _ && _ then i else em). set (fd' := match entry_at s p i with Some _ => _ | None => fd end).
  assert (fd' = if (fd <? 0) && P i then i else fd) as ->.
  { unfold fd', P, hit, valid_at. destruct (entry_at s p i) as [[e x]|]; [|by rewrite andb_false_r].
    destruct (bool_decide_reflect (e_state x = GID_TABLE_ENTRY_VALID)); [rewrite decide_True by done|rewrite decide_False by done; rewrite andb_false_r];
      by destruct (fd <? 0). }
  assert (em' = if pempty && (em <? 0) && Q i then i else em) as ->.
  { unfold em', Q, vacant. by rewrite andb_assoc. }
  apply IH; [lia|lia|]. assert (forall j, 0 <= j < i + 1 -> j = i \/ 0 <= j < i) as Hj by lia.
  constructor; cbn [fst snd].
  - intros H. destruct (Z.ltb_spec fd 0), (P i) eqn:EP; cbn [andb] in *; try lia; [|destruct (F1 H) as (G1 & G2 & G3); split; [lia|done]..].
    split; [lia|]. split; [done|]. intros j Hlt. by apply F2.
  - intros H j Hlt. destruct (Z.ltb_spec fd 0), (P i) eqn:EP; cbn [andb] in *; try lia. destruct (Hj j Hlt) as [->|]; [done|]. by apply F2.
  - intros -> H. cbn [andb] in *. destruct (Z.ltb_spec em 0), (Q i) eqn:EQ; cbn [andb] in *; try lia; [|destruct (F3 eq_refl H) as (G1 & G2 & G3); split; [lia|done]..].
    split; [lia|]. split; [done|]. intros j Hlt. by apply F4.
  - intros -> H j Hlt. cbn [andb] in *. destruct (Z.ltb_spec em 0), (Q i) eqn:EQ; cbn [andb] in *; try lia. destruct (Hj j Hlt) as [->|]; [done|]. by apply F4.
Qed.

Lemma find_gid_found s p gid type ndev dflt mask pempty : 0 <= d_sz d p ->
  found (hit s p gid type ndev dflt mask) (vacant s p dflt) pempty (d_sz d p) (find_gid d s p gid type ndev dflt mask pempty).
Proof.
  intros Hn. unfold find_gid. rewrite <- (Z2Nat.id (d_sz d p)) at 2 by done. apply find_loop_found; [lia|lia|].
  constructor; cbn [fst snd]; try lia. destruct pempty; lia || done.
Qed.

(** ** The invariant *)

Record entry_ok (s : cache) (e : positive) (x : ib_gid_table_entry) (f : phase) : Prop := {
  eo_state : e_state x = ph_state f;
  eo_kref : e_kref x = ph_ref f + Z.of_nat (multiplicity e (holders s));
  eo_private : ph_private f = true -> multiplicity e (holders s) = 0%nat;
  eo_storage : e_ndev_storage x = a_ndev (e_attr x);
  eo_dead : f = Ph_dead -> a_ndev (e_attr x) = None;
  eo_slot : slots s !! e_place x = Some e <-> ph_slot (d_roce d (a_port (e_attr x))) f = true;
  eo_work : e ∈ works s <-> e_kref x = 0;
  eo_range : 0 <= a_index (e_attr x) < d_sz d (a_port (e_attr x));
  eo_sect : forall k, ph_sect f e = Some k -> exists ret r, busy s !! a_port (e_attr x) = Some {| t_ret := ret; t_todo := k :: r |}
}.

(** Two entries of a RoCE table that must not be valid at once: both or none are default GIDs,
    for the same type and net device, and have the same GID unless they are default GIDs. *)
Definition conflict (p i : Z) (a : ib_gid_attr) (j : Z) (b : ib_gid_attr) : Prop :=
  is_gid_index_default d p i = is_gid_index_default d p j /\ a_type a = a_type b /\ a_ndev a = a_ndev b /\
  (is_gid_index_default d p i = true \/ a_gid a = a_gid b).

Definition fresh (s : cache) (p : Z) (a : ib_gid_attr) : Prop :=
  d_roce d p = true -> forall j b, valid_at s p j = Some b -> conflict p (a_index a) a j b -> False.

Definition attr_ok (p : Z) (a : ib_gid_attr) : Prop := a_port a = p /\ 0 <= a_index a < d_sz d p.

(** Sections that have nothing in their hands. *)
Definition plain (p : Z) (k : sect) : Prop :=
  match k with
  | S_add_done | S_dispatch | S_dispatch_unlocked => True
  | S_del_netdev _ ix _ => 0 <= ix
  | S_cleanup ix => 0 <= ix
  | S_config i len _ => 0 <= i /\ len <= d_sz d p /\ d_roce d p = false
  | _ => False
  end.

(** What the holder of the mutex of a port has still to do. *)
Inductive todo_ok (s : cache) (ph : gmap positive phase) (p : Z) : list sect -> Prop :=
| T_plain (l : list sect) : Forall (plain p) l -> todo_ok s ph p l
| T_add (gid type : Z) (ndev : option Z) (dflt : bool) (r : list sect) : gid <> 0 -> Forall (plain p) r -> todo_ok s ph p (S_add gid type ndev (if dflt then DEFAULT_MASK else ADD_MASK) dflt :: r)
| T_del (gid type : Z) (ndev : option Z) (mask : Z) (dflt : bool) (r : list sect) : Forall (plain p) r -> todo_ok s ph p (S_del gid type ndev mask dflt :: r)
| T_modify (a : ib_gid_attr) (r : list sect) : attr_ok p a -> (slots s !! (p, a_index a) = None \/ d_roce d p = false) -> fresh s p a -> Forall (plain p) r -> todo_ok s ph p (S_modify a :: r)
| T_alloc (a : ib_gid_attr) (r : list sect) : attr_ok p a -> slots s !! (p, a_index a) = None -> fresh s p a -> Forall (plain p) r -> todo_ok s ph p (S_alloc a :: r)
| T_entry e x f k r : entries s !! e = Some x -> ph !! e = Some f -> ph_sect f e = Some k -> a_port (e_attr x) = p ->
    (slots s !! e_place x = None \/ slots s !! e_place x = Some e) -> (ph_private f = true -> fresh s p (e_attr x)) ->
    Forall (plain p) r -> todo_ok s ph p (k :: r)
| T_mark (ix : Z) (r : list sect) : is_Some (valid_at s p ix) -> Forall (plain p) r -> todo_ok s ph p (S_del_mark ix :: r)
| T_mark_alloc a r : is_Some (valid_at s p (a_index a)) -> d_roce d p = false -> attr_ok p a -> Forall (plain p) r ->
    todo_ok s ph p (S_del_mark (a_index a) :: S_alloc a :: r)
| T_entry_alloc e x f k a r : entries s !! e = Some x -> ph !! e = Some f -> ph_sect f e = Some k -> a_port (e_attr x) = p -> ph_private f = false ->
    (slots s !! e_place x = None \/ slots s !! e_place x = Some e) ->
    d_roce d p = false -> attr_ok p a -> slots s !! (p, a_index a) = None -> Forall (plain p) r -> todo_ok s ph p (k :: S_alloc a :: r).

(** Sections on the way to a new entry. *)
Definition adds (k : sect) : bool :=
  match k with S_add _ _ _ _ _ | S_add_done | S_modify _ | S_alloc _ | S_roce _ | S_store _ | S_config _ _ _ => true | _ => false end.

(** While [cleanup_gid_table_port] runs nothing is added, and the indices it has passed have no
    valid entry. *)
Definition swept (s : cache) (p : Z) (l : list sect) : Prop :=
  forall ix, S_cleanup ix ∈ l -> Forall (fun k => adds k = false) l /\
    forall j, 0 <= j < ix -> is_Some (valid_at s p j) -> head l = Some (S_del_mark j).

Record inv (s : cache) (ph : gmap positive phase) : Prop := {
  i_dom : forall e, is_Some (entries s !! e) <-> is_Some (ph !! e);
  i_ent : forall e x f, entries s !! e = Some x -> ph !! e = Some f -> entry_ok s e x f;
  i_slot : forall P e, slots s !! P = Some e -> exists x, entries s !! e = Some x /\ e_place x = P;
  i_hw : forall P, P ∈ hw s <-> exists e x f, entries s !! e = Some x /\ ph !! e = Some f /\ e_place x = P /\ ph_hw f = true /\ rdma_cap_roce_gid_table d P.1 = true;
  i_works : NoDup (works s) /\ forall e, e ∈ works s -> is_Some (entries s !! e);
  i_hold : forall e, e ∈ holders s -> is_Some (entries s !! e);
  i_nrefs : nrefs s = storages (entries s) ⊎ list_to_set_disj (rcu s);
  i_uniq : forall p i j a b, d_roce d p = true -> valid_at s p i = Some a -> valid_at s p j = Some b -> conflict p i a j b -> i = j;
  i_thr : forall p t, busy s !! p = Some t -> todo_ok s ph p (t_todo t) /\ swept s p (t_todo t)
}.

Lemma gid_init_inv : inv cache_init ∅.
Proof.
  split; cbn.
  - intros e. by rewrite !lookup_empty.
  - intros e x f H. by rewrite lookup_empty in H.
  - intros P e H. by rewrite lookup_empty in H.
  - intros P. split; [set_solver|]. intros (e & x & f & H & _). by rewrite lookup_empty in H.
  - split; [constructor|]. intros e H. by apply not_elem_of_nil in H.
  - intros e H. multiset_solver.
  - unfold storages. rewrite map_fold_empty. multiset_solver.
  - intros p i j a b _ H. apply valid_at_Some in H as (e & x & H & _). cbn in H. by rewrite lookup_empty in H.
  - intros p t H. by rewrite lookup_empty in H.
Qed.

(** *** Frames *)

(** What a thread relies on is on its port. *)
Lemma todo_frame s s' ph ph' p l : todo_ok s ph p l ->
  (forall i, slots s' !! (p, i) = slots s !! (p, i)) -> (forall i, valid_at s' p i = valid_at s p i) ->
  (forall e x f, entries s !! e = Some x -> ph !! e = Some f -> a_port (e_attr x) = p -> ph_sect f e <> None ->
    exists x', entries s' !! e = Some x' /\ e_attr x' = e_attr x /\ ph' !! e = Some f) ->
  todo_ok s' ph' p l.
Proof.
  intros H HS HV HE. assert (forall a, fresh s p a -> fresh s' p a) as HF.
  { intros a Hf Hr j b Hb. rewrite HV in Hb. by apply Hf. }
  assert (forall e x f k, entries s !! e = Some x -> ph !! e = Some f -> ph_sect f e = Some k -> a_port (e_attr x) = p ->
    exists x', entries s' !! e = Some x' /\ e_attr x' = e_attr x /\ ph' !! e = Some f) as HE'.
  { intros e x f k H1 H2 H3 H4. apply (HE e x f); try done. by rewrite H3. }
  destruct H as [l HP|gid type ndev dflt r H1 H2|gid type ndev mask dflt r H1|a r H1 H2 H3 H4|a r H1 H2 H3 H4|e x f k r H1 H2 H3 H4 H5 H6 H7|ix r H1 H2|a r H1 H2 H3 H4|e x f k a r H1 H2 H3 H4 H5 H6 H7 H8 H9 H10].
  - by apply T_plain.
  - by apply T_add.
  - by apply T_del.
  - apply T_modify; auto. by rewrite HS.
  - apply T_alloc; auto. by rewrite HS.
  - destruct (HE' e x f k) as (x' & X1 & X2 & X3); try done. eapply T_entry; eauto; [by rewrite X2|unfold e_place in *; rewrite X2, H4 in *; by rewrite HS|rewrite X2; auto].
  - apply T_mark; [by rewrite HV|done].
  - apply T_mark_alloc; try done. by rewrite HV.
  - destruct (HE' e x f k) as (x' & X1 & X2 & X3); try done. eapply T_entry_alloc; eauto; [by rewrite X2|unfold e_place in *; rewrite X2, H4 in *; by rewrite HS|by rewrite HS].
Qed.

Lemma swept_frame s s' p l : swept s p l -> (forall i, valid_at s' p i = valid_at s p i) -> swept s' p l.
Proof. intros H HV ix H1. destruct (H ix H1) as [H2 H3]. split; [done|]. intros j. rewrite HV. apply H3. Qed.

(** What is valid depends on the slots and on the state and the attributes of the entries. *)
Lemma valid_at_shape s s' p i : slots s' !! (p, i) = slots s !! (p, i) ->
  (forall e, slots s !! (p, i) = Some e -> (fun x => (e_attr x, e_state x)) <$> entries s' !! e = (fun x => (e_attr x, e_state x)) <$> entries s !! e) ->
  valid_at s' p i = valid_at s p i.
Proof.
  intros HS HE. unfold valid_at, entry_at. rewrite HS. destruct (slots s !! (p, i)) as [e|]; [|done]. cbn. specialize (HE e eq_refl).
  destruct (entries s' !! e), (entries s !! e); cbn in *; simplify_eq; [|done]. by rewrite H, H0.
Qed.

Lemma valid_at_same s s' p i : slots s' = slots s -> entries s' = entries s -> valid_at s' p i = valid_at s p i.
Proof. intros E1 E2. apply valid_at_shape; [by rewrite E1|]. intros. by rewrite E2. Qed.

Lemma frame_entry s s' e x f : entry_ok s e x f ->
  multiplicity e (holders s') = multiplicity e (holders s) -> (slots s' !! e_place x = Some e <-> slots s !! e_place x = Some e) ->
  (e ∈ works s' <-> e ∈ works s) -> (ph_sect f e <> None -> busy s' !! a_port (e_attr x) = busy s !! a_port (e_attr x)) ->
  entry_ok s' e x f.
Proof.
  intros [E1 E2 E3 E4 E5 E6 E7 E8 E9] Hm Hs Hw Hb. split; rewrite ?Hm; try done; [tauto|tauto|].
  intros k Hk. rewrite Hb by (by rewrite Hk). by apply E9.
Qed.

(** *** Facts *)

Lemma valid_phase s ph p i a : inv s ph -> valid_at s p i = Some a ->
  exists e x, slots s !! (p, i) = Some e /\ entries s !! e = Some x /\ ph !! e = Some Ph_valid /\ a = e_attr x /\ e_place x = (p, i).
Proof.
  intros HI H. apply valid_at_Some in H as (e & x & H1 & H2 & H3 & ->). destruct (i_slot _ _ HI _ _ H1) as (x' & H2' & H4). simplify_eq.
  destruct (proj1 (i_dom _ _ HI e) ltac:(eauto)) as [f Hf]. pose proof (i_ent _ _ HI _ _ _ H2 Hf) as HO. exists e, x.
  rewrite (eo_state _ _ _ _ HO) in H3. destruct f; try done.
Qed.

Lemma phase_valid s ph e x : inv s ph -> entries s !! e = Some x -> ph !! e = Some Ph_valid ->
  slots s !! e_place x = Some e /\ valid_at s (a_port (e_attr x)) (a_index (e_attr x)) = Some (e_attr x).
Proof.
  intros HI H Hf. pose proof (i_ent _ _ HI _ _ _ H Hf) as HO. assert (slots s !! e_place x = Some e) as HS by (by apply (eo_slot _ _ _ _ HO)).
  split; [done|]. apply valid_at_Some. exists e, x. split; [done|]. split; [done|]. by rewrite (eo_state _ _ _ _ HO).
Qed.

Lemma sect_inj f e f' e' k : ph_sect f e = Some k -> ph_sect f' e' = Some k -> e = e' /\ f = f'.
Proof. destruct f, f'; cbn; intros; simplify_eq; done. Qed.

(** The writer has at most one entry in its hands. *)
Lemma active_head s ph p ret k r e x f k' : inv s ph -> busy s !! p = Some {| t_ret := ret; t_todo := k :: r |} ->
  entries s !! e = Some x -> ph !! e = Some f -> a_port (e_attr x) = p -> ph_sect f e = Some k' -> k' = k.
Proof.
  intros HI Hb H1 H2 H3 H4. destruct (eo_sect _ _ _ _ (i_ent _ _ HI _ _ _ H1 H2) _ H4) as (ret' & r' & Hb'). rewrite H3 in Hb'. congruence.
Qed.

(** An entry in the hands of no writer. *)
Definition idle_sect (k : sect) : Prop := forall f e, ph_sect f e <> Some k.

(** *** Steps that change no entry *)

Lemma inv_ctl s ph p ret k r t' l : inv s ph -> busy s !! p = Some {| t_ret := ret; t_todo := k :: r |} -> idle_sect k ->
  todo_ok s ph p (t_todo t') -> swept s p (t_todo t') ->
  inv (with_busy (<[p := t']> (busy s)) {| slots := slots s; entries := entries s; works := works s; rcu := rcu s; hw := hw s; nrefs := nrefs s; holders := holders s; busy := busy s; unlocked := unlocked s; notices := l |}) ph.
Proof.
  intros HI Hb Hk HT HS. pose proof HI as [I1 I2 I3 I4 I5 I6 I7 I8 I9]. split; cbn; try done.
  - intros e x f H1 H2. apply (frame_entry s); try done; [by apply I2|]. cbn. intros Hs. rewrite lookup_insert_ne; [done|].
    intros Hp. destruct (ph_sect f e) as [k'|] eqn:Ek; [|done]. apply (Hk f e). rewrite Ek. f_equal.
    by apply (active_head s ph p ret k r e x f).
  - intros p' t. destruct (decide (p' = p)) as [->|Hne].
    + rewrite lookup_insert_eq. intros [= <-]. split; [|by apply (swept_frame s)]. apply (todo_frame s _ ph); try done. eauto.
    + rewrite lookup_insert_ne by done. intros Ht. destruct (I9 _ _ Ht). split; [|by apply (swept_frame s)]. apply (todo_frame s _ ph); try done. eauto.
Qed.

(** *** Steps that change one entry *)

Section upd.
Context (s s' : cache) (ph : gmap positive phase) (e : positive) (x x' : ib_gid_table_entry) (f f' : phase).
Context (HI : inv s ph) (He : entries s !! e = Some x) (Hf : ph !! e = Some f).
Context (Hent : entries s' = <[e := x']> (entries s)) (Hpl : e_place x' = e_place x).
Context (Hwork : forall e', e' <> e -> e' ∈ works s' <-> e' ∈ works s) (Hnd : NoDup (works s')).
Context (Hhold : forall e', e' <> e -> multiplicity e' (holders s') = multiplicity e' (holders s)).
Context (Hslot : forall P, P <> e_place x -> slots s' !! P = slots s !! P).
Context (Hown : forall e', e' <> e -> slots s !! e_place x <> Some e') (Hown' : forall e', e' <> e -> slots s' !! e_place x <> Some e').
Context (Hhw : forall P, P <> e_place x -> P ∈ hw s' <-> P ∈ hw s).
Context (Hhw' : e_place x ∈ hw s' <-> ph_hw f' = true /\ rdma_cap_roce_gid_table d (a_port (e_attr x)) = true).
Context (Hnrefs : nrefs s' = storages (entries s') ⊎ list_to_set_disj (rcu s')).
Context (HE : entry_ok s' e x' f').
Context (Hcap : forall p, rdma_cap_roce_gid_table d p = true -> d_roce d p = true).

Lemma other_place e' y g : e' <> e -> entries s !! e' = Some y -> ph !! e' = Some g ->
  slots s' !! e_place y = Some e' <-> slots s !! e_place y = Some e'.
Proof using Hslot Hown Hown'.
  intros Hne Hy Hg. destruct (decide (e_place y = e_place x)) as [->|Hp]; [|by rewrite Hslot].
  split; intros H; [by destruct (Hown' e')|by destruct (Hown e')].
Qed.

(** The writer of the port has no other entry in its hands. *)
Context (Hact : forall e' y g, e' <> e -> entries s !! e' = Some y -> ph !! e' = Some g -> a_port (e_attr y) = a_port (e_attr x) -> ph_sect g e' = None).
Context (t' : thread) (Hbusy : busy s' = <[a_port (e_attr x) := t']> (busy s)).

Lemma others_ok e' y g : e' <> e -> entries s !! e' = Some y -> ph !! e' = Some g -> entry_ok s' e' y g.
Proof using All.
  intros Hne Hy Hg. apply (frame_entry s); [by apply (i_ent _ _ HI)|by apply Hhold|by apply (other_place e' y g)|by apply Hwork|].
  intros Hs. rewrite Hbusy, lookup_insert_ne; [done|]. intros Ep. by rewrite (Hact e' y g) in Hs.
Qed.

(** Another entry with the place has no hardware index there. *)
Lemma hw_other e' y g : e' <> e -> entries s !! e' = Some y -> ph !! e' = Some g -> e_place y = e_place x -> ph_hw g = true ->
  rdma_cap_roce_gid_table d (a_port (e_attr x)) = true -> False.
Proof using All.
  intros Hne Hy Hg Hp Hh Hc. pose proof (i_ent _ _ HI _ _ _ Hy Hg) as HO. apply Hcap in Hc.
  assert (a_port (e_attr y) = a_port (e_attr x)) as Ep by (unfold e_place in Hp; congruence).
  pose proof (Hact e' y g Hne Hy Hg Ep) as HA. destruct g; try done.
  assert (slots s !! e_place y = Some e') as HS by (apply (eo_slot _ _ _ _ HO); done).
  rewrite Hp in HS. by apply (Hown e').
Qed.

Lemma valid_other p i : (p, i) <> e_place x -> valid_at s' p i = valid_at s p i.
Proof using All.
  intros Hp. apply valid_at_shape; [by apply Hslot|]. intros e' HS. rewrite Hent. destruct (decide (e' = e)) as [->|Hne]; [|by rewrite lookup_insert_ne].
  exfalso. apply Hp. destruct (i_slot _ _ HI _ _ HS) as (y & Hy & <-). congruence.
Qed.

Lemma inv_upd :
  (forall p i j a b, d_roce d p = true -> valid_at s' p i = Some a -> valid_at s' p j = Some b -> conflict p i a j b -> i = j) ->
  todo_ok s' (<[e := f']> ph) (a_port (e_attr x)) (t_todo t') -> swept s' (a_port (e_attr x)) (t_todo t') -> inv s' (<[e := f']> ph).
Proof using All.
  intros HU HT HS. pose proof HI as [I1 I2 I3 I4 I5 I6 I7 I8 I9].
  assert (forall e', is_Some (entries s !! e') -> is_Some (entries s' !! e')) as Hsome.
  { intros e' H. rewrite Hent, lookup_insert_is_Some'. tauto. }
  split; try done.
  - intros e'. rewrite Hent, !lookup_insert_is_Some'. specialize (I1 e'). tauto.
  - intros e' y g. rewrite Hent. destruct (decide (e' = e)) as [->|Hne]; [rewrite !lookup_insert_eq; by intros [= <-] [= <-]|].
    rewrite !lookup_insert_ne by done. by apply others_ok.
  - intros P e' H. rewrite Hent. destruct (decide (e' = e)) as [->|Hne].
    + exists x'. rewrite lookup_insert_eq. split; [done|]. rewrite Hpl. destruct (decide (P = e_place x)) as [->|Hp]; [done|].
      rewrite Hslot in H by done. destruct (I3 _ _ H) as (y & Hy & <-). congruence.
    + rewrite lookup_insert_ne by done. apply I3. destruct (decide (P = e_place x)) as [->|Hp]; [by destruct (Hown' e')|by rewrite <- Hslot].
  - intros P. destruct (decide (P = e_place x)) as [->|Hp].
    + rewrite Hhw'. split.
      * intros [H1 H2]. exists e, x', f'. rewrite Hent, !lookup_insert_eq. done.
      * intros (e' & y & g & H1 & H2 & H3 & H4 & H5). rewrite Hent in H1. destruct (decide (e' = e)) as [->|Hne].
        { rewrite lookup_insert_eq in H2. simplify_eq. done. }
        rewrite lookup_insert_ne in H1 by done. rewrite lookup_insert_ne in H2 by done. exfalso. by apply (hw_other e' y g).
    + rewrite Hhw by done. rewrite I4. split; intros (e' & y & g & H1 & H2 & H3 & H4 & H5).
      * assert (e' <> e) as Hne by (intros ->; simplify_eq). exists e', y, g. rewrite Hent, !lookup_insert_ne by done. done.
      * assert (e' <> e) as Hne by (intros ->; rewrite Hent, lookup_insert_eq in H1; simplify_eq). rewrite Hent, lookup_insert_ne in H1 by done. rewrite lookup_insert_ne in H2 by done. by exists e', y, g.
  - split; [done|]. intros e' H. destruct (decide (e' = e)) as [->|Hne]; [apply Hsome; eauto|]. apply Hsome, I5. by apply Hwork.
  - intros e' H. destruct (decide (e' = e)) as [->|Hne]; [apply Hsome; eauto|]. apply Hsome, I6. rewrite elem_of_multiplicity in H |- *. by rewrite <- Hhold.
  - intros p t. rewrite Hbusy. destruct (decide (p = a_port (e_attr x))) as [->|Hne]; [rewrite lookup_insert_eq; by intros [= <-]|].
    rewrite lookup_insert_ne by done. intros Ht. destruct (I9 _ _ Ht) as [T1 T2].
    assert (forall i, (p, i) <> e_place x) as Hpp by (intros i Ei; unfold e_place in Ei; congruence).
    split; [|apply (swept_frame s); [done|]; intros; by apply valid_other].
    apply (todo_frame s _ ph); [done|intros; by apply Hslot|intros; by apply valid_other|].
    intros e' y g H1 H2 H3 H4. assert (e' <> e) as Hee by (intros ->; simplify_eq). exists y. rewrite Hent, !lookup_insert_ne by done. done.
Qed.
End upd.

(** A step of a user: only the count of an entry, its holders and the work items change. *)
Lemma inv_user s s' ph e x f k : inv s ph -> entries s !! e = Some x -> ph !! e = Some f ->
  entries s' = <[e := with_kref k x]> (entries s) -> slots s' = slots s -> hw s' = hw s -> rcu s' = rcu s -> nrefs s' = nrefs s -> busy s' = busy s ->
  (forall e', e' <> e -> e' ∈ works s' <-> e' ∈ works s) -> NoDup (works s') ->
  (forall e', e' <> e -> multiplicity e' (holders s') = multiplicity e' (holders s)) ->
  k = ph_ref f + Z.of_nat (multiplicity e (holders s')) -> (ph_private f = true -> multiplicity e (holders s') = 0%nat) -> (e ∈ works s' <-> k = 0) ->
  inv s' ph.
Proof.
  intros HI He Hf E1 E2 E3 E4 E5 E6 Hw Hnd Hh Hk Hp Hwk. pose proof HI as [I1 I2 I3 I4 I5 I6 I7 I8 I9].
  assert (forall e', (fun x => (e_attr x, e_state x)) <$> entries s' !! e' = (fun x => (e_attr x, e_state x)) <$> entries s !! e') as Hsh.
  { intros e'. rewrite E1. destruct (decide (e' = e)) as [->|]; [|by rewrite lookup_insert_ne]. rewrite lookup_insert_eq, He. done. }
  assert (forall p i, valid_at s' p i = valid_at s p i) as HV by (intros; apply valid_at_shape; [by rewrite E2|done]).
  assert (forall e', is_Some (entries s' !! e') <-> is_Some (entries s !! e')) as Hsome.
  { intros e'. rewrite E1, lookup_insert_is_Some'. split; [|tauto]. intros [<-|H]; eauto. }
  split.
  - intros e'. by rewrite Hsome.
  - intros e' y g. rewrite E1. destruct (decide (e' = e)) as [->|Hne].
    + rewrite lookup_insert_eq. intros [= <-] Hg. simplify_eq. destruct (I2 _ _ _ He Hf) as [O1 O2 O3 O4 O5 O6 O7 O8 O9].
      split; rewrite ?E2, ?E6; cbn; try done.
    + rewrite lookup_insert_ne by done. intros H1 H2. apply (frame_entry s); [by apply I2|by apply Hh|by rewrite E2|by apply Hw|by rewrite E6].
  - intros P e' H. rewrite E2 in H. destruct (I3 _ _ H) as (y & Hy & HP). rewrite E1. destruct (decide (e' = e)) as [->|Hne].
    + exists (with_kref k x). rewrite lookup_insert_eq. simplify_eq. done.
    + exists y. by rewrite lookup_insert_ne.
  - intros P. rewrite E3, I4. split; intros (e' & y & g & H1 & H2 & H3 & H4).
    + destruct (decide (e' = e)) as [->|Hne]; [|exists e', y, g; by rewrite E1, lookup_insert_ne]. exists e, (with_kref k x), g. rewrite E1, lookup_insert_eq. simplify_eq. done.
    + rewrite E1 in H1. destruct (decide (e' = e)) as [->|Hne]; [|rewrite lookup_insert_ne in H1 by done; by exists e', y, g].
      rewrite lookup_insert_eq in H1. exists e, x, g. simplify_eq. done.
  - split; [done|]. intros e' H. apply Hsome. destruct (decide (e' = e)) as [->|Hne]; [eauto|]. apply I5. by apply Hw.
  - intros e' H. apply Hsome. destruct (decide (e' = e)) as [->|Hne]; [eauto|]. apply I6. rewrite elem_of_multiplicity in H |- *. by rewrite <- Hh.
  - rewrite E5, E4, I7. f_equal. rewrite E1. pose proof (storages_update (entries s) e x (with_kref k x) He) as HU. cbn in HU. multiset_solver.
  - intros p i j a b. rewrite !HV. apply I8.
  - intros p t. rewrite E6. intros Ht. destruct (I9 _ _ Ht) as [T1 T2]. split; [|by apply (swept_frame s)].
    apply (todo_frame s _ ph); [done|intros; by rewrite E2|done|]. intros e' y g H1 H2 H3 H4. rewrite E1. destruct (decide (e' = e)) as [->|Hne].
    + exists (with_kref k x). rewrite lookup_insert_eq. simplify_eq. done.
    + exists y. by rewrite lookup_insert_ne.
Qed.

(** A new entry in the hands of the writer. *)
Lemma inv_new s s' ph e x f p t' : inv s ph -> entries s !! e = None -> a_port (e_attr x) = p ->
  entries s' = <[e := x]> (entries s) -> slots s' = slots s -> hw s' = hw s -> holders s' = holders s -> works s' = works s ->
  busy s' = <[p := t']> (busy s) ->
  (forall e' y g, entries s !! e' = Some y -> ph !! e' = Some g -> a_port (e_attr y) = p -> ph_sect g e' = None) ->
  nrefs s' = storages (entries s') ⊎ list_to_set_disj (rcu s') -> (ph_hw f = true -> rdma_cap_roce_gid_table d p = false) ->
  e_state x = ph_state f -> e_kref x = 1 -> ph_private f = true -> ph_ref f = 1 -> e_ndev_storage x = a_ndev (e_attr x) -> attr_ok p (e_attr x) ->
  (forall k, ph_sect f e = Some k -> head (t_todo t') = Some k) ->
  todo_ok s' (<[e := f]> ph) p (t_todo t') -> swept s' p (t_todo t') -> inv s' (<[e := f]> ph).
Proof.
  intros HI He Hp E1 E2 E3 E4 E5 E6 Hact Hn Hhw Hst Hk Hpr Hrf Hsg [Ha1 Ha2] Hhd HT HSW. pose proof HI as [I1 I2 I3 I4 I5 I6 I7 I8 I9].
  assert (ph !! e = None) as Hph by (apply eq_None_not_Some; rewrite <- I1, He; by intros []).
  assert (forall e' y, entries s !! e' = Some y -> e' <> e) as Hne by (intros e' y Hy ->; congruence).
  assert (forall P, slots s !! P <> Some e) as Hsl by (intros P HP; destruct (I3 _ _ HP) as (y & Hy & _); congruence).
  assert (forall q i, valid_at s' q i = valid_at s q i) as HV.
  { intros q i. apply valid_at_shape; [by rewrite E2|]. intros e' HS. rewrite E1, lookup_insert_ne; [done|]. intros ->. by apply (Hsl (q, i)). }
  assert (e ∉ works s) as Hwk by (intros H; apply I5 in H; rewrite He in H; by destruct H).
  assert (multiplicity e (holders s) = 0%nat) as Hm0.
  { destruct (decide (e ∈ holders s)) as [H|H]; [apply I6 in H; rewrite He in H; by destruct H|]. rewrite elem_of_multiplicity in H. lia. }
  split.
  - intros e'. rewrite E1, !lookup_insert_is_Some'. specialize (I1 e'). tauto.
  - intros e' y g. rewrite E1. destruct (decide (e' = e)) as [->|Hee].
    + rewrite !lookup_insert_eq. intros [= <-] [= <-]. split; rewrite ?E2, ?E4, ?E5, ?E6, ?Hm0; try done; try lia.
      * by intros ->.
      * split; [intros H; by destruct (Hsl (e_place x))|]. by destruct f.
      * split; [done|lia].
      * rewrite Hp. done.
      * intros k Hkk. rewrite Hp, lookup_insert_eq. specialize (Hhd k Hkk). destruct t' as [ret l]; cbn in *. destruct l as [|k0 r]; [done|]. injection Hhd as <-. by exists ret, r.
    + rewrite !lookup_insert_ne by done. intros H1 H2. apply (frame_entry s); [by apply I2|by rewrite E4|by rewrite E2|by rewrite E5|].
      intros Hs. rewrite E6, lookup_insert_ne; [done|]. intros Hpp. by rewrite (Hact e' y g) in Hs.
  - intros P e'. rewrite E2. intros H. destruct (I3 _ _ H) as (y & Hy & HP). exists y. rewrite E1, lookup_insert_ne; [done|]. intros ->. congruence.
  - intros P. rewrite E3, I4. split; intros (e' & y & g & H1 & H2 & H3 & H4 & H5).
    + exists e', y, g. rewrite E1, !lookup_insert_ne by (intros ->; congruence). done.
    + rewrite E1 in H1. destruct (decide (e' = e)) as [->|Hee].
      { rewrite lookup_insert_eq in H1. rewrite lookup_insert_eq in H2. simplify_eq. cbn in H5. rewrite Hhw in H5 by done. done. }
      rewrite lookup_insert_ne in H1 by done. rewrite lookup_insert_ne in H2 by done. by exists e', y, g.
  - rewrite E5. split; [apply I5|]. intros e' H. rewrite E1, lookup_insert_is_Some'. right. by apply I5.
  - intros e'. rewrite E4. intros H. rewrite E1, lookup_insert_is_Some'. right. by apply I6.
  - done.
  - intros q i j a b. rewrite !HV. apply I8.
  - intros q t. rewrite E6. destruct (decide (q = p)) as [->|Hq]; [rewrite lookup_insert_eq; by intros [= <-]|].
    rewrite lookup_insert_ne by done. intros Ht. destruct (I9 _ _ Ht) as [T1 T2]. split; [|by apply (swept_frame s)].
    apply (todo_frame s _ ph); [done|intros; by rewrite E2|done|]. intros e' y g H1 H2 H3 H4. exists y. rewrite E1, !lookup_insert_ne by (intros ->; congruence). done.
Qed.

(** An entry nobody refers to is freed. *)
Lemma inv_del s s' ph e x f : inv s ph -> entries s !! e = Some x -> ph !! e = Some f ->
  (f = Ph_hwgone \/ f = Ph_dead \/ f = Ph_failed) -> multiplicity e (holders s) = 0%nat ->
  entries s' = delete e (entries s) -> slots s' = (if decide (slots s !! e_place x = Some e) then delete (e_place x) (slots s) else slots s) ->
  hw s' = hw s -> holders s' = holders s -> (forall e', e' <> e -> e' ∈ works s' <-> e' ∈ works s) -> e ∉ works s' -> NoDup (works s') ->
  nrefs s' = storages (entries s') ⊎ list_to_set_disj (rcu s') ->
  let p := a_port (e_attr x) in
  (forall q, q <> p -> busy s' !! q = busy s !! q) ->
  (forall e' y g, e' <> e -> entries s !! e' = Some y -> ph !! e' = Some g -> a_port (e_attr y) = p -> ph_sect g e' = None) ->
  (forall t, busy s' !! p = Some t -> todo_ok s' (delete e ph) p (t_todo t) /\ swept s' p (t_todo t)) ->
  inv s' (delete e ph).
Proof.
  intros HI He Hf Hc Hm E1 E2 E3 E4 Hw Hwe Hnd Hn p Hb Hact Ht. pose proof HI as [I1 I2 I3 I4 I5 I6 I7 I8 I9].
  assert (forall P e', e' <> e -> slots s' !! P = Some e' <-> slots s !! P = Some e') as Hsl.
  { intros P e' Hne. rewrite E2. case_decide as HD; [|done]. destruct (decide (P = e_place x)) as [->|HP]; [|by rewrite lookup_delete_ne].
    rewrite lookup_delete_eq. split; [done|]. congruence. }
  assert (forall P, slots s' !! P <> Some e) as Hsle.
  { intros P. rewrite E2. intros H. assert (P = e_place x) as ->.
    { case_decide; [apply lookup_delete_Some in H as [_ H]|]; destruct (I3 _ _ H) as (y & Hy & <-); congruence. }
    case_decide as HD; [by rewrite lookup_delete_eq in H|done]. }
  assert (forall q i, valid_at s' q i = valid_at s q i) as HV.
  { intros q i. apply option_eq. intros a. rewrite !valid_at_Some. split; intros (e' & y & H1 & H2 & H3 & H4).
    - assert (e' <> e) as Hne by (intros ->; by apply (Hsle (q, i))). rewrite E1, lookup_delete_ne in H2 by done. exists e', y. by rewrite <- Hsl.
    - assert (e' <> e) as Hne.
      { intros ->. simplify_eq. rewrite (eo_state _ _ _ _ (I2 _ _ _ He Hf)) in H3. destruct Hc as [ -> | [ -> | -> ]]; done. }
      exists e', y. rewrite Hsl, E1, lookup_delete_ne by done. done. }
  assert (forall e', e' <> e -> is_Some (entries s !! e') -> is_Some (entries s' !! e')) as Hsome by (intros e' Hne H; by rewrite E1, lookup_delete_ne).
  split.
  - intros e'. rewrite E1, !lookup_delete_is_Some. specialize (I1 e'). tauto.
  - intros e' y g. rewrite E1, !lookup_delete_Some. intros [Hne H1] [_ H2]. apply (frame_entry s); [by apply I2|by rewrite E4|by apply Hsl|by apply Hw|].
    intros Hs. apply Hb. intros Hpp. by rewrite (Hact e' y g) in Hs.
  - intros P e' H. assert (e' <> e) as Hne by (intros ->; by apply (Hsle P)). apply Hsl in H; [|done]. destruct (I3 _ _ H) as (y & Hy & HP).
    exists y. by rewrite E1, lookup_delete_ne.
  - intros P. rewrite E3, I4. split; intros (e' & y & g & H1 & H2 & H3 & H4 & H5).
    + assert (e' <> e) as Hne by (intros ->; simplify_eq; destruct Hc as [ -> | [ -> | -> ]]; done). exists e', y, g. by rewrite E1, !lookup_delete_ne.
    + rewrite E1 in H1. apply lookup_delete_Some in H1 as [_ H1]. apply lookup_delete_Some in H2 as [_ H2]. by exists e', y, g.
  - split; [done|]. intros e' H. assert (e' <> e) as Hne by (by intros ->). apply Hsome; [done|]. apply I5. by apply Hw.
  - intros e'. rewrite E4. intros H. assert (e' <> e) as Hne by (intros ->; rewrite elem_of_multiplicity in H; lia). apply Hsome; [done|]. by apply I6.
  - done.
  - intros q i j a b. rewrite !HV. apply I8.
  - intros q t Hq. destruct (decide (q = p)) as [->|Hqp]; [by apply Ht|]. rewrite Hb in Hq by done. destruct (I9 _ _ Hq) as [T1 T2].
    split; [|by apply (swept_frame s)]. apply (todo_frame s _ ph); [done| |done|].
    + intros i. rewrite E2. case_decide; [|done]. rewrite lookup_delete_ne; [done|]. unfold e_place. fold p. congruence.
    + intros e' y g H1 H2 H3 H4. assert (e' <> e) as Hne by (intros ->; simplify_eq). exists y. by rewrite E1, !lookup_delete_ne.
Qed.
End inv.
