(* ===== verification/GidSteps.v ===== *)
(** * The GID cache: every step keeps the invariant *)

From Stdlib Require Import ZArith Lia.
From stdpp Require Import base tactics numbers list option gmap gmultiset.
From S2P Require Import Prelude Outcome GidCache GidInv.

Local Open Scope Z_scope.

(** Hardware tables are on RoCE ports only; tables have a size. *)
Definition dev_facts (d : device) : Prop := (forall p, rdma_cap_roce_gid_table d p = true -> d_roce d p = true) /\ forall p, 0 <= d_sz d p.

Lemma device_facts d : device_ok d -> dev_facts d.
Proof. intros H. split; [|done]. intros p Hp. by apply andb_true_iff in Hp as [Hp _]. Qed.

Section steps.
Context (d : device) (Hdev : dev_facts d).

(** A section may return or wait, and then the invariant holds again. *)
Definition sect_good (p : Z) (r : list sect) (o : outcome (cache * Z * list sect)) : Prop :=
  match o with
  | Ok (s, ret, l) => exists ph, inv d (with_busy (<[p := {| t_ret := ret; t_todo := l ++ r |}]> (busy s)) s) ph
  | Block => True
  | Bug => False
  end.

Ltac idle := let f := fresh in intros f ?; destruct f; done.

Lemma swept_pop s p k r l : swept s p (k :: r) -> (forall ix, k <> S_del_mark ix) -> (forall ix, S_cleanup ix ∉ l) ->
  (adds k = true \/ Forall (fun k => adds k = false) l) -> swept s p (l ++ r).
Proof.
  intros H Hk Hl Ha ix H1. apply elem_of_app in H1 as [H1|H1]; [by destruct (Hl ix)|]. destruct (H ix ltac:(by right)) as [H2 H3].
  apply Forall_cons_1 in H2 as [H2 H2']. split; [apply Forall_app; split; [|done]; destruct Ha; [congruence|done]|].
  intros j J1 J2. specialize (H3 j J1 J2). cbn in H3. injection H3 as ->. by destruct (Hk j).
Qed.

Ltac no_cleanup := intros ?; cbn; rewrite ?elem_of_cons, ?elem_of_nil; naive_solver.
Ltac no_adds := first [by left|right; repeat constructor; done].
Tactic Notation "pop0" constr(k) := apply (swept_pop _ _ k); [assumption|done|no_cleanup|no_adds].
Tactic Notation "popn" constr(k) := apply (swept_pop _ _ k _ []); [assumption|done|no_cleanup|no_adds].

Lemma notice_id s : {| slots := slots s; entries := entries s; works := works s; rcu := rcu s; hw := hw s; nrefs := nrefs s; holders := holders s; busy := busy s; unlocked := unlocked s; notices := notices s |} = s.
Proof. by destruct s. Qed.

Lemma ctl_good s ph p ret k r ret' l : inv d s ph -> busy s !! p = Some {| t_ret := ret; t_todo := k :: r |} -> idle_sect k ->
  todo_ok d s ph p (l ++ r) -> swept s p (l ++ r) -> sect_good p r (next ret' l s).
Proof.
  intros HI Hb Hk HT HS. exists ph. rewrite <- (notice_id s) at 2. by apply (inv_ctl d s ph p ret k r).
Qed.

(** *** Finding a place for a GID *)

Lemma matches_add p j b gid type ndev : gid_matches d p j b gid type ndev false ADD_MASK = false -> a_type b = type -> a_gid b = gid -> a_ndev b = ndev -> False.
Proof.
  intros H <- <- <-. unfold gid_matches in H. change (has_flag ADD_MASK GID_ATTR_FIND_MASK_DEFAULT) with false in H.
  rewrite !Z.eqb_refl, bool_decide_eq_true_2 in H by done. cbn [negb] in H. rewrite !andb_false_r in H. done.
Qed.

Lemma matches_default p j b gid type ndev : gid_matches d p j b gid type ndev true DEFAULT_MASK = false ->
  a_type b = type -> a_ndev b = ndev -> is_gid_index_default d p j = true -> False.
Proof.
  intros H <- <- E. unfold gid_matches in H. change (has_flag DEFAULT_MASK GID_ATTR_FIND_MASK_GID) with false in H.
  rewrite Z.eqb_refl, bool_decide_eq_true_2, E in H by done. cbn [negb Bool.eqb] in H. rewrite !andb_false_r in H. done.
Qed.

Lemma valid_range s ph p i a : inv d s ph -> valid_at s p i = Some a -> 0 <= i < d_sz d p.
Proof.
  intros HI H. destruct (valid_phase d s ph p i a HI H) as (e & x & _ & H2 & H3 & _ & H5). injection H5 as <- <-.
  apply (eo_range _ _ _ _ _ (i_ent _ _ _ HI _ _ _ H2 H3)).
Qed.

Lemma add_good s ph p c ret r gid type ndev (dflt : bool) : inv d s ph -> gid <> 0 ->
  let k := S_add gid type ndev (if dflt then DEFAULT_MASK else ADD_MASK) dflt in
  busy s !! p = Some {| t_ret := ret; t_todo := k :: r |} -> Forall (plain d p) r -> swept s p (k :: r) -> sect_good p r (run_sect d p c ret k s).
Proof using Hdev.
  intros HI Hg k Hb Hr HS. unfold k at 1. open_sect. pose proof (find_gid_found d s p gid type ndev dflt (if dflt then DEFAULT_MASK else ADD_MASK) true (proj2 Hdev p)) as HF.
  destruct (find_gid d s p gid type ndev dflt _ true) as [ix em]. destruct HF as [F1 F2 F3 F4]. cbn [fst snd] in *.
  destruct (Z.leb_spec 0 ix); [|destruct (Z.ltb_spec em 0)].
  1,2: apply (ctl_good s ph p ret k); [done..|idle|by apply T_plain|]; pop0 k.
  destruct (F3 eq_refl ltac:(lia)) as (G1 & G2 & _). unfold vacant in G2. apply andb_true_iff in G2 as [G2 G3]. apply eqb_prop in G3.
  unfold is_gid_entry_free in G2. destruct (slots s !! (p, em)) eqn:ES; [done|].
  apply (ctl_good s ph p ret k); [done..|idle| |].
  - apply T_modify; cbn; [split; cbn; [done|lia]|by left| |by constructor].
    intros Hro j b Hv (C1 & C2 & C3 & C4). cbn in *. pose proof (F2 ltac:(lia) j (valid_range s ph p j b HI Hv)) as Hno. unfold hit in Hno. rewrite Hv in Hno.
    rewrite <- G3 in C1, C4. destruct dflt; [by apply (matches_default p j b gid type ndev)|]. destruct C4 as [C4|C4]; [done|]. by apply (matches_add p j b gid type ndev).
  - pop0 k.
Qed.

Lemma modify_good s ph p c ret r a : inv d s ph -> busy s !! p = Some {| t_ret := ret; t_todo := S_modify a :: r |} ->
  attr_ok d p a -> (slots s !! (p, a_index a) = None \/ d_roce d p = false) -> fresh d s p a -> Forall (plain d p) r -> swept s p (S_modify a :: r) ->
  sect_good p r (run_sect d p c ret (S_modify a) s).
Proof using Hdev.
  intros HI Hb Ha Hsl Hf Hr HS. open_sect. destruct (is_gid_entry_valid s p (a_index a)) eqn:EV.
  - apply is_valid_at in EV. assert (d_roce d p = false) as Hro.
    { destruct Hsl as [H|H]; [|done]. destruct EV as [b Hv]. apply valid_at_Some in Hv as (e & x & H1 & _). congruence. }
    apply (ctl_good s ph p ret (S_modify a)); [done..|idle|by apply T_mark_alloc|]. pop0 (S_modify a).
  - apply (ctl_good s ph p ret (S_modify a)); [done..|idle| |].
    + apply T_alloc; try done. destruct Hsl as [H|H]; [done|]. destruct (slots s !! (p, a_index a)) as [e|] eqn:ES; [|done]. exfalso.
      destruct (i_slot _ _ _ HI _ _ ES) as (x & Hx & HP). destruct (proj1 (i_dom _ _ _ HI e) ltac:(eauto)) as [f Hph]. pose proof (i_ent _ _ _ HI _ _ _ Hx Hph) as HO.
      rewrite <- HP in ES. apply (eo_slot _ _ _ _ _ HO) in ES. replace (a_port (e_attr x)) with p in ES by (unfold e_place in HP; congruence). rewrite H in ES.
      destruct f; try done. destruct (phase_valid d s ph e x HI Hx Hph) as [_ Hv]. unfold e_place in HP. injection HP as E1 E2. rewrite E1, E2 in Hv.
      assert (is_gid_entry_valid s p (a_index a) = true) by (apply is_valid_at; eauto). congruence.
    + pop0 (S_modify a).
Qed.

Lemma del_good s ph p c ret r gid type ndev mask dflt : inv d s ph -> let k := S_del gid type ndev mask dflt in
  busy s !! p = Some {| t_ret := ret; t_todo := k :: r |} -> Forall (plain d p) r -> swept s p (k :: r) -> sect_good p r (run_sect d p c ret k s).
Proof using Hdev.
  intros HI k Hb Hr HS. unfold k at 1. open_sect. pose proof (find_gid_found d s p gid type ndev dflt mask false (proj2 Hdev p)) as HF.
  destruct (find_gid d s p gid type ndev dflt mask false) as [ix em]. destruct HF as [F1 _ _ _]. cbn [fst snd] in *. destruct (Z.ltb_spec ix 0).
  - apply (ctl_good s ph p ret k); [done..|idle|by apply T_plain|]. pop0 k.
  - destruct (F1 ltac:(lia)) as (_ & G2 & _). unfold hit in G2. destruct (valid_at s p ix) eqn:EV; [|done].
    apply (ctl_good s ph p ret k); [done..|idle|apply T_mark; [eauto|by constructor]|]. pop0 k.
Qed.

(** The sections of the loops. *)
Lemma plain_good s ph p c ret r k : inv d s ph -> busy s !! p = Some {| t_ret := ret; t_todo := k :: r |} ->
  plain d p k -> Forall (plain d p) r -> swept s p (k :: r) -> sect_good p r (run_sect d p c ret k s).
Proof using Hdev.
  intros HI Hb Hk Hr HS. destruct k; try done; open_sect.
  - destruct (ret =? 0); apply (ctl_good s ph p ret S_add_done); try done; try idle.
    + apply T_plain. by constructor.
    + pop0 S_add_done.
    + by apply T_plain.
    + pop0 S_add_done.
  - exists ph. apply (inv_ctl d s ph p ret S_dispatch r); [done..|idle|by apply T_plain|]. popn S_dispatch.
  - cbn in Hk. set (k := S_del_netdev ndev ix deleted) in *.
    assert (forall b, Forall (plain d p) ([S_del_netdev ndev (ix + 1) b] ++ r)) as Hn by (intros b; constructor; [cbn; lia|done]).
    assert (forall ix' b, S_cleanup ix' ∉ [S_del_netdev ndev (ix + 1) b]) as Hc1 by (intros ix' b; rewrite elem_of_cons, elem_of_nil; naive_solver).
    destruct (ix <? d_sz d p).
    + destruct (entry_at s p ix) as [[e x]|] eqn:EA.
      * destruct (bool_decide_reflect (e_state x = GID_TABLE_ENTRY_VALID)) as [HV|HV]; cbn [andb].
        1: destruct (bool_decide (a_ndev (e_attr x) = ndev)).
        1:{ apply (ctl_good s ph p ret k); [done..|idle|apply T_mark; [|apply Hn]|].
            - unfold valid_at. rewrite EA, decide_True by done. eauto.
            - pop0 k. }
        all: apply (ctl_good s ph p ret k); [done..|idle|apply T_plain, Hn|]; pop0 k.
      * apply (ctl_good s ph p ret k); [done..|idle|apply T_plain, Hn|]; pop0 k.
    + apply (ctl_good s ph p ret k); [done..|idle| |].
      * apply T_plain. destruct deleted; [by constructor|done].
      * destruct deleted; [pop0 k|popn k].
  - cbn in Hk. set (k := S_cleanup ix) in *. destruct (ix <? d_sz d p).
    + assert (Forall (plain d p) (S_cleanup (ix + 1) :: r)) as Hn by (constructor; [cbn; lia|done]).
      destruct (HS ix ltac:(by left)) as [HS1 HS2]. apply Forall_cons_1 in HS1 as [_ HS1].
      assert (forall ix' j, S_cleanup ix' ∈ S_cleanup (ix + 1) :: r -> 0 <= j < ix' -> is_Some (valid_at s p j) -> j = ix) as Hsw.
      { intros ix' j H1 H2 H3. apply elem_of_cons in H1 as [[= ->]|H1].
        - destruct (decide (j = ix)) as [|Hji]; [done|]. assert (0 <= j < ix) as Hlt by lia. by specialize (HS2 j Hlt H3).
        - destruct (HS ix' ltac:(by right)) as [_ HS3]. by specialize (HS3 j H2 H3). }
      destruct (is_gid_entry_valid s p ix) eqn:EV.
      * apply (ctl_good s ph p ret k); [done..|idle|apply T_mark; [by apply is_valid_at|done]|].
        intros ix' H1. split; [repeat constructor; done|]. intros j H2 H3. cbn in *. apply elem_of_cons in H1 as [H1|H1]; [done|]. by rewrite (Hsw ix' j).
      * apply (ctl_good s ph p ret k); [done..|idle|by apply T_plain|]. intros ix' H1. split; [by constructor|]. intros j H2 H3. rewrite (Hsw ix' j H1 H2 H3) in H3.
        apply is_valid_at in H3. congruence.
    + apply (ctl_good s ph p ret k); [done..|idle|by apply T_plain|]. popn k.
  - cbn in Hk. destruct Hk as (K1 & K2 & K3). set (k := S_config i len ndev) in *. destruct (Z.ltb_spec i len).
    2:{ apply (ctl_good s ph p ret k); [done..|idle|by apply T_plain|]. popn k. }
    destruct (m_query_gid c) as [e|gid].
    { apply (ctl_good s ph p ret k); [done..|idle|by apply T_plain|]. popn k. }
    assert (forall nd, Forall (plain d p) (S_config (i + 1) len nd :: r)) as Hn by (intros nd; constructor; [cbn; split_and!; lia || done|done]).
    assert (forall nd, sect_good p r (next 0 [S_modify {| a_ndev := nd; a_gid := gid; a_type := 0; a_index := i; a_port := p |}; S_config (i + 1) len nd] s)) as Hgo.
    { intros nd. apply (ctl_good s ph p ret k); [done..|idle| |].
      - apply T_modify; [split; cbn; [done|lia]|by right|congruence|apply Hn].
      - pop0 k. }
    destruct (d_iwarp d p); [|destruct ndev; apply Hgo]. destruct (m_netdev c); [apply Hgo|].
    apply (ctl_good s ph p ret k); [done..|idle|apply T_plain, Hn|]. pop0 k.
Qed.

(** *** Sections that have an entry in their hands *)

(** What comes after the deletion of an entry. *)
Definition rest_ok (s : cache) (p : Z) (r : list sect) : Prop :=
  Forall (plain d p) r \/ exists a r', r = S_alloc a :: r' /\ d_roce d p = false /\ attr_ok d p a /\ slots s !! (p, a_index a) = None /\ Forall (plain d p) r'.

Lemma rest_todo s ph p r : rest_ok s p r -> todo_ok d s ph p r.
Proof. intros [H|(a & r' & -> & H1 & H2 & H3 & H4)]; [by apply T_plain|]. apply T_alloc; try done. by intros ?; congruence. Qed.

Lemma entry_todo s ph p r e x f k : rest_ok s p r -> entries s !! e = Some x -> ph !! e = Some f -> ph_sect f e = Some k -> a_port (e_attr x) = p ->
  ph_private f = false -> (slots s !! e_place x = None \/ slots s !! e_place x = Some e) -> todo_ok d s ph p (k :: r).
Proof.
  intros [H|(a & r' & -> & H1 & H2 & H3 & H4)] He Hf Hk Hp Hpr Hs; [eapply T_entry; eauto; congruence|eapply T_entry_alloc; eauto].
Qed.

(** The entry in the hands of a writer has the place of its own in the hardware table. *)
Lemma hw_self s ph e x f : inv d s ph -> entries s !! e = Some x -> ph !! e = Some f -> ph_hw f = true ->
  e_place x ∈ hw s <-> rdma_cap_roce_gid_table d (a_port (e_attr x)) = true.
Proof.
  intros HI He Hf Hh. rewrite (i_hw _ _ _ HI). split; [by intros (? & ? & ? & _ & _ & _ & _ & H)|]. intros Hc. by exists e, x, f.
Qed.

Lemma hw_none s ph p ret r e x f k : inv d s ph -> busy s !! p = Some {| t_ret := ret; t_todo := k :: r |} -> entries s !! e = Some x -> ph !! e = Some f ->
  ph_sect f e = Some k -> a_port (e_attr x) = p -> ph_hw f = false -> (slots s !! e_place x = None \/ slots s !! e_place x = Some e) -> e_place x ∉ hw s.
Proof using Hdev.
  intros HI Hb He Hf Hk Hp Hh Hs H. apply (i_hw _ _ _ HI) in H as (e' & y & g & H1 & H2 & H3 & H4 & H5). assert (e' <> e) as Hne by (intros ->; congruence).
  assert (a_port (e_attr y) = p) as Hp' by (unfold e_place in H3; congruence). pose proof (i_ent _ _ _ HI _ _ _ H1 H2) as HO.
  assert (ph_sect g e' = None) as HA.
  { destruct (ph_sect g e') as [k'|] eqn:Ek; [|done]. pose proof (active_head d s ph p ret k r e' y g k' HI Hb H1 H2 Hp' Ek) as ->.
    destruct (sect_inj _ _ _ _ _ Ek Hk). congruence. }
  destruct g; try done. assert (slots s !! e_place y = Some e') as HS by (by apply (eo_slot _ _ _ _ _ HO)). rewrite H3 in HS. destruct Hs; congruence.
Qed.

Lemma only_active s ph p ret r e f k : inv d s ph -> busy s !! p = Some {| t_ret := ret; t_todo := k :: r |} -> ph_sect f e = Some k \/ idle_sect k ->
  forall e' y g, e' <> e -> entries s !! e' = Some y -> ph !! e' = Some g -> a_port (e_attr y) = p -> ph_sect g e' = None.
Proof.
  intros HI Hb Hk e' y g Hne Hy Hg Hp. destruct (ph_sect g e') as [k'|] eqn:Ek; [|done]. exfalso.
  pose proof (active_head d s ph p ret k r e' y g k' HI Hb Hy Hg Hp Ek) as ->. destruct Hk as [Hk|Hk]; [|by apply (Hk g e')].
  by destruct (sect_inj _ _ _ _ _ Ek Hk).
Qed.

Lemma swept_tail s s' p k r l : swept s p (k :: r) -> (forall ix, k <> S_del_mark ix) -> (forall ix, S_cleanup ix ∉ l) ->
  (adds k = true \/ Forall (fun k => adds k = false) l) ->
  (adds k = false -> forall j, is_Some (valid_at s' p j) -> is_Some (valid_at s p j)) -> swept s' p (l ++ r).
Proof.
  intros H Hk Hl Ha HV ix H1. apply elem_of_app in H1 as [H1|H1]; [by destruct (Hl ix)|]. destruct (H ix ltac:(by right)) as [H2 H3].
  apply Forall_cons_1 in H2 as [H2 H2']. split; [apply Forall_app; split; [|done]; destruct Ha; [congruence|done]|].
  intros j J1 J2. specialize (H3 j J1 (HV H2 j J2)). cbn in H3. injection H3 as ->. by destruct (Hk j).
Qed.

Lemma gid_alloc_good s ph p c ret r a : inv d s ph -> busy s !! p = Some {| t_ret := ret; t_todo := S_alloc a :: r |} ->
  attr_ok d p a -> slots s !! (p, a_index a) = None -> fresh d s p a -> Forall (plain d p) r -> swept s p (S_alloc a :: r) ->
  sect_good p r (run_sect d p c ret (S_alloc a) s).
Proof using Hdev.
  intros HI Hb Ha Hsl Hf Hr HS. open_sect.
  assert (forall z, sect_good p r (next z [] s)) as Hend.
  { intros z. apply (ctl_good s ph p ret (S_alloc a)); [done..|idle|by apply T_plain|]. popn (S_alloc a). }
  destruct (rdma_is_zero_gid (a_gid a)); [apply Hend|]. destruct (m_alloc c) as [e|]; [|apply Hend].
  case_bool_decide as He; [done|]. apply eq_None_not_Some in He.
  assert (forall nd, a_ndev a = nd -> sect_good p r (next 0 [if d_roce d p then S_roce e else S_store e]
    (match nd with Some n => with_nrefs (nrefs s ⊎ {[+ n +]}) | None => fun s => s end
      (with_entries (<[e := {| e_kref := 1; e_attr := a; e_ndev_storage := nd; e_state := GID_TABLE_ENTRY_INVALID |}]> (entries s)) s)))) as Hgo.
  { intros nd Hnd. set (x := {| e_kref := 1; e_attr := a; e_ndev_storage := nd; e_state := GID_TABLE_ENTRY_INVALID |}).
    set (f := if d_roce d p then Ph_new else Ph_added). exists (<[e := f]> ph). destruct Ha as [Ha1 Ha2].
    set (s1 := match nd with Some n => _ | None => _ end _).
    assert (slots s1 = slots s /\ entries s1 = <[e := x]> (entries s) /\ hw s1 = hw s /\ holders s1 = holders s /\ works s1 = works s /\ busy s1 = busy s /\ rcu s1 = rcu s /\
      nrefs s1 = nrefs s ⊎ ref1 nd) as (X1 & X2 & X3 & X4 & X5 & X6 & X7 & X8) by (unfold s1; destruct nd; cbn; split_and!; try done; multiset_solver).
    assert (forall q i, valid_at s1 q i = valid_at s q i) as HV.
    { intros q i. apply valid_at_shape; [by rewrite X1|]. intros e' He'. rewrite X2, lookup_insert_ne; [done|]. intros ->.
      destruct (i_slot _ _ _ HI _ _ He') as (y & Hy & _). congruence. }
    set (t' := {| t_ret := 0; t_todo := _ |}).
    assert (ph_sect f e = Some (if d_roce d p then S_roce e else S_store e)) as Hsec by (unfold f; by destruct (d_roce d p)).
    assert (ph_private f = true /\ ph_ref f = 1 /\ ph_state f = GID_TABLE_ENTRY_INVALID) as (P1 & P2 & P3) by (unfold f; by destruct (d_roce d p)).
    eapply (inv_new d s _ ph e x f p t'); try done; cbn [with_busy slots entries hw holders works busy nrefs rcu]; try congruence.
    - intros e' y g Hy Hg Hpp. destruct (decide (e' = e)) as [->|Hne]; [congruence|]. by apply (only_active s ph p ret r e f (S_alloc a) HI Hb ltac:(right; idle) e' y g).
    - rewrite X8, X7, X2, storages_insert, (i_nrefs _ _ _ HI) by done. cbn. multiset_solver.
    - intros Hh. destruct (rdma_cap_roce_gid_table d p) eqn:Ec; [|done]. apply Hdev in Ec. unfold f in Hh. by rewrite Ec in Hh.
    - intros k. rewrite Hsec. intros [= <-]. done.
    - cbn [t' t_todo app]. eapply T_entry with (e := e) (x := x) (f := f); cbn [with_busy slots entries]; try done.
      + by rewrite X2, lookup_insert_eq.
      + by rewrite lookup_insert_eq.
      + left. rewrite X1. unfold e_place. cbn. by rewrite Ha1.
      + intros _ Hro j b Hv Hcf. apply (Hf Hro j b); [|done]. rewrite <- HV. rewrite <- Hv. by apply valid_at_same.
    - apply (swept_tail s _ p (S_alloc a) r [_]); try done; [|by left]. intros ix'. rewrite elem_of_cons, elem_of_nil. destruct (d_roce d p); naive_solver. }
  destruct (a_ndev a) as [n|] eqn:En; [destruct (m_storage c)|].
  - apply (Hgo (Some n) eq_refl).
  - apply Hend.
  - apply (Hgo None eq_refl).
Qed.

(** The writer changes the entry in its hands, but nothing that is valid. *)
Lemma entry_step s s1 ph p ret ret' r e x x' f f' k l : inv d s ph -> busy s !! p = Some {| t_ret := ret; t_todo := k :: r |} ->
  entries s !! e = Some x -> ph !! e = Some f -> ph_sect f e = Some k -> a_port (e_attr x) = p ->
  (slots s !! e_place x = None \/ slots s !! e_place x = Some e) ->
  entries s1 = <[e := x']> (entries s) -> e_attr x' = e_attr x -> slots s1 = slots s -> busy s1 = busy s -> holders s1 = holders s ->
  (forall e', e' <> e -> e' ∈ works s1 <-> e' ∈ works s) -> NoDup (works s1) -> (e ∈ works s1 <-> e_kref x' = 0) ->
  (forall P, P <> e_place x -> P ∈ hw s1 <-> P ∈ hw s) -> (e_place x ∈ hw s1 <-> ph_hw f' = true /\ rdma_cap_roce_gid_table d p = true) ->
  rcu s1 = rcu s -> nrefs s1 = nrefs s -> e_ndev_storage x' = e_ndev_storage x ->
  e_state x <> GID_TABLE_ENTRY_VALID -> e_state x' = ph_state f' -> f' <> Ph_valid -> f' <> Ph_dead ->
  e_kref x' = ph_ref f' + Z.of_nat (multiplicity e (holders s)) -> (ph_private f' = true -> multiplicity e (holders s) = 0%nat) ->
  ph_slot (d_roce d p) f' = ph_slot (d_roce d p) f ->
  (forall k', ph_sect f' e = Some k' -> l = [k']) -> (forall ix, S_cleanup ix ∉ l) -> (forall ix, k <> S_del_mark ix) -> (adds k = true \/ Forall (fun k => adds k = false) l) -> swept s p (k :: r) ->
  (forall s' ph', entries s' !! e = Some x' -> ph' !! e = Some f' -> slots s' = slots s -> (forall q i, valid_at s' q i = valid_at s q i) -> todo_ok d s' ph' p (l ++ r)) ->
  sect_good p r (next ret' l s1).
Proof using Hdev.
  intros HI Hb He Hf Hk Hp Hs E1 E2 E3 E4 E5 Hw Hnd Hwe Hh1 Hh2 E6 E7 E8 Hnv Hst Hfv Hfd Hkr Hpr Hps Hl Hlc Hkm Hka HSW HT.
  exists (<[e := f']> ph). pose proof (i_ent _ _ _ HI _ _ _ He Hf) as HO. set (s' := with_busy _ _).
  assert (forall q i, valid_at s' q i = valid_at s q i) as HV.
  { intros q i. apply option_eq. intros a. rewrite !valid_at_Some. cbn. rewrite E3, E1. split; intros (e' & y & H1 & H2 & H3 & H4).
    - destruct (decide (e' = e)) as [->|Hne]; [|rewrite lookup_insert_ne in H2 by done; by exists e', y].
      exfalso. rewrite lookup_insert_eq in H2. simplify_eq. rewrite Hst in H3. by destruct f'.
    - assert (e' <> e) as Hne by (intros ->; simplify_eq). exists e', y. by rewrite lookup_insert_ne. }
  assert (e_place x' = e_place x) as Hpl by (unfold e_place; by rewrite E2).
  eapply (inv_upd d s s' ph e x x' f f' HI He Hf); cbn [s' with_busy slots entries hw holders works busy nrefs rcu]; rewrite ?E1, ?E3, ?E4, ?E5, ?E6, ?E7; try done.
  - intros e' Hne. destruct Hs as [ -> | -> ]; congruence.
  - intros e' Hne. destruct Hs as [ -> | -> ]; congruence.
  - by rewrite Hp.
  - rewrite (i_nrefs _ _ _ HI). f_equal. pose proof (storages_update (entries s) e x x' He) as HU. rewrite E8 in HU. multiset_solver.
  - destruct HO as [O1 O2 O3 O4 O5 O6 O7 O8 O9]. split; cbn; rewrite ?E2, ?E3, ?E4, ?E5, ?Hpl, ?Hp in *; try done; [by rewrite E8|by rewrite Hps|].
    intros k' Hk'. rewrite lookup_insert_eq. rewrite (Hl k' Hk'). by eexists _, _.
  - apply Hdev.
  - intros e' y g Hne Hy Hg Hpp. rewrite Hp in Hpp. by apply (only_active s ph p ret r e f k HI Hb ltac:(by left) e' y g).
  - by rewrite Hp.
  - intros q i j a b Hr. rewrite !HV. by apply (i_uniq _ _ _ HI).
  - rewrite Hp. cbn. apply HT; cbn; [by rewrite E1, lookup_insert_eq|by rewrite lookup_insert_eq|done|done].
  - rewrite Hp. cbn. apply (swept_tail s _ p k r l); try done. intros _ j. by rewrite HV.
Qed.

Lemma roce_good s ph p c ret r e : inv d s ph -> busy s !! p = Some {| t_ret := ret; t_todo := S_roce e :: r |} -> todo_ok d s ph p (S_roce e :: r) ->
  swept s p (S_roce e :: r) -> sect_good p r (run_sect d p c ret (S_roce e) s).
Proof using Hdev.
  intros HI Hb HT HSW. inversion HT as [l HP| | | | |e0 x f k r0 H1 H2 H3 H4 H5 H6 H7| | |e0 x f k a r0 H1 H2 H3 H4 Hpf]; subst.
  { apply Forall_cons_1 in HP as [HP _]. done. }
  2:{ destruct f; cbn in H3; simplify_eq. }
  destruct f; cbn in H3; simplify_eq. open_sect. rewrite H1. set (p := a_port (e_attr x)) in *. pose proof (i_ent _ _ _ HI _ _ _ H1 H2) as HO.
  assert (multiplicity e (holders s) = 0%nat) as Hm by (by apply (eo_private _ _ _ _ _ HO)). assert (e_kref x = 1) as Hk1 by (rewrite (eo_kref _ _ _ _ _ HO), Hm; done).
  assert (e_place x ∉ hw s) as Hhw by (by apply (hw_none s ph p ret r e x Ph_new (S_roce e))).
  assert (e ∉ works s) as Hwk by (rewrite (eo_work _ _ _ _ _ HO); lia). pose proof (i_works _ _ _ HI) as [Hnd _].
  pose proof (eo_state _ _ _ _ _ HO) as Hst. cbn in Hst.
  assert (forall z, sect_good p r (s1 ← put_gid_entry e s; next z [] s1)) as Hfail.
  { intros z. unfold put_gid_entry. rewrite H1, Hk1. change (1 <=? 0) with false. change (1 - 1) with 0. change (0 =? 0) with true. cbn [mbind outcome_bind obind].
    apply (entry_step s _ ph p ret z r e x (with_kref 0 x) Ph_new Ph_failed (S_roce e) []); cbn; try done.
    - intros e' Hne. rewrite elem_of_app, elem_of_cons, elem_of_nil. naive_solver.
    - apply list.NoDup_app. split_and!; [done| |apply NoDup_singleton]. intros e' Hin. rewrite elem_of_cons, elem_of_nil. intros [->|[]]. done.
    - rewrite elem_of_app, elem_of_cons. naive_solver.
    - split; [done|naive_solver].
    - by rewrite Hst.
    - by rewrite Hm.
    - intros ix. apply not_elem_of_nil.
    - by left.
    - intros s' ph' _ _ _ _. by apply T_plain. }
  assert (forall h, (forall P, P <> e_place x -> P ∈ h <-> P ∈ hw s) -> (e_place x ∈ h <-> rdma_cap_roce_gid_table d p = true) -> sect_good p r (next 0 [S_store e] (with_hw h s))) as Hgo.
  { intros h Hh1 Hh2. apply (entry_step s _ ph p ret 0 r e x x Ph_new Ph_added (S_roce e) [S_store e]); cbn; try done.
    - by rewrite insert_id.
    - split; [done|lia].
    - rewrite Hh2. naive_solver.
    - by rewrite Hst.
    - by rewrite Hm, Hk1.
    - intros k' [= <-]. done.
    - no_cleanup.
    - no_adds.
    - intros s' ph' G1 G2 G3 G4. eapply (T_entry _ _ _ _ e x Ph_added); try done; [by rewrite G3|]. intros _ Hro j b Hv Hcf. rewrite G4 in Hv. by apply (H6 eq_refl Hro j b). }
  destruct (a_ndev (e_attr x)); [|apply Hfail]. destruct (rdma_cap_roce_gid_table d p) eqn:Ec.
  - destruct (m_add_gid c =? 0); [|apply Hfail]. rewrite bool_decide_eq_false_2 by done. apply Hgo; [intros P HP; set_solver|set_solver].
  - assert (with_hw (hw s) s = s) as E by (by destruct s). rewrite <- E. apply Hgo; [done|]. split; done.
Qed.

Lemma delhw_good s ph p c ret r e : inv d s ph -> busy s !! p = Some {| t_ret := ret; t_todo := S_del_hw e :: r |} ->
  (exists x, entries s !! e = Some x /\ ph !! e = Some Ph_marked /\ a_port (e_attr x) = p /\ (slots s !! e_place x = None \/ slots s !! e_place x = Some e)) -> rest_ok s p r ->
  swept s p (S_del_hw e :: r) -> sect_good p r (run_sect d p c ret (S_del_hw e) s).
Proof using Hdev.
  intros HI Hb (x & H1 & H2 & H4 & H5) Hr HSW. open_sect. rewrite H1. pose proof (i_ent _ _ _ HI _ _ _ H1 H2) as HO.
  pose proof (i_works _ _ _ HI) as [Hnd _]. pose proof (eo_state _ _ _ _ _ HO) as Hst. pose proof (hw_self s ph e x Ph_marked HI H1 H2 eq_refl) as Hhs. rewrite H4 in Hhs.
  assert (forall h, (forall P, P <> e_place x -> P ∈ h <-> P ∈ hw s) -> e_place x ∉ h -> sect_good p r (next ret [S_del_put e] (with_hw h s))) as Hgo.
  { intros h Hh1 Hh2. apply (entry_step s _ ph p ret ret r e x x Ph_marked Ph_hwgone (S_del_hw e) [S_del_put e]); cbn; try done.
    - by rewrite insert_id.
    - apply (eo_work _ _ _ _ _ HO).
    - naive_solver.
    - by rewrite Hst.
    - apply (eo_kref _ _ _ _ _ HO).
    - intros k' [= <-]. done.
    - no_cleanup.
    - no_adds.
    - intros s' ph' G1 G2 G3 G4. apply (entry_todo s' ph' p r e x Ph_hwgone); try done; [|by rewrite G3]. unfold rest_ok. by rewrite G3. }
  destruct (rdma_cap_roce_gid_table d p) eqn:Ec.
  - rewrite bool_decide_eq_true_2 by (by apply Hhs). apply Hgo; set_solver.
  - assert (with_hw (hw s) s = s) as E by (by destruct s). rewrite <- E. apply Hgo; [done|]. rewrite Hhs. done.
Qed.

Lemma store_good s ph p c ret r e x : inv d s ph -> busy s !! p = Some {| t_ret := ret; t_todo := S_store e :: r |} ->
  entries s !! e = Some x -> ph !! e = Some Ph_added -> a_port (e_attr x) = p -> (slots s !! e_place x = None \/ slots s !! e_place x = Some e) -> fresh d s p (e_attr x) ->
  Forall (plain d p) r -> swept s p (S_store e :: r) -> sect_good p r (run_sect d p c ret (S_store e) s).
Proof using Hdev.
  intros HI Hb H1 H2 H4 H5 H6 Hr HSW. open_sect. rewrite H1. pose proof (i_ent _ _ _ HI _ _ _ H1 H2) as HO. pose proof (hw_self s ph e x Ph_added HI H1 H2 eq_refl) as Hhs.
  destruct HO as [O1 O2 O3 O4 O5 O6 O7 O8 O9]. assert (slots s !! e_place x = None) as Hsl by (destruct H5 as [H5|H5]; [done|]; apply O6 in H5; done).
  exists (<[e := Ph_valid]> ph). cbn [app]. set (x' := with_state GID_TABLE_ENTRY_VALID x). set (s' := with_busy _ _).
  assert (forall q i a, valid_at s' q i = Some a -> valid_at s q i = Some a \/ (q, i) = e_place x /\ a = e_attr x) as HV.
  { intros q i a. rewrite !valid_at_Some. cbn. intros (e' & y & G1 & G2 & G3 & ->). destruct (decide ((q, i) = e_place x)) as [Eq|Eq].
    - rewrite Eq, lookup_insert_eq in G1. simplify_eq. rewrite lookup_insert_eq in G2. simplify_eq. right. done.
    - rewrite lookup_insert_ne in G1 by done. left. destruct (decide (e' = e)) as [->|Hne].
      + destruct (i_slot _ _ _ HI _ _ G1) as (z & Hz & HP). congruence.
      + rewrite lookup_insert_ne in G2 by done. by exists e', y. }
  eapply (inv_upd d s s' ph e x x' Ph_added Ph_valid HI H1 H2); cbn; try done; try apply Hdev; try apply (i_works _ _ _ HI).
  - intros P HP. by rewrite lookup_insert_ne.
  - intros e' Hne. by rewrite Hsl.
  - intros e' Hne. rewrite lookup_insert_eq. congruence.
  - rewrite Hhs. naive_solver.
  - rewrite (i_nrefs _ _ _ HI). f_equal. pose proof (storages_update (entries s) e x x' H1) as HU. cbn in HU. multiset_solver.
  - split; cbn; try done. rewrite lookup_insert_eq. done.
  - intros e' y g Hne Hy Hg Hpp. rewrite H4 in Hpp. by apply (only_active s ph p ret r e Ph_added (S_store e) HI Hb ltac:(by left) e' y g).
  - by rewrite H4.
  - intros q i j a b Hro Hi Hj Hc. unfold e_place in HV. rewrite H4 in HV. destruct (HV _ _ _ Hi) as [Vi|[Ei ->]], (HV _ _ _ Hj) as [Vj|[Ej ->]]; simplify_eq; try done.
    + by apply (i_uniq _ _ _ HI q i j a b).
    + exfalso. apply (H6 Hro i a Vi). destruct Hc as (C1 & C2 & C3 & C4). split_and!; try done. destruct C4; [left; congruence|by right].
    + exfalso. by apply (H6 Hro j b Vj).
  - rewrite H4. by apply T_plain.
  - rewrite H4. apply (swept_tail s _ p (S_store e) r []); try done; [no_cleanup|by left].
Qed.

Lemma mark_good s ph p c ret r ix : inv d s ph -> busy s !! p = Some {| t_ret := ret; t_todo := S_del_mark ix :: r |} -> is_Some (valid_at s p ix) ->
  (Forall (plain d p) r \/ exists a r', r = S_alloc a :: r' /\ a_index a = ix /\ d_roce d p = false /\ attr_ok d p a /\ Forall (plain d p) r') ->
  swept s p (S_del_mark ix :: r) -> sect_good p r (run_sect d p c ret (S_del_mark ix) s).
Proof using Hdev.
  intros HI Hb [a Hv] Hr HSW. destruct (valid_phase d s ph p ix a HI Hv) as (e & x & H0 & H1 & H2 & -> & Hpl). open_sect. unfold entry_at. rewrite H0. cbn [mbind option_bind]. rewrite H1. cbn [mbind option_bind].
  pose proof (i_ent _ _ _ HI _ _ _ H1 H2) as HO. pose proof (hw_self s ph e x Ph_valid HI H1 H2 eq_refl) as Hhs. destruct HO as [O1 O2 O3 O4 O5 O6 O7 O8 O9].
  assert (a_port (e_attr x) = p /\ a_index (e_attr x) = ix) as [Hp Hix] by (unfold e_place in Hpl; by simplify_eq).
  set (x' := with_state GID_TABLE_ENTRY_PENDING_DEL x). set (s1 := if d_roce d p then _ else _).
  assert (entries s1 = <[e := x']> (entries s) /\ hw s1 = hw s /\ holders s1 = holders s /\ works s1 = works s /\ busy s1 = busy s /\ rcu s1 = rcu s /\ nrefs s1 = nrefs s /\
    slots s1 = if d_roce d p then slots s else delete (p, ix) (slots s)) as (X1 & X2 & X3 & X4 & X5 & X6 & X7 & X8) by (unfold s1; by destruct (d_roce d p)).
  exists (<[e := Ph_marked]> ph). set (s' := with_busy _ _).
  assert (slots s' !! (p, ix) = if d_roce d p then Some e else None) as Hslx.
  { cbn. rewrite X8. destruct (d_roce d p); [done|apply lookup_delete_eq]. }
  assert (forall P, P <> (p, ix) -> slots s' !! P = slots s !! P) as Hslo by (intros P HP; cbn; rewrite X8; destruct (d_roce d p); [done|by apply lookup_delete_ne]).
  assert (forall q i a, valid_at s' q i = Some a -> valid_at s q i = Some a /\ (q, i) <> (p, ix)) as HV.
  { intros q i a. rewrite !valid_at_Some. intros (e' & y & G1 & G2 & G3 & ->). destruct (decide ((q, i) = (p, ix))) as [Eq|Eq].
    - exfalso. rewrite Eq, Hslx in G1. destruct (d_roce d p); [|done]. injection G1 as <-. change (entries s') with (entries s1) in G2. rewrite X1, lookup_insert_eq in G2. by simplify_eq.
    - rewrite Hslo in G1 by done. split; [|done]. exists e', y. change (entries s') with (entries s1) in G2. rewrite X1, lookup_insert_ne in G2; [done|].
      intros ->. destruct (i_slot _ _ _ HI _ _ G1) as (z & Hz & HP). congruence. }
  eapply (inv_upd d s s' ph e x x' Ph_valid Ph_marked HI H1 H2); cbn [s' with_busy slots entries hw holders works busy nrefs rcu]; rewrite ?X1, ?X2, ?X3, ?X4, ?X5, ?X6, ?X7; try done; try apply Hdev; try apply (i_works _ _ _ HI).
  - rewrite Hpl. apply Hslo.
  - rewrite Hpl, H0. intros e' Hne. congruence.
  - rewrite Hpl. intros e' Hne. change (slots s1) with (slots s'). rewrite Hslx. destruct (d_roce d p); congruence.
  - rewrite Hhs. cbn. naive_solver.
  - rewrite (i_nrefs _ _ _ HI). f_equal. pose proof (storages_update (entries s) e x x' H1) as HU. cbn in HU. multiset_solver.
  - split; cbn [s' with_busy slots entries hw holders works busy]; rewrite ?X3, ?X4, ?X5; try done.
    + cbn. change (slots s1) with (slots s'). change (e_place x') with (e_place x). rewrite Hpl, Hslx, Hp. by destruct (d_roce d p).
    + intros k [= <-]. rewrite <- Hp. rewrite lookup_insert_eq. by eexists _, _.
  - intros e' y g Hne Hy Hg Hpp. rewrite Hp in Hpp. by apply (only_active s ph p ret r e Ph_valid (S_del_mark ix) HI Hb ltac:(right; idle) e' y g).
  - by rewrite Hp.
  - intros q i j b b' Hro Hi Hj. apply (i_uniq _ _ _ HI); [done|by apply HV|by apply HV].
  - rewrite Hp. apply (entry_todo s' _ p r e x' Ph_marked); cbn [s' with_busy entries]; rewrite ?X1, ?lookup_insert_eq; try done.
    + destruct Hr as [Hr|(a & r' & -> & R1 & R2 & R3 & R4)]; [by left|]. right. exists a, r'. split_and!; try done. rewrite R1, Hslx, R2. done.
    + change (e_place x') with (e_place x). rewrite Hpl, Hslx. destruct (d_roce d p); [by right|by left].
  - rewrite Hp. intros ix' H3. apply elem_of_cons in H3 as [H3|H3]; [done|]. destruct (HSW ix' ltac:(by right)) as [W1 W2]. split.
    + apply Forall_cons_1 in W1 as [_ W1]. by constructor.
    + intros j J1 [b Jb]. exfalso. destruct (HV _ _ _ Jb) as [V1 V2]. specialize (W2 j J1 ltac:(eauto)). injection W2 as ->. done.
Qed.

Lemma delput_good s ph p c ret r e : inv d s ph -> busy s !! p = Some {| t_ret := ret; t_todo := S_del_put e :: r |} ->
  (exists x, entries s !! e = Some x /\ ph !! e = Some Ph_hwgone /\ a_port (e_attr x) = p /\ (slots s !! e_place x = None \/ slots s !! e_place x = Some e)) -> rest_ok s p r ->
  swept s p (S_del_put e :: r) -> sect_good p r (run_sect d p c ret (S_del_put e) s).
Proof using Hdev.
  intros HI Hb (x & H1 & H2 & H4 & H5) Hr HSW. open_sect. rewrite H1.
  assert (e_place x ∉ hw s) as Hhw by (by apply (hw_none s ph p ret r e x Ph_hwgone (S_del_put e))).
  pose proof (only_active s ph p ret r e Ph_hwgone (S_del_put e) HI Hb ltac:(by left)) as Hact.
  pose proof (i_ent _ _ _ HI _ _ _ H1 H2) as HO. destruct HO as [O1 O2 O3 O4 O5 O6 O7 O8 O9]. cbn in O2. pose proof (i_works _ _ _ HI) as [Hnd _].
  set (s0 := match e_ndev_storage x with Some _ => _ | None => s end). set (x0 := match e_ndev_storage x with Some _ => without_ndev x | None => x end).
  assert (entries s0 = <[e := x0]> (entries s) /\ slots s0 = slots s /\ hw s0 = hw s /\ holders s0 = holders s /\ works s0 = works s /\ busy s0 = busy s /\ nrefs s0 = nrefs s /\
    list_to_set_disj (rcu s0) = (list_to_set_disj (rcu s) ⊎ ref1 (e_ndev_storage x) : gmultiset Z)) as (X1 & X2 & X3 & X4 & X5 & X6 & X7 & X8).
  { unfold s0, x0. destruct (e_ndev_storage x); cbn; split_and!; try done; [|by rewrite insert_id|].
    - rewrite list_to_set_disj_app, list_to_set_disj_cons, list_to_set_disj_nil. f_equal. apply right_id_L, _.
    - symmetry. apply right_id_L, _. }
  assert (e_kref x0 = e_kref x /\ e_state x0 = e_state x /\ e_place x0 = e_place x /\ e_ndev_storage x0 = None /\ a_ndev (e_attr x0) = None /\
    a_port (e_attr x0) = p /\ a_index (e_attr x0) = a_index (e_attr x)) as (Y1 & Y2 & Y3 & Y4 & Y5 & Y6 & Y7).
  { unfold x0. destruct (e_ndev_storage x) eqn:Es; split_and!; try done. }
  unfold put_gid_entry_locked. rewrite X1, lookup_insert_eq, Y1. destruct (Z.leb_spec (e_kref x) 0); [lia|].
  assert (nrefs s = storages (delete e (entries s)) ⊎ list_to_set_disj (rcu s0)) as Hnr.
  { rewrite X8, (i_nrefs _ _ _ HI), (storages_delete _ e x) by done. multiset_solver. }
  destruct (Z.eqb_spec (e_kref x - 1) 0) as [Hz|Hz].
  - unfold free_gid_entry_locked. cbn [entries with_entries]. rewrite lookup_insert_eq. cbn [e_ndev_storage with_kref]. rewrite Y4. cbn [call_put_ndev mbind outcome_bind obind].
    change (e_place (with_kref (e_kref x - 1) x0)) with (e_place x0). rewrite Y3. cbn [slots with_entries]. rewrite X2.
    set (s1 := with_entries _ _). exists (delete e ph). cbn [app].
    assert (entries s1 = delete e (entries s) /\ slots s1 = (if decide (slots s !! e_place x = Some e) then delete (e_place x) (slots s) else slots s) /\
      hw s1 = hw s /\ holders s1 = holders s /\ works s1 = works s /\ busy s1 = busy s /\ nrefs s1 = nrefs s /\ rcu s1 = rcu s0) as (Z1 & Z2 & Z3 & Z4 & Z5 & Z6 & Z7 & Z8).
    { unfold s1. destruct (decide (slots s !! e_place x = Some e)) as [D|D];
        [rewrite (bool_decide_eq_true_2 _ D)|rewrite (bool_decide_eq_false_2 _ D)]; cbn; rewrite ?X1, ?X2, ?insert_insert_eq, ?delete_insert_eq; split_and!; done. }
    set (s' := with_busy _ _). assert (forall q i, valid_at s' q i = valid_at s q i) as HV.
    { intros q i. apply option_eq. intros b. rewrite !valid_at_Some. change (entries s') with (entries s1). change (slots s') with (slots s1). rewrite Z1, Z2. split; intros (e' & y & G1 & G2 & G3 & G4).
      - apply lookup_delete_Some in G2 as [_ G2]. exists e', y. split; [|done]. case_decide; [by apply lookup_delete_Some in G1 as [_ G1]|done].
      - assert (e' <> e) as Hne by (intros ->; simplify_eq; by rewrite O1 in G3). exists e', y. rewrite lookup_delete_ne by done. split; [|done].
        case_decide as HD; [|done]. rewrite lookup_delete_ne; [done|]. intros EP. rewrite EP in HD. congruence. }
    apply (inv_del d s s' ph e x Ph_hwgone); cbn [s' with_busy slots entries hw holders works busy nrefs rcu]; rewrite ?Z1, ?Z2, ?Z3, ?Z4, ?Z5, ?Z6, ?Z7, ?Z8, ?H4; try done; try lia.
    + by left.
    + rewrite O7. lia.
    + intros q Hq. by rewrite lookup_insert_ne.
    + intros t. rewrite lookup_insert_eq. intros [= <-]. cbn [t_todo]. split.
      * apply rest_todo. destruct Hr as [Hr|(a & r' & -> & R1 & R2 & R3 & R4)]; [by left|right]. exists a, r'. split_and!; try done. change (slots s') with (slots s1). rewrite Z2. case_decide; [|done].
        by apply lookup_delete_None; right.
      * apply (swept_tail s _ p (S_del_put e) r []); try done; [no_cleanup|no_adds|]. intros _ j. by rewrite HV.
  - cbn [mbind outcome_bind obind]. set (x' := with_kref (e_kref x - 1) x0). set (s1 := with_entries _ _). exists (<[e := Ph_dead]> ph). cbn [app].
    assert (entries s1 = <[e := x']> (entries s)) as Z1 by (unfold s1; cbn [with_entries entries]; by rewrite insert_insert_eq). set (s' := with_busy _ _).
    assert (forall q i, valid_at s' q i = valid_at s q i) as HV.
    { intros q i. apply option_eq. intros b. rewrite !valid_at_Some. cbn [s' with_busy slots entries]. rewrite Z1. cbn [s1 with_entries slots]. rewrite X2. split; intros (e' & y & G1 & G2 & G3 & G4).
      - destruct (decide (e' = e)) as [->|Hne]; [|rewrite lookup_insert_ne in G2 by done; by exists e', y]. rewrite lookup_insert_eq in G2. simplify_eq. cbn in G3. rewrite Y2, O1 in G3. done.
      - assert (e' <> e) as Hne by (intros ->; simplify_eq; by rewrite O1 in G3). exists e', y. by rewrite lookup_insert_ne. }
    eapply (inv_upd d s s' ph e x x' Ph_hwgone Ph_dead HI H1 H2); cbn [s' s1 with_busy with_entries slots entries hw holders works busy nrefs rcu]; rewrite ?X2, ?X3, ?X4, ?X5, ?X6, ?X7, ?H4; try done; try apply Hdev.
    + intros e' Hne. destruct H5 as [ -> | -> ]; congruence.
    + intros e' Hne. destruct H5 as [ -> | -> ]; congruence.
    + split; [done|]. by intros [].
    + rewrite insert_insert_eq. rewrite Hnr. f_equal. rewrite <- (insert_delete_eq (entries s) e), storages_insert by apply lookup_delete_eq. change (e_ndev_storage x') with (e_ndev_storage x0). rewrite Y4. symmetry. apply left_id_L, _.
    + split; cbn [s' s1 with_busy with_entries slots entries hw holders works busy x' with_kref e_state e_kref e_attr e_ndev_storage]; rewrite ?X2, ?X4, ?X5, ?X6, ?Y2, ?Y4, ?Y5, ?Y6, ?Y7; try done.
      * cbn. lia.
      * change (e_place x') with (e_place x0). rewrite Y3, O6, H4. done.
      * rewrite O7. cbn. lia.
      * by rewrite <- H4.
    + intros q i j b b' Hro. rewrite !HV. by apply (i_uniq _ _ _ HI).
    + cbn [t_todo]. apply rest_todo. unfold rest_ok. cbn. rewrite X2. done.
    + cbn [t_todo]. apply (swept_tail s _ p (S_del_put e) r []); try done; [no_cleanup|no_adds|]. intros _ j. by rewrite HV.
Qed.

(** Every section of a writer. *)
Lemma run_good s ph p c ret k r : inv d s ph -> busy s !! p = Some {| t_ret := ret; t_todo := k :: r |} -> sect_good p r (run_sect d p c ret k s).
Proof using Hdev.
  intros HI Hb. destruct (i_thr _ _ _ HI _ _ Hb) as [HT HS]. cbn [t_todo] in *.
  inversion HT as [l HP|gid type ndev dflt r0 H1 H2|gid type ndev mask dflt r0 H1|a r0 H1 H2 H3 H4|a r0 H1 H2 H3 H4|e x f k0 r0 H1 H2 H3 H4 H5 H6 H7|ix r0 H1 H2|a r0 H1 H2 H3 H4|e x f k0 a r0 H1 H2 H3 H4 Hpf H6 H7 H8 H9 H10]; subst.
  - apply Forall_cons_1 in HP as [HP1 HP2]. by apply (plain_good s ph).
  - by apply (add_good s ph).
  - by apply (del_good s ph).
  - by apply (modify_good s ph).
  - by apply (gid_alloc_good s ph).
  - destruct f; cbn in H3; simplify_eq.
    + by apply (roce_good s ph).
    + apply (store_good s ph _ c ret r e x); auto.
    + apply (delhw_good s ph); try done; [by exists x|by left].
    + apply (delput_good s ph); try done; [by exists x|by left].
  - apply (mark_good s ph); auto.
  - apply (mark_good s ph); try done. right. by exists a, r0.
  - assert (rest_ok s (a_port (e_attr x)) (S_alloc a :: r0)) as Hr by (right; by exists a, r0). destruct f; cbn in H3; simplify_eq.
    + apply (delhw_good s ph); try done. by exists x.
    + apply (delput_good s ph); try done. by exists x.
Qed.

(** ** The other steps *)

Definition good (o : outcome cache) : Prop := match o with Ok s => exists ph, inv d s ph | Block => True | Bug => False end.

(** Without a writer no entry of the port is in anybody's hands. *)
Lemma no_writer s ph p : inv d s ph -> busy s !! p = None ->
  forall e y g, entries s !! e = Some y -> ph !! e = Some g -> a_port (e_attr y) = p -> ph_sect g e = None.
Proof.
  intros HI Hb e y g Hy Hg Hp. destruct (ph_sect g e) as [k|] eqn:Ek; [|done].
  destruct (eo_sect _ _ _ _ _ (i_ent _ _ _ HI _ _ _ Hy Hg) _ Ek) as (ret & r & H). congruence.
Qed.

(** The mutex is taken or given up by a thread with nothing in its hands. *)
Lemma inv_busy s s' ph p : inv d s ph ->
  busy s' !! p = busy s !! p \/ (forall e x f k, entries s !! e = Some x -> ph !! e = Some f -> a_port (e_attr x) = p -> ph_sect f e <> Some k) ->
  slots s' = slots s -> entries s' = entries s -> works s' = works s -> rcu s' = rcu s -> hw s' = hw s -> nrefs s' = nrefs s -> holders s' = holders s ->
  (forall q, q <> p -> busy s' !! q = busy s !! q) -> (forall t, busy s' !! p = Some t -> todo_ok d s ph p (t_todo t) /\ swept s p (t_todo t)) -> inv d s' ph.
Proof.
  intros HI Hp E1 E2 E3 E4 E5 E6 E7 Hb Ht. pose proof HI as [I1 I2 I3 I4 I5 I6 I7 I8 I9].
  assert (forall q i, valid_at s' q i = valid_at s q i) as HV by (intros; by apply valid_at_same).
  split; rewrite ?E1, ?E2, ?E3, ?E4, ?E5, ?E6, ?E7; try done.
  - intros e x f H1 H2. apply (frame_entry d s); [by apply I2|by rewrite E7|by rewrite E1|by rewrite E3|]. intros Hs. destruct (decide (a_port (e_attr x) = p)) as [Hpp|Hpp]; [|by apply Hb].
    destruct Hp as [Hp|Hp]; [by rewrite Hpp|]. destruct (ph_sect f e) as [k|] eqn:Ek; [|done]. by destruct (Hp e x f k).
  - intros q i j a b. rewrite !HV. apply I8.
  - intros q t Hq. assert (todo_ok d s ph q (t_todo t) /\ swept s q (t_todo t)) as [T1 T2].
    { destruct (decide (q = p)) as [->|Hne]; [by apply Ht|]. rewrite Hb in Hq by done. by apply I9. }
    split; [|by apply (swept_frame s)]. apply (todo_frame d s _ ph); [done|intros; by rewrite E1|done|]. rewrite E2. eauto.
Qed.

Lemma op_todo s ph p op l : client_ok d (G_start p op) -> op_sects op = inr l -> todo_ok d s ph p l /\ swept s p l.
Proof.
  intros Hc H. destruct op; cbn in H; try (destruct (rdma_is_zero_gid gid) eqn:Eg; [done|]; apply Z.eqb_neq in Eg); injection H as <-;
    (split; [|intros ix; rewrite elem_of_cons, elem_of_nil; try naive_solver]).
  - by apply (T_add d s ph p gid type ndev false []).
  - by apply T_del.
  - by apply (T_add d s ph p gid type ndev true []).
  - by apply T_del.
  - apply T_plain. by repeat constructor.
  - apply T_plain. by repeat constructor.
  - intros [[= ->]|[]]. split; [by repeat constructor|]. intros j Hj. lia.
  - apply T_plain. destruct Hc. by repeat constructor.
Qed.

Lemma gid_start_good s ph p op : inv d s ph -> client_ok d (G_start p op) -> good (g_run d (G_start p op) s).
Proof.
  intros HI Hc. cbn. case_bool_decide; [|done]. destruct (op_sects op) as [z|l] eqn:El.
  - exists ph. apply (inv_busy s _ ph p HI); try done; [by left|by apply (i_thr _ _ _ HI)].
  - destruct (busy s !! p) eqn:Eb; [done|]. exists ph. apply (inv_busy s _ ph p HI); try done; cbn.
    + right. intros e x f k H1 H2 Hp. by rewrite (no_writer s ph p HI Eb e x f).
    + intros q Hq. by rewrite lookup_insert_ne.
    + intros t. rewrite lookup_insert_eq. intros [= <-]. by apply (op_todo s ph p op).
Qed.

Lemma end_good s ph p : inv d s ph -> good (g_run d (G_end p) s).
Proof.
  intros HI. cbn. destruct (busy s !! p) as [[ret l]|] eqn:Eb; [|done].
  assert (forall s', slots s' = slots s -> entries s' = entries s -> works s' = works s -> rcu s' = rcu s -> hw s' = hw s -> nrefs s' = nrefs s -> holders s' = holders s ->
    busy s' = delete p (busy s) -> (forall e x f k, entries s !! e = Some x -> ph !! e = Some f -> ph_sect f e = Some k -> head l <> Some k) -> exists ph, inv d s' ph) as Hgo.
  { intros s' E1 E2 E3 E4 E5 E6 E7 E8 Hk. exists ph. apply (inv_busy s _ ph p HI); try done.
    - right. intros e x f k H1 H2 Hp Ek. destruct (eo_sect _ _ _ _ _ (i_ent _ _ _ HI _ _ _ H1 H2) _ Ek) as (ret' & r & H). rewrite Hp, Eb in H. injection H as <- ->.
      by apply (Hk e x f k H1 H2 Ek).
    - intros q Hq. by rewrite E8, lookup_delete_ne.
    - intros t. by rewrite E8, lookup_delete_eq. }
  destruct l as [|k [|k' r]]; [apply Hgo; done| |by destruct k]. destruct k; try done. apply Hgo; try done. intros e x f k _ _ Hf [= <-]. by destruct f.
Qed.

Lemma unlocked_good s ph p ret : inv d s ph -> good (g_run d (G_unlocked p ret) s).
Proof.
  intros HI. cbn. case_bool_decide; [|done]. exists ph. apply (inv_busy s _ ph p HI); try done; [by left|by apply (i_thr _ _ _ HI)].
Qed.


Lemma rcu_good s ph n : inv d s ph -> good (g_run d (G_rcu n) s).
Proof.
  intros HI. cbn. case_bool_decide as Hn; [|done]. pose proof (i_nrefs _ _ _ HI) as HN. rewrite (remove_first_perm n (rcu s)), list_to_set_disj_cons in HN by done.
  rewrite bool_decide_eq_true_2; [|rewrite HN; multiset_solver]. exists ph. pose proof HI as [I1 I2 I3 I4 I5 I6 I7 I8 I9]. split; cbn; try done.
  - intros e x f H1 H2. by apply (frame_entry d s); [apply I2|..].
  - rewrite HN. apply gmultiset_eq. intros y. rewrite multiplicity_difference, !multiplicity_disj_union. lia.
  - intros q t Hq. destruct (I9 _ _ Hq). split; [|by apply (swept_frame s)]. apply (todo_frame d s _ ph); try done. eauto.
Qed.

Lemma work_good s ph e : inv d s ph -> good (g_run d (G_work e) s).
Proof.
  intros HI. cbn. case_bool_decide as He; [|done]. pose proof (i_works _ _ _ HI) as [Hnd Hin]. destruct (Hin e He) as [x Hx]. rewrite Hx.
  destruct (busy s !! a_port (e_attr x)) eqn:Eb; [done|]. destruct (proj1 (i_dom _ _ _ HI e) ltac:(eauto)) as [f Hf].
  pose proof (i_ent _ _ _ HI _ _ _ Hx Hf) as HO. pose proof (proj1 (eo_work _ _ _ _ _ HO) He) as Hk. rewrite (eo_kref _ _ _ _ _ HO) in Hk.
  assert (f = Ph_dead \/ f = Ph_failed) as Hc by (destruct f; cbn in Hk; try lia; auto).
  assert (multiplicity e (holders s) = 0%nat) as Hm by (destruct f; cbn in Hk; lia).
  pose proof (remove_first_perm e (works s) He) as HP. rewrite HP in Hnd. apply list.NoDup_cons in Hnd as [Hnd1 Hnd2].
  unfold free_gid_entry_locked. cbn [entries with_works]. rewrite Hx. set (s1 := with_works _ _). set (s2 := if bool_decide _ then _ else s1). exists (delete e ph).
  set (s' := with_entries _ _).
  assert (slots s' = (if decide (slots s !! e_place x = Some e) then delete (e_place x) (slots s) else slots s) /\ entries s' = delete e (entries s) /\
    hw s' = hw s /\ holders s' = holders s /\ works s' = remove_first e (works s) /\ nrefs s' = nrefs s /\ busy s' = busy s /\
    list_to_set_disj (rcu s') = (list_to_set_disj (rcu s) ⊎ ref1 (e_ndev_storage x) : gmultiset Z)) as (X1 & X2 & X3 & X4 & X5 & X6 & X7 & X8).
  { assert (slots s2 = (if decide (slots s !! e_place x = Some e) then delete (e_place x) (slots s) else slots s) /\ entries s2 = entries s /\
      hw s2 = hw s /\ holders s2 = holders s /\ works s2 = remove_first e (works s) /\ nrefs s2 = nrefs s /\ busy s2 = busy s /\ rcu s2 = rcu s) as (Y1 & Y2 & Y3 & Y4 & Y5 & Y6 & Y7 & Y8).
    { unfold s2. change (slots s1) with (slots s). destruct (decide (slots s !! e_place x = Some e)) as [D|D];
        [rewrite (bool_decide_eq_true_2 _ D)|rewrite (bool_decide_eq_false_2 _ D)]; by cbn. }
    clearbody s2. unfold s'. destruct (e_ndev_storage x); cbn [call_put_ndev with_entries with_rcu slots entries hw holders works nrefs busy rcu];
      rewrite ?Y1, ?Y2, ?Y3, ?Y4, ?Y5, ?Y6, ?Y7, ?Y8; split_and!; try done.
    - rewrite list_to_set_disj_app, list_to_set_disj_cons, list_to_set_disj_nil. f_equal. apply right_id_L, _.
    - symmetry. apply right_id_L, _. }
  clearbody s'. apply (inv_del d s s' ph e x f HI Hx Hf); rewrite ?X1, ?X2, ?X3, ?X4, ?X5, ?X6, ?X7; try done.
  - tauto.
  - intros e' Hne. rewrite HP at 2. rewrite elem_of_cons. naive_solver.
  - rewrite X8, (i_nrefs _ _ _ HI), (storages_delete _ e x) by done. apply gmultiset_eq. intros y. rewrite !multiplicity_disj_union. lia.
  - intros e' y g _ Hy Hg Hp. by apply (no_writer s ph (a_port (e_attr x)) HI Eb e' y g).
  - intros t. by rewrite Eb.
Qed.
(** *** Users *)

Definition good1 {A} (o : outcome (cache * A)) : Prop := match o with Ok (s, _) => exists ph, inv d s ph | Block => True | Bug => False end.

Lemma good_fst {A} (o : outcome (cache * A)) : good1 o -> good (s ← o; Ok s.1).
Proof. by destruct o as [[]| |]. Qed.

(** A reference for a user, on an entry that is valid or has another user. *)
Lemma get_inv s ph e x f : inv d s ph -> entries s !! e = Some x -> ph !! e = Some f -> ph_private f = false -> 0 < e_kref x ->
  get_gid_entry e s = Ok (with_entries (<[e := with_kref (e_kref x + 1) x]> (entries s)) s) /\
  inv d (with_holders (holders s ⊎ {[+ e +]}) (with_entries (<[e := with_kref (e_kref x + 1) x]> (entries s)) s)) ph.
Proof.
  intros HI Hx Hf Hp Hk. unfold get_gid_entry. rewrite Hx, (proj2 (Z.leb_gt _ _)) by lia. split; [done|]. pose proof (i_ent _ _ _ HI _ _ _ Hx Hf) as HO.
  apply (inv_user d s _ ph e x f (e_kref x + 1) HI Hx Hf); cbn; try done.
  - apply (i_works _ _ _ HI).
  - intros e' Hne. rewrite multiplicity_disj_union, multiplicity_singleton_ne by done. lia.
  - rewrite multiplicity_disj_union, multiplicity_singleton, (eo_kref _ _ _ _ _ HO). rewrite decide_True by done. lia.
  - congruence.
  - rewrite (eo_work _ _ _ _ _ HO). lia.
Qed.

Lemma gid_take_good s ph p i : inv d s ph -> is_Some (valid_at s p i) -> good1 (take_at p i s).
Proof.
  intros HI [a Hv]. destruct (valid_phase d s ph p i a HI Hv) as (e & x & H1 & H2 & H3 & _ & _). unfold take_at. rewrite H1.
  destruct (get_inv s ph e x Ph_valid HI H2 H3 eq_refl) as [E HI']; [|rewrite E; by exists ph].
  rewrite (eo_kref _ _ _ _ _ (i_ent _ _ _ HI _ _ _ H2 H3)). cbn. lia.
Qed.

Lemma found_valid s p gid type ndev mask : 0 <= (find_gid d s p gid type ndev false mask false).1 ->
  is_Some (valid_at s p (find_gid d s p gid type ndev false mask false).1).
Proof using Hdev.
  intros H. destruct (find_gid_found d s p gid type ndev false mask false (proj2 Hdev p)) as [F1 _ _ _]. destruct (F1 H) as (_ & F & _).
  unfold hit in F. destruct (valid_at s p _); [eauto|done].
Qed.

Lemma find_port_good s ph p gid type ndev : inv d s ph -> good1 (rdma_find_gid_by_port d p gid type ndev s).
Proof using Hdev.
  intros HI. unfold rdma_find_gid_by_port. destruct (rdma_is_port_valid d p); cbn; [|by exists ph].
  destruct (Z.leb_spec 0 (find_gid d s p gid type ndev false (find_mask ndev) false).1); [|by exists ph]. apply (gid_take_good s ph); [done|by apply found_valid].
Qed.

Lemma find_good s ph gid type ndev : inv d s ph -> forall ports, good1 (rdma_find_gid d ports gid type ndev s).
Proof using Hdev.
  intros HI. induction ports as [|p r IH]; cbn; [by exists ph|].
  destruct (Z.leb_spec 0 (find_gid d s p gid type ndev false (find_mask ndev) false).1); [|done]. apply (gid_take_good s ph); [done|by apply found_valid].
Qed.

Lemma filter_good s ph p gid f : inv d s ph -> forall ixs, good1 (filter_loop p gid f ixs s).
Proof.
  intros HI. induction ixs as [|i r IH]; cbn; [by exists ph|]. destruct (entry_at s p i) as [[e x]|] eqn:EA; [|done].
  destruct (bool_decide_reflect (e_state x = GID_TABLE_ENTRY_VALID)) as [HV|]; cbn; [|done]. destruct ((gid =? a_gid (e_attr x)) && f (e_attr x)); [|done].
  apply (gid_take_good s ph); [done|]. unfold valid_at. rewrite EA, decide_True by done. eauto.
Qed.

Lemma get_good s ph p i : inv d s ph -> good1 (rdma_get_gid_attr d p i s).
Proof.
  intros HI. unfold rdma_get_gid_attr. destruct (rdma_is_port_valid d p); cbn; [|by exists ph]. destruct ((i <? 0) || (d_sz d p <=? i)); [by exists ph|].
  destruct (is_gid_entry_valid s p i) eqn:EV; cbn; [|by exists ph]. apply (gid_take_good s ph); [done|by apply is_valid_at].
Qed.

(** An entry a user has. *)
Lemma held_entry s ph e : inv d s ph -> e ∈ holders s ->
  exists x f, entries s !! e = Some x /\ ph !! e = Some f /\ ph_private f = false /\ 0 < e_kref x.
Proof.
  intros HI He. destruct (i_hold _ _ _ HI e He) as [x Hx]. destruct (proj1 (i_dom _ _ _ HI e) ltac:(eauto)) as [f Hf]. exists x, f. split_and!; [done..| |].
  all: pose proof (i_ent _ _ _ HI _ _ _ Hx Hf) as HO; rewrite elem_of_multiplicity in He.
  - destruct (ph_private f) eqn:Ep; [|done]. rewrite (eo_private _ _ _ _ _ HO Ep) in He. lia.
  - rewrite (eo_kref _ _ _ _ _ HO). destruct f; cbn; lia.
Qed.

Lemma hold_good s ph e : inv d s ph -> good (rdma_hold_gid_attr e s).
Proof.
  intros HI. unfold rdma_hold_gid_attr. case_bool_decide as He; [|done]. destruct (held_entry s ph e HI He) as (x & f & H1 & H2 & H3 & H4).
  destruct (get_inv s ph e x f HI H1 H2 H3 H4) as [E HI']. rewrite E. by exists ph.
Qed.

Lemma put_good s ph e : inv d s ph -> good (rdma_put_gid_attr e s).
Proof.
  intros HI. unfold rdma_put_gid_attr, put_gid_entry. case_bool_decide as He; [|done]. destruct (held_entry s ph e HI He) as (x & f & H1 & H2 & H3 & H4).
  cbn [entries with_holders]. rewrite H1, (proj2 (Z.leb_gt _ _)) by lia. exists ph. pose proof (i_ent _ _ _ HI _ _ _ H1 H2) as HO. pose proof (i_works _ _ _ HI) as [Hnd _].
  assert (e ∉ works s) as Hw by (rewrite (eo_work _ _ _ _ _ HO); lia). rewrite elem_of_multiplicity in He.
  assert (forall s', slots s' = slots s -> entries s' = <[e := with_kref (e_kref x - 1) x]> (entries s) -> hw s' = hw s -> rcu s' = rcu s -> nrefs s' = nrefs s -> busy s' = busy s ->
    holders s' = holders s ∖ {[+ e +]} -> (forall e', e' <> e -> e' ∈ works s' <-> e' ∈ works s) -> NoDup (works s') -> (e ∈ works s' <-> e_kref x - 1 = 0) -> inv d s' ph) as Hgo.
  { intros s' E1 E2 E3 E4 E5 E6 E7 W1 W2 W3. apply (inv_user d s s' ph e x f (e_kref x - 1) HI H1 H2); try done.
    - intros e' Hne. rewrite E7, multiplicity_difference, multiplicity_singleton_ne by done. lia.
    - rewrite E7, multiplicity_difference, multiplicity_singleton, decide_True, (eo_kref _ _ _ _ _ HO) by done. lia.
    - congruence. }
  destruct (Z.eqb_spec (e_kref x - 1) 0) as [Hz|Hz]; apply Hgo; cbn; try done.
  - intros e' Hne. rewrite elem_of_app, elem_of_cons, elem_of_nil. naive_solver.
  - apply list.NoDup_app. split_and!; [done| |apply NoDup_singleton]. intros e' Hin. rewrite elem_of_cons, elem_of_nil. by intros [->|[]].
  - rewrite elem_of_app, elem_of_cons. naive_solver.
Qed.

(** Every step of a well-behaved client keeps the invariant and finds everything it needs. *)
Lemma gid_step_good s ph g : inv d s ph -> client_ok d g -> good (g_run d g s).
Proof using Hdev.
  intros HI Hc. destruct g.
  - by apply (gid_start_good s ph).
  - cbn. destruct (busy s !! port) as [[ret [|k r]]|] eqn:Eb; try done. pose proof (run_good s ph port c ret k r HI Eb) as H.
    destruct (run_sect d port c ret k s) as [[[s' ret'] l]| |]; done.
  - by apply (end_good s ph).
  - by apply (unlocked_good s ph).
  - by apply (work_good s ph).
  - by apply (rcu_good s ph).
  - cbn. by apply good_fst, (find_port_good s ph).
  - cbn. by apply good_fst, (find_good s ph).
  - cbn. apply good_fst. unfold rdma_find_gid_by_filter. destruct (rdma_is_port_valid d port); cbn; [by apply (filter_good s ph)|by exists ph].
  - cbn. by apply good_fst, (get_good s ph).
  - by apply (hold_good s ph).
  - by apply (put_good s ph).
Qed.

End steps.

Lemma gid_reachable_inv d s : device_ok d -> g_reachable d s -> exists ph, inv d s ph.
Proof.
  intros Hdev. induction 1 as [|s g s' _ [ph HI] Hc Hr]; [exists ∅; apply gid_init_inv|].
  pose proof (gid_step_good d (device_facts d Hdev) s ph g HI Hc) as H. by rewrite Hr in H.
Qed.
