(* ===== verification/GidRuns.v ===== *)
(** * Runs of the GID cache

    What holds in every run of GidCache.v, whatever the interleaving of writers, users, work
    items and RCU callbacks; that every operation of a writer ends; what the lookups return; and
    a run in which a deleted entry is taken for a valid one. *)

From Stdlib Require Import ZArith Lia.
From stdpp Require Import base tactics numbers list option gmap gmultiset.
From S2P Require Import Prelude Outcome GidCache GidInv GidSteps.

Local Open Scope Z_scope.

(** ** Safety *)

(** C8. In every run of a driver and clients that keep to the rules no step uses a freed entry,
    takes a reference that is gone, gives the driver an index of its table twice or takes one
    away it does not have; and the table points only to live entries that belong there. *)
Theorem gid_cache_never_bugs d s g : device_ok d -> g_reachable d s -> client_ok d g ->
  g_run d g s <> Bug /\
  forall p i e, slots s !! (p, i) = Some e -> 0 <= i < d_sz d p /\ exists x, entries s !! e = Some x /\ e_place x = (p, i).
Proof.
  intros Hd Hr Hc. destruct (gid_reachable_inv d s Hd Hr) as [ph HI]. split.
  - intros E. pose proof (gid_step_good d (device_facts d Hd) s ph g HI Hc) as H. by rewrite E in H.
  - intros p i e He. destruct (i_slot _ _ _ HI _ _ He) as (x & Hx & HP). split; [|by exists x].
    destruct (proj1 (i_dom _ _ _ HI e) ltac:(eauto)) as [f Hf]. pose proof (eo_range _ _ _ _ _ (i_ent _ _ _ HI _ _ _ Hx Hf)) as H. by injection HP as <- <-.
Qed.

(** The writer of the port has the entry in its hands. *)
Definition in_hand (s : cache) (e : positive) (x : ib_gid_table_entry) : bool :=
  match busy s !! a_port (e_attr x) with
  | Some {| t_todo := (S_roce e' | S_store e' | S_del_hw e' | S_del_put e') :: _ |} => bool_decide (e' = e)
  | _ => false
  end.

Lemma in_hand_phase d s ph e x f : inv d s ph -> entries s !! e = Some x -> ph !! e = Some f -> in_hand s e x = bool_decide (is_Some (ph_sect f e)).
Proof.
  intros HI Hx Hf. unfold in_hand. destruct (ph_sect f e) as [k|] eqn:Ek.
  - rewrite (bool_decide_eq_true_2 (is_Some _)) by eauto. destruct (eo_sect _ _ _ _ _ (i_ent _ _ _ HI _ _ _ Hx Hf) _ Ek) as (ret & r & ->).
    destruct f; cbn in Ek; simplify_eq; by apply bool_decide_eq_true_2.
  - rewrite (bool_decide_eq_false_2 (is_Some _)) by (by intros []). destruct (busy s !! a_port (e_attr x)) as [[ret [|k r]]|] eqn:Eb; try done.
    destruct (i_thr _ _ _ HI _ _ Eb) as [HT _]. cbn [t_todo] in HT.
    assert (forall e' g, ph_sect g e' = Some k -> (forall h, ph_sect h e <> Some k) -> bool_decide (e' = e) = false) as Hne.
    { intros e' g Hg Hh. apply bool_decide_eq_false_2. intros ->. by apply (Hh g). }
    assert (forall h, ph_sect h e = Some k -> False) as Hno.
    { intros h Hh. inversion HT as [l HP| | | | |e0 x0 f0 k0 r0 H1 H2 H3 H4 H5 H6 H7| | |e0 x0 f0 k0 a r0 H1 H2 H3 H4 Hpf]; subst; try (by destruct h).
      - apply Forall_cons_1 in HP as [HP _]. by destruct h; cbn in Hh; simplify_eq.
      - destruct (sect_inj _ _ _ _ _ H3 Hh) as [-> ->]. congruence.
      - destruct (sect_inj _ _ _ _ _ H3 Hh) as [-> ->]. congruence. }
    destruct k; try done.
    + by apply (Hne _ Ph_new).
    + by apply (Hne _ Ph_added).
    + by apply (Hne _ Ph_marked).
    + by apply (Hne _ Ph_hwgone).
Qed.

(** C9. References are exact. An entry has one reference of the table while it is valid, one of the
    writer while that adds or deletes it, and one for each of its users; it is queued to be freed
    exactly when none is left, and the users' entries are there. Every reference on a net device
    belongs to an entry or to a queued callback that gives it up. *)
Theorem gid_references_exact d s : device_ok d -> g_reachable d s ->
  (forall e x, entries s !! e = Some x ->
    e_kref x = Z.b2z (bool_decide (e_state x = GID_TABLE_ENTRY_VALID) || in_hand s e x) + Z.of_nat (multiplicity e (holders s)) /\
    (e ∈ works s <-> e_kref x = 0)) /\
  (forall e, e ∈ holders s -> exists x, entries s !! e = Some x /\ 0 < e_kref x) /\
  nrefs s = storages (entries s) ⊎ list_to_set_disj (rcu s).
Proof.
  intros Hd Hr. destruct (gid_reachable_inv d s Hd Hr) as [ph HI]. split_and!.
  - intros e x Hx. destruct (proj1 (i_dom _ _ _ HI e) ltac:(eauto)) as [f Hf]. pose proof (i_ent _ _ _ HI _ _ _ Hx Hf) as HO.
    split; [|apply HO]. rewrite (in_hand_phase d s ph e x f HI Hx Hf), (eo_kref _ _ _ _ _ HO). f_equal. rewrite (eo_state _ _ _ _ _ HO). by destruct f.
  - intros e He. destruct (held_entry d s ph e HI He) as (x & f & H1 & _ & _ & H4). by exists x.
  - apply HI.
Qed.

(** ** The end of a table *)

(** The queued RCU callbacks, one after another. *)
Fixpoint run_callbacks (d : device) (l : list Z) (s : cache) : outcome cache :=
  match l with
  | [] => Ok s
  | n :: l => s ← g_run d (G_rcu n) s; run_callbacks d l s
  end.

Lemma callbacks_release d s : nrefs s = list_to_set_disj (rcu s) ->
  exists s', run_callbacks d (rcu s) s = Ok s' /\ rcu s' = [] /\ nrefs s' = ∅ /\ entries s' = entries s /\ hw s' = hw s.
Proof.
  remember (rcu s) as l eqn:El. revert s El. induction l as [|n l IH]; intros s El Hn.
  { by exists s. }
  cbn [run_callbacks g_run]. rewrite <- El, bool_decide_eq_true_2 by set_solver.
  rewrite Hn, list_to_set_disj_cons, bool_decide_eq_true_2 by multiset_solver.
  assert (remove_first n (n :: l) = l) as -> by (unfold remove_first; cbn; by destruct (decide (n = n))).
  cbn [mbind outcome_bind]. apply (IH (with_nrefs _ (with_rcu l s))); [done|]. cbn [with_nrefs with_rcu nrefs rcu]. multiset_solver.
Qed.

(** C10. [cleanup_gid_table_port] leaves no valid entry behind. When no writer runs, no user has a
    reference and no entry is queued to be freed, a table without valid entries is empty: no
    entry is lost, the hardware table is empty, [release_gid_table] finds nothing, and the net
    device references that are left are those of the queued RCU callbacks; the callbacks run
    without fault and leave none. *)
Theorem gid_teardown d s : device_ok d -> g_reachable d s ->
  (forall p ret ix r, busy s !! p = Some {| t_ret := ret; t_todo := S_cleanup ix :: r |} -> d_sz d p <= ix -> forall j, valid_at s p j = None) /\
  (busy s = ∅ -> holders s = ∅ -> works s = [] -> (forall p j, valid_at s p j = None) ->
   entries s = ∅ /\ slots s = ∅ /\ hw s = ∅ /\ nrefs s = list_to_set_disj (rcu s) /\ (forall p, release_gid_table d p s = []) /\
   exists s', run_callbacks d (rcu s) s = Ok s' /\ rcu s' = [] /\ nrefs s' = ∅ /\ entries s' = ∅ /\ hw s' = ∅).
Proof.
  intros Hd Hr. destruct (gid_reachable_inv d s Hd Hr) as [ph HI]. split.
  - intros p ret ix r Hb Hix j. destruct (valid_at s p j) as [a|] eqn:Ev; [|done]. exfalso. destruct (i_thr _ _ _ HI _ _ Hb) as [_ HS].
    pose proof (valid_range d s ph p j a HI Ev) as Hj. assert (0 <= j < ix) as Hj' by lia. by specialize (proj2 (HS ix ltac:(by left)) j Hj' ltac:(eauto)).
  - intros Hb Hh Hw Hv. assert (entries s = ∅) as He.
    { apply map_empty. intros e. destruct (entries s !! e) as [x|] eqn:Hx; [|done]. exfalso. destruct (proj1 (i_dom _ _ _ HI e) ltac:(eauto)) as [f Hf].
      pose proof (i_ent _ _ _ HI _ _ _ Hx Hf) as HO.
      assert (ph_sect f e = None) as Hs by (apply (no_writer d s ph (a_port (e_attr x)) HI) with (y := x); try done; by rewrite Hb, lookup_empty).
      assert (f <> Ph_valid) as Hnv by (intros ->; destruct (phase_valid d s ph e x HI Hx Hf) as [_ H]; by rewrite Hv in H).
      assert (e ∈ works s) as Hin; [|rewrite Hw in Hin; by apply not_elem_of_nil in Hin].
      apply (eo_work _ _ _ _ _ HO). rewrite (eo_kref _ _ _ _ _ HO), Hh, multiplicity_empty. by destruct f. }
    assert (slots s = ∅) as Hsl.
    { apply map_empty. intros P. destruct (slots s !! P) as [e|] eqn:HP; [|done]. destruct (i_slot _ _ _ HI _ _ HP) as (x & Hx & _). by rewrite He, lookup_empty in Hx. }
    assert (hw s = ∅) as Hhw.
    { apply set_eq. intros P. rewrite (i_hw _ _ _ HI). split; [|set_solver]. intros (e & x & f & Hx & _). by rewrite He, lookup_empty in Hx. }
    assert (nrefs s = list_to_set_disj (rcu s)) as Hn.
    { rewrite (i_nrefs _ _ _ HI), He. unfold storages. rewrite map_fold_empty. apply left_id_L, _. }
    split_and!; [done..| |].
    + intros p. unfold release_gid_table. induction (seqZ 0 (d_sz d p)) as [|i l IH]; [done|]. cbn. assert (entry_at s p i = None) as -> by (unfold entry_at; by rewrite Hsl, lookup_empty). done.
    + destruct (callbacks_release d s Hn) as (s' & H1 & H2 & H3 & H4 & H5). exists s'. by rewrite H4, H5, He, Hhw.
Qed.

(** ** The contents of a table *)

(** C11. On a RoCE port no GID is twice in the table for the same type and net device, but perhaps
    once as a default GID, and there is one default GID for a type and a net device. While no
    writer runs, the hardware table has exactly the indices of the valid entries. *)
Theorem gid_table_no_duplicates d s p : device_ok d -> g_reachable d s -> d_roce d p = true ->
  (forall i j a b, valid_at s p i = Some a -> valid_at s p j = Some b -> i <> j -> a_type a = a_type b -> a_ndev a = a_ndev b ->
    is_gid_index_default d p i = is_gid_index_default d p j -> is_gid_index_default d p i = false /\ a_gid a <> a_gid b) /\
  (busy s !! p = None -> forall i, (p, i) ∈ hw s <-> d_gid_ops d = true /\ is_Some (valid_at s p i)).
Proof.
  intros Hd Hr Hro. destruct (gid_reachable_inv d s Hd Hr) as [ph HI]. split.
  - intros i j a b Ha Hb Hij Ht Hn Hdf. destruct (is_gid_index_default d p i) eqn:Ei.
    + exfalso. apply Hij, (i_uniq _ _ _ HI p i j a b Hro Ha Hb). unfold conflict. rewrite Ei. auto.
    + split; [done|]. intros Hg. apply Hij, (i_uniq _ _ _ HI p i j a b Hro Ha Hb). unfold conflict. rewrite Ei. auto.
  - intros Hb i. rewrite (i_hw _ _ _ HI). unfold rdma_cap_roce_gid_table. cbn [fst]. rewrite Hro. cbn [andb]. split.
    + intros (e & x & f & Hx & Hf & HP & Hh & Ho). split; [done|]. injection HP as Hp <-.
      pose proof (no_writer d s ph p HI Hb e x f Hx Hf Hp) as Hs. destruct f; try done. destruct (phase_valid d s ph e x HI Hx Hf) as [_ Hv]. rewrite Hp in Hv. eauto.
    + intros [Ho [a Hv]]. destruct (valid_phase d s ph p i a HI Hv) as (e & x & _ & Hx & Hf & _ & HP). by exists e, x, Ph_valid.
Qed.

(** What a lookup asks for. *)
Definition wanted (gid type : Z) (ndev : option Z) (a : ib_gid_attr) : Prop := a_gid a = gid /\ a_type a = type /\ (ndev = None \/ a_ndev a = ndev).

Lemma hit_wanted d s p gid type ndev i :
  hit d s p gid type ndev false (find_mask ndev) i = true <-> exists a, valid_at s p i = Some a /\ wanted gid type ndev a.
Proof.
  unfold hit. destruct (valid_at s p i) as [a|]; [|split; [done|by intros (? & ? & _)]].
  assert (gid_matches d p i a gid type ndev false (find_mask ndev) = (a_type a =? type) && (gid =? a_gid a) && (bool_decide (a_ndev a = ndev) || bool_decide (ndev = None))) as ->.
  { unfold gid_matches. destruct ndev as [n|]; cbn.
    - by destruct (a_type a =? type), (gid =? a_gid a), (bool_decide _).
    - by destruct (a_type a =? type), (gid =? a_gid a), (bool_decide _). }
  unfold wanted. rewrite !andb_true_iff, orb_true_iff, !bool_decide_eq_true, !Z.eqb_eq. naive_solver.
Qed.

Lemma take_valid d s ph p i a : inv d s ph -> valid_at s p i = Some a ->
  exists e s', take_at p i s = Ok (s', inr e) /\ slots s' !! (p, i) = Some e /\ holders s' = holders s ⊎ {[+ e +]} /\ (forall q j, valid_at s' q j = valid_at s q j).
Proof.
  intros HI Hv. destruct (valid_phase d s ph p i a HI Hv) as (e & x & H1 & H2 & H3 & _ & _). unfold take_at. rewrite H1.
  destruct (get_inv d s ph e x Ph_valid HI H2 H3 eq_refl) as [-> _].
  { rewrite (eo_kref _ _ _ _ _ (i_ent _ _ _ HI _ _ _ H2 H3)). cbn. lia. }
  eexists e, _. split; [done|]. cbn. split_and!; [done..|]. intros q j. apply valid_at_shape; [done|]. cbn. intros e' _.
  destruct (decide (e' = e)) as [->|]; [by rewrite lookup_insert_eq, H2|by rewrite lookup_insert_ne].
Qed.

(** C27. [rdma_find_gid_by_port] returns a valid entry with the GID, the type and, if one is given,
    the net device, the first of the table, with a reference for the caller; and -ENOENT exactly
    if the port has none. The table is not changed. *)
Theorem gid_lookup_correct d s p gid type ndev : device_ok d -> g_reachable d s -> p ∈ d_ports d ->
  exists s' r, rdma_find_gid_by_port d p gid type ndev s = Ok (s', r) /\ (forall q j, valid_at s' q j = valid_at s q j) /\
  match r with
  | inl z => z = err ENOENT /\ s' = s /\ forall i a, valid_at s p i = Some a -> ~ wanted gid type ndev a
  | inr e => holders s' = holders s ⊎ {[+ e +]} /\ exists i a, slots s' !! (p, i) = Some e /\ valid_at s' p i = Some a /\ wanted gid type ndev a /\
      forall j b, j < i -> valid_at s p j = Some b -> ~ wanted gid type ndev b
  end.
Proof.
  intros Hd Hr Hp. destruct (gid_reachable_inv d s Hd Hr) as [ph HI]. unfold rdma_find_gid_by_port, rdma_is_port_valid. rewrite bool_decide_eq_true_2 by done. cbn [negb].
  destruct (find_gid_found d s p gid type ndev false (find_mask ndev) false (Hd p)) as [F1 F2 _ _].
  set (ix := (find_gid d s p gid type ndev false (find_mask ndev) false).1) in *.
  assert (forall j b, valid_at s p j = Some b -> hit d s p gid type ndev false (find_mask ndev) j = false -> ~ wanted gid type ndev b) as Hno.
  { intros j b Hb Hh Hw. assert (hit d s p gid type ndev false (find_mask ndev) j = true); [|congruence]. apply hit_wanted. eauto. }
  destruct (Z.leb_spec 0 ix) as [Hix|Hix].
  - destruct (F1 Hix) as (_ & G2 & G3). apply hit_wanted in G2 as (a & Hv & Hw). destruct (take_valid d s ph p ix a HI Hv) as (e & s' & -> & S1 & S2 & S3).
    exists s', (inr e). split_and!; [done..|]. exists ix, a. rewrite S3. split_and!; [done..|]. intros j b Hj Hb. apply (Hno j b Hb), G3.
    pose proof (valid_range d s ph p j b HI Hb). lia.
  - exists s, (inl (err ENOENT)). split_and!; try done. intros i a Ha. apply (Hno i a Ha), F2; [lia|]. by apply (valid_range d s ph p i a).
Qed.

(** ** Operations end *)

(** How many sections a section still leads to. *)
Definition sections_left (d : device) (p : Z) (k : sect) : nat :=
  match k with
  | S_dispatch_unlocked => 0
  | S_dispatch | S_store _ | S_del_put _ => 1
  | S_add_done | S_roce _ | S_del_hw _ => 2
  | S_alloc _ | S_del_mark _ => 3
  | S_del _ _ _ _ _ => 5
  | S_modify _ => 7
  | S_add _ _ _ _ _ => 10
  | S_del_netdev _ ix _ | S_cleanup ix => 4 * Z.to_nat (d_sz d p - ix) + 1
  | S_config i len _ => 8 * Z.to_nat (len - i) + 1
  end.

Definition op_left (d : device) (p : Z) (l : list sect) : nat := sum_list_with (sections_left d p) l.

Lemma put_busy e s s' : put_gid_entry e s = Ok s' -> busy s' = busy s.
Proof. unfold put_gid_entry. intros H. repeat case_match; simplify_eq; done. Qed.

Lemma get_busy e s s' : get_gid_entry e s = Ok s' -> busy s' = busy s.
Proof. unfold get_gid_entry. intros H. repeat case_match; simplify_eq; done. Qed.

Lemma free_busy e s s' : free_gid_entry_locked e s = Ok s' -> busy s' = busy s.
Proof. unfold free_gid_entry_locked. intros H. destruct (entries s !! e) as [x|]; simplify_eq. cbn. destruct (e_ndev_storage x), (bool_decide _); done. Qed.

Lemma put_locked_busy e s s' : put_gid_entry_locked e s = Ok s' -> busy s' = busy s.
Proof.
  unfold put_gid_entry_locked. intros H. destruct (entries s !! e) as [x|]; [|done]. destruct (e_kref x <=? 0); [done|].
  destruct (e_kref x - 1 =? 0); [by apply free_busy in H|]. by simplify_eq.
Qed.

(** A section does not touch the mutexes, and leads to fewer sections than it counts for. *)
Lemma run_decreases d p c ret k s s' ret' l : run_sect d p c ret k s = Ok (s', ret', l) -> busy s' = busy s /\ (op_left d p l < sections_left d p k)%nat.
Proof.
  intros H. destruct k; open_sect in H.
  - destruct (find_gid _ _ _ _ _ _ _ _ _) as [ix em]. unfold next in H. repeat case_match; simplify_eq; cbn; (split; [done|lia]).
  - unfold next in H. case_match; simplify_eq; cbn; (split; [done|lia]).
  - unfold next in H. simplify_eq. split; [done|]. destruct (is_gid_entry_valid _ p (a_index a)); cbn; lia.
  - unfold next in H. repeat case_match; simplify_eq; cbn; (split; [done|destruct (d_roce d p); cbn; lia]).
  - assert (forall z, (s1 ← put_gid_entry e s; next z [] s1) = Ok (s', ret', l) -> busy s' = busy s /\ (op_left d p l < 2)%nat) as Hp.
    { intros z Hz. apply bind_Ok in Hz as (s1 & H1 & H2). unfold next in H2. simplify_eq. split; [by apply put_busy in H1|cbn; lia]. }
    destruct (entries s !! e) as [x|]; [|done]. destruct (a_ndev (e_attr x)); [|by apply (Hp (err EINVAL))].
    destruct (rdma_cap_roce_gid_table d p); [|unfold next in H; simplify_eq; cbn; (split; [done|lia])].
    destruct (m_add_gid c =? 0); [|by apply (Hp (m_add_gid c))]. unfold next in H. case_match; simplify_eq; cbn; (split; [done|lia]).
  - unfold next in H. case_match; simplify_eq; cbn; (split; [done|lia]).
  - unfold next in H. destruct (entry_at s p ix) as [[e x]|]; simplify_eq. split; [by destruct (d_roce d p)|cbn; lia].
  - unfold next in H. repeat case_match; simplify_eq; cbn; (split; [done|lia]).
  - destruct (entries s !! e) as [x|]; [|done]. apply bind_Ok in H as (s1 & H1 & H2). unfold next in H2. simplify_eq. apply put_locked_busy in H1.
    split; [|cbn; lia]. rewrite H1. by destruct (e_ndev_storage x).
  - unfold next in H. case_match; simplify_eq; cbn; (split; [done|lia]).
  - unfold next in H. simplify_eq. cbn. split; [done|lia].
  - done.
  - unfold next in H. destruct (Z.ltb_spec ix (d_sz d p)); repeat case_match; simplify_eq; cbn; (split; [done|lia]).
  - unfold next in H. destruct (Z.ltb_spec ix (d_sz d p)); simplify_eq; (split; [done|]); [destruct (is_gid_entry_valid _ p ix)|]; cbn; lia.
  - unfold next in H. destruct (Z.ltb_spec i len); repeat case_match; simplify_eq; cbn; (split; [done|lia]).
Qed.

(** Only a section that asks for memory in use waits, which the allocator never gives. *)
Lemma run_no_block d p c ret k s : run_sect d p c ret k s = Block -> k = S_dispatch_unlocked \/ exists e, m_alloc c = Some e /\ is_Some (entries s !! e).
Proof.
  intros H. assert (forall (e : positive) (o : outcome cache) z, o <> Block -> (s1 ← o; next z [] s1) <> Block) as Hb.
  { intros e o z Ho. by destruct o. }
  assert (forall e s, put_gid_entry e s <> Block) as Hp by (intros e s0; unfold put_gid_entry; repeat case_match; done).
  assert (forall e s, put_gid_entry_locked e s <> Block) as Hpl.
  { intros e s0. unfold put_gid_entry_locked, free_gid_entry_locked. repeat case_match; done. }
  destruct k; open_sect in H; unfold next in H; try by (repeat case_match; done).
  - destruct (rdma_is_zero_gid (a_gid a)); [done|]. destruct (m_alloc c) as [e|]; [|done]. case_bool_decide; [eauto|]. by destruct (a_ndev a), (m_storage c).
  - exfalso. destruct (entries s !! e) as [x|]; [|done]. destruct (a_ndev (e_attr x)); [|by apply (Hb e (put_gid_entry e s) (err EINVAL)) in H].
    destruct (rdma_cap_roce_gid_table d p); [|done]. destruct (m_add_gid c =? 0); [by case_match|by apply (Hb e (put_gid_entry e s) (m_add_gid c)) in H].
  - exfalso. destruct (entries s !! e) as [x|]; [|done]. by apply (Hb e _ ret) in H.
  - by left.
Qed.

(** Loops over the table are the last thing an operation does. *)
Fixpoint ends_ok (l : list sect) : Prop := match l with [] => True | k :: r => match k with S_del_netdev _ _ _ | S_dispatch_unlocked => r = [] | _ => True end /\ ends_ok r end.

Lemma run_ends_ok d p c ret k s s' ret' l r : run_sect d p c ret k s = Ok (s', ret', l) -> ends_ok (k :: r) -> ends_ok (l ++ r).
Proof.
  intros H [Hk Hr]. destruct k; open_sect in H; unfold next in H.
  all: try (apply bind_Ok in H as (? & _ & H)).
  all: try (repeat case_match; simplify_eq; cbn; done).
  - repeat case_match; simplify_eq; cbn; try done; try (apply bind_Ok in H as (? & _ & H); by simplify_eq).
  - repeat case_match; simplify_eq; try done; apply bind_Ok in H as (? & _ & H); by simplify_eq.
Qed.

Lemma user_busy {A} (o : outcome (cache * A)) s s' : (forall a, o = Ok a -> busy a.1 = busy s) -> (a ← o; Ok a.1) = Ok s' -> busy s' = busy s.
Proof. intros H E. apply bind_Ok in E as (a & E1 & E2). injection E2 as <-. by apply H. Qed.

Lemma take_busy p i s a : take_at p i s = Ok a -> busy a.1 = busy s.
Proof.
  unfold take_at. intros H. destruct (slots s !! (p, i)); [|done]. apply bind_Ok in H as (s1 & H1 & H2). injection H2 as <-. by apply get_busy in H1.
Qed.

Lemma find_busy d gid type ndev s a : forall ports, rdma_find_gid d ports gid type ndev s = Ok a -> busy a.1 = busy s.
Proof. induction ports as [|p r IH]; cbn; intros H; [by simplify_eq|]. case_match; [by apply take_busy in H|by apply IH]. Qed.

Lemma filter_busy p gid f s a : forall ixs, filter_loop p gid f ixs s = Ok a -> busy a.1 = busy s.
Proof.
  induction ixs as [|i r IH]; cbn; intros H; [by simplify_eq|]. destruct (entry_at s p i) as [[e x]|]; [|by apply IH]. case_match; [by apply take_busy in H|by apply IH].
Qed.

(** Only the steps of the writer of a port change what it has to do. *)
Lemma step_busy d g s s' p : g_run d g s = Ok s' ->
  busy s' !! p = busy s !! p \/
  (exists op l, g = G_start p op /\ busy s !! p = None /\ op_sects op = inr l /\ busy s' !! p = Some {| t_ret := 0; t_todo := l |}) \/
  (exists c ret k r s1 ret' l, g = G_sect p c /\ busy s !! p = Some {| t_ret := ret; t_todo := k :: r |} /\ run_sect d p c ret k s = Ok (s1, ret', l) /\
    busy s' !! p = Some {| t_ret := ret'; t_todo := l ++ r |}) \/
  (g = G_end p /\ busy s' !! p = None).
Proof.
  intros H. destruct g; cbn in H.
  - case_bool_decide; [|done]. destruct (op_sects op) as [z|l] eqn:El; [left; by simplify_eq|]. destruct (busy s !! port) eqn:Eb; [done|]. simplify_eq. cbn.
    destruct (decide (port = p)) as [->|Hp]; [|left; by rewrite lookup_insert_ne]. right. left. exists op, l. by rewrite lookup_insert_eq.
  - destruct (busy s !! port) as [[ret [|k r]]|] eqn:Eb; try done. apply bind_Ok in H as ([[s1 ret'] l] & H1 & H2). injection H2 as <-.
    destruct (run_decreases _ _ _ _ _ _ _ _ _ H1) as [Hbz _]. cbn. rewrite Hbz. destruct (decide (port = p)) as [->|Hp]; [|left; by rewrite lookup_insert_ne].
    right. right. left. exists c, ret, k, r, s1, ret', l. by rewrite lookup_insert_eq.
  - destruct (busy s !! port) as [[ret l]|] eqn:Eb; [|done]. assert (busy s' = delete port (busy s)) as E by (repeat case_match; by simplify_eq).
    destruct (decide (port = p)) as [->|Hp]; [|left; by rewrite E, lookup_delete_ne]. do 3 right. by rewrite E, lookup_delete_eq.
  - left. case_bool_decide; by simplify_eq.
  - left. case_bool_decide; [|done]. destruct (entries s !! e) as [x|]; [|done]. destruct (busy s !! a_port (e_attr x)); [done|]. by apply free_busy in H as ->.
  - left. repeat case_bool_decide; by simplify_eq.
  - left. apply (user_busy _ s) in H as ->; [done|]. intros a. unfold rdma_find_gid_by_port. repeat case_match; intros ?; simplify_eq; [done|by eapply take_busy|done].
  - left. apply (user_busy _ s) in H as ->; [done|]. intros a Ha. by eapply find_busy.
  - left. apply (user_busy _ s) in H as ->; [done|]. intros a. unfold rdma_find_gid_by_filter. case_match; intros ?; simplify_eq; [done|by eapply filter_busy].
  - left. apply (user_busy _ s) in H as ->; [done|]. intros a. unfold rdma_get_gid_attr. repeat case_match; intros ?; simplify_eq; [done..|by eapply take_busy].
  - left. unfold rdma_hold_gid_attr in H. case_bool_decide; [|done]. apply bind_Ok in H as (s1 & H1 & H2). injection H2 as <-. by apply get_busy in H1 as <-.
  - left. unfold rdma_put_gid_attr in H. case_bool_decide; [|done]. by apply put_busy in H as ->.
Qed.

Lemma reachable_ends d s p t : g_reachable d s -> busy s !! p = Some t -> ends_ok (t_todo t).
Proof.
  intros Hr. revert p t. induction Hr as [|s g s' _ IH Hc Hs]; intros p t Hb; [cbn in Hb; by rewrite lookup_empty in Hb|].
  destruct (step_busy d g s s' p Hs) as [E|[(op & l & _ & _ & H1 & H2)|[(c & ret & k & r & s1 & ret' & l & _ & H1 & H2 & H3)|[_ E]]]].
  - rewrite E in Hb. by apply (IH p).
  - rewrite H2 in Hb. injection Hb as <-. cbn [t_todo]. destruct op; cbn in H1; repeat case_match; by simplify_eq.
  - rewrite H3 in Hb. injection Hb as <-. cbn [t_todo]. by apply (run_ends_ok d p c ret k s s1 ret' l r H2), (IH p _ H1).
  - congruence.
Qed.

(** C26. Every operation of a writer ends. A thread that has the mutex has given it back after its
    last section, or can always run its next section, whatever memory it gets and whatever the
    driver answers, and has then fewer sections left; the steps of others change nothing about
    what it has to do. *)
Theorem gid_operations_end d s p t : device_ok d -> g_reachable d s -> busy s !! p = Some t ->
  ((t_todo t = [] \/ t_todo t = [S_dispatch_unlocked]) /\ (exists s', g_run d (G_end p) s = Ok s' /\ busy s' !! p = None) \/
   forall c, (forall e, m_alloc c = Some e -> entries s !! e = None) ->
     exists s' t', g_run d (G_sect p c) s = Ok s' /\ busy s' !! p = Some t' /\ (op_left d p (t_todo t') < op_left d p (t_todo t))%nat) /\
  (forall g s', g_run d g s = Ok s' -> busy s' !! p = Some t \/ g = G_end p \/ exists c, g = G_sect p c).
Proof.
  intros Hd Hr Hb. destruct (gid_reachable_inv d s Hd Hr) as [ph HI]. pose proof (reachable_ends d s p t Hr Hb) as He. split.
  - destruct t as [ret [|k r]]; cbn [t_todo] in *.
    { left. split; [by left|]. cbn. rewrite Hb. eexists. split; [done|]. cbn. apply lookup_delete_eq. }
    assert (k = S_dispatch_unlocked \/ k <> S_dispatch_unlocked) as [->|Hk] by (destruct k; auto).
    { left. destruct He as [-> _]. split; [by right|]. cbn. rewrite Hb. eexists. split; [done|]. cbn. apply lookup_delete_eq. }
    right. intros c Hc. pose proof (run_good d (device_facts d Hd) s ph p c ret k r HI Hb) as Hg. cbn [g_run]. rewrite Hb.
    destruct (run_sect d p c ret k s) as [[[s1 ret'] l]| |] eqn:E; [|done|].
    + destruct (run_decreases _ _ _ _ _ _ _ _ _ E) as [_ Hlt]. eexists _, _. split; [done|]. cbn. rewrite lookup_insert_eq. split; [done|]. cbn.
      unfold op_left in *. rewrite sum_list_with_app. lia.
    + exfalso. apply run_no_block in E as [?|(e & H1 & H2)]; [done|]. rewrite (Hc e H1) in H2. by destruct H2.
  - intros g s' Hs. destruct (step_busy d g s s' p Hs) as [E|[(op & l & _ & H1 & _)|[(c & ret & k & r & s1 & ret' & l & -> & _)|[-> _]]]]; [left; congruence|congruence|eauto..].
Qed.

(** ** Adding a GID *)

Fixpoint g_steps (d : device) (gs : list gstep) (s : cache) : outcome cache :=
  match gs with [] => Ok s | g :: r => s ← g_run d g s; g_steps d r s end.

Lemma sect_step d p c s b ret k r X ret' l rest : run_sect d p c ret k (with_busy (<[p := {| t_ret := ret; t_todo := k :: r |}]> b) s) = Ok (X, ret', l) ->
  busy X = <[p := {| t_ret := ret; t_todo := k :: r |}]> b ->
  g_steps d (G_sect p c :: rest) (with_busy (<[p := {| t_ret := ret; t_todo := k :: r |}]> b) s) =
  g_steps d rest (with_busy (<[p := {| t_ret := ret'; t_todo := l ++ r |}]> b) X).
Proof. intros H Hb. cbn [g_steps g_run with_busy busy]. rewrite lookup_insert_eq, H. cbn. by rewrite Hb, insert_insert_eq. Qed.

Lemma end_step d p s b ret : g_steps d [G_end p] (with_busy (<[p := {| t_ret := ret; t_todo := [] |}]> b) s) = Ok (with_notice (N_ret p ret) (with_busy (delete p b) s)).
Proof. cbn. rewrite lookup_insert_eq. cbn. by rewrite delete_insert_eq. Qed.

Lemma find_same d s s' p gid type ndev dflt mask pe : slots s' = slots s -> entries s' = entries s ->
  find_gid d s' p gid type ndev dflt mask pe = find_gid d s p gid type ndev dflt mask pe.
Proof.
  intros E1 E2. unfold find_gid. generalize (if pe then -1 else 0) as em. generalize (-1) as fd. induction (seqZ 0 (d_sz d p)) as [|i l IH]; intros fd em; [done|]. cbn.
  unfold is_gid_entry_free, entry_at. rewrite E1, E2. destruct ((fd <? 0) || (em <? 0)); [apply IH|done].
Qed.

Section add.
Context (d : device) (s : cache) (p gid type n : Z) (c : meets) (e : positive).
Context (Hp : p ∈ d_ports d) (Hro : d_roce d p = true) (Hb : busy s !! p = None) (Hg : gid <> 0).
Context (Hc : m_alloc c = Some e) (He : entries s !! e = None) (Hst : m_storage c = true) (Had : m_add_gid c = 0).

Lemma start_step rest l : op_sects (Op_add gid type (Some n)) = inr l ->
  g_steps d (G_start p (Op_add gid type (Some n)) :: rest) s = g_steps d rest (with_busy (<[p := {| t_ret := 0; t_todo := l |}]> (busy s)) s).
Proof using Hp Hb. intros Hl. cbn [g_steps g_run]. rewrite bool_decide_eq_true_2, Hl, Hb by done. done. Qed.

(** The free slot gets the GID. *)
Lemma add_run em : slots s !! (p, em) = None -> (p, em) ∉ hw s -> find_gid d s p gid type (Some n) false ADD_MASK true = (-1, em) -> 0 <= em ->
  let a := {| a_ndev := Some n; a_gid := gid; a_type := type; a_index := em; a_port := p |} in
  exists s', g_steps d (G_start p (Op_add gid type (Some n)) :: replicate 7 (G_sect p c) ++ [G_end p]) s = Ok s' /\
    notices s' = notices s ++ [N_change p; N_ret p 0] /\ slots s' = <[(p, em) := e]> (slots s) /\
    entries s' = <[e := {| e_kref := 1; e_attr := a; e_ndev_storage := Some n; e_state := GID_TABLE_ENTRY_VALID |}]> (entries s) /\ busy s' = busy s.
Proof using All.
  intros Hsl Hhw Hf Hem a.
  assert (op_sects (Op_add gid type (Some n)) = inr [S_add gid type (Some n) ADD_MASK false]) as Hop by (unfold op_sects, rdma_is_zero_gid; by rewrite (proj2 (Z.eqb_neq gid 0))).
  destruct (rdma_cap_roce_gid_table d p) eqn:Ecap.
  all: eexists; split; [cbn [replicate app]; rewrite (start_step _ _ Hop);
    (erewrite sect_step; [|open_sect; rewrite (find_same d s), Hf by done; cbn [fst snd]; rewrite (proj2 (Z.ltb_ge em 0) Hem); reflexivity|done]); cbn [app]; fold a;
    (erewrite sect_step; [|open_sect; unfold is_gid_entry_valid, entry_at; cbn [slots with_busy]; change (a_index a) with em; rewrite Hsl; cbn [mbind option_bind app]; reflexivity|done]); cbn [app];
    (erewrite sect_step; [|open_sect; unfold rdma_is_zero_gid; change (a_gid a) with gid; rewrite (proj2 (Z.eqb_neq gid 0) Hg), Hc;
      cbn [entries with_busy]; rewrite He, Hst, Hro; rewrite bool_decide_eq_false_2 by (by intros []); reflexivity|done]); cbn [app];
    (erewrite sect_step; [|open_sect; cbn [entries with_busy with_nrefs with_entries]; rewrite lookup_insert_eq; cbn [e_attr a a_ndev]; rewrite Ecap, ?Had;
      rewrite ?(bool_decide_eq_false_2 _ Hhw); reflexivity|done]); cbn [app];
    (erewrite sect_step; [|open_sect; cbn [entries with_busy with_nrefs with_entries with_hw]; rewrite lookup_insert_eq; reflexivity|done]); cbn [app];
    (erewrite sect_step; [|open_sect; reflexivity|done]); cbn [app];
    (erewrite sect_step; [|open_sect; reflexivity|done]); cbn [app]; apply end_step|].
  all: cbn; rewrite ?insert_insert_eq, <- ?app_assoc; split_and!; try done; by apply delete_id.
Qed.
End add.

Lemma matches_add_iff d p i a gid type ndev : gid_matches d p i a gid type ndev false ADD_MASK = true <-> a_type a = type /\ a_gid a = gid /\ a_ndev a = ndev.
Proof.
  assert (gid_matches d p i a gid type ndev false ADD_MASK = (a_type a =? type) && (gid =? a_gid a) && bool_decide (a_ndev a = ndev)) as ->.
  { unfold gid_matches. cbn. by destruct (a_type a =? type), (gid =? a_gid a), (bool_decide _). }
  rewrite !andb_true_iff, bool_decide_eq_true, !Z.eqb_eq. naive_solver.
Qed.

Lemma find_range d s p gid type ndev dflt mask pe : let r := find_gid d s p gid type ndev dflt mask pe in r.1 = -1 \/ 0 <= r.1.
Proof.
  unfold find_gid. assert (forall l fd em, fd = -1 \/ 0 <= fd -> Forall (Z.le 0) l ->
    let r := find_gid_loop d s p gid type ndev dflt mask pe l fd em in r.1 = -1 \/ 0 <= r.1) as H.
  { induction l as [|i l IH]; intros fd em Hfd Hl; [done|]. apply Forall_cons_1 in Hl as [Hi Hl]. cbn. destruct ((fd <? 0) || (em <? 0)); [|done].
    apply IH; [|done]. destruct (entry_at s p i) as [[e x]|]; [|done]. case_match; [by right|done]. }
  apply H; [by left|]. apply list.Forall_forall. intros i Hi. apply elem_of_seqZ in Hi. lia.
Qed.

(** While no writer runs the driver has nothing at a free slot. *)
Lemma no_slot_no_hw d s ph p i : inv d s ph -> busy s !! p = None -> slots s !! (p, i) = None -> (p, i) ∉ hw s.
Proof.
  intros HI Hb Hsl H. apply (i_hw _ _ _ HI) in H as (e & x & f & Hx & Hf & HP & Hh & _). injection HP as Hpp <-. pose proof (no_writer d s ph p HI Hb e x f Hx Hf Hpp) as Hs.
  destruct f; try done. destruct (phase_valid d s ph e x HI Hx Hf) as [H _]. unfold e_place in H. rewrite Hpp in H. congruence.
Qed.

(** Adding a GID to an idle RoCE port, when there is memory and the driver accepts it: the
    operation returns 0 and the GID is in the table with its type and net device, or it returns
    -ENOSPC and all ordinary slots are taken. What was valid stays valid. *)
Theorem gid_add_correct d s p gid type n c e :
  device_ok d -> g_reachable d s -> p ∈ d_ports d -> d_roce d p = true -> busy s !! p = None -> gid <> 0 ->
  m_alloc c = Some e -> entries s !! e = None -> m_storage c = true -> m_add_gid c = 0 ->
  exists k s' ret, g_steps d (G_start p (Op_add gid type (Some n)) :: replicate k (G_sect p c) ++ [G_end p]) s = Ok s' /\
    (exists l, notices s' = l ++ [N_ret p ret]) /\ (forall q j b, valid_at s q j = Some b -> valid_at s' q j = Some b) /\
    ((ret = 0 /\ exists i a, valid_at s' p i = Some a /\ a_gid a = gid /\ a_type a = type /\ a_ndev a = Some n) \/
     (ret = err ENOSPC /\ forall i, 0 <= i < d_sz d p -> is_gid_index_default d p i = false -> slots s !! (p, i) <> None)).
Proof.
  intros Hd Hr Hp Hro Hb Hg Hc He Hst Had. destruct (gid_reachable_inv d s Hd Hr) as [ph HI].
  assert (op_sects (Op_add gid type (Some n)) = inr [S_add gid type (Some n) ADD_MASK false]) as Hop by (unfold op_sects, rdma_is_zero_gid; by rewrite (proj2 (Z.eqb_neq gid 0))).
  pose proof (find_gid_found d s p gid type (Some n) false ADD_MASK true (Hd p)) as HF.
  destruct (find_gid d s p gid type (Some n) false ADD_MASK true) as [ix em] eqn:Ef. destruct HF as [F1 F2 F3 F4]. cbn [fst snd] in *.
  assert (forall ret, ((0 <=? ix) = true /\ ret = 0) \/ ((0 <=? ix) = false /\ (em <? 0) = true /\ ret = err ENOSPC) ->
    exists s', g_steps d (G_start p (Op_add gid type (Some n)) :: replicate 1 (G_sect p c) ++ [G_end p]) s = Ok s' /\
      (exists l, notices s' = l ++ [N_ret p ret]) /\ forall q j, valid_at s' q j = valid_at s q j) as Hshort.
  { intros ret Hret. eexists. split.
    - cbn [replicate app]. rewrite (start_step d s p gid type n Hp Hb _ _ Hop).
      erewrite sect_step; [|open_sect; rewrite (find_same d s), Ef by done; destruct Hret as [[-> ->]|(-> & -> & ->)]; reflexivity|done]. apply end_step.
    - cbn. split; [by eexists|]. intros q j. by apply valid_at_same. }
  destruct (Z.leb_spec 0 ix) as [Hix|Hix].
  { destruct (Hshort 0 ltac:(left; split; [done|done])) as (s' & H1 & H2 & H3). exists 1%nat, s', 0. split_and!; [done..|intros q j b; by rewrite H3|]. left. split; [done|].
    destruct (F1 Hix) as (_ & G & _). unfold hit in G. destruct (valid_at s p ix) as [a|] eqn:Ev; [|done]. apply matches_add_iff in G as (? & ? & ?).
    exists ix, a. by rewrite H3. }
  destruct (Z.ltb_spec em 0) as [Hem|Hem].
  { destruct (Hshort (err ENOSPC) ltac:(right; split_and!; [done|done|done])) as (s' & H1 & H2 & H3). exists 1%nat, s', (err ENOSPC). split_and!; [done..|intros q j b; by rewrite H3|]. right. split; [done|].
    intros i Hi Hdf Hsl. pose proof (F4 eq_refl Hem i Hi) as H. unfold vacant, is_gid_entry_free in H. by rewrite Hsl, Hdf in H. }
  destruct (F3 eq_refl Hem) as (_ & G & _). unfold vacant, is_gid_entry_free in G. destruct (slots s !! (p, em)) eqn:Esl; [done|].
  assert (ix = -1) as -> by (pose proof (find_range d s p gid type (Some n) false ADD_MASK true) as H; rewrite Ef in H; cbn in H; lia).
  pose proof (no_slot_no_hw d s ph p em HI Hb Esl) as Hhw.
  destruct (add_run d s p gid type n c e Hp Hro Hb Hg Hc He Hst Had em Esl Hhw Ef Hem) as (s' & H1 & H2 & H3 & H4 & H5).
  exists 7%nat, s', 0. split_and!; [done|exists (notices s ++ [N_change p]); by rewrite H2, <- app_assoc|..].
  - intros q j b Hv. apply valid_at_Some in Hv as (e' & x & V1 & V2 & V3 & ->). apply valid_at_Some. exists e', x. rewrite H3, H4, (lookup_insert_ne (slots s)), (lookup_insert_ne (entries s)) by congruence. done.
  - left. split; [done|]. exists em, {| a_ndev := Some n; a_gid := gid; a_type := type; a_index := em; a_port := p |}.
    split; [|done]. apply valid_at_Some. eexists e, _. rewrite H3, H4, !lookup_insert_eq. done.
Qed.

(** ** Runs *)

(** Port 1 is a RoCE port with a hardware table, port 2 an InfiniBand port; index 0 of a table is
    for default GIDs. *)
Definition dev1 : device :=
  {| d_ports := [1; 2]; d_sz := fun _ => 3; d_default := fun p => if p =? 1 then 1 else 0; d_roce := fun p => p =? 1; d_iwarp := fun _ => false; d_gid_ops := true |}.

Lemma dev1_ok : device_ok dev1.
Proof. done. Qed.

Definition meets1 (e : positive) (gid : Z) : meets := {| m_alloc := Some e; m_storage := true; m_add_gid := 0; m_query_gid := inr gid; m_netdev := None |}.

Lemma steps_reachable d gs : forall s s', g_reachable d s -> Forall (client_ok d) gs -> g_steps d gs s = Ok s' -> g_reachable d s'.
Proof.
  induction gs as [|g gs IH]; intros s s' Hr Hc H; [by injection H as <-|]. apply Forall_cons_1 in Hc as [Hc1 Hc2]. cbn in H. apply bind_Ok in H as (s1 & H1 & H2).
  apply (IH s1 s'); [by eapply g_next|done..].
Qed.

Definition after (gs : list gstep) : cache := match g_steps dev1 gs cache_init with Ok s => s | _ => cache_init end.

Lemma gid_after_reachable gs : Forall (client_ok dev1) gs -> g_reachable dev1 (after gs).
Proof.
  intros H. unfold after. destruct (g_steps dev1 gs cache_init) as [s| |] eqn:E; [|apply g_init..]. by apply (steps_reachable dev1 gs cache_init s (g_init dev1)).
Qed.

(** A GID is added on port 1, a user takes a reference, and the GID is deleted but for its last
    section. *)
Definition run1 : list gstep :=
  G_start 1 (Op_add 0x77 2 (Some 9)) :: replicate 7 (G_sect 1 (meets1 1 0)) ++ [G_end 1; G_get 1 1].
Definition run2 : list gstep := run1 ++ G_start 1 (Op_del 0x77 2 (Some 9)) :: replicate 3 (G_sect 1 (meets1 1 0)).

Lemma run1_reachable : g_reachable dev1 (after run1).
Proof. apply gid_after_reachable. repeat constructor. Qed.
Lemma run2_reachable : g_reachable dev1 (after run2).
Proof. apply gid_after_reachable. repeat constructor. Qed.

Lemma gid_cache_never_bugs_witness : g_run dev1 (G_put 1) (after run2) <> Bug /\ slots (after run2) !! (1, 1) = Some 1%positive.
Proof. split; [apply (gid_cache_never_bugs dev1 (after run2) (G_put 1) dev1_ok run2_reachable I)|vm_compute; reflexivity]. Defined.

Definition entry2 : ib_gid_table_entry :=
  {| e_kref := 2; e_attr := {| a_ndev := Some 9; a_gid := 0x77; a_type := 2; a_index := 1; a_port := 1 |}; e_ndev_storage := Some 9; e_state := GID_TABLE_ENTRY_PENDING_DEL |}.

Lemma gid_references_exact_witness : entries (after run2) !! 1%positive = Some entry2 /\ in_hand (after run2) 1 entry2 = true /\
  e_kref entry2 = (Z.b2z (bool_decide (e_state entry2 = GID_TABLE_ENTRY_VALID) || in_hand (after run2) 1 entry2) + Z.of_nat (multiplicity 1%positive (holders (after run2))))%Z.
Proof.
  assert (entries (after run2) !! 1%positive = Some entry2) as He by (vm_compute; reflexivity). split; [done|]. split; [vm_compute; reflexivity|].
  destruct (gid_references_exact dev1 (after run2) dev1_ok run2_reachable) as [H _]. exact (proj1 (H 1%positive entry2 He)).
Defined.

(** The deletion ends, the user gives up its reference, the work item and the callback run. *)
Definition run3 : list gstep := run2 ++ [G_sect 1 (meets1 1 0); G_sect 1 (meets1 1 0); G_end 1; G_put 1; G_work 1; G_rcu 9].

Lemma run3_reachable : g_reachable dev1 (after run3).
Proof. apply gid_after_reachable. repeat constructor. Qed.

Lemma gid_teardown_witness : busy (after run3) = ∅ /\ entries (after run3) = ∅ /\ hw (after run3) = ∅.
Proof.
  assert (busy (after run3) = ∅) as Hb by (vm_compute; reflexivity). assert (holders (after run3) = ∅) as Hh by (vm_compute; reflexivity).
  assert (works (after run3) = []) as Hw by (vm_compute; reflexivity). assert (slots (after run3) = ∅) as Hs by (vm_compute; reflexivity).
  assert (forall p j, valid_at (after run3) p j = None) as Hv by (intros p j; unfold valid_at, entry_at; by rewrite Hs, lookup_empty).
  destruct (gid_teardown dev1 (after run3) dev1_ok run3_reachable) as [_ H]. specialize (H Hb Hh Hw Hv). split; [exact Hb|]. split; apply H.
Defined.

Lemma gid_table_no_duplicates_witness : (1, 1) ∈ hw (after run1) <-> d_gid_ops dev1 = true /\ is_Some (valid_at (after run1) 1 1).
Proof. apply (gid_table_no_duplicates dev1 (after run1) 1 dev1_ok run1_reachable); vm_compute; reflexivity. Defined.

Lemma gid_lookup_correct_witness : exists s' r, rdma_find_gid_by_port dev1 1 0x77 2 None (after run1) = Ok (s', r) /\
  forall q j, valid_at s' q j = valid_at (after run1) q j.
Proof.
  destruct (gid_lookup_correct dev1 (after run1) 1 0x77 2 None dev1_ok run1_reachable) as (s' & r & H1 & H2 & _); [by left|]. exists s', r. split; [exact H1|exact H2].
Defined.

Lemma gid_operations_end_witness : exists s' t', g_run dev1 (G_sect 1 (meets1 2 0)) (after run2) = Ok s' /\ busy s' !! 1 = Some t' /\ (op_left dev1 1 (t_todo t') < 2)%nat.
Proof.
  assert (busy (after run2) !! 1 = Some {| t_ret := 0; t_todo := [S_del_put 1; S_dispatch] |}) as Hb by (vm_compute; reflexivity).
  destruct (gid_operations_end dev1 (after run2) 1 _ dev1_ok run2_reachable Hb) as [[[[H|H] _]|H] _]; [done..|].
  apply (H (meets1 2 0)). intros e [= <-]. vm_compute. reflexivity.
Defined.

Lemma gid_add_correct_witness : exists k s' ret, g_steps dev1 (G_start 1 (Op_add 0x88 2 (Some 9)) :: replicate k (G_sect 1 (meets1 2 0)) ++ [G_end 1]) (after run1) = Ok s' /\
  exists l, notices s' = l ++ [N_ret 1 ret].
Proof.
  destruct (gid_add_correct dev1 (after run1) 1 0x88 2 9 (meets1 2 0) 2%positive dev1_ok run1_reachable) as (k & s' & ret & H1 & H2 & _);
    [by left|done|vm_compute; reflexivity|done|done|vm_compute; reflexivity|done|done|]. exists k, s', ret. split; [exact H1|exact H2].
Defined.

(** Port 2 reports GID 0x11; a user takes a reference on it; then the port reports 0x22 at the
    same index. The entry of the user is deleted and stays so, but [rdma_is_gid_attr_valid] looks
    at the slot, in which the new entry is, and calls it valid. *)
Definition config_run (e : positive) (gid : Z) (n : nat) : list gstep := G_start 2 (Op_config 1) :: replicate n (G_sect 2 (meets1 e gid)) ++ [G_end 2].
Definition run4 : list gstep := config_run 1 0x11 5 ++ G_get 2 0 :: config_run 2 0x22 8.

Lemma stale_attr_called_valid : g_reachable dev1 (after run4) /\ (1%positive ∈ holders (after run4)) /\
  exists x, entries (after run4) !! 1%positive = Some x /\ e_state x = GID_TABLE_ENTRY_PENDING_DEL /\ a_gid (e_attr x) = 0x11 /\
    rdma_is_gid_attr_valid (e_attr x) (after run4) = true.
Proof.
  split; [apply gid_after_reachable; repeat constructor; done|]. split; [apply elem_of_multiplicity; vm_compute; lia|].
  eexists. split; [vm_compute; reflexivity|]. vm_compute. done.
Qed.
