(* ===== verification/PortCache.v ===== *)
(** * The port cache: P_Keys, port attributes and their updates

    Beside the GID table core/cache.c keeps for each port the P_Key table, the LMC, the state and
    the subnet prefix. Events of the device are queued; the work item brings the cache up to date
    ([ib_cache_update]) before it tells the clients. Modelled: the update with its error paths, the
    loop over the GIDs of a port that is no RoCE port (the sections [S_config] of GidCache.v), the
    lookups, the event tasks. *)

From Stdlib Require Import ZArith Lia.
From stdpp Require Import base tactics numbers list option.
From S2P Require Import Prelude Outcome GidCache.

Local Open Scope Z_scope.

(** ** Data *)

(** [struct ib_port_cache] without the GID table. *)
Record ib_port_cache := {
  pc_subnet_prefix : Z;
  pc_pkey : option (list Z);
  pc_lmc : Z;
  pc_port_state : Z
}.

(** What the code reads of [struct ib_port_attr]. *)
Record ib_port_attr := {
  pa_subnet_prefix : Z;
  pa_state : Z;
  pa_gid_tbl_len : Z;
  pa_pkey_tbl_len : Z;
  pa_lmc : Z
}.

(** A port: its number, its protocol, and what memory and the driver answer during an update.
    [p_query_gid] is [None] for a driver without that operation. *)
Record port := {
  p_num : Z;
  p_valid : bool;
  p_roce : bool;
  p_iwarp : bool;
  p_link_ib : bool;
  p_props_ok : bool;
  p_query_port : Z + ib_port_attr;
  p_query_gid : option (Z -> Z + Z);
  p_get_netdev : Z -> option Z;
  p_table_ok : bool;
  p_query_pkey : Z -> Z + Z
}.

Inductive ib_event_type :=
| IB_EVENT_CQ_ERR | IB_EVENT_QP_FATAL | IB_EVENT_QP_REQ_ERR | IB_EVENT_QP_ACCESS_ERR | IB_EVENT_COMM_EST | IB_EVENT_SQ_DRAINED
| IB_EVENT_PATH_MIG | IB_EVENT_PATH_MIG_ERR | IB_EVENT_DEVICE_FATAL | IB_EVENT_PORT_ACTIVE | IB_EVENT_PORT_ERR
| IB_EVENT_LID_CHANGE | IB_EVENT_PKEY_CHANGE | IB_EVENT_SM_CHANGE | IB_EVENT_SRQ_ERR | IB_EVENT_SRQ_LIMIT_REACHED
| IB_EVENT_QP_LAST_WQE_REACHED | IB_EVENT_CLIENT_REREGISTER | IB_EVENT_GID_CHANGE | IB_EVENT_WQ_FATAL
| IB_EXP_EVENT_XRQ_QP_ERR | IB_EVENT_XRQ_NVMF_BACKEND_CTRL_PCI_ERR | IB_EVENT_XRQ_NVMF_BACKEND_CTRL_TO_ERR.
#[export] Instance ib_event_type_eq_dec : EqDecision ib_event_type.
Proof. solve_decision. Defined.

(** ** Updating *)

Definition with_prefix (sp : Z) (a : ib_port_attr) : ib_port_attr :=
  {| pa_subnet_prefix := sp; pa_state := pa_state a; pa_gid_tbl_len := pa_gid_tbl_len a; pa_pkey_tbl_len := pa_pkey_tbl_len a; pa_lmc := pa_lmc a |}.

(** [ib_query_port]: the answer of the driver; on an InfiniBand link the cached prefix stands in
    for one the driver did not give. *)
Definition ib_query_port (v : port) (pc : ib_port_cache) : Z + ib_port_attr :=
  if negb (p_valid v) then inl (err EINVAL) else
  match p_query_port v with
  | inl e => inl e
  | inr a =>
      if p_iwarp v then inr a else
      if negb (pa_subnet_prefix a =? 0) then inr a else
      if negb (p_link_ib v) then inr a else inr (with_prefix (pc_subnet_prefix pc) a)
  end.

(** The loop of [config_non_roce_gid_cache] from index [i] on, [n] rounds: the result, the subnet
    prefix, and the calls of [add_modify_gid]. *)
Fixpoint config_loop (v : port) (n : nat) (i : Z) (ndev : option Z) (prefix : Z) : Z * Z * list ib_gid_attr :=
  match n with
  | O => (0, prefix, [])
  | S n =>
      match p_query_gid v with
      | None => config_loop v n (i + 1) ndev prefix
      | Some query =>
          match query i with
          | inl e => (e, prefix, [])
          | inr gid =>
              let call nd :=
                let '(ret, sp, calls) := config_loop v n (i + 1) nd (Z.shiftr gid 64) in
                (ret, sp, {| a_ndev := nd; a_gid := gid; a_type := 0; a_index := i; a_port := p_num v |} :: calls) in
              if p_iwarp v then
                match p_get_netdev v i with
                | None => config_loop v n (i + 1) ndev prefix
                | Some nd => call (Some nd)
                end
              else call ndev
          end
      end
  end.

Definition config_non_roce_gid_cache (v : port) (tprops : ib_port_attr) : Z * ib_port_attr * list ib_gid_attr :=
  let '(ret, sp, calls) := config_loop v (Z.to_nat (pa_gid_tbl_len tprops)) 0 None (pa_subnet_prefix tprops) in
  (ret, with_prefix sp tprops, calls).

Fixpoint query_pkeys (v : port) (n : nat) (i : Z) : Z + list Z :=
  match n with
  | O => inr []
  | S n =>
      match p_query_pkey v i with
      | inl e => inl e
      | inr k => match query_pkeys v n (i + 1) with inl e => inl e | inr l => inr (k :: l) end
      end
  end.

(** What an update does: its result, the port cache, the calls of [add_modify_gid], and the prefix
    it gives to the security module. *)
Record updated := {
  u_ret : Z;
  u_cache : ib_port_cache;
  u_calls : list ib_gid_attr;
  u_security : option Z
}.

Definition ib_cache_update (v : port) (update_gids update_pkeys enforce_security : bool) (pc : ib_port_cache) : updated :=
  let fail ret calls := {| u_ret := ret; u_cache := pc; u_calls := calls; u_security := None |} in
  if negb (p_valid v) then fail (err EINVAL) [] else
  if negb (p_props_ok v) then fail (err ENOMEM) [] else
  match ib_query_port v pc with
  | inl e => fail e []
  | inr tprops =>
      let '(ret, tprops, calls) := if negb (p_roce v) && update_gids then config_non_roce_gid_cache v tprops else (0, tprops, []) in
      if negb (ret =? 0) then fail ret calls else
      let update_pkeys := update_pkeys && negb (pa_pkey_tbl_len tprops =? 0) in
      let finish pkey :=
        {| u_ret := 0;
           u_cache := {| pc_subnet_prefix := pa_subnet_prefix tprops; pc_pkey := pkey; pc_lmc := pa_lmc tprops; pc_port_state := pa_state tprops |};
           u_calls := calls;
           u_security := if enforce_security then Some (pa_subnet_prefix tprops) else None |} in
      if update_pkeys then
        if negb (p_table_ok v) then fail (err ENOMEM) calls else
        match query_pkeys v (Z.to_nat (pa_pkey_tbl_len tprops)) 0 with
        | inl e => fail e calls
        | inr l => finish (Some l)
        end
      else finish (pc_pkey pc)
  end.

(** ** Events *)

Definition is_cache_update_event (ev : ib_event_type) : bool :=
  match ev with
  | IB_EVENT_PORT_ERR | IB_EVENT_PORT_ACTIVE | IB_EVENT_LID_CHANGE | IB_EVENT_PKEY_CHANGE | IB_EVENT_CLIENT_REREGISTER | IB_EVENT_GID_CHANGE => true
  | _ => false
  end.

Record ib_update_work := {
  w_event : ib_event_type;
  w_cache_task : bool;
  w_enforce_security : bool
}.

(** The work item that is queued, if there is memory for it. *)
Definition ib_dispatch_event (kzalloc_ok : bool) (ev : ib_event_type) : option ib_update_work :=
  if kzalloc_ok
  then Some {| w_event := ev; w_cache_task := is_cache_update_event ev;
               w_enforce_security := bool_decide (ev = IB_EVENT_PKEY_CHANGE) || bool_decide (ev = IB_EVENT_GID_CHANGE) |}
  else None.

(** [ib_cache_event_task] and [ib_generic_event_task]: the update, if any, and the event clients
    are told. *)
Definition run_work (v : port) (w : ib_update_work) (pc : ib_port_cache) : option updated * ib_port_cache * list ib_event_type :=
  if w_cache_task w then
    let u := ib_cache_update v (bool_decide (w_event w = IB_EVENT_GID_CHANGE)) (bool_decide (w_event w = IB_EVENT_PKEY_CHANGE)) (w_enforce_security w) pc in
    (Some u, u_cache u, if (u_ret u =? 0) && negb (bool_decide (w_event w = IB_EVENT_GID_CHANGE)) then [w_event w] else [])
  else (None, pc, [w_event w]).

(** ** Reading *)

Definition ib_get_cached_pkey (v : port) (pc : ib_port_cache) (index : Z) : Z + Z :=
  if negb (p_valid v) then inl (err EINVAL) else
  match pc_pkey pc with
  | None => inl (err EINVAL)
  | Some table =>
      if (index <? 0) || (Z.of_nat (length table) <=? index) then inl (err EINVAL)
      else match table !! Z.to_nat index with Some k => inr k | None => inl (err EINVAL) end
  end.

Definition ib_get_cached_subnet_prefix (pc : ib_port_cache) : Z := pc_subnet_prefix pc.
Definition ib_get_cached_lmc (v : port) (pc : ib_port_cache) : Z + Z := if negb (p_valid v) then inl (err EINVAL) else inr (pc_lmc pc).
Definition ib_get_cached_port_state (v : port) (pc : ib_port_cache) : Z + Z := if negb (p_valid v) then inl (err EINVAL) else inr (pc_port_state pc).

(** The loop of [ib_find_cached_pkey]: the index of the first full member, if any, and the last
    limited member before it (-1: none). *)
Fixpoint find_pkey_loop (pkey : Z) (l : list Z) (i partial_ix : Z) : option Z * Z :=
  match l with
  | [] => (None, partial_ix)
  | k :: r =>
      if Z.land k 0x7fff =? Z.land pkey 0x7fff then
        if has_flag k 0x8000 then (Some i, partial_ix) else find_pkey_loop pkey r (i + 1) i
      else find_pkey_loop pkey r (i + 1) partial_ix
  end.

(** The result and the index that is written, if one is. *)
Definition ib_find_cached_pkey (v : port) (pc : ib_port_cache) (pkey : Z) : Z * option Z :=
  if negb (p_valid v) then (err EINVAL, None) else
  match pc_pkey pc with
  | None => (err EINVAL, None)
  | Some table =>
      match find_pkey_loop pkey table 0 (-1) with
      | (Some i, _) => (0, Some (u16 i))
      | (None, partial_ix) => if 0 <=? partial_ix then (0, Some (u16 partial_ix)) else (err ENOENT, Some (u16 (-1)))
      end
  end.

Fixpoint find_exact_loop (pkey : Z) (l : list Z) (i : Z) : option Z :=
  match l with [] => None | k :: r => if k =? pkey then Some i else find_exact_loop pkey r (i + 1) end.

Definition ib_find_exact_cached_pkey (v : port) (pc : ib_port_cache) (pkey : Z) : Z * option Z :=
  if negb (p_valid v) then (err EINVAL, None) else
  match pc_pkey pc with
  | None => (err EINVAL, None)
  | Some table => match find_exact_loop pkey table 0 with Some i => (0, Some (u16 i)) | None => (err ENOENT, Some (u16 (-1))) end
  end.

(** ** The loop over the GIDs *)

(** A section [S_config] of the thread in GidCache.v is a round of the loop. *)
Lemma config_section d v query c ret s i len ndev sp : p_query_gid v = Some query -> d_iwarp d (p_num v) = p_iwarp v -> i < len ->
  m_query_gid c = query i -> m_netdev c = p_get_netdev v i -> (p_iwarp v = false -> ndev = None) ->
  run_sect d (p_num v) c ret (S_config i len ndev) s =
  match query i, config_loop v 1 i ndev sp with
  | inl e, _ => next e [] s
  | inr _, (_, _, [a]) => next 0 [S_modify a; S_config (i + 1) len (a_ndev a)] s
  | inr _, _ => next 0 [S_config (i + 1) len ndev] s
  end.
Proof.
  intros Hq Hw Hi Hc Hn Hnd. open_sect; cbn [config_loop]. rewrite (proj2 (Z.ltb_lt i len) Hi), Hc, Hq, Hw, Hn. destruct (query i) as [e|gid]; [done|].
  destruct (p_iwarp v); [by destruct (p_get_netdev v i)|]. by rewrite Hnd.
Qed.

(** ** Updates *)

(** Errors of the driver are not 0; tables have a length. *)
Record port_ok (v : port) : Prop := {
  po_port : forall e, p_query_port v = inl e -> e <> 0;
  po_pkey : forall i e, p_query_pkey v i = inl e -> e <> 0
}.

Lemma query_pkeys_spec v n : forall i, match query_pkeys v n i with
  | inl e => exists j, i <= j < i + Z.of_nat n /\ p_query_pkey v j = inl e
  | inr l => length l = n /\ forall j, (j < n)%nat -> exists k, l !! j = Some k /\ p_query_pkey v (i + Z.of_nat j) = inr k
  end.
Proof.
  induction n as [|n IH]; intros i; cbn [query_pkeys]; [split; [done|lia]|]. destruct (p_query_pkey v i) as [e|k] eqn:E; [exists i; split; [lia|done]|].
  specialize (IH (i + 1)). destruct (query_pkeys v n (i + 1)) as [e|l].
  - destruct IH as (j & H1 & H2). exists j. split; [lia|done].
  - destruct IH as [H1 H2]. split; [cbn; lia|]. intros [|j] Hj; [exists k; split; [done|]; by rewrite Z.add_0_r|].
    destruct (H2 j ltac:(lia)) as (k' & K1 & K2). exists k'. split; [done|]. rewrite <- K2. f_equal. lia.
Qed.

(** The cache has what the driver said: the attributes of the port and, if [pkeys] is set, the
    P_Key table. *)
Record synced (v : port) (pkeys : bool) (a : ib_port_attr) (pc pc' : ib_port_cache) : Prop := {
  sy_lmc : pc_lmc pc' = pa_lmc a;
  sy_state : pc_port_state pc' = pa_state a;
  sy_pkeys : pkeys = true -> pa_pkey_tbl_len a <> 0 ->
    exists l, pc_pkey pc' = Some l /\ length l = Z.to_nat (pa_pkey_tbl_len a) /\
      forall j, (j < length l)%nat -> exists k, l !! j = Some k /\ p_query_pkey v (Z.of_nat j) = inr k;
  sy_kept : pkeys = false \/ pa_pkey_tbl_len a = 0 -> pc_pkey pc' = pc_pkey pc
}.

Lemma query_port_nonzero v pc e : port_ok v -> ib_query_port v pc = inl e -> e <> 0.
Proof.
  intros Hv. unfold ib_query_port. destruct (p_valid v); cbn; [|by intros [= <-]]. destruct (p_query_port v) as [e'|a] eqn:E; [intros [= ->]; by apply (po_port v Hv)|].
  repeat case_match; done.
Qed.

Lemma cache_update_spec v gids pkeys sec pc : port_ok v ->
  let u := ib_cache_update v gids pkeys sec pc in
  (u_ret u <> 0 -> u_cache u = pc /\ u_security u = None) /\
  (u_ret u = 0 -> exists a, ib_query_port v pc = inr a /\ synced v pkeys a pc (u_cache u) /\
     (gids = false \/ p_roce v = true -> pc_subnet_prefix (u_cache u) = pa_subnet_prefix a /\ u_calls u = []) /\
     u_security u = if sec then Some (pc_subnet_prefix (u_cache u)) else None).
Proof.
  intros Hv u. unfold u, ib_cache_update. destruct (p_valid v); cbn [negb]; [|split; done]. destruct (p_props_ok v); cbn [negb]; [|split; done].
  destruct (ib_query_port v pc) as [e|a] eqn:Ea.
  { cbn. split; [done|]. intros ->. by apply (query_port_nonzero v pc 0 Hv) in Ea. }
  set (cf := if negb (p_roce v) && gids then config_non_roce_gid_cache v a else (0, a, [])).
  assert (exists sp, cf.1.2 = with_prefix sp a /\ (gids = false \/ p_roce v = true -> cf = (0, a, []))) as (sp & Hsp & Hcf).
  { unfold cf. destruct (negb (p_roce v) && gids) eqn:Eg.
    - unfold config_non_roce_gid_cache. destruct (config_loop _ _ _ _ _) as [[r sp] cl]. exists sp. split; [done|]. destruct (p_roce v), gids; naive_solver.
    - exists (pa_subnet_prefix a). split; [by destruct a|done]. }
  destruct cf as [[ret tp] calls] eqn:Ecf. cbn in Hsp. subst tp. destruct (Z.eqb_spec ret 0) as [->|Hret]; cbn [negb]; [|split; done].
  cbn [pa_pkey_tbl_len with_prefix pa_subnet_prefix pa_lmc pa_state].
  assert (gids = false \/ p_roce v = true -> sp = pa_subnet_prefix a /\ calls = []) as Hc.
  { intros H. specialize (Hcf H). injection Hcf as H1 ->. split; [|done]. by rewrite <- H1. }
  destruct pkeys; cbn [andb].
  - destruct (Z.eqb_spec (pa_pkey_tbl_len a) 0) as [E0|E0]; cbn [negb].
    + split; [done|]. intros _. exists a. split_and!; [done|by constructor|done|done].
    + destruct (p_table_ok v); cbn [negb]; [|split; done]. pose proof (query_pkeys_spec v (Z.to_nat (pa_pkey_tbl_len a)) 0) as HQ.
      destruct (query_pkeys v (Z.to_nat (pa_pkey_tbl_len a)) 0) as [e|l].
      * split; [done|]. cbn. intros ->. destruct HQ as (j & _ & Hj). by apply (po_pkey v Hv) in Hj.
      * split; [done|]. intros _. exists a. destruct HQ as [H1 H2]. split_and!; [done| |done|done]. constructor; [done|done| |intros [?|?]; done].
        intros _ _. exists l. split_and!; try done. rewrite H1. exact H2.
  - split; [done|]. intros _. exists a. split_and!; [done|by constructor|done|done].
Qed.

(** C28. Clients see the new cache. For an event that changes the cache of a port: when the work item
    tells the clients, the port cache has what the driver said about the port, and its P_Keys after a
    P_Key change; when the update succeeds the clients are told, except of GID changes, which are told
    entry by entry elsewhere; an update that fails leaves the port cache as it was, for every event.
    Other events are told and leave the cache alone. *)
Theorem clients_see_updated_cache v ev w pc u pc' told : port_ok v ->
  ib_dispatch_event true ev = Some w -> run_work v w pc = (u, pc', told) ->
  (is_cache_update_event ev = true -> exists r, u = Some r /\
     (u_ret r <> 0 -> pc' = pc) /\
     (u_ret r = 0 -> exists a, ib_query_port v pc = inr a /\ synced v (bool_decide (ev = IB_EVENT_PKEY_CHANGE)) a pc pc' /\
        (ev <> IB_EVENT_GID_CHANGE -> pc_subnet_prefix pc' = pa_subnet_prefix a /\ told = [ev]))) /\
  (is_cache_update_event ev = true -> told = [ev] ->
    exists a, ib_query_port v pc = inr a /\ synced v (bool_decide (ev = IB_EVENT_PKEY_CHANGE)) a pc pc' /\ pc_subnet_prefix pc' = pa_subnet_prefix a) /\
  (is_cache_update_event ev = false -> told = [ev] /\ pc' = pc).
Proof.
  intros Hv [= <-] H. unfold run_work in H. cbn [w_cache_task w_event w_enforce_security] in H. destruct (is_cache_update_event ev) eqn:Ec; [|simplify_eq; naive_solver].
  pose proof (cache_update_spec v (bool_decide (ev = IB_EVENT_GID_CHANGE)) (bool_decide (ev = IB_EVENT_PKEY_CHANGE))
    (bool_decide (ev = IB_EVENT_PKEY_CHANGE) || bool_decide (ev = IB_EVENT_GID_CHANGE)) pc Hv) as [H1 H2].
  set (r := ib_cache_update _ _ _ _ _) in *. injection H as <- <- <-.
  assert (u_ret r = 0 -> exists a, ib_query_port v pc = inr a /\ synced v (bool_decide (ev = IB_EVENT_PKEY_CHANGE)) a pc (u_cache r) /\
    (ev <> IB_EVENT_GID_CHANGE -> pc_subnet_prefix (u_cache r) = pa_subnet_prefix a)) as Hok.
  { intros E. destruct (H2 E) as (a & A1 & A2 & A3 & _). exists a. split_and!; [done..|]. intros G. apply A3. left. by apply bool_decide_eq_false_2. }
  split; [|split; [|done]].
  - intros _. exists r. split; [done|]. split; [intros E; by apply H1|]. intros E. destruct (Hok E) as (a & A1 & A2 & A3). exists a. split_and!; [done..|].
    intros G. split; [by apply A3|]. by rewrite E, bool_decide_eq_false_2.
  - intros _ Ht. destruct (Z.eqb_spec (u_ret r) 0) as [E|E], (bool_decide_reflect (ev = IB_EVENT_GID_CHANGE)) as [G|G]; try done.
    destruct (Hok E) as (a & A1 & A2 & A3). exists a. split_and!; [done..|]. by apply A3.
Qed.

(** ** P_Keys *)

(** P_Keys of the same partition differ at most in the membership bit. *)
Definition same_partition (k k' : Z) : Prop := Z.land k 0x7fff = Z.land k' 0x7fff.
Definition full_member (k : Z) : bool := has_flag k 0x8000.

Lemma find_pkey_loop_spec pkey : forall l i q, match find_pkey_loop pkey l i q with
  | (Some m, _) => exists j k, m = i + Z.of_nat j /\ l !! j = Some k /\ same_partition k pkey /\ full_member k = true /\
      forall j' k', (j' < j)%nat -> l !! j' = Some k' -> same_partition k' pkey -> full_member k' = false
  | (None, m) => (forall j k, l !! j = Some k -> same_partition k pkey -> full_member k = false) /\
      ((m = q /\ forall j k, l !! j = Some k -> ~ same_partition k pkey) \/
       exists j k, m = i + Z.of_nat j /\ l !! j = Some k /\ same_partition k pkey /\ forall j' k', (j < j')%nat -> l !! j' = Some k' -> ~ same_partition k' pkey)
  end.
Proof.
  assert (forall (P : nat -> Z -> Prop) x r, P 0%nat x -> (forall j k, r !! j = Some k -> P (S j) k) -> forall j k, (x :: r) !! j = Some k -> P j k) as Hcons.
  { intros P x r H0 HS [|j] k Hk; [by injection Hk as <-|by apply HS]. }
  induction l as [|x r IH]; intros i q; cbn [find_pkey_loop]; [split; [done|]; left; split; done|].
  destruct (Z.eqb_spec (Z.land x 0x7fff) (Z.land pkey 0x7fff)) as [Es|Es]; [destruct (has_flag x 0x8000) eqn:Ef|].
  - exists 0%nat, x. split_and!; [lia|done..|]. intros; lia.
  - specialize (IH (i + 1) i). destruct (find_pkey_loop pkey r (i + 1) i) as [[m|] m'].
    + destruct IH as (j & k & H1 & H2 & H3 & H4 & H5). exists (S j), k. split_and!; [lia|done..|].
      intros [|j'] k' Hj Hk; [injection Hk as <-; done|]. apply (H5 j' k'); [lia|done].
    + destruct IH as [H1 H2]. split; [apply (Hcons (fun _ k => same_partition k pkey -> full_member k = false)); [done|by apply H1]|]. right. destruct H2 as [[-> H2]|(j & k & H2 & H3 & H4 & H5)].
      * exists 0%nat, x. split_and!; [lia|done..|]. intros [|j'] k' Hj Hk; [lia|]. by apply (H2 j').
      * exists (S j), k. split_and!; [lia|done..|]. intros [|j'] k' Hj Hk; [lia|]. apply (H5 j' k'); [lia|done].
  - specialize (IH (i + 1) q). destruct (find_pkey_loop pkey r (i + 1) q) as [[m|] m'].
    + destruct IH as (j & k & H1 & H2 & H3 & H4 & H5). exists (S j), k. split_and!; [lia|done..|].
      intros [|j'] k' Hj Hk; [injection Hk as <-; done|]. apply (H5 j' k'); [lia|done].
    + destruct IH as [H1 H2]. split; [apply (Hcons (fun _ k => same_partition k pkey -> full_member k = false)); [done|by apply H1]|]. destruct H2 as [[-> H2]|(j & k & H2 & H3 & H4 & H5)].
      * left. split; [done|]. apply (Hcons (fun _ k => ~ same_partition k pkey)); done.
      * right. exists (S j), k. split_and!; [lia|done..|]. intros [|j'] k' Hj Hk; [lia|]. apply (H5 j' k'); [lia|done].
Qed.

Lemma find_exact_loop_spec pkey : forall l i, match find_exact_loop pkey l i with
  | Some m => exists j, m = i + Z.of_nat j /\ l !! j = Some pkey /\ forall j', (j' < j)%nat -> l !! j' <> Some pkey
  | None => pkey ∉ l
  end.
Proof.
  induction l as [|x r IH]; intros i; cbn [find_exact_loop]; [apply not_elem_of_nil|]. destruct (Z.eqb_spec x pkey) as [->|Hx].
  { exists 0%nat. split_and!; [lia|done|]. intros; lia. }
  specialize (IH (i + 1)). destruct (find_exact_loop pkey r (i + 1)).
  - destruct IH as (j & H1 & H2 & H3). exists (S j). split_and!; [lia|done|]. intros [|j'] Hj; [by intros [= ->]|]. apply H3. lia.
  - rewrite elem_of_cons. naive_solver.
Qed.

Lemma get_pkey v pc l j k : p_valid v = true -> pc_pkey pc = Some l -> l !! j = Some k -> ib_get_cached_pkey v pc (Z.of_nat j) = inr k.
Proof.
  intros Hv Hl Hk. unfold ib_get_cached_pkey. rewrite Hv, Hl. cbn [negb]. pose proof (lookup_lt_Some _ _ _ Hk).
  rewrite (proj2 (Z.ltb_ge _ _)), (proj2 (Z.leb_gt _ _)) by lia. cbn [orb]. by rewrite Nat2Z.id, Hk.
Qed.

(** The P_Key lookups. [ib_find_cached_pkey] finds an entry of the partition exactly if there is
    one, the first with full membership, or if there is none the last with limited membership;
    [ib_find_exact_cached_pkey] finds the first entry that is the P_Key itself; reading the index
    they return gives the entry. *)
Theorem pkey_lookup_correct v pc l pkey : p_valid v = true -> pc_pkey pc = Some l -> Z.of_nat (length l) < 2 ^ 16 ->
  ((exists j k, ib_find_cached_pkey v pc pkey = (0, Some (Z.of_nat j)) /\ ib_get_cached_pkey v pc (Z.of_nat j) = inr k /\ l !! j = Some k /\ same_partition k pkey /\
      if full_member k then forall j' k', (j' < j)%nat -> l !! j' = Some k' -> same_partition k' pkey -> full_member k' = false
      else forall j' k', l !! j' = Some k' -> same_partition k' pkey -> full_member k' = false /\ (j' <= j)%nat) \/
   (ib_find_cached_pkey v pc pkey = (err ENOENT, Some 0xffff) /\ forall j k, l !! j = Some k -> ~ same_partition k pkey)) /\
  ((exists j, ib_find_exact_cached_pkey v pc pkey = (0, Some (Z.of_nat j)) /\ ib_get_cached_pkey v pc (Z.of_nat j) = inr pkey /\
      forall j', (j' < j)%nat -> l !! j' <> Some pkey) \/
   (ib_find_exact_cached_pkey v pc pkey = (err ENOENT, Some 0xffff) /\ pkey ∉ l)).
Proof.
  intros Hv Hl Hn.
  assert (forall j (k : Z), l !! j = Some k -> u16 (Z.of_nat j) = Z.of_nat j) as Hu.
  { intros j k Hk. apply lookup_lt_Some in Hk. unfold u16. apply Z.mod_small. lia. }
  split.
  - unfold ib_find_cached_pkey. rewrite Hv, Hl. cbn [negb]. pose proof (find_pkey_loop_spec pkey l 0 (-1)) as H. destruct (find_pkey_loop pkey l 0 (-1)) as [[m|] q].
    + destruct H as (j & k & -> & H2 & H3 & H4 & H5). left. exists j, k. rewrite H4, Z.add_0_l, (Hu j k H2). split_and!; [done|by apply (get_pkey v pc l)|done..].
    + destruct H as [H1 [[-> H2]|(j & k & -> & H3 & H4 & H5)]]; [right; done|]. left. exists j, k. rewrite Z.add_0_l, (proj2 (Z.leb_le _ _)), (Hu j k H3), (H1 j k H3 H4) by lia.
      split_and!; [done|by apply (get_pkey v pc l)|done..|]. intros j' k' Hk' Hs. split; [by apply (H1 j')|].
      destruct (decide (j' <= j)%nat) as [|Hj]; [done|]. destruct (H5 j' k' ltac:(lia) Hk' Hs).
  - unfold ib_find_exact_cached_pkey. rewrite Hv, Hl. cbn [negb]. pose proof (find_exact_loop_spec pkey l 0) as H. destruct (find_exact_loop pkey l 0) as [m|]; [|by right].
    destruct H as (j & -> & H2 & H3). left. exists j. rewrite Z.add_0_l, (Hu j _ H2). split_and!; [done|by apply (get_pkey v pc l)|done].
Qed.

(** ** A port *)

(** An InfiniBand port with two GIDs, the second unused, and three P_Keys. *)
Definition port1 : port :=
  {| p_num := 1; p_valid := true; p_roce := false; p_iwarp := false; p_link_ib := true; p_props_ok := true;
     p_query_port := inr {| pa_subnet_prefix := 0; pa_state := 4; pa_gid_tbl_len := 2; pa_pkey_tbl_len := 3; pa_lmc := 0 |};
     p_query_gid := Some (fun i => inr (if i =? 0 then 0xfe800000000000000002c90300001234 else 0));
     p_get_netdev := fun _ => None; p_table_ok := true;
     p_query_pkey := fun i => inr (if i =? 0 then 0x7fff else if i =? 1 then 0x8001 else 1) |}.

Definition pc0 : ib_port_cache := {| pc_subnet_prefix := 0xfe80000000000000; pc_pkey := None; pc_lmc := 1; pc_port_state := 1 |}.
Definition pc1 : ib_port_cache := u_cache (ib_cache_update port1 false true true pc0).

Lemma port1_ok : port_ok port1.
Proof. by split. Qed.

Lemma clients_see_updated_cache_witness : exists a, ib_query_port port1 pc0 = inr a /\ synced port1 true a pc0 pc1 /\ pc_subnet_prefix pc1 = pa_subnet_prefix a.
Proof.
  destruct (clients_see_updated_cache port1 IB_EVENT_PKEY_CHANGE _ pc0 (Some (ib_cache_update port1 false true true pc0)) pc1 [IB_EVENT_PKEY_CHANGE] port1_ok eq_refl) as (_ & H & _);
    [vm_compute; reflexivity|]. apply H; done.
Defined.

Lemma pkey_lookup_correct_witness : pc_pkey pc1 = Some [0x7fff; 0x8001; 1] /\
  ((exists j k, ib_find_cached_pkey port1 pc1 1 = (0, Some (Z.of_nat j)) /\ ib_get_cached_pkey port1 pc1 (Z.of_nat j) = inr k) \/
   ib_find_cached_pkey port1 pc1 1 = (err ENOENT, Some 0xffff)).
Proof.
  assert (pc_pkey pc1 = Some [0x7fff; 0x8001; 1]) as Hl by (vm_compute; reflexivity). split; [exact Hl|].
  destruct (pkey_lookup_correct port1 pc1 [0x7fff; 0x8001; 1] 1 eq_refl Hl ltac:(done)) as [[(j & k & H1 & H2 & _)|[H _]] _]; [left; eauto|by right].
Defined.

(** The subnet prefix of the cache is that of the last index of the GID table, 0 where that index
    is not in use. *)
Lemma prefix_of_last_gid : pc_subnet_prefix (u_cache (ib_cache_update port1 true true true pc0)) = 0 /\
  u_security (ib_cache_update port1 true true true pc0) = Some 0.
Proof. by vm_compute. Qed.

(** A port that goes down and does not answer any more: the clients are not told. *)
Lemma port_error_not_reported : let v := {| p_num := 1; p_valid := true; p_roce := false; p_iwarp := false; p_link_ib := true; p_props_ok := true;
     p_query_port := inl (err EINVAL); p_query_gid := None; p_get_netdev := fun _ => None; p_table_ok := true; p_query_pkey := fun _ => inl (err EINVAL) |} in
  port_ok v /\ exists w u, ib_dispatch_event true IB_EVENT_PORT_ERR = Some w /\ run_work v w pc0 = (u, pc0, []).
Proof. split; [split; cbn; intros; by simplify_eq|]. eexists _, _. split; [done|]. by vm_compute. Qed.
