(* ===== verification/SaRec.v ===== *)
(** * Records of subnet administration

    core/sa_query.c keeps the layouts of the records its queries carry; include/rdma/ib_sa.h
    converts path records between the InfiniBand and the OPA format. A record is the bytes of the
    C structure, at the offsets of the C layout rules, so that the arms of a union share their
    bytes; the enumeration and the flags after them, which no table has, are members of their
    own. *)

From Stdlib Require Import ZArith Lia String.
From stdpp Require Import base tactics numbers list option strings.
From S2P Require Import Prelude Packer UdHeader.

Local Open Scope string_scope.
Local Open Scope Z_scope.

(** ** Structures *)

Inductive sa_path_rec_type := SA_PATH_REC_TYPE_IB | SA_PATH_REC_TYPE_ROCE_V1 | SA_PATH_REC_TYPE_ROCE_V2 | SA_PATH_REC_TYPE_OPA.
#[export] Instance sa_path_rec_type_eq_dec : EqDecision sa_path_rec_type.
Proof. solve_decision. Defined.

Definition m64 (n : string) : member := (n, (8, 8)%nat).

Definition ib_gid_global : list member := [m64 "subnet_prefix"; m64 "interface_id"].

Definition sa_path_rec_ib : list member := [m16 "dlid"; m16 "slid"; m8 "raw_traffic"].

Definition sa_path_rec_roce : list member := [m8 "route_resolved"; mbytes "dmac" 6].

Definition sa_path_rec_opa : list member :=
  [m32 "dlid"; m32 "slid"; m8 "raw_traffic"; m8 "l2_8B"; m8 "l2_10B"; m8 "l2_9B"; m8 "l2_16B"; m8 "qos_type"; m8 "qos_priority"].

(** A union is as long and as aligned as its largest arm. *)
Definition munion (n : string) (arms : list (list member)) : member :=
  let al := foldr (fun a => Nat.max (struct_align a)) 1%nat arms in
  (n, (align_up (foldr (fun a => Nat.max (sizeof a)) 0%nat arms) al, al)).

Definition sa_path_rec : list member :=
  [mgid "dgid"; mgid "sgid"; m64 "service_id"; m32 "flow_label"; m8 "hop_limit"; m8 "traffic_class"; m8 "reversible"; m8 "numb_path";
   m16 "pkey"; m16 "qos_class"; m8 "sl"; m8 "mtu_selector"; m8 "mtu"; m8 "rate_selector"; m8 "rate"; m8 "packet_life_time_selector";
   m8 "packet_life_time"; m8 "preference"; munion "union" [sa_path_rec_ib; sa_path_rec_roce; sa_path_rec_opa]; m32 "rec_type"; m32 "flags"].

Definition ib_sa_mcmember_rec : list member :=
  [mgid "mgid"; mgid "port_gid"; m32 "qkey"; m16 "mlid"; m8 "mtu_selector"; m8 "mtu"; m8 "traffic_class"; m16 "pkey"; m8 "rate_selector";
   m8 "rate"; m8 "packet_life_time_selector"; m8 "packet_life_time"; m8 "sl"; m32 "flow_label"; m8 "hop_limit"; m8 "scope";
   m8 "join_state"; m8 "proxy_join"].

Definition ib_class_port_info : list member :=
  [m8 "base_version"; m8 "class_version"; m16 "capability_mask"; m32 "cap_mask2_resp_time"; mbytes "redirect_gid" 16;
   m32 "redirect_tcslfl"; m16 "redirect_lid"; m16 "redirect_pkey"; m32 "redirect_qp"; m32 "redirect_qkey"; mbytes "trap_gid" 16;
   m32 "trap_tcslfl"; m16 "trap_lid"; m16 "trap_pkey"; m32 "trap_hlqp"; m32 "trap_qkey"].

(** A packed structure has no padding. *)
Definition packed (ms : list member) : list member := (fun m => (fst m, (fst (snd m), 1%nat))) <$> ms.

Definition opa_class_port_info : list member :=
  packed [m8 "base_version"; m8 "class_version"; m16 "cap_mask"; m32 "cap_mask2_resp_time"; mbytes "redirect_gid" 16;
    m32 "redirect_tc_fl"; m32 "redirect_lid"; m32 "redirect_sl_qp"; m32 "redirect_qkey"; mbytes "trap_gid" 16; m32 "trap_tc_fl";
    m32 "trap_lid"; m32 "trap_hl_qp"; m32 "trap_qkey"; m16 "trap_pkey"; m16 "redirect_pkey"; m8 "trap_sl_rsvd"; mbytes "reserved" 3].

Definition ib_sa_guidinfo_rec : list member := [m16 "lid"; m8 "block_num"; m8 "res1"; m32 "res2"; mbytes "guid_info_list" 64].

(** The members of a path record, those of its GIDs and of the arms of its union too. *)
Definition nested (p : string) (o : nat) (ms : list member) : list (string * (nat * nat)) :=
  (fun m => (p ++ fst m, ((o + fst (snd m))%nat, snd (snd m)))) <$> layout 0 ms.

Definition path_members : list (string * (nat * nat)) :=
  (layout 0 sa_path_rec ++ nested "dgid." (offsetof sa_path_rec "dgid") ib_gid_global ++ nested "sgid." (offsetof sa_path_rec "sgid") ib_gid_global ++
   nested "ib." (offsetof sa_path_rec "union") sa_path_rec_ib ++ nested "roce." (offsetof sa_path_rec "union") sa_path_rec_roce ++
   nested "opa." (offsetof sa_path_rec "union") sa_path_rec_opa)%list.

Definition p_off (f : string) : nat := fst (member_at f path_members).
Definition p_size (f : string) : nat := snd (member_at f path_members).

(** The bytes before [rec_type]. *)
Definition PATH_BYTES : nat := offsetof sa_path_rec "rec_type".

(** ** The tables *)

Definition IB_MGMT_SA_DATA : nat := 200.

Definition PATH_REC_FIELD (field : string) (words bits size : nat) : ib_field :=
  mk_field (p_off field) (p_size field) words bits size ("sa_path_rec:" ++ field).

Definition path_rec_table : list ib_field :=
  [PATH_REC_FIELD "service_id" 0 0 64;
   PATH_REC_FIELD "dgid" 2 0 128;
   PATH_REC_FIELD "sgid" 6 0 128;
   PATH_REC_FIELD "ib.dlid" 10 0 16;
   PATH_REC_FIELD "ib.slid" 10 16 16;
   PATH_REC_FIELD "ib.raw_traffic" 11 0 1;
   RESERVED 11 1 3;
   PATH_REC_FIELD "flow_label" 11 4 20;
   PATH_REC_FIELD "hop_limit" 11 24 8;
   PATH_REC_FIELD "traffic_class" 12 0 8;
   PATH_REC_FIELD "reversible" 12 8 1;
   PATH_REC_FIELD "numb_path" 12 9 7;
   PATH_REC_FIELD "pkey" 12 16 16;
   PATH_REC_FIELD "qos_class" 13 0 12;
   PATH_REC_FIELD "sl" 13 12 4;
   PATH_REC_FIELD "mtu_selector" 13 16 2;
   PATH_REC_FIELD "mtu" 13 18 6;
   PATH_REC_FIELD "rate_selector" 13 24 2;
   PATH_REC_FIELD "rate" 13 26 6;
   PATH_REC_FIELD "packet_life_time_selector" 14 0 2;
   PATH_REC_FIELD "packet_life_time" 14 2 6;
   PATH_REC_FIELD "preference" 14 8 8;
   RESERVED 14 16 48].

Definition opa_path_rec_table : list ib_field :=
  [PATH_REC_FIELD "service_id" 0 0 64;
   PATH_REC_FIELD "dgid" 2 0 128;
   PATH_REC_FIELD "sgid" 6 0 128;
   PATH_REC_FIELD "opa.dlid" 10 0 32;
   PATH_REC_FIELD "opa.slid" 11 0 32;
   PATH_REC_FIELD "opa.raw_traffic" 12 0 1;
   RESERVED 12 1 3;
   PATH_REC_FIELD "flow_label" 12 4 20;
   PATH_REC_FIELD "hop_limit" 12 24 8;
   PATH_REC_FIELD "traffic_class" 13 0 8;
   PATH_REC_FIELD "reversible" 13 8 1;
   PATH_REC_FIELD "numb_path" 13 9 7;
   PATH_REC_FIELD "pkey" 13 16 16;
   PATH_REC_FIELD "opa.l2_8B" 14 0 1;
   PATH_REC_FIELD "opa.l2_10B" 14 1 1;
   PATH_REC_FIELD "opa.l2_9B" 14 2 1;
   PATH_REC_FIELD "opa.l2_16B" 14 3 1;
   RESERVED 14 4 2;
   PATH_REC_FIELD "opa.qos_type" 14 6 2;
   PATH_REC_FIELD "opa.qos_priority" 14 8 8;
   RESERVED 14 16 3;
   PATH_REC_FIELD "sl" 14 19 5;
   RESERVED 14 24 8;
   PATH_REC_FIELD "mtu_selector" 15 0 2;
   PATH_REC_FIELD "mtu" 15 2 6;
   PATH_REC_FIELD "rate_selector" 15 8 2;
   PATH_REC_FIELD "rate" 15 10 6;
   PATH_REC_FIELD "packet_life_time_selector" 15 16 2;
   PATH_REC_FIELD "packet_life_time" 15 18 6;
   PATH_REC_FIELD "preference" 15 24 8].

Definition mcmember_rec_table : list ib_field :=
  [STRUCT_FIELD ib_sa_mcmember_rec "mgid" 0 0 128;
   STRUCT_FIELD ib_sa_mcmember_rec "port_gid" 4 0 128;
   STRUCT_FIELD ib_sa_mcmember_rec "qkey" 8 0 32;
   STRUCT_FIELD ib_sa_mcmember_rec "mlid" 9 0 16;
   STRUCT_FIELD ib_sa_mcmember_rec "mtu_selector" 9 16 2;
   STRUCT_FIELD ib_sa_mcmember_rec "mtu" 9 18 6;
   STRUCT_FIELD ib_sa_mcmember_rec "traffic_class" 9 24 8;
   STRUCT_FIELD ib_sa_mcmember_rec "pkey" 10 0 16;
   STRUCT_FIELD ib_sa_mcmember_rec "rate_selector" 10 16 2;
   STRUCT_FIELD ib_sa_mcmember_rec "rate" 10 18 6;
   STRUCT_FIELD ib_sa_mcmember_rec "packet_life_time_selector" 10 24 2;
   STRUCT_FIELD ib_sa_mcmember_rec "packet_life_time" 10 26 6;
   STRUCT_FIELD ib_sa_mcmember_rec "sl" 11 0 4;
   STRUCT_FIELD ib_sa_mcmember_rec "flow_label" 11 4 20;
   STRUCT_FIELD ib_sa_mcmember_rec "hop_limit" 11 24 8;
   STRUCT_FIELD ib_sa_mcmember_rec "scope" 12 0 4;
   STRUCT_FIELD ib_sa_mcmember_rec "join_state" 12 4 4;
   STRUCT_FIELD ib_sa_mcmember_rec "proxy_join" 12 8 1;
   RESERVED 12 9 23].

Definition ib_classport_info_rec_table : list ib_field :=
  [STRUCT_FIELD ib_class_port_info "base_version" 0 0 8;
   STRUCT_FIELD ib_class_port_info "class_version" 0 8 8;
   STRUCT_FIELD ib_class_port_info "capability_mask" 0 16 16;
   STRUCT_FIELD ib_class_port_info "cap_mask2_resp_time" 1 0 32;
   STRUCT_FIELD ib_class_port_info "redirect_gid" 2 0 128;
   STRUCT_FIELD ib_class_port_info "redirect_tcslfl" 6 0 32;
   STRUCT_FIELD ib_class_port_info "redirect_lid" 7 0 16;
   STRUCT_FIELD ib_class_port_info "redirect_pkey" 7 16 16;
   STRUCT_FIELD ib_class_port_info "redirect_qp" 8 0 32;
   STRUCT_FIELD ib_class_port_info "redirect_qkey" 9 0 32;
   STRUCT_FIELD ib_class_port_info "trap_gid" 10 0 128;
   STRUCT_FIELD ib_class_port_info "trap_tcslfl" 14 0 32;
   STRUCT_FIELD ib_class_port_info "trap_lid" 15 0 16;
   STRUCT_FIELD ib_class_port_info "trap_pkey" 15 16 16;
   STRUCT_FIELD ib_class_port_info "trap_hlqp" 16 0 32;
   STRUCT_FIELD ib_class_port_info "trap_qkey" 17 0 32].

Definition opa_classport_info_rec_table : list ib_field :=
  [STRUCT_FIELD opa_class_port_info "base_version" 0 0 8;
   STRUCT_FIELD opa_class_port_info "class_version" 0 8 8;
   STRUCT_FIELD opa_class_port_info "cap_mask" 0 16 16;
   STRUCT_FIELD opa_class_port_info "cap_mask2_resp_time" 1 0 32;
   STRUCT_FIELD opa_class_port_info "redirect_gid" 2 0 128;
   STRUCT_FIELD opa_class_port_info "redirect_tc_fl" 6 0 32;
   STRUCT_FIELD opa_class_port_info "redirect_lid" 7 0 32;
   STRUCT_FIELD opa_class_port_info "redirect_sl_qp" 8 0 32;
   STRUCT_FIELD opa_class_port_info "redirect_qkey" 9 0 32;
   STRUCT_FIELD opa_class_port_info "trap_gid" 10 0 128;
   STRUCT_FIELD opa_class_port_info "trap_tc_fl" 14 0 32;
   STRUCT_FIELD opa_class_port_info "trap_lid" 15 0 32;
   STRUCT_FIELD opa_class_port_info "trap_hl_qp" 16 0 32;
   STRUCT_FIELD opa_class_port_info "trap_qkey" 17 0 32;
   STRUCT_FIELD opa_class_port_info "trap_pkey" 18 0 16;
   STRUCT_FIELD opa_class_port_info "redirect_pkey" 18 16 16;
   STRUCT_FIELD opa_class_port_info "trap_sl_rsvd" 19 0 8;
   RESERVED 19 8 24].

Definition guidinfo_rec_table : list ib_field :=
  [STRUCT_FIELD ib_sa_guidinfo_rec "lid" 0 0 16;
   STRUCT_FIELD ib_sa_guidinfo_rec "block_num" 0 16 8;
   STRUCT_FIELD ib_sa_guidinfo_rec "res1" 0 24 8;
   STRUCT_FIELD ib_sa_guidinfo_rec "res2" 1 0 32;
   STRUCT_FIELD ib_sa_guidinfo_rec "guid_info_list" 2 0 512].

#[export] Instance ib_field_eq_dec : EqDecision ib_field.
Proof. solve_decision. Defined.

(** ** Path records *)

Record path := {
  pr_mem : list Z;
  rec_type : sa_path_rec_type;
  pr_flags : Z
}.

(** Reading and writing a big-endian member; the shorter of the two integers decides what an
    assignment keeps. *)
Definition get (f : string) (m : list Z) : option Z := be_combine <$> mem_read (p_off f) (p_size f) m.
Definition put (f : string) (v : Z) (m : list Z) : option (list Z) := mem_write (p_off f) (be_split (p_size f) v) m.

Definition IB_MULTICAST_LID_BASE : Z := 0xC000.
Definition OPA_SPECIAL_OUI : Z := 0x00066A.

Definition OPA_MAKE_ID (x : Z) : Z := Z.lor (Z.shiftl OPA_SPECIAL_OUI 40) x.

(** On the interface identifier of a GID. *)
Definition ib_is_opa_gid (interface_id : Z) : bool := Z.shiftr interface_id 40 =? OPA_SPECIAL_OUI.
Definition opa_get_lid_from_gid (interface_id : Z) : Z := Z.land interface_id 0xFFFFFFFF.

Definition opa_is_extended_lid (dlid slid : Z) : bool := (IB_MULTICAST_LID_BASE <=? dlid) || (IB_MULTICAST_LID_BASE <=? slid).

(** [ib] is written, [opa] read; the prefix of [dgid] is written twice. *)
Definition path_conv_opa_to_ib (ib opa : list Z) : option (list Z) :=
  dlid ← get "opa.dlid" opa;
  slid ← get "opa.slid" opa;
  ib ← (if (IB_MULTICAST_LID_BASE <=? dlid) || (IB_MULTICAST_LID_BASE <=? slid) then
          ib ← put "dgid.interface_id" (OPA_MAKE_ID dlid) ib;
          prefix ← get "dgid.subnet_prefix" opa;
          ib ← put "dgid.subnet_prefix" prefix ib;
          ib ← put "sgid.interface_id" (OPA_MAKE_ID slid) ib;
          ib ← put "dgid.subnet_prefix" prefix ib;
          ib ← put "ib.dlid" 0 ib;
          put "ib.slid" 0 ib
        else
          ib ← put "ib.dlid" dlid ib;
          put "ib.slid" slid ib);
  service_id ← get "service_id" opa;
  ib ← put "service_id" service_id ib;
  raw_traffic ← get "opa.raw_traffic" opa;
  put "ib.raw_traffic" raw_traffic ib.

Definition path_conv_ib_to_opa (opa ib : list Z) : option (list Z) :=
  sgid ← get "sgid.interface_id" ib;
  dgid ← get "dgid.interface_id" ib;
  slid16 ← get "ib.slid" ib;
  dlid16 ← get "ib.dlid" ib;
  let ext := ib_is_opa_gid sgid || ib_is_opa_gid dgid in
  let slid := if ext then opa_get_lid_from_gid sgid else slid16 in
  let dlid := if ext then opa_get_lid_from_gid dgid else dlid16 in
  opa ← put "opa.slid" slid opa;
  opa ← put "opa.dlid" dlid opa;
  service_id ← get "service_id" ib;
  opa ← put "service_id" service_id opa;
  raw_traffic ← get "ib.raw_traffic" ib;
  put "opa.raw_traffic" raw_traffic opa.

(** A record of another type leaves the destination as it is. *)
Definition sa_convert_path_opa_to_ib (dest src : path) : option path :=
  if decide (rec_type src = SA_PATH_REC_TYPE_OPA) then
    m ← path_conv_opa_to_ib (pr_mem src) (pr_mem src);
    Some {| pr_mem := m; rec_type := SA_PATH_REC_TYPE_IB; pr_flags := pr_flags src |}
  else Some dest.

Definition sa_convert_path_ib_to_opa (dest src : path) : option path :=
  if decide (rec_type src = SA_PATH_REC_TYPE_IB) then
    m ← path_conv_ib_to_opa (pr_mem src) (pr_mem src);
    Some {| pr_mem := m; rec_type := SA_PATH_REC_TYPE_OPA; pr_flags := pr_flags src |}
  else Some dest.

Definition with_mem (m : list Z) (r : path) : path := {| pr_mem := m; rec_type := rec_type r; pr_flags := pr_flags r |}.

(** *** Members that depend on the type *)

Definition sa_path_is_roce (r : path) : bool :=
  match rec_type r with SA_PATH_REC_TYPE_ROCE_V1 | SA_PATH_REC_TYPE_ROCE_V2 => true | _ => false end.
Definition sa_path_is_opa (r : path) : bool := match rec_type r with SA_PATH_REC_TYPE_OPA => true | _ => false end.

Definition set_typed (f : string) (v : Z) (r : path) : option path :=
  match rec_type r with
  | SA_PATH_REC_TYPE_IB => m ← put ("ib." ++ f) v (pr_mem r); Some (with_mem m r)
  | SA_PATH_REC_TYPE_OPA => m ← put ("opa." ++ f) v (pr_mem r); Some (with_mem m r)
  | _ => Some r
  end.
Definition get_typed (f : string) (r : path) : option Z :=
  match rec_type r with
  | SA_PATH_REC_TYPE_IB => get ("ib." ++ f) (pr_mem r)
  | SA_PATH_REC_TYPE_OPA => get ("opa." ++ f) (pr_mem r)
  | _ => Some 0
  end.

Definition sa_path_set_slid (r : path) (slid : Z) : option path := set_typed "slid" slid r.
Definition sa_path_set_dlid (r : path) (dlid : Z) : option path := set_typed "dlid" dlid r.
Definition sa_path_set_raw_traffic (r : path) (raw_traffic : Z) : option path := set_typed "raw_traffic" raw_traffic r.
Definition sa_path_get_slid (r : path) : option Z := get_typed "slid" r.
Definition sa_path_get_dlid (r : path) : option Z := get_typed "dlid" r.
Definition sa_path_get_raw_traffic (r : path) : option Z := get_typed "raw_traffic" r.

Definition sa_path_set_dmac (r : path) (dmac : list Z) : option path :=
  if sa_path_is_roce r then m ← mem_write (p_off "roce.dmac") dmac (pr_mem r); Some (with_mem m r) else Some r.
Definition sa_path_set_dmac_zero (r : path) : option path := sa_path_set_dmac r (replicate 6 0).
Definition sa_path_get_dmac (r : path) : option (list Z) :=
  if sa_path_is_roce r then mem_read (p_off "roce.dmac") (p_size "roce.dmac") (pr_mem r) else None.

(** ** Path queries *)

(** How [ib_sa_path_rec_get] asks: an InfiniBand query, an OPA query, or an InfiniBand query for
    an OPA record. *)
Inductive query_mode := Q_ib | Q_opa | Q_conv.
#[export] Instance query_mode_eq_dec : EqDecision query_mode.
Proof. solve_decision. Defined.

Definition zero_path : path := {| pr_mem := replicate PATH_BYTES 0; rec_type := SA_PATH_REC_TYPE_IB; pr_flags := 0 |}.

Definition ib_sa_pack_path (r : path) (attribute : list Z) : option (list Z) := ib_pack path_rec_table (pr_mem r) attribute.
Definition ib_sa_unpack_path (attribute : list Z) (r : path) : option path :=
  m ← ib_unpack path_rec_table attribute (pr_mem r); Some (with_mem m r).

(** The attribute a query sends: [mad->data] is zero before; [conv_pr] is the memory the
    converted record goes to. *)
Definition path_rec_request (mode : query_mode) (conv_pr r : path) : option (list Z) :=
  let data := replicate IB_MGMT_SA_DATA 0 in
  match mode with
  | Q_opa => ib_pack opa_path_rec_table (pr_mem r) data
  | Q_conv => c ← sa_convert_path_opa_to_ib conv_pr r; ib_pack path_rec_table (pr_mem c) data
  | Q_ib => ib_pack path_rec_table (pr_mem r) data
  end.

Definition with_type (t : sa_path_rec_type) (r : path) : path := {| pr_mem := pr_mem r; rec_type := t; pr_flags := pr_flags r |}.

(** The record [ib_sa_path_rec_callback] hands on. *)
Definition path_rec_response (mode : query_mode) (data : list Z) : option path :=
  match mode with
  | Q_opa =>
      m ← ib_unpack opa_path_rec_table data (pr_mem zero_path);
      Some (with_type SA_PATH_REC_TYPE_OPA (with_mem m zero_path))
  | _ =>
      m ← ib_unpack path_rec_table data (pr_mem zero_path);
      r ← sa_path_set_dmac_zero (with_type SA_PATH_REC_TYPE_IB (with_mem m zero_path));
      match mode with Q_conv => sa_convert_path_ib_to_opa zero_path r | _ => Some r end
  end.

(** ** Records on the wire *)

(** A kind of record: its table, the bytes of its structure, the bytes of its attribute. *)
Definition sa_records : list (list ib_field * (nat * nat)) :=
  [(path_rec_table, (PATH_BYTES, 64)); (opa_path_rec_table, (PATH_BYTES, 64)); (mcmember_rec_table, (sizeof ib_sa_mcmember_rec, 52));
   (ib_classport_info_rec_table, (sizeof ib_class_port_info, 72)); (opa_classport_info_rec_table, (sizeof opa_class_port_info, 80));
   (guidinfo_rec_table, (sizeof ib_sa_guidinfo_rec, 72))]%nat.

(** The fields of a table are inside the attribute and fill it. *)
Definition fills (blen : nat) (desc : list ib_field) : Prop :=
  Forall (fun f => fstart f + size_bits f <= 8 * blen)%nat desc /\ sum_list (size_bits <$> desc) = (8 * blen)%nat.

#[export] Instance fills_dec blen desc : Decision (fills blen desc).
Proof. unfold fills. apply _. Defined.

Lemma zeros_bytes n : bytes_ok (replicate n 0).
Proof. apply Forall_replicate. unfold is_byte. lia. Qed.

Lemma bit_at_zeros n k : bit_at (replicate n 0) k = false.
Proof. unfold bit_at. destruct (replicate n 0 !! _) eqn:E; [apply lookup_replicate in E as [-> _]|]; apply Z.testbit_0_l. Qed.

Lemma sa_records_wf : Forall (fun r => wf_table (r.2.2) (r.2.1) r.1 /\ fills r.2.2 r.1) sa_records.
Proof. apply (bool_decide_eq_true_1 _). vm_compute. reflexivity. Qed.

Lemma sa_records_in t slen blen : (t, (slen, blen)) ∈ sa_records -> wf_table IB_MGMT_SA_DATA slen t /\ fills blen t.
Proof.
  intros H. pose proof sa_records_wf as W. rewrite Forall_forall in W. destruct (W _ H) as [W1 W2]. split; [|done].
  eapply wf_table_mono; [|exact W1]. cbn [fst snd]. unfold IB_MGMT_SA_DATA.
  repeat (apply elem_of_cons in H as [[= -> -> ->]|H]; [lia|]). by apply elem_of_nil in H.
Qed.

(** Packing a record into the attribute of a MAD. *)
Lemma sa_pack t slen blen s : (t, (slen, blen)) ∈ sa_records -> length s = slen -> bytes_ok s ->
  exists data, ib_pack t s (replicate IB_MGMT_SA_DATA 0) = Some data /\ length data = IB_MGMT_SA_DATA /\ bytes_ok data /\
    (forall f j, f ∈ t -> (j < size_bits f)%nat -> bit_at data (fstart f + j) = field_bit f s j) /\
    drop blen data = replicate (IB_MGMT_SA_DATA - blen) 0.
Proof.
  intros Hr Hl Hb. destruct (sa_records_in _ _ _ Hr) as [Hwf [Hin _]].
  destruct (ib_pack_spec IB_MGMT_SA_DATA slen t s (replicate IB_MGMT_SA_DATA 0)) as (data & E & L & B & F & K); try done.
  { apply zeros_bytes. }
  exists data. split_and!; try done. apply bytes_bit_ext.
  - by apply Forall_drop.
  - apply zeros_bytes.
  - rewrite length_drop, length_replicate. lia.
  - intros k _. rewrite bit_at_drop, K; [by rewrite !bit_at_zeros|].
    apply (Forall_impl _ _ _ Hin). intros f Hf. lia.
Qed.

(** C25. A record a query sends is the record the other side reads, and nothing behind it is sent. *)
Theorem sa_record_roundtrip t slen blen s s0 :
  (t, (slen, blen)) ∈ sa_records -> length s = slen -> length s0 = slen -> bytes_ok s -> Forall (fits s) t ->
  exists data s1, ib_pack t s (replicate IB_MGMT_SA_DATA 0) = Some data /\ ib_unpack t data s0 = Some s1 /\
    drop blen data = replicate (IB_MGMT_SA_DATA - blen) 0 /\
    (forall f, f ∈ t -> struct_size_bytes f <> 0%nat ->
       mem_read (struct_offset_bytes f) (struct_size_bytes f) s1 = mem_read (struct_offset_bytes f) (struct_size_bytes f) s) /\
    (forall off n, Forall (fun f => struct_size_bytes f = 0 \/ off + n <= struct_offset_bytes f \/
                             struct_offset_bytes f + struct_size_bytes f <= off)%nat t ->
       mem_read off n s1 = mem_read off n s0).
Proof.
  intros Hr Hl Hl0 Hb Hf. destruct (sa_pack _ _ _ _ Hr Hl Hb) as (data & E & L & B & F & D). destruct (sa_records_in _ _ _ Hr) as [Hwf _].
  destruct (ib_unpack_spec IB_MGMT_SA_DATA slen t s data s0) as (s1 & E1 & L1 & F1 & K1); try done.
  exists data, s1. by split_and!.
Qed.

(** A member record of a multicast group: its join state and its LID among others. *)
Definition demo_member : list Z := (seqZ 0 32 ++ [0; 0; 11; 27; 0xC0; 5; 2; 4; 0; 0; 0xFF; 0xFF; 2; 3; 0; 18; 0; 0; 0; 0; 0; 0; 0; 7; 64; 2; 1; 0; 0; 0; 0; 0])%list.

Lemma sa_record_roundtrip_witness : exists data s1,
  ib_pack mcmember_rec_table demo_member (replicate IB_MGMT_SA_DATA 0) = Some data /\ ib_unpack mcmember_rec_table data (replicate 64 1) = Some s1 /\
  mem_read 57 1 s1 = Some [2] /\ mem_read 36 2 s1 = Some [0xC0; 5].
Proof.
  destruct (sa_record_roundtrip mcmember_rec_table 64 52 demo_member (replicate 64 1)) as (data & s1 & E & E1 & _ & F & _).
  - apply (bool_decide_eq_true_1 _). vm_compute. reflexivity.
  - vm_compute. reflexivity.
  - vm_compute. reflexivity.
  - apply (bool_decide_eq_true_1 _). vm_compute. reflexivity.
  - apply (bool_decide_eq_true_1 _). vm_compute. reflexivity.
  - exists data, s1. split; [done|]. split; [done|]. split.
    + apply (F (STRUCT_FIELD ib_sa_mcmember_rec "scope" 12 0 4)); [|done]. apply (bool_decide_eq_true_1 _). vm_compute. reflexivity.
    + apply (F (STRUCT_FIELD ib_sa_mcmember_rec "mlid" 9 0 16)); [|done]. apply (bool_decide_eq_true_1 _). vm_compute. reflexivity.
Defined.

(** ** Conversion of path records *)

Definition member_ok (f : string) : Prop := (p_off f + p_size f <= PATH_BYTES)%nat.
Definition apart (f g : string) : Prop := (p_off f + p_size f <= p_off g \/ p_off g + p_size g <= p_off f)%nat.
#[export] Instance member_ok_dec f : Decision (member_ok f).
Proof. unfold member_ok. apply _. Defined.
#[export] Instance apart_dec f g : Decision (apart f g).
Proof. unfold apart. apply _. Defined.

(** The bytes of a record. *)
Definition rec_mem (m : list Z) : Prop := length m = PATH_BYTES /\ bytes_ok m.

Definition p_bits (f : string) : Z := 8 * Z.of_nat (p_size f).

Lemma get_spec f m : rec_mem m -> member_ok f -> exists v, get f m = Some v /\ 0 <= v < 2 ^ p_bits f.
Proof.
  intros [L B] Hf. unfold get. destruct (mem_read_ok (p_off f) (p_size f) m) as [bs E]; [unfold member_ok in Hf; lia|]. rewrite E.
  exists (be_combine bs). split; [done|]. unfold p_bits. rewrite <- (length_mem_read _ _ _ _ E). apply be_combine_range. by eapply mem_read_bytes.
Qed.

Lemma put_spec f v m : rec_mem m -> member_ok f -> exists m', put f v m = Some m' /\ rec_mem m' /\
  (0 <= v < 2 ^ p_bits f -> get f m' = Some v) /\
  (forall off n, (off + n <= p_off f \/ p_off f + p_size f <= off)%nat -> mem_read off n m' = mem_read off n m).
Proof.
  intros [L B] Hf. unfold put. destruct (mem_write_ok (p_off f) (be_split (p_size f) v) m) as [m' E].
  { rewrite length_be_split. unfold member_ok in Hf. lia. }
  rewrite E. exists m'. split; [done|]. split; [split; [by rewrite (length_mem_write _ _ _ _ E)|eapply mem_write_bytes; [done|apply be_split_bytes|done]]|].
  split.
  - intros Hv. unfold get. pose proof (mem_read_write_eq _ _ _ _ E) as R. rewrite length_be_split in R. rewrite R. cbn. f_equal. by apply be_combine_split.
  - intros off n H. eapply mem_read_write_ne; [done|]. rewrite length_be_split. lia.
Qed.

Lemma get_put_ne f g v m m' : put f v m = Some m' -> apart f g -> get g m' = get g m.
Proof. intros E H. unfold get. erewrite mem_read_write_ne; [done|exact E|]. rewrite length_be_split. unfold apart in H. lia. Qed.

(** The members of a record that no conversion writes. *)
Definition kept (off n : nat) : Prop := (p_off "flow_label" <= off /\ off + n <= p_off "union")%nat.

Lemma kept_put f v m m' off n : put f v m = Some m' -> kept off n ->
  (p_off f + p_size f <= p_off "flow_label" \/ p_off "union" <= p_off f)%nat -> mem_read off n m' = mem_read off n m.
Proof. intros E [H1 H2] H. eapply mem_read_write_ne; [exact E|]. rewrite length_be_split. lia. Qed.

Ltac by_layout := apply (bool_decide_eq_true_1 _); vm_compute; reflexivity.

(** One assignment: the new record, its member, the members it leaves. *)
Ltac put_step :=
  lazymatch goal with
  | |- context [put ?f ?v ?m ≫= _] =>
      let m' := fresh "m" in let E := fresh "E" in let R := fresh "R" in let G := fresh "G" in
      destruct (put_spec f v m ltac:(assumption) ltac:(by_layout)) as (m' & E & R & G & _); rewrite E; cbn [mbind option_bind]
  | |- context [put ?f ?v ?m = _] =>
      let m' := fresh "m" in let E := fresh "E" in let R := fresh "R" in let G := fresh "G" in
      destruct (put_spec f v m ltac:(assumption) ltac:(by_layout)) as (m' & E & R & G & _); rewrite E
  end.

(** A member after the assignments. *)
Ltac back := repeat match goal with H : put _ _ _ = Some ?m |- get ?g ?m = _ => rewrite (get_put_ne _ g _ _ _ H) by by_layout end.
Ltac back_kept Hk := repeat match goal with H : put _ _ _ = Some ?m |- mem_read ?o ?n ?m = _ => rewrite (kept_put _ _ _ _ o n H Hk) by by_layout end.

(** The member a last assignment has written. *)
Ltac got :=
  back; first [done |
    match goal with H : _ -> get ?f ?m = Some ?v |- get ?f ?m = Some ?v => apply H end; first [assumption |
    match goal with |- _ <= _ < 2 ^ p_bits ?f => let n := eval vm_compute in (2 ^ p_bits f) in change (2 ^ p_bits f) with n; lia end]].

Lemma opa_make_id_range x : 0 <= x < 2 ^ 32 -> 0 <= OPA_MAKE_ID x < 2 ^ 64.
Proof.
  intros H. unfold OPA_MAKE_ID, OPA_SPECIAL_OUI. rewrite lor_shiftl_add by lia. cbn. lia.
Qed.

Lemma opa_make_id_gid x : 0 <= x < 2 ^ 32 -> ib_is_opa_gid (OPA_MAKE_ID x) = true /\ opa_get_lid_from_gid (OPA_MAKE_ID x) = x.
Proof.
  intros H. unfold ib_is_opa_gid, opa_get_lid_from_gid, OPA_MAKE_ID, OPA_SPECIAL_OUI. rewrite lor_shiftl_add by lia. split.
  - apply Z.eqb_eq. rewrite Z.shiftr_div_pow2, Z.div_add_l, Z.div_small by lia. done.
  - change 0xFFFFFFFF with (Z.ones 32). rewrite Z.land_ones by lia.
    replace (1642 * 2 ^ 40 + x) with (x + 1642 * 2 ^ 8 * 2 ^ 32) by lia. rewrite Z.mod_add by lia. by apply Z.mod_small.
Qed.

(** What the conversion to the InfiniBand format makes of a record. *)
Record as_ib (opa ib : list Z) (dlid slid : Z) : Prop := {
  ai_rec : rec_mem ib;
  ai_dlid : get "opa.dlid" opa = Some dlid;
  ai_slid : get "opa.slid" opa = Some slid;
  ai_gids : opa_is_extended_lid dlid slid = true ->
    get "dgid.interface_id" ib = Some (OPA_MAKE_ID dlid) /\ get "sgid.interface_id" ib = Some (OPA_MAKE_ID slid) /\
    get "ib.dlid" ib = Some 0 /\ get "ib.slid" ib = Some 0;
  ai_lids : opa_is_extended_lid dlid slid = false ->
    get "ib.dlid" ib = Some dlid /\ get "ib.slid" ib = Some slid /\
    get "dgid.interface_id" ib = get "dgid.interface_id" opa /\ get "sgid.interface_id" ib = get "sgid.interface_id" opa;
  ai_prefix : get "dgid.subnet_prefix" ib = get "dgid.subnet_prefix" opa /\ get "sgid.subnet_prefix" ib = get "sgid.subnet_prefix" opa;
  ai_service : get "service_id" ib = get "service_id" opa;
  ai_raw : get "ib.raw_traffic" ib = get "opa.raw_traffic" opa;
  ai_kept off n : kept off n -> mem_read off n ib = mem_read off n opa
}.

Lemma conv_opa_to_ib opa : rec_mem opa -> exists ib dlid slid, path_conv_opa_to_ib opa opa = Some ib /\ as_ib opa ib dlid slid.
Proof.
  intros Hm. unfold path_conv_opa_to_ib.
  destruct (get_spec "opa.dlid" opa Hm ltac:(by_layout)) as (d & Ed & Rd). destruct (get_spec "opa.slid" opa Hm ltac:(by_layout)) as (l & El & Rl).
  destruct (get_spec "service_id" opa Hm ltac:(by_layout)) as (sid & Es & Rs). destruct (get_spec "opa.raw_traffic" opa Hm ltac:(by_layout)) as (raw & Er & Rr).
  destruct (get_spec "dgid.subnet_prefix" opa Hm ltac:(by_layout)) as (pfx & Ep & Rp).
  change (2 ^ p_bits "opa.dlid") with (2 ^ 32) in Rd. change (2 ^ p_bits "opa.slid") with (2 ^ 32) in Rl.
  pose proof (opa_make_id_range d Rd) as Md. pose proof (opa_make_id_range l Rl) as Ml.
  rewrite Ed, El, Es, Er, Ep. cbn [mbind option_bind]. fold (opa_is_extended_lid d l). destruct (opa_is_extended_lid d l) eqn:EX.
  - repeat put_step. eexists _, d, l. split; [done|].
    split; rewrite ?Es, ?Er, ?Ep; try done; try (intros; congruence); [intros _; repeat split; got|split; got|got|got|intros off n Hk; by back_kept Hk].
  - assert (d < 2 ^ 16 /\ l < 2 ^ 16) as [Sd Sl].
    { unfold opa_is_extended_lid, IB_MULTICAST_LID_BASE in EX. apply orb_false_iff in EX as [?%Z.leb_gt ?%Z.leb_gt]. lia. }
    repeat put_step. eexists _, d, l. split; [done|].
    split; rewrite ?Es, ?Er, ?Ep; try done; try (intros; congruence); [intros _; repeat split; got|split; got|got|got|intros off n Hk; by back_kept Hk].
Qed.

(** What the conversion to the OPA format makes of a record. *)
Record as_opa (ib opa : list Z) (dlid slid : Z) : Prop := {
  ao_rec : rec_mem opa;
  ao_gids d s : get "dgid.interface_id" ib = Some d -> get "sgid.interface_id" ib = Some s ->
    ib_is_opa_gid s || ib_is_opa_gid d = true -> dlid = opa_get_lid_from_gid d /\ slid = opa_get_lid_from_gid s;
  ao_lids d s : get "dgid.interface_id" ib = Some d -> get "sgid.interface_id" ib = Some s ->
    ib_is_opa_gid s || ib_is_opa_gid d = false -> get "ib.dlid" ib = Some dlid /\ get "ib.slid" ib = Some slid;
  ao_dlid : get "opa.dlid" opa = Some dlid;
  ao_slid : get "opa.slid" opa = Some slid;
  ao_service : get "service_id" opa = get "service_id" ib;
  ao_raw : get "opa.raw_traffic" opa = get "ib.raw_traffic" ib;
  ao_kept off n : kept off n -> mem_read off n opa = mem_read off n ib
}.

Lemma lid_from_gid_range i : 0 <= opa_get_lid_from_gid i < 2 ^ 32.
Proof. unfold opa_get_lid_from_gid. change 0xFFFFFFFF with (Z.ones 32). rewrite Z.land_ones by lia. apply Z.mod_pos_bound. lia. Qed.

Lemma conv_ib_to_opa ib : rec_mem ib -> exists opa dlid slid, path_conv_ib_to_opa ib ib = Some opa /\ as_opa ib opa dlid slid.
Proof.
  intros Hm. unfold path_conv_ib_to_opa.
  destruct (get_spec "sgid.interface_id" ib Hm ltac:(by_layout)) as (sg & Esg & _). destruct (get_spec "dgid.interface_id" ib Hm ltac:(by_layout)) as (dg & Edg & _).
  destruct (get_spec "ib.slid" ib Hm ltac:(by_layout)) as (l & El & Rl). destruct (get_spec "ib.dlid" ib Hm ltac:(by_layout)) as (d & Ed & Rd).
  destruct (get_spec "service_id" ib Hm ltac:(by_layout)) as (sid & Es & Rs). destruct (get_spec "ib.raw_traffic" ib Hm ltac:(by_layout)) as (raw & Er & Rr).
  change (2 ^ p_bits "ib.dlid") with (2 ^ 16) in Rd. change (2 ^ p_bits "ib.slid") with (2 ^ 16) in Rl.
  rewrite Esg, Edg, Ed, El, Es, Er. cbn [mbind option_bind].
  set (s := if ib_is_opa_gid sg || ib_is_opa_gid dg then opa_get_lid_from_gid sg else l). set (t := if ib_is_opa_gid sg || ib_is_opa_gid dg then opa_get_lid_from_gid dg else d).
  assert (0 <= s < 2 ^ 32 /\ 0 <= t < 2 ^ 32) as [Hs Ht].
  { subst s t. pose proof (lid_from_gid_range sg). pose proof (lid_from_gid_range dg). destruct (_ || _); lia. }
  repeat put_step. eexists _, t, s. split; [done|].
  split; rewrite ?Esg, ?Edg, ?Ed, ?El, ?Es, ?Er; try done; [..|got|got|got|got|intros off n Hk; by back_kept Hk].
  - intros d0 s0 [= <-] [= <-] E3. subst s t. by rewrite E3.
  - intros d0 s0 [= <-] [= <-] E3. subst s t. by rewrite E3.
Qed.

(** *** A query for an OPA record on an InfiniBand subnet *)

#[export] Instance kept_dec off n : Decision (kept off n).
Proof. unfold kept. apply _. Defined.

Definition f_kept (f : ib_field) : Prop := kept (struct_offset_bytes f) (struct_size_bytes f).
#[export] Instance f_kept_dec f : Decision (f_kept f).
Proof. unfold f_kept. apply _. Defined.

(** The fields that both formats have at the same place. *)
Definition conv_fields : list ib_field := filter f_kept path_rec_table.

Definition raw_field : ib_field := PATH_REC_FIELD "ib.raw_traffic" 11 0 1.

Definition whole (f : ib_field) : Prop := (struct_offset_bytes f + struct_size_bytes f <= PATH_BYTES /\ 8 * struct_size_bytes f = size_bits f)%nat.
#[export] Instance whole_dec f : Decision (whole f).
Proof. unfold whole. apply _. Defined.

Lemma path_table_fields : Forall (fun f => struct_size_bytes f = 0%nat \/ f_kept f \/ whole f \/ f = raw_field) path_rec_table.
Proof. by_layout. Qed.

Lemma value_read_same o n a b : mem_read o n a = mem_read o n b -> value_read o n a = value_read o n b.
Proof. intros E. unfold value_read. by rewrite E. Qed.

Lemma fits_same f a b : mem_read (struct_offset_bytes f) (struct_size_bytes f) a = mem_read (struct_offset_bytes f) (struct_size_bytes f) b -> fits a f -> fits b f.
Proof. intros E. unfold fits, field_raw. case_bool_decide; [done|]. by rewrite (value_read_same _ _ _ _ E). Qed.

Lemma fits_whole f m : rec_mem m -> whole f -> fits m f.
Proof.
  intros [L B] [W1 W2]. unfold fits, field_raw. case_bool_decide as H0.
  { rewrite <- W2. rewrite H0. apply Z.pow_pos_nonneg; lia. }
  unfold value_read. destruct (mem_read_ok (struct_offset_bytes f) (struct_size_bytes f) m) as [bs E]; [lia|]. rewrite E. cbn.
  pose proof (be_combine_range bs ltac:(by eapply mem_read_bytes)) as R. rewrite (length_mem_read _ _ _ _ E) in R.
  replace (8 * Z.of_nat (struct_size_bytes f)) with (Z.of_nat (size_bits f)) in R by lia.
  assert (0 < 2 ^ Z.of_nat (size_bits f)) by (apply Z.pow_pos_nonneg; lia).
  repeat case_match; simplify_eq; lia.
Qed.

(** A record converted to the InfiniBand format fits in its attribute. *)
Lemma conv_fits opa ib dlid slid raw : as_ib opa ib dlid slid -> Forall (fits opa) conv_fields ->
  get "opa.raw_traffic" opa = Some raw -> raw < 2 -> Forall (fits ib) path_rec_table.
Proof.
  intros A Hc Hr Hraw. apply Forall_forall. intros f Hf. pose proof path_table_fields as T. rewrite Forall_forall in T.
  destruct (T f Hf) as [H|[H|[H| ->]]].
  - unfold fits, field_raw. rewrite bool_decide_eq_true_2 by done. apply Z.pow_pos_nonneg; lia.
  - eapply fits_same; [symmetry; apply (ai_kept _ _ _ _ A), H|]. rewrite Forall_forall in Hc. apply Hc. by apply list_elem_of_filter.
  - apply fits_whole; [apply (ai_rec _ _ _ _ A)|done].
  - pose proof (ai_raw _ _ _ _ A) as E. rewrite Hr in E. unfold get in E. apply fmap_Some in E as (bs & E & ->).
    unfold fits. replace (field_raw raw_field ib) with (Some (be_combine bs)); [exact Hraw|].
    unfold field_raw. rewrite bool_decide_eq_false_2 by (vm_compute; done).
    change (value_read (struct_offset_bytes raw_field) (struct_size_bytes raw_field) ib) with (be_combine <$> mem_read (p_off "ib.raw_traffic") (p_size "ib.raw_traffic") ib).
    by rewrite E.
Qed.

Lemma mem_read_sub o n o' n' a b : mem_read o n a = mem_read o n b -> length a = length b -> (o + n <= length a)%nat -> (o <= o' /\ o' + n' <= o + n)%nat ->
  mem_read o' n' a = mem_read o' n' b.
Proof.
  intros E L H Hs. unfold mem_read in *. rewrite <- L in *. rewrite !bool_decide_eq_true_2 in E |- * by lia. injection E as E. f_equal.
  replace o' with (o + (o' - o))%nat by lia. rewrite <- !drop_drop.
  apply (f_equal (fun l => take n' (drop (o' - o) l))) in E. rewrite !skipn_firstn_comm, !take_take in E. by rewrite Nat.min_l in E by lia.
Qed.

(** A record that came through the attribute of a MAD. *)
Definition same_path (a b : list Z) : Prop :=
  rec_mem b /\ forall f, f ∈ path_rec_table -> struct_size_bytes f <> 0%nat ->
    mem_read (struct_offset_bytes f) (struct_size_bytes f) b = mem_read (struct_offset_bytes f) (struct_size_bytes f) a.

(** The members that are the structure side of a field, or part of one. *)
Definition in_field (g : string) : Prop :=
  Exists (fun f => struct_size_bytes f <> 0 /\ struct_offset_bytes f + struct_size_bytes f <= PATH_BYTES /\
                   struct_offset_bytes f <= p_off g /\ p_off g + p_size g <= struct_offset_bytes f + struct_size_bytes f)%nat path_rec_table.
#[export] Instance in_field_dec g : Decision (in_field g).
Proof. unfold in_field. apply _. Defined.

Lemma same_path_get a b g : rec_mem a -> same_path a b -> in_field g -> get g b = get g a.
Proof.
  intros [La Ba] [[Lb Bb] H] Hg. apply Exists_exists in Hg as (f & Hf & Hn & H1 & H2 & H3). unfold get. f_equal.
  eapply mem_read_sub; [by apply H|congruence|lia|lia].
Qed.

Lemma value_write_bytes o n v m m' : bytes_ok m -> value_write o n v m = Some m' -> bytes_ok m'.
Proof. intros H. unfold value_write. repeat case_match; intros E; simplify_eq; try done; (eapply mem_write_bytes; [done|apply be_split_bytes|exact E]). Qed.

Lemma ib_unpack_bytes desc buf m m' : bytes_ok buf -> bytes_ok m -> ib_unpack desc buf m = Some m' -> bytes_ok m'.
Proof.
  intros Hb. revert m. induction desc as [|f desc IH]; intros m Hm; cbn [ib_unpack]; [by intros [= <-]|].
  intros (m1 & E1 & E2)%bind_Some. eapply IH; [|exact E2]. revert E1. unfold unpack_field. case_bool_decide; [by intros [= <-]|].
  case_bool_decide; [|case_bool_decide]; [case_match; [done|]..|]; intros (w & Ew & Ev)%bind_Some.
  - by eapply value_write_bytes.
  - by eapply value_write_bytes.
  - eapply mem_write_bytes; [done| |exact Ev]. exact (mem_read_bytes _ _ _ _ Hb Ew).
Qed.

(** The attribute of a record in the InfiniBand format, and what is read from it. *)
Lemma path_through_mad ib : rec_mem ib -> Forall (fits ib) path_rec_table ->
  exists data m, ib_pack path_rec_table ib (replicate IB_MGMT_SA_DATA 0) = Some data /\
    ib_unpack path_rec_table data (pr_mem zero_path) = Some m /\ same_path ib m.
Proof.
  intros [L B] Hf. assert ((path_rec_table, (PATH_BYTES, 64%nat)) ∈ sa_records) as Hr by (left).
  destruct (sa_pack _ _ _ _ Hr L B) as (data & E & Ld & Bd & F & D). destruct (sa_records_in _ _ _ Hr) as [Hwf _].
  destruct (ib_unpack_spec IB_MGMT_SA_DATA PATH_BYTES path_rec_table ib data (pr_mem zero_path)) as (m & E1 & L1 & F1 & K1); try done.
  exists data, m. split; [done|]. split; [done|]. split; [|done]. split; [done|]. eapply ib_unpack_bytes; [exact Bd| |exact E1]. apply zeros_bytes.
Qed.

Lemma dmac_zero_ib r : rec_type r = SA_PATH_REC_TYPE_IB -> sa_path_set_dmac_zero r = Some r.
Proof. intros E. unfold sa_path_set_dmac_zero, sa_path_set_dmac, sa_path_is_roce. by rewrite E. Qed.

(** The LIDs of a path that was asked for in the InfiniBand format: those of the path, unless they
    are small and one of its GIDs has the OUI of OPA; then they are read from the GIDs. *)
Definition lids_back (dlid slid dgid sgid : Z) : Z * Z :=
  if negb (opa_is_extended_lid dlid slid) && (ib_is_opa_gid sgid || ib_is_opa_gid dgid)
  then (opa_get_lid_from_gid dgid, opa_get_lid_from_gid sgid) else (dlid, slid).

(** C24. An OPA path whose values fit their fields, asked for in the InfiniBand format and answered in
    it, comes back with its service identifier and all the fields the formats share, and with its
    LIDs, large or small, unless the LIDs are small and one of its GIDs has the OUI of OPA: then both
    LIDs are read from the GIDs, whatever they were ([lids_back]). *)
Theorem opa_path_through_ib_query r conv_pr dlid slid raw dgid sgid :
  rec_type r = SA_PATH_REC_TYPE_OPA -> rec_mem (pr_mem r) -> Forall (fits (pr_mem r)) conv_fields ->
  get "opa.dlid" (pr_mem r) = Some dlid -> get "opa.slid" (pr_mem r) = Some slid ->
  get "opa.raw_traffic" (pr_mem r) = Some raw -> raw < 2 ->
  get "dgid.interface_id" (pr_mem r) = Some dgid -> get "sgid.interface_id" (pr_mem r) = Some sgid ->
  exists data resp, path_rec_request Q_conv conv_pr r = Some data /\ path_rec_response Q_conv data = Some resp /\
    rec_type resp = SA_PATH_REC_TYPE_OPA /\
    get "opa.dlid" (pr_mem resp) = Some (lids_back dlid slid dgid sgid).1 /\
    get "opa.slid" (pr_mem resp) = Some (lids_back dlid slid dgid sgid).2 /\
    get "opa.raw_traffic" (pr_mem resp) = Some raw /\ get "service_id" (pr_mem resp) = get "service_id" (pr_mem r) /\
    forall f, f ∈ conv_fields -> struct_size_bytes f <> 0%nat ->
      mem_read (struct_offset_bytes f) (struct_size_bytes f) (pr_mem resp) = mem_read (struct_offset_bytes f) (struct_size_bytes f) (pr_mem r).
Proof.
  intros Ht Hm Hc Hd Hs Hr Hraw Hgd Hgs. set (opa := pr_mem r) in *.
  destruct (conv_opa_to_ib opa Hm) as (ib & d & l & Ec & A). rewrite (ai_dlid _ _ _ _ A) in Hd. rewrite (ai_slid _ _ _ _ A) in Hs. simplify_eq.
  destruct (path_through_mad ib) as (data & m & Ep & Eu & S); [apply A|by eapply conv_fits|].
  destruct (conv_ib_to_opa m) as (m' & d' & l' & Ec' & O); [apply S|].
  assert (forall g, in_field g -> get g m = get g ib) as Hget by (intros; by apply same_path_get; [apply A|..]).
  exists data, {| pr_mem := m'; rec_type := SA_PATH_REC_TYPE_OPA; pr_flags := 0 |}.
  unfold path_rec_request, path_rec_response, sa_convert_path_opa_to_ib, sa_convert_path_ib_to_opa. rewrite decide_True by done.
  fold opa. rewrite Ec. cbn [mbind option_bind pr_mem]. rewrite Ep, Eu. cbn [mbind option_bind].
  rewrite dmac_zero_ib by done. cbn [mbind option_bind rec_type with_type with_mem pr_mem]. rewrite decide_True, Ec' by done. cbn [mbind option_bind].
  split; [done|]. split; [done|]. split; [done|]. cbn [pr_mem].
  assert (lids_back dlid slid dgid sgid = (d', l')) as ->.
  { destruct (get_spec "dgid.interface_id" m ltac:(apply S) ltac:(by_layout)) as (gd & Egd & _).
    destruct (get_spec "sgid.interface_id" m ltac:(apply S) ltac:(by_layout)) as (gs & Egs & _).
    pose proof Egd as Egd'. pose proof Egs as Egs'. rewrite Hget in Egd', Egs' by by_layout.
    unfold lids_back. destruct (opa_is_extended_lid dlid slid) eqn:EX; cbn [negb andb].
    - destruct (ai_gids _ _ _ _ A EX) as (G1 & G2 & _). rewrite G1 in Egd'. rewrite G2 in Egs'. injection Egd' as <-. injection Egs' as <-.
      destruct (get_spec "opa.dlid" opa Hm ltac:(by_layout)) as (x & Ex & Rx). rewrite (ai_dlid _ _ _ _ A) in Ex. injection Ex as <-.
      destruct (get_spec "opa.slid" opa Hm ltac:(by_layout)) as (y & Ey & Ry). rewrite (ai_slid _ _ _ _ A) in Ey. injection Ey as <-.
      destruct (opa_make_id_gid _ Rx) as [I1 L1]. destruct (opa_make_id_gid _ Ry) as [I2 L2].
      destruct (ao_gids _ _ _ _ O _ _ Egd Egs) as [-> ->]; [by rewrite I2|by rewrite L1, L2].
    - destruct (ai_lids _ _ _ _ A EX) as (G1 & G2 & G3 & G4). rewrite G3, Hgd in Egd'. rewrite G4, Hgs in Egs'. simplify_eq.
      destruct (ib_is_opa_gid gs || ib_is_opa_gid gd) eqn:EO; [by destruct (ao_gids _ _ _ _ O _ _ Egd Egs EO) as [-> ->]|].
      destruct (ao_lids _ _ _ _ O _ _ Egd Egs EO) as [F1 F2]. rewrite Hget in F1, F2 by by_layout. f_equal; congruence. }
  split; [apply O|]. split; [apply O|]. split; [|split].
  - rewrite (ao_raw _ _ _ _ O), Hget by by_layout. by rewrite (ai_raw _ _ _ _ A).
  - rewrite (ao_service _ _ _ _ O), Hget by by_layout. apply A.
  - intros f [Hk Hf]%list_elem_of_filter Hn. rewrite (ao_kept _ _ _ _ O) by done. destruct S as [_ S]. rewrite S by done. by apply A.
Qed.

(** A path to the LID 0x12345, from the LID 7. *)
Definition demo_opa : path :=
  {| pr_mem := (replicate 32 1 ++ [0; 0; 0; 0; 0; 0; 0; 9] ++ [0; 0; 0; 5] ++ [64; 0; 1; 1] ++ [0xFF; 0xFF] ++ [0; 3] ++ [2; 1; 4; 1; 3; 1; 18; 0] ++
                [0; 1; 0x23; 0x45; 0; 0; 0; 7; 1; 0; 0; 0; 0; 0; 0; 0])%list;
     rec_type := SA_PATH_REC_TYPE_OPA; pr_flags := 0 |}.

Lemma opa_path_through_ib_query_witness : exists data resp,
  path_rec_request Q_conv zero_path demo_opa = Some data /\ path_rec_response Q_conv data = Some resp /\
  get "opa.dlid" (pr_mem resp) = Some 0x12345 /\ get "opa.slid" (pr_mem resp) = Some 7.
Proof.
  destruct (opa_path_through_ib_query demo_opa zero_path 0x12345 7 1 0x0101010101010101 0x0101010101010101) as (data & resp & E1 & E2 & _ & E3 & E4 & _).
  - reflexivity.
  - split; by_layout.
  - by_layout.
  - vm_compute. reflexivity.
  - vm_compute. reflexivity.
  - vm_compute. reflexivity.
  - lia.
  - vm_compute. reflexivity.
  - vm_compute. reflexivity.
  - exists data, resp. auto.
Defined.

(** A small LID is lost when only the source GID has the OUI. *)
Lemma small_lid_lost : lids_back 5 7 0x0101010101010101 (OPA_MAKE_ID 7) = (0x01010101, 7).
Proof. vm_compute. reflexivity. Qed.

(** The prefix of the source GID is not converted: a destination that is no copy keeps its own. *)
Lemma sgid_prefix_not_converted : exists ib, path_conv_opa_to_ib (pr_mem zero_path) (pr_mem demo_opa) = Some ib /\
  get "dgid.subnet_prefix" ib = get "dgid.subnet_prefix" (pr_mem demo_opa) /\
  get "sgid.subnet_prefix" ib = Some 0 /\ get "sgid.subnet_prefix" (pr_mem demo_opa) = Some 0x0101010101010101.
Proof. eexists. split; [vm_compute; reflexivity|]. split; vm_compute; auto. Qed.

(** ** Members that depend on the type *)

(** Setting a LID, then asking for it. *)
Lemma sa_path_lid_roundtrip r lid r' : rec_mem (pr_mem r) -> 0 <= lid < (if sa_path_is_opa r then 2 ^ 32 else 2 ^ 16) -> sa_path_is_roce r = false ->
  (sa_path_set_dlid r lid = Some r' -> sa_path_get_dlid r' = Some lid /\ sa_path_get_slid r' = sa_path_get_slid r) /\
  (sa_path_set_slid r lid = Some r' -> sa_path_get_slid r' = Some lid /\ sa_path_get_dlid r' = sa_path_get_dlid r).
Proof.
  intros Hm Hl Hr. unfold sa_path_set_dlid, sa_path_set_slid, sa_path_get_dlid, sa_path_get_slid, set_typed, get_typed, sa_path_is_opa, sa_path_is_roce in *.
  destruct (rec_type r) eqn:E; try done; split; intros (m & Ep & [= <-])%bind_Some; cbn [with_mem pr_mem rec_type]; rewrite E; cbn [String.append] in *.
  all: match type of Ep with put ?f _ _ = _ => destruct (put_spec f lid (pr_mem r) Hm ltac:(by_layout)) as (m' & Ep' & _ & G & _) end.
  all: rewrite Ep in Ep'; injection Ep' as <-; split; [apply G; exact Hl|].
  all: eapply get_put_ne; [exact Ep|by_layout].
Qed.

(** A MAC address is the record's only on RoCE paths. *)
Lemma sa_path_dmac_roundtrip r dmac r' : rec_mem (pr_mem r) -> length dmac = 6%nat -> sa_path_set_dmac r dmac = Some r' ->
  sa_path_get_dmac r' = if sa_path_is_roce r then Some dmac else None.
Proof.
  intros Hm Hl. unfold sa_path_set_dmac, sa_path_get_dmac. destruct (sa_path_is_roce r) eqn:E; [|intros [= <-]; by rewrite E].
  intros (m & Ew & [= <-])%bind_Some. assert (sa_path_is_roce (with_mem m r) = true) as -> by exact E. cbn [with_mem pr_mem].
  change (p_size "roce.dmac") with 6%nat. rewrite <- Hl. by eapply mem_read_write_eq.
Qed.
