(* ===== verification/SaQuery.v ===== *)
(** * Queries of subnet administration

    core/sa_query.c sends queries to the subnet administrator. A query is one memory object: a
    start function makes it, gives it an identifier and hands it to a local service over netlink,
    which has a time to answer, or to the MAD layer; whoever has it last reports to the client and
    frees it. The model has the objects, the list of requests of the local service with its timer,
    the sends the MAD layer has, and the threads that are between two critical sections as tasks;
    every step is one section. The address handle of the subnet manager, the class port
    information and the clients are reference-counted or cached state the steps share.

    The MAD layer is used as mad.c behaves (MadRuns.v): a send with a timeout is reported once, as
    a success only after its response. Jiffies are numbers that do not wrap (64 bits). *)

From Stdlib Require Import ZArith Lia.
From stdpp Require Import base tactics numbers list option gmap strings.
From S2P Require Import Prelude Packer UdHeader SaRec Outcome.

Local Open Scope Z_scope.

(** ** Data *)

Definition EINTR : Z := 4.
Definition EAGAIN : Z := 11.
Definition EOPNOTSUPP : Z := 95.

Definition IB_SA_LOCAL_SVC_TIMEOUT_MIN : Z := 100.
Definition IB_SA_LOCAL_SVC_TIMEOUT_MAX : Z := 200000.
Definition IB_SA_CPI_MAX_RETRY_CNT : Z := 3.
Definition IB_SA_WELL_KNOWN_GUID : Z := 0x0002C9000000000A.

Definition LS_NLA_TYPE_PATH_RECORD : Z := 1.
Definition LS_RESOLVE_PATH_USE_ALL : Z := 0.
Definition LS_RESOLVE_PATH_USE_UNIDIRECTIONAL : Z := 1.
Definition IB_PATH_GMP : Z := 1.
Definition IB_PATH_PRIMARY : Z := 2.
Definition IB_PATH_OUTBOUND : Z := 8.
Definition IB_PATH_INBOUND_REVERSE : Z := 32.
Definition IB_PATH_BIDIRECTIONAL : Z := Z.lor IB_PATH_OUTBOUND IB_PATH_INBOUND_REVERSE.
Definition RDMA_PRIMARY_PATH_MAX_REC_NUM : nat := 3.

Inductive wc_status := IB_WC_SUCCESS | IB_WC_WR_FLUSH_ERR | IB_WC_RESP_TIMEOUT_ERR | IB_WC_GENERAL_ERR | IB_WC_OTHER_ERR.
#[export] Instance wc_status_eq_dec : EqDecision wc_status.
Proof. solve_decision. Defined.

(** The queries of the file; [K_classport] with the flag [IB_SA_QUERY_OPA]. *)
Inductive kind := K_path (mode : query_mode) | K_mcmember | K_guidinfo | K_classport (opa : bool).

Definition query_opa (k : kind) : bool := match k with K_path Q_opa => true | K_classport b => b | _ => false end.

(** What a client is told. *)
Inductive answer := A_none | A_paths (l : list path) | A_struct (m : list Z).
Record call := {
  c_status : Z;
  c_answer : answer
}.

(** [q_local] and [q_cancel] are the flags [IB_SA_ENABLE_LOCAL_SERVICE] and [IB_SA_CANCEL];
    [q_id] is there while the identifier is allocated, [q_sm_ah] while the query has the handle;
    [q_rec] is the record [context[1]] points to; [q_data] the attribute of the MAD; [q_calls]
    what was reported. *)
Record ib_sa_query := {
  q_kind : kind;
  q_port : Z;
  q_client : option Z;
  q_callback : bool;
  q_local : bool;
  q_cancel : bool;
  q_id : option Z;
  q_seq : Z;
  q_timeout : Z;
  q_sm_ah : option positive;
  q_path_use : Z;
  q_mask : Z;
  q_rec : list Z;
  q_data : list Z;
  q_retries : Z;
  q_timeout_ms : Z;
  q_tid : Z;
  q_calls : list call
}.

Definition set_client v x := {| q_kind := q_kind x; q_port := q_port x; q_client := v; q_callback := q_callback x; q_local := q_local x; q_cancel := q_cancel x; q_id := q_id x; q_seq := q_seq x; q_timeout := q_timeout x; q_sm_ah := q_sm_ah x; q_path_use := q_path_use x; q_mask := q_mask x; q_rec := q_rec x; q_data := q_data x; q_retries := q_retries x; q_timeout_ms := q_timeout_ms x; q_tid := q_tid x; q_calls := q_calls x |}.
Definition set_local v x := {| q_kind := q_kind x; q_port := q_port x; q_client := q_client x; q_callback := q_callback x; q_local := v; q_cancel := q_cancel x; q_id := q_id x; q_seq := q_seq x; q_timeout := q_timeout x; q_sm_ah := q_sm_ah x; q_path_use := q_path_use x; q_mask := q_mask x; q_rec := q_rec x; q_data := q_data x; q_retries := q_retries x; q_timeout_ms := q_timeout_ms x; q_tid := q_tid x; q_calls := q_calls x |}.
Definition set_cancel v x := {| q_kind := q_kind x; q_port := q_port x; q_client := q_client x; q_callback := q_callback x; q_local := q_local x; q_cancel := v; q_id := q_id x; q_seq := q_seq x; q_timeout := q_timeout x; q_sm_ah := q_sm_ah x; q_path_use := q_path_use x; q_mask := q_mask x; q_rec := q_rec x; q_data := q_data x; q_retries := q_retries x; q_timeout_ms := q_timeout_ms x; q_tid := q_tid x; q_calls := q_calls x |}.
Definition set_id v x := {| q_kind := q_kind x; q_port := q_port x; q_client := q_client x; q_callback := q_callback x; q_local := q_local x; q_cancel := q_cancel x; q_id := v; q_seq := q_seq x; q_timeout := q_timeout x; q_sm_ah := q_sm_ah x; q_path_use := q_path_use x; q_mask := q_mask x; q_rec := q_rec x; q_data := q_data x; q_retries := q_retries x; q_timeout_ms := q_timeout_ms x; q_tid := q_tid x; q_calls := q_calls x |}.
Definition set_seq v x := {| q_kind := q_kind x; q_port := q_port x; q_client := q_client x; q_callback := q_callback x; q_local := q_local x; q_cancel := q_cancel x; q_id := q_id x; q_seq := v; q_timeout := q_timeout x; q_sm_ah := q_sm_ah x; q_path_use := q_path_use x; q_mask := q_mask x; q_rec := q_rec x; q_data := q_data x; q_retries := q_retries x; q_timeout_ms := q_timeout_ms x; q_tid := q_tid x; q_calls := q_calls x |}.
Definition set_timeout v x := {| q_kind := q_kind x; q_port := q_port x; q_client := q_client x; q_callback := q_callback x; q_local := q_local x; q_cancel := q_cancel x; q_id := q_id x; q_seq := q_seq x; q_timeout := v; q_sm_ah := q_sm_ah x; q_path_use := q_path_use x; q_mask := q_mask x; q_rec := q_rec x; q_data := q_data x; q_retries := q_retries x; q_timeout_ms := q_timeout_ms x; q_tid := q_tid x; q_calls := q_calls x |}.
Definition set_sm_ah v x := {| q_kind := q_kind x; q_port := q_port x; q_client := q_client x; q_callback := q_callback x; q_local := q_local x; q_cancel := q_cancel x; q_id := q_id x; q_seq := q_seq x; q_timeout := q_timeout x; q_sm_ah := v; q_path_use := q_path_use x; q_mask := q_mask x; q_rec := q_rec x; q_data := q_data x; q_retries := q_retries x; q_timeout_ms := q_timeout_ms x; q_tid := q_tid x; q_calls := q_calls x |}.
Definition set_path_use v x := {| q_kind := q_kind x; q_port := q_port x; q_client := q_client x; q_callback := q_callback x; q_local := q_local x; q_cancel := q_cancel x; q_id := q_id x; q_seq := q_seq x; q_timeout := q_timeout x; q_sm_ah := q_sm_ah x; q_path_use := v; q_mask := q_mask x; q_rec := q_rec x; q_data := q_data x; q_retries := q_retries x; q_timeout_ms := q_timeout_ms x; q_tid := q_tid x; q_calls := q_calls x |}.
Definition set_rec v x := {| q_kind := q_kind x; q_port := q_port x; q_client := q_client x; q_callback := q_callback x; q_local := q_local x; q_cancel := q_cancel x; q_id := q_id x; q_seq := q_seq x; q_timeout := q_timeout x; q_sm_ah := q_sm_ah x; q_path_use := q_path_use x; q_mask := q_mask x; q_rec := v; q_data := q_data x; q_retries := q_retries x; q_timeout_ms := q_timeout_ms x; q_tid := q_tid x; q_calls := q_calls x |}.
Definition set_data v x := {| q_kind := q_kind x; q_port := q_port x; q_client := q_client x; q_callback := q_callback x; q_local := q_local x; q_cancel := q_cancel x; q_id := q_id x; q_seq := q_seq x; q_timeout := q_timeout x; q_sm_ah := q_sm_ah x; q_path_use := q_path_use x; q_mask := q_mask x; q_rec := q_rec x; q_data := v; q_retries := q_retries x; q_timeout_ms := q_timeout_ms x; q_tid := q_tid x; q_calls := q_calls x |}.
Definition set_retries v x := {| q_kind := q_kind x; q_port := q_port x; q_client := q_client x; q_callback := q_callback x; q_local := q_local x; q_cancel := q_cancel x; q_id := q_id x; q_seq := q_seq x; q_timeout := q_timeout x; q_sm_ah := q_sm_ah x; q_path_use := q_path_use x; q_mask := q_mask x; q_rec := q_rec x; q_data := q_data x; q_retries := v; q_timeout_ms := q_timeout_ms x; q_tid := q_tid x; q_calls := q_calls x |}.
Definition set_timeout_ms v x := {| q_kind := q_kind x; q_port := q_port x; q_client := q_client x; q_callback := q_callback x; q_local := q_local x; q_cancel := q_cancel x; q_id := q_id x; q_seq := q_seq x; q_timeout := q_timeout x; q_sm_ah := q_sm_ah x; q_path_use := q_path_use x; q_mask := q_mask x; q_rec := q_rec x; q_data := q_data x; q_retries := q_retries x; q_timeout_ms := v; q_tid := q_tid x; q_calls := q_calls x |}.
Definition set_tid v x := {| q_kind := q_kind x; q_port := q_port x; q_client := q_client x; q_callback := q_callback x; q_local := q_local x; q_cancel := q_cancel x; q_id := q_id x; q_seq := q_seq x; q_timeout := q_timeout x; q_sm_ah := q_sm_ah x; q_path_use := q_path_use x; q_mask := q_mask x; q_rec := q_rec x; q_data := q_data x; q_retries := q_retries x; q_timeout_ms := q_timeout_ms x; q_tid := v; q_calls := q_calls x |}.
Definition set_calls v x := {| q_kind := q_kind x; q_port := q_port x; q_client := q_client x; q_callback := q_callback x; q_local := q_local x; q_cancel := q_cancel x; q_id := q_id x; q_seq := q_seq x; q_timeout := q_timeout x; q_sm_ah := q_sm_ah x; q_path_use := q_path_use x; q_mask := q_mask x; q_rec := q_rec x; q_data := q_data x; q_retries := q_retries x; q_timeout_ms := q_timeout_ms x; q_tid := q_tid x; q_calls := v |}.

(** The address handle of the subnet manager and its attributes. *)
Record sm_attr := {
  at_opa : bool;
  at_dlid : Z;
  at_sl : Z;
  at_port : Z;
  at_make_grd : bool;
  at_grh : option (Z * Z)
}.

Record ib_sa_sm_ah := {
  ah_ref : Z;
  ah_attr : sm_attr;
  ah_pkey_index : Z;
  ah_src_path_mask : Z
}.
Definition set_ref r a := {| ah_ref := r; ah_attr := ah_attr a; ah_pkey_index := ah_pkey_index a; ah_src_path_mask := ah_src_path_mask a |}.

Record ib_sa_classport_cache := {
  cp_valid : bool;
  cp_retry_cnt : Z;
  cp_opa : bool;
  cp_data : list Z
}.

(** The work item [update_ib_cpi] of a port: not running, with its query (and whether the query
    has completed the context), after it. *)
Inductive cpi_run := CR_no | CR_ask (done : bool) | CR_end.
#[export] Instance cpi_run_eq_dec : EqDecision cpi_run.
Proof. solve_decision. Defined.

Record ib_sa_port := {
  p_sm_ah : option positive;
  p_cpi : ib_sa_classport_cache;
  p_run : cpi_run
}.
Definition set_p_ah a p := {| p_sm_ah := a; p_cpi := p_cpi p; p_run := p_run p |}.
Definition set_p_cpi c p := {| p_sm_ah := p_sm_ah p; p_cpi := c; p_run := p_run p |}.
Definition set_p_run r p := {| p_sm_ah := p_sm_ah p; p_cpi := p_cpi p; p_run := r |}.

(** An attribute of a netlink message: type and payload. *)
Definition nl_attr : Type := Z * list Z.

(** Threads between two sections. [T_alloc] to [T_post] are a start function; [T_good] and
    [T_fail] have a query that was taken off the list, [T_done] is the end of [send_handler];
    [by_timer] tells that the timer's thread runs it; [T_cancel] has a pointer, not the query. *)
Inductive task :=
| T_alloc (q : positive) (client : option Z)
| T_create (q : positive) (client : option Z)
| T_send (q : positive)
| T_nl (q : positive)
| T_post (q : positive)
| T_good (q : positive) (attrs : list nl_attr)
| T_fail (q : positive) (status : wc_status) (by_timer : bool)
| T_done (q : positive) (by_timer : bool)
| T_cancel (q : positive)
| T_event (port : Z) (reset : bool)
| T_client (client : Z).

(** The work item of the timer: not running, in its loop, in [send_handler]. *)
Inductive timer_run := TR_no | TR_loop | TR_wait (q : positive).

Inductive dev_state := D_none | D_up | D_quiet | D_flushed.
#[export] Instance dev_state_eq_dec : EqDecision dev_state.
Proof. solve_decision. Defined.

(** What is seen outside: the result of a start function, of a registration, the end of a
    query (with its reports), a query freed before it was sent. *)
Inductive note := N_ret (ret : Z) | N_done (x : ib_sa_query) | N_failed (x : ib_sa_query) | N_unregistered (client : Z).

(** [ids] is the xarray [queries]; [posted] the sends of the MAD layer and whether the response
    was handed on; [clients] the count [users] of each client; [upd_pending], [cpi_pending] the
    queued work items of the ports. *)
#[projections(primitive)] Record sa := {
  heap : gmap positive ib_sa_query;
  ids : gmap Z positive;
  nl_list : list positive;
  posted : list (positive * bool);
  tasks : list task;
  ahs : gmap positive ib_sa_sm_ah;
  ports : gmap Z ib_sa_port;
  clients : gmap Z Z;
  registered : gset Z;
  upd_pending : gset Z;
  cpi_pending : gset Z;
  tw_pending : option Z;
  tw_run : timer_run;
  jiffies : Z;
  svc_timeout_ms : Z;
  request_seq : Z;
  tid : Z;
  dev : dev_state;
  notes : list note
}.

Definition with_heap x s := {| heap := x; ids := ids s; nl_list := nl_list s; posted := posted s; tasks := tasks s; ahs := ahs s; ports := ports s; clients := clients s; registered := registered s; upd_pending := upd_pending s; cpi_pending := cpi_pending s; tw_pending := tw_pending s; tw_run := tw_run s; jiffies := jiffies s; svc_timeout_ms := svc_timeout_ms s; request_seq := request_seq s; tid := tid s; dev := dev s; notes := notes s |}.
Definition with_ids x s := {| heap := heap s; ids := x; nl_list := nl_list s; posted := posted s; tasks := tasks s; ahs := ahs s; ports := ports s; clients := clients s; registered := registered s; upd_pending := upd_pending s; cpi_pending := cpi_pending s; tw_pending := tw_pending s; tw_run := tw_run s; jiffies := jiffies s; svc_timeout_ms := svc_timeout_ms s; request_seq := request_seq s; tid := tid s; dev := dev s; notes := notes s |}.
Definition with_nl_list x s := {| heap := heap s; ids := ids s; nl_list := x; posted := posted s; tasks := tasks s; ahs := ahs s; ports := ports s; clients := clients s; registered := registered s; upd_pending := upd_pending s; cpi_pending := cpi_pending s; tw_pending := tw_pending s; tw_run := tw_run s; jiffies := jiffies s; svc_timeout_ms := svc_timeout_ms s; request_seq := request_seq s; tid := tid s; dev := dev s; notes := notes s |}.
Definition with_posted x s := {| heap := heap s; ids := ids s; nl_list := nl_list s; posted := x; tasks := tasks s; ahs := ahs s; ports := ports s; clients := clients s; registered := registered s; upd_pending := upd_pending s; cpi_pending := cpi_pending s; tw_pending := tw_pending s; tw_run := tw_run s; jiffies := jiffies s; svc_timeout_ms := svc_timeout_ms s; request_seq := request_seq s; tid := tid s; dev := dev s; notes := notes s |}.
Definition with_tasks x s := {| heap := heap s; ids := ids s; nl_list := nl_list s; posted := posted s; tasks := x; ahs := ahs s; ports := ports s; clients := clients s; registered := registered s; upd_pending := upd_pending s; cpi_pending := cpi_pending s; tw_pending := tw_pending s; tw_run := tw_run s; jiffies := jiffies s; svc_timeout_ms := svc_timeout_ms s; request_seq := request_seq s; tid := tid s; dev := dev s; notes := notes s |}.
Definition with_ahs x s := {| heap := heap s; ids := ids s; nl_list := nl_list s; posted := posted s; tasks := tasks s; ahs := x; ports := ports s; clients := clients s; registered := registered s; upd_pending := upd_pending s; cpi_pending := cpi_pending s; tw_pending := tw_pending s; tw_run := tw_run s; jiffies := jiffies s; svc_timeout_ms := svc_timeout_ms s; request_seq := request_seq s; tid := tid s; dev := dev s; notes := notes s |}.
Definition with_ports x s := {| heap := heap s; ids := ids s; nl_list := nl_list s; posted := posted s; tasks := tasks s; ahs := ahs s; ports := x; clients := clients s; registered := registered s; upd_pending := upd_pending s; cpi_pending := cpi_pending s; tw_pending := tw_pending s; tw_run := tw_run s; jiffies := jiffies s; svc_timeout_ms := svc_timeout_ms s; request_seq := request_seq s; tid := tid s; dev := dev s; notes := notes s |}.
Definition with_clients x s := {| heap := heap s; ids := ids s; nl_list := nl_list s; posted := posted s; tasks := tasks s; ahs := ahs s; ports := ports s; clients := x; registered := registered s; upd_pending := upd_pending s; cpi_pending := cpi_pending s; tw_pending := tw_pending s; tw_run := tw_run s; jiffies := jiffies s; svc_timeout_ms := svc_timeout_ms s; request_seq := request_seq s; tid := tid s; dev := dev s; notes := notes s |}.
Definition with_registered x s := {| heap := heap s; ids := ids s; nl_list := nl_list s; posted := posted s; tasks := tasks s; ahs := ahs s; ports := ports s; clients := clients s; registered := x; upd_pending := upd_pending s; cpi_pending := cpi_pending s; tw_pending := tw_pending s; tw_run := tw_run s; jiffies := jiffies s; svc_timeout_ms := svc_timeout_ms s; request_seq := request_seq s; tid := tid s; dev := dev s; notes := notes s |}.
Definition with_upd_pending x s := {| heap := heap s; ids := ids s; nl_list := nl_list s; posted := posted s; tasks := tasks s; ahs := ahs s; ports := ports s; clients := clients s; registered := registered s; upd_pending := x; cpi_pending := cpi_pending s; tw_pending := tw_pending s; tw_run := tw_run s; jiffies := jiffies s; svc_timeout_ms := svc_timeout_ms s; request_seq := request_seq s; tid := tid s; dev := dev s; notes := notes s |}.
Definition with_cpi_pending x s := {| heap := heap s; ids := ids s; nl_list := nl_list s; posted := posted s; tasks := tasks s; ahs := ahs s; ports := ports s; clients := clients s; registered := registered s; upd_pending := upd_pending s; cpi_pending := x; tw_pending := tw_pending s; tw_run := tw_run s; jiffies := jiffies s; svc_timeout_ms := svc_timeout_ms s; request_seq := request_seq s; tid := tid s; dev := dev s; notes := notes s |}.
Definition with_tw_pending x s := {| heap := heap s; ids := ids s; nl_list := nl_list s; posted := posted s; tasks := tasks s; ahs := ahs s; ports := ports s; clients := clients s; registered := registered s; upd_pending := upd_pending s; cpi_pending := cpi_pending s; tw_pending := x; tw_run := tw_run s; jiffies := jiffies s; svc_timeout_ms := svc_timeout_ms s; request_seq := request_seq s; tid := tid s; dev := dev s; notes := notes s |}.
Definition with_tw_run x s := {| heap := heap s; ids := ids s; nl_list := nl_list s; posted := posted s; tasks := tasks s; ahs := ahs s; ports := ports s; clients := clients s; registered := registered s; upd_pending := upd_pending s; cpi_pending := cpi_pending s; tw_pending := tw_pending s; tw_run := x; jiffies := jiffies s; svc_timeout_ms := svc_timeout_ms s; request_seq := request_seq s; tid := tid s; dev := dev s; notes := notes s |}.
Definition with_jiffies x s := {| heap := heap s; ids := ids s; nl_list := nl_list s; posted := posted s; tasks := tasks s; ahs := ahs s; ports := ports s; clients := clients s; registered := registered s; upd_pending := upd_pending s; cpi_pending := cpi_pending s; tw_pending := tw_pending s; tw_run := tw_run s; jiffies := x; svc_timeout_ms := svc_timeout_ms s; request_seq := request_seq s; tid := tid s; dev := dev s; notes := notes s |}.
Definition with_svc_timeout_ms x s := {| heap := heap s; ids := ids s; nl_list := nl_list s; posted := posted s; tasks := tasks s; ahs := ahs s; ports := ports s; clients := clients s; registered := registered s; upd_pending := upd_pending s; cpi_pending := cpi_pending s; tw_pending := tw_pending s; tw_run := tw_run s; jiffies := jiffies s; svc_timeout_ms := x; request_seq := request_seq s; tid := tid s; dev := dev s; notes := notes s |}.
Definition with_request_seq x s := {| heap := heap s; ids := ids s; nl_list := nl_list s; posted := posted s; tasks := tasks s; ahs := ahs s; ports := ports s; clients := clients s; registered := registered s; upd_pending := upd_pending s; cpi_pending := cpi_pending s; tw_pending := tw_pending s; tw_run := tw_run s; jiffies := jiffies s; svc_timeout_ms := svc_timeout_ms s; request_seq := x; tid := tid s; dev := dev s; notes := notes s |}.
Definition with_tid x s := {| heap := heap s; ids := ids s; nl_list := nl_list s; posted := posted s; tasks := tasks s; ahs := ahs s; ports := ports s; clients := clients s; registered := registered s; upd_pending := upd_pending s; cpi_pending := cpi_pending s; tw_pending := tw_pending s; tw_run := tw_run s; jiffies := jiffies s; svc_timeout_ms := svc_timeout_ms s; request_seq := request_seq s; tid := x; dev := dev s; notes := notes s |}.
Definition with_dev x s := {| heap := heap s; ids := ids s; nl_list := nl_list s; posted := posted s; tasks := tasks s; ahs := ahs s; ports := ports s; clients := clients s; registered := registered s; upd_pending := upd_pending s; cpi_pending := cpi_pending s; tw_pending := tw_pending s; tw_run := tw_run s; jiffies := jiffies s; svc_timeout_ms := svc_timeout_ms s; request_seq := request_seq s; tid := tid s; dev := x; notes := notes s |}.
Definition with_note x s := {| heap := heap s; ids := ids s; nl_list := nl_list s; posted := posted s; tasks := tasks s; ahs := ahs s; ports := ports s; clients := clients s; registered := registered s; upd_pending := upd_pending s; cpi_pending := cpi_pending s; tw_pending := tw_pending s; tw_run := tw_run s; jiffies := jiffies s; svc_timeout_ms := svc_timeout_ms s; request_seq := request_seq s; tid := tid s; dev := dev s; notes := notes s ++ [x] |}.

Definition sa_init : sa :=
  {| heap := ∅; ids := ∅; nl_list := []; posted := []; tasks := []; ahs := ∅; ports := ∅; clients := ∅; registered := ∅; upd_pending := ∅; cpi_pending := ∅;
     tw_pending := None; tw_run := TR_no; jiffies := 0; svc_timeout_ms := 2000; request_seq := 0; tid := 0; dev := D_none; notes := [] |}.

Section code.
Context (HZ : Z).

Definition msecs_to_jiffies (m : Z) : Z := (m * HZ + 999) / 1000.

(** A pointer to freed memory. *)
Definition the {A} (o : option A) : outcome A := match o with Some a => Ok a | None => Bug end.

Definition add_task (t : task) (s : sa) : sa := with_tasks (tasks s ++ [t]) s.
Definition set_query (q : positive) (x : ib_sa_query) (s : sa) : sa := with_heap (<[q := x]> (heap s)) s.

(** ** References *)

Definition kref_put_ah (a : positive) (s : sa) : outcome sa :=
  x ← the (ahs s !! a);
  if ah_ref x <=? 0 then Bug else
  Ok (with_ahs (if ah_ref x - 1 =? 0 then delete a (ahs s) else <[a := set_ref (ah_ref x - 1) x]> (ahs s)) s).

Definition ib_sa_client_get (c : Z) (s : sa) : outcome sa :=
  n ← the (clients s !! c); Ok (with_clients (<[c := n + 1]> (clients s)) s).

(** The last reference completes the client. *)
Definition ib_sa_client_put (c : Z) (s : sa) : outcome sa :=
  n ← the (clients s !! c); if n <=? 0 then Bug else Ok (with_clients (<[c := n - 1]> (clients s)) s).

Definition put_client (x : ib_sa_query) (s : sa) : outcome sa :=
  match q_client x with Some c => ib_sa_client_put c s | None => Ok s end.

(** The buffer of the MAD goes with the query. *)
Definition free_mad (x : ib_sa_query) (s : sa) : outcome sa := a ← the (q_sm_ah x); kref_put_ah a s.

Definition xa_erase (x : ib_sa_query) (s : sa) : outcome sa := i ← the (q_id x); Ok (with_ids (delete i (ids s)) s).

Definition kfree (q : positive) (s : sa) : sa := with_heap (delete q (heap s)) s.

(** ** The start functions *)

(** A start function returns. That of the class port query returns to [update_ib_cpi], which goes
    on to its end with an error and waits for the query without. *)
Definition returns (x : ib_sa_query) (ret : Z) (s : sa) : outcome sa :=
  match q_kind x with
  | K_classport _ =>
      if ret <? 0 then p ← the (ports s !! q_port x); Ok (with_ports (<[q_port x := set_p_run CR_end p]> (ports s)) s) else Ok s
  | _ => Ok (with_note (N_ret ret) s)
  end.

(** Labels [err1] and [err2]: without references; label [err3] gives them up first. *)
Definition err1 (q : positive) (x : ib_sa_query) (ret : Z) (s : sa) : outcome sa :=
  returns x ret (with_note (N_failed x) (kfree q s)).
Definition err3 (q : positive) (x : ib_sa_query) (ret : Z) (s : sa) : outcome sa :=
  s ← put_client x s; s ← free_mad x s; err1 q x ret s.

Definition cpi_capmask2 (m : list Z) : Z := Z.shiftr (default 0 (be_combine <$> mem_read (offsetof opa_class_port_info "cap_mask2_resp_time") 4 m)) 5.

Definition ib_sa_opa_pathrecord_support (p : ib_sa_port) : bool :=
  cp_valid (p_cpi p) && cp_opa (p_cpi p) && Z.testbit (cpi_capmask2 (cp_data (p_cpi p))) 26.

Inductive opa_pr_supported := PR_NOT_SUPPORTED | PR_OPA_SUPPORTED | PR_IB_SUPPORTED.

(** [lid] is the LID of the port, none when it cannot be queried. *)
Definition opa_pr_query_possible (p : ib_sa_port) (lid : option Z) : opa_pr_supported :=
  match lid with
  | None => PR_NOT_SUPPORTED
  | Some lid =>
      if ib_sa_opa_pathrecord_support p then PR_OPA_SUPPORTED
      else if IB_MULTICAST_LID_BASE <=? lid then PR_NOT_SUPPORTED else PR_IB_SUPPORTED
  end.

Inductive request := RQ_path (r : path) | RQ_mcmember (rec : list Z) | RQ_guidinfo (rec : list Z) (method : Z).

Definition IB_MGMT_METHOD_GET : Z := 1.
Definition IB_MGMT_METHOD_SET : Z := 2.
Definition IB_SA_METHOD_DELETE : Z := 0x15.

(** Requests that are refused before there is an object. *)
Definition request_ok (rq : request) : bool :=
  match rq with
  | RQ_path r => bool_decide (rec_type r = SA_PATH_REC_TYPE_IB) || bool_decide (rec_type r = SA_PATH_REC_TYPE_OPA)
  | RQ_mcmember _ => true
  | RQ_guidinfo _ method => (method =? IB_MGMT_METHOD_GET) || (method =? IB_MGMT_METHOD_SET) || (method =? IB_SA_METHOD_DELETE)
  end.

(** The kind of a query, or the error of a request that is refused; [conv] tells whether there is
    memory for a converted record. *)
Definition request_kind (rq : request) (p : ib_sa_port) (lid : option Z) (conv : bool) : Z + kind :=
  match rq with
  | RQ_path r =>
      if decide (rec_type r = SA_PATH_REC_TYPE_OPA) then
        match opa_pr_query_possible p lid with
        | PR_NOT_SUPPORTED => inl (err EINVAL)
        | PR_OPA_SUPPORTED => inr (K_path Q_opa)
        | PR_IB_SUPPORTED => if conv then inr (K_path Q_conv) else inl (err ENOMEM)
        end
      else inr (K_path Q_ib)
  | RQ_mcmember _ => inr K_mcmember
  | RQ_guidinfo _ _ => inr K_guidinfo
  end.

Definition request_bytes (rq : request) : list Z :=
  match rq with RQ_path r => pr_mem r | RQ_mcmember rec => rec | RQ_guidinfo rec _ => rec end.

(** [kzalloc]: everything is zero. *)
Definition new_query (k : kind) (port : Z) (callback : bool) (mask timeout : Z) (rec : list Z) : ib_sa_query :=
  {| q_kind := k; q_port := port; q_client := None; q_callback := callback; q_local := false; q_cancel := false; q_id := None; q_seq := 0;
     q_timeout := 0; q_sm_ah := None; q_path_use := 0; q_mask := mask; q_rec := rec; q_data := []; q_retries := 0; q_timeout_ms := timeout;
     q_tid := 0; q_calls := [] |}.

(** [ib_sa_path_rec_get], [ib_sa_mcmember_rec_query], [ib_sa_guid_info_rec_query] up to
    [alloc_mad]: an object, or an error. *)
Definition sa_start (client port : Z) (callback : bool) (mask timeout : Z) (rq : request) (mem : option positive) (conv : bool) (lid : option Z) (s : sa) : outcome sa :=
  if decide (dev s = D_none) then Ok (with_note (N_ret (err ENODEV)) s) else
  if negb (request_ok rq) then Ok (with_note (N_ret (err EINVAL)) s) else
  p ← the (ports s !! port);
  match mem with
  | None => Ok (with_note (N_ret (err ENOMEM)) s)
  | Some q =>
      if decide (is_Some (heap s !! q)) then Block else
      match request_kind rq p lid conv with
      | inl ret => Ok (with_note (N_ret ret) s)
      | inr k => Ok (add_task (T_alloc q (Some client)) (set_query q (new_query k port callback mask timeout (request_bytes rq)) s))
      end
  end.

(** [alloc_mad], under the lock of the handle. *)
Definition alloc_mad (q : positive) (client : option Z) (s : sa) : outcome sa :=
  x ← the (heap s !! q);
  p ← the (ports s !! q_port x);
  match p_sm_ah p with
  | None => err1 q x (err EAGAIN) s
  | Some a =>
      h ← the (ahs s !! a);
      Ok (add_task (T_create q client) (set_query q (set_sm_ah (Some a) x) (with_ahs (<[a := set_ref (ah_ref h + 1) h]> (ahs s)) s)))
  end.

Definition OPA_MCAST_NR : Z := 4.
Definition opa_get_mcast_base (nr_top_bits : Z) : Z := u32 (Z.shiftl 0xFFFFFFFF (32 - nr_top_bits)).

Definition rdma_is_valid_unicast_lid (a : sm_attr) : bool :=
  negb ((at_dlid a =? 0) || (if at_opa a then opa_get_mcast_base OPA_MCAST_NR <=? at_dlid a else IB_MULTICAST_LID_BASE <=? at_dlid a)).

(** The attribute of the query's MAD. *)
Definition request_data (x : ib_sa_query) : option (list Z) :=
  let zero := replicate IB_MGMT_SA_DATA 0 in
  match q_kind x with
  | K_path mode =>
      path_rec_request mode zero_path
        {| pr_mem := q_rec x; rec_type := match mode with Q_ib => SA_PATH_REC_TYPE_IB | _ => SA_PATH_REC_TYPE_OPA end; pr_flags := 0 |}
  | K_mcmember => ib_pack mcmember_rec_table (q_rec x) zero
  | K_guidinfo => ib_pack guidinfo_rec_table (q_rec x) zero
  | K_classport _ => Some zero
  end.

(** The record [context[1]] points to. *)
Definition request_context (x : ib_sa_query) : option (list Z) :=
  match q_kind x with K_path Q_conv => path_conv_opa_to_ib (q_rec x) (q_rec x) | _ => Some (q_rec x) end.

(** The rest of [alloc_mad] ([query_ok], [mad_ok]: the handle could be queried, the MAD made), and
    the start function up to [send_mad]. *)
Definition sa_create (q : positive) (client : option Z) (query_ok mad_ok : bool) (s : sa) : outcome sa :=
  x ← the (heap s !! q);
  a ← the (q_sm_ah x);
  h ← the (ahs s !! a);
  if negb (query_ok && rdma_is_valid_unicast_lid (ah_attr h)) then s ← kref_put_ah a s; err1 q x (err EAGAIN) s
  else if negb mad_ok then s ← kref_put_ah a s; err1 q x (err ENOMEM) s
  else
    s ← (match client with Some c => ib_sa_client_get c s | None => Ok s end);
    data ← the (request_data x);
    rec ← the (request_context x);
    let is_path := match q_kind x with K_path _ => true | _ => false end in
    let x := set_client client (set_data data (set_rec rec (set_tid (tid s) (set_local is_path x)))) in
    Ok (add_task (T_send q) (with_tid (u32 (tid s + 1)) (set_query q x s))).

(** [send_mad] up to the netlink request: [xa] is the answer of [__xa_alloc]. *)
Definition send_timeouts (timeout_ms : Z) : Z * Z :=
  if u32 (timeout_ms / 10) =? 0 then (1, timeout_ms) else (u32 (timeout_ms / 10), 10).

Definition send_mad (q : positive) (xa : Z + Z) (listeners : bool) (s : sa) : outcome sa :=
  x ← the (heap s !! q);
  match xa with
  | inl ret => err3 q x ret s
  | inr id =>
      if decide (is_Some (ids s !! id)) then Block else
      let '(tmo, retries) := send_timeouts (q_timeout_ms x) in
      let x := set_id (Some id) (set_timeout_ms tmo (set_retries retries x)) in
      let s := with_ids (<[id := q]> (ids s)) s in
      if q_local x && negb (query_opa (q_kind x)) then
        if listeners then Ok (add_task (T_nl q) (set_query q x s))
        else Ok (add_task (T_post q) (set_query q (set_local false x) s))
      else Ok (add_task (T_post q) (set_query q x s))
  end.

(** *** The request of the local service *)

Definition IB_SA_PATH_REC_SERVICE_ID : Z := Z.lor (Z.shiftl 1 0) (Z.shiftl 1 1).
Definition IB_SA_PATH_REC_DGID : Z := Z.shiftl 1 2.
Definition IB_SA_PATH_REC_SGID : Z := Z.shiftl 1 3.
Definition IB_SA_PATH_REC_TRAFFIC_CLASS : Z := Z.shiftl 1 10.
Definition IB_SA_PATH_REC_REVERSIBLE : Z := Z.shiftl 1 11.
Definition IB_SA_PATH_REC_PKEY : Z := Z.shiftl 1 13.
Definition IB_SA_PATH_REC_QOS_CLASS : Z := Z.shiftl 1 14.

Definition nlmsg_align (n : Z) : Z := (n + 3) / 4 * 4.
Definition nla_total_size (n : Z) : Z := nlmsg_align (4 + n).
Definition LS_HEADER_SIZE : Z := 64 + 1 + 1.

Definition ib_nl_get_path_rec_attrs_len (mask : Z) : Z :=
  let add b n len := if has_flag mask b then len + nla_total_size n else len in
  let len := add IB_SA_PATH_REC_QOS_CLASS 2 (add IB_SA_PATH_REC_PKEY 2 (add IB_SA_PATH_REC_TRAFFIC_CLASS 1
               (add IB_SA_PATH_REC_SGID 16 (add IB_SA_PATH_REC_DGID 16 (add IB_SA_PATH_REC_SERVICE_ID 8 0))))) in
  if len =? 0 then len else len + nlmsg_align LS_HEADER_SIZE.

Definition path_use (mask : Z) (rec : list Z) : Z :=
  if has_flag mask IB_SA_PATH_REC_REVERSIBLE && negb (default 0 (get "reversible" rec) =? 0)
  then LS_RESOLVE_PATH_USE_ALL else LS_RESOLVE_PATH_USE_UNIDIRECTIONAL.

Definition RDMA_NLA_F_MANDATORY : Z := Z.shiftl 1 13.

(** The attributes of the message, in order: type and payload. Numbers are put in the order of
    the host, here little endian, which is the reverse of that of the record. *)
Definition ib_nl_set_path_rec_attrs (mask : Z) (rec : list Z) : list nl_attr :=
  let field b t f (swap : bool) :=
    if has_flag mask b then
      match mem_read (p_off f) (p_size f) rec with
      | Some bs => [(Z.lor RDMA_NLA_F_MANDATORY t, if swap then reverse bs else bs)]
      | None => []
      end
    else [] in
  field IB_SA_PATH_REC_SERVICE_ID 3 "service_id" true ++ field IB_SA_PATH_REC_DGID 4 "dgid" false ++
  field IB_SA_PATH_REC_SGID 5 "sgid" false ++ field IB_SA_PATH_REC_TRAFFIC_CLASS 6 "traffic_class" false ++
  field IB_SA_PATH_REC_PKEY 7 "pkey" true ++ field IB_SA_PATH_REC_QOS_CLASS 8 "qos_class" true.

(** [queue_delayed_work] leaves a pending work item as it is, [mod_delayed_work] does not. *)
Definition queue_timed_work (delay : Z) (s : sa) : sa :=
  match tw_pending s with None => with_tw_pending (Some (jiffies s + delay)) s | Some _ => s end.
Definition mod_timed_work (delay : Z) (s : sa) : sa := with_tw_pending (Some (jiffies s + delay)) s.

(** [ib_nl_make_request] in [send_mad]; [skb]: there is memory for the message and room for its
    header; [sent]: the answer of [rdma_nl_multicast]. A request that cannot be made is posted as
    a MAD. *)
Definition nl_request (q : positive) (skb : bool) (sent : Z) (s : sa) : outcome sa :=
  x ← the (heap s !! q);
  id ← the (q_id x);
  let seq := u32 (request_seq s + 1) in
  let s := with_request_seq seq s in
  let x := set_seq seq x in
  if (ib_nl_get_path_rec_attrs_len (q_mask x) <=? 0) || negb skb
  then Ok (add_task (T_post q) (set_query q (set_local false x) s))
  else
    let x := set_rec [] (set_path_use (path_use (q_mask x) (q_rec x)) x) in
    if negb (sent =? 0) then Ok (add_task (T_post q) (set_query q (set_local false x) s))
    else
      let delay := msecs_to_jiffies (svc_timeout_ms s) in
      let s := set_query q (set_timeout (delay + jiffies s) x) s in
      let first := bool_decide (nl_list s = []) in
      let s := with_nl_list (nl_list s ++ [q]) s in
      returns x id (if first then queue_timed_work delay s else s).

(** [ib_post_send_mad] uses the agent of the query's port. *)
Definition ib_post_send_mad (q : positive) (x : ib_sa_query) (ret : Z) (s : sa) : outcome (bool * sa) :=
  _ ← the (ports s !! q_port x);
  if ret =? 0 then Ok (true, with_posted (posted s ++ [(q, false)]) s) else Ok (false, s).

(** The end of [send_mad], with the error paths of the start functions. *)
Definition sa_post (q : positive) (ret : Z) (s : sa) : outcome sa :=
  x ← the (heap s !! q);
  id ← the (q_id x);
  '(ok, s) ← ib_post_send_mad q x ret s;
  if (ok : bool) then returns x id s
  else s ← xa_erase x s; err3 q x ret s.

(** ** Answers *)

(** A record read from an attribute into a structure of the stack. *)
Definition unpack_struct (t : list ib_field) (ms : list member) (data : list Z) : option answer :=
  A_struct <$> ib_unpack t data (replicate (sizeof ms) 0).

(** What the callback of the query hands to the client: the record of the answer, if there is
    one. *)
Definition decode (k : kind) (mad : option (list Z)) : option answer :=
  match mad with
  | None => Some A_none
  | Some data =>
      match k with
      | K_path mode => (fun r => A_paths [r]) <$> path_rec_response mode data
      | K_mcmember => unpack_struct mcmember_rec_table ib_sa_mcmember_rec data
      | K_guidinfo => unpack_struct guidinfo_rec_table ib_sa_guidinfo_rec data
      | K_classport true => unpack_struct opa_classport_info_rec_table opa_class_port_info data
      | K_classport false => unpack_struct ib_classport_info_rec_table ib_class_port_info data
      end
  end.

Definition log_call (q : positive) (x : ib_sa_query) (c : call) (s : sa) : sa := set_query q (set_calls (q_calls x ++ [c]) x) s.

(** [ib_sa_classport_info_rec_callback]: the information is kept if there is none, and the thread
    of [update_ib_cpi] goes on. *)
Definition classport_callback (opa : bool) (port status : Z) (a : answer) (s : sa) : outcome sa :=
  p ← the (ports s !! port);
  let keep := match a with A_struct m => if (status =? 0) && negb (cp_valid (p_cpi p)) then Some m else None | _ => None end in
  let p := match keep with
           | Some m => set_p_cpi {| cp_valid := true; cp_retry_cnt := cp_retry_cnt (p_cpi p); cp_opa := opa; cp_data := m |} p
           | None => p
           end in
  match p_run p with
  | CR_ask false => Ok (with_ports (<[port := set_p_run (CR_ask true) p]> (ports s)) s)
  | _ => Bug
  end.

(** [query->callback]. *)
Definition query_callback (q : positive) (status : Z) (mad : option (list Z)) (s : sa) : outcome sa :=
  x ← the (heap s !! q);
  a ← the (decode (q_kind x) mad);
  let s := log_call q x {| c_status := status; c_answer := a |} s in
  match q_kind x with K_classport opa => classport_callback opa (q_port x) status a s | _ => Ok s end.

Definition wc_error (status : wc_status) : option Z :=
  match status with
  | IB_WC_SUCCESS => None
  | IB_WC_RESP_TIMEOUT_ERR => Some (err ETIMEDOUT)
  | IB_WC_WR_FLUSH_ERR => Some (err EINTR)
  | _ => Some (err EIO)
  end.

(** [send_handler] up to its first lock, and the rest. *)
Definition send_handler (q : positive) (status : wc_status) (by_timer : bool) (s : sa) : outcome sa :=
  x ← the (heap s !! q);
  s ← (match wc_error status with Some e => if q_callback x then query_callback q e None s else Ok s | None => Ok s end);
  Ok (add_task (T_done q by_timer) s).

Definition send_handler_end (q : positive) (by_timer : bool) (s : sa) : outcome sa :=
  x ← the (heap s !! q);
  s ← xa_erase x s;
  s ← free_mad x s;
  s ← put_client x s;
  let s := with_note (N_done x) (kfree q s) in
  Ok (if by_timer then with_tw_run TR_loop s else s).

(** [r] is the status and the attribute of the response, none if it was not received well. *)
Definition recv_handler (q : positive) (r : option (Z * list Z)) (s : sa) : outcome sa :=
  x ← the (heap s !! q);
  if q_callback x then
    match r with
    | Some (mad_status, data) => query_callback q (if mad_status =? 0 then 0 else err EINVAL) (Some data) s
    | None => query_callback q (err EIO) None s
    end
  else Ok s.

(** ** The local service *)

Definition path_mask (use : Z) : Z :=
  if use =? LS_RESOLVE_PATH_USE_UNIDIRECTIONAL then Z.lor IB_PATH_PRIMARY IB_PATH_OUTBOUND
  else if use =? LS_RESOLVE_PATH_USE_ALL then IB_PATH_PRIMARY
  else Z.lor IB_PATH_PRIMARY (Z.lor IB_PATH_GMP IB_PATH_BIDIRECTIONAL).

(** The members of [struct ib_path_rec_data] in a payload; the flags in the order of the host,
    here little endian. *)
Definition rec_flags (bs : list Z) : option Z := (fun l => be_combine (reverse l)) <$> mem_read 0 4 bs.
Definition rec_path (bs : list Z) : option (list Z) := mem_read 8 64 bs.

(** What the loop of [ib_nl_process_good_resolve_rsp] ends with: one attribute for the query's
    own callback, or the records found. *)
Inductive resolved := RS_data (path_rec : list Z) | RS_recs (recs : list path).

Fixpoint resolve_loop (k : kind) (mask : Z) (attrs : list nl_attr) (recs : list path) : option resolved :=
  match attrs with
  | [] => Some (RS_recs recs)
  | (t, bs) :: r =>
      if negb (t =? LS_NLA_TYPE_PATH_RECORD) then resolve_loop k mask r recs else
      flags ← rec_flags bs;
      if negb (Z.land flags mask =? mask) then resolve_loop k mask r recs else
      path_rec ← rec_path bs;
      match k with
      | K_path Q_ib =>
          p ← ib_sa_unpack_path path_rec zero_path;
          p ← sa_path_set_dmac_zero {| pr_mem := pr_mem p; rec_type := SA_PATH_REC_TYPE_IB; pr_flags := flags |};
          let recs := (recs ++ [p])%list in
          if decide (RDMA_PRIMARY_PATH_MAX_REC_NUM <= length recs)%nat then Some (RS_recs recs) else resolve_loop k mask r recs
      | _ => Some (RS_data path_rec)
      end
  end.

Definition ib_nl_process_good_resolve_rsp (q : positive) (attrs : list nl_attr) (s : sa) : outcome sa :=
  x ← the (heap s !! q);
  s ← (if q_callback x then
         rs ← the (resolve_loop (q_kind x) (path_mask (q_path_use x)) attrs []);
         match rs with
         | RS_data path_rec => query_callback q 0 (Some (path_rec ++ drop 64 (q_data x))%list) s
         | RS_recs [] => query_callback q (err EIO) (Some (q_data x)) s
         | RS_recs recs => Ok (log_call q x {| c_status := 0; c_answer := A_paths recs |} s)
         end
       else Ok s);
  send_handler q IB_WC_SUCCESS false s.

(** The request with a sequence number. *)
Fixpoint find_seq (s : sa) (seq : Z) (l : list positive) : outcome (option positive) :=
  match l with
  | [] => Ok None
  | q :: r => x ← the (heap s !! q); if seq =? q_seq x then Ok (Some q) else find_seq s seq r
  end.

(** [good]: the answer of [ib_nl_is_good_resolve_resp]; [post]: that of [ib_post_send_mad]. *)
Definition ib_nl_handle_resolve_resp (seq : Z) (good : bool) (attrs : list nl_attr) (post : Z) (s : sa) : outcome sa :=
  found ← find_seq s seq (nl_list s);
  match found with
  | None => Ok s
  | Some q =>
      x ← the (heap s !! q);
      if q_cancel x then Ok s else
      let s := with_nl_list (remove_first q (nl_list s)) s in
      if good then Ok (add_task (T_good q attrs) s)
      else
        let s := set_query q (set_local false x) s in
        '(ok, s) ← ib_post_send_mad q x post s;
        Ok (if (ok : bool) then s else add_task (T_fail q IB_WC_GENERAL_ERR false) s)
  end.

(** The timer runs, and one round of its loop. *)
Definition timed_work_start (s : sa) : outcome sa :=
  match tw_pending s, tw_run s with
  | Some e, TR_no => if e <=? jiffies s then Ok (with_tw_run TR_loop (with_tw_pending None s)) else Block
  | _, _ => Block
  end.

Definition ib_nl_request_timeout (post : Z) (s : sa) : outcome sa :=
  match tw_run s with
  | TR_loop =>
      match nl_list s with
      | [] => Ok (with_tw_run TR_no s)
      | q :: r =>
          x ← the (heap s !! q);
          if jiffies s <? q_timeout x then Ok (with_tw_run TR_no (queue_timed_work (q_timeout x - jiffies s) s))
          else
            let s := set_query q (set_local false x) (with_nl_list r s) in
            '(ok, s) ← (if q_cancel x then _ ← the (ports s !! q_port x); Ok (false, s) else ib_post_send_mad q x post s);
            Ok (if (ok : bool) then s else add_task (T_fail q IB_WC_WR_FLUSH_ERR true) (with_tw_run (TR_wait q) s))
      end
  | _ => Block
  end.

(** [delta] is in milliseconds, the timeouts are in jiffies. *)
Definition shift_timeout (delta t : Z) : Z := if (delta <? 0) && (t <? Z.abs delta) then 0 else t + delta.

Fixpoint shift_all (delta : Z) (l : list positive) (delay : Z) (s : sa) : outcome (Z * sa) :=
  match l with
  | [] => Ok (delay, s)
  | q :: r =>
      x ← the (heap s !! q);
      let t := shift_timeout delta (q_timeout x) in
      let delay := if delay =? 0 then (if t - jiffies s <=? 0 then 1 else t - jiffies s) else delay in
      shift_all delta r delay (set_query q (set_timeout t x) s)
  end.

(** [timeout] is the attribute of the message, none if it has none. *)
Definition ib_nl_handle_set_timeout (timeout : option Z) (s : sa) : outcome sa :=
  match timeout with
  | None => Ok s
  | Some t =>
      let t := if t <? IB_SA_LOCAL_SVC_TIMEOUT_MIN then IB_SA_LOCAL_SVC_TIMEOUT_MIN else t in
      let t := if IB_SA_LOCAL_SVC_TIMEOUT_MAX <? t then IB_SA_LOCAL_SVC_TIMEOUT_MAX else t in
      let delta := t - svc_timeout_ms s in
      if delta =? 0 then Ok s else
      '(delay, s) ← shift_all delta (nl_list s) 0 (with_svc_timeout_ms t s);
      Ok (if delay =? 0 then s else mod_timed_work delay s)
  end.

(** ** Cancellation *)

(** [ib_sa_cancel_query] looks up the identifier and takes the buffer of the query. *)
Definition ib_sa_cancel_query (id : Z) (q : positive) (s : sa) : outcome sa :=
  if decide (ids s !! id = Some q) then _ ← the (heap s !! q); Ok (add_task (T_cancel q) s) else Ok s.

(** Then, without the lock: [ib_nl_cancel_request], or [ib_cancel_mad] on the buffer, which ends
    the send of the MAD layer earlier. *)
Definition cancel_request (q : positive) (s : sa) : outcome sa :=
  if decide (q ∈ nl_list s) then
    x ← the (heap s !! q);
    let s := set_query q (set_timeout (jiffies s) (set_cancel true x)) s in
    Ok (mod_timed_work 1 (with_nl_list (q :: remove_first q (nl_list s)) s))
  else _ ← the (heap s !! q); Ok s.

(** ** Clients *)

Definition ib_sa_register_client (c : Z) (s : sa) : outcome sa :=
  if decide (is_Some (clients s !! c)) then Block
  else Ok (with_registered ({[c]} ∪ registered s) (with_clients (<[c := 1]> (clients s)) s)).

Definition ib_sa_unregister_client (c : Z) (s : sa) : outcome sa :=
  s ← ib_sa_client_put c (with_registered (registered s ∖ {[c]}) s); Ok (add_task (T_client c) s).

(** It waits for the last reference. *)
Definition client_wait (c : Z) (s : sa) : outcome sa :=
  n ← the (clients s !! c);
  if n =? 0 then Ok (with_note (N_unregistered c) (with_clients (delete c (clients s)) s)) else Block.

(** ** The handle of the subnet manager *)

Inductive ib_event := IB_EVENT_PORT_ERR | IB_EVENT_PORT_ACTIVE | IB_EVENT_LID_CHANGE | IB_EVENT_PKEY_CHANGE | IB_EVENT_SM_CHANGE | IB_EVENT_CLIENT_REREGISTER | IB_EVENT_OTHER.

Definition event_handled (e : ib_event) : bool := match e with IB_EVENT_OTHER => false | _ => true end.
Definition event_reset (e : ib_event) : bool :=
  match e with IB_EVENT_SM_CHANGE | IB_EVENT_CLIENT_REREGISTER | IB_EVENT_LID_CHANGE | IB_EVENT_PORT_ACTIVE => true | _ => false end.

(** [ib_sa_event]: the handle is given up; then the class port information and the work items. A
    port that is not in [ports] has no subnet administration. *)
Definition ib_sa_event (port : Z) (e : ib_event) (s : sa) : outcome sa :=
  if negb (event_handled e) then Ok s else
  match ports s !! port with
  | None => Ok s
  | Some p =>
      s ← (match p_sm_ah p with Some a => kref_put_ah a s | None => Ok s end);
      Ok (add_task (T_event port (event_reset e)) (with_ports (<[port := set_p_ah None p]> (ports s)) s))
  end.

Definition sa_event_end (port : Z) (reset : bool) (s : sa) : outcome sa :=
  p ← the (ports s !! port);
  let c := p_cpi p in
  let s := if reset then
             with_cpi_pending ({[port]} ∪ cpi_pending s)
               (with_ports (<[port := set_p_cpi {| cp_valid := false; cp_retry_cnt := 0; cp_opa := cp_opa c; cp_data := cp_data c |} p]> (ports s)) s)
           else s in
  Ok (with_upd_pending ({[port]} ∪ upd_pending s) s).

(** The attributes of a port, as [ib_query_port] gives them. *)
Record ib_port_attr := {
  pa_lmc : Z;
  pa_sm_lid : Z;
  pa_sm_sl : Z;
  pa_subnet_prefix : Z
}.

Definition IB_LID_PERMISSIVE : Z := 0xFFFF.

(** The attributes [update_sm_ah] makes the handle with. *)
Definition sm_ah_attr (opa grh_required : bool) (port : Z) (a : ib_port_attr) : sm_attr :=
  {| at_opa := opa; at_dlid := if opa then pa_sm_lid a else u16 (pa_sm_lid a); at_sl := pa_sm_sl a; at_port := port;
     at_make_grd := opa && (grh_required || (pa_sm_lid a =? IB_LID_PERMISSIVE));
     at_grh := if negb opa && grh_required then Some (pa_subnet_prefix a, IB_SA_WELL_KNOWN_GUID) else None |}.

(** The work item: [new] is the new handle, none if the port cannot be queried, there is no memory
    or the device does not make it. *)
Definition update_sm_ah (port : Z) (new : option positive) (opa grh_required : bool) (a : ib_port_attr) (pkey_index : Z) (s : sa) : outcome sa :=
  if decide (port ∈ upd_pending s) then
    let s := with_upd_pending (upd_pending s ∖ {[port]}) s in
    p ← the (ports s !! port);
    match new with
    | None => Ok s
    | Some h =>
        if decide (is_Some (ahs s !! h)) then Block else
        let ah := {| ah_ref := 1; ah_attr := sm_ah_attr opa grh_required port a; ah_pkey_index := pkey_index; ah_src_path_mask := u8 (Z.shiftl 1 (pa_lmc a) - 1) |} in
        let s := with_ahs (<[h := ah]> (ahs s)) s in
        s ← (match p_sm_ah p with Some o => kref_put_ah o s | None => Ok s end);
        Ok (with_ports (<[port := set_p_ah (Some h) p]> (ports s)) s)
    end
  else Block.

(** ** The class port information *)

(** [update_ib_cpi] up to its query: [ctx]: there is memory for the context; [mem]: the query;
    [opa]: [rdma_cap_opa_ah]. *)
Definition update_ib_cpi (port : Z) (ctx : bool) (mem : option positive) (opa : bool) (s : sa) : outcome sa :=
  if decide (port ∈ cpi_pending s) then
    p ← the (ports s !! port);
    if negb (bool_decide (p_run p = CR_no)) then Block else
    let s := with_cpi_pending (cpi_pending s ∖ {[port]}) s in
    if cp_valid (p_cpi p) then Ok s else
    if negb ctx then Ok s else
    match mem with
    | None => Ok (with_ports (<[port := set_p_run CR_end p]> (ports s)) s)
    | Some q =>
        if decide (is_Some (heap s !! q)) then Block else
        let s := set_query q (new_query (K_classport opa) port true 0 3000 []) s in
        Ok (add_task (T_alloc q None) (with_ports (<[port := set_p_run (CR_ask false) p]> (ports s)) s))
    end
  else Block.

(** [wait_for_completion]. *)
Definition cpi_wait (port : Z) (s : sa) : outcome sa :=
  match ports s !! port with
  | Some p => match p_run p with CR_ask true => Ok (with_ports (<[port := set_p_run CR_end p]> (ports s)) s) | _ => Block end
  | None => Block
  end.

(** Its end: without the information the work item is queued again, a few times. *)
Definition cpi_end (port : Z) (s : sa) : outcome sa :=
  match ports s !! port with
  | None => Block
  | Some p =>
      match p_run p with
      | CR_end =>
          let c := p_cpi p in
          let p := set_p_run CR_no p in
          if cp_valid c then Ok (with_ports (<[port := p]> (ports s)) s) else
          let n := cp_retry_cnt c + 1 in
          let p := set_p_cpi {| cp_valid := cp_valid c; cp_retry_cnt := n; cp_opa := cp_opa c; cp_data := cp_data c |} p in
          let s := with_ports (<[port := p]> (ports s)) s in
          Ok (if n <=? IB_SA_CPI_MAX_RETRY_CNT then with_cpi_pending ({[port]} ∪ cpi_pending s) s else s)
      | _ => Block
      end
  end.

(** ** The device *)

Definition new_port : ib_sa_port :=
  {| p_sm_ah := None; p_cpi := {| cp_valid := false; cp_retry_cnt := 0; cp_opa := false; cp_data := [] |}; p_run := CR_no |}.

(** The loop of [ib_sa_add_one] over the indices: [cap] is [rdma_cap_ib_sa], asked for the port
    [i + 1]; [reg] the answer of [ib_register_mad_agent]. An error unregisters the agents. *)
Fixpoint add_ports (cap : Z -> bool) (reg : Z -> Z) (start : Z) (l : list Z) (acc : gmap Z ib_sa_port) : Z + gmap Z ib_sa_port :=
  match l with
  | [] => inr acc
  | i :: r =>
      if negb (cap (i + 1)) then add_ports cap reg start r acc
      else if negb (reg (i + start) =? 0) then inl (reg (i + start))
      else add_ports cap reg start r (<[i + start := new_port]> acc)
  end.

Definition ib_sa_add_one (mem : bool) (cap : Z -> bool) (reg : Z -> Z) (start end_ : Z) (s : sa) : outcome sa :=
  if decide (dev s = D_none) then
    if negb mem then Ok (with_note (N_ret (err ENOMEM)) s) else
    match add_ports cap reg start (seqZ 0 (end_ - start + 1)) ∅ with
    | inl ret => Ok (with_note (N_ret ret) s)
    | inr m =>
        if decide (m = ∅) then Ok (with_note (N_ret (err EOPNOTSUPP)) s)
        else Ok (with_dev D_up (with_upd_pending (dom m) (with_cpi_pending ∅ (with_ports m s))))
    end
  else Block.

(** [ib_sa_remove_one]: events stop, the work queue is flushed; then port by port the work item
    is cancelled, the agent unregistered (it waits for its sends) and the handle given up. *)
Definition is_event (t : task) : bool := match t with T_event _ _ => true | _ => false end.

Definition remove_quiet (s : sa) : outcome sa :=
  if decide (dev s = D_up) then if existsb is_event (tasks s) then Block else Ok (with_dev D_quiet s) else Block.

Definition remove_flush (s : sa) : outcome sa :=
  if decide (dev s = D_quiet /\ upd_pending s = ∅) then Ok (with_dev D_flushed s) else Block.

(** The sends of a port, and those whose [send_handler] runs. *)
Definition of_port (s : sa) (port : Z) (q : positive) : bool :=
  match heap s !! q with Some x => q_port x =? port | None => false end.
Definition port_busy (s : sa) (port : Z) : bool :=
  existsb (fun p => of_port s port p.1) (posted s) || existsb (fun t => match t with T_done q false => of_port s port q | _ => false end) (tasks s).

Definition remove_port (port : Z) (s : sa) : outcome sa :=
  if decide (dev s = D_flushed) then
    p ← the (ports s !! port);
    match p_run p with
    | CR_no =>
        if port_busy s port then Block else
        s ← (match p_sm_ah p with Some a => kref_put_ah a s | None => Ok s end);
        Ok (with_cpi_pending (cpi_pending s ∖ {[port]}) (with_ports (delete port (ports s)) s))
    | _ => Block
    end
  else Block.

Definition remove_end (s : sa) : outcome sa :=
  if decide (dev s = D_flushed /\ ports s = ∅) then Ok (with_dev D_none s) else Block.

(** ** Steps *)

Inductive sstep :=
| Q_start (client port : Z) (callback : bool) (mask timeout : Z) (rq : request) (mem : option positive) (conv : bool) (lid : option Z)
| Q_alloc (q : positive) (client : option Z)
| Q_create (q : positive) (client : option Z) (query_ok mad_ok : bool)
| Q_send (q : positive) (xa : Z + Z) (listeners : bool)
| Q_nl (q : positive) (skb : bool) (sent : Z)
| Q_post (q : positive) (ret : Z)
| Q_good (q : positive) (attrs : list nl_attr)
| Q_fail (q : positive) (status : wc_status) (by_timer : bool)
| Q_done (q : positive) (by_timer : bool)
| M_recv (q : positive) (r : option (Z * list Z))
| M_send (q : positive) (status : wc_status)
| L_resp (seq : Z) (good : bool) (attrs : list nl_attr) (post : Z)
| L_timeout (timeout : option Z)
| L_fire
| L_loop (post : Z)
| C_cancel (id : Z) (q : positive)
| C_cancel_mad (q : positive)
| C_register (c : Z)
| C_unregister (c : Z)
| C_wait (c : Z)
| P_event (port : Z) (e : ib_event)
| P_event_end (port : Z) (reset : bool)
| P_update (port : Z) (new : option positive) (opa grh_required : bool) (a : ib_port_attr) (pkey_index : Z)
| P_cpi (port : Z) (ctx : bool) (mem : option positive) (opa : bool)
| P_cpi_wait (port : Z)
| P_cpi_end (port : Z)
| D_add (mem : bool) (cap : Z -> bool) (reg : Z -> Z) (start end_ : Z)
| D_remove_quiet
| D_remove_flush
| D_remove_port (port : Z)
| D_remove_end
| Tick (n : Z).

#[export] Instance task_eq_dec : EqDecision task.
Proof. solve_decision. Defined.

(** A thread goes on. *)
Definition take_task (t : task) (s : sa) : outcome sa :=
  if decide (t ∈ tasks s) then Ok (with_tasks (remove_first t (tasks s)) s) else Block.

Definition s_run (g : sstep) (s : sa) : outcome sa :=
  match g with
  | Q_start client port callback mask timeout rq mem conv lid => sa_start client port callback mask timeout rq mem conv lid s
  | Q_alloc q client => s ← take_task (T_alloc q client) s; alloc_mad q client s
  | Q_create q client query_ok mad_ok => s ← take_task (T_create q client) s; sa_create q client query_ok mad_ok s
  | Q_send q xa listeners => s ← take_task (T_send q) s; send_mad q xa listeners s
  | Q_nl q skb sent => s ← take_task (T_nl q) s; nl_request q skb sent s
  | Q_post q ret => s ← take_task (T_post q) s; sa_post q ret s
  | Q_good q attrs => s ← take_task (T_good q attrs) s; ib_nl_process_good_resolve_rsp q attrs s
  | Q_fail q status by_timer => s ← take_task (T_fail q status by_timer) s; send_handler q status by_timer s
  | Q_done q by_timer => s ← take_task (T_done q by_timer) s; send_handler_end q by_timer s
  | M_recv q r =>
      if decide ((q, false) ∈ posted s)
      then recv_handler q r (with_posted (remove_first (q, false) (posted s) ++ [(q, true)]) s) else Block
  | M_send q status =>
      let answered := bool_decide (status = IB_WC_SUCCESS) in
      if decide ((q, answered) ∈ posted s)
      then send_handler q status false (with_posted (remove_first (q, answered) (posted s)) s) else Block
  | L_resp seq good attrs post => ib_nl_handle_resolve_resp seq good attrs post s
  | L_timeout timeout => ib_nl_handle_set_timeout timeout s
  | L_fire => timed_work_start s
  | L_loop post => ib_nl_request_timeout post s
  | C_cancel id q => ib_sa_cancel_query id q s
  | C_cancel_mad q => s ← take_task (T_cancel q) s; cancel_request q s
  | C_register c => ib_sa_register_client c s
  | C_unregister c => ib_sa_unregister_client c s
  | C_wait c => s ← take_task (T_client c) s; client_wait c s
  | P_event port e => if decide (dev s = D_up) then ib_sa_event port e s else Block
  | P_event_end port reset => s ← take_task (T_event port reset) s; sa_event_end port reset s
  | P_update port new opa grh_required a pkey_index => update_sm_ah port new opa grh_required a pkey_index s
  | P_cpi port ctx mem opa => update_ib_cpi port ctx mem opa s
  | P_cpi_wait port => cpi_wait port s
  | P_cpi_end port => cpi_end port s
  | D_add mem cap reg start end_ => ib_sa_add_one mem cap reg start end_ s
  | D_remove_quiet => remove_quiet s
  | D_remove_flush => remove_flush s
  | D_remove_port port => remove_port port s
  | D_remove_end => remove_end s
  | Tick n => if 0 <=? n then Ok (with_jiffies (jiffies s + n) s) else Block
  end.

(** A schedule. *)
Fixpoint s_runs (l : list sstep) (s : sa) : outcome sa :=
  match l with [] => Ok s | g :: r => s ← s_run g s; s_runs r s end.

(** ** What the code relies on *)

Definition rec_ok (rq : request) : Prop :=
  match rq with
  | RQ_path r => rec_mem (pr_mem r)
  | RQ_mcmember rec => length rec = sizeof ib_sa_mcmember_rec /\ bytes_ok rec
  | RQ_guidinfo rec _ => length rec = sizeof ib_sa_guidinfo_rec /\ bytes_ok rec
  end.

Definition attr_ok (data : list Z) : Prop := length data = IB_MGMT_SA_DATA /\ bytes_ok data.

(** The rule for the netlink attributes of an answer. Attributes are bytes; the code does not check
    their lengths, so there are two rules: any attribute, or only path records that are whole. *)
Class attr_rule := {
  nl_ok : nl_attr -> Prop;
  nl_bytes a : nl_ok a -> a.1 = LS_NLA_TYPE_PATH_RECORD -> bytes_ok a.2
}.

Definition whole_rec (a : nl_attr) : Prop := a.1 = LS_NLA_TYPE_PATH_RECORD -> (72 <= length a.2)%nat.

Definition any_attrs : attr_rule := {| nl_ok a := a.1 = LS_NLA_TYPE_PATH_RECORD -> bytes_ok a.2; nl_bytes _ H := H |}.
Definition whole_attrs : attr_rule :=
  {| nl_ok a := whole_rec a /\ (a.1 = LS_NLA_TYPE_PATH_RECORD -> bytes_ok a.2); nl_bytes _ H := proj2 H |}.

(** The queries that are left on a port are with the MAD layer, which [ib_sa_remove_one] has cancel
    them. It does not look at the requests on the list of the local service or at threads that are
    about to send: with those left, the port is used after it was freed
    ([removal_leaves_requests]). *)
Definition quiet_removal (port : Z) (s : sa) : Prop :=
  forall q x, heap s !! q = Some x -> q_port x = port -> q ∈ (posted s).*1.

Context {W : attr_rule}.

(** Queries are started by registered clients on ports of the device, a client does not unregister
    inside a start function of its own, a port is removed as in [quiet_removal]; functions that are
    called give errors as negative numbers. *)
Definition client_ok (g : sstep) (s : sa) : Prop :=
  match g with
  | Q_start client port _ _ _ rq _ _ _ => client ∈ registered s /\ (dev s = D_none \/ is_Some (ports s !! port)) /\ rec_ok rq
  | Q_send _ (inl ret) _ => ret < 0
  | Q_send _ (inr id) _ => 0 <= id
  | Q_post _ ret => ret <= 0
  | M_recv _ (Some (_, data)) => attr_ok data
  | L_resp _ _ attrs _ => Forall nl_ok attrs
  | C_unregister c => c ∈ registered s /\ forall q, T_alloc q (Some c) ∉ tasks s /\ T_create q (Some c) ∉ tasks s
  | D_remove_port port =>
      is_Some (ports s !! port) /\ quiet_removal port s
  | _ => True
  end.

Inductive s_reachable : sa -> Prop :=
| s_init : s_reachable sa_init
| s_next s g s' : s_reachable s -> client_ok g s -> s_run g s = Ok s' -> s_reachable s'.
End code.
