(* ===== verification/SaInv.v ===== *)
(** * Queries of subnet administration: the invariant

    Every live query is held in one place: by a thread, by the list of requests, by the MAD layer.
    The place tells the stage of the query, the stage what it has: a reference on the handle of the
    subnet manager, an identifier, the report to its client. *)

From Stdlib Require Import ZArith Lia.
From stdpp Require Import base tactics numbers list option gmap gmultiset.
From S2P Require Import Prelude Packer UdHeader SaRec Outcome SaQuery.

Local Open Scope Z_scope.

(** ** Lists and counts *)

(** What the values of a map have together. *)
Definition tally {K A} `{Countable K} {B} `{Countable B} (f : A -> gmultiset B) (m : gmap K A) : gmultiset B := map_fold (fun _ x acc => f x ⊎ acc) ∅ m.

Section tally.
Context {K A B} `{Countable K} `{Countable B} (f : A -> gmultiset B).
Implicit Types m : gmap K A.

Lemma tally_empty : tally f (∅ : gmap K A) = ∅.
Proof. done. Qed.

Lemma tally_new m k x : m !! k = None -> tally f (<[k := x]> m) = f x ⊎ tally f m.
Proof. intros E. unfold tally. rewrite map_fold_insert_L; [done| |done]. intros. multiset_solver. Qed.

Lemma tally_delete m k x : m !! k = Some x -> tally f m = f x ⊎ tally f (delete k m).
Proof. intros E. rewrite <- (insert_delete_id m k x) at 1 by done. apply tally_new, lookup_delete_eq. Qed.

Lemma tally_set m k x y : m !! k = Some x -> tally f (<[k := y]> m) = f y ⊎ tally f (delete k m).
Proof. intros E. rewrite <- (insert_delete_eq m k y). apply tally_new, lookup_delete_eq. Qed.

Lemma tally_same m k x y : m !! k = Some x -> f y = f x -> tally f (<[k := y]> m) = tally f m.
Proof. intros E Ef. by rewrite (tally_set m k x y), Ef, <- tally_delete. Qed.

Lemma tally_elem m b : b ∈ tally f m -> exists k x, m !! k = Some x /\ b ∈ f x.
Proof.
  induction m as [|k x m E IH] using map_ind; [rewrite tally_empty; multiset_solver|].
  rewrite tally_new by done. intros [Hb|Hb]%gmultiset_elem_of_disj_union; [exists k, x; by rewrite lookup_insert_eq|].
  destruct (IH Hb) as (k' & y & Ek & Hy). exists k', y. split; [|done]. rewrite lookup_insert_ne; [done|]. congruence.
Qed.

Lemma tally_in m k x b : m !! k = Some x -> b ∈ f x -> b ∈ tally f m.
Proof. intros E Hb. rewrite (tally_delete m k x E). multiset_solver. Qed.
End tally.

(** At most one value. *)
Definition one {B} `{Countable B} (o : option B) : gmultiset B := match o with Some b => {[+ b +]} | None => ∅ end.

(** ** Decoding always succeeds *)

Lemma unpack_field_ok blen slen f buf s : wf_field blen slen f -> length buf = blen -> length s = slen ->
  ((size_bits f <= 32)%nat \/ (64 < size_bits f)%nat \/ struct_size_bytes f = 0%nat \/ offset_words f = 0%nat) ->
  exists s', unpack_field f buf s = Some s' /\ length s' = slen.
Proof.
  intros Hwf Hb Hs Hw. unfold unpack_field. destruct (decide (struct_size_bytes f = 0%nat)) as [Hz|Hz]; [rewrite bool_decide_eq_true_2 by done; by exists s|].
  rewrite bool_decide_eq_false_2 by done. destruct Hwf as [H0 Hwf].
  assert (forall o n v, (o + n <= slen)%nat -> exists s', value_write o n v s = Some s' /\ length s' = slen) as Hvw.
  { intros o n v Ho. unfold value_write. assert (forall n', n' = n -> exists s', mem_write o (be_split n' v) s = Some s' /\ length s' = slen) as Hm.
    { intros n' ->. destruct (mem_write_ok o (be_split n v) s) as [s' E]; [rewrite length_be_split; lia|]. exists s'. split; [done|]. by rewrite (length_mem_write _ _ _ _ E). }
    repeat case_match; try (by exists s); subst; by apply Hm. }
  case_bool_decide as H32; [|case_bool_decide as H64].
  - destruct Hwf as [[H1 H2] H3]. rewrite (proj2 (Z.ltb_ge _ _)) by lia. destruct (mem_read_ok (4 * offset_words f) 4 buf) as [w ->]; [lia|].
    cbn. apply Hvw. destruct H3 as [|(? & ? & ?)]; [done|lia].
  - destruct Hwf as [[H1 H2] [H3 H4]]. rewrite (proj2 (Z.ltb_ge _ _)) by lia. destruct (mem_read_ok (8 * offset_words f) 8 buf) as [w ->]; [lia|].
    cbn. apply Hvw. destruct H3 as [|(? & ? & ?)]; [done|lia].
  - destruct Hwf as [(H1 & H2 & H3) H4]. destruct (mem_read_ok (offset_words f * 4 + offset_bits f / 8) (size_bits f / 8) buf) as [w Ew]; [lia|]. rewrite Ew. cbn.
    destruct H4 as [|[H4 H5]]; [done|]. pose proof (length_mem_read _ _ _ _ Ew) as Lw.
    assert (size_bits f / 8 = struct_size_bytes f)%nat as E8 by (rewrite <- H4, Nat.mul_comm; by apply Nat.div_mul).
    destruct (mem_write_ok (struct_offset_bytes f) w s) as [s' E]; [lia|]. exists s'. split; [done|]. by rewrite (length_mem_write _ _ _ _ E).
Qed.

Lemma ib_unpack_ok blen slen t buf s : wf_table blen slen t -> length buf = blen -> length s = slen ->
  exists s', ib_unpack t buf s = Some s' /\ length s' = slen.
Proof.
  intros Hwf Hb. revert s. induction t as [|f t IH]; intros s Hs; cbn [ib_unpack]; [by exists s|].
  destruct Hwf as (Hf & _ & Ht). destruct (unpack_field_ok blen slen f buf s) as (s1 & E & L); [done..| |].
  { destruct Hf as [H0 Hf]. case_bool_decide; [by left|]. case_bool_decide; [|right; left; lia]. destruct Hf as (_ & _ & [?|?]); auto. }
  rewrite E. cbn. by apply IH.
Qed.

Lemma sa_unpack t slen blen data s : (t, (slen, blen)) ∈ sa_records -> attr_ok data -> length s = slen -> bytes_ok s ->
  exists s', ib_unpack t data s = Some s' /\ length s' = slen /\ bytes_ok s'.
Proof.
  intros Hr [Ld Bd] Hl Hb. destruct (sa_records_in _ _ _ Hr) as [Hwf _]. destruct (ib_unpack_ok _ _ _ data s Hwf Ld Hl) as (s' & E & L).
  exists s'. split; [done|]. split; [done|]. exact (ib_unpack_bytes _ _ _ _ Bd Hb E).
Qed.

Ltac a_record := repeat (first [left; reflexivity | right]).

Lemma path_response_ok mode data : attr_ok data -> exists r, path_rec_response mode data = Some r.
Proof.
  intros Hd. assert (rec_mem (pr_mem zero_path)) as [Lz Bz] by (split; [done|apply zeros_bytes]).
  destruct mode; unfold path_rec_response.
  - destruct (sa_unpack path_rec_table PATH_BYTES 64 data (pr_mem zero_path)) as (m & E & Lm & Bm); [a_record|done..|]. rewrite E. cbn [mbind option_bind].
    rewrite dmac_zero_ib by done. cbn [mbind option_bind]. by eexists.
  - destruct (sa_unpack opa_path_rec_table PATH_BYTES 64 data (pr_mem zero_path)) as (m & E & Lm & Bm); [a_record|done..|]. rewrite E. by eexists.
  - destruct (sa_unpack path_rec_table PATH_BYTES 64 data (pr_mem zero_path)) as (m & E & Lm & Bm); [a_record|done..|]. rewrite E. cbn [mbind option_bind].
    rewrite dmac_zero_ib by done. cbn [mbind option_bind]. unfold sa_convert_path_ib_to_opa. rewrite decide_True by done.
    destruct (conv_ib_to_opa m) as (m' & d & l & E' & _); [done|]. cbn [with_type with_mem pr_mem]. rewrite E'. by eexists.
Qed.

Lemma decode_ok k mad : (forall data, mad = Some data -> attr_ok data) -> exists a, decode k mad = Some a.
Proof.
  intros Hd. destruct mad as [data|]; [|by exists A_none]. specialize (Hd data eq_refl). unfold decode, unpack_struct.
  assert (forall t ms b, (t, (sizeof ms, b)) ∈ sa_records -> exists a, A_struct <$> ib_unpack t data (replicate (sizeof ms) 0) = Some a) as H.
  { intros t ms b Hr. destruct (sa_unpack t (sizeof ms) b data (replicate (sizeof ms) 0)) as (m & -> & _); [done..|apply length_replicate|apply zeros_bytes|]. by eexists. }
  destruct k as [mode| | |[]].
  - destruct (path_response_ok mode data Hd) as [r ->]. by eexists.
  - apply (H _ _ 52%nat). a_record.
  - apply (H _ _ 72%nat). a_record.
  - apply (H _ _ 80%nat). a_record.
  - apply (H _ _ 72%nat). a_record.
Qed.

(** ** Stages *)

(** [G_called]: the client has its report, if it wants one. *)
Inductive stage := G_alloc | G_create | G_send | G_id | G_called.

Definition task_holds (t : task) : list (positive * stage) :=
  match t with
  | T_alloc q _ => [(q, G_alloc)]
  | T_create q _ => [(q, G_create)]
  | T_send q => [(q, G_send)]
  | T_nl q | T_post q | T_good q _ | T_fail q _ _ => [(q, G_id)]
  | T_done q _ => [(q, G_called)]
  | _ => []
  end.

Definition holders (nl : list positive) (po : list (positive * bool)) (ts : list task) : list (positive * stage) :=
  ((fun q => (q, G_id)) <$> nl) ++ ((fun p => (p.1, if p.2 : bool then G_called else G_id)) <$> po) ++ (ts ≫= task_holds).

Definition has_ah (g : stage) : bool := match g with G_alloc => false | _ => true end.
Definition has_id (g : stage) : bool := match g with G_id | G_called => true | _ => false end.
Definition started (g : stage) : bool := match g with G_alloc | G_create => false | _ => true end.

Definition rec_good (x : ib_sa_query) : Prop :=
  match q_kind x with
  | K_path _ => rec_mem (q_rec x)
  | K_mcmember => length (q_rec x) = sizeof ib_sa_mcmember_rec /\ bytes_ok (q_rec x)
  | K_guidinfo => length (q_rec x) = sizeof ib_sa_guidinfo_rec /\ bytes_ok (q_rec x)
  | K_classport _ => True
  end.

Definition reports (x : ib_sa_query) : nat := if q_callback x then 1 else 0.

Record stage_ok (g : stage) (x : ib_sa_query) : Prop := {
  so_ah : bool_decide (is_Some (q_sm_ah x)) = has_ah g;
  so_id : bool_decide (is_Some (q_id x)) = has_id g;
  so_nonneg i : q_id x = Some i -> 0 <= i;
  so_calls : length (q_calls x) = match g with G_called => reports x | _ => 0%nat end;
  so_data : if started g then attr_ok (q_data x) else rec_good x /\ q_client x = None;
  so_cp : match q_kind x with K_classport _ => q_callback x = true | _ => True end
}.

(** ** The parts of the invariant *)

(** Every query is held once, at its stage. *)
Definition stagesI (m : gmap positive stage) (nl : list positive) (po : list (positive * bool)) (ts : list task) (h : gmap positive ib_sa_query) : Prop :=
  holders nl po ts ≡ₚ map_to_list m /\ dom m = dom h /\ forall q g x, m !! q = Some g -> h !! q = Some x -> stage_ok g x.

(** The identifiers. *)
Definition idsI (i : gmap Z positive) (h : gmap positive ib_sa_query) : Prop :=
  forall k q, i !! k = Some q <-> exists x, h !! q = Some x /\ q_id x = Some k.

(** The references on the handles. *)
Definition q_refs (x : ib_sa_query) : gmultiset positive := one (q_sm_ah x).
Definition p_refs (p : ib_sa_port) : gmultiset positive := one (p_sm_ah p).
Definition countI (a : gmap positive ib_sa_sm_ah) (R : gmultiset positive) : Prop :=
  forall k, match a !! k with
            | Some y => 0 < ah_ref y /\ ah_ref y = Z.of_nat (multiplicity k R)
            | None => multiplicity k R = 0%nat
            end.
Definition ahsI (a : gmap positive ib_sa_sm_ah) (h : gmap positive ib_sa_query) (ps : gmap Z ib_sa_port) : Prop := countI a (tally q_refs h ⊎ tally p_refs ps).

(** The references on the clients. *)
Definition q_clients (x : ib_sa_query) : gmultiset Z := one (q_client x).
Definition task_waits (t : task) : list Z := match t with T_client c => [c] | _ => [] end.
Definition task_client (t : task) : list Z := match t with T_alloc _ (Some c) | T_create _ (Some c) => [c] | _ => [] end.
Record clientsI (cl : gmap Z Z) (reg : gset Z) (h : gmap positive ib_sa_query) (ts : list task) : Prop := {
  ci_count c : match cl !! c with
               | Some n => n = Z.of_nat (multiplicity c (tally q_clients h)) + (if decide (c ∈ reg) then 1 else 0)
               | None => multiplicity c (tally q_clients h) = 0%nat /\ c ∉ reg
               end;
  ci_nodup : NoDup (ts ≫= task_waits);
  ci_waits c : c ∈ ts ≫= task_waits -> c ∉ reg /\ is_Some (cl !! c);
  ci_start c : c ∈ ts ≫= task_client -> c ∈ reg
}.

(** Every query has its port; a class port query without a report has the thread of the port's
    work item waiting for it, and is the only one. *)
Definition asks (x : ib_sa_query) : bool := match q_kind x with K_classport _ => bool_decide (q_calls x = []) | _ => false end.
Record portsI (h : gmap positive ib_sa_query) (ps : gmap Z ib_sa_port) : Prop := {
  pi_port q x : h !! q = Some x -> is_Some (ps !! q_port x);
  pi_ask q x p : h !! q = Some x -> asks x = true -> ps !! q_port x = Some p -> p_run p = CR_ask false;
  pi_one q q' x x' : h !! q = Some x -> h !! q' = Some x' -> asks x = true -> asks x' = true -> q_port x = q_port x' -> q = q'
}.

(** The work items of the ports, the events, the device. *)
Definition task_events (t : task) : list Z := match t with T_event p _ => [p] | _ => [] end.
Definition retry_ok (cp : gset Z) (k : Z) (p : ib_sa_port) : Prop :=
  0 <= cp_retry_cnt (p_cpi p) <= IB_SA_CPI_MAX_RETRY_CNT + 1 /\
  (k ∈ cp \/ p_run p <> CR_no -> cp_retry_cnt (p_cpi p) <= IB_SA_CPI_MAX_RETRY_CNT) /\
  (k ∈ cp -> p_run p <> CR_no -> cp_retry_cnt (p_cpi p) = 0).
Record worksI (ps : gmap Z ib_sa_port) (up cp : gset Z) (d : dev_state) (ts : list task) : Prop := {
  wi_upd : up ⊆ dom ps;
  wi_cpi : cp ⊆ dom ps;
  wi_event p : p ∈ ts ≫= task_events -> is_Some (ps !! p) /\ d = D_up;
  wi_flushed : d = D_flushed \/ d = D_none -> up = ∅;
  wi_none : d = D_none -> ps = ∅;
  wi_retry k p : ps !! k = Some p -> retry_ok cp k p
}.

(** The timer is set or runs while there are requests. *)
Definition timer_task (q : positive) (t : task) : bool :=
  match t with T_fail q' _ true => bool_decide (q = q') | T_done q' true => bool_decide (q = q') | _ => false end.
Record timerI (nl : list positive) (twp : option Z) (twr : timer_run) (ts : list task) : Prop := {
  ti_armed : nl <> [] -> is_Some twp \/ twr <> TR_no;
  ti_wait q : twr = TR_wait q -> Exists (fun t => timer_task q t = true) ts
}.

Definition task_ok {W : attr_rule} (t : task) : Prop :=
  match t with T_fail _ st _ => st <> IB_WC_SUCCESS | T_good _ attrs => Forall nl_ok attrs | _ => True end.

(** Queries that ended were reported; queries that failed were not. *)
Definition note_ok (n : note) : Prop :=
  match n with
  | N_done x => length (q_calls x) = reports x
  | N_failed x => q_calls x = []
  | _ => True
  end.

Record invf {W : attr_rule} (m : gmap positive stage) (ts : list task) (nl : list positive) (po : list (positive * bool)) (h : gmap positive ib_sa_query) (i : gmap Z positive)
  (a : gmap positive ib_sa_sm_ah) (ps : gmap Z ib_sa_port) (cl : gmap Z Z) (reg up cp : gset Z) (twp : option Z) (twr : timer_run) (d : dev_state) (ns : list note) : Prop := {
  i_stages : stagesI m nl po ts h;
  i_ids : idsI i h;
  i_ahs : ahsI a h ps;
  i_clients : clientsI cl reg h ts;
  i_ports : portsI h ps;
  i_works : worksI ps up cp d ts;
  i_timer : timerI nl twp twr ts;
  i_tasks : Forall task_ok ts;
  i_notes : Forall note_ok ns
}.

Arguments i_stages {_ _ _ _ _ _ _ _ _ _ _ _ _ _ _ _ _} _.
Arguments i_ids {_ _ _ _ _ _ _ _ _ _ _ _ _ _ _ _ _} _.
Arguments i_ahs {_ _ _ _ _ _ _ _ _ _ _ _ _ _ _ _ _} _.
Arguments i_clients {_ _ _ _ _ _ _ _ _ _ _ _ _ _ _ _ _} _.
Arguments i_ports {_ _ _ _ _ _ _ _ _ _ _ _ _ _ _ _ _} _.
Arguments i_works {_ _ _ _ _ _ _ _ _ _ _ _ _ _ _ _ _} _.
Arguments i_timer {_ _ _ _ _ _ _ _ _ _ _ _ _ _ _ _ _} _.
Arguments i_tasks {_ _ _ _ _ _ _ _ _ _ _ _ _ _ _ _ _} _.
Arguments i_notes {_ _ _ _ _ _ _ _ _ _ _ _ _ _ _ _ _} _.

(** [ts]: the threads, with the one that runs. *)
Definition inv {W : attr_rule} (m : gmap positive stage) (ts : list task) (s : sa) : Prop :=
  invf m ts (nl_list s) (posted s) (heap s) (ids s) (ahs s) (ports s) (clients s) (registered s) (upd_pending s) (cpi_pending s) (tw_pending s) (tw_run s) (dev s) (notes s).

(** ** Holders *)

Lemma holders_ts nl po ts ts' : ts ≡ₚ ts' -> holders nl po ts ≡ₚ holders nl po ts'.
Proof. intros H. unfold holders. by rewrite H. Qed.

Lemma holders_task nl po t ts : holders nl po (t :: ts) ≡ₚ task_holds t ++ holders nl po ts.
Proof. unfold holders. cbn. solve_Permutation. Qed.

Lemma holders_nl q nl po ts : holders (q :: nl) po ts ≡ₚ (q, G_id) :: holders nl po ts.
Proof. done. Qed.

Lemma holders_nl_perm nl nl' po ts : nl ≡ₚ nl' -> holders nl po ts ≡ₚ holders nl' po ts.
Proof. intros H. unfold holders. by rewrite H. Qed.

Lemma holders_po q (b : bool) nl po ts : holders nl ((q, b) :: po) ts ≡ₚ (q, if b then G_called else G_id) :: holders nl po ts.
Proof. unfold holders. cbn. solve_Permutation. Qed.

Lemma holders_po_perm nl po po' ts : po ≡ₚ po' -> holders nl po ts ≡ₚ holders nl po' ts.
Proof. intros H. unfold holders. by rewrite H. Qed.

(** ** Moving a query *)

Section stages.
Context {m : gmap positive stage} {nl : list positive} {po : list (positive * bool)} {ts : list task} {h : gmap positive ib_sa_query}.
Context (HS : stagesI m nl po ts h).

Lemma stage_get q g : (q, g) ∈ holders nl po ts -> m !! q = Some g /\ exists x, h !! q = Some x /\ stage_ok g x.
Proof.
  destruct HS as (HP & HD & HO). intros H. rewrite HP, elem_of_map_to_list in H. split; [done|].
  assert (q ∈ dom h) as [x Hx]%elem_of_dom by (rewrite <- HD; by apply elem_of_dom_2 in H). eauto.
Qed.

Lemma stage_move q g g' x' nl' po' ts' rest : holders nl po ts ≡ₚ (q, g) :: rest -> holders nl' po' ts' ≡ₚ (q, g') :: rest -> stage_ok g' x' ->
  stagesI (<[q := g']> m) nl' po' ts' (<[q := x']> h).
Proof.
  destruct HS as (HP & HD & HO). intros H H' Hx. assert (m !! q = Some g) as Hm.
  { apply elem_of_map_to_list. rewrite <- HP, H. left. }
  split; [|split].
  - rewrite H'. rewrite <- (insert_delete_eq m q g'), map_to_list_insert by apply lookup_delete_eq. f_equiv.
    apply (Permutation_cons_inv (a := (q, g))). rewrite <- H, HP. rewrite <- (insert_delete_id m q g) at 1 by done. by rewrite map_to_list_insert by apply lookup_delete_eq.
  - by rewrite !dom_insert_L, HD.
  - intros q' g0 x0. destruct (decide (q' = q)) as [->|]; [rewrite !lookup_insert_eq|rewrite !lookup_insert_ne by done]; [by intros [= <-] [= <-]|apply HO].
Qed.

Lemma stage_drop q g nl' po' ts' : holders nl po ts ≡ₚ (q, g) :: holders nl' po' ts' -> stagesI (delete q m) nl' po' ts' (delete q h).
Proof.
  destruct HS as (HP & HD & HO). intros H. assert (m !! q = Some g) as Hm.
  { apply elem_of_map_to_list. rewrite <- HP, H. left. }
  split; [|split].
  - apply (Permutation_cons_inv (a := (q, g))). rewrite <- H, HP. rewrite <- (insert_delete_id m q g) at 1 by done. by rewrite map_to_list_insert by apply lookup_delete_eq.
  - by rewrite !dom_delete_L, HD.
  - intros q' g0 x0. rewrite !lookup_delete_Some. intros [_ ?] [_ ?]. by eapply HO.
Qed.

Lemma stage_new q g x nl' po' ts' : h !! q = None -> holders nl' po' ts' ≡ₚ (q, g) :: holders nl po ts -> stage_ok g x ->
  stagesI (<[q := g]> m) nl' po' ts' (<[q := x]> h).
Proof.
  destruct HS as (HP & HD & HO). intros Hq H Hx. assert (m !! q = None) as Hm by (apply not_elem_of_dom; rewrite HD; by apply not_elem_of_dom).
  split; [|split].
  - by rewrite H, HP, map_to_list_insert.
  - by rewrite !dom_insert_L, HD.
  - intros q' g0 x0. destruct (decide (q' = q)) as [->|]; [rewrite !lookup_insert_eq|rewrite !lookup_insert_ne by done]; [by intros [= <-] [= <-]|apply HO].
Qed.

Lemma stage_same nl' po' ts' : holders nl' po' ts' ≡ₚ holders nl po ts -> stagesI m nl' po' ts' h.
Proof. destruct HS as (HP & HD & HO). intros H. split; [by rewrite H|done]. Qed.
End stages.

(** ** Counts of references *)

Lemma one_mult {B} `{Countable B} (o : option B) b : multiplicity b (one o) = if decide (o = Some b) then 1%nat else 0%nat.
Proof.
  destruct o as [b'|]; cbn [one]; [|by rewrite decide_False]. rewrite multiplicity_singleton. repeat case_decide; congruence.
Qed.

(** Giving one up, and a new handle. *)
Lemma count_put a R R' k : countI a R -> (forall b, multiplicity b R = (multiplicity b (one (Some k)) + multiplicity b R')%nat) ->
  exists y, a !! k = Some y /\ 0 < ah_ref y /\ countI (if ah_ref y - 1 =? 0 then delete k a else <[k := set_ref (ah_ref y - 1) y]> a) R'.
Proof.
  intros HI HM. pose proof (HI k) as Hk. rewrite HM, one_mult, decide_True in Hk by done. destruct (a !! k) as [y|] eqn:Ey; [|lia]. destruct Hk as [P Q].
  exists y. split; [done|]. split; [done|]. intros b. specialize (HI b). rewrite HM, one_mult in HI. destruct (decide (k = b)) as [<-|Hne].
  - rewrite Ey, decide_True in HI by done. destruct (Z.eqb_spec (ah_ref y - 1) 0); [rewrite lookup_delete_eq|rewrite lookup_insert_eq; cbn [ah_ref set_ref]]; lia.
  - rewrite decide_False in HI by congruence. destruct (ah_ref y - 1 =? 0); [rewrite lookup_delete_ne by done|rewrite lookup_insert_ne by done]; exact HI.
Qed.

Lemma count_new a R R' k y : countI a R -> a !! k = None -> ah_ref y = 1 -> (forall b, multiplicity b R' = (multiplicity b (one (Some k)) + multiplicity b R)%nat) ->
  countI (<[k := y]> a) R'.
Proof.
  intros HI Hk Hy HM b. specialize (HI b). rewrite HM, one_mult. destruct (decide (k = b)) as [<-|Hne].
  - rewrite lookup_insert_eq, decide_True by done. rewrite Hk in HI. lia.
  - rewrite lookup_insert_ne by done. by rewrite decide_False by congruence.
Qed.

Lemma count_ext a R R' : countI a R -> (forall b, multiplicity b R = multiplicity b R') -> countI a R'.
Proof. intros HI HM b. specialize (HI b). by rewrite HM in HI. Qed.

(** ** Changing a query *)

(** Changes that leave the references of a query, and where it belongs. *)
Record keeps (x x' : ib_sa_query) : Prop := {
  k_kind : q_kind x' = q_kind x;
  k_port : q_port x' = q_port x;
  k_callback : q_callback x' = q_callback x;
  k_client : q_client x' = q_client x;
  k_ah : q_sm_ah x' = q_sm_ah x;
  k_id : q_id x' = q_id x;
  k_asks : asks x' = true -> asks x = true
}.

Section keep.
Context {h : gmap positive ib_sa_query} {q : positive} {x : ib_sa_query} (Hq : h !! q = Some x).

Lemma ids_keep i x' : idsI i h -> q_id x' = q_id x -> idsI i (<[q := x']> h).
Proof.
  intros HI E k q'. rewrite (HI k q'). destruct (decide (q' = q)) as [->|]; [|by rewrite lookup_insert_ne by done].
  rewrite lookup_insert_eq. split; intros (y & Hy & Hk); eexists; split; [done|congruence|done|congruence].
Qed.

Lemma ahs_keep a ps x' : ahsI a h ps -> q_sm_ah x' = q_sm_ah x -> ahsI a (<[q := x']> h) ps.
Proof. intros HI E. unfold ahsI. rewrite (tally_same q_refs h q x x'); [done|done|]. unfold q_refs. by rewrite E. Qed.

Lemma clients_keep cl reg ts x' : clientsI cl reg h ts -> q_client x' = q_client x -> clientsI cl reg (<[q := x']> h) ts.
Proof. intros [H1 H2 H3 H4] E. split; [|done..]. rewrite (tally_same q_clients h q x x'); [done|done|]. unfold q_clients. by rewrite E. Qed.

Lemma ports_keep ps x' : portsI h ps -> q_port x' = q_port x -> (asks x' = true -> asks x = true) -> portsI (<[q := x']> h) ps.
Proof.
  intros [H1 H2 H3] E Ea.
  assert (forall q' y, <[q := x']> h !! q' = Some y -> exists z, h !! q' = Some z /\ q_port y = q_port z /\ (asks y = true -> asks z = true)) as Hl.
  { intros q' y. destruct (decide (q' = q)) as [->|]; [rewrite lookup_insert_eq; intros [= <-]; eauto|rewrite lookup_insert_ne by done; eauto]. }
  split.
  - intros q' y (z & Hz & -> & _)%Hl. by eapply H1.
  - intros q' y p (z & Hz & -> & Ez)%Hl Hy. eapply H2; eauto.
  - intros q1 q2 y1 y2 (z1 & Hz1 & -> & E1)%Hl (z2 & Hz2 & -> & E2)%Hl A1 A2 Ep. eapply H3; eauto.
Qed.

(** Freeing it. *)
Lemma ids_drop i : idsI i h -> idsI (match q_id x with Some k => delete k i | None => i end) (delete q h).
Proof.
  intros HI k q'. transitivity (i !! k = Some q' /\ q' <> q).
  - destruct (q_id x) as [k0|] eqn:E.
    + rewrite lookup_delete_Some. assert (i !! k0 = Some q) as Hk0 by (apply HI; eauto). split.
      * intros [Hne Hk]. split; [done|]. intros ->. apply Hne. apply HI in Hk as (y & Hy & Hk). congruence.
      * intros [Hk Hne]. split; [|done]. intros <-. congruence.
    + split; [|by intros []]. intros Hk. split; [done|]. intros ->. apply HI in Hk as (y & Hy & Hk). congruence.
  - rewrite (HI k q'). split.
    + intros [(y & Hy & Hk) Hne]. exists y. by rewrite lookup_delete_ne.
    + intros (y & [Hne Hy]%lookup_delete_Some & Hk). eauto.
Qed.

Lemma ids_none i k : idsI i h -> q_id x = None -> i !! k <> Some q.
Proof. intros HI E (y & Hy & Hk)%HI. congruence. Qed.

Lemma tally_drop {B} `{Countable B} (f : ib_sa_query -> gmultiset B) b : multiplicity b (tally f h) = (multiplicity b (f x) + multiplicity b (tally f (delete q h)))%nat.
Proof. by rewrite (tally_delete f h q x Hq), multiplicity_disj_union. Qed.

Lemma ahs_drop a ps k : ahsI a h ps -> q_sm_ah x = Some k ->
  exists y, a !! k = Some y /\ 0 < ah_ref y /\ ahsI (if ah_ref y - 1 =? 0 then delete k a else <[k := set_ref (ah_ref y - 1) y]> a) (delete q h) ps.
Proof.
  intros HI E. apply (count_put _ _ _ _ HI). intros b. rewrite !multiplicity_disj_union, (tally_drop q_refs). unfold q_refs at 1. rewrite E. lia.
Qed.

Lemma ahs_drop_none a ps : ahsI a h ps -> q_sm_ah x = None -> ahsI a (delete q h) ps.
Proof.
  intros HI E. apply (count_ext _ _ _ HI). intros b. rewrite !multiplicity_disj_union, (tally_drop q_refs). unfold q_refs at 1. by rewrite E.
Qed.

Lemma clients_drop cl reg ts c : clientsI cl reg h ts -> q_client x = Some c ->
  exists n, cl !! c = Some n /\ 0 < n /\ clientsI (<[c := n - 1]> cl) reg (delete q h) ts.
Proof.
  intros [H1 H2 H3 H4] E. assert (forall b, multiplicity b (tally q_clients h) = ((if decide (c = b) then 1 else 0) + multiplicity b (tally q_clients (delete q h)))%nat) as HM.
  { intros b. rewrite (tally_drop q_clients). unfold q_clients at 1. rewrite E, one_mult.
    destruct (decide (c = b)) as [->|]; [rewrite decide_True by done|rewrite decide_False by congruence]; lia. }
  pose proof (H1 c) as Hc. rewrite HM, decide_True in Hc by done. destruct (cl !! c) as [n|] eqn:Ec; [|lia].
  exists n. split; [done|]. split; [destruct (decide (c ∈ reg)); lia|]. split; [|done| |done].
  - intros b. specialize (H1 b). rewrite HM in H1. destruct (decide (c = b)) as [<-|Hne].
    + rewrite Ec in H1. rewrite lookup_insert_eq. lia.
    + by rewrite lookup_insert_ne.
  - intros b [? ?]%H3. split; [done|]. destruct (decide (c = b)) as [<-|]; [by rewrite lookup_insert_eq|by rewrite lookup_insert_ne].
Qed.

Lemma clients_drop_none cl reg ts : clientsI cl reg h ts -> q_client x = None -> clientsI cl reg (delete q h) ts.
Proof.
  intros [H1 H2 H3 H4] E. split; [|done..]. intros b. specialize (H1 b). rewrite (tally_drop q_clients) in H1. unfold q_clients at 1 3 in H1.
  rewrite E, one_mult, decide_False in H1 by done. exact H1.
Qed.

Lemma ports_drop ps : portsI h ps -> portsI (delete q h) ps.
Proof.
  intros [H1 H2 H3]. split.
  - intros q' y [_ ?]%lookup_delete_Some. eauto.
  - intros q' y p [_ ?]%lookup_delete_Some. eauto.
  - intros q1 q2 y1 y2 [_ ?]%lookup_delete_Some [_ ?]%lookup_delete_Some. eauto.
Qed.
End keep.

(** A new query. *)
Section fresh.
Context {h : gmap positive ib_sa_query} {q : positive} (Hq : h !! q = None).

Lemma ids_new i x : idsI i h -> q_id x = None -> idsI i (<[q := x]> h).
Proof.
  intros HI E k q'. rewrite (HI k q'). destruct (decide (q' = q)) as [->|]; [|by rewrite lookup_insert_ne by done].
  rewrite lookup_insert_eq, Hq. split; intros (y & Hy & Hk); simplify_eq; congruence.
Qed.

Lemma ahs_new a ps x : ahsI a h ps -> q_sm_ah x = None -> ahsI a (<[q := x]> h) ps.
Proof. intros HI E. unfold ahsI. rewrite tally_new by done. unfold q_refs at 1. rewrite E. cbn [one]. by rewrite gmultiset_disj_union_left_id. Qed.

Lemma clients_new cl reg ts x : clientsI cl reg h ts -> q_client x = None -> clientsI cl reg (<[q := x]> h) ts.
Proof.
  intros [H1 H2 H3 H4] E. split; [|done..]. intros b. specialize (H1 b). rewrite tally_new by done. unfold q_clients at 1 3. rewrite E. cbn [one].
  by rewrite gmultiset_disj_union_left_id.
Qed.

Lemma ports_new ps x p : portsI h ps -> ps !! q_port x = Some p -> (asks x = true -> p_run p = CR_ask false /\ forall q' y, h !! q' = Some y -> asks y = true -> q_port y <> q_port x) ->
  portsI (<[q := x]> h) ps.
Proof.
  intros [H1 H2 H3] Hp Ha.
  assert (forall q' y, <[q := x]> h !! q' = Some y -> (q' = q /\ y = x) \/ (q' <> q /\ h !! q' = Some y)) as Hl.
  { intros q' y. destruct (decide (q' = q)) as [->|]; [rewrite lookup_insert_eq; intros [= <-]; auto|rewrite lookup_insert_ne by done; auto]. }
  split.
  - intros q' y [[-> ->]|[_ Hy]]%Hl; [by eexists|eauto].
  - intros q' y p' [[-> ->]|[_ Hy]]%Hl Hy'; [intros Hp'; rewrite Hp in Hp'; simplify_eq; by apply Ha|eauto].
  - intros q1 q2 y1 y2 [[-> ->]|[_ Hy1]]%Hl [[-> ->]|[_ Hy2]]%Hl A1 A2 Ep; [done| | |eauto].
    + destruct (Ha A1) as [_ Hn]. by destruct (Hn _ _ Hy2 A2).
    + destruct (Ha A2) as [_ Hn]. by destruct (Hn _ _ Hy1 A1).
Qed.
End fresh.

(** ** Threads *)

Section rule.
Context {W : attr_rule}.

Record ts_step (ts ts' : list task) : Prop := {
  tt_waits : ts' ≫= task_waits ≡ₚ ts ≫= task_waits;
  tt_client : ts' ≫= task_client ⊆ ts ≫= task_client;
  tt_events : ts' ≫= task_events ⊆ ts ≫= task_events;
  tt_ok : Forall task_ok ts -> Forall task_ok ts'
}.

Lemma ts_perm ts ts' : ts ≡ₚ ts' -> ts_step ts ts'.
Proof. intros H. split; [by rewrite H|intros c; by rewrite H..|by rewrite H]. Qed.

Lemma ts_head t t' ts : task_waits t' = task_waits t -> task_client t' ⊆ task_client t -> task_events t' ⊆ task_events t -> task_ok t' -> ts_step (t :: ts) (t' :: ts).
Proof.
  intros H1 H2 H3 H4. split; cbn.
  - by rewrite H1.
  - set_solver.
  - set_solver.
  - rewrite !list.Forall_cons. naive_solver.
Qed.

Lemma ts_drop t ts : task_waits t = [] -> ts_step (t :: ts) ts.
Proof. intros H. split; cbn; [by rewrite H|set_solver|set_solver|by intros [_ ?]%list.Forall_cons]. Qed.

Lemma ts_new t ts : task_waits t = [] -> task_client t = [] -> task_events t = [] -> task_ok t -> ts_step ts (t :: ts).
Proof. intros H1 H2 H3 H4. split; cbn; rewrite ?H1, ?H2, ?H3; [done..|by constructor]. Qed.

Lemma ts_refl ts : ts_step ts ts.
Proof. by apply ts_perm. Qed.

Lemma clients_ts cl reg h ts ts' : clientsI cl reg h ts -> ts_step ts ts' -> clientsI cl reg h ts'.
Proof. intros [H1 H2 H3 H4] [S1 S2 S3 S4]. split; [done|by rewrite S1|intros c; rewrite S1; apply H3|intros c Hc; by apply H4, S2]. Qed.

Lemma works_ts ps up cp d ts ts' : worksI ps up cp d ts -> ts_step ts ts' -> worksI ps up cp d ts'.
Proof. intros [H1 H2 H3 H4 H5 H6] [S1 S2 S3 S4]. split; try done. intros p Hp. by apply H3, S3. Qed.

Lemma timer_perm nl twp twr ts ts' : timerI nl twp twr ts -> ts ≡ₚ ts' -> timerI nl twp twr ts'.
Proof. intros [H1 H2] H. split; [done|]. intros q Hq. rewrite <- H. by apply H2. Qed.

Lemma timer_cons nl twp twr ts t : timerI nl twp twr ts -> timerI nl twp twr (t :: ts).
Proof. intros [H1 H2]. split; [done|]. intros q Hq. right. by apply H2. Qed.

(** A thread that goes on to [t']: the timer's thread stays the timer's. *)
Lemma timer_head nl twp twr ts t t' : timerI nl twp twr (t :: ts) -> (forall q, timer_task q t = true -> timer_task q t' = true) -> timerI nl twp twr (t' :: ts).
Proof. intros [H1 H2] H. split; [done|]. intros q Hq. destruct (proj1 (Exists_cons _ _ _) (H2 q Hq)) as [?|?]; [left; auto|by right]. Qed.

Lemma timer_drop nl twp twr ts t : timerI nl twp twr (t :: ts) -> (forall q, timer_task q t = false) -> timerI nl twp twr ts.
Proof. intros [H1 H2] H. split; [done|]. intros q Hq. destruct (proj1 (Exists_cons _ _ _) (H2 q Hq)) as [E|?]; [by rewrite H in E|done]. Qed.

Lemma inv_perm m ts ts' s : inv m ts s -> ts ≡ₚ ts' -> inv m ts' s.
Proof.
  intros [H1 H2 H3 H4 H5 H6 H7 H8 H9] H. pose proof (ts_perm _ _ H). split; try done.
  - eapply stage_same; [exact H1|]. by apply holders_ts.
  - by eapply clients_ts.
  - by eapply works_ts.
  - by eapply timer_perm.
  - by rewrite <- H.
Qed.

(** ** Steps on one query *)

Definition same_refs (s s' : sa) : Prop :=
  ids s' = ids s /\ ahs s' = ahs s /\ ports s' = ports s /\ clients s' = clients s /\ registered s' = registered s /\
  upd_pending s' = upd_pending s /\ cpi_pending s' = cpi_pending s /\ dev s' = dev s.

Lemma inv_set m ts s q g g' x x' rest ts' s' :
  inv m ts s -> heap s !! q = Some x ->
  holders (nl_list s) (posted s) ts ≡ₚ (q, g) :: rest -> holders (nl_list s') (posted s') ts' ≡ₚ (q, g') :: rest ->
  heap s' = <[q := x']> (heap s) -> keeps x x' -> stage_ok g' x' -> same_refs s s' -> ts_step ts ts' ->
  timerI (nl_list s') (tw_pending s') (tw_run s') ts' -> Forall note_ok (notes s') -> inv (<[q := g']> m) ts' s'.
Proof.
  intros [H1 H2 H3 H4 H5 H6 H7 H8 H9] Hq HH HH' Eh HK HO (E1 & E2 & E3 & E4 & E5 & E6 & E7 & E8) HT Ht Hn.
  unfold inv. rewrite Eh, E1, E2, E3, E4, E5, E6, E7, E8. split; try done.
  - by eapply stage_move.
  - by apply (ids_keep Hq), HK.
  - by apply (ahs_keep Hq), HK.
  - eapply clients_ts; [|done]. by apply (clients_keep Hq), HK.
  - by apply (ports_keep Hq); apply HK || done.
  - by eapply works_ts.
  - by apply HT.
Qed.

(** The end of a query: it leaves the heap, its references are given up. *)
Lemma inv_free m ts s q g x ts' s' :
  inv m ts s -> heap s !! q = Some x ->
  holders (nl_list s) (posted s) ts ≡ₚ (q, g) :: holders (nl_list s') (posted s') ts' ->
  heap s' = delete q (heap s) -> ids s' = match q_id x with Some k => delete k (ids s) | None => ids s end ->
  ahsI (ahs s') (delete q (heap s)) (ports s) -> clientsI (clients s') (registered s) (delete q (heap s)) ts ->
  ports s' = ports s -> registered s' = registered s -> upd_pending s' = upd_pending s -> cpi_pending s' = cpi_pending s -> dev s' = dev s ->
  ts_step ts ts' -> timerI (nl_list s') (tw_pending s') (tw_run s') ts' -> Forall note_ok (notes s') -> inv (delete q m) ts' s'.
Proof.
  intros [H1 H2 H3 H4 H5 H6 H7 H8 H9] Hq HH Eh Ei Ha Hc E3 E5 E6 E7 E8 HT Ht Hn.
  unfold inv. rewrite Eh, Ei, E3, E5, E6, E7, E8. split; try done.
  - by eapply stage_drop.
  - by apply (ids_drop Hq).
  - by eapply clients_ts.
  - by apply ports_drop.
  - by eapply works_ts.
  - by apply HT.
Qed.

(** A step that only changes threads and what no part of the invariant but the timer's looks at. *)
Lemma inv_same m ts s ts' s' :
  inv m ts s -> heap s' = heap s -> holders (nl_list s') (posted s') ts' ≡ₚ holders (nl_list s) (posted s) ts -> same_refs s s' -> ts_step ts ts' ->
  timerI (nl_list s') (tw_pending s') (tw_run s') ts' -> Forall note_ok (notes s') -> inv m ts' s'.
Proof.
  intros [H1 H2 H3 H4 H5 H6 H7 H8 H9] Eh HH (E1 & E2 & E3 & E4 & E5 & E6 & E7 & E8) HT Ht Hn.
  unfold inv. rewrite Eh, E1, E2, E3, E4, E5, E6, E7, E8. split; try done.
  - by eapply stage_same.
  - by eapply clients_ts.
  - by eapply works_ts.
  - by apply HT.
Qed.

Lemma inv_note m ts s n : inv m ts s -> note_ok n -> inv m ts (with_note n s).
Proof. intros HI Hn. eapply inv_same; [exact HI|done|done|done|apply ts_refl|apply HI|]. cbn. apply Forall_app_2; [apply HI|by constructor]. Qed.

(** A change of the ports that leaves their handles. *)
Lemma inv_ports m ts s ps cp :
  inv m ts s -> portsI (heap s) ps -> tally p_refs ps = tally p_refs (ports s) -> worksI ps (upd_pending s) cp (dev s) ts ->
  inv m ts (with_cpi_pending cp (with_ports ps s)).
Proof.
  intros [H1 H2 H3 H4 H5 H6 H7 H8 H9] Hp Ht Hw. split; try done. cbn [ahs heap ports with_cpi_pending with_ports]. unfold ahsI. by rewrite Ht.
Qed.

(** One port. *)
Lemma ports_set h ps k p p' : portsI h ps -> ps !! k = Some p ->
  (p_run p' = p_run p \/ forall q x, h !! q = Some x -> asks x = true -> q_port x <> k) -> portsI h (<[k := p']> ps).
Proof.
  intros [H1 H2 H3] Hk Hr. split; [| |done].
  - intros q x Hq. destruct (decide (q_port x = k)) as [->|]; [by rewrite lookup_insert_eq|rewrite lookup_insert_ne by done; eauto].
  - intros q x p0 Hq Ha. destruct (decide (q_port x = k)) as [Ek|]; [|rewrite lookup_insert_ne by done; eauto].
    rewrite Ek, lookup_insert_eq. intros [= <-]. destruct Hr as [Hr|Hr]; [|by destruct (Hr q x)]. rewrite Hr. eapply H2; [done..|]. by rewrite Ek.
Qed.

Lemma retry_less cp cp' k p : retry_ok cp k p -> (k ∈ cp' -> k ∈ cp) -> retry_ok cp' k p.
Proof. intros (R1 & R2 & R3) H. unfold retry_ok. naive_solver. Qed.

Lemma retry_keep cp k p p' : retry_ok cp k p -> cp_retry_cnt (p_cpi p') = cp_retry_cnt (p_cpi p) -> (p_run p' <> CR_no -> p_run p <> CR_no) -> retry_ok cp k p'.
Proof. intros (R1 & R2 & R3) E H. unfold retry_ok. rewrite E. naive_solver. Qed.

Lemma works_set ps up cp d ts k p p' cp' : worksI ps up cp d ts -> ps !! k = Some p -> cp' ⊆ {[k]} ∪ cp -> cp ∖ {[k]} ⊆ cp' ->
  retry_ok cp' k p' ->
  worksI (<[k := p']> ps) up cp' d ts.
Proof.
  intros [H1 H2 H3 H4 H5 H6] Hk Hc1 Hc2 Hr. assert (dom (<[k := p']> ps) = dom ps) as Hd by (rewrite dom_insert_L; apply elem_of_dom_2 in Hk; set_solver).
  split; rewrite ?Hd; try done.
  - apply elem_of_dom_2 in Hk. set_solver.
  - intros q Hq. destruct (H3 q Hq) as [Hs ->]. split; [|done]. destruct (decide (q = k)) as [->|]; [by rewrite lookup_insert_eq|by rewrite lookup_insert_ne].
  - intros Ed. specialize (H5 Ed). subst ps. by rewrite lookup_empty in Hk.
  - intros k' p0. destruct (decide (k' = k)) as [->|Hne]; [rewrite lookup_insert_eq; by intros [= <-]|rewrite lookup_insert_ne by done].
    intros Hp0. apply (retry_less cp); [by apply H6|]. set_solver.
Qed.

Lemma refs_set (ps : gmap Z ib_sa_port) k p p' : ps !! k = Some p -> p_sm_ah p' = p_sm_ah p -> tally p_refs (<[k := p']> ps) = tally p_refs ps.
Proof. intros Hk E. eapply tally_same; [done|]. unfold p_refs. by rewrite E. Qed.
End rule.
