(* ===== verification/SaSteps.v ===== *)
(** * Queries of subnet administration: the steps keep the invariant *)

From Stdlib Require Import ZArith Lia.
From stdpp Require Import base tactics numbers list option gmap gmultiset.
From S2P Require Import Prelude Packer UdHeader SaRec Outcome SaQuery SaInv.

Local Open Scope Z_scope.

(** A step that does not run into a bug keeps the invariant. *)
Definition good {W : attr_rule} (o : outcome sa) : Prop :=
  match o with Ok s => exists m, inv m (tasks s) s | Bug => False | Block => True end.

Section steps.
Context (HZ : Z) {rule : attr_rule}.

(** ** Threads *)

(** Side conditions of a thread that goes on. *)
Ltac next_task := apply ts_head; [done|first [done|apply list_subseteq_nil]|first [done|apply list_subseteq_nil]|done].

Lemma taken m t s : inv m (tasks s) s -> t ∈ tasks s -> inv m (t :: remove_first t (tasks s)) (with_tasks (remove_first t (tasks s)) s).
Proof. intros HI Ht. apply (inv_perm m (tasks s)); [exact HI|]. by apply remove_first_perm. Qed.

Lemma sa_take_good t s f m : inv m (tasks s) s -> (forall s1, inv m (t :: tasks s1) s1 -> good (f s1)) -> good (take_task t s ≫= f).
Proof. intros HI Hf. unfold take_task. case_decide as Ht; [|done]. apply Hf. by apply taken. Qed.

Lemma added m t s : inv m (t :: tasks s) s -> good (Ok (add_task t s)).
Proof. intros HI. exists m. apply (inv_perm m (t :: tasks s)); [exact HI|]. cbn. apply Permutation_cons_append. Qed.

(** A query a thread has. *)
Lemma running m t ts s q g : inv m (t :: ts) s -> task_holds t = [(q, g)] ->
  exists x, heap s !! q = Some x /\ stage_ok g x /\ holders (nl_list s) (posted s) (t :: ts) ≡ₚ (q, g) :: holders (nl_list s) (posted s) ts.
Proof.
  intros HI Et. assert (holders (nl_list s) (posted s) (t :: ts) ≡ₚ (q, g) :: holders (nl_list s) (posted s) ts) as HP by (by rewrite holders_task, Et).
  destruct (stage_get (i_stages HI) q g) as (_ & x & Hx & HO); [rewrite HP; left|]. eauto.
Qed.

(** The thread goes on with the query. *)
Lemma inv_next m t t' s q g g' x x' s' : inv m (t :: tasks s) s -> task_holds t = [(q, g)] -> task_holds t' = [(q, g')] -> heap s !! q = Some x ->
  keeps x x' -> stage_ok g' x' -> task_waits t = [] -> task_waits t' = [] -> task_client t' ⊆ task_client t -> task_events t' = [] -> task_ok t' ->
  (forall q, timer_task q t = true -> timer_task q t' = true) ->
  heap s' = <[q := x']> (heap s) -> tasks s' = tasks s -> same_refs s s' -> nl_list s' = nl_list s -> posted s' = posted s -> tw_pending s' = tw_pending s -> tw_run s' = tw_run s ->
  notes s' = notes s -> good (Ok (add_task t' s')).
Proof.
  intros HI Et Et' Hq HK HO W W' C E T TT Eh Ets Hs En Ep E1 E2 E3. apply (added (<[q := g']> m)). rewrite Ets.
  eapply (inv_set m (t :: tasks s) s q g g' x x' (holders (nl_list s) (posted s) (tasks s))); try done.
  - by rewrite holders_task, Et.
  - rewrite holders_task, Et', En, Ep. done.
  - apply ts_head; [by rewrite W, W'|done|rewrite E; set_solver|done].
  - rewrite En, E1, E2. eapply timer_head; [apply HI|done].
  - rewrite E3. apply HI.
Qed.

(** ** Giving up references *)

Lemma put_client_ok m ts s q x : inv m ts s -> heap s !! q = Some x ->
  exists cl, clientsI cl (registered s) (delete q (heap s)) ts /\ forall s0, clients s0 = clients s -> put_client x s0 = Ok (with_clients cl s0).
Proof.
  intros HI Hq. unfold put_client. destruct (q_client x) as [c|] eqn:E.
  - destruct (clients_drop Hq _ _ _ c (i_clients HI) E) as (n & Hc & Hn & HC). eexists. split; [exact HC|]. intros s0 E0. unfold ib_sa_client_put. rewrite E0, Hc. cbn.
    by rewrite (proj2 (Z.leb_gt _ _)) by lia.
  - exists (clients s). split; [by eapply (clients_drop_none Hq); [apply HI|]|]. intros s0 E0. rewrite <- E0. done.
Qed.

Lemma put_ah_ok m ts s q x k : inv m ts s -> heap s !! q = Some x -> q_sm_ah x = Some k ->
  exists a, ahsI a (delete q (heap s)) (ports s) /\ forall s0, ahs s0 = ahs s -> kref_put_ah k s0 = Ok (with_ahs a s0).
Proof.
  intros HI Hq E. destruct (ahs_drop Hq _ _ k (i_ahs HI) E) as (y & Hy & Hr & HA). eexists. split; [exact HA|].
  intros s0 E0. unfold kref_put_ah. rewrite E0, Hy. cbn. by rewrite (proj2 (Z.leb_gt _ _)) by lia.
Qed.

Lemma free_mad_ok m ts s q g x : inv m ts s -> heap s !! q = Some x -> stage_ok g x -> has_ah g = true ->
  exists a, ahsI a (delete q (heap s)) (ports s) /\ forall s0, ahs s0 = ahs s -> free_mad x s0 = Ok (with_ahs a s0).
Proof.
  intros HI Hq HO Hg. pose proof (so_ah _ _ HO) as E. rewrite Hg in E. apply bool_decide_eq_true in E as [k Ek].
  destruct (put_ah_ok m ts s q x k HI Hq Ek) as (a & HA & HP). exists a. split; [done|]. intros s0 E0. unfold free_mad. rewrite Ek. by apply HP.
Qed.

(** ** The end of a start function *)

Lemma returns_note x ret s : (forall b, q_kind x <> K_classport b) -> returns x ret s = Ok (with_note (N_ret ret) s).
Proof. intros H. unfold returns. destruct (q_kind x) as [| | |b]; try done. by destruct (H b). Qed.

(** An error: the thread of [update_ib_cpi], if it is that one, goes on to its end. *)
Lemma returns_err m ts s x ret : inv m ts s -> is_Some (ports s !! q_port x) -> tasks s = ts ->
  (forall b q y, q_kind x = K_classport b -> heap s !! q = Some y -> asks y = true -> q_port y <> q_port x) ->
  (forall b p, q_kind x = K_classport b -> ports s !! q_port x = Some p -> p_run p = CR_ask false) -> ret < 0 -> good (returns x ret s).
Proof.
  intros HI [p Hp] <- Hn Hr Hret. destruct (q_kind x) as [| | |b] eqn:E; [rewrite returns_note by congruence; exists m; by apply inv_note..|].
  unfold returns. rewrite E, (proj2 (Z.ltb_lt _ _)), Hp by lia. exists m.
  enough (inv m (tasks s) (with_cpi_pending (cpi_pending s) (with_ports (<[q_port x := set_p_run CR_end p]> (ports s)) s))) as H by exact H.
  apply inv_ports; [done|..].
  - eapply ports_set; [apply HI|done|]. right. intros q y Hq. by eapply Hn.
  - by eapply refs_set.
  - eapply works_set; [apply HI|done|set_solver|set_solver|]. eapply retry_keep; [by apply (wi_retry _ _ _ _ _ (i_works HI) _ _ Hp)|done|]. by rewrite (Hr b p).
Qed.

(** Freeing a query that was not sent; [i], [a] and [cl] are without its references. *)
Lemma err1_good m t s q g x ret i a cl : inv m (t :: tasks s) s -> task_holds t = [(q, g)] -> task_waits t = [] -> (forall q, timer_task q t = false) ->
  heap s !! q = Some x -> stage_ok g x -> q_calls x = [] -> ret < 0 ->
  i = match q_id x with Some k => delete k (ids s) | None => ids s end -> ahsI a (delete q (heap s)) (ports s) ->
  clientsI cl (registered s) (delete q (heap s)) (t :: tasks s) -> good (err1 q x ret (with_ids i (with_ahs a (with_clients cl s)))).
Proof.
  intros HI Et Hw Htt Hq HO Hc Hret -> HA HC. unfold err1.
  assert (inv (delete q m) (tasks s) (with_note (N_failed x) (kfree q (with_ids (match q_id x with Some k => delete k (ids s) | None => ids s end) (with_ahs a (with_clients cl s)))))) as HI'.
  { apply inv_note; [|done]. eapply (inv_free m (t :: tasks s) s q g x); try done.
    - by rewrite holders_task, Et.
    - by apply ts_drop.
    - by eapply timer_drop; [apply HI|].
    - apply HI. }
  assert (forall b, q_kind x = K_classport b -> asks x = true) as Hask by (intros b E; unfold asks; by rewrite E, bool_decide_eq_true_2).
  eapply returns_err; [exact HI'|by eapply (pi_port _ _ (i_ports HI))|done| | |done].
  - intros b q' y E Hy Hy' Ep. cbn in Hy, Ep. apply lookup_delete_Some in Hy as [Hne Hy]. apply Hne. symmetry. eapply (pi_one _ _ (i_ports HI)); eauto.
  - intros b p E Hp. eapply (pi_ask _ _ (i_ports HI)); eauto.
Qed.

(** The start function of [t] fails with its references. *)
Lemma err3_good m t s q g x ret i : inv m (t :: tasks s) s -> task_holds t = [(q, g)] -> task_waits t = [] -> (forall q, timer_task q t = false) ->
  heap s !! q = Some x -> stage_ok g x -> has_ah g = true -> q_calls x = [] -> ret < 0 ->
  i = match q_id x with Some k => delete k (ids s) | None => ids s end -> good (err3 q x ret (with_ids i s)).
Proof.
  intros HI Et Hw Htt Hq HO Hg Hc Hret Ei. destruct (put_client_ok _ _ _ _ _ HI Hq) as (cl & HC & EC). destruct (free_mad_ok _ _ _ _ _ _ HI Hq HO Hg) as (a & HA & EA).
  unfold err3. rewrite EC by done. cbn [mbind outcome_bind obind]. rewrite EA by done. cbn [mbind outcome_bind obind].
  eapply (err1_good m t s q g x ret i a cl); done.
Qed.

(** ** The start functions *)

Lemma sa_alloc_good m s q c : inv m (T_alloc q c :: tasks s) s -> good (alloc_mad q c s).
Proof.
  intros HI. destruct (running _ _ _ _ q G_alloc HI eq_refl) as (x & Hq & HO & HP). unfold alloc_mad. rewrite Hq. cbn [mbind outcome_bind obind the].
  destruct (pi_port _ _ (i_ports HI) q x Hq) as [p Hp]. rewrite Hp. cbn [mbind outcome_bind obind the].
  pose proof (so_ah _ _ HO) as Ea. apply bool_decide_eq_false, eq_None_not_Some in Ea. pose proof (so_id _ _ HO) as Ei. apply bool_decide_eq_false, eq_None_not_Some in Ei.
  destruct (so_data _ _ HO) as [Hrec Ec]. pose proof (so_calls _ _ HO) as El. apply length_zero_iff_nil in El. destruct (p_sm_ah p) as [a|] eqn:Eap.
  - pose proof (i_ahs HI a) as HA. assert (0 < multiplicity a (tally q_refs (heap s) ⊎ tally p_refs (ports s)))%nat as Hm.
    { change (a ∈ tally q_refs (heap s) ⊎ tally p_refs (ports s)). apply gmultiset_elem_of_disj_union. right. eapply tally_in; [exact Hp|]. unfold p_refs. rewrite Eap. cbn. multiset_solver. }
    destruct (ahs s !! a) as [y|] eqn:Ey; [|lia]. cbn [mbind outcome_bind obind the]. destruct HA as [A1 A2].
    apply (added (<[q := G_create]> m)). destruct HI as [H1 H2 H3 H4 H5 H6 H7 H8 H9]. split; try done; cbn.
    + eapply (stage_move H1 q G_alloc G_create); [exact HP|by rewrite holders_task|]. destruct HO as [O1 O2 O3 O4 O5 O6]. by split; cbn.
    + by apply (ids_keep Hq).
    + intros k. specialize (H3 k). rewrite multiplicity_disj_union in *. rewrite (tally_set q_refs (heap s) q x), multiplicity_disj_union by done. rewrite (tally_drop Hq q_refs) in *.
      unfold q_refs at 1 3 in H3. unfold q_refs at 1 3. cbn [q_sm_ah set_sm_ah]. rewrite Ea in H3. rewrite !one_mult in *.
      destruct (decide (a = k)) as [<-|Hne].
      * rewrite lookup_insert_eq. rewrite Ey in H3. cbn [ah_ref set_ref]. rewrite decide_True by done. rewrite decide_False in H3 by done. lia.
      * rewrite lookup_insert_ne by done. rewrite (decide_False (P := Some a = Some k)) by congruence. rewrite decide_False in H3 by done. exact H3.
    + eapply (clients_ts _ _ _ (T_alloc q c :: tasks s)); [|next_task]. by apply (clients_keep Hq).
    + by apply (ports_keep Hq).
    + eapply works_ts; [exact H6|next_task].
    + by eapply timer_head.
    + apply list.Forall_cons in H8 as [_ H8]. by constructor.
  - apply (err1_good m (T_alloc q c) s q G_alloc x (err EAGAIN) (ids s) (ahs s) (clients s)); try done.
    + by rewrite Ei.
    + by eapply (ahs_drop_none Hq); [apply HI|].
    + by eapply (clients_drop_none Hq); [apply HI|].
Qed.

(** The attribute of a request can be packed. *)
Lemma request_data_ok x : rec_good x -> exists data rec, request_data x = Some data /\ attr_ok data /\ request_context x = Some rec.
Proof.
  intros Hr. assert (forall t slen blen s, (t, (slen, blen)) ∈ sa_records -> length s = slen -> bytes_ok s ->
    exists data, ib_pack t s (replicate IB_MGMT_SA_DATA 0) = Some data /\ attr_ok data) as Hp.
  { intros t slen blen s Ht Hl Hb. destruct (sa_pack t slen blen s Ht Hl Hb) as (data & E & L & B & _). exists data. by split; [|split]. }
  unfold request_data, request_context, rec_good in *. destruct (q_kind x) as [[]| | |b].
  - destruct Hr as [L B]. destruct (Hp path_rec_table PATH_BYTES 64%nat (q_rec x)) as (data & E & HA); [a_record|done..|]. exists data, (q_rec x). done.
  - destruct Hr as [L B]. destruct (Hp opa_path_rec_table PATH_BYTES 64%nat (q_rec x)) as (data & E & HA); [a_record|done..|]. exists data, (q_rec x). done.
  - destruct (conv_opa_to_ib (q_rec x) Hr) as (ib & d & l & E & A). destruct (ai_rec _ _ _ _ A) as [L B].
    destruct (Hp path_rec_table PATH_BYTES 64%nat ib) as (data & Ed & HA); [a_record|done..|]. exists data, ib. split; [|done].
    unfold path_rec_request, sa_convert_path_opa_to_ib. rewrite decide_True by done. cbn [pr_mem]. rewrite E. exact Ed.
  - destruct Hr as [L B]. destruct (Hp mcmember_rec_table (sizeof ib_sa_mcmember_rec) 52%nat (q_rec x)) as (data & E & HA); [a_record|done..|]. by exists data, (q_rec x).
  - destruct Hr as [L B]. destruct (Hp guidinfo_rec_table (sizeof ib_sa_guidinfo_rec) 72%nat (q_rec x)) as (data & E & HA); [a_record|done..|]. by exists data, (q_rec x).
  - eexists _, _. split; [done|]. split; [|done]. split; [apply length_replicate|apply zeros_bytes].
Qed.

Lemma clients_take h q x x' cl reg ts c n : h !! q = Some x -> clientsI cl reg h ts -> q_client x = None -> q_client x' = Some c -> cl !! c = Some n ->
  clientsI (<[c := n + 1]> cl) reg (<[q := x']> h) ts.
Proof.
  intros Hq [H1 H2 H3 H4] E E' Hc. split; [|done| |done].
  - intros b. specialize (H1 b). rewrite (tally_set q_clients h q x), multiplicity_disj_union by done. rewrite (tally_drop Hq q_clients) in H1.
    unfold q_clients at 1 3 in H1. unfold q_clients at 1 3. rewrite E' in *. rewrite E in H1. rewrite !one_mult in *. rewrite decide_False in H1 by done.
    destruct (decide (c = b)) as [<-|Hne].
    + rewrite lookup_insert_eq. rewrite Hc in H1. rewrite decide_True by done. lia.
    + rewrite lookup_insert_ne by done. by rewrite (decide_False (P := Some c = Some b)) by congruence.
  - intros b [? ?]%H3. split; [done|]. destruct (decide (c = b)) as [<-|]; [by rewrite lookup_insert_eq|by rewrite lookup_insert_ne].
Qed.

(** The handle of a query is there. *)
Lemma query_ah m ts s q x k : inv m ts s -> heap s !! q = Some x -> q_sm_ah x = Some k -> is_Some (ahs s !! k).
Proof.
  intros HI Hq E. pose proof (i_ahs HI k) as H. destruct (ahs s !! k) eqn:Ek; [done|]. exfalso.
  rewrite multiplicity_disj_union, (tally_drop Hq q_refs) in H. unfold q_refs at 1 in H. rewrite E, one_mult, decide_True in H by done. lia.
Qed.

Lemma sa_create_good m s q c query_ok mad_ok : inv m (T_create q c :: tasks s) s -> good (sa_create q c query_ok mad_ok s).
Proof.
  intros HI. destruct (running _ _ _ _ q G_create HI eq_refl) as (x & Hq & HO & HP). unfold sa_create. rewrite Hq. cbn [mbind outcome_bind obind the].
  pose proof (so_ah _ _ HO) as Ea. apply bool_decide_eq_true in Ea as [k Ek]. pose proof (so_id _ _ HO) as Ei. apply bool_decide_eq_false, eq_None_not_Some in Ei.
  destruct (so_data _ _ HO) as [Hrec Ec]. pose proof (so_calls _ _ HO) as El. apply length_zero_iff_nil in El.
  rewrite Ek. cbn [mbind outcome_bind obind the]. destruct (query_ah _ _ _ _ _ _ HI Hq Ek) as [h Hh]. rewrite Hh. cbn [mbind outcome_bind obind the].
  assert (forall e, 0 < e -> good (s ← kref_put_ah k s; err1 q x (err e) s)) as Hfail.
  { intros e He. destruct (put_ah_ok _ _ _ _ _ _ HI Hq Ek) as (a & HA & EA). rewrite EA by done. cbn [mbind outcome_bind obind].
    apply (err1_good m (T_create q c) s q G_create x (err e) (ids s) a (clients s)); try done; [unfold err; lia|by rewrite Ei|].
    by eapply (clients_drop_none Hq); [apply HI|]. }
  destruct (query_ok && rdma_is_valid_unicast_lid (ah_attr h)); cbn [negb]; [|by apply Hfail]. destruct mad_ok; cbn [negb]; [|by apply Hfail].
  destruct (request_data_ok x Hrec) as (data & rec & Ed & HA & Er).
  set (x' := set_client c (set_data data (set_rec rec (set_tid (tid s) (set_local (match q_kind x with K_path _ => true | _ => false end) x))))).
  assert (stage_ok G_send x') as HO' by (destruct HO as [O1 O2 O3 O4 O5 O6]; by split).
  assert (exists cl, (match c with Some c => ib_sa_client_get c s | None => Ok s end) = Ok (with_clients cl s) /\ clientsI cl (registered s) (<[q := x']> (heap s)) (T_create q c :: tasks s))
    as (cl & Ecl & HC).
  { destruct c as [c|]; [|exists (clients s); split; [done|by eapply (clients_keep Hq); [apply HI|]]].
    assert (c ∈ registered s) as Hc by (apply (ci_start _ _ _ _ (i_clients HI)); cbn; set_solver). pose proof (ci_count _ _ _ _ (i_clients HI) c) as HN.
    unfold ib_sa_client_get. destruct (clients s !! c) as [n|] eqn:En; [|naive_solver]. eexists. split; [done|]. by eapply clients_take; [done|apply HI|..]. }
  rewrite Ecl. cbn [mbind outcome_bind obind]. rewrite Ed, Er. cbn [mbind outcome_bind obind the].
  apply (added (<[q := G_send]> m)). destruct HI as [H1 H2 H3 H4 H5 H6 H7 H8 H9]. split; try done; cbn.
  - eapply (stage_move H1 q G_create G_send); [exact HP|by rewrite holders_task|done].
  - by apply (ids_keep Hq).
  - by apply (ahs_keep Hq).
  - eapply clients_ts; [exact HC|next_task].
  - by apply (ports_keep Hq).
  - eapply works_ts; [exact H6|next_task].
  - by eapply timer_head.
  - apply list.Forall_cons in H8 as [_ H8]. by constructor.
Qed.

Lemma ids_take h q x x' i k : h !! q = Some x -> idsI i h -> q_id x = None -> q_id x' = Some k -> i !! k = None -> idsI (<[k := q]> i) (<[q := x']> h).
Proof.
  intros Hq HI E E' Hk b q'. destruct (decide (q' = q)) as [->|Hne].
  - rewrite lookup_insert_eq. split.
    + destruct (decide (b = k)) as [->|]; [by eauto|rewrite lookup_insert_ne by done]. intros Hb. by destruct (ids_none Hq i b HI E).
    + intros (y & [= <-] & Hb). assert (b = k) as -> by congruence. by rewrite lookup_insert_eq.
  - rewrite (lookup_insert_ne h) by done. destruct (decide (b = k)) as [->|].
    + rewrite lookup_insert_eq. split; [by intros [= ->]|]. intros Hy. apply HI in Hy. congruence.
    + rewrite lookup_insert_ne by done. apply HI.
Qed.

Lemma sa_send_good m s q xa listeners : inv m (T_send q :: tasks s) s -> (match xa with inl ret => ret < 0 | inr id => 0 <= id end) -> good (send_mad q xa listeners s).
Proof.
  intros HI Hxa. destruct (running _ _ _ _ q G_send HI eq_refl) as (x & Hq & HO & HP). unfold send_mad. rewrite Hq. cbn [mbind outcome_bind obind the].
  pose proof (so_id _ _ HO) as Ei. apply bool_decide_eq_false, eq_None_not_Some in Ei. pose proof (so_calls _ _ HO) as El. apply length_zero_iff_nil in El.
  destruct xa as [ret|id]; [apply (err3_good m (T_send q) s q G_send x ret (ids s)); try done; by rewrite Ei|]. case_decide as Hid; [done|]. apply eq_None_not_Some in Hid.
  destruct (send_timeouts (q_timeout_ms x)) as [tmo retries]. set (x1 := set_id (Some id) (set_timeout_ms tmo (set_retries retries x))).
  assert (forall t' x', task_holds t' = [(q, G_id)] -> task_waits t' = [] -> task_client t' = [] -> task_events t' = [] -> task_ok t' -> (x' = x1 \/ x' = set_local false x1) ->
    good (Ok (add_task t' (set_query q x' (with_ids (<[id := q]> (ids s)) s))))) as Hgo.
  { intros t' x' T1 T2 T3 T4 T5 Hx'. apply (added (<[q := G_id]> m)). assert (stage_ok G_id x' /\ q_id x' = Some id /\ q_sm_ah x' = q_sm_ah x /\ q_client x' = q_client x /\ q_port x' = q_port x /\ asks x' = asks x)
      as (HO' & E1 & E2 & E3 & E4 & E5).
    { destruct HO as [O1 O2 O3 O4 O5 O6]. destruct Hx' as [-> | ->]; (split; [split; try done; cbn; by intros i [= <-]|done]). }
    assert (ts_step (T_send q :: tasks s) (t' :: tasks s)) as HT by (apply ts_head; [by rewrite T2|rewrite T3; apply list_subseteq_nil|rewrite T4; apply list_subseteq_nil|done]).
    destruct HI as [H1 H2 H3 H4 H5 H6 H7 H8 H9]. split; try done; cbn.
    - eapply (stage_move H1 q G_send G_id); [exact HP|by rewrite holders_task, T1|done].
    - by eapply ids_take.
    - by apply (ahs_keep Hq).
    - eapply clients_ts; [|exact HT]. by apply (clients_keep Hq).
    - apply (ports_keep Hq); [done|done|by rewrite E5].
    - by eapply works_ts.
    - by eapply timer_head.
    - by apply HT. }
  repeat case_match; apply Hgo; try done; auto.
Qed.

Lemma returns_done m s x ret : inv m (tasks s) s -> 0 <= ret -> good (returns x ret s).
Proof.
  intros HI Hr. unfold returns. destruct (q_kind x); try (by exists m; apply inv_note). rewrite (proj2 (Z.ltb_ge _ _)) by done. by exists m.
Qed.

(** The query of a thread goes to the list or to the MAD layer. *)
Lemma inv_leave m t s q x x' s' : inv m (t :: tasks s) s -> task_holds t = [(q, G_id)] -> task_waits t = [] -> (forall q, timer_task q t = false) ->
  heap s !! q = Some x -> heap s' = <[q := x']> (heap s) -> keeps x x' -> stage_ok G_id x' -> same_refs s s' -> tasks s' = tasks s -> notes s' = notes s ->
  (nl_list s' = nl_list s ++ [q] /\ posted s' = posted s \/ nl_list s' = nl_list s /\ posted s' = posted s ++ [(q, false)]) ->
  (nl_list s' <> [] -> is_Some (tw_pending s') \/ tw_run s' <> TR_no) -> tw_run s' = tw_run s -> inv (<[q := G_id]> m) (tasks s') s'.
Proof.
  intros HI Et Hw Htt Hq Eh HK HO Hs Ets En Hpl Harm Er. rewrite Ets.
  eapply (inv_set m (t :: tasks s) s q G_id G_id x x' (holders (nl_list s) (posted s) (tasks s))); try done.
  - by rewrite holders_task, Et.
  - destruct Hpl as [[-> ->]|[-> ->]].
    + etrans; [apply holders_nl_perm; symmetry; apply Permutation_cons_append|by rewrite holders_nl].
    + etrans; [apply holders_po_perm; symmetry; apply Permutation_cons_append|by rewrite holders_po].
  - by apply ts_drop.
  - split; [done|]. rewrite Er. eapply (ti_wait _ _ _ _ (timer_drop _ _ _ _ _ (i_timer HI) Htt)).
  - rewrite En. apply HI.
Qed.

Lemma nl_good m s q skb sent : inv m (T_nl q :: tasks s) s -> good (nl_request HZ q skb sent s).
Proof.
  intros HI. destruct (running _ _ _ _ q G_id HI eq_refl) as (x & Hq & HO & HP). unfold nl_request. rewrite Hq. cbn [mbind outcome_bind obind the].
  pose proof (so_id _ _ HO) as Ei. apply bool_decide_eq_true in Ei as [id Ei]. rewrite Ei. cbn [mbind outcome_bind obind the].
  set (x1 := set_seq _ x). destruct (_ || _).
  - eapply (inv_next m (T_nl q) (T_post q) s q G_id G_id x (set_local false x1)); try done. { destruct HO as [O1 O2 O3 O4 O5 O6]; by split. }
  - set (x2 := set_rec [] (set_path_use _ x1)). destruct (negb (sent =? 0)).
    + eapply (inv_next m (T_nl q) (T_post q) s q G_id G_id x (set_local false x2)); try done. { destruct HO as [O1 O2 O3 O4 O5 O6]; by split. }
    + set (s1 := with_nl_list _ _). set (s2 := if bool_decide _ then _ else _).
      assert (heap s2 = heap s1 /\ same_refs s s2 /\ nl_list s2 = nl_list s ++ [q] /\ posted s2 = posted s /\ tasks s2 = tasks s /\ notes s2 = notes s /\ tw_run s2 = tw_run s /\
        (is_Some (tw_pending s2) \/ tw_run s2 <> TR_no)) as (E1 & E2 & E3 & E4 & E5 & E6 & E7 & E8).
      { unfold s2, queue_timed_work. case_bool_decide as Hl.
        - destruct (tw_pending s1) eqn:Ep; cbn; split_and!; try done; eauto.
        - split_and!; try done. apply (ti_armed _ _ _ _ (i_timer HI)). exact Hl. }
      eapply (returns_done (<[q := G_id]> m)); [|by apply (so_nonneg _ _ HO)].
      eapply (inv_leave m (T_nl q) s q x (set_timeout (msecs_to_jiffies HZ (svc_timeout_ms s) + jiffies s) x2)); try done; [|by left].
      destruct HO as [O1 O2 O3 O4 O5 O6]; by split.
Qed.

Lemma post_good m s q ret : inv m (T_post q :: tasks s) s -> ret <= 0 -> good (sa_post q ret s).
Proof.
  intros HI Hret. destruct (running _ _ _ _ q G_id HI eq_refl) as (x & Hq & HO & HP). unfold sa_post. rewrite Hq. cbn [mbind outcome_bind obind the].
  pose proof (so_id _ _ HO) as Ei. apply bool_decide_eq_true in Ei as [id Ei]. rewrite Ei. cbn [mbind outcome_bind obind the].
  unfold ib_post_send_mad. destruct (pi_port _ _ (i_ports HI) q x Hq) as [p Hp]. rewrite Hp. cbn [mbind outcome_bind obind the].
  destruct (Z.eqb_spec ret 0); cbn [mbind outcome_bind obind the].
  - eapply (returns_done (<[q := G_id]> m)); [|by apply (so_nonneg _ _ HO)]. eapply (inv_leave m (T_post q) s q x x); try done; [by rewrite insert_id|by right|].
    intros Hn. by apply (ti_armed _ _ _ _ (i_timer HI)).
  - unfold xa_erase. rewrite Ei. cbn [mbind outcome_bind obind the]. pose proof (so_calls _ _ HO) as El. apply length_zero_iff_nil in El.
    apply (err3_good m (T_post q) s q G_id x ret (delete id (ids s))); try done; [lia|by rewrite Ei].
Qed.

(** ** Reports *)

(** The client of the query has its report: the query and the ports after it. *)
Record reported (q : positive) (x : ib_sa_query) (s : sa) (x' : ib_sa_query) (ps : gmap Z ib_sa_port) : Prop := {
  r_stage : stage_ok G_called x';
  r_keeps : keeps x x';
  r_ports : portsI (<[q := x']> (heap s)) ps;
  r_refs : tally p_refs ps = tally p_refs (ports s);
  r_works up cp d ts : worksI (ports s) up cp d ts -> worksI ps up cp d ts
}.

Lemma called_ok x c : stage_ok G_id x -> q_callback x = true -> stage_ok G_called (set_calls (q_calls x ++ [c]) x).
Proof.
  intros [O1 O2 O3 O4 O5 O6] E. split; try done. cbn [q_calls set_calls]. unfold reports. cbn [q_callback set_calls]. rewrite E, length_app, O4. done.
Qed.

(** A query that is called asks no more. *)
Lemma called_keeps x c : keeps x (set_calls (q_calls x ++ [c]) x).
Proof.
  split; try done. unfold asks. cbn. destruct (q_kind x); try done. rewrite bool_decide_eq_false_2; [done|]. by intros [_ ?]%app_nil.
Qed.

Lemma silent_reported q x s : heap s !! q = Some x -> stage_ok G_id x -> q_callback x = false -> portsI (heap s) (ports s) -> reported q x s x (ports s).
Proof.
  intros Hq [O1 O2 O3 O4 O5 O6] E Hp. split; try done.
  - split; try done. by rewrite O4; unfold reports; rewrite E.
  - by rewrite insert_id.
Qed.

Lemma log_reported q x s c : heap s !! q = Some x -> stage_ok G_id x -> q_callback x = true -> portsI (heap s) (ports s) ->
  reported q x s (set_calls (q_calls x ++ [c]) x) (ports s).
Proof.
  intros Hq HO E Hp. split; try done; [by apply called_ok|apply called_keeps|]. apply (ports_keep Hq); [done|done|apply (called_keeps x c)].
Qed.

Lemma callback_reported q x s status mad : heap s !! q = Some x -> stage_ok G_id x -> q_callback x = true -> portsI (heap s) (ports s) ->
  (forall data, mad = Some data -> attr_ok data) -> exists x' ps, query_callback q status mad s = Ok (with_ports ps (set_query q x' s)) /\ reported q x s x' ps.
Proof.
  intros Hq HO E Hp Hd. unfold query_callback. rewrite Hq. cbn [mbind outcome_bind obind the]. destruct (decode_ok (q_kind x) mad Hd) as [a Ea]. rewrite Ea. cbn [mbind outcome_bind obind the].
  set (c := {| c_status := status; c_answer := a |}). pose proof (log_reported q x s c Hq HO E Hp) as HR. destruct (q_kind x) as [| | |opa] eqn:Ek; [eexists _, _; by split..|].
  unfold classport_callback. destruct (pi_port _ _ Hp q x Hq) as [p Ep].
  assert (asks x = true) as Has. { unfold asks. rewrite Ek. apply bool_decide_eq_true. apply length_zero_iff_nil. apply (so_calls _ _ HO). }
  pose proof (pi_ask _ _ Hp q x p Hq Has Ep) as Er. cbn [ports log_call set_query with_heap]. rewrite Ep. cbn [mbind outcome_bind obind the].
  set (p1 := match _ with Some m => _ | None => p end). assert (p_run p1 = CR_ask false /\ p_sm_ah p1 = p_sm_ah p /\ cp_retry_cnt (p_cpi p1) = cp_retry_cnt (p_cpi p)) as (E1 & E2 & E3).
  { unfold p1. by destruct (match a with A_struct _ => _ | _ => None end). }
  rewrite E1. eexists _, _. split; [done|]. destruct HR as [R1 R2 R3 R4 R5]. split; [done|done| | |].
  - eapply ports_set; [exact R3|done|]. right. intros q' y Hy Hay Epy. destruct (decide (q' = q)) as [->|Hne].
    + rewrite lookup_insert_eq in Hy. injection Hy as <-. unfold asks in Hay. cbn in Hay. rewrite Ek in Hay. apply bool_decide_eq_true, app_nil in Hay as [_ ?]. done.
    + rewrite lookup_insert_ne in Hy by done. apply Hne. by eapply (pi_one _ _ Hp).
  - by eapply refs_set.
  - intros up cp d ts HW. eapply works_set; [done|done|set_solver|set_solver|]. eapply retry_keep; [by apply (wi_retry _ _ _ _ _ HW _ _ Ep)|done|]. by rewrite Er.
Qed.

(** The invariant after a report: the query was held by [ts] and is held by [ts'] or the MAD layer. *)
Lemma inv_reported m ts s q x x' ps ts' s' rest : inv m ts s -> heap s !! q = Some x -> reported q x s x' ps ->
  holders (nl_list s) (posted s) ts ≡ₚ (q, G_id) :: rest -> holders (nl_list s') (posted s') ts' ≡ₚ (q, G_called) :: rest ->
  heap s' = <[q := x']> (heap s) -> ports s' = ps -> same_refs s (with_ports (ports s) s') -> ts_step ts ts' ->
  timerI (nl_list s') (tw_pending s') (tw_run s') ts' -> notes s' = notes s -> inv (<[q := G_called]> m) ts' s'.
Proof.
  intros [H1 H2 H3 H4 H5 H6 H7 H8 H9] Hq [R1 R2 R3 R4 R5] HH HH' Eh Eps (E1 & E2 & _ & E4 & E5 & E6 & E7 & E8) HT Ht En. cbn in *.
  unfold inv. rewrite Eh, Eps, E1, E2, E4, E5, E6, E7, E8, En. split; try done.
  - by eapply stage_move.
  - by apply (ids_keep Hq), R2.
  - unfold ahsI. rewrite R4. by apply (ahs_keep Hq), R2.
  - eapply clients_ts; [|done]. by apply (clients_keep Hq), R2.
  - apply R5. by eapply works_ts.
  - by apply HT.
Qed.

(** A thread reports and goes on to the end of [send_handler]. *)
Lemma done_good m t s q x x' ps b : inv m (t :: tasks s) s -> task_holds t = [(q, G_id)] -> task_waits t = [] -> heap s !! q = Some x ->
  (forall q', timer_task q' t = true -> timer_task q' (T_done q b) = true) ->
  reported q x s x' ps -> good (Ok (add_task (T_done q b) (with_ports ps (set_query q x' s)))).
Proof.
  intros HI Et Hw Hq Htt HR. apply (added (<[q := G_called]> m)).
  eapply (inv_reported m (t :: tasks s) s q x x' ps _ _ (holders (nl_list s) (posted s) (tasks s))); try done.
  - by rewrite holders_task, Et.
  - by rewrite holders_task.
  - apply ts_head; [by rewrite Hw|apply list_subseteq_nil..|done].
  - eapply timer_head; [apply HI|done].
Qed.

Lemma sa_handler_good m t s q st b : inv m (t :: tasks s) s -> task_holds t = [(q, G_id)] -> task_waits t = [] ->
  (forall q', timer_task q' t = true -> timer_task q' (T_done q b) = true) -> st <> IB_WC_SUCCESS -> good (send_handler q st b s).
Proof.
  intros HI Et Hw Htt Hst. destruct (running _ _ _ _ q G_id HI Et) as (x & Hq & HO & HP). unfold send_handler. rewrite Hq. cbn [mbind outcome_bind obind the].
  destruct (wc_error st) as [e|] eqn:Ee; [|by destruct st].
  assert (exists x' ps, (if q_callback x then query_callback q e None s else Ok s) = Ok (with_ports ps (set_query q x' s)) /\ reported q x s x' ps) as (x' & ps & E & HR).
  { destruct (q_callback x) eqn:Ec; [apply callback_reported; try done; apply HI|]. exists x, (ports s). split; [|apply silent_reported; try done; apply HI].
    unfold set_query. by rewrite insert_id. }
  rewrite E. cbn [mbind outcome_bind obind]. by eapply (done_good m t s q x x' ps b).
Qed.

(** ** The local service and the MAD layer *)

(** A query of the MAD layer or of the list, in the hands of the thread that takes it. *)
Lemma from_mad m s q (b : bool) : inv m (tasks s) s -> (q, b) ∈ posted s ->
  inv m ((if b then T_done q false else T_post q) :: tasks s) (with_posted (remove_first (q, b) (posted s)) s).
Proof.
  intros HI Hq. pose proof (remove_first_perm _ _ Hq) as HP. eapply inv_same; [exact HI|done| |done| | |apply HI].
  - cbn [posted nl_list with_posted]. rewrite holders_task, (holders_po_perm _ _ _ _ HP), holders_po. by destruct b.
  - apply ts_new; by destruct b.
  - apply timer_cons, HI.
Qed.

Lemma from_list m s q nl : inv m (tasks s) s -> nl_list s ≡ₚ q :: nl -> inv m (T_nl q :: tasks s) (with_nl_list nl s).
Proof.
  intros HI HP. eapply inv_same; [exact HI|done| |done| | |apply HI].
  - cbn [posted nl_list with_nl_list]. by rewrite holders_task, (holders_nl_perm _ _ _ _ HP), holders_nl.
  - by apply ts_new.
  - cbn. apply timer_cons. destruct (i_timer HI) as [A B]. split; [|done]. intros _. apply A. intros E. rewrite E in HP. by apply Permutation_nil_cons in HP.
Qed.

Lemma path_rec_ok path_rec : length path_rec = 64%nat -> exists p, ib_sa_unpack_path path_rec zero_path = Some p.
Proof.
  intros Hl. pose proof sa_records_wf as W. apply list.Forall_cons in W as [[W _] _]. destruct (ib_unpack_ok 64 PATH_BYTES path_rec_table path_rec (pr_mem zero_path)) as (m & E & _); [exact W|done|done|].
  unfold ib_sa_unpack_path. rewrite E. by eexists.
Qed.

(** The attributes give an answer, or one of them is too short. *)
Lemma resolve_ok k mask attrs recs : Forall nl_ok attrs ->
  match resolve_loop k mask attrs recs with
  | Some (RS_data path_rec) => length path_rec = 64%nat /\ bytes_ok path_rec
  | Some (RS_recs _) => True
  | None => ~ Forall whole_rec attrs
  end.
Proof.
  revert recs. induction attrs as [|[t bs] attrs IH]; intros recs Hok; cbn [resolve_loop]; [done|]. apply list.Forall_cons in Hok as [H1 H2].
  assert (forall recs, match resolve_loop k mask attrs recs with
    | Some (RS_data path_rec) => length path_rec = 64%nat /\ bytes_ok path_rec | Some (RS_recs _) => True | None => ~ Forall whole_rec ((t, bs) :: attrs) end) as IH'.
  { intros r. specialize (IH r H2). destruct (resolve_loop k mask attrs r) as [[]|]; try done. intros [_ ?]%list.Forall_cons. done. }
  destruct (Z.eqb_spec t LS_NLA_TYPE_PATH_RECORD) as [->|]; cbn [negb]; [|by apply IH']. pose proof (nl_bytes _ H1 eq_refl) as Hb. cbn [snd] in Hb.
  assert (length bs < 72 -> ~ Forall whole_rec ((LS_NLA_TYPE_PATH_RECORD, bs) :: attrs))%nat as Hs.
  { intros Hl [Hw _]%list.Forall_cons. specialize (Hw eq_refl). cbn in Hw. lia. }
  unfold rec_flags, rec_path. destruct (mem_read 0 4 bs) as [fl|] eqn:Efl.
  2: { cbn. apply Hs. destruct (le_lt_dec 72 (length bs)); [|done]. destruct (mem_read_ok 0 4 bs); [lia|congruence]. }
  cbn [mbind option_bind fmap option_fmap option_map]. destruct (negb _); [by apply IH'|]. destruct (mem_read 8 64 bs) as [pr|] eqn:Epr.
  2: { cbn. apply Hs. destruct (le_lt_dec 72 (length bs)); [|done]. destruct (mem_read_ok 8 64 bs); [lia|congruence]. }
  cbn [mbind option_bind]. pose proof (length_mem_read _ _ _ _ Epr) as Lpr. pose proof (mem_read_bytes _ _ _ _ Hb Epr) as Bpr.
  destruct k as [[]| | |]; try done. destruct (path_rec_ok pr Lpr) as [p ->]. cbn [mbind option_bind]. rewrite dmac_zero_ib by done. cbn [mbind option_bind].
  case_decide; [done|by apply IH'].
Qed.

Lemma good_good m s q attrs : inv m (T_good q attrs :: tasks s) s ->
  good (ib_nl_process_good_resolve_rsp q attrs s) \/ ib_nl_process_good_resolve_rsp q attrs s = Bug /\ ~ Forall whole_rec attrs.
Proof.
  intros HI. destruct (running _ _ _ _ q G_id HI eq_refl) as (x & Hq & HO & HP). unfold ib_nl_process_good_resolve_rsp. rewrite Hq. cbn [mbind outcome_bind obind the].
  pose proof (i_tasks HI) as HT. apply list.Forall_cons in HT as [Hok _]. cbn in Hok. pose proof (so_data _ _ HO) as [Ld Bd].
  match goal with |- good (?o ≫= _) \/ _ =>
    assert ((exists x' ps, o = Ok (with_ports ps (set_query q x' s)) /\ reported q x s x' ps) \/ o = Bug /\ ~ Forall whole_rec attrs) as [(x' & ps & E & HR)|[-> ?]] end.
  { destruct (q_callback x) eqn:Ec; [|left; exists x, (ports s); split; [unfold set_query; by rewrite insert_id|apply silent_reported; try done; apply HI]].
    pose proof (resolve_ok (q_kind x) (path_mask (q_path_use x)) attrs [] Hok) as Hrs.
    destruct (resolve_loop (q_kind x) (path_mask (q_path_use x)) attrs []) as [rs|]; [left|by right]. cbn [mbind outcome_bind obind the].
    destruct rs as [pr|[|r recs]].
    - destruct Hrs as [L B]. apply callback_reported; try done; [apply HI|]. intros data [= <-]. split; [|by apply Forall_app_2; [|apply Forall_drop]].
      rewrite length_app, length_drop, Ld, L. done.
    - apply callback_reported; try done; [apply HI|]. by intros data [= <-].
    - eexists _, _. split; [|apply log_reported; try done; apply HI]. done. }
  2: { by right. }
  left. rewrite E. cbn [mbind outcome_bind obind]. unfold send_handler. cbn [heap with_ports set_query with_heap]. rewrite lookup_insert_eq. cbn [mbind outcome_bind obind the wc_error].
  by eapply (done_good m (T_good q attrs) s q x x' ps false).
Qed.

Lemma sa_fail_good m s q st b : inv m (T_fail q st b :: tasks s) s -> good (send_handler q st b s).
Proof.
  intros HI. pose proof (i_tasks HI) as HT. apply list.Forall_cons in HT as [Hst _]. eapply sa_handler_good; [exact HI|done..].
Qed.

Lemma done_step_good m s q b : inv m (T_done q b :: tasks s) s -> good (send_handler_end q b s).
Proof.
  intros HI. destruct (running _ _ _ _ q G_called HI eq_refl) as (x & Hq & HO & HP). unfold send_handler_end. rewrite Hq. cbn [mbind outcome_bind obind the].
  pose proof (so_id _ _ HO) as Ei. apply bool_decide_eq_true in Ei as [id Ei]. unfold xa_erase. rewrite Ei. cbn [mbind outcome_bind obind the].
  destruct (put_client_ok _ _ _ _ _ HI Hq) as (cl & HC & EC). destruct (free_mad_ok _ _ _ _ _ _ HI Hq HO eq_refl) as (a & HA & EA).
  rewrite EA by done. cbn [mbind outcome_bind obind]. rewrite EC by done. cbn [mbind outcome_bind obind].
  exists (delete q m). assert (Forall note_ok (notes s ++ [N_done x])) as Hn by (apply Forall_app_2; [apply HI|constructor; [apply HO|done]]).
  destruct b; cbn [tasks with_tw_run with_note kfree with_heap with_clients with_ahs with_ids].
  - eapply (inv_free m (T_done q true :: tasks s) s q G_called x); try done.
    + by rewrite Ei.
    + by apply ts_drop.
    + split; [by right|done].
  - eapply (inv_free m (T_done q false :: tasks s) s q G_called x); try done.
    + by rewrite Ei.
    + by apply ts_drop.
    + by eapply timer_drop; [apply HI|].
Qed.

Lemma recv_good m s q r : inv m (tasks s) s -> (q, false) ∈ posted s -> (forall st data, r = Some (st, data) -> attr_ok data) ->
  good (recv_handler q r (with_posted (remove_first (q, false) (posted s) ++ [(q, true)]) s)).
Proof.
  intros HI Hq Hr. pose proof (from_mad m s q false HI Hq) as HI'. cbn in HI'. destruct (running _ _ _ _ q G_id HI' eq_refl) as (x & Hx & HO & HP). cbn [heap with_posted] in Hx.
  set (s1 := with_posted (remove_first (q, false) (posted s) ++ [(q, true)]) s).
  assert (exists x' ps, recv_handler q r s1 = Ok (with_ports ps (set_query q x' s1)) /\ reported q x s1 x' ps) as (x' & ps & E & HR).
  { unfold recv_handler. change (heap s1) with (heap s). rewrite Hx. cbn [mbind outcome_bind obind the]. destruct (q_callback x) eqn:Ec.
    - destruct r as [[st data]|]; apply callback_reported; try done; try apply HI. intros d [= <-]. by eapply Hr.
    - exists x, (ports s1). split; [unfold set_query; by rewrite insert_id|apply silent_reported; try done; apply HI]. }
  rewrite E. exists (<[q := G_called]> m). change (inv (<[q := G_called]> m) (tasks s) (with_ports ps (set_query q x' s1))).
  eapply (inv_reported m (T_post q :: tasks s) (with_posted (remove_first (q, false) (posted s)) s) q x x' ps); [exact HI'|done| |exact HP|..]; try done.
  - destruct HR as [R1 R2 R3 R4 R5]. by split.
  - etrans; [apply holders_po_perm; symmetry; apply Permutation_cons_append|by rewrite holders_po].
  - by apply ts_drop.
  - by eapply timer_drop; [apply HI'|].
Qed.

Lemma msend_good m s q st : inv m (tasks s) s -> (q, bool_decide (st = IB_WC_SUCCESS)) ∈ posted s ->
  good (send_handler q st false (with_posted (remove_first (q, bool_decide (st = IB_WC_SUCCESS)) (posted s)) s)).
Proof.
  intros HI Hq. pose proof (from_mad m s q _ HI Hq) as HI'. case_bool_decide as Hst.
  - subst st. destruct (running _ _ _ _ q G_called HI' eq_refl) as (x & Hx & HO & HP). unfold send_handler. cbn [heap with_posted] in Hx. cbn [heap with_posted]. rewrite Hx. cbn [mbind outcome_bind obind the wc_error].
    by apply (added m).
  - by eapply (sa_handler_good m (T_post q)).
Qed.

Lemma listed m s q : inv m (tasks s) s -> q ∈ nl_list s -> exists x, heap s !! q = Some x /\ stage_ok G_id x.
Proof.
  intros HI Hq. destruct (stage_get (i_stages HI) q G_id) as (_ & x & Hx & HO); [|eauto]. unfold holders. apply elem_of_app. left. apply list_elem_of_fmap. by exists q.
Qed.

Lemma find_seq_ok m s seq l : inv m (tasks s) s -> Forall (fun q => q ∈ nl_list s) l ->
  exists o, find_seq s seq l = Ok o /\ forall q, o = Some q -> q ∈ nl_list s.
Proof.
  intros HI. induction l as [|q l IH]; intros Hl; cbn [find_seq]; [by exists None|]. apply list.Forall_cons in Hl as [Hq Hl]. destruct (listed m s q HI Hq) as (x & -> & _).
  cbn [mbind outcome_bind obind the]. destruct (_ =? _); [|by apply IH]. exists (Some q). split; [done|]. by intros q' [= <-].
Qed.

(** A request that is posted, or a thread that fails it; [s'] has its changes. *)
Lemma repost m s q x s1 st ret : inv m (T_nl q :: tasks s) s -> heap s !! q = Some x -> s1 = set_query q (set_local false x) s -> st <> IB_WC_SUCCESS ->
  exists b s2, ib_post_send_mad q x ret s1 = Ok (b, s2) /\ good (Ok (if b : bool then s2 else add_task (T_fail q st false) s2)).
Proof.
  intros HI Hq -> Hst. destruct (running _ _ _ _ q G_id HI eq_refl) as (x0 & Hx0 & HO & HP). assert (x0 = x) as -> by congruence.
  unfold ib_post_send_mad. cbn [ports set_query with_heap]. destruct (pi_port _ _ (i_ports HI) q x Hq) as [p ->]. cbn [mbind outcome_bind obind the].
  assert (stage_ok G_id (set_local false x)) as HO' by (destruct HO as [O1 O2 O3 O4 O5 O6]; by split).
  destruct (ret =? 0); eexists _, _; (split; [done|]).
  - exists (<[q := G_id]> m). eapply (inv_leave m (T_nl q) s q x (set_local false x)); try done; [by right|]. apply (ti_armed _ _ _ _ (i_timer HI)).
  - by eapply (inv_next m (T_nl q) (T_fail q st false) s q G_id G_id x (set_local false x)).
Qed.

Lemma resp_good m s seq (g : bool) attrs ret : inv m (tasks s) s -> Forall nl_ok attrs -> good (ib_nl_handle_resolve_resp seq g attrs ret s).
Proof.
  intros HI Ha. unfold ib_nl_handle_resolve_resp. destruct (find_seq_ok m s seq (nl_list s) HI) as (o & -> & Ho); [by apply list.Forall_forall|].
  cbn [mbind outcome_bind obind]. destruct o as [q|]; [|by exists m]. specialize (Ho q eq_refl). destruct (listed m s q HI Ho) as (x & Hx & HO). rewrite Hx. cbn [mbind outcome_bind obind the].
  destruct (q_cancel x); [by exists m|]. pose proof (from_list m s q (remove_first q (nl_list s)) HI (remove_first_perm _ _ Ho)) as HI'. destruct g.
  - eapply (inv_next m (T_nl q) (T_good q attrs) (with_nl_list (remove_first q (nl_list s)) s) q G_id G_id x x); try done. cbn [heap with_nl_list]. by rewrite insert_id.
  - destruct (repost m (with_nl_list (remove_first q (nl_list s)) s) q x (set_query q (set_local false x) (with_nl_list (remove_first q (nl_list s)) s)) IB_WC_GENERAL_ERR ret HI' Hx eq_refl) as (b & s2 & -> & HG); done.
Qed.

Lemma fire_good m s : inv m (tasks s) s -> good (timed_work_start s).
Proof.
  intros HI. unfold timed_work_start. destruct (tw_pending s) as [e|]; [|done]. destruct (tw_run s); try done. destruct (_ <=? _); [|done].
  exists m. eapply inv_same; [exact HI|done|done|done|apply ts_refl| |apply HI]. split; [by right|done].
Qed.

Lemma loop_good m s ret : inv m (tasks s) s -> good (ib_nl_request_timeout ret s).
Proof.
  intros HI. unfold ib_nl_request_timeout. destruct (tw_run s) eqn:Er; try done. destruct (nl_list s) as [|q r] eqn:El.
  { exists m. eapply inv_same; [exact HI|done|done|done|apply ts_refl| |apply HI]. split; [cbn; by rewrite El|done]. }
  destruct (listed m s q HI) as (x & Hx & HO); [rewrite El; left|]. rewrite Hx. cbn [mbind outcome_bind obind the]. destruct (jiffies s <? q_timeout x).
  { exists m. eapply (inv_same m (tasks s) s); [exact HI|by unfold queue_timed_work; case_match|..].
    - cbn. unfold queue_timed_work. by case_match.
    - unfold queue_timed_work. by case_match.
    - cbn. unfold queue_timed_work. case_match; apply ts_refl.
    - split; [|done]. intros _. left. cbn. unfold queue_timed_work. case_match; cbn; eauto.
    - cbn. unfold queue_timed_work. case_match; apply HI. }
  assert (nl_list s ≡ₚ q :: r) as HP by (by rewrite El). pose proof (from_list m s q r HI HP) as HI'.
  assert (stage_ok G_id (set_local false x)) as HO' by (destruct HO as [O1 O2 O3 O4 O5 O6]; by split).
  set (s1 := set_query q (set_local false x) (with_nl_list r s)). destruct (pi_port _ _ (i_ports HI) q x Hx) as [p Hp].
  assert (good (Ok (add_task (T_fail q IB_WC_WR_FLUSH_ERR true) (with_tw_run (TR_wait q) s1)))) as Hfail.
  { apply (added (<[q := G_id]> m)). eapply (inv_set m (T_nl q :: tasks s) (with_nl_list r s) q G_id G_id x (set_local false x) (holders r (posted s) (tasks s))); try done.
    - by apply holders_task.
    - by apply holders_task.
    - by next_task.
    - split; [by right|]. intros q' [= <-]. left. by apply bool_decide_eq_true.
    - apply HI. }
  assert (good (Ok (with_posted (posted s1 ++ [(q, false)]) s1))) as Hok.
  { exists (<[q := G_id]> m). eapply (inv_leave m (T_nl q) (with_nl_list r s) q x (set_local false x)); try done; [by right|]. intros _. right. cbn. by rewrite Er. }
  unfold ib_post_send_mad. change (ports s1) with (ports s). rewrite Hp. cbn [mbind outcome_bind obind the]. destruct (q_cancel x); [exact Hfail|]. by destruct (ret =? 0).
Qed.

(** ** Timeouts *)

Lemma shift_ok m s delta l delay : inv m (tasks s) s -> Forall (fun q => q ∈ nl_list s) l ->
  exists m' d s', shift_all delta l delay s = Ok (d, s') /\ inv m' (tasks s') s'.
Proof.
  revert m s delay. induction l as [|q l IH]; intros m s delay HI Hl; cbn [shift_all]; [by eexists _, _, _|]. apply list.Forall_cons in Hl as [Hq Hl].
  destruct (listed m s q HI Hq) as (x & Hx & HO). rewrite Hx. cbn [mbind outcome_bind obind the]. apply (IH (<[q := G_id]> m)); [|done].
  pose proof (remove_first_perm _ _ Hq) as HP.
  eapply (inv_set m (tasks s) s q G_id G_id x _ (holders (remove_first q (nl_list s)) (posted s) (tasks s))); try done.
  - by rewrite (holders_nl_perm _ _ _ _ HP), holders_nl.
  - cbn [nl_list posted set_query with_heap]. by rewrite (holders_nl_perm _ _ _ _ HP), holders_nl.
  - destruct HO as [O1 O2 O3 O4 O5 O6]; by split.
  - apply HI.
  - apply HI.
Qed.

Lemma mod_good m s delay : inv m (tasks s) s -> inv m (tasks s) (mod_timed_work delay s).
Proof. intros HI. eapply inv_same; [exact HI|done|done|done|apply ts_refl| |apply HI]. destruct (i_timer HI) as [A B]. split; [cbn; eauto|done]. Qed.

Lemma timeout_good m s t : inv m (tasks s) s -> good (ib_nl_handle_set_timeout t s).
Proof.
  intros HI. unfold ib_nl_handle_set_timeout. destruct t as [t|]; [|by exists m]. set (t1 := if IB_SA_LOCAL_SVC_TIMEOUT_MAX <? _ then _ else _). destruct (_ =? 0); [by exists m|].
  destruct (shift_ok m (with_svc_timeout_ms t1 s) (t1 - svc_timeout_ms s) (nl_list s) 0 HI) as (m' & d & s' & -> & HI'); [by apply list.Forall_forall|].
  cbn [mbind outcome_bind obind]. exists m'. destruct (d =? 0); [done|]. exact (mod_good _ _ _ HI').
Qed.

(** ** Cancellation *)

Lemma cancel_good m s id q : inv m (tasks s) s -> good (ib_sa_cancel_query id q s).
Proof.
  intros HI. unfold ib_sa_cancel_query. case_decide as Hid; [|by exists m]. apply (i_ids HI) in Hid as (x & -> & _). cbn [mbind outcome_bind obind the].
  apply (added m). eapply inv_same; [exact HI|done|by rewrite holders_task|done|by apply ts_new|apply timer_cons, HI|apply HI].
Qed.

(** The request is cancelled on the list, or the MAD of a query that is still there. *)
Lemma cancel_mad_good m s q : inv m (T_cancel q :: tasks s) s -> is_Some (heap s !! q) -> good (cancel_request q s).
Proof.
  intros HI' [x Hx]. assert (inv m (tasks s) s) as HI.
  { eapply inv_same; [exact HI'|done|by rewrite holders_task|done|by apply ts_drop|by eapply timer_drop; [apply HI'|]|apply HI']. }
  unfold cancel_request. rewrite Hx. cbn [mbind outcome_bind obind the]. case_decide as Hq; [|by exists m].
  destruct (listed m s q HI Hq) as (x0 & Hx0 & HO). assert (x0 = x) as -> by congruence. pose proof (remove_first_perm _ _ Hq) as HP.
  exists (<[q := G_id]> m). eapply (inv_set m (tasks s) s q G_id G_id x _ (holders (remove_first q (nl_list s)) (posted s) (tasks s))); try done.
  - by rewrite (holders_nl_perm _ _ _ _ HP), holders_nl.
  - destruct HO as [O1 O2 O3 O4 O5 O6]; by split.
  - split; [cbn; eauto|]. apply HI.
  - apply HI.
Qed.

(** ** Starting a query *)

Lemma inv_start m s q c x p : inv m (tasks s) s -> heap s !! q = None -> ports s !! q_port x = Some p -> stage_ok G_alloc x ->
  (forall c', c = Some c' -> c' ∈ registered s) ->
  (asks x = true -> p_run p = CR_ask false /\ forall q' y, heap s !! q' = Some y -> asks y = true -> q_port y <> q_port x) ->
  good (Ok (add_task (T_alloc q c) (set_query q x s))).
Proof.
  intros HI Hq Hp HO Hc Ha. apply (added (<[q := G_alloc]> m)).
  pose proof (so_ah _ _ HO) as Ea. apply bool_decide_eq_false, eq_None_not_Some in Ea. pose proof (so_id _ _ HO) as Ei. apply bool_decide_eq_false, eq_None_not_Some in Ei.
  destruct (so_data _ _ HO) as [_ Ec]. destruct HI as [H1 H2 H3 H4 H5 H6 H7 H8 H9]. split; try done; cbn.
  - eapply (stage_new H1 q G_alloc); [done|by rewrite holders_task|done].
  - by apply (ids_new Hq).
  - by apply (ahs_new Hq).
  - destruct (clients_new Hq _ _ _ x H4 Ec) as [C1 C2 C3 C4]. split; [done..|]. intros c' [Hc'|Hc']%elem_of_app; [|by apply C4].
    destruct c as [c|]; [|by apply elem_of_nil in Hc']. apply list_elem_of_singleton in Hc' as ->. by apply Hc.
  - by eapply ports_new.
  - destruct H6 as [W1 W2 W3 W4 W5 W6]. by split.
  - by apply timer_cons.
  - by constructor.
Qed.

Lemma sa_start_good m s client port cb mask tmo rq mem conv lid : inv m (tasks s) s -> client_ok (Q_start client port cb mask tmo rq mem conv lid) s ->
  good (sa_start client port cb mask tmo rq mem conv lid s).
Proof.
  intros HI (Hcl & Hport & Hrec). unfold sa_start. assert (forall ret, good (Ok (with_note (N_ret ret) s))) as Hn by (intros ret; exists m; by apply inv_note).
  case_decide as Hd; [done|]. destruct (request_ok rq); cbn [negb]; [|done]. destruct Hport as [|[p Hp]]; [done|]. rewrite Hp. cbn [mbind outcome_bind obind the].
  destruct mem as [q|]; [|done]. case_decide as Hq; [done|]. apply eq_None_not_Some in Hq. destruct (request_kind rq p lid conv) as [ret|k] eqn:Ek; [done|].
  assert ((forall b, k <> K_classport b) /\ rec_good (new_query k port cb mask tmo (request_bytes rq))) as [Hk Hr].
  { unfold request_kind in Ek. destruct rq as [r|rec|rec method]; unfold rec_ok in Hrec; repeat case_match; simplify_eq; done. }
  eapply (inv_start m s q (Some client) (new_query k port cb mask tmo (request_bytes rq)) p); try done.
  - split; try done; cbn. destruct k as [| | |b]; try done. by destruct (Hk b).
  - by intros c' [= <-].
  - unfold asks. cbn. destruct k as [| | |b]; try done. by destruct (Hk b).
Qed.

(** ** Clients *)

Lemma register_good m s c : inv m (tasks s) s -> good (ib_sa_register_client c s).
Proof.
  intros HI. unfold ib_sa_register_client. case_decide as Hc; [done|]. apply eq_None_not_Some in Hc. exists m. destruct HI as [H1 H2 H3 H4 H5 H6 H7 H8 H9]. split; try done; cbn.
  destruct H4 as [C1 C2 C3 C4]. split; [|done| |].
  - intros b. specialize (C1 b). destruct (decide (c = b)) as [<-|Hne].
    + rewrite lookup_insert_eq. rewrite Hc in C1. rewrite decide_True by set_solver. lia.
    + rewrite lookup_insert_ne by done. destruct (clients s !! b); [|set_solver]. repeat case_decide; set_solver.
  - intros b [Hb1 Hb2]%C3. assert (b <> c) as Hne by (intros ->; rewrite Hc in Hb2; by destruct Hb2). split; [set_solver|]. by rewrite lookup_insert_ne.
  - intros b Hb%C4. set_solver.
Qed.

Lemma unregister_good m s c : inv m (tasks s) s -> client_ok (C_unregister c) s -> good (ib_sa_unregister_client c s).
Proof.
  intros HI [Hc Hst]. unfold ib_sa_unregister_client, ib_sa_client_put. cbn [clients with_registered]. pose proof (ci_count _ _ _ _ (i_clients HI) c) as HN.
  destruct (clients s !! c) as [n|] eqn:En; [|naive_solver]. rewrite decide_True in HN by done. cbn [mbind outcome_bind obind the]. rewrite (proj2 (Z.leb_gt _ _)) by lia. cbn [mbind outcome_bind obind].
  apply (added m). destruct HI as [H1 H2 H3 H4 H5 H6 H7 H8 H9]. split; try done; cbn.
  - destruct H4 as [C1 C2 C3 C4]. split.
    + intros b. specialize (C1 b). destruct (decide (c = b)) as [<-|Hne].
      * rewrite lookup_insert_eq. rewrite decide_False by set_solver. lia.
      * rewrite lookup_insert_ne by done. destruct (clients s !! b); [|set_solver]. repeat case_decide; set_solver.
    + apply list.NoDup_cons. split; [|done]. intros [? _]%C3. done.
    + intros b [->|Hb]%elem_of_cons; [split; [set_solver|by rewrite lookup_insert_eq]|]. destruct (C3 b Hb) as [B1 B2]. split; [set_solver|].
      destruct (decide (c = b)) as [<-|]; [by rewrite lookup_insert_eq|by rewrite lookup_insert_ne].
    + intros b Hb. pose proof (C4 b Hb) as Hr. apply elem_of_difference. split; [done|]. intros ->%elem_of_singleton.
      apply list_elem_of_bind in Hb as (t & Ht1 & Ht2). destruct t as [q [c'|]|q [c'|]| | | | | | | | |]; cbn in Ht1; try (by apply elem_of_nil in Ht1); apply list_elem_of_singleton in Ht1 as <-;
        apply elem_of_cons in Ht2 as [|Ht2]; try done; by destruct (Hst q).
  - destruct H6 as [W1 W2 W3 W4 W5 W6]. by split.
  - by apply timer_cons.
  - by constructor.
Qed.

Lemma wait_good m s c : inv m (T_client c :: tasks s) s -> good (client_wait c s).
Proof.
  intros HI. unfold client_wait. destruct (ci_waits _ _ _ _ (i_clients HI) c) as [Hr [n Hn]]; [left|]. rewrite Hn. cbn [mbind outcome_bind obind the]. destruct (Z.eqb_spec n 0) as [->|]; [|done].
  exists m. destruct HI as [H1 H2 H3 H4 H5 H6 H7 H8 H9]. split; try done; cbn.
  - destruct H4 as [C1 C2 C3 C4]. cbn in C2. apply list.NoDup_cons in C2 as [C2a C2b]. split; [|done| |].
    + intros b. specialize (C1 b). destruct (decide (c = b)) as [<-|Hne]; [|by rewrite lookup_delete_ne]. rewrite lookup_delete_eq. rewrite Hn, decide_False in C1 by done. split; [lia|done].
    + intros b Hb. destruct (C3 b) as [B1 B2]; [by right|]. split; [done|]. rewrite lookup_delete_ne; [done|]. by intros ->.
    + intros b Hb. by apply C4.
  - destruct H6 as [W1 W2 W3 W4 W5 W6]. by split.
  - by eapply timer_drop.
  - by apply list.Forall_cons in H8 as [_ ?].
  - apply Forall_app_2; [done|by constructor].
Qed.

(** ** Ports *)

(** Giving up the handle of a port. *)
Lemma drop_handle (p : ib_sa_port) s R R' : countI (ahs s) R -> (forall b, multiplicity b R = (multiplicity b (p_refs p) + multiplicity b R')%nat) ->
  exists a, (match p_sm_ah p with Some k => kref_put_ah k s | None => Ok s end) = Ok (with_ahs a s) /\ countI a R'.
Proof.
  intros HC HM. unfold p_refs in HM. destruct (p_sm_ah p) as [k|].
  - destruct (count_put _ _ _ _ HC HM) as (y & Hy & Hr & HC'). eexists. split; [|exact HC']. unfold kref_put_ah. rewrite Hy. cbn. by rewrite (proj2 (Z.leb_gt _ _)) by lia.
  - exists (ahs s). split; [done|]. by apply (count_ext _ _ _ HC).
Qed.

Lemma sa_event_good m s port e : inv m (tasks s) s -> dev s = D_up -> good (ib_sa_event port e s).
Proof.
  intros HI Hd. unfold ib_sa_event. destruct (event_handled e); cbn [negb]; [|by exists m]. destruct (ports s !! port) as [p|] eqn:Ep; [|by exists m].
  destruct (drop_handle p s _ (tally q_refs (heap s) ⊎ tally p_refs (<[port := set_p_ah None p]> (ports s))) (i_ahs HI)) as (a & -> & HC).
  { intros b. rewrite !multiplicity_disj_union, (tally_set p_refs _ _ p), (tally_delete p_refs (ports s) port p), !multiplicity_disj_union by done. cbn. rewrite multiplicity_empty. lia. }
  cbn [mbind outcome_bind obind]. apply (added m). destruct HI as [H1 H2 H3 H4 H5 H6 H7 H8 H9]. split; try done; cbn.
  - destruct H4 as [C1 C2 C3 C4]. by split.
  - eapply ports_set; [done..|by left].
  - destruct (works_set _ _ _ _ _ port p (set_p_ah None p) (cpi_pending s) H6 Ep) as [W1 W2 W3 W4 W5 W6]; [set_solver|set_solver|by eapply retry_keep; [apply (wi_retry _ _ _ _ _ H6 _ _ Ep)|..]|].
    split; try done. intros k [->|Hk]%elem_of_cons; [|by apply W3]. by rewrite lookup_insert_eq.
  - by apply timer_cons.
  - by constructor.
Qed.

Lemma event_end_good m s port reset : inv m (T_event port reset :: tasks s) s -> good (sa_event_end port reset s).
Proof.
  intros HI. unfold sa_event_end. destruct (wi_event _ _ _ _ _ (i_works HI) port) as [[p Hp] Hd]; [left|]. rewrite Hp. cbn [mbind outcome_bind obind the].
  assert (inv m (tasks s) s) as HI'. { eapply inv_same; [exact HI|done|done|done|by apply ts_drop|by eapply timer_drop; [apply HI|]|apply HI]. }
  assert (forall s', inv m (tasks s) s' -> ports s' !! port <> None -> dev s' = D_up -> inv m (tasks s) (with_upd_pending ({[port]} ∪ upd_pending s') s')) as Hup.
  { intros s' [H1 H2 H3 H4 H5 H6 H7 H8 H9] Hp' Hd'. split; try done; cbn. destruct H6 as [W1 W2 W3 W4 W5 W6]. split; try done.
    - apply not_eq_None_Some in Hp' as [p' Hp']. apply elem_of_dom_2 in Hp'. set_solver.
    - rewrite Hd'. by intros [|]. }
  destruct reset.
  - exists m. apply Hup; [|cbn; by rewrite lookup_insert_eq|done]. apply inv_ports; [done| | |].
    + eapply ports_set; [apply HI'|done|by left].
    + by eapply refs_set.
    + eapply works_set; [apply HI'|done|set_solver|set_solver|]. unfold retry_ok, IB_SA_CPI_MAX_RETRY_CNT. cbn. lia.
  - exists m. apply Hup; [done|by rewrite Hp|done].
Qed.

Lemma update_good m s port new opa grh a pk : inv m (tasks s) s -> good (update_sm_ah port new opa grh a pk s).
Proof.
  intros HI. unfold update_sm_ah. case_decide as Hu; [|done]. pose proof (wi_upd _ _ _ _ _ (i_works HI) _ Hu) as [p Hp]%elem_of_dom.
  cbn [ports with_upd_pending]. rewrite Hp. cbn [mbind outcome_bind obind the].
  assert (inv m (tasks s) (with_upd_pending (upd_pending s ∖ {[port]}) s)) as HI'.
  { destruct HI as [H1 H2 H3 H4 H5 H6 H7 H8 H9]. split; try done; cbn. destruct H6 as [W1 W2 W3 W4 W5 W6]. split; try done; [set_solver|]. intros Hd. rewrite W4 by done. set_solver. }
  destruct new as [h|]; [|by exists m]. case_decide as Hh; [done|]. apply eq_None_not_Some in Hh. cbn [ahs with_upd_pending] in *. set (y := {| ah_ref := 1 |}).
  destruct (drop_handle p (with_ahs (<[h := y]> (ahs s)) (with_upd_pending (upd_pending s ∖ {[port]}) s)) (one (Some h) ⊎ (tally q_refs (heap s) ⊎ tally p_refs (ports s)))
    (tally q_refs (heap s) ⊎ tally p_refs (<[port := set_p_ah (Some h) p]> (ports s)))) as (a' & -> & HC).
  { eapply count_new; [apply HI|done|done|]. intros b. by rewrite multiplicity_disj_union. }
  { intros b. rewrite !multiplicity_disj_union, (tally_set p_refs _ _ p), (tally_delete p_refs (ports s) port p), !multiplicity_disj_union by done. cbn. lia. }
  cbn [mbind outcome_bind obind]. exists m. destruct HI' as [H1 H2 H3 H4 H5 H6 H7 H8 H9]. split; try done; cbn.
  - eapply ports_set; [done..|by left].
  - eapply works_set; [exact H6|done|set_solver|set_solver|]. eapply retry_keep; [by apply (wi_retry _ _ _ _ _ H6 _ _ Hp)|done..].
Qed.

(** ** The class port information *)

Lemma no_asker m ts s port p : inv m ts s -> ports s !! port = Some p -> p_run p <> CR_ask false -> forall q x, heap s !! q = Some x -> asks x = true -> q_port x <> port.
Proof. intros HI Hp Hr q x Hq Ha <-. by eapply Hr, (pi_ask _ _ (i_ports HI)). Qed.

(** The work item of a port, which no query has, moves. *)
Lemma run_set m s port p r cp : inv m (tasks s) s -> ports s !! port = Some p -> p_run p <> CR_ask false -> cp ⊆ cpi_pending s -> cpi_pending s ∖ {[port]} ⊆ cp ->
  (r <> CR_no -> p_run p <> CR_no \/ port ∈ cpi_pending s /\ port ∉ cp) -> inv m (tasks s) (with_cpi_pending cp (with_ports (<[port := set_p_run r p]> (ports s)) s)).
Proof.
  intros HI Hp Hr Hc1 Hc2 Hn. destruct (wi_retry _ _ _ _ _ (i_works HI) _ _ Hp) as (R1 & R2 & R3). apply inv_ports; [done| | |].
  - eapply ports_set; [apply HI|done|]. right. by eapply no_asker.
  - by eapply refs_set.
  - eapply works_set; [apply HI|done|set_solver|done|]. split; [done|]. cbn. split.
    + intros [H|H]; apply R2; [left; set_solver|]. destruct (Hn H) as [|[? _]]; auto.
    + intros H H'. destruct (Hn H') as [?|[_ ?]]; [|done]. apply R3; [set_solver|done].
Qed.

Lemma cpi_good m s port ctx mem opa : inv m (tasks s) s -> good (update_ib_cpi port ctx mem opa s).
Proof.
  intros HI. unfold update_ib_cpi. case_decide as Hu; [|done]. pose proof (wi_cpi _ _ _ _ _ (i_works HI) _ Hu) as [p Hp]%elem_of_dom.
  rewrite Hp. cbn [mbind outcome_bind obind the]. case_bool_decide as Hr; cbn [negb]; [|done].
  assert (inv m (tasks s) (with_cpi_pending (cpi_pending s ∖ {[port]}) s)) as HI'.
  { destruct HI as [H1 H2 H3 H4 H5 H6 H7 H8 H9]. split; try done; cbn. destruct H6 as [W1 W2 W3 W4 W5 W6]. split; try done; [set_solver|].
    intros k p' Hp'. apply (retry_less (cpi_pending s)); [by apply W6|]. set_solver. }
  destruct (cp_valid (p_cpi p)); [by exists m|]. destruct ctx; cbn [negb]; [|by exists m].
  assert (forall r, inv m (tasks s) (with_cpi_pending (cpi_pending s ∖ {[port]}) (with_ports (<[port := set_p_run r p]> (ports s)) s))) as Hrun.
  { intros r. eapply run_set; [done..|by rewrite Hr|set_solver|set_solver|]. right. split; [done|set_solver]. }
  destruct mem as [q|]; [|exists m; exact (Hrun CR_end)]. case_decide as Hq; [done|]. apply eq_None_not_Some in Hq. cbn [heap with_cpi_pending] in Hq.
  set (s1 := with_cpi_pending (cpi_pending s ∖ {[port]}) (with_ports (<[port := set_p_run (CR_ask false) p]> (ports s)) s)).
  enough (good (Ok (add_task (T_alloc q None) (set_query q (new_query (K_classport opa) port true 0 3000 []) s1)))) as H by exact H.
  eapply (inv_start m s1 q None (new_query (K_classport opa) port true 0 3000 []) (set_p_run (CR_ask false) p)); try done.
  - exact (Hrun (CR_ask false)).
  - cbn. by rewrite lookup_insert_eq.
  - intros _. split; [done|]. intros q' y Hy Hay. eapply (no_asker _ _ _ _ p HI); [done|by rewrite Hr|done..].
Qed.

Lemma cpi_wait_good m s port : inv m (tasks s) s -> good (cpi_wait port s).
Proof.
  intros HI. unfold cpi_wait. destruct (ports s !! port) as [p|] eqn:Hp; [|done]. destruct (p_run p) as [|[]|] eqn:Hr; try done. exists m.
  enough (inv m (tasks s) (with_cpi_pending (cpi_pending s) (with_ports (<[port := set_p_run CR_end p]> (ports s)) s))) as H by exact H.
  eapply run_set; [done|done|by rewrite Hr|done|set_solver|]. left. by rewrite Hr.
Qed.

Lemma cpi_end_good m s port : inv m (tasks s) s -> good (cpi_end port s).
Proof.
  intros HI. unfold cpi_end. destruct (ports s !! port) as [p|] eqn:Hp; [|done]. destruct (p_run p) as [|[]|] eqn:Hr; try done.
  destruct (wi_retry _ _ _ _ _ (i_works HI) _ _ Hp) as (R1 & R2 & R3). cbv zeta. destruct (cp_valid (p_cpi p)) eqn:Ev.
  { exists m. enough (inv m (tasks s) (with_cpi_pending (cpi_pending s) (with_ports (<[port := set_p_run CR_no p]> (ports s)) s))) as H by exact H.
    eapply run_set; [done|done|by rewrite Hr|done|set_solver|]. intros H0. by destruct H0. }
  set (p' := set_p_cpi _ _). assert (p_run p <> CR_no) as Hrn by (by rewrite Hr). specialize (R2 (or_intror Hrn)).
  assert (forall cp, cp ⊆ {[port]} ∪ cpi_pending s -> cpi_pending s ∖ {[port]} ⊆ cp -> (port ∈ cp -> cp_retry_cnt (p_cpi p) + 1 <= IB_SA_CPI_MAX_RETRY_CNT) ->
    inv m (tasks s) (with_cpi_pending cp (with_ports (<[port := p']> (ports s)) s))) as Hgo.
  { intros cp Hc1 Hc2 Hc3. apply inv_ports; [done| | |].
    - eapply ports_set; [apply HI|done|]. right. eapply no_asker; [done..|by rewrite Hr].
    - by eapply refs_set.
    - eapply works_set; [apply HI|done|done|done|]. unfold retry_ok. cbn. split; [lia|]. split; [|done]. intros [H|H]; [by apply Hc3|done]. }
  destruct (Z.leb_spec (cp_retry_cnt (p_cpi p) + 1) IB_SA_CPI_MAX_RETRY_CNT) as [Hle|Hgt].
  - exists m. apply Hgo; [done|set_solver|done].
  - exists m. enough (inv m (tasks s) (with_cpi_pending (cpi_pending s) (with_ports (<[port := p']> (ports s)) s))) as H by exact H. apply Hgo; [set_solver|set_solver|].
    intros Hin. rewrite (R3 Hin Hrn). unfold IB_SA_CPI_MAX_RETRY_CNT. lia.
Qed.

(** ** The device *)

Lemma add_ports_new cap reg start l : forall acc m, (forall k p, acc !! k = Some p -> p = new_port) -> add_ports cap reg start l acc = inr m -> forall k p, m !! k = Some p -> p = new_port.
Proof.
  induction l as [|i l IH]; intros acc m Hacc; cbn [add_ports]; [by intros [= <-]|]. destruct (cap (i + 1)); cbn [negb]; [|by apply IH].
  destruct (reg (i + start) =? 0); cbn [negb]; [|done]. apply IH. intros k p. destruct (decide (i + start = k)) as [<-|]; [rewrite lookup_insert_eq; by intros [= <-]|].
  rewrite lookup_insert_ne by done. apply Hacc.
Qed.

Lemma new_refs (m : gmap Z ib_sa_port) : (forall k p, m !! k = Some p -> p = new_port) -> tally p_refs m = ∅.
Proof.
  intros H. induction m as [|k p m Hk IH] using map_ind; [done|]. rewrite tally_new by done. rewrite IH.
  - rewrite (H k p) by (by rewrite lookup_insert_eq). done.
  - intros k' p' Hp'. apply (H k'). rewrite lookup_insert_ne; [done|]. congruence.
Qed.

Lemma sa_add_good m s mem cap reg start end_ : inv m (tasks s) s -> good (ib_sa_add_one mem cap reg start end_ s).
Proof.
  intros HI. unfold ib_sa_add_one. case_decide as Hd; [|done]. assert (forall ret, good (Ok (with_note (N_ret ret) s))) as Hn by (intros ret; exists m; by apply inv_note).
  destruct mem; cbn [negb]; [|done]. destruct (add_ports cap reg start _ ∅) as [ret|ps] eqn:Ea; [done|]. case_decide; [done|].
  assert (forall k p, ps !! k = Some p -> p = new_port) as Hps by (eapply add_ports_new; [|exact Ea]; intros k p; by rewrite lookup_empty).
  pose proof (wi_none _ _ _ _ _ (i_works HI) Hd) as E0. assert (heap s = ∅) as Eh.
  { apply map_eq. intros q. rewrite lookup_empty. destruct (heap s !! q) as [x|] eqn:Eq; [|done]. destruct (pi_port _ _ (i_ports HI) q x Eq) as [p Hp]. by rewrite E0 in Hp. }
  exists m. destruct HI as [H1 H2 H3 H4 H5 H6 H7 H8 H9]. split; try done; cbn.
  - unfold ahsI in *. by rewrite (new_refs ps), <- (tally_empty (K := Z) p_refs), <- E0.
  - rewrite Eh. split; intros; by rewrite lookup_empty in *.
  - destruct H6 as [W1 W2 W3 W4 W5 W6]. split; try done.
    + intros p Hp. destruct (W3 p Hp) as [_ ?]. congruence.
    + by intros [|].
    + intros k p Hp. rewrite (Hps k p Hp). unfold retry_ok, IB_SA_CPI_MAX_RETRY_CNT. cbn. lia.
Qed.

Lemma no_events (ts : list task) : existsb is_event ts = false -> forall p, p ∉ ts ≫= task_events.
Proof.
  intros H p (t & Hp & Ht)%list_elem_of_bind. assert (is_event t = true) as He by (destruct t; cbn in Hp; try (by apply elem_of_nil in Hp); done).
  assert (existsb is_event ts = true); [|congruence]. apply existsb_exists. exists t. split; [by apply list_elem_of_In|done].
Qed.

Lemma inv_dev m s d : inv m (tasks s) s -> (forall p, p ∈ tasks s ≫= task_events -> d = D_up) -> (d = D_flushed \/ d = D_none -> upd_pending s = ∅) ->
  (d = D_none -> ports s = ∅) -> inv m (tasks s) (with_dev d s).
Proof. intros [H1 H2 H3 H4 H5 H6 H7 H8 H9] He Hf Hn. split; try done; cbn. destruct H6 as [W1 W2 W3 W4 W5 W6]. split; try done. intros p Hp. split; [by apply W3|by eapply He]. Qed.

Lemma quiet_good m s : inv m (tasks s) s -> good (remove_quiet s).
Proof.
  intros HI. unfold remove_quiet. case_decide; [|done]. destruct (existsb is_event (tasks s)) eqn:E; [done|]. exists m. apply (inv_dev m s D_quiet HI); [|by intros [|]|done].
  intros p Hp. by destruct (no_events _ E p).
Qed.

Lemma flush_good m s : inv m (tasks s) s -> good (remove_flush s).
Proof.
  intros HI. unfold remove_flush. case_decide as H; [|done]. destruct H as [Hd Hu]. exists m. apply (inv_dev m s D_flushed HI); [|done..].
  intros p Hp. destruct (wi_event _ _ _ _ _ (i_works HI) p Hp) as [_ ?]. congruence.
Qed.

Lemma sa_end_good m s : inv m (tasks s) s -> good (remove_end s).
Proof.
  intros HI. unfold remove_end. case_decide as H; [|done]. destruct H as [Hd Hp]. exists m. apply (inv_dev m s D_none HI); [| |done].
  - intros p Hin. destruct (wi_event _ _ _ _ _ (i_works HI) p Hin) as [_ ?]. congruence.
  - intros _. apply (wi_flushed _ _ _ _ _ (i_works HI)). by left.
Qed.

Lemma remove_good m s port : inv m (tasks s) s -> client_ok (D_remove_port port) s -> good (remove_port port s).
Proof.
  intros HI [[p Hp] Hq]. unfold remove_port. case_decide as Hd; [|done]. rewrite Hp. cbn [mbind outcome_bind obind the]. destruct (p_run p); try done. destruct (port_busy s port) eqn:Eb; [done|].
  assert (forall q x, heap s !! q = Some x -> q_port x <> port) as Hno.
  { intros q x Hx Ex. pose proof (Hq q x Hx Ex) as ([q' b] & -> & Hin)%list_elem_of_fmap. apply orb_false_iff in Eb as [Eb _].
    assert (existsb (fun p => of_port s port p.1) (posted s) = true); [|congruence]. apply existsb_exists. exists (q', b). split; [by apply list_elem_of_In|].
    unfold of_port. cbn in *. rewrite Hx. by apply Z.eqb_eq. }
  destruct (drop_handle p s _ (tally q_refs (heap s) ⊎ tally p_refs (delete port (ports s))) (i_ahs HI)) as (a & -> & HC).
  { intros b. rewrite !multiplicity_disj_union, (tally_delete p_refs (ports s) port p), multiplicity_disj_union by done. lia. }
  cbn [mbind outcome_bind obind]. exists m. destruct HI as [H1 H2 H3 H4 H5 H6 H7 H8 H9]. split; try done; cbn.
  - destruct H5 as [P1 P2 P3]. split; [| |done].
    + intros q x Hx. rewrite lookup_delete_ne; [by eapply P1|]. intros E. by eapply Hno.
    + intros q x p' Hx Ha [_ Hp']%lookup_delete_Some. by eapply P2.
  - destruct H6 as [W1 W2 W3 W4 W5 W6]. rewrite W4 in * by (by left). split; try done.
    + rewrite dom_delete_L. set_solver.
    + intros k Hk. destruct (W3 k Hk) as [_ ?]. congruence.
    + intros E. congruence.
    + intros k p' [_ Hp']%lookup_delete_Some. apply (retry_less (cpi_pending s)); [by apply W6|]. set_solver.
Qed.

(** ** All steps *)

(** The two things that go wrong: a cancellation that comes after the end of the query, and an answer
    of the local service with a path record that is too short. *)
Definition known_fault (g : sstep) (s : sa) : Prop :=
  match g with
  | C_cancel_mad q => heap s !! q = None
  | Q_good q attrs => T_good q attrs ∈ tasks s /\ ~ Forall whole_rec attrs
  | _ => False
  end.

Lemma sa_step_good m s g : inv m (tasks s) s -> client_ok g s -> good (s_run HZ g s) \/ s_run HZ g s = Bug /\ known_fault g s.
Proof.
  intros HI Hok. destruct g; cbn [s_run].
  7: { unfold take_task. case_decide as Ht; [|by left]. destruct (good_good m (with_tasks (remove_first (T_good q attrs) (tasks s)) s) q attrs) as [H|[H1 H2]]; [by apply taken|by left|by right]. }
  16: { unfold take_task. case_decide as Ht; [|by left]. destruct (heap s !! q) as [x|] eqn:Hq.
    - left. eapply cancel_mad_good; [by apply taken|by eexists].
    - cbn [mbind outcome_bind obind]. unfold cancel_request. cbn [nl_list heap with_tasks]. rewrite Hq. case_decide; by right. }
  all: left.
  - by eapply sa_start_good.
  - eapply sa_take_good; [exact HI|]. intros s1. apply sa_alloc_good.
  - eapply sa_take_good; [exact HI|]. intros s1. apply sa_create_good.
  - eapply sa_take_good; [exact HI|]. intros s1 HI1. apply (sa_send_good m); [done|]. by destruct xa.
  - eapply sa_take_good; [exact HI|]. intros s1. apply nl_good.
  - eapply sa_take_good; [exact HI|]. intros s1 HI1. by apply (post_good m).
  - eapply sa_take_good; [exact HI|]. intros s1. apply sa_fail_good.
  - eapply sa_take_good; [exact HI|]. intros s1. apply done_step_good.
  - case_decide; [|done]. apply (recv_good m); [done..|]. intros st data ->. exact Hok.
  - case_decide; [|done]. by apply (msend_good m).
  - by eapply resp_good.
  - by eapply timeout_good.
  - by eapply fire_good.
  - by eapply loop_good.
  - by eapply cancel_good.
  - by eapply register_good.
  - by eapply unregister_good.
  - eapply sa_take_good; [exact HI|]. intros s1. apply wait_good.
  - case_decide; [|done]. by eapply sa_event_good.
  - eapply sa_take_good; [exact HI|]. intros s1. apply event_end_good.
  - by eapply update_good.
  - by eapply cpi_good.
  - by eapply cpi_wait_good.
  - by eapply cpi_end_good.
  - by eapply sa_add_good.
  - by eapply quiet_good.
  - by eapply flush_good.
  - by eapply remove_good.
  - by eapply sa_end_good.
  - destruct (0 <=? n); [|done]. exists m. exact HI.
Qed.
End steps.
