(* ===== verification/SaRetry.v ===== *)
(** * Queries of subnet administration: retries of the class port query

    [update_ib_cpi] asks for the class port information of a port and, while it has not got it, queues
    itself again. The count of its attempts is changed in three places only: the end of the work item
    adds one, an event sets it to zero, a port that is added starts with zero. This file shows that,
    and counts the attempts along a run. *)

From Stdlib Require Import ZArith Lia.
From stdpp Require Import base tactics numbers list option gmap gmultiset strings.
From S2P Require Import Prelude SaRec Outcome SaQuery.

Local Open Scope Z_scope.

Definition retry_cnt (k : Z) (ps : gmap Z ib_sa_port) : option Z := (fun p => cp_retry_cnt (p_cpi p)) <$> ps !! k.

Lemma retry_set k j (ps : gmap Z ib_sa_port) p p' :
  ps !! j = Some p -> cp_retry_cnt (p_cpi p') = cp_retry_cnt (p_cpi p) -> retry_cnt k (<[j := p']> ps) = retry_cnt k ps.
Proof. intros Hj E. unfold retry_cnt. destruct (decide (j = k)) as [->|]; [by rewrite lookup_insert_eq, Hj; cbn; rewrite E|by rewrite lookup_insert_ne]. Qed.

(** A section that leaves the ports alone, and one that leaves the count of a port alone. *)
Definition same_ports (ps : gmap Z ib_sa_port) (o : outcome sa) : Prop := match o with Ok s => ports s = ps | _ => True end.
Definition same_cnt (k : Z) (ps : gmap Z ib_sa_port) (o : outcome sa) : Prop := match o with Ok s => retry_cnt k (ports s) = retry_cnt k ps | _ => True end.

Lemma same_ports_bind ps (o : outcome sa) f : same_ports ps o -> (forall s, ports s = ps -> same_ports ps (f s)) -> same_ports ps (o ≫= f).
Proof. destruct o; cbn; auto. Qed.
Lemma same_ports_the {A} ps (o : option A) f : (forall x, o = Some x -> same_ports ps (f x)) -> same_ports ps (the o ≫= f).
Proof. destruct o; cbn; auto. Qed.
Lemma cnt_bind k ps (o : outcome sa) f : same_cnt k ps o -> (forall s, retry_cnt k (ports s) = retry_cnt k ps -> same_cnt k ps (f s)) -> same_cnt k ps (o ≫= f).
Proof. destruct o; cbn; auto. Qed.
Lemma cnt_bind_same k ps (o : outcome sa) f : same_ports ps o -> (forall s, ports s = ps -> same_cnt k ps (f s)) -> same_cnt k ps (o ≫= f).
Proof. destruct o; cbn; auto. Qed.
Lemma cnt_the {A} k ps (o : option A) f : (forall x, o = Some x -> same_cnt k ps (f x)) -> same_cnt k ps (the o ≫= f).
Proof. destruct o; cbn; auto. Qed.
Lemma cnt_same k ps o : same_ports ps o -> same_cnt k ps o.
Proof. destruct o; cbn; congruence. Qed.
Lemma cnt_from k ps s o : same_cnt k (ports s) o -> retry_cnt k (ports s) = retry_cnt k ps -> same_cnt k ps o.
Proof. destruct o; cbn; congruence. Qed.

Ltac ports_same := repeat (apply same_ports_the; intros ? ?); repeat case_match; repeat (apply same_ports_the; intros ? ?); cbn [same_ports]; try done.
Ltac cnt_kept := repeat (apply cnt_the; intros ? ?); repeat case_match; repeat (apply cnt_the; intros ? ?); cbn [same_cnt]; try done.

(** ** Sections that leave the ports alone *)

Lemma put_ah_ports a s : same_ports (ports s) (kref_put_ah a s).
Proof. unfold kref_put_ah. ports_same. Qed.
Lemma put_client_ports x s : same_ports (ports s) (put_client x s).
Proof. unfold put_client, ib_sa_client_put. destruct (q_client x); ports_same. Qed.
Lemma free_mad_ports x s : same_ports (ports s) (free_mad x s).
Proof. unfold free_mad. apply same_ports_the. intros a _. apply put_ah_ports. Qed.
Lemma erase_ports x s : same_ports (ports s) (xa_erase x s).
Proof. unfold xa_erase. ports_same. Qed.
Lemma client_get_ports c s : same_ports (ports s) (match c with Some c => ib_sa_client_get c s | None => Ok s end).
Proof. destruct c; [|done]. unfold ib_sa_client_get. ports_same. Qed.
Lemma timed_ports d s : ports (queue_timed_work d s) = ports s.
Proof. unfold queue_timed_work. by destruct (tw_pending s). Qed.
Lemma shift_ports delta l : forall d s, match shift_all delta l d s with Ok (_, s') => ports s' = ports s | _ => True end.
Proof.
  induction l as [|q l IH]; intros d s; cbn [shift_all]; [done|]. destruct (heap s !! q) as [x|]; [|done]. cbn [mbind outcome_bind obind the]. cbv zeta.
  match goal with |- match shift_all _ _ ?d' ?s' with _ => _ end => specialize (IH d' s') end. by destruct (shift_all delta l _ _) as [[]| |].
Qed.

(** ** Sections that leave the counts alone *)

Lemma returns_cnt k x ret s : same_cnt k (ports s) (returns x ret s).
Proof. unfold returns. destruct (q_kind x); try done. destruct (ret <? 0); [|done]. apply cnt_the. intros p Hp. cbn. by eapply retry_set. Qed.
Lemma err1_cnt k q x ret s : same_cnt k (ports s) (err1 q x ret s).
Proof. apply (returns_cnt k x ret (with_note (N_failed x) (kfree q s))). Qed.
Lemma err3_cnt k q x ret s : same_cnt k (ports s) (err3 q x ret s).
Proof.
  unfold err3. apply cnt_bind_same; [apply put_client_ports|]. intros s1 E1. apply cnt_bind_same; [rewrite <- E1; apply free_mad_ports|]. intros s2 E2.
  rewrite <- E2. apply err1_cnt.
Qed.

Lemma callback_cnt k q st mad s : same_cnt k (ports s) (query_callback q st mad s).
Proof.
  unfold query_callback. apply cnt_the. intros x _. apply cnt_the. intros a _. cbv zeta. destruct (q_kind x) as [| | |opa]; try done.
  unfold classport_callback. apply cnt_the. intros p Hp. cbv zeta. change (ports (log_call _ _ _ s)) with (ports s) in *. 
  match goal with |- same_cnt _ _ (match p_run ?p' with _ => _ end) => assert (cp_retry_cnt (p_cpi p') = cp_retry_cnt (p_cpi p)) as E by (by repeat case_match); destruct (p_run p') as [|[]|] end; try done.
  cbn [same_cnt with_ports ports log_call set_query with_heap]. by eapply retry_set.
Qed.

Lemma handler_cnt k q st b s : same_cnt k (ports s) (send_handler q st b s).
Proof. unfold send_handler. apply cnt_the. intros x _. apply cnt_bind; [|done]. repeat case_match; try done. apply callback_cnt. Qed.

Lemma good_cnt k q attrs s : same_cnt k (ports s) (ib_nl_process_good_resolve_rsp q attrs s).
Proof.
  unfold ib_nl_process_good_resolve_rsp. apply cnt_the. intros x _. apply cnt_bind.
  - destruct (q_callback x); [|done]. apply cnt_the. intros rs _. destruct rs as [|[|]]; [apply callback_cnt..|done].
  - intros s1 E. eapply cnt_from; [apply handler_cnt|done].
Qed.

Lemma post_cnt k q ret s : same_cnt k (ports s) (sa_post q ret s).
Proof.
  unfold sa_post, ib_post_send_mad. apply cnt_the. intros x _. apply cnt_the. intros id _. destruct (ports s !! q_port x); [|done].
  cbn [the mbind outcome_bind obind]. destruct (ret =? 0); cbn [the mbind outcome_bind obind].
  - apply (returns_cnt k x id (with_posted (posted s ++ [(q, false)]) s)).
  - apply cnt_bind_same; [apply erase_ports|]. intros s1 <-. apply err3_cnt.
Qed.

Lemma create_cnt k q c a b s : same_cnt k (ports s) (sa_create q c a b s).
Proof.
  unfold sa_create. apply cnt_the. intros x _. apply cnt_the. intros ah _. apply cnt_the. intros h _. case_match; [|case_match].
  - apply cnt_bind_same; [apply put_ah_ports|]. intros s1 <-. apply err1_cnt.
  - apply cnt_bind_same; [apply put_ah_ports|]. intros s1 <-. apply err1_cnt.
  - apply cnt_bind_same; [apply client_get_ports|]. intros s1 <-. cnt_kept.
Qed.

Lemma nl_cnt k HZ q skb sent s : same_cnt k (ports s) (nl_request HZ q skb sent s).
Proof.
  unfold nl_request. apply cnt_the. intros x _. apply cnt_the. intros id _. cbv zeta. repeat case_match; try done;
    (eapply cnt_from; [apply returns_cnt|]; by rewrite ?timed_ports).
Qed.

Lemma done_cnt k q b s : same_cnt k (ports s) (send_handler_end q b s).
Proof.
  unfold send_handler_end. apply cnt_the. intros x _. apply cnt_bind_same; [apply erase_ports|]. intros s1 <-. apply cnt_bind_same; [apply free_mad_ports|]. intros s2 <-.
  apply cnt_bind_same; [apply put_client_ports|]. intros s3 <-. by destruct b.
Qed.

(** ** Every step *)

(** The steps that set the count of a port anew. *)
Definition resets (k : Z) (g : sstep) : bool :=
  match g with
  | P_event_end port reset => reset && (port =? k)
  | D_add _ _ _ _ _ => true
  | D_remove_port port => port =? k
  | _ => false
  end.

(** An attempt ends without the information. *)
Definition attempt_failed (k : Z) (g : sstep) (s : sa) : bool :=
  match g with
  | P_cpi_end port => (port =? k) && match ports s !! k with Some p => negb (cp_valid (p_cpi p)) | None => false end
  | _ => false
  end.

Lemma take_cnt k t s f : (forall s1, same_cnt k (ports s1) (f s1)) -> same_cnt k (ports s) (take_task t s ≫= f).
Proof. intros Hf. unfold take_task. case_decide; [|done]. apply (Hf (with_tasks (remove_first t (tasks s)) s)). Qed.

Lemma step_cnt HZ k g s : resets k g = false -> attempt_failed k g s = false -> same_cnt k (ports s) (s_run HZ g s).
Proof.
  intros Hr Hf. destruct g; cbn [s_run].
  - unfold sa_start. case_decide; [done|]. case_match; [done|]. apply cnt_the. intros p _. cnt_kept.
  - apply take_cnt. intros s1. unfold alloc_mad. apply cnt_the. intros x _. apply cnt_the. intros p _. case_match; [cnt_kept|apply err1_cnt].
  - apply take_cnt. intros s1. apply create_cnt.
  - apply take_cnt. intros s1. unfold send_mad. apply cnt_the. intros x _. destruct xa; [apply err3_cnt|]. cnt_kept.
  - apply take_cnt. intros s1. apply nl_cnt.
  - apply take_cnt. intros s1. apply post_cnt.
  - apply take_cnt. intros s1. apply good_cnt.
  - apply take_cnt. intros s1. apply handler_cnt.
  - apply take_cnt. intros s1. apply done_cnt.
  - case_decide; [|done]. unfold recv_handler. apply cnt_the. intros x _. case_match; [|done]. destruct r as [[]|]; (eapply cnt_from; [apply callback_cnt|done]).
  - case_decide; [|done]. eapply cnt_from; [apply handler_cnt|done].
  - unfold ib_nl_handle_resolve_resp, ib_post_send_mad. destruct (find_seq s seq (nl_list s)) as [o| |]; try done. cbn [mbind outcome_bind obind]. destruct o as [q|]; [|done].
    apply cnt_the. intros x _. destruct (q_cancel x); [done|]. destruct good; [done|].
    cbn [ports set_query with_heap with_nl_list]. destruct (ports s !! q_port x); [|done]. cbn [the mbind outcome_bind obind]. by destruct (post =? 0).
  - unfold ib_nl_handle_set_timeout. destruct timeout as [t|]; [|done]. cbv zeta. case_match; [done|].
    match goal with |- context [shift_all ?d ?l ?n ?s1] => pose proof (shift_ports d l n s1) as HP; destruct (shift_all d l n s1) as [[n' s2]| |] end; try done.
    cbn [mbind outcome_bind obind]. cbn in HP. unfold same_cnt. rewrite <- HP. by destruct (n' =? 0).
  - unfold timed_work_start. cnt_kept.
  - unfold ib_nl_request_timeout, ib_post_send_mad. destruct (tw_run s); try done. destruct (nl_list s) as [|q r]; [done|]. apply cnt_the. intros x _.
    case_match; [cbn; by rewrite timed_ports|]. cbn [ports set_query with_heap with_nl_list].
    destruct (ports s !! q_port x), (q_cancel x), (post =? 0); done.
  - unfold ib_sa_cancel_query. cnt_kept.
  - apply take_cnt. intros s1. unfold cancel_request. cnt_kept.
  - unfold ib_sa_register_client. cnt_kept.
  - unfold ib_sa_unregister_client. apply cnt_bind_same; [unfold ib_sa_client_put; ports_same|]. intros s1 E. cbn. by rewrite E.
  - apply take_cnt. intros s1. unfold client_wait. cnt_kept.
  - case_decide; [|done]. unfold ib_sa_event. case_match; [done|]. destruct (ports s !! port) as [p|] eqn:Hp; [|done].
    apply cnt_bind_same; [destruct (p_sm_ah p); [apply put_ah_ports|done]|]. intros s1 E. cbn. rewrite E. by eapply retry_set.
  - apply take_cnt. intros s1. unfold sa_event_end. apply cnt_the. intros p Hp. destruct reset; [|done]. cbn in Hr. apply Z.eqb_neq in Hr.
    cbn. unfold retry_cnt. by rewrite lookup_insert_ne.
  - unfold update_sm_ah. case_decide; [|done]. cbv zeta. apply cnt_the. intros p Hp. destruct new as [h|]; [|done]. case_decide; [done|].
    apply cnt_bind_same; [destruct (p_sm_ah p); [match goal with |- same_ports _ (kref_put_ah ?b ?s1) => apply (put_ah_ports b s1) end|done]|]. intros s1 E. cbn. rewrite E. by eapply retry_set.
  - unfold update_ib_cpi. case_decide; [|done]. apply cnt_the. intros p Hp. repeat (case_match; try done); cbn; by eapply retry_set.
  - unfold cpi_wait. destruct (ports s !! port) as [p|] eqn:Hp; [|done]. destruct (p_run p) as [|[]|]; try done. cbn. by eapply retry_set.
  - unfold cpi_end. destruct (ports s !! port) as [p|] eqn:Hp; [|done]. destruct (p_run p); try done. cbv zeta. cbn in Hf.
    destruct (cp_valid (p_cpi p)) eqn:Ev; [cbn; by eapply retry_set|].
    assert (port <> k) as Hk by (intros ->; by rewrite Z.eqb_refl, Hp, Ev in Hf).
    unfold same_cnt. destruct (_ <=? _); cbn [with_cpi_pending with_ports ports]; unfold retry_cnt; by rewrite lookup_insert_ne.
  - done.
  - unfold remove_quiet. cnt_kept.
  - unfold remove_flush. cnt_kept.
  - unfold remove_port. case_decide; [|done]. apply cnt_the. intros p Hp. destruct (p_run p); try done. case_match; [done|].
    apply cnt_bind_same; [destruct (p_sm_ah p); [apply put_ah_ports|done]|]. intros s1 E. cbn. cbn in Hr. apply Z.eqb_neq in Hr. unfold retry_cnt. by rewrite E, lookup_delete_ne.
  - unfold remove_end. cnt_kept.
  - by destruct (0 <=? n).
Qed.

(** A failed attempt adds one, and queues the work item again only up to the limit. *)
Lemma failed_cnt HZ k g s s' c : attempt_failed k g s = true -> s_run HZ g s = Ok s' -> retry_cnt k (ports s) = Some c -> retry_cnt k (ports s') = Some (c + 1).
Proof.
  destruct g; cbn [attempt_failed s_run]; try done. intros [->%Z.eqb_eq Hv]%andb_true_iff. unfold cpi_end, retry_cnt. destruct (ports s !! k) as [p|]; [|done].
  apply negb_true_iff in Hv. destruct (p_run p); try done. rewrite Hv. cbv zeta. intros Hs Hc. injection Hc as <-. case_match; injection Hs as <-; cbn; by rewrite lookup_insert_eq.
Qed.

(** ** Runs *)

(** A run in which the count of port [k] is not set anew, with the number of failed attempts. *)
Inductive attempts {rule : attr_rule} (HZ k : Z) : nat -> sa -> sa -> Prop :=
| at_here s : attempts HZ k 0 s s
| at_step n s g s1 s' : client_ok g s -> resets k g = false -> s_run HZ g s = Ok s1 -> attempts HZ k n s1 s' ->
    attempts HZ k ((if attempt_failed k g s then 1 else 0) + n) s s'.

Lemma attempts_cnt {rule : attr_rule} HZ k n s s' c :
  attempts HZ k n s s' -> retry_cnt k (ports s) = Some c -> retry_cnt k (ports s') = Some (c + Z.of_nat n).
Proof.
  intros H. revert c. induction H as [s|n s g s1 s' _ Hr Hs _ IH]; intros c Hc; [by rewrite Hc, Z.add_0_r|].
  destruct (attempt_failed k g s) eqn:Ef.
  - rewrite (IH (c + 1)); [f_equal; lia|]. by eapply failed_cnt.
  - apply IH. pose proof (step_cnt HZ k g s Hr Ef) as H. rewrite Hs in H. cbn in H. congruence.
Qed.

Lemma attempts_reachable {rule : attr_rule} HZ k n s s' : s_reachable HZ s -> attempts HZ k n s s' -> s_reachable HZ s'.
Proof. intros Hr H. induction H as [|n s g s1 s' Hok _ Hs _ IH]; [done|]. apply IH. by eapply s_next. Qed.
