(* ===== verification/SaRuns.v ===== *)
(** * Queries of subnet administration: what runs show *)

From Stdlib Require Import ZArith Lia.
From stdpp Require Import base tactics numbers list option gmap gmultiset strings.
From S2P Require Import Prelude Packer UdHeader SaRec Outcome SaQuery SaInv SaSteps SaRetry.

Local Open Scope Z_scope.

Section runs.
Context (HZ : Z) {rule : attr_rule}.

Lemma sa_init_inv : inv ∅ (tasks sa_init) sa_init.
Proof.
  split; cbn.
  - split; [done|]. split; [by rewrite !dom_empty_L|]. intros q g x. by rewrite lookup_empty.
  - intros k q. rewrite lookup_empty. split; [done|]. intros (x & Hx & _). by rewrite lookup_empty in Hx.
  - intros k. rewrite lookup_empty. done.
  - split; [|constructor|..]; try (intros c Hc; by apply elem_of_nil in Hc). intros c. rewrite lookup_empty. split; [done|set_solver].
  - split; intros *; by rewrite lookup_empty.
  - split; try done. intros p Hp. by apply elem_of_nil in Hp.
  - by split.
  - constructor.
  - constructor.
Qed.

Lemma sa_reachable_inv s : s_reachable HZ s -> exists m, inv m (tasks s) s.
Proof.
  induction 1 as [|s g s' _ [m HI] Hok Hs]; [exists ∅; apply sa_init_inv|]. destruct (sa_step_good HZ m s g HI Hok) as [HG|[HG _]]; rewrite Hs in HG; done.
Qed.

(** ** No bugs *)

Lemma step_faults s g : s_reachable HZ s -> client_ok g s -> s_run HZ g s = Bug -> known_fault g s.
Proof.
  intros Hr Hok Hs. destruct (sa_reachable_inv s Hr) as [m HI]. destruct (sa_step_good HZ m s g HI Hok) as [HG|[_ H]]; [by rewrite Hs in HG|done].
Qed.

Lemma short_rec_found attrs : ~ Forall whole_rec attrs -> exists a, a ∈ attrs /\ a.1 = LS_NLA_TYPE_PATH_RECORD /\ (length a.2 < 72)%nat.
Proof.
  induction attrs as [|a attrs IH]; intros H; [by destruct H|].
  destruct (decide (a.1 = LS_NLA_TYPE_PATH_RECORD /\ (length a.2 < 72)%nat)) as [Ha|Ha]; [exists a; by split; [left|]|].
  destruct IH as (b & Hb & H1); [|exists b; by split; [right|]]. intros Hf. apply H. constructor; [|done]. intros E. lia.
Qed.

(** ** Reports *)

(** C13. Every query that ended was reported to its client exactly once, if it has a callback; a query
    whose start failed was not reported; and no live query was reported more than once. *)
Theorem sa_queries_reported_once s : s_reachable HZ s ->
  (forall x, N_done x ∈ notes s -> length (q_calls x) = if q_callback x then 1%nat else 0%nat) /\
  (forall x, N_failed x ∈ notes s -> q_calls x = []) /\
  (forall q x, heap s !! q = Some x -> (length (q_calls x) <= 1)%nat).
Proof.
  intros Hr. destruct (sa_reachable_inv s Hr) as [m HI]. pose proof (i_notes HI) as Hn. rewrite list.Forall_forall in Hn. split; [|split].
  - intros x Hx. apply (Hn _ Hx).
  - intros x Hx. apply (Hn _ Hx).
  - intros q x Hx. destruct (i_stages HI) as (_ & Hd & Hs). assert (q ∈ dom m) as [g Hg]%elem_of_dom by (rewrite Hd; by apply elem_of_dom_2 in Hx).
    rewrite (so_calls _ _ (Hs q g x Hg Hx)). destruct g; try lia. unfold reports. destruct (q_callback x); lia.
Qed.

(** ** References *)

(** The queries of a client, the users of a handle. *)
Definition queries_of (s : sa) (c : Z) : nat := multiplicity c (tally q_clients (heap s)).
Definition users_of (s : sa) (a : positive) : nat := (multiplicity a (tally q_refs (heap s)) + multiplicity a (tally p_refs (ports s)))%nat.

Lemma no_users_empty s : heap s = ∅ -> ports s = ∅ -> forall a, users_of s a = 0%nat.
Proof. intros E1 E2 a. unfold users_of. by rewrite E1, E2. Qed.

(** C14. The counts are exact: a handle lives as long as it has users and counts them; a client counts
    its queries and itself; the identifiers are those of the queries that have one. *)
Theorem sa_references_exact s : s_reachable HZ s ->
  (forall a, match ahs s !! a with Some h => ah_ref h = Z.of_nat (users_of s a) /\ 0 < ah_ref h | None => users_of s a = 0%nat end) /\
  (forall c, match clients s !! c with
             | Some n => n = Z.of_nat (queries_of s c) + (if decide (c ∈ registered s) then 1 else 0)
             | None => queries_of s c = 0%nat /\ c ∉ registered s
             end) /\
  (forall i q, ids s !! i = Some q <-> exists x, heap s !! q = Some x /\ q_id x = Some i).
Proof.
  intros Hr. destruct (sa_reachable_inv s Hr) as [m HI]. split; [|split].
  - intros a. pose proof (i_ahs HI a) as H. unfold users_of. rewrite multiplicity_disj_union in H. destruct (ahs s !! a); [split; apply H|done].
  - apply (i_clients HI).
  - apply (i_ids HI).
Qed.

(** When nothing is under way and the device is gone, nothing is left: no handle, no identifier, no
    request, no send; the clients count themselves. *)
Theorem sa_all_given_back s : s_reachable HZ s -> heap s = ∅ -> ports s = ∅ ->
  ahs s = ∅ /\ ids s = ∅ /\ nl_list s = [] /\ posted s = [] /\ forall c n, clients s !! c = Some n -> n = if decide (c ∈ registered s) then 1 else 0.
Proof.
  intros Hr Eh Ep. destruct (sa_reachable_inv s Hr) as [m HI]. destruct (i_stages HI) as (HP & Hd & _). assert (m = ∅) as ->.
  { apply dom_empty_inv_L. by rewrite Hd, Eh, dom_empty_L. }
  rewrite map_to_list_empty in HP. apply Permutation_nil_r in HP. unfold holders in HP. apply app_nil in HP as [Hn HP]. apply app_nil in HP as [Hpo _]. split; [|split; [|split; [|split]]].
  - apply map_eq. intros a. rewrite lookup_empty. pose proof (i_ahs HI a) as H. destruct (ahs s !! a); [|done]. exfalso. rewrite multiplicity_disj_union in H.
    pose proof (no_users_empty s Eh Ep a) as H0. unfold users_of in H0. lia.
  - apply map_eq. intros i. rewrite lookup_empty. destruct (ids s !! i) as [q|] eqn:E; [|done]. apply (i_ids HI) in E as (x & Hx & _). by rewrite Eh in Hx.
  - by apply fmap_nil_inv in Hn.
  - by apply fmap_nil_inv in Hpo.
  - intros c n Hc. pose proof (ci_count _ _ _ _ (i_clients HI) c) as H. rewrite Hc, Eh, tally_empty, multiplicity_empty in H. rewrite H. by case_decide.
Qed.

(** ** The local service *)

(** C16. While there are requests, the timer is set or its work item runs; a work item that waits for
    [send_handler] has its thread. The class port query of a port ends without the information at
    most four times, that is, it is retried at most three times, in every run in which the count is
    not set anew by an event or by adding or removing the port ([attempts] counts them); and after the
    fourth time its work item is neither queued nor running. *)
Theorem sa_requests_have_a_timer s : s_reachable HZ s ->
  (nl_list s <> [] -> is_Some (tw_pending s) \/ tw_run s <> TR_no) /\
  (forall q, tw_run s = TR_wait q -> exists t, t ∈ tasks s /\ timer_task q t = true) /\
  (forall k p, ports s !! k = Some p -> 0 <= cp_retry_cnt (p_cpi p) <= IB_SA_CPI_MAX_RETRY_CNT + 1) /\
  (forall k n s' p, ports s !! k = Some p -> attempts HZ k n s s' ->
     Z.of_nat n <= IB_SA_CPI_MAX_RETRY_CNT + 1 - cp_retry_cnt (p_cpi p) /\
     (Z.of_nat n = IB_SA_CPI_MAX_RETRY_CNT + 1 -> k ∉ cpi_pending s' /\ exists p', ports s' !! k = Some p' /\ p_run p' = CR_no)).
Proof.
  intros Hr. destruct (sa_reachable_inv s Hr) as [m HI]. split; [|split; [|split]].
  - apply (i_timer HI).
  - intros q Hq. pose proof (ti_wait _ _ _ _ (i_timer HI) q Hq) as H. by apply list.Exists_exists in H.
  - intros k p Hp. apply (wi_retry _ _ _ _ _ (i_works HI) k p Hp).
  - intros k n s' p Hp Ha. pose proof (wi_retry _ _ _ _ _ (i_works HI) k p Hp) as ([R _] & _).
    destruct (sa_reachable_inv s' (attempts_reachable HZ k n s s' Hr Ha)) as [m' HI'].
    pose proof (attempts_cnt HZ k n s s' (cp_retry_cnt (p_cpi p)) Ha) as E. unfold retry_cnt in E. rewrite Hp in E. specialize (E eq_refl).
    destruct (ports s' !! k) as [p'|] eqn:Hp'; [|done]. injection E as E. destruct (wi_retry _ _ _ _ _ (i_works HI') k p' Hp') as (R1 & R2 & _).
    split; [lia|]. intros En. split; [intros Hin; specialize (R2 (or_introl Hin)); lia|]. exists p'. split; [done|].
    destruct (decide (p_run p' = CR_no)) as [|Hn]; [done|]. specialize (R2 (or_intror Hn)). lia.
Qed.

End runs.

(** C12. In every run in which queries are started by registered clients and a device is removed when
    the queries left on its ports are with the MAD layer ([client_ok], [quiet_removal];
    [removal_leaves_requests] shows what happens otherwise), whatever the interleaving and whatever
    attributes the local service answers with, a step uses freed memory, memory behind an attribute or
    a reference that is not there in two cases only: the second half of [ib_sa_cancel_query] when its
    query has ended in between, and an answer of the local service with an attribute that is shorter
    than a path record. *)
Theorem sa_queries_never_bug HZ s g : @s_reachable HZ any_attrs s -> @client_ok any_attrs g s -> s_run HZ g s = Bug ->
  (exists q, g = C_cancel_mad q /\ heap s !! q = None) \/
  (exists q attrs a, g = Q_good q attrs /\ a ∈ attrs /\ a.1 = LS_NLA_TYPE_PATH_RECORD /\ (length a.2 < 72)%nat).
Proof.
  intros Hr Hok Hs. pose proof (step_faults HZ s g Hr Hok Hs) as H. destruct g; try done; [right|left; eauto].
  destruct H as [_ (a & Ha)%short_rec_found]. eauto.
Qed.

(** ** Every query ends *)

Section ends.
Context (HZ : Z).
Local Existing Instance whole_attrs.

(** What is still to do for the queries. *)
Definition task_weight (t : task) : nat :=
  match t with
  | T_alloc _ _ => 8 | T_create _ _ => 7 | T_send _ => 6 | T_nl _ => 5 | T_post _ => 4 | T_good _ _ => 2 | T_fail _ _ _ => 2 | T_done _ _ => 1 | _ => 0
  end.
Definition post_weight (p : positive * bool) : nat := if p.2 then 2 else 3.
Definition weight (s : sa) : nat := 4 * length (nl_list s) + sum_list_with post_weight (posted s) + sum_list_with task_weight (tasks s).

(** A section that does not wait, and leaves no more than [n] to do. *)
Definition within (n : nat) (o : outcome sa) : Prop := match o with Ok s => (weight s <= n)%nat | Bug => True | Block => False end.

Lemma within_bind n n' (o : outcome sa) f : within n o -> (forall s, (weight s <= n)%nat -> within n' (f s)) -> within n' (o ≫= f).
Proof. destruct o; cbn; auto. Qed.

Lemma within_the {A} n (o : option A) f : (forall x, o = Some x -> within n (f x)) -> within n (the o ≫= f).
Proof. destruct o; cbn; auto. Qed.

Lemma within_le n n' o : within n o -> (n <= n')%nat -> within n' o.
Proof. destruct o; cbn; lia. Qed.

Lemma weight_add t s : weight (add_task t s) = (weight s + task_weight t)%nat.
Proof. unfold weight. cbn. rewrite sum_list_with_app. cbn. lia. Qed.

Lemma weight_task t s : t ∈ tasks s -> weight s = (task_weight t + weight (with_tasks (remove_first t (tasks s)) s))%nat.
Proof.
  intros H. unfold weight. cbn. assert (sum_list_with task_weight (tasks s) = sum_list_with task_weight (t :: remove_first t (tasks s))) as -> by (by rewrite <- remove_first_perm).
  cbn. lia.
Qed.

Ltac through := repeat (apply within_the; intros ? ?).
Ltac weigh := cbn [within]; rewrite ?weight_add; unfold weight in *; cbn in *; lia.
Ltac settle := through; repeat case_match; through; cbn [within]; first [done | apply Nat.le_refl].

Lemma put_ah_within a s : within (weight s) (kref_put_ah a s).
Proof. unfold kref_put_ah. settle. Qed.

Lemma put_client_within x s : within (weight s) (put_client x s).
Proof. unfold put_client, ib_sa_client_put. destruct (q_client x); settle. Qed.

Lemma returns_within x ret s : within (weight s) (returns x ret s).
Proof. unfold returns. destruct (q_kind x); settle. Qed.

Lemma err1_within q x ret s : within (weight s) (err1 q x ret s).
Proof. apply (returns_within x ret (with_note (N_failed x) (kfree q s))). Qed.

Lemma err3_within q x ret s : within (weight s) (err3 q x ret s).
Proof.
  unfold err3. eapply within_bind; [apply put_client_within|]. intros s1 Hw1. eapply within_bind.
  - unfold free_mad. apply within_the. intros a _. eapply within_le; [apply put_ah_within|exact Hw1].
  - intros s2 Hw2. eapply within_le; [apply err1_within|exact Hw2].
Qed.

Lemma alloc_within q c s : within (weight s + 7) (alloc_mad q c s).
Proof.
  unfold alloc_mad. through. case_match; [|eapply within_le; [apply err1_within|lia]]. through. weigh.
Qed.

Lemma create_within q c a b s : within (weight s + 6) (sa_create q c a b s).
Proof.
  unfold sa_create. through. case_match; [|case_match].
  - eapply within_bind; [apply put_ah_within|]. intros s1 Hw1. eapply within_le; [apply err1_within|lia].
  - eapply within_bind; [apply put_ah_within|]. intros s1 Hw1. eapply within_le; [apply err1_within|lia].
  - eapply (within_bind (weight s)).
    + unfold ib_sa_client_get. destruct c; settle.
    + intros s1 Hw1. through. weigh.
Qed.

Lemma send_within q xa l s : (forall i, xa = inr i -> ids s !! i = None) -> within (weight s + 5) (send_mad q xa l s).
Proof.
  intros Hx. unfold send_mad. through. destruct xa as [ret|i]; [eapply within_le; [apply err3_within|lia]|]. rewrite decide_False by (rewrite Hx by done; by intros []).
  destruct (send_timeouts _). cbv zeta. repeat case_match; weigh.
Qed.

Lemma nl_within q skb sent s : within (weight s + 4) (nl_request HZ q skb sent s).
Proof.
  unfold nl_request. through. cbv zeta. case_match; [weigh|].
  case_match; [weigh|].
  eapply within_le; [apply returns_within|]. match goal with |- (weight (if _ then _ else ?s1) <= _)%nat => assert (weight s1 = weight s + 4)%nat as E end.
  { unfold weight. cbn. rewrite length_app. cbn. lia. }
  case_match; [|lia]. unfold queue_timed_work. case_match; [lia|]. weigh.
Qed.

Lemma weight_posted q s : weight (with_posted (posted s ++ [(q, false)]) s) = (weight s + 3)%nat.
Proof. unfold weight. cbn. rewrite sum_list_with_app. cbn. lia. Qed.

Lemma post_within q ret s : within (weight s + 3) (sa_post q ret s).
Proof.
  unfold sa_post, ib_post_send_mad. apply within_the. intros x _. apply within_the. intros id _. destruct (ports s !! q_port x); [|done].
  cbn [the mbind outcome_bind obind]. destruct (ret =? 0); cbn [the mbind outcome_bind obind].
  - eapply within_le; [apply returns_within|]. by rewrite weight_posted.
  - unfold xa_erase. eapply (within_bind (weight s)); [settle|]. intros s1 Hw1. eapply within_le; [apply err3_within|lia].
Qed.

Lemma callback_within q st mad s : within (weight s) (query_callback q st mad s).
Proof. unfold query_callback. through. cbv zeta. destruct (q_kind x) as [| | |opa]; [settle..|]. unfold classport_callback. through. cbv zeta. settle. Qed.

Lemma handler_within q st b s : within (weight s + 1) (send_handler q st b s).
Proof.
  unfold send_handler. through. eapply (within_bind (weight s)); [repeat case_match; first [apply callback_within|apply Nat.le_refl]|]. intros s1 Hw1. weigh.
Qed.

Lemma good_within q attrs s : within (weight s + 1) (ib_nl_process_good_resolve_rsp q attrs s).
Proof.
  unfold ib_nl_process_good_resolve_rsp. through. eapply (within_bind (weight s)).
  - case_match; [|apply Nat.le_refl]. through. destruct x0 as [|[|]]; [apply callback_within..|apply Nat.le_refl].
  - intros s1 Hw1. eapply within_le; [apply handler_within|lia].
Qed.

Lemma end_within q b s : within (weight s) (send_handler_end q b s).
Proof.
  unfold send_handler_end. through. eapply (within_bind (weight s)); [unfold xa_erase; settle|]. intros s1 Hw1.
  eapply (within_bind (weight s)); [unfold free_mad; apply within_the; intros a _; eapply within_le; [apply put_ah_within|done]|]. intros s2 Hw2.
  eapply (within_bind (weight s)); [eapply within_le; [apply put_client_within|done]|]. intros s3 Hw3. destruct b; exact Hw3.
Qed.

Lemma recv_within q r s : within (weight s) (recv_handler q r s).
Proof. unfold recv_handler. through. case_match; [|apply Nat.le_refl]. destruct r as [[]|]; apply callback_within. Qed.

(** What the functions the code calls answer; [o_resp]: the response of a send, if it comes. *)
Record answers := {
  o_query_ok : sa -> positive -> bool;
  o_mad_ok : sa -> positive -> bool;
  o_xa : sa -> positive -> Z + Z;
  o_listeners : sa -> positive -> bool;
  o_skb : sa -> positive -> bool;
  o_sent : sa -> positive -> Z;
  o_post : sa -> positive -> Z;
  o_resp : sa -> positive -> option (option (Z * list Z));
  o_status : sa -> positive -> wc_status
}.

Record answers_ok (o : answers) : Prop := {
  ok_xa s q : match o_xa o s q with inl e => e < 0 | inr i => 0 <= i /\ ids s !! i = None end;
  ok_post s q : o_post o s q <= 0;
  ok_resp s q st data : o_resp o s q = Some (Some (st, data)) -> attr_ok data;
  ok_status s q : o_status o s q <> IB_WC_SUCCESS
}.

(** The steps of queries that are under way, with these answers; time passes. *)
Definition by_answers (o : answers) (g : sstep) (s : sa) : Prop :=
  match g with
  | Q_alloc _ _ | Q_good _ _ | Q_fail _ _ _ | Q_done _ _ | L_fire | Tick _ => True
  | Q_create q _ a b => a = o_query_ok o s q /\ b = o_mad_ok o s q
  | Q_send q xa l => xa = o_xa o s q /\ l = o_listeners o s q
  | Q_nl q skb sent => skb = o_skb o s q /\ sent = o_sent o s q
  | Q_post q ret => ret = o_post o s q
  | L_loop ret => forall q r, nl_list s = q :: r -> ret = o_post o s q
  | M_recv q r => o_resp o s q = Some r
  | M_send q st => st = IB_WC_SUCCESS \/ o_resp o s q = None /\ st = o_status o s q
  | _ => False
  end.

Inductive o_runs (o : answers) : sa -> sa -> Prop :=
| o_here s : o_runs o s s
| o_step s g s1 s' : by_answers o g s -> s_run HZ g s = Ok s1 -> o_runs o s1 s' -> o_runs o s s'.

Lemma by_answers_ok o g s : answers_ok o -> by_answers o g s -> client_ok g s.
Proof.
  intros Ho. destruct g; try done; cbn.
  - intros [-> _]. pose proof (ok_xa _ Ho s q) as H. destruct (o_xa o s q); [done|apply H].
  - intros ->. apply (ok_post _ Ho).
  - intros H. destruct r as [[st data]|]; [|done]. by eapply (ok_resp _ Ho).
Qed.

Lemma o_reachable o s s' : answers_ok o -> s_reachable HZ s -> o_runs o s s' -> s_reachable HZ s'.
Proof. intros Ho Hr H. induction H as [|s g s1 s' Hb Hs _ IH]; [done|]. apply IH. eapply s_next; [done|by eapply by_answers_ok|done]. Qed.

(** With whole records nothing goes wrong. *)
Lemma no_fault o g s m : inv m (tasks s) s -> by_answers o g s -> ~ known_fault g s.
Proof.
  intros HI Hb Hf. destruct g; try done. destruct Hf as [Ht Hf]. apply Hf. pose proof (i_tasks HI) as HT. rewrite list.Forall_forall in HT.
  specialize (HT _ Ht). eapply Forall_impl; [exact HT|]. by intros a [Ha _].
Qed.

(** A step that does not wait and leaves less. *)
Lemma advance o g s n : answers_ok o -> s_reachable HZ s -> by_answers o g s -> (n < weight s)%nat -> within n (s_run HZ g s) ->
  exists s', o_runs o s s' /\ (weight s' < weight s)%nat.
Proof.
  intros Ho Hr Hb Hn Hw. destruct (sa_reachable_inv HZ s Hr) as [m HI]. pose proof (sa_step_good HZ m s g HI (by_answers_ok _ _ _ Ho Hb)) as HG.
  destruct (s_run HZ g s) as [s'| |] eqn:E; [|exfalso; destruct HG as [HG|[_ HG]]; [done|by eapply no_fault]|done]. exists s'. split; [eapply o_step; [done..|constructor]|]. unfold within in Hw. lia.
Qed.

Lemma advance_task o g t f s k : answers_ok o -> s_reachable HZ s -> by_answers o g s -> t ∈ tasks s -> s_run HZ g s = (s1 ← take_task t s; f s1) ->
  (forall s1, ids s1 = ids s -> within (weight s1 + k) (f s1)) -> (k < task_weight t)%nat -> exists s', o_runs o s s' /\ (weight s' < weight s)%nat.
Proof.
  intros Ho Hr Hb Ht E Hf Hk. pose proof (weight_task t s Ht) as W. eapply (advance o g s (weight (with_tasks (remove_first t (tasks s)) s) + k) Ho Hr Hb); [lia|].
  rewrite E. unfold take_task. rewrite decide_True by done. by apply Hf.
Qed.

Lemma task_advances o s t : answers_ok o -> s_reachable HZ s -> t ∈ tasks s -> (0 < task_weight t)%nat -> exists s', o_runs o s s' /\ (weight s' < weight s)%nat.
Proof.
  intros Ho Hr Ht Hw. destruct t; cbn in Hw; try lia.
  - eapply (advance_task o (Q_alloc q client)); [done..|intros s1 _; apply alloc_within|cbn; lia].
  - eapply (advance_task o (Q_create q client (o_query_ok o s q) (o_mad_ok o s q))); [done..|intros s1 _; apply create_within|cbn; lia].
  - eapply (advance_task o (Q_send q (o_xa o s q) (o_listeners o s q))); [done..|intros s1 Hi; apply send_within|cbn; lia].
    intros i Hx. rewrite Hi. pose proof (ok_xa _ Ho s q) as H. rewrite Hx in H. apply H.
  - eapply (advance_task o (Q_nl q (o_skb o s q) (o_sent o s q))); [done..|intros s1 _; apply nl_within|cbn; lia].
  - eapply (advance_task o (Q_post q (o_post o s q))); [done..|intros s1 _; apply post_within|cbn; lia].
  - eapply (advance_task o (Q_good q attrs)); [done..|intros s1 _; apply good_within|cbn; lia].
  - eapply (advance_task o (Q_fail q status by_timer)); [done..|intros s1 _; apply handler_within|cbn; lia].
  - eapply (advance_task o (Q_done q by_timer) _ _ _ 0%nat); [done..|intros s1 _; rewrite Nat.add_0_r; apply end_within|cbn; lia].
Qed.

Lemma weight_post q b s : (q, b) ∈ posted s -> weight s = (post_weight (q, b) + weight (with_posted (remove_first (q, b) (posted s)) s))%nat.
Proof.
  intros H. unfold weight. cbn [posted nl_list tasks with_posted]. assert (sum_list_with post_weight (posted s) = sum_list_with post_weight ((q, b) :: remove_first (q, b) (posted s))) as -> by (by rewrite <- remove_first_perm).
  cbn. lia.
Qed.

Lemma post_advances o s q b : answers_ok o -> s_reachable HZ s -> (q, b) ∈ posted s -> exists s', o_runs o s s' /\ (weight s' < weight s)%nat.
Proof.
  intros Ho Hr Hq. pose proof (weight_post q b s Hq) as W. set (s1 := with_posted (remove_first (q, b) (posted s)) s) in *. destruct b.
  - eapply (advance o (M_send q IB_WC_SUCCESS) s (weight s1 + 1) Ho Hr); [by left|unfold post_weight in W; cbn [snd] in W; lia|]. cbn [s_run]. rewrite bool_decide_eq_true_2, decide_True by done. apply handler_within.
  - destruct (o_resp o s q) as [r|] eqn:Er.
    + eapply (advance o (M_recv q r) s (weight s1 + 2) Ho Hr); [done|unfold post_weight in W; cbn [snd] in W; lia|]. cbn [s_run]. rewrite decide_True by done. eapply within_le; [apply recv_within|].
      unfold s1, weight. cbn. rewrite sum_list_with_app. cbn. lia.
    + eapply (advance o (M_send q (o_status o s q)) s (weight s1 + 1) Ho Hr); [by right|unfold post_weight in W; cbn [snd] in W; lia|]. cbn [s_run].
      rewrite bool_decide_eq_false_2 by apply (ok_status _ Ho). rewrite decide_True by done. apply handler_within.
Qed.

(** *** The list: the timer takes its first request. *)

Lemma tick_reachable n s : s_reachable HZ s -> 0 <= n -> s_reachable HZ (with_jiffies (jiffies s + n) s).
Proof. intros Hr Hn. eapply (s_next HZ s (Tick n)); [done|done|]. cbn. by rewrite (proj2 (Z.leb_le _ _)). Qed.

Lemma loop_advances o s q r x : answers_ok o -> s_reachable HZ s -> tw_run s = TR_loop -> nl_list s = q :: r -> heap s !! q = Some x -> q_timeout x <= jiffies s ->
  exists s', o_runs o s s' /\ (weight s' < weight s)%nat.
Proof.
  intros Ho Hr Ht El Hx Hj. eapply (advance o (L_loop (o_post o s q)) s (weight s - 1) Ho Hr); [by intros q' r'; rewrite El; intros [= <- <-]| |].
  { unfold weight. rewrite El. cbn. lia. }
  cbn [s_run]. unfold ib_nl_request_timeout. rewrite Ht, El, Hx. cbn [mbind outcome_bind obind the]. rewrite (proj2 (Z.ltb_ge _ _)) by done.
  set (s1 := set_query q (set_local false x) (with_nl_list r s)). assert (weight s = weight s1 + 4)%nat as W by (unfold s1, weight; cbn; rewrite El; cbn; lia). rewrite W.
  unfold ib_post_send_mad. change (ports s1) with (ports s). destruct (ports s !! q_port x); [|by destruct (q_cancel x)]. cbn [mbind outcome_bind obind the].
  assert (within (weight s1 + 3) (Ok (add_task (T_fail q IB_WC_WR_FLUSH_ERR true) (with_tw_run (TR_wait q) s1)))) as Hf.
  { unfold within. rewrite weight_add. cbn [task_weight]. change (weight (with_tw_run (TR_wait q) s1)) with (weight s1). lia. }
  apply (within_le (weight s1 + 3)); [|lia]. destruct (q_cancel x); [exact Hf|]. destruct (_ =? 0); [|exact Hf].
  cbn [mbind outcome_bind obind]. unfold within. by rewrite (weight_posted q s1).
Qed.

Lemma o_trans o s s1 s2 : o_runs o s s1 -> o_runs o s1 s2 -> o_runs o s s2.
Proof. induction 1; [done|]. intros. eapply o_step; eauto. Qed.

Lemma list_advances o s : answers_ok o -> s_reachable HZ s -> nl_list s <> [] -> exists s', o_runs o s s' /\ (weight s' < weight s)%nat.
Proof.
  intros Ho Hr Hn. destruct (sa_reachable_inv HZ s Hr) as [m HI]. destruct (nl_list s) as [|q r] eqn:El; [done|]. destruct (listed m s q HI) as (x & Hx & _); [rewrite El; left|].
  assert (forall n, 0 <= n -> o_runs o s (with_jiffies (jiffies s + n) s)) as Htick.
  { intros n Hle. eapply (o_step o s (Tick n)); [done|cbn; by rewrite (proj2 (Z.leb_le _ _))|constructor]. }
  destruct (tw_run s) as [| |q'] eqn:Et.
  - destruct (ti_armed _ _ _ _ (i_timer HI)) as [[e Ee]|]; [by rewrite El| |done]. set (n := Z.max 0 (Z.max e (q_timeout x) - jiffies s)).
    set (s1 := with_jiffies (jiffies s + n) s). set (s2 := with_tw_run TR_loop (with_tw_pending None s1)).
    assert (s_run HZ L_fire s1 = Ok s2) as E1. { cbn [s_run]. unfold timed_work_start. cbn. rewrite Ee, Et. rewrite (proj2 (Z.leb_le _ _)); [done|]. unfold n. lia. }
    assert (s_reachable HZ s1) as R1 by (apply tick_reachable; [done|lia]). assert (s_reachable HZ s2) as R2 by (by eapply (s_next HZ s1 L_fire)).
    destruct (loop_advances o s2 q r x Ho R2) as (s' & H1 & H2); [done..|cbn; unfold n; lia|]. exists s'. split; [|exact H2].
    eapply o_trans; [apply (Htick n); lia|]. by eapply (o_step o s1 L_fire).
  - set (n := Z.max 0 (q_timeout x - jiffies s)). set (s1 := with_jiffies (jiffies s + n) s). assert (s_reachable HZ s1) as R1 by (apply tick_reachable; [done|lia]).
    destruct (loop_advances o s1 q r x Ho R1) as (s' & H1 & H2); [done..|cbn; unfold n; lia|]. exists s'. split; [|exact H2]. eapply o_trans; [apply (Htick n); lia|done].
  - pose proof (ti_wait _ _ _ _ (i_timer HI) q' Et) as (t & Ht & Htt)%list.Exists_exists. apply (task_advances o s t Ho Hr Ht). destruct t; try done; cbn; lia.
Qed.

(** C15. No state is stuck: whatever the functions the code calls answer, the steps of the threads that
    are there, of the MAD layer and of the timer, with time passing, lead from every state that is
    reachable with whole path records from the local service to one without queries. *)
Theorem sa_queries_end o s : answers_ok o -> @s_reachable HZ whole_attrs s -> exists s', o_runs o s s' /\ @s_reachable HZ whole_attrs s' /\ heap s' = ∅.
Proof.
  intros Ho. remember (weight s) as n eqn:En. revert s En. induction n as [n IH] using lt_wf_ind. intros s -> Hr. destruct (decide (heap s = ∅)) as [|Hne]; [exists s; by split; [constructor|]|].
  destruct (sa_reachable_inv HZ s Hr) as [m HI]. assert (exists s', o_runs o s s' /\ (weight s' < weight s)%nat) as (s1 & H1 & W1).
  { apply map_choose in Hne as (q & x & Hx). destruct (i_stages HI) as (HP & Hd & _). assert (q ∈ dom m) as [g Hg]%elem_of_dom by (rewrite Hd; by apply elem_of_dom_2 in Hx).
    apply elem_of_map_to_list in Hg. rewrite <- HP in Hg. unfold holders in Hg. apply elem_of_app in Hg as [Hg|[Hg|Hg]%elem_of_app].
    - apply list_advances; [done..|]. intros E. rewrite E in Hg. by apply elem_of_nil in Hg.
    - apply list_elem_of_fmap in Hg as ([q' b] & _ & Hin). by eapply post_advances.
    - apply list_elem_of_bind in Hg as (t & Ht1 & Ht2). apply (task_advances o s t Ho Hr Ht2). destruct t; cbn in *; lia || by apply elem_of_nil in Ht1. }
  destruct (IH (weight s1) W1 s1 eq_refl) as (s' & H2 & R2 & E2); [by eapply o_reachable|]. exists s'. split; [by eapply o_trans|done].
Qed.
End ends.

(** ** Schedules that are evaluated *)

#[export] Instance rec_ok_dec rq : Decision (rec_ok rq).
Proof. destruct rq; cbn; unfold rec_mem; apply _. Defined.
#[export] Instance attr_ok_dec data : Decision (attr_ok data).
Proof. unfold attr_ok. apply _. Defined.
#[export] Instance whole_dec a : Decision (@nl_ok whole_attrs a).
Proof. cbn. unfold whole_rec. apply _. Defined.

Definition not_starting (c : Z) (t : task) : bool := negb (bool_decide (c ∈ task_client t)).

(** The test of [client_ok]. *)
Definition client_okb (g : sstep) (s : sa) : bool :=
  match g with
  | Q_start client port _ _ _ rq _ _ _ => bool_decide (client ∈ registered s /\ (dev s = D_none \/ is_Some (ports s !! port)) /\ rec_ok rq)
  | Q_send _ (inl ret) _ => bool_decide (ret < 0)
  | Q_send _ (inr id) _ => bool_decide (0 <= id)
  | Q_post _ ret => bool_decide (ret <= 0)
  | M_recv _ (Some (_, data)) => bool_decide (attr_ok data)
  | L_resp _ _ attrs _ => bool_decide (Forall (@nl_ok whole_attrs) attrs)
  | C_unregister c => bool_decide (c ∈ registered s) && forallb (not_starting c) (tasks s)
  | D_remove_port port =>
      bool_decide (is_Some (ports s !! port)) && forallb (fun p => negb (q_port p.2 =? port) || bool_decide (p.1 ∈ (posted s).*1)) (map_to_list (heap s))
  | _ => true
  end.

Lemma client_okb_ok g s : client_okb g s = true -> @client_ok whole_attrs g s.
Proof.
  destruct g; cbn; try done.
  - by intros ?%bool_decide_eq_true.
  - destruct xa; by intros ?%bool_decide_eq_true.
  - by intros ?%bool_decide_eq_true.
  - destruct r as [[st data]|]; [|done]. by intros ?%bool_decide_eq_true.
  - by intros ?%bool_decide_eq_true.
  - intros [H1%bool_decide_eq_true H2]%andb_true_iff. split; [done|]. rewrite forallb_forall in H2. intros q.
    split; intros Hin%list_elem_of_In; specialize (H2 _ Hin); unfold not_starting in H2; cbn in H2; apply negb_true_iff, bool_decide_eq_false in H2; apply H2; left.
  - intros [H1%bool_decide_eq_true H2]%andb_true_iff. split; [done|]. rewrite forallb_forall in H2. intros q x Hq Hp.
    specialize (H2 (q, x)). cbn in H2. rewrite Hp, Z.eqb_refl in H2. cbn in H2. apply (bool_decide_eq_true_1 _), H2, list_elem_of_In. by apply elem_of_map_to_list.
Qed.

(** A schedule whose steps are as the code relies on. *)
Fixpoint checked (HZ : Z) (l : list sstep) (s : sa) : option sa :=
  match l with
  | [] => Some s
  | g :: r => if client_okb g s then match s_run HZ g s with Ok s' => checked HZ r s' | _ => None end else None
  end.

Lemma checked_reachable HZ l : forall s s', @s_reachable HZ whole_attrs s -> checked HZ l s = Some s' -> @s_reachable HZ whole_attrs s'.
Proof.
  induction l as [|g l IH]; intros s s' Hr; cbn [checked]; [by intros [= <-]|]. destruct (client_okb g s) eqn:Eg; [|done]. destruct (s_run HZ g s) as [s1| |] eqn:Es; try done.
  apply IH. eapply s_next; [done|by apply client_okb_ok|done].
Qed.

(** Whole records are attributes. *)
Lemma whole_any g s : @client_ok whole_attrs g s -> @client_ok any_attrs g s.
Proof. destruct g; try done. cbn. intros H. eapply Forall_impl; [exact H|]. by intros a [_ Ha]. Qed.

Lemma whole_reachable HZ s : @s_reachable HZ whole_attrs s -> @s_reachable HZ any_attrs s.
Proof. induction 1 as [|s g s' _ IH Hok Hs]; [constructor|]. eapply s_next; [exact IH|by apply whole_any|exact Hs]. Qed.

Definition demo_attr : ib_port_attr := {| pa_lmc := 0; pa_sm_lid := 1; pa_sm_sl := 0; pa_subnet_prefix := 0 |}.
Definition demo_path : path := {| pr_mem := pr_mem demo_opa; rec_type := SA_PATH_REC_TYPE_IB; pr_flags := 0 |}.

(** A client and a device with one port; a path query that goes to the local service; its answer. *)
Definition demo_up : list sstep := [C_register 1; D_add true (fun _ => true) (fun _ => 0) 1 1; P_update 1 (Some 1%positive) false false demo_attr 0].
Definition demo_ask : list sstep :=
  [Q_start 1 1 true 4 1000 (RQ_path demo_path) (Some 5%positive) true (Some 1); Q_alloc 5 (Some 1); Q_create 5 (Some 1) true true; Q_send 5 (inr 0) true; Q_nl 5 true 0].
Definition demo_rec : nl_attr := (LS_NLA_TYPE_PATH_RECORD, ([10; 0; 0; 0; 0; 0; 0; 0] ++ replicate 64 7)%list).
Definition demo_answer : list sstep := [L_resp 1 true [demo_rec] 0; Q_good 5 [demo_rec]; Q_done 5 false].
Definition demo_gone : list sstep := [D_remove_quiet; D_remove_flush; D_remove_port 1; D_remove_end].

Definition after (l : list sstep) : sa := default sa_init (checked 250 l sa_init).

Lemma sa_after_reachable l : bool_decide (is_Some (checked 250 l sa_init)) = true -> @s_reachable 250 whole_attrs (after l).
Proof. intros [s' E]%bool_decide_eq_true. unfold after. rewrite E. eapply checked_reachable; [apply s_init|exact E]. Qed.

Lemma demo_answered : @s_reachable 250 whole_attrs (after (demo_up ++ demo_ask ++ demo_answer)).
Proof. apply sa_after_reachable. vm_compute. reflexivity. Qed.

(** *** The race of the cancellation *)

Definition demo_race : list sstep := demo_up ++ demo_ask ++ [L_resp 1 true [demo_rec] 0; Q_good 5 [demo_rec]; C_cancel 0 5; Q_done 5 false].

(** The client cancels while the answer is on its way: the buffer the cancellation looks at has been
    freed. *)
Lemma cancel_races_with_answer : @s_reachable 250 whole_attrs (after demo_race) /\ s_run 250 (C_cancel_mad 5) (after demo_race) = Bug.
Proof. split; [apply sa_after_reachable|]; vm_compute; reflexivity. Qed.

Lemma sa_queries_never_bug_witness : s_run 250 (C_cancel_mad 5) (after demo_race) = Bug /\ heap (after demo_race) !! 5%positive = None.
Proof.
  assert (s_run 250 (C_cancel_mad 5) (after demo_race) = Bug) as E by (vm_compute; reflexivity). split; [exact E|].
  destruct (sa_queries_never_bug 250 (after demo_race) (C_cancel_mad 5)) as [(q & [= <-] & H)|(q & attrs & a & [=] & _)];
    [apply whole_reachable, sa_after_reachable; vm_compute; reflexivity|exact I|exact E|exact H].
Defined.

Lemma sa_queries_reported_once_witness : let s := after (demo_up ++ demo_ask ++ demo_answer) in
  exists x, N_done x ∈ notes s /\ length (q_calls x) = 1%nat.
Proof.
  intros s. destruct (sa_queries_reported_once 250 s demo_answered) as [H _].
  assert (exists x, nth_error (notes s) 1 = Some (N_done x) /\ q_callback x = true) as (x & Ex & Ec) by (vm_compute; eexists; split; reflexivity).
  exists x. assert (N_done x ∈ notes s) as Hin by (apply list_elem_of_In; exact (nth_error_In _ _ Ex)). split; [exact Hin|]. rewrite (H x Hin), Ec. reflexivity.
Defined.

(** The handle with the query and the port. *)
Lemma sa_references_exact_witness : let s := after (demo_up ++ demo_ask) in
  (ah_ref <$> ahs s !! 1%positive) = Some 2 /\ users_of s 1 = 2%nat /\ queries_of s 1 = 1%nat /\ clients s !! 1 = Some 2.
Proof.
  intros s. assert (@s_reachable 250 whole_attrs s) as Hr by (apply sa_after_reachable; vm_compute; reflexivity).
  destruct (sa_references_exact 250 s Hr) as (HA & HC & _). specialize (HA 1%positive). specialize (HC 1).
  assert (exists h, ahs s !! 1%positive = Some h /\ ah_ref h = 2) as (h & Eh & Er) by (vm_compute; eexists; split; reflexivity).
  assert (clients s !! 1 = Some 2 /\ bool_decide (1 ∈ registered s) = true) as (Ec & Eg) by (vm_compute; split; reflexivity).
  rewrite Eh in HA. rewrite Ec in HC. apply bool_decide_eq_true in Eg. rewrite decide_True in HC by exact Eg.
  split; [rewrite Eh; cbn; by rewrite Er|]. split; [lia|]. split; [lia|exact Ec].
Defined.

Lemma sa_all_given_back_witness : let s := after (demo_up ++ demo_ask ++ demo_answer ++ demo_gone) in ahs s = ∅ /\ ids s = ∅.
Proof.
  intros s. assert (@s_reachable 250 whole_attrs s) as Hr by (apply sa_after_reachable; vm_compute; reflexivity).
  destruct (sa_all_given_back 250 s Hr) as (H1 & H2 & _); [vm_compute; reflexivity|vm_compute; reflexivity|]. split; [exact H1|exact H2].
Defined.

Lemma sa_requests_have_a_timer_witness : let s := after (demo_up ++ demo_ask) in nl_list s <> [] /\ (is_Some (tw_pending s) \/ tw_run s <> TR_no).
Proof.
  intros s. assert (@s_reachable 250 whole_attrs s) as Hr by (apply sa_after_reachable; vm_compute; reflexivity). destruct (sa_requests_have_a_timer 250 s Hr) as (H & _).
  assert (nl_list s <> []) as Hn by (vm_compute; discriminate). split; [exact Hn|exact (H Hn)].
Defined.

(** Sends are accepted and time out; there are no more identifiers. *)
Definition demo_answers : answers :=
  {| o_query_ok := fun _ _ => true; o_mad_ok := fun _ _ => true; o_xa := fun _ _ => inl (-12); o_listeners := fun _ _ => true; o_skb := fun _ _ => true; o_sent := fun _ _ => 0;
     o_post := fun _ _ => 0; o_resp := fun _ _ => None; o_status := fun _ _ => IB_WC_RESP_TIMEOUT_ERR |}.

Lemma demo_answers_ok : answers_ok demo_answers.
Proof. split; cbn; intros; try done. Qed.

Lemma sa_queries_end_witness : exists s', o_runs 250 demo_answers (after (demo_up ++ demo_ask)) s' /\ heap s' = ∅.
Proof.
  destruct (sa_queries_end 250 demo_answers (after (demo_up ++ demo_ask)) demo_answers_ok) as (s' & H1 & _ & H2); [apply sa_after_reachable; vm_compute; reflexivity|].
  exists s'. split; [exact H1|exact H2].
Defined.

(** ** What the code does not do *)

(** A new timeout of the local service is added to the deadlines in milliseconds, which are in
    jiffies: with 250 jiffies a second, 3000 instead of 2000 ms makes 6000 ms of a request. *)
Lemma timeout_in_wrong_unit : let s := after (demo_up ++ demo_ask ++ [L_timeout (Some 3000)]) in
  (q_timeout <$> heap s !! 5%positive) = Some 1500 /\ msecs_to_jiffies 250 3000 = 750 /\ tw_pending s = Some 1500.
Proof. vm_compute. auto. Qed.

(** The timer of a request that was answered stays set; a request that finds it set waits for it,
    here 200 s instead of 100 ms. *)
Lemma stale_timer_delays_request :
  let s := after (demo_up ++ [L_timeout (Some 200000)] ++ demo_ask ++ demo_answer ++ [L_timeout (Some 100)] ++
    [Q_start 1 1 true 4 1000 (RQ_path demo_path) (Some 6%positive) true (Some 1); Q_alloc 6 (Some 1); Q_create 6 (Some 1) true true; Q_send 6 (inr 0) true; Q_nl 6 true 0]) in
  nl_list s = [6%positive] /\ (q_timeout <$> heap s !! 6%positive) = Some 25 /\ tw_pending s = Some 50000.
Proof. vm_compute. auto. Qed.

Definition reports_of (s : sa) : list (list Z) := omap (fun n => match n with N_done x => Some (c_status <$> q_calls x) | _ => None end) (notes s).

(** A send that fails after the time of the local service is reported as a cancelled query, one
    that fails after an error of the local service as an error. *)
Lemma send_error_reported_as_cancelled :
  reports_of (after (demo_up ++ demo_ask ++ [Tick 500; L_fire; L_loop (-12); Q_fail 5 IB_WC_WR_FLUSH_ERR true; Q_done 5 true])) = [[err EINTR]] /\
  reports_of (after (demo_up ++ demo_ask ++ [L_resp 1 false [] (-12); Q_fail 5 IB_WC_GENERAL_ERR false; Q_done 5 false])) = [[err EIO]].
Proof. vm_compute. auto. Qed.

(** An attribute that is shorter than a path record is read behind its end. *)
Definition short_rec : nl_attr := (LS_NLA_TYPE_PATH_RECORD, [10; 0; 0; 0]).
Lemma short_attribute_is_read_behind_its_end : s_runs 250 (demo_up ++ demo_ask ++ [L_resp 1 true [short_rec] 0; Q_good 5 [short_rec]]) sa_init = Bug.
Proof. vm_compute. reflexivity. Qed.

(** A device is removed with a request on the list: the timer uses its port. *)
Lemma removal_leaves_requests : s_runs 250 (demo_up ++ demo_ask ++ demo_gone ++ [Tick 500; L_fire; L_loop 0]) sa_init = Bug.
Proof. vm_compute. reflexivity. Qed.

(** ** The message of a request *)

(** The space that is asked for is the space the attributes take. *)
Definition attrs_size (l : list nl_attr) : Z := foldr (fun a n => nla_total_size (Z.of_nat (length a.2)) + n) 0 l.

Lemma message_fits mask rec : rec_mem rec -> 0 < ib_nl_get_path_rec_attrs_len mask ->
  nlmsg_align LS_HEADER_SIZE + attrs_size (ib_nl_set_path_rec_attrs mask rec) = ib_nl_get_path_rec_attrs_len mask.
Proof.
  intros [L B]. assert (forall f, member_ok f -> exists bs, mem_read (p_off f) (p_size f) rec = Some bs /\ length bs = p_size f) as Hr.
  { intros f Hf. destruct (mem_read_ok (p_off f) (p_size f) rec) as [bs E]; [unfold member_ok in Hf; lia|]. exists bs. split; [done|]. by eapply length_mem_read. }
  unfold ib_nl_set_path_rec_attrs. cbv zeta.
  destruct (Hr "service_id"%string ltac:(by_layout)) as (b1 & -> & L1). destruct (Hr "dgid"%string ltac:(by_layout)) as (b2 & -> & L2). destruct (Hr "sgid"%string ltac:(by_layout)) as (b3 & -> & L3).
  destruct (Hr "traffic_class"%string ltac:(by_layout)) as (b4 & -> & L4). destruct (Hr "pkey"%string ltac:(by_layout)) as (b5 & -> & L5). destruct (Hr "qos_class"%string ltac:(by_layout)) as (b6 & -> & L6).
  unfold ib_nl_get_path_rec_attrs_len. cbv zeta.
  destruct (has_flag mask IB_SA_PATH_REC_SERVICE_ID), (has_flag mask IB_SA_PATH_REC_DGID), (has_flag mask IB_SA_PATH_REC_SGID), (has_flag mask IB_SA_PATH_REC_TRAFFIC_CLASS),
    (has_flag mask IB_SA_PATH_REC_PKEY), (has_flag mask IB_SA_PATH_REC_QOS_CLASS); cbn [app attrs_size foldr snd]; rewrite ?length_reverse, ?L1, ?L2, ?L3, ?L4, ?L5, ?L6; vm_compute; (reflexivity || discriminate).
Qed.
